(* ===== verification/_CoqProject ===== *)
-Q . S2P
Prelude.v
Bitmap.v
BitmapScan.v
Vaddr.v
Palloc.v
KList.v
KListSort.v
Hash.v
Thread.v
Synch.v
SynchSafe.v
Disk.v
Inode.v
FreeMap.v
CString.v
Directory.v
Filesys.v
Arithmetic.v
StdSort.v
Random.v
Pages.v
Malloc.v
Pagedir.v
AddrSpace.v
Bits.v
Paging.v
Intq.v
Stdio.v
Ustar.v
UserMem.v
Space.v
ArgPass.v
Files.v
Volume.v
FileCalls.v
Mount.v
Loader.v
Exec.v
KernelHeap.v
Format.v
Blockdev.v
Partition.v
Interrupt.v
Entry.v
Segment.v
Drivers.v
DriversSafe.v
Timer.v
Exception.v
Syscall.v
SyscallSpec.v
UserCalls.v
Swap.v
Frame.v
