(* ===== verification/Prelude.v ===== *)
(** A verification of the Pintos kernel of this repository (src/), a small operating system for the
    80x86 with threads, a page allocator and a heap, virtual memory for user processes, a file
    system, devices and system calls, and of the part of its C library that the kernel uses. The
    build is the one with user programs and the file system and without the option VM; the frame
    table and the swap area of src/vm are modelled on their own.

    * How the code is modelled

    Every function of C is a Gallina function on the state that it reads and writes. A w-bit integer
    is a [Z] with its wrap-around written out ([u32], [s32], [u64], [s64]). A call gives [Ok] with a
    result and a state, [Fault] for a failed assertion, a panic or an access that C does not define,
    or [Timeout] when the fuel of a loop is spent; [res] is the monad of that, and [ST] adds a state
    (both below). Operations that run with interrupts off or under a lock are atomic; where other
    threads or handlers can come in between, a call is a sequence of steps, and the theorems are on
    all interleavings. Lists that are embedded in structures are sequences once [KList] has shown
    that the pointers implement them; where the structures can be freed under the list, as for the
    children of a thread, the links stay explicit.

    The parts of the kernel meet at interfaces, type classes with the operations and with the laws
    that the client's theorems use and the implementation's theorems prove: [PageOps]/[PageLaws]
    (Pages), [HeapOps]/[HeapLaws] (KernelHeap), [FileSys]/[WorldLaws] (Files), [UserMem]/[UserLaws]
    (UserMem), [AccessedBits]/[AccessedLaws] (Frame). Functions that a caller passes (comparison, hash,
    output) are arguments with the contract that the headers document.

    * The parts and their files

    Library (src/lib, src/lib/kernel): [Bitmap] and [BitmapScan] (bitmap.c with its four placement
    policies), [KList] and [KListSort] (list.c), [Hash] (hash.c), [CString] (string.c), [Arithmetic]
    (arithmetic.c), [StdSort] (stdlib.c), [Random] (random.c), [Stdio] and [Format] (stdio.c), [Ustar]
    (ustar.c), [Bits] (fields of descriptors).
    Memory (src/threads, src/userprog): [Vaddr] (vaddr.h, pte.h), [Palloc] and [Pages] (palloc.c),
    [Malloc] and [KernelHeap] (malloc.c), [Pagedir] and [AddrSpace] (pagedir.c and what the processor
    does with the tables), [Paging] (paging_init of init.c), [Segment] (gdt.c, tss.c), [Swap] and
    [Frame] (src/vm/swap.c, frame.c).
    Threads and interrupts (src/threads, src/devices): [Thread] (thread.c), [Synch] and [SynchSafe]
    (synch.c, and threads that run on both), [Interrupt] (interrupt.c), [Entry] (intr-stubs.S,
    switch.S, and the frames of thread.c and process.c), [Intq] (intq.c), [Drivers], [DriversSafe] and
    [Timer] (timer.c, pit.c, kbd.c, serial.c, input.c), [Exception] (exception.c, and which handlers
    main of init.c registers).
    Files (src/devices, src/filesys): [Disk] and [Blockdev] (block.c), [Partition] (partition.c),
    [Inode] and [FreeMap] (inode.c, free-map.c, file.c), [Directory] (directory.c), [Filesys]
    (filesys.c), [Files], [Volume], [FileCalls] and [Mount] (the file system as its clients see it).
    Processes (src/userprog, src/lib/user): [UserMem] and [Space] (the memory of a process), [ArgPass],
    [Loader] and [Exec] (process.c), [Syscall] and [SyscallSpec] (syscall.c), [UserCalls] (the library
    function of each call, in lib/user/syscall.c).

    * What the theorems show

    Memory. Blocks of pages and of the heap never overlap, over every history of calls
    ([palloc_blocks_disjoint], [malloc_blocks_disjoint], the latter for every size, with what happens
    to the sizes whose arithmetic wraps). Page directories are maps
    from pages to frames ([pagedir_refines_map]), and an access of a program reads and writes the
    frame that its own directory gives, also through the TLB ([access_isolated]); [paging_init_maps]
    and [segments_protect] are on the tables of the kernel and on the descriptors. The swap area is a
    map from slots to pages ([swap_keeps_pages]); [frame_evicted] says which frame each policy takes,
    the errors of the code included.
    Threads. The scheduler's queues, mutual exclusion and the wakeups of semaphores hold under all
    interleavings ([scheduler_invariant], [lock_mutual_exclusion], [no_lost_wakeup], [kernel_progress]);
    they are for histories in which no creation of a thread fails at its descriptor table, and the
    first and the last of them say what such a failure, and a creation after the exit of the last
    child, do. [switch_threads_switches] and [new_thread_starts] are on the instructions of the
    switch.
    Interrupts and devices. The stubs save and restore the interrupted code, but for vector 12, whose
    frame they misread ([interrupt_saves_and_resumes]); which vectors exist and who may call them
    ([kernel_vectors]); what becomes of each exception ([exceptions_contained]); the handlers of the
    devices keep all invariants ([device_interrupts_safe], [timer_interrupt_is_step]), lose and invent
    no byte ([serial_interrupt_moves], [intq_fifo]) and type what was pressed ([key_types]);
    [timer_calibrated] is on the calibration of delays.
    Files. Devices are arrays of sectors ([device_refines_block], [partition_scan_finds]). Every
    sequence of calls is answered as by a volume of named files ([file_system_refines_spec]), and a
    boot from the disk alone finds all of them again ([remount_keeps_files]). Both are for histories
    in which no allocation of memory fails; with a failed one the directory can get two entries of one
    name (lemma [dir_add_duplicates]).
    Processes. [load_image] and [load_exit_conserves] are on starting and ending a process, whose
    arguments fit in the page of the stack, [syscall_refines_spec] and [syscall_kills_bad_pointers] on
    the system calls, with the conditions of [fits] and [proc_ok], and [lib_calls_served] on the library
    functions in front of them. The message of a process that ends is the one of the code, which is
    not the one that the tests expect.
    Library. Lists, sorted lists and hash tables are sequences and maps ([list_ops_refine_sequences],
    [list_sort_sorts], [hash_table_refines_map]); division, sorting, decimal output and archive headers
    are right ([div64_correct], [qsort_correct], [printf_decimal_roundtrip], [ustar_roundtrip],
    [ustar_parse_safe]).

    * Fuel

    Loops without a bound in the code take fuel, and the theorems show that it is enough: as many
    rounds as there are elements or bytes in memory for lists and strings, as bits for the scans of
    bitmaps, as characters for formats. [read_partition_table] is the exception: on a table with an
    extended partition the code need not return, which is shown. [sema_down] and the calls on
    interrupt queues repeat as steps of the scheduler and need none.

    * What is not modelled

    The drivers of IDE disks, screen, speaker and clock (port accesses whose effect is that of the
    hardware), the boot loader and the start code, the options and actions of the kernel's command
    line, the console and the backtraces, the commands of fsutil.c, the start code and output of user
    programs, and vm/page.c, which does not compile. A system call that starts or waits for a process
    ends where the other process comes in. Contents of names, statistics and messages are modelled
    where a theorem is on them. The disks, the processor's fields and the time that a loop takes are
    arguments of the definitions that use them.

    This file has the shared vocabulary: the width of the machine's integers, the outcomes a piece of
    kernel code can have, the error monad they form, and the lemmas and tactics every component
    uses. *)

From Stdlib Require Export ZArith Lia.
From stdpp Require Export base decidable numbers option gmap list.

#[global] Open Scope Z_scope.

(** ** Outcomes

    A kernel function returns, stops the machine, or does not finish.
    [ASSERT] and [PANIC] (src/lib/debug.h, src/lib/kernel/debug.c) both halt
    the kernel; [BadAccess] marks a load or store the C standard leaves
    undefined (a null pointer, an array index out of range), [DivideError] the
    trap of the division instruction.  [Timeout] is the outcome of a loop that
    has used up the fuel it was given. *)

Inductive fault : Set :=
| AssertFail
| PanicCall
| BadAccess
| DivideError.

Inductive res (A : Type) : Type :=
| Ok (a : A)
| Fault (f : fault)
| Timeout.
Arguments Ok {A} a.
Arguments Fault {A} f.
Arguments Timeout {A}.

#[export] Instance fault_eq_dec : EqDecision fault.
Proof. solve_decision. Defined.

#[export] Instance res_eq_dec `{EqDecision A} : EqDecision (res A).
Proof. solve_decision. Defined.

#[export] Instance res_ret : MRet res := @Ok.
#[export] Instance res_bind : MBind res := λ A B f m,
  match m with
  | Ok a => f a
  | Fault e => Fault e
  | Timeout => Timeout
  end.
#[export] Instance res_map : FMap res := λ A B f m,
  match m with
  | Ok a => Ok (f a)
  | Fault e => Fault e
  | Timeout => Timeout
  end.

Declare Scope kernel_scope.
Delimit Scope kernel_scope with K.
#[global] Open Scope kernel_scope.

Notation "'ASSERT' b ';;' k" := (if (b : bool) then k else Fault AssertFail)
  (at level 10, b at level 99, k at level 200) : kernel_scope.

(** Reading an option as a pointer that must not be null or dangling. *)
Definition deref {A} (o : option A) : res A :=
  match o with Some a => Ok a | None => Fault BadAccess end.

(** C's [&&] and [||] on operands that may fault: the right operand is only
    evaluated when the left one does not decide. *)
Definition and_then (x y : res bool) : res bool :=
  b ← x; if b : bool then y else Ok false.
Definition or_else (x y : res bool) : res bool :=
  b ← x; if b : bool then Ok true else y.
Infix "&&&" := and_then (at level 40, left associativity) : kernel_scope.
Infix "|||" := or_else (at level 50, left associativity) : kernel_scope.

(** Code that reads and updates a state [S]. *)
Definition ST (S A : Type) : Type := S → res (A * S).
Definition retS {S A} (a : A) : ST S A := λ s, Ok (a, s).
Definition bindS {S A B} (m : ST S A) (k : A → ST S B) : ST S B :=
  λ s, match m s with Ok (a, s) => k a s | Fault e => Fault e | Timeout => Timeout end.
Definition getS {S} : ST S S := λ s, Ok (s, s).
Definition putS {S} (s : S) : ST S unit := λ _, Ok (tt, s).
Definition liftS {S A} (m : res A) : ST S A :=
  λ s, match m with Ok a => Ok (a, s) | Fault e => Fault e | Timeout => Timeout end.
Definition assertS {S} (b : bool) : ST S unit :=
  λ s, if b then Ok (tt, s) else Fault AssertFail.
Notation "x <-- m ;; k" := (bindS m (λ x, k))
  (at level 20, m at level 99, k at level 200) : kernel_scope.
Notation "' p <-- m ;; k" := (bindS m (λ x, match x with p => k end))
  (at level 20, p pattern, m at level 99, k at level 200) : kernel_scope.
Notation "m ;;; k" := (bindS m (λ _, k))
  (at level 100, k at level 200, right associativity) : kernel_scope.

Lemma res_bind_Ok {A B} (m : res A) (f : A → res B) (b : B) :
  m ≫= f = Ok b ↔ ∃ a, m = Ok a ∧ f a = Ok b.
Proof.
  destruct m as [a| |]; simpl; split.
  all: first [by intros (? & ? & ?); simplify_eq | discriminate | eauto].
Qed.

Lemma deref_Ok {A} (o : option A) a : deref o = Ok a ↔ o = Some a.
Proof. destruct o; naive_solver. Qed.

(** ** Machine words

    The kernel runs on 32-bit x86: [size_t], [unsigned], [unsigned long],
    [uintptr_t] and [block_sector_t] are 32 bits wide. *)

Abbreviation WORD := 4294967296 (only parsing).

Definition u32 (x : Z) : Z := x mod WORD.

Abbreviation NULL := 0 (only parsing).

Definition SIZE_MAX : Z := 4294967295.

(** Two's complement reading of a 32-bit word, for [int] and [off_t]. *)
Definition s32 (x : Z) : Z := (x + 2147483648) mod WORD - 2147483648.

#[global] Arguments u32 : simpl never.
#[global] Arguments s32 : simpl never.
#[global] Arguments SIZE_MAX : simpl never.

Definition is_u32 (x : Z) : Prop := 0 ≤ x < WORD.
Definition is_byte (x : Z) : Prop := 0 ≤ x < 256.
Definition is_s32 (x : Z) : Prop := -2147483648 ≤ x < 2147483648.

Lemma u32_small x : is_u32 x → u32 x = x.
Proof. intros. unfold u32. by apply Z.mod_small. Qed.

Lemma u32_range x : is_u32 (u32 x).
Proof. unfold u32, is_u32. by apply Z.mod_pos_bound. Qed.

Lemma s32_small x : is_s32 x → s32 x = x.
Proof. unfold is_s32, s32. intros. rewrite Z.mod_small; lia. Qed.

Lemma s32_range x : is_s32 (s32 x).
Proof.
  unfold s32, is_s32.
  pose proof (Z.mod_pos_bound (x + 2147483648) WORD eq_refl). lia.
Qed.

Lemma s32_u32 x : is_s32 x → s32 (u32 x) = x.
Proof. unfold s32, u32, is_s32. intros H. rewrite Zplus_mod_idemp_l. change (s32 x = x). by apply s32_small. Qed.

(** 64-bit words, for [uint64_t] and [int64_t]. *)
Abbreviation DWORD := 18446744073709551616 (only parsing).
Definition u64 (x : Z) : Z := x mod DWORD.
Definition s64 (x : Z) : Z := (x + 9223372036854775808) mod DWORD - 9223372036854775808.
#[global] Arguments u64 : simpl never.
#[global] Arguments s64 : simpl never.
Definition is_u64 (x : Z) : Prop := 0 ≤ x < DWORD.
Definition is_s64 (x : Z) : Prop := -9223372036854775808 ≤ x < 9223372036854775808.

Lemma u64_small x : is_u64 x → u64 x = x.
Proof. intros. unfold u64. by apply Z.mod_small. Qed.

Lemma s64_small x : is_s64 x → s64 x = x.
Proof. unfold is_s64, s64. intros. rewrite Z.mod_small; lia. Qed.

Lemma s64_u64 x : s64 (u64 x) = s64 x.
Proof. unfold s64, u64. by rewrite Zplus_mod_idemp_l. Qed.

(** [DIV_ROUND_UP] and [ROUND_UP] (src/lib/round.h) at [size_t]. *)
Definition DIV_ROUND_UP (x step : Z) : Z := u32 (x + step - 1) / step.

Lemma DIV_ROUND_UP_spec x step :
  0 < step → 0 ≤ x → x + step - 1 < WORD →
  step * (DIV_ROUND_UP x step - 1) < x ≤ step * DIV_ROUND_UP x step.
Proof.
  intros Hs Hx Hw. unfold DIV_ROUND_UP.
  rewrite u32_small by (unfold is_u32; lia).
  pose proof (Z.div_mod (x + step - 1) step ltac:(lia)).
  pose proof (Z.mod_pos_bound (x + step - 1) step ltac:(lia)). nia.
Qed.

(** ** Lists *)

Lemma filter_all {A} (P : A → Prop) `{!∀ x, Decision (P x)} (l : list A) :
  Forall P l → filter P l = l.
Proof. induction 1; [done|]. rewrite filter_cons_True by done. by f_equal. Qed.

Lemma filter_none {A} (P : A → Prop) `{!∀ x, Decision (P x)} (l : list A) :
  Forall (λ x, ¬ P x) l → filter P l = [].
Proof. induction 1; [done|]. by rewrite filter_cons_False. Qed.

(** ** Hints and tactics *)

Create HintDb kernel discriminated.

#[export] Hint Resolve u32_range s32_range : kernel.

(** Opens hypotheses about successful monadic runs one bind at a time. *)
Ltac res_inv :=
  repeat match goal with
  | H : _ ≫= _ = Ok _ |- _ => apply res_bind_Ok in H; destruct H as (? & ? & H)
  | H : deref _ = Ok _ |- _ => apply deref_Ok in H
  | H : Ok _ = Ok _ |- _ => injection H as H; subst
  | H : Fault _ = Ok _ |- _ => discriminate H
  | H : Timeout = Ok _ |- _ => discriminate H
  | H : (if ?b then _ else Fault AssertFail) = Ok _ |- _ =>
      destruct b eqn:?; [|discriminate H]
  | H : (_, _) = (_, _) |- _ => injection H as ? ?; subst
  end.

(** Turns the boolean tests of the code into the facts they decide. *)
Ltac bool_inv :=
  repeat match goal with
  | H : (_ && _)%bool = true |- _ => apply andb_true_iff in H; destruct H
  | H : (_ || _)%bool = false |- _ => apply orb_false_iff in H; destruct H
  | H : negb _ = true |- _ => apply negb_true_iff in H
  | H : negb _ = false |- _ => apply negb_false_iff in H
  | H : (_ <? _) = true |- _ => apply Z.ltb_lt in H
  | H : (_ <? _) = false |- _ => apply Z.ltb_ge in H
  | H : (_ <=? _) = true |- _ => apply Z.leb_le in H
  | H : (_ <=? _) = false |- _ => apply Z.leb_gt in H
  | H : (_ =? _) = true |- _ => apply Z.eqb_eq in H
  | H : (_ =? _) = false |- _ => apply Z.eqb_neq in H
  end.

(** Runs the state monad one operation at a time. *)
Lemma bindS_Ok {S A B} (m : ST S A) (k : A → ST S B) s a s' :
  m s = Ok (a, s') → bindS m k s = k a s'.
Proof. unfold bindS. by intros ->. Qed.

Lemma bindS_Fault {S A B} (m : ST S A) (k : A → ST S B) s e :
  m s = Fault e → bindS m k s = Fault e.
Proof. unfold bindS. by intros ->. Qed.

Lemma bindS_inv {S A B} (m : ST S A) (k : A → ST S B) s b s'' :
  bindS m k s = Ok (b, s'') → ∃ a s', m s = Ok (a, s') ∧ k a s' = Ok (b, s'').
Proof. unfold bindS. destruct (m s) as [[a s']| |]; naive_solver. Qed.

(** Runs the monad and the boolean connectives, and nothing else. *)
Ltac mstep := cbn [mbind res_bind fmap res_map mret res_ret and_then or_else andb orb negb deref fst snd].

(** Case analysis on the integer comparison the goal is stuck on. *)
Ltac zcase :=
  match goal with
  | |- context [?a <? ?b] => destruct (Z.ltb_spec a b)
  | |- context [?a <=? ?b] => destruct (Z.leb_spec a b)
  | |- context [?a =? ?b] => destruct (Z.eqb_spec a b)
  end.
