(* ===== verification/Bitmap.v ===== *)
(** Bitmaps (src/lib/kernel/bitmap.c): arrays of bits kept in 32-bit words.

    [bitmap] is the C struct with its word array as a list; the operations
    keep the C code's assertions, word arithmetic and loops.  [bit_at] reads
    one bit through the word representation and [wf] is the representation
    invariant; the lemmas say what every operation does to every bit. *)

From S2P Require Import Prelude.

(** ** Data *)

(** [elem_type] is [unsigned long], 4 bytes of 8 bits. *)
Definition ELEM_BITS : Z := 32.

Definition BITMAP_ERROR : Z := SIZE_MAX.

Record bitmap := Bitmap { bit_cnt : Z; bits : list Z }.

#[export] Instance bitmap_eq_dec : EqDecision bitmap.
Proof. solve_decision. Defined.

(** ** Word geometry *)

Definition elem_idx (bit_idx : Z) : Z := bit_idx / ELEM_BITS.

Definition bit_mask (bit_idx : Z) : Z := u32 (Z.shiftl 1 (bit_idx mod ELEM_BITS)).

Definition elem_cnt (bit_cnt : Z) : Z := DIV_ROUND_UP bit_cnt ELEM_BITS.

Definition byte_cnt (bit_cnt : Z) : Z := u32 (4 * elem_cnt bit_cnt).

Definition last_mask (b : bitmap) : Z :=
  let last_bits := bit_cnt b mod ELEM_BITS in
  if last_bits =? 0 then SIZE_MAX else u32 (Z.shiftl 1 last_bits) - 1.

Definition bitmap_buf_size (bit_cnt : Z) : Z := u32 (8 + byte_cnt bit_cnt).

Definition bitmap_size (b : bitmap) : Z := bit_cnt b.

(** ** Single bits

    [b->bits[idx]] is a load from the word array; an index past its end is an
    access outside the object. *)

Definition update_word (b : bitmap) (idx : Z) (f : Z → Z) : res bitmap :=
  w ← deref (bits b !! Z.to_nat idx);
  Ok (Bitmap (bit_cnt b) (<[Z.to_nat idx := f w]> (bits b))).

Definition bitmap_mark (b : bitmap) (bit_idx : Z) : res bitmap :=
  update_word b (elem_idx bit_idx) (λ w, Z.lor w (bit_mask bit_idx)).

Definition bitmap_reset (b : bitmap) (bit_idx : Z) : res bitmap :=
  update_word b (elem_idx bit_idx)
    (λ w, Z.land w (u32 (Z.lnot (bit_mask bit_idx)))).

Definition bitmap_flip (b : bitmap) (bit_idx : Z) : res bitmap :=
  update_word b (elem_idx bit_idx) (λ w, Z.lxor w (bit_mask bit_idx)).

Definition bitmap_set (b : bitmap) (idx : Z) (value : bool) : res bitmap :=
  ASSERT idx <? bit_cnt b ;;
  if value then bitmap_mark b idx else bitmap_reset b idx.

Definition bitmap_test (b : bitmap) (idx : Z) : res bool :=
  ASSERT idx <? bit_cnt b ;;
  w ← deref (bits b !! Z.to_nat (elem_idx idx));
  Ok (negb (Z.land w (bit_mask idx) =? 0)).

(** ** Ranges of bits

    Every loop runs [for (i = 0; i < cnt; i++)]; [n] is the number of
    iterations left and [i] the loop variable. *)

Fixpoint set_multiple_loop (n : nat) (i : Z) (b : bitmap) (start : Z)
    (value : bool) : res bitmap :=
  match n with
  | O => Ok b
  | S n => b ← bitmap_set b (u32 (start + i)) value;
           set_multiple_loop n (i + 1) b start value
  end.

Definition bitmap_set_multiple (b : bitmap) (start cnt : Z) (value : bool)
    : res bitmap :=
  ASSERT start <=? bit_cnt b ;;
  ASSERT u32 (start + cnt) <=? bit_cnt b ;;
  set_multiple_loop (Z.to_nat cnt) 0 b start value.

Definition bitmap_set_all (b : bitmap) (value : bool) : res bitmap :=
  bitmap_set_multiple b 0 (bitmap_size b) value.

Fixpoint count_loop (n : nat) (i : Z) (b : bitmap) (start : Z) (value : bool)
    (value_cnt : Z) : res Z :=
  match n with
  | O => Ok value_cnt
  | S n => t ← bitmap_test b (u32 (start + i));
           count_loop n (i + 1) b start value
             (if Bool.eqb t value then value_cnt + 1 else value_cnt)
  end.

Definition bitmap_count (b : bitmap) (start cnt : Z) (value : bool) : res Z :=
  ASSERT start <=? bit_cnt b ;;
  ASSERT u32 (start + cnt) <=? bit_cnt b ;;
  count_loop (Z.to_nat cnt) 0 b start value 0.

Fixpoint contains_loop (n : nat) (i : Z) (b : bitmap) (start : Z)
    (value : bool) : res bool :=
  match n with
  | O => Ok false
  | S n => t ← bitmap_test b (u32 (start + i));
           if Bool.eqb t value then Ok true
           else contains_loop n (i + 1) b start value
  end.

Definition bitmap_contains (b : bitmap) (start cnt : Z) (value : bool)
    : res bool :=
  ASSERT start <=? bit_cnt b ;;
  ASSERT u32 (start + cnt) <=? bit_cnt b ;;
  contains_loop (Z.to_nat cnt) 0 b start value.

Definition bitmap_any (b : bitmap) (start cnt : Z) : res bool :=
  bitmap_contains b start cnt true.

Definition bitmap_none (b : bitmap) (start cnt : Z) : res bool :=
  negb <$> bitmap_contains b start cnt true.

Definition bitmap_all (b : bitmap) (start cnt : Z) : res bool :=
  negb <$> bitmap_contains b start cnt false.

(** ** Creation

    [bits_mem] is the content of the memory the word array is placed in: the
    block [malloc] returned, or the words of the caller's buffer.  In
    [bitmap_create] each of the two allocations may fail. *)

Definition bitmap_create (cnt : Z) (b_ok : bool) (bits_mem : option (list Z))
    : res (option bitmap) :=
  if b_ok then
    match bits_mem with
    | Some mem => Some <$> bitmap_set_all (Bitmap cnt mem) false
    | None => if cnt =? 0 then Some <$> bitmap_set_all (Bitmap cnt []) false
              else Ok None
    end
  else Ok None.

Definition bitmap_create_in_buf (cnt : Z) (bits_mem : list Z) (block_size : Z)
    : res bitmap :=
  ASSERT bitmap_buf_size cnt <=? block_size ;;
  bitmap_set_all (Bitmap cnt bits_mem) false.

(** ** Reading a bitmap bit by bit *)

Definition bit_at (b : bitmap) (i : Z) : bool :=
  Z.testbit (default 0 (bits b !! Z.to_nat (elem_idx i))) (i mod ELEM_BITS).

(** The representation invariant.  The bound on [bit_cnt] keeps
    [DIV_ROUND_UP] from wrapping around. *)
Record wf (b : bitmap) : Prop := {
  wf_cnt : 0 ≤ bit_cnt b ≤ WORD - 32;
  wf_len : length (bits b) = Z.to_nat (elem_cnt (bit_cnt b));
  wf_words : Forall is_u32 (bits b);
}.

(** The invariant as a test, for concrete bitmaps. *)
Definition wf_dec (b : bitmap) : bool :=
  (0 <=? bit_cnt b) && (bit_cnt b <=? WORD - 32)
  && Nat.eqb (length (bits b)) (Z.to_nat (elem_cnt (bit_cnt b)))
  && forallb (λ w, (0 <=? w) && (w <? WORD)) (bits b).

Lemma wf_dec_ok b : wf_dec b = true → wf b.
Proof.
  unfold wf_dec. intros. bool_inv. split; [done|by apply Nat.eqb_eq|].
  apply List.Forall_forall. intros w Hw.
  match goal with H : forallb _ _ = true |- _ => rewrite List.forallb_forall in H;
    specialize (H w Hw) end.
  bool_inv. done.
Qed.

(** All of the [cnt] bits from [start] on have the value [v]. *)
Definition all_bits (b : bitmap) (start cnt : Z) (v : bool) : Prop :=
  ∀ i, start ≤ i < start + cnt → bit_at b i = v.

(** What a bitmap looks like from the outside: an array of bits. *)
Definition to_bools (b : bitmap) : list bool := bit_at b <$> seqZ 0 (bit_cnt b).

(** ** Word-level facts *)

Lemma bit_mask_pow i : bit_mask i = 2 ^ (i mod ELEM_BITS).
Proof.
  unfold bit_mask, ELEM_BITS. pose proof (Z.mod_pos_bound i 32 eq_refl).
  rewrite Z.shiftl_1_l. apply u32_small. split; [apply Z.pow_nonneg; lia|].
  change WORD with (2 ^ 32). apply Z.pow_lt_mono_r; lia.
Qed.

Lemma land_mask_eqb w k :
  0 ≤ k → negb (Z.land w (2 ^ k) =? 0) = Z.testbit w k.
Proof.
  intros Hk. destruct (Z.testbit w k) eqn:E.
  - apply negb_true_iff, Z.eqb_neq. intros H0.
    apply (f_equal (λ x, Z.testbit x k)) in H0.
    rewrite Z.land_spec, E, Z.pow2_bits_true, Z.bits_0 in H0 by done. done.
  - apply negb_false_iff, Z.eqb_eq, Z.bits_inj'. intros n Hn.
    rewrite Z.land_spec, Z.bits_0, Z.pow2_bits_eqb by done.
    destruct (Z.eqb_spec k n); [by subst; rewrite E|by rewrite andb_false_r].
Qed.

Lemma testbit_u32_small x k : 0 ≤ k < 32 → Z.testbit (u32 x) k = Z.testbit x k.
Proof.
  intros Hk. unfold u32. change WORD with (2 ^ 32).
  apply Z.mod_pow2_bits_low. lia.
Qed.

Lemma testbit_set_mask w i k :
  0 ≤ k < 32 →
  Z.testbit (Z.lor w (bit_mask i)) k
    = if k =? i mod ELEM_BITS then true else Z.testbit w k.
Proof.
  intros Hk. rewrite bit_mask_pow, Z.lor_spec.
  pose proof (Z.mod_pos_bound i ELEM_BITS eq_refl).
  rewrite Z.pow2_bits_eqb by lia. rewrite (Z.eqb_sym k).
  zcase; [apply orb_true_r|apply orb_false_r].
Qed.

Lemma testbit_clear_mask w i k :
  0 ≤ k < 32 →
  Z.testbit (Z.land w (u32 (Z.lnot (bit_mask i)))) k
    = if k =? i mod ELEM_BITS then false else Z.testbit w k.
Proof.
  intros Hk. rewrite bit_mask_pow, Z.land_spec, testbit_u32_small by done.
  pose proof (Z.mod_pos_bound i ELEM_BITS eq_refl).
  rewrite Z.lnot_spec, Z.pow2_bits_eqb by lia. rewrite (Z.eqb_sym k).
  zcase; [apply andb_false_r|apply andb_true_r].
Qed.

Lemma testbit_flip_mask w i k :
  Z.testbit (Z.lxor w (bit_mask i)) k
    = xorb (Z.testbit w k) (k =? i mod ELEM_BITS).
Proof.
  rewrite bit_mask_pow, Z.lxor_spec.
  pose proof (Z.mod_pos_bound i ELEM_BITS eq_refl).
  rewrite Z.pow2_bits_eqb by lia. by rewrite (Z.eqb_sym k).
Qed.

Lemma is_u32_bits x : 0 ≤ x → (∀ k, 32 ≤ k → Z.testbit x k = false) → is_u32 x.
Proof.
  intros Hx H. split; [done|]. destruct (Z.eq_dec x 0) as [->|]; [done|].
  change WORD with (2 ^ 32). apply Z.log2_lt_pow2; [lia|].
  destruct (Z.lt_ge_cases (Z.log2 x) 32) as [?|Hge]; [done|].
  specialize (H _ Hge). rewrite Z.bit_log2 in H by lia. done.
Qed.

Lemma is_u32_testbit x k : is_u32 x → 32 ≤ k → Z.testbit x k = false.
Proof.
  intros [? Hx] Hk. destruct (Z.eq_dec x 0) as [->|]; [apply Z.bits_0|].
  apply Z.bits_above_log2; [done|].
  change WORD with (2 ^ 32) in Hx. apply Z.log2_lt_pow2 in Hx; lia.
Qed.

Lemma is_u32_mask i : is_u32 (bit_mask i).
Proof. apply u32_range. Qed.

Lemma is_u32_lor a c : is_u32 a → is_u32 c → is_u32 (Z.lor a c).
Proof.
  intros Ha Hc. apply is_u32_bits.
  - apply Z.lor_nonneg. destruct Ha, Hc. lia.
  - intros k ?. by rewrite Z.lor_spec, !is_u32_testbit.
Qed.

Lemma is_u32_land a c : is_u32 a → is_u32 c → is_u32 (Z.land a c).
Proof.
  intros Ha Hc. apply is_u32_bits.
  - apply Z.land_nonneg. destruct Ha. lia.
  - intros k ?. by rewrite Z.land_spec, !is_u32_testbit.
Qed.

Lemma is_u32_lxor a c : is_u32 a → is_u32 c → is_u32 (Z.lxor a c).
Proof.
  intros Ha Hc. apply is_u32_bits.
  - apply Z.lxor_nonneg. destruct Ha, Hc. lia.
  - intros k ?. by rewrite Z.lxor_spec, !is_u32_testbit.
Qed.

#[export] Hint Resolve is_u32_mask is_u32_lor is_u32_land is_u32_lxor : kernel.

(** ** Single-bit operations, bit by bit *)

Section bitmap_ops.
Implicit Types (b : bitmap) (i j start cnt : Z).

Lemma wf_word_in_range b i :
  wf b → 0 ≤ i < bit_cnt b → (Z.to_nat (elem_idx i) < length (bits b))%nat.
Proof.
  intros [Hc Hl _] Hi. rewrite Hl. unfold elem_cnt, elem_idx, ELEM_BITS.
  pose proof (DIV_ROUND_UP_spec (bit_cnt b) 32 ltac:(lia) ltac:(lia) ltac:(lia)).
  pose proof (Z.div_mod i 32 ltac:(lia)).
  pose proof (Z.mod_pos_bound i 32 eq_refl).
  apply Z2Nat.inj_lt; lia.
Qed.

Lemma wf_word b i :
  wf b → 0 ≤ i < bit_cnt b →
  ∃ w, bits b !! Z.to_nat (elem_idx i) = Some w ∧ is_u32 w.
Proof.
  intros Hwf Hi.
  destruct (lookup_lt_is_Some_2 _ _ (wf_word_in_range b i Hwf Hi)) as [w Hw].
  exists w. split; [done|]. eapply Forall_lookup_1; [apply Hwf|done].
Qed.

(** A load of a bit inside the bitmap passes the assertion and returns it. *)
Lemma bitmap_test_spec b i :
  wf b → 0 ≤ i < bit_cnt b → bitmap_test b i = Ok (bit_at b i).
Proof.
  intros Hwf Hi. destruct (wf_word b i Hwf Hi) as (w & Hw & _).
  unfold bitmap_test, bit_at. rewrite Hw. simpl.
  rewrite (proj2 (Z.ltb_lt _ _)) by lia. simpl. f_equal.
  rewrite bit_mask_pow. apply land_mask_eqb. by apply Z.mod_pos_bound.
Qed.

Lemma bitmap_test_out_of_range b i :
  bit_cnt b ≤ i → bitmap_test b i = Fault AssertFail.
Proof. intros. unfold bitmap_test. zcase; [lia|done]. Qed.

(** Changing one word changes the bits of that word only. *)
Lemma update_word_spec b i (f : Z → Z) (v : bool) :
  wf b → 0 ≤ i < bit_cnt b →
  (∀ w, is_u32 w → is_u32 (f w)) →
  (∀ w k, 0 ≤ k < 32 →
     Z.testbit (f w) k = if k =? i mod ELEM_BITS then v else Z.testbit w k) →
  ∃ b', update_word b (elem_idx i) f = Ok b' ∧ wf b' ∧ bit_cnt b' = bit_cnt b ∧
        ∀ j, 0 ≤ j → bit_at b' j = if j =? i then v else bit_at b j.
Proof.
  intros Hwf Hi Hf Hbits. destruct (wf_word b i Hwf Hi) as (w & Hw & Hu).
  unfold update_word. rewrite Hw. simpl. eexists. split; [done|]. split; [|split].
  - destruct Hwf as [Hc Hl Hws]. split; simpl; [done| |].
    + by rewrite length_insert.
    + apply Forall_insert; auto.
  - done.
  - intros j Hj. unfold bit_at at 1. simpl.
    pose proof (Z.mod_pos_bound i 32 eq_refl). pose proof (Z.mod_pos_bound j 32 eq_refl).
    pose proof (Z.div_mod i 32 ltac:(lia)). pose proof (Z.div_mod j 32 ltac:(lia)).
    destruct (Z.eq_dec (elem_idx i) (elem_idx j)) as [He|Hne].
    + rewrite He, list_lookup_insert_eq
        by (rewrite <- He; eapply lookup_lt_Some; exact Hw).
      simpl. rewrite Hbits by done. unfold bit_at. rewrite <- He, Hw. simpl.
      unfold elem_idx, ELEM_BITS in *. repeat zcase; try done; exfalso; lia.
    + rewrite list_lookup_insert_ne
        by (intros Heq%Z2Nat.inj; [done|apply Z.div_pos; unfold ELEM_BITS; lia..]).
      fold (bit_at b j). zcase; [congruence|done].
Qed.

Lemma bitmap_mark_spec b i :
  wf b → 0 ≤ i < bit_cnt b →
  ∃ b', bitmap_mark b i = Ok b' ∧ wf b' ∧ bit_cnt b' = bit_cnt b ∧
        ∀ j, 0 ≤ j → bit_at b' j = if j =? i then true else bit_at b j.
Proof.
  intros. apply update_word_spec; eauto with kernel.
  intros. by apply testbit_set_mask.
Qed.

Lemma bitmap_reset_spec b i :
  wf b → 0 ≤ i < bit_cnt b →
  ∃ b', bitmap_reset b i = Ok b' ∧ wf b' ∧ bit_cnt b' = bit_cnt b ∧
        ∀ j, 0 ≤ j → bit_at b' j = if j =? i then false else bit_at b j.
Proof.
  intros. apply update_word_spec; eauto with kernel.
  intros. by apply testbit_clear_mask.
Qed.

Lemma bitmap_set_spec b i v :
  wf b → 0 ≤ i < bit_cnt b →
  ∃ b', bitmap_set b i v = Ok b' ∧ wf b' ∧ bit_cnt b' = bit_cnt b ∧
        ∀ j, 0 ≤ j → bit_at b' j = if j =? i then v else bit_at b j.
Proof.
  intros Hwf Hi. unfold bitmap_set. rewrite (proj2 (Z.ltb_lt _ _)) by lia.
  destruct v; [by apply bitmap_mark_spec|by apply bitmap_reset_spec].
Qed.

(** [bitmap_flip] negates its bit and no other. *)
Lemma bitmap_flip_spec b i :
  wf b → 0 ≤ i < bit_cnt b →
  ∃ b', bitmap_flip b i = Ok b' ∧ wf b' ∧ bit_cnt b' = bit_cnt b ∧
        ∀ j, 0 ≤ j → bit_at b' j = xorb (j =? i) (bit_at b j).
Proof.
  intros Hwf Hi. destruct (wf_word b i Hwf Hi) as (w & Hw & Hu).
  set (f w' := if Z.testbit w (i mod ELEM_BITS)
               then Z.land w' (u32 (Z.lnot (bit_mask i)))
               else Z.lor w' (bit_mask i)).
  destruct (update_word_spec b i f (negb (bit_at b i)) Hwf Hi) as (b' & Hb' & ?).
  { intros. unfold f. case_match; eauto with kernel. }
  { intros w' k Hk. unfold f, bit_at. rewrite Hw. simpl.
    case_match; [by apply testbit_clear_mask|by apply testbit_set_mask]. }
  exists b'. destruct_and!. split_and!; [|done..|].
  - rewrite <- Hb'. unfold bitmap_flip, update_word. rewrite Hw. simpl.
    do 3 f_equal. apply Z.bits_inj'. intros k Hk. rewrite testbit_flip_mask.
    pose proof (Z.mod_pos_bound i ELEM_BITS eq_refl) as Hm.
    destruct (Z.lt_ge_cases k 32).
    + unfold f. destruct (Z.testbit w (i mod ELEM_BITS)) eqn:E;
        [rewrite testbit_clear_mask by lia|rewrite testbit_set_mask by lia];
        zcase; subst; by rewrite ?E, ?xorb_false_r.
    + rewrite (is_u32_testbit w) by done. unfold ELEM_BITS in *. zcase; [lia|].
      symmetry. apply is_u32_testbit; [|done].
      unfold f. case_match; eauto with kernel.
  - intros j Hj. match goal with H : ∀ j, 0 ≤ j → _ |- _ => rewrite H by done end.
    zcase; subst; [done|by rewrite xorb_false_l].
Qed.

End bitmap_ops.

(** ** Ranges *)

Section bitmap_ranges.
Implicit Types (b : bitmap) (i j start cnt : Z) (v : bool).

(** The guards of the range operations, once the sum cannot wrap around. *)
Lemma range_guards b start cnt {A} (k : res A) :
  wf b → 0 ≤ start → 0 ≤ cnt → start + cnt ≤ bit_cnt b →
  (ASSERT start <=? bit_cnt b ;; ASSERT u32 (start + cnt) <=? bit_cnt b ;; k) = k.
Proof.
  intros [? _ _] ???. rewrite u32_small by (unfold is_u32; lia).
  rewrite !(proj2 (Z.leb_le _ _)) by lia. done.
Qed.

(** The same guards stop the kernel on a range that runs past the end. *)
Lemma range_guards_fail b start cnt {A} (k : res A) :
  wf b → 0 ≤ start → 0 ≤ cnt → bit_cnt b < start + cnt → start + cnt < WORD →
  (ASSERT start <=? bit_cnt b ;; ASSERT u32 (start + cnt) <=? bit_cnt b ;; k)
    = Fault AssertFail.
Proof.
  intros [? _ _] ????. rewrite u32_small by (unfold is_u32; lia).
  repeat zcase; (done || lia).
Qed.

Lemma set_multiple_loop_spec n i b start v :
  wf b → 0 ≤ start → 0 ≤ i → start + i + Z.of_nat n ≤ bit_cnt b →
  ∃ b', set_multiple_loop n i b start v = Ok b' ∧ wf b' ∧ bit_cnt b' = bit_cnt b ∧
        ∀ j, 0 ≤ j → bit_at b' j =
          if bool_decide (start + i ≤ j < start + i + Z.of_nat n) then v else bit_at b j.
Proof.
  revert i b. induction n as [|n IH]; intros i b Hwf Hs Hi Hle.
  - exists b. split_and!; try done. intros. rewrite bool_decide_false by lia. done.
  - destruct (wf_cnt b Hwf). simpl. rewrite u32_small by (unfold is_u32; lia).
    destruct (bitmap_set_spec b (start + i) v Hwf ltac:(lia))
      as (b1 & -> & Hwf1 & Hc1 & Hb1). simpl.
    destruct (IH (i + 1) b1 Hwf1 ltac:(lia) ltac:(lia) ltac:(lia))
      as (b' & -> & Hwf' & Hc' & Hb').
    exists b'. split_and!; try done; [congruence|]. intros j Hj.
    rewrite Hb', Hb1 by done. zcase; repeat case_bool_decide; (done || lia).
Qed.

Lemma bitmap_set_multiple_spec b start cnt v :
  wf b → 0 ≤ start → 0 ≤ cnt → start + cnt ≤ bit_cnt b →
  ∃ b', bitmap_set_multiple b start cnt v = Ok b' ∧ wf b' ∧ bit_cnt b' = bit_cnt b ∧
        ∀ j, 0 ≤ j → bit_at b' j =
          if bool_decide (start ≤ j < start + cnt) then v else bit_at b j.
Proof.
  intros. unfold bitmap_set_multiple. rewrite range_guards by done.
  destruct (set_multiple_loop_spec (Z.to_nat cnt) 0 b start v)
    as (b' & ? & ? & ? & Hb); [done|lia..|].
  exists b'. split_and!; try done. intros j Hj. rewrite Hb by done.
  rewrite Z2Nat.id by done. repeat case_bool_decide; (done || lia).
Qed.

Lemma contains_loop_spec n i b start v :
  wf b → 0 ≤ start → 0 ≤ i → start + i + Z.of_nat n ≤ bit_cnt b →
  ∃ r, contains_loop n i b start v = Ok r ∧
       (r = false ↔ all_bits b (start + i) (Z.of_nat n) (negb v)).
Proof.
  revert i. induction n as [|n IH]; intros i Hwf Hs Hi Hle.
  - exists false. split; [done|]. split; [|done]. intros _ j Hj. lia.
  - destruct (wf_cnt b Hwf). simpl. rewrite u32_small by (unfold is_u32; lia).
    rewrite bitmap_test_spec by (done || lia). simpl.
    destruct (Bool.eqb (bit_at b (start + i)) v) eqn:E.
    + exists true. split; [done|]. split; [done|]. intros Hall.
      rewrite (Hall (start + i)) in E by lia. by destruct v.
    + destruct (IH (i + 1) Hwf Hs ltac:(lia) ltac:(lia)) as (r & -> & Hr).
      exists r. split; [done|]. rewrite Hr. clear Hr IH. split; intros Hall j Hj.
      * destruct (Z.eq_dec j (start + i)) as [->|]; [by destruct (bit_at b _), v|].
        apply Hall. lia.
      * apply Hall. lia.
Qed.

(** [bitmap_contains] answers whether some bit of the range has the value;
    negated, whether all of them have the other one. *)
Lemma bitmap_contains_spec b start cnt v :
  wf b → 0 ≤ start → 0 ≤ cnt → start + cnt ≤ bit_cnt b →
  ∃ r, bitmap_contains b start cnt v = Ok r ∧
       (r = false ↔ all_bits b start cnt (negb v)).
Proof.
  intros. unfold bitmap_contains. rewrite range_guards by done.
  destruct (contains_loop_spec (Z.to_nat cnt) 0 b start v) as (r & Hr & Hiff);
    [done|lia..|].
  exists r. split; [done|]. rewrite Hiff, Z2Nat.id, Z.add_0_r by done. done.
Qed.

Lemma bitmap_contains_out_of_range b start cnt v :
  wf b → 0 ≤ start → 0 ≤ cnt → bit_cnt b < start + cnt → start + cnt < WORD →
  bitmap_contains b start cnt v = Fault AssertFail.
Proof. intros. unfold bitmap_contains. by apply range_guards_fail. Qed.

Lemma bitmap_all_spec b start cnt :
  wf b → 0 ≤ start → 0 ≤ cnt → start + cnt ≤ bit_cnt b →
  ∃ r, bitmap_all b start cnt = Ok r ∧ (r = true ↔ all_bits b start cnt true).
Proof.
  intros. destruct (bitmap_contains_spec b start cnt false) as (r & Hr & Hiff); [done..|].
  exists (negb r). unfold bitmap_all. rewrite Hr. split; [done|].
  by rewrite negb_true_iff, Hiff.
Qed.

Lemma bitmap_all_Ok b start cnt :
  wf b → 0 ≤ start → 0 ≤ cnt → start + cnt ≤ bit_cnt b →
  all_bits b start cnt true → bitmap_all b start cnt = Ok true.
Proof.
  intros. destruct (bitmap_all_spec b start cnt) as ([] & -> & Hiff); try done.
  exfalso. by apply Bool.diff_false_true, Hiff.
Qed.

(** The number of bits with a given value, as a reference count. *)
Definition count_ref b start cnt v : Z :=
  Z.of_nat (length (filter (λ i, bit_at b i = v) (seqZ start cnt))).

Lemma count_loop_spec n i b start v acc :
  wf b → 0 ≤ start → 0 ≤ i → start + i + Z.of_nat n ≤ bit_cnt b →
  count_loop n i b start v acc = Ok (acc + count_ref b (start + i) (Z.of_nat n) v).
Proof.
  revert i acc. induction n as [|n IH]; intros i acc Hwf Hs Hi Hle.
  - unfold count_ref. simpl. f_equal. lia.
  - destruct (wf_cnt b Hwf). simpl count_loop. rewrite u32_small by (unfold is_u32; lia).
    rewrite bitmap_test_spec by (done || lia). simpl. rewrite IH by (done || lia).
    f_equal. unfold count_ref. rewrite (seqZ_cons (start + i)) by lia.
    rewrite filter_cons. replace (Z.succ (start + i)) with (start + (i + 1)) by lia.
    replace (Z.pred (Z.of_nat (S n))) with (Z.of_nat n) by lia.
    destruct (Bool.eqb (bit_at b (start + i)) v) eqn:E; case_decide as Hd; simpl; try lia.
    + apply Bool.eqb_prop in E. done.
    + rewrite Hd, Bool.eqb_reflx in E. done.
Qed.

Lemma bitmap_count_spec b start cnt v :
  wf b → 0 ≤ start → 0 ≤ cnt → start + cnt ≤ bit_cnt b →
  bitmap_count b start cnt v = Ok (count_ref b start cnt v).
Proof.
  intros. unfold bitmap_count. rewrite range_guards by done.
  rewrite count_loop_spec by (done || lia).
  by rewrite Z.add_0_l, Z.add_0_r, Z2Nat.id by done.
Qed.

Lemma count_ref_all b start cnt v :
  0 ≤ cnt → all_bits b start cnt v → count_ref b start cnt v = cnt.
Proof.
  intros Hc Hall. unfold count_ref.
  assert (filter (λ i, bit_at b i = v) (seqZ start cnt) = seqZ start cnt) as ->.
  { apply filter_all, Forall_forall. intros i Hi%elem_of_seqZ. apply Hall. lia. }
  rewrite length_seqZ. lia.
Qed.

End bitmap_ranges.

(** ** Creation and the view from outside *)

Lemma bitmap_set_all_spec b v :
  wf b →
  ∃ b', bitmap_set_all b v = Ok b' ∧ wf b' ∧ bit_cnt b' = bit_cnt b ∧
        all_bits b' 0 (bit_cnt b) v.
Proof.
  intros Hwf. pose proof (wf_cnt b Hwf).
  destruct (bitmap_set_multiple_spec b 0 (bit_cnt b) v) as (b' & ? & ? & ? & Hb);
    [done|lia..|].
  exists b'. split_and!; try done. intros i Hi.
  rewrite Hb by lia. rewrite bool_decide_true by lia. done.
Qed.

(** A bitmap created over any memory block of the right size is well formed
    and all its bits are false. *)
Lemma bitmap_create_in_buf_spec cnt mem block_size :
  0 ≤ cnt ≤ WORD - 32 → length mem = Z.to_nat (elem_cnt cnt) → Forall is_u32 mem →
  bitmap_buf_size cnt ≤ block_size →
  ∃ b, bitmap_create_in_buf cnt mem block_size = Ok b ∧ wf b ∧ bit_cnt b = cnt ∧
       all_bits b 0 cnt false.
Proof.
  intros Hc Hl Hw Hs. unfold bitmap_create_in_buf.
  rewrite (proj2 (Z.leb_le _ _)) by done.
  exact (bitmap_set_all_spec (Bitmap cnt mem) false
    {| wf_cnt := Hc : 0 ≤ bit_cnt (Bitmap cnt mem) ≤ _; wf_len := Hl; wf_words := Hw |}).
Qed.

Lemma bitmap_create_spec cnt mem :
  0 ≤ cnt ≤ WORD - 32 → length mem = Z.to_nat (elem_cnt cnt) → Forall is_u32 mem →
  ∃ b, bitmap_create cnt true (Some mem) = Ok (Some b) ∧ wf b ∧ bit_cnt b = cnt ∧
       all_bits b 0 cnt false.
Proof.
  intros Hc Hl Hw.
  destruct (bitmap_set_all_spec (Bitmap cnt mem) false
    {| wf_cnt := Hc : 0 ≤ bit_cnt (Bitmap cnt mem) ≤ _; wf_len := Hl; wf_words := Hw |})
    as (b & Hb & ?).
  exists b. simpl. by rewrite Hb.
Qed.

Lemma length_to_bools b : length (to_bools b) = Z.to_nat (bit_cnt b).
Proof. unfold to_bools. by rewrite length_fmap, length_seqZ. Qed.

Lemma to_bools_lookup b (i : nat) :
  Z.of_nat i < bit_cnt b → to_bools b !! i = Some (bit_at b (Z.of_nat i)).
Proof.
  intros. unfold to_bools. rewrite list_lookup_fmap, lookup_seqZ_lt by done. done.
Qed.

(** Two bitmaps that agree on every bit look the same from outside. *)
Lemma to_bools_ext b (l : list bool) :
  0 ≤ bit_cnt b → length l = Z.to_nat (bit_cnt b) →
  (∀ i : nat, Z.of_nat i < bit_cnt b → l !! i = Some (bit_at b (Z.of_nat i))) →
  to_bools b = l.
Proof.
  intros Hc Hl Hi. apply list_eq. intros i.
  destruct (Z.lt_ge_cases (Z.of_nat i) (bit_cnt b)).
  - by rewrite to_bools_lookup, Hi.
  - rewrite !lookup_ge_None_2; [done|rewrite ?length_to_bools, ?Hl; lia..].
Qed.

Lemma splice_lookup (l : list bool) (s c i : nat) v :
  (s + c ≤ length l)%nat →
  (take s l ++ replicate c v ++ drop (s + c) l) !! i
    = if bool_decide (s ≤ i < s + c)%nat then Some v else l !! i.
Proof.
  intros Hle. case_bool_decide as Hd.
  - rewrite lookup_app_r, length_take by (rewrite length_take; lia).
    rewrite lookup_app_l by (rewrite length_replicate; lia).
    by apply lookup_replicate_2; lia.
  - destruct (decide (i < s)%nat).
    + rewrite lookup_app_l by (rewrite length_take; lia). by apply lookup_take_lt.
    + rewrite !lookup_app_r by (rewrite ?length_replicate, ?length_take; lia).
      rewrite lookup_drop, length_replicate, length_take. f_equal. lia.
Qed.

(** Bitmaps implement arrays of bits: storing [value] into the [cnt] bits
    from [start] on succeeds, keeps the representation invariant, and replaces
    exactly that segment of the array the bitmap stands for, for every
    position of the segment relative to the 32-bit word boundaries. *)
Theorem bitmap_set_multiple_refines b start cnt v :
  wf b → 0 ≤ start → 0 ≤ cnt → start + cnt ≤ bit_cnt b →
  ∃ b', bitmap_set_multiple b start cnt v = Ok b' ∧ wf b' ∧
        to_bools b' = take (Z.to_nat start) (to_bools b)
                      ++ replicate (Z.to_nat cnt) v
                      ++ drop (Z.to_nat start + Z.to_nat cnt) (to_bools b).
Proof.
  intros Hwf Hs Hc Hle.
  destruct (bitmap_set_multiple_spec b start cnt v Hwf Hs Hc Hle)
    as (b' & Hb' & Hwf' & Hcnt & Hbit).
  exists b'. split_and!; try done. pose proof (wf_cnt b Hwf).
  apply to_bools_ext; rewrite ?Hcnt; [lia| |].
  - rewrite !length_app, length_take, length_replicate, length_drop, length_to_bools. lia.
  - intros i Hi. rewrite splice_lookup by (rewrite length_to_bools; lia).
    rewrite Hbit, to_bools_lookup by lia.
    repeat case_bool_decide; (done || lia).
Qed.

Lemma bitmap_set_multiple_refines_witness :
  ∃ b', bitmap_set_multiple (Bitmap 70 [0; 0; 0]) 30 5 true = Ok b' ∧ wf b' ∧
        to_bools b' = take 30 (to_bools (Bitmap 70 [0; 0; 0]))
                      ++ replicate 5 true
                      ++ drop 35 (to_bools (Bitmap 70 [0; 0; 0])).
Proof.
  apply (bitmap_set_multiple_refines (Bitmap 70 [0; 0; 0]) 30 5 true);
    [|vm_compute; congruence..].
  apply wf_dec_ok. reflexivity.
Defined.
