(* ===== verification/BitmapScan.v ===== *)
(** The placement policies of [bitmap_scan] (src/lib/kernel/bitmap.c): first
    fit, next fit, best fit and the buddy system, chosen by the global
    [Select], and [bitmap_scan_and_flip] on top of them.  Every allocator of
    the kernel (page pools, free-sector map, swap slots) goes through them.

    The function's static variables are the record [scan_statics], threaded
    through the calls.  Messages on the console are not modelled. *)

From S2P Require Import Prelude Bitmap.

(** ** Data *)

Inductive Selector := FIRST_FIT | NEXT_FIT | BEST_FIT | BUDDY_SYSTEM.

Record scan_statics := Statics {
  lastestAlloc : Z;
  check_cnt : Z;
  check_size : Z;
}.

Definition statics0 : scan_statics := Statics 0 0 0.

Definition ULONG_MAX : Z := SIZE_MAX.

(** ** The policies *)

(** [for (i = ...; i <= hi; i++) if (!bitmap_contains (b, i, cnt, !value)) ...]:
    the loop of first fit, and each of the two loops of next fit. *)
Fixpoint fit_loop (fuel : nat) (b : bitmap) (i hi cnt : Z) (value : bool)
    : res (option Z) :=
  match fuel with
  | O => Timeout
  | S fuel =>
      if i <=? hi then
        c ← bitmap_contains b i cnt (negb value);
        if negb c then Ok (Some i)
        else fit_loop fuel b (u32 (i + 1)) hi cnt value
      else Ok None
  end.

Definition scan_fuel (b : bitmap) : nat := Z.to_nat (bit_cnt b) + 3.

Definition first_fit (b : bitmap) (start last cnt : Z) (value : bool) : res Z :=
  o ← fit_loop (scan_fuel b) b start last cnt value;
  Ok (default BITMAP_ERROR o).

Definition next_fit (st : scan_statics) (b : bitmap) (start last cnt : Z)
    (value : bool) : res (Z * scan_statics) :=
  let found i := Ok (i, Statics i (check_cnt st) (check_size st)) in
  o ← fit_loop (scan_fuel b) b (lastestAlloc st) last cnt value;
  match o with
  | Some i => found i
  | None =>
      o ← fit_loop (scan_fuel b) b start (lastestAlloc st) cnt value;
      match o with
      | Some i => found i
      | None => Ok (BITMAP_ERROR, st)
      end
  end.

(** The inner loop of best fit: the first index after [i] that is in use or
    past [last]. *)
Fixpoint run_end (fuel : nat) (b : bitmap) (i last : Z) : res Z :=
  match fuel with
  | O => Timeout
  | S fuel =>
      let i := u32 (i + 1) in
      if last <? i then Ok i
      else t ← bitmap_test b i;
           if t : bool then Ok i else run_end fuel b i last
  end.

Definition better_run (cnt bestPageIdx bestPageSize temp_idx temp_size : Z)
    : Z * Z :=
  if cnt <=? temp_size then
    if bestPageSize =? 0 then (temp_idx, temp_size)
    else if u32 (temp_size - cnt) <? u32 (bestPageSize - cnt)
         then (temp_idx, temp_size)
         else (bestPageIdx, bestPageSize)
  else (bestPageIdx, bestPageSize).

Fixpoint best_fit_loop (fuel : nat) (b : bitmap) (i last cnt : Z)
    (bestPageIdx bestPageSize : Z) : res Z :=
  match fuel with
  | O => Timeout
  | S fuel =>
      if last <? i then
        if bestPageIdx =? ULONG_MAX then Ok BITMAP_ERROR else Ok bestPageIdx
      else
        t ← bitmap_test b i;
        if negb t then
          e ← run_end (scan_fuel b) b i last;
          temp_size ← bitmap_count b i (u32 (e - i)) false;
          let '(idx, sz) := better_run cnt bestPageIdx bestPageSize i temp_size in
          best_fit_loop fuel b e last cnt idx sz
        else best_fit_loop fuel b (u32 (i + 1)) last cnt bestPageIdx bestPageSize
  end.

Definition best_fit (b : bitmap) (start last cnt : Z) : res Z :=
  best_fit_loop (scan_fuel b) b start last cnt ULONG_MAX 0.

(** Buddy system.  The outer loop halves [bound] until the request is larger;
    it does not stop for a request of 0 pages. *)
Fixpoint buddy_bound (fuel : nat) (cnt bound : Z) : res Z :=
  match fuel with
  | O => Timeout
  | S fuel =>
      let bound := bound / 2 in
      if bound <? cnt then Ok bound else buddy_bound fuel cnt bound
  end.

(** Counts the used bits from [j] on into [offset]; [None] is the early
    [return BITMAP_ERROR] at the limit. *)
Fixpoint used_run (fuel : nat) (b : bitmap) (j limit offset : Z)
    : res (option Z) :=
  match fuel with
  | O => Timeout
  | S fuel =>
      if limit <=? j then Ok None
      else t ← bitmap_test b j;
           if t : bool then used_run fuel b (u32 (j + 1)) limit (u32 (offset + 1))
           else Ok (Some offset)
  end.

(** The chain of comparisons that rounds [offset] up to a power of two. *)
Definition round_offset (offset : Z) : Z :=
  if 128 <? offset then 256
  else if 64 <? offset then 128
  else if 32 <? offset then 64
  else if 16 <? offset then 32
  else if 8 <? offset then 16
  else if 4 <? offset then 8
  else if 2 <? offset then 4
  else if 1 <? offset then 2
  else if 0 <? offset then 1
  else offset.

Fixpoint buddy_loop (fuel : nat) (b : bitmap) (i offset bound limit : Z)
    (value : bool) : res Z :=
  match fuel with
  | O => Timeout
  | S fuel =>
      if limit <=? i then Ok BITMAP_ERROR
      else
        t ← bitmap_test b i;
        if t : bool then
          o ← used_run (S (Z.to_nat limit)) b i limit offset;
          match o with
          | None => Ok BITMAP_ERROR
          | Some offset =>
              if 256 <? offset then Ok 0
              else
                let offset := round_offset offset in
                buddy_loop fuel b
                  (u32 (i + (if bound * 2 <? offset then offset else bound * 2)))
                  offset bound limit value
          end
        else if negb (bound =? 0) then
          c ← bitmap_contains b i (bound * 2) (negb value);
          if negb c then Ok i
          else buddy_loop fuel b (u32 (i + bound * 2)) offset bound limit value
        else
          t ← bitmap_test b i;
          if negb t then Ok i
          else buddy_loop fuel b (u32 (i + 1)) offset bound limit value
  end.

Definition buddy (fuel : nat) (check_size : Z) (b : bitmap) (cnt : Z)
    (value : bool) : res Z :=
  if 512 <? cnt then Ok BITMAP_ERROR
  else
    bound ← buddy_bound fuel cnt 512;
    let limit := u32 (512 + check_size) in
    buddy_loop (S (Z.to_nat limit)) b 0 0 bound limit value.

(** The halving loop ends within ten iterations for any request of 1 to 512
    pages, since 512 halves to 0 in ten steps. *)
Definition buddy_fuel : nat := 10.

Definition bitmap_scan (sel : Selector) (st : scan_statics) (b : bitmap)
    (start cnt : Z) (value : bool) : res (Z * scan_statics) :=
  ASSERT start <=? bit_cnt b ;;
  let st := if check_cnt st <? 3
            then Statics (lastestAlloc st) (check_cnt st) (u32 (check_size st + cnt))
            else st in
  if cnt <=? bit_cnt b then
    let last := bit_cnt b - cnt in
    match sel with
    | FIRST_FIT => r ← first_fit b start last cnt value; Ok (r, st)
    | NEXT_FIT => next_fit st b start last cnt value
    | BEST_FIT => r ← best_fit b start last cnt; Ok (r, st)
    | BUDDY_SYSTEM => r ← buddy buddy_fuel (check_size st) b cnt value; Ok (r, st)
    end
  else Ok (BITMAP_ERROR, st).

(** The debugging loop at the end of [bitmap_scan_and_flip]: it prints every
    bit, reading it with [bitmap_contains]. *)
Fixpoint print_bits_loop (n : nat) (i : Z) (b : bitmap) : res (list bool) :=
  match n with
  | O => Ok []
  | S n => c ← bitmap_contains b i 1 true;
           l ← print_bits_loop n (i + 1) b;
           Ok (c :: l)
  end.

Definition bitmap_scan_and_flip (sel : Selector) (st : scan_statics)
    (b : bitmap) (start cnt : Z) (value : bool)
    : res (Z * scan_statics * bitmap) :=
  '(idx, st) ← bitmap_scan sel st b start cnt value;
  b ← (if negb (idx =? BITMAP_ERROR)
       then bitmap_set_multiple b idx cnt (negb value) else Ok b);
  _ ← print_bits_loop (Z.to_nat (bit_cnt b)) 0 b;
  Ok (idx, st, b).

(** ** The search loops *)

Section scan.
Implicit Types (b : bitmap) (i j k start last cnt : Z) (value v : bool) (fuel : nat).

(** A group of [cnt] bits with value [v] starts at [i]. *)
Definition fits b i cnt v : Prop :=
  0 ≤ i ∧ i + cnt ≤ bit_cnt b ∧ all_bits b i cnt v.

(** The scan loop finds the first index in its interval where the group
    fits, and says so when there is none. *)
Lemma fit_loop_spec fuel b i hi cnt v :
  wf b → 0 ≤ i → 0 ≤ cnt → hi + cnt ≤ bit_cnt b →
  (Z.to_nat (hi + 1 - i) < fuel)%nat →
  ∃ o, fit_loop fuel b i hi cnt v = Ok o ∧
       match o with
       | Some r => i ≤ r ≤ hi ∧ all_bits b r cnt v ∧
                   ∀ k, i ≤ k < r → ¬ all_bits b k cnt v
       | None => ∀ k, i ≤ k ≤ hi → ¬ all_bits b k cnt v
       end.
Proof.
  intros Hwf. pose proof (wf_cnt b Hwf). revert i.
  induction fuel as [|fuel IH]; intros i Hi Hc Hhi Hf; [lia|]. simpl.
  zcase; [|exists None; split; [done|]; intros; lia].
  destruct (bitmap_contains_spec b i cnt (negb v)) as ([] & -> & Hr); try (done || lia).
  - simpl. rewrite u32_small by (unfold is_u32; lia).
    destruct (IH (i + 1)) as (o & -> & Ho); try lia. exists o. split; [done|].
    rewrite negb_involutive in Hr.
    assert (¬ all_bits b i cnt v) by (intros Ha%Hr; done).
    destruct o as [r|].
    + destruct Ho as (? & ? & Hk). split_and!; try done; try lia. intros k Hk'.
      destruct (Z.eq_dec k i) as [->|]; [done|]. apply Hk. lia.
    + intros k Hk. destruct (Z.eq_dec k i) as [->|]; [done|]. apply Ho. lia.
  - exists (Some i). rewrite negb_involutive in Hr. split; [done|].
    split; [lia|]. split; [by apply Hr|]. intros. lia.
Qed.

(** Run past the last index at which the group still lies inside the bitmap,
    the loop hits the assertion of [bitmap_contains]. *)
Lemma fit_loop_overrun fuel b i hi cnt v :
  wf b → 0 ≤ i → 0 ≤ cnt → bit_cnt b < hi + cnt → hi < WORD - cnt →
  i ≤ bit_cnt b - cnt + 1 →
  (∀ k, i ≤ k → k + cnt ≤ bit_cnt b → ¬ all_bits b k cnt v) →
  (Z.to_nat (bit_cnt b - cnt + 1 - i) < fuel)%nat →
  fit_loop fuel b i hi cnt v = Fault AssertFail.
Proof.
  intros Hwf. pose proof (wf_cnt b Hwf). revert i.
  induction fuel as [|fuel IH]; intros i Hi Hc Hhi Hw Hle Hno Hf; [lia|]. simpl.
  rewrite (proj2 (Z.leb_le _ _)) by lia.
  destruct (Z.eq_dec i (bit_cnt b - cnt + 1)).
  - rewrite bitmap_contains_out_of_range by (done || lia). done.
  - destruct (bitmap_contains_spec b i cnt (negb v)) as ([] & -> & Hr); try (done || lia).
    + simpl. rewrite u32_small by (unfold is_u32; lia).
      apply IH; try lia. intros k ??. apply Hno; lia.
    + exfalso. rewrite negb_involutive in Hr. apply (Hno i); [lia..|]. by apply Hr.
Qed.

(** First fit through [bitmap_scan]. *)
Lemma first_fit_scan st b start cnt v :
  wf b → 0 ≤ start ≤ bit_cnt b → 0 ≤ cnt →
  ∃ r st', bitmap_scan FIRST_FIT st b start cnt v = Ok (r, st') ∧
    ((r ≠ BITMAP_ERROR ∧ start ≤ r ∧ fits b r cnt v ∧
      ∀ k, start ≤ k < r → ¬ fits b k cnt v)
     ∨ (r = BITMAP_ERROR ∧ ∀ k, start ≤ k → ¬ fits b k cnt v)).
Proof.
  intros Hwf Hs Hc. pose proof (wf_cnt b Hwf). unfold bitmap_scan, fits.
  rewrite (proj2 (Z.leb_le _ _)) by lia.
  destruct (Z.leb_spec cnt (bit_cnt b)).
  - destruct (fit_loop_spec (scan_fuel b) b start (bit_cnt b - cnt) cnt v)
      as (o & Ho & Hspec); [done|lia|lia|lia|unfold scan_fuel; lia|].
    unfold first_fit. rewrite Ho. simpl. do 2 eexists. split; [done|].
    unfold BITMAP_ERROR, SIZE_MAX. destruct o as [r|]; simpl.
    + destruct Hspec as (? & ? & Hk). left. split_and!; try (done || lia).
      intros k Hk' (_ & _ & Ha). by apply (Hk k).
    + right. split; [done|]. intros k Hk (_ & ? & Ha). apply (Hspec k); [lia|done].
  - do 2 eexists. split; [done|]. right. split; [done|]. lia.
Qed.

Lemma print_bits_loop_Ok n i b :
  wf b → 0 ≤ i → i + Z.of_nat n ≤ bit_cnt b → ∃ l, print_bits_loop n i b = Ok l.
Proof.
  intros Hwf. revert i. induction n as [|n IH]; intros i Hi Hle; simpl; [by eexists|].
  destruct (bitmap_contains_spec b i 1 true) as (r & -> & _); [done|lia..|]. simpl.
  destruct (IH (i + 1)) as (l & ->); [lia..|]. by eexists.
Qed.

(** Flipping the group a scan has found: whatever the policy, an index inside
    the bitmap is returned with its [cnt] bits set to the other value and all
    other bits as they were. *)
Lemma scan_and_flip_found sel st b start cnt v r st' :
  wf b → bitmap_scan sel st b start cnt v = Ok (r, st') →
  r ≠ BITMAP_ERROR → 0 ≤ r → 0 ≤ cnt → r + cnt ≤ bit_cnt b →
  ∃ b', bitmap_scan_and_flip sel st b start cnt v = Ok (r, st', b') ∧
        wf b' ∧ bit_cnt b' = bit_cnt b ∧
        ∀ j, 0 ≤ j → bit_at b' j =
          if bool_decide (r ≤ j < r + cnt) then negb v else bit_at b j.
Proof.
  intros Hwf Hscan Hne Hr Hc Hle. unfold bitmap_scan_and_flip. rewrite Hscan. simpl.
  rewrite (proj2 (Z.eqb_neq _ _)) by done. simpl.
  destruct (bitmap_set_multiple_spec b r cnt (negb v)) as (b' & -> & Hwf' & Hcnt & ?);
    [done..|]. simpl.
  destruct (print_bits_loop_Ok (Z.to_nat (bit_cnt b')) 0 b') as (l & ->);
    [done|lia|pose proof (wf_cnt b' Hwf'); lia|].
  simpl. eauto.
Qed.

Lemma scan_and_flip_error sel st b start cnt v st' :
  wf b → bitmap_scan sel st b start cnt v = Ok (BITMAP_ERROR, st') →
  bitmap_scan_and_flip sel st b start cnt v = Ok (BITMAP_ERROR, st', b).
Proof.
  intros Hwf Hscan. unfold bitmap_scan_and_flip. rewrite Hscan. simpl.
  destruct (print_bits_loop_Ok (Z.to_nat (bit_cnt b)) 0 b) as (l & ->);
    [done|lia|pose proof (wf_cnt b Hwf); lia|done].
Qed.

Lemma first_fit_flip st b start cnt v :
  wf b → 0 ≤ start ≤ bit_cnt b → 0 ≤ cnt →
  ∃ r st' b', bitmap_scan_and_flip FIRST_FIT st b start cnt v = Ok (r, st', b') ∧
    wf b' ∧ bit_cnt b' = bit_cnt b ∧
    ((r ≠ BITMAP_ERROR ∧ start ≤ r ∧ fits b r cnt v ∧
      (∀ k, start ≤ k < r → ¬ fits b k cnt v) ∧
      ∀ j, 0 ≤ j → bit_at b' j =
        if bool_decide (r ≤ j < r + cnt) then negb v else bit_at b j)
     ∨ (r = BITMAP_ERROR ∧ b' = b ∧ ∀ k, start ≤ k → ¬ fits b k cnt v)).
Proof.
  intros Hwf Hs Hc.
  destruct (first_fit_scan st b start cnt v Hwf Hs Hc)
    as (r & st' & Hscan & [(Hne & Hr & (? & ? & ?) & Hk)|[-> Hno]]).
  - destruct (scan_and_flip_found _ _ _ _ _ _ _ _ Hwf Hscan Hne)
      as (b' & -> & ? & ? & ?); [lia..|].
    exists r, st', b'. split_and!; try done. left. by split_and!.
  - exists BITMAP_ERROR, st', b. rewrite (scan_and_flip_error _ _ _ _ _ _ _ Hwf Hscan).
    split_and!; try done. by right.
Qed.

(** [bitmap_scan_and_flip] under first fit, the policy the kernel runs
    with: it never trips an assertion; it returns the lowest index at or after
    [start] where [cnt] consecutive bits all have [value] and flips exactly
    those bits; and when there is no such group it returns [BITMAP_ERROR] and
    leaves the bitmap alone. *)
Theorem first_fit_scan_and_flip_correct st b start cnt v :
  wf b → 0 ≤ start ≤ bit_cnt b → 0 ≤ cnt →
  ∃ r st' b', bitmap_scan_and_flip FIRST_FIT st b start cnt v = Ok (r, st', b') ∧
    wf b' ∧ bit_cnt b' = bit_cnt b ∧
    ((r ≠ BITMAP_ERROR ∧ start ≤ r ∧ fits b r cnt v ∧
      (∀ k, start ≤ k < r → ¬ fits b k cnt v) ∧
      ∀ j, 0 ≤ j → bit_at b' j =
        if bool_decide (r ≤ j < r + cnt) then negb v else bit_at b j)
     ∨ (r = BITMAP_ERROR ∧ b' = b ∧ ∀ k, start ≤ k → ¬ fits b k cnt v)).
Proof. apply first_fit_flip. Qed.

Lemma first_fit_scan_and_flip_correct_witness :
  ∃ r st' b', bitmap_scan_and_flip FIRST_FIT statics0 (Bitmap 40 [5; 0]) 0 33 false
      = Ok (r, st', b') ∧
    wf b' ∧ bit_cnt b' = 40 ∧
    ((r ≠ BITMAP_ERROR ∧ 0 ≤ r ∧ fits (Bitmap 40 [5; 0]) r 33 false ∧
      (∀ k, 0 ≤ k < r → ¬ fits (Bitmap 40 [5; 0]) k 33 false) ∧
      ∀ j, 0 ≤ j → bit_at b' j =
        if bool_decide (r ≤ j < r + 33) then true else bit_at (Bitmap 40 [5; 0]) j)
     ∨ (r = BITMAP_ERROR ∧ b' = Bitmap 40 [5; 0] ∧
        ∀ k, 0 ≤ k → ¬ fits (Bitmap 40 [5; 0]) k 33 false)).
Proof.
  apply (first_fit_scan_and_flip_correct statics0 (Bitmap 40 [5; 0]) 0 33 false).
  - apply wf_dec_ok. vm_compute. reflexivity.
  - vm_compute. split; discriminate.
  - discriminate.
Defined.

End scan.

(** ** Next fit *)

Section next_fit.
Implicit Types (b : bitmap) (i j k start last cnt : Z) (value v : bool).

(** Next fit, as long as the position remembered from the last call still
    leaves room for the request: the scan continues from that position, wraps
    around to [start], remembers the index it returns, and reports
    [BITMAP_ERROR] exactly when the group fits nowhere at or after [start]. *)
Theorem next_fit_scan_correct st b start cnt v :
  wf b → 0 ≤ start ≤ bit_cnt b → 0 ≤ cnt →
  start ≤ lastestAlloc st → lastestAlloc st + cnt ≤ bit_cnt b →
  ∃ r st', bitmap_scan NEXT_FIT st b start cnt v = Ok (r, st') ∧
    ((r ≠ BITMAP_ERROR ∧ fits b r cnt v ∧ lastestAlloc st' = r ∧
      ((lastestAlloc st ≤ r ∧ ∀ k, lastestAlloc st ≤ k < r → ¬ fits b k cnt v)
       ∨ (start ≤ r < lastestAlloc st ∧
          (∀ k, lastestAlloc st ≤ k → ¬ fits b k cnt v) ∧
          ∀ k, start ≤ k < r → ¬ fits b k cnt v)))
     ∨ (r = BITMAP_ERROR ∧ lastestAlloc st' = lastestAlloc st ∧
        ∀ k, start ≤ k → ¬ fits b k cnt v)).
Proof.
  intros Hwf Hs Hc Hl Hroom. pose proof (wf_cnt b Hwf). unfold bitmap_scan, next_fit.
  rewrite !(proj2 (Z.leb_le _ _)) by lia.
  set (st1 := if check_cnt st <? 3 then Statics _ _ _ else st).
  assert (lastestAlloc st1 = lastestAlloc st) as -> by (unfold st1; by case_match).
  destruct (fit_loop_spec (scan_fuel b) b (lastestAlloc st) (bit_cnt b - cnt) cnt v)
    as (o & -> & Ho); [done|lia|lia|lia|unfold scan_fuel; lia|]. simpl.
  unfold fits, BITMAP_ERROR, SIZE_MAX. destruct o as [r|].
  - destruct Ho as (? & ? & Hk). do 2 eexists. split; [done|]. left. simpl.
    split_and!; try (done || lia). left. split; [lia|].
    intros k ? (_ & _ & ?). by apply (Hk k).
  - destruct (fit_loop_spec (scan_fuel b) b start (lastestAlloc st) cnt v)
      as (o & -> & Ho2); [done|lia|lia|lia|unfold scan_fuel; lia|]. simpl.
    destruct o as [r|].
    + destruct Ho2 as (? & ? & Hk). do 2 eexists. split; [done|]. left. simpl.
      assert (r ≠ lastestAlloc st) by (intros ->; apply (Ho (lastestAlloc st)); [lia|done]).
      split_and!; try (done || lia). right. split; [lia|]. split.
      * intros k ? (_ & ? & ?). apply (Ho k); [lia|done].
      * intros k ? (_ & _ & ?). by apply (Hk k).
    + do 2 eexists. split; [done|]. right. split; [done|]. split; [unfold st1; by case_match|].
      intros k ? (_ & ? & ?). destruct (Z.le_gt_cases k (lastestAlloc st)).
      * by apply (Ho2 k).
      * apply (Ho k); [lia|done].
Qed.

Lemma next_fit_scan_correct_witness :
  ∃ r st', bitmap_scan NEXT_FIT (Statics 30 0 0) (Bitmap 40 [2147483648; 255]) 0 4 false
      = Ok (r, st') ∧
    ((r ≠ BITMAP_ERROR ∧ fits (Bitmap 40 [2147483648; 255]) r 4 false ∧
      lastestAlloc st' = r ∧
      ((30 ≤ r ∧ ∀ k, 30 ≤ k < r → ¬ fits (Bitmap 40 [2147483648; 255]) k 4 false)
       ∨ (0 ≤ r < 30 ∧
          (∀ k, 30 ≤ k → ¬ fits (Bitmap 40 [2147483648; 255]) k 4 false) ∧
          ∀ k, 0 ≤ k < r → ¬ fits (Bitmap 40 [2147483648; 255]) k 4 false)))
     ∨ (r = BITMAP_ERROR ∧ lastestAlloc st' = 30 ∧
        ∀ k, 0 ≤ k → ¬ fits (Bitmap 40 [2147483648; 255]) k 4 false)).
Proof.
  apply (next_fit_scan_correct (Statics 30 0 0) (Bitmap 40 [2147483648; 255]) 0 4 false).
  - apply wf_dec_ok. vm_compute. reflexivity.
  - vm_compute. split; discriminate.
  - discriminate.
  - discriminate.
  - vm_compute. discriminate.
Defined.

(** Next fit does not report exhaustion when the remembered position lies
    too close to the end: its second loop runs up to that position without
    the bound of the first one, so a scan that should return [BITMAP_ERROR]
    stops the kernel in the assertion of [bitmap_contains] instead.  The
    position is shared by all bitmaps of the kernel, so it may come from a
    larger one. *)
Theorem next_fit_exhausted_panics st b start cnt v :
  wf b → 0 ≤ start → 0 < cnt → start + cnt ≤ bit_cnt b + 1 → cnt ≤ bit_cnt b →
  bit_cnt b < lastestAlloc st + cnt → lastestAlloc st < WORD - cnt →
  (∀ k, start ≤ k → ¬ fits b k cnt v) →
  bitmap_scan NEXT_FIT st b start cnt v = Fault AssertFail.
Proof.
  intros Hwf Hs Hc Hle Hcnt Hlast Hw Hno. pose proof (wf_cnt b Hwf).
  unfold bitmap_scan, next_fit. rewrite !(proj2 (Z.leb_le _ _)) by lia.
  set (st1 := if check_cnt st <? 3 then Statics _ _ _ else st).
  assert (lastestAlloc st1 = lastestAlloc st) as -> by (unfold st1; by case_match).
  assert (∃ f, scan_fuel b = S f) as [f Hf].
  { exists (Z.to_nat (bit_cnt b) + 2)%nat. unfold scan_fuel. lia. }
  rewrite Hf at 1. simpl. rewrite (proj2 (Z.leb_gt _ _)) by lia. simpl.
  rewrite fit_loop_overrun; try (done || lia).
  - intros k ?? Ha. apply (Hno k); [done|]. split_and!; (done || lia).
  - unfold scan_fuel. lia.
Qed.

Lemma next_fit_exhausted_panics_witness :
  bitmap_scan NEXT_FIT (Statics 9 0 0) (Bitmap 10 [1023]) 0 5 false = Fault AssertFail.
Proof.
  apply (next_fit_exhausted_panics (Statics 9 0 0) (Bitmap 10 [1023]) 0 5 false).
  - apply wf_dec_ok. vm_compute. reflexivity.
  - discriminate.
  - reflexivity.
  - vm_compute. discriminate.
  - vm_compute. discriminate.
  - vm_compute. reflexivity.
  - vm_compute. reflexivity.
  - intros k Hk (_ & Hle & Ha). simpl in Hle. specialize (Ha k ltac:(lia)).
    assert (k = 0 ∨ k = 1 ∨ k = 2 ∨ k = 3 ∨ k = 4 ∨ k = 5) as Hc by lia.
    destruct Hc as [->|[->|[->|[->|[->| ->]]]]]; discriminate Ha.
Defined.

End next_fit.

(** ** Best fit *)

Section best_fit.
Context (b : bitmap) (Hwf : wf b) (start last cnt : Z).
Context (Hstart : 0 ≤ start) (Hcnt : 0 < cnt) (Hlast : last + cnt = bit_cnt b).
Implicit Types (i j k e sz : Z) (fuel : nat).

(** A maximal run of free bits among the indices [start .. last], the ones
    the best-fit search looks at. *)
Definition free_run i sz : Prop :=
  start ≤ i ∧ 0 < sz ∧ i + sz ≤ last + 1 ∧ all_bits b i sz false ∧
  (i = start ∨ bit_at b (i - 1) = true) ∧
  (i + sz = last + 1 ∨ bit_at b (i + sz) = true).

Lemma free_run_unique i sz sz' : free_run i sz → free_run i sz' → sz = sz'.
Proof.
  intros (_ & ? & ? & Ha & _ & He) (_ & ? & ? & Ha' & _ & He').
  destruct (Z.lt_trichotomy sz sz') as [Hlt|[|Hlt]]; [exfalso|done|exfalso].
  - destruct He as [?|He]; [lia|]. rewrite Ha' in He by lia. done.
  - destruct He' as [?|He']; [lia|]. rewrite Ha in He' by lia. done.
Qed.

Lemma run_end_spec fuel i :
  start ≤ i ≤ last → (Z.to_nat (last + 1 - i) ≤ fuel)%nat →
  ∃ e, run_end fuel b i last = Ok e ∧ i < e ≤ last + 1 ∧
       (∀ k, i < k < e → bit_at b k = false) ∧
       (e = last + 1 ∨ bit_at b e = true).
Proof.
  pose proof (wf_cnt b Hwf). revert i.
  induction fuel as [|fuel IH]; intros i Hi Hf; [lia|]. simpl.
  rewrite u32_small by (unfold is_u32; lia). zcase.
  - exists (i + 1). split_and!; (done || lia).
  - rewrite bitmap_test_spec by (done || lia). simpl.
    destruct (bit_at b (i + 1)) eqn:E.
    + exists (i + 1). split_and!; (done || lia || by right).
    + destruct (IH (i + 1)) as (e & -> & ? & Hk & ?); [lia..|].
      exists e. split_and!; try (done || lia). intros k ?.
      destruct (Z.eq_dec k (i + 1)) as [->|]; [done|]. apply Hk. lia.
Qed.

(** The best candidate among the runs that start before [i]. *)
Definition best_before i (idx sz : Z) : Prop :=
  (idx = ULONG_MAX ∧ sz = 0 ∧ ∀ j s, free_run j s → j < i → s < cnt)
  ∨ (free_run idx sz ∧ cnt ≤ sz ∧
     ∀ j s, free_run j s → j < i → cnt ≤ s → sz < s ∨ (sz = s ∧ idx ≤ j)).

Lemma free_run_range i sz : free_run i sz → i ≠ ULONG_MAX ∧ sz < WORD.
Proof.
  pose proof (wf_cnt b Hwf). intros (? & ? & ? & _). unfold ULONG_MAX, SIZE_MAX. lia.
Qed.

Lemma better_run_spec i e idx sz idx' sz' :
  free_run i (e - i) → best_before i idx sz → (free_run idx sz → idx < i) →
  better_run cnt idx sz i (e - i) = (idx', sz') →
  best_before e idx' sz' ∧ (free_run idx' sz' → idx' < e).
Proof.
  intros Hrun Hbest Hlt Hb. pose proof Hrun as (? & ? & ? & Hall & _ & _).
  assert (∀ j s, free_run j s → j < e → j < i ∨ (j = i ∧ s = e - i)) as Hsplit.
  { intros j s Hr ?. destruct (Z.lt_trichotomy j i) as [?|[->|?]]; [by left| |].
    - right. split; [done|]. by eapply free_run_unique.
    - exfalso. destruct Hr as (_ & _ & _ & _ & [?|Ht] & _); [lia|].
      rewrite Hall in Ht by lia. done. }
  pose proof (free_run_range _ _ Hrun) as [Hn1 Hn2]. unfold better_run in Hb.
  destruct Hbest as [(-> & -> & Hno)|(Hr & Hle & Hmin)].
  - simpl in Hb. destruct (Z.leb_spec cnt (e - i)); injection Hb as <- <-.
    + split; [|lia]. right. split_and!; try done.
      intros j s Hj ??. destruct (Hsplit j s Hj) as [?|[-> ->]]; [lia| |by right].
      specialize (Hno j s Hj). lia.
    + split; [|by intros [? _]%free_run_range]. left. split_and!; try done.
      intros j s Hj ?. destruct (Hsplit j s Hj) as [?|[-> ->]]; [lia| |lia].
      by apply (Hno j).
  - specialize (Hlt Hr). pose proof (free_run_range _ _ Hr) as [_ ?].
    pose proof Hr as (? & ? & ? & _).
    destruct (Z.leb_spec cnt (e - i)).
    + rewrite (proj2 (Z.eqb_neq _ _)) in Hb by lia.
      rewrite !u32_small in Hb by (unfold is_u32; lia).
      destruct (Z.ltb_spec (e - i - cnt) (sz - cnt)); injection Hb as <- <-.
      * split; [|lia]. right. split_and!; try done.
        intros j s Hj ??. destruct (Hsplit j s Hj) as [?|[-> ->]]; [lia| |by right].
        destruct (Hmin j s Hj); lia.
      * split; [|lia]. right. split_and!; try done.
        intros j s Hj ??. destruct (Hsplit j s Hj) as [?|[-> ->]]; [lia| |lia].
        by apply (Hmin j).
    + injection Hb as <- <-. split; [|lia]. right. split_and!; try done.
      intros j s Hj ??. destruct (Hsplit j s Hj) as [?|[-> ->]]; [lia| |lia].
      by apply (Hmin j).
Qed.

Lemma best_fit_loop_spec fuel i idx sz :
  start ≤ i ≤ last + 1 → best_before i idx sz → (free_run idx sz → idx < i) →
  (i = start ∨ i = last + 1 ∨ bit_at b i = true ∨ bit_at b (i - 1) = true) →
  (Z.to_nat (last + 1 - i) < fuel)%nat →
  ∃ r, best_fit_loop fuel b i last cnt idx sz = Ok r ∧
    ((r = BITMAP_ERROR ∧ ∀ j s, free_run j s → s < cnt)
     ∨ (∃ s, free_run r s ∧ cnt ≤ s ∧
          ∀ j s', free_run j s' → cnt ≤ s' → s < s' ∨ (s = s' ∧ r ≤ j))).
Proof.
  pose proof (wf_cnt b Hwf). revert i idx sz.
  induction fuel as [|fuel IH]; intros i idx sz Hi Hbest Hlt Hbd Hf; [lia|]. simpl.
  destruct (Z.ltb_spec last i).
  - destruct Hbest as [(-> & -> & Hno)|(Hr & Hle & Hmin)].
    + rewrite Z.eqb_refl. eexists. split; [done|]. left. split; [done|].
      intros j s Hj. apply (Hno j); [done|]. destruct Hj as (? & ? & ? & _). lia.
    + rewrite (proj2 (Z.eqb_neq _ _)) by apply (free_run_range _ _ Hr).
      eexists. split; [done|]. right. exists sz. split_and!; try done.
      intros j s Hj ?. apply Hmin; [done| |done]. destruct Hj as (? & ? & ? & _). lia.
  - rewrite bitmap_test_spec by (done || lia). simpl.
    destruct (bit_at b i) eqn:E; simpl.
    + rewrite u32_small by (unfold is_u32; lia). apply IH; try lia.
      * assert (∀ j s, free_run j s → j < i + 1 → j < i).
        { intros j s (_ & ? & _ & Ha & _) ?.
          destruct (Z.eq_dec j i) as [->|]; [|lia]. rewrite Ha in E by lia. done. }
        destruct Hbest as [(-> & -> & ?)|(? & ? & ?)]; [left|right]; split_and!; eauto.
      * intros Hr. specialize (Hlt Hr). lia.
      * replace (i + 1 - 1) with i by lia. auto.
    + destruct (run_end_spec (scan_fuel b) i) as (e & -> & He & Hk & Hend);
        [lia|unfold scan_fuel; lia|]. simpl.
      assert (all_bits b i (e - i) false) as Hall.
      { intros k ?. destruct (Z.eq_dec k i) as [->|]; [done|]. apply Hk. lia. }
      rewrite u32_small by (unfold is_u32; lia).
      rewrite bitmap_count_spec, count_ref_all by (done || lia). simpl.
      assert (free_run i (e - i)) as Hrun.
      { split_and!; try (done || lia).
        - destruct Hbd as [?|[?|[?|?]]]; [by left|lia|congruence|by right].
        - replace (i + (e - i)) with e by lia. done. }
      destruct (better_run cnt idx sz i (e - i)) as [idx' sz'] eqn:Hb.
      destruct (better_run_spec _ _ _ _ _ _ Hrun Hbest Hlt Hb).
      apply IH; try (done || lia). destruct Hend; auto.
Qed.

End best_fit.

Section best_fit_scan.
Implicit Types (b : bitmap) (i j k start cnt : Z) (v : bool).

Lemma best_fit_scan st b start cnt v :
  wf b → 0 ≤ start → 0 < cnt → start + cnt ≤ bit_cnt b + 1 → cnt ≤ bit_cnt b →
  ∃ r st', bitmap_scan BEST_FIT st b start cnt v = Ok (r, st') ∧
    let run := free_run b start (bit_cnt b - cnt) in
    ((r = BITMAP_ERROR ∧ ∀ j s, run j s → s < cnt)
     ∨ (∃ s, run r s ∧ cnt ≤ s ∧
          ∀ j s', run j s' → cnt ≤ s' → s < s' ∨ (s = s' ∧ r ≤ j))).
Proof.
  intros Hwf Hs Hc Hle Hcnt. pose proof (wf_cnt b Hwf). unfold bitmap_scan, best_fit.
  rewrite !(proj2 (Z.leb_le _ _)) by lia.
  destruct (best_fit_loop_spec b Hwf start (bit_cnt b - cnt) cnt Hs Hc ltac:(lia)
              (scan_fuel b) start ULONG_MAX 0) as (r & Hr & Hspec); try lia.
  - left. split_and!; try done. intros j s (? & ? & _) ?. lia.
  - intros (_ & ? & _). lia.
  - unfold scan_fuel. lia.
  - rewrite Hr. simpl. eauto.
Qed.

(** Best fit: whatever [value] is asked for, the search looks at free
    bits (false) only, at indices [start .. bit_cnt - cnt].  It returns the
    start of the smallest maximal run of free bits in that window that is
    long enough, the earliest one among equals, and the [cnt] bits from there
    on are free; it returns [BITMAP_ERROR] when no run in the window is long
    enough.  It never trips an assertion. *)
Theorem best_fit_scan_correct st b start cnt v :
  wf b → 0 ≤ start → 0 < cnt → start + cnt ≤ bit_cnt b + 1 → cnt ≤ bit_cnt b →
  ∃ r st', bitmap_scan BEST_FIT st b start cnt v = Ok (r, st') ∧
    let run := free_run b start (bit_cnt b - cnt) in
    ((r = BITMAP_ERROR ∧ ∀ j s, run j s → s < cnt)
     ∨ (fits b r cnt false ∧ ∃ s, run r s ∧ cnt ≤ s ∧
          ∀ j s', run j s' → cnt ≤ s' → s < s' ∨ (s = s' ∧ r ≤ j))).
Proof.
  intros Hwf Hs Hc Hle Hcnt.
  destruct (best_fit_scan st b start cnt v Hwf Hs Hc Hle Hcnt)
    as (r & st' & Hr & [?|(s & Hrun & Hle' & Hmin)]); exists r, st'; split; auto.
  right. split; [|eauto]. destruct Hrun as (? & ? & ? & Ha & _).
  split_and!; [lia..|]. intros k ?. apply Ha. lia.
Qed.

Lemma best_fit_scan_correct_witness :
  ∃ r st', bitmap_scan BEST_FIT statics0 (Bitmap 64 [65281; 0]) 0 5 false = Ok (r, st') ∧
    let run := free_run (Bitmap 64 [65281; 0]) 0 59 in
    ((r = BITMAP_ERROR ∧ ∀ j s, run j s → s < 5)
     ∨ (fits (Bitmap 64 [65281; 0]) r 5 false ∧ ∃ s, run r s ∧ 5 ≤ s ∧
          ∀ j s', run j s' → 5 ≤ s' → s < s' ∨ (s = s' ∧ r ≤ j))).
Proof.
  apply (best_fit_scan_correct statics0 (Bitmap 64 [65281; 0]) 0 5 false).
  - apply wf_dec_ok. vm_compute. reflexivity.
  - discriminate.
  - reflexivity.
  - vm_compute. discriminate.
  - vm_compute. discriminate.
Defined.

(** Best fit cuts every run off at index [bit_cnt - cnt], as if a run
    could not extend past the last possible start.  So a request for more
    than half of the bitmap fails even when all of it is free and first fit
    would place it at index 0. *)
Theorem best_fit_large_request_fails st b cnt v :
  wf b → 0 < cnt ≤ bit_cnt b → bit_cnt b + 1 < 2 * cnt →
  ∃ st', bitmap_scan BEST_FIT st b 0 cnt v = Ok (BITMAP_ERROR, st').
Proof.
  intros Hwf Hc Hhalf.
  destruct (best_fit_scan st b 0 cnt v Hwf) as (r & st' & -> & Hspec); [lia..|].
  exists st'. destruct Hspec as [[-> _]|(s & (? & ? & ? & _) & ? & _)]; [done|lia].
Qed.

Lemma best_fit_large_request_fails_witness :
  fits (Bitmap 10 [0]) 0 6 false ∧
  ∃ st', bitmap_scan BEST_FIT statics0 (Bitmap 10 [0]) 0 6 false = Ok (BITMAP_ERROR, st').
Proof.
  split.
  - split; [discriminate|]. split; [vm_compute; discriminate|]. intros i Hi.
    assert (i = 0 ∨ i = 1 ∨ i = 2 ∨ i = 3 ∨ i = 4 ∨ i = 5) as Hc by lia.
    destruct Hc as [->|[->|[->|[->|[->| ->]]]]]; reflexivity.
  - apply (best_fit_large_request_fails statics0 (Bitmap 10 [0]) 6 false).
    + apply wf_dec_ok. vm_compute. reflexivity.
    + vm_compute. split; [reflexivity|discriminate].
    + vm_compute. reflexivity.
Defined.

End best_fit_scan.

(** ** Buddy system *)

Section buddy.
Implicit Types (b : bitmap) (i j k offset bound limit cnt : Z) (v : bool) (fuel : nat).

Lemma buddy_bound_spec (n : nat) cnt :
  1 ≤ cnt ≤ 2 ^ Z.of_nat n →
  ∃ bound, buddy_bound (S n) cnt (2 ^ Z.of_nat n) = Ok bound ∧
    2 * bound ≤ 2 ^ Z.of_nat n ∧ ((bound = 0 ∧ cnt = 1) ∨ 0 < bound < cnt ∧ cnt ≤ 2 * bound).
Proof.
  induction n as [|n IH]; intros Hc.
  - exists 0. change (2 ^ Z.of_nat 0) with 1 in *. simpl.
    change (1 / 2) with 0. zcase; [|lia]. split_and!; (done || lia).
  - rewrite Nat2Z.inj_succ, Z.pow_succ_r in * by lia.
    pose proof (Z.pow_pos_nonneg 2 (Z.of_nat n)).
    set (m := S n). simpl. unfold m. clear m.
    rewrite (Z.mul_comm 2), Z.div_mul by lia. zcase.
    + eexists. split; [done|]. lia.
    + destruct IH as (bd & ? & ? & ?); [lia|]. exists bd. split_and!; (done || lia).
Qed.

(** A request of 0 pages never leaves the halving loop. *)
Lemma buddy_bound_zero fuel bound : 0 ≤ bound → buddy_bound fuel 0 bound = Timeout.
Proof.
  revert bound. induction fuel as [|fuel IH]; intros bound Hb; [done|]. simpl.
  pose proof (Z.div_pos bound 2). zcase; [lia|]. apply IH. lia.
Qed.

Lemma used_run_spec fuel b j limit offset :
  wf b → 0 ≤ j → 0 ≤ offset → offset - j + bit_cnt b < WORD →
  (Z.to_nat (limit - j) < fuel)%nat →
  used_run fuel b j limit offset = Fault AssertFail
  ∨ used_run fuel b j limit offset = Ok None
  ∨ ∃ n, 0 ≤ n ∧ used_run fuel b j limit offset = Ok (Some (offset + n)) ∧
         all_bits b j n true ∧ bit_at b (j + n) = false.
Proof.
  intros Hwf. pose proof (wf_cnt b Hwf). revert j offset.
  induction fuel as [|fuel IH]; intros j offset Hj Ho Hw Hf; [lia|]. simpl.
  zcase; [auto|].
  destruct (Z.lt_ge_cases j (bit_cnt b)) as [?|?];
    [|rewrite bitmap_test_out_of_range by done; auto].
  rewrite bitmap_test_spec by done. simpl. destruct (bit_at b j) eqn:E.
  - rewrite !u32_small by (unfold is_u32; lia).
    destruct (IH (j + 1) (offset + 1)) as [?|[?|(n & ? & Hr & Ha & He)]]; auto; [lia..|].
    right; right. exists (n + 1). split_and!; [lia| | |].
    + rewrite Hr. do 2 f_equal. lia.
    + intros k ?. destruct (Z.eq_dec k j) as [->|]; [done|]. apply Ha. lia.
    + replace (j + (n + 1)) with (j + 1 + n) by lia. done.
  - right; right. exists 0. rewrite !Z.add_0_r. split_and!; try (done || lia).
    intros k ?. lia.
Qed.

Lemma used_run_exact fuel b j limit offset (n : nat) :
  wf b → 0 ≤ j → 0 ≤ offset → offset + Z.of_nat n < WORD →
  all_bits b j (Z.of_nat n) true → bit_at b (j + Z.of_nat n) = false →
  j + Z.of_nat n < bit_cnt b → j + Z.of_nat n < limit → (n < fuel)%nat →
  used_run fuel b j limit offset = Ok (Some (offset + Z.of_nat n)).
Proof.
  intros Hwf. pose proof (wf_cnt b Hwf). revert n j offset.
  induction fuel as [|fuel IH]; intros n j offset Hj Ho Hw Ha He Hb Hl Hf; [lia|]. simpl.
  zcase; [lia|]. rewrite bitmap_test_spec by (done || lia). simpl. destruct n as [|n].
  - rewrite Z.add_0_r in He. rewrite He. do 2 f_equal. lia.
  - rewrite (Ha j) by lia. rewrite !u32_small by (unfold is_u32; lia).
    rewrite (IH n); try (done || lia).
    + do 2 f_equal. lia.
    + intros k ?. apply Ha. lia.
    + replace (j + 1 + Z.of_nat n) with (j + Z.of_nat (S n)) by lia. done.
Qed.

Lemma round_offset_spec offset :
  0 ≤ offset ≤ 256 → offset ≤ round_offset offset ≤ 256.
Proof. unfold round_offset. intros. repeat (zcase; [lia|]). lia. Qed.

(** Everything the inner search can do: fail an assertion at the end of the
    bitmap, give up, return the literal 0, or return a free block of the
    size it is looking for. *)
Definition buddy_outcome b bound v (x : res Z) : Prop :=
  x = Fault AssertFail ∨ x = Ok BITMAP_ERROR ∨ x = Ok 0 ∨
  ∃ r, x = Ok r ∧ (bound = 0 ∧ fits b r 1 false ∨ bound ≠ 0 ∧ fits b r (bound * 2) v).

Lemma buddy_loop_spec fuel b i offset bound limit v :
  wf b → bit_cnt b ≤ 2147483648 → 0 ≤ i → 0 ≤ offset ≤ 256 → 0 ≤ bound ≤ 256 →
  0 ≤ limit → (Z.to_nat (limit - i) < fuel)%nat →
  buddy_outcome b bound v (buddy_loop fuel b i offset bound limit v).
Proof.
  intros Hwf Hsz. pose proof (wf_cnt b Hwf). unfold buddy_outcome. revert i offset.
  induction fuel as [|fuel IH]; intros i offset Hi Ho Hbd Hlim Hf; [lia|].
  cbn [buddy_loop]. zcase; [auto|].
  destruct (Z.lt_ge_cases i (bit_cnt b)) as [?|?];
    [|rewrite bitmap_test_out_of_range by done; auto].
  rewrite bitmap_test_spec by done. cbn [mbind res_bind]. destruct (bit_at b i) eqn:E.
  - destruct (used_run_spec (S (Z.to_nat limit)) b i limit offset)
      as [->|[->|(n & ? & -> & Ha & He)]]; auto; try lia. cbn [mbind res_bind].
    destruct (Z.ltb_spec 256 (offset + n)); [auto|].
    assert (n ≠ 0) by (intros ->; rewrite Z.add_0_r in He; congruence).
    pose proof (round_offset_spec (offset + n)).
    rewrite u32_small by (unfold is_u32; zcase; lia).
    apply IH; try lia; zcase; lia.
  - destruct (Z.eqb_spec bound 0) as [->|Hne]; simpl.
    + right; right; right. exists i. split; [done|]. left. split; [done|].
      split_and!; [lia..|]. intros k ?. by replace k with i by lia.
    + destruct (Z.le_gt_cases (i + bound * 2) (bit_cnt b)).
      * destruct (bitmap_contains_spec b i (bound * 2) (negb v)) as ([] & -> & Hr);
          try (done || lia); rewrite negb_involutive in Hr; simpl.
        -- rewrite u32_small by (unfold is_u32; lia). apply IH; lia.
        -- right; right; right. exists i. split; [done|]. right. split; [done|].
           split_and!; [lia..|]. by apply Hr.
      * rewrite bitmap_contains_out_of_range by (done || lia). auto.
Qed.

(** The buddy policy ends for every request of at least one page, without
    running out of fuel, and every index it returns other than the literal 0
    and [BITMAP_ERROR] is the start of [cnt] free pages.  The search limit is
    [512 + check_size] instead of the size of the bitmap, so the assertion of
    [bitmap_test] is one of its outcomes. *)
Theorem buddy_scan_terminates_and_sound st b start cnt :
  wf b → bit_cnt b ≤ 2147483648 → start ≤ bit_cnt b → 1 ≤ cnt ≤ bit_cnt b →
  (bitmap_scan BUDDY_SYSTEM st b start cnt false = Fault AssertFail
   ∨ ∃ r st', bitmap_scan BUDDY_SYSTEM st b start cnt false = Ok (r, st') ∧
       (r = BITMAP_ERROR ∨ r = 0 ∨ fits b r cnt false)).
Proof.
  intros Hwf Hsz Hs Hc. unfold bitmap_scan, buddy.
  rewrite !(proj2 (Z.leb_le _ _)) by lia.
  set (st1 := if check_cnt st <? 3 then Statics _ _ _ else st).
  destruct (Z.ltb_spec 512 cnt); [right; do 2 eexists; split; [done|auto]|].
  destruct (buddy_bound_spec 9 cnt) as (bound & Hbd & Hle & Hb); [simpl; lia|].
  change (2 ^ Z.of_nat 9) with 512 in *. change (buddy_fuel) with 10%nat.
  rewrite Hbd. cbn [mbind res_bind].
  pose proof (u32_range (512 + check_size st1)) as [? ?].
  destruct (buddy_loop_spec (S (Z.to_nat (u32 (512 + check_size st1)))) b 0 0 bound
    (u32 (512 + check_size st1)) false) as [->|[->|[->|(r & -> & Hr)]]];
    try (done || lia).
  - by left.
  - right. do 2 eexists. split; [done|]. auto.
  - right. do 2 eexists. split; [done|]. auto.
  - right. do 2 eexists. split; [done|]. right; right.
    destruct Hr as [[-> Hr]|[? (? & ? & Ha)]].
    + destruct Hb as [[_ ->]|?]; [done|lia].
    + split_and!; [lia..|]. intros k ?. apply Ha. lia.
Qed.

Lemma buddy_scan_terminates_and_sound_witness :
  bitmap_scan BUDDY_SYSTEM statics0 (Bitmap 1024 (SIZE_MAX :: replicate 31 0)) 0 9 false
    = Fault AssertFail
  ∨ ∃ r st', bitmap_scan BUDDY_SYSTEM statics0
        (Bitmap 1024 (SIZE_MAX :: replicate 31 0)) 0 9 false = Ok (r, st') ∧
      (r = BITMAP_ERROR ∨ r = 0 ∨ fits (Bitmap 1024 (SIZE_MAX :: replicate 31 0)) r 9 false).
Proof.
  apply (buddy_scan_terminates_and_sound statics0
           (Bitmap 1024 (SIZE_MAX :: replicate 31 0)) 0 9).
  - apply wf_dec_ok. vm_compute. reflexivity.
  - vm_compute. discriminate.
  - vm_compute. discriminate.
  - vm_compute. split; discriminate.
Defined.

(** The buddy policy hands out memory twice: once more than 256 pages at
    the start of the map are in use, it executes [return NULL] where the
    caller expects an index, and the caller takes page 0, which is in use, as
    the start of a fresh allocation. *)
Theorem buddy_double_allocation st b start cnt (n : nat) :
  wf b → bit_cnt b ≤ 2147483648 → 0 ≤ check_size st < 1048576 →
  0 ≤ start ≤ bit_cnt b → 1 ≤ cnt ≤ 512 → cnt ≤ bit_cnt b →
  (256 < n < 512)%nat → Z.of_nat n < bit_cnt b →
  all_bits b 0 (Z.of_nat n) true → bit_at b (Z.of_nat n) = false →
  bit_at b 0 = true ∧
  ∃ st' b', bitmap_scan_and_flip BUDDY_SYSTEM st b start cnt false = Ok (0, st', b').
Proof.
  intros Hwf Hsz Hcs Hs Hc Hc' Hn Hnb Hall Hend. split; [apply Hall; lia|].
  assert (∃ st', bitmap_scan BUDDY_SYSTEM st b start cnt false = Ok (0, st')) as [st' Hscan].
  { unfold bitmap_scan, buddy. rewrite !(proj2 (Z.leb_le _ _)) by lia.
    set (st1 := if check_cnt st <? 3 then Statics _ _ _ else st). eexists.
    rewrite (proj2 (Z.ltb_ge 512 cnt)) by lia.
    destruct (buddy_bound_spec 9 cnt) as (bound & Hbd & Hle & Hb); [simpl; lia|].
    change (2 ^ Z.of_nat 9) with 512 in *. change (buddy_fuel) with 10%nat.
    rewrite Hbd. cbn [mbind res_bind].
    assert (512 ≤ u32 (512 + check_size st1)) as Hlim.
    { unfold st1. case_match; cbn [check_size];
        rewrite !u32_small; unfold is_u32; lia || (rewrite u32_small; unfold is_u32; lia). }
    set (limit := u32 (512 + check_size st1)) in *.
    cbn [buddy_loop]. rewrite (proj2 (Z.leb_gt _ _)) by lia.
    rewrite bitmap_test_spec by (done || lia). cbn [mbind res_bind].
    rewrite (Hall 0) by lia. rewrite (used_run_exact _ _ _ _ _ n); try (done || lia).
    cbn [mbind res_bind]. rewrite (proj2 (Z.ltb_lt _ _)) by lia. done. }
  destruct (scan_and_flip_found _ _ _ _ _ _ _ _ Hwf Hscan) as (b' & ? & _);
    [done|lia..|eauto].
Qed.

Lemma buddy_double_allocation_witness :
  bit_at (Bitmap 1024 (replicate 8 SIZE_MAX ++ 1 :: replicate 23 0)) 0 = true ∧
  ∃ st' b', bitmap_scan_and_flip BUDDY_SYSTEM statics0
    (Bitmap 1024 (replicate 8 SIZE_MAX ++ 1 :: replicate 23 0)) 0 5 false
    = Ok (0, st', b').
Proof.
  apply (buddy_double_allocation statics0
           (Bitmap 1024 (replicate 8 SIZE_MAX ++ 1 :: replicate 23 0)) 0 5 257).
  - apply wf_dec_ok. vm_compute. reflexivity.
  - vm_compute. discriminate.
  - vm_compute. split; [discriminate|reflexivity].
  - vm_compute. split; discriminate.
  - vm_compute. split; discriminate.
  - vm_compute. discriminate.
  - lia.
  - vm_compute. reflexivity.
  - intros i Hi.
    assert (forallb (bit_at (Bitmap 1024 (replicate 8 SIZE_MAX ++ 1 :: replicate 23 0)))
              (seqZ 0 257) = true) as Hf by (vm_compute; reflexivity).
    rewrite List.forallb_forall in Hf. apply Hf, list_elem_of_In, elem_of_seqZ. lia.
  - vm_compute. reflexivity.
Defined.

End buddy.
