(* ===== verification/Vaddr.v ===== *)
(** Virtual addresses (src/threads/vaddr.h) and x86 page table entries
    (src/threads/pte.h): page arithmetic, the 1:1 mapping of physical memory at
    [PHYS_BASE], and the encoding of directory and table entries. *)

From S2P Require Import Prelude.

(** ** Pages *)

Definition PGBITS : Z := 12.
Definition PGSIZE : Z := 4096.
#[global] Arguments PGSIZE : simpl never.
Definition BITMASK (shift cnt : Z) : Z := u32 (Z.shiftl (Z.shiftl 1 cnt - 1) shift).
Definition PGMASK : Z := BITMASK 0 PGBITS.

Definition pg_ofs (va : Z) : Z := Z.land va PGMASK.

Definition pg_no (va : Z) : Z := Z.shiftr va PGBITS.

Definition pg_round_up (va : Z) : Z :=
  Z.land (u32 (va + PGSIZE - 1)) (u32 (Z.lnot PGMASK)).

Definition pg_round_down (va : Z) : Z := Z.land va (u32 (Z.lnot PGMASK)).

(** ** The kernel's view of physical memory *)

Definition PHYS_BASE : Z := 3221225472.
#[global] Arguments PHYS_BASE : simpl never.

Definition is_user_vaddr (vaddr : Z) : bool := vaddr <? PHYS_BASE.

Definition is_kernel_vaddr (vaddr : Z) : bool := PHYS_BASE <=? vaddr.

Definition ptov (paddr : Z) : res Z :=
  ASSERT paddr <? PHYS_BASE ;; Ok (u32 (paddr + PHYS_BASE)).

Definition vtop (vaddr : Z) : res Z :=
  ASSERT is_kernel_vaddr vaddr ;; Ok (u32 (vaddr - PHYS_BASE)).

(** ** Page table and directory entries *)

Definition PTSHIFT : Z := PGBITS.
Definition PTBITS : Z := 10.
Definition PTMASK : Z := BITMASK PTSHIFT PTBITS.
Definition PDSHIFT : Z := PTSHIFT + PTBITS.

Definition pt_no (va : Z) : Z := Z.shiftr (Z.land va PTMASK) PTSHIFT.

Definition pd_no (va : Z) : Z := Z.shiftr va PDSHIFT.

Definition PTE_FLAGS : Z := 4095.
Definition PTE_ADDR : Z := 4294963200.
Definition PTE_P : Z := 1.
Definition PTE_W : Z := 2.
Definition PTE_U : Z := 4.
Definition PTE_A : Z := 32.
Definition PTE_D : Z := 64.

Definition pde_create (pt : Z) : res Z :=
  ASSERT pg_ofs pt =? 0 ;;
  p ← vtop pt; Ok (Z.lor (Z.lor (Z.lor p PTE_U) PTE_P) PTE_W).

Definition pde_get_pt (pde : Z) : res Z :=
  ASSERT negb (Z.land pde PTE_P =? 0) ;; ptov (Z.land pde PTE_ADDR).

Definition pte_create_kernel (page : Z) (writable : bool) : res Z :=
  ASSERT pg_ofs page =? 0 ;;
  p ← vtop page; Ok (Z.lor (Z.lor p PTE_P) (if writable then PTE_W else 0)).

Definition pte_create_user (page : Z) (writable : bool) : res Z :=
  e ← pte_create_kernel page writable; Ok (Z.lor e PTE_U).

Definition pte_get_page (pte : Z) : res Z := ptov (Z.land pte PTE_ADDR).

(** ** Page arithmetic in closed form *)

Lemma land_ones_mod a n : 0 ≤ n → Z.land a (2 ^ n - 1) = a mod 2 ^ n.
Proof. intros. rewrite <- Z.land_ones by done. by rewrite Z.ones_equiv, Z.sub_1_r. Qed.

Lemma pg_ofs_mod va : pg_ofs va = va mod PGSIZE.
Proof. exact (land_ones_mod va 12 ltac:(lia)). Qed.

Lemma pg_no_div va : pg_no va = va / PGSIZE.
Proof. unfold pg_no. by rewrite Z.shiftr_div_pow2. Qed.

(** Clearing the low bits of a word rounds it down. *)
Lemma land_high_bits a n :
  is_u32 a → 0 ≤ n ≤ 32 → Z.land a (WORD - 2 ^ n) = a - a mod 2 ^ n.
Proof.
  intros Ha Hn.
  assert (Z.land a (WORD - 2 ^ n) = Z.ldiff a (Z.ones n)) as ->.
  { change WORD with (2 ^ 32). apply Z.bits_inj'. intros k Hk.
    rewrite Z.land_spec, Z.ldiff_spec.
    replace (2 ^ 32 - 2 ^ n) with (2 ^ n * (2 ^ (32 - n) - 1))
      by (rewrite Z.mul_sub_distr_l, <- Z.pow_add_r by lia;
          replace (n + (32 - n)) with 32 by lia; lia).
    rewrite Z.mul_comm, <- Z.shiftl_mul_pow2, Z.shiftl_spec, Z.sub_1_r, <- Z.ones_equiv
      by lia.
    destruct (Z.lt_ge_cases k n).
    - rewrite (Z.testbit_neg_r _ (k - n)), (Z.ones_spec_low n) by lia. done.
    - rewrite (Z.ones_spec_high n) by lia. destruct (Z.lt_ge_cases k 32).
      + by rewrite Z.ones_spec_low by lia.
      + rewrite Z.ones_spec_high by lia. destruct Ha as [? Ha].
        destruct (Z.eq_dec a 0) as [->|]; [by rewrite Z.bits_0|].
        rewrite Z.bits_above_log2; [done|done|].
        change WORD with (2 ^ 32) in Ha. apply Z.log2_lt_pow2 in Ha; lia. }
  rewrite Z.ldiff_ones_r, Z.shiftr_div_pow2, Z.shiftl_mul_pow2 by lia.
  pose proof (Z.div_mod a (2 ^ n) ltac:(pose proof (Z.pow_pos_nonneg 2 n); lia)). lia.
Qed.

Lemma pg_round_down_spec va : is_u32 va → pg_round_down va = va - va mod PGSIZE.
Proof. intros. exact (land_high_bits va 12 H ltac:(lia)). Qed.

Lemma pg_round_up_spec va :
  0 ≤ va → va + PGSIZE - 1 < WORD →
  pg_round_up va = (va + PGSIZE - 1) / PGSIZE * PGSIZE.
Proof.
  intros. unfold pg_round_up. rewrite u32_small by (unfold is_u32, PGSIZE in *; lia).
  change (u32 (Z.lnot PGMASK)) with (WORD - 2 ^ 12).
  rewrite land_high_bits by (unfold is_u32, PGSIZE in *; lia).
  change (2 ^ 12) with PGSIZE.
  pose proof (Z.div_mod (va + PGSIZE - 1) PGSIZE ltac:(done)). lia.
Qed.

Lemma pd_no_div va : pd_no va = va / 4194304.
Proof. unfold pd_no. by rewrite Z.shiftr_div_pow2. Qed.

Lemma pt_no_spec va : pt_no va = (va / PGSIZE) mod 1024.
Proof.
  unfold pt_no. rewrite Z.shiftr_land. change (Z.shiftr PTMASK PTSHIFT) with (2 ^ 10 - 1).
  rewrite land_ones_mod, Z.shiftr_div_pow2 by done. done.
Qed.

(** The three fields of a virtual address: directory index, table index
    and page offset stay inside the tables they index and put together give
    the address back, so distinct addresses of a page directory never share
    the same fields. *)
Theorem vaddr_fields_roundtrip va :
  is_u32 va →
  0 ≤ pd_no va < 1024 ∧ 0 ≤ pt_no va < 1024 ∧ 0 ≤ pg_ofs va < PGSIZE ∧
  va = pd_no va * 4194304 + pt_no va * PGSIZE + pg_ofs va.
Proof.
  intros [? ?]. rewrite pd_no_div, pt_no_spec, pg_ofs_mod.
  assert (va / 4194304 = va / PGSIZE / 1024) as -> by (by rewrite Z.div_div).
  pose proof (Z.div_mod va PGSIZE ltac:(done)).
  pose proof (Z.mod_pos_bound va PGSIZE ltac:(done)).
  pose proof (Z.div_mod (va / PGSIZE) 1024 ltac:(done)).
  pose proof (Z.mod_pos_bound (va / PGSIZE) 1024 ltac:(done)).
  unfold PGSIZE in *. lia.
Qed.

Lemma vaddr_fields_roundtrip_witness :
  0 ≤ pd_no 134512640 < 1024 ∧ 0 ≤ pt_no 134512640 < 1024 ∧
  0 ≤ pg_ofs 134512640 < PGSIZE ∧
  134512640 = pd_no 134512640 * 4194304 + pt_no 134512640 * PGSIZE + pg_ofs 134512640.
Proof. apply (vaddr_fields_roundtrip 134512640). split; [discriminate|reflexivity]. Defined.

(** ** Entries *)

(** A kernel virtual address of a page. *)
Definition is_kpage (page : Z) : Prop :=
  PHYS_BASE ≤ page < WORD ∧ page mod PGSIZE = 0.

Lemma kpage_vtop page : is_kpage page → vtop page = Ok (page - PHYS_BASE).
Proof.
  intros [[? ?] _]. unfold vtop, is_kernel_vaddr. rewrite (proj2 (Z.leb_le _ _)) by done.
  rewrite u32_small; [done|]. unfold is_u32, PHYS_BASE in *. lia.
Qed.

Lemma kpage_ofs page : is_kpage page → pg_ofs page = 0.
Proof. intros [_ ?]. by rewrite pg_ofs_mod. Qed.

Lemma kpage_paddr page :
  is_kpage page → Z.land (page - PHYS_BASE) PTE_ADDR = page - PHYS_BASE.
Proof.
  intros [? Hm]. change PTE_ADDR with (WORD - 2 ^ 12).
  rewrite land_high_bits by (unfold is_u32, PHYS_BASE in *; lia).
  change (2 ^ 12) with PGSIZE.
  assert ((page - PHYS_BASE) mod PGSIZE = 0) as -> by (by rewrite Zminus_mod, Hm). lia.
Qed.

Lemma kpage_ptov page : is_kpage page → ptov (page - PHYS_BASE) = Ok page.
Proof.
  intros [? _]. unfold ptov. rewrite (proj2 (Z.ltb_lt _ _)) by (unfold PHYS_BASE in *; lia).
  rewrite u32_small; [|unfold is_u32, PHYS_BASE in *; lia]. f_equal. lia.
Qed.

(** An entry made of an aligned physical address and flag bits. *)
Lemma entry_get_page page flags :
  is_kpage page → Z.land flags PTE_ADDR = 0 →
  pte_get_page (Z.lor (page - PHYS_BASE) flags) = Ok page.
Proof.
  intros Hp Hf. unfold pte_get_page.
  by rewrite Z.land_lor_distr_l, Hf, Z.lor_0_r, kpage_paddr, kpage_ptov.
Qed.

Lemma entry_flag page flags m :
  is_kpage page → Z.land m PTE_ADDR = 0 → 0 ≤ m < PGSIZE →
  Z.land (Z.lor (page - PHYS_BASE) flags) m = Z.land flags m.
Proof.
  intros Hp Hm Hr. rewrite Z.land_lor_distr_l.
  rewrite <- (kpage_paddr page Hp), <- Z.land_assoc, (Z.land_comm PTE_ADDR), Hm.
  by rewrite Z.land_0_r, Z.lor_0_l.
Qed.

Definition user_flags (writable : bool) : Z :=
  Z.lor (Z.lor PTE_P (if writable then PTE_W else 0)) PTE_U.

Lemma pte_create_user_eq page w :
  is_kpage page → pte_create_user page w = Ok (Z.lor (page - PHYS_BASE) (user_flags w)).
Proof.
  intros Hp. unfold pte_create_user, pte_create_kernel.
  rewrite kpage_ofs, kpage_vtop by done. simpl. unfold user_flags. by rewrite !Z.lor_assoc.
Qed.

(** Page table entries round trip: an entry created for a user page
    gives back that page, is marked present and user-accessible, is writable
    exactly when asked for, and starts out neither accessed nor dirty. *)
Theorem pte_user_roundtrip page writable :
  is_kpage page →
  ∃ e, pte_create_user page writable = Ok e ∧ pte_get_page e = Ok page ∧
       Z.land e PTE_P = PTE_P ∧ Z.land e PTE_U = PTE_U ∧
       Z.land e PTE_W = (if writable then PTE_W else 0) ∧
       Z.land e PTE_A = 0 ∧ Z.land e PTE_D = 0.
Proof.
  intros Hp. exists (Z.lor (page - PHYS_BASE) (user_flags writable)).
  rewrite pte_create_user_eq, entry_get_page by (done || by destruct writable).
  rewrite !entry_flag by done. by destruct writable.
Qed.

Lemma pte_user_roundtrip_witness :
  ∃ e, pte_create_user 3222274048 true = Ok e ∧ pte_get_page e = Ok 3222274048 ∧
       Z.land e PTE_P = PTE_P ∧ Z.land e PTE_U = PTE_U ∧ Z.land e PTE_W = PTE_W ∧
       Z.land e PTE_A = 0 ∧ Z.land e PTE_D = 0.
Proof.
  apply (pte_user_roundtrip 3222274048 true).
  split; [split; [discriminate|reflexivity]|reflexivity].
Defined.

Lemma pde_roundtrip pt :
  is_kpage pt → ∃ e, pde_create pt = Ok e ∧ pde_get_pt e = Ok pt ∧ e ≠ 0.
Proof.
  intros Hp. unfold pde_create. rewrite kpage_ofs, kpage_vtop by done. simpl.
  rewrite <- !Z.lor_assoc. eexists. split; [done|]. split.
  - unfold pde_get_pt. rewrite (entry_flag pt) by done. simpl. by apply entry_get_page.
  - intros H0. apply (f_equal (λ x, Z.land x PTE_P)) in H0.
    rewrite (entry_flag pt) in H0 by done. discriminate.
Qed.
