(* ===== verification/Palloc.v ===== *)
(** The page allocator (src/threads/palloc.c): the kernel pool and the user pool,
    each a bitmap of used pages, and the operations that hand pages out and
    take them back.

    A pool's bitmap lives in the pages just below the pool's base, which the
    pool never hands out; the model keeps it as [used_map].  [mem] is the
    content of memory, byte by byte.  Every operation on a pool runs with that
    pool's lock held or with nothing else running, so operations are atomic
    here; the lock itself is part of the synchronisation model. *)

From S2P Require Import Prelude Bitmap BitmapScan Vaddr.

(** ** Data *)

Definition PAL_ASSERT : Z := 1.
Definition PAL_ZERO : Z := 2.
Definition PAL_USER : Z := 4.

Record pool := Pool { used_map : bitmap; base : Z }.

Record palloc_state := PState {
  kernel_pool : pool;
  user_pool : pool;
  statics : scan_statics;
  mem : Z → Z;
}.

(** The global [Select] of bitmap.c. *)
Definition Select : Selector := FIRST_FIT.

Definition has_flag (flags f : Z) : bool := negb (Z.land flags f =? 0).

Definition memset (m : Z → Z) (dst value size : Z) : Z → Z :=
  λ a, if (dst <=? a) && (a <? dst + size) then value else m a.

(** ** Operations *)

Definition palloc_get_multiple (flags page_cnt : Z) (s : palloc_state)
    : res (Z * palloc_state) :=
  let p := if has_flag flags PAL_USER then user_pool s else kernel_pool s in
  if page_cnt =? 0 then Ok (0, s)
  else
    '(page_idx, st, map) ←
      bitmap_scan_and_flip Select (statics s) (used_map p) 0 page_cnt false;
    let p' := Pool map (base p) in
    let s := if has_flag flags PAL_USER
             then PState (kernel_pool s) p' st (mem s)
             else PState p' (user_pool s) st (mem s) in
    let pages := if negb (page_idx =? BITMAP_ERROR)
                 then u32 (base p + PGSIZE * page_idx) else 0 in
    if negb (pages =? 0) then
      Ok (pages,
          if has_flag flags PAL_ZERO
          then PState (kernel_pool s) (user_pool s) (statics s)
                 (memset (mem s) pages 0 (u32 (PGSIZE * page_cnt)))
          else s)
    else if has_flag flags PAL_ASSERT then Fault PanicCall
    else Ok (pages, s).

Definition palloc_get_page (flags : Z) (s : palloc_state) : res (Z * palloc_state) :=
  palloc_get_multiple flags 1 s.

Definition page_from_pool (p : pool) (page : Z) : bool :=
  let page_no := pg_no page in
  let start_page := pg_no (base p) in
  let end_page := u32 (start_page + bitmap_size (used_map p)) in
  (start_page <=? page_no) && (page_no <? end_page).

Definition release_pages (p : pool) (pages page_cnt : Z) : res pool :=
  let page_idx := u32 (pg_no pages - pg_no (base p)) in
  ok ← bitmap_all (used_map p) page_idx page_cnt;
  ASSERT ok ;;
  map ← bitmap_set_multiple (used_map p) page_idx page_cnt false;
  Ok (Pool map (base p)).

Definition palloc_free_multiple (pages page_cnt : Z) (s : palloc_state)
    : res palloc_state :=
  ASSERT pg_ofs pages =? 0 ;;
  if (pages =? 0) || (page_cnt =? 0) then Ok s
  else
    let m := memset (mem s) pages 204 (u32 (PGSIZE * page_cnt)) in
    if page_from_pool (kernel_pool s) pages then
      p ← release_pages (kernel_pool s) pages page_cnt;
      Ok (PState p (user_pool s) (statics s) m)
    else if page_from_pool (user_pool s) pages then
      p ← release_pages (user_pool s) pages page_cnt;
      Ok (PState (kernel_pool s) p (statics s) m)
    else Fault PanicCall.

Definition palloc_free_page (page : Z) (s : palloc_state) : res palloc_state :=
  palloc_free_multiple page 1 s.

(** ** Initialisation *)

Definition read_word (m : Z → Z) (a : Z) : Z :=
  u32 (m a + 256 * m (a + 1) + 65536 * m (a + 2) + 16777216 * m (a + 3)).

Definition read_words (m : Z → Z) (a n : Z) : list Z :=
  (λ i, read_word m (a + 4 * i)) <$> seqZ 0 n.

(** [sizeof (struct bitmap)] is 8: the words follow the header. *)
Definition init_pool (m : Z → Z) (pool_base page_cnt : Z) : res pool :=
  let bm_pages := DIV_ROUND_UP (bitmap_buf_size page_cnt) PGSIZE in
  if page_cnt <? bm_pages then Fault PanicCall
  else
    let page_cnt := page_cnt - bm_pages in
    map ← bitmap_create_in_buf page_cnt (read_words m (pool_base + 8) (elem_cnt page_cnt))
            (u32 (bm_pages * PGSIZE));
    Ok (Pool map (u32 (pool_base + bm_pages * PGSIZE))).

Definition palloc_init (init_ram_pages user_page_limit : Z) (st : scan_statics)
    (m : Z → Z) : res palloc_state :=
  free_start ← ptov (1024 * 1024);
  free_end ← ptov (u32 (init_ram_pages * PGSIZE));
  let free_pages := u32 (Z.quot (s32 (free_end - free_start)) PGSIZE) in
  let user_pages := free_pages / 2 in
  let user_pages := if user_page_limit <? user_pages then user_page_limit
                    else user_pages in
  let kernel_pages := u32 (free_pages - user_pages) in
  kp ← init_pool m free_start kernel_pages;
  up ← init_pool m (u32 (free_start + u32 (kernel_pages * PGSIZE))) user_pages;
  Ok (PState kp up st m).

(** ** Invariant and page-level view *)

Record pool_wf (p : pool) : Prop := {
  pool_map_wf : wf (used_map p);
  pool_aligned : base p mod PGSIZE = 0;
  pool_kernel : PHYS_BASE ≤ base p;
  pool_end : base p + PGSIZE * bit_cnt (used_map p) ≤ WORD;
}.

(** First page number of a pool and the number past its last one. *)
Definition pool_lo (p : pool) : Z := base p / PGSIZE.
Definition pool_hi (p : pool) : Z := pool_lo p + bit_cnt (used_map p).

Record palloc_wf (s : palloc_state) : Prop := {
  kernel_wf : pool_wf (kernel_pool s);
  user_wf : pool_wf (user_pool s);
  pools_disjoint : pool_hi (kernel_pool s) ≤ pool_lo (user_pool s);
}.

(** Is page number [pg] of the pool in use? *)
Definition pool_used (p : pool) (pg : Z) : bool :=
  (pool_lo p <=? pg) && (pg <? pool_hi p) && bit_at (used_map p) (pg - pool_lo p).

Definition page_used (s : palloc_state) (pg : Z) : bool :=
  pool_used (kernel_pool s) pg || pool_used (user_pool s) pg.

(** The pool a request is served from. *)
Definition pool_of (flags : Z) (s : palloc_state) : pool :=
  if has_flag flags PAL_USER then user_pool s else kernel_pool s.

(** Two states with the same pools up to which pages are in use. *)
Definition same_pools (s s' : palloc_state) : Prop :=
  base (kernel_pool s') = base (kernel_pool s) ∧
  base (user_pool s') = base (user_pool s) ∧
  bit_cnt (used_map (kernel_pool s')) = bit_cnt (used_map (kernel_pool s)) ∧
  bit_cnt (used_map (user_pool s')) = bit_cnt (used_map (user_pool s)).

Lemma pool_base_lo p : pool_wf p → base p = PGSIZE * pool_lo p.
Proof. intros [_ Ha _ _]. unfold pool_lo. by apply Z.div_exact. Qed.

Lemma pool_bounds p : pool_wf p → 786432 ≤ pool_lo p ∧ pool_hi p ≤ 1048576.
Proof.
  intros Hp. pose proof (pool_base_lo p Hp) as Hb. destruct Hp as [[? _ _] _ ? He].
  unfold pool_hi, PHYS_BASE, PGSIZE in *. lia.
Qed.

Lemma pool_used_in p pg : pool_used p pg = true → pool_lo p ≤ pg < pool_hi p.
Proof. unfold pool_used. intros. bool_inv. lia. Qed.

Lemma pool_used_bit p i :
  0 ≤ i < bit_cnt (used_map p) → pool_used p (pool_lo p + i) = bit_at (used_map p) i.
Proof.
  intros. unfold pool_used, pool_hi.
  rewrite (proj2 (Z.leb_le _ _)), (proj2 (Z.ltb_lt _ _)) by lia. simpl.
  f_equal. lia.
Qed.

Lemma pool_used_fresh p pg :
  all_bits (used_map p) 0 (bit_cnt (used_map p)) false → pool_used p pg = false.
Proof.
  intros Ha. unfold pool_used, pool_hi.
  destruct (Z.leb_spec (pool_lo p) pg); [|done].
  destruct (Z.ltb_spec pg (pool_lo p + bit_cnt (used_map p))); [|done].
  simpl. apply Ha. lia.
Qed.

(** Changing the bits of a range changes the use of the pages of that range. *)
Lemma pool_used_update p map idx cnt v pg :
  bit_cnt map = bit_cnt (used_map p) → 0 ≤ idx → 0 ≤ cnt →
  idx + cnt ≤ bit_cnt (used_map p) →
  (∀ j, 0 ≤ j → bit_at map j =
     if bool_decide (idx ≤ j < idx + cnt) then v else bit_at (used_map p) j) →
  pool_used (Pool map (base p)) pg =
    if bool_decide (pool_lo p + idx ≤ pg < pool_lo p + idx + cnt) then v
    else pool_used p pg.
Proof.
  intros Hc ??? Hb. unfold pool_used, pool_hi, pool_lo in *. simpl. rewrite Hc.
  destruct (Z.leb_spec (base p / PGSIZE) pg), (Z.ltb_spec pg (base p / PGSIZE + bit_cnt (used_map p)));
    simpl; try (rewrite bool_decide_false by lia; done).
  rewrite Hb by lia. repeat case_bool_decide; (done || lia).
Qed.

Lemma pool_wf_update p map :
  pool_wf p → wf map → bit_cnt map = bit_cnt (used_map p) → pool_wf (Pool map (base p)).
Proof. intros [??? He] ? Hc. split; simpl; rewrite ?Hc; done. Qed.

(** Putting a changed pool back; the other pool's pages are untouched. *)
Definition set_pool (user : bool) (p : pool) (st : scan_statics) (m : Z → Z)
    (s : palloc_state) : palloc_state :=
  if user then PState (kernel_pool s) p st m else PState p (user_pool s) st m.

Lemma set_pool_spec (user : bool) map st m s idx cnt v :
  let p := if user then user_pool s else kernel_pool s in
  palloc_wf s → wf map → bit_cnt map = bit_cnt (used_map p) →
  0 ≤ idx → 0 ≤ cnt → idx + cnt ≤ bit_cnt (used_map p) →
  (∀ j, 0 ≤ j → bit_at map j =
     if bool_decide (idx ≤ j < idx + cnt) then v else bit_at (used_map p) j) →
  let s' := set_pool user (Pool map (base p)) st m s in
  palloc_wf s' ∧ same_pools s s' ∧
  ∀ pg, page_used s' pg =
    if bool_decide (pool_lo p + idx ≤ pg < pool_lo p + idx + cnt) then v
    else page_used s pg.
Proof.
  intros p [Hk Hu Hd] Hw Hc Hi Hn Hle Hb s'. subst p s'.
  pose proof (pool_bounds _ Hk). pose proof (pool_bounds _ Hu).
  unfold set_pool, same_pools, page_used. destruct user; simpl in *.
  - split; [split; simpl; [done|by apply pool_wf_update|done]|]. split; [done|]. intros pg.
    rewrite (pool_used_update (user_pool s) map idx cnt v) by done.
    case_bool_decide; [|done]. destruct (pool_used (kernel_pool s) pg) eqn:E; [|done].
    apply pool_used_in in E. unfold pool_hi in *. lia.
  - split; [split; simpl; [by apply pool_wf_update|done|]|].
    { unfold pool_hi, pool_lo in *. simpl. by rewrite Hc. }
    split; [done|]. intros pg.
    rewrite (pool_used_update (kernel_pool s) map idx cnt v) by done.
    case_bool_decide; [|done]. destruct (pool_used (user_pool s) pg) eqn:E;
      [|by rewrite orb_false_r].
    apply pool_used_in in E. unfold pool_hi in *. lia.
Qed.

(** ** Allocation *)

(** [cnt] consecutive page numbers from [i] on lie in the pool and are free. *)
Definition free_pages_at (s : palloc_state) (p : pool) (i cnt : Z) : Prop :=
  pool_lo p ≤ i ∧ i + cnt ≤ pool_hi p ∧
  ∀ pg, i ≤ pg < i + cnt → page_used s pg = false.

(** The result of a successful request: [cnt] free pages of the right pool,
    marked used and nothing else changed. *)
Definition got_pages (flags cnt : Z) (s : palloc_state) (pages : Z)
    (s' : palloc_state) : Prop :=
  let i := pages / PGSIZE in
  pages ≠ 0 ∧ 0 < cnt ∧ pages = PGSIZE * i ∧ palloc_wf s' ∧ same_pools s s' ∧
  free_pages_at s (pool_of flags s) i cnt ∧
  (∀ pg, page_used s' pg = if bool_decide (i ≤ pg < i + cnt) then true
                           else page_used s pg) ∧
  mem s' = (if has_flag flags PAL_ZERO then memset (mem s) pages 0 (PGSIZE * cnt)
            else mem s).

Lemma fits_free_pages flags s i cnt :
  palloc_wf s → 0 ≤ i →
  fits (used_map (pool_of flags s)) i cnt false ↔
  free_pages_at s (pool_of flags s) (pool_lo (pool_of flags s) + i) cnt.
Proof.
  intros Hwf Hi. unfold fits, free_pages_at.
  assert (∀ pg, pool_lo (pool_of flags s) ≤ pg < pool_hi (pool_of flags s) →
          page_used s pg = pool_used (pool_of flags s) pg) as Hpu.
  { destruct Hwf as [Hk Hu Hd]. pose proof (pool_bounds _ Hk). pose proof (pool_bounds _ Hu).
    intros pg. unfold page_used, pool_of. case_match; intros Hr.
    - destruct (pool_used (kernel_pool s) pg) eqn:E; [|done]. apply pool_used_in in E. lia.
    - destruct (pool_used (user_pool s) pg) eqn:E; [|apply orb_false_r].
      apply pool_used_in in E. lia. }
  unfold pool_hi in *. split.
  - intros (_ & ? & Ha). split_and!; [lia..|]. intros pg ?. rewrite Hpu by lia.
    replace pg with (pool_lo (pool_of flags s) + (pg - pool_lo (pool_of flags s))) by lia.
    rewrite pool_used_bit by lia. apply Ha. lia.
  - intros (? & ? & Ha). split_and!; [lia..|]. intros j ?.
    rewrite <- pool_used_bit, <- Hpu by lia. apply Ha. lia.
Qed.

Lemma pool_of_wf flags s : palloc_wf s → pool_wf (pool_of flags s).
Proof. intros [? ? _]. unfold pool_of. by case_match. Qed.

Lemma palloc_get_multiple_cases flags cnt s :
  palloc_wf s → 0 ≤ cnt < WORD →
  (∃ pages s', palloc_get_multiple flags cnt s = Ok (pages, s') ∧
               got_pages flags cnt s pages s')
  ∨ ((cnt = 0 ∨ ∀ i, ¬ free_pages_at s (pool_of flags s) i cnt) ∧
     if has_flag flags PAL_ASSERT && negb (cnt =? 0)
     then palloc_get_multiple flags cnt s = Fault PanicCall
     else ∃ st, palloc_get_multiple flags cnt s
            = Ok (0, PState (kernel_pool s) (user_pool s) st (mem s))).
Proof.
  intros Hwf Hc. pose proof (pool_of_wf flags s Hwf) as Hp.
  pose proof (pool_bounds _ Hp) as Hbd. pose proof (pool_base_lo _ Hp) as Hbase.
  pose proof (pool_map_wf _ Hp) as Hm. pose proof (wf_cnt _ Hm).
  unfold palloc_get_multiple, Select. fold (pool_of flags s).
  destruct (Z.eqb_spec cnt 0) as [->|Hcnt].
  { right. rewrite andb_false_r. split; [by left|]. exists (statics s). by destruct s. }
  destruct (first_fit_scan (statics s) (used_map (pool_of flags s)) 0 cnt false Hm)
    as (idx & st & Hscan & [(Hne & ? & Hfit & _)|[-> Hno]]); [lia..| |].
  - left. pose proof Hfit as (_ & Hle & _).
    destruct (scan_and_flip_found _ _ _ _ _ _ _ _ Hm Hscan Hne)
      as (map & -> & Hwm & Hcm & Hbm); [lia..|]. cbn [mbind res_bind].
    rewrite (proj2 (Z.eqb_neq idx _) Hne). cbn [negb].
    unfold pool_hi, PGSIZE in *. rewrite (u32_small (base _ + _)) by (unfold is_u32; lia).
    rewrite (u32_small (4096 * cnt)) by (unfold is_u32; lia).
    rewrite (proj2 (Z.eqb_neq (base _ + _) 0)) by lia. cbn [negb].
    set (pages := base (pool_of flags s) + 4096 * idx).
    destruct (set_pool_spec (has_flag flags PAL_USER) map st
      (if has_flag flags PAL_ZERO then memset (mem s) pages 0 (4096 * cnt) else mem s)
      s idx cnt true Hwf Hwm) as (Hwf' & Hsame & Hpu); [done..|lia|lia|done|done|].
    assert (pages / 4096 = pool_lo (pool_of flags s) + idx) as Hdiv.
    { unfold pages. rewrite Hbase, <- Z.mul_add_distr_l, Z.mul_comm. by rewrite Z.div_mul. }
    exists pages, (set_pool (has_flag flags PAL_USER)
      (Pool map (base (pool_of flags s))) st
      (if has_flag flags PAL_ZERO then memset (mem s) pages 0 (4096 * cnt) else mem s) s).
    split; [unfold set_pool; by destruct (has_flag flags PAL_USER), (has_flag flags PAL_ZERO)|].
    unfold got_pages, PGSIZE. rewrite Hdiv. split_and!; try (done || lia).
    + by apply fits_free_pages.
    + unfold set_pool. by case_match.
  - right. rewrite (scan_and_flip_error _ _ _ _ _ _ _ Hm Hscan). cbn [mbind res_bind].
    rewrite Z.eqb_refl. cbn [negb Z.eqb]. rewrite andb_true_r. split.
    + right. intros i Hfree. pose proof Hfree as (? & _).
      apply (Hno (i - pool_lo (pool_of flags s))); [lia|].
      apply fits_free_pages; [done|lia|].
      by replace (pool_lo (pool_of flags s) + (i - pool_lo (pool_of flags s))) with i by lia.
    + case_match; [done|]. exists st. unfold pool_of.
      destruct s as [[] [] ??]. simpl. by destruct (has_flag flags PAL_USER).
Qed.

(** ** Release *)

(** [cnt] pages from page number [i] on belong to one pool and are in use. *)
Definition used_block (s : palloc_state) (i cnt : Z) : Prop :=
  0 < cnt ∧
  (pool_lo (kernel_pool s) ≤ i ∧ i + cnt ≤ pool_hi (kernel_pool s)
   ∨ pool_lo (user_pool s) ≤ i ∧ i + cnt ≤ pool_hi (user_pool s)) ∧
  ∀ pg, i ≤ pg < i + cnt → page_used s pg = true.

Lemma page_from_pool_spec p i :
  pool_wf p → 0 ≤ i →
  page_from_pool p (PGSIZE * i) = (pool_lo p <=? i) && (i <? pool_hi p).
Proof.
  intros Hp Hi. pose proof (pool_bounds p Hp). pose proof (wf_cnt _ (pool_map_wf _ Hp)).
  unfold page_from_pool, bitmap_size. rewrite !pg_no_div.
  fold (pool_lo p). unfold pool_hi in *.
  rewrite u32_small by (unfold is_u32; lia).
  rewrite (Z.mul_comm PGSIZE), Z.div_mul by done. done.
Qed.

Lemma release_pages_spec p i cnt :
  pool_wf p → 0 < cnt → pool_lo p ≤ i → i + cnt ≤ pool_hi p →
  (∀ pg, i ≤ pg < i + cnt → pool_used p pg = true) →
  ∃ map, release_pages p (PGSIZE * i) cnt = Ok (Pool map (base p)) ∧ wf map ∧
    bit_cnt map = bit_cnt (used_map p) ∧
    ∀ j, 0 ≤ j → bit_at map j =
      if bool_decide (i - pool_lo p ≤ j < i - pool_lo p + cnt) then false
      else bit_at (used_map p) j.
Proof.
  intros Hp Hc Hlo Hhi Hu. pose proof (pool_bounds p Hp).
  pose proof (pool_map_wf _ Hp) as Hm. unfold release_pages, pool_hi in *.
  rewrite !pg_no_div. fold (pool_lo p). rewrite (Z.mul_comm PGSIZE), Z.div_mul by done.
  rewrite u32_small by (unfold is_u32; lia).
  rewrite bitmap_all_Ok; [|done|lia|lia|lia|].
  - simpl. destruct (bitmap_set_multiple_spec (used_map p) (i - pool_lo p) cnt false)
      as (map & -> & ? & ? & ?); [done|lia..|]. simpl. eauto.
  - intros j ?. rewrite <- pool_used_bit by lia. apply Hu. lia.
Qed.

(** Freeing a block of used pages marks exactly those pages free and fills
    them with 0xcc. *)
Lemma palloc_free_multiple_spec s i cnt :
  palloc_wf s → used_block s i cnt →
  ∃ s', palloc_free_multiple (PGSIZE * i) cnt s = Ok s' ∧ palloc_wf s' ∧ same_pools s s' ∧
    (∀ pg, page_used s' pg = if bool_decide (i ≤ pg < i + cnt) then false
                             else page_used s pg) ∧
    mem s' = memset (mem s) (PGSIZE * i) 204 (PGSIZE * cnt).
Proof.
  intros Hwf (Hc & Hin & Hu). pose proof Hwf as [Hk Huser Hd].
  pose proof (pool_bounds _ Hk). pose proof (pool_bounds _ Huser).
  unfold palloc_free_multiple. rewrite pg_ofs_mod, Z.mul_comm, Z.mod_mul, Z.eqb_refl by done.
  rewrite (Z.mul_comm i). rewrite (proj2 (Z.eqb_neq _ 0)) by (unfold PGSIZE; lia).
  rewrite (proj2 (Z.eqb_neq cnt 0)) by lia. mstep.
  rewrite (u32_small (PGSIZE * cnt)) by (unfold is_u32, PGSIZE; lia).
  rewrite !page_from_pool_spec by (done || lia).
  set (m := memset _ _ _ _).
  assert (∀ user : bool, let p := if user then user_pool s else kernel_pool s in
    pool_lo p ≤ i → i + cnt ≤ pool_hi p →
    ∃ p', release_pages p (PGSIZE * i) cnt = Ok p' ∧
      let s' := set_pool user p' (statics s) m s in
      palloc_wf s' ∧ same_pools s s' ∧
      (∀ pg, page_used s' pg = if bool_decide (i ≤ pg < i + cnt) then false
                               else page_used s pg)) as Hrel.
  { intros user p ? ?. destruct (release_pages_spec p i cnt) as (map & Hr & ? & ? & ?);
      try done; [by destruct user| |].
    - intros pg ?. specialize (Hu pg ltac:(lia)). unfold page_used in Hu. subst p.
      apply orb_true_iff in Hu as [E|E]; pose proof (pool_used_in _ _ E);
        destruct user; simpl in *; (done || lia).
    - exists (Pool map (base p)). split; [done|].
      destruct (set_pool_spec user map (statics s) m s (i - pool_lo p) cnt false)
        as (? & ? & Hpu); try (done || lia); [unfold pool_hi in *; fold p; lia|].
      split_and!; try done. intros pg. rewrite Hpu. fold p.
      repeat case_bool_decide; (done || lia). }
  destruct Hin as [[? ?]|[? ?]].
  - rewrite (proj2 (Z.leb_le _ _)), (proj2 (Z.ltb_lt _ _)) by lia. mstep.
    destruct (Hrel false) as (p' & -> & ? & ? & ?); [done..|]. mstep.
    eexists. split; [reflexivity|]. by split_and!.
  - rewrite (proj2 (Z.ltb_ge i (pool_hi (kernel_pool s)))), andb_false_r by lia. mstep.
    rewrite (proj2 (Z.leb_le _ _)), (proj2 (Z.ltb_lt _ _)) by lia. mstep.
    destruct (Hrel true) as (p' & -> & ? & ? & ?); [done..|]. mstep.
    eexists. split; [reflexivity|]. by split_and!.
Qed.

Lemma got_pages_used_block flags cnt s pages s' :
  palloc_wf s → got_pages flags cnt s pages s' → used_block s' (pages / PGSIZE) cnt.
Proof.
  intros _ (? & ? & _ & _ & Hs & (? & ? & _) & Hu & _). split; [done|]. split.
  - destruct Hs as (Hb1 & Hb2 & Hc1 & Hc2). unfold pool_of, pool_hi, pool_lo in *.
    rewrite Hb1, Hb2, Hc1, Hc2. case_match; auto.
  - intros pg ?. rewrite Hu. by rewrite bool_decide_true.
Qed.

(** ** Histories of the allocator

    A step is a call of the allocator; next to the state we keep the blocks
    that have been handed out and not yet freed, by address. *)

Inductive palloc_step : palloc_state * gmap Z Z → palloc_state * gmap Z Z → Prop :=
| step_get flags cnt s live pages s' :
    0 ≤ cnt < WORD → palloc_get_multiple flags cnt s = Ok (pages, s') → pages ≠ 0 →
    palloc_step (s, live) (s', <[pages := cnt]> live)
| step_get_null flags cnt s live s' :
    0 ≤ cnt < WORD → palloc_get_multiple flags cnt s = Ok (0, s') →
    palloc_step (s, live) (s', live)
| step_free pages cnt s live s' :
    live !! pages = Some cnt → palloc_free_multiple pages cnt s = Ok s' →
    palloc_step (s, live) (s', delete pages live).

(** Page number [pg] is part of the block of [cnt] pages at [pages]. *)
Definition in_block (pages cnt pg : Z) : Prop :=
  pages / PGSIZE ≤ pg < pages / PGSIZE + cnt.

Record live_inv (s : palloc_state) (live : gmap Z Z) : Prop := {
  li_wf : palloc_wf s;
  li_block : ∀ a c, live !! a = Some c →
    a = PGSIZE * (a / PGSIZE) ∧ used_block s (a / PGSIZE) c;
  li_disjoint : ∀ a1 c1 a2 c2 pg, live !! a1 = Some c1 → live !! a2 = Some c2 →
    in_block a1 c1 pg → in_block a2 c2 pg → a1 = a2;
  li_covered : ∀ pg, page_used s pg = true → ∃ a c, live !! a = Some c ∧ in_block a c pg;
}.

Lemma used_block_mono s s' i cnt :
  same_pools s s' → used_block s i cnt →
  (∀ pg, i ≤ pg < i + cnt → page_used s' pg = true) → used_block s' i cnt.
Proof.
  intros (Hb1 & Hb2 & Hc1 & Hc2) (? & Hin & _) ?. split; [done|]. split; [|done].
  unfold pool_hi, pool_lo in *. by rewrite Hb1, Hb2, Hc1, Hc2.
Qed.

Lemma live_inv_get flags cnt s live pages s' :
  live_inv s live → got_pages flags cnt s pages s' → live_inv s' (<[pages := cnt]> live).
Proof.
  intros [Hwf Hb Hd Hc] Hg. pose proof (got_pages_used_block _ _ _ _ _ Hwf Hg) as Hub.
  destruct Hg as (_ & ? & Hal & Hwf' & Hs & (_ & _ & Hfree) & Hu & _).
  assert (∀ a c pg, live !! a = Some c → in_block a c pg → in_block pages cnt pg → False)
    as Hnew.
  { intros a c pg Ha Hi Hp. destruct (Hb a c Ha) as [_ (_ & _ & Ht)].
    specialize (Ht pg Hi). rewrite Hfree in Ht by done. done. }
  split; [done| | |].
  - intros a c. rewrite lookup_insert. case_decide as E; [subst; intros [= <-]; done|].
    intros Ha. destruct (Hb a c Ha) as [? Hblk]. split; [done|].
    eapply used_block_mono; [done..|]. intros pg ?. rewrite Hu. case_bool_decide; [done|].
    by apply Hblk.
  - intros a1 c1 a2 c2 pg. rewrite !lookup_insert.
    repeat case_decide; subst; try done; [intros [= <-] H2 ??|intros H1 [= <-] ??|apply Hd].
    + exfalso. by eapply (Hnew a2).
    + exfalso. by eapply (Hnew a1).
  - intros pg. rewrite Hu. case_bool_decide.
    + intros _. exists pages, cnt. by rewrite lookup_insert_eq.
    + intros Ht. destruct (Hc pg Ht) as (a & c & Ha & Hi). exists a, c.
      split; [|done]. rewrite lookup_insert_ne; [done|]. intros ->.
      destruct (Hb a c Ha) as [_ (? & _ & Ht')].
      specialize (Ht' (a / PGSIZE) ltac:(lia)). rewrite Hfree in Ht' by lia. done.
Qed.

Lemma live_inv_free s live pages cnt s' :
  live_inv s live → live !! pages = Some cnt →
  palloc_free_multiple pages cnt s = Ok s' → live_inv s' (delete pages live).
Proof.
  intros [Hwf Hb Hd Hc] Hl Hf. destruct (Hb pages cnt Hl) as [Hal Hblk].
  destruct (palloc_free_multiple_spec s (pages / PGSIZE) cnt Hwf Hblk)
    as (s1 & Hf1 & Hwf1 & Hs & Hu & _).
  rewrite <- Hal in Hf1. rewrite Hf in Hf1. injection Hf1 as <-. split; [done| | |].
  - intros a c. rewrite lookup_delete. case_decide; [done|]. intros Ha.
    destruct (Hb a c Ha) as [? Ha']. split; [done|].
    eapply used_block_mono; [done..|]. intros pg ?. rewrite Hu. case_bool_decide.
    + assert (a = pages) by (by eapply (Hd a c pages cnt pg)). congruence.
    + by apply Ha'.
  - intros a1 c1 a2 c2 pg. rewrite !lookup_delete. repeat case_decide; try done. apply Hd.
  - intros pg. rewrite Hu. case_bool_decide; [done|]. intros Ht.
    destruct (Hc pg Ht) as (a & c & Ha & Hi). exists a, c. split; [|done].
    rewrite lookup_delete_ne; [done|]. intros <-. simplify_eq. done.
Qed.

Lemma live_inv_step s live s' live' :
  palloc_step (s, live) (s', live') → live_inv s live → live_inv s' live'.
Proof.
  inversion 1 as [flags cnt ? ? pages ? Hc Hg Hn|flags cnt ? ? ? Hc Hg|]; subst; intros Hi.
  - destruct (palloc_get_multiple_cases flags cnt s) as [(p & s1 & Hg1 & ?)|[_ Hr]];
      [apply Hi|done| |].
    + rewrite Hg in Hg1. simplify_eq. by eapply live_inv_get.
    + case_match; [congruence|]. destruct Hr as [st Hr]. congruence.
  - destruct (palloc_get_multiple_cases flags cnt s) as [(p & s1 & Hg1 & Hgot)|[_ Hr]];
      [apply Hi|done| |].
    + rewrite Hg in Hg1. simplify_eq. by destruct Hgot.
    + case_match; [congruence|]. destruct Hr as [st Hr]. rewrite Hg in Hr. simplify_eq.
      by destruct Hi as [[] ? ? ?].
  - by eapply live_inv_free.
Qed.

(** C1. The page allocator never hands out the same page twice: in every
    state reached from freshly initialised pools by any sequence of calls, the
    blocks handed out and not yet freed are pairwise disjoint, a page is
    marked used exactly when it belongs to one of them, and freeing any of
    them succeeds. *)
Theorem palloc_blocks_disjoint s0 s live :
  palloc_wf s0 → (∀ pg, page_used s0 pg = false) →
  rtc palloc_step (s0, ∅) (s, live) →
  (∀ a1 c1 a2 c2 pg, live !! a1 = Some c1 → live !! a2 = Some c2 →
     in_block a1 c1 pg → in_block a2 c2 pg → a1 = a2) ∧
  (∀ pg, page_used s pg = true ↔ ∃ a c, live !! a = Some c ∧ in_block a c pg) ∧
  (∀ a c, live !! a = Some c → ∃ s', palloc_free_multiple a c s = Ok s').
Proof.
  intros Hwf Hfree Hrun.
  assert (live_inv s live) as [Hw Hb Hd Hc].
  { apply (rtc_ind_r (R := palloc_step) (λ y, live_inv y.1 y.2) (s0, ∅))
      with (z := (s, live)); [| |done].
    - split; simpl; [done| | |].
      + intros a c Ha. by rewrite lookup_empty in Ha.
      + intros a1 c1 a2 c2 pg Ha. by rewrite lookup_empty in Ha.
      + intros pg Ht. by rewrite Hfree in Ht.
    - intros [] [] _ Hstep ?. by eapply live_inv_step. }
  split; [done|]. split.
  - intros pg. split; [apply Hc|]. intros (a & c & Ha & Hi).
    by apply (Hb a c Ha).
  - intros a c Ha. destruct (Hb a c Ha) as [Hal Hblk].
    destruct (palloc_free_multiple_spec s (a / PGSIZE) c Hw Hblk) as (s' & Hf & _).
    rewrite <- Hal in Hf. eauto.
Qed.

(** A small machine: 4 pages in each pool. *)
Definition small_state : palloc_state :=
  PState (Pool (Bitmap 4 [0]) 3222274048) (Pool (Bitmap 4 [0]) 3222290432)
    statics0 (λ _, 0).

Lemma small_state_wf : palloc_wf small_state.
Proof.
  split; [split..|]; try (apply wf_dec_ok); vm_compute; congruence.
Qed.

Lemma small_state_free pg : page_used small_state pg = false.
Proof.
  unfold page_used. rewrite !pool_used_fresh; [done|..];
    intros i Hi; simpl in Hi; assert (i = 0 ∨ i = 1 ∨ i = 2 ∨ i = 3) as Hc by lia;
    destruct Hc as [->|[->|[->| ->]]]; reflexivity.
Qed.

(** The same machine after a request for two user pages. *)
Definition small_state2 : palloc_state :=
  match palloc_get_multiple PAL_USER 2 small_state with
  | Ok (_, s) => s
  | _ => small_state
  end.

Lemma palloc_blocks_disjoint_witness :
  let live : gmap Z Z := <[3222290432 := 2]> ∅ in
  rtc palloc_step (small_state, ∅) (small_state2, live) ∧
  (∀ a1 c1 a2 c2 pg, live !! a1 = Some c1 → live !! a2 = Some c2 →
     in_block a1 c1 pg → in_block a2 c2 pg → a1 = a2) ∧
  (∀ pg, page_used small_state2 pg = true ↔
     ∃ a c, live !! a = Some c ∧ in_block a c pg) ∧
  (∀ a c, live !! a = Some c → ∃ s', palloc_free_multiple a c small_state2 = Ok s').
Proof.
  intros live. assert (rtc palloc_step (small_state, ∅) (small_state2, live)) as Hrun.
  { apply rtc_once, (step_get PAL_USER 2);
      [split; [discriminate|reflexivity]|vm_compute; reflexivity|discriminate]. }
  split; [exact Hrun|].
  exact (palloc_blocks_disjoint _ _ _ small_state_wf small_state_free Hrun).
Defined.

(** Freeing undoes allocating: pages obtained from the allocator can be
    given back, and then exactly the pages that were in use before the request
    are in use again, in pools of unchanged base and size; the freed pages
    hold 0xcc. *)
Theorem palloc_free_undoes_get flags cnt s pages s1 :
  palloc_wf s → 0 ≤ cnt < WORD →
  palloc_get_multiple flags cnt s = Ok (pages, s1) → pages ≠ 0 →
  ∃ s2, palloc_free_multiple pages cnt s1 = Ok s2 ∧ palloc_wf s2 ∧ same_pools s s2 ∧
        (∀ pg, page_used s2 pg = page_used s pg) ∧
        ∀ a, pages ≤ a < pages + PGSIZE * cnt → mem s2 a = 204.
Proof.
  intros Hwf Hc Hget Hn.
  destruct (palloc_get_multiple_cases flags cnt s Hwf Hc) as [(p & s' & Hg & Hgot)|[_ Hr]].
  2:{ case_match; [congruence|]. destruct Hr as [st Hr]. congruence. }
  rewrite Hget in Hg. simplify_eq.
  pose proof (got_pages_used_block _ _ _ _ _ Hwf Hgot) as Hblk.
  destruct Hgot as (_ & ? & Hal & Hwf1 & Hs1 & (_ & _ & Hfree) & Hu1 & _).
  destruct (palloc_free_multiple_spec _ _ _ Hwf1 Hblk) as (s2 & Hf & Hwf2 & Hs2 & Hu2 & Hm).
  rewrite <- Hal in Hf, Hm. exists s2. split_and!; try done.
  - unfold same_pools in *. destruct_and!. split_and!; congruence.
  - intros pg. rewrite Hu2, Hu1. case_bool_decide; [|done]. symmetry. by apply Hfree.
  - intros a Ha. rewrite Hm. unfold memset.
    by rewrite (proj2 (Z.leb_le _ _)), (proj2 (Z.ltb_lt _ _)) by lia.
Qed.

Lemma palloc_free_undoes_get_witness :
  ∃ s2, palloc_free_multiple 3222290432 2 small_state2 = Ok s2 ∧ palloc_wf s2 ∧
    same_pools small_state s2 ∧
    (∀ pg, page_used s2 pg = page_used small_state pg) ∧
    ∀ a, 3222290432 ≤ a < 3222290432 + PGSIZE * 2 → mem s2 a = 204.
Proof.
  apply (palloc_free_undoes_get PAL_USER 2 small_state 3222290432 small_state2 small_state_wf);
    [split; [discriminate|reflexivity]|vm_compute; reflexivity|discriminate].
Defined.

(** ** Initialisation *)

Lemma read_words_length m a n : length (read_words m a n) = Z.to_nat n.
Proof. unfold read_words. by rewrite length_fmap, length_seqZ. Qed.

Lemma read_words_u32 m a n : Forall is_u32 (read_words m a n).
Proof. unfold read_words. apply Forall_fmap, Forall_true. intros. apply u32_range. Qed.

Lemma init_pool_spec m b n :
  1 ≤ n → PHYS_BASE ≤ b → b mod PGSIZE = 0 → b + PGSIZE * n < WORD →
  ∃ p, init_pool m b n = Ok p ∧ pool_wf p ∧
    b / PGSIZE < pool_lo p ∧ pool_hi p = b / PGSIZE + n ∧
    all_bits (used_map p) 0 (bit_cnt (used_map p)) false.
Proof.
  intros Hn Hb Hal He. unfold init_pool.
  assert (n ≤ 262144) by (unfold PHYS_BASE, PGSIZE in *; lia).
  pose proof (DIV_ROUND_UP_spec n 32 ltac:(lia) ltac:(lia) ltac:(lia)) as Hec.
  assert (bitmap_buf_size n = 8 + 4 * elem_cnt n) as Hbs.
  { unfold bitmap_buf_size, byte_cnt, elem_cnt, ELEM_BITS.
    rewrite !u32_small; unfold is_u32; try lia. rewrite u32_small; unfold is_u32; lia. }
  unfold elem_cnt, ELEM_BITS in Hbs.
  pose proof (DIV_ROUND_UP_spec (bitmap_buf_size n) PGSIZE ltac:(done) ltac:(lia)
    ltac:(unfold PGSIZE; lia)) as Hbm.
  set (bm := DIV_ROUND_UP (bitmap_buf_size n) PGSIZE) in *.
  assert (1 ≤ bm ≤ n) by (unfold PGSIZE in *; lia).
  rewrite (proj2 (Z.ltb_ge _ _)) by lia.
  destruct (bitmap_create_in_buf_spec (n - bm) (read_words m (b + 8) (elem_cnt (n - bm)))
    (u32 (bm * PGSIZE))) as (map & -> & Hwm & Hcm & Ha);
    [lia|apply read_words_length|apply read_words_u32| |].
  { rewrite u32_small by (unfold is_u32, PGSIZE in *; lia).
    pose proof (DIV_ROUND_UP_spec (n - bm) 32 ltac:(lia) ltac:(lia) ltac:(lia)).
    unfold bitmap_buf_size, byte_cnt, elem_cnt, ELEM_BITS in *.
    rewrite !u32_small; unfold is_u32; try lia. rewrite u32_small; unfold is_u32; lia. }
  mstep. rewrite u32_small by (unfold is_u32, PGSIZE, PHYS_BASE in *; lia).
  assert ((b + bm * PGSIZE) / PGSIZE = b / PGSIZE + bm) as Hdiv by (by rewrite Z.div_add).
  eexists. split; [done|]. unfold pool_hi, pool_lo. simpl. rewrite Hdiv, Hcm.
  split_and!; try (done || lia). split; simpl; [done| |unfold PGSIZE in *; lia|].
  - by rewrite Z.mod_add.
  - rewrite Hcm. lia.
Qed.

(** Booting on a machine with between 258 pages and just under 1 GB of
    memory, [palloc_init] succeeds: it sets up two disjoint pools above the
    first megabyte and below the end of memory, with every page free,
    whatever garbage the memory held, so the allocator starts in a state its
    invariant holds in. *)
Theorem palloc_init_establishes_wf ram_pages limit st m :
  258 ≤ ram_pages < 262144 → 1 ≤ limit →
  ∃ s, palloc_init ram_pages limit st m = Ok s ∧ palloc_wf s ∧
    (∀ pg, page_used s pg = false) ∧
    PHYS_BASE + 1048576 < base (kernel_pool s) ∧
    base (user_pool s) + PGSIZE * bit_cnt (used_map (user_pool s))
      ≤ PHYS_BASE + PGSIZE * ram_pages.
Proof.
  intros Hr Hl. unfold palloc_init.
  assert (ptov (1024 * 1024) = Ok 3222274048) as -> by reflexivity. mstep.
  rewrite (u32_small (ram_pages * PGSIZE)) by (unfold is_u32, PGSIZE; lia).
  unfold ptov. rewrite (proj2 (Z.ltb_lt _ _)) by (unfold PGSIZE, PHYS_BASE; lia). mstep.
  rewrite (u32_small (ram_pages * PGSIZE + PHYS_BASE))
    by (unfold is_u32, PGSIZE, PHYS_BASE; lia).
  rewrite s32_small by (unfold is_s32, PGSIZE, PHYS_BASE; lia).
  replace (ram_pages * PGSIZE + PHYS_BASE - 3222274048) with ((ram_pages - 256) * PGSIZE)
    by (unfold PGSIZE, PHYS_BASE; lia).
  rewrite Z.quot_mul by done. rewrite (u32_small (ram_pages - 256)) by (unfold is_u32; lia).
  set (free := ram_pages - 256). set (up := if limit <? free / 2 then limit else free / 2).
  assert (2 ≤ free < 262144) by (unfold free; lia).
  assert (1 ≤ up ≤ free / 2) as Hup.
  { assert (1 ≤ free / 2) by (apply Z.div_le_lower_bound; lia).
    unfold up. destruct (Z.ltb_spec limit (free / 2)); lia. }
  clearbody up.
  pose proof (Z.mul_div_le free 2 ltac:(lia)).
  rewrite (u32_small (free - up)) by (unfold is_u32; lia).
  destruct (init_pool_spec m 3222274048 (free - up)) as (kp & -> & Hkw & Hklo & Hkhi & Hka);
    [lia|done|done|unfold PGSIZE; lia|]. mstep.
  rewrite (u32_small ((free - up) * PGSIZE)) by (unfold is_u32, PGSIZE; lia).
  rewrite u32_small by (unfold is_u32, PGSIZE; lia).
  assert ((3222274048 + (free - up) * PGSIZE) / PGSIZE = 786688 + (free - up)) as Hdiv
    by (rewrite Z.div_add by done; done).
  destruct (init_pool_spec m (3222274048 + (free - up) * PGSIZE) up)
    as (upool & -> & Huw & Hulo & Huhi & Hua);
    [lia|unfold PGSIZE, PHYS_BASE; lia|by rewrite Z.mod_add|unfold PGSIZE; lia|]. mstep.
  change (3222274048 / PGSIZE) with 786688 in *. rewrite Hdiv in *.
  eexists. split; [done|]. split_and!.
  - split; simpl; (done || lia).
  - intros pg. unfold page_used. simpl. by rewrite !pool_used_fresh.
  - simpl. rewrite (pool_base_lo kp Hkw). unfold PHYS_BASE, PGSIZE in *. lia.
  - simpl. rewrite (pool_base_lo upool Huw). unfold pool_hi, PHYS_BASE, PGSIZE in *. lia.
Qed.

Lemma palloc_init_establishes_wf_witness :
  ∃ s, palloc_init 1024 SIZE_MAX statics0 (λ _, 165) = Ok s ∧ palloc_wf s ∧
    (∀ pg, page_used s pg = false) ∧
    PHYS_BASE + 1048576 < base (kernel_pool s) ∧
    base (user_pool s) + PGSIZE * bit_cnt (used_map (user_pool s))
      ≤ PHYS_BASE + PGSIZE * 1024.
Proof.
  apply (palloc_init_establishes_wf 1024 SIZE_MAX statics0 (λ _, 165));
    [split; [discriminate|reflexivity]|discriminate].
Defined.
