(* ===== verification/KList.v ===== *)
(** The kernel's doubly linked lists (src/lib/kernel/list.c, list.h).

    A list element is embedded in a larger structure and known by its address;
    the two pointer fields of all elements form the heap, one finite map per
    field.  A [struct list] at address [l] consists of its head element at [l]
    and its tail element at [l + 8].  The operations are translated pointer
    assignment by pointer assignment; [rep h l xs] says that the list at [l]
    holds the elements [xs] in order, and the theorems show that each operation
    acts on [xs] as it should and touches nothing but the list. *)

From S2P Require Import Prelude.

(** ** Data *)

Record heap := Heap { next : gmap Z Z; prev : gmap Z Z }.

Definition load_next (h : heap) (e : Z) : res Z := deref (next h !! e).
Definition load_prev (h : heap) (e : Z) : res Z := deref (prev h !! e).

Definition set_next (h : heap) (e v : Z) : heap := Heap (<[e:=v]> (next h)) (prev h).
Definition set_prev (h : heap) (e v : Z) : heap := Heap (next h) (<[e:=v]> (prev h)).

Definition store_next (h : heap) (e v : Z) : res heap :=
  _ ← load_next h e; Ok (set_next h e v).
Definition store_prev (h : heap) (e v : Z) : res heap :=
  _ ← load_prev h e; Ok (set_prev h e v).

(** [&list->head] and [&list->tail]. *)
Definition head_of (list : Z) : Z := list.
Definition tail_of (list : Z) : Z := list + 8.

(** Every loop over a list takes at most one iteration per element in memory. *)
Definition heap_fuel (h : heap) : nat := S (size (next h)).

(** ** Operations *)

Definition is_head (h : heap) (elem : Z) : res bool :=
  Ok (negb (elem =? NULL)) &&& (p ← load_prev h elem; Ok (p =? NULL))
    &&& (n ← load_next h elem; Ok (negb (n =? NULL))).

Definition is_interior (h : heap) (elem : Z) : res bool :=
  Ok (negb (elem =? NULL)) &&& (p ← load_prev h elem; Ok (negb (p =? NULL)))
    &&& (n ← load_next h elem; Ok (negb (n =? NULL))).

Definition is_tail (h : heap) (elem : Z) : res bool :=
  Ok (negb (elem =? NULL)) &&& (p ← load_prev h elem; Ok (negb (p =? NULL)))
    &&& (n ← load_next h elem; Ok (n =? NULL)).

Definition list_init (h : heap) (list : Z) : res heap :=
  ASSERT negb (list =? NULL) ;;
  h ← store_prev h (head_of list) NULL;
  h ← store_next h (head_of list) (tail_of list);
  h ← store_prev h (tail_of list) (head_of list);
  store_next h (tail_of list) NULL.

Definition list_begin (h : heap) (list : Z) : res Z :=
  ASSERT negb (list =? NULL) ;; load_next h (head_of list).

Definition list_next (h : heap) (elem : Z) : res Z :=
  ok ← is_head h elem ||| is_interior h elem;
  ASSERT ok ;; load_next h elem.

Definition list_end (list : Z) : res Z :=
  ASSERT negb (list =? NULL) ;; Ok (tail_of list).

Definition list_rbegin (h : heap) (list : Z) : res Z :=
  ASSERT negb (list =? NULL) ;; load_prev h (tail_of list).

Definition list_prev (h : heap) (elem : Z) : res Z :=
  ok ← is_interior h elem ||| is_tail h elem;
  ASSERT ok ;; load_prev h elem.

Definition list_rend (list : Z) : res Z :=
  ASSERT negb (list =? NULL) ;; Ok (head_of list).

Definition list_head (list : Z) : res Z :=
  ASSERT negb (list =? NULL) ;; Ok (head_of list).

Definition list_tail (list : Z) : res Z :=
  ASSERT negb (list =? NULL) ;; Ok (tail_of list).

Definition list_insert (h : heap) (before elem : Z) : res heap :=
  ok ← is_interior h before ||| is_tail h before;
  ASSERT ok ;; ASSERT negb (elem =? NULL) ;;
  p ← load_prev h before;
  h ← store_prev h elem p;
  h ← store_next h elem before;
  p ← load_prev h before;
  h ← store_next h p elem;
  store_prev h before elem.

Definition list_splice (h : heap) (before first last : Z) : res heap :=
  ok ← is_interior h before ||| is_tail h before;
  ASSERT ok ;;
  if first =? last then Ok h
  else
    last ← list_prev h last;
    ok ← is_interior h first;
    ASSERT ok ;;
    ok ← is_interior h last;
    ASSERT ok ;;
    p ← load_prev h first;
    n ← load_next h last;
    h ← store_next h p n;
    n ← load_next h last;
    p ← load_prev h first;
    h ← store_prev h n p;
    p ← load_prev h before;
    h ← store_prev h first p;
    h ← store_next h last before;
    p ← load_prev h before;
    h ← store_next h p first;
    store_prev h before last.

Definition list_push_front (h : heap) (list elem : Z) : res heap :=
  b ← list_begin h list; list_insert h b elem.

Definition list_push_back (h : heap) (list elem : Z) : res heap :=
  e ← list_end list; list_insert h e elem.

Definition list_remove (h : heap) (elem : Z) : res (Z * heap) :=
  ok ← is_interior h elem;
  ASSERT ok ;;
  p ← load_prev h elem;
  n ← load_next h elem;
  h ← store_next h p n;
  n ← load_next h elem;
  p ← load_prev h elem;
  h ← store_prev h n p;
  n ← load_next h elem;
  Ok (n, h).

Definition list_empty (h : heap) (list : Z) : res bool :=
  b ← list_begin h list; e ← list_end list; Ok (b =? e).

Definition list_front (h : heap) (list : Z) : res Z :=
  e ← list_empty h list;
  ASSERT negb e ;; load_next h (head_of list).

Definition list_back (h : heap) (list : Z) : res Z :=
  e ← list_empty h list;
  ASSERT negb e ;; load_prev h (tail_of list).

Definition list_pop_front (h : heap) (list : Z) : res (Z * heap) :=
  front ← list_front h list;
  '(_, h) ← list_remove h front;
  Ok (front, h).

Definition list_pop_back (h : heap) (list : Z) : res (Z * heap) :=
  back ← list_back h list;
  '(_, h) ← list_remove h back;
  Ok (back, h).

Fixpoint list_size_loop (fuel : nat) (h : heap) (e fin cnt : Z) : res Z :=
  match fuel with
  | O => Timeout
  | S fuel =>
      if negb (e =? fin)
      then e ← list_next h e; list_size_loop fuel h e fin (u32 (cnt + 1))
      else Ok cnt
  end.

Definition list_size (h : heap) (list : Z) : res Z :=
  e ← list_begin h list; fin ← list_end list;
  list_size_loop (heap_fuel h) h e fin 0.

(** [swap] exchanges the two pointers it is given the addresses of.  Its three
    uses exchange a [prev] with a [next], and a [next] with a [prev], field. *)
Definition swap_prev_next (h : heap) (a b : Z) : res heap :=
  t ← load_prev h a;
  v ← load_next h b;
  h ← store_prev h a v;
  store_next h b t.

Definition swap_next_prev (h : heap) (a b : Z) : res heap :=
  t ← load_next h a;
  v ← load_prev h b;
  h ← store_next h a v;
  store_prev h b t.

Fixpoint reverse_loop (fuel : nat) (h : heap) (e fin : Z) : res heap :=
  match fuel with
  | O => Timeout
  | S fuel =>
      if negb (e =? fin) then
        h ← swap_prev_next h e e;
        e ← load_prev h e;
        reverse_loop fuel h e fin
      else Ok h
  end.

Definition list_reverse (h : heap) (list : Z) : res heap :=
  emp ← list_empty h list;
  if negb emp then
    e ← list_begin h list; fin ← list_end list;
    h ← reverse_loop (heap_fuel h) h e fin;
    h ← swap_next_prev h (head_of list) (tail_of list);
    a ← load_next h (head_of list);
    b ← load_prev h (tail_of list);
    swap_prev_next h a b
  else Ok h.

(** ** Operations on ordered lists

    [less a b] stands for a call of the comparison function the caller passes,
    with its auxiliary data: it reads the structures the elements are embedded
    in, which these functions do not change. *)

Section ordered_ops.
Variable less : Z → Z → bool.

Fixpoint is_sorted_loop (fuel : nat) (h : heap) (a b : Z) : res bool :=
  match fuel with
  | O => Timeout
  | S fuel =>
      a ← list_next h a;
      if negb (a =? b) then
        p ← list_prev h a;
        if less a p then Ok false else is_sorted_loop fuel h a b
      else Ok true
  end.

Definition is_sorted (h : heap) (a b : Z) : res bool :=
  if negb (a =? b) then is_sorted_loop (heap_fuel h) h a b else Ok true.

Fixpoint end_of_run_loop (fuel : nat) (h : heap) (a b : Z) : res Z :=
  match fuel with
  | O => Timeout
  | S fuel =>
      a ← list_next h a;
      more ← Ok (negb (a =? b)) &&& (p ← list_prev h a; Ok (negb (less a p)));
      if more : bool then end_of_run_loop fuel h a b else Ok a
  end.

Definition find_end_of_run (h : heap) (a b : Z) : res Z :=
  ASSERT negb (a =? NULL) ;; ASSERT negb (b =? NULL) ;; ASSERT negb (a =? b) ;;
  end_of_run_loop (heap_fuel h) h a b.

Fixpoint merge_loop (fuel : nat) (h : heap) (a0 a1b0 b1 : Z) : res heap :=
  match fuel with
  | O => Timeout
  | S fuel =>
      if negb (a0 =? a1b0) && negb (a1b0 =? b1) then
        if negb (less a1b0 a0) then
          a0 ← list_next h a0; merge_loop fuel h a0 a1b0 b1
        else
          a1b0 ← list_next h a1b0;
          p ← list_prev h a1b0;
          h ← list_splice h a0 p a1b0;
          merge_loop fuel h a0 a1b0 b1
      else Ok h
  end.

Definition inplace_merge (h : heap) (a0 a1b0 b1 : Z) : res heap :=
  ASSERT negb (a0 =? NULL) ;; ASSERT negb (a1b0 =? NULL) ;; ASSERT negb (b1 =? NULL) ;;
  ok ← is_sorted h a0 a1b0;
  ASSERT ok ;;
  ok ← is_sorted h a1b0 b1;
  ASSERT ok ;;
  merge_loop (heap_fuel h) h a0 a1b0 b1.

(** One pass over the list: the heap and the number of runs output. *)
Fixpoint sort_pass (fuel : nat) (h : heap) (a0 fin output_run_cnt : Z)
    : res (heap * Z) :=
  match fuel with
  | O => Timeout
  | S fuel =>
      if negb (a0 =? fin) then
        let output_run_cnt := u32 (output_run_cnt + 1) in
        a1b0 ← find_end_of_run h a0 fin;
        if a1b0 =? fin then Ok (h, output_run_cnt)
        else
          b1 ← find_end_of_run h a1b0 fin;
          h ← inplace_merge h a0 a1b0 b1;
          sort_pass fuel h b1 fin output_run_cnt
      else Ok (h, output_run_cnt)
  end.

Fixpoint sort_loop (fuel : nat) (h : heap) (list : Z) : res heap :=
  match fuel with
  | O => Timeout
  | S fuel =>
      a0 ← list_begin h list; fin ← list_end list;
      '(h, output_run_cnt) ← sort_pass (heap_fuel h) h a0 fin 0;
      if 1 <? output_run_cnt then sort_loop fuel h list else Ok h
  end.

Definition list_sort (h : heap) (list : Z) : res heap :=
  ASSERT negb (list =? NULL) ;;
  h ← sort_loop (heap_fuel h) h list;
  b ← list_begin h list; e ← list_end list;
  ok ← is_sorted h b e;
  ASSERT ok ;; Ok h.

Fixpoint insert_ordered_loop (fuel : nat) (h : heap) (elem e fin : Z) : res Z :=
  match fuel with
  | O => Timeout
  | S fuel =>
      if negb (e =? fin) then
        if less elem e then Ok e
        else e ← list_next h e; insert_ordered_loop fuel h elem e fin
      else Ok e
  end.

Definition list_insert_ordered (h : heap) (list elem : Z) : res heap :=
  ASSERT negb (list =? NULL) ;; ASSERT negb (elem =? NULL) ;;
  e ← list_begin h list; fin ← list_end list;
  e ← insert_ordered_loop (heap_fuel h) h elem e fin;
  list_insert h e elem.

Fixpoint unique_loop (fuel : nat) (h : heap) (elem fin duplicates : Z) : res heap :=
  match fuel with
  | O => Timeout
  | S fuel =>
      nxt ← list_next h elem;
      if negb (nxt =? fin) then
        if negb (less elem nxt) && negb (less nxt elem) then
          '(_, h) ← list_remove h nxt;
          h ← (if negb (duplicates =? NULL)
               then list_push_back h duplicates nxt else Ok h);
          unique_loop fuel h elem fin duplicates
        else unique_loop fuel h nxt fin duplicates
      else Ok h
  end.

Definition list_unique (h : heap) (list duplicates : Z) : res heap :=
  ASSERT negb (list =? NULL) ;;
  emp ← list_empty h list;
  if emp : bool then Ok h
  else
    elem ← list_begin h list; fin ← list_end list;
    unique_loop (heap_fuel h) h elem fin duplicates.

Fixpoint max_loop (fuel : nat) (h : heap) (e fin max : Z) : res Z :=
  match fuel with
  | O => Timeout
  | S fuel =>
      if negb (e =? fin) then
        let max := if less max e then e else max in
        e ← list_next h e; max_loop fuel h e fin max
      else Ok max
  end.

Definition list_max (h : heap) (list : Z) : res Z :=
  max ← list_begin h list; fin ← list_end list;
  if negb (max =? fin) then
    e ← list_next h max; max_loop (heap_fuel h) h e fin max
  else Ok max.

Fixpoint min_loop (fuel : nat) (h : heap) (e fin min : Z) : res Z :=
  match fuel with
  | O => Timeout
  | S fuel =>
      if negb (e =? fin) then
        let min := if less e min then e else min in
        e ← list_next h e; min_loop fuel h e fin min
      else Ok min
  end.

Definition list_min (h : heap) (list : Z) : res Z :=
  min ← list_begin h list; fin ← list_end list;
  if negb (min =? fin) then
    e ← list_next h min; min_loop (heap_fuel h) h e fin min
  else Ok min.

End ordered_ops.

(** ** The representation of a list *)

(** Neighbours in [c] point to each other. *)
Fixpoint chained (h : heap) (c : list Z) : Prop :=
  match c with
  | a :: (b :: _) as c' =>
      next h !! a = Some b ∧ prev h !! b = Some a ∧ chained h c'
  | _ => True
  end.

(** The elements of the list at [l], with its head and tail. *)
Definition chain (l : Z) (xs : list Z) : list Z := head_of l :: xs ++ [tail_of l].

Record rep (h : heap) (l : Z) (xs : list Z) : Prop := {
  rep_nodup : NoDup (chain l xs);
  rep_nonnull : NULL ∉ chain l xs;
  rep_chained : chained h (chain l xs);
  rep_head : prev h !! head_of l = Some NULL;
  rep_tail : next h !! tail_of l = Some NULL;
}.

(** An element that can be linked into a list: its memory exists. *)
Definition allocated (h : heap) (e : Z) : Prop :=
  e ≠ NULL ∧ is_Some (next h !! e) ∧ is_Some (prev h !! e).

(** Nothing but the elements of [c] differs between the two heaps, and no
    memory appears or disappears. *)
Definition frame (h h' : heap) (c : list Z) : Prop :=
  dom (next h') = dom (next h) ∧ dom (prev h') = dom (prev h) ∧
  ∀ x, x ∉ c → next h' !! x = next h !! x ∧ prev h' !! x = prev h !! x.

(** ** Chains of pointers *)

Section chains.
Implicit Types (h : heap) (l e x y : Z) (xs ys zs c A B : list Z).

Lemma chained_app h A x B :
  chained h (A ++ x :: B) ↔ chained h (A ++ [x]) ∧ chained h (x :: B).
Proof.
  induction A as [|a A IH]; [destruct B; naive_solver|].
  destruct A as [|a' A]; [destruct B; naive_solver|].
  change (((a :: a' :: A) ++ x :: B)) with (a :: a' :: (A ++ x :: B)).
  change (((a :: a' :: A) ++ [x])) with (a :: a' :: (A ++ [x])).
  change (chained h (a' :: A ++ x :: B) ↔ chained h (a' :: A ++ [x]) ∧ chained h (x :: B)) in IH.
  cbn [chained] in *. naive_solver.
Qed.

Lemma chained_cons2 h a b c :
  chained h (a :: b :: c) ↔ next h !! a = Some b ∧ prev h !! b = Some a ∧ chained h (b :: c).
Proof. done. Qed.

Lemma chained_agree h h' c :
  (∀ x, x ∈ removelast c → next h' !! x = next h !! x) →
  (∀ x, x ∈ tail c → prev h' !! x = prev h !! x) →
  chained h c → chained h' c.
Proof.
  induction c as [|a [|b c] IH]; [done..|]. intros Hn Hp (Ha & Hb & Hc).
  split_and!.
  - rewrite Hn; [done|]. simpl. set_solver.
  - rewrite Hp; [done|]. set_solver.
  - apply IH; [| |done]; intros x Hx; [apply Hn; simpl; set_solver|apply Hp; set_solver].
Qed.

Lemma elem_of_removelast x c : x ∈ removelast c → x ∈ c.
Proof. induction c as [|a [|b c] IH]; simpl in *; [set_solver..|]. set_solver. Qed.

Lemma chained_set_next h e v c :
  e ∉ removelast c → chained h c → chained (set_next h e v) c.
Proof.
  intros He. apply chained_agree; [|done]. intros x Hx. simpl.
  apply lookup_insert_ne. set_solver.
Qed.

Lemma chained_set_prev h e v c :
  e ∉ tail c → chained h c → chained (set_prev h e v) c.
Proof.
  intros He. apply chained_agree; [done|]. intros x Hx. simpl.
  apply lookup_insert_ne. set_solver.
Qed.

Lemma chained_link h A x y B :
  chained h (A ++ x :: y :: B) → next h !! x = Some y ∧ prev h !! y = Some x.
Proof. rewrite chained_app. simpl. naive_solver. Qed.

(** The element or end of the list a suffix starts at, and the one a prefix
    ends at. *)
Definition first_of (zs : list Z) (t : Z) : Z := hd t zs.
Definition last_of (ys : list Z) (l : Z) : Z := List.last ys l.

Lemma chain_split l ys zs :
  ∃ A B, chain l (ys ++ zs) =
    A ++ last_of ys (head_of l) :: first_of zs (tail_of l) :: B ∧
    head_of l :: ys = A ++ [last_of ys (head_of l)] ∧
    zs ++ [tail_of l] = first_of zs (tail_of l) :: B.
Proof.
  exists (removelast (head_of l :: ys)), (tail (zs ++ [tail_of l])).
  assert (head_of l :: ys = removelast (head_of l :: ys) ++ [last_of ys (head_of l)]) as H1.
  { unfold last_of. rewrite (app_removelast_last (head_of l)) at 1 by done. f_equal.
    by destruct ys. }
  assert (zs ++ [tail_of l] = first_of zs (tail_of l) :: tail (zs ++ [tail_of l])) as H2
    by (by destruct zs).
  split_and!; [|done..]. unfold chain. rewrite <-app_assoc, H2 at 1.
  rewrite app_comm_cons, H1 at 1. by rewrite <-app_assoc.
Qed.

Lemma rep_split h l ys zs :
  rep h l (ys ++ zs) →
  next h !! last_of ys (head_of l) = Some (first_of zs (tail_of l)) ∧
  prev h !! first_of zs (tail_of l) = Some (last_of ys (head_of l)).
Proof.
  intros [_ _ Hc _ _]. destruct (chain_split l ys zs) as (A & B & E & _).
  rewrite E in Hc. by apply chained_link in Hc.
Qed.

Lemma first_of_in zs l : first_of zs (tail_of l) ∈ zs ++ [tail_of l].
Proof. destruct zs; set_solver. Qed.

Lemma last_of_in ys l : last_of ys (head_of l) ∈ head_of l :: ys.
Proof.
  destruct (chain_split l ys []) as (A & B & _ & E & _). rewrite E. set_solver.
Qed.

Lemma last_of_snoc ys y l : last_of (ys ++ [y]) l = y.
Proof. apply last_last. Qed.

Lemma rep_nonnull_first h l ys zs :
  rep h l (ys ++ zs) → first_of zs (tail_of l) ≠ NULL.
Proof.
  intros Hr E. apply (rep_nonnull _ _ _ Hr). pose proof (first_of_in zs l) as H.
  rewrite E in H. unfold chain. set_solver.
Qed.

Lemma rep_nonnull_last h l ys zs :
  rep h l (ys ++ zs) → last_of ys (head_of l) ≠ NULL.
Proof.
  intros Hr E. apply (rep_nonnull _ _ _ Hr). pose proof (last_of_in ys l) as H.
  rewrite E in H. unfold chain. set_solver.
Qed.

Lemma rep_elem h l ys z zs :
  rep h l (ys ++ z :: zs) →
  z ≠ NULL ∧ prev h !! z = Some (last_of ys (head_of l)) ∧
  next h !! z = Some (first_of zs (tail_of l)) ∧
  last_of ys (head_of l) ≠ NULL ∧ first_of zs (tail_of l) ≠ NULL.
Proof.
  intros Hr. pose proof (rep_nonnull_first h l ys (z :: zs) Hr).
  pose proof (rep_nonnull_last h l ys (z :: zs) Hr).
  destruct (rep_split h l ys (z :: zs) Hr) as [_ ?].
  rewrite cons_middle, app_assoc in Hr.
  pose proof (rep_nonnull_first h l _ zs Hr). destruct (rep_split h l _ zs Hr) as [Hn _].
  rewrite last_of_snoc in Hn. done.
Qed.

Lemma is_interior_elem h l ys z zs : rep h l (ys ++ z :: zs) → is_interior h z = Ok true.
Proof.
  intros (? & Hp & Hn & ? & ?)%rep_elem. unfold is_interior, load_prev, load_next.
  rewrite Hp, Hn. mstep. by repeat (rewrite (proj2 (Z.eqb_neq _ _)) by done; mstep).
Qed.

Lemma is_tail_tail h l xs : rep h l xs →
  is_interior h (tail_of l) = Ok false ∧ is_tail h (tail_of l) = Ok true.
Proof.
  intros Hr. rewrite <-(app_nil_r xs) in Hr.
  pose proof (rep_nonnull_first _ _ _ _ Hr) as Ht. pose proof (rep_nonnull_last _ _ _ _ Hr).
  destruct (rep_split _ _ _ _ Hr) as [_ Hp]. simpl in *. pose proof (rep_tail _ _ _ Hr) as Hn.
  unfold is_interior, is_tail, load_prev, load_next. rewrite Hp, Hn. mstep.
  rewrite !(proj2 (Z.eqb_neq (tail_of l) _)), !(proj2 (Z.eqb_neq (last_of _ _) _)) by done.
  done.
Qed.

Lemma is_interior_or_tail h l ys zs :
  rep h l (ys ++ zs) →
  is_interior h (first_of zs (tail_of l)) ||| is_tail h (first_of zs (tail_of l)) = Ok true.
Proof.
  intros Hr. destruct zs as [|z zs]; simpl.
  - destruct (is_tail_tail h l _ Hr) as [-> ->]. done.
  - by rewrite (is_interior_elem h l ys z zs Hr).
Qed.

Lemma rep_first h l xs :
  rep h l xs → l ≠ NULL ∧ next h !! head_of l = Some (first_of xs (tail_of l)).
Proof.
  intros Hr. split; [apply (rep_nonnull_last h l [] xs Hr)|].
  apply (proj1 (rep_split h l [] xs Hr)).
Qed.

Lemma list_begin_spec h l xs : rep h l xs → list_begin h l = Ok (first_of xs (tail_of l)).
Proof.
  intros [Hl Hn]%rep_first. unfold list_begin, load_next.
  by rewrite Hn, (proj2 (Z.eqb_neq _ _)).
Qed.

Lemma list_end_spec h l xs : rep h l xs → list_end l = Ok (tail_of l).
Proof. intros [Hl _]%rep_first. unfold list_end. by rewrite (proj2 (Z.eqb_neq _ _)). Qed.

Lemma list_next_spec h l ys z zs :
  rep h l (ys ++ z :: zs) → list_next h z = Ok (first_of zs (tail_of l)).
Proof.
  intros Hr. pose proof (is_interior_elem _ _ _ _ _ Hr) as Hi.
  apply rep_elem in Hr as (? & Hp & Hn & ? & ?).
  unfold list_next. rewrite Hi. unfold is_head, load_prev, load_next.
  rewrite Hp, Hn. mstep. by rewrite !(proj2 (Z.eqb_neq _ _)).
Qed.

Lemma list_prev_spec h l ys zs :
  rep h l (ys ++ zs) →
  list_prev h (first_of zs (tail_of l)) = Ok (last_of ys (head_of l)).
Proof.
  intros Hr. unfold list_prev. rewrite (is_interior_or_tail _ _ _ _ Hr). mstep.
  unfold load_prev. by rewrite (proj2 (rep_split _ _ _ _ Hr)).
Qed.

(** The head, tail and elements of a list are pairwise distinct addresses. *)
Lemma rep_elem_ne_tail h l ys z zs : rep h l (ys ++ z :: zs) → (z =? tail_of l) = false.
Proof.
  intros [Hn _ _ _ _]. apply Z.eqb_neq. unfold chain in Hn.
  rewrite app_comm_cons, NoDup_app in Hn. set_solver.
Qed.

Lemma first_of_eq_tail h l ys zs :
  rep h l (ys ++ zs) →
  (first_of zs (tail_of l) =? tail_of l) = bool_decide (zs = []).
Proof.
  intros Hr. destruct zs; simpl; [apply Z.eqb_refl|].
  by rewrite (rep_elem_ne_tail _ _ _ _ _ Hr).
Qed.

Lemma list_empty_spec h l xs : rep h l xs → list_empty h l = Ok (bool_decide (xs = [])).
Proof.
  intros Hr. unfold list_empty. rewrite (list_begin_spec _ _ _ Hr), (list_end_spec _ _ _ Hr).
  mstep. by rewrite (first_of_eq_tail h l [] xs Hr).
Qed.

(** *** Framing *)

Lemma frame_refl h c : frame h h c.
Proof. by split_and!. Qed.

Lemma frame_trans h1 h2 h3 c : frame h1 h2 c → frame h2 h3 c → frame h1 h3 c.
Proof.
  intros (D1 & D1' & F1) (D2 & D2' & F2). split_and!; [congruence..|].
  intros x Hx. destruct (F1 x Hx), (F2 x Hx). split; congruence.
Qed.

Lemma frame_weaken h h' c c' : frame h h' c → c ⊆ c' → frame h h' c'.
Proof. intros (? & ? & HF) Hs. split_and!; [done..|]. intros x Hx. apply HF. set_solver. Qed.

Lemma frame_set_next h e v c : is_Some (next h !! e) → e ∈ c → frame h (set_next h e v) c.
Proof.
  intros He Hc. split_and!; simpl; [|done|].
  - rewrite dom_insert_L. apply elem_of_dom in He. set_solver.
  - intros x Hx. split; [|done]. apply lookup_insert_ne. set_solver.
Qed.

Lemma frame_set_prev h e v c : is_Some (prev h !! e) → e ∈ c → frame h (set_prev h e v) c.
Proof.
  intros He Hc. split_and!; simpl; [done| |].
  - rewrite dom_insert_L. apply elem_of_dom in He. set_solver.
  - intros x Hx. split; [done|]. apply lookup_insert_ne. set_solver.
Qed.

Lemma frame_allocated h h' c e : frame h h' c → allocated h e ↔ allocated h' e.
Proof. intros (D & D' & _). unfold allocated. by rewrite <-!elem_of_dom, D, D'. Qed.

Lemma frame_fuel h h' c : frame h h' c → heap_fuel h' = heap_fuel h.
Proof. intros (D & _). unfold heap_fuel. by rewrite <-!size_dom, D. Qed.

(** A list whose elements are not among the changed ones stays as it is. *)
Lemma rep_frame h h' c l xs :
  rep h l xs → frame h h' c → (∀ x, x ∈ chain l xs → x ∉ c) → rep h' l xs.
Proof.
  intros [Hn H0 Hc Hh Ht] (_ & _ & HF) Hd.
  split; [done|done| | |].
  - apply (chained_agree h); [| |done]; intros x Hx; apply HF, Hd.
    + by apply elem_of_removelast.
    + unfold chain in *. set_solver.
  - rewrite <-Hh. apply HF, Hd. unfold chain. set_solver.
  - rewrite <-Ht. apply HF, Hd. unfold chain. set_solver.
Qed.

Lemma rep_allocated h l xs x : rep h l xs → x ∈ chain l xs → allocated h x.
Proof.
  intros Hr Hx. split; [intros ->; by apply (rep_nonnull _ _ _ Hr)|].
  unfold chain in Hx. rewrite elem_of_cons, elem_of_app, list_elem_of_singleton in Hx.
  destruct Hx as [->|[Hx| ->]].
  - split; [|rewrite (rep_head _ _ _ Hr); by eexists].
    rewrite (proj2 (rep_first h l xs Hr)). by eexists.
  - apply list_elem_of_split in Hx as (ys & zs & ->).
    destruct (rep_elem _ _ _ _ _ Hr) as (_ & -> & -> & _). split; by eexists.
  - split; [rewrite (rep_tail _ _ _ Hr); by eexists|].
    rewrite <-(app_nil_r xs) in Hr. pose proof (proj2 (rep_split h l xs [] Hr)). by eexists.
Qed.

Lemma rep_length_fuel h l xs : rep h l xs → (length xs + 2 < heap_fuel h)%nat.
Proof.
  intros Hr. unfold heap_fuel. rewrite <-size_dom.
  assert (list_to_set (chain l xs) ⊆ dom (next h)) as Hs%subseteq_size.
  { intros x. rewrite elem_of_list_to_set. intros Hx.
    apply elem_of_dom. by apply (rep_allocated h l xs). }
  rewrite size_list_to_set in Hs by apply (rep_nodup _ _ _ Hr).
  unfold chain in Hs. simpl in Hs. rewrite length_app in Hs. simpl in Hs. lia.
Qed.

(** *** Insertion and removal *)

Lemma load_prev_ok h e v : prev h !! e = Some v → load_prev h e = Ok v.
Proof. unfold load_prev. by intros ->. Qed.

Lemma load_next_ok h e v : next h !! e = Some v → load_next h e = Ok v.
Proof. unfold load_next. by intros ->. Qed.

Lemma store_prev_ok h e v : is_Some (prev h !! e) → store_prev h e v = Ok (set_prev h e v).
Proof. unfold store_prev, load_prev. by intros [? ->]. Qed.

Lemma store_next_ok h e v : is_Some (next h !! e) → store_next h e v = Ok (set_next h e v).
Proof. unfold store_next, load_next. by intros [? ->]. Qed.

(** [rep] from the chain as a plain list, for lists cut at arbitrary places. *)
Lemma rep_intro h h' l xs xs' :
  rep h l xs → NoDup (chain l xs') → NULL ∉ chain l xs' → chained h' (chain l xs') →
  prev h' !! head_of l = prev h !! head_of l →
  next h' !! tail_of l = next h !! tail_of l → rep h' l xs'.
Proof. intros [_ _ _ Hh Ht] ??? Eh Et. split; [done..| |]; congruence. Qed.

Lemma chain_ends l xs A p b B :
  chain l xs = A ++ p :: b :: B → NoDup (chain l xs) → head_of l ≠ b ∧ tail_of l ≠ p.
Proof.
  unfold chain. intros E Hd.
  assert (head_of l ∈ A ++ [p]) by (destruct A; simplify_eq/=; set_solver).
  assert (tail_of l ∈ b :: B).
  { apply last_Some_elem_of. rewrite <-(last_cons_cons p), <-(last_app_cons A), <-E.
    by rewrite app_comm_cons, last_snoc. }
  rewrite E, NoDup_app, !NoDup_cons in Hd. clear E. split; intros Eq; subst; set_solver.
Qed.

Lemma chained_insert h A p e b B :
  NoDup (A ++ p :: b :: B) → e ∉ A ++ p :: b :: B → chained h (A ++ p :: b :: B) →
  chained (set_prev (set_next (set_next (set_prev h e p) e b) p e) b e) (A ++ p :: e :: b :: B).
Proof.
  rewrite NoDup_app, !NoDup_cons. intros Hd He [HcA (_ & _ & HcB)]%chained_app.
  apply chained_app. split.
  - apply chained_set_prev; [destruct A; simpl; set_solver|].
    apply chained_set_next; [rewrite removelast_last; set_solver|].
    apply chained_set_next; [rewrite removelast_last; set_solver|].
    apply chained_set_prev; [destruct A; simpl; set_solver|done].
  - rewrite !chained_cons2. split_and!; cbn [next prev set_next set_prev].
    + by rewrite lookup_insert_eq.
    + rewrite lookup_insert_ne, lookup_insert_eq; [done|set_solver].
    + rewrite lookup_insert_ne, lookup_insert_eq; [done|set_solver].
    + by rewrite lookup_insert_eq.
    + apply chained_set_prev; [set_solver|].
      apply chained_set_next; [intros ?%elem_of_removelast; set_solver|].
      apply chained_set_next; [intros ?%elem_of_removelast; set_solver|].
      apply chained_set_prev; [set_solver|done].
Qed.

Lemma list_insert_ok h l ys zs e :
  rep h l (ys ++ zs) → allocated h e → e ∉ chain l (ys ++ zs) →
  ∃ h', list_insert h (first_of zs (tail_of l)) e = Ok h' ∧
    rep h' l (ys ++ e :: zs) ∧ frame h h' (e :: chain l (ys ++ zs)).
Proof.
  intros Hr (He0 & Hen & Hep) He. pose proof (rep_split _ _ _ _ Hr) as [Hn Hp].
  unfold list_insert. rewrite (is_interior_or_tail _ _ _ _ Hr). mstep.
  rewrite (proj2 (Z.eqb_neq _ _)) by done. mstep.
  destruct (chain_split l ys zs) as (A & B & Ec & EA & EB).
  set (p := last_of ys (head_of l)) in *. set (b := first_of zs (tail_of l)) in *.
  assert (chain l (ys ++ e :: zs) = A ++ p :: e :: b :: B) as Ec'.
  { unfold chain. rewrite <-app_assoc, <-app_comm_cons, app_comm_cons, EA, EB.
    by rewrite <-app_assoc. }
  pose proof (rep_nodup _ _ _ Hr) as Hd. pose proof (rep_nonnull _ _ _ Hr) as H0.
  pose proof (rep_chained _ _ _ Hr) as Hc. pose proof (chain_ends _ _ _ _ _ _ Ec Hd) as [Hhd Htl].
  assert (e ≠ head_of l ∧ e ≠ tail_of l) as [He1 He2] by (unfold chain in He; set_solver).
  rewrite Ec in Hd, H0, Hc, He |- *.
  assert (e ≠ p ∧ e ≠ b) as (Hep' & Heb) by set_solver.
  rewrite (load_prev_ok _ _ _ Hp). mstep. rewrite store_prev_ok by done. mstep.
  rewrite store_next_ok by done. mstep.
  rewrite (load_prev_ok _ _ p) by (simpl; by rewrite lookup_insert_ne). mstep.
  rewrite store_next_ok by (simpl; rewrite lookup_insert_ne by done; by eexists). mstep.
  rewrite store_prev_ok by (simpl; rewrite lookup_insert_ne by done; by eexists).
  eexists. split; [done|]. split.
  - apply (rep_intro h _ l (ys ++ zs)); [done|rewrite Ec'..| |].
    + clear -Hd He. revert Hd He. rewrite !NoDup_app, !NoDup_cons. set_solver.
    + clear -H0 He0. set_solver.
    + by apply chained_insert.
    + simpl. by rewrite !lookup_insert_ne.
    + simpl. by rewrite !lookup_insert_ne.
  - repeat (eapply frame_trans; [|first [apply frame_set_prev|apply frame_set_next];
      [simpl; rewrite ?lookup_insert_ne by done; by first [done|eexists]|clear; set_solver]]).
    apply frame_refl.
Qed.

Lemma chained_remove h A p z b B :
  NoDup (A ++ p :: z :: b :: B) → chained h (A ++ p :: z :: b :: B) →
  chained (set_prev (set_next h p b) b p) (A ++ p :: b :: B).
Proof.
  rewrite NoDup_app, !NoDup_cons. intros Hd [HcA HcB]%chained_app.
  rewrite !chained_cons2 in HcB. destruct HcB as (_ & _ & _ & _ & HcB).
  apply chained_app. rewrite chained_cons2. cbn [next prev set_next set_prev].
  rewrite !lookup_insert_eq. split_and!; [|done..|].
  - apply chained_set_prev; [destruct A; simpl; set_solver|].
    apply chained_set_next; [rewrite removelast_last; set_solver|done].
  - apply chained_set_prev; [set_solver|].
    apply chained_set_next; [intros ?%elem_of_removelast; set_solver|done].
Qed.

Lemma list_remove_ok h l ys z zs :
  rep h l (ys ++ z :: zs) →
  ∃ h', list_remove h z = Ok (first_of zs (tail_of l), h') ∧
    rep h' l (ys ++ zs) ∧ frame h h' (chain l (ys ++ zs)).
Proof.
  intros Hr. unfold list_remove. rewrite (is_interior_elem _ _ _ _ _ Hr). mstep.
  destruct (rep_elem _ _ _ _ _ Hr) as (Hz & Hp & Hn & _).
  destruct (chain_split l ys zs) as (A & B & Ec & EA & EB).
  set (p := last_of ys (head_of l)) in *. set (b := first_of zs (tail_of l)) in *.
  assert (chain l (ys ++ z :: zs) = A ++ p :: z :: b :: B) as Ec'.
  { unfold chain. rewrite <-app_assoc, <-app_comm_cons, app_comm_cons, EA, EB.
    by rewrite <-app_assoc. }
  pose proof (rep_nodup _ _ _ Hr) as Hd. pose proof (rep_nonnull _ _ _ Hr) as H0.
  pose proof (rep_chained _ _ _ Hr) as Hc. rewrite Ec' in Hd, H0, Hc.
  assert (NoDup (chain l (ys ++ zs))) as Hd'.
  { rewrite Ec. revert Hd. rewrite !NoDup_app, !NoDup_cons. clear. set_solver. }
  pose proof (chain_ends _ _ _ _ _ _ Ec Hd') as [Hhd Htl].
  assert (z ≠ p ∧ z ≠ b) as [Hzp Hzb].
  { revert Hd. rewrite NoDup_app, !NoDup_cons. clear. set_solver. }
  rewrite chained_app, !chained_cons2 in Hc. destruct Hc as (Hc & Hpz & _ & _ & Hbz & Hc').
  rewrite (load_prev_ok _ _ _ Hp), (load_next_ok _ _ _ Hn). mstep.
  rewrite store_next_ok by (by eexists). mstep.
  rewrite (load_next_ok _ _ b) by (simpl; by rewrite lookup_insert_ne). mstep.
  rewrite (load_prev_ok _ _ p) by done. mstep.
  rewrite store_prev_ok by (by eexists). mstep.
  rewrite (load_next_ok _ _ b) by (simpl; by rewrite lookup_insert_ne). mstep.
  eexists. split; [done|]. rewrite Ec in Hd' |- *. split.
  - apply (rep_intro h _ l (ys ++ z :: zs)); [done|rewrite Ec..| |]; [done| | | |].
    + clear -H0. set_solver.
    + apply (chained_remove h A p z b B Hd). by rewrite <-Ec'; apply Hr.
    + simpl. by rewrite !lookup_insert_ne.
    + simpl. by rewrite !lookup_insert_ne.
  - eapply frame_trans; [apply frame_set_next|apply frame_set_prev];
      [by eexists|clear; set_solver|by eexists|clear; set_solver].
Qed.

(** *** Splicing *)

(** The pointers [list_splice] writes when it moves the elements from [s] to
    [s'], which stand between [q'] and [r], to the place between [p] and [q]. *)
Definition spliced (h : heap) (p q q' s s' r : Z) : heap :=
  set_prev (set_next (set_next (set_prev (set_prev (set_next h q' r) r q') s p) s' q) p s) q s'.

Lemma spliced_agree h p q q' s s' r c :
  q' ∉ removelast c → s' ∉ removelast c → p ∉ removelast c →
  r ∉ tail c → s ∉ tail c → q ∉ tail c →
  chained h c → chained (spliced h p q q' s s' r) c.
Proof. intros. unfold spliced. by repeat first [apply chained_set_prev|apply chained_set_next]. Qed.

Lemma spliced_links h p q q' s s' r :
  p ≠ q' → p ≠ s' → q' ≠ s' → r ≠ s → r ≠ q → s ≠ q →
  let h' := spliced h p q q' s s' r in
  (next h' !! p = Some s ∧ prev h' !! s = Some p) ∧
  (next h' !! s' = Some q ∧ prev h' !! q = Some s') ∧
  (next h' !! q' = Some r ∧ prev h' !! r = Some q').
Proof.
  intros. unfold h', spliced, set_next, set_prev. cbn [next prev].
  split_and!; repeat first [rewrite lookup_insert_eq; done|rewrite lookup_insert_ne by done].
Qed.

Lemma chained_parts h X Y : chained h (X ++ Y) → chained h X ∧ chained h Y.
Proof.
  destruct Y as [|y Y]; [by rewrite app_nil_r|]. rewrite chained_app. intros [HX HY].
  split; [|done]. clear HY. induction X as [|x [|x' X] IH]; [done..|].
  simpl in HX. rewrite chained_cons2. naive_solver.
Qed.

Lemma chained_join h X X0 x Y Y0 y :
  X = X0 ++ [x] → Y = y :: Y0 → chained h X → chained h Y →
  next h !! x = Some y → prev h !! y = Some x → chained h (X ++ Y).
Proof.
  intros -> -> HX HY Hn Hp. rewrite <-app_assoc. simpl.
  by rewrite chained_app, chained_cons2.
Qed.

Lemma removelast_notin x c : x ∉ c → x ∉ removelast c.
Proof. intros ? ?%elem_of_removelast. done. Qed.

Lemma tail_notin x c : x ∉ c → x ∉ tail c.
Proof. destruct c; set_solver. Qed.

Lemma NoDup_removelast_last c0 x c : c = c0 ++ [x] → NoDup c → x ∈ c ∧ x ∉ removelast c.
Proof. intros ->. rewrite removelast_last, NoDup_app. set_solver. Qed.

Lemma NoDup_tail_head c0 x c : c = x :: c0 → NoDup c → x ∈ c ∧ x ∉ tail c.
Proof. intros ->. rewrite NoDup_cons. simpl. set_solver. Qed.

(** The moved part is [S], from [s] to [s']; it moves over [Q], from [q] to
    [q'].  Together with the parts before and after they make up the chain. *)
Lemma chained_splice h P P0 p Q Q0 Q1 q q' S S0 S1 s s' R R0 r :
  P = P0 ++ [p] → Q = q :: Q0 → Q = Q1 ++ [q'] → S = s :: S0 → S = S1 ++ [s'] →
  R = r :: R0 → NoDup (P ++ Q ++ S ++ R) → chained h (P ++ Q ++ S ++ R) →
  chained (spliced h p q q' s s' r) (P ++ S ++ Q ++ R).
Proof.
  intros EP EQ0 EQ1 ES0 ES1 ER (HdP & HPo & (HdQ & HQo & (HdS & HSo & HdR)%NoDup_app)%NoDup_app)%NoDup_app
    (HcP & (HcQ & (HcS & HcR)%chained_parts)%chained_parts)%chained_parts.
  destruct (NoDup_removelast_last _ _ _ EP HdP) as [Hp Hp'].
  destruct (NoDup_removelast_last _ _ _ EQ1 HdQ) as [Hq1 Hq1'].
  destruct (NoDup_removelast_last _ _ _ ES1 HdS) as [Hs1 Hs1'].
  destruct (NoDup_tail_head _ _ _ EQ0 HdQ) as [Hq Hq'].
  destruct (NoDup_tail_head _ _ _ ES0 HdS) as [Hs Hs'].
  destruct (NoDup_tail_head _ _ _ ER HdR) as [Hr Hr'].
  assert (∀ x, x ∈ P → x ∉ Q ∧ x ∉ S ∧ x ∉ R) as HP by (clear -HPo; set_solver).
  assert (∀ x, x ∈ Q → x ∉ P ∧ x ∉ S ∧ x ∉ R) as HQ by (clear -HPo HQo; set_solver).
  assert (∀ x, x ∈ S → x ∉ P ∧ x ∉ Q ∧ x ∉ R) as HS by (clear -HPo HQo HSo; set_solver).
  assert (∀ x, x ∈ R → x ∉ P ∧ x ∉ Q ∧ x ∉ S) as HR by (clear -HPo HQo HSo; set_solver).
  destruct (HP _ Hp) as (? & ? & ?), (HQ _ Hq) as (? & ? & ?), (HQ _ Hq1) as (? & ? & ?),
    (HS _ Hs) as (? & ? & ?), (HS _ Hs1) as (? & ? & ?), (HR _ Hr) as (? & ? & ?).
  clear HPo HQo HSo HP HQ HS HR.
  pose proof (spliced_agree h p q q' s s' r) as Hag.
  assert (p ≠ q' ∧ p ≠ s' ∧ q' ≠ s' ∧ r ≠ s ∧ r ≠ q ∧ s ≠ q) as (? & ? & ? & ? & ? & ?)
    by (split_and!; intros ?; simplify_eq; contradiction).
  destruct (spliced_links h p q q' s s' r) as ([? ?] & [? ?] & [? ?]); [done..|].
  eapply (chained_join _ P _ p); [done|by rewrite ES0| | |done..].
  { apply Hag; auto using removelast_notin, tail_notin. }
  eapply (chained_join _ S _ s'); [done|by rewrite EQ0| | |done..].
  { apply Hag; auto using removelast_notin, tail_notin. }
  eapply (chained_join _ Q _ q'); [done..| | |done|done].
  all: apply Hag; auto using removelast_notin, tail_notin.
Qed.

Lemma last_of_app ys y Y l : last_of (ys ++ y :: Y) l = List.last (y :: Y) l.
Proof.
  unfold last_of. revert y. induction ys as [|x ys IH]; intros y; [done|].
  rewrite <-app_comm_cons, <-(IH y). by destruct ys.
Qed.

Lemma last_split y Y d : y :: Y = removelast (y :: Y) ++ [List.last (y :: Y) d].
Proof. by apply app_removelast_last. Qed.

(** The pointers around two adjacent parts of a list. *)
Lemma rep_parts h l ys q Q s S zs :
  let q' := List.last (q :: Q) NULL in let s' := List.last (s :: S) NULL in
  rep h l (ys ++ (q :: Q) ++ (s :: S) ++ zs) →
  (prev h !! q = Some (last_of ys (head_of l)) ∧
   next h !! last_of ys (head_of l) = Some q) ∧
  (prev h !! s = Some q' ∧ next h !! q' = Some s) ∧
  (prev h !! first_of zs (tail_of l) = Some s' ∧
   next h !! s' = Some (first_of zs (tail_of l))) ∧
  list_prev h (first_of zs (tail_of l)) = Ok s' ∧
  is_interior h s = Ok true ∧ is_interior h s' = Ok true.
Proof.
  intros q' s' Hr. assert (Hr2 := Hr). assert (Hr3 := Hr).
  rewrite !app_assoc in Hr3. rewrite (app_assoc ys) in Hr2.
  pose proof (rep_split _ _ _ _ Hr) as [? ?].
  pose proof (rep_split _ _ (ys ++ q :: Q) ((s :: S) ++ zs) Hr2) as H2.
  pose proof (rep_split _ _ _ zs Hr3) as H3. pose proof (list_prev_spec _ _ _ zs Hr3) as Hl.
  rewrite last_of_app in H2, H3, Hl. rewrite (last_split s S NULL) in Hr2.
  rewrite <-(app_assoc (removelast _)), (app_assoc _ (removelast _)) in Hr2.
  pose proof (is_interior_elem _ _ _ _ _ Hr2) as Hi.
  rewrite app_assoc in Hr. pose proof (is_interior_elem _ _ _ _ _ Hr).
  assert (∀ a A d, List.last (a :: A) d = List.last (a :: A) NULL) as Hd.
  { intros a A d. revert a. induction A as [|b A IH]; intros a; [done|]. apply IH. }
  rewrite !(Hd q Q (head_of l)) in H2. rewrite !(Hd s S (head_of l)) in H3, Hl.
  simpl first_of in *. naive_solver.
Qed.

(** [list_splice] once its checks have passed, on the pointers it reads. *)
Lemma list_splice_run h p q q' s s' r :
  is_interior h q ||| is_tail h q = Ok true → s ≠ r →
  list_prev h r = Ok s' → is_interior h s = Ok true → is_interior h s' = Ok true →
  prev h !! q = Some p → prev h !! s = Some q' → next h !! s' = Some r →
  is_Some (next h !! p) → is_Some (next h !! q') → is_Some (prev h !! r) →
  q' ≠ s' → s ≠ r → q ≠ r → q ≠ s →
  list_splice h q s r = Ok (spliced h p q q' s s' r).
Proof.
  intros Hok Hsr Hl Hi Hi' Hq Hs Hs' [? Hp] [? Hq'] [? Hr] ????. unfold list_splice.
  rewrite Hok. mstep. rewrite (proj2 (Z.eqb_neq _ _)) by done. rewrite Hl. mstep.
  rewrite Hi, Hi'. mstep. rewrite (load_prev_ok _ _ _ Hs), (load_next_ok _ _ _ Hs'). mstep.
  rewrite store_next_ok by (by eexists). mstep.
  rewrite (load_next_ok _ _ r) by (simpl; by rewrite lookup_insert_ne). mstep.
  rewrite (load_prev_ok _ _ q') by done. mstep.
  rewrite store_prev_ok by (by eexists). mstep.
  rewrite (load_prev_ok _ _ p) by (simpl; by rewrite lookup_insert_ne). mstep.
  rewrite store_prev_ok by (simpl; rewrite lookup_insert_ne by done; by eexists). mstep.
  rewrite store_next_ok by (simpl; rewrite lookup_insert_ne by done; by eexists). mstep.
  rewrite (load_prev_ok _ _ p) by (simpl; by rewrite !lookup_insert_ne). mstep.
  rewrite store_next_ok by (simpl; rewrite !lookup_insert_is_Some'; eauto). mstep.
  rewrite store_prev_ok by (simpl; rewrite !lookup_insert_ne by done; by eexists).
  done.
Qed.

Lemma spliced_sym h p q q' s s' r :
  p ≠ q' → p ≠ s' → q' ≠ s' → r ≠ s → r ≠ q → s ≠ q → spliced h s' r p q q' s = spliced h p q q' s s' r.
Proof.
  intros. unfold spliced, set_next, set_prev. cbn [next prev]. f_equal.
  - rewrite (insert_insert_ne _ p s') by done. by rewrite (insert_insert_ne _ p q').
  - rewrite (insert_insert_ne _ r q) by done. by rewrite (insert_insert_ne _ r s).
Qed.

(** The left one of two adjacent parts, when it is the one that moves. *)
Lemma rep_left h l ys q Q s S zs :
  let q' := List.last (q :: Q) NULL in
  rep h l (ys ++ (q :: Q) ++ (s :: S) ++ zs) →
  list_prev h s = Ok q' ∧ is_interior h q = Ok true ∧ is_interior h q' = Ok true ∧
  is_interior h (first_of zs (tail_of l)) ||| is_tail h (first_of zs (tail_of l)) = Ok true.
Proof.
  intros q' Hr. assert (Hr2 := Hr). assert (Hr3 := Hr). rewrite !app_assoc in Hr3. pose proof (is_interior_or_tail _ _ _ _ Hr3) as Hok.
  pose proof (is_interior_elem _ _ ys q _ Hr) as Hi. rewrite app_assoc in Hr.
  pose proof (list_prev_spec _ _ _ _ Hr) as Hl. rewrite last_of_app in Hl. rewrite (last_split q Q NULL) in Hr2.
  rewrite <-(app_assoc (removelast _)), (app_assoc _ (removelast _)) in Hr2.
  pose proof (is_interior_elem _ _ _ _ _ Hr2) as Hi2. split_and!; try done. cbn [first_of hd app] in Hl. unfold q'. rewrite Hl. f_equal.
  clear. revert q. induction Q as [|b Q IH]; intros q; [done|]. apply IH.
Qed.

Lemma spliced_frame h p q q' s s' r c :
  is_Some (next h !! p) → is_Some (next h !! q') → is_Some (next h !! s') →
  is_Some (prev h !! q) → is_Some (prev h !! s) → is_Some (prev h !! r) →
  [p; q; q'; s; s'; r] ⊆ c → frame h (spliced h p q q' s s' r) c.
Proof.
  intros. unfold spliced.
  repeat (eapply frame_trans; [|first [apply frame_set_prev|apply frame_set_next];
    [simpl; rewrite ?lookup_insert_is_Some'; eauto|set_solver]]).
  apply frame_refl.
Qed.

Lemma NoDup_app4 P Q S R x y z w :
  NoDup (P ++ Q ++ S ++ R) → x ∈ P → y ∈ Q → z ∈ S → w ∈ R →
  x ≠ y ∧ x ≠ z ∧ x ≠ w ∧ y ≠ z ∧ y ≠ w ∧ z ≠ w.
Proof. rewrite !NoDup_app. intros. split_and!; intros ?; simplify_eq; set_solver. Qed.

(** Two adjacent parts change places, whichever of them is moved. *)
Lemma list_splice_both h l ys q Q s S zs :
  let xs := ys ++ (q :: Q) ++ (s :: S) ++ zs in
  rep h l xs →
  ∃ h', list_splice h q s (first_of zs (tail_of l)) = Ok h' ∧ list_splice h (first_of zs (tail_of l)) q s = Ok h' ∧
    rep h' l (ys ++ (s :: S) ++ (q :: Q) ++ zs) ∧ frame h h' (chain l xs).
Proof.
  intros xs Hr.
  pose proof (is_interior_or_tail _ _ ys ((q :: Q) ++ (s :: S) ++ zs) Hr) as Hok.
  destruct (rep_parts _ _ _ _ _ _ _ _ Hr) as ([Hq Hp] & [Hs Hq'] & [Hz Hs'] & Hlp & Hi1 & Hi2).
  destruct (chain_split l ys zs) as (A & B & _ & EA & EB).
  set (p := last_of ys (head_of l)) in *. set (r := first_of zs (tail_of l)) in *.
  set (q' := List.last (q :: Q) NULL) in *. set (s' := List.last (s :: S) NULL) in *.
  assert (∀ X Y, chain l (ys ++ X ++ Y ++ zs) = (head_of l :: ys) ++ X ++ Y ++ (zs ++ [tail_of l]))
    as Ec by (intros; unfold chain; by rewrite <-!app_assoc).
  pose proof (rep_nodup _ _ _ Hr) as Hd. pose proof (rep_nonnull _ _ _ Hr) as H0.
  pose proof (rep_chained _ _ _ Hr) as Hc. unfold xs in *. rewrite Ec in Hd, H0, Hc.
  assert (p ∈ head_of l :: ys ∧ r ∈ zs ++ [tail_of l]) as [Hin_p Hin_r]
    by (rewrite EA, EB; set_solver).
  assert (q' ∈ q :: Q ∧ s' ∈ s :: S) as [Hin_q Hin_s]
    by (by rewrite (last_split q Q NULL), (last_split s S NULL); set_solver).
  destruct (NoDup_app4 _ _ _ _ p q s r Hd) as (? & ? & ? & ? & ? & ?); [done|set_solver..|done|].
  destruct (NoDup_app4 _ _ _ _ (head_of l) q' s' (tail_of l) Hd) as (? & ? & ? & ? & ? & ?);
    [set_solver|done..|set_solver|].
  destruct (NoDup_app4 _ _ _ _ (head_of l) q s r Hd) as (? & ? & ? & _); [set_solver..|done|].
  destruct (NoDup_app4 _ _ _ _ p q s (tail_of l) Hd) as (? & ? & ? & _); [done|set_solver..|].
  rewrite (list_splice_run h p q q' s s' r); [|try done; by eexists..].
  destruct (rep_left _ _ _ _ _ _ _ _ Hr) as (Hl2 & Hi3 & Hi4 & Hok2).
  destruct (NoDup_app4 _ _ _ _ p q' s' r Hd) as (? & ? & _ & ? & _); [done..|].
  rewrite (list_splice_run h s' r p q q' s); [|try (done || congruence); by eexists..].
  eexists. split; [done|]. split; [rewrite spliced_sym; done || congruence|]. split.
  - apply (rep_intro h _ l (ys ++ (q :: Q) ++ (s :: S) ++ zs)); [done|rewrite Ec..| |].
    + revert Hd. apply NoDup_Permutation_proper. by rewrite (app_assoc (s :: S)), (Permutation_app_comm (s :: S)), <-app_assoc.
    + clear -H0. set_solver.
    + eapply chained_splice; [done|done|apply last_split|done|apply last_split|done..].
    + simpl. by rewrite !lookup_insert_ne.
    + simpl. by rewrite !lookup_insert_ne.
  - rewrite Ec. apply spliced_frame; [by eexists..|]. clear -Hin_p Hin_r Hin_q Hin_s. set_solver.
Qed.

Lemma list_splice_ok h l ys q Q s S zs :
  let xs := ys ++ (q :: Q) ++ (s :: S) ++ zs in
  rep h l xs →
  ∃ h', list_splice h q s (first_of zs (tail_of l)) = Ok h' ∧
    rep h' l (ys ++ (s :: S) ++ (q :: Q) ++ zs) ∧ frame h h' (chain l xs).
Proof. intros xs Hr. destruct (list_splice_both _ _ _ _ _ _ _ _ Hr) as (h' & E & _ & H). by exists h'. Qed.

(** *** The ends of a list *)

Lemma list_init_ok h l :
  allocated h (head_of l) → allocated h (tail_of l) →
  ∃ h', list_init h l = Ok h' ∧ rep h' l [] ∧ frame h h' (chain l []).
Proof.
  intros (Hl & [? Hhn] & [? Hhp]) (Ht & [? Htn] & [? Htp]). unfold list_init.
  rewrite (proj2 (Z.eqb_neq _ _)) by done. mstep.
  assert (head_of l ≠ tail_of l) as Hne by (unfold head_of, tail_of; lia).
  do 4 (first [rewrite store_prev_ok|rewrite store_next_ok];
    [|simpl; rewrite ?lookup_insert_is_Some'; eauto]; mstep).
  eexists. split; [done|]. split.
  - split; [|unfold chain; set_solver|..]; simpl.
    + unfold chain. simpl. rewrite !NoDup_cons. split_and!; [set_solver..|apply NoDup_nil_2].
    + rewrite lookup_insert_ne by done. by rewrite !lookup_insert_eq.
    + rewrite lookup_insert_ne by done. by rewrite !lookup_insert_eq.
    + by rewrite lookup_insert_eq.
  - repeat (eapply frame_trans; [|first [apply frame_set_prev|apply frame_set_next];
      [simpl; rewrite ?lookup_insert_is_Some'; eauto|unfold chain; set_solver]]).
    apply frame_refl.
Qed.

Lemma list_push_front_ok h l xs e :
  rep h l xs → allocated h e → e ∉ chain l xs →
  ∃ h', list_push_front h l e = Ok h' ∧ rep h' l (e :: xs) ∧ frame h h' (e :: chain l xs).
Proof.
  intros Hr. unfold list_push_front. rewrite (list_begin_spec _ _ _ Hr). mstep.
  by apply (list_insert_ok h l [] xs).
Qed.

Lemma list_push_back_ok h l xs e :
  rep h l xs → allocated h e → e ∉ chain l xs →
  ∃ h', list_push_back h l e = Ok h' ∧ rep h' l (xs ++ [e]) ∧ frame h h' (e :: chain l xs).
Proof.
  intros Hr ??. unfold list_push_back. rewrite (list_end_spec _ _ _ Hr). mstep.
  rewrite <-(app_nil_r xs) in Hr. destruct (list_insert_ok h l xs [] e) as (h' & ? & ? & ?);
    rewrite ?app_nil_r in *; eauto.
Qed.

Lemma list_front_ok h l x xs : rep h l (x :: xs) → list_front h l = Ok x.
Proof.
  intros Hr. unfold list_front. rewrite (list_empty_spec _ _ _ Hr). mstep.
  by rewrite (load_next_ok _ _ _ (proj2 (rep_first _ _ _ Hr))).
Qed.

Lemma list_back_ok h l xs x : rep h l (xs ++ [x]) → list_back h l = Ok x.
Proof.
  intros Hr. unfold list_back. rewrite (list_empty_spec _ _ _ Hr), bool_decide_eq_false_2
    by (by intros [_ ?]%app_nil). mstep.
  rewrite <-(app_nil_r (xs ++ [x])) in Hr. apply load_prev_ok.
  pose proof (proj2 (rep_split _ _ _ _ Hr)) as Hp. by rewrite last_of_snoc in Hp.
Qed.

Lemma list_pop_front_ok h l x xs :
  rep h l (x :: xs) →
  ∃ h', list_pop_front h l = Ok (x, h') ∧ rep h' l xs ∧ frame h h' (chain l xs).
Proof.
  intros Hr. unfold list_pop_front. rewrite (list_front_ok _ _ _ _ Hr). mstep.
  destruct (list_remove_ok h l [] x xs Hr) as (h' & -> & ? & ?). mstep. by exists h'.
Qed.

Lemma list_pop_back_ok h l xs x :
  rep h l (xs ++ [x]) →
  ∃ h', list_pop_back h l = Ok (x, h') ∧ rep h' l xs ∧ frame h h' (chain l xs).
Proof.
  intros Hr. unfold list_pop_back. rewrite (list_back_ok _ _ _ _ Hr). mstep.
  destruct (list_remove_ok h l xs x [] Hr) as (h' & -> & Hr' & ?). mstep.
  rewrite app_nil_r in *. by exists h'.
Qed.

(** Popping from an empty list is caught. *)
Lemma list_pop_front_empty h l : rep h l [] → list_pop_front h l = Fault AssertFail.
Proof.
  intros Hr. unfold list_pop_front, list_front. by rewrite (list_empty_spec _ _ _ Hr).
Qed.

Lemma list_size_loop_ok h l ys zs cnt fuel :
  rep h l (ys ++ zs) → (length zs < fuel)%nat → is_u32 cnt → is_u32 (cnt + Z.of_nat (length zs)) →
  list_size_loop fuel h (first_of zs (tail_of l)) (tail_of l) cnt = Ok (cnt + Z.of_nat (length zs)).
Proof.
  revert ys cnt fuel. induction zs as [|z zs IH]; intros ys cnt fuel Hr Hf Hc Hcz;
    destruct fuel as [|fuel]; simpl in *; try lia.
  - by rewrite Z.eqb_refl, Z.add_0_r.
  - rewrite (rep_elem_ne_tail _ _ _ _ _ Hr). mstep. rewrite (list_next_spec _ _ _ _ _ Hr). mstep.
    unfold is_u32 in *. rewrite cons_middle, app_assoc in Hr.
    rewrite (u32_small (cnt + 1)) by (unfold is_u32; lia). rewrite (IH _ _ _ Hr); [f_equal; lia|lia..].
Qed.

Lemma list_size_ok h l xs :
  rep h l xs → Z.of_nat (size (next h)) < WORD → list_size h l = Ok (Z.of_nat (length xs)).
Proof.
  intros Hr Hw. pose proof (rep_length_fuel _ _ _ Hr) as Hf. unfold heap_fuel in Hf.
  unfold list_size. rewrite (list_begin_spec _ _ _ Hr), (list_end_spec _ _ _ Hr). mstep.
  rewrite (list_size_loop_ok h l [] xs); unfold is_u32, heap_fuel; (done || lia).
Qed.

(** *** Reversal *)

(** [h'] is [h] with the two pointers of every element of [ys] exchanged. *)
Definition exchanged (h h' : heap) (ys : list Z) : Prop :=
  frame h h' ys ∧ ∀ x, x ∈ ys → next h' !! x = prev h !! x ∧ prev h' !! x = next h !! x.

Lemma swap_prev_next_ok h a b v w :
  prev h !! a = Some v → next h !! b = Some w →
  swap_prev_next h a b = Ok (set_next (set_prev h a w) b v).
Proof.
  intros Ha Hb. unfold swap_prev_next. rewrite (load_prev_ok _ _ _ Ha), (load_next_ok _ _ _ Hb).
  mstep. rewrite store_prev_ok by (by eexists). mstep. rewrite store_next_ok by (by eexists). done.
Qed.

Lemma swap_next_prev_ok h a b v w :
  next h !! a = Some v → prev h !! b = Some w →
  swap_next_prev h a b = Ok (set_prev (set_next h a w) b v).
Proof.
  intros Ha Hb. unfold swap_next_prev. rewrite (load_next_ok _ _ _ Ha), (load_prev_ok _ _ _ Hb).
  mstep. rewrite store_next_ok by (by eexists). mstep. rewrite store_prev_ok by (by eexists). done.
Qed.

Lemma exchanged_snoc h h' ys z p n :
  exchanged h h' ys → z ∉ ys → prev h !! z = Some p → next h !! z = Some n →
  exchanged h (set_next (set_prev h' z n) z p) (ys ++ [z]).
Proof.
  intros [HF Hx] Hz Hp Hn. destruct (HF) as (_ & _ & HF'). destruct (HF' z Hz) as [Hn' Hp'].
  split.
  - eapply frame_trans; [apply (frame_weaken _ _ _ _ HF); set_solver|].
    eapply frame_trans; [apply frame_set_prev|apply frame_set_next]; simpl; try set_solver.
    + rewrite Hp', Hp. by eexists.
    + rewrite Hn', Hn. by eexists.
  - intros x Hin. simpl. destruct (decide (x = z)) as [->|Hne].
    + rewrite !lookup_insert_eq. by rewrite Hp, Hn.
    + rewrite !lookup_insert_ne by done. apply Hx. set_solver.
Qed.

Lemma rep_notin h l ys z zs : rep h l (ys ++ z :: zs) → z ∉ ys.
Proof.
  intros [Hd _ _ _ _]. unfold chain in Hd. rewrite NoDup_cons, <-app_assoc, NoDup_app in Hd.
  set_solver.
Qed.

Lemma reverse_loop_ok h0 h l ys zs fuel :
  rep h0 l (ys ++ zs) → exchanged h0 h ys → (length zs < fuel)%nat →
  ∃ h', reverse_loop fuel h (first_of zs (tail_of l)) (tail_of l) = Ok h' ∧
    exchanged h0 h' (ys ++ zs).
Proof.
  revert ys h fuel. induction zs as [|z zs IH]; intros ys h fuel Hr Hx Hf;
    destruct fuel as [|fuel]; simpl in *; try lia.
  - rewrite Z.eqb_refl. mstep. exists h. by rewrite app_nil_r.
  - rewrite (rep_elem_ne_tail _ _ _ _ _ Hr). mstep.
    pose proof (rep_notin _ _ _ _ _ Hr) as Hz.
    destruct (rep_elem _ _ _ _ _ Hr) as (_ & Hp & Hn & _).
    destruct (Hx) as [(_ & _ & HF) _]. destruct (HF z Hz) as [Hn' Hp'].
    rewrite (swap_prev_next_ok h z z (last_of ys (head_of l)) (first_of zs (tail_of l)))
      by congruence. mstep.
    rewrite (load_prev_ok _ _ (first_of zs (tail_of l))) by (simpl; by rewrite lookup_insert_eq).
    mstep. pose proof (exchanged_snoc _ _ _ _ _ _ Hx Hz Hp Hn) as Hx'.
    rewrite (cons_middle z), app_assoc in Hr |- *. apply IH; [done|done|lia].
Qed.

Lemma exchanged_chained h h' ys c :
  exchanged h h' ys → c ⊆ ys → chained h c → chained h' (reverse c).
Proof.
  intros Hx. induction c as [|a c IH]; intros Hs Hc; [done|].
  destruct c as [|b c]; [done|]. rewrite chained_cons2 in Hc. destruct Hc as (Hn & Hp & Hc).
  rewrite !reverse_cons, <-app_assoc in *. simpl. rewrite chained_app. split.
  - apply IH; [set_solver|done].
  - destruct Hx as [_ Hx]. destruct (Hx a) as [_ Ha]; [set_solver|].
    destruct (Hx b) as [Hb _]; [set_solver|]. simpl. split_and!; [congruence|congruence|done].
Qed.

(** The four pointers [list_reverse] writes after its loop turn the exchanged
    elements, which now run from [z] to [f], into a list. *)
Lemma chained_reverse_ends h l c z c0 f c1 :
  NoDup (head_of l :: c ++ [tail_of l]) → c = z :: c0 → c = c1 ++ [f] → chained h c →
  chained (set_next (set_prev (set_prev (set_next h (head_of l) z) (tail_of l) f)
    z (head_of l)) f (tail_of l)) (head_of l :: c ++ [tail_of l]).
Proof.
  intros (Hl & Hd)%NoDup_cons E0 E1 Hc. apply NoDup_app in Hd as (Hdc & Ht & _).
  destruct (NoDup_tail_head _ _ _ E0 Hdc) as [Hz Hz'].
  destruct (NoDup_removelast_last _ _ _ E1 Hdc) as [Hf Hf'].
  assert (head_of l ≠ f ∧ z ≠ tail_of l ∧ head_of l ∉ c ∧ tail_of l ∉ c) as (? & ? & ? & ?).
  { split_and!; [intros ?; simplify_eq; set_solver..|set_solver|set_solver]. }
  change (head_of l :: c ++ [tail_of l]) with ([head_of l] ++ c ++ [tail_of l]).
  eapply (chained_join _ _ [] (head_of l) _ (c0 ++ [tail_of l]) z); [done|by rewrite E0|done| | |].
  - eapply (chained_join _ _ c1 f _ [] (tail_of l)); [done..| |done| |].
    + repeat first [apply chained_set_prev|apply chained_set_next];
        auto using removelast_notin, tail_notin.
    + simpl. by rewrite lookup_insert_eq.
    + simpl. by rewrite lookup_insert_ne, lookup_insert_eq.
  - simpl. by rewrite lookup_insert_ne, lookup_insert_eq.
  - simpl. by rewrite lookup_insert_eq.
Qed.

Lemma rep_last h l zs z :
  rep h l (zs ++ [z]) → prev h !! tail_of l = Some z ∧ next h !! z = Some (tail_of l).
Proof.
  rewrite <-(app_nil_r (zs ++ [z])). intros [Hn Hp]%rep_split.
  by rewrite last_of_snoc in Hn, Hp.
Qed.

(** What follows the loop, on a list from [f] to [z]. *)
Lemma reverse_ends_ok h h1 l f xs zs z :
  rep h l (f :: xs) → f :: xs = zs ++ [z] → exchanged h h1 (f :: xs) →
  let h' := set_next (set_prev (set_prev (set_next h1 (head_of l) z) (tail_of l) f)
    z (head_of l)) f (tail_of l) in
  (h ← swap_next_prev h1 (head_of l) (tail_of l);
   a ← load_next h (head_of l); b ← load_prev h (tail_of l);
   swap_prev_next h a b) = Ok h' ∧
  rep h' l (reverse (f :: xs)) ∧ frame h h' (chain l (f :: xs)).
Proof.
  intros Hr Exs Hx h'. destruct (Hx) as [HF Hsw]. destruct (HF) as (_ & _ & HF').
  assert (f ∈ f :: xs ∧ z ∈ f :: xs) as [Hf Hz] by (rewrite Exs at 2; set_solver).
  pose proof (rep_nodup _ _ _ Hr) as Hd. apply NoDup_cons in Hd as [Hl Hd].
  apply NoDup_app in Hd as (Hdx & Hdt & _).
  assert (head_of l ∉ f :: xs ∧ tail_of l ∉ f :: xs) as [Hl' Ht'] by set_solver.
  assert (head_of l ≠ tail_of l) as Hlt by (unfold head_of, tail_of; lia).
  assert (head_of l ≠ f ∧ z ≠ tail_of l) as [Hlf Hzt] by (split; intros ?; simplify_eq; set_solver).
  pose proof (proj2 (rep_first _ _ _ Hr)) as Hhn. simpl in Hhn.
  assert (prev h !! tail_of l = Some z ∧ next h !! z = Some (tail_of l)) as [Htp Hzn]
    by (apply (rep_last h l zs); by rewrite <-Exs).
  destruct (rep_elem h l [] f xs Hr) as (_ & Hfp & _).
  change (last_of [] (head_of l)) with (head_of l) in Hfp.
  destruct (HF' _ Hl') as [Hhn1 _], (HF' _ Ht') as [_ Htp1], (Hsw _ Hf) as [Hfn1 _], (Hsw _ Hz) as [_ Hzp1].
  assert (is_Some (next h1 !! head_of l) ∧ is_Some (prev h1 !! tail_of l)) as [??]
    by (rewrite Hhn1, Htp1, Hhn, Htp; split; by eexists).
  split; [|split].
  - rewrite (swap_next_prev_ok h1 _ _ f z) by congruence. mstep.
    rewrite (load_next_ok _ _ z) by (simpl; by rewrite lookup_insert_eq). mstep.
    rewrite (load_prev_ok _ _ f) by (simpl; by rewrite lookup_insert_eq). mstep.
    apply swap_prev_next_ok; simpl; rewrite lookup_insert_ne by done; congruence.
  - apply (rep_intro h _ l (f :: xs)); [done|..].
    + unfold chain. rewrite reverse_Permutation. apply Hr.
    + unfold chain. rewrite reverse_Permutation. apply Hr.
    + unfold chain. apply (chained_reverse_ends _ _ _ _ (reverse zs) _ (reverse xs)).
      * rewrite reverse_Permutation. apply Hr.
      * by rewrite Exs, reverse_snoc.
      * by rewrite reverse_cons.
      * apply (exchanged_chained h _ (f :: xs)); [done..|].
        pose proof (rep_chained _ _ _ Hr) as Hc. unfold chain in Hc.
        by apply (chained_parts h [head_of l]) in Hc as [_ [? _]%chained_parts].
    + simpl. rewrite !lookup_insert_ne by (done || set_solver). by rewrite (proj2 (HF' _ Hl')).
    + simpl. rewrite !lookup_insert_ne by (done || set_solver). by rewrite (proj1 (HF' _ Ht')).
  - unfold h'. repeat (eapply frame_trans; [|first [apply frame_set_prev|apply frame_set_next];
      [simpl; rewrite ?lookup_insert_is_Some', ?Hzp1, ?Hfn1, ?Hzn, ?Hfp; by eauto
      |unfold chain; clear -Hf Hz; set_solver]]).
    apply (frame_weaken _ _ _ _ HF). unfold chain. clear. set_solver.
Qed.

Lemma list_reverse_ok h l xs :
  rep h l xs →
  ∃ h', list_reverse h l = Ok h' ∧ rep h' l (reverse xs) ∧ frame h h' (chain l xs).
Proof.
  intros Hr. unfold list_reverse. rewrite (list_empty_spec _ _ _ Hr). mstep.
  case_bool_decide as Hne; mstep; [subst; eauto using frame_refl|].
  rewrite (list_begin_spec _ _ _ Hr), (list_end_spec _ _ _ Hr). mstep.
  destruct (reverse_loop_ok h h l [] xs (heap_fuel h)) as (h1 & -> & Hx);
    [done|split; [apply frame_refl|set_solver]|pose proof (rep_length_fuel _ _ _ Hr); lia|].
  mstep. destruct xs as [|f xs]; [done|]. destruct (exists_last Hne) as (zs & z & Exs).
  eexists. by apply (reverse_ends_ok _ _ _ _ _ zs z).
Qed.

End chains.

(** ** Sequences of operations *)

Inductive list_op :=
| PushFront (e : Z)
| PushBack (e : Z)
| InsertBefore (before e : Z)
| Remove (e : Z)
| PopFront
| PopBack
| Splice (before first last : Z)
| Reverse
| Front
| Back
| Empty
| Size.

(** One operation on the list at [l]; 0 stands for the result of a function
    that returns nothing. *)
Definition run_op (h : heap) (l : Z) (op : list_op) : res (Z * heap) :=
  match op with
  | PushFront e => h ← list_push_front h l e; Ok (0, h)
  | PushBack e => h ← list_push_back h l e; Ok (0, h)
  | InsertBefore b e => h ← list_insert h b e; Ok (0, h)
  | Remove e => list_remove h e
  | PopFront => list_pop_front h l
  | PopBack => list_pop_back h l
  | Splice b x y => h ← list_splice h b x y; Ok (0, h)
  | Reverse => h ← list_reverse h l; Ok (0, h)
  | Front => x ← list_front h l; Ok (x, h)
  | Back => x ← list_back h l; Ok (x, h)
  | Empty => b ← list_empty h l; Ok (Z.b2z b, h)
  | Size => n ← list_size h l; Ok (n, h)
  end.

Fixpoint run_ops (h : heap) (l : Z) (ops : list list_op) : res (list Z * heap) :=
  match ops with
  | [] => Ok ([], h)
  | op :: ops =>
      '(r, h) ← run_op h l op;
      '(rs, h) ← run_ops h l ops;
      Ok (r :: rs, h)
  end.

(** The same operations on the sequence of elements: which ones are allowed,
    what they return and what they leave. *)
Inductive spec_op (l : Z) : list Z → list_op → Z → list Z → Prop :=
| spec_push_front xs e : e ∉ chain l xs → spec_op l xs (PushFront e) 0 (e :: xs)
| spec_push_back xs e : e ∉ chain l xs → spec_op l xs (PushBack e) 0 (xs ++ [e])
| spec_insert ys zs e : e ∉ chain l (ys ++ zs) →
    spec_op l (ys ++ zs) (InsertBefore (first_of zs (tail_of l)) e) 0 (ys ++ e :: zs)
| spec_remove ys z zs :
    spec_op l (ys ++ z :: zs) (Remove z) (first_of zs (tail_of l)) (ys ++ zs)
| spec_pop_front x xs : spec_op l (x :: xs) PopFront x xs
| spec_pop_back x xs : spec_op l (xs ++ [x]) PopBack x xs
| spec_splice_left ys q Q s S zs :
    spec_op l (ys ++ (q :: Q) ++ (s :: S) ++ zs) (Splice q s (first_of zs (tail_of l))) 0 (ys ++ (s :: S) ++ (q :: Q) ++ zs)
| spec_splice_right ys q Q s S zs :
    spec_op l (ys ++ (q :: Q) ++ (s :: S) ++ zs) (Splice (first_of zs (tail_of l)) q s) 0 (ys ++ (s :: S) ++ (q :: Q) ++ zs)
| spec_splice_none ys zs a : spec_op l (ys ++ zs) (Splice (first_of zs (tail_of l)) a a) 0 (ys ++ zs)
| spec_reverse xs : spec_op l xs Reverse 0 (reverse xs)
| spec_front x xs : spec_op l (x :: xs) Front x (x :: xs)
| spec_back x xs : spec_op l (xs ++ [x]) Back x (xs ++ [x])
| spec_empty xs : spec_op l xs Empty (Z.b2z (bool_decide (xs = []))) xs
| spec_size xs : spec_op l xs Size (Z.of_nat (length xs)) xs.

Inductive spec_ops (l : Z) : list Z → list list_op → list Z → list Z → Prop :=
| spec_nil xs : spec_ops l xs [] [] xs
| spec_cons xs op r xs' ops rs xs'' :
    spec_op l xs op r xs' → spec_ops l xs' ops rs xs'' →
    spec_ops l xs (op :: ops) (r :: rs) xs''.

(** The element an operation links in. *)
Definition op_elem (op : list_op) : list Z :=
  match op with PushFront e | PushBack e | InsertBefore _ e => [e] | _ => [] end.

Lemma splice_subset l ys Q S zs : chain l (ys ++ S ++ Q ++ zs) ⊆ chain l (ys ++ Q ++ S ++ zs).
Proof. unfold chain. set_solver. Qed.

Lemma run_op_ok h l xs op r xs' :
  rep h l xs → Z.of_nat (size (next h)) < WORD → Forall (allocated h) (op_elem op) →
  spec_op l xs op r xs' →
  ∃ h', run_op h l op = Ok (r, h') ∧ rep h' l xs' ∧
    frame h h' (op_elem op ++ chain l xs) ∧ chain l xs' ⊆ op_elem op ++ chain l xs.
Proof.
  intros Hr Hw Ha Hs. unfold run_op. destruct Hs; simpl in *; rewrite ?Forall_singleton in Ha.
  - edestruct list_push_front_ok as (h' & -> & ? & ?); [done..|]. exists h'.
    unfold chain in *. by split_and!; [..|set_solver].
  - edestruct list_push_back_ok as (h' & -> & ? & ?); [done..|]. exists h'.
    unfold chain in *. by split_and!; [..|set_solver].
  - edestruct list_insert_ok as (h' & -> & ? & ?); [done..|]. exists h'.
    unfold chain in *. by split_and!; [..|set_solver].
  - edestruct list_remove_ok as (h' & -> & ? & HF); [done..|]. exists h'.
    split_and!; [done..| |unfold chain; set_solver].
    apply (frame_weaken _ _ _ _ HF). unfold chain. set_solver.
  - edestruct list_pop_front_ok as (h' & -> & ? & HF); [done..|]. exists h'.
    split_and!; [done..| |unfold chain; set_solver].
    apply (frame_weaken _ _ _ _ HF). unfold chain. set_solver.
  - edestruct list_pop_back_ok as (h' & -> & ? & HF); [done..|]. exists h'.
    split_and!; [done..| |unfold chain; set_solver].
    apply (frame_weaken _ _ _ _ HF). unfold chain. set_solver.
  - destruct (list_splice_both _ _ _ _ _ _ _ _ Hr) as (h' & -> & _ & ? & ?). exists h'. split_and!; [done..|apply (splice_subset l ys (q :: Q) (s :: S) zs)].
  - destruct (list_splice_both _ _ _ _ _ _ _ _ Hr) as (h' & _ & -> & ? & ?). exists h'. split_and!; [done..|apply (splice_subset l ys (q :: Q) (s :: S) zs)].
  - exists h. unfold list_splice. rewrite (is_interior_or_tail _ _ _ _ Hr). mstep. rewrite Z.eqb_refl. by split_and!; [..|apply frame_refl|].
  - edestruct list_reverse_ok as (h' & -> & ? & ?); [done..|]. exists h'.
    split_and!; [done..|]. unfold chain. intros x. by rewrite reverse_Permutation.
  - rewrite (list_front_ok _ _ _ _ Hr). exists h. by split_and!; [..|apply frame_refl|].
  - rewrite (list_back_ok _ _ _ _ Hr). exists h. by split_and!; [..|apply frame_refl|].
  - rewrite (list_empty_spec _ _ _ Hr). exists h. by split_and!; [..|apply frame_refl|].
  - rewrite (list_size_ok _ _ _ Hr Hw). exists h. by split_and!; [..|apply frame_refl|].
Qed.

(** Nothing can be taken from an empty list. *)
Lemma empty_list_asserts h l :
  rep h l [] →
  list_front h l = Fault AssertFail ∧ list_back h l = Fault AssertFail ∧ list_pop_front h l = Fault AssertFail ∧ list_pop_back h l = Fault AssertFail.
Proof.
  intros Hr. assert (list_front h l = Fault AssertFail ∧ list_back h l = Fault AssertFail) as [Hf Hb].
  { unfold list_front, list_back. rewrite (list_empty_spec _ _ _ Hr). by split. }
  split_and!; [done..| |]; unfold list_pop_front, list_pop_back; [by rewrite Hf|by rewrite Hb].
Qed.

(** C33. The pointer manipulation of list.c implements sequences: every sequence of
    insertions, removals, pops, splices within the list, reversals and queries that makes
    sense on the sequence of elements runs without a fault on the linked list, returns the
    same results, and leaves a well-formed list of the same elements; memory outside the
    list and the inserted elements is untouched, so other lists keep their contents. On a
    list that is left empty, list_front, list_back, list_pop_front and list_pop_back fail
    their assertion. *)
Theorem list_ops_refine_sequences h l xs ops rs xs' :
  rep h l xs → Z.of_nat (size (next h)) < WORD →
  Forall (λ op, Forall (allocated h) (op_elem op)) ops →
  spec_ops l xs ops rs xs' →
  ∃ h', run_ops h l ops = Ok (rs, h') ∧ rep h' l xs' ∧
    (∀ l2 ys, rep h l2 ys →
      (∀ x, x ∈ chain l2 ys → x ∉ chain l xs ++ (ops ≫= op_elem)) → rep h' l2 ys) ∧
    (xs' = [] → list_front h' l = Fault AssertFail ∧ list_back h' l = Fault AssertFail ∧
       list_pop_front h' l = Fault AssertFail ∧ list_pop_back h' l = Fault AssertFail).
Proof.
  intros Hr Hw Ha Hs. revert h Hr Hw Ha.
  induction Hs as [xs|xs op r xs1 ops rs xs2 Hop _ IH]; intros h Hr Hw Ha.
  { exists h. split_and!; [done..|]. intros ->. by apply empty_list_asserts. }
  apply Forall_cons in Ha as [Ha Has].
  destruct (run_op_ok _ _ _ _ _ _ Hr Hw Ha Hop) as (h1 & Hrun & Hr1 & HF & Hsub).
  destruct (IH h1 Hr1) as (h' & Hrun' & Hr' & Hother & Hempty).
  { destruct HF as (D & _). rewrite <-size_dom, D, size_dom. done. }
  { eapply Forall_impl; [exact Has|]. simpl. intros op' Hop'.
    eapply Forall_impl; [exact Hop'|]. intros e. by apply (frame_allocated _ _ _ _ HF). }
  exists h'. cbn [run_ops]. rewrite Hrun. mstep. rewrite Hrun'. mstep.
  split_and!; [done..| |done]. intros l2 ys Hr2 Hd. apply Hother.
  - apply (rep_frame _ _ _ _ _ Hr2 HF). intros x Hx Hin. apply (Hd x Hx).
    rewrite bind_cons, !elem_of_app in *. tauto.
  - intros x Hx Hin. apply (Hd x Hx). specialize (Hsub x).
    rewrite bind_cons, !elem_of_app in *. tauto.
Qed.

(** A list at address 100, another at 200, and three free elements. *)
Definition demo_heap : heap :=
  Heap {[100 := 108; 108 := 0; 200 := 208; 208 := 0; 1000 := 7; 1008 := 7; 1016 := 7]}
       {[100 := 0; 108 := 100; 200 := 0; 208 := 200; 1000 := 7; 1008 := 7; 1016 := 7]}.

Lemma demo_heap_rep l : l = 100 ∨ l = 200 → rep demo_heap l [].
Proof.
  intros [-> | ->]; split; try done; try (unfold chain; simpl; set_solver by done);
    by apply (bool_decide_unpack _); vm_compute.
Qed.

Definition demo_list_ops : list list_op :=
  [PushBack 1000; PushFront 1008; PushBack 1016; Splice 1008 1000 108; Splice 108 1000 1008; Empty; Reverse; Size; Back; Remove 1000; PopBack; PopFront].

Lemma list_ops_refine_sequences_witness :
  ∃ h', run_ops demo_heap 100 demo_list_ops = Ok ([0; 0; 0; 0; 0; 0; 0; 3; 1008; 1008; 1008; 1016], h') ∧ rep h' 100 [] ∧
    (∀ l2 ys, rep demo_heap l2 ys →
      (∀ x, x ∈ chain l2 ys → x ∉ chain 100 [] ++ (demo_list_ops ≫= op_elem)) → rep h' l2 ys) ∧
    list_pop_front h' 100 = Fault AssertFail.
Proof.
  destruct (list_ops_refine_sequences demo_heap 100 [] demo_list_ops [0; 0; 0; 0; 0; 0; 0; 3; 1008; 1008; 1008; 1016] []) as (h' & E & Hr & Ho & He).
  - apply demo_heap_rep. by left.
  - reflexivity.
  - repeat constructor; (discriminate || by eexists).
  - econstructor; [apply (spec_push_back 100 []); by apply (bool_decide_unpack _)|].
    econstructor; [apply (spec_push_front 100 [1000]); by apply (bool_decide_unpack _)|].
    econstructor; [apply (spec_push_back 100 [1008; 1000]); by apply (bool_decide_unpack _)|].
    econstructor; [apply (spec_splice_left 100 [] 1008 [] 1000 [1016] [])|].
    econstructor; [apply (spec_splice_right 100 [] 1000 [1016] 1008 [] [])|].
    econstructor; [apply (spec_empty 100 [1008; 1000; 1016])|].
    econstructor; [apply (spec_reverse 100 [1008; 1000; 1016])|].
    econstructor; [apply (spec_size 100 [1016; 1000; 1008])|].
    econstructor; [apply (spec_back 100 1008 [1016; 1000])|].
    econstructor; [apply (spec_remove 100 [1016] 1000 [1008])|].
    econstructor; [apply (spec_pop_back 100 1008 [1016])|].
    econstructor; [apply (spec_pop_front 100 1016 [])|]. constructor.
  - exists h'. split_and!; [done..|]. by apply He.
Defined.
