(* ===== verification/KListSort.v ===== *)
(** Ordered lists (src/lib/kernel/list.c): the natural merge sort of
    [list_sort], [list_insert_ordered], [list_unique], [list_max] and
    [list_min], proved on the linked lists of [KList].  Each loop is shown to
    end within the fuel it is given, one unit per list element in memory. *)

From Stdlib Require Import Sorting.Sorted.
From S2P Require Import Prelude KList.

Section ordered.
Context (less : Z → Z → bool).
Implicit Types (h : heap) (l a x y : Z) (xs ys zs P Q S R D M : list Z) (fuel k j : nat).

(** [a] may stand before [b] in an ordered list. *)
Definition le_by (a b : Z) : Prop := less b a = false.

Abbreviation ordered := (Sorted le_by).

Fixpoint orderedb (xs : list Z) : bool :=
  match xs with
  | a :: (b :: _) as t => negb (less b a) && orderedb t
  | _ => true
  end.

Lemma orderedb_ordered xs : orderedb xs = true ↔ ordered xs.
Proof.
  induction xs as [|a [|b xs] IH].
  - split; [intros; constructor|done].
  - split; [intros; repeat constructor|done].
  - cbn [orderedb]. rewrite andb_true_iff, negb_true_iff, IH. split.
    + intros [? ?]. constructor; [done|]. by constructor.
    + intros [? Hd]%Sorted_inv. inversion Hd; subst. done.
Qed.

Lemma ordered_app_inv xs ys : ordered (xs ++ ys) → ordered xs ∧ ordered ys.
Proof.
  induction xs as [|x xs IH]; simpl; [by split; [constructor|]|].
  intros [HS Hd]%Sorted_inv. destruct (IH HS) as [? ?]. split; [|done].
  constructor; [done|]. destruct xs; [constructor|]. inversion Hd; subst. by constructor.
Qed.

(** Two ordered parts fit together when their ends do. *)
Lemma ordered_join xs x ys :
  ordered (xs ++ [x]) → ordered (x :: ys) → ordered (xs ++ x :: ys).
Proof.
  induction xs as [|a xs IH]; simpl; [done|]. intros [HS Hd]%Sorted_inv Hxs.
  constructor; [by apply IH|]. destruct xs; simpl in *; inversion Hd; subst; by constructor.
Qed.

Lemma ordered_snoc2 xs x y : ordered (xs ++ [x]) → le_by x y → ordered (xs ++ [x; y]).
Proof. intros. apply ordered_join; [done|]. repeat constructor; done. Qed.

(** ** Reading ranges *)

Lemma rep_elem_ne_first h l ys x R zs :
  rep h l (ys ++ (x :: R) ++ zs) → (x =? first_of zs (tail_of l)) = false.
Proof.
  intros [Hd _ _ _ _]. apply Z.eqb_neq. intros ->. unfold chain in Hd.
  rewrite NoDup_cons, <-!app_assoc, !NoDup_app in Hd. pose proof (first_of_in zs l).
  simpl in Hd. rewrite NoDup_cons in Hd. set_solver.
Qed.

Lemma is_sorted_loop_ok h l ys a R zs fuel :
  rep h l (ys ++ (a :: R) ++ zs) → (length R < fuel)%nat →
  is_sorted_loop less fuel h a (first_of zs (tail_of l)) = Ok (orderedb (a :: R)).
Proof.
  revert ys a fuel. induction R as [|b R IH]; intros ys a fuel Hr Hf;
    destruct fuel as [|fuel]; simpl length in *; try lia; cbn [is_sorted_loop].
  - simpl in Hr. rewrite (list_next_spec _ _ _ _ _ Hr). mstep. by rewrite Z.eqb_refl.
  - simpl in Hr. rewrite (list_next_spec _ _ _ _ _ Hr). mstep. simpl first_of.
    rewrite (cons_middle a), app_assoc in Hr.
    rewrite (rep_elem_ne_first h l (ys ++ [a]) b R zs Hr). mstep.
    pose proof (list_prev_spec h l (ys ++ [a]) (b :: R ++ zs) Hr) as Hp. simpl in Hp.
    rewrite last_of_snoc in Hp. rewrite Hp. mstep. cbn [orderedb].
    destruct (less b a); simpl; [done|]. apply (IH (ys ++ [a])); [done|lia].
Qed.

Lemma is_sorted_ok h l ys R zs :
  rep h l (ys ++ R ++ zs) →
  is_sorted less h (first_of (R ++ zs) (tail_of l)) (first_of zs (tail_of l)) = Ok (orderedb R).
Proof.
  intros Hr. unfold is_sorted. destruct R as [|a R]; simpl first_of.
  - by rewrite Z.eqb_refl.
  - rewrite (rep_elem_ne_first _ _ _ _ _ _ Hr). mstep. eapply is_sorted_loop_ok; [done|].
    pose proof (rep_length_fuel _ _ _ Hr) as Hf. rewrite !length_app in Hf. simpl in Hf. lia.
Qed.

(** The longest ordered run from [a] on, and what follows it. *)
Fixpoint span_run (a : Z) (R : list Z) : list Z * list Z :=
  match R with
  | [] => ([], [])
  | x :: R' =>
      if less x a then ([], R)
      else let '(p, q) := span_run x R' in (x :: p, q)
  end.

Lemma span_run_spec a R p q :
  span_run a R = (p, q) → R = p ++ q ∧ ordered (a :: p).
Proof.
  revert a p q. induction R as [|x R IH]; intros a p q; simpl.
  - intros; simplify_eq. split; [done|]. repeat constructor.
  - destruct (less x a) eqn:E; [intros; simplify_eq; split; [done|repeat constructor]|].
    destruct (span_run x R) as [p' q'] eqn:E'. intros; simplify_eq.
    destruct (IH _ _ _ E') as [-> ?]. split; [done|]. constructor; [done|]. by constructor.
Qed.

Lemma span_run_maximal a R p q P0 R0 :
  span_run a R = (p, q) → R = P0 ++ R0 → ordered (a :: P0) → ∃ P', p = P0 ++ P' ∧ R0 = P' ++ q.
Proof.
  revert a R p q. induction P0 as [|x P0 IH]; intros a R p q Hs -> Ho.
  - exists p. split; [done|]. by apply span_run_spec in Hs as [? _].
  - simpl in Hs. apply Sorted_inv in Ho as [Ho Hd]. inversion Hd as [|? ? Hle]; subst.
    unfold le_by in Hle. rewrite Hle in Hs. destruct (span_run x (P0 ++ R0)) as [p' q'] eqn:E.
    simplify_eq. destruct (IH _ _ _ _ E eq_refl Ho) as (P' & -> & ->). by exists P'.
Qed.

Lemma end_of_run_loop_ok h l ys a R fuel p q :
  rep h l (ys ++ a :: R) → (length R < fuel)%nat → span_run a R = (p, q) →
  end_of_run_loop less fuel h a (tail_of l) = Ok (first_of q (tail_of l)).
Proof.
  revert ys a fuel p q. induction R as [|b R IH]; intros ys a fuel p q Hr Hf Hs;
    destruct fuel as [|fuel]; simpl length in *; try lia; cbn [end_of_run_loop]; simpl in Hs.
  - rewrite (list_next_spec _ _ _ _ _ Hr). simplify_eq. mstep. by rewrite Z.eqb_refl.
  - rewrite (list_next_spec _ _ _ _ _ Hr). mstep. simpl first_of.
    rewrite (cons_middle a), app_assoc in Hr.
    rewrite (rep_elem_ne_tail _ _ _ _ _ Hr). mstep.
    pose proof (list_prev_spec h l (ys ++ [a]) (b :: R) Hr) as Hp. simpl in Hp.
    rewrite last_of_snoc in Hp. rewrite Hp. mstep.
    destruct (less b a); mstep; [by simplify_eq|].
    destruct (span_run b R) as [p' q'] eqn:E. simplify_eq.
    apply (IH (ys ++ [a]) b fuel p' q); [done|lia|done].
Qed.

Lemma find_end_of_run_ok h l ys a R p q :
  rep h l (ys ++ a :: R) → span_run a R = (p, q) →
  find_end_of_run less h a (tail_of l) = Ok (first_of q (tail_of l)).
Proof.
  intros Hr Hs. unfold find_end_of_run. pose proof (rep_nonnull _ _ _ Hr) as H0.
  unfold chain in H0. rewrite (proj2 (Z.eqb_neq a 0)), (proj2 (Z.eqb_neq (tail_of l) 0)) by set_solver.
  mstep. rewrite (rep_elem_ne_tail _ _ _ _ _ Hr). mstep.
  eapply end_of_run_loop_ok; [done| |done]. pose proof (rep_length_fuel _ _ _ Hr) as Hf.
  rewrite length_app in Hf. simpl in Hf. lia.
Qed.

(** ** Merging *)

(** The comparison function never says of two elements that each is less than
    the other; [list_sort] needs nothing more of it. *)
Context (less_asym : ∀ a b, less a b = true → less b a = false).

(** Neither is less than the other. *)
Definition same (a b : Z) : bool := negb (less a b) && negb (less b a).

(** If "not less" is transitive, as it is for a strict weak order, elements that compare
    equal are in [xs'] in the order in which they are in [xs]. *)
Definition stable xs xs' : Prop :=
  (∀ a b c, le_by a b → le_by b c → le_by a c) → ∀ a, filter (λ x, same a x = true) xs' = filter (λ x, same a x = true) xs.

Lemma stable_refl xs : stable xs xs.
Proof. done. Qed.

Lemma stable_trans xs ys zs : stable xs ys → stable ys zs → stable xs zs.
Proof. intros H1 H2 Ht a. by rewrite H2, H1. Qed.

Lemma stable_app xs xs' ys ys' : stable xs xs' → stable ys ys' → stable (xs ++ ys) (xs' ++ ys').
Proof. intros H1 H2 Ht a. rewrite !filter_app. by rewrite H1, H2. Qed.

(** An element may pass a run whose first element it is less than. *)
Lemma stable_pass s q Q : less s q = true → ordered (q :: Q) → stable ((q :: Q) ++ [s]) ([s] ++ q :: Q).
Proof.
  intros Hsq Ho Ht a. rewrite !filter_app. destruct (same a s) eqn:Es.
  - assert (filter (λ x, same a x = true) (q :: Q) = []) as ->.
    { apply filter_none, Forall_forall. intros x Hx Ex. apply Sorted_StronglySorted in Ho; [|exact Ht].
      assert (le_by q x) as Hqx.
      { apply StronglySorted_inv in Ho as [_ Hall]. rewrite Forall_forall in Hall. apply elem_of_cons in Hx as [->|Hx]; [|by apply Hall].
        destruct (less q q) eqn:E; [|done]. by pose proof (less_asym _ _ E). }
      unfold same in Es, Ex. bool_inv. assert (le_by q s) as Hc by (apply (Ht _ x); [done|]; by apply (Ht _ a)). unfold le_by in Hc. congruence. }
    by rewrite app_nil_r.
  - rewrite (filter_cons_False _ s []) by (by rewrite Es). by rewrite app_nil_r.
Qed.

Lemma rep_frame_chain h h' l xs xs' :
  frame h h' (chain l xs) → xs ≡ₚ xs' → frame h h' (chain l xs').
Proof.
  intros HF Hp. apply (frame_weaken _ _ _ _ HF). intros x. unfold chain.
  by rewrite <-Hp.
Qed.

(** [D] is the part of the output already merged, [Q] and [S] what is left of
    the two runs. *)
Lemma merge_loop_ok h l ys D Q S zs fuel :
  rep h l (ys ++ D ++ Q ++ S ++ zs) → ordered (D ++ Q) → ordered (D ++ S) →
  (length Q + length S < fuel)%nat →
  ∃ h' M, merge_loop less fuel h (first_of (Q ++ S ++ zs) (tail_of l))
            (first_of (S ++ zs) (tail_of l)) (first_of zs (tail_of l)) = Ok h' ∧
    rep h' l (ys ++ M ++ zs) ∧ M ≡ₚ D ++ Q ++ S ∧ stable (D ++ Q ++ S) M ∧ ordered M ∧
    frame h h' (chain l (ys ++ D ++ Q ++ S ++ zs)).
Proof.
  revert h D Q S. induction fuel as [|fuel IH]; intros h D Q S Hr HQ HS Hf; [lia|].
  cbn [merge_loop]. destruct Q as [|q Q].
  { simpl. rewrite Z.eqb_refl. exists h, (D ++ S). rewrite <-app_assoc. by split_and!. }
  destruct S as [|s S].
  { simpl. rewrite Z.eqb_refl, andb_false_r. exists h, (D ++ q :: Q).
    rewrite <-app_assoc, app_nil_r. by split_and!. }
  assert (Hr2 := Hr). rewrite app_assoc in Hr2.
  pose proof (rep_elem_ne_first h l (ys ++ D) q Q ((s :: S) ++ zs) Hr2) as Hqs.
  assert (Hr3 := Hr2). rewrite app_assoc in Hr3.
  pose proof (rep_elem_ne_first h l _ s S zs Hr3) as Hsz.
  cbn [first_of hd app] in Hqs, Hsz |- *. rewrite Hqs, Hsz. simpl.
  destruct (less s q) eqn:Hsq; simpl.
  - rewrite (list_next_spec h l _ s (S ++ zs) Hr3). mstep.
    assert (rep h l ((((ys ++ D) ++ q :: Q) ++ [s]) ++ S ++ zs)) as Hr4
      by (by rewrite <-app_assoc).
    rewrite (list_prev_spec h l _ (S ++ zs) Hr4), last_of_snoc. mstep.
    destruct (list_splice_ok h l (ys ++ D) q Q s [] (S ++ zs)) as (h1 & -> & Hr1 & HF1);
      [done|]. mstep.
    destruct (IH h1 (D ++ [s]) (q :: Q) S) as (h' & M & Hrun & Hr' & HM & Hst & Ho & HF').
    + by rewrite <-!app_assoc in *.
    + rewrite <-app_assoc. apply ordered_join; [by apply (ordered_app_inv _ S); rewrite <-app_assoc|].
      constructor; [by apply ordered_app_inv in HQ as [_ ?]|]. constructor. by apply less_asym.
    + by rewrite <-app_assoc.
    + simpl in *. lia.
    + exists h', M. split_and!; [done..| | |done|].
      * rewrite HM. solve_Permutation.
      * eapply stable_trans; [|done]. rewrite <-app_assoc. apply stable_app; [apply stable_refl|].
        pose proof (stable_pass s q Q Hsq ltac:(by apply ordered_app_inv in HQ as [_ ?])) as Hpass.
        pose proof (stable_app _ _ _ _ Hpass (stable_refl S)) as H2. by rewrite <-!app_assoc in H2.
      * eapply frame_trans; [apply (rep_frame_chain _ _ _ _ _ HF1)|apply (rep_frame_chain _ _ _ _ _ HF')].
        -- by rewrite <-!app_assoc.
        -- solve_Permutation.
  - rewrite (list_next_spec h l (ys ++ D) q (Q ++ s :: S ++ zs) Hr2). mstep.
    destruct (IH h (D ++ [q]) Q (s :: S)) as (h' & M & Hrun & Hr' & HM & Hst & Ho & HF').
    + by rewrite <-app_assoc.
    + by rewrite <-app_assoc.
    + rewrite <-app_assoc. apply ordered_join; [by apply (ordered_app_inv _ Q); rewrite <-app_assoc|].
      constructor; [by apply ordered_app_inv in HS as [_ ?]|]. by constructor.
    + simpl in *. lia.
    + exists h', M. split_and!; [done..| | |done|].
      * by rewrite HM, <-app_assoc.
      * by rewrite <-app_assoc in Hst.
      * by rewrite <-app_assoc in HF'.
Qed.

Lemma inplace_merge_ok h l ys Q S zs :
  rep h l (ys ++ Q ++ S ++ zs) → Q ≠ [] → S ≠ [] → ordered Q → ordered S →
  ∃ h' M, inplace_merge less h (first_of (Q ++ S ++ zs) (tail_of l))
            (first_of (S ++ zs) (tail_of l)) (first_of zs (tail_of l)) = Ok h' ∧
    rep h' l (ys ++ M ++ zs) ∧ M ≡ₚ Q ++ S ∧ stable (Q ++ S) M ∧ ordered M ∧
    frame h h' (chain l (ys ++ Q ++ S ++ zs)).
Proof.
  intros Hr HQ0 HS0 HQ HS. assert (Hr2 := Hr). rewrite app_assoc in Hr2.
  assert (Hr3 := Hr2). rewrite app_assoc in Hr3. unfold inplace_merge.
  rewrite (proj2 (Z.eqb_neq _ _)) by apply (rep_nonnull_first _ _ _ _ Hr).
  rewrite (proj2 (Z.eqb_neq _ _)) by apply (rep_nonnull_first _ _ _ _ Hr2).
  rewrite (proj2 (Z.eqb_neq _ _)) by apply (rep_nonnull_first _ _ _ _ Hr3). mstep.
  rewrite (is_sorted_ok _ _ _ _ _ Hr), (proj2 (orderedb_ordered Q)) by done. mstep.
  rewrite (is_sorted_ok _ _ _ _ _ Hr2), (proj2 (orderedb_ordered S)) by done. mstep.
  apply (merge_loop_ok h l ys [] Q S zs); [done..|].
  pose proof (rep_length_fuel _ _ _ Hr) as Hf. rewrite !length_app in Hf. lia.
Qed.

(** ** Passes over the list *)

(** [R] is made of [k] ordered runs. *)
Inductive runs : nat → list Z → Prop :=
| runs_nil : runs 0 []
| runs_cons k P R : P ≠ [] → ordered P → runs k R → runs (S k) (P ++ R).

Lemma runs_singletons R : runs (length R) R.
Proof.
  induction R as [|x R IH]; [constructor|]. apply (runs_cons _ [x]); [done| |done].
  repeat constructor.
Qed.

Lemma runs_suffix X Y k : runs k (X ++ Y) → ∃ k', (k' ≤ k)%nat ∧ runs k' Y.
Proof.
  revert k. induction X as [|x X IH]; intros k Hk; [by exists k|]. simpl in Hk.
  assert (∃ k', (k' ≤ k)%nat ∧ runs k' (X ++ Y)) as (k' & ? & Hk').
  { inversion Hk as [|k0 P R HP Ho HR E1 E2]; subst.
    destruct P as [|p P]; [done|]. injection E2 as -> E2.
    rewrite <-E2. destruct P as [|p' P]; [exists k0; split; [lia|done]|].
    exists (S k0). split; [lia|]. apply (runs_cons _ (p' :: P)); [done| |done].
    by apply Sorted_inv in Ho as [? _]. }
  destruct (IH _ Hk') as (k'' & ? & ?). exists k''. split; [lia|done].
Qed.

(** Cutting off the longest run leaves fewer runs. *)
Lemma runs_span k a R p q :
  runs k (a :: R) → span_run a R = (p, q) → ∃ k', (S k' ≤ k)%nat ∧ runs k' q.
Proof.
  intros Hk Hs. inversion Hk as [|k0 P R' HP Ho HR E1 E2]; subst.
  destruct P as [|b P]; [done|]. injection E2 as -> E2.
  destruct (span_run_maximal _ _ _ _ P R' Hs (eq_sym E2) Ho) as (P' & -> & ->).
  destruct (runs_suffix _ _ _ HR) as (k' & ? & ?). exists k'. split; [lia|done].
Qed.

Lemma sort_pass_ok h l ys R k cnt fuel :
  rep h l (ys ++ R) → runs k R → (length R < fuel)%nat →
  0 ≤ cnt → cnt + Z.of_nat (length R) < WORD →
  ∃ h' R' j, sort_pass less fuel h (first_of R (tail_of l)) (tail_of l) cnt
             = Ok (h', cnt + Z.of_nat j) ∧
    rep h' l (ys ++ R') ∧ R' ≡ₚ R ∧ stable R R' ∧ runs j R' ∧ (2 * j ≤ k + 1)%nat ∧
    frame h h' (chain l (ys ++ R)).
Proof.
  revert h ys R k cnt. induction fuel as [|fuel IH]; intros h ys R k cnt Hr Hk Hf Hc Hw; [lia|].
  cbn [sort_pass]. destruct R as [|a R].
  { simpl. rewrite Z.eqb_refl. exists h, [], 0%nat. simpl. rewrite Z.add_0_r.
    split_and!; try done; [constructor|lia]. }
  simpl first_of. rewrite (rep_elem_ne_tail _ _ _ _ _ Hr). mstep. simpl in Hf, Hw.
  rewrite u32_small by (unfold is_u32; lia).
  destruct (span_run a R) as [p q] eqn:E. destruct (span_run_spec _ _ _ _ E) as [ER Ho].
  rewrite (find_end_of_run_ok _ _ _ _ _ _ _ Hr E). mstep.
  destruct (runs_span _ _ _ _ _ Hk E) as (k1 & Hk1 & Hq). subst R.
  rewrite app_comm_cons, app_assoc in Hr. rewrite (first_of_eq_tail _ _ _ _ Hr).
  destruct q as [|b R].
  { rewrite bool_decide_eq_true_2 by done. exists h, (a :: p ++ []), 1%nat. simpl.
    rewrite app_nil_r in *. split_and!; try done; [|lia].
    rewrite <-(app_nil_r (a :: p)). apply runs_cons; [done..|constructor]. }
  rewrite bool_decide_eq_false_2 by done.
  destruct (span_run b R) as [p2 q2] eqn:E2. destruct (span_run_spec _ _ _ _ E2) as [ER Ho2].
  simpl first_of. rewrite (find_end_of_run_ok _ _ _ _ _ _ _ Hr E2). mstep. subst R.
  destruct (runs_span _ _ _ _ _ Hq E2) as (k2 & Hk2 & Hq2).
  rewrite <-app_assoc in Hr.
  destruct (inplace_merge_ok h l ys (a :: p) (b :: p2) q2 Hr) as (h1 & M & Hrun & Hr1 & HM & HstM & HoM & HF1);
    [done..|]. simpl in Hrun. rewrite Hrun. mstep. rewrite app_assoc in Hr1.
  rewrite !length_app in *. simpl in *. rewrite !length_app in *. simpl in *.
  destruct (IH h1 (ys ++ M) q2 k2 (cnt + 1) Hr1 Hq2) as (h' & R' & j & Hrun' & Hr' & HR' & HstR & Hj & Hjk & HF');
    [lia..|].
  exists h', (M ++ R'), (S j). rewrite Hrun'. split_and!.
  - do 2 f_equal. lia.
  - by rewrite app_assoc.
  - rewrite HM, HR'. solve_Permutation.
  - replace (a :: p ++ b :: p2 ++ q2) with (((a :: p) ++ b :: p2) ++ q2) by (by rewrite <-app_assoc). by apply stable_app.
  - apply runs_cons; [|done..]. intros ->. by apply Permutation_nil in HM.
  - lia.
  - eapply frame_trans; [apply (rep_frame_chain _ _ _ _ _ HF1)|apply (rep_frame_chain _ _ _ _ _ HF')].
    + solve_Permutation.
    + rewrite HM. solve_Permutation.
Qed.

Lemma runs_le1 k R : runs k R → (k ≤ 1)%nat → ordered R.
Proof.
  intros Hk Hle. inversion Hk as [|k0 P R' HP Ho HR]; subst; [constructor|].
  inversion HR; subst; [by rewrite app_nil_r|lia].
Qed.

Lemma sort_loop_ok h l xs k fuel :
  rep h l xs → runs k xs → (k < fuel)%nat → Z.of_nat (length xs) < WORD →
  ∃ h' xs', sort_loop less fuel h l = Ok h' ∧ rep h' l xs' ∧ xs' ≡ₚ xs ∧ stable xs xs' ∧ ordered xs' ∧
    frame h h' (chain l xs).
Proof.
  revert h xs k. induction fuel as [|fuel IH]; intros h xs k Hr Hk Hf Hw; [lia|].
  cbn [sort_loop]. rewrite (list_begin_spec _ _ _ Hr), (list_end_spec _ _ _ Hr). mstep.
  destruct (sort_pass_ok h l [] xs k 0 (heap_fuel h)) as (h1 & xs1 & j & Hrun & Hr1 & Hp & Hst & Hj & Hjk & HF1);
    [done|done|pose proof (rep_length_fuel _ _ _ Hr); lia|lia..|].
  rewrite Hrun. mstep. simpl in Hr1, HF1. destruct (Z.ltb_spec 1 (0 + Z.of_nat j)) as [Hj1|Hj1].
  - destruct (IH h1 xs1 j Hr1 Hj) as (h' & xs' & Hrun' & Hr' & Hp' & Hst' & Ho & HF'); [lia|by rewrite Hp|].
    exists h', xs'. split_and!; [done..|by rewrite Hp'|by eapply stable_trans|done|].
    eapply frame_trans; [done|]. by apply (rep_frame_chain _ _ _ _ _ HF').
  - exists h1, xs1. split_and!; try done. apply (runs_le1 j); [done|lia].
Qed.

(** C34. [list_sort] sorts: on any well-formed list, with a comparison that
    never orders two elements both ways, it ends without tripping its
    assertions and leaves a well-formed list with the same elements in
    nondecreasing order, having touched nothing but that list. For a strict weak
    order the sort is stable: the elements that compare equal to any given one
    are in the same order as before. *)
Theorem list_sort_sorts h l xs :
  rep h l xs → Z.of_nat (size (next h)) < WORD →
  ∃ h' xs', list_sort less h l = Ok h' ∧ rep h' l xs' ∧ xs' ≡ₚ xs ∧
    Sorted le_by xs' ∧ frame h h' (chain l xs) ∧
    ((∀ a b c, le_by a b → le_by b c → le_by a c) →
     ∀ a, filter (λ x, same a x = true) xs' = filter (λ x, same a x = true) xs).
Proof.
  intros Hr Hw. unfold list_sort. rewrite (proj2 (Z.eqb_neq _ _)) by apply (rep_first _ _ _ Hr).
  mstep. pose proof (rep_length_fuel _ _ _ Hr) as Hf.
  destruct (sort_loop_ok h l xs _ (heap_fuel h) Hr (runs_singletons xs))
    as (h' & xs' & -> & Hr' & Hp & Hst & Ho & HF); [lia|unfold heap_fuel in Hf; lia|].
  mstep. rewrite (list_begin_spec _ _ _ Hr'), (list_end_spec _ _ _ Hr'). mstep.
  assert (Hr2 := Hr'). rewrite <-(app_nil_r xs') in Hr2.
  pose proof (is_sorted_ok h' l [] xs' [] Hr2) as Hs. rewrite app_nil_r in Hs. simpl in Hs.
  rewrite Hs, (proj2 (orderedb_ordered xs')) by done. mstep. by exists h', xs'.
Qed.

(** ** Ordered insertion *)

(** Where [list_insert_ordered] puts [elem]: before the first element it is
    less than. *)
Fixpoint ordered_place (elem : Z) (xs : list Z) : list Z * list Z :=
  match xs with
  | [] => ([], [])
  | x :: xs' =>
      if less elem x then ([], xs)
      else let '(p, q) := ordered_place elem xs' in (x :: p, q)
  end.

Lemma insert_ordered_loop_ok h l ys zs elem p q fuel :
  rep h l (ys ++ zs) → (length zs < fuel)%nat → ordered_place elem zs = (p, q) →
  insert_ordered_loop less fuel h elem (first_of zs (tail_of l)) (tail_of l)
  = Ok (first_of q (tail_of l)) ∧ zs = p ++ q.
Proof.
  revert ys p q fuel. induction zs as [|z zs IH]; intros ys p q fuel Hr Hf Hpq;
    destruct fuel as [|fuel]; simpl in *; try lia.
  - rewrite Z.eqb_refl. by simplify_eq.
  - rewrite (rep_elem_ne_tail _ _ _ _ _ Hr). mstep.
    destruct (less elem z); [by simplify_eq|]. rewrite (list_next_spec _ _ _ _ _ Hr). mstep.
    destruct (ordered_place elem zs) as [p' q'] eqn:E. simplify_eq.
    rewrite cons_middle, app_assoc in Hr. destruct (IH _ p' q fuel Hr) as [-> ->]; [lia|done|done].
Qed.

Lemma ordered_place_spec elem xs p q :
  ordered_place elem xs = (p, q) →
  Forall (λ x, less elem x = false) p ∧ (∀ x, head q = Some x → less elem x = true).
Proof.
  revert p q. induction xs as [|x xs IH]; intros p q E; simpl in E; [by simplify_eq|].
  destruct (less elem x) eqn:?; [split; intros; by simplify_eq/=|].
  destruct (ordered_place elem xs) as [p' q']. simplify_eq.
  destruct (IH p' q) as [? ?]; [done|]. split; [by constructor|done].
Qed.

Lemma ordered_place_ordered elem xs p q :
  ordered_place elem xs = (p, q) → ordered xs → ordered (p ++ elem :: q).
Proof.
  revert p q. induction xs as [|x xs IH]; intros p q; simpl.
  - intros; simplify_eq. repeat constructor.
  - destruct (less elem x) eqn:E.
    + intros; simplify_eq. constructor; [done|]. constructor. by apply less_asym.
    + destruct (ordered_place elem xs) as [p' q'] eqn:E'. intros ? [Ho Hd]%Sorted_inv. simplify_eq.
      simpl. constructor; [by apply IH|].
      destruct xs as [|y xs]; simpl in E'; [simplify_eq; by constructor|].
      destruct (less elem y); [simplify_eq; by constructor|].
      destruct (ordered_place elem xs). simplify_eq. inversion Hd; subst. by constructor.
Qed.

(** [list_insert_ordered] puts an element into an ordered list before the
    first element it is less than, so that the list stays ordered and elements
    that compare equal stay in order of arrival. *)
Theorem list_insert_ordered_keeps_order h l xs elem :
  rep h l xs → Sorted le_by xs → allocated h elem → elem ∉ chain l xs →
  ∃ h' p q, list_insert_ordered less h l elem = Ok h' ∧ xs = p ++ q ∧
    rep h' l (p ++ elem :: q) ∧ Sorted le_by (p ++ elem :: q) ∧
    Forall (λ x, less elem x = false) p ∧ (∀ x, head q = Some x → less elem x = true) ∧
    frame h h' (elem :: chain l xs).
Proof.
  intros Hr Ho Ha Hin. unfold list_insert_ordered.
  rewrite (proj2 (Z.eqb_neq _ _)) by apply (rep_first _ _ _ Hr). mstep.
  rewrite (proj2 (Z.eqb_neq _ _)) by apply Ha. mstep.
  rewrite (list_begin_spec _ _ _ Hr), (list_end_spec _ _ _ Hr). mstep.
  destruct (ordered_place elem xs) as [p q] eqn:E.
  destruct (insert_ordered_loop_ok h l [] xs elem p q (heap_fuel h)) as [-> Exs];
    [done|pose proof (rep_length_fuel _ _ _ Hr); lia|done|]. mstep.
  pose proof (ordered_place_ordered _ _ _ _ E Ho) as Hpq. rewrite Exs in Hr, Hin |- *.
  destruct (list_insert_ok h l p q elem Hr Ha Hin) as (h' & -> & ? & ?).
  exists h', p, q. split_and!; try done.
  all: by apply (ordered_place_spec elem xs p q).
Qed.

(** ** Removing adjacent duplicates *)

(** What [list_unique] keeps and removes of [elem :: R]. *)
Fixpoint unique_split (elem : Z) (R : list Z) : list Z * list Z :=
  match R with
  | [] => ([elem], [])
  | n :: R =>
      if same elem n then let '(ks, ds) := unique_split elem R in (ks, n :: ds)
      else let '(ks, ds) := unique_split n R in (elem :: ks, ds)
  end.

Lemma unique_split_spec elem R ks ds :
  unique_split elem R = (ks, ds) →
  head ks = Some elem ∧ sublist ks (elem :: R) ∧ ks ++ ds ≡ₚ elem :: R ∧
  Sorted (λ a b, same a b = false) ks.
Proof.
  revert elem ks ds. induction R as [|n R IH]; intros elem ks ds E; simpl in E.
  - simplify_eq. split_and!; [done|repeat constructor|done|repeat constructor].
  - destruct (same elem n) eqn:Hs.
    + destruct (unique_split elem R) as [ks' ds'] eqn:E'. simplify_eq.
      destruct (IH _ _ _ E') as (Hh & Hsub & Hp & Ho). split_and!; [done| |  |done].
      * destruct ks as [|k ks]; [done|]. simplify_eq/=. apply sublist_skip, sublist_cons.
        inversion Hsub; subst; [done|]. etrans; [by apply sublist_cons|done].
      * rewrite Permutation_app_comm. simpl. rewrite Permutation_app_comm, Hp. by constructor.
    + destruct (unique_split n R) as [ks' ds'] eqn:E'. simplify_eq.
      destruct (IH _ _ _ E') as (Hh & Hsub & Hp & Ho). split_and!; [done|by constructor| |].
      * simpl. by rewrite Hp.
      * constructor; [done|]. destruct ks'; simplify_eq/=. by constructor.
Qed.

(** One duplicate moved over: the element [n] leaves the list at [l] and, if
    there is one, joins the list of duplicates. *)
Lemma move_duplicate_ok h l ys n R dup ds :
  rep h l (ys ++ n :: R) →
  (dup ≠ NULL → rep h dup ds ∧ ∀ x, x ∈ chain l (ys ++ n :: R) → x ∉ chain dup ds) →
  ∃ h', ('(_, h) ← list_remove h n;
         if negb (dup =? NULL) then list_push_back h dup n else Ok h) = Ok h' ∧
    rep h' l (ys ++ R) ∧
    (dup ≠ NULL → rep h' dup (ds ++ [n]) ∧
      ∀ x, x ∈ chain l (ys ++ R) → x ∉ chain dup (ds ++ [n])).
Proof.
  intros Hr Hd. pose proof (rep_nodup _ _ _ Hr) as Hnd.
  assert (n ∉ chain l (ys ++ R) ∧ chain l (ys ++ R) ⊆ chain l (ys ++ n :: R) ∧
    n ∈ chain l (ys ++ n :: R)) as (Hn & Hsub & Hin).
  { unfold chain in *. rewrite <-app_assoc, NoDup_cons, NoDup_app, <-app_comm_cons, NoDup_cons in Hnd.
    clear -Hnd. set_solver. }
  pose proof (rep_allocated _ _ _ _ Hr Hin) as Ha.
  destruct (list_remove_ok _ _ _ _ _ Hr) as (h1 & -> & Hr1 & HF1). mstep.
  destruct (Z.eqb_spec dup NULL) as [->|Hne]; mstep; [by exists h1|].
  destruct (Hd Hne) as [Hrd Hdis].
  assert (rep h1 dup ds) as Hrd1 
    by (apply (rep_frame _ _ _ _ _ Hrd HF1); intros x Hx Hx'; by apply (Hdis x (Hsub x Hx'))).
  destruct (list_push_back_ok h1 dup ds n Hrd1) as (h2 & -> & Hrd2 & HF2);
    [by apply (frame_allocated _ _ _ _ HF1)|by apply Hdis|].
  exists h2. split_and!; [done| |].
  - apply (rep_frame _ _ _ _ _ Hr1 HF2). intros x Hx. rewrite elem_of_cons.
    intros [->|Hx']; [done|]. by apply (Hdis x (Hsub x Hx)).
  - intros _. split; [done|]. intros x Hx Hx'. apply (Hdis x); [by apply Hsub|].
    assert (x ≠ n) as Hxn by (by intros ->). unfold chain in Hx' |- *.
    clear -Hx' Hxn. set_solver.
Qed.

Lemma unique_loop_ok h l ys elem R dup ds fuel ks es :
  rep h l (ys ++ elem :: R) → (length R < fuel)%nat → unique_split elem R = (ks, es) →
  (dup ≠ NULL → rep h dup ds ∧ ∀ x, x ∈ chain l (ys ++ elem :: R) → x ∉ chain dup ds) →
  ∃ h', unique_loop less fuel h elem (tail_of l) dup = Ok h' ∧ rep h' l (ys ++ ks) ∧
    (dup ≠ NULL → rep h' dup (ds ++ es)).
Proof.
  revert h ys elem R ds ks es. induction fuel as [|fuel IH];
    intros h ys elem R ds ks es Hr Hf Hs Hd; [lia|].
  cbn [unique_loop]. rewrite (list_next_spec _ _ _ _ _ Hr). mstep.
  destruct R as [|n R]; simpl in Hs, Hf.
  { simpl. rewrite Z.eqb_refl. simplify_eq. exists h. rewrite app_nil_r.
    split_and!; [done..|]. intros ?. by apply Hd. }
  rewrite cons_middle, app_assoc in Hr, Hd. simpl first_of.
  rewrite (rep_elem_ne_tail _ _ _ _ _ Hr). mstep.
  fold (same elem n). destruct (same elem n).
  - destruct (unique_split elem R) as [ks' es'] eqn:E. simplify_eq.
    destruct (move_duplicate_ok h l _ n R dup ds Hr Hd) as (h1 & Hm & Hr1 & Hd1).
    apply res_bind_Ok in Hm as ([v h0] & Hrem & Hm). rewrite Hrem. mstep. rewrite Hm. mstep.
    rewrite <-app_assoc in Hr1, Hd1. simpl in Hr1, Hd1.
    destruct (IH h1 ys elem R (ds ++ [n]) ks es' Hr1) as (h' & -> & ? & ?); [lia|done..|].
    exists h'. by rewrite <-app_assoc in *.
  - destruct (unique_split n R) as [ks' es'] eqn:E. simplify_eq.
    destruct (IH h (ys ++ [elem]) n R ds ks' es Hr) as (h' & -> & ? & ?); [lia|done..|].
    exists h'. by rewrite <-app_assoc in *.
Qed.

(** [list_unique] keeps the first of each group of adjacent equal elements
    and moves the others, in order, to the end of the list of duplicates when
    it is given one. *)
Theorem list_unique_keeps_first h l elem R dup ds :
  rep h l (elem :: R) →
  (dup ≠ NULL → rep h dup ds ∧ ∀ x, x ∈ chain l (elem :: R) → x ∉ chain dup ds) →
  ∃ h' ks es, list_unique less h l dup = Ok h' ∧ rep h' l ks ∧
    (dup ≠ NULL → rep h' dup (ds ++ es)) ∧
    ks ++ es ≡ₚ elem :: R ∧ sublist ks (elem :: R) ∧ head ks = Some elem ∧
    Sorted (λ a b, same a b = false) ks.
Proof.
  intros Hr Hd. unfold list_unique.
  rewrite (proj2 (Z.eqb_neq _ _)) by apply (rep_first _ _ _ Hr). mstep.
  rewrite (list_empty_spec _ _ _ Hr). mstep.
  rewrite (list_begin_spec _ _ _ Hr), (list_end_spec _ _ _ Hr). mstep.
  destruct (unique_split elem R) as [ks es] eqn:E.
  pose proof (unique_split_spec _ _ _ _ E) as (? & ? & ? & ?).
  destruct (unique_loop_ok h l [] elem R dup ds (heap_fuel h) ks es Hr) as (h' & Hrun & ? & ?);
    [pose proof (rep_length_fuel _ _ _ Hr) as Hf; simpl in Hf; lia|done..|].
  simpl first_of. rewrite Hrun. by exists h', ks, es.
Qed.

(** ** Extremes *)

Context (le_trans : ∀ a b c, less a b = false → less b c = false → less a c = false).

(** [m] is the earliest of the largest elements of [xs]. *)
Definition earliest_max (xs : list Z) (m : Z) : Prop :=
  ∃ p q, xs = p ++ m :: q ∧ (∀ x, x ∈ p → less x m = true) ∧ (∀ x, x ∈ xs → less m x = false).

Lemma earliest_max_snoc ys m e :
  earliest_max ys m → earliest_max (ys ++ [e]) (if less m e then e else m).
Proof.
  intros (p & q & E & Hp & Hm). destruct (less m e) eqn:Hme.
  - exists ys, []. split_and!; [done| |].
    + intros x Hx. destruct (less x e) eqn:Hxe; [done|].
      rewrite (le_trans m x e) in Hme; [done|by apply Hm|done].
    + intros x [Hx| ->%list_elem_of_singleton]%elem_of_app.
      * apply (le_trans e m x); [by apply less_asym|by apply Hm].
      * destruct (less e e) eqn:Hee; [|done]. pose proof (less_asym _ _ Hee). congruence.
  - exists p, (q ++ [e]). split_and!; [|done|].
    + by rewrite E, <-app_assoc.
    + intros x [Hx| ->%list_elem_of_singleton]%elem_of_app; [by apply Hm|done].
Qed.

Lemma max_loop_ok h l ys zs m fuel :
  rep h l (ys ++ zs) → earliest_max ys m → (length zs < fuel)%nat →
  ∃ m', max_loop less fuel h (first_of zs (tail_of l)) (tail_of l) m = Ok m' ∧
    earliest_max (ys ++ zs) m'.
Proof.
  revert ys m fuel. induction zs as [|z zs IH]; intros ys m fuel Hr Hm Hf;
    destruct fuel as [|fuel]; simpl in *; try lia.
  - rewrite Z.eqb_refl, app_nil_r. by exists m.
  - rewrite (rep_elem_ne_tail _ _ _ _ _ Hr). mstep. rewrite (list_next_spec _ _ _ _ _ Hr). mstep.
    rewrite (cons_middle z), app_assoc in Hr |- *. apply IH; [done| |lia].
    by apply earliest_max_snoc.
Qed.

Lemma list_max_ok h l xs :
  rep h l xs → xs ≠ [] → ∃ m, list_max less h l = Ok m ∧ earliest_max xs m.
Proof.
  intros Hr Hne. unfold list_max. rewrite (list_begin_spec _ _ _ Hr), (list_end_spec _ _ _ Hr).
  mstep. destruct xs as [|x xs]; [done|]. simpl first_of.
  rewrite (rep_elem_ne_tail h l [] x xs Hr). mstep. rewrite (list_next_spec h l [] x xs Hr). mstep.
  apply (max_loop_ok h l [x] xs x); [done| |pose proof (rep_length_fuel _ _ _ Hr) as Hf; simpl in Hf; lia].
  exists [], []. split_and!; [done|set_solver|]. intros y ->%list_elem_of_singleton.
  destruct (less x x) eqn:Hxx; [|done]. pose proof (less_asym _ _ Hxx). congruence.
Qed.

End ordered.

(** [list_min] is [list_max] for the opposite order. *)
Lemma list_min_max less h l : list_min less h l = list_max (λ a b, less b a) h l.
Proof.
  unfold list_min, list_max. destruct (list_begin h l) as [m| |]; mstep; [|done..].
  destruct (list_end l) as [fin| |]; mstep; [|done..]. destruct (negb _); [|done].
  destruct (list_next h m) as [e| |]; mstep; [|done..].
  revert e m. generalize (heap_fuel h) as fuel.
  induction fuel as [|fuel IH]; intros e m; [done|]. simpl. destruct (negb _); [|done].
  destruct (list_next h e); [|done..]. apply IH.
Qed.

(** [list_max] and [list_min] return the earliest of the largest and of
    the smallest elements of a nonempty list, for any comparison that is a
    strict weak order. *)
Theorem list_max_min_earliest less h l xs :
  (∀ a b, less a b = true → less b a = false) →
  (∀ a b c, less a b = false → less b c = false → less a c = false) →
  rep h l xs → xs ≠ [] →
  (∃ m, list_max less h l = Ok m ∧ earliest_max less xs m) ∧
  (∃ m, list_min less h l = Ok m ∧ earliest_max (λ a b, less b a) xs m).
Proof.
  intros Has Htr Hr Hne. split; [by apply list_max_ok|]. rewrite list_min_max.
  apply list_max_ok; [naive_solver..|done|done].
Qed.

(** Witnesses: the list at 100 holds three elements, ordered by their last
    two digits; the list at 200 is empty. *)

Definition demo_less (a b : Z) : bool := a mod 100 <? b mod 100.

Definition demo_heap3 : heap :=
  Heap {[100 := 1008; 1008 := 1116; 1116 := 1000; 1000 := 108; 108 := 0; 200 := 208; 208 := 0; 2004 := 7]}
       {[100 := 0; 1008 := 100; 1116 := 1008; 1000 := 1116; 108 := 1000; 200 := 0; 208 := 200; 2004 := 7]}.

Lemma demo_heap3_rep : rep demo_heap3 100 [1008; 1116; 1000] ∧ rep demo_heap3 200 [].
Proof.
  split; split; try done; try (by unfold chain; simpl; set_solver);
    by apply (bool_decide_unpack _); vm_compute.
Qed.

Lemma demo_less_asym a b : demo_less a b = true → demo_less b a = false.
Proof. unfold demo_less. intros ?%Z.ltb_lt. apply Z.ltb_ge. lia. Qed.

Lemma demo_less_trans a b c :
  demo_less a b = false → demo_less b c = false → demo_less a c = false.
Proof. unfold demo_less. rewrite !Z.ltb_ge. lia. Qed.

Lemma list_sort_sorts_witness :
  ∃ h' xs', list_sort demo_less demo_heap3 100 = Ok h' ∧ rep h' 100 xs' ∧
    xs' ≡ₚ [1008; 1116; 1000] ∧ Sorted (le_by demo_less) xs' ∧
    frame demo_heap3 h' (chain 100 [1008; 1116; 1000]) ∧
    ((∀ a b c, le_by demo_less a b → le_by demo_less b c → le_by demo_less a c) →
     ∀ a, filter (λ x, same demo_less a x = true) xs' = filter (λ x, same demo_less a x = true) [1008; 1116; 1000]).
Proof.
  apply (list_sort_sorts demo_less demo_less_asym); [apply demo_heap3_rep|reflexivity].
Defined.

Lemma list_insert_ordered_keeps_order_witness :
  ∃ h' p q, list_insert_ordered demo_less demo_heap3 200 2004 = Ok h' ∧ [] = p ++ q ∧
    rep h' 200 (p ++ 2004 :: q) ∧ Sorted (le_by demo_less) (p ++ 2004 :: q) ∧
    Forall (λ x, demo_less 2004 x = false) p ∧
    (∀ x, head q = Some x → demo_less 2004 x = true) ∧
    frame demo_heap3 h' (2004 :: chain 200 []).
Proof.
  apply (list_insert_ordered_keeps_order demo_less demo_less_asym);
    [apply demo_heap3_rep|constructor|split_and!; [discriminate|by eexists..]|].
  by apply (bool_decide_unpack _).
Defined.

Lemma list_unique_keeps_first_witness :
  ∃ h' ks es, list_unique demo_less demo_heap3 100 200 = Ok h' ∧ rep h' 100 ks ∧
    (200 ≠ 0 → rep h' 200 ([] ++ es)) ∧
    ks ++ es ≡ₚ [1008; 1116; 1000] ∧ sublist ks [1008; 1116; 1000] ∧ head ks = Some 1008 ∧
    Sorted (λ a b, same demo_less a b = false) ks.
Proof.
  apply (list_unique_keeps_first demo_less); [apply demo_heap3_rep|].
  intros _. split; [apply demo_heap3_rep|]. apply Forall_forall. by apply (bool_decide_unpack _).
Defined.

Lemma list_max_min_earliest_witness :
  (∃ m, list_max demo_less demo_heap3 100 = Ok m ∧ earliest_max demo_less [1008; 1116; 1000] m) ∧
  (∃ m, list_min demo_less demo_heap3 100 = Ok m ∧
    earliest_max (λ a b, demo_less b a) [1008; 1116; 1000] m).
Proof.
  apply (list_max_min_earliest demo_less);
    [apply demo_less_asym|apply demo_less_trans|apply demo_heap3_rep|done].
Defined.
