(* ===== verification/Hash.v ===== *)
(** The kernel's hash tables (src/lib/kernel/hash.c, hash.h).

    Elements are addresses of [struct hash_elem]s.  The chains of the buckets
    are the linked lists of [KList]; here each is the sequence of its elements,
    which the theorems of that file justify.  The hash and comparison functions
    are the caller's.  [malloc] may fail whenever the table wants to change its
    number of buckets, so the operations take the outcome as an argument.

    The main theorem is that a table of elements with keys implements a finite
    map, whatever allocations fail. *)

From S2P Require Import Prelude.

(** ** Data *)

Record hash := Hash {
  elem_cnt : Z;
  bucket_cnt : Z;
  buckets : list (list Z);
}.

Definition MIN_BUCKETS : Z := 4.
Definition BEST_ELEMS_PER_BUCKET : Z := 2.

Abbreviation NULL := 0 (only parsing).

(** ** Operations *)

(** [x & (x - 1)], and the number of buckets it rounds down to. *)
Definition turn_off_least_1bit (x : Z) : Z := Z.land x (u32 (x - 1)).

Definition is_power_of_2 (x : Z) : bool :=
  negb (x =? 0) && (turn_off_least_1bit x =? 0).

Fixpoint round_to_power (fuel : nat) (n : Z) : res Z :=
  match fuel with
  | O => Timeout
  | S fuel => if negb (is_power_of_2 n) then round_to_power fuel (turn_off_least_1bit n) else Ok n
  end.

(** A word has 32 bits to turn off. *)
Definition ideal_bucket_cnt (elem_cnt : Z) : res Z :=
  let n := elem_cnt / BEST_ELEMS_PER_BUCKET in
  let n := if n <? MIN_BUCKETS then MIN_BUCKETS else n in
  round_to_power 33 n.

Section hash.
Variable hash_fn : Z → Z.
Variable less : Z → Z → bool.

Definition find_bucket (h : hash) (e : Z) : Z :=
  let bucket_idx := hash_fn e in
  let bucket_idx2 := u32 (bucket_cnt h - 1) in
  Z.land bucket_idx bucket_idx2.

(** The bucket at an index of the array [buckets] points to. *)
Definition get_bucket (h : hash) (i : Z) : res (list Z) :=
  deref (buckets h !! Z.to_nat i).

Fixpoint find_in_bucket (bucket : list Z) (e : Z) : Z :=
  match bucket with
  | [] => NULL
  | hi :: bucket => if negb (less hi e) && negb (less e hi) then hi else find_in_bucket bucket e
  end.

Definition find_elem (h : hash) (bucket : Z) (e : Z) : res Z :=
  b ← get_bucket h bucket; Ok (find_in_bucket b e).

Definition push_bucket (h : hash) (i e : Z) : res (list (list Z)) :=
  b ← get_bucket h i; Ok (<[Z.to_nat i := e :: b]> (buckets h)).

Definition insert_elem (h : hash) (bucket e : Z) : res hash :=
  bs ← push_bucket h bucket e;
  Ok (Hash (u32 (elem_cnt h + 1)) (bucket_cnt h) bs).

(** [list_remove] unlinks the element from the one chain that holds it. *)
Definition remove_elem (h : hash) (e : Z) : res hash :=
  if existsb (existsb (Z.eqb e)) (buckets h)
  then Ok (Hash (u32 (elem_cnt h - 1)) (bucket_cnt h) (filter (λ x, x ≠ e) <$> buckets h))
  else Fault BadAccess.

(** The inner and outer loops that move every element to its new bucket. *)
Fixpoint move_elems (h : hash) (old_bucket : list Z) : res hash :=
  match old_bucket with
  | [] => Ok h
  | elem :: old_bucket =>
      bs ← push_bucket h (find_bucket h elem) elem;
      move_elems (Hash (elem_cnt h) (bucket_cnt h) bs) old_bucket
  end.

Fixpoint move_buckets (h : hash) (old_buckets : list (list Z)) : res hash :=
  match old_buckets with
  | [] => Ok h
  | b :: old_buckets => h ← move_elems h b; move_buckets h old_buckets
  end.

Definition rehash (malloc_ok : bool) (h : hash) : res hash :=
  new_bucket_cnt ← ideal_bucket_cnt (elem_cnt h);
  if new_bucket_cnt =? bucket_cnt h then Ok h
  else if negb malloc_ok then Ok h
  else
    move_buckets
      (Hash (elem_cnt h) new_bucket_cnt (replicate (Z.to_nat new_bucket_cnt) []))
      (buckets h).

Definition hash_insert (malloc_ok : bool) (h : hash) (new : Z) : res (Z * hash) :=
  let bucket := find_bucket h new in
  old ← find_elem h bucket new;
  h ← (if old =? NULL then insert_elem h bucket new else Ok h);
  h ← rehash malloc_ok h;
  Ok (old, h).

Definition hash_replace (malloc_ok : bool) (h : hash) (new : Z) : res (Z * hash) :=
  let bucket := find_bucket h new in
  old ← find_elem h bucket new;
  h ← (if negb (old =? NULL) then remove_elem h old else Ok h);
  h ← insert_elem h bucket new;
  h ← rehash malloc_ok h;
  Ok (old, h).

Definition hash_find (h : hash) (e : Z) : res Z := find_elem h (find_bucket h e) e.

Definition hash_delete (malloc_ok : bool) (h : hash) (e : Z) : res (Z * hash) :=
  found ← find_elem h (find_bucket h e) e;
  h ← (if negb (found =? NULL)
       then h ← remove_elem h found; rehash malloc_ok h else Ok h);
  Ok (found, h).

(** The loop of [hash_clear] over the buckets from [i] on: the table, and the elements
    in the order the destructor is called on them (none without a destructor). *)
Fixpoint clear_loop (n : nat) (i : Z) (destructor : bool) (h : hash) : res (list Z * hash) :=
  match n with
  | O => Ok ([], h)
  | S n =>
      bucket ← get_bucket h i;
      '(l, h) ← clear_loop n (i + 1) destructor (Hash (elem_cnt h) (bucket_cnt h) (<[Z.to_nat i := []]> (buckets h)));
      Ok ((if destructor then bucket else []) ++ l, h)
  end.

Definition hash_clear (destructor : bool) (h : hash) : res (list Z * hash) :=
  '(l, h) ← clear_loop (Z.to_nat (bucket_cnt h)) 0 destructor h;
  Ok (l, Hash 0 (bucket_cnt h) (buckets h)).

(** [junk] is what the memory of the buckets holds before. *)
Definition hash_init (malloc_ok : bool) (junk : list (list Z)) : res (option hash) :=
  if malloc_ok then '(_, h) ← hash_clear false (Hash 0 4 junk); Ok (Some h) else Ok None.

(** The elements in the order [hash_apply] calls its action on them. *)
Definition hash_apply (h : hash) : list Z := concat (buckets h).

Definition hash_size (h : hash) : Z := elem_cnt h.

Definition hash_empty (h : hash) : bool := elem_cnt h =? 0.

End hash.

(** ** Iteration *)

(** [i->elem]: the head of the current bucket's chain, an element, or null at
    the end of the table. *)
Inductive cursor := AtHead | AtElem (e : Z) | AtNull.

Record hash_iterator := Iterator { it_bucket : nat; it_elem : cursor }.

Definition hash_first (h : hash) : hash_iterator := Iterator 0 AtHead.

(** [list_next] in a chain: [None] is the chain's tail. *)
Fixpoint next_after (e : Z) (b : list Z) : option Z :=
  match b with
  | [] => None
  | x :: b => if x =? e then head b else next_after e b
  end.

(** The loop over empty buckets. *)
Fixpoint skip_empty (fuel : nat) (h : hash) (bucket : nat) (elem : option Z)
    : res hash_iterator :=
  match fuel with
  | O => Timeout
  | S fuel =>
      match elem with
      | Some e => Ok (Iterator bucket (AtElem e))
      | None =>
          let bucket := S bucket in
          if bucket_cnt h <=? Z.of_nat bucket then Ok (Iterator bucket AtNull)
          else b ← get_bucket h (Z.of_nat bucket); skip_empty fuel h bucket (head b)
      end
  end.

Definition hash_next (h : hash) (i : hash_iterator) : res hash_iterator :=
  b ← get_bucket h (Z.of_nat (it_bucket i));
  elem ← match it_elem i with
         | AtHead => Ok (head b)
         | AtElem e => Ok (next_after e b)
         | AtNull => Fault BadAccess
         end;
  skip_empty (S (S (length (buckets h)))) h (it_bucket i) elem.

Definition hash_cur (i : hash_iterator) : cursor := it_elem i.

(** ** Hash functions *)

Definition FNV_32_PRIME : Z := 16777619.
Definition FNV_32_BASIS : Z := 2166136261.

(** The loops of [hash_bytes] and [hash_string] over the bytes of the buffer. *)
Definition fnv_step (hash : Z) (byte : Z) : Z := Z.lxor (u32 (hash * FNV_32_PRIME)) byte.

Definition hash_bytes (buf : list Z) : Z := fold_left fnv_step buf FNV_32_BASIS.

Fixpoint hash_string_loop (s : list Z) (hash : Z) : res Z :=
  match s with
  | [] => Fault BadAccess
  | c :: s => if c =? 0 then Ok hash else hash_string_loop s (fnv_step hash c)
  end.

Definition hash_string (s : list Z) : res Z := hash_string_loop s FNV_32_BASIS.

(** The four bytes of an [int] in memory. *)
Definition int_bytes (i : Z) : list Z :=
  (λ k, Z.shiftr (u32 i) (8 * k) mod 256) <$> seqZ 0 4.

Definition hash_int (i : Z) : Z := hash_bytes (int_bytes i).

(** ** The number of buckets *)

Section power.
Implicit Types n q j : Z.

Lemma land_double n m : Z.land (2 * n) (2 * m + 1) = 2 * Z.land n m.
Proof.
  apply Z.bits_inj'. intros i Hi. rewrite Z.land_spec.
  destruct (Z.eq_dec i 0) as [->|Hi0].
  - rewrite !Z.testbit_even_0. done.
  - replace i with (Z.succ (i - 1)) by lia.
    rewrite !Z.testbit_even_succ, Z.testbit_odd_succ by lia. by rewrite Z.land_spec.
Qed.

Lemma land_odd n : Z.land (2 * n + 1) (2 * n) = 2 * n.
Proof.
  apply Z.bits_inj'. intros i Hi. rewrite Z.land_spec.
  destruct (Z.eq_dec i 0) as [->|Hi0].
  - by rewrite Z.testbit_even_0, andb_false_r.
  - replace i with (Z.succ (i - 1)) by lia.
    rewrite !Z.testbit_even_succ, Z.testbit_odd_succ by lia. apply andb_diag.
Qed.

(** Turning off the lowest bit of [2^j * (2q + 1)] leaves [2^j * 2q]. *)
Lemma land_pred n :
  0 < n → ∃ j q, 0 ≤ j ∧ 0 ≤ q ∧ n = 2 ^ j * (2 * q + 1) ∧ Z.land n (n - 1) = 2 ^ j * (2 * q).
Proof.
  intros Hn. destruct n as [|p|]; try lia. clear Hn. induction p as [p _|p IH|].
  - exists 0, (Z.pos p). rewrite Pos2Z.inj_xI, Z.pow_0_r. split_and!; [lia..|].
    replace (2 * Z.pos p + 1 - 1) with (2 * Z.pos p) by lia. rewrite land_odd. lia.
  - destruct IH as (j & q & Hj & Hq & E & El). exists (j + 1), q.
    rewrite Z.pow_add_r, Z.pow_1_r, Pos2Z.inj_xO by lia. split_and!; [lia|done|rewrite E; ring|].
    replace (2 * Z.pos p - 1) with (2 * (Z.pos p - 1) + 1) by lia. rewrite land_double, El. ring.
  - exists 0, 0. by split_and!.
Qed.

Lemma round_to_power_spec fuel n k :
  0 < n < WORD → 0 ≤ k → (2 ^ k | n) → 33 ≤ Z.of_nat fuel + k →
  round_to_power fuel n = Ok (2 ^ Z.log2 n).
Proof.
  revert n k. induction fuel as [|fuel IH]; intros n k Hn Hk Hd Hf.
  { apply Z.divide_pos_le in Hd; [|lia].
    pose proof (Z.pow_le_mono_r 2 33 k ltac:(lia) ltac:(lia)). lia. }
  cbn [round_to_power]. unfold is_power_of_2, turn_off_least_1bit.
  rewrite u32_small by (unfold is_u32; lia).
  destruct (land_pred n) as (j & q & Hj & Hq & En & El); [lia|].
  rewrite El. rewrite (proj2 (Z.eqb_neq n 0)) by lia. simpl.
  pose proof (Z.pow_pos_nonneg 2 j ltac:(lia) ltac:(lia)) as Hpow.
  destruct (Z.eqb_spec (2 ^ j * (2 * q)) 0) as [Hz|Hz]; simpl.
  - assert (q = 0) as -> by nia. rewrite En. rewrite Z.mul_1_r at 2. rewrite Z.log2_pow2 by lia.
    f_equal. lia.
  - assert (0 < q) by nia.
    assert (k ≤ j) as Hkj.
    { apply Z.nlt_ge. intros Hlt. destruct Hd as [z Hz'].
      replace k with (j + 1 + (k - j - 1)) in Hz' by lia.
      rewrite !Z.pow_add_r, Z.pow_1_r in Hz' by lia.
      assert (2 ^ j * (2 * q + 1) = 2 ^ j * (2 * (z * 2 ^ (k - j - 1)))) as Heq by lia.
      apply Z.mul_reg_l in Heq; lia. }
    rewrite (IH _ (j + 1)); [| |lia| |lia].
    + do 2 f_equal. rewrite En, (Z.mul_comm (2 ^ j)), (Z.mul_comm (2 ^ j)).
      rewrite !Z.log2_mul_pow2, Z.log2_double, Z.log2_succ_double by lia. lia.
    + nia.
    + exists q. rewrite Z.pow_add_r by lia. lia.
Qed.

(** The number of buckets [rehash] aims at: a power of two, at least four, and
    at most half the number of elements when that is more than four. *)
Lemma ideal_bucket_cnt_spec c :
  0 ≤ c < WORD →
  ∃ k, 2 ≤ k < 32 ∧ ideal_bucket_cnt c = Ok (2 ^ k) ∧ 2 ^ k ≤ Z.max 4 (c / 2) < 2 * 2 ^ k.
Proof.
  intros Hc. unfold ideal_bucket_cnt, MIN_BUCKETS, BEST_ELEMS_PER_BUCKET.
  set (n := if c / 2 <? 4 then 4 else c / 2).
  pose proof (Z.div_le_upper_bound c 2 2147483648 ltac:(lia) ltac:(lia)).
  assert (n = Z.max 4 (c / 2)) as Hn by (unfold n; destruct (Z.ltb_spec (c / 2) 4); lia).
  exists (Z.log2 n). rewrite <-Hn. pose proof (Z.log2_spec n ltac:(lia)) as Hl.
  rewrite Z.pow_succ_r in Hl by apply Z.log2_nonneg. split_and!; [| | |lia..].
  - apply (Z.log2_le_mono 4). lia.
  - apply Z.log2_lt_pow2; lia.
  - apply (round_to_power_spec 33 n 0); [lia..|apply Z.divide_1_l|lia].
Qed.

End power.

(** ** Tables as finite maps *)

Lemma next_after_spec e p q : e ∉ p → next_after e (p ++ e :: q) = head q.
Proof.
  induction p as [|x p IH]; simpl; [by rewrite Z.eqb_refl|]. intros Hx.
  rewrite (proj2 (Z.eqb_neq x e)) by set_solver. apply IH. set_solver.
Qed.

Section map.
Context (hash_fn : Z → Z) (less : Z → Z → bool) (key : Z → Z).

(** What the caller's functions must satisfy: the comparison is by a key, and
    elements with the same key have the same hash. *)
Context (less_key : ∀ a b, negb (less a b) && negb (less b a) = true ↔ key a = key b).
Context (hash_key : ∀ a b, key a = key b → hash_fn a = hash_fn b).

Implicit Types (h : hash) (e : Z) (b : list Z) (ok : bool).

Definition contents h : list Z := concat (buckets h).

(** Every element is in the bucket its hash selects. *)
Record placed h : Prop := {
  placed_pow : ∃ k, 2 ≤ k < 32 ∧ bucket_cnt h = 2 ^ k;
  placed_len : length (buckets h) = Z.to_nat (bucket_cnt h);
  placed_at : ∀ i b e, buckets h !! i = Some b → e ∈ b → find_bucket hash_fn h e = Z.of_nat i;
}.

Record hash_wf h : Prop := {
  wf_placed : placed h;
  wf_cnt : elem_cnt h = Z.of_nat (length (contents h));
  wf_keys : NoDup (key <$> contents h);
  wf_null : NULL ∉ contents h;
}.

(** The map from keys to elements a table stands for. *)
Definition to_map h : gmap Z Z := list_to_map ((λ e, (key e, e)) <$> contents h).

Lemma find_bucket_mod h e k :
  0 ≤ k < 32 → bucket_cnt h = 2 ^ k → find_bucket hash_fn h e = hash_fn e mod 2 ^ k.
Proof.
  intros Hk E. unfold find_bucket. rewrite E.
  pose proof (Z.pow_pos_nonneg 2 k ltac:(lia) ltac:(lia)).
  pose proof (Z.pow_lt_mono_r 2 k 32 ltac:(lia) ltac:(lia) ltac:(lia)).
  rewrite u32_small by (unfold is_u32; lia).
  rewrite <-Z.land_ones, Z.ones_equiv by lia. done.
Qed.

Lemma find_bucket_get h e :
  placed h → ∃ i b, find_bucket hash_fn h e = Z.of_nat i ∧ buckets h !! i = Some b ∧
    get_bucket h (find_bucket hash_fn h e) = Ok b.
Proof.
  intros [(k & Hk & E) Hlen _]. rewrite (find_bucket_mod h e k) by (done || lia).
  pose proof (Z.mod_pos_bound (hash_fn e) (2 ^ k) ltac:(lia)) as Hm.
  destruct (lookup_lt_is_Some_2 (buckets h) (Z.to_nat (hash_fn e mod 2 ^ k))) as [b Hb];
    [rewrite Hlen, E; lia|].
  exists (Z.to_nat (hash_fn e mod 2 ^ k)), b. split_and!; [lia|done|].
  unfold get_bucket. by rewrite Hb.
Qed.

Lemma concat_insert bs i b b' :
  bs !! i = Some b → ∃ l1 l2, concat bs = l1 ++ b ++ l2 ∧ concat (<[i:=b']> bs) = l1 ++ b' ++ l2.
Proof.
  revert i. induction bs as [|c bs IH]; intros [|i] Hi; simplify_eq/=.
  - by exists [], (concat bs).
  - destruct (IH _ Hi) as (l1 & l2 & -> & ->). exists (c ++ l1), l2. by rewrite <-!app_assoc.
Qed.

Lemma elem_of_contents h e :
  e ∈ contents h ↔ ∃ i b, buckets h !! i = Some b ∧ e ∈ b.
Proof.
  unfold contents. rewrite list_elem_of_In, in_concat. split.
  - intros (b & Hb & He). apply list_elem_of_In, list_elem_of_lookup in Hb as [i Hi].
    exists i, b. by rewrite list_elem_of_In.
  - intros (i & b & Hi & He). exists b. rewrite <-!list_elem_of_In.
    split; [by apply list_elem_of_lookup_2 in Hi|done].
Qed.

Lemma find_in_bucket_found b e e' :
  NoDup (key <$> b) → e' ∈ b → key e' = key e → find_in_bucket less b e = e'.
Proof.
  induction b as [|x b IH]; [set_solver|]. rewrite fmap_cons, NoDup_cons. intros [Hx Hd] He' Hk.
  simpl. destruct (negb (less x e) && negb (less e x)) eqn:E.
  - apply less_key in E. apply elem_of_cons in He' as [->|He']; [done|].
    destruct Hx. rewrite E, <-Hk. by apply list_elem_of_fmap_2.
  - apply IH; [done| |done]. apply elem_of_cons in He' as [->|He']; [|done].
    apply less_key in Hk. congruence.
Qed.

Lemma find_in_bucket_missing b e :
  (∀ e', e' ∈ b → key e' ≠ key e) → find_in_bucket less b e = NULL.
Proof.
  induction b as [|x b IH]; [done|]. intros Hk. simpl.
  destruct (negb (less x e) && negb (less e x)) eqn:E; [|apply IH; set_solver].
  apply less_key in E. exfalso. apply (Hk x); set_solver.
Qed.

Lemma to_map_Some h e k :
  NoDup (key <$> contents h) → to_map h !! k = Some e ↔ e ∈ contents h ∧ key e = k.
Proof.
  intros Hd. unfold to_map. rewrite <-elem_of_list_to_map.
  - rewrite list_elem_of_fmap. split; [intros (x & ? & ?); by simplify_eq|intros [? <-]; by eexists].
  - rewrite <-list_fmap_compose. done.
Qed.

Lemma to_map_None h k :
  NoDup (key <$> contents h) → to_map h !! k = None ↔ ∀ e, e ∈ contents h → key e ≠ k.
Proof.
  intros Hd. rewrite eq_None_not_Some. split.
  - intros Hn e He Hk. apply Hn. exists e. by apply to_map_Some.
  - intros Hk [e [He ?]%to_map_Some]; [by apply (Hk e)|done].
Qed.

Lemma contents_perm_map h h' :
  NoDup (key <$> contents h) → contents h' ≡ₚ contents h → to_map h' = to_map h.
Proof.
  intros Hd Hp. symmetry. apply list_to_map_proper; [by rewrite <-list_fmap_compose|].
  by rewrite Hp.
Qed.

Lemma find_elem_spec h e :
  hash_wf h →
  find_elem less h (find_bucket hash_fn h e) e = Ok (default NULL (to_map h !! key e)).
Proof.
  intros [Hp _ Hd _]. destruct (find_bucket_get h e Hp) as (i & b & Ei & Hb & Hg).
  unfold find_elem. rewrite Hg. mstep. f_equal.
  destruct (to_map h !! key e) as [e'|] eqn:Hm; simpl.
  - apply to_map_Some in Hm as [He' Hk]; [|done].
    apply elem_of_contents in He' as (i' & b' & Hb' & He').
    pose proof (placed_at _ Hp _ _ _ Hb' He') as Ei'. unfold find_bucket in Ei, Ei'.
    rewrite (hash_key e' e) in Ei' by done. assert (i' = i) as -> by lia. simplify_eq.
    apply find_in_bucket_found; [|done|done].
    destruct (concat_insert _ _ _ [] Hb) as (l1 & l2 & E & _). unfold contents in Hd.
    rewrite E, !fmap_app, !NoDup_app in Hd. naive_solver.
  - apply find_in_bucket_missing. intros e' He'. apply to_map_None with h; [done..|].
    apply elem_of_contents. eauto.
Qed.

Lemma push_bucket_spec h e c :
  placed h →
  ∃ bs, push_bucket h (find_bucket hash_fn h e) e = Ok bs ∧
    placed (Hash c (bucket_cnt h) bs) ∧ concat bs ≡ₚ e :: contents h.
Proof.
  intros Hp. destruct (find_bucket_get h e Hp) as (i & b & Ei & Hb & Hg).
  unfold push_bucket. rewrite Hg. mstep. rewrite Ei, Nat2Z.id.
  eexists. split; [done|]. split.
  - destruct Hp as [Hk Hlen Hat]. split; simpl; [done|by rewrite length_insert|].
    intros i' b' e' [(<- & <- & _)|[Hne Hb']]%list_lookup_insert_Some He'.
    + apply elem_of_cons in He' as [->|He']; [done|]. by apply (Hat i b).
    + by apply (Hat i' b').
  - destruct (concat_insert _ _ _ (e :: b) Hb) as (l1 & l2 & E & ->). unfold contents.
    rewrite E. solve_Permutation.
Qed.

Lemma move_elems_spec h b :
  placed h →
  ∃ h', move_elems hash_fn h b = Ok h' ∧ placed h' ∧ elem_cnt h' = elem_cnt h ∧
    contents h' ≡ₚ b ++ contents h.
Proof.
  revert h. induction b as [|e b IH]; intros h Hp; [by exists h|]. cbn [move_elems].
  destruct (push_bucket_spec h e (elem_cnt h) Hp) as (bs & -> & Hp' & Hc). mstep.
  destruct (IH _ Hp') as (h' & -> & ? & ? & Hc'). exists h'. split_and!; [done..|].
  rewrite Hc'. unfold contents at 1. simpl. rewrite Hc. solve_Permutation.
Qed.

Lemma move_buckets_spec h bs :
  placed h →
  ∃ h', move_buckets hash_fn h bs = Ok h' ∧ placed h' ∧ elem_cnt h' = elem_cnt h ∧
    contents h' ≡ₚ concat bs ++ contents h.
Proof.
  revert h. induction bs as [|b bs IH]; intros h Hp; [by exists h|]. cbn [move_buckets].
  destruct (move_elems_spec h b Hp) as (h1 & -> & Hp1 & Hc1 & Hs1). mstep.
  destruct (IH _ Hp1) as (h' & -> & ? & ? & Hs'). exists h'. split_and!; [done..|congruence|].
  rewrite Hs', Hs1. simpl. solve_Permutation.
Qed.

Lemma concat_replicate_nil n : concat (replicate n (@nil Z)) = [].
Proof. induction n; simpl; [done|done]. Qed.

Lemma rehash_spec ok h :
  placed h → 0 ≤ elem_cnt h < WORD →
  ∃ h', rehash hash_fn ok h = Ok h' ∧ placed h' ∧ elem_cnt h' = elem_cnt h ∧
    contents h' ≡ₚ contents h.
Proof.
  intros Hp Hc. unfold rehash. destruct (ideal_bucket_cnt_spec _ Hc) as (k & Hk & -> & _). mstep.
  destruct (2 ^ k =? bucket_cnt h); [by exists h|]. destruct ok; simpl; [|by exists h].
  edestruct (move_buckets_spec) as (h' & -> & ? & ? & Hs); [|exists h'; split_and!; [done..|]].
  - split; simpl; [by exists k|by rewrite length_replicate|].
    intros i b e (-> & _)%lookup_replicate He. set_solver.
  - rewrite Hs. unfold contents at 1. simpl. by rewrite concat_replicate_nil, app_nil_r.
Qed.

(** A table with the contents [c], up to their order, is well formed. *)
Lemma hash_wf_intro h c :
  placed h → contents h ≡ₚ c → elem_cnt h = Z.of_nat (length c) → NoDup (key <$> c) →
  NULL ∉ c → hash_wf h.
Proof. intros Hp Hs Hc Hd Hn. split; [done|by rewrite Hs|by rewrite Hs|by rewrite Hs]. Qed.

Lemma insert_elem_spec h e :
  hash_wf h → elem_cnt h + 1 < WORD → e ≠ NULL → to_map h !! key e = None →
  ∃ h', insert_elem h (find_bucket hash_fn h e) e = Ok h' ∧ hash_wf h' ∧
    bucket_cnt h' = bucket_cnt h ∧ elem_cnt h' = elem_cnt h + 1 ∧
    to_map h' = <[key e := e]> (to_map h).
Proof.
  intros [Hp Hc Hd Hn] Hw He Hm. unfold insert_elem.
  destruct (push_bucket_spec h e (u32 (elem_cnt h + 1)) Hp) as (bs & -> & Hp' & Hs). mstep.
  rewrite u32_small in * by (unfold is_u32; lia).
  rewrite to_map_None in Hm by done.
  assert (NoDup (key <$> e :: contents h)) as Hd'.
  { rewrite fmap_cons, NoDup_cons. split; [|done]. intros (e' & ? & ?)%list_elem_of_fmap.
    by apply (Hm e'). }
  eexists. split; [done|]. split_and!; [|done..|].
  - apply (hash_wf_intro _ (e :: contents h)); simpl; [done..|lia|done|set_solver].
  - unfold to_map. unfold contents at 1. simpl.
    rewrite (list_to_map_proper _ ((λ e, (key e, e)) <$> e :: contents h)); [done| |by rewrite Hs].
    rewrite <-list_fmap_compose. by rewrite Hs.
Qed.

Lemma concat_filter (P : Z → Prop) `{!∀ x, Decision (P x)} bs :
  concat (filter P <$> bs) = filter P (concat bs).
Proof. induction bs as [|b bs IH]; [done|]. rewrite fmap_cons. simpl. by rewrite filter_app, IH. Qed.

Lemma remove_elem_spec h e :
  hash_wf h → elem_cnt h < WORD → to_map h !! key e = Some e →
  ∃ h', remove_elem h e = Ok h' ∧ hash_wf h' ∧ bucket_cnt h' = bucket_cnt h ∧
    elem_cnt h' = elem_cnt h - 1 ∧ to_map h' = delete (key e) (to_map h).
Proof.
  intros [Hp Hc Hd Hn] Hw Hm. pose proof Hm as [He _]%to_map_Some; [|done].
  unfold remove_elem.
  assert (existsb (existsb (Z.eqb e)) (buckets h) = true) as ->.
  { apply elem_of_contents in He as (i & b & Hb & He). apply existsb_exists. exists b. split.
    - apply list_elem_of_In. by apply list_elem_of_lookup_2 in Hb.
    - apply existsb_exists. exists e. rewrite <-list_elem_of_In. split; [done|apply Z.eqb_refl]. }
  assert (∃ c, contents h ≡ₚ e :: c ∧ filter (λ x, x ≠ e) (contents h) ≡ₚ c ∧ e ∉ c)
    as (c & Hs & Hf & Hec).
  { apply list_elem_of_split in He as (l1 & l2 & E). exists (l1 ++ l2). rewrite E in Hd |- *.
    apply NoDup_fmap_1 in Hd. rewrite NoDup_app, NoDup_cons in Hd.
    assert (e ∉ l1 ∧ e ∉ l2) as [H1 H2] by set_solver.
    rewrite filter_app, filter_cons_False by naive_solver.
    rewrite !filter_all by (apply Forall_forall; intros x Hx ->; done).
    split_and!; [solve_Permutation|done|set_solver]. }
  assert (0 < elem_cnt h) by (rewrite Hc, Hs; simpl; lia).
  rewrite u32_small by (unfold is_u32; lia).
  rewrite Hs, fmap_cons, NoDup_cons in Hd. destruct Hd as [Hek Hd].
  eexists. split; [done|]. split_and!; [|done..|].
  - apply (hash_wf_intro _ c); simpl.
    + destruct Hp as [Hk Hlen Hat]. split; simpl; [done|by rewrite length_fmap|].
      intros i b e' Hb He'. rewrite list_lookup_fmap in Hb.
      destruct (buckets h !! i) as [b0|] eqn:Hb0; simplify_eq/=.
      apply list_elem_of_filter in He' as [_ He']. by apply (Hat i b0).
    + unfold contents. cbn [buckets]. by rewrite concat_filter.
    + rewrite Hc, Hs. simpl. lia.
    + done.
    + rewrite Hs in Hn. set_solver.
  - unfold to_map. unfold contents at 1. cbn [buckets]. rewrite concat_filter.
    rewrite (list_to_map_proper _ ((λ e, (key e, e)) <$> c)) by
      (rewrite <-?list_fmap_compose; by rewrite Hf).
    rewrite (list_to_map_proper ((λ e, (key e, e)) <$> contents h) ((λ e, (key e, e)) <$> e :: c));
      [|rewrite <-list_fmap_compose, Hs; simpl; by constructor|by rewrite Hs].
    simpl. rewrite delete_insert_id; [done|]. apply not_elem_of_list_to_map_1.
    by rewrite <-list_fmap_compose.
Qed.

Lemma rehash_wf ok h :
  hash_wf h → elem_cnt h < WORD →
  ∃ h', rehash hash_fn ok h = Ok h' ∧ hash_wf h' ∧ elem_cnt h' = elem_cnt h ∧
    to_map h' = to_map h.
Proof.
  intros [Hp Hc Hd Hn] Hw. destruct (rehash_spec ok h Hp) as (h' & -> & Hp' & Hc' & Hs); [lia|].
  exists h'. split_and!; [done| |done|by apply contents_perm_map].
  apply (hash_wf_intro _ (contents h)); [done..|lia|done|done].
Qed.

(** *** Clearing *)

Lemma clear_loop_spec destructor cnt c k rest :
  clear_loop (length rest) (Z.of_nat k) destructor (Hash cnt c (replicate k [] ++ rest)) =
    Ok (if destructor then concat rest else [], Hash cnt c (replicate (k + length rest) [])).
Proof.
  revert k. induction rest as [|b rest IH]; intros k; cbn [length clear_loop].
  { rewrite app_nil_r, Nat.add_0_r. by destruct destructor. }
  unfold get_bucket. cbn [buckets elem_cnt bucket_cnt]. rewrite Nat2Z.id, list_lookup_middle by (by rewrite length_replicate). mstep.
  rewrite insert_app_r_alt by (rewrite length_replicate; lia). rewrite length_replicate, Nat.sub_diag. cbn [insert list_insert].
  replace (replicate k [] ++ [] :: rest) with (replicate (S k) [] ++ rest) by (by rewrite replicate_S_end, <-app_assoc).
  replace (Z.of_nat k + 1) with (Z.of_nat (S k)) by lia. rewrite IH. mstep. replace (S k + length rest)%nat with (k + S (length rest))%nat by lia.
  by destruct destructor.
Qed.

Lemma hash_clear_spec destructor h :
  length (buckets h) = Z.to_nat (bucket_cnt h) →
  hash_clear destructor h = Ok (if destructor then contents h else [], Hash 0 (bucket_cnt h) (replicate (length (buckets h)) [])).
Proof.
  intros Hl. unfold hash_clear. rewrite <-Hl. destruct h as [c n bs]. cbn [bucket_cnt buckets] in *.
  rewrite (clear_loop_spec destructor c n 0 bs : clear_loop (length bs) 0 destructor (Hash c n bs) = _). mstep. by destruct destructor.
Qed.

Lemma cleared_wf c n :
  (∃ k, 2 ≤ k < 32 ∧ c = 2 ^ k) → n = Z.to_nat c → hash_wf (Hash 0 c (replicate n [])) ∧ to_map (Hash 0 c (replicate n [])) = ∅.
Proof.
  intros Hc Hn. assert (contents (Hash 0 c (replicate n [])) = []) as E by apply concat_replicate_nil. unfold to_map. rewrite E. split; [|done].
  split; rewrite ?E; [|done|constructor|apply not_elem_of_nil]. split; cbn; [done|by rewrite length_replicate|].
  intros i b e (-> & _)%lookup_replicate He. by apply elem_of_nil in He.
Qed.

(** [hash_init] makes an empty table, whatever was in the memory it gets. *)
Lemma hash_init_wf junk : length junk = 4%nat → ∃ h, hash_init true junk = Ok (Some h) ∧ hash_wf h ∧ to_map h = ∅.
Proof.
  intros Hj. unfold hash_init. rewrite hash_clear_spec by done. mstep. eexists. split; [done|]. cbn [buckets bucket_cnt]. rewrite Hj. apply cleared_wf; [by exists 2|done].
Qed.

(** *** Histories of operations *)

Inductive hash_op := HInsert (e : Z) | HReplace (e : Z) | HFind (e : Z) | HDelete (e : Z) | HClear (destructor : bool).

(** One operation; [ok] is the outcome of the allocation it may attempt. The answer is the
    pointer that is returned, or the elements that the destructor was called on. *)
Definition run_hash_op h (op : hash_op) ok : res (list Z * hash) :=
  match op with
  | HInsert e => '(r, h) ← hash_insert hash_fn less ok h e; Ok ([r], h)
  | HReplace e => '(r, h) ← hash_replace hash_fn less ok h e; Ok ([r], h)
  | HFind e => r ← hash_find hash_fn less h e; Ok ([r], h)
  | HDelete e => '(r, h) ← hash_delete hash_fn less ok h e; Ok ([r], h)
  | HClear destructor => hash_clear destructor h
  end.

(** The same operation on the map: the answer is the old element, or null; a table that is
    cleared calls the destructor, if there is one, once on each element. *)
Definition spec_hash_op (m : gmap Z Z) (op : hash_op) (r : list Z) (m' : gmap Z Z) : Prop :=
  match op with
  | HInsert e => r = [default NULL (m !! key e)] ∧ m' = match m !! key e with Some _ => m | None => <[key e := e]> m end
  | HReplace e => r = [default NULL (m !! key e)] ∧ m' = <[key e := e]> m
  | HFind e => r = [default NULL (m !! key e)] ∧ m' = m
  | HDelete e => r = [default NULL (m !! key e)] ∧ m' = delete (key e) m
  | HClear destructor => (if destructor then r ≡ₚ (map_to_list m).*2 else r = []) ∧ m' = ∅
  end.

Definition op_nonnull (op : hash_op) : Prop :=
  match op with HInsert e | HReplace e => e ≠ NULL | _ => True end.

(** [op] runs on [h] as on the map [h] stands for. *)
Definition op_ok h (op : hash_op) ok : Prop :=
  ∃ r h', run_hash_op h op ok = Ok (r, h') ∧ hash_wf h' ∧
    elem_cnt h' ≤ elem_cnt h + 1 ∧ spec_hash_op (to_map h) op r (to_map h').

Lemma to_map_nonnull h e e' :
  hash_wf h → to_map h !! key e = Some e' → e' ≠ NULL ∧ key e' = key e.
Proof.
  intros Hwf [He' Hk]%to_map_Some; [|apply Hwf]. split; [|done].
  intros ->. by apply (wf_null _ Hwf).
Qed.

Lemma hash_insert_ok h e ok :
  hash_wf h → elem_cnt h + 1 < WORD → e ≠ NULL → op_ok h (HInsert e) ok.
Proof.
  intros Hwf Hw Hn. unfold op_ok. cbn [run_hash_op spec_hash_op].
  unfold hash_insert. rewrite find_elem_spec by done. mstep.
  destruct (to_map h !! key e) as [old|] eqn:Hm; simpl.
  + destruct (to_map_nonnull _ _ _ Hwf Hm). rewrite (proj2 (Z.eqb_neq old 0)) by done. mstep.
    destruct (rehash_wf ok h Hwf) as (h' & -> & ? & ? & ?); [lia|]. eexists _, h'. mstep. split; [done|]. split; [done|]. split; [lia|]. split; [done|]. done.
  + destruct (insert_elem_spec h e Hwf) as (h1 & -> & Hwf1 & _ & Hc1 & Hm1); [done..|]. mstep.
    destruct (rehash_wf ok h1 Hwf1) as (h' & -> & ? & ? & ?); [lia|]. eexists _, h'. mstep. split; [done|]. split; [done|]. split; [lia|]. split; [done|]. congruence.
Qed.

Lemma hash_replace_ok h e ok :
  hash_wf h → elem_cnt h + 1 < WORD → e ≠ NULL → op_ok h (HReplace e) ok.
Proof.
  intros Hwf Hw Hn. unfold op_ok. cbn [run_hash_op spec_hash_op].
  unfold hash_replace. rewrite find_elem_spec by done. mstep.
  destruct (to_map h !! key e) as [old|] eqn:Hm; simpl.
  + destruct (to_map_nonnull _ _ _ Hwf Hm) as [Hold Hk]. rewrite (proj2 (Z.eqb_neq old 0)) by done. mstep.
    destruct (remove_elem_spec h old Hwf) as (h1 & -> & Hwf1 & Hb1 & Hc1 & Hm1);
      [lia|by rewrite Hk|]. mstep.
    assert (find_bucket hash_fn h e = find_bucket hash_fn h1 e) as ->
      by (unfold find_bucket; by rewrite Hb1).
    destruct (insert_elem_spec h1 e Hwf1) as (h2 & -> & Hwf2 & _ & Hc2 & Hm2); [lia|done| |].
    { rewrite Hm1, Hk. apply lookup_delete_eq. } mstep.
    destruct (rehash_wf ok h2 Hwf2) as (h' & -> & ? & ? & Hm'); [lia|]. eexists _, h'. mstep. split; [done|]. split; [done|]. split; [lia|]. split; [done|].
    rewrite Hm', Hm2, Hm1, Hk. apply insert_delete_eq.
  + destruct (insert_elem_spec h e Hwf) as (h1 & -> & Hwf1 & _ & Hc1 & Hm1); [done..|]. mstep.
    destruct (rehash_wf ok h1 Hwf1) as (h' & -> & ? & ? & ?); [lia|]. eexists _, h'. mstep. split; [done|]. split; [done|]. split; [lia|]. split; [done|]. congruence.
Qed.

Lemma hash_delete_ok h e ok :
  hash_wf h → elem_cnt h + 1 < WORD → op_ok h (HDelete e) ok.
Proof.
  intros Hwf Hw. unfold op_ok. cbn [run_hash_op spec_hash_op].
  unfold hash_delete. rewrite find_elem_spec by done. mstep.
  destruct (to_map h !! key e) as [old|] eqn:Hm; simpl.
  + destruct (to_map_nonnull _ _ _ Hwf Hm) as [Hold Hk]. rewrite (proj2 (Z.eqb_neq old 0)) by done. mstep.
    destruct (remove_elem_spec h old Hwf) as (h1 & -> & Hwf1 & _ & Hc1 & Hm1);
      [lia|by rewrite Hk|]. mstep.
    destruct (rehash_wf ok h1 Hwf1) as (h' & -> & ? & ? & ?); [lia|]. eexists _, h'. mstep. split; [done|]. split; [done|]. split; [lia|]. split; [done|]. congruence.
  + eexists _, h. split; [done|]. split; [done|]. split; [lia|]. split; [done|]. by rewrite delete_id.
Qed.

Lemma hash_clear_ok h destructor ok : hash_wf h → op_ok h (HClear destructor) ok.
Proof.
  intros Hwf. pose proof (placed_len _ (wf_placed _ Hwf)) as Hl. unfold op_ok. cbn [run_hash_op spec_hash_op]. rewrite hash_clear_spec by done.
  destruct (cleared_wf (bucket_cnt h) (length (buckets h)) (placed_pow _ (wf_placed _ Hwf)) Hl) as [Hwf' Hm].
  do 2 eexists. split; [done|]. split; [done|]. split; [cbn; rewrite (wf_cnt _ Hwf); lia|]. split; [|done]. destruct destructor; [|done].
  unfold to_map. rewrite map_to_list_to_map by (rewrite <-list_fmap_compose; apply Hwf). rewrite <-list_fmap_compose.
  by rewrite (list_fmap_id (contents h) : snd ∘ (λ e, (key e, e)) <$> contents h = contents h).
Qed.

Lemma run_hash_op_spec h op ok :
  hash_wf h → elem_cnt h + 1 < WORD → op_nonnull op → op_ok h op ok.
Proof.
  destruct op as [e|e|e|e|destructor]; intros Hwf Hw Hn.
  - by apply hash_insert_ok.
  - by apply hash_replace_ok.
  - eexists _, h. cbn [run_hash_op]. unfold hash_find. rewrite find_elem_spec by done. mstep.
    split; [done|]. split; [done|]. split; [lia|done].
  - by apply hash_delete_ok.
  - by apply hash_clear_ok.
Qed.

Fixpoint run_hash_ops h (ops : list (hash_op * bool)) : res (list (list Z) * hash) :=
  match ops with
  | [] => Ok ([], h)
  | (op, ok) :: ops =>
      '(r, h) ← run_hash_op h op ok;
      '(rs, h) ← run_hash_ops h ops;
      Ok (r :: rs, h)
  end.

Inductive spec_hash_ops : gmap Z Z → list (hash_op * bool) → list (list Z) → gmap Z Z → Prop :=
| spec_done m : spec_hash_ops m [] [] m
| spec_next m op ok r m1 ops rs m2 :
    spec_hash_op m op r m1 → spec_hash_ops m1 ops rs m2 → spec_hash_ops m ((op, ok) :: ops) (r :: rs) m2.

(** C25. A hash table is a finite map: starting from a well-formed table, any sequence of
    insertions, replacements, lookups, deletions and clearings, with any of the allocations
    for resizing failing, runs without a fault, answers as the same operations on a finite
    map do, and leaves a well-formed table that stands for the resulting map. Clearing with
    a destructor calls it exactly once on each element. The table that hash_init makes is
    well formed and stands for the empty map. *)
Theorem hash_table_refines_map h ops :
  hash_wf h → elem_cnt h + Z.of_nat (length ops) < WORD → Forall (op_nonnull ∘ fst) ops →
  (∃ rs h', run_hash_ops h ops = Ok (rs, h') ∧ hash_wf h' ∧ spec_hash_ops (to_map h) ops rs (to_map h')) ∧
  (∀ junk, length junk = 4%nat → ∃ h0, hash_init true junk = Ok (Some h0) ∧ hash_wf h0 ∧ to_map h0 = ∅).
Proof.
  intros Hwf Hw Hn. split; [|apply hash_init_wf]. revert h Hwf Hw Hn. induction ops as [|[op ok] ops IH]; intros h Hwf Hw Hn; [by exists [], h; split; [|split; [|constructor]]|].
  apply Forall_cons in Hn as [Hn Hns]. simpl length in Hw. cbn [run_hash_ops].
  destruct (run_hash_op_spec h op ok Hwf) as (r & h1 & -> & Hwf1 & Hc1 & Hm1); [lia|done|]. mstep.
  destruct (IH h1 Hwf1) as (rs & h' & -> & Hwf' & Hm'); [lia|done|]. mstep.
  exists (r :: rs), h'. split; [done|]. split; [done|]. by econstructor.
Qed.

(** *** Iteration *)

(** The iterator stands in front of the elements [rest]. *)
Definition at_pos h (i : hash_iterator) (rest : list Z) : Prop :=
  ∃ p q, buckets h !! it_bucket i = Some (p ++ q) ∧
    rest = q ++ concat (drop (S (it_bucket i)) (buckets h)) ∧
    match it_elem i with
    | AtHead => p = []
    | AtElem e => last p = Some e
    | AtNull => False
    end.

Lemma skip_empty_spec h i p q fuel :
  placed h → buckets h !! i = Some (p ++ q) → (length (buckets h) - i < fuel)%nat →
  ∃ it, skip_empty fuel h i (head q) = Ok it ∧
    match q ++ concat (drop (S i) (buckets h)) with
    | [] => it_elem it = AtNull
    | e :: rest => it_elem it = AtElem e ∧ at_pos h it rest
    end.
Proof.
  intros Hp. pose proof (placed_len _ Hp) as Hlen.
  assert (bucket_cnt h = Z.of_nat (length (buckets h))) as Hcnt.
  { destruct (placed_pow _ Hp) as (k & Hk & E). pose proof (Z.pow_pos_nonneg 2 k). lia. }
  revert i p q. induction fuel as [|fuel IH]; intros i p q Hb Hf; [lia|].
  pose proof (lookup_lt_Some _ _ _ Hb) as Hi. cbn [skip_empty].
  destruct q as [|e q]; simpl head.
  - destruct (Z.leb_spec (bucket_cnt h) (Z.of_nat (S i))) as [Hle|Hlt].
    + exists (Iterator (S i) AtNull). split; [done|]. rewrite drop_ge by lia. done.
    + destruct (lookup_lt_is_Some_2 (buckets h) (S i)) as [b Hb']; [lia|].
      unfold get_bucket. rewrite Nat2Z.id, Hb'. mstep.
      destruct (IH (S i) [] b Hb') as (it & -> & Hit); [lia|]. exists it. split; [done|].
      by rewrite (drop_S _ _ _ Hb').
  - exists (Iterator i (AtElem e)). split; [done|]. split; [done|].
    exists (p ++ [e]), q. simpl. by rewrite <-app_assoc, last_snoc.
Qed.

Lemma hash_next_spec h i rest :
  hash_wf h → at_pos h i rest →
  ∃ i', hash_next h i = Ok i' ∧
    match rest with
    | [] => it_elem i' = AtNull
    | e :: rest => it_elem i' = AtElem e ∧ at_pos h i' rest
    end.
Proof.
  intros Hwf (p & q & Hb & -> & Hcur). unfold hash_next, get_bucket.
  rewrite Nat2Z.id, Hb. mstep. pose proof (wf_placed _ Hwf) as Hp.
  assert ((match it_elem i with
           | AtHead => Ok (head (p ++ q)) | AtElem e => Ok (next_after e (p ++ q))
           | AtNull => Fault BadAccess end) = Ok (head q)) as ->.
  { destruct (it_elem i) as [|e|]; [by subst| |done].
    apply last_Some in Hcur as [p' ->]. rewrite <-app_assoc. simpl. f_equal.
    apply next_after_spec. destruct (concat_insert _ _ _ [] Hb) as (l1 & l2 & E & _).
    pose proof (wf_keys _ Hwf) as Hd%NoDup_fmap_1. unfold contents in Hd.
    rewrite E, !NoDup_app in Hd. clear -Hd. set_solver. }
  mstep. apply skip_empty_spec with p; [done..|lia].
Qed.

(** The iteration idiom documented at [hash_first]. *)
Fixpoint visit (fuel : nat) h (i : hash_iterator) : res (list Z) :=
  match fuel with
  | O => Timeout
  | S fuel =>
      i ← hash_next h i;
      match hash_cur i with
      | AtElem e => es ← visit fuel h i; Ok (e :: es)
      | _ => Ok []
      end
  end.

(** Iterating over a well-formed table with [hash_first], [hash_next] and
    [hash_cur] ends and visits every element exactly once, in the order in
    which [hash_apply] calls its action; the number of elements visited is
    [hash_size]. *)
Theorem hash_iteration_complete h :
  hash_wf h →
  visit (S (length (contents h))) h (hash_first h) = Ok (hash_apply h) ∧
  NoDup (hash_apply h) ∧ hash_size h = Z.of_nat (length (hash_apply h)).
Proof.
  intros Hwf. split; [|split; [apply (NoDup_fmap_1 key), Hwf|apply Hwf]].
  assert (∀ rest i, at_pos h i rest → visit (S (length rest)) h i = Ok rest) as Hvisit.
  { induction rest as [|e rest IH]; intros i Hi; cbn [visit];
      destruct (hash_next_spec h i _ Hwf Hi) as (i' & -> & Hi'); mstep; unfold hash_cur.
    - by rewrite Hi'.
    - destruct Hi' as [-> Hpos]. simpl length. by rewrite (IH _ Hpos). }
  apply Hvisit. pose proof (wf_placed _ Hwf) as [(k & Hk & E) Hlen _].
  pose proof (Z.pow_le_mono_r 2 2 k ltac:(lia) ltac:(lia)).
  unfold contents. destruct (buckets h) as [|b bs] eqn:Hbs; [simpl in Hlen; lia|].
  exists [], b. simpl. unfold hash_apply. rewrite Hbs. by split_and!.
Qed.

End map.

(** *** Witnesses: a table of elements at addresses 8, 16, ... with the address
    divided by 8 as key and [hash_int] as hash. *)

Definition demo_key (e : Z) : Z := e / 8.
Definition demo_hash (e : Z) : Z := hash_int (demo_key e).
Definition demo_less (a b : Z) : bool := demo_key a <? demo_key b.

Lemma demo_less_key a b :
  negb (demo_less a b) && negb (demo_less b a) = true ↔ demo_key a = demo_key b.
Proof.
  unfold demo_less. rewrite andb_true_iff, !negb_true_iff, !Z.ltb_ge. lia.
Qed.

Lemma demo_hash_key a b : demo_key a = demo_key b → demo_hash a = demo_hash b.
Proof. unfold demo_hash. by intros ->. Qed.

Definition demo_table : hash := Hash 0 4 (replicate 4 []).

Lemma demo_table_wf : hash_wf demo_hash demo_key demo_table.
Proof.
  split; [|done|constructor|set_solver]. split; [by exists 2|done|].
  intros i b e (-> & _)%lookup_replicate He. set_solver.
Qed.

Definition demo_hash_ops : list (hash_op * bool) :=
  [(HInsert 8, true); (HInsert 16, true); (HInsert 9, false); (HReplace 10, true);
   (HFind 17, true); (HDelete 8, true); (HFind 8, true); (HClear true, true); (HFind 16, true)].

Lemma hash_table_refines_map_witness :
  (r ← run_hash_ops demo_hash demo_less demo_table demo_hash_ops; Ok r.1) = Ok [[0]; [0]; [8]; [8]; [16]; [10]; [0]; [16]; [0]] ∧
  ∃ rs h', run_hash_ops demo_hash demo_less demo_table demo_hash_ops = Ok (rs, h') ∧ hash_wf demo_hash demo_key h' ∧
    spec_hash_ops demo_key (to_map demo_key demo_table) demo_hash_ops rs (to_map demo_key h').
Proof.
  split; [vm_compute; reflexivity|].
  apply (hash_table_refines_map demo_hash demo_less demo_key demo_less_key demo_hash_key demo_table demo_hash_ops demo_table_wf).
  - reflexivity.
  - repeat constructor; discriminate.
Defined.

Lemma hash_iteration_complete_witness :
  visit 1 demo_table (hash_first demo_table) = Ok (hash_apply demo_table) ∧
  NoDup (hash_apply demo_table) ∧
  hash_size demo_table = Z.of_nat (length (hash_apply demo_table)).
Proof. apply (hash_iteration_complete demo_hash demo_key demo_table demo_table_wf). Defined.
