(* ===== verification/Thread.v ===== *)
(** Kernel threads and the scheduler (src/threads/thread.c, thread.h).

    The state holds the pages that contain a [struct thread], the run queue and
    the list of all threads as sequences of thread addresses, the thread whose
    stack the CPU is on, the interrupt flag and the scheduler's counters.
    [switch_threads] is the change of [cur]; what a thread still has to do when
    it gets the CPU back is kept in [Synch], where threads run.

    The list of the children of a thread is kept with its links, because the page of a child is freed
    while it is on the list.

    Not modelled: the thread's name, the contents of its stack frames, and the
    user-process hooks [process_exit] and [process_activate]. *)

From S2P Require Import Prelude Vaddr.

(** ** Data *)

Inductive thread_status := THREAD_RUNNING | THREAD_READY | THREAD_BLOCKED | THREAD_DYING.

#[export] Instance thread_status_eq_dec : EqDecision thread_status.
Proof. solve_decision. Defined.

Definition TID_ERROR : Z := -1.
Definition PRI_MIN : Z := 0.
Definition PRI_DEFAULT : Z := 31.
Definition PRI_MAX : Z := 63.
Definition THREAD_MAGIC : Z := 3446325067.
Definition TIME_SLICE : Z := 4.

(** What the links of a list of children point to: nothing yet in a zeroed page, the head or the
    tail of the list of a thread, or the [child_elem] of a thread. A child that exits stays in
    the list of its parent, so that the page of the thread may be gone. *)
Inductive child_pos := ChildNull | ChildHead (parent : Z) | ChildElem (t : Z) | ChildTail (parent : Z).

#[export] Instance child_pos_eq_dec : EqDecision child_pos.
Proof. solve_decision. Defined.

(** The [prev] and [next] of a [child_elem]. *)
Record child_links := ChildLinks { cprev : child_pos; cnext : child_pos }.

(** The [next] of the head and the [prev] of the tail of a [child_list]. *)
Record child_ends := ChildEnds { cfirst : child_pos; clast : child_pos }.

Definition no_links : child_links := ChildLinks ChildNull ChildNull.

(** [list_init] of the list of thread [t]. *)
Definition no_children (t : Z) : child_ends := ChildEnds (ChildTail t) (ChildHead t).

Record thread := Thread {
  tid : Z;
  status : thread_status;
  stack : Z;
  priority : Z;
  child_elem : child_links;
  child_list : child_ends;
  pagedir : Z;
  next_fd : Z;
  magic : Z;
}.

Record kstate := KState {
  threads : gmap Z thread;
  ready_list : list Z;
  all_list : list Z;
  idle_thread : Z;
  initial_thread : Z;
  cur : Z;                      (* the thread the stack pointer is in *)
  intr : bool;                  (* interrupts enabled *)
  idle_ticks : Z;
  kernel_ticks : Z;
  user_ticks : Z;
  thread_ticks : Z;
  next_tid : Z;
}.

Definition set_threads (s : kstate) (m : gmap Z thread) : kstate :=
  KState m (ready_list s) (all_list s) (idle_thread s) (initial_thread s) (cur s) (intr s)
    (idle_ticks s) (kernel_ticks s) (user_ticks s) (thread_ticks s) (next_tid s).
Definition set_ready (s : kstate) (l : list Z) : kstate :=
  KState (threads s) l (all_list s) (idle_thread s) (initial_thread s) (cur s) (intr s)
    (idle_ticks s) (kernel_ticks s) (user_ticks s) (thread_ticks s) (next_tid s).
Definition set_all (s : kstate) (l : list Z) : kstate :=
  KState (threads s) (ready_list s) l (idle_thread s) (initial_thread s) (cur s) (intr s)
    (idle_ticks s) (kernel_ticks s) (user_ticks s) (thread_ticks s) (next_tid s).
Definition set_idle (s : kstate) (t : Z) : kstate :=
  KState (threads s) (ready_list s) (all_list s) t (initial_thread s) (cur s) (intr s)
    (idle_ticks s) (kernel_ticks s) (user_ticks s) (thread_ticks s) (next_tid s).
Definition set_cur (s : kstate) (t : Z) : kstate :=
  KState (threads s) (ready_list s) (all_list s) (idle_thread s) (initial_thread s) t (intr s)
    (idle_ticks s) (kernel_ticks s) (user_ticks s) (thread_ticks s) (next_tid s).
Definition set_intr (s : kstate) (b : bool) : kstate :=
  KState (threads s) (ready_list s) (all_list s) (idle_thread s) (initial_thread s) (cur s) b
    (idle_ticks s) (kernel_ticks s) (user_ticks s) (thread_ticks s) (next_tid s).
Definition set_ticks (s : kstate) (i k u t : Z) : kstate :=
  KState (threads s) (ready_list s) (all_list s) (idle_thread s) (initial_thread s) (cur s) (intr s)
    i k u t (next_tid s).
Definition set_next_tid (s : kstate) (n : Z) : kstate :=
  KState (threads s) (ready_list s) (all_list s) (idle_thread s) (initial_thread s) (cur s) (intr s)
    (idle_ticks s) (kernel_ticks s) (user_ticks s) (thread_ticks s) n.

(** Assignments to one field of a thread. *)
Definition with_status (st : thread_status) (t : thread) : thread :=
  Thread (tid t) st (stack t) (priority t) (child_elem t) (child_list t) (pagedir t) (next_fd t) (magic t).
Definition with_tid (n : Z) (t : thread) : thread :=
  Thread n (status t) (stack t) (priority t) (child_elem t) (child_list t) (pagedir t) (next_fd t) (magic t).
Definition with_stack (p : Z) (t : thread) : thread :=
  Thread (tid t) (status t) p (priority t) (child_elem t) (child_list t) (pagedir t) (next_fd t) (magic t).
Definition with_priority (p : Z) (t : thread) : thread :=
  Thread (tid t) (status t) (stack t) p (child_elem t) (child_list t) (pagedir t) (next_fd t) (magic t).
Definition with_child_elem (l : child_links) (t : thread) : thread :=
  Thread (tid t) (status t) (stack t) (priority t) l (child_list t) (pagedir t) (next_fd t) (magic t).
Definition with_children (l : child_ends) (t : thread) : thread :=
  Thread (tid t) (status t) (stack t) (priority t) (child_elem t) l (pagedir t) (next_fd t) (magic t).
Definition with_next_fd (n : Z) (t : thread) : thread :=
  Thread (tid t) (status t) (stack t) (priority t) (child_elem t) (child_list t) (pagedir t) n (magic t).

(** Loads and stores through a thread pointer. *)
Definition get_thread (s : kstate) (t : Z) : res thread := deref (threads s !! t).

Definition upd_thread (s : kstate) (t : Z) (f : thread → thread) : res kstate :=
  th ← get_thread s t; Ok (set_threads s (<[t := f th]> (threads s))).

(** ** Operations *)

Definition is_thread (s : kstate) (t : Z) : res bool :=
  Ok (negb (t =? NULL)) &&& (th ← get_thread s t; Ok (magic th =? THREAD_MAGIC)).

Definition running_thread (s : kstate) : Z := cur s.

Definition thread_current (s : kstate) : res Z :=
  let t := running_thread s in
  ok ← is_thread s t;
  ASSERT ok ;;
  th ← get_thread s t;
  ASSERT bool_decide (status th = THREAD_RUNNING) ;;
  Ok t.

Definition thread_tid (s : kstate) : res Z :=
  t ← thread_current s; th ← get_thread s t; Ok (tid th).

(** The thread to run next, and the run queue without it. *)
Definition next_thread_to_run (s : kstate) : Z * kstate :=
  match ready_list s with
  | [] => (idle_thread s, s)
  | t :: l => (t, set_ready s l)
  end.

Definition palloc_free_thread (s : kstate) (t : Z) : kstate :=
  set_threads s (delete t (threads s)).

Definition thread_schedule_tail (s : kstate) (prev : Z) : res kstate :=
  let cur := running_thread s in
  ASSERT negb (intr s) ;;
  s ← upd_thread s cur (with_status THREAD_RUNNING);
  let s := set_ticks s (idle_ticks s) (kernel_ticks s) (user_ticks s) 0 in
  dying ← Ok (negb (prev =? NULL))
    &&& (p ← get_thread s prev; Ok (bool_decide (status p = THREAD_DYING)))
    &&& Ok (negb (prev =? initial_thread s));
  if dying : bool then
    ASSERT negb (prev =? cur) ;; Ok (palloc_free_thread s prev)
  else Ok s.

Definition schedule (s : kstate) : res kstate :=
  let cur := running_thread s in
  let '(next, s) := next_thread_to_run s in
  ASSERT negb (intr s) ;;
  th ← get_thread s cur;
  ASSERT bool_decide (status th ≠ THREAD_RUNNING) ;;
  ok ← is_thread s next;
  ASSERT ok ;;
  if negb (cur =? next)
  then thread_schedule_tail (set_cur s next) cur
  else thread_schedule_tail s NULL.

Definition thread_block (s : kstate) : res kstate :=
  ASSERT negb (intr s) ;;
  t ← thread_current s;
  s ← upd_thread s t (with_status THREAD_BLOCKED);
  schedule s.

Definition thread_unblock (s : kstate) (t : Z) : res kstate :=
  ok ← is_thread s t;
  ASSERT ok ;;
  let old_level := intr s in
  let s := set_intr s false in
  th ← get_thread s t;
  ASSERT bool_decide (status th = THREAD_BLOCKED) ;;
  let s := set_ready s (ready_list s ++ [t]) in
  s ← upd_thread s t (with_status THREAD_READY);
  Ok (set_intr s old_level).

(** [thread_yield] up to the switch; the caller restores the interrupt level
    when it runs again. *)
Definition thread_yield (s : kstate) : res kstate :=
  cur ← thread_current s;
  let s := set_intr s false in
  let s := if negb (cur =? idle_thread s) then set_ready s (ready_list s ++ [cur]) else s in
  s ← upd_thread s cur (with_status THREAD_READY);
  schedule s.

Definition thread_exit (s : kstate) : res kstate :=
  let s := set_intr s false in
  t ← thread_current s;
  ASSERT bool_decide (t ∈ all_list s) ;;
  let s := set_all s (filter (λ x, x ≠ t) (all_list s)) in
  t ← thread_current s;
  s ← upd_thread s t (with_status THREAD_DYING);
  schedule s.

(** The tick handler: the counters, and whether to yield on return. *)
Definition thread_tick (s : kstate) : res (kstate * bool) :=
  t ← thread_current s;
  th ← get_thread s t;
  let '(i, k, u) :=
    if t =? idle_thread s then (idle_ticks s + 1, kernel_ticks s, user_ticks s)
    else if negb (pagedir th =? NULL) then (idle_ticks s, kernel_ticks s, user_ticks s + 1)
    else (idle_ticks s, kernel_ticks s + 1, user_ticks s) in
  let n := u32 (thread_ticks s + 1) in
  Ok (set_ticks s i k u n, TIME_SLICE <=? n).

(** A zeroed page, initialised as a blocked thread. *)
Definition init_thread (s : kstate) (t : Z) (priority : Z) : res kstate :=
  ASSERT negb (t =? NULL) ;;
  ASSERT (PRI_MIN <=? priority) && (priority <=? PRI_MAX) ;;
  let s := set_threads s
    (<[t := Thread 0 THREAD_BLOCKED (t + PGSIZE) priority no_links (no_children t) 0 0 THREAD_MAGIC]> (threads s)) in
  Ok (set_all s (all_list s ++ [t])).

(** [next_tid++], between the acquire and the release of [tid_lock]. *)
Definition take_tid (s : kstate) : Z * kstate :=
  (next_tid s, set_next_tid s (s32 (next_tid s + 1))).

Definition alloc_frame (s : kstate) (t : Z) (size : Z) : res (Z * kstate) :=
  ok ← is_thread s t;
  ASSERT ok ;;
  ASSERT size mod 4 =? 0 ;;
  th ← get_thread s t;
  s ← upd_thread s t (with_stack (u32 (stack th - size)));
  Ok (u32 (stack th - size), s).

Definition thread_set_priority (s : kstate) (new_priority : Z) : res kstate :=
  t ← thread_current s; upd_thread s t (with_priority new_priority).

Definition thread_get_priority (s : kstate) : res Z :=
  t ← thread_current s; th ← get_thread s t; Ok (priority th).

(** The threads [thread_foreach] calls its function on, in order. *)
Fixpoint foreach_threads (s : kstate) (l : list Z) : res (list thread) :=
  match l with
  | [] => Ok []
  | t :: l => th ← get_thread s t; ths ← foreach_threads s l; Ok (th :: ths)
  end.

Definition thread_foreach (s : kstate) : res (list thread) :=
  ASSERT negb (intr s) ;; foreach_threads s (all_list s).

(** *** The list of children *)

(** [x->next = v] for an [x] in a list of children; the page of a thread that has exited cannot be
    written. *)
Definition set_cnext (s : kstate) (x v : child_pos) : res kstate :=
  match x with
  | ChildHead c => upd_thread s c (λ th, with_children (ChildEnds v (clast (child_list th))) th)
  | ChildElem t => upd_thread s t (λ th, with_child_elem (ChildLinks (cprev (child_elem th)) v) th)
  | ChildNull | ChildTail _ => Fault BadAccess
  end.

(** [list_push_back] of the [child_elem] of [t] to the list of [c]: [list_insert] before the
    tail. *)
Definition push_child (s : kstate) (c t : Z) : res kstate :=
  cth ← get_thread s c;
  let last := clast (child_list cth) in
  ASSERT negb (bool_decide (last = ChildNull)) ;;
  s ← upd_thread s t (with_child_elem (ChildLinks last (ChildTail c)));
  s ← set_cnext s last (ChildElem t);
  upd_thread s c (λ th, with_children (ChildEnds (cfirst (child_list th)) (ChildElem t)) th).

(** The search through the list of the running thread [c], from [e] on, for at most [fuel]
    elements; a page that has been used again may lead to the list of another thread. *)
Fixpoint find_child (fuel : nat) (s : kstate) (c : Z) (e : child_pos) (id : Z) : res Z :=
  match e with
  | ChildTail c' => if c' =? c then Ok NULL else Fault BadAccess
  | ChildElem t =>
      match fuel with
      | O => Timeout
      | S fuel => th ← get_thread s t; if tid th =? id then Ok t else find_child fuel s c (cnext (child_elem th)) id
      end
  | ChildNull | ChildHead _ => Fault BadAccess
  end.

Definition thread_get_child (fuel : nat) (s : kstate) (id : Z) : res Z :=
  t ← thread_current s; th ← get_thread s t; find_child fuel s t (cfirst (child_list th)) id.

(** ** Invariants of the scheduler *)

Section scheduler.
Implicit Types (s : kstate) (t : Z) (th : thread).

(** The last link of the list of thread [t] leads to its own head or to some child. *)
Definition children_ok t th : Prop :=
  match clast (child_list th) with ChildHead c => c = t | ChildElem _ => True | _ => False end.

(** What holds of the lists and the threads on them at all times. *)
Record lists_ok s : Prop := {
  lo_ready_nodup : NoDup (ready_list s);
  lo_ready : ∀ t, t ∈ ready_list s →
    t ≠ idle_thread s ∧ ∃ th, threads s !! t = Some th ∧ status th = THREAD_READY;
  lo_ready_in : ∀ t th, threads s !! t = Some th → status th = THREAD_READY →
    t ∈ ready_list s ∨ t = idle_thread s;
  lo_thread : ∀ t th, threads s !! t = Some th → t ≠ NULL ∧ magic th = THREAD_MAGIC ∧ children_ok t th;
  lo_idle : ∃ th, threads s !! idle_thread s = Some th ∧ status th ≠ THREAD_DYING;
  lo_all : NoDup (all_list s) ∧ ∀ t, t ∈ all_list s ↔
    ∃ th, threads s !! t = Some th ∧ status th ≠ THREAD_DYING;
}.

(** While a thread runs: it is the one and only running thread, and no dead
    thread is left but the initial one, whose page is never freed. *)
Record sched_inv s : Prop := {
  si_lists : lists_ok s;
  si_cur : ∃ th, threads s !! cur s = Some th ∧ status th = THREAD_RUNNING;
  si_running : ∀ t th, threads s !! t = Some th → status th = THREAD_RUNNING → t = cur s;
  si_dying : ∀ t th, threads s !! t = Some th → status th = THREAD_DYING → t = initial_thread s;
}.

(** On entry to [schedule]: the current thread has given up the CPU. *)
Record sched_pre s : Prop := {
  sp_lists : lists_ok s;
  sp_intr : intr s = false;
  sp_cur : ∃ th, threads s !! cur s = Some th;
  sp_running : ∀ t th, threads s !! t = Some th → status th ≠ THREAD_RUNNING;
  sp_dying : ∀ t th, threads s !! t = Some th → status th = THREAD_DYING →
    t = initial_thread s ∨ t = cur s;
}.

(** The thread [schedule] switches to. *)
Definition next_of s : Z := default (idle_thread s) (head (ready_list s)).

(** The threads after a switch from the current thread to [next]. *)
Definition switched s (next : Z) : gmap Z thread :=
  let m := alter (with_status THREAD_RUNNING) next (threads s) in
  match threads s !! cur s with
  | Some th =>
      if decide (status th = THREAD_DYING ∧ cur s ≠ initial_thread s)
      then delete (cur s) m else m
  | None => m
  end.

Lemma next_of_thread s :
  sched_pre s → ∃ th, threads s !! next_of s = Some th ∧ status th ≠ THREAD_DYING.
Proof.
  intros [Hl _ _ _ _]. unfold next_of. destruct (ready_list s) as [|t l] eqn:E; simpl.
  - apply (lo_idle _ Hl).
  - destruct (lo_ready _ Hl t) as (_ & th & ? & Hst); [rewrite E; set_solver|].
    exists th. by rewrite Hst.
Qed.

Lemma is_thread_ok s t th : lists_ok s → threads s !! t = Some th → is_thread s t = Ok true.
Proof.
  intros Hl Ht. destruct (lo_thread _ Hl _ _ Ht) as (Hn & Hm & _). unfold is_thread, get_thread.
  rewrite (proj2 (Z.eqb_neq _ _)) by done. mstep. rewrite Ht. mstep. by rewrite Hm, Z.eqb_refl.
Qed.

Lemma alter_insert_Some {A} (f : A → A) (m : gmap Z A) i x :
  m !! i = Some x → alter f i m = <[i := f x]> m.
Proof.
  intros Hi. apply map_eq. intros j. destruct (decide (i = j)) as [->|Hne].
  - by rewrite lookup_alter_eq, lookup_insert_eq, Hi.
  - by rewrite lookup_alter_ne, lookup_insert_ne.
Qed.

Lemma upd_thread_ok s t th f :
  threads s !! t = Some th → upd_thread s t f = Ok (set_threads s (alter f t (threads s))).
Proof.
  intros Ht. unfold upd_thread, get_thread. rewrite Ht. mstep.
  by rewrite (alter_insert_Some _ _ _ _ Ht).
Qed.

(** [thread_schedule_tail] after a switch from [prev], or from no one. *)
Lemma thread_schedule_tail_run s prev th pth :
  intr s = false → threads s !! cur s = Some th →
  prev = NULL ∨ (prev ≠ cur s ∧ threads s !! prev = Some pth) →
  thread_schedule_tail s prev =
    Ok (set_ticks (set_threads s
      (let m := alter (with_status THREAD_RUNNING) (cur s) (threads s) in
       if decide (prev ≠ NULL ∧ status pth = THREAD_DYING ∧ prev ≠ initial_thread s)
       then delete prev m else m)) (idle_ticks s) (kernel_ticks s) (user_ticks s) 0).
Proof.
  intros Hi Hcur Hprev. unfold thread_schedule_tail, running_thread. rewrite Hi. simpl.
  rewrite (upd_thread_ok _ _ _ _ Hcur). mstep. destruct Hprev as [->|[Hne Hprev]].
  - rewrite Z.eqb_refl. mstep. by rewrite decide_False by naive_solver.
  - destruct (Z.eqb_spec prev NULL) as [->|Hn]; mstep.
    { rewrite decide_False by naive_solver. done. }
    unfold get_thread. simpl. rewrite lookup_alter_ne, Hprev by done. mstep.
    destruct (decide (status pth = THREAD_DYING)) as [Hd|Hd].
    + rewrite bool_decide_eq_true_2 by done. mstep.
      destruct (Z.eqb_spec prev (initial_thread s)); mstep.
      * rewrite decide_False by naive_solver. done.
      * rewrite (proj2 (Z.eqb_neq _ _)), decide_True by done. done.
    + rewrite bool_decide_eq_false_2 by done. mstep. rewrite decide_False by naive_solver. done.
Qed.

Lemma schedule_run s :
  sched_pre s →
  schedule s = Ok (KState (switched s (next_of s)) (tail (ready_list s)) (all_list s)
    (idle_thread s) (initial_thread s) (next_of s) false
    (idle_ticks s) (kernel_ticks s) (user_ticks s) 0 (next_tid s)).
Proof.
  intros Hp. destruct (next_of_thread s Hp) as (nth & Hnext & Hnd).
  destruct Hp as [Hl Hi (th & Hcur) Hrun Hdy]. unfold schedule, running_thread.
  assert (next_thread_to_run s = (next_of s, set_ready s (tail (ready_list s)))) as ->.
  { unfold next_thread_to_run, next_of. destruct s as [? l]. by destruct l. }
  simpl. rewrite Hi. simpl. unfold get_thread. simpl. rewrite Hcur. mstep.
  rewrite bool_decide_eq_true_2 by (by apply (Hrun (cur s))).
  change (is_thread (set_ready s (tail (ready_list s)))) with (is_thread s).
  rewrite (is_thread_ok s _ _ Hl Hnext). mstep. unfold switched. rewrite Hcur.
  destruct (lo_thread _ Hl _ _ Hcur) as [Hn _].
  destruct (Z.eqb_spec (cur s) (next_of s)) as [E|E]; simpl negb; cbv iota.
  - rewrite (thread_schedule_tail_run _ _ th th) by (by simpl; auto).
    rewrite !decide_False by (rewrite E in Hcur; naive_solver).
    unfold set_ticks, set_threads. simpl. by rewrite E, Hi.
  - rewrite (thread_schedule_tail_run _ _ nth th) by (by simpl; auto).
    unfold set_ticks, set_threads. simpl. rewrite Hi. do 3 f_equal.
    by rewrite (decide_ext _ (status th = THREAD_DYING ∧ cur s ≠ initial_thread s)) by naive_solver.
Qed.

Lemma switched_lookup s t th' :
  sched_pre s →
  switched s (next_of s) !! t = Some th' ↔
    (t = next_of s ∧ ∃ th, threads s !! t = Some th ∧ th' = with_status THREAD_RUNNING th) ∨
    (t ≠ next_of s ∧ threads s !! t = Some th' ∧
      (status th' = THREAD_DYING → t = initial_thread s)).
Proof.
  intros Hp. destruct (next_of_thread s Hp) as (nth & Hnext & Hnd).
  destruct Hp as [Hl _ (th & Hcur) _ Hdy]. unfold switched. rewrite Hcur.
  case_decide as Hd.
  - rewrite lookup_delete_Some. destruct (decide (t = next_of s)) as [->|Hne].
    + rewrite lookup_alter_eq, Hnext. simpl. split; [naive_solver|].
      intros [(_ & ? & ? & ->)|[? _]]; [|done]. split; [intros E; rewrite E in Hcur|]; naive_solver.
    + rewrite lookup_alter_ne by done. split.
      * intros [Hc Ht]. right. split_and!; [done..|]. intros Hst.
        destruct (Hdy _ _ Ht Hst); [done|]. by destruct Hc.
      * intros [[? _]|(_ & Ht & Hst)]; [done|]. split; [|done]. intros <-. naive_solver.
  - destruct (decide (t = next_of s)) as [->|Hne].
    + rewrite lookup_alter_eq, Hnext. naive_solver.
    + rewrite lookup_alter_ne by done. split; [|naive_solver]. intros Ht. right.
      split_and!; [done..|]. intros Hst. destruct (Hdy _ _ Ht Hst) as [?| ->]; [done|].
      destruct (decide (cur s = initial_thread s)); [done|]. naive_solver.
Qed.

(** [schedule] restores the invariant and runs the head of the run queue, or
    the idle thread when the queue is empty. *)
Lemma schedule_inv s :
  sched_pre s →
  ∃ s', schedule s = Ok s' ∧ sched_inv s' ∧ cur s' = next_of s ∧
    ready_list s' = tail (ready_list s) ∧ intr s' = false ∧
    idle_thread s' = idle_thread s ∧ initial_thread s' = initial_thread s ∧
    threads s' = switched s (next_of s).
Proof.
  intros Hp. pose proof (switched_lookup s) as Hsw. pose proof (next_of_thread s Hp) as (nth & Hnext & Hnd).
  rewrite (schedule_run s Hp). eexists. split; [done|]. split_and!; try done.
  destruct (Hp) as [[Hrn Hr Hri Ht Hid [Han Hal]] _ _ Hrun Hdy].
  assert (∀ t, t ∈ tail (ready_list s) → t ∈ ready_list s ∧ t ≠ next_of s) as Htail.
  { unfold next_of. destruct (ready_list s) as [|x l]; simpl; [set_solver|].
    apply NoDup_cons in Hrn as [??]. intros t Hin. split; [set_solver|]. by intros ->. }
  split; simpl; [split; simpl| | |].
  - destruct (ready_list s); [done|]. by apply NoDup_cons in Hrn as [_ ?].
  - intros t [Hin Hne]%Htail. destruct (Hr t Hin) as (? & th & ? & Hst). split; [done|].
    exists th. split; [|done]. apply Hsw; [done|]. right. rewrite Hst. done.
  - intros t th [(-> & th0 & ? & ->)|(Hne & Hth & _)]%Hsw Hst; [done| |done].
    destruct (Hri _ _ Hth Hst) as [Hin|]; [left|by right].
    unfold next_of in Hne. destruct (ready_list s); set_solver.
  - intros t th [(-> & th0 & Hth & ->)|(Hne & Hth & _)]%Hsw; [by apply (Ht _ th0)|by apply (Ht _ th)|done].
  - destruct Hid as (th & Hth & Hst). destruct (decide (idle_thread s = next_of s)) as [E|E].
    + eexists. split; [apply Hsw; [done|]; left; split; [done|by eexists]|done].
    + exists th. split; [apply Hsw; [done|]; right; done|done].
  - split; [done|]. intros t. rewrite Hal. split.
    + intros (th & Hth & Hst). destruct (decide (t = next_of s)) as [E|E].
      * eexists. split; [apply Hsw; [done|]; left; split; [done|by eexists]|done].
      * exists th. split; [apply Hsw; [done|]; right; done|done].
    + intros (th & [(-> & th0 & Hth & ->)|(Hne & Hth & _)]%Hsw & Hst); [|by eexists|done].
      by exists nth.
  - exists (with_status THREAD_RUNNING nth). split; [|done]. apply Hsw; [done|].
    left. split; [done|]. by exists nth.
  - intros t th [(-> & th0 & Hth & ->)|(Hne & Hth & _)]%Hsw Hst; [done| |done].
    by destruct (Hrun _ _ Hth).
  - intros t th [(-> & th0 & Hth & ->)|(Hne & Hth & Hi)]%Hsw Hst; [done|by apply Hi|done].
Qed.

(** *** Giving up the CPU *)

Definition stat s t : option thread_status := status <$> threads s !! t.

Lemma thread_current_ok s : sched_inv s → thread_current s = Ok (cur s).
Proof.
  intros [Hl (th & Hc & Hst) _ _]. unfold thread_current, running_thread.
  rewrite (is_thread_ok _ _ _ Hl Hc). mstep. unfold get_thread. rewrite Hc. mstep.
  by rewrite bool_decide_eq_true_2.
Qed.

(** The current thread's status changes to [st], and it is put on the run queue
    if it is to run again: the state is ready for [schedule]. *)
Lemma sched_pre_intro s st l al :
  sched_inv s → st ≠ THREAD_RUNNING →
  l = (if decide (st = THREAD_READY ∧ cur s ≠ idle_thread s)
       then ready_list s ++ [cur s] else ready_list s) →
  al = (if decide (st = THREAD_DYING) then filter (λ x, x ≠ cur s) (all_list s) else all_list s) →
  (st = THREAD_DYING → cur s ≠ idle_thread s) →
  sched_pre (set_threads (set_all (set_ready (set_intr s false) l) al)
    (alter (with_status st) (cur s) (threads s))).
Proof.
  intros [[Hrn Hr Hri Ht (ith & Hid & Hids) [Han Hal]] (th & Hc & Hst) Hrun Hdy] Hne -> -> Hdi.
  assert (cur s ∉ ready_list s) as Hnr.
  { intros (_ & th' & ? & ?)%Hr. simplify_eq; congruence. }
  assert (∀ t th', alter (with_status st) (cur s) (threads s) !! t = Some th' →
    (t = cur s ∧ th' = with_status st th) ∨ (t ≠ cur s ∧ threads s !! t = Some th')) as Hlk.
  { intros t th'. destruct (decide (t = cur s)) as [->|Hn].
    - rewrite lookup_alter_eq, Hc. naive_solver.
    - rewrite lookup_alter_ne by done. naive_solver. }
  assert (alter (with_status st) (cur s) (threads s) !! cur s = Some (with_status st th)) as Hcur'
    by (by rewrite lookup_alter_eq, Hc).
  assert (∀ t, t ≠ cur s → alter (with_status st) (cur s) (threads s) !! t = threads s !! t) as Hlk'
    by (intros; by rewrite lookup_alter_ne).
  split; simpl; [split; simpl|done|by eexists| |].
  - case_decide; [|done]. apply NoDup_app. split_and!; [done|set_solver|apply NoDup_singleton].
  - intros t Hin. case_decide as Hd.
    + apply elem_of_app in Hin as [Hin| ->%list_elem_of_singleton].
      * rewrite Hlk' by (by intros ->). by apply Hr.
      * destruct Hd as [-> ?]. split; [done|]. by eexists.
    + rewrite Hlk' by (by intros ->). by apply Hr.
  - intros t th' [[-> ->]|[Hn Hth]]%Hlk Hst'; simpl in *.
    + destruct (decide (cur s = idle_thread s)); [by right|]. left. rewrite decide_True by done. set_solver.
    + destruct (Hri _ _ Hth Hst'); [left|by right]. case_decide; set_solver.
  - intros t th' [[-> ->]|[Hn Hth]]%Hlk; [by apply (Ht _ th)|by apply (Ht _ th')].
  - destruct (decide (idle_thread s = cur s)) as [E|E].
    + rewrite E, Hcur'. eexists. split; [done|]. simpl. intros ->. by apply Hdi.
    + rewrite Hlk' by done. by exists ith.
  - split; [case_decide; [by apply NoDup_filter|done]|]. intros t.
    destruct (decide (t = cur s)) as [->|Hn].
    + rewrite Hcur'. case_decide as Hd; [rewrite list_elem_of_filter|rewrite Hal]; [naive_solver|].
      split; [intros _; by eexists|]. intros _. exists th. by rewrite Hst.
    + rewrite Hlk' by done. case_decide as Hd; [rewrite list_elem_of_filter|]; rewrite Hal; naive_solver.
  - intros t th' [[-> ->]|[Hn Hth]]%Hlk; [done|]. intros ?. destruct Hn. by apply (Hrun _ th').
  - intros t th' [[-> ->]|[Hn Hth]]%Hlk Hst'; [by right|]. left. by apply (Hdy _ th').
Qed.

(** The outcome of a switch away from the current thread of [s], with [rest]
    the run queue when [schedule] looked at it and [st] the status the thread
    is left with. *)
Record gave_up s s' (rest : list Z) (st : option thread_status) : Prop := {
  gu_inv : sched_inv s';
  gu_cur : cur s' = default (idle_thread s) (head rest);
  gu_ready : ready_list s' = tail rest;
  gu_intr : intr s' = false;
  gu_idle : idle_thread s' = idle_thread s;
  gu_initial : initial_thread s' = initial_thread s;
  gu_old : cur s' ≠ cur s → stat s' (cur s) = st;
  gu_other : ∀ t, t ≠ cur s → t ≠ cur s' → stat s' t = stat s t;
}.

Lemma cpu_given_up s st l al :
  sched_inv s → st ≠ THREAD_RUNNING →
  l = (if decide (st = THREAD_READY ∧ cur s ≠ idle_thread s)
       then ready_list s ++ [cur s] else ready_list s) →
  al = (if decide (st = THREAD_DYING) then filter (λ x, x ≠ cur s) (all_list s) else all_list s) →
  (st = THREAD_DYING → cur s ≠ idle_thread s) →
  ∃ s', schedule (set_threads (set_all (set_ready (set_intr s false) l) al)
          (alter (with_status st) (cur s) (threads s))) = Ok s' ∧
    gave_up s s' l (if decide (st = THREAD_DYING ∧ cur s ≠ initial_thread s) then None else Some st).
Proof.
  intros Hinv Hne Hl Hal Hdi. pose proof (sched_pre_intro s st l al Hinv Hne Hl Hal Hdi) as Hp.
  clear Hl Hal. destruct (si_cur _ Hinv) as (th & Hc & _).
  destruct (schedule_inv _ Hp) as (s' & Hrun & Hinv' & Hcur & Hready & Hintr & Hidle & Hinit & Hth).
  exists s'. split; [done|]. pose proof (λ t th', switched_lookup _ t th' Hp) as Hsw.
  rewrite <-Hth, <-Hcur in Hsw. simpl in Hsw, Hcur, Hready, Hidle, Hinit. split; [done..| |].
  - intros Hn. unfold stat. case_decide as Hd.
    + destruct (threads s' !! cur s) as [th'|] eqn:E; [|done].
      apply Hsw in E as [[? _]|(_ & E & Hi)]; [congruence|].
      rewrite lookup_alter_eq, Hc in E. simplify_eq/=. destruct Hd as [-> Hd]. by destruct Hd; apply Hi.
    + assert (threads s' !! cur s = Some (with_status st th)) as ->; [|done].
      apply Hsw. right. rewrite lookup_alter_eq, Hc. split_and!; [congruence|done|].
      simpl. intros ->. destruct (decide (cur s = initial_thread s)); [done|]. naive_solver.
  - intros t Ht Ht'. unfold stat. destruct (threads s !! t) as [th'|] eqn:E.
    + assert (threads s' !! t = Some th') as ->; [|done]. apply Hsw. right.
      rewrite lookup_alter_ne, E by done. split_and!; [done..|].
      intros Hst. by apply (si_dying _ Hinv _ th').
    + destruct (threads s' !! t) as [th'|] eqn:E'; [|done]. apply Hsw in E' as [[? _]|(_ & E' & _)]; [done|].
      rewrite lookup_alter_ne in E' by done. congruence.
Qed.

Lemma set_intr_id s : intr s = false → set_intr s false = s.
Proof. destruct s; simpl. by intros ->. Qed.

Lemma thread_block_ok s :
  sched_inv s → intr s = false →
  ∃ s', thread_block s = Ok s' ∧ gave_up s s' (ready_list s) (Some THREAD_BLOCKED).
Proof.
  intros Hinv Hi. unfold thread_block. rewrite Hi. simpl. rewrite thread_current_ok by done. mstep.
  destruct (si_cur _ Hinv) as (th & Hc & _). rewrite (upd_thread_ok _ _ _ _ Hc). mstep.
  destruct (cpu_given_up s THREAD_BLOCKED (ready_list s) (all_list s) Hinv) as (s' & Hrun & Hg); [done..|].
  exists s'. split; [|done]. rewrite <-Hrun. destruct s; simpl in *. by subst.
Qed.

Lemma thread_yield_ok s :
  sched_inv s →
  ∃ s', thread_yield s = Ok s' ∧
    gave_up s s' (if decide (cur s = idle_thread s) then ready_list s else ready_list s ++ [cur s])
      (Some THREAD_READY).
Proof.
  intros Hinv. unfold thread_yield. rewrite thread_current_ok by done. mstep.
  destruct (si_cur _ Hinv) as (th & Hc & _).
  set (l := if decide (cur s = idle_thread s) then ready_list s else ready_list s ++ [cur s]).
  destruct (cpu_given_up s THREAD_READY l (all_list s) Hinv) as (s' & Hrun & Hg); try done.
  { unfold l. repeat case_decide; naive_solver. }
  exists s'. split; [|done]. rewrite <-Hrun. unfold upd_thread, get_thread.
  rewrite (alter_insert_Some _ _ _ _ Hc). unfold l. simpl.
  destruct (Z.eqb_spec (cur s) (idle_thread s)); simpl; rewrite Hc; mstep;
    [rewrite decide_True by done|rewrite decide_False by done]; by destruct s.
Qed.

Lemma thread_exit_ok s :
  sched_inv s → cur s ≠ idle_thread s →
  ∃ s', thread_exit s = Ok s' ∧
    gave_up s s' (ready_list s)
      (if decide (cur s = initial_thread s) then Some THREAD_DYING else None).
Proof.
  intros Hinv Hne. unfold thread_exit. destruct (si_cur _ Hinv) as (th & Hc & Hst).
  change (thread_current (set_intr s false)) with (thread_current s).
  rewrite thread_current_ok by done. mstep. rewrite bool_decide_eq_true_2; cycle 1.
  { apply (lo_all _ (si_lists _ Hinv)). exists th. by rewrite Hst. }
  cbn [all_list set_intr]. set (al := filter (λ x, x ≠ cur s) (all_list s)).
  change (thread_current (set_all (set_intr s false) al)) with (thread_current s).
  rewrite thread_current_ok by done. mstep.
  rewrite (upd_thread_ok _ _ th) by done. mstep.
  destruct (cpu_given_up s THREAD_DYING (ready_list s) al Hinv) as (s' & Hrun & Hg); try done.
  exists s'. split; [by rewrite <-Hrun|].
  destruct (decide (cur s = initial_thread s)); [rewrite decide_False in Hg by naive_solver
    |rewrite decide_True in Hg by done]; done.
Qed.

Lemma sched_inv_unblock s t th b :
  sched_inv s → threads s !! t = Some th → status th = THREAD_BLOCKED → t ≠ idle_thread s →
  sched_inv (set_intr (set_threads (set_ready s (ready_list s ++ [t]))
    (alter (with_status THREAD_READY) t (threads s))) b).
Proof.
  intros [[Hrn Hr Hri Ht (ith & Hid & Hids) [Han Hal]] (cth & Hc & Hcst) Hrun Hdy] Hth Hst Hne.
  assert (t ∉ ready_list s) as Hnr by (intros (_ & th' & ? & ?)%Hr; simplify_eq; congruence).
  assert (∀ t' th', alter (with_status THREAD_READY) t (threads s) !! t' = Some th' →
    (t' = t ∧ th' = with_status THREAD_READY th) ∨ (t' ≠ t ∧ threads s !! t' = Some th')) as Hlk.
  { intros t' th'. destruct (decide (t' = t)) as [->|Hn].
    - rewrite lookup_alter_eq, Hth. naive_solver.
    - rewrite lookup_alter_ne by done. naive_solver. }
  assert (alter (with_status THREAD_READY) t (threads s) !! t = Some (with_status THREAD_READY th))
    as Hnew by (by rewrite lookup_alter_eq, Hth).
  assert (∀ t', t' ≠ t → alter (with_status THREAD_READY) t (threads s) !! t' = threads s !! t')
    as Hlk' by (intros; by rewrite lookup_alter_ne).
  assert (cur s ≠ t) as Hct by (intros E; rewrite E in Hc; simplify_eq; congruence).
  split; simpl; [split; simpl| | |].
  - apply NoDup_app. split_and!; [done|set_solver|apply NoDup_singleton].
  - intros t' [Hin| ->%list_elem_of_singleton]%elem_of_app.
    + rewrite Hlk' by (by intros ->). by apply Hr.
    + split; [done|]. by eexists.
  - intros t' th' [[-> ->]|[Hn Hth']]%Hlk Hst'; [left; set_solver|].
    destruct (Hri _ _ Hth' Hst'); [left; set_solver|by right].
  - intros t' th' [[-> ->]|[Hn Hth']]%Hlk; [by apply (Ht _ th)|by apply (Ht _ th')].
  - rewrite Hlk' by done. by exists ith.
  - split; [done|]. intros t'. rewrite Hal. destruct (decide (t' = t)) as [->|Hn].
    + rewrite Hnew, Hth. split; intros _; eexists; (split; [done|]); [done|by rewrite Hst].
    + by rewrite Hlk'.
  - rewrite Hlk' by done. by exists cth.
  - intros t' th' [[-> ->]|[Hn Hth']]%Hlk Hst'; [done|]. by apply (Hrun _ th').
  - intros t' th' [[-> ->]|[Hn Hth']]%Hlk Hst'; [done|]. by apply (Hdy _ th').
Qed.

Lemma thread_unblock_ok s t :
  sched_inv s → stat s t = Some THREAD_BLOCKED → t ≠ idle_thread s →
  ∃ s', thread_unblock s t = Ok s' ∧ sched_inv s' ∧ cur s' = cur s ∧ intr s' = intr s ∧
    idle_thread s' = idle_thread s ∧ initial_thread s' = initial_thread s ∧
    ready_list s' = ready_list s ++ [t] ∧ stat s' t = Some THREAD_READY ∧
    (∀ t', t' ≠ t → stat s' t' = stat s t').
Proof.
  intros Hinv Hst Hne. unfold stat in Hst. destruct (threads s !! t) as [th|] eqn:Ht; [|done].
  simplify_eq/=. unfold thread_unblock. rewrite (is_thread_ok _ _ _ (si_lists _ Hinv) Ht). mstep.
  unfold get_thread. simpl. rewrite Ht. mstep. rewrite bool_decide_eq_true_2 by congruence.
  rewrite (upd_thread_ok _ _ th) by done. mstep. eexists. split; [done|].
  split_and!; try done; [| |intros t' Hn; unfold stat; simpl; by rewrite lookup_alter_ne].
  - by apply (sched_inv_unblock s t th (intr s)).
  - unfold stat. simpl. by rewrite lookup_alter_eq, Ht.
Qed.

End scheduler.
