(* ===== verification/Synch.v ===== *)
(** Semaphores, locks and condition variables (src/threads/synch.c, synch.h),
    thread creation and the interleaving of threads.

    A thread's remaining work is a program: a list of calls into the kernel and
    of the parts of calls that are still to be done when the thread next gets
    the CPU.  [exec] runs the first item of the running thread's program; it is
    atomic up to the points where the code lets other threads in, that is where
    interrupts are enabled or the thread blocks.  So [sema_down] is two items:
    disabling interrupts, and one iteration of its loop, which is repeated each
    time the thread is woken; [lock_acquire] is a [sema_down] followed by the
    assignment of the holder, with room for other threads in between.
    [step] adds the timer interrupt, which may strike whenever interrupts are
    enabled, and [sema_up] calls from interrupt handlers. [failed_create] is the one step that is
    not part of it: a creation of a thread that frees the page of the thread again. *)

From S2P Require Import Prelude Vaddr Thread.

(** ** Data *)

(** The semaphores: stand-alone ones, the one inside a lock, and the one on
    the stack of a thread in [cond_wait]. *)
Inductive sema_id := SObj (a : Z) | SLock (lock : Z) | SWaiter (t : Z).

#[export] Instance sema_id_eq_dec : EqDecision sema_id.
Proof. solve_decision. Defined.

#[export] Instance sema_id_countable : Countable sema_id.
Proof.
  apply (inj_countable'
    (λ i, match i with SObj a => (0, a) | SLock a => (1, a) | SWaiter a => (2, a) end)
    (λ p, if p.1 =? 0 then SObj p.2 else if p.1 =? 1 then SLock p.2 else SWaiter p.2)).
  by intros [].
Defined.

Record semaphore := Sema { value : Z; waiters : list Z }.

(** The kernel with its synchronisation objects: the holder of each lock, and
    the semaphores queued on each condition variable. *)
Record sstate := SState {
  ks : kstate;
  semas : gmap sema_id semaphore;
  holders : gmap Z Z;
  conds : gmap Z (list sema_id);
}.

Definition set_ks (σ : sstate) (s : kstate) : sstate :=
  SState s (semas σ) (holders σ) (conds σ).
Definition set_sema (σ : sstate) (i : sema_id) (v : semaphore) : sstate :=
  SState (ks σ) (<[i := v]> (semas σ)) (holders σ) (conds σ).
Definition set_holder (σ : sstate) (l t : Z) : sstate :=
  SState (ks σ) (semas σ) (<[l := t]> (holders σ)) (conds σ).
Definition set_cond (σ : sstate) (c : Z) (ws : list sema_id) : sstate :=
  SState (ks σ) (semas σ) (holders σ) (<[c := ws]> (conds σ)).

Definition get_sema (σ : sstate) (i : sema_id) : res semaphore := deref (semas σ !! i).

(** ** Semaphores *)

Definition sema_init (σ : sstate) (i : sema_id) (v : Z) : sstate := set_sema σ i (Sema v []).

(** One iteration of the loop of [sema_down], with interrupts off: [true] when
    the semaphore was taken, [false] when the thread went to sleep. *)
Definition sema_down_iter (σ : sstate) (i : sema_id) (old_level : bool) : res (bool * sstate) :=
  sema ← get_sema σ i;
  if value sema =? 0 then
    t ← thread_current (ks σ);
    let σ := set_sema σ i (Sema (value sema) (waiters sema ++ [t])) in
    s ← thread_block (ks σ);
    Ok (false, set_ks σ s)
  else
    let σ := set_sema σ i (Sema (u32 (value sema - 1)) (waiters sema)) in
    Ok (true, set_ks σ (set_intr (ks σ) old_level)).

Definition sema_try_down (σ : sstate) (i : sema_id) : res (bool * sstate) :=
  sema ← get_sema σ i;
  if 0 <? value sema
  then Ok (true, set_sema σ i (Sema (u32 (value sema - 1)) (waiters sema)))
  else Ok (false, σ).

Definition sema_up (σ : sstate) (i : sema_id) : res sstate :=
  let old_level := intr (ks σ) in
  let σ := set_ks σ (set_intr (ks σ) false) in
  sema ← get_sema σ i;
  '(σ, sema) ← match waiters sema with
               | [] => Ok (σ, sema)
               | t :: ws =>
                   s ← thread_unblock (ks σ) t;
                   Ok (set_ks σ s, Sema (value sema) ws)
               end;
  let σ := set_sema σ i (Sema (u32 (value sema + 1)) (waiters sema)) in
  Ok (set_ks σ (set_intr (ks σ) old_level)).

(** ** Locks *)

Definition lock_init (σ : sstate) (l : Z) : sstate :=
  sema_init (set_holder σ l NULL) (SLock l) 1.

Definition lock_held_by_current_thread (σ : sstate) (l : Z) : res bool :=
  h ← deref (holders σ !! l); t ← thread_current (ks σ); Ok (h =? t).

(** ** Programs *)

Inductive op :=
| OSemaDown (i : sema_id)
| OSemaWait (i : sema_id) (old_level : bool)
| OSemaTryDown (i : sema_id)
| OSemaUp (i : sema_id)
| OLockAcquire (l : Z)
| OLockTryAcquire (l : Z)
| OSetHolder (l : Z)
| OLockRelease (l : Z)
| OCondWait (c l : Z)
| OCondSignal (c l : Z)
| OCondBroadcast (c l : Z)
| OYield
| OIntrSet (b : bool)
| OCreate (priority : Z) (prog : list op)
| OSetTid (t : Z)
| OCreateFinish (t : Z) (prog : list op)
| OIdle
| OSti
| OExit.

Definition tid_lock : Z := -1.

(** Sizes of the stack frames [thread_create] lays out. *)
Definition kernel_thread_frame_size : Z := 12.
Definition switch_entry_frame_size : Z := 4.
Definition switch_threads_frame_size : Z := 28.

(** The part of [thread_create] after the file descriptor table has been
    allocated. *)
Definition create_finish (σ : sstate) (t : Z) : res sstate :=
  s ← upd_thread (ks σ) t (with_next_fd 2);
  c ← thread_current s;
  s ← push_child s c t;
  '(_, s) ← alloc_frame s t kernel_thread_frame_size;
  '(_, s) ← alloc_frame s t switch_entry_frame_size;
  '(_, s) ← alloc_frame s t switch_threads_frame_size;
  s ← thread_unblock s t;
  Ok (set_ks σ s).

(** The path taken when that allocation fails; [all_list] still leads to the page. *)
Definition create_fail (σ : sstate) (t : Z) : sstate :=
  set_ks σ (palloc_free_thread (ks σ) t).

(** *** The operations

    Each gives the new state and what is left to do of the call. *)

Definition sema_down (σ : sstate) (i : sema_id) : res (sstate * list op) :=
  Ok (set_ks σ (set_intr (ks σ) false), [OSemaWait i (intr (ks σ))]).

Definition lock_acquire (σ : sstate) (l : Z) : res (sstate * list op) :=
  held ← lock_held_by_current_thread σ l;
  ASSERT negb held ;;
  Ok (σ, [OSemaDown (SLock l); OSetHolder l]).

Definition lock_try_acquire (σ : sstate) (l : Z) : res (sstate * list op) :=
  held ← lock_held_by_current_thread σ l;
  ASSERT negb held ;;
  '(success, σ) ← sema_try_down σ (SLock l);
  Ok (σ, if success : bool then [OSetHolder l] else []).

Definition lock_release (σ : sstate) (l : Z) : res (sstate * list op) :=
  held ← lock_held_by_current_thread σ l;
  ASSERT held ;;
  Ok (set_holder σ l NULL, [OSemaUp (SLock l)]).

Definition cond_wait (σ : sstate) (c l : Z) : res (sstate * list op) :=
  held ← lock_held_by_current_thread σ l;
  ASSERT held ;;
  t ← thread_current (ks σ);
  ws ← deref (conds σ !! c);
  let σ := sema_init σ (SWaiter t) 0 in
  let σ := set_cond σ c (ws ++ [SWaiter t]) in
  Ok (σ, [OLockRelease l; OSemaDown (SWaiter t); OLockAcquire l]).

Definition cond_signal (σ : sstate) (c l : Z) : res (sstate * list op) :=
  held ← lock_held_by_current_thread σ l;
  ASSERT held ;;
  ws ← deref (conds σ !! c);
  match ws with
  | [] => Ok (σ, [])
  | w :: ws => Ok (set_cond σ c ws, [OSemaUp w])
  end.

Definition cond_broadcast (σ : sstate) (c l : Z) : res (sstate * list op) :=
  ws ← deref (conds σ !! c);
  match ws with
  | [] => Ok (σ, [])
  | _ :: _ => Ok (σ, [OCondSignal c l; OCondBroadcast c l])
  end.

(** [page] is what [palloc_get_page] returns. *)
Definition thread_create (page : option Z) (σ : sstate) (priority : Z) (prog : list op)
    : res (sstate * list op) :=
  match page with
  | None => Ok (σ, [])
  | Some t =>
      s ← init_thread (ks σ) t priority;
      Ok (set_ks σ s,
          [OLockAcquire tid_lock; OSetTid t; OLockRelease tid_lock; OCreateFinish t prog])
  end.

(** One round of the loop of [idle]; it goes on with [sti; hlt] when it is
    scheduled again. *)
Definition idle (σ : sstate) : res (sstate * list op) :=
  s ← thread_block (set_intr (ks σ) false); Ok (set_ks σ s, [OSti; OIdle]).

(** The first item of the running thread's program. *)
Definition exec (page : option Z) (o : op) (σ : sstate) : res (sstate * list op) :=
  match o with
  | OSemaDown i => sema_down σ i
  | OSemaWait i old_level =>
      '(taken, σ) ← sema_down_iter σ i old_level;
      Ok (σ, if taken : bool then [] else [OSemaWait i old_level])
  | OSemaTryDown i => '(_, σ) ← sema_try_down σ i; Ok (σ, [])
  | OSemaUp i => σ ← sema_up σ i; Ok (σ, [])
  | OLockAcquire l => lock_acquire σ l
  | OLockTryAcquire l => lock_try_acquire σ l
  | OSetHolder l => t ← thread_current (ks σ); Ok (set_holder σ l t, [])
  | OLockRelease l => lock_release σ l
  | OCondWait c l => cond_wait σ c l
  | OCondSignal c l => cond_signal σ c l
  | OCondBroadcast c l => cond_broadcast σ c l
  | OYield => s ← thread_yield (ks σ); Ok (set_ks σ s, [OIntrSet (intr (ks σ))])
  | OIntrSet b => Ok (set_ks σ (set_intr (ks σ) b), [])
  | OCreate priority prog => thread_create page σ priority prog
  | OSetTid t =>
      let '(n, s) := take_tid (ks σ) in
      s ← upd_thread s t (with_tid n); Ok (set_ks σ s, [])
  | OCreateFinish t _ => σ ← create_finish σ t; Ok (σ, [])
  | OIdle => idle σ
  | OSti => Ok (set_ks σ (set_intr (ks σ) true), [])
  | OExit => s ← thread_exit (ks σ); Ok (set_ks σ s, [])
  end.

Tactic Notation "exec_cbn" :=
  cbv beta iota zeta delta [exec sema_down lock_acquire lock_try_acquire lock_release cond_wait cond_signal
       cond_broadcast thread_create idle take_tid].
Tactic Notation "exec_cbn" "in" hyp(H) :=
  cbv beta iota zeta delta [exec sema_down lock_acquire lock_try_acquire lock_release cond_wait cond_signal
       cond_broadcast thread_create idle take_tid] in H.

(** ** Interleaving *)

Definition config : Type := sstate * gmap Z (list op).

(** The programs after the running thread [c] has executed [o], leaving [p]: a
    thread that exits has none, and a new thread starts by enabling interrupts
    ([kernel_thread]) and exits when its function returns. *)
Definition next_progs (P : gmap Z (list op)) (c : Z) (o : op) (p : list op) : gmap Z (list op) :=
  match o with
  | OExit => delete c P
  | OCreateFinish t prog => <[t := OIntrSet true :: prog ++ [OExit]]> (<[c := p]> P)
  | _ => <[c := p]> P
  end.

(** The timer interrupt, and the yield on the way out of it. *)
Definition timer_interrupt (σ : sstate) : res (sstate * bool) :=
  '(s, yield_on_return) ← thread_tick (set_intr (ks σ) false);
  if yield_on_return : bool then
    s ← thread_yield s; Ok (set_ks σ s, true)
  else Ok (set_ks σ (set_intr s true), false).

(** A step of the kernel other than the one below. *)
Inductive step : config → config → Prop :=
| step_op σ P page o p σ' k :
    P !! cur (ks σ) = Some (o :: p) →
    (∀ t, page = Some t → t ≠ NULL ∧ threads (ks σ) !! t = None) →
    exec page o σ = Ok (σ', k) →
    step (σ, P) (σ', next_progs P (cur (ks σ)) o (k ++ p))
| step_timer σ P p σ' y :
    intr (ks σ) = true → P !! cur (ks σ) = Some p →
    timer_interrupt σ = Ok (σ', y) →
    step (σ, P) (σ', if y : bool then <[cur (ks σ) := OIntrSet true :: p]> P else P)
| step_intr_up σ P i σ' :
    intr (ks σ) = true → is_Some (semas σ !! i) → (∀ l, i ≠ SLock l) →
    sema_up (set_ks σ (set_intr (ks σ) false)) i = Ok σ' →
    step (σ, P) (set_ks σ' (set_intr (ks σ') true), P).

(** The last part of [thread_create] when there are no pages for the file descriptor table: the
    page of the new thread is freed and the call returns [TID_ERROR]. [all_list] is left with a
    link into the freed page; so the states after such a step are looked at on their own. *)
Inductive failed_create : config → config → Prop :=
| step_create_fail σ P t prog p :
    P !! cur (ks σ) = Some (OCreateFinish t prog :: p) →
    failed_create (σ, P) (create_fail σ t, <[cur (ks σ) := p]> P).

(** ** Who waits for what *)

(** The semaphore a program is waiting for: the rest of a [sema_down] is the
    next thing it does, once interrupts are as they were. *)
Fixpoint wait_on (p : list op) : option sema_id :=
  match p with
  | OIntrSet _ :: p => wait_on p
  | OSemaWait i _ :: _ => Some i
  | _ => None
  end.

(** What matters of a configuration for waiting: the status of each thread, the
    idle thread, the queue and value of each semaphore, and the programs. *)
Record view := View {
  vst : Z → option thread_status;
  vidle : Z;
  vW : sema_id → list Z;
  vV : sema_id → Z;
  vP : gmap Z (list op);
}.

Definition view_of (c : config) : view :=
  View (stat (ks c.1)) (idle_thread (ks c.1))
    (λ i, from_option waiters [] (semas c.1 !! i))
    (λ i, from_option value 0 (semas c.1 !! i)) c.2.

Definition vH (v : view) (t : Z) : option sema_id := vP v !! t ≫= wait_on.

(** The threads that have been woken for [i] and have not run yet. *)
Definition woken (v : view) (i : sema_id) : gset Z :=
  dom (filter (λ kv, wait_on kv.2 = Some i ∧ kv.1 ∉ vW v i) (vP v)).

Record vinv (v : view) : Prop := {
  vi_waiter : ∀ i t, t ∈ vW v i → vst v t = Some THREAD_BLOCKED ∧ vH v t = Some i;
  vi_nodup : ∀ i, NoDup (vW v i);
  vi_blocked : ∀ i t, vst v t = Some THREAD_BLOCKED → vH v t = Some i → t ∈ vW v i;
  vi_idle : vH v (vidle v) = None;
  vi_woken : ∀ i, vW v i ≠ [] → vV v i ≤ Z.of_nat (size (woken v i));
  vi_nonneg : ∀ i, 0 ≤ vV v i;
}.

Section views.
Implicit Types (v : view) (t : Z) (i : sema_id).

Lemma elem_of_woken v i t : t ∈ woken v i ↔ vH v t = Some i ∧ t ∉ vW v i.
Proof.
  unfold woken, vH. rewrite elem_of_dom. unfold is_Some. setoid_rewrite map_lookup_filter_Some. simpl.
  rewrite bind_Some. naive_solver.
Qed.

Lemma vi_not_idle v i t : vinv v → t ∈ vW v i → t ≠ vidle v.
Proof. intros Hv Ht ->. destruct (vi_waiter _ Hv _ _ Ht) as [_ H]. by rewrite (vi_idle _ Hv) in H. Qed.

(** A step that changes no queue. *)
Lemma vinv_keep v v' :
  vinv v → vidle v' = vidle v → (∀ i, vW v' i = vW v i) →
  (∀ t, t ≠ vidle v → vst v t = Some THREAD_BLOCKED → vH v t ≠ None →
    vst v' t = Some THREAD_BLOCKED ∧ vH v' t = vH v t) →
  (∀ t, t ≠ vidle v → vst v' t = Some THREAD_BLOCKED → vH v' t ≠ None →
    vst v t = Some THREAD_BLOCKED ∧ vH v t = vH v' t) →
  vH v' (vidle v) = None →
  (∀ i, vW v i ≠ [] → vV v' i ≤ vV v i - Z.of_nat (size (woken v i ∖ woken v' i))) →
  (∀ i, 0 ≤ vV v' i) → vinv v'.
Proof.
  intros Hv Hid HW Hst Hst' Hidle Hval Hnn. split.
  - intros i t. rewrite HW. intros Ht. pose proof (vi_not_idle _ _ _ Hv Ht).
    destruct (vi_waiter _ Hv _ _ Ht) as [Hb Hw].
    destruct (Hst t) as [Hb' Hw']; [done..|by rewrite Hw|]. split; [done|congruence].
  - intros i. rewrite HW. apply Hv.
  - intros i t Hb Hw. rewrite HW. destruct (decide (t = vidle v)) as [->|Hne]; [congruence|].
    destruct (Hst' t) as [? ?]; [done..|by rewrite Hw|]. apply Hv; [done|congruence].
  - by rewrite Hid.
  - intros i Hi. rewrite HW in Hi. pose proof (vi_woken _ Hv i Hi). pose proof (Hval i Hi).
    assert (size (woken v i) ≤ size (woken v i ∖ woken v' i) + size (woken v' i))%nat; [|lia].
    rewrite <-size_union by set_solver. apply subseteq_size.
    intros x Hx. destruct (decide (x ∈ woken v' i)); set_solver.
  - done.
Qed.

Lemma woken_diff_nil v v' i :
  (∀ t, vH v t = Some i → t ∉ vW v i → vH v' t = Some i ∧ t ∉ vW v' i) →
  size (woken v i ∖ woken v' i) = 0%nat.
Proof.
  intros H. apply size_empty_iff. intros t. rewrite elem_of_difference, !elem_of_woken. set_solver.
Qed.

End views.

(** ** Programs that can occur *)

(** What a thread function may do. *)
Fixpoint user_op (o : op) : bool :=
  match o with
  | OSemaDown (SObj _) | OSemaTryDown (SObj _) | OSemaUp (SObj _) => true
  | OLockAcquire _ | OLockTryAcquire _ | OLockRelease _ => true
  | OCondWait _ _ | OCondSignal _ _ | OCondBroadcast _ _ => true
  | OYield | OIntrSet _ => true
  | OCreate _ prog => forallb user_op prog
  | _ => false
  end.

(** What can stand in the program of thread [t]: calls it makes and the rest of
    calls it is in.  Only [t] itself waits on the semaphore on its stack. *)
Definition item_ok (t : Z) (o : op) : bool :=
  match o with
  | OSemaDown (SWaiter t') | OSemaWait (SWaiter t') _ => t' =? t
  | OSemaDown (SLock _) | OSemaWait _ _ | OSemaUp _ | OSetHolder _ | OSetTid _ => true
  | OCreateFinish _ prog => forallb user_op prog
  | o => user_op o
  end.

(** The program of a thread: such items, then the exit when its function
    returns. *)
Definition body_ok (t : Z) (p : list op) : Prop :=
  ∃ b, p = b ++ [OExit] ∧ Forall (item_ok t) b.

Definition idle_item (o : op) : bool :=
  match o with OIdle | OSti | OIntrSet _ => true | _ => false end.

(** The threads a program is in the middle of creating. *)
Definition born (p : list op) : list Z :=
  omap (λ o, match o with OCreateFinish t _ => Some t | _ => None end) p.

Definition tids (p : list op) : list Z :=
  omap (λ o, match o with OSetTid t => Some t | _ => None end) p.

(** A thread gets its identifier before it is started. *)
Fixpoint tids_ok (p : list op) : Prop :=
  match p with
  | [] => True
  | o :: p' => tids p ⊆ born p ∧ tids_ok p'
  end.

Record pinv (st : Z → option thread_status) (idle : Z) (P : gmap Z (list op)) : Prop := {
  pi_idle : ∃ p, P !! idle = Some p ∧ Forall idle_item p ∧ last p = Some OIdle;
  pi_items : ∀ t p, P !! t = Some p → t ≠ idle → body_ok t p;
  pi_live : ∀ t p, P !! t = Some p → ∃ s, st t = Some s ∧ s ≠ THREAD_DYING;
  pi_has : ∀ t, st t = Some THREAD_RUNNING ∨ st t = Some THREAD_READY → is_Some (P !! t);
  pi_born : ∀ c p t, P !! c = Some p → t ∈ born p → st t = Some THREAD_BLOCKED ∧ P !! t = None;
  pi_born_nodup : ∀ c p, P !! c = Some p → NoDup (born p);
  pi_born_disj : ∀ c c' p p' t, P !! c = Some p → P !! c' = Some p' →
    t ∈ born p → t ∈ born p' → c = c';
  pi_tids : ∀ c p, P !! c = Some p → tids_ok p;
}.

Section programs.
Implicit Types (t c : Z) (p q : list op) (P : gmap Z (list op)) (st : Z → option thread_status).

Lemma wait_on_item t p i : body_ok t p → wait_on p = Some (SWaiter i) → i = t.
Proof.
  intros (b & -> & Hb). induction Hb as [|o p Ho Hp IH]; [done|]. destruct o; try done; simpl.
  intros [= ->]. simpl in Ho. destruct (Z.eqb_spec i t); [done|]. by destruct Ho.
Qed.

Lemma wait_on_idle p : Forall idle_item p → wait_on p = None.
Proof. induction 1 as [|o p Ho Hp IH]; [done|]. by destruct o. Qed.

Lemma user_item t o : user_op o = true → item_ok t o = true.
Proof. destruct o as [[]|[]|[]|[]| | | | | | | | | | | | | | |]; done. Qed.

Lemma user_items t p : forallb user_op p = true → Forall (item_ok t) p.
Proof.
  intros Hp. apply Forall_forall. intros o Ho. apply Is_true_true, user_item.
  rewrite forallb_forall in Hp. apply Hp. by apply list_elem_of_In.
Qed.

Lemma user_born p : forallb user_op p = true → born p = [] ∧ tids p = [].
Proof.
  induction p as [|o p IH]; [done|]. simpl. intros [Ho Hp]%andb_true_iff.
  destruct (IH Hp) as [E1 E2]. unfold born, tids in *. simpl. by destruct o; rewrite ?E1, ?E2.
Qed.

(** The running thread [c] moves on to the program [q]; the other programs and
    the threads without a program stay as they are. *)
Lemma pinv_set st st' idle P c p q :
  pinv st idle P → P !! c = Some p →
  (if decide (c = idle) then Forall idle_item q ∧ last q = Some OIdle
   else body_ok c q) →
  born q = born p → tids_ok q →
  (∀ t, P !! t = None → st' t = st t) →
  (∀ t, is_Some (P !! t) → ∃ s, st' t = Some s ∧ s ≠ THREAD_DYING) →
  pinv st' idle (<[c := q]> P).
Proof.
  intros HP Hc Hq Hb Ht Hst Hlive.
  assert (∀ t r, <[c := q]> P !! t = Some r →
    (t = c ∧ r = q) ∨ (t ≠ c ∧ P !! t = Some r)) as Hlk.
  { intros t r. rewrite lookup_insert_Some. naive_solver. }
  assert (∀ t r, <[c := q]> P !! t = Some r → ∃ r', P !! t = Some r' ∧ born r = born r' ∧ tids_ok r)
    as Hold by (intros t r [[-> ->]|[_ ?]]%Hlk; eauto using pi_tids).
  assert (∀ t, P !! t = None → <[c := q]> P !! t = None) as Hnone.
  { intros t Hn. rewrite lookup_insert_ne; [done|]. intros ->. congruence. }
  split.
  - destruct (decide (idle = c)) as [->|Hne].
    + exists q. rewrite lookup_insert_eq. rewrite decide_True in Hq by done. done.
    + rewrite lookup_insert_ne by done. apply HP.
  - intros t r [[-> ->]|[Hne Hr]]%Hlk Hti; [by rewrite decide_False in Hq|]. by apply (pi_items _ _ _ HP).
  - intros t r (r' & Hr & _)%Hold. apply Hlive. by eexists.
  - intros t Hs. destruct (P !! t) as [r|] eqn:E.
    + rewrite lookup_insert_is_Some'. eauto.
    + rewrite Hst in Hs by done. apply (pi_has _ _ _ HP) in Hs as [? ?]. congruence.
  - intros c' r t (r' & Hr & E & _)%Hold. rewrite E. intros Hin.
    destruct (pi_born _ _ _ HP _ _ _ Hr Hin). split; [by rewrite Hst|by apply Hnone].
  - intros c' r (r' & Hr & E & _)%Hold. rewrite E. by apply (pi_born_nodup _ _ _ HP _ _ Hr).
  - intros c1 c2 r1 r2 t (r1' & Hr1 & E1 & _)%Hold (r2' & Hr2 & E2 & _)%Hold.
    rewrite E1, E2. by apply (pi_born_disj _ _ _ HP).
  - by intros c' r (r' & _ & _ & ?)%Hold.
Qed.

(** The running thread exits. *)
Lemma pinv_exit st st' idle P c p :
  pinv st idle P → P !! c = Some p → c ≠ idle → born p = [] →
  (∀ t, P !! t = None → st' t = st t) →
  (st' c ≠ Some THREAD_RUNNING ∧ st' c ≠ Some THREAD_READY) →
  (∀ t, is_Some (P !! t) → t ≠ c → ∃ s, st' t = Some s ∧ s ≠ THREAD_DYING) →
  pinv st' idle (delete c P).
Proof.
  intros HP Hc Hci Hb Hst Hdead Hlive.
  assert (∀ t r, delete c P !! t = Some r → t ≠ c ∧ P !! t = Some r) as Hlk.
  { intros t r. rewrite lookup_delete_Some. naive_solver. }
  split.
  - destruct (pi_idle _ _ _ HP) as (r & Hr & ?). exists r. by rewrite lookup_delete_ne.
  - intros t r [_ Hr]%Hlk. by apply (pi_items _ _ _ HP t r).
  - intros t r [Hne Hr]%Hlk. apply Hlive; [by eexists|done].
  - intros t Hs. destruct (decide (t = c)) as [->|Hne]; [naive_solver|].
    rewrite lookup_delete_ne by done. destruct (P !! t) as [r|] eqn:E; [by eexists|].
    rewrite Hst in Hs by done. apply (pi_has _ _ _ HP) in Hs as [? ?]. congruence.
  - intros c' r t [_ Hr]%Hlk Hin. destruct (pi_born _ _ _ HP _ _ _ Hr Hin) as [Hs Hn].
    rewrite lookup_delete_None. split; [by rewrite Hst|by right].
  - intros c' r [_ Hr]%Hlk. by apply (pi_born_nodup _ _ _ HP _ _ Hr).
  - intros c1 c2 r1 r2 t [_ Hr1]%Hlk [_ Hr2]%Hlk. by apply (pi_born_disj _ _ _ HP c1 c2 r1 r2 t).
  - intros c' r [_ Hr]%Hlk. by apply (pi_tids _ _ _ HP c' r).
Qed.

(** The running thread [c] starts to create [t0]. *)
Lemma pinv_create st st' idle P c p q t0 :
  pinv st idle P → P !! c = Some p → c ≠ idle →
  body_ok c q →
  born q = t0 :: born p → tids_ok q → st t0 = None →
  st' t0 = Some THREAD_BLOCKED → (∀ t, t ≠ t0 → st' t = st t) →
  pinv st' idle (<[c := q]> P).
Proof.
  intros HP Hc Hci Hq Hb Ht Hfresh Hnew Hst.
  assert (P !! t0 = None) as HPt0.
  { destruct (P !! t0) as [r|] eqn:E; [|done].
    destruct (pi_live _ _ _ HP _ _ E) as (? & ? & _). congruence. }
  assert (∀ c' r, P !! c' = Some r → t0 ∉ born r) as Hnb.
  { intros c' r Hr Hin. destruct (pi_born _ _ _ HP _ _ _ Hr Hin). congruence. }
  assert (∀ t r, <[c := q]> P !! t = Some r → (t = c ∧ r = q) ∨ (t ≠ c ∧ P !! t = Some r)) as Hlk.
  { intros t r. rewrite lookup_insert_Some. naive_solver. }
  assert (∀ t, P !! t = None → <[c := q]> P !! t = None) as Hnone.
  { intros t Hn. rewrite lookup_insert_ne; [done|]. intros ->. congruence. }
  split.
  - destruct (pi_idle _ _ _ HP) as (r & Hr & ?). exists r. by rewrite lookup_insert_ne.
  - intros t r [[-> ->]|[Hne Hr]]%Hlk Hti; [done|]. by apply (pi_items _ _ _ HP).
  - intros t r Hr. assert (is_Some (P !! t)) as [r' Hr'] by (apply Hlk in Hr as [[-> _]|[_ ?]]; eauto).
    rewrite Hst by congruence. by apply (pi_live _ _ _ HP _ _ Hr').
  - intros t Hs. rewrite lookup_insert_is_Some'. right.
    rewrite Hst in Hs by (intros ->; naive_solver). by apply (pi_has _ _ _ HP).
  - intros c' r t Hr Hin. assert (t = t0 ∨ ∃ c'' r'', P !! c'' = Some r'' ∧ t ∈ born r'') as [->|(c'' & r'' & Hr'' & Hin'')].
    { apply Hlk in Hr as [[-> ->]|[_ Hr]]; [rewrite Hb in Hin|]; set_solver. }
    + split; [done|by apply Hnone].
    + destruct (pi_born _ _ _ HP _ _ _ Hr'' Hin''). rewrite Hst by congruence. split; [done|by apply Hnone].
  - intros c' r [[-> ->]|[Hne Hr]]%Hlk; [rewrite Hb; apply NoDup_cons; split; [by apply (Hnb c)|]|];
      by eapply (pi_born_nodup _ _ _ HP).
  - intros c1 c2 r1 r2 t [[-> ->]|[Hne1 Hr1]]%Hlk [[-> ->]|[Hne2 Hr2]]%Hlk Hin1 Hin2; [done| | |].
    + rewrite Hb in Hin1. apply elem_of_cons in Hin1 as [->|Hin1]; [by destruct (Hnb _ _ Hr2)|].
      by apply (pi_born_disj _ _ _ HP c c2 _ _ t Hc Hr2).
    + rewrite Hb in Hin2. apply elem_of_cons in Hin2 as [->|Hin2]; [by destruct (Hnb _ _ Hr1)|].
      by apply (pi_born_disj _ _ _ HP c1 c _ _ t Hr1 Hc).
    + by apply (pi_born_disj _ _ _ HP c1 c2 _ _ t Hr1 Hr2).
  - intros c' r [[-> ->]|[Hne Hr]]%Hlk; [done|]. by apply (pi_tids _ _ _ HP c' r).
Qed.

(** The running thread [c] finishes the creation of [t0]. *)
Lemma pinv_finish st st' idle P c p q t0 r0 :
  pinv st idle P → P !! c = Some p → c ≠ idle →
  body_ok c q → born p = t0 :: born q → tids_ok q →
  body_ok t0 r0 → born r0 = [] → tids_ok r0 →
  st' t0 = Some THREAD_READY → (∀ t, t ≠ t0 → st' t = st t) →
  pinv st' idle (<[t0 := r0]> (<[c := q]> P)).
Proof.
  intros HP Hc Hci Hq Hb Ht Hr0 Hb0 Ht0 Hnew Hst.
  assert (t0 ∈ born p) as Hin0 by (rewrite Hb; set_solver).
  destruct (pi_born _ _ _ HP _ _ _ Hc Hin0) as [Hs0 HPt0].
  assert (NoDup (t0 :: born q)) as [Htb Hnd]%NoDup_cons by (rewrite <-Hb; by eapply (pi_born_nodup _ _ _ HP)).
  assert (∀ t r, <[t0 := r0]> (<[c := q]> P) !! t = Some r →
    (t = t0 ∧ r = r0) ∨ (t ≠ t0 ∧ ∃ r', P !! t = Some r' ∧ born r ⊆ born r' ∧ tids_ok r ∧
      NoDup (born r) ∧ t0 ∉ born r ∧ (t = c ∧ r = q ∨ t ≠ c ∧ r = r'))) as Hlk.
  { intros t r. rewrite !lookup_insert_Some. intros [[? ?]|[Hne [[? ?]|[Hnc Hr]]]]; simplify_eq; [by left| |].
    - right. split; [done|]. exists p. rewrite Hb. split_and!; try done; [set_solver|by left].
    - right. split; [done|]. exists r. split_and!; try done; [by eapply (pi_tids _ _ _ HP)|by eapply (pi_born_nodup _ _ _ HP)| |by right].
      intros Hin. by apply Hnc, (pi_born_disj _ _ _ HP c t _ _ t0 Hc Hr). }
  split.
  - destruct (pi_idle _ _ _ HP) as (r & Hr & ?). exists r.
    rewrite !lookup_insert_ne by congruence. done.
  - intros t r [[-> ->]|(Hne & r' & Hr & _ & _ & _ & _ & [[-> ->]|[_ ->]])]%Hlk Hti; [done..|].
    by apply (pi_items _ _ _ HP).
  - intros t r [[-> ->]|(Hne & r' & Hr & _)]%Hlk; [by eexists|]. rewrite Hst by done.
    by apply (pi_live _ _ _ HP _ _ Hr).
  - intros t Hs. rewrite !lookup_insert_is_Some'. destruct (decide (t = t0)) as [->|Hne]; [by left|].
    right. right. rewrite Hst in Hs by done. by apply (pi_has _ _ _ HP).
  - intros c' r t [[-> ->]|(Hne & r' & Hr & Hsub & _ & _ & Hnt & _)]%Hlk Hin; [rewrite Hb0 in Hin; set_solver|].
    destruct (pi_born _ _ _ HP _ _ _ Hr (Hsub _ Hin)) as [Hs Hn].
    assert (t ≠ t0) by (by intros ->). rewrite Hst by done. split; [done|].
    rewrite lookup_insert_ne by done. rewrite lookup_insert_ne; [done|]. congruence.
  - intros c' r [[-> ->]|(_ & r' & _ & _ & _ & ? & _)]%Hlk; [rewrite Hb0; constructor|done].
  - intros c1 c2 r1 r2 t [[-> ->]|(_ & r1' & Hr1 & Hs1 & _)]%Hlk
      [[-> ->]|(_ & r2' & Hr2 & Hs2 & _)]%Hlk Hi1 Hi2;
      [rewrite ?Hb0 in *; set_solver..|].
    apply (pi_born_disj _ _ _ HP c1 c2 r1' r2' t Hr1 Hr2); auto.
  - by intros c' r [[-> ->]|(_ & r' & _ & _ & ? & _)]%Hlk.
Qed.

End programs.

(** ** The invariant of the whole system *)

Record inv (c : config) : Prop := {
  inv_sched : sched_inv (ks c.1);
  inv_view : vinv (view_of c);
  inv_prog : pinv (stat (ks c.1)) (idle_thread (ks c.1)) c.2;
}.

Section invariant.
Implicit Types (σ : sstate) (s : kstate) (t : Z) (p q : list op) (P : gmap Z (list op)) (i : sema_id).

Lemma sched_inv_ext s s' :
  threads s' = threads s → ready_list s' = ready_list s → all_list s' = all_list s →
  idle_thread s' = idle_thread s → initial_thread s' = initial_thread s → cur s' = cur s →
  sched_inv s → sched_inv s'.
Proof.
  intros Et Er Ea Ei Ein Ec [[Hrn Hr Hri Ht Hid Hal] Hc Hrun Hdy].
  split; [split|..]; by rewrite ?Et, ?Er, ?Ea, ?Ei, ?Ein, ?Ec.
Qed.

(** Changes to a thread other than to its status and magic number. *)
Lemma sched_inv_upd s t th (f : thread → thread) :
  threads s !! t = Some th → status (f th) = status th → magic (f th) = magic th → (children_ok t th → children_ok t (f th)) →
  sched_inv s → sched_inv (set_threads s (alter f t (threads s))).
Proof.
  intros Hth Est Em Ech [[Hrn Hr Hri Ht Hid [Han Hal]] Hc Hrun Hdy].
  assert (∀ t' th', threads s !! t' = Some th' →
    ∃ th'', alter f t (threads s) !! t' = Some th'' ∧ status th'' = status th' ∧ magic th'' = magic th') as Hfw.
  { intros t' th' Ht'. destruct (decide (t' = t)) as [->|Hne].
    - rewrite lookup_alter_eq, Hth. simplify_eq. by eexists.
    - rewrite lookup_alter_ne by done. by eexists. }
  assert (∀ t' th', alter f t (threads s) !! t' = Some th' →
    ∃ th'', threads s !! t' = Some th'' ∧ status th' = status th'' ∧ magic th' = magic th'' ∧ (children_ok t' th'' → children_ok t' th')) as Hbw.
  { intros t' th'. destruct (decide (t' = t)) as [->|Hne].
    - rewrite lookup_alter_eq, Hth. intros [= <-]. by eexists.
    - rewrite lookup_alter_ne by done. by eexists. }
  split; [split|..]; simpl; try done.
  - intros t' Hin. destruct (Hr t' Hin) as (? & th' & H' & ?). split; [done|].
    destruct (Hfw _ _ H') as (th'' & ? & ? & ?). exists th''. split; congruence.
  - intros t' th' (th'' & H'' & E & _)%Hbw Hst. apply (Hri _ th''); congruence.
  - intros t' th' (th'' & H'' & _ & E & Hch)%Hbw. rewrite E. destruct (Ht _ _ H'') as (? & ? & ?). auto.
  - destruct Hid as (th' & H' & Hst). destruct (Hfw _ _ H') as (th'' & ? & E & _).
    exists th''. by rewrite E.
  - split; [done|]. intros t'. rewrite Hal. split.
    + intros (th' & H' & Hst). destruct (Hfw _ _ H') as (th'' & ? & E & _). exists th''. by rewrite E.
    + intros (th' & (th'' & ? & E & _)%Hbw & Hst). exists th''. by rewrite <-E.
  - destruct Hc as (th' & H' & Hst). destruct (Hfw _ _ H') as (th'' & ? & E & _). exists th''. by rewrite E.
  - intros t' th' (th'' & H'' & E & _)%Hbw Hst. apply (Hrun _ th''); congruence.
  - intros t' th' (th'' & H'' & E & _)%Hbw Hst. apply (Hdy _ th''); congruence.
Qed.

Lemma stat_upd s t th (f : thread → thread) t' :
  threads s !! t = Some th → status (f th) = status th →
  stat (set_threads s (alter f t (threads s))) t' = stat s t'.
Proof.
  intros Hth Est. unfold stat. simpl. destruct (decide (t' = t)) as [->|Hne].
  - rewrite lookup_alter_eq, Hth. simpl. by rewrite Est.
  - by rewrite lookup_alter_ne.
Qed.

(** What may replace the program [p] of the running thread [c]. *)
Definition next_ok (idle c : Z) (p q : list op) : Prop :=
  (if decide (c = idle) then Forall idle_item q ∧ last q = Some OIdle
   else body_ok c q) ∧
  born q = born p ∧ tids_ok q.

Lemma cur_running c : inv c → stat (ks c.1) (cur (ks c.1)) = Some THREAD_RUNNING.
Proof.
  intros [[_ (th & Hth & Hst) _ _] _ _]. unfold stat. by rewrite Hth; simpl; rewrite Hst.
Qed.

(** A step in which no thread changes status or queue. *)
Lemma inv_quiet σ σ' P p q :
  inv (σ, P) → P !! cur (ks σ) = Some p → sched_inv (ks σ') →
  (∀ t, stat (ks σ') t = stat (ks σ) t) → idle_thread (ks σ') = idle_thread (ks σ) →
  (∀ i, from_option waiters [] (semas σ' !! i) = from_option waiters [] (semas σ !! i)) →
  (∀ i, 0 ≤ from_option value 0 (semas σ' !! i)) →
  (∀ i, vW (view_of (σ, P)) i ≠ [] →
    from_option value 0 (semas σ' !! i) ≤ from_option value 0 (semas σ !! i) -
      (if decide (wait_on p = Some i ∧ wait_on q ≠ Some i) then 1 else 0)) →
  next_ok (idle_thread (ks σ)) (cur (ks σ)) p q →
  inv (σ', <[cur (ks σ) := q]> P).
Proof.
  intros Hinv HP Hs' Hst Hid HW Hnn HV (Hq & Hb & Ht).
  pose proof (cur_running _ Hinv) as Hcur. simpl in Hcur. destruct (Hinv) as [Hs Hv Hp]. simpl in *.
  assert (∀ t, t ≠ cur (ks σ) →
    vH (view_of (σ', <[cur (ks σ) := q]> P)) t = vH (view_of (σ, P)) t) as HH
    by (intros t Hne; unfold vH; simpl; by rewrite lookup_insert_ne).
  split; simpl; [done| |].
  - apply (vinv_keep _ _ Hv); simpl; [done|done| | | | |done].
    + intros t _ Hbl _. rewrite Hst. split; [done|]. apply HH. intros ->. congruence.
    + intros t _ Hbl _. rewrite Hst in Hbl. split; [done|]. symmetry. apply HH. intros ->. congruence.
    + destruct (decide (idle_thread (ks σ) = cur (ks σ))) as [E|E]; [|rewrite HH by done; apply (vi_idle _ Hv)].
      unfold vH. simpl. rewrite E, lookup_insert_eq. simpl. rewrite decide_True in Hq by done.
      apply wait_on_idle, Hq.
    + intros i Hi. specialize (HV i Hi).
      set (D := woken (view_of (σ, P)) i ∖ woken (view_of (σ', <[cur (ks σ) := q]> P)) i).
      assert (D ⊆ {[cur (ks σ)]}) as HD.
      { intros t. unfold D. rewrite elem_of_difference, !elem_of_woken, elem_of_singleton. simpl.
        rewrite HW. destruct (decide (t = cur (ks σ))); [done|]. rewrite HH by done. tauto. }
      assert (size D ≤ 1)%nat by (apply subseteq_size in HD; by rewrite size_singleton in HD).
      destruct (decide (wait_on p = Some i ∧ wait_on q ≠ Some i)) as [Hw|Hw]; [lia|].
      assert (size D = 0%nat); [|lia].
      apply size_empty_iff, elem_of_equiv_empty. intros t Ht'. pose proof (HD _ Ht') as ->%elem_of_singleton.
      unfold D in Ht'. rewrite elem_of_difference, !elem_of_woken in Ht'. unfold vH in Ht'. simpl in Ht'.
      rewrite lookup_insert_eq, HP, HW in Ht'. simpl in Ht'. apply Hw. tauto.
  - rewrite Hid. apply (pinv_set _ _ _ _ _ p q Hp); [done..| |].
    + intros t _. apply Hst.
    + intros t [r Hr]. rewrite Hst. by apply (pi_live _ _ _ Hp _ _ Hr).
Qed.
(** *** Switches *)

Lemma gave_up_running s s' rest st0 :
  gave_up s s' rest st0 → stat s' (cur s') = Some THREAD_RUNNING.
Proof.
  intros Hg. destruct (si_cur _ (gu_inv _ _ _ _ Hg)) as (th & Hth & Hst).
  unfold stat. by rewrite Hth; simpl; rewrite Hst.
Qed.

(** The thread switched to was ready, or is the idle thread, or never left. *)
Lemma gave_up_next s s' rest st0 :
  sched_inv s → gave_up s s' rest st0 → rest ⊆ ready_list s ++ [cur s] →
  cur s' = idle_thread s ∨ cur s' = cur s ∨ stat s (cur s') = Some THREAD_READY.
Proof.
  intros Hs Hg Hrest. pose proof (gu_cur _ _ _ _ Hg) as E.
  destruct rest as [|t rest]; simpl in E; [by left|]. right.
  assert (t ∈ ready_list s ++ [cur s]) as [Hin| ->%list_elem_of_singleton]%elem_of_app
    by (apply Hrest; set_solver); [right|by left].
  destruct (lo_ready _ (si_lists _ Hs) t Hin) as (_ & th & Hth & Hst).
  unfold stat. rewrite E, Hth. simpl. by rewrite Hst.
Qed.

Lemma gave_up_blocked s s' rest st0 t :
  sched_inv s → gave_up s s' rest st0 → rest ⊆ ready_list s ++ [cur s] →
  t ≠ idle_thread s → t ≠ cur s →
  stat s' t = Some THREAD_BLOCKED ↔ stat s t = Some THREAD_BLOCKED.
Proof.
  intros Hs Hg Hrest Hti Htc. destruct (decide (t = cur s')) as [->|Hn].
  - rewrite (gave_up_running _ _ _ _ Hg).
    destruct (gave_up_next _ _ _ _ Hs Hg Hrest) as [?|[?|H]]; [done|done|]. by rewrite H.
  - by rewrite (gu_other _ _ _ _ Hg).
Qed.

(** A thread that does not go back to the run queue loses the CPU. *)
Lemma gave_up_leaves s s' st0 :
  sched_inv s → stat s (cur s) = Some THREAD_RUNNING → cur s ≠ idle_thread s →
  gave_up s s' (ready_list s) st0 → cur s' ≠ cur s.
Proof.
  intros Hs Hcur Hci Hg. rewrite (gu_cur _ _ _ _ Hg).
  destruct (ready_list s) as [|x l] eqn:E; simpl; [done|]. intros ->.
  destruct (lo_ready _ (si_lists _ Hs) (cur s)) as (_ & th & Hth & Hst); [rewrite E; set_solver|].
  unfold stat in Hcur. rewrite Hth in Hcur. simpl in Hcur. congruence.
Qed.

(** Threads without a program are not switched to. *)
Lemma gave_up_progs s s' rest st0 P :
  sched_inv s → gave_up s s' rest st0 → rest ⊆ ready_list s ++ [cur s] →
  pinv (stat s) (idle_thread s) P →
  (∀ t, P !! t = None → stat s' t = stat s t) ∧
  (∀ t, is_Some (P !! t) → t ≠ cur s → ∃ st, stat s' t = Some st ∧ st ≠ THREAD_DYING).
Proof.
  intros Hs Hg Hrest Hp.
  assert (stat s (cur s) = Some THREAD_RUNNING) as Hrun.
  { destruct (si_cur _ Hs) as (th & Hth & Hst). unfold stat. by rewrite Hth; simpl; rewrite Hst. }
  assert (is_Some (P !! cur s)) as [pc Hpc] by (apply (pi_has _ _ _ Hp); by left).
  assert (is_Some (P !! cur s')) as [pn Hpn].
  { destruct (gave_up_next _ _ _ _ Hs Hg Hrest) as [-> |[-> |H]]; [| |].
    - destruct (pi_idle _ _ _ Hp) as (r & ? & _). by eexists.
    - by eexists.
    - apply (pi_has _ _ _ Hp). by right. }
  split.
  - intros t Hn. apply (gu_other _ _ _ _ Hg); congruence.
  - intros t [r Hr] Hne. destruct (decide (t = cur s')) as [->|Hn].
    + rewrite (gave_up_running _ _ _ _ Hg). by eexists.
    + rewrite (gu_other _ _ _ _ Hg) by done. by apply (pi_live _ _ _ Hp _ _ Hr).
Qed.

(** A switch that leaves the queues alone: a yield, or the idle thread
    blocking. *)
Lemma inv_switch σ P p q s' rest st0 :
  inv (σ, P) → P !! cur (ks σ) = Some p → gave_up (ks σ) s' rest (Some st0) →
  rest ⊆ ready_list (ks σ) ++ [cur (ks σ)] →
  st0 = THREAD_READY ∨ (st0 = THREAD_BLOCKED ∧ cur (ks σ) = idle_thread (ks σ)) →
  wait_on p = None ∨ wait_on q = wait_on p →
  next_ok (idle_thread (ks σ)) (cur (ks σ)) p q →
  inv (set_ks σ s', <[cur (ks σ) := q]> P).
Proof.
  intros Hinv HP Hg Hrest Hst0 Hwq (Hq & Hb & Ht). pose proof (cur_running _ Hinv) as Hcur. simpl in Hcur.
  destruct (Hinv) as [Hs Hv Hp]. simpl in *.
  assert (∀ t, t ≠ cur (ks σ) →
    vH (view_of (set_ks σ s', <[cur (ks σ) := q]> P)) t = vH (view_of (σ, P)) t) as HH
    by (intros t Hne; unfold vH; simpl; by rewrite lookup_insert_ne).
  assert (∀ t, t ≠ idle_thread (ks σ) →
    stat s' t = Some THREAD_BLOCKED ↔ stat (ks σ) t = Some THREAD_BLOCKED) as Hbl.
  { intros t Hti. destruct (decide (t = cur (ks σ))) as [->|Htc];
      [|by apply (gave_up_blocked _ _ _ _ _ Hs Hg Hrest)].
    rewrite Hcur. destruct (decide (cur s' = cur (ks σ))) as [E|E].
    - by rewrite <-E, (gave_up_running _ _ _ _ Hg).
    - rewrite (gu_old _ _ _ _ Hg E). destruct Hst0 as [-> |[_ ?]]; done. }
  split; simpl; [apply Hg| |].
  - apply (vinv_keep _ _ Hv); simpl; [apply Hg|done| | | | |apply (vi_nonneg _ Hv)].
    + intros t Hti Hb' _. rewrite Hbl by done. split; [done|]. apply HH. congruence.
    + intros t Hti Hb' _. apply Hbl in Hb'; [|done]. split; [done|]. symmetry. apply HH. congruence.
    + destruct (decide (idle_thread (ks σ) = cur (ks σ))) as [E|E];
        [|rewrite HH by done; apply (vi_idle _ Hv)].
      unfold vH. simpl. rewrite E, lookup_insert_eq. simpl. rewrite decide_True in Hq by done.
      apply wait_on_idle, Hq.
    + intros i _. rewrite woken_diff_nil; [lia|]. intros t Hw Hnw. split; [|done].
      destruct (decide (t = cur (ks σ))) as [->|Hne]; [|by rewrite HH].
      unfold vH in *. simpl in *. rewrite HP in Hw. rewrite lookup_insert_eq. simpl in *.
      destruct Hwq; congruence.
  - rewrite (gu_idle _ _ _ _ Hg). destruct (gave_up_progs _ _ _ _ _ Hs Hg Hrest Hp) as [Hn Hl].
    apply (pinv_set _ _ _ _ _ p q Hp); [done..|].
    intros t Hr. destruct (decide (t = cur (ks σ))) as [->|Hne]; [|by apply Hl].
    destruct (decide (cur s' = cur (ks σ))) as [E|E].
    + rewrite <-E, (gave_up_running _ _ _ _ Hg). by eexists.
    + rewrite (gu_old _ _ _ _ Hg E). eexists. split; [done|]. by destruct Hst0 as [-> |[-> _]].
Qed.

(** *** Sleeping and waking *)

Lemma u32_le x : 0 ≤ x → u32 x ≤ x.
Proof. intros. unfold u32. by apply Z.mod_le. Qed.

(** The running thread [c] joins the queue of [i]. *)
Lemma vinv_sleep v v' c i :
  vinv v → vidle v' = vidle v → vP v' = vP v →
  vH v c = Some i → vst v c ≠ Some THREAD_BLOCKED → vst v' c = Some THREAD_BLOCKED →
  vW v' i = vW v i ++ [c] → vV v' i = 0 →
  (∀ j, j ≠ i → vW v' j = vW v j ∧ vV v' j = vV v j) →
  (∀ t, t ≠ vidle v → t ≠ c → vst v' t = Some THREAD_BLOCKED ↔ vst v t = Some THREAD_BLOCKED) →
  vinv v'.
Proof.
  intros Hv Hid EP Hc Hnb Hb HW HV Hother Hbl.
  assert (∀ t, vH v' t = vH v t) as HH by (intros t; unfold vH; by rewrite EP).
  assert (∀ j t, t ∈ vW v j → t ≠ c ∧ t ≠ vidle v) as Hnc.
  { intros j t Hin. split; [|by apply (vi_not_idle _ _ _ Hv Hin)].
    intros ->. by destruct (vi_waiter _ Hv _ _ Hin) as [Hst _]. }
  assert (∀ j t, t ∈ vW v' j ↔ t ∈ vW v j ∨ (j = i ∧ t = c)) as HW'.
  { intros j t. destruct (decide (j = i)) as [->|Hj]; [rewrite HW; set_solver|].
    rewrite (proj1 (Hother j Hj)). naive_solver. }
  split.
  - intros j t [Hin|[-> ->]]%HW'; rewrite HH; [|done].
    destruct (vi_waiter _ Hv _ _ Hin) as [Hst ?]. split; [|done]. apply Hbl; [by apply (Hnc j)..|done].
  - intros j. destruct (decide (j = i)) as [->|Hj].
    + rewrite HW. apply NoDup_app. split_and!; [apply (vi_nodup _ Hv)| |apply NoDup_singleton].
      intros t Hin ->%list_elem_of_singleton. by destruct (Hnc _ _ Hin).
    + rewrite (proj1 (Hother j Hj)). apply (vi_nodup _ Hv).
  - intros j t Hst Ht. rewrite HH in Ht. apply HW'.
    destruct (decide (t = c)) as [->|Htc]; [right; split; congruence|left].
    apply (vi_blocked _ Hv); [|done]. apply Hbl; [|done|done].
    intros ->. by rewrite (vi_idle _ Hv) in Ht.
  - rewrite Hid, HH. apply (vi_idle _ Hv).
  - intros j Hj. destruct (decide (j = i)) as [->|Hji]; [rewrite HV; lia|].
    destruct (Hother j Hji) as [EW EV]. rewrite EW in Hj. rewrite EV.
    assert (woken v' j = woken v j) as ->; [|by apply (vi_woken _ Hv)].
    apply set_eq. intros t. by rewrite !elem_of_woken, EW, HH.
  - intros j. destruct (decide (j = i)) as [->|Hji]; [by rewrite HV|].
    rewrite (proj2 (Hother j Hji)). apply (vi_nonneg _ Hv).
Qed.

Lemma inv_sleep σ P p i ws s' :
  inv (σ, P) → P !! cur (ks σ) = Some p → wait_on p = Some i →
  semas σ !! i = Some (Sema 0 ws) →
  gave_up (ks σ) s' (ready_list (ks σ)) (Some THREAD_BLOCKED) →
  inv (set_ks (set_sema σ i (Sema 0 (ws ++ [cur (ks σ)]))) s', P).
Proof.
  intros Hinv HP Hw Hi Hg. pose proof (cur_running _ Hinv) as Hcur. simpl in Hcur.
  destruct (Hinv) as [Hs Hv Hp]. simpl in *.
  assert (vH (view_of (σ, P)) (cur (ks σ)) = Some i) as HHc by (unfold vH; simpl; by rewrite HP).
  assert (cur (ks σ) ≠ idle_thread (ks σ)) as Hci.
  { intros E. pose proof (vi_idle _ Hv) as H0. simpl in H0. rewrite <-E, HHc in H0. done. }
  pose proof (gave_up_leaves _ _ _ Hs Hcur Hci Hg) as Hne.
  pose proof (gu_old _ _ _ _ Hg Hne) as Hold.
  assert (ready_list (ks σ) ⊆ ready_list (ks σ) ++ [cur (ks σ)]) as Hrest by set_solver.
  split; simpl; [apply Hg| |].
  - apply (vinv_sleep _ _ (cur (ks σ)) i Hv); simpl; try done.
    + apply Hg.
    + congruence.
    + by rewrite lookup_insert_eq, Hi.
    + by rewrite lookup_insert_eq.
    + intros j Hj. by rewrite lookup_insert_ne.
    + intros t. by apply (gave_up_blocked _ _ _ _ _ Hs Hg Hrest).
  - rewrite (gu_idle _ _ _ _ Hg). destruct (gave_up_progs _ _ _ _ _ Hs Hg Hrest Hp) as [Hn Hl].
    rewrite <-(insert_id P (cur (ks σ)) p) by done.
    apply (pinv_set _ _ _ _ _ p p Hp); [done| |done|by apply (pi_tids _ _ _ Hp _ _ HP)|done|].
    + rewrite decide_False by done. by apply (pi_items _ _ _ Hp).
    + intros t Hr. destruct (decide (t = cur (ks σ))) as [->|Hnt]; [|by apply Hl].
      rewrite Hold. by eexists.
Qed.

(** The first thread [t] in the queue of [i] is made ready. *)
Lemma vinv_wake v v' t ws i :
  vinv v → vidle v' = vidle v → vP v' = vP v → vW v i = t :: ws →
  vst v' t ≠ Some THREAD_BLOCKED → (∀ t', t' ≠ t → vst v' t' = vst v t') →
  vW v' i = ws → 0 ≤ vV v' i ≤ vV v i + 1 →
  (∀ j, j ≠ i → vW v' j = vW v j ∧ vV v' j = vV v j) →
  vinv v'.
Proof.
  intros Hv Hid EP HWi Hnb Hst HW HV Hother.
  assert (∀ t, vH v' t = vH v t) as HH by (intros ?; unfold vH; by rewrite EP).
  assert (t ∉ ws ∧ NoDup ws) as [Htws Hnd] by (apply NoDup_cons; rewrite <-HWi; apply (vi_nodup _ Hv)).
  assert (t ∈ vW v i) as Hti by (rewrite HWi; set_solver).
  destruct (vi_waiter _ Hv _ _ Hti) as [Htb HHt].
  assert (∀ j t', t' ∈ vW v' j ↔ t' ∈ vW v j ∧ t' ≠ t) as HW'.
  { intros j t'. destruct (decide (j = i)) as [->|Hj]; [rewrite HW, HWi; set_solver|].
    rewrite (proj1 (Hother j Hj)). split; [|naive_solver]. intros Hin. split; [done|].
    intros ->. destruct (vi_waiter _ Hv _ _ Hin). congruence. }
  split.
  - intros j t' [Hin Hne]%HW'. rewrite HH, Hst by done. by apply (vi_waiter _ Hv).
  - intros j. destruct (decide (j = i)) as [->|Hj]; [by rewrite HW|].
    rewrite (proj1 (Hother j Hj)). apply (vi_nodup _ Hv).
  - intros j t' Hb Ht'. assert (t' ≠ t) by (intros ->; done). apply HW'. split; [|done].
    rewrite Hst in Hb by done. rewrite HH in Ht'. by apply (vi_blocked _ Hv).
  - rewrite Hid, HH. apply (vi_idle _ Hv).
  - intros j Hj. destruct (decide (j = i)) as [->|Hji].
    + pose proof (vi_woken _ Hv i ltac:(by rewrite HWi)).
      assert (woken v' i = {[t]} ∪ woken v i) as ->.
      { apply set_eq. intros t'. rewrite elem_of_union, elem_of_singleton, !elem_of_woken, HH, HW'.
        destruct (decide (t' = t)) as [->|]; naive_solver. }
      rewrite size_union, size_singleton; [lia|]. intros t' ->%elem_of_singleton [_ ?]%elem_of_woken. done.
    + destruct (Hother j Hji) as [EW EV]. rewrite EW in Hj. rewrite EV.
      assert (woken v' j = woken v j) as ->; [|by apply (vi_woken _ Hv)].
      apply set_eq. intros t'. by rewrite !elem_of_woken, EW, HH.
  - intros j. destruct (decide (j = i)) as [->|Hji]; [lia|].
    rewrite (proj2 (Hother j Hji)). apply (vi_nonneg _ Hv).
Qed.

(** Changes of a semaphore's value where nobody waits. *)
Lemma vinv_unwaited v v' i :
  vinv v → vidle v' = vidle v → vP v' = vP v → (∀ t, vst v' t = vst v t) →
  vW v i = [] → vW v' i = [] → 0 ≤ vV v' i →
  (∀ j, j ≠ i → vW v' j = vW v j ∧ vV v' j = vV v j) → vinv v'.
Proof.
  intros Hv Hid EP Hst HWi HWi' HVi Hother.
  assert (∀ t, vH v' t = vH v t) as HH by (intros ?; unfold vH; by rewrite EP).
  assert (∀ j, vW v' j = vW v j) as HW.
  { intros j. destruct (decide (j = i)) as [->|Hj]; [congruence|]. by apply Hother. }
  apply (vinv_keep _ _ Hv); [done|done| | | | |].
  - intros t _ Hb _. by rewrite Hst, HH.
  - intros t _ Hb _. by rewrite <-Hst, HH.
  - rewrite HH. apply (vi_idle _ Hv).
  - intros j Hj. assert (j ≠ i) as Hji by (intros ->; done). rewrite (proj2 (Hother j Hji)).
    rewrite woken_diff_nil; [lia|]. intros t. by rewrite HH, HW.
  - intros j. destruct (decide (j = i)) as [->|Hji]; [done|].
    rewrite (proj2 (Hother j Hji)). apply (vi_nonneg _ Hv).
Qed.

(** [sema_up] never faults; it wakes the thread that has waited longest. *)
Lemma sema_up_ok σ P i sm :
  inv (σ, P) → semas σ !! i = Some sm →
  ∃ s', sema_up σ i = Ok (SState s' (<[i := Sema (u32 (value sm + 1)) (tail (waiters sm))]> (semas σ))
          (holders σ) (conds σ)) ∧
    inv (SState s' (<[i := Sema (u32 (value sm + 1)) (tail (waiters sm))]> (semas σ))
          (holders σ) (conds σ), P) ∧
    cur s' = cur (ks σ) ∧ intr s' = intr (ks σ) ∧ idle_thread s' = idle_thread (ks σ) ∧
    ready_list s' = ready_list (ks σ) ++ option_list (head (waiters sm)).
Proof.
  intros Hinv Hi. destruct (Hinv) as [Hs Hv Hp]. simpl in *.
  assert (0 ≤ value sm) as Hnn by (pose proof (vi_nonneg _ Hv i) as H0; simpl in H0; by rewrite Hi in H0).
  pose proof (u32_le (value sm + 1) ltac:(lia)). pose proof (u32_range (value sm + 1)) as Hr.
  unfold is_u32 in Hr. unfold sema_up, get_sema. simpl. rewrite Hi. mstep.
  destruct (waiters sm) as [|t ws] eqn:Ews; simpl.
  - exists (ks σ). mstep. split_and!; try done; [| |by rewrite app_nil_r].
    + rewrite Ews. destruct σ as [s]. by destruct s.
    + split; simpl; [done| |done]. apply (vinv_unwaited _ _ i Hv); simpl; try done.
      * by rewrite Hi.
      * by rewrite lookup_insert_eq.
      * rewrite lookup_insert_eq. simpl. lia.
      * intros j Hj. by rewrite lookup_insert_ne.
  - assert (t ∈ vW (view_of (σ, P)) i) as Hin by (simpl; rewrite Hi; simpl; rewrite Ews; set_solver).
    destruct (vi_waiter _ Hv _ _ Hin) as [Hb HH]. pose proof (vi_not_idle _ _ _ Hv Hin) as Hti. simpl in *.
    destruct (thread_unblock_ok (set_intr (ks σ) false) t)
      as (s1 & -> & Hs1 & Hc1 & Hi1 & Hid1 & Hin1 & Hr1 & Hst1 & Hoth); [by apply (sched_inv_ext (ks σ))|done..|].
    mstep. exists (set_intr s1 (intr (ks σ))). simpl in *. split_and!; try done.
    split; simpl.
    + by apply (sched_inv_ext s1).
    + apply (vinv_wake (view_of (σ, P)) _ t ws i Hv); simpl; try done.
      * by rewrite Hi; simpl.
      * change (stat s1 t ≠ Some THREAD_BLOCKED). by rewrite Hst1.
      * by rewrite lookup_insert_eq.
      * rewrite lookup_insert_eq, Hi. simpl. lia.
      * intros j Hj. by rewrite lookup_insert_ne.
    + rewrite Hid1. destruct (pi_idle _ _ _ Hp) as (pid & Hpid & _).
      rewrite <-(insert_id P (idle_thread (ks σ)) pid) by done.
      apply (pinv_set _ _ _ _ _ pid pid Hp); [done| |done|by apply (pi_tids _ _ _ Hp _ _ Hpid)| |].
      * rewrite decide_True by done. destruct (pi_idle _ _ _ Hp) as (? & ? & ?). by simplify_eq.
      * intros t' Hn. apply Hoth. intros ->. unfold vH in HH. simpl in HH. by rewrite Hn in HH.
      * intros t' [r Hr']. destruct (decide (t' = t)) as [->|Hne].
        -- change (∃ x, stat s1 t = Some x ∧ x ≠ THREAD_DYING). rewrite Hst1. by eexists.
        -- change (∃ x, stat s1 t' = Some x ∧ x ≠ THREAD_DYING). rewrite Hoth by done.
           by apply (pi_live _ _ _ Hp _ _ Hr').
Qed.

(** *** Exit and creation *)

Lemma inv_exit σ P p s' st0 :
  inv (σ, P) → P !! cur (ks σ) = Some p → born p = [] → wait_on p = None →
  cur (ks σ) ≠ idle_thread (ks σ) →
  gave_up (ks σ) s' (ready_list (ks σ)) st0 → st0 = None ∨ st0 = Some THREAD_DYING →
  inv (set_ks σ s', delete (cur (ks σ)) P).
Proof.
  intros Hinv HP Hb Hw Hci Hg Hst0. pose proof (cur_running _ Hinv) as Hcur. simpl in Hcur.
  destruct (Hinv) as [Hs Hv Hp]. simpl in *.
  pose proof (gave_up_leaves _ _ _ Hs Hcur Hci Hg) as Hne.
  pose proof (gu_old _ _ _ _ Hg Hne) as Hold.
  assert (ready_list (ks σ) ⊆ ready_list (ks σ) ++ [cur (ks σ)]) as Hrest by set_solver.
  assert (∀ t, vH (view_of (set_ks σ s', delete (cur (ks σ)) P)) t = vH (view_of (σ, P)) t) as HH.
  { intros t. unfold vH. simpl. destruct (decide (t = cur (ks σ))) as [->|Hnt].
    - by rewrite lookup_delete_eq, HP.
    - by rewrite lookup_delete_ne. }
  assert (∀ t, t ≠ idle_thread (ks σ) →
    stat s' t = Some THREAD_BLOCKED ↔ stat (ks σ) t = Some THREAD_BLOCKED) as Hbl.
  { intros t Hti. destruct (decide (t = cur (ks σ))) as [->|Htc];
      [|by apply (gave_up_blocked _ _ _ _ _ Hs Hg Hrest)].
    rewrite Hcur, Hold. by destruct Hst0 as [-> | ->]. }
  destruct (gave_up_progs _ _ _ _ _ Hs Hg Hrest Hp) as [Hn Hl].
  split; simpl; [apply Hg| |].
  - apply (vinv_keep _ _ Hv); simpl; [apply Hg|done| | | | |apply (vi_nonneg _ Hv)].
    + intros t Hti Hb' _. by rewrite Hbl, HH.
    + intros t Hti Hb' _. by rewrite <-Hbl, HH.
    + rewrite HH. apply (vi_idle _ Hv).
    + intros i _. rewrite woken_diff_nil; [lia|]. intros t Hwt Hnw. by rewrite HH.
  - rewrite (gu_idle _ _ _ _ Hg). apply (pinv_exit _ _ _ _ _ p Hp); [done..| |done].
    rewrite Hold. by destruct Hst0 as [-> | ->].
Qed.

Lemma init_thread_ok s t pri :
  sched_inv s → t ≠ NULL → threads s !! t = None → PRI_MIN ≤ pri ≤ PRI_MAX →
  ∃ s', init_thread s t pri = Ok s' ∧ sched_inv s' ∧ cur s' = cur s ∧
    idle_thread s' = idle_thread s ∧ stat s' t = Some THREAD_BLOCKED ∧
    (∀ t', t' ≠ t → stat s' t' = stat s t').
Proof.
  intros [[Hrn Hr Hri Ht (ith & Hid & Hids) [Han Hal]] (cth & Hc & Hcst) Hrun Hdy] Ht0 Hfresh [Hp1 Hp2].
  unfold init_thread. rewrite (proj2 (Z.eqb_neq _ _)) by done. simpl.
  rewrite (proj2 (Z.leb_le _ _) Hp1), (proj2 (Z.leb_le _ _) Hp2). simpl.
  eexists. split; [done|]. simpl.
  set (nt := Thread 0 THREAD_BLOCKED (t + PGSIZE) pri no_links (no_children t) 0 0 THREAD_MAGIC).
  assert (∀ t' th, <[t := nt]> (threads s) !! t' = Some th →
    (t' = t ∧ th = nt) ∨ (t' ≠ t ∧ threads s !! t' = Some th)) as Hlk
    by (intros t' th; rewrite lookup_insert_Some; naive_solver).
  assert (∀ t' th, threads s !! t' = Some th → <[t := nt]> (threads s) !! t' = Some th) as Hfw.
  { intros t' th H'. rewrite lookup_insert_ne; [done|]. congruence. }
  assert (t ∉ all_list s) as Hna by (rewrite Hal; intros (? & ? & _); congruence).
  split_and!; try done; [split; [split|..]; simpl; try done| |].
  - intros t' Hin. destruct (Hr t' Hin) as (? & th & ? & ?). eauto.
  - intros t' th [[-> ->]|[_ H']]%Hlk; [done|]. by apply Hri.
  - intros t' th [[-> ->]|[_ H']]%Hlk; [done|]. by apply (Ht t').
  - eauto.
  - split; [apply NoDup_app; split_and!; [done|set_solver|apply NoDup_singleton]|].
    intros t'. rewrite elem_of_app, list_elem_of_singleton, Hal. split.
    + intros [(th & ? & ?)| ->]; [eauto|]. exists nt. by rewrite lookup_insert_eq.
    + intros (th & [[-> ->]|[_ H']]%Hlk & ?); [by right|]. left. eauto.
  - eauto.
  - intros t' th [[-> ->]|[_ H']]%Hlk; [done|]. by apply Hrun.
  - intros t' th [[-> ->]|[_ H']]%Hlk; [done|]. by apply Hdy.
  - unfold stat. simpl. by rewrite lookup_insert_eq.
  - intros t' Hne. unfold stat. simpl. by rewrite lookup_insert_ne.
Qed.

Lemma inv_create σ P p q s' t0 :
  inv (σ, P) → P !! cur (ks σ) = Some p → cur (ks σ) ≠ idle_thread (ks σ) →
  wait_on p = None → wait_on q = None → body_ok (cur (ks σ)) q →
  born q = t0 :: born p → tids_ok q → threads (ks σ) !! t0 = None →
  sched_inv s' → idle_thread s' = idle_thread (ks σ) →
  stat s' t0 = Some THREAD_BLOCKED → (∀ t, t ≠ t0 → stat s' t = stat (ks σ) t) →
  inv (set_ks σ s', <[cur (ks σ) := q]> P).
Proof.
  intros Hinv HP Hci Hwp Hwq Hq Hb Ht Hfresh Hs' Hid Hst0 Hst. destruct (Hinv) as [Hs Hv Hp]. simpl in *.
  assert (stat (ks σ) t0 = None) as Hn0 by (unfold stat; by rewrite Hfresh).
  assert (P !! t0 = None) as HPt0.
  { destruct (P !! t0) as [r|] eqn:E; [|done]. destruct (pi_live _ _ _ Hp _ _ E) as (? & ? & _). congruence. }
  assert (∀ t, vH (view_of (set_ks σ s', <[cur (ks σ) := q]> P)) t = vH (view_of (σ, P)) t) as HH.
  { intros t. unfold vH. simpl. destruct (decide (t = cur (ks σ))) as [->|Hnt].
    - rewrite lookup_insert_eq, HP. simpl. congruence.
    - by rewrite lookup_insert_ne. }
  assert (vH (view_of (σ, P)) t0 = None) as HH0 by (unfold vH; simpl; by rewrite HPt0).
  split; simpl; [done| |].
  - apply (vinv_keep _ _ Hv); simpl; [done|done| | | | |apply (vi_nonneg _ Hv)].
    + intros t Hti Hb' Hh. rewrite HH, Hst; [done|]. by intros ->.
    + intros t Hti Hb' Hh. rewrite HH in *. rewrite <-Hst; [done|]. intros ->. by rewrite HH0 in Hh.
    + rewrite HH. apply (vi_idle _ Hv).
    + intros i _. rewrite woken_diff_nil; [lia|]. intros t Hwt Hnw. by rewrite HH.
  - rewrite Hid. by apply (pinv_create _ _ _ _ _ p q t0 Hp).
Qed.

(** Changes that neither the scheduler nor the queues notice. *)
Definition quiet s s' : Prop :=
  sched_inv s' ∧ (∀ t, stat s' t = stat s t) ∧ cur s' = cur s ∧ idle_thread s' = idle_thread s.

Lemma upd_thread_quiet s t (f : thread → thread) :
  sched_inv s → is_Some (stat s t) → (∀ th, status (f th) = status th ∧ magic (f th) = magic th ∧ (children_ok t th → children_ok t (f th))) →
  ∃ s', upd_thread s t f = Ok s' ∧ quiet s s'.
Proof.
  intros Hs [st Hst] Hf. unfold stat in Hst. destruct (threads s !! t) as [th|] eqn:Hth; [|done].
  rewrite (upd_thread_ok _ _ _ _ Hth). eexists. split; [done|]. destruct (Hf th) as (? & ? & ?).
  split_and!; [by apply (sched_inv_upd _ _ th)|intros; by eapply stat_upd|done|done].
Qed.

Lemma quiet_trans s1 s2 s3 : quiet s1 s2 → quiet s2 s3 → quiet s1 s3.
Proof.
  intros (_ & H1 & E1 & E1') (? & H2 & E2 & E2'). split_and!; [done| |congruence..].
  intros t. by rewrite H2.
Qed.

Lemma alloc_frame_quiet s t sz :
  sched_inv s → is_Some (stat s t) → sz mod 4 = 0 →
  ∃ a s', alloc_frame s t sz = Ok (a, s') ∧ quiet s s'.
Proof.
  intros Hs [st Hst] Hsz. pose proof Hst as Hst'. unfold stat in Hst'.
  destruct (threads s !! t) as [th|] eqn:Hth; [|done]. unfold alloc_frame.
  rewrite (is_thread_ok _ _ _ (si_lists _ Hs) Hth). mstep. rewrite Hsz. simpl.
  unfold get_thread. rewrite Hth. mstep.
  destruct (upd_thread_quiet s t (with_stack (u32 (stack th - sz))) Hs) as (s' & -> & Hq);
    [by eexists|done|]. mstep. eauto.
Qed.

(** The child that the running thread has created last has not exited. *)
Definition last_child_live s : Prop :=
  match clast ∘ child_list <$> threads s !! cur s with Some (ChildElem x) => is_Some (threads s !! x) | _ => True end.

Lemma set_cnext_quiet s x v :
  sched_inv s → match x with ChildHead t | ChildElem t => is_Some (stat s t) | _ => False end → ∃ s', set_cnext s x v = Ok s' ∧ quiet s s'.
Proof. intros Hs Hx. destruct x as [|t|t|]; try done; by apply upd_thread_quiet. Qed.

Lemma push_child_quiet s t :
  sched_inv s → is_Some (stat s t) → last_child_live s → ∃ s', push_child s (cur s) t = Ok s' ∧ quiet s s'.
Proof.
  intros Hs Ht Hlast. destruct (si_cur _ Hs) as (cth & Hcth & _). destruct (lo_thread _ (si_lists _ Hs) _ _ Hcth) as (_ & _ & Hch).
  unfold push_child, get_thread. rewrite Hcth. mstep. unfold children_ok in Hch.
  assert (is_Some (stat s (cur s))) as Hc by (unfold stat; rewrite Hcth; by eexists).
  rewrite bool_decide_eq_false_2 by (intros E; by rewrite E in Hch). cbn [negb]. mstep.
  destruct (upd_thread_quiet s t (with_child_elem (ChildLinks (clast (child_list cth)) (ChildTail (cur s))))) as (s1 & -> & Hq1); [done|done|done|]. mstep.
  destruct (set_cnext_quiet s1 (clast (child_list cth)) (ChildElem t)) as (s2 & -> & Hq2); [apply Hq1| |].
  { destruct (clast (child_list cth)) as [|c|x|c] eqn:E; try done; rewrite (proj1 (proj2 Hq1)); [by rewrite Hch|].
    unfold stat. rewrite fmap_is_Some. revert Hlast. unfold last_child_live. rewrite Hcth. simpl. by rewrite E. }
  mstep. pose proof (quiet_trans _ _ _ Hq1 Hq2) as Hq02.
  destruct (upd_thread_quiet s2 (cur s) (λ th, with_children (ChildEnds (cfirst (child_list th)) (ChildElem t)) th)) as (s3 & -> & Hq3);
    [apply Hq02|by rewrite (proj1 (proj2 Hq02))|done|]. exists s3. split; [done|by eapply quiet_trans].
Qed.

(** Conversely, the call has written to the page of the last child. *)
Lemma create_finish_live σ t σ1 : create_finish σ t = Ok σ1 → last_child_live (ks σ).
Proof.
  unfold create_finish, push_child, upd_thread. intros H. res_inv.
  match goal with H : thread_current _ = Ok ?x |- _ => assert (x = cur (ks σ)) as -> by (unfold thread_current in H; res_inv; done) end.
  unfold get_thread in *. res_inv. cbn [threads set_threads] in *. unfold last_child_live.
  destruct (threads (ks σ) !! cur (ks σ)) as [th|] eqn:Hth; [|done]. cbn [fmap option_fmap option_map compose].
  match goal with H : <[t := _]> _ !! cur (ks σ) = Some ?y |- _ => assert (child_list y = child_list th) as E end.
  { rewrite lookup_insert_Some in *. naive_solver. }
  rewrite E in *. destruct (clast (child_list th)) as [| |x|] eqn:El; try done.
  cbn [set_cnext] in *. unfold upd_thread, get_thread in *. res_inv. cbn [threads set_threads] in *.
  repeat match goal with H : <[_ := _]> _ !! x = Some _ |- _ => apply lookup_insert_Some in H as [[<- _]|[_ H]]; [by eexists|] end. by eexists.
Qed.

Lemma last_child_upd s t f s' : upd_thread s t f = Ok s' → (∀ th, child_list (f th) = child_list th) → last_child_live s → last_child_live s'.
Proof.
  unfold upd_thread, get_thread, last_child_live. intros H Hf. res_inv. cbn [threads set_threads cur].
  assert ((clast ∘ child_list) <$> <[t := f x]> (threads s) !! cur s = (clast ∘ child_list) <$> threads s !! cur s) as ->.
  { destruct (decide (t = cur s)) as [->|Hne]; [rewrite lookup_insert_eq, H0; simpl; by rewrite Hf|by rewrite lookup_insert_ne]. }
  destruct (_ <$> _) as [[| |y|]|]; try done. destruct (decide (t = y)) as [->|Hne]; [rewrite lookup_insert_eq; by eexists|by rewrite lookup_insert_ne].
Qed.

Lemma create_finish_ok σ t0 :
  sched_inv (ks σ) → stat (ks σ) t0 = Some THREAD_BLOCKED → t0 ≠ idle_thread (ks σ) → last_child_live (ks σ) →
  ∃ s', create_finish σ t0 = Ok (set_ks σ s') ∧ sched_inv s' ∧ cur s' = cur (ks σ) ∧
    idle_thread s' = idle_thread (ks σ) ∧ stat s' t0 = Some THREAD_READY ∧
    (∀ t, t ≠ t0 → stat s' t = stat (ks σ) t).
Proof.
  intros Hs Hst Hti Hlast. unfold create_finish.
  destruct (upd_thread_quiet (ks σ) t0 (with_next_fd 2)) as (s1 & Eu & Hq1); [done|by eexists|done|]. rewrite Eu.
  mstep. rewrite thread_current_ok by apply Hq1. mstep.
  destruct (push_child_quiet s1 t0) as (s2 & -> & Hq2); [apply Hq1|rewrite (proj1 (proj2 Hq1)); by eexists|by apply (last_child_upd _ _ _ _ Eu)|]. mstep.
  pose proof (quiet_trans _ _ _ Hq1 Hq2) as Hq02.
  destruct (alloc_frame_quiet s2 t0 kernel_thread_frame_size) as (a3 & s3 & -> & Hq3);
    [apply Hq02|rewrite (proj1 (proj2 Hq02)); by eexists|done|]. mstep.
  pose proof (quiet_trans _ _ _ Hq02 Hq3) as Hq03.
  destruct (alloc_frame_quiet s3 t0 switch_entry_frame_size) as (a4 & s4 & -> & Hq4);
    [apply Hq03|rewrite (proj1 (proj2 Hq03)); by eexists|done|]. mstep.
  pose proof (quiet_trans _ _ _ Hq03 Hq4) as Hq04.
  destruct (alloc_frame_quiet s4 t0 switch_threads_frame_size) as (a5 & s5 & -> & Hq5);
    [apply Hq04|rewrite (proj1 (proj2 Hq04)); by eexists|done|]. mstep.
  destruct (quiet_trans _ _ _ Hq04 Hq5) as (Hs5 & Hst5 & Hc5 & Hi5).
  destruct (thread_unblock_ok s5 t0) as (s' & -> & ? & ? & _ & ? & _ & _ & ? & Hoth);
    [done|by rewrite Hst5|by rewrite Hi5|]. mstep.
  exists s'. split_and!; try done; [congruence..|]. intros t Hne. by rewrite Hoth, Hst5.
Qed.

Lemma wait_on_user p : forallb user_op p = true → wait_on (p ++ [OExit]) = None.
Proof.
  induction p as [|o p IH]; [done|]. simpl. intros [Ho Hp]%andb_true_iff. destruct o; try done. by apply IH.
Qed.

Lemma inv_finish σ P p q s' t0 r0 :
  inv (σ, P) → P !! cur (ks σ) = Some p → cur (ks σ) ≠ idle_thread (ks σ) →
  wait_on p = None → body_ok (cur (ks σ)) q →
  born p = t0 :: born q → tids_ok q →
  body_ok t0 r0 → born r0 = [] → tids_ok r0 → wait_on r0 = None →
  sched_inv s' → idle_thread s' = idle_thread (ks σ) →
  stat s' t0 = Some THREAD_READY → (∀ t, t ≠ t0 → stat s' t = stat (ks σ) t) →
  inv (set_ks σ s', <[t0 := r0]> (<[cur (ks σ) := q]> P)).
Proof.
  intros Hinv HP Hci Hwp Hq Hb Ht Hr0 Hb0 Ht0 Hw0 Hs' Hid Hst0 Hst.
  pose proof (cur_running _ Hinv) as Hcur. simpl in Hcur. destruct (Hinv) as [Hs Hv Hp]. simpl in *.
  destruct (pi_born _ _ _ Hp _ _ t0 HP) as [Hb0' HPt0]; [rewrite Hb; set_solver|].
  assert (vH (view_of (σ, P)) t0 = None ∧ vH (view_of (σ, P)) (cur (ks σ)) = None) as [HH0 HHc]
    by (unfold vH; simpl; by rewrite HPt0, HP).
  set (P' := <[t0 := r0]> (<[cur (ks σ) := q]> P)).
  assert (vH (view_of (set_ks σ s', P')) t0 = None) as HH0'
    by (unfold vH, P'; simpl; by rewrite lookup_insert_eq).
  assert (t0 ≠ cur (ks σ)) as Htc by congruence.
  assert (∀ t, t ≠ cur (ks σ) → vH (view_of (set_ks σ s', P')) t = vH (view_of (σ, P)) t) as HH.
  { intros t Hne. destruct (decide (t = t0)) as [->|Hn]; [congruence|].
    unfold vH, P'. simpl. by rewrite !lookup_insert_ne. }
  split; simpl; [done| |].
  - apply (vinv_keep _ _ Hv); simpl; [done|done| | | | |apply (vi_nonneg _ Hv)].
    + intros t Hti Hb' Hh. rewrite HH by congruence. rewrite Hst; [done|]. by intros ->.
    + intros t Hti Hb' Hh. assert (t ≠ t0) as Htt by (by intros ->). rewrite Hst in Hb' by done.
      split; [done|]. symmetry. apply HH. congruence.
    + rewrite HH by done. apply (vi_idle _ Hv).
    + intros i _. rewrite woken_diff_nil; [lia|]. intros t Hwt Hnw. split; [|done].
      rewrite HH; [done|]. congruence.
  - rewrite Hid. by apply (pinv_finish _ _ _ _ _ p q t0 r0 Hp).
Qed.

(** *** Every step preserves the invariant *)

Lemma body_ok_cons t o p : body_ok t (o :: p) → o ≠ OExit → item_ok t o = true ∧ body_ok t p.
Proof.
  intros ([|o' b] & E & Hb) Hne; simplify_eq/=. apply Forall_cons in Hb as [Ho Hb].
  split; [by apply Is_true_true|]. by exists b.
Qed.

Lemma body_ok_app t k p : Forall (item_ok t) k → body_ok t p → body_ok t (k ++ p).
Proof. intros Hk (b & -> & Hb). exists (k ++ b). rewrite <-app_assoc. split; [done|]. by apply Forall_app. Qed.

Lemma born_app p q : born (p ++ q) = born p ++ born q.
Proof. apply omap_app. Qed.

Lemma tids_app p q : tids (p ++ q) = tids p ++ tids q.
Proof. apply omap_app. Qed.

Lemma tids_ok_app k p : tids k = [] → tids_ok p → tids_ok (k ++ p).
Proof.
  induction k as [|o k IH]; [done|]. intros Hk Hp.
  assert (tids k = []) as Hk' by (unfold tids in Hk; simpl in Hk; by destruct o).
  split; [|by apply IH]. change (tids ((o :: k) ++ p) ⊆ born ((o :: k) ++ p)).
  rewrite tids_app, Hk, born_app. simpl. destruct p as [|o' p]; [set_solver|].
  destruct Hp as [Hp _]. set_solver.
Qed.

(** The running thread is an ordinary thread unless its next item is one of the
    idle thread's. *)
Lemma cur_body σ P o p :
  inv (σ, P) → P !! cur (ks σ) = Some (o :: p) → idle_item o = false →
  cur (ks σ) ≠ idle_thread (ks σ) ∧ body_ok (cur (ks σ)) (o :: p) ∧ tids_ok (o :: p).
Proof.
  intros [_ _ Hp] HP Ho. simpl in *. assert (cur (ks σ) ≠ idle_thread (ks σ)) as Hci.
  { intros E. destruct (pi_idle _ _ _ Hp) as (r & Hr & Hf & _). rewrite <-E, HP in Hr. simplify_eq.
    apply Forall_cons in Hf as [Hf _]. by rewrite Ho in Hf. }
  split; [done|]. split; [by apply (pi_items _ _ _ Hp)|]. apply (pi_tids _ _ _ Hp _ _ HP).
Qed.

Lemma next_ok_items idle c o p k :
  c ≠ idle → body_ok c (o :: p) → o ≠ OExit → Forall (item_ok c) k →
  born k = born [o] → tids k = [] → tids_ok (o :: p) → next_ok idle c (o :: p) (k ++ p).
Proof.
  intros Hc Hb Ho Hk Hbk Htk [_ Htp]. destruct (body_ok_cons _ _ _ Hb Ho) as [_ Hp]. split; [|split].
  - rewrite decide_False by done. by apply body_ok_app.
  - change (o :: p) with ([o] ++ p). by rewrite !born_app, Hbk.
  - by apply tids_ok_app.
Qed.

(** A step that leaves the semaphores alone. *)
Lemma inv_quiet_same σ σ' P p q :
  inv (σ, P) → P !! cur (ks σ) = Some p → semas σ' = semas σ → quiet (ks σ) (ks σ') →
  wait_on p = None ∨ wait_on q = wait_on p →
  next_ok (idle_thread (ks σ)) (cur (ks σ)) p q →
  inv (σ', <[cur (ks σ) := q]> P).
Proof.
  intros Hinv HP Hsem (Hs & Hst & Hc & Hid) Hw Hq.
  apply (inv_quiet σ σ' P p q); try done.
  - intros i. by rewrite Hsem.
  - intros i. rewrite Hsem. apply (vi_nonneg _ (inv_view _ Hinv) i).
  - intros i _. rewrite Hsem, decide_False; [lia|]. intros [E1 E2]. destruct Hw; congruence.
Qed.

Lemma quiet_intr s b : sched_inv s → quiet s (set_intr s b).
Proof. intros Hs. split_and!; try done. by apply (sched_inv_ext s). Qed.

Lemma quiet_refl s : sched_inv s → quiet s s.
Proof. by intros. Qed.

(** Taking a semaphore whose value is positive. *)
Lemma inv_take σ P p q i sm b :
  inv (σ, P) → P !! cur (ks σ) = Some p → semas σ !! i = Some sm → 0 < value sm →
  (∀ j, wait_on p = Some j → j = i) →
  next_ok (idle_thread (ks σ)) (cur (ks σ)) p q →
  inv (SState (set_intr (ks σ) b) (<[i := Sema (u32 (value sm - 1)) (waiters sm)]> (semas σ))
    (holders σ) (conds σ), <[cur (ks σ) := q]> P).
Proof.
  intros Hinv HP Hi Hval Hw Hq. destruct (quiet_intr (ks σ) b (inv_sched _ Hinv)) as (Hs & Hst & Hc & Hid).
  pose proof (u32_le (value sm - 1) ltac:(lia)). pose proof (u32_range (value sm - 1)) as Hr. unfold is_u32 in Hr.
  apply (inv_quiet σ _ P p q); try done; simpl; intros j; destruct (decide (j = i)) as [->|Hj].
  - by rewrite lookup_insert_eq, Hi.
  - by rewrite lookup_insert_ne.
  - rewrite lookup_insert_eq. simpl. lia.
  - rewrite lookup_insert_ne by done. apply (vi_nonneg _ (inv_view _ Hinv) j).
  - intros _. rewrite lookup_insert_eq, Hi. simpl. case_decide; lia.
  - intros _. rewrite lookup_insert_ne by done. rewrite decide_False; [lia|]. intros [E _]. by apply Hj, Hw.
Qed.

Lemma exec_sema_down_inv σ P i p :
  inv (σ, P) → P !! cur (ks σ) = Some (OSemaDown i :: p) →
  inv (set_ks σ (set_intr (ks σ) false), <[cur (ks σ) := [OSemaWait i (intr (ks σ))] ++ p]> P).
Proof.
  intros Hinv HP. destruct (cur_body _ _ _ _ Hinv HP) as (Hci & Hb & Htk); [done|].
  apply (inv_quiet_same σ _ P (OSemaDown i :: p)); try done.
  - apply quiet_intr, (inv_sched _ Hinv).
  - by left.
  - apply next_ok_items; try done. destruct (body_ok_cons _ _ _ Hb) as [Ho _]; [done|].
    apply Forall_singleton. destruct i; simpl in *; by rewrite ?Ho.
Qed.

Lemma exec_sema_wait_inv σ P i b p σ' k :
  inv (σ, P) → P !! cur (ks σ) = Some (OSemaWait i b :: p) →
  exec None (OSemaWait i b) σ = Ok (σ', k) → inv (σ', <[cur (ks σ) := k ++ p]> P).
Proof.
  intros Hinv HP Hex. destruct (cur_body _ _ _ _ Hinv HP) as (Hci & Hb & Htk); [done|].
  simpl in Hex. unfold sema_down_iter, get_sema in Hex.
  destruct (semas σ !! i) as [sm|] eqn:Hi; [|done]. cbn [deref mbind res_bind] in Hex.
  pose proof (vi_nonneg _ (inv_view _ Hinv) i) as Hnn. simpl in Hnn. rewrite Hi in Hnn. simpl in Hnn.
  destruct (Z.eqb_spec (value sm) 0) as [E0|E0].
  - rewrite (thread_current_ok (ks σ) (inv_sched _ Hinv)) in Hex. cbn [mbind res_bind] in Hex.
    destruct (intr (ks σ)) eqn:Hintr.
    { unfold thread_block in Hex. simpl in Hex. by rewrite Hintr in Hex. }
    destruct (thread_block_ok (ks σ) (inv_sched _ Hinv) Hintr) as (s' & Hb' & Hg).
    simpl in Hex. rewrite Hb' in Hex. destruct sm as [v ws]. simpl in E0. subst v. simplify_eq/=.
    rewrite insert_id by done.
    by apply (inv_sleep σ P (OSemaWait i b :: p)).
  - simplify_eq/=. apply (inv_take σ P (OSemaWait i b :: p)); try done; [lia| |].
    + intros j. simpl. congruence.
    + by apply (next_ok_items _ _ _ _ []).
Qed.

Lemma sema_try_down_inv σ P o p i σ' (r : bool) k :
  inv (σ, P) → P !! cur (ks σ) = Some (o :: p) → wait_on (o :: p) = None →
  sema_try_down σ i = Ok (r, σ') →
  next_ok (idle_thread (ks σ)) (cur (ks σ)) (o :: p) (k ++ p) →
  inv (σ', <[cur (ks σ) := k ++ p]> P).
Proof.
  intros Hinv HP Hw Hex Hq. unfold sema_try_down, get_sema in Hex.
  destruct (semas σ !! i) as [sm|] eqn:Hi; [|done]. cbn [deref mbind res_bind] in Hex.
  destruct (Z.ltb_spec 0 (value sm)); simplify_eq.
  - replace (set_sema σ i (Sema (u32 (value sm - 1)) (waiters sm))) with
      (SState (set_intr (ks σ) (intr (ks σ))) (<[i := Sema (u32 (value sm - 1)) (waiters sm)]> (semas σ))
        (holders σ) (conds σ)) by (destruct σ as [s0]; by destruct s0).
    apply (inv_take σ P (o :: p)); try done. intros j. by rewrite Hw.
  - apply (inv_quiet_same σ' σ' P (o :: p)); try done; [|by left]. apply quiet_refl, (inv_sched _ Hinv).
Qed.

Lemma exec_sema_up_inv σ P i p σ' :
  inv (σ, P) → P !! cur (ks σ) = Some (OSemaUp i :: p) →
  sema_up σ i = Ok σ' → inv (σ', <[cur (ks σ) := p]> P).
Proof.
  intros Hinv HP Hex. destruct (cur_body _ _ _ _ Hinv HP) as (Hci & Hb & Htk); [done|].
  destruct (semas σ !! i) as [sm|] eqn:Hi.
  - destruct (sema_up_ok _ _ _ _ Hinv Hi) as (s' & Hup & Hinv' & Hc & _ & Hid & _).
    rewrite Hup in Hex. simplify_eq. rewrite <-Hc in HP |- *.
    apply (inv_quiet_same _ _ P (OSemaUp i :: p) p Hinv'); simpl; try done.
    + apply quiet_refl, (inv_sched _ Hinv').
    + by left.
    + rewrite Hid, Hc. by apply (next_ok_items _ _ _ _ []).
  - unfold sema_up, get_sema in Hex. simpl in Hex. by rewrite Hi in Hex.
Qed.

(** Items that touch only locks, conditions and the programs. *)
Lemma inv_local σ σ' P o p k :
  inv (σ, P) → P !! cur (ks σ) = Some (o :: p) → idle_item o = false → o ≠ OExit →
  wait_on (o :: p) = None → semas σ' = semas σ → ks σ' = ks σ → Forall (item_ok (cur (ks σ))) k →
  born k = born [o] → tids k = [] →
  inv (σ', <[cur (ks σ) := k ++ p]> P).
Proof.
  intros Hinv HP Hidle Ho Hw Hsem Hks Hk Hbk Htk. destruct (cur_body _ _ _ _ Hinv HP) as (Hci & Hb & Htp); [done|].
  apply (inv_quiet_same σ σ' P (o :: p)); try done; [|by left|by apply next_ok_items].
  rewrite Hks. apply quiet_refl, (inv_sched _ Hinv).
Qed.

(** The semaphore on the stack of the running thread has no waiters. *)
Lemma own_waiter_free σ P o p :
  inv (σ, P) → P !! cur (ks σ) = Some (o :: p) →
  from_option waiters [] (semas σ !! SWaiter (cur (ks σ))) = [].
Proof.
  intros Hinv HP. pose proof (cur_running _ Hinv) as Hcur. simpl in Hcur. destruct (Hinv) as [Hs Hv Hp].
  destruct (from_option waiters [] (semas σ !! SWaiter (cur (ks σ)))) as [|t ws] eqn:E; [done|].
  assert (t ∈ vW (view_of (σ, P)) (SWaiter (cur (ks σ)))) as Hin by (simpl; rewrite E; set_solver).
  destruct (vi_waiter _ Hv _ _ Hin) as [Hst HH]. pose proof (vi_not_idle _ _ _ Hv Hin) as Hti. simpl in *.
  unfold vH in HH. simpl in HH. destruct (P !! t) as [r|] eqn:Hr; [|done]. simpl in HH.
  apply (wait_on_item t) in HH; [|by apply (pi_items _ _ _ Hp)]. subst. congruence.
Qed.

Lemma exec_cond_wait_inv σ P c l p ws :
  inv (σ, P) → P !! cur (ks σ) = Some (OCondWait c l :: p) →
  inv (set_cond (sema_init σ (SWaiter (cur (ks σ))) 0) c ws,
    <[cur (ks σ) := [OLockRelease l; OSemaDown (SWaiter (cur (ks σ))); OLockAcquire l] ++ p]> P).
Proof.
  intros Hinv HP. destruct (cur_body _ _ _ _ Hinv HP) as (Hci & Hb & Htk); [done|].
  pose proof (own_waiter_free _ _ _ _ Hinv HP) as Hw.
  apply (inv_quiet σ _ P (OCondWait c l :: p)); simpl; try done.
  - apply (inv_sched _ Hinv).
  - intros j. destruct (decide (j = SWaiter (cur (ks σ)))) as [->|Hj].
    + by rewrite lookup_insert_eq, Hw.
    + by rewrite lookup_insert_ne.
  - intros j. destruct (decide (j = SWaiter (cur (ks σ)))) as [->|Hj].
    + by rewrite lookup_insert_eq.
    + rewrite lookup_insert_ne by done. apply (vi_nonneg _ (inv_view _ Hinv) j).
  - intros j Hj. destruct (decide (j = SWaiter (cur (ks σ)))) as [->|Hj']; [by rewrite Hw in Hj|].
    rewrite lookup_insert_ne by done. lia.
  - apply (next_ok_items _ _ _ _ [_; _; _]); try done. repeat constructor. simpl. by rewrite Z.eqb_refl.
Qed.

Lemma exec_yield_inv σ P o p s' b :
  inv (σ, P) → P !! cur (ks σ) = Some (o :: p) → o = OYield →
  thread_yield (ks σ) = Ok s' →
  inv (set_ks σ s', <[cur (ks σ) := [OIntrSet b] ++ p]> P).
Proof.
  intros Hinv HP -> Hy. destruct (cur_body _ _ _ _ Hinv HP) as (Hci & Hb & Htk); [done|].
  destruct (thread_yield_ok (ks σ) (inv_sched _ Hinv)) as (s1 & Hy1 & Hg). rewrite Hy in Hy1. injection Hy1 as <-.
  apply (inv_switch σ P (OYield :: p) _ s' _ THREAD_READY Hinv HP Hg).
  - case_decide; set_solver.
  - by left.
  - by left.
  - apply (next_ok_items _ _ _ _ [_]); try done. by repeat constructor.
Qed.

(** A preempted thread keeps its program, below the return from interrupt. *)
Lemma preempt_inv σ P p s s' :
  inv (σ, P) → P !! cur (ks σ) = Some p → quiet (ks σ) s → ready_list s = ready_list (ks σ) →
  thread_yield s = Ok s' →
  inv (set_ks σ s', <[cur (ks σ) := OIntrSet true :: p]> P).
Proof.
  intros Hinv HP (Hs & Hst & Hc & Hid) Hr Hy.
  destruct (thread_yield_ok s Hs) as (s1 & Hy1 & Hg). rewrite Hy in Hy1. injection Hy1 as <-.
  assert (inv (set_ks σ s, P)) as Hinv'.
  { rewrite <-(insert_id P (cur (ks σ)) p) by done.
    apply (inv_quiet_same σ _ P p p); try done; [by right|].
    pose proof (inv_prog _ Hinv) as Hp. simpl in Hp.
    split_and!; [|done|by apply (pi_tids _ _ _ Hp _ _ HP)].
    destruct (decide (cur (ks σ) = idle_thread (ks σ))) as [E|E].
    - destruct (pi_idle _ _ _ Hp) as (r & Hr' & ?). rewrite <-E, HP in Hr'. by simplify_eq.
    - by apply (pi_items _ _ _ Hp). }
  rewrite <-Hc in HP |- *.
  apply (inv_switch (set_ks σ s) P p _ s' _ THREAD_READY Hinv' HP Hg); simpl.
  - case_decide; set_solver.
  - by left.
  - by right.
  - pose proof (inv_prog _ Hinv') as Hp. simpl in Hp.
    split; [|split; [done|by apply (tids_ok_app [_]), (pi_tids _ _ _ Hp _ _ HP)]].
    destruct (decide (cur s = idle_thread s)) as [E|E].
    + destruct (pi_idle _ _ _ Hp) as (r & Hr' & Hf & Hl). rewrite <-E, HP in Hr'. simplify_eq.
      split; [by constructor|]. by destruct r.
    + destruct (pi_items _ _ _ Hp _ _ HP E) as (b & -> & Hb). exists (OIntrSet true :: b).
      split; [done|]. by constructor.
Qed.

Lemma exec_idle_inv σ P p s' :
  inv (σ, P) → P !! cur (ks σ) = Some (OIdle :: p) →
  thread_block (set_intr (ks σ) false) = Ok s' →
  inv (set_ks σ s', <[cur (ks σ) := [OSti; OIdle] ++ p]> P).
Proof.
  intros Hinv HP Hbl. pose proof (inv_prog _ Hinv) as Hp. simpl in Hp.
  assert (cur (ks σ) = idle_thread (ks σ)) as Hci.
  { destruct (decide (cur (ks σ) = idle_thread (ks σ))) as [|E]; [done|].
    destruct (pi_items _ _ _ Hp _ _ HP E) as ([|o b] & Eb & Hb); simplify_eq/=.
    apply Forall_cons in Hb as [Hb _]. done. }
  destruct (pi_idle _ _ _ Hp) as (r & Hr & Hf & Hl). rewrite <-Hci, HP in Hr. simplify_eq.
  apply Forall_cons in Hf as [_ Hf].
  destruct (quiet_intr (ks σ) false (inv_sched _ Hinv)) as (Hs & _).
  destruct (thread_block_ok (set_intr (ks σ) false) Hs eq_refl) as (s1 & Hbl1 & Hg). rewrite Hbl in Hbl1. injection Hbl1 as <-.
  assert (gave_up (ks σ) s' (ready_list (ks σ)) (Some THREAD_BLOCKED)) as Hg'
    by (destruct Hg; by split).
  apply (inv_switch σ P (OIdle :: p) _ s' _ THREAD_BLOCKED Hinv HP Hg').
  - set_solver.
  - by right.
  - by left.
  - split; [|split; [done|]].
    2: { apply (tids_ok_app [_; _]); [done|]. apply (pi_tids _ _ _ Hp _ _ HP). }
    rewrite decide_True by done. split; [repeat constructor; done|].
    destruct p as [|o p]; [done|]. by rewrite <-Hl.
Qed.

Lemma exec_create_inv σ P pri prog p t σ' k :
  inv (σ, P) → P !! cur (ks σ) = Some (OCreate pri prog :: p) →
  t ≠ NULL → threads (ks σ) !! t = None →
  exec (Some t) (OCreate pri prog) σ = Ok (σ', k) → inv (σ', <[cur (ks σ) := k ++ p]> P).
Proof.
  intros Hinv HP Ht0 Hfresh Hex. destruct (cur_body _ _ _ _ Hinv HP) as (Hci & Hb & Htk); [done|].
  destruct (body_ok_cons _ _ _ Hb) as [Hu Hp]; [done|]. simpl in Hu, Hex.
  destruct (decide (PRI_MIN ≤ pri ≤ PRI_MAX)) as [Hpri|Hpri].
  - destruct (init_thread_ok (ks σ) t pri (inv_sched _ Hinv) Ht0 Hfresh Hpri)
      as (s' & Hi & Hs' & Hc & Hid & Hst & Hoth).
    rewrite Hi in Hex. simplify_eq/=.
    apply (inv_create σ P (OCreate pri prog :: p) _ s' t Hinv HP Hci); try done.
    + apply (body_ok_app _ [_; _; _; _]); [|done]. repeat constructor. by apply Is_true_true.
    + destruct Htk as [_ Htk]. split; [|split; [|split; [|split]]]; try done;
        unfold tids, born in *; simpl; try set_solver.
      all: destruct p as [|o p]; [set_solver|]; destruct Htk as [Htk _]; unfold tids, born in Htk; set_solver.
  - unfold init_thread in Hex. rewrite (proj2 (Z.eqb_neq _ _)) in Hex by done. simpl in Hex.
    destruct (Z.leb_spec PRI_MIN pri), (Z.leb_spec pri PRI_MAX); simpl in Hex; try done. lia.
Qed.

Lemma exec_set_tid_inv σ P t p σ' k :
  inv (σ, P) → P !! cur (ks σ) = Some (OSetTid t :: p) →
  exec None (OSetTid t) σ = Ok (σ', k) → inv (σ', <[cur (ks σ) := k ++ p]> P).
Proof.
  intros Hinv HP Hex. destruct (cur_body _ _ _ _ Hinv HP) as (Hci & Hb & Htk); [done|].
  assert (sched_inv (set_next_tid (ks σ) (s32 (next_tid (ks σ) + 1)))) as Hs
    by (apply (sched_inv_ext (ks σ)); [done..|apply (inv_sched _ Hinv)]).
  assert (stat (ks σ) t = Some THREAD_BLOCKED) as Hst.
  { apply (pi_born _ _ _ (inv_prog _ Hinv) _ _ _ HP). destruct Htk as [Htk _]. apply Htk.
    unfold tids. simpl. set_solver. }
  destruct (upd_thread_quiet _ t (with_tid (next_tid (ks σ))) Hs) as (s' & Hup & Hq);
    [change (is_Some (stat (ks σ) t)); by eexists|done|].
  simpl in Hex. rewrite Hup in Hex. simplify_eq/=.
  apply (inv_quiet_same σ _ P (OSetTid t :: p)); try done; [by left|].
  by apply (next_ok_items _ _ _ _ []).
Qed.

Lemma exec_finish_inv σ P t prog p σ' k :
  inv (σ, P) → P !! cur (ks σ) = Some (OCreateFinish t prog :: p) →
  exec None (OCreateFinish t prog) σ = Ok (σ', k) →
  inv (σ', next_progs P (cur (ks σ)) (OCreateFinish t prog) (k ++ p)).
Proof.
  intros Hinv HP Hex. destruct (cur_body _ _ _ _ Hinv HP) as (Hci & Hb & Htk); [done|].
  destruct (body_ok_cons _ _ _ Hb) as [Hu Hp]; [done|]. simpl in Hu.
  destruct (pi_born _ _ _ (inv_prog _ Hinv) _ _ t HP) as [Hst HPt]; [unfold born; simpl; set_solver|].
  simpl in Hst, HPt.
  assert (t ≠ idle_thread (ks σ)) as Hti.
  { intros ->. destruct (pi_idle _ _ _ (inv_prog _ Hinv)) as (r & Hr & _). simpl in Hr. congruence. }
  assert (last_child_live (ks σ)) as Hlast by (simpl in Hex; res_inv; by eapply create_finish_live).
  destruct (create_finish_ok σ t (inv_sched _ Hinv) Hst Hti Hlast) as (s' & Hf & Hs' & Hc & Hid & Hst' & Hoth).
  simpl in Hex. rewrite Hf in Hex. simplify_eq/=. destruct (user_born _ Hu) as [Ebp Etp].
  apply (inv_finish σ P (OCreateFinish t prog :: p) p s' t _ Hinv HP Hci); try done.
  - by destruct Htk.
  - exists (OIntrSet true :: prog). split; [done|]. constructor; [done|]. by apply user_items.
  - change (born ([OIntrSet true] ++ prog ++ [OExit]) = []). by rewrite !born_app, Ebp.
  - rewrite app_comm_cons. apply tids_ok_app; [|split; [done|done]].
    change (tids ([OIntrSet true] ++ prog) = []). by rewrite tids_app, Etp.
  - simpl. by apply wait_on_user.
Qed.

Lemma exec_exit_inv σ P p s' :
  inv (σ, P) → P !! cur (ks σ) = Some (OExit :: p) →
  thread_exit (ks σ) = Ok s' → inv (set_ks σ s', delete (cur (ks σ)) P).
Proof.
  intros Hinv HP Hex. destruct (cur_body _ _ _ _ Hinv HP) as (Hci & Hb & Htk); [done|].
  destruct Hb as ([|o b] & Eb & Hb); [|simplify_eq/=; apply Forall_cons in Hb as [Hb _]; done].
  simplify_eq/=. destruct (thread_exit_ok (ks σ) (inv_sched _ Hinv) Hci) as (s1 & Hex1 & Hg).
  rewrite Hex in Hex1. injection Hex1 as <-. eapply (inv_exit σ P [OExit]); [done..|].
  case_decide; auto.
Qed.

(** Enabling or disabling interrupts. *)
Lemma exec_intr_inv σ P o p b :
  inv (σ, P) → P !! cur (ks σ) = Some (o :: p) → o = OSti ∨ (∃ b', o = OIntrSet b') →
  inv (set_ks σ (set_intr (ks σ) b), <[cur (ks σ) := p]> P).
Proof.
  intros Hinv HP Ho. pose proof (inv_prog _ Hinv) as Hp. simpl in Hp.
  pose proof (pi_tids _ _ _ Hp _ _ HP) as [_ Htp].
  apply (inv_quiet_same σ _ P (o :: p)); try done.
  - apply quiet_intr, (inv_sched _ Hinv).
  - destruct Ho as [->|[b' ->]]; [by left|by right].
  - split; [|split; [by destruct Ho as [->|[b' ->]]|done]].
    destruct (decide (cur (ks σ) = idle_thread (ks σ))) as [E|E].
    + destruct (pi_idle _ _ _ Hp) as (r & Hr & Hf & Hl). rewrite <-E, HP in Hr. simplify_eq.
      apply Forall_cons in Hf as [_ Hf]. split; [done|].
      destruct p as [|o' p]; [|done]. destruct Ho as [->|[b' ->]]; done.
    + apply (body_ok_cons _ o); [by apply (pi_items _ _ _ Hp)|]. by destruct Ho as [->|[b' ->]].
Qed.

(** The lock operations, which look at the holder first. *)
Lemma exec_lock_inv σ P o p page σ' k :
  inv (σ, P) → P !! cur (ks σ) = Some (o :: p) →
  match o with
  | OLockAcquire _ | OLockTryAcquire _ | OSetHolder _ | OLockRelease _ => True
  | _ => False
  end →
  exec page o σ = Ok (σ', k) → inv (σ', <[cur (ks σ) := k ++ p]> P).
Proof.
  intros Hinv HP Ho Hex. destruct o; try done; exec_cbn in Hex.
  - destruct (lock_held_by_current_thread σ l) as [[]| |]; try done. simplify_eq/=.
    apply (inv_local σ' σ' P (OLockAcquire l) p [_; _]); try done. by repeat constructor.
  - destruct (lock_held_by_current_thread σ l) as [[]| |]; try done. simpl in Hex.
    destruct (sema_try_down σ (SLock l)) as [[r σ1]| |] eqn:E; try done. simplify_eq/=.
    destruct (cur_body _ _ _ _ Hinv HP) as (Hci & Hb & Htk); [done|].
    apply (sema_try_down_inv σ P (OLockTryAcquire l) p (SLock l) σ' r); try done.
    apply next_ok_items; try done; destruct r; try done. by repeat constructor.
  - rewrite (thread_current_ok (ks σ) (inv_sched _ Hinv)) in Hex. simplify_eq/=.
    by apply (inv_local σ _ P (OSetHolder l) p []).
  - destruct (lock_held_by_current_thread σ l) as [[]| |]; try done. simplify_eq/=.
    apply (inv_local σ _ P (OLockRelease l) p [_]); try done. by repeat constructor.
Qed.

Lemma exec_cond_inv σ P o p page σ' k :
  inv (σ, P) → P !! cur (ks σ) = Some (o :: p) →
  match o with OCondWait _ _ | OCondSignal _ _ | OCondBroadcast _ _ => True | _ => False end →
  exec page o σ = Ok (σ', k) → inv (σ', <[cur (ks σ) := k ++ p]> P).
Proof.
  intros Hinv HP Ho Hex. destruct o; try done; exec_cbn in Hex.
  - destruct (lock_held_by_current_thread σ l) as [[]| |]; try done.
    rewrite (thread_current_ok (ks σ) (inv_sched _ Hinv)) in Hex. simpl in Hex.
    destruct (conds σ !! c) as [ws|] eqn:Hc; try done. simplify_eq/=. by apply exec_cond_wait_inv.
  - destruct (lock_held_by_current_thread σ l) as [[]| |]; try done. simpl in Hex.
    destruct (conds σ !! c) as [[|w ws]|] eqn:Hc; try done; simplify_eq/=.
    + by apply (inv_local σ' σ' P (OCondSignal c l) p []).
    + apply (inv_local σ _ P (OCondSignal c l) p [_]); try done. by repeat constructor.
  - destruct (conds σ !! c) as [[|w ws]|] eqn:Hc; try done; simplify_eq/=.
    + by apply (inv_local σ' σ' P (OCondBroadcast c l) p []).
    + apply (inv_local σ' σ' P (OCondBroadcast c l) p [_; _]); try done. by repeat constructor.
Qed.

Lemma exec_inv σ P o p page σ' k :
  inv (σ, P) → P !! cur (ks σ) = Some (o :: p) →
  (∀ t, page = Some t → t ≠ NULL ∧ threads (ks σ) !! t = None) →
  exec page o σ = Ok (σ', k) → inv (σ', next_progs P (cur (ks σ)) o (k ++ p)).
Proof.
  intros Hinv HP Hpage Hex. destruct o; cbn [next_progs];
    try (by apply (exec_lock_inv σ P _ p page σ' k Hinv HP I Hex));
    try (by apply (exec_cond_inv σ P _ p page σ' k Hinv HP I Hex));
    try (by eapply exec_sema_wait_inv); try (by eapply exec_set_tid_inv);
    try (by eapply (exec_finish_inv σ)); exec_cbn in Hex.
  - simplify_eq/=. by apply exec_sema_down_inv.
  - destruct (sema_try_down σ i) as [[r σ1]| |] eqn:E; try done. simplify_eq/=.
    destruct (cur_body _ _ _ _ Hinv HP) as (Hci & Hb & Htk); [done|].
    apply (sema_try_down_inv σ P (OSemaTryDown i) p i σ' r []); try done. by apply next_ok_items.
  - destruct (sema_up σ i) as [σ1| |] eqn:E; try done. simplify_eq/=. by eapply exec_sema_up_inv.
  - destruct (thread_yield (ks σ)) as [s| |] eqn:E; try done. simplify_eq/=. by eapply exec_yield_inv.
  - simplify_eq/=. by eapply exec_intr_inv; eauto.
  - destruct page as [t|].
    + destruct (Hpage t eq_refl). by eapply exec_create_inv.
    + simplify_eq/=. by apply (inv_local σ' σ' P (OCreate priority prog) p []).
  - destruct (thread_block (set_intr (ks σ) false)) as [s| |] eqn:E; try done. simplify_eq/=.
    by apply exec_idle_inv.
  - simplify_eq/=. by eapply exec_intr_inv; eauto.
  - destruct (thread_exit (ks σ)) as [s| |] eqn:E; try done. simplify_eq/=. by eapply exec_exit_inv.
Qed.

(** The tick handler changes only counters. *)
Lemma thread_tick_ok s :
  sched_inv s →
  ∃ s', thread_tick s = Ok (s', TIME_SLICE <=? u32 (thread_ticks s + 1)) ∧
    quiet s s' ∧ ready_list s' = ready_list s ∧ thread_ticks s' = u32 (thread_ticks s + 1).
Proof.
  intros Hs. unfold thread_tick, get_thread. rewrite thread_current_ok by done. mstep.
  destruct (si_cur _ Hs) as (th & Hc & _). rewrite Hc. mstep.
  repeat (case_match; simplify_eq/=); eexists; (split; [done|]);
    split_and!; try done; (split_and!; try done; by apply (sched_inv_ext s)).
Qed.

Lemma timer_inv σ P p σ' y :
  inv (σ, P) → P !! cur (ks σ) = Some p → timer_interrupt σ = Ok (σ', y) →
  inv (σ', if y : bool then <[cur (ks σ) := OIntrSet true :: p]> P else P).
Proof.
  intros Hinv HP Ht. unfold timer_interrupt in Ht.
  destruct (quiet_intr (ks σ) false (inv_sched _ Hinv)) as (Hs & Hst & _).
  destruct (thread_tick_ok _ Hs) as (s1 & Htk & Hq & Hr & _). rewrite Htk in Ht. simpl in Ht.
  assert (quiet (ks σ) s1) as Hq1 by (eapply quiet_trans; [apply quiet_intr, (inv_sched _ Hinv)|done]).
  destruct (TIME_SLICE <=? _).
  - destruct (thread_yield s1) as [s2| |] eqn:Hy; try done. simplify_eq/=. by eapply preempt_inv.
  - simplify_eq/=. rewrite <-(insert_id P (cur (ks σ)) p) by done.
    apply (inv_quiet_same σ _ P p p); try done.
    + eapply quiet_trans; [done|]. by apply quiet_intr; destruct Hq1.
    + by right.
    + pose proof (inv_prog _ Hinv) as Hp. simpl in Hp.
      split; [|split; [done|by apply (pi_tids _ _ _ Hp _ _ HP)]].
      destruct (decide (cur (ks σ) = idle_thread (ks σ))) as [E|E]; [|by apply (pi_items _ _ _ Hp)].
      destruct (pi_idle _ _ _ Hp) as (r & Hr' & ?). rewrite <-E, HP in Hr'. by simplify_eq.
Qed.

Lemma inv_set_intr σ P b : inv (σ, P) → inv (set_ks σ (set_intr (ks σ) b), P).
Proof.
  intros [Hs Hv Hp]. split; simpl in *; [by apply (sched_inv_ext (ks σ))|exact Hv|exact Hp].
Qed.

(** The invariant holds in every state the kernel can get to. *)
Lemma step_inv c c' : inv c → step c c' → inv c'.
Proof.
  intros Hinv Hst. destruct Hst as [σ P page o p σ' k HP Hpage Hex|σ P p σ' y Hi HP Ht|σ P i σ' Hi [sm Hsm] _ Hup].
  - by eapply exec_inv.
  - by eapply timer_inv.
  - pose proof (inv_set_intr σ P false Hinv) as Hinv'.
    destruct (sema_up_ok _ _ i sm Hinv' Hsm) as (s' & Hup' & Hi' & _).
    rewrite Hup in Hup'. injection Hup' as ->. exact (inv_set_intr _ _ true Hi').
Qed.

Lemma steps_inv c c' : inv c → rtc step c c' → inv c'.
Proof. intros Hinv Hr. induction Hr; eauto using step_inv. Qed.

End invariant.
