(* ===== verification/SynchSafe.v ===== *)
(** Consequences for programs that run on the kernel of [Thread] and [Synch]:
    the state after [thread_start], what every state reachable from it
    satisfies, that the kernel's own assertions never fail, that locks exclude
    each other's critical sections, and that the run queue is first-in
    first-out. *)

From S2P Require Import Prelude Vaddr Thread Synch.

(** ** The state after [thread_start] *)

Definition cond_init (σ : sstate) (c : Z) : sstate := set_cond σ c [].

(** [thread_init] makes the running code the initial thread; [thread_start]
    creates the idle thread, its first child, which blocks once it has told who it is. *)
Definition started (main idle : Z) : kstate :=
  KState
    {[ main := Thread 1 THREAD_RUNNING (main + PGSIZE) PRI_DEFAULT no_links (ChildEnds (ChildElem idle) (ChildElem idle)) 0 0 THREAD_MAGIC;
       idle := Thread 2 THREAD_BLOCKED (idle + PGSIZE - 44) PRI_MIN (ChildLinks (ChildHead main) (ChildTail main)) (no_children idle) 0 2 THREAD_MAGIC ]}
    [] [main; idle] idle main main true 0 0 0 0 3.

(** The objects a kernel starts with, and the program [prog] of the initial
    thread. *)
Definition boot (main idle : Z) (prog : list op) (sems : list (Z * Z)) (locks conds : list Z) : config :=
  let σ := SState (started main idle) ∅ ∅ ∅ in
  let σ := foldr (λ l σ, lock_init σ l) σ (tid_lock :: locks) in
  let σ := foldr (λ c σ, cond_init σ c) σ conds in
  let σ := foldr (λ x σ, sema_init σ (SObj x.1) x.2) σ sems in
  (σ, {[ main := prog ++ [OExit]; idle := [OSti; OIdle] ]}).

(** What the callers of [boot] see to. *)
Definition boot_ok (main idle : Z) (prog : list op) (sems : list (Z * Z)) : bool :=
  negb (main =? NULL) && negb (idle =? NULL) && negb (main =? idle) &&
  forallb user_op prog && forallb (λ x, 0 <=? x.2) sems.

(** ** The shape of programs *)

Fixpoint strip (p : list op) : list op :=
  match p with OIntrSet _ :: p => strip p | _ => p end.

(** A program in which the acquisition of a lock is complete or not begun:
    [lock_acquire] sets the holder right after the semaphore has been taken. *)
Fixpoint clean (p : list op) : bool :=
  match p with
  | [] => true
  | OSetHolder _ :: _ | OSemaUp (SLock _) :: _ | OSemaWait _ _ :: _ => false
  | OSemaDown (SLock l) :: q =>
      match q with OSetHolder l' :: r => (l =? l') && clean r | _ => false end
  | _ :: q => clean q
  end.

Definition gram (p : list op) : bool :=
  match strip p with
  | OSetHolder _ :: q | OSemaUp (SLock _) :: q => clean q
  | q => clean q
  end.

Definition shape (p : list op) : bool :=
  match p with
  | OSemaWait i _ :: q => clean (OSemaDown i :: q)
  | p => gram p
  end.

Record ginv (c : config) : Prop := {
  gi_shape : ∀ t p, c.2 !! t = Some p → shape p = true;
  gi_cond : ∀ i ws w, conds c.1 !! i = Some ws → w ∈ ws → ∃ t, w = SWaiter t;
  gi_intr : ∀ i b p, c.2 !! cur (ks c.1) = Some (OSemaWait i b :: p) → intr (ks c.1) = false;
}.

(** The thread has taken the semaphore of the lock and not yet given it back:
    it is the holder, or about to become it, or about to finish the release. *)
Definition pending (l : Z) (p : list op) : bool :=
  match strip p with
  | OSetHolder l' :: _ | OSemaUp (SLock l') :: _ => l =? l'
  | _ => false
  end.

Definition in_section (c : config) (l t : Z) : Prop :=
  (holders c.1 !! l = Some t ∧ t ≠ NULL) ∨ (∃ p, c.2 !! t = Some p ∧ pending l p = true).

Definition linv (c : config) : Prop :=
  ∀ l sm, semas c.1 !! SLock l = Some sm →
    (value sm = 1 ∧ ∀ t, ¬ in_section c l t) ∨
    (value sm = 0 ∧ ∃ t, ∀ t', in_section c l t' ↔ t' = t).

(** A thread that is about to give the semaphore of a lock back is no longer
    its holder. *)
Definition releasing (l : Z) (p : list op) : bool :=
  match strip p with OSemaUp (SLock l') :: _ => l =? l' | _ => false end.

Definition rinv (c : config) : Prop :=
  ∀ t p l, c.2 !! t = Some p → releasing l p = true → holders c.1 !! l ≠ Some t.

Section grammar.
Implicit Types (p q : list op) (o : op) (t l : Z).

Lemma clean_shape p : clean p = true → shape p = true.
Proof.
  destruct p as [|o p]; [done|]. unfold shape, gram.
  intros Hc. assert (clean (strip (o :: p)) = true) as Hs.
  { revert Hc. generalize (o :: p). clear. intros p. induction p as [|[] p IH]; naive_solver. }
  destruct o; try done; destruct (strip _) as [|[| | |[]| | | | | | | | | | | | | | |] q]; done.
Qed.

Lemma clean_not_pending l p : clean p = true → pending l p = false.
Proof. unfold pending. induction p as [|[| | |[]| | | | | | | | | | | | | | |] p IH]; naive_solver. Qed.

Lemma clean_not_releasing l p : clean p = true → releasing l p = false.
Proof. unfold releasing. induction p as [|[| | |[]| | | | | | | | | | | | | | |] p IH]; naive_solver. Qed.

Lemma gram_shape p : gram p = true → shape p = true.
Proof. by destruct p as [|[] p]. Qed.

Lemma user_clean p q : forallb user_op p = true → clean q = true → clean (p ++ q) = true.
Proof.
  intros Hp Hq. induction p as [|o p IH]; [done|]. simpl in Hp. apply andb_true_iff in Hp as [Ho Hp].
  destruct o as [[]|[]|[]|[]| | | | | | | | | | | | | | |]; simpl in *; try done; auto.
Qed.

(** The rest of a program after its first item. *)
Lemma shape_tail o p :
  shape (o :: p) = true →
  match o with
  | OIntrSet _ => gram p = true
  | OSemaDown (SLock l) | OSemaWait (SLock l) _ => ∃ r, p = OSetHolder l :: r ∧ clean r = true
  | _ => clean p = true
  end.
Proof.
  destruct o as [[]|[]|[]|[]| | | | | | | | | | | | | | |]; try done; unfold shape, gram; simpl;
    destruct p as [|[] p]; try done; rewrite andb_true_iff, Z.eqb_eq; intros [-> ?]; eauto.
Qed.

End grammar.

(** Two runs of the same code have one outcome. *)
Ltac same_run :=
  repeat match goal with
  | H1 : ?m = Ok ?a, H2 : ?m = Ok ?b |- _ => rewrite H1 in H2; injection H2 as H2; subst
  end.

(** ** What a step does to the run queue *)

(** Threads join the queue at its end; when the running thread changes, it is
    to the head of the queue, or to the idle thread when the queue is empty,
    and interrupts are off. *)
Definition queue_effect (s s' : kstate) : Prop :=
  idle_thread s' = idle_thread s ∧ ∃ e,
    (cur s' = cur s ∧ ready_list s' = ready_list s ++ e) ∨
    (intr s' = false ∧ cur s' = default (idle_thread s) (head (ready_list s ++ e)) ∧
     ready_list s' = tail (ready_list s ++ e)).

Section effects.
Implicit Types (s : kstate) (σ : sstate) (P : gmap Z (list op)) (p k : list op) (t l : Z).

Lemma effect_stay s s' e :
  idle_thread s' = idle_thread s → cur s' = cur s → ready_list s' = ready_list s ++ e →
  queue_effect s s'.
Proof. intros. split; [done|]. exists e. by left. Qed.

Lemma effect_same s s' :
  idle_thread s' = idle_thread s → cur s' = cur s → ready_list s' = ready_list s →
  queue_effect s s'.
Proof. intros. apply (effect_stay _ _ []); [done..|]. by rewrite app_nil_r. Qed.

Lemma effect_gave_up s s' rest st e :
  gave_up s s' rest st → rest = ready_list s ++ e → queue_effect s s'.
Proof. intros Hg ->. destruct Hg. split; [done|]. exists e. by right. Qed.

Lemma upd_thread_same s t f s' :
  upd_thread s t f = Ok s' →
  idle_thread s' = idle_thread s ∧ cur s' = cur s ∧ ready_list s' = ready_list s.
Proof. unfold upd_thread. intros H. by res_inv. Qed.

Lemma alloc_frame_same s t sz a s' :
  alloc_frame s t sz = Ok (a, s') →
  idle_thread s' = idle_thread s ∧ cur s' = cur s ∧ ready_list s' = ready_list s.
Proof. unfold alloc_frame. intros H. res_inv. by eapply upd_thread_same. Qed.

Lemma push_child_same s c t s' :
  push_child s c t = Ok s' → idle_thread s' = idle_thread s ∧ cur s' = cur s ∧ ready_list s' = ready_list s.
Proof.
  unfold push_child, set_cnext. intros H. res_inv. case_match; res_inv;
    repeat match goal with H : upd_thread _ _ _ = Ok _ |- _ => apply upd_thread_same in H as (? & ? & ?) end; split_and!; congruence.
Qed.

Lemma create_finish_queue σ t σ' :
  create_finish σ t = Ok σ' →
  idle_thread (ks σ') = idle_thread (ks σ) ∧ cur (ks σ') = cur (ks σ) ∧
  ready_list (ks σ') = ready_list (ks σ) ++ [t] ∧
  semas σ' = semas σ ∧ holders σ' = holders σ ∧ conds σ' = conds σ.
Proof.
  unfold create_finish. intros H.
  repeat (res_inv; match goal with x : (Z * kstate)%type |- _ => destruct x; cbv iota beta in H end).
  res_inv. simpl.
  repeat match goal with
  | H : upd_thread _ _ _ = Ok _ |- _ => apply upd_thread_same in H as (? & ? & ?)
  | H : alloc_frame _ _ _ = Ok _ |- _ => apply alloc_frame_same in H as (? & ? & ?)
  | H : push_child _ _ _ = Ok _ |- _ => apply push_child_same in H as (? & ? & ?)
  end.
  match goal with H : thread_unblock _ _ = Ok _ |- _ => unfold thread_unblock in H end. res_inv.
  repeat match goal with
  | H : upd_thread _ _ _ = Ok _ |- _ => apply upd_thread_same in H as (? & ? & ?)
  end. simpl in *. split_and!; congruence.
Qed.

Lemma sema_try_down_ks σ i r σ' :
  sema_try_down σ i = Ok (r, σ') →
  ks σ' = ks σ ∧ holders σ' = holders σ ∧ conds σ' = conds σ.
Proof. unfold sema_try_down, get_sema. intros H. res_inv. case_match; by simplify_eq. Qed.

Lemma sema_wait_queue σ P i b taken σ' :
  inv (σ, P) → sema_down_iter σ i b = Ok (taken, σ') →
  queue_effect (ks σ) (ks σ') ∧ holders σ' = holders σ ∧ conds σ' = conds σ ∧
  (if taken : bool then cur (ks σ') = cur (ks σ) else intr (ks σ') = false).
Proof.
  intros Hinv H. unfold sema_down_iter, get_sema in H. res_inv. case_match; res_inv.
  - simpl in *.
    match goal with H : thread_block _ = Ok _ |- _ => rename H into Hb end.
    destruct (intr (ks σ)) eqn:Hi; [unfold thread_block in Hb; by rewrite Hi in Hb|].
    destruct (thread_block_ok _ (inv_sched _ Hinv) Hi) as (s' & Hb' & Hg). simpl in *.
    rewrite Hb in Hb'. injection Hb' as <-. split_and!; try done; [|apply Hg].
    eapply (effect_gave_up _ _ _ _ []); [done|]. by rewrite app_nil_r.
  - split_and!; try done. by apply effect_same.
Qed.

Lemma sema_up_queue σ P i σ' :
  inv (σ, P) → sema_up σ i = Ok σ' →
  queue_effect (ks σ) (ks σ') ∧ holders σ' = holders σ ∧ conds σ' = conds σ ∧
  cur (ks σ') = cur (ks σ) ∧ intr (ks σ') = intr (ks σ).
Proof.
  intros Hinv H. destruct (semas σ !! i) as [sm|] eqn:Hi.
  - destruct (sema_up_ok _ _ _ _ Hinv Hi) as (s' & Hup & _ & Hc & Hin & Hid & Hr).
    rewrite H in Hup. simplify_eq/=. split_and!; try done. by eapply effect_stay.
  - unfold sema_up, get_sema in H. simpl in H. by rewrite Hi in H.
Qed.

Lemma exec_queue σ P o p page σ' k :
  inv (σ, P) → P !! cur (ks σ) = Some (o :: p) → exec page o σ = Ok (σ', k) →
  queue_effect (ks σ) (ks σ').
Proof.
  intros Hinv HP Hex. pose proof (inv_sched _ Hinv) as Hs. simpl in Hs.
  destruct o; exec_cbn in Hex; res_inv; try (by apply effect_same).
  - destruct x as [taken σ1]. res_inv. by eapply sema_wait_queue.
  - destruct x as [r σ1]. res_inv. 
    match goal with H : sema_try_down _ _ = Ok _ |- _ => apply sema_try_down_ks in H as (Hk & _) end.
    rewrite Hk. by apply effect_same.
  - by eapply sema_up_queue.
  - destruct x0 as [r σ1]. res_inv.
    match goal with H : sema_try_down _ _ = Ok _ |- _ => apply sema_try_down_ks in H as (Hk & _) end.
    rewrite Hk. by apply effect_same.
  - case_match; res_inv; by apply effect_same.
  - case_match; res_inv; by apply effect_same.
  - destruct (thread_yield_ok _ Hs) as (s' & Hy & Hg). same_run.
    destruct (decide (cur (ks σ) = idle_thread (ks σ))).
    + apply (effect_gave_up _ _ _ _ [] Hg). by rewrite app_nil_r.
    + by apply (effect_gave_up _ _ _ _ [cur (ks σ)] Hg).
  - destruct page; res_inv; [|by apply effect_same].
    match goal with H : init_thread _ _ _ = Ok _ |- _ => unfold init_thread in H end. res_inv.
    by apply effect_same.
  - match goal with H : upd_thread _ _ _ = Ok _ |- _ => apply upd_thread_same in H as (? & ? & ?) end.
    by apply effect_same.
  - match goal with H : create_finish _ _ = Ok _ |- _ => apply create_finish_queue in H as (? & ? & ? & _) end.
    by eapply effect_stay.
  - destruct (quiet_intr (ks σ) false Hs) as (Hs0 & _).
    destruct (thread_block_ok (set_intr (ks σ) false) Hs0 eq_refl) as (s' & Hb & Hg). same_run.
    apply (effect_gave_up _ _ _ _ []) in Hg; [done|by rewrite app_nil_r].
  - destruct (cur_body _ _ _ _ Hinv HP) as (Hci & _); [done|].
    destruct (thread_exit_ok _ Hs Hci) as (s' & He & Hg). same_run.
    eapply (effect_gave_up _ _ _ _ []); [done|by rewrite app_nil_r].
Qed.

(** The program that is left keeps its shape, and when it waits for a
    semaphore then interrupts are off. *)
Definition waits (p : list op) : bool := match p with OSemaWait _ _ :: _ => true | _ => false end.

Lemma gram_no_wait p : gram p = true → waits p = false.
Proof. by destruct p as [|[] p]. Qed.

Lemma clean_left p (Q : Prop) : clean p = true → shape p = true ∧ (waits p = true → Q).
Proof. split; [by apply clean_shape|]. by destruct p as [|[] p]. Qed.

Lemma exec_shape σ P o p page σ' k :
  inv (σ, P) → ginv (σ, P) → P !! cur (ks σ) = Some (o :: p) → exec page o σ = Ok (σ', k) →
  shape (k ++ p) = true ∧ (waits (k ++ p) = true → intr (ks σ') = false).
Proof.
  intros Hinv Hg HP Hex. pose proof (shape_tail _ _ (gi_shape _ Hg _ _ HP)) as Ht.
  pose proof (gi_shape _ Hg _ _ HP) as Hsh.
  destruct o; exec_cbn in Hex; res_inv; try (apply clean_left; exact Ht).
  - split; [exact Hsh|done].
  - destruct x as [[] σ1]; res_inv.
    + destruct i; try (apply clean_left; exact Ht). destruct Ht as (r & -> & Hr). by split.
    + split; [exact Hsh|]. intros _. apply (sema_wait_queue _ _ _ _ _ _ Hinv H).
  - destruct x as [r σ1]. res_inv. apply clean_left; exact Ht.
  - split; [|done]. unfold shape, gram. simpl. by rewrite Z.eqb_refl.
  - destruct x0 as [r σ1]. res_inv. destruct r; [by split|]. apply clean_left; exact Ht.
  - by split.
  - case_match; res_inv; [apply clean_left; exact Ht|].
    match goal with H : conds σ !! c = Some (?w :: _) |- _ =>
      destruct (gi_cond _ Hg _ _ w H) as [t ->]; [set_solver|] end.
    apply clean_left; exact Ht.
  - case_match; res_inv; apply clean_left; exact Ht.
  - split; [by apply gram_shape|]. intros Hw. change (waits p = true) in Hw.
    by rewrite (gram_no_wait _ Ht) in Hw.
  - case_match; res_inv; apply clean_left; exact Ht.
Qed.

(** Only the semaphores of waiting threads are queued on conditions. *)
Lemma exec_conds σ P o page σ' k :
  inv (σ, P) → ginv (σ, P) → exec page o σ = Ok (σ', k) →
  ∀ i ws w, conds σ' !! i = Some ws → w ∈ ws → ∃ t, w = SWaiter t.
Proof.
  intros Hinv Hg Hex. pose proof (gi_cond _ Hg) as Hc. simpl in Hc.
  destruct o; exec_cbn in Hex; res_inv; try exact Hc.
  - destruct x as [r σ1]. res_inv. destruct (sema_wait_queue _ _ _ _ _ _ Hinv H) as (_ & _ & -> & _). done.
  - destruct x as [r σ1]. res_inv. by destruct (sema_try_down_ks _ _ _ _ H) as (_ & _ & ->).
  - by destruct (sema_up_queue _ _ _ _ Hinv H) as (_ & _ & -> & _).
  - destruct x0 as [r σ1]. res_inv. by destruct (sema_try_down_ks _ _ _ _ H0) as (_ & _ & ->).
  - simpl. intros i ws w. rewrite lookup_insert_Some. intros [[<- <-]|[_ Hi]] Hw; [|by eapply Hc].
    apply elem_of_app in Hw as [Hw| ->%list_elem_of_singleton]; [by eapply Hc|eauto].
  - case_match; res_inv; [done|]. simpl. intros i ws' w. rewrite lookup_insert_Some.
    intros [[<- <-]|[_ Hi]] Hw; eapply Hc; try done. by apply elem_of_cons; right.
  - case_match; by res_inv.
  - case_match; by res_inv.
  - by destruct (create_finish_queue _ _ _ H) as (_ & _ & _ & _ & _ & ->).
Qed.

Lemma timer_effect σ P σ' y :
  inv (σ, P) → timer_interrupt σ = Ok (σ', y) →
  queue_effect (ks σ) (ks σ') ∧ semas σ' = semas σ ∧ holders σ' = holders σ ∧ conds σ' = conds σ ∧
  (if y : bool then intr (ks σ') = false else cur (ks σ') = cur (ks σ)) ∧
  y = (TIME_SLICE <=? u32 (thread_ticks (ks σ) + 1)).
Proof.
  intros Hinv Ht. unfold timer_interrupt in Ht.
  destruct (quiet_intr (ks σ) false (inv_sched _ Hinv)) as (Hs & _).
  destruct (thread_tick_ok _ Hs) as (s1 & Htk & (Hs1 & _ & Hc & Hid) & Hr & _).
  rewrite Htk in Ht. simpl in *. destruct (TIME_SLICE <=? _); res_inv; simpl.
  - destruct (thread_yield_ok _ Hs1) as (s2 & Hy & Hg). same_run. split_and!; try done; [|apply Hg].
    destruct Hg as [_ Hg1 Hg2 Hg3 Hg4 _ _ _]. split; [congruence|].
    exists (if decide (cur s1 = idle_thread s1) then [] else [cur s1]). right. rewrite <-Hid, <-Hr.
    destruct (decide (cur s1 = idle_thread s1)); by rewrite ?app_nil_r.
  - split_and!; try done. by apply effect_same.
Qed.

Lemma next_progs_lookup P c o q t r :
  next_progs P c o q !! t = Some r →
  (t = c ∧ r = q ∧ o ≠ OExit) ∨ (t ≠ c ∧ P !! t = Some r) ∨
  (∃ prog, o = OCreateFinish t prog ∧ r = OIntrSet true :: prog ++ [OExit]).
Proof.
  destruct o; simpl; rewrite ?lookup_insert_Some, ?lookup_delete_Some; naive_solver.
Qed.

(** The idle thread never creates threads, and others only well-formed ones. *)
Lemma finish_user σ P t prog p :
  inv (σ, P) → P !! cur (ks σ) = Some (OCreateFinish t prog :: p) → forallb user_op prog = true.
Proof.
  intros Hinv HP. destruct (cur_body _ _ _ _ Hinv HP) as (_ & Hb & _); [done|].
  by destruct (body_ok_cons _ _ _ Hb) as [? _].
Qed.

Lemma step_ginv c c' : inv c → ginv c → step c c' → ginv c'.
Proof.
  intros Hinv Hg Hst.
  destruct Hst as [σ P page o p σ' k HP Hpage Hex|σ P p σ' y Hi HP Ht|σ P i σ' Hi [sm Hsm] _ Hup].
  - destruct (exec_shape _ _ _ _ _ _ _ Hinv Hg HP Hex) as [Hsh Hw].
    destruct (exec_queue _ _ _ _ _ _ _ Hinv HP Hex) as (_ & e & Hq). split; simpl.
    + intros t r [(-> & -> & _)|[(_ & Hr)|(prog & -> & ->)]]%next_progs_lookup; [done| |].
      * by apply (gi_shape _ Hg t).
      * apply clean_shape. apply (user_clean prog [OExit]); [|done]. by eapply finish_user.
    + by apply (exec_conds _ _ _ _ _ _ Hinv Hg Hex).
    + intros i b r Hr. destruct Hq as [[Hc _]|[Hin _]]; [|done]. rewrite Hc in Hr.
      apply next_progs_lookup in Hr as [(_ & E & _)|[(? & _)|(prog & -> & Hr)]]; [|done|done].
      apply Hw. by rewrite <-E.
  - destruct (timer_effect _ _ _ _ Hinv Ht) as (_ & _ & _ & Hcd & Hy & _).
    assert (gram p = true) as Hgp.
    { pose proof (gi_shape _ Hg _ _ HP) as Hsh. destruct p as [|[] p]; try done.
      pose proof (gi_intr _ Hg _ _ _ HP). simpl in *. congruence. }
    destruct y; split; simpl; rewrite ?Hcd; try apply Hg.
    + intros t r [[_ <-]|[_ Hr]]%lookup_insert_Some; [done|]. by apply (gi_shape _ Hg t).
    + done.
    + rewrite Hy, HP. intros i b r [= ->]. done.
  - destruct (sema_up_queue _ _ _ _ (inv_set_intr _ _ false Hinv) Hup) as (_ & _ & Hcd & Hc & _).
    split; simpl; rewrite ?Hcd; try apply Hg. simpl in Hc. rewrite Hc. intros j b p HP.
    pose proof (gi_intr _ Hg _ _ _ HP). simpl in *. congruence.
Qed.

End effects.

(** ** Locks *)

Section locks.
Implicit Types (σ : sstate) (P : gmap Z (list op)) (p q k : list op) (t l c : Z).

(** [in_section] with the running thread's program set apart. *)
Definition section_of σ P c (q : list op) l t : Prop :=
  (holders σ !! l = Some t ∧ t ≠ NULL) ∨ (t ≠ c ∧ ∃ r, P !! t = Some r ∧ pending l r = true) ∨
  (t = c ∧ pending l q = true).

Lemma in_section_of σ P c q l t :
  P !! c = Some q → in_section (σ, P) l t ↔ section_of σ P c q l t.
Proof.
  intros Hc. unfold in_section, section_of. simpl. destruct (decide (t = c)) as [->|Hne]; naive_solver.
Qed.

Lemma in_section_next σ P σ' o p q l t :
  inv (σ, P) → P !! cur (ks σ) = Some (o :: p) → (o = OExit → pending l q = false) →
  in_section (σ', next_progs P (cur (ks σ)) o q) l t ↔ section_of σ' P (cur (ks σ)) q l t.
Proof.
  intros Hinv HP Hex. unfold in_section, section_of. simpl. f_equiv. split.
  - intros (r & [(-> & -> & _)|[(Ht & Hr)|(prog & -> & ->)]]%next_progs_lookup & Hp); [by right|left; eauto|].
    pose proof (finish_user _ _ _ _ _ Hinv HP) as Hu.
    change (pending l (prog ++ [OExit]) = true) in Hp.
    by rewrite (clean_not_pending l _ (user_clean prog [OExit] Hu eq_refl)) in Hp.
  - assert (o = OExit ∨ o ≠ OExit) as [->|Ho] by (destruct o; auto).
    { intros [(Ht & r & Hr & Hp)|[-> Hp]]; [|by rewrite Hex in Hp]. exists r. simpl.
      by rewrite lookup_delete_ne. }
    intros [(Ht & r & Hr & Hp)|[-> Hp]].
    + exists r. split; [|done]. destruct o; simpl; rewrite ?lookup_delete_ne, ?lookup_insert_ne by done; try done.
      rewrite lookup_insert_ne; [by rewrite lookup_insert_ne|]. intros <-.
      destruct (pi_born _ _ _ (inv_prog _ Hinv) _ _ t0 HP) as [_ HPt]; [unfold born; simpl; set_solver|].
      simpl in HPt. congruence.
    + exists q. split; [|done]. destruct o; simpl; rewrite ?lookup_insert_eq; try done.
      rewrite lookup_insert_ne; [by rewrite lookup_insert_eq|]. intros ->.
      destruct (pi_born _ _ _ (inv_prog _ Hinv) _ _ (cur (ks σ)) HP) as [_ HPt]; [unfold born; simpl; set_solver|].
      simpl in HPt. congruence.
Qed.

(** The lock invariant in terms of the sets of threads in the sections. *)
Definition one_holder (v : Z) (S : Z → Prop) : Prop :=
  (v = 1 ∧ ∀ t, ¬ S t) ∨ (v = 0 ∧ ∃ t, ∀ t', S t' ↔ t' = t).

Lemma one_holder_ext v (S S' : Z → Prop) : (∀ t, S' t ↔ S t) → one_holder v S → one_holder v S'.
Proof. unfold one_holder. intros H. setoid_rewrite H. done. Qed.

Lemma linv_step σ P o p σ' q :
  inv (σ, P) → P !! cur (ks σ) = Some (o :: p) → linv (σ, P) → (o = OExit → ∀ l, pending l q = false) →
  (∀ l sm', semas σ' !! SLock l = Some sm' → ∃ sm, semas σ !! SLock l = Some sm ∧
    (one_holder (value sm) (section_of σ P (cur (ks σ)) (o :: p) l) →
     one_holder (value sm') (section_of σ' P (cur (ks σ)) q l))) →
  linv (σ', next_progs P (cur (ks σ)) o q).
Proof.
  intros Hinv HP Hl Hex Hstep l sm' Hsm'. simpl in Hsm'. destruct (Hstep l sm' Hsm') as (sm & Hsm & Himp).
  eapply one_holder_ext; [intros t; apply (in_section_next σ P σ' o p); auto|].
  apply Himp. eapply one_holder_ext; [|by apply (Hl l sm)]. intros t. symmetry. by apply in_section_of.
Qed.

(** Steps that leave the locks and the running thread's dealings with them. *)
Lemma linv_same σ P o p σ' q :
  inv (σ, P) → P !! cur (ks σ) = Some (o :: p) → linv (σ, P) →
  (∀ l, value <$> semas σ' !! SLock l = value <$> semas σ !! SLock l) →
  holders σ' = holders σ → (∀ l, pending l q = pending l (o :: p)) →
  linv (σ', next_progs P (cur (ks σ)) o q).
Proof.
  intros Hinv HP Hl Hv Hh Hpend. eapply linv_step; try done.
  { intros -> l. by rewrite Hpend. }
  intros l sm' Hsm'. specialize (Hv l). rewrite Hsm' in Hv. simpl in Hv. symmetry in Hv.
  apply fmap_Some in Hv as (sm & Hsm & ->). exists sm. split; [done|].
  apply one_holder_ext. intros t. unfold section_of. by rewrite Hh, Hpend.
Qed.

(** The semaphore of lock [l0] is taken by the running thread. *)
Lemma linv_take σ P o p σ' q l0 sm :
  inv (σ, P) → P !! cur (ks σ) = Some (o :: p) → linv (σ, P) → o ≠ OExit →
  semas σ !! SLock l0 = Some sm → value sm ≠ 0 →
  semas σ' = <[SLock l0 := Sema (u32 (value sm - 1)) (waiters sm)]> (semas σ) →
  holders σ' = holders σ →
  (∀ l, pending l (o :: p) = false) → (∀ l, pending l q = (l =? l0)) →
  linv (σ', next_progs P (cur (ks σ)) o q).
Proof.
  intros Hinv HP Hl Ho Hsm Hv Hs Hh Hpo Hpq. eapply linv_step; try done. intros l sm'. rewrite Hs.
  unfold section_of. rewrite Hh, Hpo, Hpq. destruct (decide (l = l0)) as [->|Hne].
  - rewrite lookup_insert_eq. intros [= <-]. exists sm. split; [done|]. rewrite Z.eqb_refl.
    intros [[Hv1 Hn]|[Hv0 _]]; [|done]. right. simpl. rewrite Hv1. split; [done|].
    exists (cur (ks σ)). intros t. split; [|by auto]. intros [H|[H|[H _]]]; [| |done].
    + destruct (Hn t). by left.
    + destruct (Hn t). by right; left.
  - rewrite lookup_insert_ne by congruence. intros Hsm'. exists sm'. split; [done|].
    rewrite (proj2 (Z.eqb_neq l l0)) by done. done.
Qed.

Lemma sema_value_set σ i v ws l sm :
  semas σ !! i = Some sm → v = value sm ∨ (∀ l, i ≠ SLock l) →
  value <$> <[i := Sema v ws]> (semas σ) !! SLock l = value <$> semas σ !! SLock l.
Proof.
  intros Hi Hv. destruct (decide (i = SLock l)) as [->|Hne].
  - rewrite lookup_insert_eq, Hi. simpl. by destruct Hv as [->|Hv]; [|destruct (Hv l)].
  - by rewrite lookup_insert_ne.
Qed.

Lemma pending_other l o p :
  match o with OIntrSet _ | OSetHolder _ | OSemaUp (SLock _) => False | _ => True end →
  pending l (o :: p) = false.
Proof. by destruct o as [| | |[]| | | | | | | | | | | | | | |]. Qed.

Lemma sema_wait_linv σ P i b p taken σ' :
  inv (σ, P) → ginv (σ, P) → linv (σ, P) → P !! cur (ks σ) = Some (OSemaWait i b :: p) →
  sema_down_iter σ i b = Ok (taken, σ') →
  linv (σ', next_progs P (cur (ks σ)) (OSemaWait i b)
    ((if taken : bool then [] else [OSemaWait i b]) ++ p)).
Proof.
  intros Hinv Hg Hl HP H. pose proof (shape_tail _ _ (gi_shape _ Hg _ _ HP)) as Ht. simpl in Ht.
  unfold sema_down_iter, get_sema in H. res_inv.
  destruct (value x =? 0) eqn:Hv; res_inv.
  - apply (linv_same σ P (OSemaWait i b) p); try done. intros l. simpl.
    apply (sema_value_set _ _ _ _ _ x); auto.
  - bool_inv. destruct i as [a|l0|a].
    + apply (linv_same σ P (OSemaWait (SObj a) b) p); try done.
      * intros l. simpl. apply (sema_value_set _ _ _ _ _ x); auto.
      * intros l. by apply clean_not_pending.
    + destruct Ht as (r & -> & Hr). by eapply (linv_take σ P _ _ _ _ l0 x).
    + apply (linv_same σ P (OSemaWait (SWaiter a) b) p); try done.
      * intros l. simpl. apply (sema_value_set _ _ _ _ _ x); auto.
      * intros l. by apply clean_not_pending.
Qed.

(** What each item does to the holders of locks. *)
Lemma exec_holders σ P o p page σ' k :
  inv (σ, P) → P !! cur (ks σ) = Some (o :: p) → exec page o σ = Ok (σ', k) →
  holders σ' = match o with
               | OSetHolder l => <[l := cur (ks σ)]> (holders σ)
               | OLockRelease l => <[l := NULL]> (holders σ)
               | _ => holders σ
               end.
Proof.
  intros Hinv HP Hex. destruct o; exec_cbn in Hex; res_inv; try done.
  - destruct x as [taken σ1]. res_inv. by destruct (sema_wait_queue _ _ _ _ _ _ Hinv H) as (_ & -> & _).
  - destruct x as [r σ1]. res_inv. by destruct (sema_try_down_ks _ _ _ _ H) as (_ & -> & _).
  - by destruct (sema_up_queue _ _ _ _ Hinv H) as (_ & -> & _).
  - destruct x0 as [r σ1]. res_inv. by destruct (sema_try_down_ks _ _ _ _ H0) as (_ & -> & _).
  - rewrite (thread_current_ok (ks σ) (inv_sched _ Hinv)) in H. by simplify_eq/=.
  - case_match; by res_inv.
  - case_match; by res_inv.
  - case_match; by res_inv.
  - by destruct (create_finish_queue _ _ _ H) as (_ & _ & _ & _ & -> & _).
Qed.

Lemma clean_no_release l q (Q : Prop) : clean q = true → releasing l q = true → Q.
Proof. intros Hc. by rewrite (clean_not_releasing l q Hc). Qed.

Lemma exec_releasing σ P o p page σ' k l :
  inv (σ, P) → ginv (σ, P) → P !! cur (ks σ) = Some (o :: p) → exec page o σ = Ok (σ', k) →
  releasing l (k ++ p) = true → o = OLockRelease l ∨ (releasing l (o :: p) = true ∧ ∃ b, o = OIntrSet b).
Proof.
  intros Hinv Hg HP Hex. pose proof (shape_tail _ _ (gi_shape _ Hg _ _ HP)) as Ht.
  destruct o; exec_cbn in Hex; res_inv; try done;
    try (apply clean_no_release; exact Ht); try (by case_match; res_inv; apply clean_no_release; exact Ht).
  - destruct x as [[] σ1]; res_inv; [|done]. destruct i; try (apply clean_no_release; exact Ht).
    by destruct Ht as (r & -> & _).
  - destruct x0 as [[] σ1]; res_inv; [done|]. apply clean_no_release; exact Ht.
  - unfold releasing. simpl. intros ->%Z.eqb_eq. by left.
  - case_match; res_inv; [apply clean_no_release; exact Ht|].
    match goal with H : conds σ !! c = Some (?w :: _) |- _ =>
      destruct (gi_cond _ Hg _ _ w H) as [t ->]; [set_solver|] end. done.
  - intros Hr. right. split; [exact Hr|]. eauto.
Qed.

Lemma exec_rinv σ P o p page σ' k :
  inv (σ, P) → ginv (σ, P) → rinv (σ, P) → P !! cur (ks σ) = Some (o :: p) →
  exec page o σ = Ok (σ', k) → rinv (σ', next_progs P (cur (ks σ)) o (k ++ p)).
Proof.
  intros Hinv Hg Hr HP Hex t r l Ht Hrel. simpl in Ht. cbn [fst].
  rewrite (exec_holders _ _ _ _ _ _ _ Hinv HP Hex).
  apply next_progs_lookup in Ht as [(-> & -> & _)|[(Hne & Ht)|(prog & -> & ->)]].
  - destruct (exec_releasing _ _ _ _ _ _ _ l Hinv Hg HP Hex Hrel) as [->|[Hro [b ->]]]; [|by apply (Hr _ _ l HP)].
    rewrite lookup_insert_eq. intros [= E]. destruct (si_cur _ (inv_sched _ Hinv)) as (th & Hth & _).
    destruct (lo_thread _ (si_lists _ (inv_sched _ Hinv)) _ _ Hth). by simpl in *.
  - pose proof (Hr t r l Ht Hrel) as Hold. simpl in Hold.
    destruct (pi_live _ _ _ (inv_prog _ Hinv) _ _ Ht) as (st & Hst & _). unfold stat in Hst.
    apply fmap_Some in Hst as (th & Hth & _).
    destruct (lo_thread _ (si_lists _ (inv_sched _ Hinv)) _ _ Hth) as [Hnn _].
    destruct o; try done; rewrite lookup_insert_Some; naive_solver.
  - change (releasing l (prog ++ [OExit]) = true) in Hrel.
    rewrite (clean_not_releasing l) in Hrel; [done|]. apply user_clean; [|done]. by eapply finish_user.
Qed.

Lemma cur_not_null σ P : inv (σ, P) → cur (ks σ) ≠ NULL.
Proof.
  intros Hinv. destruct (si_cur _ (inv_sched _ Hinv)) as (th & Hth & _).
  by destruct (lo_thread _ (si_lists _ (inv_sched _ Hinv)) _ _ Hth).
Qed.

(** The running thread is in the section of [l0] before and after. *)
Lemma linv_keep σ P o p σ' q l0 :
  inv (σ, P) → P !! cur (ks σ) = Some (o :: p) → linv (σ, P) → o ≠ OExit →
  semas σ' = semas σ → (∀ l, l ≠ l0 → holders σ' !! l = holders σ !! l) →
  (∀ l, l ≠ l0 → pending l q = pending l (o :: p)) →
  section_of σ P (cur (ks σ)) (o :: p) l0 (cur (ks σ)) →
  section_of σ' P (cur (ks σ)) q l0 (cur (ks σ)) →
  (∀ t, holders σ' !! l0 = Some t → t ≠ NULL → t = cur (ks σ)) →
  linv (σ', next_progs P (cur (ks σ)) o q).
Proof.
  intros Hinv HP Hl Ho Hs Hh Hpend Hin Hin' Hown. eapply linv_step; try done. intros l sm'. rewrite Hs.
  intros Hsm. exists sm'. split; [done|]. destruct (decide (l = l0)) as [->|Hne].
  - intros [[_ Hn]|[Hv [t0 Hu]]]; [by destruct (Hn _ Hin)|]. right. split; [done|].
    exists (cur (ks σ)). intros t. split; [|by intros ->]. apply Hu in Hin as Et.
    intros [[H1 H2]|[(H1 & r & H2 & H3)|[H1 _]]]; [by apply Hown| |done].
    rewrite Et. apply Hu. right. left. eauto.
  - apply one_holder_ext. intros t. unfold section_of. by rewrite Hh, Hpend.
Qed.

(** The last part of a release. *)
Lemma sema_up_linv σ P l0 p σ' :
  inv (σ, P) → ginv (σ, P) → rinv (σ, P) → linv (σ, P) →
  P !! cur (ks σ) = Some (OSemaUp (SLock l0) :: p) → sema_up σ (SLock l0) = Ok σ' →
  linv (σ', next_progs P (cur (ks σ)) (OSemaUp (SLock l0)) p).
Proof.
  intros Hinv Hg Hr Hl HP Hup. pose proof (shape_tail _ _ (gi_shape _ Hg _ _ HP)) as Ht. simpl in Ht.
  destruct (semas σ !! SLock l0) as [sm|] eqn:Hi.
  2: { unfold sema_up, get_sema in Hup. simpl in Hup. by rewrite Hi in Hup. }
  destruct (sema_up_ok _ _ _ _ Hinv Hi) as (s' & Hup' & _). same_run.
  assert (holders σ !! l0 ≠ Some (cur (ks σ))) as Hrel
    by (apply (Hr _ _ l0 HP); unfold releasing; simpl; by rewrite Z.eqb_refl).
  eapply linv_step; try done. intros l sm'. simpl. unfold section_of. simpl.
  rewrite (clean_not_pending l p Ht). change (pending l (OSemaUp (SLock l0) :: p)) with (l =? l0).
  destruct (decide (l = l0)) as [->|Hne].
  - rewrite lookup_insert_eq. intros [= <-]. exists sm. split; [done|]. rewrite Z.eqb_refl.
    intros [[_ Hn]|[Hv0 [t0 Hu]]]; [destruct (Hn (cur (ks σ))); auto|].
    left. simpl. rewrite Hv0. split; [done|]. assert (cur (ks σ) = t0) as <- by (apply Hu; auto).
    intros t [H|[H|[_ H]]]; [| |done].
    + assert (t = cur (ks σ)) as -> by (apply Hu; auto). naive_solver.
    + assert (t = cur (ks σ)) as -> by (apply Hu; auto). naive_solver.
  - rewrite lookup_insert_ne by congruence. intros Hsm'. exists sm'. split; [done|].
    by rewrite (proj2 (Z.eqb_neq l l0)).
Qed.

Lemma lock_held_true σ P l :
  inv (σ, P) → lock_held_by_current_thread σ l = Ok true → holders σ !! l = Some (cur (ks σ)).
Proof.
  intros Hinv H. unfold lock_held_by_current_thread in H. res_inv.
  rewrite (thread_current_ok (ks σ) (inv_sched _ Hinv)) in *. simplify_eq/=. bool_inv. by subst.
Qed.

(** Items of the lock interface. *)
Lemma exec_lock_linv σ P o p page σ' k :
  inv (σ, P) → ginv (σ, P) → linv (σ, P) → P !! cur (ks σ) = Some (o :: p) →
  match o with
  | OLockAcquire _ | OLockTryAcquire _ | OSetHolder _ | OLockRelease _ => True
  | _ => False
  end →
  exec page o σ = Ok (σ', k) → linv (σ', next_progs P (cur (ks σ)) o (k ++ p)).
Proof.
  intros Hinv Hg Hl HP Ho Hex. pose proof (shape_tail _ _ (gi_shape _ Hg _ _ HP)) as Ht.
  pose proof (cur_not_null _ _ Hinv) as Hnn.
  destruct o; try done; simpl in Ht; exec_cbn in Hex; res_inv.
  - by apply (linv_same σ' P (OLockAcquire l) p).
  - destruct x0 as [r σ1]. res_inv. unfold sema_try_down, get_sema in H0. res_inv.
    case_match; res_inv; bool_inv.
    + eapply (linv_take σ P (OLockTryAcquire l) p _ _ l x0); try done; lia.
    + apply (linv_same _ P (OLockTryAcquire l) p); try done. intros l'. by apply clean_not_pending.
  - rewrite (thread_current_ok (ks σ) (inv_sched _ Hinv)) in H. simplify_eq/=.
    apply (linv_keep σ P (OSetHolder l) p _ _ l); try done; simpl.
    + intros l' Hne. by rewrite lookup_insert_ne.
    + intros l' Hne. rewrite (clean_not_pending l' p Ht). symmetry. by apply Z.eqb_neq.
    + right. right. split; [done|]. apply Z.eqb_refl.
    + left. simpl. by rewrite lookup_insert_eq.
    + intros t. rewrite lookup_insert_eq. congruence.
  - pose proof (lock_held_true _ _ _ Hinv H) as Hh.
    apply (linv_keep σ P (OLockRelease l) p _ _ l); try done; simpl.
    + intros l' Hne. by rewrite lookup_insert_ne.
    + intros l' Hne. by apply Z.eqb_neq.
    + by left.
    + right. right. split; [done|]. apply Z.eqb_refl.
    + intros t. rewrite lookup_insert_eq. congruence.
Qed.

Lemma exec_linv σ P o p page σ' k :
  inv (σ, P) → ginv (σ, P) → rinv (σ, P) → linv (σ, P) → P !! cur (ks σ) = Some (o :: p) →
  exec page o σ = Ok (σ', k) → linv (σ', next_progs P (cur (ks σ)) o (k ++ p)).
Proof.
  intros Hinv Hg Hr Hl HP Hex. pose proof (shape_tail _ _ (gi_shape _ Hg _ _ HP)) as Ht.
  pose proof (exec_holders _ _ _ _ _ _ _ Hinv HP Hex) as Hh.
  destruct o; try (by apply (exec_lock_linv _ _ _ _ _ _ _ Hinv Hg Hl HP I Hex));
    exec_cbn in Hex; simpl in Ht; res_inv;
    try (apply (linv_same σ P _ p); try done; intros l'; apply clean_not_pending; exact Ht).
  - destruct x as [taken σ1]. res_inv. by apply sema_wait_linv.
  - destruct x as [r σ1]. res_inv. destruct (cur_body _ _ _ _ Hinv HP) as (_ & Hb & _); [done|].
    destruct (body_ok_cons _ _ _ Hb) as [Hi _]; [done|].
    apply (linv_same σ P (OSemaTryDown i) p); try done; [|intros l; by apply clean_not_pending].
    intros l. unfold sema_try_down, get_sema in H. res_inv.
    destruct (0 <? value x); res_inv; [|done]. apply (sema_value_set _ _ _ _ _ x); [done|].
    right. by destruct i.
  - destruct i as [a|l|a]; [|by apply sema_up_linv|].
    all: eapply (linv_same σ P _ p); try done; [|intros l; by apply clean_not_pending].
    all: intros l; match type of H with sema_up _ ?i = _ => destruct (semas σ !! i) as [sm|] eqn:Hi;
      [|unfold sema_up, get_sema in H; simpl in H; by rewrite Hi in H] end.
    all: destruct (sema_up_ok _ _ _ _ Hinv Hi) as (s' & Hup' & _); same_run; simpl.
    all: apply (sema_value_set _ _ _ _ _ sm); auto.
  - apply (linv_same σ P (OCondWait c l) p); try done. intros l'. simpl. by rewrite lookup_insert_ne.
  - case_match; res_inv; (eapply linv_same; try done); intros l'; [by apply clean_not_pending|].
    match goal with H : conds σ !! c = Some (?w :: _) |- _ =>
      destruct (gi_cond _ Hg _ _ w H) as [t ->]; [set_solver|] end. done.
  - case_match; res_inv; (eapply linv_same; try done).
    intros l'; by apply clean_not_pending.
  - case_match; res_inv; (eapply linv_same; try done).
    intros l'; by apply clean_not_pending.
  - apply create_finish_queue in H as (_ & _ & _ & Hsem & _).
    apply (linv_same σ P (OCreateFinish t prog) p); try done; [intros l'; by rewrite Hsem|].
    intros l'; by apply clean_not_pending.
Qed.

End locks.

(** ** Reachable states *)

Record safe (c : config) : Prop := {
  safe_inv : inv c;
  safe_shape : ginv c;
  safe_releasing : rinv c;
  safe_locks : linv c;
}.

Section reachable.
Implicit Types (σ : sstate) (P : gmap Z (list op)) (p q k : list op) (t l c : Z).

(** Returning from an interrupt leaves the critical sections alone. *)
Lemma in_section_preempt σ σ' P c p l t :
  P !! c = Some p → holders σ' = holders σ →
  in_section (σ', <[c := OIntrSet true :: p]> P) l t ↔ in_section (σ, P) l t.
Proof.
  intros HP Hh. unfold in_section. simpl. rewrite Hh. f_equiv.
  destruct (decide (t = c)) as [->|Hne].
  - rewrite lookup_insert_eq, HP. split; intros (r & [= <-] & Hp); eauto.
  - by rewrite lookup_insert_ne.
Qed.

Lemma timer_rl σ P p σ' (y : bool) :
  inv (σ, P) → rinv (σ, P) → linv (σ, P) → P !! cur (ks σ) = Some p →
  timer_interrupt σ = Ok (σ', y) →
  rinv (σ', if y then <[cur (ks σ) := OIntrSet true :: p]> P else P) ∧
  linv (σ', if y then <[cur (ks σ) := OIntrSet true :: p]> P else P).
Proof.
  intros Hinv Hr Hl HP Ht. destruct (timer_effect _ _ _ _ Hinv Ht) as (_ & Hs & Hh & _).
  destruct y; split.
  - intros t r l. simpl. rewrite Hh, lookup_insert_Some.
    intros [[<- <-]|[_ Hr']] Hrel; [by apply (Hr _ p)|by apply (Hr _ r)].
  - intros l sm. simpl. rewrite Hs. intros Hsm. eapply one_holder_ext; [|by apply (Hl l sm)].
    intros t. by apply in_section_preempt.
  - intros t r l. simpl. rewrite Hh. apply Hr.
  - intros l sm. simpl. rewrite Hs. intros Hsm. eapply one_holder_ext; [|by apply (Hl l sm)].
    intros t. unfold in_section. simpl. by rewrite Hh.
Qed.

Lemma intr_up_rl σ P i σ' :
  inv (σ, P) → rinv (σ, P) → linv (σ, P) → is_Some (semas σ !! i) → (∀ l, i ≠ SLock l) →
  sema_up (set_ks σ (set_intr (ks σ) false)) i = Ok σ' →
  rinv (set_ks σ' (set_intr (ks σ') true), P) ∧ linv (set_ks σ' (set_intr (ks σ') true), P).
Proof.
  intros Hinv Hr Hl [sm Hsm] Hi Hup. pose proof (inv_set_intr _ _ false Hinv) as Hinv'.
  destruct (sema_up_ok _ _ _ _ Hinv' Hsm) as (s' & Hup' & _). same_run. split.
  - intros t r l. simpl. apply Hr.
  - intros l sm'. simpl. rewrite lookup_insert_ne by done. intros Hsm'.
    eapply one_holder_ext; [|by apply (Hl l sm')]. done.
Qed.

Lemma step_safe (c c' : config) : safe c → step c c' → safe c'.
Proof.
  intros [Hinv Hg Hr Hl] Hst. pose proof (step_inv _ _ Hinv Hst). pose proof (step_ginv _ _ Hinv Hg Hst).
  assert (rinv c' ∧ linv c') as [? ?]; [|by split].
  destruct Hst; [split; [by eapply exec_rinv|by eapply exec_linv]|by apply timer_rl|by eapply (intr_up_rl _ _ _ _ Hinv)].
Qed.

Lemma steps_safe (c c' : config) : safe c → rtc step c c' → safe c'.
Proof. intros Hs Hr. induction Hr; eauto using step_safe. Qed.

(** *** The starting state *)

(** Objects nobody uses yet. *)
Record unused (s : kstate) σ : Prop := {
  un_ks : ks σ = s;
  un_semas : ∀ i sm, semas σ !! i = Some sm →
    waiters sm = [] ∧ 0 ≤ value sm ∧ (∀ l, i = SLock l → value sm = 1);
  un_holders : ∀ l h, holders σ !! l = Some h → h = NULL;
  un_conds : ∀ c ws, conds σ !! c = Some ws → ws = [];
}.

Lemma unused_foldr {A} s (f : A → sstate → sstate) (l : list A) σ :
  (∀ x σ, x ∈ l → unused s σ → unused s (f x σ)) → unused s σ → unused s (foldr f σ l).
Proof.
  intros Hf Hs. induction l as [|x l IH]; [done|]. simpl. apply Hf; [set_solver|]. apply IH.
  intros. apply Hf; [set_solver|done].
Qed.

Lemma unused_sema_init s σ i v :
  0 ≤ v → (∀ l, i = SLock l → v = 1) → unused s σ → unused s (sema_init σ i v).
Proof.
  intros Hv Hl [H1 H2 H3 H4]. split; simpl; try done.
  intros j sm [[<- <-]|[_ Hj]]%lookup_insert_Some; [done|by apply H2].
Qed.

Lemma unused_lock_init s σ l : unused s σ → unused s (lock_init σ l).
Proof.
  intros [H1 H2 H3 H4]. apply unused_sema_init; [done..|]. split; simpl; try done.
  intros l' h [[_ <-]|[_ Hh]]%lookup_insert_Some; [done|by eapply H3].
Qed.

Lemma unused_cond_init s σ c : unused s σ → unused s (cond_init σ c).
Proof.
  intros [H1 H2 H3 H4]. split; simpl; try done.
  intros c' ws [[_ <-]|[_ Hw]]%lookup_insert_Some; [done|by eapply H4].
Qed.

Lemma boot_unused main idle prog sems locks cs :
  boot_ok main idle prog sems = true →
  unused (started main idle) (boot main idle prog sems locks cs).1.
Proof.
  unfold boot_ok. intros Hb. bool_inv. rewrite forallb_forall in *. unfold boot. cbv zeta. simpl fst.
  apply unused_foldr; [|apply unused_foldr; [|apply unused_lock_init, unused_foldr]].
  - intros x σ Hx Hu. apply unused_sema_init; try done. apply Z.leb_le.
    match goal with H : ∀ x, In x sems → _ |- _ => apply H end. by apply list_elem_of_In.
  - intros c σ _. apply unused_cond_init.
  - intros l σ _. apply unused_lock_init.
  - split; try done; intros ??; simpl; by rewrite lookup_empty.
Qed.

Lemma started_sched main idle :
  main ≠ NULL → idle ≠ NULL → main ≠ idle → sched_inv (started main idle).
Proof.
  intros Hm Hi Hne.
  assert (∀ t th, threads (started main idle) !! t = Some th →
    (t = main ∧ status th = THREAD_RUNNING ∨ t = idle ∧ status th = THREAD_BLOCKED) ∧
    magic th = THREAD_MAGIC ∧ children_ok t th) as Hlk.
  { intros t th. simpl. rewrite lookup_insert_Some, lookup_singleton_Some. unfold children_ok. intros [[<- <-]|(? & <- & <-)]; naive_solver. }
  assert (is_Some (threads (started main idle) !! idle)) as [ith Hith]
    by (simpl; rewrite lookup_insert_ne, lookup_singleton_eq by done; eauto).
  assert (is_Some (threads (started main idle) !! main)) as [mth Hmth]
    by (simpl; rewrite lookup_insert_eq; eauto).
  pose proof (Hlk _ _ Hith) as [Hist _]. pose proof (Hlk _ _ Hmth) as [Hmst _].
  split; [split|exists mth; naive_solver| |].
  - apply NoDup_nil_2.
  - intros t. set_solver.
  - intros t th [Ht _]%Hlk Hst. rewrite Hst in Ht. naive_solver.
  - intros t th (Ht & Hmg & Hch)%Hlk. split_and!; [|done|done]. destruct Ht as [[-> _]|[-> _]]; done.
  - exists ith. split; [done|]. destruct Hist as [[? ->]|[_ ->]]; [congruence|done].
  - split; [repeat constructor; set_solver|]. intros t. simpl. split.
    + intros Ht. assert (t = main ∨ t = idle) as [->| ->] by (clear -Ht; set_solver).
      * exists mth. split; [done|]. by destruct Hmst as [[_ ->]|[_ ->]].
      * exists ith. split; [done|]. by destruct Hist as [[_ ->]|[_ ->]].
    + intros (th & [Ht _]%Hlk & _). destruct Ht as [[-> _]|[-> _]]; set_solver.
  - intros t th [Ht _]%Hlk Hst. rewrite Hst in Ht. naive_solver.
  - intros t th [Ht _]%Hlk Hst. rewrite Hst in Ht. naive_solver.
Qed.

Lemma boot_progs main idle prog t p :
  main ≠ idle →
  ({[main := prog ++ [OExit]; idle := [OSti; OIdle]]} : gmap Z (list op)) !! t = Some p →
  (t = main ∧ p = prog ++ [OExit]) ∨ (t = idle ∧ p = [OSti; OIdle]).
Proof. intros Hne. rewrite lookup_insert_Some, lookup_singleton_Some. naive_solver. Qed.

Lemma started_stat main idle t st :
  main ≠ idle → stat (started main idle) t = Some st →
  (t = main ∧ st = THREAD_RUNNING) ∨ (t = idle ∧ st = THREAD_BLOCKED).
Proof.
  intros Hne. unfold stat. simpl. intros (th & Hth & Hst)%fmap_Some.
  rewrite lookup_insert_Some, lookup_singleton_Some in Hth. naive_solver.
Qed.

Lemma boot_pinv main idle prog :
  main ≠ idle → forallb user_op prog = true →
  pinv (stat (started main idle)) idle {[main := prog ++ [OExit]; idle := [OSti; OIdle]]}.
Proof.
  intros Hne Hu. destruct (user_born _ Hu) as [Hb Ht].
  assert (∀ t p, ({[main := prog ++ [OExit]; idle := [OSti; OIdle]]} : gmap Z (list op)) !! t = Some p →
    born p = []) as Hborn.
  { intros t p [[_ ->]|[_ ->]]%boot_progs; [|done|done]. by rewrite born_app, Hb. }
  split.
  - exists [OSti; OIdle]. rewrite lookup_insert_ne, lookup_singleton_eq by done.
    split_and!; [done|repeat constructor|done].
  - intros t p [[-> ->]|[-> ->]]%boot_progs; [|done|done]. intros _. exists prog. split; [done|]. by apply user_items.
  - intros t p [[-> ->]|[-> ->]]%boot_progs; [| |done]; unfold stat; simpl.
    + rewrite lookup_insert_eq. eauto.
    + rewrite lookup_insert_ne, lookup_singleton_eq by done. eauto.
  - intros t [[[-> _]|[_ ?]]%started_stat|[[_ ?]|[_ ?]]%started_stat]; try done.
    rewrite lookup_insert_eq. eauto.
  - intros c p t Hp. rewrite (Hborn _ _ Hp). set_solver.
  - intros c p Hp. rewrite (Hborn _ _ Hp). constructor.
  - intros c c' p p' t Hp _. rewrite (Hborn _ _ Hp). set_solver.
  - intros c p [[_ ->]|[_ ->]]%boot_progs; [|done|done]. by apply tids_ok_app.
Qed.

Lemma boot_safe main idle prog sems locks cs :
  boot_ok main idle prog sems = true → safe (boot main idle prog sems locks cs).
Proof.
  intros Hb. pose proof (boot_unused main idle prog sems locks cs Hb) as Hu.
  unfold boot_ok in Hb. bool_inv. destruct (boot main idle prog sems locks cs) as [σ P] eqn:E.
  assert (P = {[main := prog ++ [OExit]; idle := [OSti; OIdle]]}) as -> by (by injection E as _ <-).
  clear E. simpl in Hu. destruct Hu as [Hks Hsem Hhold Hcond].
  assert (∀ t p, ({[main := prog ++ [OExit]; idle := [OSti; OIdle]]} : gmap Z (list op)) !! t = Some p →
    clean p = true) as Hclean.
  { intros t p [[-> ->]|[-> ->]]%boot_progs; [by apply user_clean|done|done]. }
  assert (∀ t p, ({[main := prog ++ [OExit]; idle := [OSti; OIdle]]} : gmap Z (list op)) !! t = Some p →
    wait_on p = None) as Hwait.
  { intros t p [[-> ->]|[-> ->]]%boot_progs; [by apply wait_on_user|done|done]. }
  split; [split| | |]; simpl; rewrite ?Hks.
  - by apply started_sched.
  - split; unfold vH; simpl.
    + intros i t Ht. destruct (semas σ !! i) as [sm|] eqn:Hi; simpl in Ht; [|set_solver].
      destruct (Hsem _ _ Hi) as (Hw & _). rewrite Hw in Ht. set_solver.
    + intros i. destruct (semas σ !! i) as [sm|] eqn:Hi; simpl; [|constructor].
      destruct (Hsem _ _ Hi) as (-> & _). constructor.
    + intros i t _ (p & Hp & Hw)%bind_Some. by rewrite (Hwait _ _ Hp) in Hw.
    + destruct (_ !! idle_thread (ks σ)) as [p|] eqn:Hp; [|done]. simpl. by apply (Hwait _ _ Hp).
    + intros i Hi. destruct (semas σ !! i) as [sm|] eqn:Hi'; simpl in Hi; [|done].
      destruct (Hsem _ _ Hi') as (Hw & _). by rewrite Hw in Hi.
    + intros i. destruct (semas σ !! i) as [sm|] eqn:Hi; simpl; [|done]. by apply (Hsem _ _ Hi).
  - by apply boot_pinv.
  - split; simpl.
    + intros t p Hp. by apply clean_shape, (Hclean t).
    + intros i ws w Hi. rewrite (Hcond _ _ Hi). set_solver.
    + intros i b p Hp%Hwait. done.
  - intros t p l Hp. by rewrite (clean_not_releasing l p (Hclean _ _ Hp)).
  - intros l sm Hl. destruct (Hsem _ _ Hl) as (_ & _ & Hv). left. split; [by apply (Hv l)|]. intros t [[Hh Hn]|(p & Hp & Hpend)].
    + by apply Hhold in Hh.
    + simpl in Hp. by rewrite (clean_not_pending l p (Hclean _ _ Hp)) in Hpend.
Qed.

Lemma boot_reachable main idle prog sems locks cs (c : config) :
  boot_ok main idle prog sems = true → rtc step (boot main idle prog sems locks cs) c → safe c.
Proof. intros Hb. apply steps_safe. by apply boot_safe. Qed.

(** *** No fault of the kernel's own *)

(** What the caller of an operation sees to: the object exists, a lock is held
    or not held as the operation asks for, a priority is in range. The last part of
    [thread_create] writes to the page of the child that the caller has created before, which is
    never taken off the list; that the child has not exited is for the caller to know. *)
Definition client_ok σ (o : op) : Prop :=
  match o with
  | OSemaWait i _ | OSemaTryDown i | OSemaUp i => is_Some (semas σ !! i)
  | OLockAcquire l => ∃ h, holders σ !! l = Some h ∧ h ≠ cur (ks σ)
  | OLockTryAcquire l => (∃ h, holders σ !! l = Some h ∧ h ≠ cur (ks σ)) ∧ is_Some (semas σ !! SLock l)
  | OLockRelease l => holders σ !! l = Some (cur (ks σ))
  | OCondWait c l | OCondSignal c l => holders σ !! l = Some (cur (ks σ)) ∧ is_Some (conds σ !! c)
  | OCondBroadcast c _ => is_Some (conds σ !! c)
  | OCreate priority _ => PRI_MIN ≤ priority ≤ PRI_MAX
  | OCreateFinish _ _ => last_child_live (ks σ)
  | _ => True
  end.

Lemma lock_held_run σ P l h :
  inv (σ, P) → holders σ !! l = Some h → lock_held_by_current_thread σ l = Ok (h =? cur (ks σ)).
Proof.
  intros Hinv Hh. unfold lock_held_by_current_thread. rewrite Hh. simpl.
  by rewrite (thread_current_ok (ks σ) (inv_sched _ Hinv)).
Qed.

Lemma sema_wait_progress σ P i b p :
  inv (σ, P) → ginv (σ, P) → P !! cur (ks σ) = Some (OSemaWait i b :: p) → is_Some (semas σ !! i) →
  ∃ r, sema_down_iter σ i b = Ok r.
Proof.
  intros Hinv Hg HP [sm Hsm]. unfold sema_down_iter, get_sema. rewrite Hsm. mstep.
  destruct (value sm =? 0); [|by eexists]. rewrite (thread_current_ok (ks σ) (inv_sched _ Hinv)). mstep.
  destruct (thread_block_ok (ks σ) (inv_sched _ Hinv)) as (s' & Hb & _); [by apply (gi_intr _ Hg _ _ _ HP)|].
  simpl. rewrite Hb. by eexists.
Qed.

Lemma create_progress σ P o p page :
  inv (σ, P) → P !! cur (ks σ) = Some (o :: p) → client_ok σ o →
  (∀ t, page = Some t → t ≠ NULL ∧ threads (ks σ) !! t = None) →
  match o with OCreate _ _ | OSetTid _ | OCreateFinish _ _ => True | _ => False end →
  ∃ r, exec page o σ = Ok r.
Proof.
  intros Hinv HP Hok Hpage Ho. destruct o; try done; exec_cbn; simpl.
  - destruct page as [t|]; [|by eexists]. destruct (Hpage t eq_refl).
    destruct (init_thread_ok (ks σ) t priority (inv_sched _ Hinv)) as (s' & -> & _); [done..|]. by eexists.
  - destruct (cur_body _ _ _ _ Hinv HP) as (_ & _ & Htk); [done|].
    destruct (pi_born _ _ _ (inv_prog _ Hinv) _ _ t HP) as [Hst _].
    { destruct Htk as [Htk _]. apply Htk. unfold tids. simpl. set_solver. }
    unfold stat in Hst. apply fmap_Some in Hst as (th & Hth & _). simpl in Hth.
    rewrite (upd_thread_ok _ _ th) by done. by eexists.
  - destruct (pi_born _ _ _ (inv_prog _ Hinv) _ _ t HP) as [Hst HPt]; [unfold born; simpl; set_solver|].
    assert (t ≠ idle_thread (ks σ)) as Hti.
    { intros ->. destruct (pi_idle _ _ _ (inv_prog _ Hinv)) as (r & Hr & _). simpl in *. congruence. }
    destruct (create_finish_ok σ t (inv_sched _ Hinv) Hst Hti Hok) as (s' & -> & _). by eexists.
Qed.

Lemma exec_progress σ P o p page :
  inv (σ, P) → ginv (σ, P) → P !! cur (ks σ) = Some (o :: p) → client_ok σ o →
  (∀ t, page = Some t → t ≠ NULL ∧ threads (ks σ) !! t = None) →
  ∃ r, exec page o σ = Ok r.
Proof.
  intros Hinv Hg HP Hok Hpage. pose proof (inv_sched _ Hinv) as Hs. simpl in Hs.
  destruct o; try (by eapply create_progress); simpl in Hok; exec_cbn; try (by eexists).
  - destruct (sema_wait_progress _ _ _ _ _ Hinv Hg HP Hok) as [[r σ'] ->]. by eexists.
  - destruct Hok as [sm Hsm]. unfold sema_try_down, get_sema. rewrite Hsm. simpl. case_match; by eexists.
  - destruct Hok as [sm Hsm]. destruct (sema_up_ok _ _ _ _ Hinv Hsm) as (s' & -> & _). by eexists.
  - destruct Hok as (h & Hh & Hne). rewrite (lock_held_run _ _ _ _ Hinv Hh), (proj2 (Z.eqb_neq _ _) Hne).
    by eexists.
  - destruct Hok as [(h & Hh & Hne) [sm Hsm]].
    rewrite (lock_held_run _ _ _ _ Hinv Hh), (proj2 (Z.eqb_neq _ _) Hne). mstep.
    unfold sema_try_down, get_sema. rewrite Hsm. simpl. case_match; by eexists.
  - rewrite thread_current_ok by done. by eexists.
  - rewrite (lock_held_run _ _ _ _ Hinv Hok), Z.eqb_refl. by eexists.
  - destruct Hok as [Hh [ws Hws]]. rewrite (lock_held_run _ _ _ _ Hinv Hh), Z.eqb_refl, thread_current_ok, Hws by done.
    by eexists.
  - destruct Hok as [Hh [ws Hws]]. rewrite (lock_held_run _ _ _ _ Hinv Hh), Z.eqb_refl, Hws. simpl.
    case_match; by eexists.
  - destruct Hok as [ws Hws]. rewrite Hws. simpl. case_match; by eexists.
  - destruct (thread_yield_ok _ Hs) as (s' & -> & _). by eexists.
  - destruct (quiet_intr (ks σ) false Hs) as (Hs0 & _).
    destruct (thread_block_ok (set_intr (ks σ) false) Hs0 eq_refl) as (s' & -> & _). by eexists.
  - destruct (cur_body _ _ _ _ Hinv HP) as (Hci & _); [done|].
    destruct (thread_exit_ok _ Hs Hci) as (s' & -> & _). by eexists.
Qed.

Lemma timer_progress σ P : inv (σ, P) → ∃ r, timer_interrupt σ = Ok r.
Proof.
  intros Hinv. unfold timer_interrupt.
  destruct (quiet_intr (ks σ) false (inv_sched _ Hinv)) as (Hs & _).
  destruct (thread_tick_ok _ Hs) as (s1 & -> & (Hs1 & _) & _). mstep.
  destruct (TIME_SLICE <=? _); [|by eexists]. destruct (thread_yield_ok _ Hs1) as (s2 & -> & _). by eexists.
Qed.

(** The running thread always has something left to do. *)
Lemma cur_program σ P : inv (σ, P) → ∃ o p, P !! cur (ks σ) = Some (o :: p).
Proof.
  intros Hinv. destruct (pi_has _ _ _ (inv_prog _ Hinv) (cur (ks σ))) as [q Hq].
  { left. by apply (cur_running (σ, P)). }
  simpl in Hq. destruct q as [|o q]; [|by eauto].
  destruct (decide (cur (ks σ) = idle_thread (ks σ))) as [E|E].
  - destruct (pi_idle _ _ _ (inv_prog _ Hinv)) as (r & Hr & _ & Hl). simpl in Hr. rewrite <-E, Hq in Hr.
    by simplify_eq.
  - destruct (pi_items _ _ _ (inv_prog _ Hinv) _ _ Hq E) as ([|] & ? & _); done.
Qed.

(** *** A creation that fails *)

Lemma foreach_fault s (l : list Z) t :
  t ∈ l → threads s !! t = None → foreach_threads s l = Fault BadAccess.
Proof.
  intros Hin Ht. induction l as [|x l IH]; [set_solver|]. simpl. unfold get_thread.
  destruct (threads s !! x) as [th|] eqn:Hx; [|done]. simpl. rewrite IH; [done|].
  apply elem_of_cons in Hin as [->|?]; [congruence|done].
Qed.

(** The state after [create_fail] with the link to the freed page taken off [all_list]. *)
Definition unlinked (t : Z) (s : kstate) : kstate := set_all s (filter (λ x, x ≠ t) (all_list s)).

Lemma create_fail_sched s t :
  sched_inv s → stat s t = Some THREAD_BLOCKED → t ≠ idle_thread s → sched_inv (unlinked t (palloc_free_thread s t)).
Proof.
  intros [[Hrn Hr Hri Ht (ith & Hid & Hids) [Han Hal]] (cth & Hc & Hcst) Hrun Hdy] (th & Hth & Hst)%fmap_Some Hti.
  assert (∀ t' th', delete t (threads s) !! t' = Some th' → t' ≠ t ∧ threads s !! t' = Some th') as Hlk by (intros t' th'; rewrite lookup_delete_Some; naive_solver).
  assert (t ≠ cur s) as Htc by (intros ->; congruence).
  split; [split|..]; simpl; try done.
  - intros t' Hin. destruct (Hr t' Hin) as (? & th' & H' & Hs'). split; [done|]. exists th'. rewrite lookup_delete_ne; [done|]. intros ->. congruence.
  - intros t' th' [_ H']%Hlk. by apply Hri.
  - intros t' th' [_ H']%Hlk. by apply Ht.
  - exists ith. by rewrite lookup_delete_ne.
  - split; [by apply NoDup_filter|]. intros t'. rewrite list_elem_of_filter, Hal. split.
    + intros (Hne & th' & H' & ?). exists th'. by rewrite lookup_delete_ne.
    + intros (th' & [Hne H']%Hlk & ?). split; [done|by exists th'].
  - exists cth. by rewrite lookup_delete_ne.
  - intros t' th' [_ H']%Hlk. by apply Hrun.
  - intros t' th' [_ H']%Hlk. by apply Hdy.
Qed.

Lemma create_fail_pinv st st' idle P c t prog p :
  pinv st idle P → P !! c = Some (OCreateFinish t prog :: p) → c ≠ idle → body_ok c p → tids_ok p →
  st' t = None → (∀ t', t' ≠ t → st' t' = st t') → pinv st' idle (<[c := p]> P).
Proof.
  intros Hp Hc Hci Hb Htk Hn Hst. destruct (pi_born _ _ _ Hp _ _ t Hc) as [Hbl HPt]; [unfold born; simpl; set_solver|].
  assert (c ≠ t) as Hne by (intros ->; congruence). assert (t ≠ idle) as Hti by (destruct (pi_idle _ _ _ Hp) as (r & Hr & _); congruence).
  set (st1 := λ x, if decide (x = t) then Some THREAD_READY else st x).
  assert (pinv st1 idle (<[t := [OExit]]> (<[c := p]> P))) as Hp1.
  { apply (pinv_finish st st1 idle P c (OCreateFinish t prog :: p) p t [OExit]); try done; [by exists []|unfold st1; by rewrite decide_True|].
    intros x Hx. unfold st1. by rewrite decide_False. }
  assert (delete t (<[t := [OExit]]> (<[c := p]> P)) = <[c := p]> P) as <- by (apply delete_insert_id; by rewrite lookup_insert_ne).
  apply (pinv_exit st1 _ idle _ t [OExit] Hp1); [by rewrite lookup_insert_eq|done|done| |by rewrite Hn|].
  - intros x Hx. destruct (decide (x = t)) as [->|Hxt]; [by rewrite lookup_insert_eq in Hx|]. rewrite Hst by done. unfold st1. by rewrite decide_False.
  - intros x Hx Hxt. apply lookup_insert_is_Some in Hx as [?|[_ [r Hr]]]; [congruence|]. destruct (pi_live _ _ _ Hp1 x r) as (sx & Hsx & ?); [by rewrite lookup_insert_ne|].
    unfold st1 in Hsx. rewrite decide_False in Hsx by done. exists sx. by rewrite Hst.
Qed.

Lemma create_fail_inv σ P t prog p :
  inv (σ, P) → P !! cur (ks σ) = Some (OCreateFinish t prog :: p) →
  t ∈ all_list (ks σ) ∧ inv (set_ks σ (unlinked t (ks (create_fail σ t))), <[cur (ks σ) := p]> P).
Proof.
  intros Hinv HP. destruct (cur_body _ _ _ _ Hinv HP) as (Hci & Hb & _ & Htk); [done|]. destruct (body_ok_cons _ _ _ Hb) as [_ Hp]; [done|].
  destruct (pi_born _ _ _ (inv_prog _ Hinv) _ _ t HP) as [Hst HPt]; [unfold born; simpl; set_solver|]. simpl in Hst, HPt.
  assert (t ≠ idle_thread (ks σ)) as Hti by (intros ->; destruct (pi_idle _ _ _ (inv_prog _ Hinv)) as (r & Hr & _); simpl in Hr; congruence).
  pose proof (cur_running _ Hinv) as Hcur. simpl in Hcur. assert (t ≠ cur (ks σ)) as Htc by congruence. split.
  { pose proof Hst as (th & Hth & Hbl)%fmap_Some. apply (proj2 (lo_all _ (si_lists _ (inv_sched _ Hinv)))). exists th. by rewrite <-Hbl. }
  pose proof Hinv as [Hs Hv Hpr]. set (s' := unlinked t _). set (P' := <[cur (ks σ) := p]> P).
  assert (stat s' t = None ∧ ∀ t', t' ≠ t → stat s' t' = stat (ks σ) t') as [Hn Hoth].
  { unfold stat, s'. simpl. split; [by rewrite lookup_delete_eq|]. intros t' Hne. by rewrite lookup_delete_ne. }
  assert (∀ x, x ≠ cur (ks σ) → vH (view_of (set_ks σ s', P')) x = vH (view_of (σ, P)) x) as HH by (intros x Hx; unfold vH, P'; simpl; by rewrite lookup_insert_ne).
  assert (vH (view_of (σ, P)) t = None ∧ vH (view_of (σ, P)) (cur (ks σ)) = None) as [HHt HHc] by (unfold vH; simpl; by rewrite HPt, HP).
  split; [by apply create_fail_sched| |by apply (create_fail_pinv _ _ _ _ _ t prog p Hpr)].
  apply (vinv_keep _ _ Hv); simpl; [done|done| | | | |apply (vi_nonneg _ Hv)].
  - intros x Hxi Hbx Hh. rewrite HH by congruence. rewrite Hoth; [done|]. by intros ->.
  - intros x Hxi Hbx Hh. assert (x ≠ t) as Hxt by (intros ->; by rewrite Hn in Hbx). rewrite Hoth in Hbx by done. split; [done|]. symmetry. apply HH. congruence.
  - rewrite HH by done. apply (vi_idle _ Hv).
  - intros i _. rewrite woken_diff_nil; [lia|]. intros x Hwx Hnw. split; [|done]. rewrite HH; [done|]. congruence.
Qed.

Lemma set_cnext_gone s x v : threads s !! x = None → set_cnext s (ChildElem x) v = Fault BadAccess.
Proof. intros Hx. unfold set_cnext, upd_thread, get_thread. by rewrite Hx. Qed.

Lemma create_finish_gone σ P t prog p :
  inv (σ, P) → P !! cur (ks σ) = Some (OCreateFinish t prog :: p) → ¬ last_child_live (ks σ) → create_finish σ t = Fault BadAccess.
Proof.
  intros Hinv HP Hgone. pose proof (inv_sched _ Hinv) as Hs. simpl in Hs.
  destruct (pi_born _ _ _ (inv_prog _ Hinv) _ _ t HP) as [(th & Hth & _)%fmap_Some _]; [unfold born; simpl; set_solver|]. simpl in Hth.
  destruct (upd_thread_quiet (ks σ) t (with_next_fd 2) Hs) as (s1 & E1 & Hq); [unfold stat; rewrite Hth; by eexists|done|].
  unfold create_finish. rewrite E1. mstep. rewrite (thread_current_ok s1) by apply Hq. mstep. rewrite (upd_thread_ok _ _ _ _ Hth) in E1. injection E1 as <-.
  destruct (si_cur _ Hs) as (cth & Hcth & _). unfold last_child_live in Hgone. rewrite Hcth in Hgone. simpl in Hgone.
  destruct (clast (child_list cth)) as [| |x|] eqn:El; try (by destruct Hgone). assert (threads (ks σ) !! x = None) as Hx by (by apply eq_None_not_Some).
  assert (x ≠ t) as Hxt by congruence. unfold push_child, get_thread. simpl.
  assert (∃ cth' : thread, alter (with_next_fd 2) t (threads (ks σ)) !! cur (ks σ) = Some cth' ∧ clast (child_list cth') = ChildElem x) as (cth' & -> & Ec).
  { destruct (decide (t = cur (ks σ))) as [->|Hne]; [rewrite lookup_alter_eq, Hcth|rewrite lookup_alter_ne, Hcth by done]; by eexists. }
  mstep. rewrite Ec, bool_decide_eq_false_2 by done. cbn [negb]. mstep. rewrite (upd_thread_ok _ t (with_next_fd 2 th)) by (simpl; by rewrite lookup_alter_eq, Hth).
  mstep. rewrite set_cnext_gone by (cbn [threads set_threads]; by rewrite !lookup_alter_ne by done). done.
Qed.

End reachable.

(** Runs the next items of the running thread as long as they do not fault, for
    concrete examples; threads are created in the pages from 12288 on. *)
Definition free_page (s : kstate) : option Z :=
  let t := 4096 * next_tid s in
  match threads s !! t with Some _ => None | None => if t =? NULL then None else Some t end.

Fixpoint run (n : nat) (c : config) : config :=
  match n, c.2 !! cur (ks c.1) with
  | S n, Some (o :: p) =>
      match exec (free_page (ks c.1)) o c.1 with
      | Ok (σ', k) => run n (σ', next_progs c.2 (cur (ks c.1)) o (k ++ p))
      | _ => c
      end
  | _, _ => c
  end.

Lemma free_page_ok s t : free_page s = Some t → t ≠ NULL ∧ threads s !! t = None.
Proof. unfold free_page. destruct (threads s !! _) eqn:E; [done|]. destruct (Z.eqb_spec (4096 * next_tid s) NULL); [done|]. by intros [= <-]. Qed.

Lemma run_reaches n c : rtc step c (run n c).
Proof.
  revert c. induction n as [|n IH]; intros [σ P]; simpl; [apply rtc_refl|].
  destruct (P !! cur (ks σ)) as [[|o p]|] eqn:HP; try apply rtc_refl.
  destruct (exec _ o σ) as [[σ' k]| |] eqn:Hex; try apply rtc_refl.
  eapply rtc_l; [|apply IH]. by apply (step_op σ P (free_page (ks σ)) o p); auto using free_page_ok.
Qed.

Definition can_run (c : config) : bool :=
  match c.2 !! cur (ks c.1) with
  | Some (o :: p) => match exec (free_page (ks c.1)) o c.1 with Ok _ => true | _ => false end
  | _ => false
  end.

Lemma run_step c : can_run c = true → step c (run 1 c).
Proof.
  destruct c as [σ P]. unfold can_run. simpl.
  destruct (P !! cur (ks σ)) as [[|o p]|] eqn:HP; try done.
  destruct (exec _ o σ) as [[σ' k]| |] eqn:Hex; try done.
  intros _. by apply (step_op σ P (free_page (ks σ)) o p); auto using free_page_ok.
Qed.

(** ** Theorems *)

(** C30. In every state the kernel reaches without a creation of a thread that fails at its
    descriptor table: one thread runs and the run queue holds each ready thread once, [all_list] the live threads; the threads queued
    on a semaphore are blocked, queued once and about to retry; every live thread has a program to
    run. When a creation fails in such a state because there are no pages for the table of
    descriptors, all of this still holds but for one thing: [all_list] is left with a link into the
    page that has been freed, into which [thread_foreach] walks. *)
Theorem scheduler_invariant main idle prog sems locks cs c :
  boot_ok main idle prog sems = true → rtc step (boot main idle prog sems locks cs) c →
  (sched_inv (ks c.1) ∧ vinv (view_of c) ∧ pinv (stat (ks c.1)) (idle_thread (ks c.1)) c.2) ∧
  ∀ c', failed_create c c' →
    ∃ t, t ∈ all_list (ks c'.1) ∧ threads (ks c'.1) !! t = None ∧ thread_foreach (set_intr (ks c'.1) false) = Fault BadAccess ∧
      let σ := set_ks c'.1 (unlinked t (ks c'.1)) in
      sched_inv (ks σ) ∧ vinv (view_of (σ, c'.2)) ∧ pinv (stat (ks σ)) (idle_thread (ks σ)) c'.2.
Proof.
  intros Hb Hr. destruct (boot_reachable _ _ _ _ _ _ _ Hb Hr) as [Hinv _ _ _]. split; [by destruct Hinv|].
  intros c' Hf. destruct Hf as [σ P t q p HP]. destruct (create_fail_inv _ _ _ _ _ Hinv HP) as [Hin [H1 H2 H3]].
  assert (threads (ks (create_fail σ t)) !! t = None) as Hn by apply lookup_delete_eq.
  exists t. split_and!; [done|done| |exact (conj H1 (conj H2 H3))]. unfold thread_foreach. simpl. by apply (foreach_fault _ _ t).
Qed.

Definition demo : config :=
  boot 4096 8192 [OLockAcquire 5; OSemaUp (SObj 7); OSemaDown (SObj 7); OSemaDown (SObj 7)]
    [(7, 0)] [5] [].

(** A kernel in the middle of creating a thread in the page at 12288. *)
Definition demo_creating : config := run 8 (boot 4096 8192 [OCreate 31 [OYield]] [] [] []).

Lemma failed_create_intro c t prog p :
  c.2 !! cur (ks c.1) = Some (OCreateFinish t prog :: p) → failed_create c (create_fail c.1 t, <[cur (ks c.1) := p]> c.2).
Proof. destruct c. apply step_create_fail. Qed.

Lemma demo_failed_create : failed_create demo_creating (create_fail demo_creating.1 12288, <[cur (ks demo_creating.1) := [OExit]]> demo_creating.2).
Proof. apply (failed_create_intro demo_creating 12288 [OYield] [OExit]). vm_compute. reflexivity. Qed.

Lemma scheduler_invariant_witness :
  sched_inv (ks demo_creating.1) ∧ thread_foreach (set_intr (ks (create_fail demo_creating.1 12288)) false) = Fault BadAccess.
Proof.
  destruct (scheduler_invariant 4096 8192 [OCreate 31 [OYield]] [] [] [] demo_creating eq_refl (run_reaches 8 _)) as [(Hs & _) Hf].
  destruct (Hf _ demo_failed_create) as (t & _ & _ & Hw & _). exact (conj Hs Hw).
Defined.

(** C2. No wakeup is lost, in any state reached without a creation of a thread that fails at its
    descriptor table: a thread whose next action is to retry a semaphore is blocked exactly while
    it is queued there, and as long as threads are queued there are at least as many awake threads
    on their way to the semaphore as its value, so a positive value is never left with only
    sleepers. *)
Theorem no_lost_wakeup main idle prog sems locks cs c i sm :
  boot_ok main idle prog sems = true → rtc step (boot main idle prog sems locks cs) c →
  semas c.1 !! i = Some sm →
  (∀ t p, c.2 !! t = Some p → wait_on p = Some i →
    stat (ks c.1) t = Some THREAD_BLOCKED ↔ t ∈ waiters sm) ∧
  (waiters sm ≠ [] → ∃ S : gset Z, value sm ≤ Z.of_nat (size S) ∧
    ∀ t, t ∈ S → (stat (ks c.1) t = Some THREAD_READY ∨ stat (ks c.1) t = Some THREAD_RUNNING) ∧
      ∃ p, c.2 !! t = Some p ∧ wait_on p = Some i).
Proof.
  intros Hb Hr Hi. destruct (boot_reachable _ _ _ _ _ _ _ Hb Hr) as [[_ Hv Hp] _ _ _].
  assert (vW (view_of c) i = waiters sm) as EW by (simpl; by rewrite Hi).
  assert (vV (view_of c) i = value sm) as EV by (simpl; by rewrite Hi).
  assert (∀ t p, c.2 !! t = Some p → wait_on p = Some i → vH (view_of c) t = Some i) as HH
    by (intros t p Hp' Hw; unfold vH; simpl; by rewrite Hp'). split.
  - intros t p Ht Hw. rewrite <-EW. split; [intros; by apply (vi_blocked _ Hv), (HH t p)|].
    intros Hin. by apply (vi_waiter _ Hv _ _ Hin).
  - intros Hne. rewrite <-EW in Hne. exists (woken (view_of c) i). rewrite <-EV.
    split; [by apply (vi_woken _ Hv)|]. intros t [Ht Hn]%elem_of_woken.
    pose proof Ht as (p & Hp' & Hw)%bind_Some. simpl in Hp'. split; [|by eauto].
    destruct (pi_live _ _ _ Hp _ _ Hp') as ([] & Hst & Hnd); [by right|by left| |done].
    destruct Hn. by apply (vi_blocked _ Hv).
Qed.

Lemma no_lost_wakeup_witness :
  (∀ t p, (run 9 demo).2 !! t = Some p → wait_on p = Some (SObj 7) →
    stat (ks (run 9 demo).1) t = Some THREAD_BLOCKED ↔ t ∈ [4096]) ∧
  ([4096] ≠ [] → ∃ S : gset Z, 0 ≤ Z.of_nat (size S) ∧
    ∀ t, t ∈ S → (stat (ks (run 9 demo).1) t = Some THREAD_READY ∨
        stat (ks (run 9 demo).1) t = Some THREAD_RUNNING) ∧
      ∃ p, (run 9 demo).2 !! t = Some p ∧ wait_on p = Some (SObj 7)).
Proof.
  apply (no_lost_wakeup 4096 8192 [OLockAcquire 5; OSemaUp (SObj 7); OSemaDown (SObj 7); OSemaDown (SObj 7)]
    [(7, 0)] [5] [] (run 9 demo) (SObj 7) (Sema 0 [4096]));
    [reflexivity|apply run_reaches|vm_compute; reflexivity].
Defined.

(** C31. Mutual exclusion, in any state reached without a creation of a thread that fails at its
    descriptor table: the semaphore of an initialised lock is 1 and no thread is between taking and
    giving it back, or it is 0 and exactly one thread is. *)
Theorem lock_mutual_exclusion main idle prog sems locks cs c l sm :
  boot_ok main idle prog sems = true → rtc step (boot main idle prog sems locks cs) c →
  semas c.1 !! SLock l = Some sm →
  (value sm = 1 ∧ ∀ t, ¬ in_section c l t) ∨ (value sm = 0 ∧ ∃ t, ∀ t', in_section c l t' ↔ t' = t).
Proof. intros Hb Hr Hl. by apply (safe_locks _ (boot_reachable _ _ _ _ _ _ _ Hb Hr)). Qed.

Lemma lock_mutual_exclusion_witness :
  holders (run 4 demo).1 !! 5 = Some 4096 ∧
  ((0 = 1 ∧ ∀ t, ¬ in_section (run 4 demo) 5 t) ∨
   (0 = 0 ∧ ∃ t, ∀ t', in_section (run 4 demo) 5 t' ↔ t' = t)).
Proof.
  split; [vm_compute; reflexivity|].
  apply (lock_mutual_exclusion 4096 8192 [OLockAcquire 5; OSemaUp (SObj 7); OSemaDown (SObj 7); OSemaDown (SObj 7)]
    [(7, 0)] [5] [] (run 4 demo) 5 (Sema 0 [])); [reflexivity|apply run_reaches|vm_compute; reflexivity].
Defined.

(** C40. The kernel does not get stuck in any state that it reaches without a creation of a thread
    that fails at its descriptor table: the running thread always has a next item, and executing it succeeds when the caller's
    preconditions hold, so that no assertion about thread structures, statuses, lists or interrupt
    levels fails and no page of a thread that is gone is used, whatever the interleaving; the timer
    interrupt always succeeds. One of the preconditions is not for the caller to see to: when the
    child that a thread has created last has exited, the next creation writes to the page of that
    child, which has been freed. *)
Theorem kernel_progress main idle prog sems locks cs c :
  boot_ok main idle prog sems = true → rtc step (boot main idle prog sems locks cs) c →
  (∃ r, timer_interrupt c.1 = Ok r) ∧
  ∃ o p, c.2 !! cur (ks c.1) = Some (o :: p) ∧
    (∀ page, client_ok c.1 o →
      (∀ t, page = Some t → t ≠ NULL ∧ threads (ks c.1) !! t = None) →
      ∃ r, exec page o c.1 = Ok r) ∧
    (∀ page t q, o = OCreateFinish t q → ¬ last_child_live (ks c.1) → exec page o c.1 = Fault BadAccess).
Proof.
  intros Hb Hr. destruct (boot_reachable _ _ _ _ _ _ _ Hb Hr) as [Hinv Hg _ _]. destruct c as [σ P].
  split; [by eapply timer_progress|]. destruct (cur_program _ _ Hinv) as (o & p & HP).
  exists o, p. split_and!; [done|intros page Hok Hpage; by eapply exec_progress|].
  intros page t q -> Hgone. simpl. by rewrite (create_finish_gone _ _ _ _ _ Hinv HP Hgone).
Qed.

(** The initial thread has created a thread, which has exited, and is about to finish the creation
    of another one. *)
Definition demo_orphaned : config := run 21 (boot 4096 8192 [OCreate 31 []; OYield; OCreate 31 []] [] [] []).

Lemma demo_orphaned_next : demo_orphaned.2 !! cur (ks demo_orphaned.1) = Some [OCreateFinish 16384 []; OExit].
Proof. vm_compute. reflexivity. Qed.

Lemma demo_child_gone : ¬ last_child_live (ks demo_orphaned.1).
Proof. vm_compute. by intros [? ?]. Qed.

Lemma kernel_progress_witness :
  (∃ r, exec None (OSemaDown (SObj 7)) (run 5 demo).1 = Ok r) ∧
  (∃ r, timer_interrupt demo_orphaned.1 = Ok r) ∧ exec None (OCreateFinish 16384 []) demo_orphaned.1 = Fault BadAccess.
Proof.
  destruct (kernel_progress 4096 8192 [OLockAcquire 5; OSemaUp (SObj 7); OSemaDown (SObj 7); OSemaDown (SObj 7)] [(7, 0)] [5] [] (run 5 demo) eq_refl (run_reaches 5 _))
    as (_ & o & p & Ho & Hok & _).
  assert ((run 5 demo).2 !! cur (ks (run 5 demo).1) = Some [OSemaDown (SObj 7); OSemaDown (SObj 7); OExit]) as E by (vm_compute; reflexivity).
  rewrite E in Ho. injection Ho as <- _.
  destruct (kernel_progress 4096 8192 [OCreate 31 []; OYield; OCreate 31 []] [] [] [] demo_orphaned eq_refl (run_reaches 21 _)) as (Ht & o & q & Ho & _ & Hgone).
  rewrite demo_orphaned_next in Ho. injection Ho as <- _.
  split; [apply (Hok None I); by intros ? [=]|]. exact (conj Ht (Hgone None 16384 [] eq_refl demo_child_gone)).
Defined.

(** The run queue is first-in first-out: in any step a thread on it keeps
    its place, or moves one place forward while the head starts to run, or was
    the head and now runs. *)
Theorem run_queue_fifo main idle prog sems locks cs c c' n t :
  boot_ok main idle prog sems = true → rtc step (boot main idle prog sems locks cs) c → step c c' →
  ready_list (ks c.1) !! n = Some t →
  (cur (ks c'.1) = cur (ks c.1) ∧ ready_list (ks c'.1) !! n = Some t) ∨
  (n = 0%nat ∧ cur (ks c'.1) = t) ∨
  (∃ m, n = S m ∧ ready_list (ks c'.1) !! m = Some t ∧ head (ready_list (ks c.1)) = Some (cur (ks c'.1))).
Proof.
  intros Hb Hr Hst Hn. destruct (boot_reachable _ _ _ _ _ _ _ Hb Hr) as [Hinv _ _ _].
  assert (queue_effect (ks c.1) (ks c'.1)) as (_ & e & He).
  { destruct Hst as [σ P page o p σ' k HP Hpage Hex|σ P p σ' y Hi HP Ht|σ P i σ' Hi [sm Hsm] _ Hup].
    - by eapply exec_queue.
    - by apply (timer_effect _ _ _ _ Hinv Ht).
    - destruct (sema_up_ok _ _ _ _ (inv_set_intr _ _ false Hinv) Hsm) as (s' & Hup' & _ & Hc & _ & Hid & Hl).
      same_run. by eapply effect_stay; [exact Hid|exact Hc|exact Hl]. }
  destruct He as [[Hc Hl]|(_ & Hc & Hl)].
  - left. split; [done|]. rewrite Hl. by apply lookup_app_l_Some.
  - right. destruct (ready_list (ks c.1)) as [|x r]; [done|]. simpl in *. rewrite Hl, Hc.
    destruct n as [|m]; simpl in Hn; [left; by simplify_eq|]. right. exists m.
    split_and!; [done|by apply lookup_app_l_Some|done].
Qed.

(** The initial thread creates another one and yields to it. *)
Definition demo2 : config := boot 4096 8192 [OCreate 31 [OYield]; OYield] [] [] [].

Lemma run_queue_fifo_witness :
  ready_list (ks (run 9 demo2).1) = [12288] ∧
  ((cur (ks (run 1 (run 9 demo2)).1) = cur (ks (run 9 demo2).1) ∧
    ready_list (ks (run 1 (run 9 demo2)).1) !! 0%nat = Some 12288) ∨
   (0%nat = 0%nat ∧ cur (ks (run 1 (run 9 demo2)).1) = 12288) ∨
   (∃ m, 0%nat = S m ∧ ready_list (ks (run 1 (run 9 demo2)).1) !! m = Some 12288 ∧
     head (ready_list (ks (run 9 demo2).1)) = Some (cur (ks (run 1 (run 9 demo2)).1)))).
Proof.
  split; [vm_compute; reflexivity|].
  apply (run_queue_fifo 4096 8192 [OCreate 31 [OYield]; OYield] [] [] []);
    [reflexivity|apply run_reaches| |vm_compute; reflexivity].
  apply run_step. vm_compute. reflexivity.
Defined.

