(* ===== verification/Disk.v ===== *)
(** Block devices (src/devices/block.c) and the layout of integers in bytes.

    A device is its type, its size and the sectors it holds; the driver behind
    it is what [block_read] reads and [block_write] replaces.  The counters that
    [block_print_stats] prints are left out. *)

From S2P Require Import Prelude.

(** ** Bytes *)

(** A 32-bit word in memory, least significant byte first. *)
Definition le32 (w : Z) : list Z :=
  [w mod 256; w / 256 mod 256; w / 65536 mod 256; w / 16777216 mod 256].

Definition of_le32 (l : list Z) : Z :=
  match l with
  | [a; b; c; d] => a + 256 * b + 65536 * c + 16777216 * d
  | _ => 0
  end.

Lemma of_le32_le32 w : is_u32 w → of_le32 (le32 w) = w.
Proof.
  unfold is_u32, of_le32, le32. intros Hw.
  pose proof (Z.div_mod w 256 ltac:(lia)). pose proof (Z.div_mod (w / 256) 256 ltac:(lia)).
  pose proof (Z.div_mod (w / 256 / 256) 256 ltac:(lia)).
  rewrite !Z.div_div in * by lia. simpl in *. change (256 * 256) with 65536 in *.
  change (65536 * 256) with 16777216 in *.
  assert (w / 16777216 mod 256 = w / 16777216); [|lia].
  apply Z.mod_small. split; [apply Z.div_pos; lia|]. apply Z.div_lt_upper_bound; lia.
Qed.

Lemma le32_bytes w : Forall is_byte (le32 w).
Proof. unfold le32. repeat constructor; by apply Z.mod_pos_bound. Qed.

(** ** Devices *)

Definition BLOCK_SECTOR_SIZE : Z := 512.

Inductive block_type :=
| BLOCK_KERNEL | BLOCK_FILESYS | BLOCK_SCRATCH | BLOCK_SWAP | BLOCK_RAW | BLOCK_FOREIGN.

#[export] Instance block_type_eq_dec : EqDecision block_type.
Proof. solve_decision. Defined.

Record block := Block { btype : block_type; bsize : Z; sectors : list (list Z) }.

Definition block_size (b : block) : Z := bsize b.

Definition check_sector (b : block) (sector : Z) : res unit :=
  if bsize b <=? sector then Fault PanicCall else Ok tt.

Definition block_read (b : block) (sector : Z) : res (list Z) :=
  _ ← check_sector b sector;
  deref (sectors b !! Z.to_nat sector).

Definition block_write (b : block) (sector : Z) (buffer : list Z) : res block :=
  _ ← check_sector b sector;
  ASSERT bool_decide (btype b ≠ BLOCK_FOREIGN) ;;
  Ok (Block (btype b) (bsize b) (<[Z.to_nat sector := buffer]> (sectors b))).

(** A device of the size it says, of full sectors, that may be written to. *)
Record dev_ok (b : block) : Prop := {
  dev_type : btype b ≠ BLOCK_FOREIGN;
  dev_size : 0 ≤ bsize b < WORD;
  dev_len : length (sectors b) = Z.to_nat (bsize b);
  dev_sector : ∀ i s, sectors b !! i = Some s → length s = 512%nat;
}.

Definition dev_okb (b : block) : bool :=
  bool_decide (btype b ≠ BLOCK_FOREIGN) && (0 <=? bsize b) && (bsize b <? WORD) &&
  Nat.eqb (length (sectors b)) (Z.to_nat (bsize b)) &&
  forallb (λ s, Nat.eqb (length s) 512) (sectors b).

Lemma dev_okb_ok b : dev_okb b = true → dev_ok b.
Proof.
  unfold dev_okb. intros. bool_inv. split; [by eapply bool_decide_eq_true_1|lia|by apply Nat.eqb_eq|].
  match goal with H : forallb _ _ = true |- _ => rewrite forallb_forall in H; rename H into Hs end.
  intros i s Hi. apply Nat.eqb_eq, Hs, list_elem_of_In, list_elem_of_lookup. by exists i.
Qed.

Section device.
Implicit Types b : block.

Lemma block_read_ok b i :
  dev_ok b → 0 ≤ i < bsize b → ∃ s, sectors b !! Z.to_nat i = Some s ∧ block_read b i = Ok s ∧ length s = 512%nat.
Proof.
  intros [_ Hsz Hl Hs] Hi. destruct (lookup_lt_is_Some_2 (sectors b) (Z.to_nat i)) as [s Hi']; [lia|].
  exists s. split_and!; [done| |by eapply Hs]. unfold block_read, check_sector.
  rewrite (proj2 (Z.leb_gt _ _)) by lia. simpl. by rewrite Hi'.
Qed.

Lemma block_write_ok b i s :
  dev_ok b → 0 ≤ i < bsize b → length s = 512%nat →
  ∃ b', block_write b i s = Ok b' ∧ dev_ok b' ∧ bsize b' = bsize b ∧
    sectors b' = <[Z.to_nat i := s]> (sectors b).
Proof.
  intros [Ht Hsz Hl Hs] Hi Hlen. unfold block_write, check_sector.
  rewrite (proj2 (Z.leb_gt _ _)) by lia. simpl. rewrite bool_decide_eq_true_2 by done.
  eexists. split_and!; [done| |done|done]. split; simpl; try done; [by rewrite length_insert|].
  intros j s' Hj. apply list_lookup_insert_Some in Hj as [(_ & <- & _)|[_ Hj]]; [done|by eapply Hs].
Qed.

End device.
