(* ===== verification/Inode.v ===== *)
(** Inodes (src/filesys/inode.c): files as runs of consecutive sectors.

    The state is the device, the open inodes in memory and the list that links
    them, the free map with its file, and [mallocs], which says how the next
    allocations turn out (all the later ones succeed).  This file has the part
    of inode.c that does not allocate sectors: opening, reading and writing.
    [inode_read_at] and [inode_write_at] are shown to read and write the file as
    one array of bytes. *)

From S2P Require Import Prelude Bitmap BitmapScan Disk.

(** ** Data *)

Definition INODE_MAGIC : Z := 0x494e4f44.

(** The used part of the on-disk inode; the rest of the sector is zero. *)
Record inode_disk := InodeDisk { start : Z; ilength : Z; imagic : Z }.

Definition encode_inode (d : inode_disk) : list Z :=
  le32 (start d) ++ le32 (u32 (ilength d)) ++ le32 (imagic d) ++ replicate 500 0.

Definition decode_inode (s : list Z) : inode_disk :=
  InodeDisk (of_le32 (take 4 s)) (s32 (of_le32 (take 4 (drop 4 s)))) (of_le32 (take 4 (drop 8 s))).

Record inode := Inode {
  isector : Z;
  open_cnt : Z;
  removed : bool;
  deny_write_cnt : Z;
  data : inode_disk;
}.

(** An open file (src/filesys/file.c); [finode] is the address of its inode. *)
Record file := File { finode : Z; fpos : Z; deny_write : bool }.

Record fs := FS {
  dev : block;
  inodes : gmap Z inode;
  open_inodes : list Z;
  next_addr : Z;
  mallocs : list bool;
  free_map : bitmap;
  free_map_file : option file;
  policy : Selector;
  statics : scan_statics;
}.

Definition set_dev (s : fs) (b : block) : fs :=
  FS b (inodes s) (open_inodes s) (next_addr s) (mallocs s) (free_map s) (free_map_file s)
    (policy s) (statics s).
Definition set_inodes (s : fs) (m : gmap Z inode) : fs :=
  FS (dev s) m (open_inodes s) (next_addr s) (mallocs s) (free_map s) (free_map_file s)
    (policy s) (statics s).
Definition set_open (s : fs) (l : list Z) : fs :=
  FS (dev s) (inodes s) l (next_addr s) (mallocs s) (free_map s) (free_map_file s)
    (policy s) (statics s).
Definition set_addr (s : fs) (n : Z) : fs :=
  FS (dev s) (inodes s) (open_inodes s) n (mallocs s) (free_map s) (free_map_file s)
    (policy s) (statics s).
Definition set_mallocs (s : fs) (l : list bool) : fs :=
  FS (dev s) (inodes s) (open_inodes s) (next_addr s) l (free_map s) (free_map_file s)
    (policy s) (statics s).
Definition set_free_map (s : fs) (b : bitmap) (st : scan_statics) : fs :=
  FS (dev s) (inodes s) (open_inodes s) (next_addr s) (mallocs s) b (free_map_file s)
    (policy s) st.
Definition set_free_map_file (s : fs) (f : option file) : fs :=
  FS (dev s) (inodes s) (open_inodes s) (next_addr s) (mallocs s) (free_map s) f
    (policy s) (statics s).

Abbreviation FSM := (ST fs).

(** Whether the next allocation succeeds. *)
Definition malloc : FSM bool :=
  λ s, match mallocs s with
       | [] => Ok (true, s)
       | ok :: l => Ok (ok, set_mallocs s l)
       end.

Definition fs_read (sector : Z) : FSM (list Z) := λ s, liftS (block_read (dev s) sector) s.
Definition fs_write (sector : Z) (buffer : list Z) : FSM unit :=
  λ s, match block_write (dev s) sector buffer with
       | Ok b => Ok (tt, set_dev s b)
       | Fault e => Fault e
       | Timeout => Timeout
       end.

Definition get_inode (a : Z) : FSM inode := λ s, liftS (deref (inodes s !! a)) s.
Definition put_inode (a : Z) (i : inode) : FSM unit := λ s, Ok (tt, set_inodes s (<[a := i]> (inodes s))).

(** Copies in and out of a caller's buffer. *)
Definition store_bytes (buf : list Z) (at_ : Z) (bytes : list Z) : res (list Z) :=
  if (0 <=? at_) && (at_ + Z.of_nat (length bytes) <=? Z.of_nat (length buf))
  then Ok (take (Z.to_nat at_) buf ++ bytes ++ drop (Z.to_nat at_ + length bytes) buf)
  else Fault BadAccess.

Definition load_bytes (buf : list Z) (at_ n : Z) : res (list Z) :=
  if (0 <=? at_) && (0 <=? n) && (at_ + n <=? Z.of_nat (length buf))
  then Ok (take (Z.to_nat n) (drop (Z.to_nat at_) buf))
  else Fault BadAccess.

(** ** Operations *)

(** [DIV_ROUND_UP] at the signed type [off_t]. *)
Definition bytes_to_sectors (size : Z) : Z :=
  u32 (Z.quot (s32 (size + BLOCK_SECTOR_SIZE - 1)) BLOCK_SECTOR_SIZE).

Definition byte_to_sector (i : inode) (pos : Z) : Z :=
  if pos <? ilength (data i)
  then u32 (start (data i) + Z.quot pos BLOCK_SECTOR_SIZE)
  else u32 (-1).

Definition inode_length (i : inode) : Z := ilength (data i).

Definition inode_get_inumber (i : inode) : Z := isector i.

Definition inode_reopen (a : Z) : FSM Z :=
  if a =? 0 then retS a
  else
    i <-- get_inode a ;;
    put_inode a (Inode (isector i) (s32 (open_cnt i + 1)) (removed i) (deny_write_cnt i) (data i)) ;;;
    retS a.

(** The search of the list of open inodes. *)
Fixpoint find_open (l : list Z) (sector : Z) : FSM (option Z) :=
  match l with
  | [] => retS None
  | a :: l => i <-- get_inode a ;; if isector i =? sector then retS (Some a) else find_open l sector
  end.

Definition inode_open (sector : Z) : FSM Z :=
  s <-- getS ;;
  o <-- find_open (open_inodes s) sector ;;
  match o with
  | Some a => inode_reopen a
  | None =>
      ok <-- malloc ;;
      if negb ok then retS 0
      else
        s <-- getS ;;
        let a := next_addr s in
        putS (set_open (set_addr s (a + 1)) (a :: open_inodes s)) ;;;
        content <-- fs_read sector ;;
        put_inode a (Inode sector 1 false 0 (decode_inode content)) ;;;
        retS a
  end.

Definition inode_remove (a : Z) : FSM unit :=
  assertS (negb (a =? 0)) ;;;
  i <-- get_inode a ;;
  put_inode a (Inode (isector i) (open_cnt i) true (deny_write_cnt i) (data i)).

Definition inode_deny_write (a : Z) : FSM unit :=
  i <-- get_inode a ;;
  let n := s32 (deny_write_cnt i + 1) in
  put_inode a (Inode (isector i) (open_cnt i) (removed i) n (data i)) ;;;
  assertS (n <=? open_cnt i).

Definition inode_allow_write (a : Z) : FSM unit :=
  i <-- get_inode a ;;
  assertS (0 <? deny_write_cnt i) ;;;
  assertS (deny_write_cnt i <=? open_cnt i) ;;;
  put_inode a (Inode (isector i) (open_cnt i) (removed i) (s32 (deny_write_cnt i - 1)) (data i)).

(** How much of the request lies in the sector at [offset]: the offset in the
    sector, the bytes left in it, and the size of the chunk. *)
Definition chunk_of (i : inode) (size offset : Z) : Z * Z * Z :=
  let sector_ofs := Z.rem offset BLOCK_SECTOR_SIZE in
  let inode_left := s32 (inode_length i - offset) in
  let sector_left := BLOCK_SECTOR_SIZE - sector_ofs in
  let min_left := if inode_left <? sector_left then inode_left else sector_left in
  (sector_ofs, sector_left, if size <? min_left then size else min_left).

(** The loop of [inode_read_at]; [bounce] says whether the bounce buffer has
    been allocated. *)
Fixpoint read_loop (fuel : nat) (i : inode) (buffer : list Z) (size offset bytes_read : Z)
    (bounce : bool) : FSM (Z * list Z) :=
  match fuel with
  | O => λ _, Timeout
  | S fuel =>
      if size <=? 0 then retS (bytes_read, buffer)
      else
        let sector_idx := byte_to_sector i offset in
        let '(sector_ofs, _, chunk_size) := chunk_of i size offset in
        if chunk_size <=? 0 then retS (bytes_read, buffer)
        else if (sector_ofs =? 0) && (chunk_size =? BLOCK_SECTOR_SIZE) then
          sec <-- fs_read sector_idx ;;
          buffer <-- liftS (store_bytes buffer bytes_read sec) ;;
          read_loop fuel i buffer (s32 (size - chunk_size)) (s32 (offset + chunk_size))
            (s32 (bytes_read + chunk_size)) bounce
        else
          ok <-- (if bounce : bool then retS true else malloc) ;;
          if negb ok then retS (bytes_read, buffer)
          else
            sec <-- fs_read sector_idx ;;
            part <-- liftS (load_bytes sec sector_ofs chunk_size) ;;
            buffer <-- liftS (store_bytes buffer bytes_read part) ;;
            read_loop fuel i buffer (s32 (size - chunk_size)) (s32 (offset + chunk_size))
              (s32 (bytes_read + chunk_size)) true
  end.

(** Every iteration but the last copies at least one byte. *)
Definition io_fuel (size : Z) : nat := S (Z.to_nat size).

(** The number of bytes read, and the buffer after the call. *)
Definition inode_read_at (a : Z) (buffer : list Z) (size offset : Z) : FSM (Z * list Z) :=
  i <-- get_inode a ;;
  read_loop (io_fuel size) i buffer size offset 0 false.

Fixpoint write_loop (fuel : nat) (i : inode) (buffer : list Z) (size offset bytes_written : Z)
    (bounce : bool) : FSM Z :=
  match fuel with
  | O => λ _, Timeout
  | S fuel =>
      if size <=? 0 then retS bytes_written
      else
        let sector_idx := byte_to_sector i offset in
        let '(sector_ofs, sector_left, chunk_size) := chunk_of i size offset in
        if chunk_size <=? 0 then retS bytes_written
        else if (sector_ofs =? 0) && (chunk_size =? BLOCK_SECTOR_SIZE) then
          part <-- liftS (load_bytes buffer bytes_written BLOCK_SECTOR_SIZE) ;;
          fs_write sector_idx part ;;;
          write_loop fuel i buffer (s32 (size - chunk_size)) (s32 (offset + chunk_size))
            (s32 (bytes_written + chunk_size)) bounce
        else
          ok <-- (if bounce : bool then retS true else malloc) ;;
          if negb ok then retS bytes_written
          else
            old <-- (if (0 <? sector_ofs) || (chunk_size <? sector_left)
                     then fs_read sector_idx
                     else retS (replicate 512 0)) ;;
            part <-- liftS (load_bytes buffer bytes_written chunk_size) ;;
            sec <-- liftS (store_bytes old sector_ofs part) ;;
            fs_write sector_idx sec ;;;
            write_loop fuel i buffer (s32 (size - chunk_size)) (s32 (offset + chunk_size))
              (s32 (bytes_written + chunk_size)) true
  end.

Definition inode_write_at (a : Z) (buffer : list Z) (size offset : Z) : FSM Z :=
  i <-- get_inode a ;;
  if negb (deny_write_cnt i =? 0) then retS 0
  else write_loop (io_fuel size) i buffer size offset 0 false.

(** ** A file as an array of bytes *)

Definition INT_MAX : Z := 2147483647.

(** The byte at [pos] in the run of sectors that starts at [st]. *)
Definition byte_at (b : block) (st pos : Z) : Z :=
  default 0 (default [] (sectors b !! Z.to_nat (st + pos / 512)) !! Z.to_nat (pos mod 512)).

Definition file_bytes (b : block) (st ofs n : Z) : list Z :=
  (λ k, byte_at b st (ofs + k)) <$> seqZ 0 n.

(** The sectors of the file lie on the device. *)
Record inode_ok (b : block) (d : inode_disk) : Prop := {
  io_start : 0 ≤ start d;
  io_length : 0 ≤ ilength d ≤ INT_MAX;
  io_end : start d + (ilength d + 511) / 512 ≤ bsize b;
}.

Definition overwrite (buf : list Z) (n : nat) (bytes : list Z) : list Z :=
  take n buf ++ bytes ++ drop (n + length bytes) buf.

Section bytes.
Implicit Types (buf x y : list Z) (b : block).

Lemma overwrite_length buf n x : (n + length x ≤ length buf)%nat → length (overwrite buf n x) = length buf.
Proof. intros. unfold overwrite. rewrite !length_app, length_take, length_drop. lia. Qed.

Lemma overwrite_app buf n x y :
  (n + length x + length y ≤ length buf)%nat →
  overwrite (overwrite buf n x) (n + length x) y = overwrite buf n (x ++ y).
Proof.
  intros Hl. unfold overwrite. rewrite <-!app_assoc.
  rewrite (take_app_ge (take n buf)) by (rewrite length_take; lia). rewrite length_take.
  replace (n + length x - n `min` length buf)%nat with (length x) by lia.
  rewrite take_app_length, <-app_assoc. f_equal. f_equal. f_equal.
  rewrite (drop_app_ge (take n buf)) by (rewrite length_take; lia). rewrite length_take.
  rewrite drop_app_ge, drop_drop by lia. f_equal. rewrite length_app. lia.
Qed.

Lemma overwrite_lookup buf n x k :
  (n + length x ≤ length buf)%nat →
  overwrite buf n x !! k = if decide (n ≤ k < n + length x)%nat then x !! (k - n)%nat else buf !! k.
Proof.
  intros Hl. unfold overwrite. destruct (decide (k < n)%nat) as [Hk|Hk].
  - rewrite lookup_app_l by (rewrite length_take; lia). rewrite lookup_take_lt by lia.
    by rewrite decide_False by lia.
  - rewrite lookup_app_r by (rewrite length_take; lia). rewrite length_take.
    replace (k - n `min` length buf)%nat with (k - n)%nat by lia.
    destruct (decide (k < n + length x)%nat).
    + rewrite lookup_app_l, decide_True by lia. done.
    + rewrite lookup_app_r, lookup_drop, decide_False by lia. f_equal. lia.
Qed.

Lemma store_bytes_ok buf a x :
  0 ≤ a → a + Z.of_nat (length x) ≤ Z.of_nat (length buf) →
  store_bytes buf a x = Ok (overwrite buf (Z.to_nat a) x).
Proof.
  intros. unfold store_bytes. rewrite (proj2 (Z.leb_le _ _)), (proj2 (Z.leb_le _ _)) by lia. done.
Qed.

Lemma load_bytes_ok buf a n :
  0 ≤ a → 0 ≤ n → a + n ≤ Z.of_nat (length buf) →
  load_bytes buf a n = Ok (take (Z.to_nat n) (drop (Z.to_nat a) buf)).
Proof. intros. unfold load_bytes. rewrite !(proj2 (Z.leb_le _ _)) by lia. done. Qed.

Lemma file_bytes_length b st ofs n : length (file_bytes b st ofs n) = Z.to_nat n.
Proof. unfold file_bytes. by rewrite length_fmap, length_seqZ. Qed.

Lemma file_bytes_lookup b st ofs n k :
  (k < Z.to_nat n)%nat → file_bytes b st ofs n !! k = Some (byte_at b st (ofs + Z.of_nat k)).
Proof. intros. unfold file_bytes. rewrite list_lookup_fmap, lookup_seqZ_lt by lia. done. Qed.

Lemma file_bytes_app b st ofs n m :
  0 ≤ n → 0 ≤ m → file_bytes b st ofs (n + m) = file_bytes b st ofs n ++ file_bytes b st (ofs + n) m.
Proof.
  intros. unfold file_bytes. rewrite seqZ_app, fmap_app by lia. f_equal. rewrite Z.add_0_l.
  apply list_eq. intros k. rewrite !list_lookup_fmap.
  destruct (decide (Z.of_nat k < m)).
  - rewrite !lookup_seqZ_lt by lia. simpl. do 2 f_equal. lia.
  - rewrite !lookup_seqZ_ge by lia. done.
Qed.

(** The part of one sector a request covers. *)
Lemma sector_bytes b st ofs n sec :
  dev_ok b → sectors b !! Z.to_nat (st + ofs / 512) = Some sec → 0 ≤ ofs → 0 ≤ n →
  ofs mod 512 + n ≤ 512 →
  take (Z.to_nat n) (drop (Z.to_nat (ofs mod 512)) sec) = file_bytes b st ofs n.
Proof.
  intros Hb Hs Ho Hn Hle. pose proof (dev_sector _ Hb _ _ Hs) as Hlen.
  pose proof (Z.mod_pos_bound ofs 512 eq_refl). pose proof (Z.div_mod ofs 512 ltac:(lia)).
  apply list_eq. intros k. destruct (decide (k < Z.to_nat n)%nat).
  - rewrite file_bytes_lookup, lookup_take_lt, lookup_drop by lia. unfold byte_at.
    assert ((ofs + Z.of_nat k) / 512 = ofs / 512) as Hq
      by (symmetry; apply (Z.div_unique _ _ _ (ofs mod 512 + Z.of_nat k)); lia).
    assert ((ofs + Z.of_nat k) mod 512 = ofs mod 512 + Z.of_nat k) as Hr
      by (symmetry; apply (Z.mod_unique _ _ (ofs / 512)); lia).
    rewrite Hq, Hr, Hs. simpl.
    replace (Z.to_nat (ofs mod 512 + Z.of_nat k)) with (Z.to_nat (ofs mod 512) + k)%nat by lia.
    destruct (sec !! (Z.to_nat (ofs mod 512) + k)%nat) eqn:E; [done|].
    apply lookup_ge_None in E. lia.
  - rewrite lookup_take_ge by lia. symmetry. apply lookup_ge_None. rewrite file_bytes_length. lia.
Qed.

End bytes.

Section io.
Implicit Types (s : fs) (i : inode) (b : block).

Lemma chunk_of_ok i size offset :
  0 ≤ ilength (data i) ≤ INT_MAX → 0 ≤ offset ≤ INT_MAX →
  chunk_of i size offset =
    (offset mod 512, 512 - offset mod 512,
     Z.min size (Z.min (ilength (data i) - offset) (512 - offset mod 512))).
Proof.
  unfold INT_MAX. intros Hl Ho. unfold chunk_of, inode_length, BLOCK_SECTOR_SIZE.
  rewrite Z.rem_mod_nonneg by lia. rewrite s32_small by (unfold is_s32; lia).
  f_equal. destruct (Z.ltb_spec (ilength (data i) - offset) (512 - offset mod 512)); zcase; lia.
Qed.

(** One step of either loop stays in one sector of the file. *)
Lemma chunk_sector b i size offset :
  dev_ok b → inode_ok b (data i) → 0 ≤ offset →
  0 < Z.min size (Z.min (ilength (data i) - offset) (512 - offset mod 512)) →
  byte_to_sector i offset = start (data i) + offset / 512 ∧
  0 ≤ start (data i) + offset / 512 < bsize b.
Proof.
  intros Hb [Hs Hl He] Ho Hc. unfold byte_to_sector, BLOCK_SECTOR_SIZE.
  rewrite (proj2 (Z.ltb_lt _ _)), Z.quot_div_nonneg by lia.
  assert (0 ≤ offset / 512) by (apply Z.div_pos; lia).
  assert (offset / 512 < (ilength (data i) + 511) / 512).
  { apply Z.div_lt_upper_bound; [lia|].
    pose proof (Z.div_mod (ilength (data i) + 511) 512 ltac:(lia)).
    pose proof (Z.mod_pos_bound (ilength (data i) + 511) 512 eq_refl). lia. }
  pose proof (dev_size _ Hb). rewrite u32_small; [lia|unfold is_u32; lia].
Qed.

(** What is left of a request after a chunk [c] of it. *)
Lemma remaining size len offset c r :
  c = Z.min size (Z.min (len - offset) (512 - r)) → 0 < c →
  Z.max 0 (Z.min size (len - offset)) = c + Z.max 0 (Z.min (size - c) (len - (offset + c))).
Proof. lia. Qed.

Lemma malloc_ok s : mallocs s = [] → malloc s = Ok (true, s).
Proof. unfold malloc. by intros ->. Qed.

Lemma liftS_Ok {A} (m : res A) a s : m = Ok a → liftS m s = Ok (a, s).
Proof. unfold liftS. by intros ->. Qed.

Lemma read_loop_ok fuel s i buffer size offset br bounce :
  dev_ok (dev s) → inode_ok (dev s) (data i) → mallocs s = [] →
  (Z.to_nat size < fuel)%nat → 0 ≤ offset ≤ INT_MAX → 0 ≤ size → 0 ≤ br →
  br + size ≤ Z.of_nat (length buffer) → br + size ≤ INT_MAX →
  let n := Z.max 0 (Z.min size (ilength (data i) - offset)) in
  read_loop fuel i buffer size offset br bounce s =
    Ok ((br + n, overwrite buffer (Z.to_nat br) (file_bytes (dev s) (start (data i)) offset n)), s).
Proof.
  intros Hd Hi Hm. revert buffer size offset br bounce. unfold INT_MAX.
  induction fuel as [|fuel IH]; intros buffer size offset br bounce Hf Ho Hs Hbr Hbuf Hmax; [lia|].
  destruct (Hi) as [Hst Hl He]. unfold INT_MAX in Hl. cbn zeta.
  assert (overwrite buffer (Z.to_nat br) [] = buffer) as Hnil.
  { unfold overwrite. simpl. by rewrite Nat.add_0_r, take_drop. }
  cbn [read_loop]. destruct (Z.leb_spec size 0) as [E|E].
  { replace (Z.max 0 _) with 0 by lia. rewrite Z.add_0_r. change (file_bytes _ _ _ 0) with (@nil Z).
    by rewrite Hnil. }
  rewrite chunk_of_ok by (unfold INT_MAX; lia). set (c := Z.min size _).
  pose proof (Z.mod_pos_bound offset 512 eq_refl) as Hr.
  destruct (Z.leb_spec c 0) as [Ec|Ec].
  { replace (Z.max 0 _) with 0 by lia. rewrite Z.add_0_r. change (file_bytes _ _ _ 0) with (@nil Z).
    by rewrite Hnil. }
  destruct (chunk_sector (dev s) i size offset) as [Hbs Hrange]; [done|done|lia|done|].
  destruct (block_read_ok (dev s) (start (data i) + offset / 512)) as (sec & Hsec & Hrd & Hlen); [done..|].
  pose proof (sector_bytes (dev s) (start (data i)) offset c sec Hd Hsec ltac:(lia) ltac:(lia) ltac:(lia)) as Hpart.
  assert (∀ bo, read_loop fuel i (overwrite buffer (Z.to_nat br) (file_bytes (dev s) (start (data i)) offset c))
      (s32 (size - c)) (s32 (offset + c)) (s32 (br + c)) bo s =
    Ok ((br + Z.max 0 (Z.min size (ilength (data i) - offset)),
      overwrite buffer (Z.to_nat br) (file_bytes (dev s) (start (data i)) offset
        (Z.max 0 (Z.min size (ilength (data i) - offset))))), s)) as Hnext.
  { intros bo. rewrite !s32_small by (unfold is_s32; lia).
    assert (length (file_bytes (dev s) (start (data i)) offset c) = Z.to_nat c) as Hlc by apply file_bytes_length.
    rewrite IH; [|lia..|rewrite overwrite_length; lia|lia].
    rewrite (remaining size _ offset c (offset mod 512)) by done.
    rewrite file_bytes_app by lia. do 2 f_equal. f_equal; [lia|].
    replace (Z.to_nat (br + c)) with (Z.to_nat br + length (file_bytes (dev s) (start (data i)) offset c))%nat by lia.
    apply overwrite_app. rewrite !file_bytes_length. lia. }
  rewrite Hbs. assert (fs_read (start (data i) + offset / 512) s = Ok (sec, s)) as Hread
    by (unfold fs_read, liftS; by rewrite Hrd).
  assert (store_bytes buffer br (file_bytes (dev s) (start (data i)) offset c) =
    Ok (overwrite buffer (Z.to_nat br) (file_bytes (dev s) (start (data i)) offset c))) as Hstore
    by (apply store_bytes_ok; rewrite ?file_bytes_length; lia).
  destruct ((offset mod 512 =? 0) && (c =? BLOCK_SECTOR_SIZE)) eqn:Efull.
  - bool_inv. unfold BLOCK_SECTOR_SIZE in *. rewrite (bindS_Ok _ _ _ _ _ Hread).
    assert (sec = file_bytes (dev s) (start (data i)) offset c) as ->.
    { rewrite <-Hpart. replace c with 512 by lia. replace (offset mod 512) with 0 by lia.
      rewrite drop_0, take_ge; [done|]. rewrite Hlen. lia. }
    rewrite (bindS_Ok _ _ _ _ _ (liftS_Ok _ _ _ Hstore)). apply Hnext.
  - assert ((if bounce then retS true else malloc) s = Ok (true, s)) as Hmal
      by (destruct bounce; [done|by apply malloc_ok]).
    rewrite (bindS_Ok _ _ _ _ _ Hmal). cbn [negb]. rewrite (bindS_Ok _ _ _ _ _ Hread).
    assert (load_bytes sec (offset mod 512) c = Ok (file_bytes (dev s) (start (data i)) offset c)) as Hload
      by (rewrite load_bytes_ok by lia; by rewrite Hpart).
    rewrite (bindS_Ok _ _ _ _ _ (liftS_Ok _ _ _ Hload)), (bindS_Ok _ _ _ _ _ (liftS_Ok _ _ _ Hstore)).
    apply Hnext.
Qed.

(** [inode_read_at] reads the bytes of the file from [offset] on, as many as
    there are. *)
Lemma inode_read_at_ok s a i buffer size offset :
  inodes s !! a = Some i →
  dev_ok (dev s) → inode_ok (dev s) (data i) → mallocs s = [] →
  0 ≤ offset ≤ INT_MAX → 0 ≤ size ≤ INT_MAX → size ≤ Z.of_nat (length buffer) →
  let n := Z.max 0 (Z.min size (ilength (data i) - offset)) in
  inode_read_at a buffer size offset s =
    Ok ((n, overwrite buffer 0 (file_bytes (dev s) (start (data i)) offset n)), s).
Proof.
  intros Ha Hd Hi Hm Ho Hs Hb n. unfold inode_read_at. assert (get_inode a s = Ok (i, s)) as Hg
    by (unfold get_inode, liftS; by rewrite Ha).
  rewrite (bindS_Ok _ _ _ _ _ Hg), read_loop_ok; try (done || lia). unfold io_fuel. lia.
Qed.

(** *** Writing *)

(** The sectors of a file. *)
Definition in_file (d : inode_disk) (k : nat) : Prop :=
  start d ≤ Z.of_nat k < start d + (ilength d + 511) / 512.

(** The device after [bytes] have been written at [ofs] of the file: these bytes
    have changed, the others have not, and neither have other sectors. *)
Record wrote b b' (d : inode_disk) (ofs : Z) (bytes : list Z) : Prop := {
  wr_ok : dev_ok b';
  wr_size : bsize b' = bsize b;
  wr_in : ∀ pos, 0 ≤ pos → byte_at b' (start d) pos =
    if decide (ofs ≤ pos < ofs + Z.of_nat (length bytes))
    then default 0 (bytes !! Z.to_nat (pos - ofs)) else byte_at b (start d) pos;
  wr_out : ∀ k, ¬ in_file d k → sectors b' !! k = sectors b !! k;
}.

Lemma wrote_nil b d ofs : dev_ok b → wrote b b d ofs [].
Proof. intros Hb. split; try done. intros pos _. rewrite decide_False; [done|]. simpl. lia. Qed.

Lemma wrote_app b b1 b2 d ofs x y :
  wrote b b1 d ofs x → wrote b1 b2 d (ofs + Z.of_nat (length x)) y → wrote b b2 d ofs (x ++ y).
Proof.
  intros [_ Hs1 Hi1 Ho1] [Hd2 Hs2 Hi2 Ho2]. split; [done|congruence| |].
  - intros pos Hp. rewrite Hi2, Hi1 by done. rewrite length_app. repeat case_decide; try lia; try done.
    + rewrite lookup_app_r by lia. do 2 f_equal. lia.
    + by rewrite lookup_app_l by lia.
  - intros k Hk. by rewrite Ho2, Ho1.
Qed.

(** Replacing a part of one sector. *)
Lemma wrote_sector b b' d ofs part old :
  dev_ok b → inode_ok b d → 0 ≤ ofs → ofs mod 512 + Z.of_nat (length part) ≤ 512 →
  ofs + Z.of_nat (length part) ≤ ilength d → 0 < Z.of_nat (length part) →
  sectors b !! Z.to_nat (start d + ofs / 512) = Some old →
  dev_ok b' → bsize b' = bsize b →
  sectors b' = <[Z.to_nat (start d + ofs / 512) := overwrite old (Z.to_nat (ofs mod 512)) part]> (sectors b) →
  wrote b b' d ofs part.
Proof.
  intros Hb [Hst Hl He] Ho Hr Hlen Hpos Hold Hb' Hsz Hs.
  pose proof (Z.mod_pos_bound ofs 512 eq_refl). pose proof (Z.div_mod ofs 512 ltac:(lia)).
  assert (0 ≤ ofs / 512) by (apply Z.div_pos; lia).
  pose proof (dev_sector _ Hb _ _ Hold) as Hlo. split; [done|done| |].
  - intros pos Hp. unfold byte_at. rewrite Hs.
    pose proof (Z.mod_pos_bound pos 512 eq_refl). pose proof (Z.div_mod pos 512 ltac:(lia)).
    assert (0 ≤ pos / 512) by (apply Z.div_pos; lia).
    destruct (decide (pos / 512 = ofs / 512)) as [Eq|Ne].
    + rewrite Eq, list_lookup_insert_eq by (by apply lookup_lt_Some in Hold). rewrite Hold. simpl.
      rewrite overwrite_lookup by lia. destruct (decide (ofs ≤ pos < _)) as [Hin|Hout].
      * rewrite decide_True by lia.
        replace (Z.to_nat (pos mod 512) - Z.to_nat (ofs mod 512))%nat with (Z.to_nat (pos - ofs)) by lia. done.
      * rewrite decide_False by lia. done.
    + rewrite list_lookup_insert_ne by lia. rewrite decide_False; [done|]. intros [? ?]. apply Ne.
      symmetry. apply (Z.div_unique _ _ _ (pos - 512 * (ofs / 512))); lia.
  - intros k Hk. rewrite Hs, list_lookup_insert_ne; [done|]. intros <-. apply Hk. unfold in_file.
    rewrite Z2Nat.id by lia. split; [lia|].
    assert (ofs / 512 < (ilength d + 511) / 512); [|lia].
    apply Z.div_lt_upper_bound; [lia|]. pose proof (Z.div_mod (ilength d + 511) 512 ltac:(lia)).
    pose proof (Z.mod_pos_bound (ilength d + 511) 512 eq_refl). lia.
Qed.

Lemma inode_ok_size b b' d : inode_ok b d → bsize b' = bsize b → inode_ok b' d.
Proof. intros [? ? ?] E. split; by rewrite ?E. Qed.

Lemma fs_write_ok s k sec :
  dev_ok (dev s) → 0 ≤ k < bsize (dev s) → length sec = 512%nat →
  ∃ b', fs_write k sec s = Ok (tt, set_dev s b') ∧ dev_ok b' ∧ bsize b' = bsize (dev s) ∧
    sectors b' = <[Z.to_nat k := sec]> (sectors (dev s)).
Proof.
  intros Hd Hk Hl. destruct (block_write_ok (dev s) k sec Hd Hk Hl) as (b' & Hw & ? & ? & ?).
  exists b'. unfold fs_write. by rewrite Hw.
Qed.

(** One chunk, written directly or through the bounce buffer. *)
Lemma write_chunk_ok s i buffer offset bw c (bounce : bool) (k : bool → FSM Z) :
  dev_ok (dev s) → inode_ok (dev s) (data i) → mallocs s = [] → 0 ≤ offset → 0 < c →
  c ≤ 512 - offset mod 512 → offset + c ≤ ilength (data i) → 0 ≤ bw →
  bw + c ≤ Z.of_nat (length buffer) →
  ∃ b' bo, wrote (dev s) b' (data i) offset (take (Z.to_nat c) (drop (Z.to_nat bw) buffer)) ∧
    (if (offset mod 512 =? 0) && (c =? BLOCK_SECTOR_SIZE) then
       part <-- liftS (load_bytes buffer bw BLOCK_SECTOR_SIZE) ;;
       fs_write (start (data i) + offset / 512) part ;;; k bounce
     else
       ok <-- (if bounce then retS true else malloc) ;;
       if negb ok then retS bw
       else
         old <-- (if (0 <? offset mod 512) || (c <? 512 - offset mod 512)
                  then fs_read (start (data i) + offset / 512) else retS (replicate 512 0)) ;;
         part <-- liftS (load_bytes buffer bw c) ;;
         sec <-- liftS (store_bytes old (offset mod 512) part) ;;
         fs_write (start (data i) + offset / 512) sec ;;; k true) s = k bo (set_dev s b').
Proof.
  intros Hd Hi Hm Ho Hc Hcm Hlen Hbw Hbuf. pose proof (Z.mod_pos_bound offset 512 eq_refl).
  destruct (chunk_sector (dev s) i c offset) as [_ Hrange]; [done|done|lia|lia|].
  destruct (block_read_ok (dev s) (start (data i) + offset / 512)) as (old & Hold & Hrd & Hlo); [done..|].
  set (part := take (Z.to_nat c) (drop (Z.to_nat bw) buffer)).
  assert (length part = Z.to_nat c) as Hlp by (unfold part; rewrite length_take, length_drop; lia).
  set (sec := overwrite old (Z.to_nat (offset mod 512)) part).
  assert (length sec = 512%nat) as Hls by (unfold sec; rewrite overwrite_length; lia).
  destruct (fs_write_ok s _ sec Hd Hrange Hls) as (b' & Hw & Hd' & Hsz & Hsec).
  assert (wrote (dev s) b' (data i) offset part) as Hwr
    by (apply (wrote_sector _ _ _ _ _ old); try (done || lia)).
  assert (load_bytes buffer bw c = Ok part) as Hload by (by apply load_bytes_ok; lia).
  destruct ((offset mod 512 =? 0) && (c =? BLOCK_SECTOR_SIZE)) eqn:Efull.
  - bool_inv. exists b', bounce. split; [done|]. unfold BLOCK_SECTOR_SIZE in *.
    replace 512 with c at 1 by lia. rewrite (bindS_Ok _ _ _ _ _ (liftS_Ok _ _ _ Hload)).
    assert (part = sec) as Eps; [|by rewrite Eps, (bindS_Ok _ _ _ _ _ Hw)]. unfold sec, overwrite.
    replace (offset mod 512) with 0 by lia. simpl. rewrite drop_ge by lia. by rewrite app_nil_r.
  - exists b', true. split; [done|].
    assert ((if bounce then retS true else malloc) s = Ok (true, s)) as Hmal
      by (destruct bounce; [done|by apply malloc_ok]).
    rewrite (bindS_Ok _ _ _ _ _ Hmal). cbn [negb].
    assert ((0 <? offset mod 512) || (c <? 512 - offset mod 512) = true) as ->.
    { apply orb_true_iff. rewrite !Z.ltb_lt. apply andb_false_iff in Efull.
      rewrite !Z.eqb_neq in Efull. unfold BLOCK_SECTOR_SIZE in Efull. lia. }
    assert (fs_read (start (data i) + offset / 512) s = Ok (old, s)) as Hread
      by (unfold fs_read, liftS; by rewrite Hrd).
    rewrite (bindS_Ok _ _ _ _ _ Hread), (bindS_Ok _ _ _ _ _ (liftS_Ok _ _ _ Hload)).
    assert (store_bytes old (offset mod 512) part = Ok sec) as Hst by (apply store_bytes_ok; lia).
    by rewrite (bindS_Ok _ _ _ _ _ (liftS_Ok _ _ _ Hst)), (bindS_Ok _ _ _ _ _ Hw).
Qed.

Lemma write_loop_ok fuel s i buffer size offset bw bounce :
  dev_ok (dev s) → inode_ok (dev s) (data i) → mallocs s = [] →
  (Z.to_nat size < fuel)%nat → 0 ≤ offset ≤ INT_MAX → 0 ≤ size → 0 ≤ bw →
  bw + size ≤ Z.of_nat (length buffer) → bw + size ≤ INT_MAX →
  let n := Z.max 0 (Z.min size (ilength (data i) - offset)) in
  ∃ b', write_loop fuel i buffer size offset bw bounce s = Ok (bw + n, set_dev s b') ∧
    wrote (dev s) b' (data i) offset (take (Z.to_nat n) (drop (Z.to_nat bw) buffer)).
Proof.
  revert s size offset bw bounce. unfold INT_MAX.
  induction fuel as [|fuel IH]; intros s size offset bw bounce Hd Hi Hm Hf Ho Hs Hbw Hbuf Hmax; [lia|].
  set (n := Z.max 0 (Z.min size (ilength (data i) - offset))).
  destruct (Hi) as [Hst Hl He]. unfold INT_MAX in Hl.
  assert (n = 0 → ∃ b', Ok (bw, s) = Ok (bw + n, set_dev s b') ∧
    wrote (dev s) b' (data i) offset (take (Z.to_nat n) (drop (Z.to_nat bw) buffer))) as Hstop.
  { intros ->. exists (dev s). rewrite Z.add_0_r. split; [by destruct s|]. by apply wrote_nil. }
  cbn [write_loop]. destruct (Z.leb_spec size 0) as [E|E]; [apply Hstop; lia|].
  rewrite chunk_of_ok by (unfold INT_MAX; lia). set (c := Z.min size _).
  pose proof (Z.mod_pos_bound offset 512 eq_refl) as Hr.
  destruct (Z.leb_spec c 0) as [Ec|Ec]; [apply Hstop; lia|].
  destruct (chunk_sector (dev s) i size offset) as [-> _]; [done|done|lia|done|].
  destruct (write_chunk_ok s i buffer offset bw c bounce (λ bo, write_loop fuel i buffer
    (s32 (size - c)) (s32 (offset + c)) (s32 (bw + c)) bo)) as (b1 & bo & Hw1 & ->); [done|done|done|lia..|].
  rewrite !s32_small by (unfold is_s32; lia).
  destruct (IH (set_dev s b1) (size - c) (offset + c) (bw + c) bo) as (b2 & -> & Hw2);
    [apply Hw1|by eapply inode_ok_size; [|apply Hw1]|done|lia..|].
  exists b2. assert (n = c + Z.max 0 (Z.min (size - c) (ilength (data i) - (offset + c)))) as ->
    by (by apply (remaining _ _ _ _ (offset mod 512))).
  set (m := Z.max 0 _) in *. split; [do 2 f_equal; lia|]. simpl in Hw2.
  replace (take (Z.to_nat (c + m)) (drop (Z.to_nat bw) buffer)) with
    (take (Z.to_nat c) (drop (Z.to_nat bw) buffer) ++ take (Z.to_nat m) (drop (Z.to_nat (bw + c)) buffer)).
  - eapply wrote_app; [done|]. rewrite length_take, length_drop.
    replace (offset + _) with (offset + c) by lia. done.
  - rewrite Z2Nat.inj_add by lia. rewrite Z2Nat.inj_add by lia. rewrite <-drop_drop.
    by rewrite <-take_take_drop.
Qed.

Lemma inode_write_at_ok s a i buffer size offset :
  inodes s !! a = Some i → deny_write_cnt i = 0 →
  dev_ok (dev s) → inode_ok (dev s) (data i) → mallocs s = [] →
  0 ≤ offset ≤ INT_MAX → 0 ≤ size ≤ INT_MAX → size ≤ Z.of_nat (length buffer) →
  let n := Z.max 0 (Z.min size (ilength (data i) - offset)) in
  ∃ b', inode_write_at a buffer size offset s = Ok (n, set_dev s b') ∧
    wrote (dev s) b' (data i) offset (take (Z.to_nat n) buffer).
Proof.
  intros Ha Hdeny Hd Hi Hm Ho Hs Hb n. unfold inode_write_at.
  assert (get_inode a s = Ok (i, s)) as Hg by (unfold get_inode, liftS; by rewrite Ha).
  rewrite (bindS_Ok _ _ _ _ _ Hg), Hdeny, Z.eqb_refl. cbn [negb].
  apply (write_loop_ok _ s i buffer size offset 0); try (done || lia). unfold io_fuel. lia.
Qed.

Lemma set_dev_id s : set_dev s (dev s) = s.
Proof. by destruct s. Qed.

(** Reading back what was written, and what was not. *)
Lemma wrote_file_bytes b b' d ofs bytes n :
  0 ≤ ofs → wrote b b' d ofs bytes → n = Z.of_nat (length bytes) → file_bytes b' (start d) ofs n = bytes.
Proof.
  intros Ho Hw ->. apply list_eq. intros k. destruct (decide (k < length bytes)%nat) as [Hk|Hk].
  - rewrite file_bytes_lookup by lia. rewrite (wr_in _ _ _ _ _ Hw) by lia. rewrite decide_True by lia.
    replace (Z.to_nat (ofs + Z.of_nat k - ofs)) with k by lia.
    destruct (lookup_lt_is_Some_2 bytes k Hk) as [x ->]. done.
  - rewrite !(proj2 (lookup_ge_None _ _)); [done|lia|rewrite file_bytes_length; lia].
Qed.

Lemma same_file_bytes b b' d2 o n :
  (∀ k, in_file d2 k → sectors b' !! k = sectors b !! k) → 0 ≤ start d2 → 0 ≤ o →
  o + n ≤ ilength d2 → file_bytes b' (start d2) o n = file_bytes b (start d2) o n.
Proof.
  intros Hsame Hs Ho Hn. apply list_eq. intros k. destruct (decide (k < Z.to_nat n)%nat) as [Hk|Hk].
  - rewrite !file_bytes_lookup by done. f_equal. unfold byte_at. rewrite Hsame; [done|].
    set (pos := o + Z.of_nat k). assert (0 ≤ pos / 512) by (apply Z.div_pos; lia).
    unfold in_file. rewrite Z2Nat.id by lia. split; [lia|].
    assert (pos / 512 < (ilength d2 + 511) / 512); [|lia].
    apply Z.div_lt_upper_bound; [lia|]. pose proof (Z.div_mod (ilength d2 + 511) 512 ltac:(lia)).
    pose proof (Z.mod_pos_bound (ilength d2 + 511) 512 eq_refl). lia.
  - rewrite !(proj2 (lookup_ge_None _ _)); [done|rewrite file_bytes_length; lia..].
Qed.

End io.

(** ** Theorems *)

(** Two states with the same inode and the same sectors of the file. *)
Lemma inode_read_at_same s s' a i i' buf sz ofs :
  inodes s !! a = Some i → inodes s' !! a = Some i' → data i' = data i →
  dev_ok (dev s) → dev_ok (dev s') → bsize (dev s') = bsize (dev s) → inode_ok (dev s) (data i) →
  mallocs s = [] → mallocs s' = [] →
  (∀ k, in_file (data i) k → sectors (dev s') !! k = sectors (dev s) !! k) →
  0 ≤ ofs ≤ INT_MAX → 0 ≤ sz ≤ INT_MAX → sz ≤ Z.of_nat (length buf) →
  ∃ r, inode_read_at a buf sz ofs s = Ok (r, s) ∧ inode_read_at a buf sz ofs s' = Ok (r, s').
Proof.
  intros Ha Ha' Hdata Hd Hd' Hsz Hi Hm Hm' Hsame Hofs Hs Hlen. eexists. split.
  - by apply (inode_read_at_ok s a i).
  - rewrite (inode_read_at_ok s' a i'); try done; [|rewrite Hdata; by eapply inode_ok_size].
    rewrite Hdata. destruct (Z.max_spec 0 (Z.min sz (ilength (data i) - ofs))) as [[? ->]|[? ->]]; [|done].
    rewrite (same_file_bytes (dev s) (dev s')); [done|done|apply Hi|lia|lia].
Qed.

(** [inode_write_at] writes as much of the buffer as fits before the end of
    the file; [inode_read_at] then returns exactly these bytes, and what it
    returns for any file in other sectors has not changed. *)
Theorem inode_write_then_read s a i buffer size offset :
  inodes s !! a = Some i → deny_write_cnt i = 0 →
  dev_ok (dev s) → inode_ok (dev s) (data i) → mallocs s = [] →
  0 ≤ offset ≤ INT_MAX → 0 ≤ size ≤ INT_MAX → size ≤ Z.of_nat (length buffer) →
  let n := Z.max 0 (Z.min size (ilength (data i) - offset)) in
  ∃ s', inode_write_at a buffer size offset s = Ok (n, s') ∧
    (∀ buf, n ≤ Z.of_nat (length buf) →
      inode_read_at a buf n offset s' = Ok ((n, overwrite buf 0 (take (Z.to_nat n) buffer)), s')) ∧
    (∀ a2 i2 buf sz ofs, inodes s !! a2 = Some i2 → inode_ok (dev s) (data i2) →
      (∀ k, in_file (data i2) k → ¬ in_file (data i) k) →
      0 ≤ ofs ≤ INT_MAX → 0 ≤ sz ≤ INT_MAX → sz ≤ Z.of_nat (length buf) →
      ∃ r, inode_read_at a2 buf sz ofs s = Ok (r, s) ∧ inode_read_at a2 buf sz ofs s' = Ok (r, s')).
Proof.
  intros Ha Hdeny Hd Hi Hm Ho Hs Hb n.
  destruct (inode_write_at_ok s a i buffer size offset) as (b' & Hw & Hwr); try done.
  fold n in Hw, Hwr. exists (set_dev s b'). split; [done|].
  pose proof (inode_ok_size _ b' _ Hi (wr_size _ _ _ _ _ Hwr)) as Hi'. split.
  - intros buf Hbuf. rewrite (inode_read_at_ok _ a i); try done; [|apply Hwr|lia]. simpl.
    replace (Z.max 0 (Z.min n _)) with n by lia.
    erewrite wrote_file_bytes; [done|lia|exact Hwr|]. rewrite length_take. lia.
  - intros a2 i2 buf sz ofs Ha2 Hi2 Hdis Hofs Hsz Hlen.
    apply (inode_read_at_same s (set_dev s b') a2 i2 i2); try done; try apply Hwr.
    intros k Hk. by apply (wr_out _ _ _ _ _ Hwr), Hdis.
Qed.

(** Two files of 600 and 10 bytes on a device of 8 sectors. *)
Definition demo_dev : block := Block BLOCK_FILESYS 8 (replicate 8 (replicate 512 0)).
Definition demo_fs : fs :=
  FS demo_dev {[ 1 := Inode 2 1 false 0 (InodeDisk 3 600 INODE_MAGIC);
                 2 := Inode 6 1 false 0 (InodeDisk 7 10 INODE_MAGIC) ]}
    [2; 1] 3 [] (Bitmap 8 [255]) None FIRST_FIT statics0.

Lemma inode_write_then_read_witness :
  ∃ s', inode_write_at 1 (replicate 520 7) 520 100 demo_fs = Ok (500, s') ∧
    (∀ buf, 500 ≤ Z.of_nat (length buf) →
      inode_read_at 1 buf 500 100 s' =
        Ok ((500, overwrite buf 0 (take 500 (replicate 520 7))), s')) ∧
    (∀ a2 i2 buf sz ofs, inodes demo_fs !! a2 = Some i2 → inode_ok demo_dev (data i2) →
      (∀ k, in_file (data i2) k → ¬ in_file (InodeDisk 3 600 INODE_MAGIC) k) →
      0 ≤ ofs ≤ INT_MAX → 0 ≤ sz ≤ INT_MAX → sz ≤ Z.of_nat (length buf) →
      ∃ r, inode_read_at a2 buf sz ofs demo_fs = Ok (r, demo_fs) ∧ inode_read_at a2 buf sz ofs s' = Ok (r, s')).
Proof.
  apply (inode_write_then_read demo_fs 1 (Inode 2 1 false 0 (InodeDisk 3 600 INODE_MAGIC))
    (replicate 520 7) 520 100); try done.
  apply dev_okb_ok. vm_compute. reflexivity.
Defined.
