(* ===== verification/FreeMap.v ===== *)
(** The free map (src/filesys/free-map.c), the rest of inode.c that allocates
    and releases sectors, and open files (src/filesys/file.c).

    The free map is a bitmap with a bit per sector, kept in the file of inode 0
    and written back after every change.  [file_read_at] and [file_write_at] are
    the only part of file.c the free map needs; the rest of file.c follows. *)

From S2P Require Import Prelude Bitmap BitmapScan Disk Inode.

(** ** Reading and writing at an offset *)

Definition file_read_at (f : file) (buffer : list Z) (size file_ofs : Z) : FSM (Z * list Z) :=
  inode_read_at (finode f) buffer size file_ofs.

Definition file_write_at (f : file) (buffer : list Z) (size file_ofs : Z) : FSM Z :=
  inode_write_at (finode f) buffer size file_ofs.

(** ** Bitmaps in files (src/lib/kernel/bitmap.c) *)

(** The word array as it lies in memory, and back. *)
Definition words_bytes (ws : list Z) : list Z := ws ≫= le32.

Fixpoint bytes_words (l : list Z) : list Z :=
  match l with
  | a :: b :: c :: d :: l => of_le32 [a; b; c; d] :: bytes_words l
  | _ => []
  end.

Definition bitmap_file_size (b : bitmap) : Z := byte_cnt (bit_cnt b).

Definition bitmap_write (b : bitmap) (f : file) : FSM bool :=
  let size := s32 (byte_cnt (bit_cnt b)) in
  n <-- file_write_at f (words_bytes (bits b)) size 0 ;;
  retS (n =? size).

(** The bits past the end of the last word are masked off. *)
Definition bitmap_read (b : bitmap) (f : file) : FSM (bool * bitmap) :=
  if 0 <? bit_cnt b then
    let size := s32 (byte_cnt (bit_cnt b)) in
    '(n, buf) <-- file_read_at f (words_bytes (bits b)) size 0 ;;
    let ws := bytes_words buf in
    let last := Z.to_nat (u32 (elem_cnt (bit_cnt b) - 1)) in
    w <-- liftS (deref (ws !! last)) ;;
    retS (n =? size, Bitmap (bit_cnt b) (<[last := Z.land w (last_mask b)]> ws))
  else retS (true, b).

(** ** The free map *)

Definition FREE_MAP_SECTOR : Z := 0.
Definition ROOT_DIR_SECTOR : Z := 1.

(** [mem] is what the memory [malloc] returns for the words contains. *)
Definition free_map_init (mem : list Z) : FSM unit :=
  s <-- getS ;;
  ok1 <-- malloc ;;
  ok2 <-- (if ok1 : bool then malloc else retS false) ;;
  ob <-- liftS (bitmap_create (block_size (dev s)) ok1 (if ok2 : bool then Some mem else None)) ;;
  match ob with
  | None => λ _, Fault PanicCall
  | Some b =>
      b <-- liftS (bitmap_mark b FREE_MAP_SECTOR) ;;
      b <-- liftS (bitmap_mark b ROOT_DIR_SECTOR) ;;
      s <-- getS ;;
      putS (set_free_map s b (statics s))
  end.

(** The first of the allocated sectors. *)
Definition free_map_allocate (cnt : Z) : FSM (option Z) :=
  s <-- getS ;;
  '(sector, st, b) <-- liftS (bitmap_scan_and_flip (policy s) (statics s) (free_map s) 0 cnt false) ;;
  putS (set_free_map s b st) ;;;
  fail <-- (if negb (sector =? BITMAP_ERROR) then
              match free_map_file s with
              | Some f => ok <-- bitmap_write b f ;; retS (negb ok)
              | None => retS false
              end
            else retS false) ;;
  if fail : bool then
    s <-- getS ;;
    b <-- liftS (bitmap_set_multiple (free_map s) sector cnt false) ;;
    putS (set_free_map s b (statics s)) ;;;
    retS None
  else retS (if sector =? BITMAP_ERROR then None else Some sector).

Definition free_map_release (sector cnt : Z) : FSM unit :=
  s <-- getS ;;
  all <-- liftS (bitmap_all (free_map s) sector cnt) ;;
  assertS all ;;;
  b <-- liftS (bitmap_set_multiple (free_map s) sector cnt false) ;;
  putS (set_free_map s b (statics s)) ;;;
  f <-- liftS (deref (free_map_file s)) ;;
  _ <-- bitmap_write b f ;;
  retS tt.

(** ** Creating and closing inodes *)

(** [for (i = 0; i < sectors; i++) block_write (fs_device, start + i, zeros)] *)
Fixpoint zero_sectors (n : nat) (sector : Z) : FSM unit :=
  match n with
  | O => retS tt
  | S n => fs_write (u32 sector) (replicate 512 0) ;;; zero_sectors n (sector + 1)
  end.

Definition inode_create (sector length : Z) : FSM bool :=
  assertS (0 <=? length) ;;;
  ok <-- malloc ;;
  if negb ok then retS false
  else
    let sectors := bytes_to_sectors length in
    o <-- free_map_allocate sectors ;;
    match o with
    | None => retS false
    | Some start =>
        fs_write sector (encode_inode (InodeDisk start length INODE_MAGIC)) ;;;
        zero_sectors (Z.to_nat sectors) start ;;;
        retS true
    end.

Definition inode_close (a : Z) : FSM unit :=
  if a =? 0 then retS tt
  else
    i <-- get_inode a ;;
    let n := s32 (open_cnt i - 1) in
    put_inode a (Inode (isector i) n (removed i) (deny_write_cnt i) (data i)) ;;;
    if n =? 0 then
      s <-- getS ;;
      putS (set_open s (filter (λ x, x ≠ a) (open_inodes s))) ;;;
      (if removed i then
         free_map_release (isector i) 1 ;;;
         free_map_release (start (data i)) (bytes_to_sectors (ilength (data i)))
       else retS tt) ;;;
      s <-- getS ;;
      putS (set_inodes s (delete a (inodes s)))
    else retS tt.

(** ** Open files *)

Definition file_open (a : Z) : FSM (option file) :=
  ok <-- malloc ;;
  if negb (a =? 0) && ok then retS (Some (File a 0 false))
  else inode_close a ;;; retS None.

Definition file_reopen (f : file) : FSM (option file) :=
  a <-- inode_reopen (finode f) ;; file_open a.

Definition file_allow_write (f : file) : FSM file :=
  if deny_write f then
    inode_allow_write (finode f) ;;; retS (File (finode f) (fpos f) false)
  else retS f.

Definition file_deny_write (f : file) : FSM file :=
  if negb (deny_write f) then
    inode_deny_write (finode f) ;;; retS (File (finode f) (fpos f) true)
  else retS f.

Definition file_close (f : file) : FSM unit :=
  f <-- file_allow_write f ;; inode_close (finode f).

Definition file_get_inode (f : file) : Z := finode f.

Definition file_read (f : file) (buffer : list Z) (size : Z) : FSM (Z * list Z * file) :=
  '(n, buffer) <-- inode_read_at (finode f) buffer size (fpos f) ;;
  retS (n, buffer, File (finode f) (s32 (fpos f + n)) (deny_write f)).

Definition file_write (f : file) (buffer : list Z) (size : Z) : FSM (Z * file) :=
  n <-- inode_write_at (finode f) buffer size (fpos f) ;;
  retS (n, File (finode f) (s32 (fpos f + n)) (deny_write f)).

Definition file_length (f : file) : FSM Z := i <-- get_inode (finode f) ;; retS (inode_length i).

Definition file_seek (f : file) (new_pos : Z) : FSM file :=
  assertS (0 <=? new_pos) ;;; retS (File (finode f) new_pos (deny_write f)).

Definition file_tell (f : file) : Z := fpos f.

(** ** The free map file *)

Definition free_map_open : FSM unit :=
  a <-- inode_open FREE_MAP_SECTOR ;;
  o <-- file_open a ;;
  s <-- getS ;; putS (set_free_map_file s o) ;;;
  match o with
  | None => λ _, Fault PanicCall
  | Some f =>
      s <-- getS ;;
      '(ok, b) <-- bitmap_read (free_map s) f ;;
      s <-- getS ;; putS (set_free_map s b (statics s)) ;;;
      if ok : bool then retS tt else λ _, Fault PanicCall
  end.

Definition free_map_close : FSM unit :=
  s <-- getS ;;
  match free_map_file s with
  | Some f => file_close f
  | None => retS tt
  end.

Definition free_map_create : FSM unit :=
  s <-- getS ;;
  ok <-- inode_create FREE_MAP_SECTOR (s32 (bitmap_file_size (free_map s))) ;;
  if negb ok then λ _, Fault PanicCall
  else
    a <-- inode_open FREE_MAP_SECTOR ;;
    o <-- file_open a ;;
    s <-- getS ;; putS (set_free_map_file s o) ;;;
    match o with
    | None => λ _, Fault PanicCall
    | Some f =>
        s <-- getS ;;
        ok <-- bitmap_write (free_map s) f ;;
        if ok : bool then retS tt else λ _, Fault PanicCall
    end.

(** ** The words of a bitmap as bytes *)

Lemma words_bytes_length ws : length (words_bytes ws) = (4 * length ws)%nat.
Proof. induction ws as [|w ws IH]; [done|]. unfold words_bytes in *. rewrite bind_cons, length_app, IH. simpl. lia. Qed.

Lemma bytes_words_bytes ws : Forall is_u32 ws → bytes_words (words_bytes ws) = ws.
Proof.
  induction 1 as [|w ws Hw Hws IH]; [done|]. unfold words_bytes in *.
  change (bytes_words (le32 w ++ (ws ≫= le32)) = w :: ws). cbn [le32 app bytes_words].
  rewrite IH. f_equal. by apply of_le32_le32.
Qed.

Lemma byte_cnt_ok b :
  wf b → Z.of_nat (length (words_bytes (bits b))) = byte_cnt (bit_cnt b) ∧
    0 ≤ byte_cnt (bit_cnt b) ≤ INT_MAX.
Proof.
  intros [Hc Hl _]. rewrite words_bytes_length, Hl. unfold byte_cnt, elem_cnt, ELEM_BITS in *.
  pose proof (DIV_ROUND_UP_spec (bit_cnt b) 32 ltac:(lia) ltac:(lia) ltac:(lia)) as Hd.
  rewrite u32_small by (unfold is_u32; lia). unfold INT_MAX. lia.
Qed.

(** ** What keeps the map on the disk *)

(** The bytes of a bitmap, but for the bits past the end of the last word. *)
Definition holds_map (l : list Z) (b : bitmap) : Prop :=
  ∃ ws, l = words_bytes ws ∧ wf (Bitmap (bit_cnt b) ws) ∧
    ∀ j, 0 ≤ j < bit_cnt b → bit_at (Bitmap (bit_cnt b) ws) j = bit_at b j.

Lemma holds_map_refl l b : l = words_bytes (bits b) → wf b → holds_map l b.
Proof. intros -> Hwf. exists (bits b). split_and!; try done. by destruct b. Qed.

(** The free map is a well-formed bitmap with a bit for each sector, its file
    is open and the sectors of the file hold the map. *)
Record fm_ok (s : fs) (f : file) (i : inode) : Prop := {
  fm_dev : dev_ok (dev s);
  fm_mem : mallocs s = [];
  fm_policy : policy s = FIRST_FIT;
  fm_wf : wf (free_map s);
  fm_cnt : bit_cnt (free_map s) = bsize (dev s);
  fm_file : free_map_file s = Some f;
  fm_inode : inodes s !! finode f = Some i;
  fm_io : inode_ok (dev s) (data i);
  fm_len : ilength (data i) = byte_cnt (bit_cnt (free_map s));
  fm_deny : deny_write_cnt i = 0;
  fm_disk : holds_map (file_bytes (dev s) (start (data i)) 0 (ilength (data i))) (free_map s);
}.

(** Only the free map and its file have changed. *)
Record fm_step (s s' : fs) (d : inode_disk) : Prop := {
  fs_inodes : inodes s' = inodes s;
  fs_open : open_inodes s' = open_inodes s;
  fs_addr : next_addr s' = next_addr s;
  fs_size : bsize (dev s') = bsize (dev s);
  fs_out : ∀ k, ¬ in_file d k → sectors (dev s') !! k = sectors (dev s) !! k;
}.

Section free_map.
Implicit Types (s : fs) (f : file) (i : inode) (b : bitmap).

Lemma fm_step_refl s d : fm_step s s d.
Proof. by split. Qed.

Lemma fm_step_trans s1 s2 s3 d : fm_step s1 s2 d → fm_step s2 s3 d → fm_step s1 s3 d.
Proof.
  intros [? ? ? ? Ho1] [? ? ? ? Ho2]. split; try congruence. intros k Hk. by rewrite Ho2, Ho1.
Qed.

(** Writing a changed map back. *)
Lemma bitmap_write_ok s f i b st :
  fm_ok s f i → wf b → bit_cnt b = bit_cnt (free_map s) →
  ∃ s', bitmap_write b f (set_free_map s b st) = Ok (true, s') ∧ fm_ok s' f i ∧
    fm_step s s' (data i) ∧ free_map s' = b ∧ statics s' = st.
Proof.
  intros Hfm Hwf Hcnt. destruct (byte_cnt_ok b Hwf) as [Hlen Hmax]. pose proof Hfm as [].
  unfold bitmap_write. rewrite (s32_small (byte_cnt _)) by (unfold is_s32, INT_MAX in *; lia).
  destruct (inode_write_at_ok (set_free_map s b st) (finode f) i (words_bytes (bits b)) (byte_cnt (bit_cnt b)) 0)
    as (b' & Hw & Hwr); try (done || lia).
  replace (Z.max 0 _) with (byte_cnt (bit_cnt b)) in Hw, Hwr by (rewrite fm_len0, <-Hcnt; lia).
  rewrite take_ge in Hwr by lia. unfold file_write_at.
  rewrite (bindS_Ok _ _ _ _ _ Hw), Z.eqb_refl. eexists. split; [done|].
  simpl in Hwr. destruct (Hwr) as [? ? ? ?]. split_and!; try done.
  split; simpl; try done; [congruence|by eapply inode_ok_size|congruence|].
  erewrite wrote_file_bytes; [by apply (holds_map_refl _ b)| |exact Hwr|by rewrite Hlen, fm_len0, <-Hcnt]. done.
Qed.

Lemma free_map_allocate_ok s f i cnt :
  fm_ok s f i → 0 ≤ cnt →
  ∃ o s', free_map_allocate cnt s = Ok (o, s') ∧ fm_ok s' f i ∧ fm_step s s' (data i) ∧
    match o with
    | Some r => fits (free_map s) r cnt false ∧ r ≠ BITMAP_ERROR ∧
        ∀ j, 0 ≤ j → bit_at (free_map s') j =
          if bool_decide (r ≤ j < r + cnt) then true else bit_at (free_map s) j
    | None => free_map s' = free_map s ∧ ∀ k, 0 ≤ k → ¬ fits (free_map s) k cnt false
    end.
Proof.
  intros Hfm Hc. pose proof Hfm as []. pose proof (wf_cnt _ fm_wf0).
  destruct (first_fit_flip (statics s) (free_map s) 0 cnt false) as (r & st' & b' & Hscan & Hwf' & Hcnt' & Hr);
    [done|lia|done|].
  unfold free_map_allocate, getS. unfold bindS at 1. rewrite fm_policy0.
  rewrite (bindS_Ok _ _ _ _ _ (liftS_Ok _ _ _ Hscan)). unfold putS. unfold bindS at 1.
  destruct Hr as [(Hne & H0 & Hfit & Hleast & Hbits)|(-> & -> & Hno)].
  - rewrite (proj2 (Z.eqb_neq _ _)) by done. cbn [negb]. rewrite fm_file0.
    destruct (bitmap_write_ok s f i b' st' Hfm Hwf' Hcnt') as (s' & Hw & Hfm' & Hst & Hb & _).
    assert ((ok <-- bitmap_write b' f ;; retS (negb ok)) (set_free_map s b' st') = Ok (false, s')) as Hw'
      by (by rewrite (bindS_Ok _ _ _ _ _ Hw)).
    rewrite (bindS_Ok _ _ _ _ _ Hw'). do 2 eexists. split; [done|]. split_and!; try done.
    intros j Hj. rewrite Hb. by rewrite Hbits.
  - rewrite Z.eqb_refl. cbn [negb]. rewrite (bindS_Ok _ _ _ _ _ (eq_refl : retS false _ = _)).
    do 2 eexists. split; [done|]. split_and!; try done; by split.
Qed.

Lemma free_map_release_ok s f i sector cnt :
  fm_ok s f i → 0 ≤ sector → 0 ≤ cnt → sector + cnt ≤ bsize (dev s) →
  all_bits (free_map s) sector cnt true →
  ∃ s', free_map_release sector cnt s = Ok (tt, s') ∧ fm_ok s' f i ∧ fm_step s s' (data i) ∧
    ∀ j, 0 ≤ j → bit_at (free_map s') j =
      if bool_decide (sector ≤ j < sector + cnt) then false else bit_at (free_map s) j.
Proof.
  intros Hfm Hs Hc Hle Hall. pose proof Hfm as [].
  destruct (bitmap_set_multiple_spec (free_map s) sector cnt false) as (b' & Hset & Hwf' & Hcnt' & Hbits);
    [done|lia..|].
  unfold free_map_release, getS. unfold bindS at 1.
  rewrite (bindS_Ok _ _ _ _ _ (liftS_Ok _ _ _ (bitmap_all_Ok _ _ _ fm_wf0 Hs Hc ltac:(lia) Hall))).
  rewrite (bindS_Ok _ _ _ _ _ (eq_refl : assertS true s = _)).
  rewrite (bindS_Ok _ _ _ _ _ (liftS_Ok _ _ _ Hset)). unfold putS. unfold bindS at 1. rewrite fm_file0.
  rewrite (bindS_Ok _ _ _ _ _ (liftS_Ok _ _ _ (eq_refl : deref (Some f) = Ok f))).
  destruct (bitmap_write_ok s f i b' (statics s) Hfm Hwf' Hcnt') as (s' & Hw & Hfm' & Hst & Hb & _).
  rewrite (bindS_Ok _ _ _ _ _ Hw). eexists. split; [done|]. split_and!; try done.
  intros j Hj. by rewrite Hb, Hbits.
Qed.

End free_map.

(** ** Reading the map back *)

Section read_back.
Implicit Types b : bitmap.

Lemma last_mask_keeps b j :
  wf b → 0 ≤ j < bit_cnt b → elem_idx j = elem_cnt (bit_cnt b) - 1 →
  Z.testbit (last_mask b) (j mod ELEM_BITS) = true.
Proof.
  intros [Hc _ _] Hj Hi. unfold last_mask, elem_cnt, elem_idx, ELEM_BITS in *.
  pose proof (DIV_ROUND_UP_spec (bit_cnt b) 32 ltac:(lia) ltac:(lia) ltac:(lia)) as Hd.
  pose proof (Z.mod_pos_bound j 32 ltac:(lia)). pose proof (Z.div_mod j 32 ltac:(lia)).
  pose proof (Z.mod_pos_bound (bit_cnt b) 32 ltac:(lia)) as Hm. pose proof (Z.div_mod (bit_cnt b) 32 ltac:(lia)).
  destruct (Z.eqb_spec (bit_cnt b mod 32) 0).
  - change SIZE_MAX with (Z.ones 32). apply Z.ones_spec_low. lia.
  - rewrite Z.shiftl_1_l, u32_small.
    + rewrite Z.sub_1_r, <-Z.ones_equiv. apply Z.ones_spec_low. nia.
    + unfold is_u32. split; [apply Z.pow_nonneg; lia|]. apply (Z.pow_lt_mono_r 2 _ 32); lia.
Qed.

Lemma last_mask_u32 b : is_u32 (last_mask b).
Proof.
  unfold last_mask, ELEM_BITS. pose proof (Z.mod_pos_bound (bit_cnt b) 32 ltac:(lia)).
  destruct (Z.eqb_spec (bit_cnt b mod 32) 0); [done|].
  assert (1 ≤ 2 ^ (bit_cnt b mod 32) < 2 ^ 32)
    by (split; [apply (Z.pow_le_mono_r 2 0); lia|apply Z.pow_lt_mono_r; lia]).
  rewrite Z.shiftl_1_l, u32_small; unfold is_u32 in *; lia.
Qed.

(** The words with the last one masked have the same bits. *)
Lemma masked_bits b :
  wf b → 0 < bit_cnt b →
  ∃ w, bits b !! Z.to_nat (u32 (elem_cnt (bit_cnt b) - 1)) = Some w ∧
    let b' := Bitmap (bit_cnt b) (<[Z.to_nat (u32 (elem_cnt (bit_cnt b) - 1)) := Z.land w (last_mask b)]> (bits b)) in
    wf b' ∧ ∀ j, 0 ≤ j < bit_cnt b → bit_at b' j = bit_at b j.
Proof.
  intros Hwf Hpos. pose proof Hwf as [Hc Hl Hw].
  pose proof (DIV_ROUND_UP_spec (bit_cnt b) 32 ltac:(lia) ltac:(lia) ltac:(lia)) as Hd.
  change (DIV_ROUND_UP (bit_cnt b) 32) with (elem_cnt (bit_cnt b)) in Hd.
  rewrite u32_small by (unfold is_u32; lia). set (last := Z.to_nat (elem_cnt (bit_cnt b) - 1)).
  destruct (lookup_lt_is_Some_2 (bits b) last) as [w Hlast]; [lia|]. exists w. split; [done|].
  assert (is_u32 w) as Hw32 by (by eapply Forall_lookup_1 in Hlast).
  split.
  - split; simpl; [done|by rewrite length_insert|]. apply Forall_insert; [done|].
    apply is_u32_land; [done|]. by apply last_mask_u32.
  - intros j Hj. unfold bit_at. simpl. destruct (decide (elem_idx j = elem_cnt (bit_cnt b) - 1)) as [E|E].
    + rewrite E. fold last. rewrite list_lookup_insert_eq, Hlast by lia. simpl.
      rewrite Z.land_spec, last_mask_keeps by done. apply andb_true_r.
    + rewrite list_lookup_insert_ne; [done|]. unfold last, elem_idx, ELEM_BITS in *.
      assert (0 ≤ j / 32) by (apply Z.div_pos; lia). lia.
Qed.

Lemma bitmap_read_map s f i b m :
  dev_ok (dev s) → mallocs s = [] → inodes s !! finode f = Some i → inode_ok (dev s) (data i) →
  ilength (data i) = byte_cnt (bit_cnt m) → holds_map (file_bytes (dev s) (start (data i)) 0 (ilength (data i))) m →
  wf b → bit_cnt b = bit_cnt m →
  ∃ b', bitmap_read b f s = Ok ((true, b'), s) ∧ wf b' ∧ bit_cnt b' = bit_cnt m ∧
    ∀ j, 0 ≤ j < bit_cnt b' → bit_at b' j = bit_at m j.
Proof.
  intros Hd Hm Hi Hio Hlm Hdisk Hwf Hcnt. unfold bitmap_read. destruct (Z.ltb_spec 0 (bit_cnt b)) as [Hpos|Hz].
  2: { exists b. split_and!; try done. lia. }
  destruct (byte_cnt_ok b Hwf) as [Hlen Hmax]. rewrite (s32_small (byte_cnt _)) by (unfold is_s32, INT_MAX in *; lia).
  unfold file_read_at. pose proof (inode_read_at_ok s (finode f) i (words_bytes (bits b)) (byte_cnt (bit_cnt b)) 0) as Hrd.
  rewrite <-Hcnt in Hlm. rewrite Hlm in Hrd, Hdisk. replace (Z.max 0 _) with (byte_cnt (bit_cnt b)) in Hrd by lia.
  rewrite (bindS_Ok _ _ _ _ _ (Hrd ltac:(done) ltac:(done) ltac:(done) ltac:(done) ltac:(unfold INT_MAX; lia) ltac:(lia) ltac:(lia))).
  destruct Hdisk as (ws & -> & Hwfs & Hsame). unfold overwrite. rewrite take_0, app_nil_l, drop_ge, app_nil_r.
  2: { destruct (byte_cnt_ok _ Hwfs) as [Hlen' _]. cbn [bits bit_cnt] in Hlen'. rewrite <-Hcnt in Hlen'. lia. }
  rewrite bytes_words_bytes by apply Hwfs. unfold last_mask. rewrite Hcnt in *.
  destruct (masked_bits (Bitmap (bit_cnt m) ws) Hwfs Hpos) as (w & Hw & Hwf' & Hbits). cbn [bits bit_cnt] in *. rewrite Hw, Z.eqb_refl.
  eexists. split; [done|]. split_and!; try done. intros j Hj. rewrite <-Hsame by done. by apply Hbits.
Qed.

Lemma bitmap_read_ok s f i b :
  fm_ok s f i → wf b → bit_cnt b = bit_cnt (free_map s) →
  ∃ b', bitmap_read b f s = Ok ((true, b'), s) ∧ wf b' ∧ bit_cnt b' = bit_cnt (free_map s) ∧
    ∀ j, 0 ≤ j < bit_cnt b' → bit_at b' j = bit_at (free_map s) j.
Proof. intros [] Hwf Hcnt. by eapply bitmap_read_map. Qed.

End read_back.

(** The free map on the disk follows the one in memory.  [free_map_allocate]
    gives the first run of free sectors it finds and marks just these, or finds
    that there is no such run and changes nothing; in both cases a reader of the
    free map file then gets a bitmap with the same bits as the one in memory. *)
Theorem free_map_persists s f i cnt :
  fm_ok s f i → 0 ≤ cnt →
  ∃ o s', free_map_allocate cnt s = Ok (o, s') ∧ fm_ok s' f i ∧ fm_step s s' (data i) ∧
    match o with
    | Some r => fits (free_map s) r cnt false ∧
        ∀ j, 0 ≤ j → bit_at (free_map s') j =
          if bool_decide (r ≤ j < r + cnt) then true else bit_at (free_map s) j
    | None => free_map s' = free_map s ∧ ∀ k, 0 ≤ k → ¬ fits (free_map s) k cnt false
    end ∧
    ∀ b, wf b → bit_cnt b = bit_cnt (free_map s') →
      ∃ b', bitmap_read b f s' = Ok ((true, b'), s') ∧ wf b' ∧ bit_cnt b' = bit_cnt (free_map s') ∧
        ∀ j, 0 ≤ j < bit_cnt b' → bit_at b' j = bit_at (free_map s') j.
Proof.
  intros Hfm Hc. destruct (free_map_allocate_ok s f i cnt Hfm Hc) as (o & s' & Ha & Hfm' & Hst & Ho).
  exists o, s'. split_and!; try done; [by destruct o as [r|]; [destruct Ho as (? & _ & ?)|]|].
  intros b Hwf Hcnt. by apply (bitmap_read_ok s' f i b).
Qed.

(** A device of 40 sectors, the free map file in sector 3. *)
Definition demo_map : bitmap := Bitmap 40 [4294901775; 255].
Definition demo_map_dev : block :=
  Block BLOCK_FILESYS 40
    (<[3%nat := words_bytes (bits demo_map) ++ replicate 504 0]> (replicate 40 (replicate 512 0))).
Definition demo_map_inode : inode := Inode 0 1 false 0 (InodeDisk 3 8 INODE_MAGIC).
Definition demo_map_fs : fs :=
  FS demo_map_dev {[ 1 := demo_map_inode ]} [1] 2 [] demo_map (Some (File 1 0 false)) FIRST_FIT statics0.

Lemma free_map_persists_witness :
  ∃ s', free_map_allocate 5 demo_map_fs = Ok (Some 4, s') ∧
    ∃ b', bitmap_read (Bitmap 40 [0; 0]) (File 1 0 false) s' = Ok ((true, b'), s') ∧
      ∀ j, 0 ≤ j < 40 → bit_at b' j = bit_at (free_map s') j.
Proof.
  destruct (free_map_persists demo_map_fs (File 1 0 false) demo_map_inode 5) as (o & s' & Ha & _ & _ & _ & Hr).
  - split; try done; [by apply dev_okb_ok; vm_compute|by apply wf_dec_ok|]. apply holds_map_refl; [by vm_compute|by apply wf_dec_ok].
  - lia.
  - assert (o = Some 4 ∧ bit_cnt (free_map s') = 40) as [-> Hc]
      by (revert Ha; vm_compute; by intros [= <- <-]).
    exists s'. split; [done|]. destruct (Hr (Bitmap 40 [0; 0])) as (b' & Hb & _ & Hcnt & Hbits);
      [by apply wf_dec_ok|by rewrite Hc|]. exists b'. split; [done|]. intros j Hj. apply Hbits. lia.
Defined.
