(* ===== verification/CString.v ===== *)
(** Memory blocks and strings (src/lib/string.c).

    Memory is a finite map from addresses to bytes; loads and stores outside it
    are faults.  Loops that run to a null byte get as much fuel as memory has
    bytes, which is enough since each iteration reads another byte. *)

From S2P Require Import Prelude.

(** ** Memory *)

Abbreviation memory := (gmap Z Z).

Definition load (m : memory) (p : Z) : res Z := deref (m !! p).

Definition store (m : memory) (p v : Z) : res memory :=
  match m !! p with
  | Some _ => Ok (<[p := v]> m)
  | None => Fault BadAccess
  end.

Definition mem_fuel (m : memory) : nat := S (size m).
#[global] Arguments mem_fuel : simpl never.

(** ** Blocks *)

Definition nonnull_or_empty (p size : Z) : bool := negb (p =? NULL) || (size =? 0).

(** [while (size-- > 0) *dst++ = *src++;] *)
Fixpoint copy_up (n : nat) (m : memory) (dst src : Z) : res memory :=
  match n with
  | O => Ok m
  | S n => c ← load m src; m ← store m dst c; copy_up n m (dst + 1) (src + 1)
  end.

(** [while (size-- > 0) *--dst = *--src;] *)
Fixpoint copy_down (n : nat) (m : memory) (dst src : Z) : res memory :=
  match n with
  | O => Ok m
  | S n => c ← load m (src - 1); m ← store m (dst - 1) c; copy_down n m (dst - 1) (src - 1)
  end.

Definition memcpy (m : memory) (dst src size : Z) : res (memory * Z) :=
  ASSERT nonnull_or_empty dst size ;;
  ASSERT nonnull_or_empty src size ;;
  m ← copy_up (Z.to_nat size) m dst src;
  Ok (m, dst).

(** The pointer it returns is the running one. *)
Definition memmove (m : memory) (dst src size : Z) : res (memory * Z) :=
  ASSERT nonnull_or_empty dst size ;;
  ASSERT nonnull_or_empty src size ;;
  if dst <? src then
    m ← copy_up (Z.to_nat size) m dst src; Ok (m, dst + size)
  else
    m ← copy_down (Z.to_nat size) m (dst + size) (src + size); Ok (m, dst).

Fixpoint memcmp_loop (n : nat) (m : memory) (a b : Z) : res Z :=
  match n with
  | O => Ok 0
  | S n => x ← load m a; y ← load m b;
           if negb (x =? y) then Ok (if y <? x then 1 else -1)
           else memcmp_loop n m (a + 1) (b + 1)
  end.

Definition memcmp (m : memory) (a b size : Z) : res Z :=
  ASSERT nonnull_or_empty a size ;;
  ASSERT nonnull_or_empty b size ;;
  memcmp_loop (Z.to_nat size) m a b.

Fixpoint memchr_loop (n : nat) (m : memory) (block ch : Z) : res Z :=
  match n with
  | O => Ok NULL
  | S n => c ← load m block; if c =? ch then Ok block else memchr_loop n m (block + 1) ch
  end.

Definition memchr (m : memory) (block ch size : Z) : res Z :=
  ASSERT nonnull_or_empty block size ;;
  memchr_loop (Z.to_nat size) m block (ch mod 256).

Fixpoint memset_loop (n : nat) (m : memory) (dst value : Z) : res memory :=
  match n with
  | O => Ok m
  | S n => m ← store m dst value; memset_loop n m (dst + 1) value
  end.

Definition memset (m : memory) (dst value size : Z) : res (memory * Z) :=
  ASSERT nonnull_or_empty dst size ;;
  m ← memset_loop (Z.to_nat size) m dst (value mod 256);
  Ok (m, dst).

(** ** Strings *)

Fixpoint strcmp_loop (fuel : nat) (m : memory) (a b : Z) : res Z :=
  match fuel with
  | O => Timeout
  | S fuel =>
      x ← load m a;
      if x =? 0 then y ← load m b; Ok (if x <? y then -1 else if y <? x then 1 else 0)
      else
        y ← load m b;
        if x =? y then strcmp_loop fuel m (a + 1) (b + 1)
        else Ok (if x <? y then -1 else if y <? x then 1 else 0)
  end.

Definition strcmp (m : memory) (a b : Z) : res Z :=
  ASSERT negb (a =? NULL) ;;
  ASSERT negb (b =? NULL) ;;
  strcmp_loop (mem_fuel m) m a b.

Fixpoint strchr_loop (fuel : nat) (m : memory) (string c : Z) : res Z :=
  match fuel with
  | O => Timeout
  | S fuel =>
      x ← load m string;
      if x =? c then Ok string
      else if x =? 0 then Ok NULL
      else strchr_loop fuel m (string + 1) c
  end.

Definition strchr (m : memory) (string c : Z) : res Z :=
  ASSERT negb (string =? NULL) ;;
  strchr_loop (mem_fuel m) m string (c mod 256).

Fixpoint strlen_loop (fuel : nat) (m : memory) (p : Z) : res Z :=
  match fuel with
  | O => Timeout
  | S fuel => x ← load m p; if x =? 0 then Ok p else strlen_loop fuel m (p + 1)
  end.

Definition strlen (m : memory) (string : Z) : res Z :=
  ASSERT negb (string =? NULL) ;;
  p ← strlen_loop (mem_fuel m) m string;
  Ok (p - string).

Fixpoint strnlen_loop (fuel : nat) (m : memory) (string maxlen length : Z) : res Z :=
  match fuel with
  | O => Timeout
  | S fuel =>
      x ← load m (string + length);
      if negb (x =? 0) && (length <? maxlen)
      then strnlen_loop fuel m string maxlen (length + 1)
      else Ok length
  end.

Definition strnlen (m : memory) (string maxlen : Z) : res Z :=
  strnlen_loop (mem_fuel m) m string maxlen 0.

(** [strspn] and [strcspn]: [stop] says whether finding or not finding the
    character ends the span. *)
Fixpoint span_loop (fuel : nat) (m : memory) (string set : Z) (stop : bool) (length : Z) : res Z :=
  match fuel with
  | O => Timeout
  | S fuel =>
      x ← load m (string + length);
      if x =? 0 then Ok length
      else
        p ← strchr m set x;
        if Bool.eqb (negb (p =? NULL)) stop then Ok length
        else span_loop fuel m string set stop (length + 1)
  end.

Definition strcspn (m : memory) (string stop : Z) : res Z :=
  span_loop (mem_fuel m) m string stop true 0.

Definition strspn (m : memory) (string skip : Z) : res Z :=
  span_loop (mem_fuel m) m string skip false 0.

Fixpoint strpbrk_loop (fuel : nat) (m : memory) (string stop : Z) : res Z :=
  match fuel with
  | O => Timeout
  | S fuel =>
      x ← load m string;
      if x =? 0 then Ok NULL
      else
        p ← strchr m stop x;
        if negb (p =? NULL) then Ok string else strpbrk_loop fuel m (string + 1) stop
  end.

Definition strpbrk (m : memory) (string stop : Z) : res Z := strpbrk_loop (mem_fuel m) m string stop.

Fixpoint strrchr_loop (fuel : nat) (m : memory) (string c p : Z) : res Z :=
  match fuel with
  | O => Timeout
  | S fuel =>
      x ← load m string;
      if x =? 0 then Ok p
      else strrchr_loop fuel m (string + 1) c (if x =? c then string else p)
  end.

Definition strrchr (m : memory) (string c : Z) : res Z :=
  strrchr_loop (mem_fuel m) m string (c mod 256) NULL.

Fixpoint strstr_loop (n : nat) (m : memory) (haystack needle needle_len i : Z) : res Z :=
  match n with
  | O => Ok NULL
  | S n =>
      c ← memcmp m (haystack + i) needle needle_len;
      if c =? 0 then Ok (haystack + i) else strstr_loop n m haystack needle needle_len (i + 1)
  end.

Definition strstr (m : memory) (haystack needle : Z) : res Z :=
  haystack_len ← strlen m haystack;
  needle_len ← strlen m needle;
  if needle_len <=? haystack_len
  then strstr_loop (Z.to_nat (haystack_len - needle_len + 1)) m haystack needle needle_len 0
  else Ok NULL.

(** The delimiters at the current position; [None] at the end of the string. *)
Fixpoint skip_delimiters (fuel : nat) (m : memory) (s delimiters : Z) : res (Z * bool) :=
  match fuel with
  | O => Timeout
  | S fuel =>
      x ← load m s;
      p ← strchr m delimiters x;
      if negb (p =? NULL) then
        if x =? 0 then Ok (s, true) else skip_delimiters fuel m (s + 1) delimiters
      else Ok (s, false)
  end.

Fixpoint skip_token (fuel : nat) (m : memory) (s delimiters : Z) : res Z :=
  match fuel with
  | O => Timeout
  | S fuel =>
      x ← load m s;
      p ← strchr m delimiters x;
      if p =? NULL then skip_token fuel m (s + 1) delimiters else Ok s
  end.

(** The token, the memory and the saved position. *)
Definition strtok_r (m : memory) (s delimiters save_ptr : Z) : res (Z * memory * Z) :=
  ASSERT negb (delimiters =? NULL) ;;
  let s := if s =? NULL then save_ptr else s in
  ASSERT negb (s =? NULL) ;;
  '(s, at_end) ← skip_delimiters (mem_fuel m) m s delimiters;
  if at_end : bool then Ok (NULL, m, s)
  else
    let token := s in
    s ← skip_token (mem_fuel m) m s delimiters;
    x ← load m s;
    if negb (x =? 0) then m ← store m s 0; Ok (token, m, s + 1)
    else Ok (token, m, s).

Definition strlcpy (m : memory) (dst src size : Z) : res (memory * Z) :=
  ASSERT negb (dst =? NULL) ;;
  ASSERT negb (src =? NULL) ;;
  src_len ← strlen m src;
  if 0 <? size then
    let dst_len := if src_len <? size - 1 then src_len else size - 1 in
    '(m, _) ← memcpy m dst src dst_len;
    m ← store m (dst + dst_len) 0;
    Ok (m, src_len)
  else Ok (m, src_len).

Definition strlcat (m : memory) (dst src size : Z) : res (memory * Z) :=
  ASSERT negb (dst =? NULL) ;;
  ASSERT negb (src =? NULL) ;;
  src_len ← strlen m src;
  dst_len ← strlen m dst;
  if (0 <? size) && (dst_len <? size) then
    let copy_cnt := u32 (size - dst_len - 1) in
    let copy_cnt := if src_len <? copy_cnt then src_len else copy_cnt in
    '(m, _) ← memcpy m (dst + dst_len) src copy_cnt;
    m ← store m (dst + dst_len + copy_cnt) 0;
    Ok (m, u32 (src_len + dst_len))
  else Ok (m, u32 (src_len + dst_len)).

(** ** What is in memory *)

Definition bytes_at (m : memory) (p : Z) (l : list Z) : Prop :=
  ∀ k x, l !! k = Some x → m !! (p + Z.of_nat k) = Some x.

(** The string [l], without its null byte, is at [p]. *)
Definition cstr (m : memory) (p : Z) (l : list Z) : Prop :=
  bytes_at m p (l ++ [0]) ∧ 0 ∉ l.

Definition allocated (m : memory) (p n : Z) : Prop :=
  ∀ q, p ≤ q < p + n → is_Some (m !! q).

Section strings.
Implicit Types (m : memory) (p q d : Z) (l : list Z).

Lemma bytes_at_cons m p x l : bytes_at m p (x :: l) ↔ m !! p = Some x ∧ bytes_at m (p + 1) l.
Proof.
  split.
  - intros H. split; [rewrite <-(Z.add_0_r p); by apply (H 0%nat)|]. intros k y Hk.
    replace (p + 1 + Z.of_nat k) with (p + Z.of_nat (S k)) by lia. by apply H.
  - intros [Hx Hl] [|k] y Hk; simplify_eq/=; [by rewrite Z.add_0_r|].
    replace (p + Z.of_nat (S k)) with (p + 1 + Z.of_nat k) by lia. by apply Hl.
Qed.

Lemma bytes_at_app m p l1 l2 :
  bytes_at m p (l1 ++ l2) ↔ bytes_at m p l1 ∧ bytes_at m (p + Z.of_nat (length l1)) l2.
Proof.
  revert p. induction l1 as [|x l1 IH]; intros p; simpl.
  - rewrite Z.add_0_r. split; [intros H; split; [by intros ? ?|done]|by intros [_ ?]].
  - rewrite !bytes_at_cons, IH.
    replace (p + 1 + Z.of_nat (length l1)) with (p + Z.of_nat (S (length l1))) by lia. tauto.
Qed.

Lemma cstr_nil m p : cstr m p [] ↔ m !! p = Some 0.
Proof.
  unfold cstr. simpl. rewrite bytes_at_cons. split; [naive_solver|].
  intros H. split_and!; [done|by intros ? ?|set_solver].
Qed.

Lemma cstr_cons m p x l : cstr m p (x :: l) ↔ m !! p = Some x ∧ x ≠ 0 ∧ cstr m (p + 1) l.
Proof. unfold cstr. simpl. rewrite bytes_at_cons, not_elem_of_cons. naive_solver. Qed.

Lemma cstr_app m p l1 l2 :
  cstr m p (l1 ++ l2) → cstr m (p + Z.of_nat (length l1)) l2 ∧ bytes_at m p l1 ∧ 0 ∉ l1.
Proof.
  unfold cstr. rewrite <-app_assoc, bytes_at_app, not_elem_of_app. naive_solver.
Qed.

(** Memory has room for what is in it. *)
Lemma bytes_at_size m p l : bytes_at m p l → (length l ≤ size m)%nat.
Proof.
  intros H. replace (size m) with (size (dom m)) by apply size_dom.
  assert (size (list_to_set (seqZ p (Z.of_nat (length l))) : gset Z) = length l) as <-.
  { rewrite size_list_to_set by apply NoDup_seqZ. rewrite length_seqZ. lia. }
  apply subseteq_size. intros q. rewrite elem_of_list_to_set, elem_of_seqZ, elem_of_dom. intros Hq.
  destruct (lookup_lt_is_Some_2 l (Z.to_nat (q - p))) as [x Hx]; [lia|].
  exists x. replace q with (p + Z.of_nat (Z.to_nat (q - p))) by lia. by apply H.
Qed.

Lemma cstr_fuel m p l : cstr m p l → (length l < mem_fuel m)%nat.
Proof. intros [H _]. apply bytes_at_size in H. rewrite length_app in H. simpl in H. unfold mem_fuel. lia. Qed.

(** *** Lengths, comparison, search *)

Lemma strlen_loop_ok fuel m p l :
  cstr m p l → (length l < fuel)%nat → strlen_loop fuel m p = Ok (p + Z.of_nat (length l)).
Proof.
  revert p l. induction fuel as [|fuel IH]; intros p l Hl Hf; [lia|]. simpl. unfold load.
  destruct l as [|x l].
  - rewrite (proj1 (cstr_nil _ _) Hl). simpl. by rewrite Z.add_0_r.
  - apply cstr_cons in Hl as (-> & Hx & Hl). simpl in *. rewrite (proj2 (Z.eqb_neq _ _)) by done.
    rewrite (IH _ l) by (done || lia). f_equal. lia.
Qed.

Lemma strlen_ok m p l : cstr m p l → p ≠ NULL → strlen m p = Ok (Z.of_nat (length l)).
Proof.
  intros Hl Hp. unfold strlen. rewrite (proj2 (Z.eqb_neq _ _)) by done. cbn [negb].
  rewrite (strlen_loop_ok _ _ _ l); [|done|by eapply cstr_fuel]. simpl. f_equal. lia.
Qed.

(** Lexicographic comparison. *)
Fixpoint lex_cmp (a b : list Z) : Z :=
  match a, b with
  | [], [] => 0
  | [], _ :: _ => -1
  | _ :: _, [] => 1
  | x :: a, y :: b => if x <? y then -1 else if y <? x then 1 else lex_cmp a b
  end.

Lemma lex_cmp_eq a b : lex_cmp a b = 0 ↔ a = b.
Proof.
  revert b. induction a as [|x a IH]; intros [|y b]; simpl; try done.
  repeat zcase; try (split; [done|intros [= -> ->]; lia]).
  rewrite IH. assert (x = y) by lia. naive_solver.
Qed.

Lemma strcmp_loop_ok fuel m p q a b :
  cstr m p a → cstr m q b → Forall (λ x, 0 < x) a → Forall (λ x, 0 < x) b → (length a < fuel)%nat →
  strcmp_loop fuel m p q = Ok (lex_cmp a b).
Proof.
  revert p q a b. induction fuel as [|fuel IH]; intros p q a b Ha Hb Fa Fb Hf; [lia|]. simpl. unfold load.
  assert (∀ y b', b = y :: b' → 0 < y) as Hy by (intros y b' ->; by apply Forall_cons in Fb as [? _]).
  destruct a as [|x a].
  - rewrite (proj1 (cstr_nil _ _) Ha). simpl. destruct b as [|y b].
    + by rewrite (proj1 (cstr_nil _ _) Hb).
    + apply cstr_cons in Hb as (-> & _ & _). simpl. by rewrite (proj2 (Z.ltb_lt 0 y)) by eauto.
  - apply cstr_cons in Ha as (-> & Hx & Ha). apply Forall_cons in Fa as [Fx Fa]. simpl.
    rewrite (proj2 (Z.eqb_neq x 0)) by done. destruct b as [|y b].
    + rewrite (proj1 (cstr_nil _ _) Hb). simpl. rewrite (proj2 (Z.eqb_neq x 0)) by done.
      rewrite (proj2 (Z.ltb_ge x 0)), (proj2 (Z.ltb_lt 0 x)) by lia. done.
    + apply cstr_cons in Hb as (-> & _ & Hb). apply Forall_cons in Fb as [Fy Fb]. simpl in *.
      destruct (Z.eqb_spec x y) as [->|Hne]; [|repeat zcase; done || lia].
      rewrite Z.ltb_irrefl. apply IH; (done || lia).
Qed.

(** [strcmp] compares strings lexicographically by their bytes. *)
Lemma strcmp_ok m p q a b :
  cstr m p a → cstr m q b → Forall (λ x, 0 < x) a → Forall (λ x, 0 < x) b → p ≠ NULL → q ≠ NULL →
  strcmp m p q = Ok (lex_cmp a b).
Proof.
  intros Ha Hb Fa Fb Hp Hq. unfold strcmp. rewrite !(proj2 (Z.eqb_neq _ _)) by done. cbn [negb].
  apply strcmp_loop_ok; try done. by eapply cstr_fuel.
Qed.

Lemma strchr_loop_ok fuel m p l c :
  cstr m p l → (length l < fuel)%nat → 0 < p →
  ∃ r, strchr_loop fuel m p c = Ok r ∧ (r = NULL ↔ c ∉ l ∧ c ≠ 0).
Proof.
  revert p l. induction fuel as [|fuel IH]; intros p l Hl Hf Hp; [lia|]. simpl. unfold load.
  assert (p ≠ NULL) as Hpn by lia.
  destruct l as [|x l].
  - rewrite (proj1 (cstr_nil _ _) Hl). mstep. destruct (Z.eqb_spec 0 c) as [<-|Hc].
    + eexists. split; [done|]. naive_solver.
    + eexists. split; [done|]. split; [|done]. split; [set_solver|done].
  - apply cstr_cons in Hl as (-> & Hx & Hl). mstep. simpl in Hf. destruct (Z.eqb_spec x c) as [->|Hc].
    + eexists. split; [done|]. split; [intros ?; lia|]. intros [H _]. set_solver.
    + rewrite (proj2 (Z.eqb_neq x 0)) by done. destruct (IH (p + 1) l) as (r & -> & Hr); [done|lia|lia|].
      eexists. split; [done|]. rewrite Hr, not_elem_of_cons. naive_solver.
Qed.

(** [strchr] finds the character exactly when the string, with its null byte,
    has it. *)
Lemma strchr_ok m p l c :
  cstr m p l → 0 < p → is_byte c → ∃ r, strchr m p c = Ok r ∧ (r = NULL ↔ c ∉ l ∧ c ≠ 0).
Proof.
  intros Hl Hp Hc. unfold strchr. rewrite (proj2 (Z.eqb_neq p NULL)) by lia. cbn [negb].
  rewrite Z.mod_small by done. eapply strchr_loop_ok; [done|by eapply cstr_fuel|done].
Qed.

End strings.

(** ** Copying *)

(** Memory [m'] is [m] with the [n] bytes at [dst] replaced by those at [src]. *)
Definition copied (m m' : memory) (dst src n : Z) : Prop :=
  ∀ q, m' !! q = if decide (dst ≤ q < dst + n) then m !! (src + (q - dst)) else m !! q.

Section copying.
Implicit Types (m : memory) (p q dst src : Z).

Lemma store_ok m p v : is_Some (m !! p) → store m p v = Ok (<[p := v]> m).
Proof. unfold store. by intros [x ->]. Qed.

Lemma allocated_insert m p n q v : allocated m p n → allocated (<[q := v]> m) p n.
Proof. intros H x Hx. rewrite lookup_insert_is_Some. destruct (decide (q = x)); auto. Qed.

Lemma copy_up_ok n m dst src :
  allocated m dst (Z.of_nat n) → allocated m src (Z.of_nat n) →
  dst ≤ src ∨ src + Z.of_nat n ≤ dst →
  ∃ m', copy_up n m dst src = Ok m' ∧ copied m m' dst src (Z.of_nat n).
Proof.
  revert m dst src. induction n as [|n IH]; intros m dst src Hd Hs Hov.
  { exists m. split; [done|]. intros q. rewrite decide_False by lia. done. }
  destruct (Hs src) as [c Hc]; [lia|]. cbn [copy_up]. unfold load. rewrite Hc. mstep.
  rewrite store_ok by (apply Hd; lia). mstep.
  destruct (IH (<[dst := c]> m) (dst + 1) (src + 1)) as (m' & -> & Hm');
    [intros q Hq; apply allocated_insert with (n := Z.of_nat (S n)) (p := dst); [done|lia]
    |intros q Hq; apply allocated_insert with (n := Z.of_nat (S n)) (p := src); [done|lia]|lia|].
  exists m'. split; [done|]. intros q. rewrite Hm'.
  destruct (decide (dst + 1 ≤ q < dst + 1 + Z.of_nat n)).
  - rewrite decide_True, lookup_insert_ne by lia. f_equal. lia.
  - destruct (decide (q = dst)) as [->|Hne].
    + rewrite lookup_insert_eq, decide_True by lia. rewrite <-Hc. f_equal. lia.
    + rewrite lookup_insert_ne, decide_False by lia. done.
Qed.

Lemma copy_down_ok n m dst src :
  allocated m (dst - Z.of_nat n) (Z.of_nat n) → allocated m (src - Z.of_nat n) (Z.of_nat n) →
  src ≤ dst →
  ∃ m', copy_down n m dst src = Ok m' ∧ copied m m' (dst - Z.of_nat n) (src - Z.of_nat n) (Z.of_nat n).
Proof.
  revert m dst src. induction n as [|n IH]; intros m dst src Hd Hs Hov.
  { exists m. split; [done|]. intros q. rewrite decide_False by lia. done. }
  destruct (Hs (src - 1)) as [c Hc]; [lia|]. cbn [copy_down]. unfold load. rewrite Hc. mstep.
  rewrite store_ok by (apply Hd; lia). mstep.
  destruct (IH (<[dst - 1 := c]> m) (dst - 1) (src - 1)) as (m' & -> & Hm');
    [intros q Hq; eapply allocated_insert; [exact Hd|lia]
    |intros q Hq; eapply allocated_insert; [exact Hs|lia]|lia|].
  exists m'. split; [done|]. intros q. rewrite Hm'.
  destruct (decide (dst - 1 - Z.of_nat n ≤ q < dst - 1 - Z.of_nat n + Z.of_nat n)).
  - rewrite decide_True, lookup_insert_ne by lia. f_equal. lia.
  - destruct (decide (q = dst - 1)) as [->|Hne].
    + rewrite lookup_insert_eq, decide_True by lia. rewrite <-Hc. f_equal. lia.
    + rewrite lookup_insert_ne, decide_False by lia. done.
Qed.

Lemma nonnull_true p n : p ≠ NULL → nonnull_or_empty p n = true.
Proof. intros. unfold nonnull_or_empty. by rewrite (proj2 (Z.eqb_neq _ _)). Qed.

Lemma memcpy_ok m dst src n :
  0 ≤ n → dst ≠ NULL → src ≠ NULL → allocated m dst n → allocated m src n →
  dst ≤ src ∨ src + n ≤ dst →
  ∃ m', memcpy m dst src n = Ok (m', dst) ∧ copied m m' dst src n.
Proof.
  intros Hn Hd Hs Ad As Hov. unfold memcpy. rewrite !nonnull_true by done.
  destruct (copy_up_ok (Z.to_nat n) m dst src) as (m' & -> & Hm'); rewrite ?Z2Nat.id; try done.
  rewrite Z2Nat.id in Hm' by done. by exists m'.
Qed.

Lemma copied_bytes m m' dst src l :
  copied m m' dst src (Z.of_nat (length l)) → bytes_at m src l → bytes_at m' dst l.
Proof.
  intros Hc Hl k x Hk. pose proof (lookup_lt_Some _ _ _ Hk). rewrite Hc, decide_True by lia.
  rewrite <-(Hl k x Hk). f_equal. lia.
Qed.

Lemma bytes_at_take m p l n : bytes_at m p l → bytes_at m p (take n l).
Proof. intros H k x Hk. apply lookup_take_Some in Hk as [Hk _]. by apply H. Qed.

Lemma bytes_at_allocated m p l : bytes_at m p l → allocated m p (Z.of_nat (length l)).
Proof.
  intros H q Hq. destruct (lookup_lt_is_Some_2 l (Z.to_nat (q - p))) as [x Hx]; [lia|].
  exists x. rewrite <-(H _ _ Hx). f_equal. lia.
Qed.

End copying.

(** [memmove] copies a block correctly even when source and destination
    overlap, in either direction, and changes nothing else.  The pointer it
    returns is the destination only when the copy runs downwards; when it runs
    upwards it is the end of the destination. *)
Theorem memmove_copies m dst src n :
  0 ≤ n → dst ≠ NULL → src ≠ NULL → allocated m dst n → allocated m src n →
  ∃ m', memmove m dst src n = Ok (m', if dst <? src then dst + n else dst) ∧ copied m m' dst src n.
Proof.
  intros Hn Hd Hs Ad As. unfold memmove. rewrite !nonnull_true by done.
  destruct (Z.ltb_spec dst src).
  - destruct (copy_up_ok (Z.to_nat n) m dst src) as (m' & -> & Hm'); rewrite ?Z2Nat.id; try (done || lia).
    rewrite Z2Nat.id in Hm' by done. by exists m'.
  - destruct (copy_down_ok (Z.to_nat n) m (dst + n) (src + n)) as (m' & -> & Hm'); rewrite ?Z2Nat.id, ?Z.add_simpl_r;
      try (done || lia).
    rewrite Z2Nat.id, !Z.add_simpl_r in Hm' by done. by exists m'.
Qed.

Definition demo_mem : memory := {[ 10 := 1; 11 := 2; 12 := 3; 13 := 4 ]}.

Lemma memmove_copies_witness :
  memmove demo_mem 10 11 3 = Ok ({[ 10 := 2; 11 := 3; 12 := 4; 13 := 4 ]}, 13) ∧
  ∃ m', memmove demo_mem 10 11 3 = Ok (m', if 10 <? 11 then 10 + 3 else 10) ∧ copied demo_mem m' 10 11 3.
Proof.
  split; [vm_compute; reflexivity|].
  apply (memmove_copies demo_mem 10 11 3); [lia|lia|lia| |].
  - intros q Hq. assert (q = 10 ∨ q = 11 ∨ q = 12) as [->|[->| ->]] by lia; vm_compute; eauto.
  - intros q Hq. assert (q = 11 ∨ q = 12 ∨ q = 13) as [->|[->| ->]] by lia; vm_compute; eauto.
Defined.

(** [strlcpy] copies as much of the string as fits with its null byte into
    [size] bytes, returns the length of the source, and writes nothing past the
    null byte. *)
Theorem strlcpy_bounded m dst src size l :
  cstr m src l → allocated m dst size → 0 < size → dst ≠ NULL → src ≠ NULL →
  dst + size ≤ src ∨ src + Z.of_nat (length l) < dst →
  ∃ m', strlcpy m dst src size = Ok (m', Z.of_nat (length l)) ∧
    cstr m' dst (take (Z.to_nat (size - 1)) l) ∧
    ∀ q, q < dst ∨ dst + Z.min size (Z.of_nat (length l) + 1) ≤ q → m' !! q = m !! q.
Proof.
  intros Hl Ad Hsz Hd Hs Hdis. unfold strlcpy. rewrite !(proj2 (Z.eqb_neq _ _)) by done. cbn [negb].
  rewrite (strlen_ok m src l) by done. mstep. rewrite (proj2 (Z.ltb_lt 0 size)) by done.
  set (n := if Z.of_nat (length l) <? size - 1 then Z.of_nat (length l) else size - 1).
  assert (n = Z.min (Z.of_nat (length l)) (size - 1)) as Hn by (unfold n; zcase; lia). clearbody n.
  destruct Hl as [Hb H0]. pose proof (bytes_at_allocated _ _ _ Hb) as As. rewrite length_app in As. simpl in As.
  destruct (memcpy_ok m dst src n) as (m1 & Hcp & Hc); [lia|done|done|intros q ?; apply Ad; lia
    |intros q ?; apply As; lia|lia|].
  rewrite Hcp. mstep. assert (is_Some (m1 !! (dst + n))) as Hin.
  { rewrite Hc, decide_False by lia. apply Ad. lia. }
  rewrite store_ok by done. mstep. eexists. split; [done|].
  assert (length (take (Z.to_nat (size - 1)) l) = Z.to_nat n) as Hlen by (rewrite length_take; lia). split.
  - split; [|by rewrite <-(take_drop (Z.to_nat (size - 1)) l), not_elem_of_app in H0; destruct H0].
    apply bytes_at_app. split.
    + intros k x Hk. pose proof (lookup_lt_Some _ _ _ Hk). rewrite lookup_insert_ne by lia.
      apply (copied_bytes m m1 dst src (take (Z.to_nat (size - 1)) l)); [|by apply bytes_at_take; apply bytes_at_app in Hb as [? _]|done].
      by rewrite Hlen, Z2Nat.id by lia.
    + rewrite Hlen, Z2Nat.id by lia. apply bytes_at_cons. rewrite lookup_insert_eq. split; [done|by intros ? ?].
  - intros q Hq. rewrite lookup_insert_ne by lia. rewrite Hc, decide_False by lia. done.
Qed.

Lemma strlcpy_bounded_witness :
  ∃ m', strlcpy {[ 10 := 7; 11 := 8; 12 := 9; 13 := 0; 20 := 5; 21 := 5; 22 := 5 ]} 20 10 3 = Ok (m', 3) ∧
    cstr m' 20 [7; 8] ∧
    ∀ q, q < 20 ∨ 20 + Z.min 3 (3 + 1) ≤ q →
      m' !! q = ({[ 10 := 7; 11 := 8; 12 := 9; 13 := 0; 20 := 5; 21 := 5; 22 := 5 ]} : memory) !! q.
Proof.
  apply (strlcpy_bounded {[ 10 := 7; 11 := 8; 12 := 9; 13 := 0; 20 := 5; 21 := 5; 22 := 5 ]} 20 10 3 [7; 8; 9]);
    try lia.
  - split; [|set_solver]. repeat (apply bytes_at_cons; split; [vm_compute; reflexivity|]). by intros ? ?.
  - intros q Hq. assert (q = 20 ∨ q = 21 ∨ q = 22) as [->|[->| ->]] by lia; vm_compute; eauto.
  - simpl. lia.
Defined.

(** ** Tokens *)

(** A string cut at every delimiter, and the pieces that are not empty. *)
Fixpoint split_on (ds l : list Z) : list (list Z) :=
  match l with
  | [] => [[]]
  | x :: l =>
      if decide (x ∈ ds) then [] :: split_on ds l
      else match split_on ds l with
           | h :: t => (x :: h) :: t
           | [] => [[x]]
           end
  end.

Definition words (ds l : list Z) : list (list Z) := filter (λ w, w ≠ []) (split_on ds l).

(** The loop that calls [strtok_r] until it returns a null pointer. *)
Fixpoint tokenize (fuel : nat) (m : memory) (s delimiters save_ptr : Z) : res (list Z * memory) :=
  match fuel with
  | O => Timeout
  | S fuel =>
      '(token, m, save_ptr) ← strtok_r m s delimiters save_ptr;
      if token =? NULL then Ok ([], m)
      else
        '(tokens, m) ← tokenize fuel m NULL delimiters save_ptr;
        Ok (token :: tokens, m)
  end.

Section tokens.
Implicit Types (m : memory) (p q d s : Z) (l ds t r : list Z).

Lemma words_nil ds : words ds [] = [].
Proof. done. Qed.

Lemma words_delim ds x l : x ∈ ds → words ds (x :: l) = words ds l.
Proof. intros Hx. unfold words. simpl. rewrite decide_True by done. by rewrite filter_cons_False by auto. Qed.

Lemma words_delims ds a l : Forall (λ x, x ∈ ds) a → words ds (a ++ l) = words ds l.
Proof. induction 1; [done|]. simpl. by rewrite words_delim. Qed.

Lemma split_on_token ds t r :
  Forall (λ x, x ∉ ds) t → (∀ x r', r = x :: r' → x ∈ ds) →
  split_on ds (t ++ r) = t :: match r with [] => [] | _ :: r' => split_on ds r' end.
Proof.
  intros Ht Hr. induction Ht as [|x t Hx Ht IH]; simpl.
  - destruct r as [|x r]; [done|]. simpl. by rewrite decide_True by eauto.
  - rewrite decide_False by done. by rewrite IH.
Qed.

Lemma words_token ds t r :
  t ≠ [] → Forall (λ x, x ∉ ds) t → (∀ x r', r = x :: r' → x ∈ ds) →
  words ds (t ++ r) = t :: words ds (tail r).
Proof.
  intros Hne Ht Hr. unfold words. rewrite split_on_token by done. rewrite filter_cons_True by done.
  by destruct r.
Qed.

Lemma skip_delimiters_ok fuel m s d ds l :
  cstr m s l → cstr m d ds → Forall is_byte l → 0 < s → 0 < d → (length l < fuel)%nat →
  ∃ a b, l = a ++ b ∧ Forall (λ x, x ∈ ds) a ∧ (∀ x r, b = x :: r → x ∉ ds) ∧
    skip_delimiters fuel m s d = Ok (s + Z.of_nat (length a), bool_decide (b = [])).
Proof.
  revert s l. induction fuel as [|fuel IH]; intros s l Hl Hd Hby Hs Hd0 Hf; [lia|].
  cbn [skip_delimiters]. unfold load. destruct l as [|x l].
  - rewrite (proj1 (cstr_nil _ _) Hl). mstep. destruct (strchr_ok m d ds 0 Hd Hd0) as (r & -> & Hr); [done|].
    mstep. destruct (Z.eqb_spec r NULL) as [->|Hn]; [naive_solver|]. mstep. rewrite Z.eqb_refl.
    exists [], []. split_and!; try done. simpl. by rewrite Z.add_0_r.
  - apply cstr_cons in Hl as (-> & Hx & Hl). apply Forall_cons in Hby as [Hbx Hby]. mstep. simpl in Hf.
    destruct (strchr_ok m d ds x Hd Hd0 Hbx) as (r & -> & Hr). mstep.
    destruct (Z.eqb_spec r NULL) as [->|Hn]; mstep.
    + exists [], (x :: l). split_and!; try done.
      * intros ? ? [= <- <-]. naive_solver.
      * simpl. by rewrite Z.add_0_r.
    + rewrite (proj2 (Z.eqb_neq x 0)) by done.
      destruct (IH (s + 1) l) as (a & b & -> & Ha & Hb & ->); try (done || lia).
      exists (x :: a), b. split_and!; try done.
      * constructor; [|done]. destruct (decide (x ∈ ds)); [done|]. naive_solver.
      * simpl. do 2 f_equal. lia.
Qed.

Lemma skip_token_ok fuel m s d ds l :
  cstr m s l → cstr m d ds → Forall is_byte l → 0 < s → 0 < d → (length l < fuel)%nat →
  ∃ t r, l = t ++ r ∧ Forall (λ x, x ∉ ds) t ∧ (∀ x r', r = x :: r' → x ∈ ds) ∧
    skip_token fuel m s d = Ok (s + Z.of_nat (length t)).
Proof.
  revert s l. induction fuel as [|fuel IH]; intros s l Hl Hd Hby Hs Hd0 Hf; [lia|].
  cbn [skip_token]. unfold load. destruct l as [|x l].
  - rewrite (proj1 (cstr_nil _ _) Hl). mstep. destruct (strchr_ok m d ds 0 Hd Hd0) as (r & -> & Hr); [done|].
    mstep. destruct (Z.eqb_spec r NULL) as [->|Hn]; [naive_solver|].
    exists [], []. split_and!; try done. simpl. by rewrite Z.add_0_r.
  - apply cstr_cons in Hl as (-> & Hx & Hl). apply Forall_cons in Hby as [Hbx Hby]. mstep. simpl in Hf.
    destruct (strchr_ok m d ds x Hd Hd0 Hbx) as (r & -> & Hr). mstep.
    destruct (Z.eqb_spec r NULL) as [->|Hn].
    + destruct (IH (s + 1) l) as (t & r & -> & Ht & Hr' & ->); try (done || lia).
      exists (x :: t), r. split_and!; try done.
      * constructor; [|done]. naive_solver.
      * simpl. f_equal. lia.
    + exists [], (x :: l). split_and!; try done.
      * intros ? ? [= <- <-]. destruct (decide (x ∈ ds)); [done|]. naive_solver.
      * simpl. by rewrite Z.add_0_r.
Qed.

(** A string is still there if none of its bytes has changed. *)
Lemma cstr_frame m m' p l :
  cstr m p l → (∀ q, p ≤ q ≤ p + Z.of_nat (length l) → m' !! q = m !! q) → cstr m' p l.
Proof.
  intros [Hb H0] Hq. split; [|done]. intros k x Hk. rewrite Hq; [by apply Hb|].
  apply lookup_lt_Some in Hk. rewrite length_app in Hk. simpl in Hk. lia.
Qed.

(** One call: the end of the string is reached, or the next word has become a
    string of its own and the rest is left for the next call. *)
Lemma strtok_r_ok m s0 save s d ds l :
  s = (if s0 =? NULL then save else s0) →
  cstr m s l → cstr m d ds → Forall is_byte l → 0 < s → 0 < d →
  d + Z.of_nat (length ds) < s ∨ s + Z.of_nat (length l) < d →
  (words ds l = [] ∧ ∃ save', strtok_r m s0 d save = Ok (NULL, m, save')) ∨
  ∃ t r p m' save', words ds l = t :: words ds r ∧
    strtok_r m s0 d save = Ok (p, m', save') ∧ 0 < p ∧ cstr m' p t ∧ cstr m' save' r ∧
    s ≤ p ∧ save' + Z.of_nat (length r) = s + Z.of_nat (length l) ∧ p < save' ∧ Forall is_byte r ∧
    (p + Z.of_nat (length t) < save' ∨ (p + Z.of_nat (length t) = save' ∧ r = [])) ∧
    ∀ q, ¬ (s ≤ q < s + Z.of_nat (length l)) → m' !! q = m !! q.
Proof.
  intros Es Hl Hd Hby Hs Hd0 Hdis. unfold strtok_r. rewrite <-Es. rewrite (proj2 (Z.eqb_neq d NULL)), (proj2 (Z.eqb_neq s NULL)) by lia. cbn [negb].
  destruct (skip_delimiters_ok (mem_fuel m) m s d ds l) as (a & b & -> & Ha & Hb & ->); try done.
  { by eapply cstr_fuel. }
  mstep. rewrite words_delims by done. destruct b as [|x b].
  { left. split; [done|]. rewrite bool_decide_eq_true_2 by done. eauto. }
  right. rewrite bool_decide_eq_false_2 by done. apply cstr_app in Hl as (Hxb & Hba & H0a).
  apply Forall_app in Hby as [_ Hby]. rewrite length_app in Hdis |- *.
  remember (s + Z.of_nat (length a)) as p eqn:Ep.
  destruct (skip_token_ok (mem_fuel m) m p d ds (x :: b)) as (t & r & Er & Ht & Hr & ->); try (done || lia).
  { by eapply cstr_fuel. }
  mstep. assert (t ≠ []) as Hne.
  { intros ->. simpl in Er. subst r. by eapply Hb; [|by eapply Hr]. }
  assert (0 < length t)%nat by (destruct t; [done|simpl; lia]).
  rewrite Er in *. rewrite length_app in *. rewrite words_token by done. apply Forall_app in Hby as [Hbt Hbr].
  apply cstr_app in Hxb as (Hrs & Hbt' & H0t).
  unfold load. destruct r as [|y r].
  - rewrite (proj1 (cstr_nil _ _) Hrs). mstep. rewrite Z.eqb_refl. mstep.
    exists t, [], p, m, (p + Z.of_nat (length t)). simpl. split_and!; try (done || lia); [|by right].
    split; [|done]. apply bytes_at_app. split; [done|]. apply bytes_at_cons.
    split; [exact (proj1 (cstr_nil _ _) Hrs)|by intros ? ?].
  - apply cstr_cons in Hrs as (Hy & Hy0 & Hrs). rewrite Hy. mstep.
    rewrite (proj2 (Z.eqb_neq y 0)) by done. mstep. rewrite store_ok by eauto. mstep. simpl in *.
    exists t, r, p, (<[p + Z.of_nat (length t) := 0]> m), (p + Z.of_nat (length t) + 1).
    split_and!; try (done || lia).
    + split; [|done]. apply bytes_at_app. split.
      * intros k z Hk. pose proof (lookup_lt_Some _ _ _ Hk). rewrite lookup_insert_ne by lia. by apply Hbt'.
      * apply bytes_at_cons. rewrite lookup_insert_eq. split; [done|by intros ? ?].
    + apply (cstr_frame m); [done|]. intros q Hq. by rewrite lookup_insert_ne by lia.
    + by apply Forall_cons in Hbr as [_ ?].
    + intros q Hq. by rewrite lookup_insert_ne by lia.
Qed.

Lemma tokenize_ok fuel m s0 save s d ds l :
  s = (if s0 =? NULL then save else s0) →
  cstr m s l → cstr m d ds → Forall is_byte l → 0 < s → 0 < d →
  d + Z.of_nat (length ds) < s ∨ s + Z.of_nat (length l) < d → (length l < fuel)%nat →
  ∃ ps m', tokenize fuel m s0 d save = Ok (ps, m') ∧ Forall2 (cstr m') ps (words ds l) ∧
    ∀ q, ¬ (s ≤ q < s + Z.of_nat (length l)) → m' !! q = m !! q.
Proof.
  revert m s0 save s l. induction fuel as [|fuel IH]; intros m s0 save s l Hs Hl Hd Hby Hs0 Hd0 Hdis Hf; [lia|].
  cbn [tokenize]. destruct (strtok_r_ok m s0 save s d ds l) as
    [[Hw (save' & ->)]|(t & r & p & m1 & save' & Hw & -> & Hp & Ht & Hr & Hsp & Hlen & Hps & Hbr & Hend & Hfr)]; try done.
  { mstep. rewrite Z.eqb_refl. exists [], m. by rewrite Hw. }
  mstep. rewrite (proj2 (Z.eqb_neq p NULL)) by lia.
  destruct (IH m1 NULL save' save' r) as (ps & m' & -> & Hps' & Hfr'); try (done || lia).
  { apply (cstr_frame m); [done|]. intros q Hq. apply Hfr. lia. }
  mstep. exists (p :: ps), m'. split; [done|]. split.
  - rewrite Hw. constructor; [|done]. apply (cstr_frame m1); [done|]. intros q Hq. apply Hfr'.
    destruct Hend as [?|[? ->]]; simpl; lia.
  - intros q Hq. rewrite Hfr' by lia. by apply Hfr.
Qed.

End tokens.

(** Calling [strtok_r] until it returns a null pointer cuts the string into
    exactly its words - the maximal non-empty pieces without delimiters, in
    order - each of them a string of its own in the memory that is left. *)
Theorem strtok_r_tokenizes m s d ds l :
  cstr m s l → cstr m d ds → Forall is_byte l → 0 < s → 0 < d →
  d + Z.of_nat (length ds) < s ∨ s + Z.of_nat (length l) < d →
  ∃ ps m', tokenize (S (length l)) m s d NULL = Ok (ps, m') ∧ Forall2 (cstr m') ps (words ds l) ∧
    ∀ q, ¬ (s ≤ q < s + Z.of_nat (length l)) → m' !! q = m !! q.
Proof.
  intros. apply tokenize_ok; try done; [|lia]. by rewrite (proj2 (Z.eqb_neq s NULL)) by lia.
Qed.

(** Two words between blanks. *)
Definition demo_line : memory :=
  {[ 10 := 32; 11 := 97; 12 := 98; 13 := 32; 14 := 32; 15 := 99; 16 := 0; 20 := 32; 21 := 0 ]}.

Lemma strtok_r_tokenizes_witness :
  words [32] [32; 97; 98; 32; 32; 99] = [[97; 98]; [99]] ∧
  ∃ ps m', tokenize 7 demo_line 10 20 NULL = Ok (ps, m') ∧
    Forall2 (cstr m') ps (words [32] [32; 97; 98; 32; 32; 99]) ∧
    ∀ q, ¬ (10 ≤ q < 10 + 6) → m' !! q = demo_line !! q.
Proof.
  split; [reflexivity|].
  apply (strtok_r_tokenizes demo_line 10 20 [32] [32; 97; 98; 32; 32; 99]); try lia.
  - split; [|set_solver]. repeat (apply bytes_at_cons; split; [vm_compute; reflexivity|]). by intros ? ?.
  - split; [|set_solver]. repeat (apply bytes_at_cons; split; [vm_compute; reflexivity|]). by intros ? ?.
  - repeat constructor; lia.
  - right. simpl. lia.
Defined.

(** [strnlen] looks at the byte after the last one it may count. *)
Lemma strnlen_overread m p l :
  bytes_at m p l → 0 ∉ l → m !! (p + Z.of_nat (length l)) = None →
  strnlen m p (Z.of_nat (length l)) = Fault BadAccess.
Proof.
  intros Hb H0 Hend. unfold strnlen. apply bytes_at_size in Hb as Hsz.
  assert (∀ n k, k + Z.of_nat n = Z.of_nat (length l) → 0 ≤ k → ∀ fuel, (n < fuel)%nat →
    strnlen_loop fuel m p (Z.of_nat (length l)) k = Fault BadAccess) as Hloop.
  { induction n as [|n IH]; intros k Hk Hk0 [|fuel] Hf; try lia; cbn [strnlen_loop]; unfold load.
    - replace (p + k) with (p + Z.of_nat (length l)) by lia. by rewrite Hend.
    - destruct (lookup_lt_is_Some_2 l (Z.to_nat k)) as [x Hx]; [lia|].
      pose proof (Hb _ _ Hx) as Hm. rewrite Z2Nat.id in Hm by lia. rewrite Hm. mstep.
      assert (x ≠ 0) by (intros ->; apply H0; by eapply list_elem_of_lookup_2).
      rewrite (proj2 (Z.eqb_neq x 0)), (proj2 (Z.ltb_lt k _)) by lia. mstep. apply IH; lia. }
  apply (Hloop (length l)); [lia..|unfold mem_fuel; lia].
Qed.
