(* ===== verification/Directory.v ===== *)
(** Directories (src/filesys/directory.c): arrays of 20-byte entries in a file.

    A name is the list of its bytes, without the null byte at its end; an entry
    has room for [NAME_MAX] of them.  [junk] stands for what an uninitialised
    [struct dir_entry] on the stack holds. *)

From S2P Require Import Prelude Bitmap BitmapScan Disk Inode FreeMap CString.

(** ** Data *)

Definition NAME_MAX : Z := 14.

Record dir := Dir { dinode : Z; dpos : Z }.

(** [ename] is the whole array [name], of [NAME_MAX + 1] bytes. *)
Record dir_entry := DirEntry { inode_sector : Z; ename : list Z; in_use : bool }.

Abbreviation ENTRY_SIZE := 20 (only parsing).

Definition encode_entry (e : dir_entry) : list Z :=
  le32 (inode_sector e) ++ ename e ++ [if in_use e then 1 else 0].

Definition decode_entry (l : list Z) : dir_entry :=
  DirEntry (of_le32 (take 4 l)) (take 15 (drop 4 l)) (negb (default 0 (l !! 19%nat) =? 0)).

(** [!strcmp (a, b)], where [b] is the array the second string lies in. *)
Fixpoint str_equal (a b : list Z) : res bool :=
  match b with
  | [] => Fault BadAccess
  | y :: b =>
      match a with
      | [] => Ok (y =? 0)
      | x :: a => if x =? y then str_equal a b else Ok false
      end
  end.

(** The string in an array. *)
Fixpoint c_string (l : list Z) : res (list Z) :=
  match l with
  | [] => Fault BadAccess
  | x :: l => if x =? 0 then Ok [] else s ← c_string l; Ok (x :: s)
  end.

(** ** Operations *)

Definition dir_create (sector entry_cnt : Z) : FSM bool :=
  inode_create sector (s32 (u32 (entry_cnt * ENTRY_SIZE))).

Definition dir_open (a : Z) : FSM (option dir) :=
  ok <-- malloc ;;
  if negb (a =? NULL) && ok then retS (Some (Dir a 0))
  else inode_close a ;;; retS None.

Definition dir_open_root : FSM (option dir) := a <-- inode_open ROOT_DIR_SECTOR ;; dir_open a.

Definition dir_reopen (d : dir) : FSM (option dir) := a <-- inode_reopen (dinode d) ;; dir_open a.

Definition dir_close (o : option dir) : FSM unit :=
  match o with Some d => inode_close (dinode d) | None => retS tt end.

Definition dir_get_inode (d : dir) : Z := dinode d.

(** The loop of [lookup]: the entry and its offset. *)
Fixpoint lookup_loop (fuel : nat) (a : Z) (name : list Z) (e : list Z) (ofs : Z)
    : FSM (option (dir_entry * Z)) :=
  match fuel with
  | O => λ _, Timeout
  | S fuel =>
      '(n, e) <-- inode_read_at a e ENTRY_SIZE (s32 ofs) ;;
      if n =? ENTRY_SIZE then
        let de := decode_entry e in
        found <-- (if in_use de then liftS (str_equal name (ename de)) else retS false) ;;
        if found : bool then retS (Some (de, ofs))
        else lookup_loop fuel a name e (u32 (ofs + ENTRY_SIZE))
      else retS None
  end.

(** The loops over a directory read one entry past the end of its file. *)
Definition dir_fuel (a : Z) : FSM nat :=
  i <-- get_inode a ;; retS (S (S (Z.to_nat (inode_length i / ENTRY_SIZE)))).

Definition lookup (junk : list Z) (d : dir) (name : list Z) : FSM (option (dir_entry * Z)) :=
  fuel <-- dir_fuel (dinode d) ;; lookup_loop fuel (dinode d) name junk 0.

(** The inode of the file, or a null pointer. *)
Definition dir_lookup (junk : list Z) (d : dir) (name : list Z) : FSM Z :=
  o <-- lookup junk d name ;;
  match o with
  | Some (e, _) => inode_open (inode_sector e)
  | None => retS NULL
  end.

(** The loop that looks for a free slot: the buffer and the offset it ends at. *)
Fixpoint free_slot_loop (fuel : nat) (a : Z) (e : list Z) (ofs : Z) : FSM (list Z * Z) :=
  match fuel with
  | O => λ _, Timeout
  | S fuel =>
      '(n, e) <-- inode_read_at a e ENTRY_SIZE ofs ;;
      if n =? ENTRY_SIZE then
        if negb (in_use (decode_entry e)) then retS (e, ofs)
        else free_slot_loop fuel a e (s32 (ofs + ENTRY_SIZE))
      else retS (e, ofs)
  end.

(** The buffer with the fields set: [strlcpy] leaves the bytes after the null
    byte as they are. *)
Definition fill_entry (e name : list Z) (inode_sector : Z) : list Z :=
  le32 inode_sector ++ overwrite (take 15 (drop 4 e)) 0 (name ++ [0]) ++ [1].

Definition dir_add (junk : list Z) (d : dir) (name : list Z) (inode_sector : Z) : FSM bool :=
  if bool_decide (name = []) || (NAME_MAX <? Z.of_nat (length name)) then retS false
  else
    o <-- lookup junk d name ;;
    match o with
    | Some _ => retS false
    | None =>
        fuel <-- dir_fuel (dinode d) ;;
        '(e, ofs) <-- free_slot_loop fuel (dinode d) junk 0 ;;
        n <-- inode_write_at (dinode d) (fill_entry e name inode_sector) ENTRY_SIZE ofs ;;
        retS (n =? ENTRY_SIZE)
    end.

Definition dir_remove (junk : list Z) (d : dir) (name : list Z) : FSM bool :=
  o <-- lookup junk d name ;;
  match o with
  | None => inode_close NULL ;;; retS false
  | Some (e, ofs) =>
      a <-- inode_open (inode_sector e) ;;
      if a =? NULL then inode_close NULL ;;; retS false
      else
        n <-- inode_write_at (dinode d) (encode_entry (DirEntry (inode_sector e) (ename e) false))
                ENTRY_SIZE (s32 ofs) ;;
        if negb (n =? ENTRY_SIZE) then inode_close a ;;; retS false
        else
          inode_remove a ;;;
          inode_close a ;;;
          retS true
  end.

(** The next name in use, and the directory with its position moved on. *)
Fixpoint readdir_loop (fuel : nat) (d : dir) (e : list Z) : FSM (option (list Z) * dir) :=
  match fuel with
  | O => λ _, Timeout
  | S fuel =>
      '(n, e) <-- inode_read_at (dinode d) e ENTRY_SIZE (dpos d) ;;
      if n =? ENTRY_SIZE then
        let d := Dir (dinode d) (s32 (dpos d + ENTRY_SIZE)) in
        if in_use (decode_entry e) then
          name <-- liftS (c_string (ename (decode_entry e))) ;; retS (Some name, d)
        else readdir_loop fuel d e
      else retS (None, d)
  end.

Definition dir_readdir (junk : list Z) (d : dir) : FSM (option (list Z) * dir) :=
  fuel <-- dir_fuel (dinode d) ;; readdir_loop fuel d junk.

(** ** A directory as a map from names to sectors *)

(** Entry [k] of the directory in file [d], and all of them. *)
Definition entry_at (b : block) (d : inode_disk) (k : Z) : dir_entry :=
  decode_entry (file_bytes b (start d) (ENTRY_SIZE * k) ENTRY_SIZE).

Definition entries (b : block) (d : inode_disk) : list dir_entry :=
  entry_at b d <$> seqZ 0 (ilength d / ENTRY_SIZE).

(** The name of an entry in use. *)
Definition entry_name (e : dir_entry) : option (list Z) :=
  if in_use e then match c_string (ename e) with Ok s => Some s | _ => None end else None.

Definition entry_pair (e : dir_entry) : option (list Z * Z) :=
  (λ n, (n, inode_sector e)) <$> entry_name e.

Definition dir_map (es : list dir_entry) : gmap (list Z) Z := list_to_map (omap entry_pair es).

(** Every name in use ends with a null byte, and no name is used twice. *)
Record dir_wf (es : list dir_entry) : Prop := {
  dw_term : ∀ e, e ∈ es → in_use e = true → ∃ n, c_string (ename e) = Ok n;
  dw_nodup : NoDup (omap entry_name es);
}.

Section entry_bytes.
Implicit Types (e : dir_entry) (l : list Z).

Lemma c_string_app n r : 0 ∉ n → c_string (n ++ 0 :: r) = Ok n.
Proof.
  induction n as [|x n IH]; intros H0; [done|]. apply not_elem_of_cons in H0 as [Hx H0]. simpl.
  rewrite (proj2 (Z.eqb_neq x 0)) by done. by rewrite IH.
Qed.

Lemma c_string_Ok l n : c_string l = Ok n → ∃ r, l = n ++ 0 :: r ∧ 0 ∉ n.
Proof.
  revert n. induction l as [|x l IH]; intros n H; [done|]. simpl in H.
  destruct (Z.eqb_spec x 0) as [->|Hx]; [simplify_eq; exists l; split; [done|set_solver]|].
  res_inv. destruct (IH _ H0) as (r & -> & Hn). exists r. split; [done|]. set_solver.
Qed.

Lemma str_equal_ok name l n :
  c_string l = Ok n → 0 ∉ name → str_equal name l = Ok (bool_decide (name = n)).
Proof.
  intros (r & -> & Hn)%c_string_Ok H0. revert n Hn. induction name as [|x name IH]; intros n Hn.
  - destruct n as [|y n]; simpl; [done|]. rewrite (proj2 (Z.eqb_neq y 0)) by set_solver. done.
  - apply not_elem_of_cons in H0 as [Hx H0]. destruct n as [|y n]; simpl.
    + rewrite (proj2 (Z.eqb_neq x 0)) by done. done.
    + destruct (Z.eqb_spec x y) as [->|Hne].
      * rewrite IH by set_solver. f_equal. apply bool_decide_ext. naive_solver.
      * rewrite bool_decide_eq_false_2 by naive_solver. done.
Qed.

(** [str_equal] is the test on the result of [strcmp]. *)
Lemma str_equal_strcmp m p q a b n :
  cstr m p a → bytes_at m q b → c_string b = Ok n → Forall (λ x, 0 < x) a → Forall (λ x, 0 < x) n →
  p ≠ NULL → q ≠ NULL →
  ∃ c r, strcmp m p q = Ok c ∧ str_equal a b = Ok r ∧ (c = 0 ↔ r = true).
Proof.
  intros Ha Hb Hn Fa Fn Hp Hq. exists (lex_cmp a n), (bool_decide (a = n)).
  split; [|split; [apply str_equal_ok; [done|apply Ha]|by rewrite lex_cmp_eq, bool_decide_eq_true]].
  apply strcmp_ok; try done. apply c_string_Ok in Hn as (r & -> & H0). split; [|done].
  rewrite (app_assoc n [0] r : n ++ 0 :: r = _) in Hb. by apply bytes_at_app in Hb as [? _].
Qed.

Lemma decode_encode_entry e :
  is_u32 (inode_sector e) → length (ename e) = 15%nat → decode_entry (encode_entry e) = e.
Proof.
  intros Hs Hn. destruct e as [sec n u]. cbn in Hs, Hn. unfold decode_entry, encode_entry.
  cbn [inode_sector ename in_use]. rewrite (take_app_length' (le32 sec)), (drop_app_length' (le32 sec)) by done.
  rewrite take_app_length' by done. f_equal; [by apply of_le32_le32|].
  rewrite lookup_app_r, lookup_app_r by (rewrite ?Hn; simpl; lia). rewrite Hn. by destruct u.
Qed.

Lemma in_use_encode_entry e : length (ename e) = 15%nat → in_use (decode_entry (encode_entry e)) = in_use e.
Proof.
  intros Hn. unfold decode_entry, encode_entry. cbn [in_use].
  rewrite lookup_app_r, lookup_app_r by (rewrite ?Hn; simpl; lia). rewrite Hn. by destruct (in_use e).
Qed.

Lemma fill_entry_length l name sec :
  length l = 20%nat → (length name ≤ 14)%nat → length (fill_entry l name sec) = 20%nat.
Proof.
  intros Hl Hn. unfold fill_entry. rewrite !length_app, overwrite_length; rewrite length_take, length_drop, ?Hl.
  - done.
  - rewrite length_app. simpl. lia.
Qed.

Lemma decode_fill_entry l name sec :
  length l = 20%nat → (length name ≤ 14)%nat → is_u32 sec →
  ∃ r, decode_entry (fill_entry l name sec) = DirEntry sec (name ++ 0 :: r) true ∧
    length (name ++ 0 :: r) = 15%nat.
Proof.
  intros Hl Hn Hs. exists (drop (0 + length (name ++ [0])) (take 15 (drop 4 l))).
  set (a := overwrite (take 15 (drop 4 l)) 0 (name ++ [0])).
  assert (a = name ++ 0 :: drop (0 + length (name ++ [0])) (take 15 (drop 4 l))) as Ea.
  { unfold a, overwrite. rewrite take_0. simpl. by rewrite <-app_assoc. }
  assert (length a = 15%nat) as Hla.
  { unfold a. rewrite overwrite_length; rewrite length_take, length_drop; [lia|].
    rewrite length_app, Hl. simpl. lia. }
  rewrite <-Ea. split; [|done]. apply (decode_encode_entry (DirEntry sec a true)); done.
Qed.

End entry_bytes.

(** A directory whose file is a whole number of entries. *)
Record dir_file (s : fs) (a : Z) (i : inode) : Prop := {
  df_inode : inodes s !! a = Some i;
  df_dev : dev_ok (dev s);
  df_io : inode_ok (dev s) (data i);
  df_mem : mallocs s = [];
  df_len : ilength (data i) mod ENTRY_SIZE = 0;
}.

Section loops.
Context (s : fs) (a : Z) (i : inode) (Hdf : dir_file s a i).
Notation es := (entries (dev s) (data i)).
Notation n_entries := (ilength (data i) / ENTRY_SIZE).

Lemma n_entries_len : ilength (data i) = ENTRY_SIZE * n_entries ∧ 0 ≤ n_entries ∧ ENTRY_SIZE * n_entries ≤ INT_MAX.
Proof using Hdf.
  destruct Hdf as [_ _ [_ Hl _] _ Hm].
  pose proof (Z.div_mod (ilength (data i)) 20 ltac:(lia)). assert (0 ≤ ilength (data i) / 20) by (apply Z.div_pos; lia).
  lia.
Qed.

Lemma entries_lookup k :
  0 ≤ k → es !! Z.to_nat k = if decide (k < n_entries) then Some (entry_at (dev s) (data i) k) else None.
Proof.
  intros Hk. unfold entries. rewrite list_lookup_fmap. case_decide.
  - rewrite lookup_seqZ_lt by lia. simpl. do 2 f_equal. lia.
  - by rewrite lookup_seqZ_ge by lia.
Qed.

Lemma read_entry e k :
  length e = 20%nat → 0 ≤ k → ENTRY_SIZE * k ≤ INT_MAX →
  ∃ n e', inode_read_at a e ENTRY_SIZE (ENTRY_SIZE * k) s = Ok ((n, e'), s) ∧ length e' = 20%nat ∧
    if decide (k < n_entries)
    then n = ENTRY_SIZE ∧ e' = file_bytes (dev s) (start (data i)) (ENTRY_SIZE * k) ENTRY_SIZE
    else n = 0 ∧ e' = e.
Proof using Hdf.
  intros He Hk Hmax. destruct n_entries_len as (Hlen & Hn & Hle). destruct Hdf as [Ha Hd Hi Hm _].
  rewrite (inode_read_at_ok s a i); try (done || lia).
  do 2 eexists. split; [done|]. split; [rewrite overwrite_length; [done|rewrite file_bytes_length; lia]|].
  case_decide.
  - replace (Z.max 0 _) with 20 by lia. split; [done|]. unfold overwrite. rewrite take_0, app_nil_l.
    rewrite drop_ge by (rewrite file_bytes_length; lia). by rewrite app_nil_r.
  - replace (Z.max 0 _) with 0 by lia. done.
Qed.

(** The first entry from [k] on that is in use under [name]. *)
Fixpoint find_name (name : list Z) (l : list dir_entry) (k : Z) : option (dir_entry * Z) :=
  match l with
  | [] => None
  | e :: l => if decide (entry_name e = Some name) then Some (e, ENTRY_SIZE * k) else find_name name l (k + 1)
  end.

Lemma drop_entries k :
  0 ≤ k < n_entries → drop (Z.to_nat k) es = entry_at (dev s) (data i) k :: drop (Z.to_nat (k + 1)) es.
Proof.
  intros Hk. replace (Z.to_nat (k + 1)) with (S (Z.to_nat k)) by lia. apply drop_S.
  rewrite entries_lookup by lia. by rewrite decide_True by lia.
Qed.

Lemma drop_entries_end k : n_entries ≤ k → drop (Z.to_nat k) es = [].
Proof. intros Hk. apply drop_ge. unfold entries. rewrite length_fmap, length_seqZ. lia. Qed.

Lemma entry_in k : 0 ≤ k < n_entries → entry_at (dev s) (data i) k ∈ es.
Proof.
  intros Hk. apply list_elem_of_lookup. exists (Z.to_nat k). rewrite entries_lookup by lia.
  by rewrite decide_True by lia.
Qed.

Lemma lookup_loop_ok fuel name e k :
  dir_wf es → 0 ∉ name → length e = 20%nat → 0 ≤ k ≤ n_entries →
  (Z.to_nat (n_entries - k) < fuel)%nat → ENTRY_SIZE * n_entries + ENTRY_SIZE ≤ INT_MAX →
  lookup_loop fuel a name e (ENTRY_SIZE * k) s = Ok (find_name name (drop (Z.to_nat k) es) k, s).
Proof using Hdf.
  intros Hwf H0. revert e k. induction fuel as [|fuel IH]; intros e k He Hk Hf Hmax; [lia|].
  unfold INT_MAX in Hmax. cbn [lookup_loop]. rewrite s32_small by (unfold is_s32; lia).
  destruct (read_entry e k) as (n & e' & Hrd & He' & Hcase); [done|lia|unfold INT_MAX; lia|].
  rewrite (bindS_Ok _ _ _ _ _ Hrd). destruct (decide (k < n_entries)) as [Hlt|Hge].
  - destruct Hcase as [-> Ee]. rewrite Z.eqb_refl, drop_entries by lia. cbn [find_name].
    assert (decode_entry e' = entry_at (dev s) (data i) k) as -> by (by rewrite Ee).
    set (de := entry_at (dev s) (data i) k).
    assert (∃ found, (if in_use de then liftS (str_equal name (ename de)) else retS false) s = Ok (found, s) ∧
      found = bool_decide (entry_name de = Some name)) as (found & Hfound & ->).
    { unfold entry_name. destruct (in_use de) eqn:Hu; [|by eexists].
      destruct (dw_term _ Hwf de) as [nm Hnm]; [apply entry_in; lia|done|]. rewrite Hnm.
      eexists. split; [apply liftS_Ok; by apply str_equal_ok|]. apply bool_decide_ext. naive_solver. }
    rewrite (bindS_Ok _ _ _ _ _ Hfound). case_bool_decide as Hname.
    + by rewrite decide_True by done.
    + rewrite decide_False by done. rewrite u32_small by (unfold is_u32; lia).
      replace (ENTRY_SIZE * k + ENTRY_SIZE) with (ENTRY_SIZE * (k + 1)) by lia. apply IH; try lia. done.
  - destruct Hcase as [-> _]. change (0 =? ENTRY_SIZE) with false. by rewrite drop_entries_end by lia.
Qed.

Lemma free_slot_loop_ok fuel e k :
  length e = 20%nat → 0 ≤ k ≤ n_entries → (Z.to_nat (n_entries - k) < fuel)%nat →
  ENTRY_SIZE * n_entries + ENTRY_SIZE ≤ INT_MAX →
  ∃ e' k', free_slot_loop fuel a e (ENTRY_SIZE * k) s = Ok ((e', ENTRY_SIZE * k'), s) ∧
    length e' = 20%nat ∧ k ≤ k' ≤ n_entries ∧
    (∀ j, k ≤ j < k' → in_use (entry_at (dev s) (data i) j) = true) ∧
    (k' < n_entries → in_use (entry_at (dev s) (data i) k') = false).
Proof using Hdf.
  revert e k. induction fuel as [|fuel IH]; intros e k He Hk Hf Hmax; [lia|]. cbn [free_slot_loop].
  destruct (read_entry e k) as (n & e' & Hrd & He' & Hcase); [done|lia|lia|].
  rewrite (bindS_Ok _ _ _ _ _ Hrd). destruct (decide (k < n_entries)) as [Hlt|Hge].
  - destruct Hcase as [-> Ee]. rewrite Z.eqb_refl.
    assert (decode_entry e' = entry_at (dev s) (data i) k) as -> by (by rewrite Ee).
    destruct (in_use (entry_at (dev s) (data i) k)) eqn:Hu; cbn [negb].
    + unfold INT_MAX in Hmax. rewrite s32_small by (unfold is_s32; lia).
      replace (ENTRY_SIZE * k + ENTRY_SIZE) with (ENTRY_SIZE * (k + 1)) by lia.
      destruct (IH e' (k + 1)) as (e2 & k2 & -> & ? & ? & Hall & Hfree); [done|lia|lia|unfold INT_MAX; lia|].
      exists e2, k2. split_and!; try (done || lia). intros j Hj.
      destruct (decide (j = k)) as [->|]; [done|]. apply Hall. lia.
    + exists e', k. split_and!; try (done || lia).
  - destruct Hcase as [-> ->]. change (0 =? ENTRY_SIZE) with false. exists e, k.
    split_and!; try (done || lia).
Qed.

End loops.

(** ** The map of a list of entries *)

Section maps.
Implicit Types (es : list dir_entry) (e : dir_entry) (name : list Z).

Lemma dir_map_cons e es :
  dir_map (e :: es) = match entry_name e with
                      | Some n => <[n := inode_sector e]> (dir_map es)
                      | None => dir_map es
                      end.
Proof. unfold dir_map, entry_pair. simpl. by destruct (entry_name e). Qed.

Lemma find_name_map name es k : (inode_sector ∘ fst) <$> find_name name es k = dir_map es !! name.
Proof.
  revert k. induction es as [|e es IH]; intros k; [done|]. rewrite dir_map_cons. simpl.
  destruct (entry_name e) as [n|] eqn:En.
  - destruct (decide (Some n = Some name)) as [[= ->]|Hne]; [by rewrite lookup_insert_eq|].
    by rewrite lookup_insert_ne by congruence.
  - by rewrite decide_False by done.
Qed.

Lemma dir_map_names es name : is_Some (dir_map es !! name) ↔ name ∈ omap entry_name es.
Proof.
  induction es as [|e es IH]; simpl.
  - split; [by intros [? ?]|set_solver].
  - rewrite dir_map_cons. destruct (entry_name e) as [n|]; [|done].
    rewrite lookup_insert_is_Some, IH, elem_of_cons. destruct (decide (n = name)); naive_solver.
Qed.

Lemma dir_map_app es1 es2 : dir_map (es1 ++ es2) = dir_map es1 ∪ dir_map es2.
Proof. unfold dir_map. by rewrite omap_app, list_to_map_app. Qed.

(** Filling a free slot with a new name. *)
Lemma dir_map_fill es k e e' name :
  es !! k = Some e → entry_name e = None → entry_name e' = Some name → dir_map es !! name = None →
  dir_map (<[k := e']> es) = <[name := inode_sector e']> (dir_map es).
Proof.
  intros Hk He He' Hn. rewrite (insert_take_drop _ _ _ (lookup_lt_Some _ _ _ Hk)).
  assert (dir_map es = dir_map (take k es) ∪ dir_map (drop (S k) es)) as E.
  { rewrite <-(take_drop_middle es k e Hk) at 1. by rewrite dir_map_app, dir_map_cons, He. }
  rewrite E in Hn |- *. apply lookup_union_None in Hn as [Hn _].
  rewrite dir_map_app, dir_map_cons, He'. by rewrite insert_union_r.
Qed.

Lemma dir_wf_insert es k e e' :
  dir_wf es → es !! k = Some e →
  (in_use e' = true → ∃ n, c_string (ename e') = Ok n) →
  (∀ n, entry_name e' = Some n → dir_map es !! n = None ∨ entry_name e = Some n) →
  dir_wf (<[k := e']> es).
Proof.
  intros [Ht Hd] Hk Hterm Hnew. split.
  - intros x (j & Hj)%list_elem_of_lookup Hu. apply list_lookup_insert_Some in Hj as [(_ & -> & _)|[_ Hj]]; [auto|].
    apply (Ht x); [|done]. by eapply list_elem_of_lookup_2.
  - rewrite (insert_take_drop _ _ _ (lookup_lt_Some _ _ _ Hk)).
    rewrite <-(take_drop_middle es k e Hk) in Hd.
    assert (∀ n, entry_name e' = Some n → entry_name e ≠ Some n →
      n ∉ omap entry_name (take k es) ∧ n ∉ omap entry_name (drop (S k) es)) as Hfresh.
    { intros n Hn Hne. destruct (Hnew n Hn) as [Hno|]; [|done].
      rewrite <-(take_drop_middle es k e Hk), dir_map_app, dir_map_cons in Hno.
      apply lookup_union_None in Hno as [H1 H2]. split.
      - rewrite <-dir_map_names, H1. by intros [? ?].
      - rewrite <-dir_map_names. destruct (entry_name e); [rewrite lookup_insert_ne in H2 by congruence|];
          rewrite H2; by intros [? ?]. }
    rewrite omap_app in *. simpl in *. destruct (entry_name e') as [n'|] eqn:En'.
    + destruct (decide (entry_name e = Some n')) as [E|E]; [by rewrite E in Hd|].
      destruct (Hfresh n' eq_refl E) as [F1 F2]. rewrite NoDup_app in Hd |- *. destruct Hd as (D1 & D2 & D3).
      destruct (entry_name e) as [n0|]; [apply NoDup_cons in D3 as [_ D3]|];
        (split_and!; [done|set_solver|by apply NoDup_cons]).
    + destruct (entry_name e) as [n0|]; [|done]. rewrite NoDup_app in Hd |- *. destruct Hd as (D1 & D2 & D3).
      apply NoDup_cons in D3 as [_ D3]. split_and!; [done|set_solver|done].
Qed.

(** Clearing the slot of a name. *)
Lemma dir_map_clear es k e e' name :
  NoDup (omap entry_name es) → es !! k = Some e → entry_name e = Some name → entry_name e' = None →
  dir_map (<[k := e']> es) = delete name (dir_map es).
Proof.
  intros Hd Hk He He'. rewrite (insert_take_drop _ _ _ (lookup_lt_Some _ _ _ Hk)).
  assert (dir_map es = dir_map (take k es) ∪ <[name := inode_sector e]> (dir_map (drop (S k) es))) as ->.
  { rewrite <-(take_drop_middle es k e Hk) at 1. by rewrite dir_map_app, dir_map_cons, He. }
  rewrite <-(take_drop_middle es k e Hk), omap_app in Hd. simpl in Hd. rewrite He in Hd.
  apply NoDup_app in Hd as (_ & Hdis & [Hn _]%NoDup_cons).
  rewrite dir_map_app, dir_map_cons, He', delete_union, delete_insert_eq, !delete_id; [done| |];
    apply eq_None_not_Some; rewrite dir_map_names; set_solver.
Qed.

Lemma find_name_Some name es k e ofs :
  find_name name es k = Some (e, ofs) →
  ∃ j, es !! j = Some e ∧ ofs = ENTRY_SIZE * (k + Z.of_nat j) ∧ entry_name e = Some name.
Proof.
  revert k. induction es as [|e0 es IH]; intros k H; [done|]. simpl in H. case_decide as En.
  - simplify_eq. exists 0%nat. split_and!; [done|lia|done].
  - destruct (IH _ H) as (j & ? & -> & ?). exists (S j). split_and!; [done|lia|done].
Qed.

(** A name that is in use elsewhere occurs twice once it fills a free slot. *)
Lemma fill_duplicates es k e e' name :
  es !! k = Some e → in_use e = false → entry_name e' = Some name → is_Some (dir_map es !! name) →
  ¬ dir_wf (<[k := e']> es).
Proof.
  intros Hk Hu He' Hin [_ Hd]. rewrite (insert_take_drop _ _ _ (lookup_lt_Some _ _ _ Hk)), omap_app in Hd.
  simpl in Hd. rewrite He' in Hd. rewrite dir_map_names in Hin.
  rewrite <-(take_drop_middle es k e Hk), omap_app in Hin. simpl in Hin.
  assert (entry_name e = None) as En by (unfold entry_name; by rewrite Hu). rewrite En in Hin.
  apply NoDup_app in Hd as (_ & Hdis & [Hn _]%NoDup_cons). apply elem_of_app in Hin. set_solver.
Qed.

End maps.

(** ** Adding an entry *)

Section add.
Context (s : fs) (a : Z) (i : inode) (Hdf : dir_file s a i) (Hw : deny_write_cnt i = 0).
Notation es := (entries (dev s) (data i)).
Notation n_entries := (ilength (data i) / ENTRY_SIZE).

Lemma entry_at_unchanged b' ofs bytes j :
  wrote (dev s) b' (data i) ofs bytes → 0 ≤ j →
  ENTRY_SIZE * j + ENTRY_SIZE ≤ ofs ∨ ofs + Z.of_nat (length bytes) ≤ ENTRY_SIZE * j →
  entry_at b' (data i) j = entry_at (dev s) (data i) j.
Proof.
  intros Hwr Hj Hdis. unfold entry_at. f_equal. unfold file_bytes. apply list_fmap_ext.
  intros m x Hm. apply lookup_seqZ in Hm as [-> Hm]. rewrite (wr_in _ _ _ _ _ Hwr) by lia.
  by rewrite decide_False by lia.
Qed.

(** A whole entry written at slot [k] replaces that entry and no other. *)
Lemma write_entry bytes k :
  length bytes = 20%nat → 0 ≤ k < n_entries →
  ∃ b', inode_write_at a bytes ENTRY_SIZE (ENTRY_SIZE * k) s = Ok (ENTRY_SIZE, set_dev s b') ∧
    wrote (dev s) b' (data i) (ENTRY_SIZE * k) bytes ∧
    entries b' (data i) = <[Z.to_nat k := decode_entry bytes]> es.
Proof using Hdf Hw.
  intros Hb Hk. destruct (n_entries_len s a i Hdf) as (Hlen & Hn & Hle). destruct Hdf as [Ha Hd Hi Hm _].
  unfold INT_MAX in Hle.
  destruct (inode_write_at_ok s a i bytes ENTRY_SIZE (ENTRY_SIZE * k)) as (b' & Hwa & Hwr);
    try (done || (unfold INT_MAX; lia)).
  replace (Z.max 0 _) with ENTRY_SIZE in Hwa, Hwr by lia.
  rewrite take_ge in Hwr by (rewrite Hb; done). exists b'. split_and!; [done|done|].
  apply list_eq. intros j. destruct (decide (j = Z.to_nat k)) as [->|Hj].
  - rewrite list_lookup_insert_eq by (unfold entries; rewrite length_fmap, length_seqZ; lia).
    unfold entries. rewrite list_lookup_fmap, lookup_seqZ_lt by lia. simpl. unfold entry_at. do 2 f_equal.
    eapply wrote_file_bytes; [| |by rewrite Hb]; [lia|].
    by replace (ENTRY_SIZE * _) with (ENTRY_SIZE * k) by lia.
  - rewrite list_lookup_insert_ne by done. unfold entries. rewrite !list_lookup_fmap.
    destruct (seqZ 0 _ !! j) as [x|] eqn:Ex; [|done]. apply lookup_seqZ in Ex as [-> Hx]. simpl. f_equal.
    apply (entry_at_unchanged _ _ _ _ Hwr); [lia|]. rewrite Hb. lia.
Qed.

(** A write at the end of the file writes nothing. *)
Lemma write_past_end bytes :
  length bytes = 20%nat →
  ∃ b', inode_write_at a bytes ENTRY_SIZE (ENTRY_SIZE * n_entries) s = Ok (0, set_dev s b') ∧
    wrote (dev s) b' (data i) (ENTRY_SIZE * n_entries) [] ∧ entries b' (data i) = es.
Proof using Hdf Hw.
  intros Hb. destruct (n_entries_len s a i Hdf) as (Hlen & Hn & Hle). destruct Hdf as [Ha Hd Hi Hm _].
  destruct (inode_write_at_ok s a i bytes ENTRY_SIZE (ENTRY_SIZE * n_entries)) as (b' & Hwa & Hwr);
    try (done || lia || (rewrite Hb; done)).
  replace (Z.max 0 _) with 0 in Hwa, Hwr by lia. exists b'. split_and!; [done|done|].
  apply list_fmap_ext. intros j x Hx. apply lookup_seqZ in Hx as [-> Hx].
  apply (entry_at_unchanged _ _ _ _ Hwr); simpl; lia.
Qed.

Lemma dir_fuel_ok : dir_fuel a s = Ok (S (S (Z.to_nat n_entries)), s).
Proof using Hdf.
  unfold dir_fuel, get_inode, bindS, liftS. rewrite (df_inode _ _ _ Hdf). done.
Qed.

Lemma lookup_ok junk pos name :
  dir_wf es → 0 ∉ name → length junk = 20%nat → ENTRY_SIZE * n_entries + ENTRY_SIZE ≤ INT_MAX →
  lookup junk (Dir a pos) name s = Ok (find_name name es 0, s).
Proof using Hdf.
  intros Hwf H0 Hj Hmax. destruct (n_entries_len s a i Hdf) as (_ & Hn & _).
  unfold lookup. simpl. rewrite (bindS_Ok _ _ _ _ _ dir_fuel_ok).
  apply (lookup_loop_ok s a i Hdf _ name junk 0); try (done || lia).
Qed.

Lemma find_name_None name l k : find_name name l k = None ↔ dir_map l !! name = None.
Proof. rewrite <-(find_name_map name l k). by destruct (find_name name l k). Qed.

(** The part of [dir_add] after the lookup: the first free slot takes the entry. *)
Lemma add_slot_ok junk name sec :
  0 ∉ name → (length name ≤ 14)%nat → length junk = 20%nat → is_u32 sec →
  ENTRY_SIZE * n_entries + ENTRY_SIZE ≤ INT_MAX →
  ∃ r b', (fuel <-- dir_fuel a ;;
           '(e, ofs) <-- free_slot_loop fuel a junk 0 ;;
           n <-- inode_write_at a (fill_entry e name sec) ENTRY_SIZE ofs ;;
           retS (n =? ENTRY_SIZE)) s = Ok (r, set_dev s b') ∧
    dev_ok b' ∧ bsize b' = bsize (dev s) ∧
    (∀ k, ¬ in_file (data i) k → sectors b' !! k = sectors (dev s) !! k) ∧
    if r : bool
    then (∃ e, e ∈ es ∧ in_use e = false) ∧
      ∃ k e e', es !! k = Some e ∧ in_use e = false ∧ entry_name e' = Some name ∧ inode_sector e' = sec ∧
        (in_use e' = true → ∃ n, c_string (ename e') = Ok n) ∧ entries b' (data i) = <[k := e']> es
    else entries b' (data i) = es ∧ Forall (λ e, in_use e = true) es.
Proof using Hdf Hw.
  intros H0 Hlong Hj Hs Hmax. pose proof Hdf as [Ha Hd Hi Hm _]. destruct (n_entries_len s a i Hdf) as (Hlen & Hn & Hle).
  rewrite (bindS_Ok _ _ _ _ _ dir_fuel_ok).
  destruct (free_slot_loop_ok s a i Hdf (S (S (Z.to_nat n_entries))) junk 0) as (e & k & Hloop & He & Hk & Hused & Hfree);
    try (done || lia).
  rewrite (bindS_Ok _ _ _ _ _ Hloop).
  destruct (decode_fill_entry e name sec He Hlong Hs) as (r & Hdec & Hr).
  destruct (decide (k < n_entries)) as [Hlt|Hge].
  - destruct (write_entry (fill_entry e name sec) k) as (b' & Hwa & Hwr & Hes).
    { by apply fill_entry_length. }
    { lia. }
    rewrite (bindS_Ok _ _ _ _ _ Hwa), Z.eqb_refl. exists true, b'. rewrite Hdec in Hes.
    assert (es !! Z.to_nat k = Some (entry_at (dev s) (data i) k)) as Hold
      by (rewrite (entries_lookup s i) by lia; by rewrite decide_True by lia).
    assert (entry_name (DirEntry sec (name ++ 0 :: r) true) = Some name) as Hname
      by (unfold entry_name; simpl; by rewrite c_string_app).
    split_and!; try done; try apply Hwr.
    + exists (entry_at (dev s) (data i) k). split; [by eapply list_elem_of_lookup_2|auto].
    + exists (Z.to_nat k). do 2 eexists. split_and!; [exact Hold|auto|exact Hname|done| |exact Hes].
      intros _. exists name. simpl. by apply c_string_app.
  - assert (k = n_entries) as -> by lia.
    destruct (write_past_end (fill_entry e name sec)) as (b' & Hwa & Hwr & Hes); [by apply fill_entry_length|].
    rewrite (bindS_Ok _ _ _ _ _ Hwa). exists false, b'. rewrite Hes.
    split_and!; try done; try apply Hwr. apply Forall_forall.
    intros x Hx. apply list_elem_of_fmap in Hx as (j & -> & Hj'). apply elem_of_seqZ in Hj'. apply Hused. lia.
Qed.

(** [dir_add] adds the name to the map of the directory, or says why not. *)
Lemma dir_add_ok junk pos name sec :
  dir_wf es → 0 ∉ name → length junk = 20%nat → is_u32 sec →
  ENTRY_SIZE * n_entries + ENTRY_SIZE ≤ INT_MAX →
  ∃ r b', dir_add junk (Dir a pos) name sec s = Ok (r, set_dev s b') ∧
    dev_ok b' ∧ bsize b' = bsize (dev s) ∧
    (∀ k, ¬ in_file (data i) k → sectors b' !! k = sectors (dev s) !! k) ∧
    dir_wf (entries b' (data i)) ∧
    if r : bool
    then dir_map es !! name = None ∧ dir_map (entries b' (data i)) = <[name := sec]> (dir_map es)
    else entries b' (data i) = es ∧
      (name = [] ∨ (14 < length name)%nat ∨ is_Some (dir_map es !! name) ∨ Forall (λ e, in_use e = true) es).
Proof using Hdf Hw.
  intros Hwf H0 Hj Hs Hmax. pose proof Hdf as [Ha Hd Hi Hm _]. destruct (n_entries_len s a i Hdf) as (Hlen & Hn & Hle).
  unfold dir_add. destruct (bool_decide (name = []) || (NAME_MAX <? Z.of_nat (length name))) eqn:Hbad.
  { exists false, (dev s). rewrite set_dev_id. split_and!; try done. apply orb_true_iff in Hbad as [E|E].
    - left. by apply bool_decide_eq_true in E.
    - right; left. unfold NAME_MAX in E. lia. }
  apply orb_false_iff in Hbad as [_ Hlong]. unfold NAME_MAX in Hlong.
  rewrite (bindS_Ok _ _ _ _ _ (lookup_ok junk pos name Hwf H0 Hj Hmax)).
  destruct (find_name name es 0) as [x|] eqn:Hf.
  { exists false, (dev s). rewrite set_dev_id. split_and!; try done. do 2 right. left.
    rewrite <-(find_name_map name es 0), Hf. by eexists. }
  apply find_name_None in Hf. cbn [dinode].
  destruct (add_slot_ok junk name sec) as (r & b' & -> & Hwr & Hsz & Hout & Hcase); try (done || lia).
  exists r, b'. split_and!; try done; destruct r; destruct Hcase as [H1 H2].
  - destruct H2 as (k & e & e' & Hk & Hu & Hnm & Hs' & Ht & ->). eapply dir_wf_insert; [done..|].
    intros n E. rewrite Hnm in E. simplify_eq. by left.
  - by rewrite H1.
  - destruct H2 as (k & e & e' & Hk & Hu & Hnm & <- & Ht & ->). split; [done|].
    eapply dir_map_fill; try done. unfold entry_name. by rewrite Hu.
  - split; [done|]. by do 3 right.
Qed.

End add.

(** A directory file is a finite map from names to inode sectors: looking a
    name up gives its sector in the map and changes nothing, and adding a name
    either binds it to the sector, in a slot that was free and without touching
    any other sector of the device, or leaves the map as it is because the name is
    empty, longer than NAME_MAX, taken, or the directory is full. *)
Theorem directory_refines_map s a i junk pos name sec :
  dir_file s a i → deny_write_cnt i = 0 → dir_wf (entries (dev s) (data i)) → 0 ∉ name →
  length junk = 20%nat → is_u32 sec → ilength (data i) + ENTRY_SIZE ≤ INT_MAX →
  let m := dir_map (entries (dev s) (data i)) in
  (∃ o, lookup junk (Dir a pos) name s = Ok (o, s) ∧ (inode_sector ∘ fst) <$> o = m !! name) ∧
  ∃ r b', dir_add junk (Dir a pos) name sec s = Ok (r, set_dev s b') ∧
    dir_file (set_dev s b') a i ∧ dir_wf (entries b' (data i)) ∧
    (∀ k, ¬ in_file (data i) k → sectors b' !! k = sectors (dev s) !! k) ∧
    if r : bool
    then m !! name = None ∧ dir_map (entries b' (data i)) = <[name := sec]> m
    else entries b' (data i) = entries (dev s) (data i) ∧
      (name = [] ∨ (14 < length name)%nat ∨ is_Some (m !! name) ∨
       Forall (λ e, in_use e = true) (entries (dev s) (data i))).
Proof.
  intros Hdf Hw Hwf H0 Hj Hs Hmax m. destruct (n_entries_len s a i Hdf) as (Hlen & _ & _). split.
  - eexists. split; [apply (lookup_ok s a i); try done; lia|]. apply find_name_map.
  - destruct (dir_add_ok s a i Hdf Hw junk pos name sec) as (r & b' & Hadd & Hd & Hsz & Hout & Hwf' & Hcase); try (done || lia).
    exists r, b'. split_and!; try done. destruct Hdf. split; try done. by eapply inode_ok_size.
Qed.

(** A directory of three slots at sector 2: a is the file of sector 5, the
    second slot is free and b is the file of sector 6. *)
Definition demo_slot (c sec : Z) (u : bool) : list Z :=
  encode_entry (DirEntry sec (c :: replicate 14 0) u).
Definition demo_dir_dev : block :=
  Block BLOCK_FILESYS 8
    [replicate 512 0; replicate 512 0;
     demo_slot 97 5 true ++ demo_slot 99 4 false ++ demo_slot 98 6 true ++ replicate 452 0;
     replicate 512 0; replicate 512 0; replicate 512 0; replicate 512 0; replicate 512 0].
Definition demo_dir_inode : inode := Inode 1 1 false 0 (InodeDisk 2 60 INODE_MAGIC).
Definition demo_dir_fs : fs :=
  FS demo_dir_dev {[ 1 := demo_dir_inode; 2 := Inode 5 1 false 0 (InodeDisk 7 10 INODE_MAGIC) ]}
    [2; 1] 3 [] (Bitmap 8 [255]) None FIRST_FIT statics0.

Lemma demo_dir_file : dir_file demo_dir_fs 1 demo_dir_inode.
Proof.
  split; try done. by apply dev_okb_ok; vm_compute.
Qed.

Lemma demo_dir_wf : dir_wf (entries demo_dir_dev (data demo_dir_inode)).
Proof.
  split.
  - intros e He _. vm_compute in He. apply list_elem_of_In in He. destruct He as [<-|[<-|[<-|[]]]]; by eexists.
  - by apply (bool_decide_eq_true_1 _); vm_compute.
Qed.

Lemma directory_refines_map_witness :
  ∃ r b', dir_add (replicate 20 9) (Dir 1 0) [100; 101] 7 demo_dir_fs = Ok (r, set_dev demo_dir_fs b') ∧ r = true.
Proof.
  destruct (directory_refines_map demo_dir_fs 1 demo_dir_inode (replicate 20 9) 0 [100; 101] 7)
    as (_ & r & b' & Hadd & _ & _ & _ & Hcase).
  - apply demo_dir_file.
  - done.
  - apply demo_dir_wf.
  - set_solver.
  - done.
  - unfold is_u32. lia.
  - vm_compute. discriminate.
  - exists r, b'. split; [exact Hadd|]. revert Hadd. vm_compute. by intros [= <- _].
Defined.

(** ** Without memory for the bounce buffer *)

(** A read of a whole entry gives no bytes when [malloc] fails. *)
Lemma read_entry_no_memory s a i e ms :
  inodes s !! a = Some i → mallocs s = false :: ms → ENTRY_SIZE ≤ ilength (data i) ≤ INT_MAX →
  inode_read_at a e ENTRY_SIZE 0 s = Ok ((0, e), set_mallocs s ms).
Proof.
  intros Ha Hm Hl. unfold inode_read_at.
  assert (get_inode a s = Ok (i, s)) as Hg by (unfold get_inode, liftS; by rewrite Ha).
  rewrite (bindS_Ok _ _ _ _ _ Hg). unfold io_fuel. generalize (Z.to_nat ENTRY_SIZE) as fuel. intros fuel.
  cbn [read_loop]. unfold chunk_of, inode_length, INT_MAX in *. change (Z.rem 0 BLOCK_SECTOR_SIZE) with 0.
  rewrite s32_small by (unfold is_s32; lia). change (BLOCK_SECTOR_SIZE - 0) with 512.
  assert ((if ENTRY_SIZE <? (if ilength (data i) - 0 <? 512 then ilength (data i) - 0 else 512) then ENTRY_SIZE
           else if ilength (data i) - 0 <? 512 then ilength (data i) - 0 else 512) = ENTRY_SIZE) as ->.
  { repeat case_match; lia. }
  change (ENTRY_SIZE <=? 0) with false. cbn [andb]. change (0 =? 0) with true.
  change (ENTRY_SIZE =? BLOCK_SECTOR_SIZE) with false. cbn [andb].
  assert (malloc s = Ok (false, set_mallocs s ms)) as Hal by (unfold malloc; by rewrite Hm).
  by rewrite (bindS_Ok _ _ _ _ _ Hal).
Qed.

(** [lookup] takes a short read for the end of the directory, but a read is
    also short when the bounce buffer cannot be allocated.  With one failing
    allocation and a free slot, [dir_add] of a name the directory has succeeds and
    leaves it with two entries of that name. *)
Theorem dir_add_duplicates s a i junk pos name sec :
  mallocs s = [false] → dir_file (set_mallocs s []) a i → deny_write_cnt i = 0 →
  0 ∉ name → name ≠ [] → (length name ≤ 14)%nat → length junk = 20%nat → is_u32 sec →
  ENTRY_SIZE ≤ ilength (data i) → ilength (data i) + ENTRY_SIZE ≤ INT_MAX →
  is_Some (dir_map (entries (dev s) (data i)) !! name) →
  (∃ e, e ∈ entries (dev s) (data i) ∧ in_use e = false) →
  ∃ b', dir_add junk (Dir a pos) name sec s = Ok (true, set_dev (set_mallocs s []) b') ∧
    ¬ dir_wf (entries b' (data i)).
Proof.
  intros Hm Hdf Hw H0 Hne Hlen Hj Hs Hmin Hmax Hin (e & He & Hu).
  destruct (n_entries_len _ a i Hdf) as (Hl & _ & _). pose proof (df_inode _ _ _ Hdf) as Ha. simpl in Ha.
  unfold dir_add. rewrite bool_decide_eq_false_2 by done.
  unfold NAME_MAX. rewrite (proj2 (Z.ltb_ge _ _)) by lia. cbn [orb].
  assert (lookup junk (Dir a pos) name s = Ok (None, set_mallocs s [])) as Hlk.
  { unfold lookup, dir_fuel, get_inode. unfold bindS at 1 2. unfold liftS at 1. cbn [dinode]. rewrite Ha.
    cbn [deref retS lookup_loop]. change (s32 0) with 0.
    rewrite (bindS_Ok _ _ _ _ _ (read_entry_no_memory s a i junk [] Ha Hm ltac:(lia))). done. }
  rewrite (bindS_Ok _ _ _ _ _ Hlk). cbn [dinode].
  destruct (add_slot_ok (set_mallocs s []) a i Hdf Hw junk name sec) as (r & b' & -> & _ & _ & _ & Hcase); try (done || lia).
  destruct r; simpl in Hcase.
  - destruct Hcase as (_ & k & e0 & e' & Hk & Hu0 & Hn & _ & _ & Hes). exists b'.
    rewrite Hes. split; [done|]. eauto using fill_duplicates.
  - destruct Hcase as [_ Hall]. rewrite Forall_forall in Hall. rewrite (Hall e He) in Hu. done.
Qed.

Lemma dir_add_duplicates_witness :
  ∃ b', dir_add (replicate 20 9) (Dir 1 0) [98] 7 (set_mallocs demo_dir_fs [false]) =
      Ok (true, set_dev demo_dir_fs b') ∧ ¬ dir_wf (entries b' (data demo_dir_inode)).
Proof.
  apply (dir_add_duplicates (set_mallocs demo_dir_fs [false]) 1 demo_dir_inode (replicate 20 9) 0 [98] 7);
    try done; [apply demo_dir_file|set_solver|simpl; lia|].
  exists (DirEntry 4 (99 :: replicate 14 0) false). split; [|done]. apply list_elem_of_In. vm_compute. auto.
Defined.

(** ** Removing the name of an open file *)

Lemma get_inode_ok s a i : inodes s !! a = Some i → get_inode a s = Ok (i, s).
Proof. intros Ha. unfold get_inode, liftS. by rewrite Ha. Qed.

Lemma entry_at_ename b d k : length (ename (entry_at b d k)) = 15%nat.
Proof.
  unfold entry_at, decode_entry. cbn [ename]. rewrite length_take, length_drop, file_bytes_length. done.
Qed.

Lemma encode_entry_length e : length (ename e) = 15%nat → length (encode_entry e) = 20%nat.
Proof. intros He. unfold encode_entry. rewrite !length_app, He. done. Qed.

(** Clearing the entry that [lookup] has found. *)
Lemma clear_entry_ok s a i name e ofs :
  dir_file s a i → deny_write_cnt i = 0 → dir_wf (entries (dev s) (data i)) →
  find_name name (entries (dev s) (data i)) 0 = Some (e, ofs) →
  ∃ b', inode_write_at a (encode_entry (DirEntry (inode_sector e) (ename e) false)) ENTRY_SIZE (s32 ofs) s =
      Ok (ENTRY_SIZE, set_dev s b') ∧
    dev_ok b' ∧ bsize b' = bsize (dev s) ∧
    (∀ k, ¬ in_file (data i) k → sectors b' !! k = sectors (dev s) !! k) ∧
    dir_map (entries b' (data i)) = delete name (dir_map (entries (dev s) (data i))) ∧
    dir_wf (entries b' (data i)).
Proof.
  intros Hdf Hw Hwf (k & Hk & -> & Hn)%find_name_Some. destruct (n_entries_len s a i Hdf) as (Hlen & Hnn & Hle).
  pose proof (lookup_lt_Some _ _ _ Hk) as Hlt. unfold entries in Hlt. rewrite length_fmap, length_seqZ in Hlt.
  pose proof Hk as Hk'. unfold entries in Hk'. rewrite list_lookup_fmap, lookup_seqZ_lt in Hk' by lia.
  injection Hk' as <-. set (e := entry_at (dev s) (data i) (0 + Z.of_nat k)) in *.
  rewrite s32_small by (unfold is_s32, INT_MAX in *; lia).
  destruct (write_entry s a i Hdf Hw (encode_entry (DirEntry (inode_sector e) (ename e) false)) (0 + Z.of_nat k))
    as (b' & Hwa & Hwr & Hes); [apply encode_entry_length, entry_at_ename|lia|].
  set (e' := decode_entry _) in Hes.
  assert (in_use e' = false) as Hu by apply in_use_encode_entry, entry_at_ename.
  assert (entry_name e' = None) as Hn' by (unfold entry_name; by rewrite Hu).
  replace (Z.to_nat (0 + Z.of_nat k)) with k in Hes by lia.
  exists b'. rewrite Hes. split_and!; try done; try apply Hwr.
  - eapply dir_map_clear; try done. apply Hwf.
  - by eapply dir_wf_insert; [..|rewrite Hu|rewrite Hn'].
Qed.

(** Removing and closing an inode that others have open. *)
Lemma remove_close_ok s a i :
  a ≠ NULL → inodes s !! a = Some i → 2 ≤ open_cnt i → is_s32 (open_cnt i) →
  (inode_remove a ;;; inode_close a ;;; retS true) s =
    Ok (true, set_inodes s (<[a := Inode (isector i) (s32 (open_cnt i - 1)) true (deny_write_cnt i) (data i)]> (inodes s))).
Proof.
  intros Hnz Ha Hc Hs. unfold inode_remove, inode_close. rewrite (proj2 (Z.eqb_neq _ _)) by done.
  unfold get_inode, put_inode, assertS, bindS, liftS. cbn. rewrite Ha. cbn. rewrite lookup_insert_eq. cbn.
  unfold is_s32 in Hs. rewrite s32_small by (unfold is_s32; lia). rewrite (proj2 (Z.eqb_neq _ _)) by lia.
  unfold set_inodes, retS. simpl. by rewrite insert_insert_eq.
Qed.

(** The name of a file some other process has open can be removed: the name
    leaves the map, the inode is marked and keeps its openers, and whatever the
    openers read is what they would have read before, since no sector of the file
    is released. *)
Theorem remove_open_file s a i aj j junk pos name sec :
  dir_file s a i → deny_write_cnt i = 0 → dir_wf (entries (dev s) (data i)) → 0 ∉ name →
  length junk = 20%nat → ilength (data i) + ENTRY_SIZE ≤ INT_MAX →
  inodes s !! aj = Some j → aj ≠ NULL → aj ≠ a → 1 ≤ open_cnt j < INT_MAX →
  inode_ok (dev s) (data j) → (∀ k, in_file (data j) k → ¬ in_file (data i) k) →
  dir_map (entries (dev s) (data i)) !! name = Some sec →
  find_open (open_inodes s) sec s = Ok (Some aj, s) →
  ∃ s', dir_remove junk (Dir a pos) name s = Ok (true, s') ∧
    dir_map (entries (dev s') (data i)) = delete name (dir_map (entries (dev s) (data i))) ∧
    dir_wf (entries (dev s') (data i)) ∧
    inodes s' = <[aj := Inode (isector j) (open_cnt j) true (deny_write_cnt j) (data j)]> (inodes s) ∧
    free_map s' = free_map s ∧
    ∀ buf size ofs, 0 ≤ ofs ≤ INT_MAX → 0 ≤ size ≤ INT_MAX → size ≤ Z.of_nat (length buf) →
      ∃ r, inode_read_at aj buf size ofs s = Ok (r, s) ∧ inode_read_at aj buf size ofs s' = Ok (r, s').
Proof.
  intros Hdf Hw Hwf H0 Hj Hmax Haj Hnz Hne Hcnt Hioj Hdis Hin Hopen.
  destruct (n_entries_len s a i Hdf) as (Hlen & _ & _).
  pose proof (lookup_ok s a i Hdf junk pos name Hwf H0 Hj ltac:(lia)) as Hlk.
  rewrite <-(find_name_map name _ 0) in Hin. apply fmap_Some in Hin as ([e ofs] & Hf & ->).
  unfold dir_remove. rewrite (bindS_Ok _ _ _ _ _ Hlk), Hf. simpl in Hopen.
  set (j1 := Inode (isector j) (s32 (open_cnt j + 1)) (removed j) (deny_write_cnt j) (data j)).
  assert (inode_open (inode_sector e) s = Ok (aj, set_inodes s (<[aj := j1]> (inodes s)))) as Ho.
  { unfold inode_open, getS. unfold bindS at 1. rewrite (bindS_Ok _ _ _ _ _ Hopen).
    unfold inode_reopen. rewrite (proj2 (Z.eqb_neq _ _)) by done.
    by rewrite (bindS_Ok _ _ _ _ _ (get_inode_ok _ _ _ Haj)). }
  rewrite (bindS_Ok _ _ _ _ _ Ho), (proj2 (Z.eqb_neq _ _)) by done. clear Ho.
  destruct (clear_entry_ok (set_inodes s (<[aj := j1]> (inodes s))) a i name e ofs)
    as (b' & Hwa & Hd' & Hsz & Hout & Hmap & Hwf'); try done.
  { destruct Hdf. split; try done. simpl. by rewrite lookup_insert_ne. }
  cbn [dinode]. rewrite (bindS_Ok _ _ _ _ _ Hwa), Z.eqb_refl. cbn [negb].
  rewrite (remove_close_ok _ aj j1); [|done|by simpl; rewrite lookup_insert_eq|..]; cycle 1.
  { simpl. unfold INT_MAX in Hcnt. rewrite s32_small; unfold is_s32; lia. }
  { simpl. apply s32_range. }
  eexists. split; [done|]. cbn [dev set_dev set_inodes inodes free_map]. unfold j1. cbn [isector open_cnt removed deny_write_cnt data].
  assert (s32 (s32 (open_cnt j + 1) - 1) = open_cnt j) as ->
    by (unfold INT_MAX in Hcnt; rewrite !s32_small; unfold is_s32; rewrite ?s32_small; unfold is_s32; lia).
  split_and!; try done; [by rewrite insert_insert_eq|].
  intros buf size ofs' Hofs Hsize Hbuf.
  apply (inode_read_at_same s _ aj j (Inode (isector j) (open_cnt j) true (deny_write_cnt j) (data j)));
    try (done || apply Hdf); simpl.
  - by rewrite lookup_insert_eq.
  - intros k Hk. apply Hout. by apply Hdis.
Qed.

Lemma remove_open_file_witness :
  ∃ s', dir_remove (replicate 20 9) (Dir 1 0) [97] demo_dir_fs = Ok (true, s') ∧
    dir_map (entries (dev s') (data demo_dir_inode)) =
      delete [97] (dir_map (entries demo_dir_dev (data demo_dir_inode))) ∧
    ∃ r, inode_read_at 2 (replicate 10 1) 10 0 s' = Ok (r, s').
Proof.
  destruct (remove_open_file demo_dir_fs 1 demo_dir_inode 2 (Inode 5 1 false 0 (InodeDisk 7 10 INODE_MAGIC))
    (replicate 20 9) 0 [97] 5) as (s' & Hr & Hm & _ & _ & _ & Hread); try done.
  - apply demo_dir_file.
  - apply demo_dir_wf.
  - set_solver.
  - intros k. unfold in_file. simpl. change ((10 + 511) / 512) with 1. change ((60 + 511) / 512) with 1. lia.
  - exists s'. split_and!; [done|done|].
    destruct (Hread (replicate 10 1) 10 0) as (r & _ & Hr'); try (unfold INT_MAX; simpl; lia). by exists r.
Defined.
