(* ===== verification/Filesys.v ===== *)
(** The file system (src/filesys/filesys.c): creating, opening and removing files
    of the root directory, formatting, and starting up.

    The theorems put the free map, inodes and the root directory together: what
    [filesys_create] does to the whole file system, on success and on each kind of
    failure, is stated once, in [filesys_create_spec]. *)

From S2P Require Import Prelude Bitmap BitmapScan Disk Inode FreeMap CString Directory.

(** ** Operations *)

Definition filesys_create (junk : list Z) (name : list Z) (initial_size : Z) : FSM bool :=
  d <-- dir_open_root ;;
  '(success, inode_sector) <--
    match d with
    | None => retS (false, 0)
    | Some d' =>
        o <-- free_map_allocate 1 ;;
        match o with
        | None => retS (false, 0)
        | Some sector =>
            ok <-- inode_create sector initial_size ;;
            if negb ok then retS (false, sector)
            else ok <-- dir_add junk d' name sector ;; retS (ok, sector)
        end
    end ;;
  (if negb success && negb (inode_sector =? 0) then free_map_release inode_sector 1 else retS tt) ;;;
  dir_close d ;;;
  retS success.

Definition filesys_open (junk : list Z) (name : list Z) : FSM (option file) :=
  d <-- dir_open_root ;;
  a <-- match d with Some d' => dir_lookup junk d' name | None => retS NULL end ;;
  dir_close d ;;;
  file_open a.

Definition filesys_remove (junk : list Z) (name : list Z) : FSM bool :=
  d <-- dir_open_root ;;
  success <-- match d with Some d' => dir_remove junk d' name | None => retS false end ;;
  dir_close d ;;;
  retS success.

Definition do_format : FSM unit :=
  free_map_create ;;;
  ok <-- dir_create ROOT_DIR_SECTOR 16 ;;
  if negb ok then λ _, Fault PanicCall
  else free_map_close.

(** [role] is the device in the role BLOCK_FILESYS, [mem] what the memory of the
    free map's words contains. *)
Definition filesys_init (role : option block) (mem : list Z) (format : bool) : FSM unit :=
  match role with
  | None => λ _, Fault PanicCall
  | Some b =>
      s <-- getS ;;
      putS (set_open (set_dev s b) []) ;;;
      free_map_init mem ;;;
      (if format then do_format else retS tt) ;;;
      free_map_open
  end.

Definition filesys_done : FSM unit := free_map_close.

(** ** Inodes in a new file *)

Section create.
Implicit Types (s : fs) (f : file) (i : inode) (b : block).

Lemma decode_encode_inode d :
  is_u32 (start d) → is_s32 (ilength d) → is_u32 (imagic d) → decode_inode (encode_inode d) = d.
Proof.
  intros Hs Hl Hm. destruct d as [st len mg]. simpl in *. unfold decode_inode, encode_inode.
  cbn [start ilength imagic].
  rewrite (take_app_length' (le32 st)), (drop_app_length' (le32 st)) by done.
  rewrite (take_app_length' (le32 (u32 len))) by done.
  rewrite (app_assoc (le32 st)), (drop_app_length' (le32 st ++ le32 (u32 len))), (take_app_length' (le32 mg)) by done.
  rewrite !of_le32_le32; [|done|apply u32_range|done]. f_equal. by apply s32_u32.
Qed.

Lemma encode_inode_length d : length (encode_inode d) = 512%nat.
Proof. done. Qed.

Lemma zero_sectors_ok n sector s :
  dev_ok (dev s) → 0 ≤ sector → sector + Z.of_nat n ≤ bsize (dev s) →
  ∃ b', zero_sectors n sector s = Ok (tt, set_dev s b') ∧ dev_ok b' ∧ bsize b' = bsize (dev s) ∧
    ∀ k : nat, sectors b' !! k =
      if decide (sector ≤ Z.of_nat k < sector + Z.of_nat n) then Some (replicate 512 0)
      else sectors (dev s) !! k.
Proof.
  revert sector s. induction n as [|n IH]; intros sector s Hd H0 Hle; cbn [zero_sectors].
  - exists (dev s). rewrite set_dev_id. split_and!; try done. intros k. by rewrite decide_False by lia.
  - pose proof (dev_size _ Hd). rewrite u32_small by (unfold is_u32; lia).
    destruct (block_write_ok (dev s) sector (replicate 512 0)) as (b1 & Hw & Hd1 & Hs1 & Hk1); [done|lia|done|].
    assert (fs_write sector (replicate 512 0) s = Ok (tt, set_dev s b1)) as Hfw by (unfold fs_write; by rewrite Hw).
    rewrite (bindS_Ok _ _ _ _ _ Hfw).
    destruct (IH (sector + 1) (set_dev s b1)) as (b' & -> & Hd' & Hs' & Hk'); simpl; try (done || lia).
    exists b'. split_and!; try done; [by rewrite Hs'|]. intros k. rewrite Hk'. simpl. rewrite Hk1.
    pose proof (dev_len _ Hd). destruct (decide (k = Z.to_nat sector)) as [->|Hne].
    + rewrite decide_False by lia. rewrite decide_True by lia. rewrite list_lookup_insert_eq by lia. done.
    + rewrite list_lookup_insert_ne by done. do 2 case_decide; try done; lia.
Qed.

(** Writes outside the free map file leave the free map as it is. *)
Lemma fm_ok_frame s f i b' :
  fm_ok s f i → dev_ok b' → bsize b' = bsize (dev s) →
  (∀ k, in_file (data i) k → sectors b' !! k = sectors (dev s) !! k) → fm_ok (set_dev s b') f i.
Proof.
  intros Hfm Hd Hs Hk. pose proof (fm_io _ _ _ Hfm) as Hio. destruct Hfm. split; simpl; try done; [congruence|by eapply inode_ok_size|].
  rewrite (same_file_bytes (dev s) b'); try done. apply Hio.
Qed.

Lemma bytes_to_sectors_ok len :
  0 ≤ len ≤ INT_MAX - 511 → bytes_to_sectors len = (len + 511) / 512 ∧ 0 ≤ (len + 511) / 512.
Proof.
  intros Hl. unfold bytes_to_sectors, BLOCK_SECTOR_SIZE, INT_MAX in *.
  assert (0 ≤ (len + 511) / 512) by (apply Z.div_pos; lia).
  assert ((len + 511) / 512 ≤ len + 511) by (apply Z.div_le_upper_bound; lia).
  rewrite s32_small by (unfold is_s32; lia). replace (len + 512 - 1) with (len + 511) by lia.
  rewrite Z.quot_div_nonneg by lia. rewrite u32_small by (unfold is_u32; lia). done.
Qed.

(** The data sectors of the new file are the run at [st]. *)
Definition new_file (s s' : fs) (i : inode) (sector st len : Z) : Prop :=
  let n := (len + 511) / 512 in
  fits (free_map s) st n false ∧
  (∀ j, 0 ≤ j → bit_at (free_map s') j = if bool_decide (st ≤ j < st + n) then true else bit_at (free_map s) j) ∧
  sectors (dev s') !! Z.to_nat sector = Some (encode_inode (InodeDisk st len INODE_MAGIC)) ∧
  (∀ k : nat, st ≤ Z.of_nat k < st + n → sectors (dev s') !! k = Some (replicate 512 0)) ∧
  (∀ k : nat, ¬ in_file (data i) k → k ≠ Z.to_nat sector → ¬ (st ≤ Z.of_nat k < st + n) →
     sectors (dev s') !! k = sectors (dev s) !! k).

Lemma inode_create_ok s f i sector len :
  fm_ok s f i → 0 ≤ len ≤ INT_MAX - 511 → 0 ≤ sector < bsize (dev s) →
  ¬ in_file (data i) (Z.to_nat sector) → bit_at (free_map s) sector = true →
  (∀ k, in_file (data i) k → bit_at (free_map s) (Z.of_nat k) = true) →
  ∃ o s', inode_create sector len s = Ok (bool_decide (is_Some o), s') ∧ fm_ok s' f i ∧
    inodes s' = inodes s ∧ open_inodes s' = open_inodes s ∧ next_addr s' = next_addr s ∧
    bsize (dev s') = bsize (dev s) ∧
    match o with
    | Some st => new_file s s' i sector st len
    | None => free_map s' = free_map s ∧
        (∀ k, 0 ≤ k → ¬ fits (free_map s) k ((len + 511) / 512) false) ∧
        ∀ k, ¬ in_file (data i) k → sectors (dev s') !! k = sectors (dev s) !! k
    end.
Proof.
  intros Hfm Hlen Hsec Hnf Hbit Hown. destruct (bytes_to_sectors_ok len Hlen) as [Hbs Hn0].
  unfold inode_create. rewrite (proj2 (Z.leb_le _ _)) by lia.
  rewrite (bindS_Ok _ _ _ _ _ (eq_refl : assertS true s = _)).
  rewrite (bindS_Ok _ _ _ _ _ (malloc_ok s (fm_mem _ _ _ Hfm))), Hbs. cbn [negb].
  set (n := (len + 511) / 512) in *.
  destruct (free_map_allocate_ok s f i n Hfm Hn0) as (o & s1 & Ha & Hfm1 & Hst & Ho).
  rewrite (bindS_Ok _ _ _ _ _ Ha). destruct Hst as [E1 E2 E3 E4 E5]. destruct o as [st|].
  2: { destruct Ho as [Ho1 Ho2]. exists None, s1. split_and!; done. }
  destruct Ho as (Hfit & _ & Hbits). pose proof Hfit as (Hst0 & Hstn & Hfree).
  assert (∀ k : nat, st ≤ Z.of_nat k < st + n → ¬ in_file (data i) k) as Hrun.
  { intros k Hk Hin. apply Hown in Hin. rewrite Hfree in Hin by lia. done. }
  assert (¬ (st ≤ sector < st + n)) as Hsr by (intros H; rewrite Hfree in Hbit by lia; done).
  destruct (block_write_ok (dev s1) sector (encode_inode (InodeDisk st len INODE_MAGIC)))
    as (b2 & Hw & Hd2 & Hs2 & Hk2); [apply Hfm1|lia|done|].
  assert (fs_write sector (encode_inode (InodeDisk st len INODE_MAGIC)) s1 = Ok (tt, set_dev s1 b2)) as Hfw
    by (unfold fs_write; by rewrite Hw).
  rewrite (bindS_Ok _ _ _ _ _ Hfw). rewrite (fm_cnt _ _ _ Hfm) in Hstn.
  destruct (zero_sectors_ok (Z.to_nat n) st (set_dev s1 b2)) as (b3 & Hz & Hd3 & Hs3 & Hk3);
    simpl; [done|lia|lia|].
  rewrite (bindS_Ok _ _ _ _ _ Hz). rewrite Z2Nat.id in Hk3 by lia. simpl in Hs3, Hk3.
  exists (Some st), (set_dev s1 b3). cbn [set_dev inodes open_inodes next_addr dev free_map].
  split_and!; try done; try congruence.
  - apply (fm_ok_frame s1 f i b3); try done; [congruence|]. intros k Hk.
    rewrite Hk3, decide_False by (intros ?; by eapply Hrun). rewrite Hk2.
    apply list_lookup_insert_ne. intros <-. done.
  - unfold new_file. cbn [set_dev inodes open_inodes next_addr dev free_map]. fold n.
    split_and!; try done.
    + rewrite Hk3, decide_False by lia. rewrite Hk2. apply list_lookup_insert_eq.
      rewrite (dev_len _ (fm_dev _ _ _ Hfm1)). lia.
    + intros k Hk. by rewrite Hk3, decide_True by lia.
    + intros k Hk1 Hks Hkr. rewrite Hk3, decide_False by done. rewrite Hk2, list_lookup_insert_ne by done. auto.
Qed.

End create.

(** ** The file system as a whole *)

(** The sectors with a fixed use: the inodes of the free map and of the root
    directory, and the contents of both. *)
Definition fixed_use (i : inode) (rd : inode_disk) (k : nat) : Prop :=
  k = 0%nat ∨ k = 1%nat ∨ in_file rd k ∨ in_file (data i) k.

(** The free map is on the disk, sector 1 holds the inode of a well-formed root
    directory, and their sectors are disjoint and marked as used. *)
Record core_ok (s : fs) (f : file) (i : inode) (rd : inode_disk) : Prop := {
  co_fm : fm_ok s f i;
  co_root : ∃ c, sectors (dev s) !! 1%nat = Some c ∧ decode_inode c = rd;
  co_io : inode_ok (dev s) rd;
  co_len : ilength rd mod ENTRY_SIZE = 0 ∧ ilength rd + ENTRY_SIZE ≤ INT_MAX;
  co_wf : dir_wf (entries (dev s) rd);
  co_used : ∀ k, fixed_use i rd k → bit_at (free_map s) (Z.of_nat k) = true;
  co_sep : ∀ k, in_file rd k → ¬ in_file (data i) k;
  co_one : ¬ in_file rd 1 ∧ ¬ in_file (data i) 1;
}.

(** No one has the root directory open, the inodes that are open lie in sectors
    in use, and addresses from [next_addr] on are free. *)
Record fsys_ok (s : fs) (f : file) (i : inode) (rd : inode_disk) : Prop := {
  fo_core : core_ok s f i rd;
  fo_addr : 0 < next_addr s ∧ ∀ a, next_addr s ≤ a → inodes s !! a = None;
  fo_open : ∀ a, a ∈ open_inodes s → ∃ j, inodes s !! a = Some j ∧ isector j ≠ ROOT_DIR_SECTOR ∧
    0 ≤ isector j ∧ bit_at (free_map s) (isector j) = true;
}.

Section whole.
Implicit Types (s t : fs) (f : file) (i : inode) (rd : inode_disk).

Lemma core_step t t' f i rd :
  core_ok t f i rd → fm_ok t' f i → bsize (dev t') = bsize (dev t) →
  sectors (dev t') !! 1%nat = sectors (dev t) !! 1%nat → dir_wf (entries (dev t') rd) →
  (∀ k, fixed_use i rd k → bit_at (free_map t') (Z.of_nat k) = true) → core_ok t' f i rd.
Proof.
  intros [] Hfm Hs H1 Hwf Hu. split; try done; [by rewrite H1|by eapply inode_ok_size].
Qed.

Lemma entries_same b b' d :
  inode_ok b d → ilength d mod ENTRY_SIZE = 0 → (∀ k, in_file d k → sectors b' !! k = sectors b !! k) →
  entries b' d = entries b d.
Proof.
  intros Hio Hm Hk. unfold entries. apply list_fmap_ext. intros j x Hx. apply lookup_seqZ in Hx as [-> Hx].
  unfold entry_at. f_equal. apply same_file_bytes; [done|apply Hio|lia|].
  pose proof (Z.div_mod (ilength d) 20 ltac:(lia)). lia.
Qed.

Lemma find_open_none l s sector :
  (∀ a, a ∈ l → ∃ j, inodes s !! a = Some j ∧ isector j ≠ sector) → find_open l sector s = Ok (None, s).
Proof.
  induction l as [|a l IH]; intros Hl; [done|]. cbn [find_open].
  destruct (Hl a) as (j & Hj & Hne); [set_solver|].
  rewrite (bindS_Ok _ _ _ _ _ (get_inode_ok _ _ _ Hj)), (proj2 (Z.eqb_neq _ _)) by done.
  apply IH. set_solver.
Qed.

(** Opening an inode that no one has open, and the last close. *)
Definition opened t sector d : fs :=
  set_inodes (set_open (set_addr t (next_addr t + 1)) (next_addr t :: open_inodes t))
    (<[next_addr t := Inode sector 1 false 0 d]> (inodes t)).

Lemma inode_open_new t sector c :
  (∀ a, a ∈ open_inodes t → ∃ j, inodes t !! a = Some j ∧ isector j ≠ sector) → mallocs t = [] →
  dev_ok (dev t) → 0 ≤ sector → sectors (dev t) !! Z.to_nat sector = Some c →
  inode_open sector t = Ok (next_addr t, opened t sector (decode_inode c)).
Proof.
  intros Ho Hm Hd H0 Hsec. pose proof (dev_len _ Hd). pose proof (lookup_lt_Some _ _ _ Hsec).
  unfold inode_open, getS. unfold bindS at 1. rewrite (bindS_Ok _ _ _ _ _ (find_open_none _ _ _ Ho)).
  rewrite (bindS_Ok _ _ _ _ _ (malloc_ok t Hm)). cbn [negb]. unfold getS, putS. unfold bindS at 1 2.
  unfold fs_read, block_read, check_sector, bindS, liftS. cbn [dev set_open set_addr].
  rewrite (proj2 (Z.leb_gt _ _)) by lia. rewrite Hsec. done.
Qed.

Lemma inode_close_last t a j :
  a ≠ NULL → inodes t !! a = Some j → open_cnt j = 1 → removed j = false →
  inode_close a t =
    Ok (tt, set_inodes (set_open t (filter (λ x, x ≠ a) (open_inodes t))) (delete a (inodes t))).
Proof.
  intros Hnz Ha Hc Hr. unfold inode_close. rewrite (proj2 (Z.eqb_neq _ _)) by done.
  rewrite (bindS_Ok _ _ _ _ _ (get_inode_ok _ _ _ Ha)), Hc, Hr.
  unfold put_inode, bindS, getS, putS. change (s32 (1 - 1) =? 0) with true. cbn.
  unfold set_open, set_inodes. simpl. by rewrite delete_insert_eq.
Qed.

(** The state with the root directory open at [next_addr s]. *)
Definition with_root s rd : fs := opened s ROOT_DIR_SECTOR rd.

Lemma dir_open_root_ok s f i rd :
  fsys_ok s f i rd → dir_open_root s = Ok (Some (Dir (next_addr s) 0), with_root s rd).
Proof.
  intros [Hc [Ha0 Ha] Ho]. pose proof (co_fm _ _ _ _ Hc) as Hfm. destruct (co_root _ _ _ _ Hc) as (c & Hsec & <-).
  pose proof (fm_mem _ _ _ Hfm) as Hm.
  assert (inode_open ROOT_DIR_SECTOR s = Ok (next_addr s, with_root s (decode_inode c))) as Hio.
  { apply inode_open_new; try done; [|apply Hfm]. intros a (j & Hj & Hne & _)%Ho. by exists j. }
  unfold dir_open_root. rewrite (bindS_Ok _ _ _ _ _ Hio). unfold dir_open.
  rewrite (bindS_Ok _ _ _ _ _ (malloc_ok (with_root s _) Hm)).
  rewrite (proj2 (Z.eqb_neq _ _)) by lia. done.
Qed.

(** The new address is in no list of open inodes. *)
Lemma next_addr_not_open s f i rd :
  fsys_ok s f i rd → filter (λ x, x ≠ next_addr s) (open_inodes s) = open_inodes s.
Proof.
  intros [_ [_ Ha] Ho]. apply filter_all, Forall_forall. intros a' Ha' ->.
  destruct (Ho _ Ha') as (j & Hj & _). rewrite Ha in Hj; [done|lia].
Qed.

(** Closing it undoes that, whatever happened to the disk in between. *)
Lemma dir_close_root_ok s t f i rd :
  fsys_ok s f i rd → inodes t = inodes (with_root s rd) → open_inodes t = open_inodes (with_root s rd) →
  dir_close (Some (Dir (next_addr s) 0)) t = Ok (tt, set_inodes (set_open t (open_inodes s)) (inodes s)).
Proof.
  intros Hok Hi Hop. pose proof Hok as [_ [Ha0 Ha] _]. cbn [dir_close dinode].
  rewrite (inode_close_last t _ (Inode ROOT_DIR_SECTOR 1 false 0 rd)); [|lia| |done|done].
  - rewrite Hi, Hop. unfold with_root, opened. cbn [open_inodes inodes set_inodes set_open set_addr].
    rewrite filter_cons_False, (next_addr_not_open _ _ _ _ Hok) by tauto. rewrite delete_insert_id; [done|]. apply Ha. lia.
  - rewrite Hi. apply lookup_insert_eq.
Qed.

End whole.

(** ** Creating a file *)

Section creating.
Implicit Types (s t : fs) (f : file) (i : inode) (rd : inode_disk).

(** Exactly the sectors in [P] have been marked. *)
Definition marks (b b' : bitmap) (P : Z → Prop) : Prop :=
  ∀ j, 0 ≤ j → bit_at b' j = true ↔ bit_at b j = true ∨ P j.

(** Every sector in use keeps its contents, but for the free map's file and the
    root directory. *)
Definition kept s s' i rd : Prop :=
  ∀ k : nat, bit_at (free_map s) (Z.of_nat k) = true → ¬ in_file (data i) k → ¬ in_file rd k →
    sectors (dev s') !! k = sectors (dev s) !! k.

(** Only the device and the free map have changed. *)
Definition same_memory s s' : Prop :=
  inodes s' = inodes s ∧ open_inodes s' = open_inodes s ∧ next_addr s' = next_addr s ∧
  bsize (dev s') = bsize (dev s).

(** More sectors in use, the ones that were in use unchanged. *)
Lemma core_grow t t' f i rd :
  core_ok t f i rd → fm_ok t' f i → bsize (dev t') = bsize (dev t) →
  (∀ k : nat, bit_at (free_map t) (Z.of_nat k) = true → ¬ in_file (data i) k →
     sectors (dev t') !! k = sectors (dev t) !! k) →
  (∀ j, 0 ≤ j → bit_at (free_map t) j = true → bit_at (free_map t') j = true) →
  core_ok t' f i rd ∧ entries (dev t') rd = entries (dev t) rd ∧ kept t t' i rd.
Proof.
  intros Hc Hfm Hs Hk Hb. pose proof Hc as [_ _ Hio Hlen Hwf Hused Hsep Hone].
  assert (entries (dev t') rd = entries (dev t) rd) as He.
  { apply entries_same; [done|apply Hlen|]. intros k Hin. apply Hk; [|by apply Hsep].
    apply Hused. by do 2 right; left. }
  split_and!; [|done|intros k ???; by apply Hk].
  eapply core_step; try done.
  - apply Hk; [|apply Hone]. apply (Hused 1%nat). by right; left.
  - by rewrite He.
  - intros k Hu. apply Hb; [lia|auto].
Qed.

(** Why a name could not be added. *)
Definition not_added (m : gmap (list Z) Z) (es : list dir_entry) (name : list Z) : Prop :=
  name = [] ∨ (14 < length name)%nat ∨ is_Some (m !! name) ∨ Forall (λ e, in_use e = true) es.

(** The file of [n] sectors from [st] whose inode is in [sec]. *)
Definition file_made s' (sec st size : Z) : Prop :=
  sectors (dev s') !! Z.to_nat sec = Some (encode_inode (InodeDisk st size INODE_MAGIC)) ∧
  ∀ k : nat, st ≤ Z.of_nat k < st + (size + 511) / 512 → sectors (dev s') !! k = Some (replicate 512 0).

(** The sector of the inode and the run of the data are free and disjoint. *)
Definition room b (sec st n : Z) : Prop :=
  fits b sec 1 false ∧ fits b st n false ∧ ¬ (st ≤ sec < st + n).

Lemma alloc_sector_ok t f i rd :
  core_ok t f i rd →
  ∃ o t1, free_map_allocate 1 t = Ok (o, t1) ∧ core_ok t1 f i rd ∧ same_memory t t1 ∧
    bsize (dev t1) = bsize (dev t) ∧ (∀ k, ¬ in_file (data i) k → sectors (dev t1) !! k = sectors (dev t) !! k) ∧
    entries (dev t1) rd = entries (dev t) rd ∧
    match o with
    | None => marks (free_map t) (free_map t1) (λ _, False) ∧ ∀ k, 0 ≤ k → ¬ fits (free_map t) k 1 false
    | Some sec => fits (free_map t) sec 1 false ∧ marks (free_map t) (free_map t1) (λ j, j = sec)
    end.
Proof.
  intros Hc. pose proof Hc as [Hfm _ _ _ _ _ _ _].
  destruct (free_map_allocate_ok t f i 1 Hfm ltac:(lia)) as (o & t1 & Ha & Hfm1 & [E1 E2 E3 E4 E5] & Ho).
  assert (match o with
    | None => marks (free_map t) (free_map t1) (λ _, False) ∧ ∀ k, 0 ≤ k → ¬ fits (free_map t) k 1 false
    | Some sec => fits (free_map t) sec 1 false ∧ marks (free_map t) (free_map t1) (λ j, j = sec)
    end) as Hm.
  { destruct o as [sec|].
    - destruct Ho as (Hfit & _ & Hbits). split; [done|]. intros j Hj. rewrite Hbits by done.
      case_bool_decide; intuition lia.
    - destruct Ho as [-> Hno]. split; [|done]. intros j _. tauto. }
  exists o, t1. destruct (core_grow t t1 f i rd) as (? & ? & ?); try done; [auto|].
  intros j Hj Hb. destruct o; apply Hm; auto.
Qed.

(** A free sector has no fixed use. *)
Lemma free_not_fixed t f i rd sec :
  core_ok t f i rd → fits (free_map t) sec 1 false →
  0 < sec < bsize (dev t) ∧ ¬ fixed_use i rd (Z.to_nat sec) ∧ bit_at (free_map t) sec = false.
Proof.
  intros Hc (Hs0 & Hs1 & Hfree). pose proof Hc as [Hfm _ _ _ _ Hused _ _]. rewrite (fm_cnt _ _ _ Hfm) in Hs1.
  assert (bit_at (free_map t) sec = false) as Hsf by (apply Hfree; lia).
  assert (¬ fixed_use i rd (Z.to_nat sec)) as Hnf.
  { intros Hu. apply Hused in Hu. rewrite Z2Nat.id in Hu by lia. congruence. }
  split_and!; try done; [|lia]. destruct (decide (sec = 0)) as [->|]; [|lia]. exfalso. apply Hnf. by left.
Qed.

Lemma fits_marks b b' sec st n :
  marks b b' (λ j, j = sec) → bit_cnt b' = bit_cnt b →
  fits b' st n false ↔ fits b st n false ∧ ¬ (st ≤ sec < st + n).
Proof.
  intros Hm Hc. unfold fits, all_bits. rewrite Hc. split.
  - intros (H0 & Hle & Hall). split_and!; try done.
    + intros j Hj. specialize (Hall j Hj). destruct (bit_at b j) eqn:E; [|done].
      rewrite (proj2 (Hm j ltac:(lia))) in Hall; auto.
    + intros Hs. specialize (Hall sec Hs). rewrite (proj2 (Hm sec ltac:(lia))) in Hall; [done|by right].
  - intros ((H0 & Hle & Hall) & Hns). split_and!; try done. intros j Hj.
    destruct (bit_at b' j) eqn:E; [|done]. apply Hm in E as [E| ->]; [|done|lia]. by rewrite Hall in E.
Qed.

Lemma make_inode_ok t t1 f i rd sec size :
  core_ok t f i rd → core_ok t1 f i rd → same_memory t t1 → bsize (dev t1) = bsize (dev t) →
  (∀ k, ¬ in_file (data i) k → sectors (dev t1) !! k = sectors (dev t) !! k) →
  fits (free_map t) sec 1 false → marks (free_map t) (free_map t1) (λ j, j = sec) →
  0 ≤ size ≤ INT_MAX - 511 →
  let n := (size + 511) / 512 in
  ∃ o t2, inode_create sec size t1 = Ok (bool_decide (is_Some o), t2) ∧
    core_ok t2 f i rd ∧ same_memory t t2 ∧ entries (dev t2) rd = entries (dev t) rd ∧ kept t t2 i rd ∧
    match o with
    | None => marks (free_map t) (free_map t2) (λ j, j = sec) ∧ ∀ st, ¬ room (free_map t) sec st n
    | Some st => room (free_map t) sec st n ∧
        marks (free_map t) (free_map t2) (λ j, j = sec ∨ st ≤ j < st + n) ∧ file_made t2 sec st size
    end.
Proof.
  intros Hc Hc1 (M1 & M2 & M3 & _) Hsz Hsame Hfit Hm Hsize n.
  destruct (free_not_fixed _ _ _ _ _ Hc Hfit) as (Hsec & Hnf & Hsf).
  destruct (inode_create_ok t1 f i sec size) as (o & t2 & Hcr & Hfm2 & F1 & F2 & F3 & F4 & Ho); try (done || lia).
  { apply Hc1. }
  { intros Hin. apply Hnf. by do 3 right. }
  { apply Hm; auto with lia. }
  { intros k Hk. apply (co_used _ _ _ _ Hc1). by do 3 right. }
  exists o, t2. split; [done|]. fold n in Ho.
  assert (∀ st, fits (free_map t1) st n false ↔ fits (free_map t) st n false ∧ ¬ (st ≤ sec < st + n)) as Hroom.
  { intros st. apply fits_marks; [done|].
    rewrite (fm_cnt _ _ _ (co_fm _ _ _ _ Hc1)), (fm_cnt _ _ _ (co_fm _ _ _ _ Hc)). done. }
  assert (same_memory t t2) as Hmem by (split_and!; congruence).
  destruct o as [st|].
  - destruct Ho as (Hst & Hb & Hino & Hzero & Hk2). fold n in Hst, Hb, Hzero, Hk2. apply Hroom in Hst as [Hst Hns].
    assert (marks (free_map t) (free_map t2) (λ j, j = sec ∨ st ≤ j < st + n)) as Hm2.
    { clear Hcr. intros j Hj. rewrite Hb by done. specialize (Hm j Hj). case_bool_decide; tauto. }
    destruct (core_grow t t2 f i rd) as (? & ? & ?); try done; [congruence| |].
    + intros k Hk Hin. rewrite Hk2; [by apply Hsame|done| |].
      * intros ->. rewrite Z2Nat.id in Hk by lia. congruence.
      * intros Hr. destruct Hst as (_ & _ & Hfr). rewrite Hfr in Hk; done.
    + intros j Hj Hb'. apply Hm2; auto.
  - destruct Ho as (Hb & Hno & Hk2).
    destruct (core_grow t t2 f i rd) as (? & ? & ?); try done; [congruence| | |].
    + intros k Hk Hin. rewrite Hk2, Hsame by done. done.
    + intros j Hj Hb'. rewrite Hb. apply Hm; auto.
    + split_and!; try done; [by rewrite Hb|].
      intros st (_ & Hst & Hns). apply (Hno st); [apply Hst|]. by apply Hroom.
Qed.

(** What creating a file does to the file system. *)
Definition create_outcome s s' rd (name : list Z) (size : Z) (r : bool) : Prop :=
  let n := (size + 511) / 512 in
  let m := dir_map (entries (dev s) rd) in
  if r then
    m !! name = None ∧
    ∃ sec st, room (free_map s) sec st n ∧
      marks (free_map s) (free_map s') (λ j, j = sec ∨ st ≤ j < st + n) ∧
      file_made s' sec st size ∧ dir_map (entries (dev s') rd) = <[name := sec]> m
  else
    entries (dev s') rd = entries (dev s) rd ∧
    ((marks (free_map s) (free_map s') (λ _, False) ∧
      ((∀ k, 0 ≤ k → ¬ fits (free_map s) k 1 false) ∨
       ∃ sec, fits (free_map s) sec 1 false ∧ ∀ st, ¬ room (free_map s) sec st n)) ∨
     (∃ sec st, room (free_map s) sec st n ∧ marks (free_map s) (free_map s') (λ j, st ≤ j < st + n) ∧
      not_added m (entries (dev s) rd) name)).

Lemma core_dir_file t f i rd a j :
  core_ok t f i rd → inodes t !! a = Some j → data j = rd → dir_file t a j.
Proof.
  intros [Hfm _ Hio [Hl _] _ _ _ _] Ha <-. split; try done; apply Hfm.
Qed.

(** Adding the name to the root directory. *)
Lemma add_name_ok t f i rd a j junk name sec :
  core_ok t f i rd → inodes t !! a = Some j → data j = rd → deny_write_cnt j = 0 →
  0 ∉ name → length junk = 20%nat → is_u32 sec →
  let m := dir_map (entries (dev t) rd) in
  ∃ r b', dir_add junk (Dir a 0) name sec t = Ok (r, set_dev t b') ∧ core_ok (set_dev t b') f i rd ∧
    (∀ k, ¬ in_file rd k → sectors b' !! k = sectors (dev t) !! k) ∧
    if r : bool then m !! name = None ∧ dir_map (entries b' rd) = <[name := sec]> m
    else entries b' rd = entries (dev t) rd ∧ not_added m (entries (dev t) rd) name.
Proof.
  intros Hc Ha Hd Hw H0 Hj Hs m. pose proof (core_dir_file _ _ _ _ _ _ Hc Ha Hd) as Hdf.
  pose proof Hc as [Hfm _ _ [Hl Hmax] Hwf Hused Hsep Hone]. destruct (n_entries_len t a j Hdf) as (Hlen & _ & _).
  destruct (dir_add_ok t a j Hdf Hw junk 0 name sec) as (r & b' & Hadd & Hd' & Hsz & Hout & Hwf' & Hcase);
    rewrite ?Hd in *; try (done || lia).
  exists r, b'. split_and!; try done. apply (core_step t); try done.
  - apply fm_ok_frame; try done. intros k Hk. apply Hout. intros Hin. by apply (Hsep k).
  - apply Hout, Hone.
Qed.

(** Giving back the sector of the inode. *)
Lemma release_sector_ok t f i rd sec :
  core_ok t f i rd → 0 ≤ sec < bsize (dev t) → bit_at (free_map t) sec = true →
  ¬ fixed_use i rd (Z.to_nat sec) →
  ∃ t', free_map_release sec 1 t = Ok (tt, t') ∧ core_ok t' f i rd ∧ same_memory t t' ∧
    (∀ j, 0 ≤ j → bit_at (free_map t') j = true ↔ bit_at (free_map t) j = true ∧ j ≠ sec) ∧
    entries (dev t') rd = entries (dev t) rd ∧
    ∀ k, ¬ in_file (data i) k → sectors (dev t') !! k = sectors (dev t) !! k.
Proof.
  intros Hc Hsec Hbit Hnf. pose proof Hc as [Hfm _ Hio [Hl _] Hwf Hused Hsep Hone].
  destruct (free_map_release_ok t f i sec 1) as (t' & Hrel & Hfm' & [E1 E2 E3 E4 E5] & Hb); try (done || lia).
  { intros x Hx. by replace x with sec by lia. }
  assert (entries (dev t') rd = entries (dev t) rd) as He.
  { apply entries_same; try done. intros k Hk. by apply E5, Hsep. }
  assert (∀ j, 0 ≤ j → bit_at (free_map t') j = true ↔ bit_at (free_map t) j = true ∧ j ≠ sec) as Hb'.
  { intros j Hj. rewrite Hb by done. case_bool_decide; intuition (lia || done). }
  exists t'. split_and!; try done. apply (core_step t); try done; [by apply E5, Hone|by rewrite He|].
  intros k Hk. apply Hb'; [lia|]. split; [auto|]. intros E. apply Hnf. by rewrite <-E, Nat2Z.id.
Qed.

Lemma kept_trans s t u i rd :
  kept s t i rd →
  (∀ k : nat, bit_at (free_map s) (Z.of_nat k) = true → ¬ in_file (data i) k → ¬ in_file rd k →
     sectors (dev u) !! k = sectors (dev t) !! k) → kept s u i rd.
Proof. intros Hk Hu k Hb H1 H2. by rewrite Hu, Hk. Qed.

(** A new file survives changes to the root directory. *)
Lemma file_made_frame t t1 t2 f i rd sec st size :
  core_ok t f i rd → room (free_map t) sec st ((size + 511) / 512) → file_made t1 sec st size →
  (∀ k, ¬ in_file rd k → sectors (dev t2) !! k = sectors (dev t1) !! k) → file_made t2 sec st size.
Proof.
  intros Hc (Hsec & Hst & _) [Hi Hz] Hk. destruct (free_not_fixed _ _ _ _ _ Hc Hsec) as (_ & Hnf & _). split.
  - rewrite Hk; [done|]. intros Hin. apply Hnf. by do 2 right; left.
  - intros k Hr. rewrite Hk; [auto|]. intros Hin. destruct Hst as (_ & _ & Hfr).
    pose proof (co_used _ _ _ _ Hc k) as Hu. rewrite Hfr in Hu by done.
    enough (false = true) by done. apply Hu. by do 2 right; left.
Qed.

(** The same after other steps. *)
Lemma cleanup_ok t t1 f i rd sec :
  core_ok t f i rd → core_ok t1 f i rd → same_memory t t1 → kept t t1 i rd →
  fits (free_map t) sec 1 false → bit_at (free_map t1) sec = true →
  ∃ t2, free_map_release sec 1 t1 = Ok (tt, t2) ∧ core_ok t2 f i rd ∧ same_memory t t2 ∧ kept t t2 i rd ∧
    entries (dev t2) rd = entries (dev t1) rd ∧
    ∀ j, 0 ≤ j → bit_at (free_map t2) j = true ↔ bit_at (free_map t1) j = true ∧ j ≠ sec.
Proof.
  intros Hc Hc1 (M1 & M2 & M3 & M4) Hk1 Hfit Hb1.
  destruct (free_not_fixed _ _ _ _ _ Hc Hfit) as (Hsec & Hnf & Hsf).
  destruct (release_sector_ok t1 f i rd sec) as (t2 & Hr & Hc2 & (N1 & N2 & N3 & N4) & Hb2 & He2 & Hk2); try (done || lia).
  exists t2. split_and!; try done; [unfold same_memory; split_and!; congruence|].
  eapply kept_trans; [exact Hk1|auto].
Qed.

(** Allocation, the inode, the directory entry, and the cleanup after a failure. *)
Lemma create_steps_ok t f i rd a j junk name size :
  core_ok t f i rd → inodes t !! a = Some j → data j = rd → deny_write_cnt j = 0 →
  0 ∉ name → length junk = 20%nat → 0 ≤ size ≤ INT_MAX - 511 →
  ∃ r sec t1 t2,
    (o <-- free_map_allocate 1 ;;
     match o with
     | None => retS (false, 0)
     | Some sector =>
         ok <-- inode_create sector size ;;
         if negb ok then retS (false, sector)
         else ok <-- dir_add junk (Dir a 0) name sector ;; retS (ok, sector)
     end) t = Ok ((r, sec), t1) ∧
    (if negb r && negb (sec =? 0) then free_map_release sec 1 else retS tt) t1 = Ok (tt, t2) ∧
    core_ok t2 f i rd ∧ same_memory t t2 ∧ kept t t2 i rd ∧ create_outcome t t2 rd name size r.
Proof.
  intros Hc Ha Hd Hw H0 Hj Hsize. destruct (alloc_sector_ok t f i rd Hc) as (o & t1 & Hal & Hc1 & Hm1 & Hsz1 & Hk1 & He1 & Ho).
  rewrite (bindS_Ok _ _ _ _ _ Hal). destruct o as [sec|].
  2: { exists false, 0, t1, t1. destruct Ho as [Hm Hno]. split_and!; try done.
       - intros k _ Hk _. auto.
       - split; [done|]. left. split; [done|]. by left. }
  destruct Ho as [Hfit Hmark]. destruct (free_not_fixed _ _ _ _ _ Hc Hfit) as (Hsec & Hnf & Hsf).
  destruct (make_inode_ok t t1 f i rd sec size) as (o & t2 & Hcr & Hc2 & Hm2 & He2 & Hkept & Ho); try done.
  rewrite (bindS_Ok _ _ _ _ _ Hcr). clear Hcr.
  destruct o as [st|].
  - destruct Ho as (Hroom & Hmk & Hmade). change (negb (bool_decide (is_Some (Some st)))) with false. cbn [negb].
    destruct Hm2 as (M1 & M2 & M3 & M4).
    destruct (add_name_ok t2 f i rd a j junk name sec) as (r & b' & Hadd & Hc3 & Hk3 & Hcase);
      try (done || congruence).
    { pose proof (dev_size _ (fm_dev _ _ _ (co_fm _ _ _ _ Hc))). unfold is_u32. lia. }
    rewrite He2 in Hcase. rewrite (bindS_Ok _ _ _ _ _ Hadd).
    assert (kept t (set_dev t2 b') i rd) as Hkept3 by (eapply kept_trans; [exact Hkept|auto]).
    assert (same_memory t (set_dev t2 b')) as Hmem3.
    { split_and!; try done. pose proof (fm_cnt _ _ _ (co_fm _ _ _ _ Hc3)) as F3.
      pose proof (fm_cnt _ _ _ (co_fm _ _ _ _ Hc2)). simpl in F3 |- *. congruence. }
    destruct r.
    + destruct Hcase as [Hnew Hmap]. exists true, sec, (set_dev t2 b'), (set_dev t2 b'). split_and!; try done.
      split; [done|]. exists sec, st. split_and!; try done.
      eapply file_made_frame; [exact Hc|exact Hroom|exact Hmade|done].
    + destruct Hcase as [Hes Hwhy].
      destruct (cleanup_ok t (set_dev t2 b') f i rd sec) as (t4 & Hr & Hc4 & Hm4 & Hk4 & He4 & Hb4); try done.
      { apply Hmk; auto with lia. }
      exists false, sec, (set_dev t2 b'), t4. rewrite (proj2 (Z.eqb_neq sec 0)) by lia. split_and!; try done.
      split; [by rewrite He4|]. right. exists sec, st. split_and!; try done.
      intros x Hx. rewrite Hb4 by done. simpl. rewrite (Hmk x Hx). destruct Hroom as (_ & _ & Hns). split; [tauto|].
      intros [?|?]; (split; [tauto|]); intros ->; [congruence|tauto].
  - destruct Ho as [Hmk Hno]. destruct (cleanup_ok t t2 f i rd sec) as (t4 & Hr & Hc4 & Hm4 & Hk4 & He4 & Hb4); try done; [apply Hmk; auto with lia|].
    exists false, sec, t2, t4. rewrite (proj2 (Z.eqb_neq sec 0)) by lia. split_and!; try done.
    split; [congruence|]. left. split; [|right; by exists sec].
    intros x Hx. rewrite Hb4, (Hmk x Hx) by done. intuition congruence.
Qed.

End creating.

Lemma core_ok_memory s s' f i rd :
  core_ok s f i rd → dev s' = dev s → mallocs s' = mallocs s → policy s' = policy s →
  free_map s' = free_map s → free_map_file s' = free_map_file s → inodes s' !! finode f = Some i →
  core_ok s' f i rd.
Proof.
  intros [[] ? ? ? ? ? ? ?] Ed Em Ep Ef Eff Hi. split; rewrite ?Ed, ?Ef; try done.
  split; rewrite ?Ed, ?Em, ?Ep, ?Ef, ?Eff; done.
Qed.

Lemma core_with_root s f i rd : fsys_ok s f i rd → core_ok (with_root s rd) f i rd.
Proof.
  intros [Hc [_ Ha] _]. apply (core_ok_memory s); try done. simpl.
  pose proof (fm_inode _ _ _ (co_fm _ _ _ _ Hc)) as Hi. rewrite lookup_insert_ne; [done|].
  intros E. rewrite <-E, Ha in Hi by lia. done.
Qed.

Lemma outcome_monotone s s' rd name size r j :
  create_outcome s s' rd name size r → 0 ≤ j → bit_at (free_map s) j = true → bit_at (free_map s') j = true.
Proof.
  intros Hout Hj Hb. destruct r.
  - destruct Hout as (_ & sec & st & _ & Hm & _). apply Hm; auto.
  - destruct Hout as (_ & [[Hm _]|(sec & st & _ & Hm & _)]); apply Hm; auto.
Qed.

Lemma filesys_create_ok s f i rd junk name size :
  fsys_ok s f i rd → 0 ∉ name → length junk = 20%nat → 0 ≤ size ≤ INT_MAX - 511 →
  ∃ r s', filesys_create junk name size s = Ok (r, s') ∧ fsys_ok s' f i rd ∧
    inodes s' = inodes s ∧ open_inodes s' = open_inodes s ∧ bsize (dev s') = bsize (dev s) ∧
    kept s s' i rd ∧ create_outcome s s' rd name size r.
Proof.
  intros Hok H0 Hj Hsize. pose proof (core_with_root _ _ _ _ Hok) as Hc.
  unfold filesys_create. rewrite (bindS_Ok _ _ _ _ _ (dir_open_root_ok _ _ _ _ Hok)).
  destruct (create_steps_ok (with_root s rd) f i rd (next_addr s) (Inode ROOT_DIR_SECTOR 1 false 0 rd) junk name size)
    as (r & sec & t1 & t2 & Hsteps & Hclean & Hc2 & (M1 & M2 & M3 & M4) & Hk & Hout); try done.
  { simpl. by rewrite lookup_insert_eq. }
  rewrite (bindS_Ok _ _ _ _ _ Hsteps), (bindS_Ok _ _ _ _ _ Hclean).
  rewrite (bindS_Ok _ _ _ _ _ (dir_close_root_ok s t2 f i rd Hok M1 M2)).
  exists r, (set_inodes (set_open t2 (open_inodes s)) (inodes s)). split_and!; try done.
  destruct Hok as [Hc0 [Ha0 Ha] Ho]. split.
  - apply (core_ok_memory t2); try done. apply (co_fm _ _ _ _ Hc0).
  - simpl. rewrite M3. simpl. split; [lia|]. intros a Hle. apply Ha. lia.
  - simpl. intros a (j & Hj' & Hne & Hs0 & Hb)%Ho. exists j. split_and!; try done.
    eapply outcome_monotone; [exact Hout|done|done].
Qed.

(** [filesys_create] keeps the file system consistent.  When it returns true
    the name was new, it is bound to a sector that was free and now holds the
    inode, the file is a free run of the right number of sectors filled with
    zeros, and just these sectors are marked.  When it returns false the directory
    is as before, and either no sector is marked because there was no room, or the
    name could not be added and the run of the data stays marked.  In each case
    every sector that was in use keeps its contents, but for the free map and the
    root directory themselves. *)
Theorem filesys_create_spec s f i rd junk name size :
  fsys_ok s f i rd → 0 ∉ name → length junk = 20%nat → 0 ≤ size ≤ INT_MAX - 511 →
  ∃ r s', filesys_create junk name size s = Ok (r, s') ∧ fsys_ok s' f i rd ∧
    inodes s' = inodes s ∧ open_inodes s' = open_inodes s ∧ bsize (dev s') = bsize (dev s) ∧
    kept s s' i rd ∧ create_outcome s s' rd name size r.
Proof. apply filesys_create_ok. Qed.

(** ** A small file system *)

(** A freshly formatted device of 40 sectors: the free map file is in sector 2,
    the root directory in sector 3. *)
Definition demo_blank : fs :=
  FS (Block BLOCK_FILESYS 40 (replicate 40 (replicate 512 0))) ∅ [] 1 [] (Bitmap 0 []) None FIRST_FIT statics0.

Definition demo_formatted : fs :=
  match filesys_init (Some (dev demo_blank)) (replicate 2 7) true demo_blank with
  | Ok (_, s) => s
  | _ => demo_blank
  end.

Definition demo_rd : inode_disk := InodeDisk 3 320 INODE_MAGIC.
Definition demo_fm_inode : inode := Inode 0 1 false 0 (InodeDisk 2 8 INODE_MAGIC).

Lemma demo_entries : entries (dev demo_formatted) demo_rd = replicate 16 (DirEntry 0 (replicate 15 0) false).
Proof. by vm_compute. Qed.

Lemma demo_formatted_ok : fsys_ok demo_formatted (File 2 0 false) demo_fm_inode demo_rd.
Proof.
  split.
  - split.
    + split; [by apply dev_okb_ok; vm_compute|by vm_compute|by vm_compute|by apply wf_dec_ok; vm_compute|by vm_compute..|].
      apply holds_map_refl; [by vm_compute|by apply wf_dec_ok; vm_compute].
    + exists (encode_inode demo_rd). split; by vm_compute.
    + split; vm_compute; intuition discriminate.
    + split; vm_compute; [done|discriminate].
    + rewrite demo_entries. split; [|by vm_compute; constructor].
      intros e He Hu. apply elem_of_replicate in He as [-> _]. done.
    + intros k [->|[->|[Hk|Hk]]]; [by vm_compute|by vm_compute| |]; unfold in_file in Hk; simpl in Hk;
        change ((320 + 511) / 512) with 1 in Hk; change ((8 + 511) / 512) with 1 in Hk; [assert (k = 3%nat) as -> by lia|assert (k = 2%nat) as -> by lia]; by vm_compute.
    + intros k. unfold in_file. simpl. change ((320 + 511) / 512) with 1. change ((8 + 511) / 512) with 1. lia.
    + unfold in_file. simpl. lia.
  - change (next_addr demo_formatted) with 3. split; [lia|]. intros a Ha.
    change (inodes demo_formatted) with ({[ 2 := demo_fm_inode ]} : gmap Z inode). apply lookup_singleton_ne. lia.
  - change (open_inodes demo_formatted) with [2]. intros a ->%list_elem_of_singleton. by exists demo_fm_inode.
Qed.

Lemma filesys_create_spec_witness :
  ∃ s', filesys_create (replicate 20 9) [97; 98] 700 demo_formatted = Ok (true, s') ∧
    fsys_ok s' (File 2 0 false) demo_fm_inode demo_rd ∧ create_outcome demo_formatted s' demo_rd [97; 98] 700 true.
Proof.
  destruct (filesys_create_spec demo_formatted (File 2 0 false) demo_fm_inode demo_rd (replicate 20 9) [97; 98] 700)
    as (r & s' & Hc & Hok & _ & _ & _ & _ & Hout).
  - apply demo_formatted_ok.
  - set_solver.
  - done.
  - unfold INT_MAX. lia.
  - assert (r = true) as -> by (revert Hc; vm_compute; by intros [= <- _]).
    exact (ex_intro _ s' (conj Hc (conj Hok Hout))).
Defined.

(** Creating a file whose name is taken fails, as it should, but the sectors
    of its data stay marked as used though no file has them: with room for twice
    the size, a run of that many free sectors is lost by every such call. *)
Theorem filesys_create_leaks s f i rd junk name size k :
  fsys_ok s f i rd → 0 ∉ name → length junk = 20%nat → 0 < size ≤ INT_MAX - 511 →
  is_Some (dir_map (entries (dev s) rd) !! name) →
  fits (free_map s) k (2 * ((size + 511) / 512)) false →
  ∃ s', filesys_create junk name size s = Ok (false, s') ∧ entries (dev s') rd = entries (dev s) rd ∧
    ∃ st, fits (free_map s) st ((size + 511) / 512) false ∧
      marks (free_map s) (free_map s') (λ j, st ≤ j < st + (size + 511) / 512).
Proof.
  intros Hok H0 Hj Hsize [x Hin] (Hk0 & Hkn & Hkf).
  destruct (filesys_create_ok s f i rd junk name size) as (r & s' & Hc & _ & _ & _ & _ & _ & Hout); try (done || lia).
  assert (1 ≤ (size + 511) / 512) as Hn by (apply Z.div_le_lower_bound; lia).
  set (n := (size + 511) / 512) in *. destruct r; simpl in Hout.
  { destruct Hout as [Hno _]. congruence. }
  exists s'. split; [done|]. destruct Hout as [He Hcase]. split; [done|].
  destruct Hcase as [(_ & [Hno|(sec & Hsec & Hno)])|(sec & st & (_ & Hst & _) & Hm & _)].
  - destruct (Hno k Hk0). split_and!; [done|lia|]. intros j Hj'. apply Hkf. lia.
  - fold n in Hno. destruct (decide (k ≤ sec < k + n)).
    + destruct (Hno (k + n)). split_and!; [done| |lia]. split_and!; [lia..|]. intros j Hj'. apply Hkf. lia.
    + destruct (Hno k). split_and!; [done| |done]. split_and!; [lia..|]. intros j Hj'. apply Hkf. lia.
  - by exists st.
Qed.

(** The same call twice: the second one fails and loses two sectors. *)
Lemma filesys_create_leaks_witness :
  ∃ s1 s2, filesys_create (replicate 20 9) [97] 700 demo_formatted = Ok (true, s1) ∧
    filesys_create (replicate 20 9) [97] 700 s1 = Ok (false, s2) ∧
    entries (dev s2) demo_rd = entries (dev s1) demo_rd.
Proof.
  destruct (filesys_create_ok demo_formatted (File 2 0 false) demo_fm_inode demo_rd (replicate 20 9) [97] 700)
    as (r & s1 & Hc & Hok & _ & _ & _ & _ & Hout); [apply demo_formatted_ok|set_solver|done|unfold INT_MAX; lia|].
  assert (r = true) as -> by (revert Hc; vm_compute; by intros [= <- _]).
  destruct (filesys_create_leaks s1 (File 2 0 false) demo_fm_inode demo_rd (replicate 20 9) [97] 700 10)
    as (s2 & Hc2 & He & _).
  - exact Hok.
  - clear. set_solver.
  - reflexivity.
  - clear. unfold INT_MAX. lia.
  - destruct Hout as (_ & sec & st & _ & _ & _ & ->). rewrite lookup_insert_eq. eexists. reflexivity.
  - change ((700 + 511) / 512) with 2. assert (bit_cnt (free_map s1) = 40 ∧
      forallb (λ j, negb (bit_at (free_map s1) j)) [10; 11; 12; 13] = true) as [Hcnt Hf].
    { clear Hok Hout. revert Hc. vm_compute. by intros [= <-]. }
    clear - Hcnt Hf. split_and!; [lia|lia|]. intros j Hj. rewrite forallb_forall in Hf. apply negb_true_iff, Hf. simpl. lia.
  - exact (ex_intro _ s1 (ex_intro _ s2 (conj Hc (conj Hc2 He)))).
Defined.

(** ** A new file, opened and read *)

Lemma zero_file_bytes b st len n :
  0 ≤ st → 0 ≤ n ≤ len →
  (∀ k : nat, st ≤ Z.of_nat k < st + (len + 511) / 512 → sectors b !! k = Some (replicate 512 0)) →
  file_bytes b st 0 n = replicate (Z.to_nat n) 0.
Proof.
  intros Hst Hn Hz. apply list_eq. intros k. destruct (decide (k < Z.to_nat n)%nat) as [Hk|Hk].
  - rewrite file_bytes_lookup, lookup_replicate_2 by lia. f_equal. unfold byte_at.
    set (pos := 0 + Z.of_nat k). pose proof (Z.mod_pos_bound pos 512 ltac:(lia)).
    assert (0 ≤ pos / 512) by (apply Z.div_pos; lia).
    assert (pos / 512 < (len + 511) / 512).
    { apply Z.div_lt_upper_bound; [lia|]. pose proof (Z.div_mod (len + 511) 512 ltac:(lia)).
      pose proof (Z.mod_pos_bound (len + 511) 512 ltac:(lia)). lia. }
    rewrite Hz by lia. change (default 0 (replicate 512 0 !! Z.to_nat (pos mod 512)) = 0).
    rewrite lookup_replicate_2 by lia. done.
  - rewrite !(proj2 (lookup_ge_None _ _)); [done|rewrite length_replicate; lia|rewrite file_bytes_length; lia].
Qed.

(** The file of a name, opened. *)
Lemma filesys_open_ok s f i rd junk name sec c :
  fsys_ok s f i rd → 0 ∉ name → length junk = 20%nat →
  dir_map (entries (dev s) rd) !! name = Some sec → 0 ≤ sec → sec ≠ ROOT_DIR_SECTOR →
  sectors (dev s) !! Z.to_nat sec = Some c →
  (∀ a j, a ∈ open_inodes s → inodes s !! a = Some j → isector j ≠ sec) →
  ∃ s', filesys_open junk name s = Ok (Some (File (next_addr s + 1) 0 false), s') ∧
    dev s' = dev s ∧ mallocs s' = [] ∧
    inodes s' = <[next_addr s + 1 := Inode sec 1 false 0 (decode_inode c)]> (inodes s) ∧
    open_inodes s' = (next_addr s + 1) :: open_inodes s.
Proof.
  intros Hok H0 Hj Hmap Hs0 Hs1 Hsec Hno. pose proof Hok as [_ [Ha0 Ha] Ho].
  pose proof (core_with_root _ _ _ _ Hok) as Hc. pose proof (co_fm _ _ _ _ Hc) as Hfm.
  set (t := with_root s rd) in *. set (root := Inode ROOT_DIR_SECTOR 1 false 0 rd).
  assert (inodes t !! next_addr s = Some root) as Hroot by apply lookup_insert_eq.
  pose proof (core_dir_file _ _ _ _ _ _ Hc Hroot eq_refl) as Hdf. destruct (n_entries_len t _ _ Hdf) as (Hlen & _ & _).
  unfold filesys_open. rewrite (bindS_Ok _ _ _ _ _ (dir_open_root_ok _ _ _ _ Hok)). fold t.
  assert (lookup junk (Dir (next_addr s) 0) name t = Ok (find_name name (entries (dev t) rd) 0, t)) as Hlk.
  { apply (lookup_ok t (next_addr s) root); try done; [apply Hc|]. pose proof (co_len _ _ _ _ Hc). simpl in *. lia. }
  change (dev s) with (dev t) in Hmap. rewrite <-(find_name_map name _ 0) in Hmap.
  apply fmap_Some in Hmap as ([e ofs] & Hf & ->). simpl in Hs0, Hs1, Hsec, Hno |- *.
  assert (dir_lookup junk (Dir (next_addr s) 0) name t =
    Ok (next_addr s + 1, opened t (inode_sector e) (decode_inode c))) as Hdl.
  { unfold dir_lookup. rewrite (bindS_Ok _ _ _ _ _ Hlk), Hf. apply inode_open_new; try done; try apply Hfm.
    intros a [->|Hin]%elem_of_cons; [by exists root|]. destruct (Ho a Hin) as (j & Hj' & _). exists j.
    split; [|by eapply Hno]. simpl. rewrite lookup_insert_ne; [done|]. intros <-. rewrite Ha in Hj' by lia. done. }
  rewrite (bindS_Ok _ _ _ _ _ Hdl). assert (next_addr s ≠ NULL) as Hnz by lia.
  assert (inodes (opened t (inode_sector e) (decode_inode c)) !! next_addr s = Some root) as Hr2
    by (simpl; by rewrite lookup_insert_ne by lia).
  rewrite (bindS_Ok _ _ _ _ _ (inode_close_last _ _ root Hnz Hr2 eq_refl eq_refl)).
  unfold file_open. erewrite bindS_Ok by (apply malloc_ok; exact (fm_mem _ _ _ Hfm)).
  rewrite (proj2 (Z.eqb_neq _ _)) by lia. eexists. split; [done|]. split_and!; try done; [apply Hfm| |].
  - simpl. rewrite delete_insert_ne by lia. f_equal. apply delete_insert_id. apply Ha. lia.
  - simpl. rewrite filter_cons_True by lia. rewrite filter_cons_False by tauto. f_equal. by eapply next_addr_not_open.
Qed.

(** A file that has just been created can be opened under its name: it starts
    at position 0, has the length it was created with, and reads as zeros up to
    that length and not beyond. *)
Theorem created_file_reads_zeros s f i rd junk junk' name size s1 :
  fsys_ok s f i rd → 0 ∉ name → length junk = 20%nat → length junk' = 20%nat → 0 ≤ size ≤ INT_MAX - 511 →
  filesys_create junk name size s = Ok (true, s1) →
  ∃ fl s2, filesys_open junk' name s1 = Ok (Some fl, s2) ∧ fpos fl = 0 ∧ file_length fl s2 = Ok (size, s2) ∧
    ∀ buf n, 0 ≤ n ≤ INT_MAX → n ≤ Z.of_nat (length buf) →
      file_read fl buf n s2 =
        Ok ((Z.min n size, overwrite buf 0 (replicate (Z.to_nat (Z.min n size)) 0),
             File (finode fl) (Z.min n size) false), s2).
Proof.
  intros Hok H0 Hj Hj' Hsize Hcr.
  destruct (filesys_create_ok s f i rd junk name size) as (r & s' & Hcr' & Hok1 & Ei & Eo & Es & _ & Hout); try done.
  rewrite Hcr in Hcr'. injection Hcr' as <- <-. clear Hcr.
  destruct Hout as (_ & sec & st & (Hsec & Hst & _) & _ & [Hino Hzero] & Hmap).
  destruct (free_not_fixed _ _ _ _ _ (fo_core _ _ _ _ Hok) Hsec) as (Hs0 & Hnf & Hfree).
  pose proof (co_fm _ _ _ _ (fo_core _ _ _ _ Hok)) as Hfm. pose proof (co_fm _ _ _ _ (fo_core _ _ _ _ Hok1)) as Hfm1.
  destruct (filesys_open_ok s1 f i rd junk' name sec (encode_inode (InodeDisk st size INODE_MAGIC)))
    as (s2 & Hopen & Ed & Em & Ein & _); try done; [by rewrite Hmap, lookup_insert_eq|lia| | |].
  { intros ->. apply Hnf. by right; left. }
  { rewrite Ei, Eo. intros a j Ha Hja <-. destruct (fo_open _ _ _ _ Hok a Ha) as (j' & ? & _ & _ & Hb). congruence. }
  destruct Hst as (Hst0 & Hstn & _). rewrite (fm_cnt _ _ _ Hfm) in Hstn. pose proof (dev_size _ (fm_dev _ _ _ Hfm)).
  assert (0 ≤ (size + 511) / 512) by (apply Z.div_pos; lia).
  rewrite decode_encode_inode in Ein; [|unfold is_u32, is_s32, INT_MAX, INODE_MAGIC in *; simpl; lia..].
  set (d := InodeDisk st size INODE_MAGIC) in *.
  assert (inodes s2 !! (next_addr s1 + 1) = Some (Inode sec 1 false 0 d)) as Hi by (rewrite Ein; apply lookup_insert_eq).
  eexists _, s2. split; [done|]. split; [done|].
  split; [unfold file_length; simpl; by rewrite (bindS_Ok _ _ _ _ _ (get_inode_ok _ _ _ Hi))|].
  intros buf n Hn Hlen. unfold file_read. cbn [finode fpos deny_write].
  assert (Z.max 0 (Z.min n (size - 0)) = Z.min n size) as Hmin by lia.
  pose proof (inode_read_at_ok s2 _ _ buf n 0 Hi) as Hrd. simpl in Hrd. rewrite Hmin, Ed, zero_file_bytes with (len := size) in Hrd; try (done || lia).
  rewrite (bindS_Ok _ _ _ _ _ (Hrd ltac:(apply Hfm1) ltac:(split; simpl; unfold INT_MAX in *; lia) Em ltac:(unfold INT_MAX; lia) ltac:(done) ltac:(done))).
  rewrite s32_small by (unfold is_s32, INT_MAX in *; lia). done.
Qed.

Lemma created_file_reads_zeros_witness :
  ∃ s1 fl s2, filesys_create (replicate 20 9) [97] 700 demo_formatted = Ok (true, s1) ∧
    filesys_open (replicate 20 5) [97] s1 = Ok (Some fl, s2) ∧ file_length fl s2 = Ok (700, s2).
Proof.
  assert (∃ s1, filesys_create (replicate 20 9) [97] 700 demo_formatted = Ok (true, s1)) as [s1 Hc]
    by (vm_compute; eexists; reflexivity).
  destruct (created_file_reads_zeros demo_formatted (File 2 0 false) demo_fm_inode demo_rd (replicate 20 9)
    (replicate 20 5) [97] 700 s1) as (fl & s2 & Hopen & _ & Hlen & _).
  - apply demo_formatted_ok.
  - clear. set_solver.
  - reflexivity.
  - reflexivity.
  - clear. unfold INT_MAX. lia.
  - exact Hc.
  - exact (ex_intro _ s1 (ex_intro _ fl (ex_intro _ s2 (conj Hc (conj Hopen Hlen))))).
Defined.
