(* ===== verification/Arithmetic.v ===== *)
(** 64-bit division on a 32-bit machine (src/lib/arithmetic.c).

    [divl] is the division instruction, which divides 64 bits by 32 and traps when
    the quotient does not fit in 32 bits.  The routines built on it are shown to be
    division: the quotient is estimated from the top bits of the divisor and is off
    by at most one. *)

From S2P Require Import Prelude.

(** ** The routines *)

Definition divl (n d : Z) : res Z :=
  if d =? 0 then Fault DivideError
  else if WORD <=? n / d then Fault DivideError
  else Ok (n / d).

(** One of the five steps of [nlz]: [k] bits when [x] is at most [limit]. *)
Definition nlz_step (limit k : Z) (nx : Z * Z) : Z * Z :=
  let '(n, x) := nx in
  if x <=? limit then (n + k, u32 (Z.shiftl x k)) else (n, x).

Definition nlz (x : Z) : Z :=
  let '(n, x) :=
    nlz_step 0x3FFFFFFF 2 (nlz_step 0x0FFFFFFF 4 (nlz_step 0x00FFFFFF 8 (nlz_step 0x0000FFFF 16 (0, x)))) in
  if x <=? 0x7FFFFFFF then n + 1 else n.

Definition udiv64 (n d : Z) : res Z :=
  if Z.shiftr d 32 =? 0 then
    let b := u64 (Z.shiftl 1 32) in
    let n1 := u32 (Z.shiftr n 32) in
    let n0 := u32 n in
    let d0 := u32 d in
    if d0 =? 0 then Fault DivideError
    else
      q ← divl (u64 (u64 (b * (n1 mod d0)) + n0)) d0;
      Ok (u64 (q + u64 (b * (n1 / d0))))
  else if n <? d then Ok 0
  else
    let d1 := u32 (Z.shiftr d 32) in
    let s := nlz d1 in
    q ← divl (Z.shiftr n 1) (u32 (Z.shiftr (u64 (Z.shiftl d s)) 32));
    let q := Z.shiftr q (31 - s) in
    Ok (if u64 (n - u64 (u64 (q - 1) * d)) <? d then u64 (q - 1) else q).

(** The return type of [umod64] is [uint32_t], and that of [smod64] [int32_t]. *)
Definition umod64 (n d : Z) : res Z :=
  q ← udiv64 n d;
  Ok (u32 (u64 (n - u64 (d * q)))).

Definition sdiv64 (n d : Z) : res Z :=
  let n_abs := if 0 <=? n then n else u64 (- u64 n) in
  let d_abs := if 0 <=? d then d else u64 (- u64 d) in
  q_abs ← udiv64 n_abs d_abs;
  Ok (if Bool.eqb (n <? 0) (d <? 0) then s64 q_abs else s64 (- s64 q_abs)).

Definition smod64 (n d : Z) : res Z :=
  q ← sdiv64 n d;
  Ok (s32 (s64 (n - s64 (d * q)))).

Definition __divdi3 (n d : Z) : res Z := sdiv64 n d.
Definition __moddi3 (n d : Z) : res Z := smod64 n d.
Definition __udivdi3 (n d : Z) : res Z := udiv64 n d.
Definition __umoddi3 (n d : Z) : res Z := umod64 n d.

(** ** Leading zeros *)

Section nlz.

Lemma nlz_step_ok limit k x0 n x :
  0 ≤ n → 0 < k ≤ 16 → limit = 2 ^ (32 - k) - 1 → x = x0 * 2 ^ n → 2 ^ (32 - 2 * k) ≤ x < WORD →
  ∃ n', nlz_step limit k (n, x) = (n', x0 * 2 ^ n') ∧ n ≤ n' ≤ n + k ∧ 2 ^ (32 - k) ≤ x0 * 2 ^ n' < WORD.
Proof.
  intros Hn Hk -> -> Hx. unfold nlz_step. destruct (Z.leb_spec (x0 * 2 ^ n) (2 ^ (32 - k) - 1)) as [Hle|Hgt].
  - exists (n + k). rewrite Z.shiftl_mul_pow2, Z.pow_add_r, Z.mul_assoc by lia.
    assert (2 ^ (32 - k) * 2 ^ k = WORD) as E by (rewrite <-Z.pow_add_r by lia; by replace (32 - k + k) with 32 by lia).
    assert (2 ^ (32 - 2 * k) * 2 ^ k = 2 ^ (32 - k)) as E2
      by (rewrite <-Z.pow_add_r by lia; by replace (32 - 2 * k + k) with (32 - k) by lia).
    assert (0 < 2 ^ k) by (apply Z.pow_pos_nonneg; lia).
    assert (2 ^ (32 - k) ≤ x0 * 2 ^ n * 2 ^ k < WORD) by nia.
    rewrite u32_small by (unfold is_u32; pose proof (Z.pow_nonneg 2 (32 - k)); lia).
    split_and!; [done|lia..].
  - exists n. split_and!; [done|lia..].
Qed.

(** [nlz] gives the shift that brings the top bit of [x] to bit 31. *)
Lemma nlz_ok x : 1 ≤ x < WORD → 0 ≤ nlz x ≤ 31 ∧ 2 ^ 31 ≤ x * 2 ^ nlz x < 2 ^ 32.
Proof.
  intros Hx. unfold nlz.
  destruct (nlz_step_ok 0x0000FFFF 16 x 0 x) as (n1 & -> & ? & ?); [lia|lia|done|lia|simpl; lia|].
  destruct (nlz_step_ok 0x00FFFFFF 8 x n1 (x * 2 ^ n1)) as (n2 & -> & ? & ?); [lia|lia|done|done|done|].
  destruct (nlz_step_ok 0x0FFFFFFF 4 x n2 (x * 2 ^ n2)) as (n3 & -> & ? & ?); [lia|lia|done|done|done|].
  destruct (nlz_step_ok 0x3FFFFFFF 2 x n3 (x * 2 ^ n3)) as (n4 & -> & ? & Hx4); [lia|lia|done|done|done|].
  change (2 ^ (32 - 2)) with 1073741824 in Hx4.
  destruct (Z.leb_spec (x * 2 ^ n4) 0x7FFFFFFF).
  - rewrite Z.pow_add_r by lia. change (2 ^ 1) with 2. lia.
  - change (2 ^ 31) with 2147483648. change (2 ^ 32) with WORD.
    lia.
Qed.

End nlz.

(** ** Division *)

Section division.
Implicit Types n d q s : Z.

(** Dividing by [E], which is [d] with its low bits cleared, is off by at most
    one. *)
Lemma off_by_one n d E s :
  0 ≤ n < DWORD → 0 ≤ s ≤ 31 → 2 ^ (63 - s) ≤ E ≤ d → d ≤ n → d - E ≤ 2 ^ (32 - s) - 1 →
  n / d ≤ n / E ≤ n / d + 1.
Proof.
  intros Hn Hs HE Hdn Hlow. assert (0 < 2 ^ (63 - s)) as Hp by (apply Z.pow_pos_nonneg; lia).
  split; [apply Z.div_le_compat_l; lia|].
  enough (n / E - 1 ≤ n / d) by lia. apply Z.div_le_lower_bound; [lia|].
  pose proof (Z.div_mod n E ltac:(lia)). pose proof (Z.mod_pos_bound n E ltac:(lia)).
  set (P := n / E) in *. assert (0 ≤ P) by (apply Z.div_pos; lia). clearbody P.
  enough (P * (d - E) ≤ d) by nia.
  assert (2 ^ (s + 1) * 2 ^ (63 - s) = DWORD) as E1 by (rewrite <-Z.pow_add_r by lia; by replace (s + 1 + (63 - s)) with 64 by lia).
  assert (P < 2 ^ (s + 1)) as HP by nia.
  destruct (decide (s = 31)) as [->|].
  - change (2 ^ (32 - 31) - 1) with 1 in Hlow. change (2 ^ (31 + 1)) with WORD in HP.
    change (2 ^ (63 - 31)) with WORD in HE. nia.
  - assert (2 ^ (s + 1) * 2 ^ (32 - s) = 2 ^ 33) as E2 by (rewrite <-Z.pow_add_r by lia; f_equal; lia).
    assert (2 ^ 33 ≤ 2 ^ (63 - s)) by (apply Z.pow_le_mono_r; lia).
    assert (0 < 2 ^ (s + 1)) by (apply Z.pow_pos_nonneg; lia). nia.
Qed.

(** The arithmetic of the estimate.  [D] holds the top 32 bits of the divisor, so
    that [E] is the divisor with its low bits cleared. *)
Lemma estimate_ok n d s :
  0 ≤ n < DWORD → 0 ≤ s ≤ 31 → 2 ^ (63 - s) ≤ d < 2 ^ (64 - s) → d ≤ n →
  let D := d * 2 ^ s / WORD in
  let q := n / 2 / D / 2 ^ (31 - s) in
  2 ^ 31 ≤ D < WORD ∧ n / 2 / D < WORD ∧ n / d ≤ q ≤ n / d + 1 ∧ 1 ≤ n / d.
Proof.
  intros Hn Hs Hd Hdn D q.
  assert (2 ^ (63 - s) * 2 ^ s = 2 ^ 63) as E1 by (rewrite <-Z.pow_add_r by lia; f_equal; lia).
  assert (2 ^ (64 - s) * 2 ^ s = 2 ^ 64) as E2 by (rewrite <-Z.pow_add_r by lia; f_equal; lia).
  assert (0 < 2 ^ s) as Hp by (apply Z.pow_pos_nonneg; lia).
  assert (2 ^ 31 ≤ D < WORD) as HD.
  { unfold D. split; [apply Z.div_le_lower_bound; [lia|]|apply Z.div_lt_upper_bound; [lia|]].
    - change (WORD * 2 ^ 31) with (2 ^ 63). nia.
    - change (WORD * WORD) with (2 ^ 64). nia. }
  change (2 ^ 31) with 2147483648 in HD. split; [done|].
  assert (n / 2 / D < WORD).
  { apply Z.div_lt_upper_bound; [lia|]. apply Z.div_lt_upper_bound; [lia|]. nia. }
  split; [done|].
  set (E := D * 2 ^ (32 - s)).
  assert (2 ^ (32 - s) * 2 ^ s = WORD) as E3 by (rewrite <-Z.pow_add_r by lia; by replace (32 - s + s) with 32 by lia).
  assert (0 < 2 ^ (32 - s)) as Hp2 by (apply Z.pow_pos_nonneg; lia).
  assert (q = n / E) as Hq.
  { unfold q, E. assert (0 < 2 ^ (31 - s)) by (apply Z.pow_pos_nonneg; lia).
    rewrite !Z.div_div by lia. f_equal.
    replace (32 - s) with (1 + (31 - s)) by lia. rewrite Z.pow_add_r by lia. lia. }
  assert (D * WORD ≤ d * 2 ^ s < (D + 1) * WORD) as HDd.
  { unfold D. pose proof (Z.div_mod (d * 2 ^ s) WORD ltac:(lia)). pose proof (Z.mod_pos_bound (d * 2 ^ s) WORD ltac:(lia)). lia. }
  assert (E ≤ d ∧ d - E ≤ 2 ^ (32 - s) - 1) as [HE1 HE2] by (unfold E; nia).
  assert (2 ^ (63 - s) ≤ E) as HE3.
  { unfold E. assert (2 ^ 31 * 2 ^ (32 - s) = 2 ^ (63 - s)) as <- by (rewrite <-Z.pow_add_r by lia; f_equal; lia).
    change (2 ^ 31) with 2147483648. nia. }
  rewrite Hq. split; [by apply (off_by_one n d E s)|]. apply Z.div_le_lower_bound; [|lia].
  assert (0 < 2 ^ (63 - s)) by (apply Z.pow_pos_nonneg; lia). lia.
Qed.

Lemma divl_ok n d : 0 < d → n / d < WORD → divl n d = Ok (n / d).
Proof.
  intros Hd Hq. unfold divl. rewrite (proj2 (Z.eqb_neq d 0)), (proj2 (Z.leb_gt _ _)) by lia. done.
Qed.

(** A divisor of 32 bits: two divisions. *)
Lemma udiv64_small n d : is_u64 n → 0 < d < WORD → udiv64 n d = Ok (n / d).
Proof.
  intros Hn Hd. unfold udiv64, is_u64 in *. rewrite !Z.shiftr_div_pow2 by lia. change (2 ^ 32) with WORD.
  rewrite (Z.div_small d WORD) by lia. cbn [Z.eqb]. change (u64 (Z.shiftl 1 32)) with WORD.
  assert (0 ≤ n / WORD < WORD) as Hn1 by (split; [apply Z.div_pos; lia|apply Z.div_lt_upper_bound; lia]).
  rewrite (u32_small d), (u32_small (n / WORD)) by (unfold is_u32; lia). unfold u32.
  rewrite (proj2 (Z.eqb_neq d 0)) by lia.
  set (n1 := n / WORD) in *. set (n0 := n mod WORD).
  assert (0 ≤ n0 < WORD) as Hn0 by (apply Z.mod_pos_bound; lia).
  assert (n = WORD * n1 + n0) as E by (apply Z.div_mod; lia). clearbody n0 n1.
  pose proof (Z.div_mod n1 d ltac:(lia)) as E1. pose proof (Z.mod_pos_bound n1 d ltac:(lia)) as Hr.
  assert (0 ≤ n1 / d) as Hq1 by (apply Z.div_pos; lia).
  set (x := n1 / d) in *. set (r := n1 mod d) in *. clearbody x r.
  assert (n / d = WORD * x + (WORD * r + n0) / d) as Hdiv.
  { replace n with (WORD * r + n0 + WORD * x * d) by nia. rewrite Z.div_add by lia. lia. }
  assert ((WORD * r + n0) / d < WORD) by (apply Z.div_lt_upper_bound; nia).
  assert (0 ≤ (WORD * r + n0) / d) by (apply Z.div_pos; lia).
  rewrite (u64_small (WORD * r)), (u64_small (WORD * r + n0)) by (unfold is_u64; nia).
  rewrite divl_ok by lia. mstep. rewrite Hdiv. f_equal.
  assert (WORD * x < DWORD) by nia. rewrite (u64_small (WORD * x)) by (unfold is_u64; lia).
  rewrite u64_small; [lia|]. unfold is_u64. nia.
Qed.

(** The divisor shifted until its top bit is bit 63. *)
Lemma nlz_divisor d :
  WORD ≤ d < DWORD → let s := nlz (u32 (Z.shiftr d 32)) in 0 ≤ s ≤ 31 ∧ 2 ^ (63 - s) ≤ d < 2 ^ (64 - s).
Proof.
  intros Hd. cbv zeta. rewrite Z.shiftr_div_pow2 by lia. change (2 ^ 32) with WORD.
  assert (1 ≤ d / WORD < WORD) as Hd1 by (split; [apply Z.div_le_lower_bound; lia|apply Z.div_lt_upper_bound; lia]).
  rewrite u32_small by (unfold is_u32; lia).
  destruct (nlz_ok (d / WORD) Hd1) as [Hs Hn]. set (s := nlz (d / WORD)) in *. clearbody s. split; [done|].
  pose proof (Z.div_mod d WORD ltac:(lia)). pose proof (Z.mod_pos_bound d WORD ltac:(lia)).
  set (d1 := d / WORD) in *. clearbody d1.
  assert (0 < 2 ^ s) by (apply Z.pow_pos_nonneg; lia).
  assert (2 ^ (63 - s) * 2 ^ s = WORD * 2 ^ 31) as E1
    by (rewrite <-Z.pow_add_r by lia; replace (63 - s + s) with 63 by lia; done).
  assert (2 ^ (64 - s) * 2 ^ s = WORD * 2 ^ 32) as E2
    by (rewrite <-Z.pow_add_r by lia; replace (64 - s + s) with 64 by lia; done).
  assert (2 ^ (32 - s) * 2 ^ s = 2 ^ 32) as E3 by (rewrite <-Z.pow_add_r by lia; replace (32 - s + s) with 32 by lia; done).
  assert (d1 + 1 ≤ 2 ^ (32 - s)) by nia.
  assert (WORD * 2 ^ (32 - s) = 2 ^ (64 - s)) as E4
    by (change WORD with (2 ^ 32); rewrite <-Z.pow_add_r by lia; f_equal; lia).
  split; nia.
Qed.

Lemma udiv64_large n d : is_u64 n → WORD ≤ d < DWORD → udiv64 n d = Ok (n / d).
Proof.
  intros Hn Hd. unfold udiv64, is_u64 in *. destruct (nlz_divisor d Hd) as [Hs Hds].
  set (s := nlz _) in *. clearbody s. rewrite !Z.shiftr_div_pow2 by lia. change (2 ^ 32) with WORD.
  assert (1 ≤ d / WORD) by (apply Z.div_le_lower_bound; lia).
  rewrite (proj2 (Z.eqb_neq (d / WORD) 0)) by lia. destruct (Z.ltb_spec n d) as [Hlt|Hge].
  { by rewrite Z.div_small by lia. }
  destruct (estimate_ok n d s) as (HD & Hq1 & Hq & HQ); try done.
  assert (d * 2 ^ s < DWORD) as Hds2.
  { assert (2 ^ (64 - s) * 2 ^ s = DWORD) as <-
      by (rewrite <-Z.pow_add_r by lia; by replace (64 - s + s) with 64 by lia).
    assert (0 < 2 ^ s) by (apply Z.pow_pos_nonneg; lia). nia. }
  rewrite Z.shiftl_mul_pow2 by lia. rewrite (u64_small (d * 2 ^ s)).
  2: { assert (0 < 2 ^ s) by (apply Z.pow_pos_nonneg; lia). unfold is_u64. nia. }
  change (2 ^ 1) with 2. set (D := d * 2 ^ s / WORD) in *. change (2 ^ 31) with 2147483648 in HD.
  rewrite (u32_small D), divl_ok by (unfold is_u32; lia). mstep.
  rewrite Z.shiftr_div_pow2 by lia. set (q := n / 2 / D / 2 ^ (31 - s)) in *. clearbody q. clear D HD Hq1.
  pose proof (Z.div_mod n d ltac:(lia)). pose proof (Z.mod_pos_bound n d ltac:(lia)).
  set (Q := n / d) in *. clearbody Q. rewrite (u64_small (q - 1)) by (unfold is_u64; nia).
  rewrite (u64_small ((q - 1) * d)) by (unfold is_u64; nia). rewrite u64_small by (unfold is_u64; nia).
  f_equal. destruct (Z.ltb_spec (n - (q - 1) * d) d); nia.
Qed.

Lemma udiv64_ok n d : is_u64 n → is_u64 d → d ≠ 0 → udiv64 n d = Ok (n / d).
Proof.
  intros Hn Hd H0. unfold is_u64 in Hd. destruct (decide (d < WORD)); [apply udiv64_small|apply udiv64_large]; done || lia.
Qed.

Lemma abs_u64 x : is_s64 x → (if 0 <=? x then x else u64 (- u64 x)) = Z.abs x.
Proof.
  unfold is_s64. intros Hx. destruct (Z.leb_spec 0 x); [lia|]. unfold u64.
  rewrite <-(Z.mod_small (Z.abs x) DWORD) by lia. rewrite Z.abs_neq by lia.
  rewrite <-(Z.sub_0_l (x mod _)), Zminus_mod_idemp_r. f_equal.
Qed.

(** [s64] changes its argument by a multiple of 2^64 and does not see one. *)
Lemma s64_multiple x : ∃ k, s64 x = x + k * DWORD.
Proof.
  exists (- ((x + 9223372036854775808) / DWORD)). unfold s64.
  pose proof (Z.div_mod (x + 9223372036854775808) DWORD ltac:(lia)). lia.
Qed.

Lemma s64_add x k : s64 (x + k * DWORD) = s64 x.
Proof.
  unfold s64. replace (x + k * DWORD + 9223372036854775808) with (x + 9223372036854775808 + k * DWORD) by lia.
  by rewrite Z_mod_plus_full.
Qed.

Lemma s64_opp_s64 x : s64 (- s64 x) = s64 (- x).
Proof. destruct (s64_multiple x) as [k ->]. replace (- _) with (- x + - k * DWORD) by lia. apply s64_add. Qed.

Lemma sdiv64_ok n d : is_s64 n → is_s64 d → d ≠ 0 → sdiv64 n d = Ok (s64 (Z.quot n d)).
Proof.
  intros Hn Hd H0. unfold sdiv64. rewrite !abs_u64 by done.
  rewrite udiv64_ok by (unfold is_u64, is_s64 in *; lia). mstep. f_equal.
  assert (Z.abs n / Z.abs d = Z.quot (Z.abs n) (Z.abs d)) as -> by (rewrite Z.quot_div_nonneg; lia).
  rewrite s64_opp_s64. destruct (Z.ltb_spec n 0), (Z.ltb_spec d 0); cbn [Bool.eqb]; f_equal.
  - rewrite !Z.abs_neq by lia. by rewrite Z.quot_opp_opp by lia.
  - rewrite (Z.abs_neq n), (Z.abs_eq d) by lia. rewrite Z.quot_opp_l by lia. lia.
  - rewrite (Z.abs_eq n), (Z.abs_neq d) by lia. rewrite Z.quot_opp_r by lia. lia.
  - rewrite !Z.abs_eq by lia. done.
Qed.

Lemma umod64_ok n d : is_u64 n → is_u64 d → d ≠ 0 → umod64 n d = Ok (u32 (n mod d)).
Proof.
  unfold is_u64. intros Hn Hd H0. unfold umod64. rewrite udiv64_ok by done. mstep.
  pose proof (Z.div_mod n d H0). pose proof (Z.mod_pos_bound n d ltac:(lia)).
  assert (0 ≤ n / d) by (apply Z.div_pos; lia).
  rewrite (u64_small (d * (n / d))), u64_small by (unfold is_u64; nia). do 2 f_equal. lia.
Qed.

Lemma smod64_ok n d : is_s64 n → is_s64 d → d ≠ 0 → smod64 n d = Ok (s32 (Z.rem n d)).
Proof.
  intros Hn Hd H0. unfold smod64. rewrite sdiv64_ok by done. mstep. do 2 f_equal.
  destruct (s64_multiple (Z.quot n d)) as [k ->]. destruct (s64_multiple (d * (Z.quot n d + k * DWORD))) as [k' ->].
  replace (n - _) with (n - d * Z.quot n d + (- k' - d * k) * DWORD) by lia. rewrite s64_add.
  pose proof (Z.quot_rem' n d). pose proof (Z.rem_bound_abs n d H0). unfold is_s64 in *.
  rewrite s64_small; [lia|]. unfold is_s64. lia.
Qed.

End division.

(** C35. The 64-bit division routines are division: for every dividend and every
    divisor but zero none of the division instructions traps, the unsigned quotient
    is the integer part of the quotient, and the signed one is the quotient rounded
    towards zero, wrapped around in the one case (the least dividend by -1) where it
    does not fit. *)
Theorem div64_correct n d :
  d ≠ 0 →
  (is_u64 n → is_u64 d → __udivdi3 n d = Ok (n / d)) ∧
  (is_s64 n → is_s64 d → __divdi3 n d = Ok (s64 (Z.quot n d))).
Proof.
  intros H0. split; [intros; by apply udiv64_ok|].
  intros Hn Hd. apply sdiv64_ok; done.
Qed.

Lemma div64_correct_witness :
  __udivdi3 18446744073709551615 4294967297 = Ok 4294967295 ∧
  __divdi3 (-9223372036854775808) (-1) = Ok (-9223372036854775808).
Proof.
  split.
  - apply (proj1 (div64_correct 18446744073709551615 4294967297 ltac:(lia))); unfold is_u64, is_s64; lia.
  - apply (proj2 (div64_correct (-9223372036854775808) (-1) ltac:(lia))); unfold is_u64, is_s64; lia.
Defined.

(** The remainder routines return only the low 32 bits of the remainder, as an
    unsigned or a signed number: the result is right exactly when the remainder
    fits in 32 bits. *)
Theorem mod64_truncated n d :
  d ≠ 0 →
  (is_u64 n → is_u64 d →
     __umoddi3 n d = Ok (u32 (n mod d)) ∧ (__umoddi3 n d = Ok (n mod d) ↔ n mod d < WORD)) ∧
  (is_s64 n → is_s64 d →
     __moddi3 n d = Ok (s32 (Z.rem n d)) ∧ (__moddi3 n d = Ok (Z.rem n d) ↔ is_s32 (Z.rem n d))).
Proof.
  intros H0. split; intros Hn Hd.
  - pose proof (umod64_ok n d Hn Hd H0) as E. unfold __umoddi3. split; [done|]. rewrite E.
    unfold is_u64 in Hd. pose proof (Z.mod_pos_bound n d ltac:(lia)). split.
    + intros [= <-]. apply u32_range.
    + intros Hr. by rewrite u32_small by (unfold is_u32; lia).
  - pose proof (smod64_ok n d Hn Hd H0) as E. unfold __moddi3. split; [done|]. rewrite E. split.
    + intros [= <-]. apply s32_range.
    + intros Hr. by rewrite s32_small.
Qed.

(** 2^33 modulo 2^34. *)
Lemma mod64_truncated_witness :
  __umoddi3 8589934592 17179869184 = Ok 0 ∧ __umoddi3 1000000000000 7 = Ok 1.
Proof.
  split.
  - destruct (proj1 (mod64_truncated 8589934592 17179869184 ltac:(lia))) as [H _]; [unfold is_u64; lia..|exact H].
  - destruct (proj1 (mod64_truncated 1000000000000 7 ltac:(lia))) as [H _]; [unfold is_u64; lia..|exact H].
Defined.
