(* ===== verification/StdSort.v ===== *)
(** Sorting and searching arrays (src/lib/stdlib.c): heap sort and binary search.

    An array is the list of its bytes; its elements are [size] bytes long and have
    indexes from 1 on.  The comparison function is an argument that sees the bytes
    of two elements.  The routines are first shown to act on the list of elements,
    then to sort and to find. *)

From S2P Require Import Prelude.

(** ** The routines *)

Section code.
Context (compare : list Z → list Z → Z).

(** The element that starts at byte [ofs]. *)
Definition element (array : list Z) (ofs size : Z) : res (list Z) :=
  if (0 <=? ofs) && (ofs + size <=? Z.of_nat (length array))
  then Ok (take (Z.to_nat size) (drop (Z.to_nat ofs) array))
  else Fault BadAccess.

Definition offset (idx size : Z) : Z := u32 (u32 (idx - 1) * size).

(** The loop of [do_swap], with [n] bytes to go. *)
Fixpoint swap_bytes (n : nat) (array : list Z) (a b : nat) : res (list Z) :=
  match n with
  | O => Ok array
  | S n =>
      x ← deref (array !! a);
      y ← deref (array !! b);
      swap_bytes n (<[b := x]> (<[a := y]> array)) (S a) (S b)
  end.

Definition do_swap (array : list Z) (a_idx b_idx size : Z) : res (list Z) :=
  swap_bytes (Z.to_nat size) array (Z.to_nat (offset a_idx size)) (Z.to_nat (offset b_idx size)).

Definition do_compare (array : list Z) (a_idx b_idx size : Z) : res Z :=
  a ← element array (offset a_idx size) size;
  b ← element array (offset b_idx size) size;
  Ok (compare a b).

(** [idx <= cnt && do_compare (array, idx, max, ...) > 0 ? idx : max] *)
Definition larger (array : list Z) (idx max cnt size : Z) : res Z :=
  if idx <=? cnt then
    c ← do_compare array idx max size;
    Ok (if 0 <? c then idx else max)
  else Ok max.

Fixpoint heapify (fuel : nat) (array : list Z) (i cnt size : Z) : res (list Z) :=
  match fuel with
  | O => Timeout
  | S fuel =>
      let left := u32 (2 * i) in
      let right := u32 (2 * i + 1) in
      max ← larger array left i cnt size;
      max ← larger array right max cnt size;
      if max =? i then Ok array
      else
        array ← do_swap array i max size;
        heapify fuel array max cnt size
  end.

(** Every iteration goes down one level of the heap. *)
Definition heapify_fuel (cnt : Z) : nat := S (Z.to_nat cnt).

Fixpoint build_loop (i : nat) (array : list Z) (cnt size : Z) : res (list Z) :=
  match i with
  | O => Ok array
  | S i' =>
      array ← heapify (heapify_fuel cnt) array (Z.of_nat i) cnt size;
      build_loop i' array cnt size
  end.

Fixpoint sort_loop (i : nat) (array : list Z) (size : Z) : res (list Z) :=
  match i with
  | S (S _ as i') =>
      array ← do_swap array 1 (Z.of_nat i) size;
      array ← heapify (heapify_fuel (Z.of_nat i')) array 1 (Z.of_nat i') size;
      sort_loop i' array size
  | _ => Ok array
  end.

Definition sort (array : list Z) (cnt size : Z) : res (list Z) :=
  ASSERT 0 <? size ;;
  array ← build_loop (Z.to_nat (cnt / 2)) array cnt size;
  sort_loop (Z.to_nat cnt) array size.

Definition qsort (array : list Z) (cnt size : Z) : res (list Z) := sort array cnt size.

(** The offset of the match; [first] and [last] are offsets too. *)
Fixpoint search_loop (fuel : nat) (key array : list Z) (first last size : Z) : res (option Z) :=
  match fuel with
  | O => Timeout
  | S fuel =>
      if first <? last then
        let range := (last - first) / size in
        let middle := first + range / 2 * size in
        m ← element array middle size;
        let cmp := compare key m in
        if cmp <? 0 then search_loop fuel key array first middle size
        else if 0 <? cmp then search_loop fuel key array (middle + size) last size
        else Ok (Some middle)
      else Ok None
  end.

Definition binary_search (key array : list Z) (cnt size : Z) : res (option Z) :=
  search_loop (S (Z.to_nat cnt)) key array 0 (u32 (size * cnt)) size.

Definition bsearch (key array : list Z) (cnt size : Z) : res (option Z) := binary_search key array cnt size.

End code.

(** ** Arrays as lists of elements *)

Section arrays.
Implicit Types (es : list (list Z)) (size : nat).

Definition all_sized size es : Prop := ∀ k e, es !! k = Some e → length e = size.

Lemma concat_length size es : all_sized size es → length (concat es) = (length es * size)%nat.
Proof.
  induction es as [|e es IH]; intros Hs; [done|]. simpl. rewrite length_app, IH; [|intros k; apply (Hs (S k))].
  by rewrite (Hs 0%nat e).
Qed.

(** The bytes of element [q] are at [q * size]. *)
Lemma concat_drop size es q e :
  all_sized size es → es !! q = Some e → take size (drop (q * size) (concat es)) = e.
Proof.
  revert q. induction es as [|e0 es IH]; intros q Hs Hq; [done|]. assert (length e0 = size) as He0 by by apply (Hs 0%nat).
  destruct q as [|q]; simpl in *.
  - simplify_eq. rewrite drop_0, take_app_length' by done. done.
  - rewrite drop_app_ge by lia. replace (size + q * size - length e0)%nat with (q * size)%nat by lia.
    apply IH; [|done]. intros k. apply (Hs (S k)).
Qed.

Lemma concat_lookup size es q r :
  all_sized size es → (r < size)%nat → concat es !! (q * size + r)%nat = es !! q ≫= (.!! r).
Proof.
  intros Hs Hr. destruct (es !! q) as [e|] eqn:Hq; simpl.
  - rewrite <-(concat_drop size es q e Hs Hq), lookup_take_lt, lookup_drop by done. done.
  - apply lookup_ge_None. rewrite (concat_length size) by done. apply lookup_ge_None in Hq. nia.
Qed.

(** Two elements exchanged. *)
Definition swapped {A} (l : list A) (i j : nat) : list A :=
  match l !! i, l !! j with
  | Some x, Some y => <[j := x]> (<[i := y]> l)
  | _, _ => l
  end.

Lemma swapped_length {A} (l : list A) i j : length (swapped l i j) = length l.
Proof. unfold swapped. repeat case_match; rewrite ?length_insert; done. Qed.

Lemma swapped_lookup {A} (l : list A) i j k :
  (i < length l)%nat → (j < length l)%nat →
  swapped l i j !! k = if decide (k = j) then l !! i else if decide (k = i) then l !! j else l !! k.
Proof.
  intros Hi Hj. unfold swapped. destruct (lookup_lt_is_Some_2 l i Hi) as [x Hx].
  destruct (lookup_lt_is_Some_2 l j Hj) as [y Hy]. rewrite Hx, Hy.
  destruct (decide (k = j)) as [->|]; [by rewrite list_lookup_insert_eq by (by rewrite length_insert)|].
  rewrite list_lookup_insert_ne by done. destruct (decide (k = i)) as [->|].
  - by rewrite list_lookup_insert_eq.
  - by rewrite list_lookup_insert_ne.
Qed.

Lemma swapped_Permutation {A} (l : list A) i j : swapped l i j ≡ₚ l.
Proof. unfold swapped. repeat case_match; try done. by apply Permutation_insert_swap. Qed.

Lemma swapped_sized size es i j : all_sized size es → all_sized size (swapped es i j).
Proof.
  intros Hs k e Hk. destruct (decide (i < length es ∧ j < length es)%nat) as [[Hi Hj]|Hno].
  - rewrite swapped_lookup in Hk by done. repeat case_decide; eauto.
  - unfold swapped in Hk. destruct (es !! i) eqn:Ei, (es !! j) eqn:Ej; eauto.
    destruct Hno. split; by eapply lookup_lt_Some.
Qed.

Lemma swap_bytes_ok n array a b :
  (a + n ≤ b ∨ b + n ≤ a)%nat → (a + n ≤ length array)%nat → (b + n ≤ length array)%nat →
  ∃ array', swap_bytes n array a b = Ok array' ∧ length array' = length array ∧
    ∀ k, array' !! k = if decide (a ≤ k < a + n)%nat then array !! (b + (k - a))%nat
                       else if decide (b ≤ k < b + n)%nat then array !! (a + (k - b))%nat else array !! k.
Proof.
  revert array a b. induction n as [|n IH]; intros array a b Hdis Ha Hb.
  { exists array. split_and!; try done. intros k. by rewrite !decide_False by lia. }
  cbn [swap_bytes]. destruct (lookup_lt_is_Some_2 array a) as [x Hx]; [lia|].
  destruct (lookup_lt_is_Some_2 array b) as [y Hy]; [lia|]. rewrite Hx, Hy. mstep.
  destruct (IH (<[b := x]> (<[a := y]> array)) (S a) (S b)) as (array' & Hsw & Hlen & Hlk);
    rewrite ?length_insert in *; [lia|lia|lia|].
  exists array'. split_and!; [done|done|]. intros k. rewrite Hlk. clear Hlk.
  repeat case_decide; try lia;
    repeat first
      [ rewrite list_lookup_insert_ne by lia
      | f_equal; lia
      | match goal with |- _ = array !! ?m => first [replace m with a by lia | replace m with b by lia]; rewrite ?Hx, ?Hy end;
        match goal with |- context [<[_ := _]> _ !! ?m] => first [replace m with a by lia | replace m with b by lia] end;
        first [apply list_lookup_insert_eq; rewrite ?length_insert; lia
              | rewrite list_lookup_insert_ne by lia; apply list_lookup_insert_eq; lia] ].
Qed.
Lemma offset_ok idx (size : Z) cnt :
  1 ≤ idx ≤ cnt → 0 < size → cnt * size < WORD → offset idx size = (idx - 1) * size.
Proof.
  intros Hi Hs Hc. unfold offset. rewrite (u32_small (idx - 1)) by (unfold is_u32; nia).
  apply u32_small. unfold is_u32. nia.
Qed.

Lemma do_swap_ok es a b (size : Z) :
  all_sized (Z.to_nat size) es → 0 < size → Z.of_nat (length es) * size < WORD →
  1 ≤ a ≤ Z.of_nat (length es) → 1 ≤ b ≤ Z.of_nat (length es) → a ≠ b →
  do_swap (concat es) a b size = Ok (concat (swapped es (Z.to_nat (a - 1)) (Z.to_nat (b - 1)))).
Proof.
  intros Hs Hsize Hc Ha Hb Hab. unfold do_swap. rewrite !(offset_ok _ _ (Z.of_nat (length es))) by done.
  rewrite !Z2Nat.inj_mul by lia. set (n := Z.to_nat size) in *. set (i := Z.to_nat (a - 1)). set (j := Z.to_nat (b - 1)).
  assert (0 < n)%nat as Hn by lia. assert (i < length es ∧ j < length es ∧ i ≠ j)%nat as (Hi & Hj & Hij) by lia.
  pose proof (concat_length n es Hs) as Hlen.
  destruct (swap_bytes_ok n (concat es) (i * n) (j * n)) as (l' & -> & Hlen' & Hlk); [nia|nia|nia|].
  f_equal. apply list_eq. intros k. rewrite Hlk. clearbody n i j. clear Hlk Hlen' Hc.
  rewrite (Nat.div_mod k n) by lia. pose proof (Nat.mod_upper_bound k n ltac:(lia)) as Hr.
  set (q := (k / n)%nat). set (r := (k mod n)%nat) in *. clearbody q r. clear k. rewrite (Nat.mul_comm n q).
  rewrite (concat_lookup n (swapped es i j)) by (by try apply swapped_sized). rewrite swapped_lookup by done.
  destruct (decide (q = i)) as [->|Hqi].
  - rewrite decide_True by lia. rewrite decide_False by done. rewrite <-(concat_lookup n) by done. f_equal. lia.
  - rewrite decide_False by nia. destruct (decide (q = j)) as [->|Hqj].
    + rewrite decide_True by lia. rewrite <-(concat_lookup n) by done. f_equal. lia.
    + rewrite decide_False by nia. by rewrite (concat_lookup n).
Qed.

Lemma element_ok es idx (size : Z) e :
  all_sized (Z.to_nat size) es → 0 < size → Z.of_nat (length es) * size < WORD →
  0 ≤ idx → es !! Z.to_nat idx = Some e → element (concat es) (idx * size) size = Ok e.
Proof.
  intros Hs Hsize Hc H0 He. pose proof (lookup_lt_Some _ _ _ He). unfold element.
  rewrite (concat_length (Z.to_nat size)) by done.
  rewrite (proj2 (Z.leb_le _ _)), (proj2 (Z.leb_le _ _)) by nia. cbn [andb].
  rewrite Z2Nat.inj_mul by lia. by rewrite (concat_drop (Z.to_nat size) es (Z.to_nat idx) e).
Qed.

End arrays.

(** ** Heaps *)

Section heaps.
Context (compare : list Z → list Z → Z).

(** [compare] is a comparison in the sense of [strcmp]. *)
Hypothesis cmp_flip : ∀ x y, compare x y < 0 ↔ 0 < compare y x.
Hypothesis cmp_trans : ∀ x y z, compare x y ≤ 0 → compare y z ≤ 0 → compare x z ≤ 0.

Context (size : Z) (Hsize : 0 < size).
Implicit Types es : list (list Z).

(** The element of index [i]. *)
Definition at_ es (i : Z) : list Z := default [] (es !! Z.to_nat (i - 1)).

Lemma cmp_refl x : compare x x ≤ 0.
Proof. pose proof (cmp_flip x x). lia. Qed.

Lemma cmp_total x y : 0 < compare x y → compare y x ≤ 0.
Proof. pose proof (cmp_flip y x). lia. Qed.

(** The arrays the routines work on. *)
Record array_ok es : Prop := {
  ao_sized : all_sized (Z.to_nat size) es;
  ao_bound : Z.of_nat (length es) * size < WORD;
  ao_count : 2 * Z.of_nat (length es) + 1 < WORD;
}.

Definition swap es (i j : Z) : list (list Z) := swapped es (Z.to_nat (i - 1)) (Z.to_nat (j - 1)).

Lemma swap_ok es i j : array_ok es → array_ok (swap es i j).
Proof. intros []. split; unfold swap; rewrite ?swapped_length; auto using swapped_sized. Qed.

Lemma swap_at es i j k :
  1 ≤ i ≤ Z.of_nat (length es) → 1 ≤ j ≤ Z.of_nat (length es) → 1 ≤ k →
  at_ (swap es i j) k = if decide (k = j) then at_ es i else if decide (k = i) then at_ es j else at_ es k.
Proof.
  intros Hi Hj Hk. unfold at_, swap. rewrite swapped_lookup by lia. repeat case_decide; done || lia.
Qed.

Lemma do_compare_ok es a b :
  array_ok es → 1 ≤ a ≤ Z.of_nat (length es) → 1 ≤ b ≤ Z.of_nat (length es) →
  do_compare compare (concat es) a b size = Ok (compare (at_ es a) (at_ es b)).
Proof using Hsize.
  intros [Hs Hc _] Ha Hb. unfold do_compare. rewrite !(offset_ok _ _ (Z.of_nat (length es))) by done. unfold at_.
  destruct (lookup_lt_is_Some_2 es (Z.to_nat (a - 1))) as [x Hx]; [lia|].
  destruct (lookup_lt_is_Some_2 es (Z.to_nat (b - 1))) as [y Hy]; [lia|].
  rewrite (element_ok es (a - 1) size x), (element_ok es (b - 1) size y), Hx, Hy by (done || lia). done.
Qed.

(** [larger] picks the larger of two elements. *)
Lemma larger_ok es idx max cnt :
  array_ok es → 1 ≤ idx → 1 ≤ max ≤ cnt → cnt ≤ Z.of_nat (length es) →
  ∃ m, larger compare (concat es) idx max cnt size = Ok m ∧ (m = max ∨ m = idx ∧ idx ≤ cnt) ∧
    compare (at_ es max) (at_ es m) ≤ 0 ∧ (idx ≤ cnt → compare (at_ es idx) (at_ es m) ≤ 0).
Proof using cmp_flip Hsize.
  intros Hok Hi Hm Hc. unfold larger. destruct (Z.leb_spec idx cnt).
  - rewrite do_compare_ok by (done || lia). mstep. destruct (Z.ltb_spec 0 (compare (at_ es idx) (at_ es max))).
    + exists idx. split_and!; [done|auto|by apply cmp_total|intros; apply cmp_refl].
    + exists max. split_and!; [done|auto|apply cmp_refl|done].
  - exists max. split_and!; [done|auto|apply cmp_refl|lia].
Qed.

Abbreviation below es i j := (compare (at_ es i) (at_ es j) ≤ 0).

(** Every node with its parent in [lo] .. [cnt] is at most its parent. *)
Definition heap_from es (lo cnt : Z) : Prop :=
  ∀ j, 2 ≤ j ≤ cnt → lo ≤ j / 2 → below es j (j / 2).

(** The same, but for the children of [i], which are at most the parent of [i]. *)
Record heap_but es (lo cnt i : Z) : Prop := {
  hb_but : ∀ j, 2 ≤ j ≤ cnt → lo ≤ j / 2 → j / 2 ≠ i → below es j (j / 2);
  hb_up : lo ≤ i / 2 → ∀ j, 2 ≤ j ≤ cnt → j / 2 = i → below es j (i / 2);
}.

Lemma half j : 2 * (j / 2) ≤ j ≤ 2 * (j / 2) + 1.
Proof. pose proof (Z.div_mod j 2 ltac:(lia)). pose proof (Z.mod_pos_bound j 2 ltac:(lia)). lia. Qed.

(** Exchanging [i] with its larger child moves the hole down. *)
Lemma sift_step es lo cnt i m :
  1 ≤ lo ≤ i → i ≤ cnt → cnt ≤ Z.of_nat (length es) → heap_but es lo cnt i →
  2 ≤ m ≤ cnt → m / 2 = i → below es i m →
  (∀ j, 2 ≤ j ≤ cnt → j / 2 = i → below es j m) → heap_but (swap es i m) lo cnt m.
Proof.
  intros Hlo Hi Hc [Hbut Hup] Hm Hmi Him Hch. pose proof (half m) as Hhm. split.
  - intros j Hj Hlj Hne. pose proof (half j) as Hhj. rewrite !swap_at by lia.
    destruct (decide (j = m)) as [->|Hjm].
    { rewrite Hmi. rewrite (decide_False (P := i = m)) by lia. by rewrite decide_True. }
    rewrite (decide_False (P := j / 2 = m)) by done.
    destruct (decide (j = i)) as [->|Hji].
    + rewrite decide_False by lia. by apply Hup.
    + destruct (decide (j / 2 = i)) as [E|]; [by apply Hch|by apply Hbut].
  - intros _ j Hj Hjm. pose proof (half j) as Hhj. rewrite Hmi, !swap_at by lia.
    rewrite (decide_False (P := j = m)), (decide_False (P := j = i)), (decide_False (P := i = m)) by lia.
    rewrite decide_True by done. rewrite <-Hjm. apply Hbut; lia.
Qed.

(** What stays as it is when elements up to [cnt] are exchanged. *)
Record rearranged es es' (cnt : Z) : Prop := {
  ra_perm : es' ≡ₚ es;
  ra_beyond : ∀ k, cnt < k → at_ es' k = at_ es k;
  ra_within : ∀ P : list Z → Prop, (∀ k, 1 ≤ k ≤ cnt → P (at_ es k)) → ∀ k, 1 ≤ k ≤ cnt → P (at_ es' k);
}.

Lemma rearranged_trans es1 es2 es3 cnt :
  rearranged es1 es2 cnt → rearranged es2 es3 cnt → rearranged es1 es3 cnt.
Proof.
  intros [P1 B1 W1] [P2 B2 W2]. split; [by rewrite P2|intros; by rewrite B2, B1|]. intros P HP. by apply W2, W1.
Qed.

Lemma swap_rearranged es i j cnt :
  1 ≤ i ≤ cnt → 1 ≤ j ≤ cnt → cnt ≤ Z.of_nat (length es) → rearranged es (swap es i j) cnt.
Proof.
  intros Hi Hj Hc. split.
  - apply swapped_Permutation.
  - intros k Hk. rewrite swap_at by lia. by rewrite !decide_False by lia.
  - intros P HP k Hk. rewrite swap_at by lia. repeat case_decide; auto.
Qed.

Lemma heapify_ok fuel es lo i cnt :
  array_ok es → 1 ≤ lo ≤ i → i ≤ cnt → cnt ≤ Z.of_nat (length es) → heap_but es lo cnt i →
  (Z.to_nat (cnt - i) < fuel)%nat →
  ∃ es', heapify compare fuel (concat es) i cnt size = Ok (concat es') ∧ array_ok es' ∧
    length es' = length es ∧ rearranged es es' cnt ∧ heap_from es' lo cnt.
Proof using cmp_flip cmp_trans Hsize.
  revert es i. induction fuel as [|fuel IH]; intros es i Hok Hlo Hi Hc Hhb Hf; [lia|]. cbn [heapify].
  pose proof (ao_count _ Hok). rewrite (u32_small (2 * i)), (u32_small (2 * i + 1)) by (unfold is_u32; lia).
  destruct (larger_ok es (2 * i) i cnt) as (m1 & -> & Hm1 & Hi1 & Hl1); try (done || lia). mstep.
  destruct (larger_ok es (2 * i + 1) m1 cnt) as (m & -> & Hm & H1m & Hrm); try (done || lia). mstep.
  assert (below es i m) as Him by (by eapply cmp_trans).
  assert (∀ j, 2 ≤ j ≤ cnt → j / 2 = i → below es j m) as Hch.
  { intros j Hj Hji. pose proof (half j). assert (j = 2 * i ∨ j = 2 * i + 1) as [->| ->] by lia.
    - eapply cmp_trans; [apply Hl1; lia|done].
    - apply Hrm. lia. }
  destruct (Z.eqb_spec m i) as [->|Hne].
  - exists es. split_and!; [done|done|done|by split|]. intros j Hj Hlj.
    destruct (decide (j / 2 = i)) as [E|]; [rewrite E; by apply Hch|by apply Hhb].
  - assert (m / 2 = i ∧ 2 ≤ m ≤ cnt) as [Hmi Hm2].
    { pose proof (half m). destruct Hm as [->|[-> ?]]; [destruct Hm1 as [->|[-> ?]]; [done|]|]; split; try lia;
        symmetry; apply (Z.div_unique _ 2 _ 0) || apply (Z.div_unique _ 2 _ 1); lia. }
    pose proof (half m). rewrite do_swap_ok; try (apply Hok || done || lia). mstep. fold (swap es i m).
    destruct (IH (swap es i m) m) as (es' & -> & Hok' & Hl' & Hre & Hh).
    + by apply swap_ok.
    + lia.
    + lia.
    + unfold swap. by rewrite swapped_length.
    + by apply sift_step.
    + lia.
    + unfold swap in Hl'. rewrite swapped_length in Hl'. exists es'. split_and!; try done.
      eapply rearranged_trans; [|exact Hre]. apply swap_rearranged; lia.
Qed.

Lemma build_loop_ok i es cnt :
  array_ok es → (2 * i ≤ length es)%nat → cnt = Z.of_nat (length es) → heap_from es (Z.of_nat i + 1) cnt →
  ∃ es', build_loop compare i (concat es) cnt size = Ok (concat es') ∧ array_ok es' ∧
    length es' = length es ∧ es' ≡ₚ es ∧ heap_from es' 1 cnt.
Proof using cmp_flip cmp_trans Hsize.
  intros Hok Hi -> Hh. revert es Hok Hi Hh. induction i as [|i IH]; intros es Hok Hi Hh.
  { exists es. split_and!; done. }
  cbn [build_loop].
  destruct (heapify_ok (heapify_fuel (Z.of_nat (length es))) es (Z.of_nat (S i)) (Z.of_nat (S i)) (Z.of_nat (length es)))
    as (es1 & -> & Hok1 & Hl1 & Hre1 & Hh1); try (done || lia).
  - split.
    + intros j Hj Hlj Hne. apply Hh; lia.
    + intros Hl. pose proof (half (Z.of_nat (S i))). lia.
  - unfold heapify_fuel. lia.
  - mstep. rewrite <-Hl1. destruct (IH es1) as (es' & -> & Hok' & Hl' & Hp' & Hh'); [done|lia| |].
    + rewrite Hl1. by replace (Z.of_nat i + 1) with (Z.of_nat (S i)) by lia.
    + exists es'. split_and!; try done. rewrite Hp'. apply Hre1.
Qed.

(** The root of a heap is a largest element. *)
Lemma heap_root es cnt j : heap_from es 1 cnt → 1 ≤ j ≤ cnt → below es j 1.
Proof using cmp_flip cmp_trans.
  intros Hh. induction (Z.lt_wf 0 j) as [j _ IH]. intros Hj.
  destruct (decide (j = 1)) as [->|]; [by apply cmp_refl|]. pose proof (half j).
  eapply cmp_trans; [apply Hh; lia|]. apply IH; lia.
Qed.

(** The elements after [i] are in order, and none before is larger. *)
Record sorted_from es (i : Z) : Prop := {
  sf_order : ∀ a b, i < a ≤ b → b ≤ Z.of_nat (length es) → below es a b;
  sf_bound : ∀ a b, 1 ≤ a ≤ i → i < b ≤ Z.of_nat (length es) → below es a b;
}.

(** Moving the root to the end of the heap. *)
Lemma extract_heap es n :
  1 ≤ n → n + 1 ≤ Z.of_nat (length es) → heap_from es 1 (n + 1) → heap_but (swap es 1 (n + 1)) 1 n 1.
Proof.
  intros Hn Hl Hh. split.
  - intros j Hj Hlj Hne. pose proof (half j). rewrite !swap_at by lia. rewrite !decide_False by lia. apply Hh; lia.
  - intros Hlo. change (1 / 2) with 0 in Hlo. lia.
Qed.

Lemma extract_sorted es n :
  1 ≤ n → n + 1 ≤ Z.of_nat (length es) → heap_from es 1 (n + 1) → sorted_from es (n + 1) →
  sorted_from (swap es 1 (n + 1)) n.
Proof using cmp_flip cmp_trans.
  intros Hn Hl Hh [Ho Hb]. assert (length (swap es 1 (n + 1)) = length es) as Hlen by apply swapped_length.
  split; rewrite Hlen.
  - intros a b Hab Hbl. rewrite !swap_at by lia. rewrite !(decide_False (P := _ = 1)) by lia.
    destruct (decide (a = n + 1)) as [->|], (decide (b = n + 1)) as [->|]; try lia.
    + by apply cmp_refl.
    + apply Hb; lia.
    + apply Ho; lia.
  - intros a b Ha Hb'. rewrite !swap_at by lia. rewrite (decide_False (P := a = n + 1)), (decide_False (P := b = 1)) by lia.
    destruct (decide (b = n + 1)) as [->|].
    + case_decide; apply (heap_root _ _ _ Hh); lia.
    + case_decide; apply Hb; lia.
Qed.

Lemma rearranged_sorted es es' n :
  0 ≤ n → length es' = length es → rearranged es es' n → sorted_from es n → sorted_from es' n.
Proof.
  intros Hn Hl [_ Hbe Hw] [Ho Hb]. split; rewrite Hl.
  - intros a b Hab Hbl. rewrite !Hbe by lia. by apply Ho.
  - intros a b Ha Hbl. rewrite (Hbe b) by lia. apply (Hw (λ x, compare x (at_ es b) ≤ 0)); [|done].
    intros k Hk. by apply Hb.
Qed.

Lemma heap_sort_loop_ok i es :
  array_ok es → (i ≤ length es)%nat → heap_from es 1 (Z.of_nat i) → sorted_from es (Z.of_nat i) →
  ∃ es', sort_loop compare i (concat es) size = Ok (concat es') ∧ length es' = length es ∧ es' ≡ₚ es ∧
    sorted_from es' 0.
Proof using cmp_flip cmp_trans Hsize.
  revert es. induction i as [|[|i] IH]; intros es Hok Hi Hh Hs.
  - by exists es.
  - exists es. split_and!; try done. destruct Hs as [Ho Hb]. split; [|lia]. intros a b Hab Hbl.
    destruct (decide (a = 1)) as [->|]; [|apply Ho; lia].
    destruct (decide (b = 1)) as [->|]; [by apply cmp_refl|apply Hb; lia].
  - change (sort_loop compare (S (S i)) (concat es) size) with
      (array ← do_swap (concat es) 1 (Z.of_nat (S (S i))) size;
       array ← heapify compare (heapify_fuel (Z.of_nat (S i))) array 1 (Z.of_nat (S i)) size;
       sort_loop compare (S i) array size).
    rewrite do_swap_ok; try (apply Hok || done || lia). mstep. fold (swap es 1 (Z.of_nat (S (S i)))).
    set (es1 := swap es 1 (Z.of_nat (S (S i)))).
    assert (length es1 = length es) as Hl1 by apply swapped_length.
    destruct (heapify_ok (heapify_fuel (Z.of_nat (S i))) es1 1 1 (Z.of_nat (S i)))
      as (es2 & -> & Hok2 & Hl2 & Hre2 & Hh2); try lia.
    + by apply swap_ok.
    + unfold es1. replace (Z.of_nat (S (S i))) with (Z.of_nat (S i) + 1) in * by lia. apply extract_heap; done || lia.
    + unfold heapify_fuel. lia.
    + mstep. destruct (IH es2) as (es' & -> & Hl' & Hp' & Hs'); [done|lia|done| |].
      * apply (rearranged_sorted es1); try (done || lia).
        unfold es1. replace (Z.of_nat (S (S i))) with (Z.of_nat (S i) + 1) in * by lia. apply extract_sorted; done || lia.
      * exists es'. split_and!; try done; [lia|]. rewrite Hp', (ra_perm _ _ _ Hre2). apply swapped_Permutation.
Qed.

Lemma sort_elements_ok es :
  array_ok es →
  ∃ es', sort compare (concat es) (Z.of_nat (length es)) size = Ok (concat es') ∧ length es' = length es ∧
    es' ≡ₚ es ∧ sorted_from es' 0.
Proof using cmp_flip cmp_trans Hsize.
  intros Hok. unfold sort. rewrite (proj2 (Z.ltb_lt 0 size)) by done. pose proof (half (Z.of_nat (length es))).
  destruct (build_loop_ok (Z.to_nat (Z.of_nat (length es) / 2)) es (Z.of_nat (length es)))
    as (es1 & -> & Hok1 & Hl1 & Hp1 & Hh1); [done|lia|done| |].
  - intros j Hj Hlj. pose proof (half j). lia.
  - mstep. rewrite Nat2Z.id, <-Hl1. destruct (heap_sort_loop_ok (length es1) es1) as (es' & -> & Hl' & Hp' & Hs').
    + done.
    + done.
    + by rewrite Hl1.
    + split; lia.
    + exists es'. split_and!; try done. by rewrite Hp'.
Qed.

(** ** Searching *)

Definition in_order es : Prop :=
  ∀ a b x y, (a ≤ b)%nat → es !! a = Some x → es !! b = Some y → compare x y ≤ 0.

Lemma sorted_in_order es : sorted_from es 0 → in_order es.
Proof.
  intros [Ho _] a b x y Hab Ha Hb. pose proof (lookup_lt_Some _ _ _ Ha). pose proof (lookup_lt_Some _ _ _ Hb).
  specialize (Ho (Z.of_nat a + 1) (Z.of_nat b + 1)). unfold at_ in Ho.
  replace (Z.to_nat (Z.of_nat a + 1 - 1)) with a in Ho by lia.
  replace (Z.to_nat (Z.of_nat b + 1 - 1)) with b in Ho by lia. rewrite Ha, Hb in Ho. apply Ho; lia.
Qed.

Lemma cmp_zero x y : compare x y = 0 → compare y x = 0.
Proof. pose proof (cmp_flip x y). pose proof (cmp_flip y x). lia. Qed.

(** What the search has found out: a match lies between [f] and [l]. *)
Definition match_within es (key : list Z) (f l : Z) : Prop :=
  ∀ k e, es !! k = Some e → compare key e = 0 → f ≤ Z.of_nat k < l.

Lemma search_loop_ok fuel es key f l :
  array_ok es → in_order es → 0 ≤ f → l ≤ Z.of_nat (length es) → match_within es key f l →
  (Z.to_nat (l - f) < fuel)%nat →
  ∃ o, search_loop compare fuel key (concat es) (f * size) (l * size) size = Ok o ∧
    match o with
    | Some ofs => ∃ k e, es !! k = Some e ∧ ofs = Z.of_nat k * size ∧ compare key e = 0
    | None => ∀ e, e ∈ es → compare key e ≠ 0
    end.
Proof using cmp_flip cmp_trans Hsize.
  intros Hok Hs. revert f l. induction fuel as [|fuel IH]; intros f l Hf Hl Hin Hfuel; [lia|]. cbn [search_loop].
  destruct (Z.ltb_spec (f * size) (l * size)) as [Hlt|Hge].
  2: { exists None. split; [done|]. intros e (k & Hk)%list_elem_of_lookup Hz. specialize (Hin k e Hk Hz). nia. }
  assert (f < l) as Hfl by nia. replace (l * size - f * size) with ((l - f) * size) by lia.
  rewrite Z.div_mul by lia. pose proof (half (l - f)). set (h := (l - f) / 2) in *.
  replace (f * size + h * size) with ((f + h) * size) by lia.
  destruct (lookup_lt_is_Some_2 es (Z.to_nat (f + h))) as [m Hm]; [lia|].
  rewrite (element_ok es (f + h) size m); try (apply Hok || done || lia). mstep.
  destruct (Z.ltb_spec (compare key m) 0) as [Hneg|Hnn]; [|destruct (Z.ltb_spec 0 (compare key m)) as [Hpos|Hnp]].
  - apply IH; try lia. intros k e Hk Hz. specialize (Hin k e Hk Hz). split; [lia|].
    destruct (decide (Z.of_nat k < f + h)) as [|Hge]; [lia|]. exfalso.
    assert (compare m e ≤ 0) by (eapply Hs; [|done|done]; lia). apply cmp_zero in Hz.
    pose proof (cmp_trans m e key ltac:(done) ltac:(lia)). apply cmp_flip in Hneg. lia.
  - replace ((f + h) * size + size) with ((f + h + 1) * size) by lia.
    apply IH; try lia. intros k e Hk Hz. specialize (Hin k e Hk Hz). split; [|lia].
    destruct (decide (f + h + 1 ≤ Z.of_nat k)) as [|Hlt']; [lia|]. exfalso.
    assert (compare e m ≤ 0) by (eapply Hs; [|done|done]; lia).
    pose proof (cmp_trans key e m ltac:(lia) ltac:(done)). lia.
  - exists (Some ((f + h) * size)). split; [done|]. exists (Z.to_nat (f + h)), m. split_and!; [done|by rewrite Z2Nat.id by lia|lia].
Qed.

Lemma bsearch_ok es key :
  array_ok es → in_order es →
  ∃ o, bsearch compare key (concat es) (Z.of_nat (length es)) size = Ok o ∧
    match o with
    | Some ofs => ∃ k e, es !! k = Some e ∧ ofs = Z.of_nat k * size ∧ compare key e = 0
    | None => ∀ e, e ∈ es → compare key e ≠ 0
    end.
Proof using cmp_flip cmp_trans Hsize.
  intros Hok Hs. pose proof (ao_bound _ Hok). unfold bsearch, binary_search.
  rewrite u32_small by (unfold is_u32; nia). rewrite (Z.mul_comm size).
  apply (search_loop_ok _ es key 0 (Z.of_nat (length es))); try (done || lia).
  intros k e Hk _. apply lookup_lt_Some in Hk. lia.
Qed.

End heaps.

(** C36. For any comparison function in the sense of strcmp, [qsort] terminates and
    leaves the elements of the array in order, a permutation of the ones it got. *)
Theorem qsort_correct compare size es :
  (∀ x y, compare x y < 0 ↔ 0 < compare y x) →
  (∀ x y z, compare x y ≤ 0 → compare y z ≤ 0 → compare x z ≤ 0) →
  0 < size → array_ok size es →
  ∃ es', qsort compare (concat es) (Z.of_nat (length es)) size = Ok (concat es') ∧
    length es' = length es ∧ es' ≡ₚ es ∧ in_order compare es'.
Proof.
  intros Hf Ht Hs Hok. destruct (sort_elements_ok compare Hf Ht size Hs es Hok) as (es' & Hq & Hl & Hp & Hso).
  exists es'. split_and!; try done. by apply sorted_in_order.
Qed.

(** Pairs of bytes compared by their first byte. *)
Definition demo_compare (x y : list Z) : Z := default 0 (x !! 0%nat) - default 0 (y !! 0%nat).
Definition demo_array : list (list Z) := [[5; 1]; [3; 2]; [9; 3]; [3; 4]; [0; 5]].

Lemma demo_array_ok : array_ok 2 demo_array.
Proof.
  split; [|done|done]. intros k e Hk. do 5 (destruct k as [|k]; [by injection Hk as <-|]). done.
Qed.

Lemma qsort_correct_witness :
  ∃ es', qsort demo_compare [5; 1; 3; 2; 9; 3; 3; 4; 0; 5] 5 2 = Ok (concat es') ∧
    es' ≡ₚ demo_array ∧ in_order demo_compare es'.
Proof.
  destruct (qsort_correct demo_compare 2 demo_array) as (es' & Hq & _ & Hp & Hs).
  - intros x y. unfold demo_compare. lia.
  - intros x y z. unfold demo_compare. lia.
  - lia.
  - apply demo_array_ok.
  - by exists es'.
Defined.

(** On an array in order, [bsearch] terminates; it returns the offset of an
    element that compares equal to the key when there is one and a null pointer
    only when there is none. *)
Theorem bsearch_correct compare size es key :
  (∀ x y, compare x y < 0 ↔ 0 < compare y x) →
  (∀ x y z, compare x y ≤ 0 → compare y z ≤ 0 → compare x z ≤ 0) →
  0 < size → array_ok size es → in_order compare es →
  ∃ o, bsearch compare key (concat es) (Z.of_nat (length es)) size = Ok o ∧
    match o with
    | Some ofs => ∃ k e, es !! k = Some e ∧ ofs = Z.of_nat k * size ∧ compare key e = 0
    | None => ∀ e, e ∈ es → compare key e ≠ 0
    end.
Proof. intros Hf Ht Hs Hok Hso. by apply (bsearch_ok compare Hf Ht size Hs es key). Qed.

Lemma bsearch_correct_witness :
  ∃ o, bsearch demo_compare [7; 7] [0; 5; 3; 2; 7; 4; 9; 3] 4 2 = Ok o ∧ o = Some 4.
Proof.
  destruct (bsearch_correct demo_compare 2 [[0; 5]; [3; 2]; [7; 4]; [9; 3]] [7; 7]) as (o & Ho & Hcase).
  - intros x y. unfold demo_compare. lia.
  - intros x y z. unfold demo_compare. lia.
  - lia.
  - split; [|done|done]. intros k e Hk. do 4 (destruct k as [|k]; [by injection Hk as <-|]). done.
  - intros a b x y Hab Ha Hb. unfold demo_compare.
    do 4 (destruct a as [|a]; [do 4 (destruct b as [|b]; [injection Ha as <-; injection Hb as <-; simpl in *; lia|]); done|]). done.
  - exists o. split; [exact Ho|]. revert Ho. vm_compute. by intros [= <-].
Defined.
