(* ===== verification/Random.v ===== *)
(** The pseudo-random numbers of the kernel (src/lib/random.c): the stream cipher RC4, with the four
    bytes of the seed as its key. *)

From S2P Require Import Prelude.

Record rc4 := RC4 { sbox : list Z; s_i : Z; s_j : Z; inited : bool }.

Definition u8 (x : Z) : Z := x mod 256.

Definition byte_at (s : list Z) (i : Z) : res Z := deref (s !! Z.to_nat i).

(** [swap_byte (s + i, s + j)] *)
Definition swap_byte (s : list Z) (i j : Z) : res (list Z) :=
  t ← byte_at s i;
  b ← byte_at s j;
  Ok (<[Z.to_nat j := t]> (<[Z.to_nat i := b]> s)).

(** Byte [i] of a 32-bit integer in memory. *)
Definition seedp (seed i : Z) : Z := u8 (Z.shiftr seed (8 * i)).

Fixpoint key_loop (n : nat) (seed i j : Z) (s : list Z) : res (list Z) :=
  match n with
  | O => Ok s
  | S n =>
      b ← byte_at s i;
      let j := u8 (j + (b + seedp seed (i mod 4))) in
      s ← swap_byte s i j;
      key_loop n seed (i + 1) j s
  end.

Definition random_init (seed : Z) : res rc4 :=
  s ← key_loop 256 seed 0 0 (seqZ 0 256);
  Ok (RC4 s 0 0 true).

Definition random_byte (r : rc4) : res (Z * rc4) :=
  let i := u8 (s_i r + 1) in
  b ← byte_at (sbox r) i;
  let j := u8 (s_j r + b) in
  s ← swap_byte (sbox r) i j;
  a ← byte_at s i;
  b ← byte_at s j;
  k ← byte_at s (u8 (a + b));
  Ok (k, RC4 s i j (inited r)).

Fixpoint bytes_loop (size : nat) (r : rc4) : res (list Z * rc4) :=
  match size with
  | O => Ok ([], r)
  | S size => '(b, r) ← random_byte r; '(l, r) ← bytes_loop size r; Ok (b :: l, r)
  end.

Definition random_bytes (size : nat) (r : rc4) : res (list Z * rc4) :=
  r ← (if inited r then Ok r else random_init 0);
  bytes_loop size r.

Definition random_ulong (r : rc4) : res (Z * rc4) :=
  '(l, r) ← random_bytes 4 r;
  Ok (foldr (λ b x, b + 256 * x) 0 l, r).

(** The static variables at the start of the kernel. *)
Definition random_statics : rc4 := RC4 (replicate 256 0) 0 0 false.

(** ** The state is a permutation *)

Definition shuffled (s : list Z) : Prop := s ≡ₚ seqZ 0 256.

Record rc4_ok (r : rc4) : Prop := {
  ro_sbox : shuffled (sbox r);
  ro_i : 0 ≤ s_i r < 256;
  ro_j : 0 ≤ s_j r < 256;
}.

Lemma u8_range x : 0 ≤ u8 x < 256.
Proof. apply Z.mod_pos_bound. lia. Qed.

Lemma byte_at_ok s i : shuffled s → 0 ≤ i < 256 → ∃ b, byte_at s i = Ok b ∧ s !! Z.to_nat i = Some b ∧ 0 ≤ b < 256.
Proof.
  intros Hs Hi. assert (length s = 256%nat) as Hl by exact (Permutation_length Hs).
  destruct (lookup_lt_is_Some_2 s (Z.to_nat i)) as [b Hb]; [lia|]. exists b. unfold byte_at. rewrite Hb. split; [done|]. split; [done|].
  apply list_elem_of_lookup_2 in Hb. unfold shuffled in Hs. rewrite Hs in Hb. apply elem_of_seqZ in Hb. lia.
Qed.

(** The list with two elements swapped. *)
Definition swapped (s : list Z) (i j : Z) (s' : list Z) : Prop :=
  ∀ k, s' !! k = if decide (k = Z.to_nat j) then s !! Z.to_nat i else if decide (k = Z.to_nat i) then s !! Z.to_nat j else s !! k.

Lemma swap_byte_ok s i j :
  shuffled s → 0 ≤ i < 256 → 0 ≤ j < 256 → ∃ s', swap_byte s i j = Ok s' ∧ shuffled s' ∧ swapped s i j s'.
Proof.
  intros Hs Hi Hj. destruct (byte_at_ok s i Hs Hi) as (a & Ea & Ha & _). destruct (byte_at_ok s j Hs Hj) as (b & Eb & Hb & _).
  unfold swap_byte. rewrite Ea. mstep. rewrite Eb. mstep. eexists. split; [done|]. split.
  - unfold shuffled in *. etrans; [by apply Permutation_insert_swap|exact Hs].
  - pose proof (Permutation_length Hs : length s = 256%nat) as Hl. intros k. destruct (decide (k = Z.to_nat j)) as [->|].
    + rewrite list_lookup_insert_eq by (rewrite length_insert; lia). by rewrite Ha.
    + rewrite list_lookup_insert_ne by done. destruct (decide (k = Z.to_nat i)) as [->|]; [rewrite list_lookup_insert_eq by lia; by rewrite Hb|].
      by rewrite list_lookup_insert_ne.
Qed.

Lemma swapped_back s1 s2 i j s' : swapped s1 i j s' → swapped s2 i j s' → s1 = s2.
Proof.
  intros H1 H2. assert (∀ s k, swapped s i j s' → s !! k = if decide (k = Z.to_nat i) then s' !! Z.to_nat j else if decide (k = Z.to_nat j) then s' !! Z.to_nat i else s' !! k) as H.
  { intros s k Hs. rewrite !Hs. repeat case_decide; congruence. }
  apply list_eq. intros k. by rewrite (H s1), (H s2).
Qed.

Lemma key_loop_ok n seed i j s :
  shuffled s → 0 ≤ i → i + Z.of_nat n ≤ 256 → ∃ s', key_loop n seed i j s = Ok s' ∧ shuffled s'.
Proof.
  revert i j s. induction n as [|n IH]; intros i j s Hs Hi Hn; cbn [key_loop]; [by exists s|].
  destruct (byte_at_ok s i Hs) as (b & -> & _); [lia|]. mstep.
  destruct (swap_byte_ok s i (u8 (j + (b + seedp seed (i mod 4)))) Hs) as (s1 & -> & Hs1 & _); [lia|apply u8_range|]. mstep.
  apply IH; [done|lia..].
Qed.

Lemma random_init_ok seed : ∃ r, random_init seed = Ok r ∧ rc4_ok r ∧ inited r = true.
Proof.
  unfold random_init. destruct (key_loop_ok 256 seed 0 0 (seqZ 0 256)) as (s & -> & Hs); [apply Permutation_refl|lia..|]. mstep.
  eexists. split; [done|]. split; [|done]. split; cbn; [done|lia..].
Qed.

(** What a turn of the loop does to the state. *)
Record turned (r r' : rc4) (b : Z) : Prop := {
  tu_i : s_i r' = u8 (s_i r + 1);
  tu_byte : sbox r !! Z.to_nat (s_i r') = Some b;
  tu_j : s_j r' = u8 (s_j r + b);
  tu_swap : swapped (sbox r) (s_i r') (s_j r') (sbox r');
  tu_inited : inited r' = inited r;
}.

Lemma random_byte_ok r : rc4_ok r → ∃ k r' b, random_byte r = Ok (k, r') ∧ 0 ≤ k < 256 ∧ rc4_ok r' ∧ turned r r' b.
Proof.
  intros [Hs Hi Hj]. unfold random_byte.
  destruct (byte_at_ok (sbox r) (u8 (s_i r + 1)) Hs (u8_range _)) as (b & -> & Hb & _). mstep.
  destruct (swap_byte_ok (sbox r) (u8 (s_i r + 1)) (u8 (s_j r + b)) Hs (u8_range _) (u8_range _)) as (s & -> & Hs' & Hsw). mstep.
  destruct (byte_at_ok s (u8 (s_i r + 1)) Hs' (u8_range _)) as (x & -> & _). mstep.
  destruct (byte_at_ok s (u8 (s_j r + b)) Hs' (u8_range _)) as (y & -> & _). mstep.
  destruct (byte_at_ok s (u8 (x + y)) Hs' (u8_range _)) as (k & -> & _ & Hk). mstep.
  eexists k, _, b. split; [done|]. split; [done|]. split; split; cbn; try done; apply u8_range.
Qed.

Lemma u8_add_cancel a b c : 0 ≤ a < 256 → 0 ≤ b < 256 → u8 (a + c) = u8 (b + c) → a = b.
Proof. unfold u8. intros Ha Hb E. apply (f_equal (λ x, (x - c) mod 256)) in E. rewrite !Zminus_mod_idemp_l in E. replace (a + c - c) with a in E by lia. replace (b + c - c) with b in E by lia. by rewrite !Z.mod_small in E. Qed.

(** A state has one predecessor. *)
Lemma turned_back r1 r2 r' b1 b2 : rc4_ok r1 → rc4_ok r2 → turned r1 r' b1 → turned r2 r' b2 → r1 = r2.
Proof.
  intros H1 H2 [Ti1 Tb1 Tj1 Ts1 Tn1] [Ti2 Tb2 Tj2 Ts2 Tn2]. pose proof (swapped_back _ _ _ _ _ Ts1 Ts2) as Es.
  assert (b1 = b2) as <- by (rewrite Es in Tb1; congruence).
  assert (s_i r1 = s_i r2) by (apply (u8_add_cancel _ _ 1); [apply H1|apply H2|congruence]).
  assert (s_j r1 = s_j r2) by (apply (u8_add_cancel _ _ b1); [apply H1|apply H2|congruence]).
  destruct r1, r2. cbn in *. congruence.
Qed.

Lemma bytes_loop_ok n r : rc4_ok r → ∃ l r', bytes_loop n r = Ok (l, r') ∧ rc4_ok r' ∧ inited r' = inited r ∧ length l = n ∧ Forall is_byte l.
Proof.
  revert r. induction n as [|n IH]; intros r Hr; cbn [bytes_loop]; [by exists [], r|].
  destruct (random_byte_ok r Hr) as (k & r1 & b & -> & Hk & Hr1 & Ht). mstep. destruct (IH r1 Hr1) as (l & r2 & -> & Hr2 & Hn & Hl & Hf). mstep.
  exists (k :: l), r2. split; [done|]. split; [done|]. split; [by rewrite Hn, (tu_inited _ _ _ Ht)|]. split; [cbn; lia|by constructor].
Qed.

Lemma bytes_loop_back n r1 r2 l1 l2 r' :
  rc4_ok r1 → rc4_ok r2 → bytes_loop n r1 = Ok (l1, r') → bytes_loop n r2 = Ok (l2, r') → r1 = r2.
Proof.
  revert r1 r2 l1 l2. induction n as [|n IH]; intros r1 r2 l1 l2 H1 H2; cbn [bytes_loop]; [congruence|].
  destruct (random_byte_ok r1 H1) as (k1 & q1 & b1 & -> & _ & Hq1 & T1). destruct (random_byte_ok r2 H2) as (k2 & q2 & b2 & -> & _ & Hq2 & T2). mstep.
  intros E1 E2. apply res_bind_Ok in E1 as ([m1 p1] & E1 & [= <- ->]). apply res_bind_Ok in E2 as ([m2 p2] & E2 & [= <- ->]).
  assert (q1 = q2) as <- by by eapply IH. by eapply turned_back.
Qed.

(** The static variables are the initial ones or in order. *)
Definition usable (r : rc4) : Prop := inited r = true → rc4_ok r.

Lemma random_bytes_ok n r :
  usable r → ∃ l r', random_bytes n r = Ok (l, r') ∧ rc4_ok r' ∧ inited r' = true ∧ length l = n ∧ Forall is_byte l.
Proof.
  intros Hr. unfold random_bytes.
  assert (∃ r1, (if inited r then Ok r else random_init 0) = Ok r1 ∧ rc4_ok r1 ∧ inited r1 = true) as (r1 & -> & Hr1 & Hn).
  { destruct (inited r) eqn:E; [exists r; auto|apply random_init_ok]. }
  mstep. destruct (bytes_loop_ok n r1 Hr1) as (l & r' & E & Hr' & Hn' & H). exists l, r'. split; [done|]. split; [done|]. by rewrite Hn'.
Qed.

Lemma little_endian_range l : Forall is_byte l → 0 ≤ foldr (λ b x, b + 256 * x) 0 l < 256 ^ Z.of_nat (length l).
Proof.
  induction 1 as [|b l Hb Hl IH]; [done|]. cbn [foldr length]. rewrite Nat2Z.inj_succ, Z.pow_succ_r by lia. unfold is_byte in Hb. lia.
Qed.

(** Whatever the seed, the state of the generator is a permutation of the 256 bytes with two
    indices, so that no access leaves the array: random_bytes gives as many bytes as asked for and
    random_ulong a 32-bit integer, also when random_init was never called. No step loses information:
    two states that give the same state after as many bytes are the same. *)
Theorem random_in_order r (Hr : usable r) :
  (∀ seed, ∃ r', random_init seed = Ok r' ∧ rc4_ok r' ∧ usable r') ∧
  (∀ n, ∃ l r', random_bytes n r = Ok (l, r') ∧ rc4_ok r' ∧ usable r' ∧ length l = n ∧ Forall is_byte l) ∧
  (∃ x r', random_ulong r = Ok (x, r') ∧ usable r' ∧ 0 ≤ x < WORD) ∧
  (∀ r2 n l1 l2 r', inited r = true → inited r2 = true → rc4_ok r2 → random_bytes n r = Ok (l1, r') → random_bytes n r2 = Ok (l2, r') → r = r2).
Proof.
  split_and!.
  - intros seed. destruct (random_init_ok seed) as (r' & E & H & _). exists r'. split; [done|]. split; [done|]. by intros _.
  - intros n. destruct (random_bytes_ok n r Hr) as (l & r' & E & H & _ & Hl). exists l, r'. split; [done|]. split; [done|]. split; [by intros _|done].
  - unfold random_ulong. destruct (random_bytes_ok 4 r Hr) as (l & r' & -> & H & _ & Hl & Hf). mstep. eexists _, r'. split; [done|]. split; [by intros _|].
    apply little_endian_range in Hf. rewrite Hl in Hf. exact Hf.
  - intros r2 n l1 l2 r' Hn1 Hn2 H2 E1 E2. unfold random_bytes in E1, E2. rewrite Hn1 in E1. rewrite Hn2 in E2. eapply bytes_loop_back; eauto.
Qed.

(** The published test vector of RC4 with the key Wiki, which is the seed 0x696b6957. *)
Lemma random_in_order_witness :
  usable random_statics ∧
  (∃ r, random_init 0x696b6957 = Ok r ∧ rc4_ok r ∧ (p ← random_bytes 6 r; Ok p.1) = Ok [0x60; 0x44; 0xdb; 0x6d; 0x41; 0xb7]) ∧
  ∃ x r', random_ulong random_statics = Ok (x, r') ∧ usable r' ∧ 0 ≤ x < WORD.
Proof.
  assert (usable random_statics) as Hu by done. split; [done|]. destruct (random_in_order random_statics Hu) as (Hi & _ & Hx & _). split; [|done].
  destruct (Hi 0x696b6957) as (r & E & Hr & _). exists r. split; [done|]. split; [done|].
  assert ((r ← random_init 0x696b6957; p ← random_bytes 6 r; Ok p.1) = Ok [0x60; 0x44; 0xdb; 0x6d; 0x41; 0xb7]) as Et by (vm_compute; reflexivity).
  rewrite E in Et. exact Et.
Defined.
