(* ===== verification/Pages.v ===== *)
(** What the page allocator promises to the parts of the kernel that use it, and
    that src/threads/palloc.c keeps the promise.

    [PageOps] are the operations with the view of pages a client has: which page
    numbers are taken, which runs of them are a block that can be given back, and
    the contents of memory.  The clients' theorems are proved from [PageLaws]. *)

From S2P Require Import Prelude Bitmap BitmapScan Vaddr Palloc.

Class PageOps (P : Type) := {
  get_pages : Z → Z → P → res (Z * P);
  free_pages : Z → Z → P → res P;
  pages_ok : P → Prop;
  page_taken : P → Z → bool;
  block_of : P → Z → Z → Prop;
  pmem : P → Z → Z;
  set_pmem : (Z → Z) → P → P;
  page_limit : P → Z;
}.

(** Page number [pg] is one of the [cnt] from [i] on. *)
Definition within (i cnt pg : Z) : Prop := i ≤ pg < i + cnt.

#[export] Instance within_dec i cnt pg : Decision (within i cnt pg).
Proof. unfold within. apply _. Defined.

(** The address lies in these pages. *)
Definition in_pages (i cnt a : Z) : Prop := within i cnt (a / PGSIZE).

(** A request that was granted: the block is new, at kernel addresses, and nothing
    else has changed. *)
Record granted {P} `{!PageOps P} (flags cnt : Z) (s : P) (i : Z) (s' : P) : Prop := {
  gr_ok : pages_ok s';
  gr_cnt : 0 < cnt;
  gr_block : block_of s' i cnt;
  gr_free : ∀ pg, within i cnt pg → page_taken s pg = false;
  gr_taken : ∀ pg, page_taken s' pg = bool_decide (within i cnt pg) || page_taken s pg;
  gr_mem : ∀ a, pmem s' a = if has_flag flags PAL_ZERO && bool_decide (in_pages i cnt a) then 0 else pmem s a;
  gr_keep : ∀ j c, block_of s j c → block_of s' j c;
}.

Record unchanged {P} `{!PageOps P} (s s' : P) : Prop := {
  un_ok : pages_ok s';
  un_taken : ∀ pg, page_taken s' pg = page_taken s pg;
  un_mem : ∀ a, pmem s' a = pmem s a;
  un_keep : ∀ j c, block_of s j c → block_of s' j c;
}.

Class PageLaws (P : Type) `{!PageOps P} : Prop := {
  get_law flags cnt (s : P) :
    pages_ok s → has_flag flags PAL_ASSERT = false → 0 ≤ cnt < WORD →
    (∃ i s', get_pages flags cnt s = Ok (PGSIZE * i, s') ∧ granted flags cnt s i s') ∨
    (∃ s', get_pages flags cnt s = Ok (NULL, s') ∧ unchanged s s');
  free_law i cnt (s : P) :
    pages_ok s → block_of s i cnt →
    ∃ s', free_pages (PGSIZE * i) cnt s = Ok s' ∧ pages_ok s' ∧
      (∀ pg, page_taken s' pg = negb (bool_decide (within i cnt pg)) && page_taken s pg) ∧
      (∀ a, pmem s' a = if bool_decide (in_pages i cnt a) then 204 else pmem s a) ∧
      ∀ j c, block_of s j c → (∀ pg, within j c pg → ¬ within i cnt pg) → block_of s' j c;
  block_law i cnt (s : P) :
    pages_ok s → block_of s i cnt →
    0 < cnt ∧ 786432 ≤ i ∧ i + cnt ≤ 1048576 ∧ ∀ pg, within i cnt pg → page_taken s pg = true;
  set_pmem_law (m : Z → Z) (s : P) :
    (pages_ok s → pages_ok (set_pmem m s)) ∧ (∀ pg, page_taken (set_pmem m s) pg = page_taken s pg) ∧
    (∀ j c, block_of s j c → block_of (set_pmem m s) j c) ∧ ∀ a, pmem (set_pmem m s) a = m a;
  limit_get_law flags cnt (s : P) a (s' : P) :
    pages_ok s → 0 ≤ cnt < WORD → get_pages flags cnt s = Ok (a, s') → page_limit s' = page_limit s;
  limit_free_law i cnt (s s' : P) :
    pages_ok s → block_of s i cnt → free_pages (PGSIZE * i) cnt s = Ok s' → page_limit s' = page_limit s;
  limit_set_law (m : Z → Z) (s : P) : page_limit (set_pmem m s) = page_limit s;
  limit_block_law i cnt (s : P) : pages_ok s → block_of s i cnt → i + cnt ≤ page_limit s;
}.

(** ** The page allocator of palloc.c *)

#[export] Instance palloc_ops : PageOps palloc_state := {
  get_pages := palloc_get_multiple;
  free_pages := palloc_free_multiple;
  pages_ok := palloc_wf;
  page_taken := page_used;
  block_of := used_block;
  pmem := mem;
  set_pmem m s := PState (kernel_pool s) (user_pool s) (statics s) m;
  page_limit s := pool_hi (user_pool s);
}.

Section palloc_keeps_it.
Implicit Types s : palloc_state.

Lemma memset_pages m i cnt v a :
  memset m (PGSIZE * i) v (PGSIZE * cnt) a = if bool_decide (in_pages i cnt a) then v else m a.
Proof.
  unfold memset, in_pages, within. unfold PGSIZE.
  pose proof (Z.div_mod a 4096 ltac:(lia)). pose proof (Z.mod_pos_bound a 4096 ltac:(lia)).
  destruct (Z.leb_spec (4096 * i) a), (Z.ltb_spec a (4096 * i + 4096 * cnt)); simpl;
    case_bool_decide; done || lia.
Qed.

(** A request that the allocator has granted. *)
Lemma got_granted flags cnt s p s' : palloc_wf s → got_pages flags cnt s p s' → p = PGSIZE * (p / PGSIZE) ∧ granted flags cnt s (p / PGSIZE) s'.
Proof.
  intros Hwf Hgot. pose proof (got_pages_used_block _ _ _ _ _ Hwf Hgot) as Hub.
  destruct Hgot as (_ & Hpos & Hal & Hwf' & Hs & (_ & _ & Hfree) & Hu & Hm). split; [done|]. split; simpl; try done.
  - intros a. change (mem s' a = if has_flag flags PAL_ZERO && bool_decide (in_pages (p / PGSIZE) cnt a) then 0 else mem s a).
    rewrite Hm. destruct (has_flag flags PAL_ZERO); [|done]. simpl. rewrite Hal at 1. apply memset_pages.
  - intros j c Hb. apply (used_block_mono s); try done. intros pg Hpg. rewrite Hu. case_bool_decide; [done|]. by apply Hb.
Qed.

Lemma palloc_get_law flags cnt s :
  palloc_wf s → has_flag flags PAL_ASSERT = false → 0 ≤ cnt < WORD →
  (∃ i s', palloc_get_multiple flags cnt s = Ok (PGSIZE * i, s') ∧ granted flags cnt s i s') ∨
  (∃ s', palloc_get_multiple flags cnt s = Ok (NULL, s') ∧ unchanged s s').
Proof.
  intros Hwf Hf Hc. destruct (palloc_get_multiple_cases flags cnt s Hwf Hc) as [(p & s' & Hg & Hgot)|[_ Hr]].
  - left. destruct (got_granted _ _ _ _ _ Hwf Hgot) as [Hal Hgr]. exists (p / PGSIZE), s'. by rewrite <-Hal.
  - right. rewrite Hf in Hr. destruct Hr as [st Hr]. eexists. split; [exact Hr|]. split; [by destruct Hwf; split|done..].
Qed.

Lemma palloc_free_law i cnt s :
  palloc_wf s → used_block s i cnt →
  ∃ s', palloc_free_multiple (PGSIZE * i) cnt s = Ok s' ∧ palloc_wf s' ∧
    (∀ pg, page_used s' pg = negb (bool_decide (within i cnt pg)) && page_used s pg) ∧
    (∀ a, mem s' a = if bool_decide (in_pages i cnt a) then 204 else mem s a) ∧
    ∀ j c, used_block s j c → (∀ pg, within j c pg → ¬ within i cnt pg) → used_block s' j c.
Proof.
  intros Hwf Hb. destruct (palloc_free_multiple_spec s i cnt Hwf Hb) as (s' & Hf & Hwf' & Hs & Hu & Hm).
  exists s'. split_and!; try done.
  - intros pg. rewrite Hu. fold (within i cnt pg). destruct (decide (within i cnt pg)).
    + by rewrite !bool_decide_eq_true_2.
    + by rewrite !bool_decide_eq_false_2.
  - intros a. rewrite Hm. apply memset_pages.
  - intros j c Hbj Hdis. apply (used_block_mono s); try done. intros pg Hpg. rewrite Hu.
    rewrite bool_decide_eq_false_2 by (by apply Hdis). by apply Hbj.
Qed.

Lemma same_pools_limit s s' : same_pools s s' → pool_hi (user_pool s') = pool_hi (user_pool s).
Proof. intros (_ & Hb & _ & Hc). unfold pool_hi, pool_lo. by rewrite Hb, Hc. Qed.

#[export] Instance palloc_laws : PageLaws palloc_state.
Proof.
  split.
  - apply palloc_get_law.
  - apply palloc_free_law.
  - intros i cnt s [Hk Hu _] (Hc & Hin & Ht). pose proof (pool_bounds _ Hk). pose proof (pool_bounds _ Hu).
    split_and!; [done|lia|lia|done].
  - intros m s. split_and!; try done. intros [Hk Hu Hd]. by split.
  - intros flags cnt s a s' Hwf Hc E. apply same_pools_limit.
    destruct (palloc_get_multiple_cases flags cnt s Hwf Hc) as [(p & s1 & E1 & Hg)|[_ Hr]].
    + simpl in E. rewrite E in E1. injection E1 as _ <-. apply Hg.
    + simpl in E. rewrite E in Hr. destruct (_ && _); [done|]. destruct Hr as [st [= _ ->]]. done.
  - intros i cnt s s' Hwf Hb E. apply same_pools_limit. destruct (palloc_free_multiple_spec s i cnt Hwf Hb) as (s1 & E1 & _ & Hs & _).
    simpl in E. rewrite E in E1. by injection E1 as <-.
  - done.
  - intros i cnt s [Hk Hu Hd] (Hc & Hin & Ht). pose proof (pool_bounds _ Hk). pose proof (pool_bounds _ Hu).
    pose proof (wf_cnt _ (pool_map_wf _ Hu)). simpl. unfold pool_hi in *. lia.
Qed.

End palloc_keeps_it.
