(* ===== verification/Malloc.v ===== *)
(** The kernel heap (src/threads/malloc.c): blocks of fixed sizes carved out of
    pages, and big blocks that have pages of their own.

    An arena header lies at the start of its page; the model keeps the headers
    apart from the contents of memory, by the address of the page, and the free
    list of a descriptor as the list of the addresses of its blocks.  A page
    without a header stands for memory whose magic number is wrong.  The lock of a
    descriptor makes the calls atomic.  The heap is built on any page allocator that
    keeps the promise of [PageLaws]. *)

From S2P Require Import Prelude Bitmap Vaddr Palloc Pages.

(** ** Data *)

Record desc := Desc { block_size : Z; blocks_per_arena : Z; free_list : list Z }.

(** [owner] is the index of the descriptor; a big block has none, and then
    [free_cnt] is its number of pages. *)
Record arena := Arena { owner : option nat; free_cnt : Z }.

(** [sizeof (struct arena)]. *)
Abbreviation ARENA_SIZE := 12 (only parsing).

Section code.
Context {P : Type} `{!PageOps P}.

Record heap := Heap { pal : P; descs : list desc; arenas : gmap Z arena }.

Definition set_pal (h : heap) (p : P) : heap := Heap p (descs h) (arenas h).
Definition set_arena (h : heap) (a : Z) (ar : arena) : heap :=
  Heap (pal h) (descs h) (<[a := ar]> (arenas h)).
Definition set_free_list (h : heap) (k : nat) (d : desc) (l : list Z) : heap :=
  Heap (pal h) (<[k := Desc (block_size d) (blocks_per_arena d) l]> (descs h)) (arenas h).

(** ** Operations *)

Fixpoint init_loop (fuel : nat) (block_size : Z) (ds : list desc) : res (list desc) :=
  match fuel with
  | O => Timeout
  | S fuel =>
      if block_size <? PGSIZE / 2 then
        ASSERT Z.of_nat (length ds) + 1 <=? 10 ;;
        init_loop fuel (u32 (block_size * 2))
          (ds ++ [Desc block_size ((PGSIZE - ARENA_SIZE) / block_size) []])
      else Ok ds
  end.

Definition malloc_init (p : P) : res heap :=
  ds ← init_loop 10 16 [];
  Ok (Heap p ds ∅).

Definition block_to_arena (h : heap) (b : Z) : res (Z * arena) :=
  let a := pg_round_down b in
  ASSERT negb (a =? NULL) ;;
  match arenas h !! a with
  | None => Fault AssertFail
  | Some ar =>
      match owner ar with
      | Some k =>
          d ← deref (descs h !! k);
          ASSERT u32 (pg_ofs b - ARENA_SIZE) mod block_size d =? 0 ;;
          Ok (a, ar)
      | None => ASSERT pg_ofs b =? ARENA_SIZE ;; Ok (a, ar)
      end
  end.

Definition arena_to_block (h : heap) (a idx : Z) : res Z :=
  ASSERT negb (a =? NULL) ;;
  match arenas h !! a with
  | None => Fault AssertFail
  | Some ar =>
      k ← deref (owner ar);
      d ← deref (descs h !! k);
      ASSERT idx <? blocks_per_arena d ;;
      Ok (u32 (a + ARENA_SIZE + idx * block_size d))
  end.

(** The smallest descriptor whose blocks hold [size] bytes. *)
Fixpoint find_desc (ds : list desc) (size : Z) (k : nat) : option (nat * desc) :=
  match ds with
  | [] => None
  | d :: ds => if size <=? block_size d then Some (k, d) else find_desc ds size (S k)
  end.

(** The blocks [i], [i + 1], ... of an arena, [n] of them. *)
Fixpoint arena_blocks (h : heap) (a : Z) (n : nat) (i : Z) : res (list Z) :=
  match n with
  | O => Ok []
  | S n => b ← arena_to_block h a i; l ← arena_blocks h a n (i + 1); Ok (b :: l)
  end.

(** A new arena for descriptor [k] when its free list is empty; [false] when there
    is no page. *)
Definition refill (h : heap) (k : nat) (d : desc) : res (bool * heap) :=
  match free_list d with
  | _ :: _ => Ok (true, h)
  | [] =>
      '(a, p) ← get_pages 0 1 (pal h);
      let h := set_pal h p in
      if a =? NULL then Ok (false, h)
      else
        let h := set_arena h a (Arena (Some k) (blocks_per_arena d)) in
        l ← arena_blocks h a (Z.to_nat (blocks_per_arena d)) 0;
        Ok (true, set_free_list h k d (free_list d ++ l))
  end.

Definition malloc (size : Z) (h : heap) : res (Z * heap) :=
  if size =? 0 then Ok (NULL, h)
  else
    match find_desc (descs h) size 0 with
    | None =>
        let page_cnt := DIV_ROUND_UP (u32 (size + ARENA_SIZE)) PGSIZE in
        '(a, p) ← get_pages 0 page_cnt (pal h);
        let h := set_pal h p in
        if a =? NULL then Ok (NULL, h)
        else Ok (u32 (a + ARENA_SIZE), set_arena h a (Arena None page_cnt))
    | Some (k, d) =>
        '(ok, h) ← refill h k d;
        if negb ok then Ok (NULL, h)
        else
          d ← deref (descs h !! k);
          match free_list d with
          | [] => Fault AssertFail
          | b :: l =>
              let h := set_free_list h k d l in
              '(a, ar) ← block_to_arena h b;
              Ok (b, set_arena h a (Arena (owner ar) (u32 (free_cnt ar - 1))))
          end
    end.

Definition calloc (a b : Z) (h : heap) : res (Z * heap) :=
  let size := u32 (a * b) in
  if (size <? a) || (size <? b) then Ok (NULL, h)
  else
    '(p, h) ← malloc size h;
    Ok (p, if p =? NULL then h else set_pal h (set_pmem (memset (pmem (pal h)) p 0 size) (pal h))).

(** [block_size] of malloc.c. *)
Definition block_bytes (h : heap) (b : Z) : res Z :=
  '(_, ar) ← block_to_arena h b;
  match owner ar with
  | Some k => d ← deref (descs h !! k); Ok (block_size d)
  | None => Ok (u32 (u32 (PGSIZE * free_cnt ar) - pg_ofs b))
  end.

(** [list_remove] of each of these blocks. *)
Fixpoint remove_blocks (bs l : list Z) : res (list Z) :=
  match bs with
  | [] => Ok l
  | b :: bs => ASSERT bool_decide (b ∈ l) ;; remove_blocks bs (filter (λ x, x ≠ b) l)
  end.

Definition free (p : Z) (h : heap) : res heap :=
  if p =? NULL then Ok h
  else
    '(a, ar) ← block_to_arena h p;
    match owner ar with
    | Some k =>
        d ← deref (descs h !! k);
        let h := set_pal h (set_pmem (memset (pmem (pal h)) p 204 (block_size d)) (pal h)) in
        let l := p :: free_list d in
        let n := u32 (free_cnt ar + 1) in
        let h := set_arena h a (Arena (owner ar) n) in
        if blocks_per_arena d <=? n then
          ASSERT n =? blocks_per_arena d ;;
          bs ← arena_blocks h a (Z.to_nat (blocks_per_arena d)) 0;
          l ← remove_blocks bs l;
          pl ← free_pages a 1 (pal h);
          Ok (Heap pl (descs (set_free_list h k d l)) (delete a (arenas h)))
        else Ok (set_free_list h k d l)
    | None =>
        pl ← free_pages a (free_cnt ar) (pal h);
        Ok (Heap pl (descs h) (delete a (arenas h)))
    end.

(** The bytes of [memcpy] between blocks that do not overlap. *)
Definition copy_block (m : Z → Z) (dst src n : Z) : Z → Z :=
  λ x, if (dst <=? x) && (x <? dst + n) then m (src + (x - dst)) else m x.

Definition realloc (old_block new_size : Z) (h : heap) : res (Z * heap) :=
  if new_size =? 0 then h ← free old_block h; Ok (NULL, h)
  else
    '(new_block, h) ← malloc new_size h;
    if negb (old_block =? NULL) && negb (new_block =? NULL) then
      old_size ← block_bytes h old_block;
      let min_size := if new_size <? old_size then new_size else old_size in
      let h := set_pal h (set_pmem (copy_block (pmem (pal h)) new_block old_block min_size) (pal h)) in
      h ← free old_block h;
      Ok (new_block, h)
    else Ok (new_block, h).

End code.
Arguments heap : clear implicits.

(** ** Addresses *)

(** The blocks of a page come after the header and fit in the page. *)
Record desc_wf (d : desc) : Prop := {
  dw_size : 16 ≤ block_size d;
  dw_cnt : 0 < blocks_per_arena d;
  dw_fit : ARENA_SIZE + blocks_per_arena d * block_size d ≤ PGSIZE;
}.

Definition block_addr (d : desc) (a idx : Z) : Z := a + ARENA_SIZE + idx * block_size d.

(** An address of a page of the kernel. *)
Definition is_arena_addr (a : Z) : Prop := ∃ i, a = PGSIZE * i ∧ 786432 ≤ i < 1048576.

Section addresses.

Lemma block_addr_page d a idx :
  desc_wf d → is_arena_addr a → 0 ≤ idx < blocks_per_arena d →
  let b := block_addr d a idx in
  is_u32 b ∧ b / PGSIZE = a / PGSIZE ∧ a = PGSIZE * (b / PGSIZE) ∧ pg_round_down b = a ∧
  pg_ofs b = ARENA_SIZE + idx * block_size d ∧ b + block_size d ≤ a + PGSIZE.
Proof.
  intros [Hs Hc Hf] (i & -> & Hi) Hidx b. unfold PGSIZE in *.
  assert (ARENA_SIZE + idx * block_size d + block_size d ≤ 4096) as Hin by nia.
  assert (0 ≤ idx * block_size d) by nia.
  assert (b / 4096 = i) as Hdiv.
  { symmetry. apply (Z.div_unique _ _ _ (ARENA_SIZE + idx * block_size d)); unfold b, block_addr; lia. }
  assert (b mod 4096 = ARENA_SIZE + idx * block_size d) as Hmod.
  { pose proof (Z.div_mod b 4096 ltac:(lia)). unfold b, block_addr in *. lia. }
  assert (is_u32 b) by (unfold is_u32, b, block_addr; lia).
  rewrite Hdiv. split_and!; try done.
  - rewrite Z.mul_comm, Z.div_mul by lia. done.
  - rewrite pg_round_down_spec by done. unfold PGSIZE. pose proof (Z.div_mod b 4096 ltac:(lia)). lia.
  - rewrite pg_ofs_mod. done.
  - unfold b, block_addr. lia.
Qed.

Lemma block_addr_inj d a idx1 idx2 :
  desc_wf d → block_addr d a idx1 = block_addr d a idx2 → idx1 = idx2.
Proof. intros [Hs _ _]. unfold block_addr. nia. Qed.

(** Two blocks of an arena do not overlap. *)
Lemma blocks_disjoint d a i1 i2 :
  desc_wf d → i1 ≠ i2 →
  block_addr d a i1 + block_size d ≤ block_addr d a i2 ∨ block_addr d a i2 + block_size d ≤ block_addr d a i1.
Proof. intros [Hs _ _] Hne. unfold block_addr. destruct (Z.lt_total i1 i2) as [|[|]]; nia. Qed.

End addresses.

(** ** The invariant *)

Section invariant.
Context {P : Type} `{!PageOps P} `{!PageLaws P}.
Implicit Types (h : heap P) (d : desc) (ar : arena) (live : gmap Z Z).

Definition npages ar : Z := match owner ar with Some _ => 1 | None => free_cnt ar end.

(** [b] is a block of an arena of descriptor [k]. *)
Definition is_block h (k : nat) d (b : Z) : Prop :=
  ∃ a ar idx, arenas h !! a = Some ar ∧ owner ar = Some k ∧ 0 ≤ idx < blocks_per_arena d ∧ b = block_addr d a idx.

(** The free blocks of the arena at [a]. *)
Definition free_in (a : Z) (l : list Z) : list Z := filter (λ b, b / PGSIZE = a / PGSIZE) l.

(** [live] has the blocks that have been handed out, with the sizes asked for. *)
Record heap_inv h live : Prop := {
  hi_pages : pages_ok (pal h);
  hi_desc : ∀ k d, descs h !! k = Some d → desc_wf d;
  hi_arena : ∀ a ar, arenas h !! a = Some ar →
    (∃ i, a = PGSIZE * i ∧ block_of (pal h) i (npages ar)) ∧ ∀ k, owner ar = Some k → is_Some (descs h !! k);
  hi_sep : ∀ a1 ar1 a2 ar2 pg, arenas h !! a1 = Some ar1 → arenas h !! a2 = Some ar2 →
    within (a1 / PGSIZE) (npages ar1) pg → within (a2 / PGSIZE) (npages ar2) pg → a1 = a2;
  hi_nodup : ∀ k d, descs h !! k = Some d → NoDup (free_list d);
  hi_free : ∀ k d b, descs h !! k = Some d → b ∈ free_list d → is_block h k d b;
  hi_cnt : ∀ a ar k d, arenas h !! a = Some ar → owner ar = Some k → descs h !! k = Some d →
    free_cnt ar = Z.of_nat (length (free_in a (free_list d)));
  hi_live : ∀ p n, live !! p = Some n → 0 < n ∧
    ((∃ k d, descs h !! k = Some d ∧ is_block h k d p ∧ n ≤ block_size d ∧ p ∉ free_list d) ∨
     (∃ ar, arenas h !! (p - ARENA_SIZE) = Some ar ∧ owner ar = None ∧ n + ARENA_SIZE ≤ PGSIZE * free_cnt ar));
}.

Lemma arena_addr h live a ar : heap_inv h live → arenas h !! a = Some ar → is_arena_addr a.
Proof using PageLaws0.
  intros Hi Ha. destruct (hi_arena _ _ Hi a ar Ha) as [(i & -> & Hb) _].
  destruct (block_law _ _ _ (hi_pages _ _ Hi) Hb) as (? & ? & ? & _). exists i. split; [done|lia].
Qed.

(** The arena of a block. *)
Lemma block_to_arena_ok h live k d b :
  heap_inv h live → descs h !! k = Some d → is_block h k d b →
  ∃ ar, block_to_arena h b = Ok (PGSIZE * (b / PGSIZE), ar) ∧ arenas h !! (PGSIZE * (b / PGSIZE)) = Some ar ∧
    owner ar = Some k ∧ b ≠ NULL.
Proof using PageLaws0.
  intros Hi Hd (a & ar & idx & Ha & Ho & Hidx & ->). pose proof (arena_addr _ _ _ _ Hi Ha) as Haa.
  pose proof (hi_desc _ _ Hi k d Hd) as Hwf.
  destruct (block_addr_page d a idx Hwf Haa Hidx) as (Hu & _ & Ea & Erd & Eofs & _). rewrite <-Ea.
  exists ar. split_and!; try done.
  - unfold block_to_arena. rewrite Erd. destruct Haa as (i & -> & Hi').
    rewrite (proj2 (Z.eqb_neq _ _)) by (unfold PGSIZE; lia). cbn [negb]. rewrite Ha, Ho, Hd. mstep.
    rewrite Eofs. destruct Hwf as [Hs Hc Hf]. unfold PGSIZE in Hf.
    rewrite u32_small by (unfold is_u32; nia). replace (_ + _ - _) with (idx * block_size d) by lia.
    rewrite Z.mod_mul by lia. done.
  - destruct Haa as (i & -> & Hi'). destruct Hwf. unfold block_addr, PGSIZE in *. nia.
Qed.

(** Every block lies in the pages of its arena. *)
Lemma is_block_arena h live k d b :
  heap_inv h live → descs h !! k = Some d → is_block h k d b →
  ∃ ar idx, arenas h !! (PGSIZE * (b / PGSIZE)) = Some ar ∧ owner ar = Some k ∧ 0 ≤ idx < blocks_per_arena d ∧
    b = block_addr d (PGSIZE * (b / PGSIZE)) idx.
Proof using PageLaws0.
  intros Hi Hd (a & ar & idx & Ha & Ho & Hidx & ->).
  destruct (block_addr_page d a idx (hi_desc _ _ Hi k d Hd) (arena_addr _ _ _ _ Hi Ha) Hidx) as (_ & _ & Ea & _).
  rewrite <-Ea. by exists ar, idx.
Qed.

(** Where a live block lies. *)
Lemma live_extent h live p n :
  heap_inv h live → live !! p = Some n →
  ∃ a ar, arenas h !! a = Some ar ∧ a = PGSIZE * (a / PGSIZE) ∧ a < p ∧ p + n ≤ a + PGSIZE * npages ar ∧
    match owner ar with
    | Some k => ∃ d idx, descs h !! k = Some d ∧ 0 ≤ idx < blocks_per_arena d ∧ p = block_addr d a idx ∧
        n ≤ block_size d ∧ p ∉ free_list d
    | None => p = a + ARENA_SIZE
    end.
Proof using PageLaws0.
  intros Hi Hp. destruct (hi_live _ _ Hi p n Hp) as (Hn & [(k & d & Hd & Hb & Hle & Hnf)|(ar & Ha & Ho & Hle)]).
  - destruct Hb as (a & ar & idx & Ha & Ho & Hidx & ->). pose proof (arena_addr _ _ _ _ Hi Ha) as Haa.
    destruct (block_addr_page d a idx (hi_desc _ _ Hi k d Hd) Haa Hidx) as (_ & Ed & Ea & _ & _ & Hend).
    exists a, ar. unfold npages. rewrite Ho, <-Ed, <-Ea.
    destruct (hi_desc _ _ Hi k d Hd). split_and!; [done|done|unfold block_addr; nia|lia|]. by exists d, idx.
  - exists (p - ARENA_SIZE), ar. destruct (arena_addr _ _ _ _ Hi Ha) as (i & E & _). unfold npages. rewrite Ho.
    split_and!; [done| |lia|lia|lia]. rewrite E, (Z.mul_comm PGSIZE i), Z.div_mul by done. lia.
Qed.

(** Arenas do not overlap. *)
Lemma arenas_disjoint h live a1 ar1 a2 ar2 :
  heap_inv h live → arenas h !! a1 = Some ar1 → arenas h !! a2 = Some ar2 → a1 ≠ a2 →
  a1 + PGSIZE * npages ar1 ≤ a2 ∨ a2 + PGSIZE * npages ar2 ≤ a1.
Proof using PageLaws0.
  intros Hi H1 H2 Hne. destruct (hi_arena _ _ Hi _ _ H1) as [(i1 & -> & Hb1) _].
  destruct (hi_arena _ _ Hi _ _ H2) as [(i2 & -> & Hb2) _].
  destruct (block_law _ _ _ (hi_pages _ _ Hi) Hb1) as (Hc1 & _). destruct (block_law _ _ _ (hi_pages _ _ Hi) Hb2) as (Hc2 & _).
  pose proof (λ pg, hi_sep _ _ Hi _ _ _ _ pg H1 H2) as Hsep. unfold within in Hsep.
  rewrite !(Z.mul_comm PGSIZE), !Z.div_mul in Hsep by done. unfold PGSIZE in *.
  destruct (decide (i1 + npages ar1 ≤ i2)); [lia|]. destruct (decide (i2 + npages ar2 ≤ i1)); [lia|].
  destruct Hne. rewrite (Z.mul_comm 4096 i1), (Z.mul_comm 4096 i2). apply (Hsep (Z.max i1 i2)); lia.
Qed.

Lemma live_disjoint h live p1 n1 p2 n2 :
  heap_inv h live → live !! p1 = Some n1 → live !! p2 = Some n2 → p1 ≠ p2 → p1 + n1 ≤ p2 ∨ p2 + n2 ≤ p1.
Proof using PageLaws0.
  intros Hi H1 H2 Hne. destruct (live_extent _ _ _ _ Hi H1) as (a1 & ar1 & Ha1 & _ & L1 & R1 & Hk1).
  destruct (live_extent _ _ _ _ Hi H2) as (a2 & ar2 & Ha2 & _ & L2 & R2 & Hk2).
  destruct (decide (a1 = a2)) as [->|Hna].
  - rewrite Ha1 in Ha2. injection Ha2 as <-. destruct (owner ar1) as [k|]; [|lia].
    destruct Hk1 as (d & i1 & Hd & _ & -> & ? & _). destruct Hk2 as (d' & i2 & Hd' & _ & -> & ? & _).
    rewrite Hd in Hd'. injection Hd' as <-.
    destruct (blocks_disjoint d a2 i1 i2 (hi_desc _ _ Hi _ _ Hd)); [by intros ->|lia|lia].
  - destruct (arenas_disjoint _ _ _ _ _ _ Hi Ha1 Ha2 Hna); lia.
Qed.

(** Changes of the page allocator that keep its blocks. *)
Lemma heap_inv_pal h live q :
  heap_inv h live → pages_ok q → (∀ j c, block_of (pal h) j c → block_of q j c) → heap_inv (set_pal h q) live.
Proof.
  intros [] Hq Hb. split; try done. intros a ar Ha. destruct (hi_arena0 a ar Ha) as [(i & -> & Hi) ?].
  split; [|done]. exists i. auto.
Qed.

Lemma is_block_mono h h' k d d' b :
  block_size d' = block_size d → blocks_per_arena d' = blocks_per_arena d →
  (∀ a ar, arenas h !! a = Some ar → owner ar = Some k →
     b / PGSIZE = a / PGSIZE → ∃ ar', arenas h' !! a = Some ar' ∧ owner ar' = Some k) →
  desc_wf d → (∀ a ar, arenas h !! a = Some ar → is_arena_addr a) → is_block h k d b → is_block h' k d' b.
Proof.
  intros Es Ec Ha Hwf Haa (a & ar & idx & Har & Ho & Hidx & ->).
  destruct (block_addr_page d a idx Hwf (Haa _ _ Har) Hidx) as (_ & Ep & _).
  destruct (Ha a ar Har Ho Ep) as (ar' & Har' & Ho'). exists a, ar', idx.
  unfold block_addr. rewrite Es, Ec. done.
Qed.

(** *** Allocation *)

(** A granted page run is not part of any arena. *)
Lemma granted_fresh h live flags cnt i q :
  heap_inv h live → granted flags cnt (pal h) i q →
  arenas h !! (PGSIZE * i) = None ∧
  ∀ a ar pg, arenas h !! a = Some ar → within (a / PGSIZE) (npages ar) pg → ¬ within i cnt pg.
Proof using PageLaws0.
  intros Hi Hg. assert (∀ a ar pg, arenas h !! a = Some ar → within (a / PGSIZE) (npages ar) pg → ¬ within i cnt pg) as Hno.
  { intros a ar pg Ha Hw Hin. destruct (hi_arena _ _ Hi a ar Ha) as [(j & -> & Hb) _].
    rewrite (Z.mul_comm PGSIZE), Z.div_mul in Hw by done.
    destruct (block_law _ _ _ (hi_pages _ _ Hi) Hb) as (_ & _ & _ & Ht).
    pose proof (gr_free _ _ _ _ _ Hg pg Hin). rewrite Ht in * by done. done. }
  split; [|done]. destruct (arenas h !! (PGSIZE * i)) as [ar|] eqn:Ha; [|done].
  destruct (hi_arena _ _ Hi _ _ Ha) as [(j & E & Hb) _]. assert (j = i) as -> by (unfold PGSIZE in E; lia).
  destruct (block_law _ _ _ (hi_pages _ _ Hi) Hb) as (Hc & _). destruct (Hno _ _ i Ha).
  - rewrite (Z.mul_comm PGSIZE), Z.div_mul by done. unfold within. lia.
  - pose proof (gr_cnt _ _ _ _ _ Hg). unfold within. lia.
Qed.

(** What a new arena keeps of the invariant. *)
Lemma new_arena_ok h live flags cnt i q ar :
  heap_inv h live → granted flags cnt (pal h) i q → npages ar = cnt →
  (∀ k, owner ar = Some k → is_Some (descs h !! k)) →
  let h' := set_arena (set_pal h q) (PGSIZE * i) ar in
  (∀ a ar', arenas h' !! a = Some ar' →
    (∃ j, a = PGSIZE * j ∧ block_of (pal h') j (npages ar')) ∧ ∀ k, owner ar' = Some k → is_Some (descs h' !! k)) ∧
  (∀ a1 ar1 a2 ar2 pg, arenas h' !! a1 = Some ar1 → arenas h' !! a2 = Some ar2 →
    within (a1 / PGSIZE) (npages ar1) pg → within (a2 / PGSIZE) (npages ar2) pg → a1 = a2) ∧
  (∀ k d b, desc_wf d → is_block h k d b → is_block h' k d b).
Proof using PageLaws0.
  intros Hi Hg Hn Hk h'. destruct (granted_fresh _ _ _ _ _ _ Hi Hg) as [Hnone Hno].
  assert (arenas h' = <[PGSIZE * i := ar]> (arenas h)) as E by done. rewrite E. split_and!.
  - intros a ar' Ha. apply lookup_insert_Some in Ha as [[<- <-]|[Hne Ha]].
    + split; [|done]. exists i. split; [done|]. rewrite Hn. apply (gr_block _ _ _ _ _ Hg).
    + destruct (hi_arena _ _ Hi a ar' Ha) as [(j & -> & Hb) ?]. split; [|done]. exists j. split; [done|].
      by apply (gr_keep _ _ _ _ _ Hg).
  - intros a1 ar1 a2 ar2 pg H1 H2 W1 W2.
    apply lookup_insert_Some in H1 as [[<- <-]|[Hne1 H1]], H2 as [[<- <-]|[Hne2 H2]]; [done| | |by eapply (hi_sep _ _ Hi)].
    + rewrite (Z.mul_comm PGSIZE), Z.div_mul, Hn in W1 by done. by destruct (Hno _ _ _ H2 W2).
    + rewrite (Z.mul_comm PGSIZE), Z.div_mul, Hn in W2 by done. by destruct (Hno _ _ _ H1 W1).
  - intros k d b Hwf Hb. eapply is_block_mono; [done|done| |done| |exact Hb].
    + intros a ar' Ha Ho _. exists ar'. rewrite E. split; [|done]. rewrite lookup_insert_ne; [done|]. intros <-. congruence.
    + intros a ar' Ha. by eapply arena_addr.
Qed.

(** Giving out a block of its own pages. *)
Lemma big_block_ok h live cnt i q n :
  heap_inv h live → granted 0 cnt (pal h) i q → 0 < n → n + ARENA_SIZE ≤ PGSIZE * cnt →
  heap_inv (set_arena (set_pal h q) (PGSIZE * i) (Arena None cnt)) (<[PGSIZE * i + ARENA_SIZE := n]> live).
Proof using PageLaws0.
  intros Hi Hg Hn Hle. destruct (new_arena_ok h live 0 cnt i q (Arena None cnt) Hi Hg) as (Har & Hsep & Hblk); try done.
  destruct (granted_fresh _ _ _ _ _ _ Hi Hg) as [Hnone _]. pose proof Hi as [].
  split; try done.
  - apply (gr_ok _ _ _ _ _ Hg).
  - intros k d b Hd Hb. apply Hblk; [by eapply hi_desc0|auto].
  - intros a ar k d Ha Ho Hd. simpl in Ha. apply lookup_insert_Some in Ha as [[_ <-]|[_ Ha]]; [done|]. by eapply hi_cnt0.
  - intros p m Hp. apply lookup_insert_Some in Hp as [[<- <-]|[_ Hp]].
    + split; [done|]. right. exists (Arena None cnt). replace (_ - _) with (PGSIZE * i) by lia. simpl.
      split_and!; [apply lookup_insert_eq|done|done].
    + destruct (hi_live0 p m Hp) as (Hm & [(k & d & Hd & Hb & ?)|(ar & Ha & ?)]); (split; [done|]).
      * left. exists k, d. split_and!; try done; [apply Hblk; [by eapply hi_desc0|done]|tauto|tauto].
      * right. exists ar. split_and!; try tauto. simpl. rewrite lookup_insert_ne; [done|]. intros E. congruence.
Qed.

Definition all_blocks d (a : Z) : list Z := block_addr d a <$> seqZ 0 (blocks_per_arena d).

Lemma arena_blocks_from h a ar k d n i :
  arenas h !! a = Some ar → owner ar = Some k → descs h !! k = Some d → desc_wf d → is_arena_addr a →
  0 ≤ i → i + Z.of_nat n ≤ blocks_per_arena d →
  arena_blocks h a n i = Ok (block_addr d a <$> seqZ i (Z.of_nat n)).
Proof.
  intros Ha Ho Hd Hwf Haa. revert i. induction n as [|n IH]; intros i H0 Hle; [done|]. cbn [arena_blocks].
  unfold arena_to_block at 1. rewrite (proj2 (Z.eqb_neq a 0)) by (destruct Haa as (j & -> & ?); unfold PGSIZE; lia).
  cbn [negb]. rewrite Ha, Ho. mstep. rewrite Hd. mstep. rewrite (proj2 (Z.ltb_lt _ _)) by lia.
  destruct (block_addr_page d a i Hwf Haa ltac:(lia)) as (Hu & _). fold (block_addr d a i). rewrite u32_small by done.
  mstep. rewrite IH by lia. mstep. rewrite (seqZ_cons i) by lia. simpl. do 3 f_equal. f_equal. lia.
Qed.

Lemma arena_blocks_ok h a ar k d :
  arenas h !! a = Some ar → owner ar = Some k → descs h !! k = Some d → desc_wf d → is_arena_addr a →
  arena_blocks h a (Z.to_nat (blocks_per_arena d)) 0 = Ok (all_blocks d a).
Proof.
  intros Ha Ho Hd Hwf Haa. pose proof (dw_cnt _ Hwf). rewrite (arena_blocks_from h a ar k d); try done; [|lia].
  unfold all_blocks. by rewrite Z2Nat.id by lia.
Qed.

Lemma all_blocks_spec d a b : b ∈ all_blocks d a ↔ ∃ idx, 0 ≤ idx < blocks_per_arena d ∧ b = block_addr d a idx.
Proof.
  unfold all_blocks. rewrite list_elem_of_fmap. setoid_rewrite elem_of_seqZ.
  split; intros (idx & ? & ?); exists idx; split; done || lia.
Qed.

Lemma all_blocks_NoDup d a : desc_wf d → NoDup (all_blocks d a).
Proof.
  intros Hwf. apply NoDup_fmap_2_strong; [|apply NoDup_seqZ]. intros x y _ _. by apply block_addr_inj.
Qed.

Lemma all_blocks_length d a : desc_wf d → Z.of_nat (length (all_blocks d a)) = blocks_per_arena d.
Proof. intros Hwf. pose proof (dw_cnt _ Hwf). unfold all_blocks. rewrite length_fmap, length_seqZ. lia. Qed.

Lemma all_blocks_page d a b : desc_wf d → is_arena_addr a → b ∈ all_blocks d a → b / PGSIZE = a / PGSIZE.
Proof. intros Hwf Haa (idx & Hidx & ->)%all_blocks_spec. by apply block_addr_page. Qed.

Lemma free_in_all a l : (∀ b, b ∈ l → b / PGSIZE = a / PGSIZE) → free_in a l = l.
Proof. intros H. apply filter_all, Forall_forall. done. Qed.

Lemma free_in_none a l : (∀ b, b ∈ l → b / PGSIZE ≠ a / PGSIZE) → free_in a l = [].
Proof.
  unfold free_in. induction l as [|b l IH]; intros H; [done|]. rewrite filter_cons_False; [|apply H; set_solver].
  apply IH. set_solver.
Qed.

Lemma set_free_list_lookup h k d l k' d' :
  is_Some (descs h !! k) →
  descs (set_free_list h k d l) !! k' = Some d' ↔
  k' = k ∧ d' = Desc (block_size d) (blocks_per_arena d) l ∨ k' ≠ k ∧ descs h !! k' = Some d'.
Proof.
  intros [x Hx]. simpl. rewrite list_lookup_insert_Some. apply lookup_lt_Some in Hx. naive_solver.
Qed.

Lemma arena_page a : is_arena_addr a → a = PGSIZE * (a / PGSIZE).
Proof. intros (i & -> & _). rewrite (Z.mul_comm PGSIZE i), Z.div_mul by done. lia. Qed.

(** The invariant after a change to descriptor [k]: its free list is [l] now, and
    the arenas of the other descriptors and the big blocks are as before. *)
Lemma heap_inv_update h live h' live' k d l :
  heap_inv h live → descs h !! k = Some d →
  descs h' = <[k := Desc (block_size d) (blocks_per_arena d) l]> (descs h) →
  pages_ok (pal h') →
  (∀ a ar, owner ar ≠ Some k → arenas h' !! a = Some ar ↔ arenas h !! a = Some ar) →
  (∀ a ar, arenas h' !! a = Some ar → ∃ i, a = PGSIZE * i ∧ block_of (pal h') i (npages ar)) →
  (∀ a1 ar1 a2 ar2 pg, arenas h' !! a1 = Some ar1 → arenas h' !! a2 = Some ar2 →
    within (a1 / PGSIZE) (npages ar1) pg → within (a2 / PGSIZE) (npages ar2) pg → a1 = a2) →
  NoDup l → (∀ b, b ∈ l → is_block h' k d b) →
  (∀ a ar, arenas h' !! a = Some ar → owner ar = Some k → free_cnt ar = Z.of_nat (length (free_in a l))) →
  (∀ p n, live' !! p = Some n →
    0 < n ∧ n ≤ block_size d ∧ is_block h' k d p ∧ p ∉ l ∨
    live !! p = Some n ∧ (is_block h k d p → p ∉ free_list d → is_block h' k d p ∧ p ∉ l)) →
  heap_inv h' live'.
Proof.
  intros Hi Hd Ed Hp Hother Har Hsep Hnd Hl Hcnt Hlive. pose proof Hi as [].
  assert (∀ k' d', descs h' !! k' = Some d' →
    k' = k ∧ d' = Desc (block_size d) (blocks_per_arena d) l ∨ k' ≠ k ∧ descs h !! k' = Some d') as Hds.
  { intros k' d' H'. rewrite Ed in H'. apply (set_free_list_lookup h k d l); [by eexists|]. done. }
  assert (is_Some (descs h' !! k)) as Hk.
  { rewrite Ed, list_lookup_insert_eq by (by eapply lookup_lt_Some). by eexists. }
  assert (∀ k' d' b, k' ≠ k → is_block h k' d' b → is_block h' k' d' b) as Hblk.
  { intros k' d' b Hne (a & ar & idx & Ha & Ho & Hidx & ->). exists a, ar, idx.
    split; [apply Hother; [congruence|done]|done]. }
  split; try done.
  - intros k' d' [[-> ->]|[_ H']]%Hds; [by destruct (hi_desc0 k d Hd)|eauto].
  - intros a ar Ha. split; [auto|]. intros k' Ho. destruct (decide (k' = k)) as [->|Hne]; [done|].
    apply Hother in Ha; [|congruence]. rewrite Ed, list_lookup_insert_ne by done. by eapply hi_arena0.
  - intros k' d' [[-> ->]|[_ H']]%Hds; eauto.
  - intros k' d' b [[-> ->]|[Hne H']]%Hds Hb; [exact (Hl b Hb)|eauto].
  - intros a ar k' d' Ha Ho [[-> ->]|[Hne H']]%Hds; [eauto|]. apply Hother in Ha; [|congruence]. eauto.
  - intros p n [(Hn & Hle & Hb & Hnl)|[Hp' Hstill]]%Hlive.
    + split; [done|]. left. exists k, (Desc (block_size d) (blocks_per_arena d) l). split_and!; try done.
      rewrite Ed. apply list_lookup_insert_eq. by eapply lookup_lt_Some.
    + destruct (hi_live0 p n Hp') as (Hn & [(k' & d' & Hd' & Hb & Hle & Hnf)|(ar & Ha & Ho & Hle)]); (split; [done|]).
      * left. destruct (decide (k' = k)) as [->|Hne].
        { rewrite Hd in Hd'. injection Hd' as <-. destruct (Hstill Hb Hnf) as [Hb' Hnl].
          exists k, (Desc (block_size d) (blocks_per_arena d) l). split_and!; try done.
          rewrite Ed. apply list_lookup_insert_eq. by eapply lookup_lt_Some. }
        exists k', d'. split_and!; try done; [|by apply Hblk]. by rewrite Ed, list_lookup_insert_ne.
      * right. exists ar. split_and!; try done. apply Hother; [congruence|done].
Qed.

(** A new arena whose blocks become the free list of its descriptor. *)
Lemma new_blocks_ok h live k d i q :
  heap_inv h live → descs h !! k = Some d → free_list d = [] → granted 0 1 (pal h) i q →
  heap_inv (set_free_list (set_arena (set_pal h q) (PGSIZE * i) (Arena (Some k) (blocks_per_arena d))) k d
    (all_blocks d (PGSIZE * i))) live.
Proof using PageLaws0.
  intros Hi Hd Hnil Hg. pose proof (hi_desc _ _ Hi k d Hd) as Hwf.
  set (a := PGSIZE * i). set (ar := Arena (Some k) (blocks_per_arena d)).
  destruct (new_arena_ok h live 0 1 i q ar Hi Hg) as (Har & Hsep & Hblk); [done|by intros ? [= <-]|].
  destruct (granted_fresh _ _ _ _ _ _ Hi Hg) as [Hnone _]. fold a in Hnone, Har, Hsep, Hblk.
  assert (is_arena_addr a) as Haa.
  { destruct (block_law _ _ _ (gr_ok _ _ _ _ _ Hg) (gr_block _ _ _ _ _ Hg)) as (? & ? & ? & _). exists i. split; [done|lia]. }
  assert (∀ a' ar', arenas h !! a' = Some ar' → a' / PGSIZE ≠ a / PGSIZE) as Hpg.
  { intros a' ar' Ha' E. pose proof (arena_page _ (arena_addr _ _ _ _ Hi Ha')) as E'.
    rewrite E, <-(arena_page a Haa) in E'. congruence. }
  apply (heap_inv_update h live _ live k d (all_blocks d a)); try done.
  - apply (gr_ok _ _ _ _ _ Hg).
  - intros a' ar' Ho. simpl. rewrite lookup_insert_Some. split; [|naive_solver].
    intros [[<- <-]|[_ ?]]; done.
  - intros a' ar' Ha'. by apply Har.
  - by apply all_blocks_NoDup.
  - intros b (idx & Hidx & ->)%all_blocks_spec. exists a, ar, idx. split; [apply lookup_insert_eq|done].
  - intros a' ar' Ha' Ho. simpl in Ha'. apply lookup_insert_Some in Ha' as [[<- <-]|[Hne Ha']].
    + rewrite free_in_all by (intros b; by apply all_blocks_page). by rewrite all_blocks_length.
    + rewrite (hi_cnt _ _ Hi a' ar' k d Ha' Ho Hd), Hnil. rewrite (free_in_none a' (all_blocks d a)); [done|].
      intros b Hb. rewrite (all_blocks_page d a b) by done. intros E. by eapply (Hpg a').
  - intros p n Hp. right. split; [done|]. intros Hb _. split; [by apply Hblk|].
    intros Hin. destruct Hb as (a' & ar' & idx & Ha' & _ & Hidx & ->). apply all_blocks_page in Hin; [|done|done].
    destruct (block_addr_page d a' idx Hwf (arena_addr _ _ _ _ Hi Ha') Hidx) as (_ & E & _). rewrite E in Hin. by eapply Hpg.
Qed.

Lemma refill_ok h live k d :
  heap_inv h live → descs h !! k = Some d →
  ∃ ok h', refill h k d = Ok (ok, h') ∧ heap_inv h' live ∧ (∀ x, pmem (pal h') x = pmem (pal h) x) ∧
    if ok : bool then ∃ b l, descs h' !! k = Some (Desc (block_size d) (blocks_per_arena d) (b :: l)) else True.
Proof using PageLaws0.
  intros Hi Hd. pose proof (hi_desc _ _ Hi k d Hd) as Hwf. unfold refill. destruct (free_list d) as [|b l] eqn:Hl.
  2: { exists true, h. split_and!; try done. exists b, l. rewrite Hd, <-Hl. by destruct d. }
  destruct (get_law 0 1 (pal h) (hi_pages _ _ Hi) eq_refl) as [(i & q & -> & Hg)|(q & -> & Hu)]; [done| |]; mstep.
  2: { exists false, (set_pal h q). split_and!; try done; [|apply (un_mem _ _ Hu)].
       apply heap_inv_pal; [done|apply (un_ok _ _ Hu)|apply (un_keep _ _ Hu)]. }
  destruct (block_law _ _ _ (gr_ok _ _ _ _ _ Hg) (gr_block _ _ _ _ _ Hg)) as (? & ? & ? & _).
  rewrite (proj2 (Z.eqb_neq _ _)) by (unfold PGSIZE; lia).
  rewrite (arena_blocks_ok _ _ (Arena (Some k) (blocks_per_arena d)) k d); try done;
    [|apply lookup_insert_eq|exists i; split; [done|lia]].
  mstep. eexists true, _. split; [done|]. split_and!; [by apply new_blocks_ok|apply (gr_mem _ _ _ _ _ Hg)|].
  destruct (all_blocks d (PGSIZE * i)) as [|b l] eqn:E.
  - pose proof (all_blocks_length d (PGSIZE * i) Hwf) as Hlen. rewrite E in Hlen. pose proof (dw_cnt _ Hwf). simpl in Hlen. lia.
  - exists b, l. simpl. apply list_lookup_insert_eq. by eapply lookup_lt_Some.
Qed.

Lemma block_to_arena_set h k d l b :
  descs h !! k = Some d → block_to_arena (set_free_list h k d l) b = block_to_arena h b.
Proof.
  intros Hd. unfold block_to_arena. simpl. destruct (arenas h !! pg_round_down b) as [ar|]; [|done].
  destruct (owner ar) as [k'|]; [|done]. destruct (decide (k' = k)) as [->|Hne].
  - rewrite list_lookup_insert_eq by (by eapply lookup_lt_Some). by rewrite Hd.
  - by rewrite list_lookup_insert_ne.
Qed.

(** The free list and the count of one arena change. *)
Lemma recount_ok h live live' k d a ar l n :
  heap_inv h live → descs h !! k = Some d → arenas h !! a = Some ar → owner ar = Some k →
  NoDup l → (∀ b, b ∈ l → is_block h k d b) → n = Z.of_nat (length (free_in a l)) →
  (∀ a', a' / PGSIZE ≠ a / PGSIZE → free_in a' l = free_in a' (free_list d)) →
  (∀ p m, live' !! p = Some m →
    0 < m ∧ m ≤ block_size d ∧ is_block h k d p ∧ p ∉ l ∨
    live !! p = Some m ∧ (is_block h k d p → p ∉ free_list d → p ∉ l)) →
  heap_inv (set_arena (set_free_list h k d l) a (Arena (Some k) n)) live'.
Proof using PageLaws0.
  intros Hi Hd Ha Ho Hnd Hl Hn Hother Hlive. set (h' := set_arena _ _ _).
  assert (arenas h' = <[a := Arena (Some k) n]> (arenas h)) as E by done.
  assert (∀ a' ar', arenas h' !! a' = Some ar' → ∃ ar0, arenas h !! a' = Some ar0 ∧ npages ar' = npages ar0 ∧ owner ar' = owner ar0) as Hold.
  { intros a' ar'. rewrite E. intros [[<- <-]|[_ H']]%lookup_insert_Some; [|by exists ar'].
    exists ar. unfold npages. by rewrite Ho. }
  assert (∀ b, is_block h k d b → is_block h' k d b) as Hblk.
  { intros b (a' & ar' & idx & Ha' & Ho' & Hidx & ->). destruct (decide (a' = a)) as [->|Hne].
    - exists a, (Arena (Some k) n), idx. rewrite E. split; [apply lookup_insert_eq|done].
    - exists a', ar', idx. rewrite E. split; [by rewrite lookup_insert_ne|done]. }
  pose proof Hi as []. apply (heap_inv_update h live h' live' k d l); try done.
  - intros a' ar' Hno. rewrite E, lookup_insert_Some. split; [intros [[<- <-]|[_ ?]]; done|].
    intros H'. destruct (decide (a = a')) as [<-|]; [congruence|auto].
  - intros a' ar' (ar0 & H0 & -> & _)%Hold. by apply hi_arena0.
  - intros a1 ar1 a2 ar2 pg (x1 & H1 & -> & _)%Hold (x2 & H2 & -> & _)%Hold. by apply hi_sep0.
  - auto.
  - intros a' ar' Ha' Ho'. rewrite E in Ha'. apply lookup_insert_Some in Ha' as [[<- <-]|[Hne Ha']]; [done|].
    rewrite Hother; [by eapply hi_cnt0|]. intros Ep. apply Hne.
    rewrite (arena_page a), (arena_page a') by (by eapply arena_addr). by rewrite Ep.
  - intros p m [(? & ? & ? & ?)|[Hp Hst]]%Hlive; [left; auto|right]. split; [done|]. intros Hb Hnf. split; auto.
Qed.

(** The free blocks of an arena are some of its blocks. *)
Lemma free_in_blocks h live k d a l :
  heap_inv h live → descs h !! k = Some d → is_arena_addr a → NoDup l → (∀ b, b ∈ l → is_block h k d b) →
  free_in a l ⊆+ all_blocks d a.
Proof using PageLaws0.
  intros Hi Hd Haa Hnd Hl. apply NoDup_submseteq; [by apply NoDup_filter|].
  intros b [Hp Hb]%list_elem_of_filter. apply all_blocks_spec.
  destruct (is_block_arena h live k d b Hi Hd (Hl b Hb)) as (_ & idx & _ & _ & Hidx & E).
  rewrite Hp, <-(arena_page a Haa) in E. by exists idx.
Qed.

Lemma free_in_length h live k d a l :
  heap_inv h live → descs h !! k = Some d → is_arena_addr a → NoDup l → (∀ b, b ∈ l → is_block h k d b) →
  Z.of_nat (length (free_in a l)) ≤ blocks_per_arena d < WORD.
Proof using PageLaws0.
  intros Hi Hd Haa Hnd Hl. pose proof (hi_desc _ _ Hi k d Hd) as Hwf. rewrite <-(all_blocks_length d a) by done.
  split; [apply Nat2Z.inj_le, submseteq_length; by eapply free_in_blocks|].
  rewrite all_blocks_length by done. destruct Hwf. unfold PGSIZE in *. nia.
Qed.

(** Taking the first free block. *)
Lemma take_block_ok h live k d b l n :
  heap_inv h live → descs h !! k = Some d → free_list d = b :: l → 0 < n ≤ block_size d →
  ∃ ar, block_to_arena (set_free_list h k d l) b = Ok (PGSIZE * (b / PGSIZE), ar) ∧ b ≠ NULL ∧
    heap_inv (set_arena (set_free_list h k d l) (PGSIZE * (b / PGSIZE)) (Arena (owner ar) (u32 (free_cnt ar - 1))))
      (<[b := n]> live).
Proof using PageLaws0.
  intros Hi Hd Hl Hn. pose proof (hi_nodup _ _ Hi k d Hd) as Hnd. rewrite Hl in Hnd. apply NoDup_cons in Hnd as [Hbl Hnd].
  assert (is_block h k d b) as Hb by (apply (hi_free _ _ Hi k d b Hd); rewrite Hl; set_solver).
  destruct (block_to_arena_ok h live k d b Hi Hd Hb) as (ar & Hba & Ha & Ho & Hb0). exists ar.
  rewrite block_to_arena_set by done. split_and!; try done.
  set (a := PGSIZE * (b / PGSIZE)) in *.
  assert (a / PGSIZE = b / PGSIZE) as Hpg by (unfold a; by rewrite (Z.mul_comm PGSIZE), Z.div_mul).
  assert (free_cnt ar = Z.of_nat (length (free_in a l)) + 1) as Hcnt.
  { rewrite (hi_cnt _ _ Hi a ar k d Ha Ho Hd), Hl. unfold free_in. rewrite filter_cons_True by done. simpl. lia. }
  assert (∀ x, x ∈ l → is_block h k d x) as Hlb.
  { intros x Hx. apply (hi_free _ _ Hi k d x Hd). rewrite Hl. set_solver. }
  pose proof (free_in_length h live k d a l Hi Hd (arena_addr _ _ _ _ Hi Ha) Hnd Hlb) as Hbound.
  rewrite Ho. apply (recount_ok h live _ k d a ar l); try done.
  - rewrite u32_small by (unfold is_u32; lia). lia.
  - intros a' Ha'. rewrite Hl. unfold free_in. rewrite filter_cons_False; [done|]. congruence.
  - intros p m [[<- <-]|[Hne Hp]]%lookup_insert_Some; [left; by destruct Hn|right]. split; [done|].
    intros _ Hnf Hin. apply Hnf. rewrite Hl. set_solver.
Qed.

(** A live block is on no free list. *)
Lemma live_not_free h live x m k d :
  heap_inv h live → live !! x = Some m → descs h !! k = Some d → x ∉ free_list d.
Proof using PageLaws0.
  intros Hi Hx Hd Hin. pose proof (hi_free _ _ Hi k d x Hd Hin) as Hb.
  destruct (is_block_arena h live k d x Hi Hd Hb) as (ar & idx & Ha & Ho & _ & _).
  destruct (hi_live _ _ Hi x m Hx) as (_ & [(k2 & d2 & Hd2 & Hb2 & _ & Hnf)|(ar2 & Ha2 & Ho2 & _)]).
  - destruct (is_block_arena h live k2 d2 x Hi Hd2 Hb2) as (ar2 & _ & Ha2 & Ho2 & _ & _). congruence.
  - destruct (arena_addr _ _ _ _ Hi Ha2) as (j & E & _). replace (PGSIZE * (x / PGSIZE)) with (x - ARENA_SIZE) in Ha; [congruence|].
    rewrite E. f_equal. apply (Z.div_unique x PGSIZE j ARENA_SIZE); unfold PGSIZE in *; lia.
Qed.

(** A fresh run of pages has no live block. *)
Lemma granted_not_live h live cnt i q :
  heap_inv h live → granted 0 cnt (pal h) i q → live !! (PGSIZE * i + ARENA_SIZE) = None.
Proof using PageLaws0.
  intros Hi Hg. destruct (live !! _) as [m|] eqn:Hl; [|done]. exfalso.
  destruct (live_extent _ _ _ _ Hi Hl) as (a & ar & Ha & Ea & L & R & _). destruct (hi_live _ _ Hi _ _ Hl) as (Hm & _).
  destruct (granted_fresh _ _ _ _ _ _ Hi Hg) as [_ Hno]. apply (Hno a ar i Ha); unfold within, PGSIZE in *; [lia|].
  pose proof (gr_cnt _ _ _ _ _ Hg). lia.
Qed.

Lemma find_desc_ok ds size k k' d : find_desc ds size k = Some (k', d) → ds !! (k' - k)%nat = Some d ∧ (k ≤ k')%nat ∧ size ≤ block_size d.
Proof.
  revert k. induction ds as [|d0 ds IH]; intros k H; [done|]. simpl in H. destruct (Z.leb_spec size (block_size d0)).
  - simplify_eq. rewrite Nat.sub_diag. split_and!; done || lia.
  - destruct (IH (S k) H) as (Hd & Hk & Hs). split_and!; [|lia|done]. replace (k' - k)%nat with (S (k' - S k)) by lia. done.
Qed.

(** The largest request for which a block has as many bytes as asked for. *)
Definition MALLOC_MAX : Z := WORD - ARENA_SIZE.

(** The bytes of a block that a request for [n] bytes may get. *)
Definition room (n : Z) : Z := if n <=? MALLOC_MAX then n else PGSIZE - ARENA_SIZE.

Lemma room_fits n : n ≤ MALLOC_MAX → room n = n.
Proof. intros Hn. unfold room. by rewrite (proj2 (Z.leb_le _ _)). Qed.

Lemma room_bounds n : 0 < n → 0 < room n ≤ n.
Proof. unfold room, MALLOC_MAX, PGSIZE. intros. destruct (Z.leb_spec n (WORD - ARENA_SIZE)); lia. Qed.

(** The number of pages wraps around to 0 or to 1 near the end of the range. *)
Lemma page_cnt_ok n :
  0 < n < WORD → let c := DIV_ROUND_UP (u32 (n + ARENA_SIZE)) PGSIZE in
  0 ≤ c < WORD ∧ (c ≠ 0 → room n + ARENA_SIZE ≤ PGSIZE * c).
Proof.
  intros Hn. cbv zeta. unfold room, MALLOC_MAX, PGSIZE. destruct (Z.leb_spec n (WORD - ARENA_SIZE - 4096)).
  - rewrite u32_small by (unfold is_u32; lia). rewrite (proj2 (Z.leb_le n _)) by lia.
    pose proof (DIV_ROUND_UP_spec (n + ARENA_SIZE) 4096 ltac:(lia) ltac:(lia) ltac:(lia)). lia.
  - unfold DIV_ROUND_UP. destruct (Z.leb_spec n (WORD - ARENA_SIZE)).
    + assert (u32 (u32 (n + ARENA_SIZE) + 4096 - 1) < 4096) as Hs.
      { unfold u32. rewrite <-(Z.mod_unique (n + ARENA_SIZE) WORD (if n =? WORD - ARENA_SIZE then 1 else 0) (if n =? WORD - ARENA_SIZE then 0 else n + ARENA_SIZE));
          destruct (Z.eqb_spec n (WORD - ARENA_SIZE)); try lia; [done|].
        rewrite <-(Z.mod_unique (n + ARENA_SIZE + 4096 - 1) WORD 1 (n + ARENA_SIZE + 4096 - 1 - WORD)); lia. }
      pose proof (u32_range (u32 (n + ARENA_SIZE) + 4096 - 1)) as Hr. rewrite Z.div_small by (unfold is_u32 in Hr; lia). lia.
    + assert (u32 (n + ARENA_SIZE) = n + ARENA_SIZE - WORD) as -> by (unfold u32; symmetry; apply (Z.mod_unique _ _ 1); lia).
      assert (n + ARENA_SIZE - WORD ≤ ARENA_SIZE) by lia.
      pose proof (DIV_ROUND_UP_spec (n + ARENA_SIZE - WORD) 4096 ltac:(lia) ltac:(lia) ltac:(lia)) as Hd. unfold DIV_ROUND_UP in Hd. lia.
Qed.

(** A call of [malloc] keeps the invariant and the contents of memory. *)
Lemma malloc_any_ok n h live :
  heap_inv h live → 0 ≤ n < WORD →
  ∃ p h', malloc n h = Ok (p, h') ∧ (∀ x, pmem (pal h') x = pmem (pal h) x) ∧
    heap_inv h' (if p =? NULL then live else <[p := room n]> live) ∧ (p ≠ NULL → 0 < n ∧ live !! p = None).
Proof using PageLaws0.
  intros Hi Hn. unfold malloc. destruct (Z.eqb_spec n 0) as [->|Hn0]; [by exists NULL, h; split_and!|].
  destruct (find_desc (descs h) n 0) as [[k d]|] eqn:Hf.
  - apply find_desc_ok in Hf as (Hd & _ & Hs). rewrite Nat.sub_0_r in Hd.
    destruct (refill_ok h live k d Hi Hd) as (ok & h1 & -> & Hi1 & Hm & Hok). mstep. destruct ok; cbn [negb].
    + destruct Hok as (b & l & Hd1). rewrite Hd1. mstep. cbn [free_list].
      destruct (take_block_ok h1 live k _ b l (room n) Hi1 Hd1 eq_refl) as (ar & Hba & Hb0 & Hi2); [pose proof (room_bounds n); simpl; lia|].
      rewrite Hba. mstep. do 2 eexists. split; [done|]. rewrite (proj2 (Z.eqb_neq b 0)) by done.
      split_and!; try done. intros _. split; [lia|]. destruct (live !! b) as [m|] eqn:Hb; [|done].
      destruct (live_not_free h1 live b m k _ Hi1 Hb Hd1). simpl. set_solver.
    + exists NULL, h1. split_and!; done.
  - destruct (page_cnt_ok n ltac:(lia)) as [Hc Hfit]. set (c := DIV_ROUND_UP _ _) in *.
    destruct (get_law 0 c (pal h) (hi_pages _ _ Hi) eq_refl Hc) as [(i & q & -> & Hg)|(q & -> & Hu)]; mstep.
    + destruct (block_law _ _ _ (gr_ok _ _ _ _ _ Hg) (gr_block _ _ _ _ _ Hg)) as (? & ? & ? & _).
      rewrite (proj2 (Z.eqb_neq _ _)) by (unfold PGSIZE; lia). do 2 eexists. split; [done|].
      rewrite u32_small by (unfold is_u32, PGSIZE; lia). rewrite (proj2 (Z.eqb_neq _ _)) by (unfold PGSIZE; lia).
      pose proof (gr_cnt _ _ _ _ _ Hg). pose proof (room_bounds n ltac:(lia)).
      split_and!; [apply (gr_mem _ _ _ _ _ Hg)|apply big_block_ok; done || lia|].
      intros _. split; [lia|by eapply granted_not_live].
    + exists NULL, (set_pal h q). split_and!; try done; [apply (un_mem _ _ Hu)|].
      apply heap_inv_pal; [done|apply (un_ok _ _ Hu)|apply (un_keep _ _ Hu)].
Qed.

Lemma malloc_call_ok n h live :
  heap_inv h live → 0 ≤ n ≤ MALLOC_MAX →
  ∃ p h', malloc n h = Ok (p, h') ∧ (∀ x, pmem (pal h') x = pmem (pal h) x) ∧
    heap_inv h' (if p =? NULL then live else <[p := n]> live) ∧ (p ≠ NULL → 0 < n ∧ live !! p = None).
Proof using PageLaws0.
  intros Hi Hn. destruct (malloc_any_ok n h live Hi) as (p & h' & H); [unfold MALLOC_MAX in Hn; lia|].
  rewrite (room_fits n) in H by lia. by exists p, h'.
Qed.

(** *** Release *)

Lemma remove_blocks_ok bs l :
  NoDup bs → (∀ b, b ∈ bs → b ∈ l) → remove_blocks bs l = Ok (filter (λ x, x ∉ bs) l).
Proof.
  revert l. induction bs as [|b bs IH]; intros l Hnd Hin; cbn [remove_blocks].
  - f_equal. symmetry. apply filter_all, Forall_forall. set_solver.
  - apply NoDup_cons in Hnd as [Hb Hnd]. rewrite bool_decide_eq_true_2 by set_solver. rewrite IH; [|done|].
    + f_equal. rewrite list_filter_filter. apply list_filter_iff. intros x. set_solver.
    + intros x Hx. apply list_elem_of_filter. split; [by intros ->|set_solver].
Qed.

(** A block whose arena stays. *)
Lemma is_block_other h h' live k d a b :
  heap_inv h live → descs h !! k = Some d → arenas h' = delete a (arenas h) → is_arena_addr a →
  is_block h k d b → b / PGSIZE ≠ a / PGSIZE → is_block h' k d b.
Proof using PageLaws0.
  intros Hi Hd E Haa (a' & ar & idx & Ha & Ho & Hidx & ->) Hne. exists a', ar, idx. rewrite E.
  split; [|done]. rewrite lookup_delete_ne; [done|]. intros <-. apply Hne.
  apply (block_addr_page d a idx (hi_desc _ _ Hi k d Hd) Haa Hidx).
Qed.

(** What giving the pages of an arena back keeps. *)
Lemma drop_arena_ok h live a ar q :
  heap_inv h live → arenas h !! a = Some ar →
  (∀ j c, block_of (pal h) j c → (∀ pg, within j c pg → ¬ within (a / PGSIZE) (npages ar) pg) → block_of q j c) →
  (∀ a' ar', delete a (arenas h) !! a' = Some ar' → ∃ j, a' = PGSIZE * j ∧ block_of q j (npages ar')) ∧
  (∀ a1 ar1 a2 ar2 pg, delete a (arenas h) !! a1 = Some ar1 → delete a (arenas h) !! a2 = Some ar2 →
    within (a1 / PGSIZE) (npages ar1) pg → within (a2 / PGSIZE) (npages ar2) pg → a1 = a2).
Proof.
  intros Hi Ha Hq. split.
  - intros a' ar' [Hne Ha']%lookup_delete_Some. destruct (hi_arena _ _ Hi a' ar' Ha') as [(j & -> & Hb) _].
    exists j. split; [done|]. apply Hq; [done|]. intros pg W1 W2. apply Hne. symmetry.
    eapply (hi_sep _ _ Hi _ _ _ _ pg Ha' Ha); [|done]. by rewrite (Z.mul_comm PGSIZE), Z.div_mul.
  - intros a1 ar1 a2 ar2 pg [_ H1]%lookup_delete_Some [_ H2]%lookup_delete_Some. by apply (hi_sep _ _ Hi).
Qed.

(** The last block of an arena comes back: the arena goes, and its blocks leave
    the free list. *)
Lemma drop_small_ok h live k d a ar p q l :
  heap_inv h live → descs h !! k = Some d → arenas h !! a = Some ar → owner ar = Some k →
  NoDup (p :: free_list d) → p ∈ all_blocks d a → (∀ b, b ∈ all_blocks d a → b ∈ p :: free_list d) →
  pages_ok q →
  (∀ j c, block_of (pal h) j c → (∀ pg, within j c pg → ¬ within (a / PGSIZE) 1 pg) → block_of q j c) →
  l = filter (λ x, x ∉ all_blocks d a) (p :: free_list d) →
  heap_inv (Heap q (<[k := Desc (block_size d) (blocks_per_arena d) l]> (descs h)) (delete a (arenas h))) (delete p live).
Proof using PageLaws0.
  intros Hi Hd Ha Ho Hnd Hp Hall Hq Hkeep El. pose proof (hi_desc _ _ Hi k d Hd) as Hwf.
  pose proof (arena_addr _ _ _ _ Hi Ha) as Haa.
  destruct (drop_arena_ok h live a ar q Hi Ha) as [Har Hsep]; [unfold npages; by rewrite Ho|].
  assert (∀ b, is_block h k d b → b / PGSIZE = a / PGSIZE → b ∈ all_blocks d a) as Hpg.
  { intros b Hb E. destruct (is_block_arena h live k d b Hi Hd Hb) as (_ & idx & _ & _ & Hidx & Eb).
    apply all_blocks_spec. exists idx. split; [done|]. by rewrite E, <-(arena_page a Haa) in Eb. }
  apply (heap_inv_update h live _ _ k d l); try done; simpl.
  - intros a' ar' Hno. rewrite lookup_delete_Some. split; [by intros [_ ?]|]. intros Ha'. split; [|done]. intros <-. congruence.
  - rewrite El. by apply NoDup_filter.
  - intros b Hb. rewrite El in Hb. apply list_elem_of_filter in Hb as [Hnb Hb].
    apply elem_of_cons in Hb as [->|Hb]; [done|]. pose proof (hi_free _ _ Hi k d b Hd Hb) as Hblk.
    eapply (is_block_other h); try done. intros E. by apply Hnb, Hpg.
  - intros a' ar' [Hne Ha']%lookup_delete_Some Ho'. rewrite (hi_cnt _ _ Hi a' ar' k d Ha' Ho' Hd). do 2 f_equal.
    assert (a' / PGSIZE ≠ a / PGSIZE) as Hnp.
    { intros E. apply Hne. rewrite (arena_page a Haa), (arena_page a' (arena_addr _ _ _ _ Hi Ha')). by rewrite E. }
    rewrite El. unfold free_in. rewrite filter_cons_False by (intros H; by apply H).
    rewrite list_filter_filter. apply list_filter_iff. intros x. split; [|tauto].
    intros E. split; [done|]. intros Hx. apply all_blocks_page in Hx; [congruence|done|done].
  - intros x m [Hne Hx]%lookup_delete_Some. right. split; [done|]. intros Hb Hnf.
    assert (x / PGSIZE ≠ a / PGSIZE) as Hxp.
    { intros E. apply (Hpg x Hb), Hall in E. set_solver. }
    split; [by eapply (is_block_other h)|]. rewrite El. intros [_ Hin]%list_elem_of_filter. set_solver.
Qed.

(** Live blocks other than [p] keep their contents. *)
Definition contents_kept h h' live (p : Z) : Prop :=
  ∀ q m x, live !! q = Some m → q ≠ p → q ≤ x < q + m → pmem (pal h') x = pmem (pal h) x.

Lemma heap_inv_mem h live m : heap_inv h live → heap_inv (set_pal h (set_pmem m (pal h))) live.
Proof using PageLaws0.
  intros Hi. destruct (set_pmem_law m (pal h)) as (Hok & _ & Hb & _).
  apply heap_inv_pal; [done|apply Hok, Hi|done].
Qed.

(** Clearing a live block leaves the other ones alone. *)
Lemma clear_block_kept h live k d p n v :
  heap_inv h live → live !! p = Some n → descs h !! k = Some d → is_block h k d p →
  contents_kept h (set_pal h (set_pmem (memset (pmem (pal h)) p v (block_size d)) (pal h))) live p.
Proof using PageLaws0.
  intros Hi Hp Hd Hb q m x Hq Hne Hx. cbn [pal set_pal]. destruct (set_pmem_law (memset (pmem (pal h)) p v (block_size d)) (pal h)) as (_ & _ & _ & ->).
  unfold memset. destruct (decide (p ≤ x < p + block_size d)) as [Hin|Hout].
  2: { destruct (Z.leb_spec p x), (Z.ltb_spec x (p + block_size d)); simpl; done || lia. }
  exfalso. destruct Hb as (a & ar & i1 & Ha & Ho & Hi1 & ->). pose proof (hi_desc _ _ Hi k d Hd) as Hwf.
  destruct (block_addr_page d a i1 Hwf (arena_addr _ _ _ _ Hi Ha) Hi1) as (_ & _ & _ & _ & _ & Hend).
  destruct (live_extent _ _ _ _ Hi Hq) as (a2 & ar2 & Ha2 & _ & L2 & R2 & Hk2).
  destruct (decide (a = a2)) as [->|Hna].
  - rewrite Ha in Ha2. injection Ha2 as <-. rewrite Ho in Hk2.
    destruct Hk2 as (d' & i2 & Hd' & _ & -> & ? & _). rewrite Hd in Hd'. injection Hd' as <-.
    destruct (blocks_disjoint d a2 i1 i2 Hwf); [by intros ->|lia|lia].
  - assert (npages ar = 1) as Hnp by (unfold npages; by rewrite Ho). destruct Hwf.
    destruct (arenas_disjoint _ _ _ _ _ _ Hi Ha Ha2 Hna) as [Hd1|Hd1]; rewrite ?Hnp in Hd1; unfold block_addr in *; nia.
Qed.

(** Live blocks outside an arena do not lie in its pages. *)
Lemma live_not_in_pages h live a ar q m x :
  heap_inv h live → arenas h !! a = Some ar → live !! q = Some m →
  (owner ar = None → q ≠ a + ARENA_SIZE) →
  (∀ k d, owner ar = Some k → descs h !! k = Some d → q ∉ all_blocks d a) →
  q ≤ x < q + m → ¬ in_pages (a / PGSIZE) (npages ar) x.
Proof using PageLaws0.
  intros Hi Ha Hq Hbig Hsmall Hx. destruct (live_extent _ _ _ _ Hi Hq) as (a' & ar' & Ha' & _ & L & R & Hk).
  assert (a' ≠ a) as Hne.
  { intros ->. rewrite Ha in Ha'. injection Ha' as <-. destruct (owner ar) as [k|]; [|by apply Hbig].
    destruct Hk as (d & idx & Hd & Hidx & -> & _). apply (Hsmall k d eq_refl Hd), all_blocks_spec. by exists idx. }
  destruct (arenas_disjoint _ _ _ _ _ _ Hi Ha' Ha Hne) as [Hd|Hd];
    unfold in_pages, within, PGSIZE in *; pose proof (arena_page a (arena_addr _ _ _ _ Hi Ha)) as Ea; unfold PGSIZE in Ea;
    pose proof (Z.div_mod x 4096 ltac:(lia)); pose proof (Z.mod_pos_bound x 4096 ltac:(lia)); lia.
Qed.

Lemma last_block_ok h live k d a ar p n :
  heap_inv h live → descs h !! k = Some d → arenas h !! a = Some ar → owner ar = Some k →
  NoDup (p :: free_list d) → (∀ b, b ∈ p :: free_list d → is_block h k d b) → p / PGSIZE = a / PGSIZE →
  Z.of_nat (length (free_in a (p :: free_list d))) = blocks_per_arena d →
  let h2 := set_arena h a (Arena (Some k) n) in
  ∃ h', (bs ← arena_blocks h2 a (Z.to_nat (blocks_per_arena d)) 0;
         l ← remove_blocks bs (p :: free_list d);
         pl ← free_pages a 1 (pal h2);
         Ok (Heap pl (descs (set_free_list h2 k d l)) (delete a (arenas h2)))) = Ok h' ∧
    heap_inv h' (delete p live) ∧ contents_kept h h' live p.
Proof using PageLaws0.
  intros Hi Hd Ha Ho Hnd Hlb Hpg Hlen h2. pose proof (hi_desc _ _ Hi k d Hd) as Hwf. pose proof (arena_addr _ _ _ _ Hi Ha) as Haa.
  pose proof (free_in_blocks h live k d a _ Hi Hd Haa Hnd Hlb) as Hsub.
  assert (∀ b, b ∈ all_blocks d a → b ∈ p :: free_list d) as Hall.
  { intros b Hb. rewrite <-(submseteq_length_Permutation _ _ Hsub) in Hb; [by apply list_elem_of_filter in Hb as [_ ?]|].
    pose proof (all_blocks_length d a Hwf). lia. }
  assert (p ∈ all_blocks d a) as Hp.
  { eapply elem_of_submseteq; [|exact Hsub]. apply list_elem_of_filter. split; [done|set_solver]. }
  rewrite (arena_blocks_ok h2 a (Arena (Some k) n) k d); try done; [|apply lookup_insert_eq]. mstep.
  rewrite remove_blocks_ok by (done || by apply all_blocks_NoDup). mstep.
  assert (block_of (pal h) (a / PGSIZE) 1) as Hblk.
  { destruct (hi_arena _ _ Hi a ar Ha) as [(i & E & Hb) _]. unfold npages in Hb. rewrite Ho in Hb.
    by rewrite E, (Z.mul_comm PGSIZE), Z.div_mul. }
  destruct (free_law _ _ _ (hi_pages _ _ Hi) Hblk) as (q & Hfree & Hq & _ & Hmem & Hkeep).
  rewrite <-(arena_page a Haa) in Hfree. simpl. rewrite Hfree. mstep. eexists. split; [done|]. split.
  - rewrite delete_insert_eq. by eapply (drop_small_ok h live k d a ar p q).
  - intros x m y Hx Hne Hy. simpl. rewrite Hmem, bool_decide_eq_false_2; [done|]. assert (npages ar = 1) as <- by (unfold npages; by rewrite Ho).
    apply (live_not_in_pages h live a ar x m y); try done; [congruence|]. intros k' d' Ho' Hd' Hin.
    assert (k' = k) as -> by congruence. assert (d' = d) as -> by congruence. apply Hall in Hin.
    apply elem_of_cons in Hin as [->|Hin]; [done|]. by eapply live_not_free.
Qed.

Lemma free_small_ok h live p n k d :
  heap_inv h live → live !! p = Some n → descs h !! k = Some d → is_block h k d p → p ∉ free_list d →
  ∃ h', free p h = Ok h' ∧ heap_inv h' (delete p live) ∧ contents_kept h h' live p.
Proof using PageLaws0.
  intros Hi Hp Hd Hb Hnf. pose proof (hi_desc _ _ Hi k d Hd) as Hwf.
  destruct (block_to_arena_ok h live k d p Hi Hd Hb) as (ar & Hba & Ha & Ho & Hp0).
  set (a := PGSIZE * (p / PGSIZE)) in *. pose proof (arena_addr _ _ _ _ Hi Ha) as Haa.
  assert (a / PGSIZE = p / PGSIZE) as Hpg by (unfold a; by rewrite (Z.mul_comm PGSIZE), Z.div_mul).
  unfold free. rewrite (proj2 (Z.eqb_neq p 0)) by done. rewrite Hba. mstep. rewrite Ho, Hd. mstep.
  pose proof (clear_block_kept h live k d p n 204 Hi Hp Hd Hb) as Hkept.
  set (h1 := set_pal h _) in *. assert (heap_inv h1 live) as Hi1 by apply (heap_inv_mem _ _ _ Hi).
  assert (NoDup (p :: free_list d)) as Hnd by (constructor; [done|by apply (hi_nodup _ _ Hi k)]).
  assert (∀ b, b ∈ p :: free_list d → is_block h1 k d b) as Hlb.
  { intros b [->|Hin]%elem_of_cons; [done|]. by apply (hi_free _ _ Hi1 k). }
  pose proof (free_in_length h1 live k d a _ Hi1 Hd Haa Hnd Hlb) as Hlen.
  assert (free_cnt ar + 1 = Z.of_nat (length (free_in a (p :: free_list d)))) as Hcnt.
  { rewrite (hi_cnt _ _ Hi a ar k d Ha Ho Hd). unfold free_in. rewrite filter_cons_True by done. simpl. lia. }
  rewrite Hcnt, (u32_small (Z.of_nat _)) by (unfold is_u32; lia).
  destruct (Z.leb_spec (blocks_per_arena d) (Z.of_nat (length (free_in a (p :: free_list d))))) as [Hfull|Hpart].
  - rewrite (proj2 (Z.eqb_eq _ _)) by lia.
    destruct (last_block_ok h1 live k d a ar p (Z.of_nat (length (free_in a (p :: free_list d))))) as (h' & -> & Hi' & Hk'); try done.
    + lia.
    + exists h'. split_and!; try done. intros q m x Hq Hne Hx. rewrite (Hk' q m x Hq Hne Hx). by apply (Hkept q m).
  - eexists. split; [done|]. split; [|done]. apply (recount_ok h1 live _ k d a ar (p :: free_list d)); try done.
    + intros a' Ha'. unfold free_in. rewrite filter_cons_False; [done|]. congruence.
    + intros x m [Hne Hx]%lookup_delete_Some. right. split; [done|]. set_solver.
Qed.

Lemma free_big_ok h live p n ar :
  heap_inv h live → live !! p = Some n → arenas h !! (p - ARENA_SIZE) = Some ar → owner ar = None →
  ∃ h', free p h = Ok h' ∧ heap_inv h' (delete p live) ∧ contents_kept h h' live p.
Proof using PageLaws0.
  intros Hi Hp Ha Ho. pose proof (arena_addr _ _ _ _ Hi Ha) as (i & E & Hi').
  set (a := p - ARENA_SIZE) in *. assert (p = PGSIZE * i + ARENA_SIZE) as Ep by lia. unfold PGSIZE in *.
  assert (p / 4096 = i) as Hdiv by (symmetry; apply (Z.div_unique _ _ _ ARENA_SIZE); lia).
  assert (p mod 4096 = ARENA_SIZE) as Hmod by (symmetry; apply (Z.mod_unique _ _ i); lia).
  assert (block_to_arena h p = Ok (a, ar)) as Hba.
  { unfold block_to_arena. rewrite pg_round_down_spec, pg_ofs_mod by (unfold is_u32; lia). unfold PGSIZE.
    rewrite Hmod. fold a. rewrite (proj2 (Z.eqb_neq a 0)) by lia. cbn [negb]. by rewrite Ha, Ho. }
  assert (block_of (pal h) i (free_cnt ar)) as Hblk.
  { destruct (hi_arena _ _ Hi a ar Ha) as [(j & Ej & Hb) _]. unfold npages in Hb. rewrite Ho in Hb.
    unfold PGSIZE in Ej. by replace i with j by lia. }
  destruct (free_law _ _ _ (hi_pages _ _ Hi) Hblk) as (q & Hfree & Hq & _ & Hmem & Hkeep). unfold PGSIZE in Hfree. rewrite <-E in Hfree.
  unfold free. rewrite (proj2 (Z.eqb_neq p 0)) by lia. rewrite Hba. mstep. rewrite Ho, Hfree. mstep.
  assert (a / PGSIZE = i ∧ npages ar = free_cnt ar) as [Hai Hnp].
  { rewrite E. unfold PGSIZE. rewrite (Z.mul_comm 4096), Z.div_mul by lia. unfold npages. by rewrite Ho. }
  eexists. split; [done|]. split.
  - destruct (drop_arena_ok h live a ar q Hi Ha) as [Har Hsep]; [by rewrite Hai, Hnp|]. pose proof Hi as [].
    assert (∀ k d b, descs h !! k = Some d → is_block h k d b → is_block (Heap q (descs h) (delete a (arenas h))) k d b) as Hmono.
    { intros k d b Hd (a' & ar' & idx & Ha' & Ho' & Hidx & ->). exists a', ar', idx. split; [|done].
      simpl. rewrite lookup_delete_ne; [done|]. intros <-. congruence. }
    split; try done.
    + intros a' ar' Ha'. split; [by apply Har|]. simpl in Ha'. apply lookup_delete_Some in Ha' as [_ Ha']. by eapply hi_arena0.
    + intros k d b Hd Hb. by apply Hmono, hi_free0.
    + intros a' ar' k d Ha'. simpl in Ha'. apply lookup_delete_Some in Ha' as [_ Ha']. by eapply hi_cnt0.
    + intros x m [Hne Hx]%lookup_delete_Some. destruct (hi_live0 x m Hx) as (Hm & [(k & d & Hd & Hb & ?)|(ar2 & Ha2 & ?)]); (split; [done|]).
      * left. exists k, d. split_and!; try tauto. by apply Hmono.
      * right. exists ar2. split_and!; try tauto. simpl. rewrite lookup_delete_ne; [done|]. lia.
  - intros x m y Hx Hne Hy. simpl. rewrite Hmem, bool_decide_eq_false_2; [done|]. rewrite <-Hai, <-Hnp.
    apply (live_not_in_pages h live a ar x m y); try done; [|congruence]. intros _ ->. lia.
Qed.

(** A call of [free] for a live block. *)
Lemma free_ok h live p n :
  heap_inv h live → live !! p = Some n →
  ∃ h', free p h = Ok h' ∧ heap_inv h' (delete p live) ∧ contents_kept h h' live p.
Proof using PageLaws0.
  intros Hi Hp. destruct (hi_live _ _ Hi p n Hp) as (_ & [(k & d & Hd & Hb & _ & Hnf)|(ar & Ha & Ho & _)]).
  - by apply (free_small_ok h live p n k d).
  - by apply (free_big_ok h live p n ar).
Qed.

(** *** Zeroed and resized blocks *)

Lemma memset_outside m p v n x : ¬ (p ≤ x < p + n) → memset m p v n x = m x.
Proof. intros Hx. unfold memset. destruct (Z.leb_spec p x), (Z.ltb_spec x (p + n)); simpl; done || lia. Qed.

Lemma memset_inside m p v n x : p ≤ x < p + n → memset m p v n x = v.
Proof. intros Hx. unfold memset. by rewrite (proj2 (Z.leb_le _ _)), (proj2 (Z.ltb_lt _ _)) by lia. Qed.

Lemma calloc_ok a b h live :
  heap_inv h live → u32 (a * b) ≤ MALLOC_MAX →
  ∃ p h', calloc a b h = Ok (p, h') ∧
    heap_inv h' (if p =? NULL then live else <[p := u32 (a * b)]> live) ∧
    contents_kept h h' live p ∧
    (p ≠ NULL → live !! p = None ∧ ∀ x, p ≤ x < p + u32 (a * b) → pmem (pal h') x = 0).
Proof using PageLaws0.
  intros Hi Hmax. unfold calloc. set (n := u32 (a * b)) in *. assert (0 ≤ n) by apply u32_range.
  destruct ((n <? a) || (n <? b)); [by exists NULL, h; split_and!|].
  destruct (malloc_call_ok n h live Hi ltac:(done)) as (p & h1 & -> & Hm & Hi1 & Hnew). mstep.
  destruct (Z.eqb_spec p 0) as [->|Hp0].
  { exists NULL, h1. split_and!; try done. intros q m x _ _ _. apply Hm. }
  destruct (Hnew Hp0) as [Hn Hnone]. do 2 eexists. split; [done|]. rewrite (proj2 (Z.eqb_neq p 0)) by done.
  destruct (set_pmem_law (memset (pmem (pal h1)) p 0 n) (pal h1)) as (_ & _ & _ & Hset). split_and!.
  - by apply heap_inv_mem.
  - intros q m x Hq Hne Hx. cbn [pal set_pal]. rewrite Hset, memset_outside; [apply Hm|].
    destruct (live_disjoint h1 _ q m p n Hi1) as [?|?]; try (done || lia);
      [by rewrite lookup_insert_ne|apply lookup_insert_eq].
  - intros _. split; [done|]. intros x Hx. cbn [pal set_pal]. by rewrite Hset, memset_inside.
Qed.

Lemma big_bytes h i ar :
  arenas h !! (PGSIZE * i) = Some ar → owner ar = None → 786432 ≤ i → 0 < free_cnt ar → i + free_cnt ar ≤ 1048576 →
  block_bytes h (PGSIZE * i + ARENA_SIZE) = Ok (PGSIZE * free_cnt ar - ARENA_SIZE).
Proof.
  intros Ha Ho ? ? ?. unfold PGSIZE in *. set (p := 4096 * i + ARENA_SIZE).
  assert (p mod 4096 = ARENA_SIZE) as Hmod by (symmetry; apply (Z.mod_unique _ _ i); lia).
  assert (block_to_arena h p = Ok (4096 * i, ar)) as E.
  { unfold block_to_arena. rewrite pg_round_down_spec, pg_ofs_mod by (unfold is_u32; lia). unfold PGSIZE.
    rewrite Hmod. replace (p - ARENA_SIZE) with (4096 * i) by lia. rewrite (proj2 (Z.eqb_neq (4096 * i) 0)) by lia.
    cbn [negb]. by rewrite Ha, Ho. }
  unfold block_bytes. rewrite E. mstep. rewrite Ho, pg_ofs_mod. unfold PGSIZE. rewrite Hmod.
  rewrite (u32_small (4096 * free_cnt ar)) by (unfold is_u32; lia). by rewrite u32_small by (unfold is_u32; lia).
Qed.

(** The bytes a live block has are at least the ones asked for. *)
Lemma block_bytes_ok h live p n :
  heap_inv h live → live !! p = Some n → ∃ m, block_bytes h p = Ok m ∧ n ≤ m.
Proof using PageLaws0.
  intros Hi Hp. destruct (hi_live _ _ Hi p n Hp) as (_ & [(k & d & Hd & Hb & Hle & _)|(ar & Ha & Ho & Hle)]).
  - unfold block_bytes. destruct (block_to_arena_ok h live k d p Hi Hd Hb) as (ar & -> & _ & Ho & _). mstep. rewrite Ho, Hd. by eexists.
  - destruct (hi_arena _ _ Hi _ _ Ha) as [(j & Ej & Hb) _].
    unfold npages in Hb. rewrite Ho in Hb. destruct (block_law _ _ _ (hi_pages _ _ Hi) Hb) as (? & ? & ? & _).
    rewrite Ej in Ha. replace p with (PGSIZE * j + ARENA_SIZE) by lia. eexists. split; [by apply big_bytes|lia].
Qed.

Lemma realloc_ok old n_old new h live :
  heap_inv h live → live !! old = Some n_old → 0 < new ≤ MALLOC_MAX →
  ∃ p h', realloc old new h = Ok (p, h') ∧
    if p =? NULL then heap_inv h' live ∧ contents_kept h h' live NULL
    else heap_inv h' (<[p := new]> (delete old live)) ∧ live !! p = None ∧ contents_kept h h' live old ∧
      ∀ x, 0 ≤ x < Z.min new n_old → pmem (pal h') (p + x) = pmem (pal h) (old + x).
Proof using PageLaws0.
  intros Hi Hold Hnew. unfold realloc. rewrite (proj2 (Z.eqb_neq new 0)) by lia.
  destruct (malloc_call_ok new h live Hi ltac:(lia)) as (p & h1 & -> & Hm & Hi1 & Hfresh). mstep.
  assert (old ≠ NULL) as Ho0.
  { destruct (live_extent _ _ _ _ Hi Hold) as (a & ar & Ha & _ & L & _). destruct (arena_addr _ _ _ _ Hi Ha) as (i & -> & ?). unfold PGSIZE in L. lia. }
  destruct (Z.eqb_spec p 0) as [->|Hp0].
  { rewrite andb_false_r. exists NULL, h1. split; [done|]. split; [done|]. intros q m x _ _ _. apply Hm. }
  rewrite (proj2 (Z.eqb_neq old 0)) by done. cbn [negb andb]. destruct (Hfresh Hp0) as [_ Hnone].
  assert (p ≠ old) as Hne by (intros ->; congruence).
  assert (<[p := new]> live !! old = Some n_old) as Hold1 by (by rewrite lookup_insert_ne).
  destruct (block_bytes_ok h1 _ old n_old Hi1 Hold1) as (sz & -> & Hsz). mstep.
  set (n := if new <? sz then new else sz). assert (n ≤ new ∧ Z.min new n_old ≤ n) as [Hn1 Hn2] by (unfold n; destruct (Z.ltb_spec new sz); lia).
  set (m := copy_block (pmem (pal h1)) p old n). destruct (set_pmem_law m (pal h1)) as (_ & _ & _ & Hset).
  set (h2 := set_pal h1 (set_pmem m (pal h1))).
  destruct (free_ok h2 (<[p := new]> live) old n_old (heap_inv_mem _ _ _ Hi1) Hold1) as (h' & -> & Hi' & Hk). mstep.
  rewrite delete_insert_ne in Hi' by done. exists p, h'. split; [done|]. rewrite (proj2 (Z.eqb_neq p 0)) by done.
  split_and!; try done.
  - intros q l x Hq Hqo Hx. assert (q ≠ p) as Hqp by (intros ->; congruence).
    rewrite (Hk q l x) by (done || by rewrite lookup_insert_ne). unfold h2. cbn [pal set_pal]. rewrite Hset. unfold m, copy_block.
    rewrite <-Hm. destruct (live_disjoint h1 _ q l p new Hi1) as [?|?]; try done;
      [by rewrite lookup_insert_ne|apply lookup_insert_eq| |];
      destruct (Z.leb_spec p x), (Z.ltb_spec x (p + n)); simpl; done || lia.
  - intros x Hx. rewrite (Hk p new) by (done || lia || apply lookup_insert_eq). unfold h2. cbn [pal set_pal]. rewrite Hset.
    unfold m, copy_block. rewrite (proj2 (Z.leb_le _ _)), (proj2 (Z.ltb_lt _ _)) by lia. simpl. rewrite Hm. f_equal. lia.
Qed.

(** *** Sizes near the end of the 32-bit range *)

Lemma find_desc_none ds n k : Forall desc_wf ds → PGSIZE ≤ n → find_desc ds n k = None.
Proof.
  intros Hf Hn. revert k. induction Hf as [|d ds [? ? ?] _ IH]; intros k; simpl; [done|]. unfold PGSIZE in *.
  rewrite (proj2 (Z.leb_gt _ _)) by nia. apply IH.
Qed.

(** A block of its own pages has the bytes of these pages less the header, whatever
    was asked for. *)
Lemma malloc_big n h live :
  heap_inv h live → PGSIZE ≤ n →
  let c := DIV_ROUND_UP (u32 (n + ARENA_SIZE)) PGSIZE in
  0 ≤ c < WORD →
  ∃ p h', malloc n h = Ok (p, h') ∧ (p ≠ NULL → block_bytes h' p = Ok (PGSIZE * c - ARENA_SIZE)).
Proof using PageLaws0.
  intros Hi Hn c Hc. unfold malloc. rewrite (proj2 (Z.eqb_neq n 0)) by (unfold PGSIZE in *; lia).
  rewrite find_desc_none; [|apply Forall_lookup; apply (hi_desc _ _ Hi)|done]. fold c.
  destruct (get_law 0 c (pal h) (hi_pages _ _ Hi) eq_refl Hc) as [(i & q & -> & Hg)|(q & -> & Hu)]; mstep; [|by do 2 eexists].
  destruct (block_law _ _ _ (gr_ok _ _ _ _ _ Hg) (gr_block _ _ _ _ _ Hg)) as (? & ? & ? & _).
  rewrite (proj2 (Z.eqb_neq _ _)) by (unfold PGSIZE; lia). do 2 eexists. split; [done|]. intros _.
  rewrite u32_small by (unfold is_u32, PGSIZE; lia). apply (big_bytes _ i (Arena None c)); try done. apply lookup_insert_eq.
Qed.

(** *** Histories *)

(** The calls of a client that frees and resizes only blocks it has. A block is recorded with the
    bytes that are its own: those asked for, but [room] for a request of malloc that wraps around,
    and the low 32 bits of the product for calloc. *)
Inductive malloc_step : heap P * gmap Z Z → heap P * gmap Z Z → Prop :=
| step_malloc n h live p h' :
    0 ≤ n < WORD → malloc n h = Ok (p, h') →
    malloc_step (h, live) (h', if p =? NULL then live else <[p := room n]> live)
| step_calloc a b h live p h' :
    u32 (a * b) ≤ MALLOC_MAX → calloc a b h = Ok (p, h') →
    malloc_step (h, live) (h', if p =? NULL then live else <[p := u32 (a * b)]> live)
| step_realloc old n_old n h live p h' :
    live !! old = Some n_old → 0 < n ≤ MALLOC_MAX → realloc old n h = Ok (p, h') →
    malloc_step (h, live) (h', if p =? NULL then live else <[p := n]> (delete old live))
| step_realloc_null n h live p h' :
    0 < n < WORD → realloc NULL n h = Ok (p, h') →
    malloc_step (h, live) (h', if p =? NULL then live else <[p := room n]> live)
| step_realloc_zero old n_old h live p h' :
    live !! old = Some n_old → realloc old 0 h = Ok (p, h') → malloc_step (h, live) (h', delete old live)
| step_free p n h live h' :
    live !! p = Some n → free p h = Ok h' → malloc_step (h, live) (h', delete p live)
| step_free_null h live h' :
    free NULL h = Ok h' → malloc_step (h, live) (h', live).

Lemma malloc_step_inv x y : malloc_step x y → heap_inv x.1 x.2 → heap_inv y.1 y.2.
Proof using PageLaws0.
  intros Hs Hi. destruct Hs as [n h live p h' Hn E|a b h live p h' Hn E|old n_old n h live p h' Ho Hn E|n h live p h' Hn E|old n_old h live p h' Ho E|p n h live h' Hp E|h live h' E]; simpl in *.
  - destruct (malloc_any_ok n h live Hi Hn) as (p' & h1 & E' & _ & Hi' & _). rewrite E in E'. by injection E' as <- <-.
  - destruct (calloc_ok a b h live Hi Hn) as (p' & h1 & E' & Hi' & _). rewrite E in E'. by injection E' as <- <-.
  - destruct (realloc_ok old n_old n h live Hi Ho Hn) as (p' & h1 & E' & Hi'). rewrite E in E'. injection E' as <- <-.
    destruct (p =? 0); tauto.
  - unfold realloc in E. rewrite (proj2 (Z.eqb_neq n 0)) in E by lia.
    destruct (malloc_any_ok n h live Hi ltac:(lia)) as (p' & h1 & E' & _ & Hi' & _). rewrite E' in E. by injection E as <- <-.
  - destruct (free_ok h live old n_old Hi Ho) as (h1 & E' & Hi' & _). unfold realloc in E. cbn [Z.eqb] in E. rewrite E' in E. by injection E as _ <-.
  - destruct (free_ok h live p n Hi Hp) as (h1 & E' & Hi' & _). rewrite E in E'. by injection E' as <-.
  - by injection E as <-.
Qed.

Lemma malloc_init_ok q : pages_ok q → ∃ h, malloc_init q = Ok h ∧ heap_inv h ∅.
Proof.
  intros Hq. eexists. split; [vm_compute; reflexivity|]. split; simpl; try done.
  - intros k d Hd. do 7 (destruct k as [|k]; [injection Hd as <-; split; vm_compute; done|]). done.
  - intros k d Hd. do 7 (destruct k as [|k]; [injection Hd as <-; constructor|]). done.
  - intros k d b Hd. do 7 (destruct k as [|k]; [injection Hd as <-; simpl; set_solver|]). done.
Qed.

Lemma malloc_history q h0 h live :
  pages_ok q → malloc_init q = Ok h0 → rtc malloc_step (h0, ∅) (h, live) → heap_inv h live.
Proof using PageLaws0.
  intros Hq Hinit Hrun. destruct (malloc_init_ok q Hq) as (h1 & E & Hi). rewrite Hinit in E. injection E as <-.
  apply (rtc_ind_r (R := malloc_step) (λ y, heap_inv y.1 y.2) (h0, ∅)) with (z := (h, live)); [done| |done].
  intros x y _ Hs. by apply malloc_step_inv.
Qed.

End invariant.

(** C3. On top of the page allocator, any sequence of calls of malloc with any size, of
    calloc and of realloc of a block with sizes up to 2^32 - 12, and of free, of which the
    last two get only null pointers and blocks the client has, leaves the client with
    blocks that do not overlap.  A block is counted with the bytes asked for; but with
    4084 bytes when malloc was asked for more than 2^32 - 12, and with the product modulo
    2^32 when calloc did not notice that it does not fit.  The next call of malloc
    returns, a null pointer or a new block, and changes no byte of the blocks; freeing
    any of them returns and changes no byte of the other ones. *)
Theorem malloc_blocks_disjoint (q : palloc_state) h0 h live :
  palloc_wf q → malloc_init q = Ok h0 → rtc malloc_step (h0, ∅) (h, live) →
  (∀ p1 n1 p2 n2, live !! p1 = Some n1 → live !! p2 = Some n2 → p1 ≠ p2 → p1 + n1 ≤ p2 ∨ p2 + n2 ≤ p1) ∧
  (∀ n, 0 ≤ n < WORD → ∃ p h', malloc n h = Ok (p, h') ∧ contents_kept h h' live p ∧
     (p ≠ NULL → live !! p = None ∧ ∀ p1 n1, live !! p1 = Some n1 → p1 + n1 ≤ p ∨ p + room n ≤ p1)) ∧
  (∀ p n, live !! p = Some n → ∃ h', free p h = Ok h' ∧ contents_kept h h' live p).
Proof.
  intros Hq Hinit Hrun. pose proof (malloc_history q h0 h live Hq Hinit Hrun) as Hi. split_and!.
  - intros p1 n1 p2 n2 H1 H2. by apply (live_disjoint h live).
  - intros n Hn. destruct (malloc_any_ok n h live Hi Hn) as (p & h' & E & Hm & Hi' & Hf). exists p, h'.
    split_and!; [done|intros ? ? ? _ _ _; apply Hm|]. intros Hp. destruct (Hf Hp) as [_ Hnone]. split; [done|].
    rewrite (proj2 (Z.eqb_neq p 0)) in Hi' by done. intros p1 n1 H1. assert (p1 ≠ p) by (intros ->; congruence).
    apply (live_disjoint h' _ p1 n1 p (room n) Hi'); [by rewrite lookup_insert_ne|apply lookup_insert_eq|done].
  - intros p n Hp. destruct (free_ok h live p n Hi Hp) as (h' & E & _ & Hk). by exists h'.
Qed.

Definition after {A} (h : heap palloc_state) (r : res (A * heap palloc_state)) : heap palloc_state :=
  match r with Ok (_, h') => h' | _ => h end.

(** A heap on the small memory after two calls of malloc. *)
Definition demo_heap0 : heap palloc_state :=
  match malloc_init small_state with Ok h => h | _ => Heap small_state [] ∅ end.
Definition demo_heap1 : heap palloc_state := after demo_heap0 (malloc 20 demo_heap0).
Definition demo_heap2 : heap palloc_state := after demo_heap1 (malloc 1000 demo_heap1).

Lemma demo_history :
  malloc_init small_state = Ok demo_heap0 ∧
  rtc malloc_step (demo_heap0, ∅) (demo_heap2, <[3222278156 := 1000]> (<[3222274060 := 20]> ∅)).
Proof.
  split; [vm_compute; reflexivity|]. eapply rtc_l; [|apply rtc_once].
  - apply (step_malloc 20 demo_heap0 ∅ 3222274060 demo_heap1); [by vm_compute|vm_compute; reflexivity].
  - apply (step_malloc 1000 demo_heap1 _ 3222278156 demo_heap2); [by vm_compute|vm_compute; reflexivity].
Qed.

Lemma malloc_blocks_disjoint_witness :
  ∃ h', free 3222274060 demo_heap2 = Ok h' ∧
    contents_kept demo_heap2 h' (<[3222278156 := 1000]> (<[3222274060 := 20]> ∅)) 3222274060.
Proof.
  apply (proj2 (proj2 (malloc_blocks_disjoint small_state demo_heap0 demo_heap2
    (<[3222278156 := 1000]> (<[3222274060 := 20]> ∅)) small_state_wf (proj1 demo_history) (proj2 demo_history))) _ 20).
  reflexivity.
Defined.

(** In the same histories calloc returns a block of zeros, and realloc a block
    that starts with the bytes of the old one, as many as fit in the smaller of the
    two sizes; neither changes a byte of another block, and a failed call leaves
    every block as it was. *)
Theorem realloc_keeps_contents (q : palloc_state) h0 h live :
  palloc_wf q → malloc_init q = Ok h0 → rtc malloc_step (h0, ∅) (h, live) →
  (∀ a b, u32 (a * b) ≤ MALLOC_MAX → ∃ p h', calloc a b h = Ok (p, h') ∧ contents_kept h h' live p ∧
     (p ≠ NULL → live !! p = None ∧ ∀ x, p ≤ x < p + u32 (a * b) → mem (pal h') x = 0)) ∧
  (∀ old n_old n, live !! old = Some n_old → 0 < n ≤ MALLOC_MAX →
     ∃ p h', realloc old n h = Ok (p, h') ∧
       contents_kept h h' live (if p =? NULL then NULL else old) ∧
       (p ≠ NULL → live !! p = None ∧
          ∀ x, 0 ≤ x < Z.min n n_old → mem (pal h') (p + x) = mem (pal h) (old + x))).
Proof.
  intros Hq Hinit Hrun. pose proof (malloc_history q h0 h live Hq Hinit Hrun) as Hi. split.
  - intros a b Hn. destruct (calloc_ok a b h live Hi Hn) as (p & h' & E & _ & Hk & Hz). by exists p, h'.
  - intros old n_old n Ho Hn. destruct (realloc_ok old n_old n h live Hi Ho Hn) as (p & h' & E & Hp). exists p, h'.
    destruct (Z.eqb_spec p 0) as [->|Hp0]; [by destruct Hp|]. by destruct Hp as (_ & ? & ? & ?).
Qed.

Lemma realloc_keeps_contents_witness :
  ∃ p h', realloc 3222274060 100 demo_heap2 = Ok (p, h') ∧
    contents_kept demo_heap2 h' (<[3222278156 := 1000]> (<[3222274060 := 20]> ∅)) (if p =? NULL then NULL else 3222274060) ∧
    (p ≠ NULL → (<[3222278156 := 1000]> (<[3222274060 := 20]> ∅) : gmap Z Z) !! p = None ∧
       ∀ x, 0 ≤ x < Z.min 100 20 → mem (pal h') (p + x) = mem (pal demo_heap2) (3222274060 + x)).
Proof.
  apply (proj2 (realloc_keeps_contents small_state demo_heap0 demo_heap2
    (<[3222278156 := 1000]> (<[3222274060 := 20]> ∅)) small_state_wf (proj1 demo_history) (proj2 demo_history)));
    [reflexivity|by vm_compute].
Defined.

(** The sizes near the end of the 32-bit range wrap around: a request of malloc
    for more than 2^32 - 12 bytes is not refused, and a block that it gets has 4084
    bytes; calloc's test for overflow misses 65537 elements of 65537 bytes, and the
    block that it gets has 135156 bytes instead of 4295098369. *)
Theorem allocation_sizes_wrap (q : palloc_state) h0 h live :
  palloc_wf q → malloc_init q = Ok h0 → rtc malloc_step (h0, ∅) (h, live) →
  (∀ n, WORD - 12 < n < WORD → ∃ p h', malloc n h = Ok (p, h') ∧ (p ≠ NULL → block_bytes h' p = Ok 4084)) ∧
  ∃ p h', calloc 65537 65537 h = Ok (p, h') ∧ (p ≠ NULL → block_bytes h' p = Ok 135156).
Proof.
  intros Hq Hinit Hrun. pose proof (malloc_history q h0 h live Hq Hinit Hrun) as Hi. split.
  - intros n Hn. assert (DIV_ROUND_UP (u32 (n + ARENA_SIZE)) PGSIZE = 1) as Hc.
    { assert (u32 (n + ARENA_SIZE) = n + ARENA_SIZE - WORD) as ->; [|].
      { unfold u32. symmetry. apply (Z.mod_unique _ _ 1); lia. }
      unfold DIV_ROUND_UP, PGSIZE. rewrite u32_small by (unfold is_u32; lia).
      symmetry. apply (Z.div_unique _ _ _ (n + ARENA_SIZE - WORD - 1)); lia. }
    pose proof (malloc_big n h live Hi) as Hm. rewrite Hc in Hm. apply Hm; [unfold PGSIZE; lia|lia].
  - destruct (malloc_big 131073 h live Hi) as (p & h' & E & Hb); [done|by vm_compute|].
    unfold calloc. replace (u32 (65537 * 65537)) with 131073 by reflexivity. cbn -[malloc]. rewrite E. mstep.
    do 2 eexists. split; [done|]. intros Hp. destruct (p =? 0); by apply Hb.
Qed.

Lemma allocation_sizes_wrap_witness :
  ∃ p h', malloc 4294967295 demo_heap2 = Ok (p, h') ∧ (p ≠ NULL → block_bytes h' p = Ok 4084).
Proof.
  apply (proj1 (allocation_sizes_wrap small_state demo_heap0 demo_heap2
    (<[3222278156 := 1000]> (<[3222274060 := 20]> ∅)) small_state_wf (proj1 demo_history) (proj2 demo_history))).
  split; reflexivity.
Defined.
