(* ===== verification/Pagedir.v ===== *)
(** Page directories (src/userprog/pagedir.c): the two-level page tables of the
    user processes, on top of any page allocator that keeps the promise of
    [PageLaws].

    The tables lie in the memory of the allocator, as 32-bit words that the
    functions of pagedir.c load and store.  The state adds the two parts of the
    processor they act on: the register CR3 and the translation lookaside buffer,
    which [pagedir_activate] empties.  What the processor itself does on an access of
    a user program (the walk through the tables, the accessed and dirty bits, the
    use of a cached entry) follows the architecture manual that the comments of
    pagedir.c cite. *)

From S2P Require Import Prelude Vaddr Palloc Pages Disk.

(** ** Words in memory *)

Definition get32 (m : Z → Z) (a : Z) : Z := of_le32 [m a; m (a + 1); m (a + 2); m (a + 3)].

Definition put32 (m : Z → Z) (a v : Z) : Z → Z :=
  λ x, if (a <=? x) && (x <? a + 4) then default 0 (le32 v !! Z.to_nat (x - a)) else m x.

(** ** State *)

Section code.
Context {P : Type} `{!PageOps P}.

Record machine := Machine { phys : P; cr3 : Z; tlb : gmap Z Z }.

Definition set_phys (s : machine) (p : P) : machine := Machine p (cr3 s) (tlb s).
Definition load (s : machine) (a : Z) : Z := get32 (pmem (phys s)) a.
Definition store (s : machine) (a v : Z) : machine :=
  set_phys s (set_pmem (put32 (pmem (phys s)) a v) (phys s)).

(** The two globals of threads/init.c. *)
Context (init_page_dir init_ram_pages : Z).

(** ** Operations *)

Definition pagedir_activate (pd : Z) (s : machine) : res machine :=
  let pd := if pd =? NULL then init_page_dir else pd in
  p ← vtop pd; Ok (Machine (phys s) p ∅).

Definition active_pd (s : machine) : res Z := ptov (cr3 s).

Definition invalidate_pagedir (pd : Z) (s : machine) : res machine :=
  a ← active_pd s;
  if a =? pd then pagedir_activate pd s else Ok s.

(** [memcpy] of a page. *)
Definition copy_page (m : Z → Z) (dst src : Z) : Z → Z :=
  λ x, if (dst <=? x) && (x <? dst + PGSIZE) then m (src + (x - dst)) else m x.

Definition pagedir_create (s : machine) : res (Z * machine) :=
  '(pd, p) ← get_pages 0 1 (phys s);
  Ok (pd, set_phys s (if negb (pd =? NULL) then set_pmem (copy_page (pmem p) pd init_page_dir) p else p)).

(** The [n] entries from [pte] on of a page table. *)
Fixpoint destroy_table (n : nat) (pte : Z) (s : machine) : res machine :=
  match n with
  | O => Ok s
  | S n =>
      s ← (if has_flag (load s pte) PTE_P then
             page ← pte_get_page (load s pte);
             p ← free_pages page 1 (phys s); Ok (set_phys s p)
           else Ok s);
      destroy_table n (pte + 4) s
  end.

(** The [n] entries from [pde] on of a page directory. *)
Fixpoint destroy_dir (n : nat) (pde : Z) (s : machine) : res machine :=
  match n with
  | O => Ok s
  | S n =>
      s ← (if has_flag (load s pde) PTE_P then
             pt ← pde_get_pt (load s pde);
             s ← destroy_table (Z.to_nat (PGSIZE / 4)) pt s;
             p ← free_pages pt 1 (phys s); Ok (set_phys s p)
           else Ok s);
      destroy_dir n (pde + 4) s
  end.

Definition pagedir_destroy (pd : Z) (s : machine) : res machine :=
  if pd =? NULL then Ok s
  else
    ASSERT negb (pd =? init_page_dir) ;;
    s ← destroy_dir (Z.to_nat (pd_no PHYS_BASE)) pd s;
    p ← free_pages pd 1 (phys s); Ok (set_phys s p).

(** The address of the entry, or a null pointer. *)
Definition lookup_page (pd vaddr : Z) (create : bool) (s : machine) : res (Z * machine) :=
  ASSERT negb (pd =? NULL) ;;
  ASSERT negb create || is_user_vaddr vaddr ;;
  let pde := pd + 4 * pd_no vaddr in
  '(found, s) ← (if load s pde =? 0 then
    if create then
      '(pt, p) ← get_pages PAL_ZERO 1 (phys s);
      if pt =? NULL then Ok (false, set_phys s p)
      else e ← pde_create pt; Ok (true, store (set_phys s p) pde e)
    else Ok (false, s)
  else Ok (true, s));
  if negb found then Ok (NULL, s)
  else pt ← pde_get_pt (load s pde); Ok (pt + 4 * pt_no vaddr, s).

Definition pagedir_set_page (pd upage kpage : Z) (writable : bool) (s : machine) : res (bool * machine) :=
  ASSERT pg_ofs upage =? 0 ;;
  ASSERT pg_ofs kpage =? 0 ;;
  ASSERT is_user_vaddr upage ;;
  paddr ← vtop kpage;
  ASSERT Z.shiftr paddr PTSHIFT <? init_ram_pages ;;
  ASSERT negb (pd =? init_page_dir) ;;
  '(pte, s) ← lookup_page pd upage true s;
  if negb (pte =? NULL) then
    ASSERT Z.land (load s pte) PTE_P =? 0 ;;
    e ← pte_create_user kpage writable;
    Ok (true, store s pte e)
  else Ok (false, s).

Definition pagedir_get_page (pd uaddr : Z) (s : machine) : res Z :=
  ASSERT is_user_vaddr uaddr ;;
  '(pte, s) ← lookup_page pd uaddr false s;
  if negb (pte =? NULL) && has_flag (load s pte) PTE_P then
    page ← pte_get_page (load s pte); Ok (u32 (page + pg_ofs uaddr))
  else Ok NULL.

Definition pagedir_clear_page (pd upage : Z) (s : machine) : res machine :=
  ASSERT pg_ofs upage =? 0 ;;
  ASSERT is_user_vaddr upage ;;
  '(pte, s) ← lookup_page pd upage false s;
  if negb (pte =? NULL) && has_flag (load s pte) PTE_P then
    invalidate_pagedir pd (store s pte (Z.land (load s pte) (u32 (Z.lnot PTE_P))))
  else Ok s.

Definition pagedir_is_dirty (pd vpage : Z) (s : machine) : res bool :=
  '(pte, s) ← lookup_page pd vpage false s;
  Ok (negb (pte =? NULL) && has_flag (load s pte) PTE_D).

Definition pagedir_set_dirty (pd vpage : Z) (dirty : bool) (s : machine) : res machine :=
  '(pte, s) ← lookup_page pd vpage false s;
  if negb (pte =? NULL) then
    if dirty then Ok (store s pte (Z.lor (load s pte) PTE_D))
    else invalidate_pagedir pd (store s pte (Z.land (load s pte) (u32 (Z.lnot PTE_D))))
  else Ok s.

Definition pagedir_is_accessed (pd vpage : Z) (s : machine) : res bool :=
  '(pte, s) ← lookup_page pd vpage false s;
  Ok (negb (pte =? NULL) && has_flag (load s pte) PTE_A).

Definition pagedir_set_accessed (pd vpage : Z) (accessed : bool) (s : machine) : res machine :=
  '(pte, s) ← lookup_page pd vpage false s;
  if negb (pte =? NULL) then
    if accessed then Ok (store s pte (Z.lor (load s pte) PTE_A))
    else invalidate_pagedir pd (store s pte (Z.land (load s pte) (u32 (Z.lnot PTE_A))))
  else Ok s.

(** ** The processor *)

(** The walk of an access of a user program through the active tables: [None] is a
    page fault; otherwise the entry, with its accessed bit set, and its dirty bit
    after a write, is stored and cached. *)
Definition page_walk (vaddr : Z) (write : bool) (s : machine) : option (Z * machine) :=
  let pde_addr := cr3 s + PHYS_BASE + 4 * pd_no vaddr in
  let pde := load s pde_addr in
  if negb (has_flag pde PTE_P && has_flag pde PTE_U && (negb write || has_flag pde PTE_W)) then None
  else
    let pte_addr := Z.land pde PTE_ADDR + PHYS_BASE + 4 * pt_no vaddr in
    let pte := load s pte_addr in
    if negb (has_flag pte PTE_P && has_flag pte PTE_U && (negb write || has_flag pte PTE_W)) then None
    else
      let pte := Z.lor pte (if write then Z.lor PTE_A PTE_D else PTE_A) in
      let s := store (store s pde_addr (Z.lor pde PTE_A)) pte_addr pte in
      Some (pte, Machine (phys s) (cr3 s) (<[pg_no vaddr := pte]> (tlb s))).

(** A cached entry is used unless it forbids the access or the access has to set
    the dirty bit; then the tables are walked. *)
Definition translate (vaddr : Z) (write : bool) (s : machine) : option (Z * machine) :=
  match tlb s !! pg_no vaddr with
  | Some e =>
      if has_flag e PTE_U && (negb write || has_flag e PTE_W && has_flag e PTE_D) then Some (e, s)
      else page_walk vaddr write s
  | None => page_walk vaddr write s
  end.

(** An access at a user address: the physical address it reaches. *)
Definition user_access (vaddr : Z) (write : bool) (s : machine) : option (Z * machine) :=
  match translate vaddr write s with
  | Some (e, s) => Some (Z.land e PTE_ADDR + pg_ofs vaddr, s)
  | None => None
  end.

End code.
Arguments machine : clear implicits.

(** ** Words *)

Lemma get32_range m a : (∀ x, is_byte (m x)) → is_u32 (get32 m a).
Proof.
  intros Hb. unfold get32, of_le32, is_u32. pose proof (Hb a). pose proof (Hb (a + 1)).
  pose proof (Hb (a + 2)). pose proof (Hb (a + 3)). unfold is_byte in *. lia.
Qed.

Lemma put32_at m a v k :
  0 ≤ k < 4 → put32 m a v (a + k) = default 0 (le32 v !! Z.to_nat k).
Proof.
  intros Hk. unfold put32. rewrite (proj2 (Z.leb_le _ _)), (proj2 (Z.ltb_lt _ _)) by lia. simpl.
  by replace (a + k - a) with k by lia.
Qed.

Lemma put32_outside m a v x : ¬ (a ≤ x < a + 4) → put32 m a v x = m x.
Proof. intros Hx. unfold put32. destruct (Z.leb_spec a x), (Z.ltb_spec x (a + 4)); simpl; done || lia. Qed.

Lemma put32_byte m a v : (∀ x, is_byte (m x)) → ∀ x, is_byte (put32 m a v x).
Proof.
  intros Hm x. unfold put32. destruct ((a <=? x) && (x <? a + 4)); [|done].
  destruct (le32 v !! Z.to_nat (x - a)) as [b|] eqn:E; [|done]. simpl.
  exact (proj1 (Forall_lookup _ _) (le32_bytes v) _ _ E).
Qed.

Lemma get32_put32_eq m a v : is_u32 v → get32 (put32 m a v) a = v.
Proof.
  intros Hv. unfold get32. replace (put32 m a v a) with (put32 m a v (a + 0)) by (f_equal; lia).
  rewrite !put32_at by lia. exact (of_le32_le32 v Hv).
Qed.

Lemma get32_put32_ne m a v b : a + 4 ≤ b ∨ b + 4 ≤ a → get32 (put32 m a v) b = get32 m b.
Proof. intros Hd. unfold get32. rewrite !put32_outside by lia. done. Qed.

Lemma get32_ext m m' a : (∀ x, a ≤ x < a + 4 → m' x = m x) → get32 m' a = get32 m a.
Proof. intros Hx. unfold get32. rewrite !Hx by lia. done. Qed.

(** ** Entries *)

(** The number of the kernel page that an entry stands for. *)
Definition frame (w : Z) : Z := 786432 + w / PGSIZE.

(** Entries of physical addresses below 1 GB, where the kernel maps memory. *)
Definition entry_ok (w : Z) : Prop := 0 ≤ w < 1073741824.

Lemma flag_lor w b f : has_flag (Z.lor w b) f = has_flag w f || has_flag b f.
Proof.
  unfold has_flag. rewrite Z.land_lor_distr_l.
  destruct (Z.eqb_spec (Z.land w f) 0) as [->|Hw]; simpl; [by rewrite Z.lor_0_l|].
  destruct (Z.eqb_spec (Z.lor (Z.land w f) (Z.land b f)) 0) as [E|]; [|done]. by apply Z.lor_eq_0_iff in E as [? _].
Qed.

Lemma flag_land w m f : Z.land m f = f → has_flag (Z.land w m) f = has_flag w f.
Proof. intros Hm. unfold has_flag. by rewrite <-Z.land_assoc, Hm. Qed.

Lemma flag_cleared w m f : Z.land m f = 0 → has_flag (Z.land w m) f = false.
Proof. intros Hm. unfold has_flag. by rewrite <-Z.land_assoc, Hm, Z.land_0_r. Qed.

Lemma div_lor w b : 0 ≤ b < PGSIZE → Z.lor w b / PGSIZE = w / PGSIZE.
Proof.
  intros Hb. change PGSIZE with (2 ^ 12) in *. rewrite <-!Z.shiftr_div_pow2, Z.shiftr_lor by lia.
  rewrite (Z.shiftr_div_pow2 b), (Z.div_small b) by lia. apply Z.lor_0_r.
Qed.

Lemma div_land w b :
  entry_ok w → 0 ≤ b < PGSIZE → Z.land w (u32 (Z.lnot b)) / PGSIZE = w / PGSIZE.
Proof.
  intros Hw Hb. change PGSIZE with (2 ^ 12) in *. rewrite <-!Z.shiftr_div_pow2, Z.shiftr_land by lia.
  assert (Z.shiftr (u32 (Z.lnot b)) 12 = 2 ^ 20 - 1) as ->.
  { rewrite Z.shiftr_div_pow2 by lia. unfold u32, Z.lnot. symmetry.
    apply (Z.div_unique _ _ _ (2 ^ 12 - 1 - b)); [lia|]. symmetry. apply (Z.mod_unique _ _ (-1)); lia. }
  rewrite land_ones_mod by lia. apply Z.mod_small. rewrite Z.shiftr_div_pow2 by lia.
  split; [apply Z.div_pos; unfold entry_ok in *; lia|]. apply Z.div_lt_upper_bound; unfold entry_ok in *; lia.
Qed.

Lemma entry_ok_div w w' : entry_ok w → 0 ≤ w' → w' / PGSIZE = w / PGSIZE → entry_ok w'.
Proof.
  unfold entry_ok, PGSIZE. intros Hw H0 E. pose proof (Z.div_mod w' 4096 ltac:(lia)). pose proof (Z.div_mod w 4096 ltac:(lia)).
  pose proof (Z.mod_pos_bound w' 4096 ltac:(lia)). pose proof (Z.mod_pos_bound w 4096 ltac:(lia)). lia.
Qed.

Lemma entry_set w b :
  entry_ok w → 0 ≤ b < PGSIZE → entry_ok (Z.lor w b) ∧ frame (Z.lor w b) = frame w.
Proof.
  intros Hw Hb. pose proof (div_lor w b Hb) as E. unfold frame. rewrite E. split; [|done].
  apply (entry_ok_div w); [done|apply Z.lor_nonneg; unfold entry_ok in *; lia|done].
Qed.

Lemma entry_clear w b :
  entry_ok w → 0 ≤ b < PGSIZE →
  entry_ok (Z.land w (u32 (Z.lnot b))) ∧ frame (Z.land w (u32 (Z.lnot b))) = frame w.
Proof.
  intros Hw Hb. pose proof (div_land w b Hw Hb) as E. unfold frame. rewrite E. split; [|done].
  apply (entry_ok_div w); [done|apply Z.land_nonneg; left; apply Hw|done].
Qed.

Lemma entry_addr w : entry_ok w → Z.land w PTE_ADDR = PGSIZE * (frame w - 786432).
Proof.
  intros Hw. change PTE_ADDR with (WORD - 2 ^ 12). rewrite land_high_bits by (unfold entry_ok, is_u32 in *; lia).
  change (2 ^ 12) with 4096. unfold frame, PGSIZE. pose proof (Z.div_mod w 4096 ltac:(lia)). lia.
Qed.

Lemma frame_range w : entry_ok w → 786432 ≤ frame w < 1048576.
Proof.
  intros [? ?]. unfold frame, PGSIZE. pose proof (Z.div_pos w 4096 ltac:(lia) ltac:(lia)).
  pose proof (Z.div_lt_upper_bound w 4096 262144 ltac:(lia) ltac:(lia)). lia.
Qed.

Lemma entry_page w : entry_ok w → pte_get_page w = Ok (PGSIZE * frame w).
Proof.
  intros Hw. unfold pte_get_page, ptov. rewrite entry_addr by done. pose proof (frame_range w Hw).
  rewrite (proj2 (Z.ltb_lt _ _)) by (unfold PGSIZE, PHYS_BASE; lia).
  rewrite u32_small by (unfold is_u32, PGSIZE, PHYS_BASE; lia). f_equal. unfold PGSIZE, PHYS_BASE. lia.
Qed.

Lemma entry_table w : entry_ok w → has_flag w PTE_P = true → pde_get_pt w = Ok (PGSIZE * frame w).
Proof. intros Hw Hp. unfold pde_get_pt. fold (has_flag w PTE_P). rewrite Hp. by apply entry_page. Qed.

Lemma kpage_of g : 786432 ≤ g < 1048576 → is_kpage (PGSIZE * g).
Proof.
  intros Hg. split; [unfold PGSIZE, PHYS_BASE; lia|]. rewrite Z.mul_comm. by apply Z.mod_mul.
Qed.

(** The entry of a page with these flags. *)
Lemma entry_make g fl :
  786432 ≤ g < 1048576 → 0 ≤ fl < PGSIZE →
  let w := Z.lor (PGSIZE * g - PHYS_BASE) fl in
  entry_ok w ∧ frame w = g ∧ ∀ f, 0 ≤ f < PGSIZE → has_flag w f = has_flag fl f.
Proof.
  intros Hg Hfl w. assert (entry_ok (PGSIZE * g - PHYS_BASE)) as Hok by (unfold entry_ok, PGSIZE, PHYS_BASE; lia).
  destruct (entry_set _ fl Hok Hfl) as [Hw Hf]. split_and!; [done| |].
  - unfold w. rewrite Hf. unfold frame, PGSIZE, PHYS_BASE.
    replace (4096 * g - 3221225472) with ((g - 786432) * 4096) by lia. rewrite Z.div_mul by lia. lia.
  - intros f Hfr. unfold has_flag, w. rewrite entry_flag; [done|by apply kpage_of| |done].
    change PTE_ADDR with (WORD - 2 ^ 12). rewrite land_high_bits by (unfold is_u32, PGSIZE in *; lia).
    change (2 ^ 12) with PGSIZE. rewrite Z.mod_small by done. lia.
Qed.

(** ** Ownership of pages

    What pages are, by number: page directories, page tables (of a directory and an
    index in it), pages that a directory maps at a user page, and pages that the
    kernel holds without mapping them. *)

Inductive owner := IsDir | IsTable (d i : Z) | IsPage (d u : Z) | IsHeld.

#[export] Instance owner_eq_dec : EqDecision owner.
Proof. solve_decision. Defined.

Section invariant.
Context {P : Type} `{!PageOps P} `{!PageLaws P}.
Implicit Types (s : machine P) (own : gmap Z owner).

(** Word [j] of page [g]. *)
Definition word s (g j : Z) : Z := load s (PGSIZE * g + 4 * j).

(** The entry of a directory for a table. *)
Definition points_to (w t : Z) : Prop :=
  entry_ok w ∧ frame w = t ∧ has_flag w PTE_P = true ∧ has_flag w PTE_U = true ∧ has_flag w PTE_W = true.

Record vm_inv s own : Prop := {
  vi_ok : pages_ok (phys s);
  vi_byte : ∀ a, is_byte (pmem (phys s) a);
  vi_own : ∀ g o, own !! g = Some o → block_of (phys s) g 1;
  vi_dir : ∀ d i, own !! d = Some IsDir → 0 ≤ i < 768 →
    word s d i = 0 ∨ ∃ t, points_to (word s d i) t ∧ own !! t = Some (IsTable d i);
  vi_table : ∀ t d i, own !! t = Some (IsTable d i) →
    0 ≤ i < 768 ∧ own !! d = Some IsDir ∧ points_to (word s d i) t;
  vi_entry : ∀ t d i j, own !! t = Some (IsTable d i) → 0 ≤ j < 1024 →
    entry_ok (word s t j) ∧
    (has_flag (word s t j) PTE_P = true →
     own !! frame (word s t j) = Some (IsPage d (1024 * i + j)) ∧ has_flag (word s t j) PTE_U = true);
  vi_page : ∀ g d u, own !! g = Some (IsPage d u) →
    ∃ t, own !! t = Some (IsTable d (u / 1024)) ∧ has_flag (word s t (u mod 1024)) PTE_P = true ∧
      frame (word s t (u mod 1024)) = g;
}.

(** The entry of a directory for a user page; 0 where it has no table. *)
Definition entry s (d u : Z) : Z :=
  if word s d (u / 1024) =? 0 then 0 else word s (frame (word s d (u / 1024))) (u mod 1024).

(** *** Loads and stores *)

Lemma pmem_store s a v x : pmem (phys (store s a v)) x = put32 (pmem (phys s)) a v x.
Proof using PageLaws0. unfold store. cbn [phys set_phys]. apply set_pmem_law. Qed.

Lemma word_store s t j v t' j' :
  0 ≤ j < 1024 → 0 ≤ j' < 1024 → is_u32 v →
  word (store s (PGSIZE * t + 4 * j) v) t' j' = if bool_decide (t' = t ∧ j' = j) then v else word s t' j'.
Proof using PageLaws0.
  intros Hj Hj' Hv. unfold word, load. rewrite (get32_ext (put32 (pmem (phys s)) (PGSIZE * t + 4 * j) v)) by (intros; apply pmem_store).
  case_bool_decide as Hc.
  - destruct Hc as [-> ->]. by apply get32_put32_eq.
  - apply get32_put32_ne. unfold PGSIZE. destruct (decide (t' = t)) as [->|]; [|lia].
    assert (j' ≠ j) by naive_solver. lia.
Qed.

Lemma word_ext s s' t j :
  0 ≤ j < 1024 → (∀ x, x / PGSIZE = t → pmem (phys s') x = pmem (phys s) x) → word s' t j = word s t j.
Proof.
  intros Hj Hm. apply get32_ext. intros x Hx. apply Hm. symmetry. unfold PGSIZE in *.
  apply (Z.div_unique _ _ _ (x - 4096 * t)); lia.
Qed.

Lemma word_u32 s own t j : vm_inv s own → is_u32 (word s t j).
Proof. intros Hi. apply get32_range, Hi. Qed.

(** A store in a page leaves the other pages alone. *)
Lemma store_page s t j v x :
  0 ≤ j < 1024 → x / PGSIZE ≠ t → pmem (phys (store s (PGSIZE * t + 4 * j) v)) x = pmem (phys s) x.
Proof using PageLaws0.
  intros Hj Hx. rewrite pmem_store. apply put32_outside. intros Hin. apply Hx. symmetry. unfold PGSIZE in *.
  apply (Z.div_unique _ _ _ (x - 4096 * t)); lia.
Qed.

Lemma store_allocator s a v :
  (pages_ok (phys s) → pages_ok (phys (store s a v))) ∧
  (∀ pg, page_taken (phys (store s a v)) pg = page_taken (phys s) pg) ∧
  (∀ j c, block_of (phys s) j c → block_of (phys (store s a v)) j c) ∧
  ((∀ x, is_byte (pmem (phys s) x)) → ∀ x, is_byte (pmem (phys (store s a v)) x)).
Proof using PageLaws0.
  destruct (set_pmem_law (put32 (pmem (phys s)) a v) (phys s)) as (? & ? & ? & ?). split_and!; try done.
  intros Hb x. rewrite pmem_store. by apply put32_byte.
Qed.

Lemma entry_ok_u32 w : entry_ok w → is_u32 w.
Proof. unfold entry_ok, is_u32. lia. Qed.

(** *** Entries of a directory *)

Lemma points_to_ne w t : points_to w t → w ≠ 0.
Proof. intros (_ & _ & Hp & _) ->. done. Qed.

Lemma user_index u : 0 ≤ u < 786432 → 0 ≤ u / 1024 < 768 ∧ 0 ≤ u mod 1024 < 1024 ∧ u = 1024 * (u / 1024) + u mod 1024.
Proof.
  intros Hu. pose proof (Z.div_mod u 1024 ltac:(lia)). pose proof (Z.mod_pos_bound u 1024 ltac:(lia)).
  split; [|lia]. split; [apply Z.div_pos; lia|]. apply Z.div_lt_upper_bound; lia.
Qed.

Lemma index_user i j : 0 ≤ j < 1024 → (1024 * i + j) / 1024 = i ∧ (1024 * i + j) mod 1024 = j.
Proof.
  intros Hj. split; symmetry; [apply (Z.div_unique _ _ _ j)|apply (Z.mod_unique _ _ i)]; lia.
Qed.

Lemma entry_cases s own d u :
  vm_inv s own → own !! d = Some IsDir → 0 ≤ u < 786432 →
  (word s d (u / 1024) = 0 ∧ entry s d u = 0) ∨
  ∃ t, own !! t = Some (IsTable d (u / 1024)) ∧ points_to (word s d (u / 1024)) t ∧ entry s d u = word s t (u mod 1024).
Proof.
  intros Hi Hd Hu. destruct (user_index u Hu) as (Hi1 & Hj & _). unfold entry.
  destruct (vi_dir _ _ Hi d _ Hd Hi1) as [E|(t & Hp & Ht)]; [left|right].
  - by rewrite E.
  - exists t. rewrite (proj2 (Z.eqb_neq _ _)) by (by eapply points_to_ne). by destruct Hp as (? & <- & ?).
Qed.

Lemma entry_at s own t d i j :
  vm_inv s own → own !! t = Some (IsTable d i) → 0 ≤ j < 1024 → entry s d (1024 * i + j) = word s t j.
Proof.
  intros Hi Ht Hj. destruct (vi_table _ _ Hi t d i Ht) as (_ & _ & Hp). unfold entry.
  destruct (index_user i j Hj) as [-> ->]. rewrite (proj2 (Z.eqb_neq _ _)) by (by eapply points_to_ne).
  by destruct Hp as (_ & -> & _).
Qed.

(** [own'] differs from [own] only in the page of user page [u] of directory [d]. *)
Record remapped own own' (d u : Z) (new : option Z) : Prop := {
  rm_dir : ∀ g, own' !! g = Some IsDir ↔ own !! g = Some IsDir;
  rm_table : ∀ g d i, own' !! g = Some (IsTable d i) ↔ own !! g = Some (IsTable d i);
  rm_page : ∀ g d' u', own' !! g = Some (IsPage d' u') ↔
    (own !! g = Some (IsPage d' u') ∧ (d', u') ≠ (d, u)) ∨ (new = Some g ∧ (d', u') = (d, u));
}.

Section store_entry.
Context s own t d i j v (Hi : vm_inv s own) (Ht : own !! t = Some (IsTable d i)) (Hj : 0 ≤ j < 1024) (Hv : entry_ok v).
Let s' := store s (PGSIZE * t + 4 * j) v.

Lemma store_dir_word d' i' : own !! d' = Some IsDir → 0 ≤ i' < 768 → word s' d' i' = word s d' i'.
Proof using Hj Hv Ht PageLaws0.
  intros Hd' Hi'. unfold s'. rewrite word_store by (done || lia || by apply entry_ok_u32). rewrite bool_decide_eq_false_2; [done|].
  intros [-> _]. congruence.
Qed.

Lemma store_table_word t' d' i' j' :
  own !! t' = Some (IsTable d' i') → 0 ≤ j' < 1024 →
  word s' t' j' = if bool_decide ((d', 1024 * i' + j') = (d, 1024 * i + j)) then v else word s t' j'.
Proof using Hi Hj Hv Ht PageLaws0.
  intros Ht' Hj'. unfold s'. rewrite word_store by (done || by apply entry_ok_u32).
  erewrite bool_decide_ext; [done|]. split; [|intros ?; simplify_eq].
  - intros [-> ->]. congruence.
  - assert (i' = i ∧ j' = j) as [-> ->] by lia. destruct (vi_table _ _ Hi _ _ _ Ht) as (_ & _ & Hp1).
    destruct (vi_table _ _ Hi _ _ _ Ht') as (_ & _ & Hp2). destruct Hp1 as (_ & <- & _), Hp2 as (_ & <- & _). done.
Qed.

Lemma entry_store d' u' :
  own !! d' = Some IsDir → 0 ≤ u' < 786432 →
  entry s' d' u' = if bool_decide ((d', u') = (d, 1024 * i + j)) then v else entry s d' u'.
Proof using Hi Hj Hv Ht PageLaws0.
  intros Hd' Hu'. destruct (user_index u' Hu') as (Hi1 & Hj1 & Eu). unfold entry. rewrite store_dir_word by done.
  destruct (vi_dir _ _ Hi d' _ Hd' Hi1) as [E|(t' & Hp & Ht')].
  - rewrite E. simpl. rewrite bool_decide_eq_false_2; [done|]. intros [= -> ->].
    destruct (vi_table _ _ Hi _ _ _ Ht) as (_ & _ & Hp). destruct (index_user i j Hj) as [E1 _]. rewrite E1 in E.
    by apply points_to_ne in Hp.
  - rewrite (proj2 (Z.eqb_neq _ _)) by (by eapply points_to_ne). destruct Hp as (_ & -> & _).
    rewrite (store_table_word t' d' (u' / 1024)) by done. by rewrite <-Eu.
Qed.

Lemma store_entry_ok own' :
  (has_flag v PTE_P = true → has_flag v PTE_U = true) →
  remapped own own' d (1024 * i + j) (if has_flag v PTE_P then Some (frame v) else None) →
  (∀ g o, own' !! g = Some o → block_of (phys s) g 1) →
  vm_inv s' own'.
Proof using Hi Hj Hv Ht PageLaws0.
  intros Hu [Rd Rt Rp] Hb. pose proof Hi as []. pose proof store_dir_word as Hdir. pose proof store_table_word as Htab.
  destruct (store_allocator s (PGSIZE * t + 4 * j) v) as (Hok & _ & Hblk & Hbyte).
  split; [by apply Hok|by apply Hbyte|by intros g o Ho; apply Hblk, (Hb g o)|..].
  - intros d' i' Hd' Hi'. apply Rd in Hd'. rewrite Hdir by done.
    destruct (vi_dir0 d' i' Hd' Hi') as [?|(t' & ? & ?)]; [by left|right]. exists t'. split; [done|]. by apply Rt.
  - intros t' d' i' Ht'. apply Rt in Ht'. destruct (vi_table0 _ _ _ Ht') as (? & Hd' & ?). rewrite Hdir by done.
    split_and!; try tauto; try lia. by apply Rd.
  - intros t' d' i' j' Ht' Hj'. apply Rt in Ht'. rewrite (Htab t' d' i' j') by done. case_bool_decide as Hc.
    + split; [done|]. intros HP. split; [|by apply Hu]. rewrite HP in Rp. apply Rp. by right.
    + destruct (vi_entry0 _ _ _ _ Ht' Hj') as [? He]. split; [done|]. intros HP. destruct (He HP) as [Ho ?]. split; [|done].
      apply Rp. by left.
  - intros g d' u' Hg. apply Rp in Hg as [[Hg Hne]|[Hnew [= -> ->]]].
    + destruct (vi_page0 _ _ _ Hg) as (t' & Ht' & HP & Hf). exists t'. pose proof (Z.mod_pos_bound u' 1024 ltac:(lia)).
      rewrite (Htab t' d' (u' / 1024)) by done. rewrite <-Z.div_mod by lia. rewrite bool_decide_eq_false_2 by done. split_and!; try done. by apply Rt.
    + destruct (index_user i j Hj) as [-> ->]. exists t. rewrite (Htab t d i) by done. rewrite bool_decide_eq_true_2 by done.
      split; [by apply Rt|]. destruct (has_flag v PTE_P); by simplify_eq.
Qed.

End store_entry.

(** *** Looking up an entry *)

Lemma own_range s own g o : vm_inv s own → own !! g = Some o → 786432 ≤ g < 1048576 ∧ page_taken (phys s) g = true.
Proof using PageLaws0.
  intros Hi Ho. destruct (block_law _ _ _ (vi_ok _ _ Hi) (vi_own _ _ Hi g o Ho)) as (? & ? & ? & Ht).
  split; [lia|]. apply Ht. unfold within. lia.
Qed.

Lemma user_fields vaddr :
  0 ≤ vaddr < PHYS_BASE →
  let u := vaddr / PGSIZE in
  pd_no vaddr = u / 1024 ∧ pt_no vaddr = u mod 1024 ∧ pg_no vaddr = u ∧ is_user_vaddr vaddr = true ∧ 0 ≤ u < 786432.
Proof.
  intros Hv u. rewrite pd_no_div, pt_no_spec, pg_no_div. unfold u, PGSIZE, PHYS_BASE in *. rewrite Z.div_div by lia.
  split_and!; [done..|apply Z.ltb_lt, Hv|apply Z.div_pos; lia|apply Z.div_lt_upper_bound; lia].
Qed.

Lemma lookup_table s own d t vaddr create :
  vm_inv s own → own !! t = Some (IsTable d (vaddr / PGSIZE / 1024)) → 0 ≤ vaddr < PHYS_BASE →
  lookup_page (PGSIZE * d) vaddr create s = Ok (PGSIZE * t + 4 * (vaddr / PGSIZE mod 1024), s).
Proof using PageLaws0.
  intros Hi Ht Hv. destruct (user_fields vaddr Hv) as (Epd & Ept & _ & Euser & _).
  destruct (vi_table _ _ Hi _ _ _ Ht) as (_ & Hd & Hp). pose proof (own_range _ _ _ _ Hi Hd) as [Hr _].
  unfold lookup_page. rewrite (proj2 (Z.eqb_neq (PGSIZE * d) 0)) by (unfold PGSIZE; lia). rewrite Euser, orb_true_r. cbn [negb].
  rewrite Epd, Ept. fold (word s d (vaddr / PGSIZE / 1024)). rewrite (proj2 (Z.eqb_neq (word _ _ _) 0)) by (by eapply points_to_ne).
  mstep. cbn [negb]. fold (word s d (vaddr / PGSIZE / 1024)). destruct Hp as (Hok & Hf & HP & _).
  rewrite entry_table by done. mstep. by rewrite Hf.
Qed.

Lemma lookup_absent s own d vaddr :
  vm_inv s own → own !! d = Some IsDir → 0 ≤ vaddr < PHYS_BASE → word s d (vaddr / PGSIZE / 1024) = 0 →
  lookup_page (PGSIZE * d) vaddr false s = Ok (NULL, s).
Proof using PageLaws0.
  intros Hi Hd Hv E. destruct (user_fields vaddr Hv) as (Epd & _). pose proof (own_range _ _ _ _ Hi Hd) as [Hr _].
  unfold lookup_page. rewrite (proj2 (Z.eqb_neq (PGSIZE * d) 0)) by (unfold PGSIZE; lia). cbn [negb orb].
  rewrite Epd. fold (word s d (vaddr / PGSIZE / 1024)). by rewrite E.
Qed.

(** What an operation on the tables leaves alone. *)
Record tables_only s s' own : Prop := {
  to_mem : ∀ x, page_taken (phys s) (x / PGSIZE) = true →
    own !! (x / PGSIZE) ≠ Some IsDir → (∀ d i, own !! (x / PGSIZE) ≠ Some (IsTable d i)) →
    pmem (phys s') x = pmem (phys s) x;
  to_taken : ∀ pg, page_taken (phys s) pg = true → page_taken (phys s') pg = true;
  to_block : ∀ g c, block_of (phys s) g c → block_of (phys s') g c;
}.

Lemma store_tables_only s own t d i j v :
  own !! t = Some (IsTable d i) → 0 ≤ j < 1024 → tables_only s (store s (PGSIZE * t + 4 * j) v) own.
Proof using PageLaws0.
  intros Ht Hj. destruct (store_allocator s (PGSIZE * t + 4 * j) v) as (_ & Htk & Hb & _). split; [|by intros pg; rewrite Htk|done].
  intros x _ _ Hx. apply store_page; [done|]. intros <-. by apply (Hx d i).
Qed.

(** A new, empty table. *)
Section new_table.
Context s own d i t p e (Hi : vm_inv s own) (Hd : own !! d = Some IsDir) (Hidx : 0 ≤ i < 768)
  (E : word s d i = 0) (Hg : granted PAL_ZERO 1 (phys s) t p) (He : points_to e t).
Let s' := store (set_phys s p) (PGSIZE * d + 4 * i) e.

Lemma new_table_free : own !! t = None.
Proof using Hg Hi PageLaws0.
  destruct (own !! t) as [o|] eqn:Ho; [|done]. pose proof (own_range _ _ _ _ Hi Ho) as [_ Ht].
  rewrite (gr_free _ _ _ _ _ Hg) in Ht; [done|]. unfold within. lia.
Qed.

Lemma new_table_mem x : x / PGSIZE ≠ d → x / PGSIZE ≠ t → pmem (phys s') x = pmem (phys s) x.
Proof using Hg Hidx PageLaws0.
  intros Hxd Hxt. unfold s'. rewrite store_page by (done || lia). cbn [phys set_phys]. rewrite (gr_mem _ _ _ _ _ Hg).
  rewrite (bool_decide_eq_false_2 (in_pages t 1 x)); [done|]. unfold in_pages, within. lia.
Qed.

Lemma new_table_word g j :
  0 ≤ j < 1024 → word s' g j = if bool_decide (g = d ∧ j = i) then e else if bool_decide (g = t) then 0 else word s g j.
Proof using Hg Hidx He PageLaws0.
  intros Hj. unfold s'. rewrite word_store by (done || lia || apply entry_ok_u32, He).
  case_bool_decide as Hgj; [done|]. case_bool_decide as Hgt.
  - subst g. unfold word, load, get32. cbn [phys set_phys]. rewrite !(gr_mem _ _ _ _ _ Hg).
    rewrite !bool_decide_eq_true_2; [done|..]; unfold in_pages, within, PGSIZE;
      match goal with |- _ ≤ ?y / _ < _ => pose proof (Z.div_unique y 4096 t (y - 4096 * t)); lia end.
  - apply word_ext; [done|]. intros x Hx. cbn [phys set_phys]. rewrite (gr_mem _ _ _ _ _ Hg).
    rewrite (bool_decide_eq_false_2 (in_pages t 1 x)); [done|]. unfold in_pages, within. lia.
Qed.

Lemma new_table_ok : vm_inv s' (<[t := IsTable d i]> own).
Proof using All.
  pose proof new_table_free as Hn. pose proof Hi as []. destruct (store_allocator (set_phys s p) (PGSIZE * d + 4 * i) e) as (Hok & _ & Hblk & Hbyte).
  assert (d ≠ t) as Hdt by (intros ->; congruence).
  assert (∀ g o j, own !! g = Some o → 0 ≤ j < 1024 → (g, j) ≠ (d, i) → word s' g j = word s g j) as Hw.
  { intros g o j Hgo Hj Hne. rewrite new_table_word by done. rewrite bool_decide_eq_false_2 by naive_solver.
    rewrite bool_decide_eq_false_2; [done|]. intros ->. congruence. }
  assert (word s' d i = e) as Hwd by (rewrite new_table_word by lia; by rewrite bool_decide_eq_true_2).
  split; [apply Hok, Hg|apply Hbyte| | | | |].
  - intros a. cbn [phys set_phys]. rewrite (gr_mem _ _ _ _ _ Hg). destruct (_ && _); [done|apply vi_byte0].
  - intros g o [[<- _]|[_ Ho]]%lookup_insert_Some; apply Hblk; [apply Hg|]. apply (gr_keep _ _ _ _ _ Hg). by apply (vi_own0 g o).
  - intros d' i' [[_ [=]]|[_ Hd']]%lookup_insert_Some Hi'. destruct (decide ((d', i') = (d, i))) as [[= -> ->]|Hne].
    + right. exists t. rewrite Hwd. split; [done|apply lookup_insert_eq].
    + rewrite (Hw d' IsDir) by (done || lia). destruct (vi_dir0 d' i' Hd' Hi') as [?|(t' & ? & Ht')]; [by left|right].
      exists t'. split; [done|]. rewrite lookup_insert_ne; [done|]. intros <-. congruence.
  - intros t' d' i' [[<- [= <- <-]]|[_ Ht']]%lookup_insert_Some.
    + rewrite Hwd. split_and!; try (done || lia). by rewrite lookup_insert_ne.
    + destruct (vi_table0 _ _ _ Ht') as (? & Hd' & Hp'). rewrite (Hw d' IsDir); [|done|lia|].
      * split; [done|]. split; [|done]. rewrite lookup_insert_ne; [done|]. intros <-. congruence.
      * intros [= -> ->]. rewrite E in Hp'. by apply points_to_ne in Hp'.
  - intros t' d' i' j' [[<- [= <- <-]]|[_ Ht']]%lookup_insert_Some Hj'.
    + rewrite new_table_word by done. rewrite bool_decide_eq_false_2 by naive_solver. by rewrite bool_decide_eq_true_2.
    + rewrite (Hw t' (IsTable d' i')); [|done..|intros [= -> ->]; congruence].
      destruct (vi_entry0 _ _ _ _ Ht' Hj') as [? He']. split; [done|]. intros HP. destruct (He' HP) as [Ho ?]. split; [|done].
      rewrite lookup_insert_ne; [done|]. intros Heq. rewrite <-Heq in Ho. congruence.
  - intros g d' u' [[_ [=]]|[_ Hg']]%lookup_insert_Some. destruct (vi_page0 _ _ _ Hg') as (t' & Ht' & HP & Hf). exists t'.
    pose proof (Z.mod_pos_bound u' 1024 ltac:(lia)). rewrite (Hw t' (IsTable d' (u' / 1024))); [|done..|intros [= -> _]; congruence].
    split_and!; try done. rewrite lookup_insert_ne; [done|]. intros <-. congruence.
Qed.

Lemma new_table_entry d' u' : own !! d' = Some IsDir → 0 ≤ u' < 786432 → entry s' d' u' = entry s d' u'.
Proof using All.
  intros Hd' Hu'. destruct (user_index u' Hu') as (Hi' & Hj' & _). pose proof new_table_free as Hn. unfold entry.
  rewrite (new_table_word d') by lia. rewrite (bool_decide_eq_false_2 (d' = t)) by (intros ->; congruence).
  case_bool_decide as Hc.
  - destruct Hc as [-> Eu]. rewrite Eu, E, Z.eqb_refl. rewrite (proj2 (Z.eqb_neq e 0)) by (by eapply points_to_ne).
    destruct He as (_ & -> & _). rewrite new_table_word by done. rewrite bool_decide_eq_false_2; [by rewrite bool_decide_eq_true_2|].
    intros [-> _]. congruence.
  - destruct (vi_dir _ _ Hi d' _ Hd' Hi') as [->|(t' & Hp & Ht')]; [done|].
    rewrite (proj2 (Z.eqb_neq (word s d' (u' / 1024)) 0)) by (by eapply points_to_ne). destruct Hp as (_ & -> & _).
    rewrite new_table_word by done. rewrite bool_decide_eq_false_2 by (intros [-> _]; congruence).
    rewrite bool_decide_eq_false_2; [done|]. intros ->. congruence.
Qed.

Lemma new_table_only : tables_only s s' own.
Proof using Hd Hg Hidx Hi PageLaws0.
  destruct (store_allocator (set_phys s p) (PGSIZE * d + 4 * i) e) as (_ & Htk & Hblk & _). split.
  - intros x Hx Hno _. apply new_table_mem.
    + intros Hxd. by rewrite Hxd, Hd in Hno.
    + intros Hxt. rewrite Hxt in Hx. rewrite (gr_free _ _ _ _ _ Hg) in Hx; [done|]. unfold within. lia.
  - intros pg Hpg. unfold s'. rewrite Htk. cbn [phys set_phys]. rewrite (gr_taken _ _ _ _ _ Hg), Hpg. apply orb_true_r.
  - intros g c Hb. apply Hblk, (gr_keep _ _ _ _ _ Hg), Hb.
Qed.

End new_table.

(** The entries of all directories are the same. *)
Definition same_entries s s' own : Prop :=
  ∀ d u, own !! d = Some IsDir → 0 ≤ u < 786432 → entry s' d u = entry s d u.

(** At most one table more. *)
Definition more_tables s own own' (d : Z) : Prop :=
  own' = own ∨ ∃ t i, own !! t = None ∧ page_taken (phys s) t = false ∧ own' = <[t := IsTable d i]> own.

(** Every page that has been taken is owned. *)
Definition new_taken s s' own' : Prop :=
  ∀ pg, page_taken (phys s') pg = true → page_taken (phys s) pg = true ∨ is_Some (own' !! pg).

Lemma pde_create_ok t :
  786432 ≤ t < 1048576 → ∃ e, pde_create (PGSIZE * t) = Ok e ∧ points_to e t.
Proof.
  intros Ht. destruct (entry_make t 7 Ht ltac:(done)) as (Hok & Hf & Hfl).
  unfold pde_create. rewrite kpage_ofs, kpage_vtop by (by apply kpage_of). mstep. rewrite <-!Z.lor_assoc. simpl.
  eexists. split; [done|]. split_and!; try done; by rewrite Hfl.
Qed.

Lemma set_phys_unchanged s own p : vm_inv s own → unchanged (phys s) p → vm_inv (set_phys s p) own ∧ same_entries s (set_phys s p) own ∧ tables_only s (set_phys s p) own.
Proof.
  intros [] [Hok Htk Hm Hk].
  assert (∀ g j, word (set_phys s p) g j = word s g j) as Hw by (intros g j; apply get32_ext; intros x _; apply Hm).
  split_and!.
  - split; try done; cbn [phys set_phys]; [by intros a; rewrite Hm|by intros g o Ho; apply Hk, (vi_own0 g o)|..];
      setoid_rewrite Hw; done.
  - intros d u _ _. unfold entry. by rewrite !Hw.
  - split; cbn [phys set_phys]; [by intros x _ _ _; apply Hm|by intros pg; rewrite Htk|done].
Qed.

Lemma lookup_create_ok s own d vaddr :
  vm_inv s own → own !! d = Some IsDir → 0 ≤ vaddr < PHYS_BASE →
  ∃ a s' own', lookup_page (PGSIZE * d) vaddr true s = Ok (a, s') ∧ vm_inv s' own' ∧ more_tables s own own' d ∧ new_taken s s' own' ∧
    cr3 s' = cr3 s ∧ tlb s' = tlb s ∧ tables_only s s' own ∧ same_entries s s' own ∧
    (a = NULL ∨ ∃ t, own' !! t = Some (IsTable d (vaddr / PGSIZE / 1024)) ∧ a = PGSIZE * t + 4 * (vaddr / PGSIZE mod 1024)).
Proof using PageLaws0.
  intros Hi Hd Hv. destruct (user_fields vaddr Hv) as (Epd & Ept & _ & Euser & Hu).
  destruct (entry_cases s own d _ Hi Hd Hu) as [[E _]|(t & Ht & _)].
  2: { exists (PGSIZE * t + 4 * (vaddr / PGSIZE mod 1024)), s, own. rewrite (lookup_table s own d t) by done.
       split_and!; try done; [by left|by intros pg; left|by right; exists t]. }
  pose proof (own_range _ _ _ _ Hi Hd) as [Hr _]. destruct (user_index _ Hu) as (Hidx & _).
  unfold lookup_page. rewrite (proj2 (Z.eqb_neq (PGSIZE * d) 0)) by (unfold PGSIZE; lia). rewrite Euser. cbn [negb orb].
  rewrite Epd, Ept. fold (word s d (vaddr / PGSIZE / 1024)). rewrite E. cbn [Z.eqb].
  destruct (get_law PAL_ZERO 1 (phys s) (vi_ok _ _ Hi) eq_refl ltac:(done)) as [(t & p & -> & Hg)|(p & -> & Hun)]; mstep.
  - destruct (block_law _ _ _ (gr_ok _ _ _ _ _ Hg) (gr_block _ _ _ _ _ Hg)) as (_ & ? & ? & _).
    rewrite (proj2 (Z.eqb_neq (PGSIZE * t) 0)) by (unfold PGSIZE; lia). destruct (pde_create_ok t ltac:(lia)) as (e & -> & He). mstep. cbn [negb].
    set (i := vaddr / PGSIZE / 1024) in *. set (s' := store (set_phys s p) _ e). pose proof (new_table_word s d i t p e Hidx Hg He) as Hw. fold s' in Hw.
    fold (word s' d i). rewrite (Hw d i) by lia. rewrite bool_decide_eq_true_2 by done.
    destruct (He) as (Hok & Hf & HP & _). rewrite entry_table by done. mstep. rewrite Hf.
    exists (PGSIZE * t + 4 * (vaddr / PGSIZE mod 1024)), s', (<[t := IsTable d i]> own). split; [done|]. split_and!; try done.
    + by apply (new_table_ok s own d i t p e).
    + right. exists t, i. split_and!; [by eapply new_table_free| |done]. apply (gr_free _ _ _ _ _ Hg). unfold within. lia.
    + intros pg. unfold s', store. cbn [phys set_phys]. rewrite (proj1 (proj2 (set_pmem_law _ p))), (gr_taken _ _ _ _ _ Hg).
      case_bool_decide as Hw'; [|by left]. right. assert (pg = t) as -> by (unfold within in Hw'; lia). by rewrite lookup_insert_eq.
    + by apply (new_table_only s own d i t p e).
    + intros d' u'. by apply (new_table_entry s own d i t p e).
    + right. exists t. split; [apply lookup_insert_eq|done].
  - destruct (set_phys_unchanged s own p Hi Hun) as (? & ? & ?). cbn [negb]. exists NULL, (set_phys s p), own. split_and!; try done; [by left| |by left].
    intros pg. cbn [phys set_phys]. rewrite (un_taken _ _ Hun). by left.
Qed.

(** *** The operations *)

Definition entry_set_to s s' own d u v : Prop :=
  ∀ d' u', own !! d' = Some IsDir → 0 ≤ u' < 786432 →
    entry s' d' u' = if bool_decide ((d', u') = (d, u)) then v else entry s d' u'.

(** The page that a present entry maps is the one recorded for it. *)
Lemma page_iff s own t d i j g :
  vm_inv s own → own !! t = Some (IsTable d i) → 0 ≤ j < 1024 →
  own !! g = Some (IsPage d (1024 * i + j)) ↔ has_flag (word s t j) PTE_P = true ∧ frame (word s t j) = g.
Proof.
  intros Hi Ht Hj. split.
  - intros Hg. destruct (vi_page _ _ Hi g _ _ Hg) as (t' & Ht' & Hp). destruct (index_user i j Hj) as [E1 E2].
    rewrite E1 in Ht'. rewrite E2 in Hp. destruct (vi_table _ _ Hi _ _ _ Ht) as (_ & _ & (_ & <- & _)).
    destruct (vi_table _ _ Hi _ _ _ Ht') as (_ & _ & (_ & <- & _)). done.
  - intros [HP <-]. by apply (vi_entry _ _ Hi t d i j Ht Hj).
Qed.

Lemma remapped_same s own t d i j v :
  vm_inv s own → own !! t = Some (IsTable d i) → 0 ≤ j < 1024 →
  has_flag v PTE_P = has_flag (word s t j) PTE_P → frame v = frame (word s t j) →
  remapped own own d (1024 * i + j) (if has_flag v PTE_P then Some (frame v) else None).
Proof.
  intros Hi Ht Hj HP Hf. split; [done..|]. intros g d' u'. rewrite HP, Hf. pose proof (page_iff s own t d i j g Hi Ht Hj) as Hpg.
  destruct (decide ((d', u') = (d, 1024 * i + j))) as [[= -> ->]|Hne]; [|naive_solver].
  rewrite Hpg. destruct (has_flag (word s t j) PTE_P); naive_solver.
Qed.

(** A change of flags other than the present bit. *)
Lemma store_flags_ok s own t d i j v :
  vm_inv s own → own !! t = Some (IsTable d i) → 0 ≤ j < 1024 → entry_ok v → frame v = frame (word s t j) →
  has_flag v PTE_P = has_flag (word s t j) PTE_P → has_flag v PTE_U = has_flag (word s t j) PTE_U →
  let s' := store s (PGSIZE * t + 4 * j) v in
  vm_inv s' own ∧ entry_set_to s s' own d (1024 * i + j) v ∧ tables_only s s' own.
Proof using PageLaws0.
  intros Hi Ht Hj Hv Hf HP HU s'. split_and!.
  - apply (store_entry_ok s own t d i j v); try done; [|by eapply remapped_same|apply (vi_own _ _ Hi)].
    rewrite HP, HU. apply (vi_entry _ _ Hi t d i j Ht Hj).
  - intros d' u'. by apply entry_store.
  - by eapply store_tables_only.
Qed.

Section operations.
Context (init_page_dir init_ram_pages : Z).

Definition user_entry (k : Z) (writable : bool) : Z := Z.lor (PGSIZE * k - PHYS_BASE) (user_flags writable).

Lemma user_entry_ok k w :
  786432 ≤ k < 1048576 →
  entry_ok (user_entry k w) ∧ frame (user_entry k w) = k ∧ has_flag (user_entry k w) PTE_P = true ∧
  has_flag (user_entry k w) PTE_U = true ∧ has_flag (user_entry k w) PTE_W = w.
Proof.
  intros Hk. destruct (entry_make k (user_flags w) Hk) as (? & ? & Hfl); [by destruct w|].
  split_and!; try done; unfold user_entry; rewrite Hfl by done; by destruct w.
Qed.

Lemma map_page_ok s own t d i j k w :
  vm_inv s own → own !! t = Some (IsTable d i) → 0 ≤ j < 1024 →
  has_flag (word s t j) PTE_P = false → own !! k = Some IsHeld →
  let s' := store s (PGSIZE * t + 4 * j) (user_entry k w) in
  vm_inv s' (<[k := IsPage d (1024 * i + j)]> own) ∧ entry_set_to s s' own d (1024 * i + j) (user_entry k w).
Proof using PageLaws0.
  intros Hi Ht Hj HP Hk s'. destruct (own_range _ _ _ _ Hi Hk) as [? _].
  destruct (user_entry_ok k w ltac:(lia)) as (Hok & Hf & HP' & HU & _). split.
  - apply (store_entry_ok s own t d i j (user_entry k w)); try done.
    + rewrite HP', Hf. split.
      * intros g. rewrite lookup_insert_Some. split; [by intros [[_ [=]]|[_ ?]]|]. intros Hg. right. split; [|done]. intros <-. congruence.
      * intros g d' i'. rewrite lookup_insert_Some. split; [by intros [[_ [=]]|[_ ?]]|]. intros Hg. right. split; [|done]. intros <-. congruence.
      * intros g d' u'. rewrite lookup_insert_Some. pose proof (page_iff s own t d i j g Hi Ht Hj) as Hpg. rewrite HP in Hpg. split.
        -- intros [[-> [= -> ->]]|[_ Hg]]; [by right|left]. split; [done|]. intros [= -> ->]. naive_solver.
        -- intros [[Hg _]|[[= ->] [= -> ->]]]; [right|by left]. split; [|done]. intros <-. congruence.
    + intros g o [[<- _]|[_ Ho]]%lookup_insert_Some; by eapply (vi_own _ _ Hi).
  - intros d' u'. by apply entry_store.
Qed.

Lemma more_tables_other s own own' d g o :
  more_tables s own own' d → (∀ i, o ≠ IsTable d i) → own' !! g = Some o ↔ own !! g = Some o.
Proof.
  intros [->|(t & i & Hn & _ & ->)] Ho; [done|]. rewrite lookup_insert_Some. split; [|].
  - intros [[_ <-]|[_ ?]]; [by destruct (Ho i)|done].
  - intros Hd. right. split; [|done]. intros <-. congruence.
Qed.

Lemma set_page_ok s own d k u writable :
  vm_inv s own → own !! d = Some IsDir → 0 ≤ u < 786432 → has_flag (entry s d u) PTE_P = false →
  own !! k = Some IsHeld → k - 786432 < init_ram_pages → PGSIZE * d ≠ init_page_dir →
  ∃ b s' own', pagedir_set_page init_page_dir init_ram_pages (PGSIZE * d) (PGSIZE * u) (PGSIZE * k) writable s = Ok (b, s') ∧
    vm_inv s' (if b then <[k := IsPage d u]> own' else own') ∧ more_tables s own own' d ∧ new_taken s s' own' ∧
    cr3 s' = cr3 s ∧ tlb s' = tlb s ∧ tables_only s s' own ∧
    if b then entry_set_to s s' own d u (user_entry k writable) else same_entries s s' own.
Proof using PageLaws0.
  intros Hi Hd Hu HP Hk Hram Hpd. destruct (own_range _ _ _ _ Hi Hk) as [Hk1 _].
  assert (0 ≤ PGSIZE * u < PHYS_BASE) as Hv by (unfold PGSIZE, PHYS_BASE; lia).
  assert (PGSIZE * u / PGSIZE = u) as Eu by (rewrite Z.mul_comm; by apply Z.div_mul).
  unfold pagedir_set_page. rewrite pg_ofs_mod, (Z.mul_comm PGSIZE u), Z.mod_mul, (Z.mul_comm u) by done.
  rewrite kpage_ofs, kpage_vtop by (apply kpage_of; lia). destruct (user_fields _ Hv) as (_ & _ & _ & -> & _). mstep.
  assert (Z.shiftr (PGSIZE * k - PHYS_BASE) PTSHIFT = k - 786432) as ->.
  { rewrite Z.shiftr_div_pow2 by done. change (2 ^ PTSHIFT) with 4096. unfold PGSIZE, PHYS_BASE.
    replace (4096 * k - 3221225472) with ((k - 786432) * 4096) by lia. by apply Z.div_mul. }
  rewrite (proj2 (Z.ltb_lt _ _)) by done. rewrite (proj2 (Z.eqb_neq _ init_page_dir)) by done. cbn [negb].
  destruct (lookup_create_ok s own d (PGSIZE * u) Hi Hd Hv) as (a & s1 & own1 & -> & Hi1 & Hm & Hnt & Hc & Ht & Hto & Hse & Ha). mstep.
  destruct Ha as [->|(t & Htab & ->)]; [cbn [negb Z.eqb]; by exists false, s1, own1|]. rewrite Eu in *.
  destruct (own_range _ _ _ _ Hi1 Htab) as [Hr _]. destruct (user_index u Hu) as (_ & Hj & Euj).
  rewrite (proj2 (Z.eqb_neq (PGSIZE * t + 4 * (u mod 1024)) 0)) by (unfold PGSIZE; lia). cbn [negb]. fold (word s1 t (u mod 1024)).
  assert (entry s1 d u = word s1 t (u mod 1024)) as Ee by (rewrite Euj at 1; by eapply entry_at).
  pose proof (Hse d u Hd Hu) as Es. rewrite <-Es, Ee in HP. unfold has_flag in HP. apply negb_false_iff in HP as HP0. rewrite HP0.
  rewrite pte_create_user_eq by (apply kpage_of; lia). mstep. fold (user_entry k writable).
  destruct (map_page_ok s1 own1 t d (u / 1024) (u mod 1024) k writable Hi1 Htab Hj) as [Hi2 He2]; [done|by apply (more_tables_other s own own1 d)|].
  rewrite <-Euj in Hi2, He2. exists true. eexists. exists own1. split; [done|]. split_and!; try done.
  - intros pg. unfold store. cbn [phys set_phys]. rewrite (proj1 (proj2 (set_pmem_law _ (phys s1)))). apply Hnt.
  - destruct (store_tables_only s1 own1 t d (u / 1024) (u mod 1024) (user_entry k writable) Htab Hj) as [Hm2 Ht2 Hb2].
    destruct Hto as [Hm1 Ht1 Hb1]. split; [|by intros pg ?; apply Ht2, Ht1|by intros g c ?; apply Hb2, Hb1].
    intros x Hx Hno1 Hno2. rewrite Hm2; [by apply Hm1|by apply Ht1|..].
    + by rewrite (more_tables_other s own own1 d).
    + intros d' i'. destruct Hm as [->|(t' & i1 & Hn & Hf & ->)]; [done|]. rewrite lookup_insert_ne; [done|]. intros ->. congruence.
  - intros d' u' Hd' Hu'. rewrite He2; [|by apply (more_tables_other s own own1 d)|done]. case_bool_decide; [done|]. by apply Hse.
Qed.

(** Directory [d] is the active one. *)
Definition active s own (d : Z) : Prop := own !! d = Some IsDir ∧ cr3 s = PGSIZE * (d - 786432).

Lemma active_pd_ok s own d : vm_inv s own → active s own d → active_pd s = Ok (PGSIZE * d).
Proof using PageLaws0.
  intros Hi [Hd Hc]. destruct (own_range _ _ _ _ Hi Hd) as [Hr _]. unfold active_pd, ptov. rewrite Hc.
  rewrite (proj2 (Z.ltb_lt _ _)) by (unfold PGSIZE, PHYS_BASE; lia). f_equal.
  rewrite u32_small by (unfold is_u32, PGSIZE, PHYS_BASE; lia). unfold PGSIZE, PHYS_BASE. lia.
Qed.

Lemma activate_ok s own d :
  vm_inv s own → own !! d = Some IsDir →
  pagedir_activate init_page_dir (PGSIZE * d) s = Ok (Machine (phys s) (PGSIZE * (d - 786432)) ∅).
Proof using PageLaws0.
  intros Hi Hd. destruct (own_range _ _ _ _ Hi Hd) as [Hr _]. unfold pagedir_activate.
  rewrite (proj2 (Z.eqb_neq _ _)) by (unfold PGSIZE; lia). rewrite kpage_vtop by (by apply kpage_of). mstep.
  do 2 f_equal. unfold PGSIZE, PHYS_BASE. lia.
Qed.

Lemma invalidate_ok s own d d' :
  vm_inv s own → active s own d →
  invalidate_pagedir init_page_dir (PGSIZE * d') s =
    Ok (Machine (phys s) (cr3 s) (if bool_decide (d' = d) then ∅ else tlb s)).
Proof using PageLaws0.
  intros Hi Ha. unfold invalidate_pagedir. rewrite (active_pd_ok s own d) by done. mstep. case_bool_decide as Hc.
  - subst d'. rewrite Z.eqb_refl. destruct Ha as [Hd Hc]. rewrite (activate_ok s own) by done. by rewrite Hc.
  - rewrite (proj2 (Z.eqb_neq _ _)) by (unfold PGSIZE; lia). by destruct s.
Qed.

(** Without the right to create a table, a lookup changes nothing. *)
Lemma lookup_plain s own d vaddr :
  vm_inv s own → own !! d = Some IsDir → 0 ≤ vaddr < PHYS_BASE →
  let u := vaddr / PGSIZE in
  (lookup_page (PGSIZE * d) vaddr false s = Ok (NULL, s) ∧ word s d (u / 1024) = 0 ∧ entry s d u = 0) ∨
  ∃ t, own !! t = Some (IsTable d (u / 1024)) ∧ word s d (u / 1024) ≠ 0 ∧ entry s d u = word s t (u mod 1024) ∧
    lookup_page (PGSIZE * d) vaddr false s = Ok (PGSIZE * t + 4 * (u mod 1024), s) ∧
    PGSIZE * t + 4 * (u mod 1024) ≠ NULL.
Proof using PageLaws0.
  intros Hi Hd Hv u. destruct (user_fields vaddr Hv) as (_ & _ & _ & _ & Hu).
  destruct (entry_cases s own d u Hi Hd Hu) as [[E E']|(t & Ht & Hp & E)]; [left|right].
  - split_and!; try done. by eapply lookup_absent.
  - exists t. destruct (own_range _ _ _ _ Hi Ht) as [Hr _]. pose proof (Z.mod_pos_bound u 1024 ltac:(lia)).
    split_and!; try done; [by eapply points_to_ne|by eapply lookup_table|unfold PGSIZE; lia].
Qed.

Lemma get_page_ok s own d vaddr :
  vm_inv s own → own !! d = Some IsDir → 0 ≤ vaddr < PHYS_BASE →
  let w := entry s d (vaddr / PGSIZE) in
  pagedir_get_page (PGSIZE * d) vaddr s =
    Ok (if has_flag w PTE_P then PGSIZE * frame w + pg_ofs vaddr else NULL) ∧ (has_flag w PTE_P = true → entry_ok w).
Proof using PageLaws0.
  intros Hi Hd Hv w. destruct (user_fields vaddr Hv) as (_ & _ & _ & Eu & Hu). unfold pagedir_get_page. rewrite Eu.
  destruct (lookup_plain s own d vaddr Hi Hd Hv) as [(-> & _ & E)|(t & Ht & _ & E & -> & Hne)]; mstep.
  - unfold w. rewrite E. done.
  - rewrite (proj2 (Z.eqb_neq _ 0)) by done. cbn [negb andb].
    fold (word s t (vaddr / PGSIZE mod 1024)). rewrite <-E. fold w. destruct (user_index _ Hu) as (_ & Hj & _).
    destruct (vi_entry _ _ Hi _ _ _ _ Ht Hj) as [Hok _]. rewrite <-E in Hok. fold w in Hok. split; [|done].
    destruct (has_flag w PTE_P); [|done]. rewrite entry_page by done. mstep. pose proof (frame_range w Hok).
    rewrite u32_small; [done|]. rewrite pg_ofs_mod. pose proof (Z.mod_pos_bound vaddr PGSIZE ltac:(done)). unfold is_u32, PGSIZE in *. lia.
Qed.

(** Emptying the cache changes no table. *)
Lemma vm_inv_mmu s own c b : vm_inv (Machine (phys s) c b) own ↔ vm_inv s own.
Proof. split; intros []; by split. Qed.

Lemma entry_mmu s c b d u : entry (Machine (phys s) c b) d u = entry s d u.
Proof. done. Qed.

(** The outcome of an operation that changes an entry: the state, and the cache when
    the change has to be seen by the processor. *)
Record entry_change s s' own own' (d u v : Z) (flush : bool) : Prop := {
  ec_inv : vm_inv s' own';
  ec_cr3 : cr3 s' = cr3 s;
  ec_entry : entry_set_to s s' own d u v;
  ec_tables : tables_only s s' own;
  ec_tlb : tlb s' = if flush && bool_decide (cr3 s = PGSIZE * (d - 786432)) then ∅ else tlb s;
}.

Lemma entry_no_change s own d u flush :
  vm_inv s own → flush = false → entry_change s s own own d u (entry s d u) flush.
Proof.
  intros Hi ->. split; try done. intros d' u' _ _. by case_bool_decide as Hc; [injection Hc as -> ->|].
Qed.

Lemma invalidate_change s s' own own' d da u v :
  own !! da = Some IsDir → own' !! da = Some IsDir → cr3 s = PGSIZE * (da - 786432) →
  vm_inv s' own' → cr3 s' = cr3 s → tlb s' = tlb s → entry_set_to s s' own d u v → tables_only s s' own →
  ∃ s'', invalidate_pagedir init_page_dir (PGSIZE * d) s' = Ok s'' ∧ entry_change s s'' own own' d u v true.
Proof using PageLaws0.
  intros Hda Hda' Hc Hi' Hc' Ht He Hto. eexists. split.
  - apply (invalidate_ok s' own' da); [done|]. split; [done|]. by rewrite Hc'.
  - split; [by apply vm_inv_mmu|done|done|by destruct Hto|]. cbn [tlb andb]. rewrite Ht, Hc.
    erewrite bool_decide_ext; [done|]. unfold PGSIZE. lia.
Qed.

Lemma clear_page_ok s own d da u :
  vm_inv s own → own !! d = Some IsDir → active s own da → 0 ≤ u < 786432 →
  let w := entry s d u in
  ∃ s', pagedir_clear_page init_page_dir (PGSIZE * d) (PGSIZE * u) s = Ok s' ∧
    if has_flag w PTE_P
    then entry_change s s' own (<[frame w := IsHeld]> own) d u (Z.land w (u32 (Z.lnot PTE_P))) true
    else s' = s.
Proof using PageLaws0.
  intros Hi Hd Ha Hu w. assert (0 ≤ PGSIZE * u < PHYS_BASE) as Hv by (unfold PGSIZE, PHYS_BASE; lia).
  assert (PGSIZE * u / PGSIZE = u) as Eu by (rewrite Z.mul_comm; by apply Z.div_mul).
  unfold pagedir_clear_page. rewrite pg_ofs_mod, (Z.mul_comm PGSIZE u), Z.mod_mul, (Z.mul_comm u) by done.
  destruct (user_fields _ Hv) as (_ & _ & _ & -> & _). cbn [Z.eqb].
  destruct (lookup_plain s own d _ Hi Hd Hv) as [(-> & _ & E)|(t & Ht & _ & E & -> & Hne)]; mstep; rewrite ?Eu in *.
  { exists s. split; [done|]. unfold w. by rewrite E. }
  rewrite (proj2 (Z.eqb_neq _ 0)) by done. cbn [negb andb]. fold (word s t (u mod 1024)). rewrite <-E. fold w.
  destruct (user_index u Hu) as (_ & Hj & Euj). destruct (vi_entry _ _ Hi _ _ _ _ Ht Hj) as [Hok Hpg]. rewrite <-E in Hok, Hpg.
  destruct (has_flag w PTE_P) eqn:HP; [|by exists s]. destruct (Hpg HP) as [Ho HU]. rewrite <-Euj in Ho. fold w in Ho.
  destruct (entry_clear w PTE_P Hok ltac:(done)) as [Hok' _]. destruct Ha as [Hda Hc].
  apply (invalidate_change s _ own _ d da u); try done.
  - rewrite lookup_insert_ne; [done|]. intros E'. rewrite E' in Ho. congruence.
  - apply (store_entry_ok s own t d (u / 1024) (u mod 1024)); try done.
    + rewrite flag_cleared by done. done.
    + rewrite flag_cleared, <-Euj by done. split.
      * intros g. rewrite lookup_insert_Some. split; [by intros [[_ [=]]|[_ ?]]|]. intros Hg. right. split; [|done]. intros <-. congruence.
      * intros g d' i'. rewrite lookup_insert_Some. split; [by intros [[_ [=]]|[_ ?]]|]. intros Hg. right. split; [|done]. intros <-. congruence.
      * intros g d' u'. rewrite lookup_insert_Some. pose proof (page_iff s own t d _ _ g Hi Ht Hj) as Hiff. rewrite <-Euj, <-E in Hiff. fold w in Hiff.
        split; [|by intros [[Hg Hne']|[[=] _]]; right; split; [intros <-; congruence|]]. intros [[_ [=]]|[Hne' Hg]]. left. split; [done|]. intros [= -> ->]. apply Hiff in Hg as [_ ?]. done.
    + intros g o [[<- _]|[_ Hg]]%lookup_insert_Some; by eapply (vi_own _ _ Hi).
  - intros d' u'. pose proof (entry_store s own t d _ _ _ Hi Ht Hj Hok' d' u') as Hes. by rewrite <-Euj in Hes.
  - by eapply store_tables_only.
Qed.

(** [pagedir_is_dirty] and [pagedir_is_accessed] read a flag of the entry. *)
Lemma is_flag_ok s own d vaddr f :
  vm_inv s own → own !! d = Some IsDir → 0 ≤ vaddr < PHYS_BASE →
  ('(pte, s) ← lookup_page (PGSIZE * d) vaddr false s; Ok (negb (pte =? NULL) && has_flag (load s pte) f)) =
  Ok (has_flag (entry s d (vaddr / PGSIZE)) f).
Proof using PageLaws0.
  intros Hi Hd Hv. destruct (lookup_plain s own d vaddr Hi Hd Hv) as [(-> & _ & E)|(t & Ht & _ & E & -> & Hne)]; mstep.
  - by rewrite E.
  - rewrite (proj2 (Z.eqb_neq _ 0)) by done. cbn [negb andb]. fold (word s t (vaddr / PGSIZE mod 1024)). by rewrite E.
Qed.

Definition with_flag (w f : Z) (b : bool) : Z := if b then Z.lor w f else Z.land w (u32 (Z.lnot f)).

(** [pagedir_set_dirty] and [pagedir_set_accessed] set a flag of the entry, when there
    is a table for it. *)
Lemma set_flag_ok s own d da vaddr f b :
  f = PTE_A ∨ f = PTE_D → vm_inv s own → own !! d = Some IsDir → active s own da → 0 ≤ vaddr < PHYS_BASE →
  let u := vaddr / PGSIZE in
  let w := entry s d u in
  ∃ s', ('(pte, s) ← lookup_page (PGSIZE * d) vaddr false s;
         if negb (pte =? NULL) then
           if b : bool then Ok (store s pte (Z.lor (load s pte) f))
           else invalidate_pagedir init_page_dir (PGSIZE * d) (store s pte (Z.land (load s pte) (u32 (Z.lnot f))))
         else Ok s) = Ok s' ∧
    if word s d (u / 1024) =? 0 then s' = s else entry_change s s' own own d u (with_flag w f b) (negb b).
Proof using PageLaws0.
  intros Hf Hi Hd Ha Hv u w. destruct (user_fields vaddr Hv) as (_ & _ & _ & _ & Hu). fold u in Hu.
  destruct (lookup_plain s own d vaddr Hi Hd Hv) as [(-> & E0 & E)|(t & Ht & E0 & E & -> & Hne)]; mstep; fold u in E0, E.
  { exists s. by rewrite E0. }
  fold u in Ht, Hne |- *. rewrite (proj2 (Z.eqb_neq _ 0)) by done. rewrite (proj2 (Z.eqb_neq _ 0)) by done. cbn [negb]. fold (word s t (u mod 1024)).
  rewrite <-E. fold w. destruct (user_index u Hu) as (_ & Hj & Euj). destruct (vi_entry _ _ Hi _ _ _ _ Ht Hj) as [Hok _].
  assert (0 ≤ f < PGSIZE ∧ Z.land (u32 (Z.lnot f)) PTE_P = PTE_P ∧ Z.land (u32 (Z.lnot f)) PTE_U = PTE_U ∧
    has_flag f PTE_P = false ∧ has_flag f PTE_U = false) as (Hfr & HP1 & HU1 & HP2 & HU2) by (by destruct Hf as [-> | ->]).
  assert (vm_inv (store s (PGSIZE * t + 4 * (u mod 1024)) (with_flag w f b)) own ∧
    entry_set_to s (store s (PGSIZE * t + 4 * (u mod 1024)) (with_flag w f b)) own d u (with_flag w f b) ∧
    tables_only s (store s (PGSIZE * t + 4 * (u mod 1024)) (with_flag w f b)) own) as (Hi' & He & Hto).
  { unfold w. rewrite E. pose proof (store_flags_ok s own t d _ _ (with_flag (word s t (u mod 1024)) f b) Hi Ht Hj) as Hsf.
    rewrite <-Euj in Hsf. apply Hsf; unfold with_flag; destruct b;
      try apply (entry_set _ _ Hok Hfr); try apply (entry_clear _ _ Hok Hfr);
      rewrite ?flag_lor, ?flag_land, ?HP2, ?HU2, ?orb_false_r by done; done. }
  destruct b; unfold with_flag in *; cbn [negb].
  - eexists. split; [done|]. by split.
  - destruct Ha as [Hda Hc]. by apply (invalidate_change s _ own own d da).
Qed.

(** *** The processor *)

Lemma store_pde_ok s own t d i w :
  vm_inv s own → own !! t = Some (IsTable d i) → points_to w t →
  let s' := store s (PGSIZE * d + 4 * i) w in
  vm_inv s' own ∧ same_entries s s' own ∧ tables_only s s' own ∧
  ∀ t' d' i' j, own !! t' = Some (IsTable d' i') → 0 ≤ j < 1024 → word s' t' j = word s t' j.
Proof using PageLaws0.
  intros Hi Ht Hw s'. destruct (store_allocator s (PGSIZE * d + 4 * i) w) as (Hok & Htk & Hblk & Hbyte).
  pose proof Hi as []. destruct (vi_table0 _ _ _ Ht) as (Hidx & Hd & Hp0).
  assert (∀ g j, 0 ≤ j < 1024 → word s' g j = if bool_decide (g = d ∧ j = i) then w else word s g j) as Hword.
  { intros g j Hj. apply word_store; [lia|done|apply entry_ok_u32, Hw]. }
  assert (∀ t' d' i' j, own !! t' = Some (IsTable d' i') → 0 ≤ j < 1024 → word s' t' j = word s t' j) as Htab.
  { intros t' d' i' j Ht' Hj. rewrite Hword by done. rewrite bool_decide_eq_false_2; [done|]. intros [-> _]. congruence. }
  split_and!; [split|..]; try done.
  - by apply Hok.
  - by apply Hbyte.
  - intros g o Ho. by apply Hblk, (vi_own0 g o).
  - intros d' i' Hd' Hi'. rewrite Hword by lia. case_bool_decide as Hc; [|by apply vi_dir0]. destruct Hc as [-> ->]. right. by exists t.
  - intros t' d' i' Ht'. destruct (vi_table0 _ _ _ Ht') as (? & Hd' & Hp'). split_and!; try done; try lia. rewrite Hword by lia.
    case_bool_decide as Hc; [|done]. destruct Hc as [-> ->]. destruct Hp0 as (_ & <- & _), Hp' as (_ & <- & _). done.
  - intros t' d' i' j Ht' Hj. rewrite (Htab t' d' i') by done. by apply vi_entry0.
  - intros g d' u Hg. destruct (vi_page0 _ _ _ Hg) as (t' & Ht' & Hp). exists t'.
    rewrite (Htab t' d' (u / 1024)) by (done || apply Z.mod_pos_bound; lia). done.
  - intros d' u Hd' Hu. destruct (user_index u Hu) as (Hi' & Hj & _). unfold entry. rewrite (Hword d') by lia. case_bool_decide as Hc.
    + destruct Hc as [-> ->]. rewrite !(proj2 (Z.eqb_neq _ 0)) by (by eapply points_to_ne). destruct Hw as (_ & -> & _), Hp0 as (_ & -> & _).
      by apply (Htab t d i).
    + destruct (vi_dir0 d' _ Hd' Hi') as [->|(t' & Hp' & Ht')]; [done|]. rewrite (proj2 (Z.eqb_neq _ 0)) by (by eapply points_to_ne).
      destruct Hp' as (_ & -> & _). by apply (Htab t' d' (u / 1024)).
  - split; [|by intros pg; unfold s'; rewrite Htk|done]. intros x _ Hx _. apply store_page; [lia|]. intros Hxd. by rewrite Hxd in Hx.
Qed.

(** What an access of a user program needs of the entry. *)
Definition allowed (w : Z) (write : bool) : bool := has_flag w PTE_P && (negb write || has_flag w PTE_W).

Definition touched (w : Z) (write : bool) : Z := Z.lor w (if write then Z.lor PTE_A PTE_D else PTE_A).

Lemma points_to_accessed w t : points_to w t → points_to (Z.lor w PTE_A) t.
Proof.
  intros (Hok & Hf & HP & HU & HW). destruct (entry_set w PTE_A Hok ltac:(done)) as [? Hf'].
  split_and!; try done; [by rewrite Hf'|by rewrite flag_lor, ?HP, ?HU, ?HW..].
Qed.

Lemma page_walk_ok s own d vaddr write :
  vm_inv s own → active s own d → 0 ≤ vaddr < PHYS_BASE →
  let u := vaddr / PGSIZE in
  let w := entry s d u in
  if allowed w write
  then ∃ s', page_walk vaddr write s = Some (touched w write, Machine (phys s') (cr3 s) (<[u := touched w write]> (tlb s))) ∧
    entry_ok w ∧ has_flag w PTE_U = true ∧ vm_inv s' own ∧ entry_set_to s s' own d u (touched w write) ∧ tables_only s s' own
  else page_walk vaddr write s = None.
Proof using PageLaws0.
  intros Hi [Hd Hc] Hv u w. destruct (user_fields vaddr Hv) as (Epd & Ept & Epg & _ & Hu). fold u in Epd, Ept, Epg, Hu.
  unfold page_walk. rewrite Hc, Epd, Ept, Epg. assert (∀ x, PGSIZE * (d - 786432) + PHYS_BASE + x = PGSIZE * d + x) as -> by (unfold PGSIZE, PHYS_BASE; lia).
  fold (word s d (u / 1024)). destruct (entry_cases s own d u Hi Hd Hu) as [[E0 E]|(t & Ht & Hp & E)].
  { unfold w. rewrite E. simpl. by rewrite E0. }
  pose proof Hp as (Hpok & Hf & HP & HU & HW). rewrite HP, HU, HW, orb_true_r. cbn [negb andb]. rewrite entry_addr, Hf by done.
  assert (∀ x, PGSIZE * (t - 786432) + PHYS_BASE + x = PGSIZE * t + x) as -> by (unfold PGSIZE, PHYS_BASE; lia).
  fold (word s t (u mod 1024)). rewrite <-E. fold w. destruct (user_index u Hu) as (_ & Hj & Euj).
  destruct (vi_entry _ _ Hi _ _ _ _ Ht Hj) as [Hok HPU]. rewrite <-E in Hok, HPU. fold w in Hok, HPU. unfold allowed.
  destruct (has_flag w PTE_P) eqn:HPw; [|done]. destruct (HPU eq_refl) as [_ HUw]. rewrite HUw. cbn [negb andb].
  destruct (negb write || has_flag w PTE_W); [|done]. cbn [negb].
  set (s1 := store s _ (Z.lor (word s d (u / 1024)) PTE_A)).
  destruct (store_pde_ok s own t d (u / 1024) _ Hi Ht (points_to_accessed _ _ Hp)) as (Hi1 & Hse & Hto1 & Hw1). fold s1 in Hi1, Hse, Hto1, Hw1.
  exists (store s1 (PGSIZE * t + 4 * (u mod 1024)) (touched w write)). split; [by rewrite <-Hc|]. split; [done|]. split; [done|].
  pose proof (Hw1 t d _ _ Ht Hj) as Hw2. rewrite <-E in Hw2. fold w in Hw2.
  pose proof (store_flags_ok s1 own t d _ _ (touched w write) Hi1 Ht Hj) as Hsf. rewrite Hw2, <-Euj in Hsf.
  destruct Hsf as (? & Hes & Hto2); [by apply entry_set; [|destruct write]..| | |].
  1,2: unfold touched; rewrite flag_lor; destruct write; by rewrite orb_false_r.
  split_and!; try done.
  - intros d' u' Hd' Hu'. rewrite Hes by done. case_bool_decide; [done|]. by apply Hse.
  - destruct Hto1 as [M1 T1 B1], Hto2 as [M2 T2 B2]. split; [|by intros pg ?; apply T2, T1|by intros g c ?; apply B2, B1].
    intros x Hx Hno1 Hno2. rewrite M2 by (done || by apply T1). by apply M1.
Qed.

(** *** A new directory *)

Section new_directory.
Context s own ip t p (Hi : vm_inv s own) (Hip : own !! ip = Some IsDir) (Hempty : ∀ i, 0 ≤ i < 768 → word s ip i = 0)
  (Hg : granted 0 1 (phys s) t p).
Let s' := set_phys s (set_pmem (copy_page (pmem p) (PGSIZE * t) (PGSIZE * ip)) p).

Lemma new_dir_free : own !! t = None.
Proof using Hg Hi PageLaws0.
  destruct (own !! t) as [o|] eqn:Ho; [|done]. pose proof (own_range _ _ _ _ Hi Ho) as [_ Ht].
  rewrite (gr_free _ _ _ _ _ Hg) in Ht; [done|]. unfold within. lia.
Qed.

Lemma new_dir_mem x :
  pmem (phys s') x = if bool_decide (x / PGSIZE = t) then pmem (phys s) (PGSIZE * ip + (x - PGSIZE * t)) else pmem (phys s) x.
Proof using Hg PageLaws0.
  unfold s'. cbn [phys set_phys]. destruct (set_pmem_law (copy_page (pmem p) (PGSIZE * t) (PGSIZE * ip)) p) as (_ & _ & _ & ->).
  unfold copy_page. rewrite !(gr_mem _ _ _ _ _ Hg). cbn [andb has_flag Z.land Z.eqb negb]. unfold PGSIZE.
  pose proof (Z.div_mod x 4096 ltac:(lia)). pose proof (Z.mod_pos_bound x 4096 ltac:(lia)).
  destruct (Z.leb_spec (4096 * t) x), (Z.ltb_spec x (4096 * t + 4096)); simpl; case_bool_decide; done || lia.
Qed.

Lemma new_dir_word g j : 0 ≤ j < 1024 → word s' g j = if bool_decide (g = t) then word s ip j else word s g j.
Proof using Hg PageLaws0.
  intros Hj. case_bool_decide as Hgt.
  - subst g. unfold word, load, get32. rewrite !new_dir_mem. unfold PGSIZE.
    rewrite !bool_decide_eq_true_2 by (match goal with |- ?y / _ = _ => symmetry; apply (Z.div_unique _ _ _ (y - 4096 * t)); lia end).
    do 2 f_equal; [f_equal; lia|]. f_equal; [f_equal; lia|]. f_equal; [f_equal; lia|]. do 2 f_equal. lia.
  - apply word_ext; [done|]. intros x Hx. rewrite new_dir_mem. by rewrite bool_decide_eq_false_2 by lia.
Qed.

Lemma new_dir_allocator :
  pages_ok (phys s') ∧ (∀ g c, block_of (phys s) g c → block_of (phys s') g c) ∧ block_of (phys s') t 1 ∧
  (∀ pg, page_taken (phys s) pg = true → page_taken (phys s') pg = true).
Proof using Hg PageLaws0.
  unfold s'. cbn [phys set_phys]. destruct (set_pmem_law (copy_page (pmem p) (PGSIZE * t) (PGSIZE * ip)) p) as (Hok & Htk & Hb & _).
  split_and!; [apply Hok, Hg| |apply Hb, Hg|].
  - intros g c ?. by apply Hb, (gr_keep _ _ _ _ _ Hg).
  - intros pg Hpg. rewrite Htk, (gr_taken _ _ _ _ _ Hg), Hpg. apply orb_true_r.
Qed.

Lemma new_dir_ok : vm_inv s' (<[t := IsDir]> own).
Proof using Hempty Hg Hi PageLaws0.
  pose proof new_dir_free as Hn. destruct new_dir_allocator as (Hok & Hblk & Hbt & _). pose proof Hi as [].
  assert (∀ g o j, own !! g = Some o → 0 ≤ j < 1024 → word s' g j = word s g j) as Hw.
  { intros g o j Hgo Hj. rewrite new_dir_word by done. rewrite bool_decide_eq_false_2; [done|]. intros ->. congruence. }
  assert (∀ g o, own !! g = Some o → (<[t := IsDir]> own : gmap Z owner) !! g = Some o) as Hins.
  { intros g o Hgo. rewrite lookup_insert_ne; [done|]. intros ->. congruence. }
  split; [done| | | | | |].
  - intros a. rewrite new_dir_mem. case_bool_decide; apply vi_byte0.
  - intros g o [[<- _]|[_ Ho]]%lookup_insert_Some; [done|]. by apply Hblk, (vi_own0 g o).
  - intros d i [[<- _]|[_ Hd]]%lookup_insert_Some Hidx.
    + left. rewrite new_dir_word by lia. rewrite bool_decide_eq_true_2 by done. by apply Hempty.
    + rewrite (Hw d IsDir) by (done || lia). destruct (vi_dir0 d i Hd Hidx) as [?|(t' & ? & ?)]; [by left|right]. exists t'. auto.
  - intros t' d i [[_ [=]]|[_ Ht']]%lookup_insert_Some. destruct (vi_table0 _ _ _ Ht') as (? & Hd & ?).
    rewrite (Hw d IsDir) by (done || lia). auto.
  - intros t' d i j [[_ [=]]|[_ Ht']]%lookup_insert_Some Hj. rewrite (Hw t' (IsTable d i)) by done.
    destruct (vi_entry0 _ _ _ _ Ht' Hj) as [? He]. split; [done|]. intros HP. destruct (He HP). auto.
  - intros g d u [[_ [=]]|[_ Hg']]%lookup_insert_Some. destruct (vi_page0 _ _ _ Hg') as (t' & Ht' & Hp). exists t'.
    rewrite (Hw t' (IsTable d (u / 1024))) by (done || apply Z.mod_pos_bound; lia). auto.
Qed.

Lemma new_dir_entries : same_entries s s' own.
Proof using Hg Hi PageLaws0.
  intros d u Hd Hu. destruct (user_index u Hu) as (? & Hj & _). pose proof new_dir_free as Hn. unfold entry.
  rewrite (new_dir_word d) by lia. rewrite bool_decide_eq_false_2 by (intros ->; congruence).
  destruct (entry_cases s own d u Hi Hd Hu) as [[-> _]|(t' & Ht' & Hp & _)]; [done|].
  rewrite (proj2 (Z.eqb_neq _ 0)) by (by eapply points_to_ne). destruct Hp as (_ & -> & _).
  rewrite new_dir_word by done. rewrite bool_decide_eq_false_2; [done|]. intros ->. congruence.
Qed.

End new_directory.

Lemma create_ok s own ip :
  vm_inv s own → own !! ip = Some IsDir → (∀ i, 0 ≤ i < 768 → word s ip i = 0) →
  ∃ pd s', pagedir_create (PGSIZE * ip) s = Ok (pd, s') ∧ cr3 s' = cr3 s ∧ tlb s' = tlb s ∧ same_entries s s' own ∧
    ((pd = NULL ∧ vm_inv s' own ∧ ∀ pg, page_taken (phys s') pg = page_taken (phys s) pg) ∨
     ∃ t, pd = PGSIZE * t ∧ t ≠ 0 ∧ own !! t = None ∧ vm_inv s' (<[t := IsDir]> own) ∧ new_taken s s' (<[t := IsDir]> own) ∧
       (∀ pg, page_taken (phys s) pg = true → page_taken (phys s') pg = true) ∧ page_taken (phys s) t = false).
Proof using PageLaws0.
  intros Hi Hip He. unfold pagedir_create.
  destruct (get_law 0 1 (phys s) (vi_ok _ _ Hi) eq_refl ltac:(done)) as [(t & p & -> & Hg)|(p & -> & Hun)]; mstep.
  - destruct (block_law _ _ _ (gr_ok _ _ _ _ _ Hg) (gr_block _ _ _ _ _ Hg)) as (_ & ? & ? & _).
    rewrite (proj2 (Z.eqb_neq _ 0)) by (unfold PGSIZE; lia). cbn [negb]. do 2 eexists. split; [done|]. split_and!; try done.
    + by apply (new_dir_entries s own ip).
    + right. exists t. split_and!; [done|lia|by eapply new_dir_free|by apply (new_dir_ok s own ip)| |by eapply (new_dir_allocator s ip)|apply (gr_free _ _ _ _ _ Hg); unfold within; lia].
      intros pg. cbn [phys set_phys]. rewrite (proj1 (proj2 (set_pmem_law _ p))), (gr_taken _ _ _ _ _ Hg).
      case_bool_decide as Hw'; [|by left]. right. assert (pg = t) as -> by (unfold within in Hw'; lia). by rewrite lookup_insert_eq.
  - cbn [negb Z.eqb]. destruct (set_phys_unchanged s own p Hi Hun) as (? & ? & ?). do 2 eexists. split; [done|]. split_and!; try done. left. split_and!; try done.
    apply Hun.
Qed.

End operations.

End invariant.
