(* ===== verification/AddrSpace.v ===== *)
(** Address spaces: what the page directories of src/userprog/pagedir.c promise to
    the rest of the kernel and to the user programs, over any sequence of their
    operations and of accesses by user programs. *)

From S2P Require Import Prelude Vaddr Palloc Pages Disk Pagedir.

Section destroy.
Context {P : Type} `{!PageOps P} `{!PageLaws P}.
Implicit Types (s : machine P) (own : gmap Z owner) (F : Z → Prop).

(** [s'] is [s] after the pages of [F] were freed. *)
Record freed s s' F : Prop := {
  fr_ok : pages_ok (phys s');
  fr_taken : ∀ pg, page_taken (phys s') pg = true ↔ page_taken (phys s) pg = true ∧ ¬ F pg;
  fr_mem : ∀ x, ¬ F (x / PGSIZE) → pmem (phys s') x = pmem (phys s) x;
  fr_byte : (∀ x, is_byte (pmem (phys s) x)) → ∀ x, is_byte (pmem (phys s') x);
  fr_block : ∀ g c, block_of (phys s) g c → (∀ pg, within g c pg → ¬ F pg) → block_of (phys s') g c;
  fr_mmu : cr3 s' = cr3 s ∧ tlb s' = tlb s;
}.

Lemma freed_ext s s' F F' : (∀ g, F g ↔ F' g) → freed s s' F → freed s s' F'.
Proof.
  intros HF []. split; try done.
  - intros pg. rewrite <-HF. apply fr_taken0.
  - intros x. rewrite <-HF. apply fr_mem0.
  - intros g c Hb Hn. apply fr_block0; [done|]. intros pg Hw. rewrite HF. by apply Hn.
Qed.

Lemma free_one s s' F g :
  freed s s' F → block_of (phys s) g 1 → ¬ F g →
  ∃ p, free_pages (PGSIZE * g) 1 (phys s') = Ok p ∧ freed s (set_phys s' p) (λ x, F x ∨ x = g).
Proof using PageLaws0.
  intros [] Hb Hn. assert (∀ pg, within g 1 pg ↔ pg = g) as Hw by (unfold within; lia).
  assert (block_of (phys s') g 1) as Hb' by (apply fr_block0; [done|]; by intros pg ->%Hw).
  destruct (free_law g 1 (phys s') fr_ok0 Hb') as (p & -> & Hok & Htk & Hm & Hk). exists p. split; [done|].
  split; cbn [phys set_phys]; try done.
  - intros pg. rewrite Htk, andb_true_iff, negb_true_iff, bool_decide_eq_false, Hw, fr_taken0. naive_solver.
  - intros x Hx. rewrite Hm, bool_decide_eq_false_2; [apply fr_mem0; naive_solver|]. unfold in_pages. rewrite Hw. naive_solver.
  - intros Hbyte x. rewrite Hm. case_bool_decide; [done|by apply fr_byte0].
  - intros g' c Hg' Hd. apply Hk; [apply fr_block0; [done|]; naive_solver|]. intros pg Hpg ->%Hw. by apply (Hd g); [|right].
Qed.

Lemma freed_word s s' F g j : freed s s' F → ¬ F g → 0 ≤ j < 1024 → word s' g j = word s g j.
Proof. intros [] Hn Hj. apply word_ext; [done|]. intros x <-. by apply fr_mem0. Qed.

(** The pages that directory [d] maps at the user pages from [lo] to [hi]. *)
Definition mapped_in own (d lo hi g : Z) : Prop := ∃ u, own !! g = Some (IsPage d u) ∧ lo ≤ u < hi.

Lemma destroy_table_ok s own t d i n j s' F :
  vm_inv s own → own !! t = Some (IsTable d i) → 0 ≤ j → j + Z.of_nat n ≤ 1024 →
  freed s s' F → ¬ F t → (∀ g u, F g → own !! g = Some (IsPage d u) → u < 1024 * i + j) →
  ∃ s'', destroy_table n (PGSIZE * t + 4 * j) s' = Ok s'' ∧
    freed s s'' (λ g, F g ∨ mapped_in own d (1024 * i + j) (1024 * i + j + Z.of_nat n) g).
Proof using PageLaws0.
  intros Hi Ht. revert j s' F. induction n as [|n IH]; intros j s' F Hj Hn Hfr Hnt HF; cbn [destroy_table].
  - exists s'. split; [done|]. apply (freed_ext s s' F); [|done]. intros g. unfold mapped_in. split; [by left|].
    intros [?|(u & _ & ?)]; [done|lia].
  - fold (word s' t j). rewrite (freed_word s s' F) by (done || lia). set (w := word s t j).
    destruct (vi_entry _ _ Hi t d i j Ht ltac:(lia)) as [Hok HP]. fold w in Hok, HP.
    assert (∀ g, mapped_in own d (1024 * i + j) (1024 * i + j + Z.of_nat (S n)) g ↔
      (has_flag w PTE_P = true ∧ g = frame w) ∨ mapped_in own d (1024 * i + (j + 1)) (1024 * i + (j + 1) + Z.of_nat n) g) as Hsplit.
    { intros g. unfold mapped_in. pose proof (page_iff s own t d i j g Hi Ht ltac:(lia)) as Hiff. fold w in Hiff. split.
      - intros (u & Hg & Hu). destruct (decide (u = 1024 * i + j)) as [->|]; [left; naive_solver|right]. exists u. split; [done|lia].
      - intros [[HPw ->]|(u & Hg & Hu)]; [|exists u; split; [done|lia]]. exists (1024 * i + j). split; [by apply Hiff|lia]. }
    destruct (has_flag w PTE_P) eqn:HPw.
    + destruct (HP eq_refl) as [Ho _]. rewrite entry_page by done. mstep.
      destruct (free_one s s' F (frame w) Hfr) as (p & -> & Hfr'); [by eapply (vi_own _ _ Hi)|by intros ?%(HF _ (1024 * i + j)); [lia|]|]. mstep.
      replace (PGSIZE * t + 4 * j + 4) with (PGSIZE * t + 4 * (j + 1)) by lia.
      destruct (IH (j + 1) _ _ ltac:(lia) ltac:(lia) Hfr') as (s2 & -> & Hfr2).
      * intros [?|Hc]; [done|]. rewrite Hc in Ht. congruence.
      * intros g u [Hg| ->] Hgo; [specialize (HF g u Hg Hgo)|assert (u = 1024 * i + j) by congruence]; lia.
      * exists s2. split; [done|]. eapply freed_ext; [|exact Hfr2]. intros g. cbn beta. rewrite Hsplit. naive_solver.
    + mstep. replace (PGSIZE * t + 4 * j + 4) with (PGSIZE * t + 4 * (j + 1)) by lia.
      destruct (IH (j + 1) _ _ ltac:(lia) ltac:(lia) Hfr Hnt) as (s2 & -> & Hfr2); [intros g u Hg Hgo; specialize (HF g u Hg Hgo); lia|].
      exists s2. split; [done|]. eapply freed_ext; [|exact Hfr2]. intros g. cbn beta. rewrite Hsplit. naive_solver.
Qed.

(** The pages freed after the first [k] entries of the directory. *)
Definition dir_done own (d k g : Z) : Prop :=
  mapped_in own d 0 (1024 * k) g ∨ ∃ i, own !! g = Some (IsTable d i) ∧ i < k.

Lemma dir_done_next s own d k g :
  vm_inv s own → own !! d = Some IsDir → 0 ≤ k < 768 →
  dir_done own d (k + 1) g ↔
  dir_done own d k g ∨ mapped_in own d (1024 * k) (1024 * k + 1024) g ∨ own !! g = Some (IsTable d k).
Proof.
  intros Hi Hd Hk. unfold dir_done, mapped_in. split.
  - intros [(u & Hg & Hu)|(i & Hg & Hi')].
    + destruct (decide (u < 1024 * k)); [left|right]; left; exists u; (split; [done|lia]).
    + destruct (decide (i = k)) as [->|]; [by right; right|]. left. right. exists i. split; [done|lia].
  - intros [[(u & Hg & Hu)|(i & Hg & Hi')]|[(u & Hg & Hu)|Hg]].
    + left. exists u. split; [done|lia].
    + right. exists i. split; [done|lia].
    + left. exists u. split; [done|lia].
    + right. exists k. split; [done|lia].
Qed.

Lemma destroy_dir_ok s own d n k s' :
  vm_inv s own → own !! d = Some IsDir → 0 ≤ k → k + Z.of_nat n = 768 → freed s s' (dir_done own d k) →
  ∃ s'', destroy_dir n (PGSIZE * d + 4 * k) s' = Ok s'' ∧ freed s s'' (dir_done own d 768).
Proof using PageLaws0.
  intros Hi Hd. revert k s'. induction n as [|n IH]; intros k s' Hk Hn Hfr; cbn [destroy_dir].
  { exists s'. replace 768 with k by lia. done. }
  assert (0 ≤ k < 768) as Hk' by lia. fold (word s' d k).
  rewrite (freed_word s s' (dir_done own d k)); [|done| |lia]. 2: { intros [(u & ? & _)|(i & ? & _)]; congruence. }
  replace (PGSIZE * d + 4 * k + 4) with (PGSIZE * d + 4 * (k + 1)) by lia.
  destruct (vi_dir _ _ Hi d k Hd Hk') as [E|(t & Hp & Ht)].
  - rewrite E. mstep. apply IH; [lia|lia|]. apply (freed_ext s s' (dir_done own d k)); [|done]. intros g. rewrite (dir_done_next s own) by done.
    split; [by left|]. intros [?|[(u & Hg & Hu)|Hg]]; [done|..].
    + destruct (vi_page _ _ Hi _ _ _ Hg) as (t & Ht & _). assert (u / 1024 = k) as Eu by (symmetry; apply (Z.div_unique _ _ _ (u - 1024 * k)); lia).
      rewrite Eu in Ht. destruct (vi_table _ _ Hi _ _ _ Ht) as (_ & _ & Hp). by apply points_to_ne in Hp.
    + destruct (vi_table _ _ Hi _ _ _ Hg) as (_ & _ & Hp). by apply points_to_ne in Hp.
  - destruct (Hp) as (Hok & Hf & HP & _). rewrite HP, entry_table, Hf by done. mstep.
    destruct (destroy_table_ok s own t d k (Z.to_nat (PGSIZE / 4)) 0 s' _ Hi Ht ltac:(done) ltac:(done) Hfr) as (s1 & E1 & Hfr1).
    + intros [(u & ? & _)|(i & ? & ?)]; [congruence|]. assert (i = k) by congruence. lia.
    + intros g u [(u' & Hg & Hu')|(i & Hg & _)] Hgu; [assert (u = u') by congruence; lia|congruence].
    + rewrite Z.add_0_r in E1. rewrite E1. mstep. destruct (free_one s s1 _ t Hfr1) as (p & -> & Hfr2); [by eapply (vi_own _ _ Hi)| |].
      { intros [[(u & ? & _)|(i & ? & ?)]|(u & ? & _)]; [congruence| |congruence]. assert (i = k) by congruence. lia. }
      mstep. apply IH; [lia|lia|]. eapply freed_ext; [|exact Hfr2]. intros g. cbn beta. rewrite (dir_done_next s own) by done.
      rewrite Z.add_0_r. change (Z.of_nat (Z.to_nat (PGSIZE / 4))) with 1024.
      assert (g = t ↔ own !! g = Some (IsTable d k)) as ->; [|tauto]. split; [by intros ->|].
      intros Hg. destruct (vi_table _ _ Hi _ _ _ Hg) as (_ & _ & (_ & <- & _)). done.
Qed.

(** The pages of directory [d]: itself, its tables and what it maps. *)
Definition belongs (d : Z) (x : Z * owner) : Prop :=
  x.1 = d ∨ (∃ i, x.2 = IsTable d i) ∨ ∃ u, x.2 = IsPage d u.

#[export] Instance belongs_dec d x : Decision (belongs d x).
Proof.
  destruct x as [g o]. destruct (decide (g = d)) as [->|Hne]; [by left; left|].
  destruct o as [|d' i|d' u|].
  - right. intros [?|[[? [=]]|[? [=]]]]. done.
  - destruct (decide (d' = d)) as [->|]; [left; right; left; by exists i|right]. intros [?|[[? [=]]|[? [=]]]]; done.
  - destruct (decide (d' = d)) as [->|]; [left; right; right; by exists u|right]. intros [?|[[? [=]]|[? [=]]]]; done.
  - right. intros [?|[[? [=]]|[? [=]]]]. done.
Defined.

Definition without own (d : Z) : gmap Z owner := filter (λ x, ¬ belongs d x) own.

Lemma without_lookup own d g o : without own d !! g = Some o ↔ own !! g = Some o ∧ ¬ belongs d (g, o).
Proof. apply map_lookup_filter_Some. Qed.

Lemma destroy_ok s own ip d :
  vm_inv s own → own !! d = Some IsDir → d ≠ ip →
  ∃ s', pagedir_destroy (PGSIZE * ip) (PGSIZE * d) s = Ok s' ∧
    freed s s' (λ g, ∃ o, own !! g = Some o ∧ belongs d (g, o)).
Proof using PageLaws0.
  intros Hi Hd Hne. destruct (own_range _ _ _ _ Hi Hd) as [Hr _]. unfold pagedir_destroy.
  rewrite (proj2 (Z.eqb_neq (PGSIZE * d) 0)) by (unfold PGSIZE; lia). rewrite (proj2 (Z.eqb_neq _ (PGSIZE * ip))) by (unfold PGSIZE; lia). cbn [negb].
  assert (freed s s (dir_done own d 0)) as Hfr0.
  { assert (∀ g, ¬ dir_done own d 0 g) as Hno. { intros g [(u & _ & ?)|(i & Hg & ?)]; [lia|]. destruct (vi_table _ _ Hi _ _ _ Hg); lia. }
    split; try done; [apply Hi|]. naive_solver. }
  destruct (destroy_dir_ok s own d (Z.to_nat (pd_no PHYS_BASE)) 0 s Hi Hd ltac:(done) eq_refl Hfr0) as (s1 & E1 & Hfr1).
  rewrite Z.add_0_r in E1. rewrite E1. mstep. destruct (free_one s s1 _ d Hfr1) as (p & -> & Hfr2); [by eapply (vi_own _ _ Hi)| |].
  { intros [(u & ? & _)|(i & ? & _)]; congruence. }
  mstep. eexists. split; [done|]. eapply freed_ext; [|exact Hfr2]. intros g. unfold dir_done, mapped_in, belongs. cbn [fst snd]. split.
  - intros [[(u & Hg & _)|(i & Hg & _)]| ->]; eauto 6.
  - intros (o & Hg & [->|[[i ->]|[u ->]]]); [by right|left..].
    + right. exists i. split; [done|]. apply (vi_table _ _ Hi _ _ _ Hg).
    + left. exists u. split; [done|]. destruct (vi_page _ _ Hi _ _ _ Hg) as (t & Ht & _). destruct (vi_table _ _ Hi _ _ _ Ht) as (? & _).
      pose proof (Z.div_mod u 1024 ltac:(lia)). pose proof (Z.mod_pos_bound u 1024 ltac:(lia)). lia.
Qed.

End destroy.

(** ** Histories *)

Section histories.
Context {P : Type} `{!PageOps P} `{!PageLaws P}.
Implicit Types (s : machine P) (own cl : gmap Z owner).

(** [init_page_dir] is page [ip]. *)
Context (ip init_ram_pages : Z).
Abbreviation init_page_dir := (PGSIZE * ip).

Definition set_byte s (x v : Z) : machine P :=
  set_phys s (set_pmem (λ y, if y =? x then v else pmem (phys s) y) (phys s)).

(** What happens to the machine and to the pages that the kernel knows of: [cl] is
    the ownership of the pages without the tables, which only pagedir.c knows. *)
Inductive vm_step : machine P * gmap Z owner → machine P * gmap Z owner → Prop :=
| do_get flags k s cl p :
    has_flag flags PAL_ASSERT = false → get_pages flags 1 (phys s) = Ok (k, p) →
    vm_step (s, cl) (set_phys s p, if k =? NULL then cl else <[k / PGSIZE := IsHeld]> cl)
| do_free k s cl p :
    cl !! k = Some IsHeld → free_pages (PGSIZE * k) 1 (phys s) = Ok p →
    vm_step (s, cl) (set_phys s p, delete k cl)
| do_write x v s cl :
    is_byte v → cl !! (x / PGSIZE) = Some IsHeld ∨ (∃ d u, cl !! (x / PGSIZE) = Some (IsPage d u)) →
    vm_step (s, cl) (set_byte s x v, cl)
| do_create pd s cl s' :
    pagedir_create init_page_dir s = Ok (pd, s') →
    vm_step (s, cl) (s', if pd =? NULL then cl else <[pd / PGSIZE := IsDir]> cl)
| do_destroy d s cl s' :
    cl !! d = Some IsDir → d ≠ ip → active_pd s ≠ Ok (PGSIZE * d) →
    pagedir_destroy init_page_dir (PGSIZE * d) s = Ok s' → vm_step (s, cl) (s', without cl d)
| do_set_page d u k writable b s cl s' :
    cl !! d = Some IsDir → d ≠ ip → 0 ≤ u < 786432 → (∀ g, cl !! g ≠ Some (IsPage d u)) →
    cl !! k = Some IsHeld → k - 786432 < init_ram_pages →
    pagedir_set_page init_page_dir init_ram_pages (PGSIZE * d) (PGSIZE * u) (PGSIZE * k) writable s = Ok (b, s') →
    vm_step (s, cl) (s', if b : bool then <[k := IsPage d u]> cl else cl)
| do_clear_page d u s cl s' cl' :
    cl !! d = Some IsDir → 0 ≤ u < 786432 → pagedir_clear_page init_page_dir (PGSIZE * d) (PGSIZE * u) s = Ok s' →
    (∃ g, cl !! g = Some (IsPage d u) ∧ cl' = <[g := IsHeld]> cl) ∨ ((∀ g, cl !! g ≠ Some (IsPage d u)) ∧ cl' = cl) →
    vm_step (s, cl) (s', cl')
| do_set_dirty d vaddr b s cl s' :
    cl !! d = Some IsDir → 0 ≤ vaddr < PHYS_BASE → pagedir_set_dirty init_page_dir (PGSIZE * d) vaddr b s = Ok s' →
    vm_step (s, cl) (s', cl)
| do_set_accessed d vaddr b s cl s' :
    cl !! d = Some IsDir → 0 ≤ vaddr < PHYS_BASE → pagedir_set_accessed init_page_dir (PGSIZE * d) vaddr b s = Ok s' →
    vm_step (s, cl) (s', cl)
| do_activate pd s cl s' :
    pd = NULL ∨ (∃ d, pd = PGSIZE * d ∧ cl !! d = Some IsDir) → pagedir_activate init_page_dir pd s = Ok s' →
    vm_step (s, cl) (s', cl)
| do_user_read vaddr pa s cl s' :
    0 ≤ vaddr < PHYS_BASE → user_access vaddr false s = Some (pa, s') → vm_step (s, cl) (s', cl)
| do_user_write vaddr v pa s cl s' :
    0 ≤ vaddr < PHYS_BASE → is_byte v → user_access vaddr true s = Some (pa, s') →
    vm_step (s, cl) (set_byte s' (PHYS_BASE + pa) v, cl)
| do_evict u s cl :
    vm_step (s, cl) (Machine (phys s) (cr3 s) (delete u (tlb s)), cl).

(** *** The invariant *)

(** A cached entry against the entry in the table: a page that is mapped and marked as
    accessed, with the same rights, and marked as dirty if the cached one is. *)
Record cached (e w : Z) : Prop := {
  ca_ok : entry_ok e;
  ca_frame : frame e = frame w;
  ca_present : has_flag w PTE_P = true;
  ca_user : has_flag e PTE_U = has_flag w PTE_U;
  ca_write : has_flag e PTE_W = has_flag w PTE_W;
  ca_accessed : has_flag w PTE_A = true;
  ca_dirty : has_flag e PTE_D = true → has_flag w PTE_D = true;
}.

Record machine_inv s own (d : Z) : Prop := {
  mi_vm : vm_inv s own;
  mi_active : active s own d;
  mi_ip : own !! ip = Some IsDir;
  mi_empty : ∀ t i, own !! t ≠ Some (IsTable ip i);
  mi_tlb : ∀ u e, tlb s !! u = Some e → 0 ≤ u < 786432 → cached e (entry s d u);
}.

Definition is_table (o : owner) : bool := match o with IsTable _ _ => true | _ => false end.

Definition view own cl : Prop := ∀ g o, cl !! g = Some o ↔ own !! g = Some o ∧ is_table o = false.

Definition good (x : machine P * gmap Z owner) : Prop := ∃ own d, machine_inv x.1 own d ∧ view own x.2.

(** *** Steps that do not touch the tables *)

Lemma vm_inv_quiet s s' own own' :
  vm_inv s own → pages_ok (phys s') → (∀ x, is_byte (pmem (phys s') x)) →
  (∀ g o, own' !! g = Some o → block_of (phys s') g 1) →
  (∀ g o, o ≠ IsHeld → own' !! g = Some o ↔ own !! g = Some o) →
  (∀ x, own !! (x / PGSIZE) = Some IsDir ∨ (∃ d i, own !! (x / PGSIZE) = Some (IsTable d i)) → pmem (phys s') x = pmem (phys s) x) →
  vm_inv s' own' ∧ same_entries s s' own.
Proof.
  intros Hi Hok Hbyte Hblk Ho Hm. pose proof Hi as [].
  assert (∀ d j, own !! d = Some IsDir → 0 ≤ j < 1024 → word s' d j = word s d j) as Hd.
  { intros d j Hd Hj. apply word_ext; [done|]. intros x Hx. apply Hm. left. by rewrite Hx. }
  assert (∀ t d i j, own !! t = Some (IsTable d i) → 0 ≤ j < 1024 → word s' t j = word s t j) as Ht.
  { intros t d i j Ht Hj. apply word_ext; [done|]. intros x Hx. apply Hm. right. exists d, i. by rewrite Hx. }
  split; [split; try done|].
  - intros d i Hdir Hidx. apply Ho in Hdir; [|done]. rewrite Hd by (done || lia). destruct (vi_dir d i Hdir Hidx) as [?|(t & ? & ?)]; [by left|right].
    exists t. split; [done|]. by apply Ho.
  - intros t d i Htab. apply Ho in Htab; [|done]. destruct (vi_table _ _ _ Htab) as (? & Hdir & ?). rewrite Hd by (done || lia).
    split_and!; try tauto; try lia. by apply Ho.
  - intros t d i j Htab Hj. apply Ho in Htab; [|done]. rewrite (Ht t d i) by done. destruct (vi_entry _ _ _ _ Htab Hj) as [? He].
    split; [done|]. intros HP. destruct (He HP). split; [|done]. by apply Ho.
  - intros g d u Hg. apply Ho in Hg; [|done]. destruct (vi_page _ _ _ Hg) as (t & Htab & Hp). exists t.
    rewrite (Ht t d (u / 1024)) by (done || apply Z.mod_pos_bound; lia). split; [|done]. by apply Ho.
  - intros d u Hdir Hu. destruct (user_index u Hu) as (? & ? & _). unfold entry. rewrite Hd by (done || lia).
    destruct (entry_cases s own d u Hi Hdir Hu) as [[-> _]|(t & Htab & Hp & _)]; [done|].
    rewrite (proj2 (Z.eqb_neq _ 0)) by (by eapply points_to_ne). destruct Hp as (_ & -> & _). by apply (Ht t d (u / 1024)).
Qed.

Lemma machine_quiet s s' own own' d :
  machine_inv s own d → vm_inv s' own' → same_entries s s' own → cr3 s' = cr3 s → tlb s' = tlb s →
  own' !! ip = Some IsDir → own' !! d = Some IsDir → (∀ t i, own' !! t ≠ Some (IsTable ip i)) → machine_inv s' own' d.
Proof.
  intros [Hvm [Hd Hc] _ _ Ht] Hi' Hse Hc' Ht' Hip Hd' He. split; try done.
  - split; [done|]. by rewrite Hc'.
  - intros u e. rewrite Ht'. intros Hu Hr. rewrite Hse by done. by apply Ht.
Qed.

(** *** Pages and entries *)

Lemma entry_owner s own d u :
  vm_inv s own → own !! d = Some IsDir → 0 ≤ u < 786432 → has_flag (entry s d u) PTE_P = true →
  own !! frame (entry s d u) = Some (IsPage d u) ∧ entry_ok (entry s d u) ∧ has_flag (entry s d u) PTE_U = true.
Proof.
  intros Hi Hd Hu HP. destruct (user_index u Hu) as (_ & Hj & Euj).
  destruct (entry_cases s own d u Hi Hd Hu) as [[_ E]|(t & Ht & _ & E)]; rewrite E in *; [done|].
  destruct (vi_entry _ _ Hi _ _ _ _ Ht Hj) as [Hok He]. destruct (He HP) as [Ho HU]. by rewrite <-Euj in Ho.
Qed.

Lemma owner_entry s own d u g :
  vm_inv s own → own !! g = Some (IsPage d u) →
  0 ≤ u < 786432 ∧ own !! d = Some IsDir ∧ has_flag (entry s d u) PTE_P = true ∧ frame (entry s d u) = g.
Proof.
  intros Hi Hg. destruct (vi_page _ _ Hi _ _ _ Hg) as (t & Ht & HP & Hf). destruct (vi_table _ _ Hi _ _ _ Ht) as (Hr & Hd & _).
  pose proof (Z.div_mod u 1024 ltac:(lia)) as Eu. pose proof (Z.mod_pos_bound u 1024 ltac:(lia)). split; [lia|]. split; [done|].
  assert (entry s d u = word s t (u mod 1024)) as ->; [|done]. rewrite Eu at 1. by eapply entry_at.
Qed.

Lemma unmapped_entry s own d u :
  vm_inv s own → own !! d = Some IsDir → 0 ≤ u < 786432 →
  (∀ g, own !! g ≠ Some (IsPage d u)) ↔ has_flag (entry s d u) PTE_P = false.
Proof.
  intros Hi Hd Hu. split.
  - intros Hn. apply not_true_is_false. intros HP. by destruct (entry_owner s own d u Hi Hd Hu HP) as [?%Hn _].
  - intros HP g Hg. destruct (owner_entry s own d u g Hi Hg) as (_ & _ & HP' & _). congruence.
Qed.

(** *** Views *)

Lemma view_other own cl g o : view own cl → is_table o = false → cl !! g = Some o ↔ own !! g = Some o.
Proof. intros Hv Ho. rewrite (Hv g o). tauto. Qed.

Lemma view_insert own cl g o : view own cl → is_table o = false → view (<[g := o]> own) (<[g := o]> cl).
Proof.
  intros Hv Ho g' o'. rewrite !lookup_insert_Some. pose proof (Hv g' o'). naive_solver.
Qed.

Lemma view_delete own cl g : view own cl → view (delete g own) (delete g cl).
Proof. intros Hv g' o'. rewrite !lookup_delete_Some. pose proof (Hv g' o'). naive_solver. Qed.

Lemma view_without own cl d : view own cl → view (without own d) (without cl d).
Proof. intros Hv g o. rewrite !without_lookup. pose proof (Hv g o). naive_solver. Qed.

Lemma view_tables s own own' cl d : view own cl → more_tables s own own' d → view own' cl.
Proof.
  intros Hv Hm g o. rewrite (Hv g o). split; intros [Hg Ho]; (split; [|done]);
    apply (more_tables_other s own own' d g o Hm); try done; by intros i ->.
Qed.

(** *** Steps that change an entry *)

Lemma machine_change s s' own own' d da u v flush :
  machine_inv s own da → own !! d = Some IsDir → entry_change s s' own own' d u v flush →
  (∀ g, own' !! g = Some IsDir ↔ own !! g = Some IsDir) → (∀ t i, own' !! t ≠ Some (IsTable ip i)) →
  (flush = false → ∀ e, cached e (entry s d u) → cached e v) → machine_inv s' own' da.
Proof.
  intros [Hvm [Hda Hc] Hip _ Ht] Hd [Hi' Hc' He _ Htlb] Hdirs Hem Hca. split; try done.
  - split; [by apply Hdirs|]. by rewrite Hc'.
  - by apply Hdirs.
  - intros u' e. rewrite Htlb. destruct (decide (flush = true ∧ d = da)) as [[-> ->]|Hno].
    { rewrite Hc, bool_decide_eq_true_2 by done. simpl. by rewrite lookup_empty. }
    assert (flush && bool_decide (cr3 s = PGSIZE * (d - 786432)) = false) as ->.
    { destruct flush; [|done]. rewrite bool_decide_eq_false_2; [done|]. rewrite Hc. unfold PGSIZE. intros ?. apply Hno. split; [done|lia]. }
    clear Htlb. intros Hu' Hr. specialize (Ht u' e Hu' Hr). rewrite He by done. case_bool_decide as Heq; [|done]. injection Heq as -> ->.
    apply Hca; [|done]. destruct flush; [|done]. by destruct Hno.
Qed.

Lemma cached_with_flag e w f : f = PTE_A ∨ f = PTE_D → cached e w → cached e (Z.lor w f).
Proof.
  intros Hf []. assert (0 ≤ f < PGSIZE) as Hr by (by destruct Hf as [-> | ->]).
  split; try done; rewrite ?flag_lor.
  - unfold frame. rewrite div_lor by done. done.
  - by rewrite ca_present0.
  - rewrite ca_user0. destruct Hf as [-> | ->]; by rewrite orb_false_r.
  - rewrite ca_write0. destruct Hf as [-> | ->]; by rewrite orb_false_r.
  - by rewrite ca_accessed0.
  - intros Hd. by rewrite ca_dirty0.
Qed.

(** *** Accesses of user programs *)

Lemma cached_touched w write :
  entry_ok w → has_flag w PTE_P = true → cached (touched w write) (touched w write).
Proof.
  intros Hok HP. unfold touched. assert (∃ f, (if write then Z.lor PTE_A PTE_D else PTE_A) = f ∧ 0 ≤ f < PGSIZE ∧ has_flag f PTE_A = true)
    as (f & -> & Hf & HA) by (by destruct write; eexists).
  split; try done; rewrite ?flag_lor, ?HP, ?HA, ?orb_true_r; try done. by apply entry_set.
Qed.

(** The bits that an access leaves in the table. *)
Definition marked s (d u : Z) (write : bool) : Prop :=
  has_flag (entry s d u) PTE_A = true ∧ (write = true → has_flag (entry s d u) PTE_D = true).

(** What [user_access] gives: the page that the active directory maps, or nothing when
    it maps none or does not allow the access. *)
Lemma access_ok s own d vaddr write :
  machine_inv s own d → 0 ≤ vaddr < PHYS_BASE →
  let u := vaddr / PGSIZE in
  match user_access vaddr write s with
  | Some (pa, s') => ∃ g, own !! g = Some (IsPage d u) ∧ pa = PGSIZE * (g - 786432) + pg_ofs vaddr ∧
      allowed (entry s d u) write = true ∧ machine_inv s' own d ∧ marked s' d u write
  | None => allowed (entry s d u) write = false
  end.
Proof using PageLaws0.
  intros Hmi Hv u. pose proof Hmi as [Hvm Ha Hip Hem Ht]. pose proof Ha as [Hd Hc].
  destruct (user_fields vaddr Hv) as (_ & _ & Epg & _ & Hu). fold u in Epg, Hu. unfold user_access, translate. rewrite Epg.
  set (w := entry s d u) in *. assert (∀ e, has_flag w PTE_P = true → entry_ok e → frame e = frame w →
    own !! frame w = Some (IsPage d u) ∧ Z.land e PTE_ADDR + pg_ofs vaddr = PGSIZE * (frame w - 786432) + pg_ofs vaddr) as Hres.
  { intros e HP He Hf. split; [by apply (entry_owner s own d u)|]. by rewrite entry_addr, Hf. }
  assert (match match page_walk vaddr write s with Some (e, s') => Some (Z.land e PTE_ADDR + pg_ofs vaddr, s') | None => None end with
    | Some (pa, s') => ∃ g, own !! g = Some (IsPage d u) ∧ pa = PGSIZE * (g - 786432) + pg_ofs vaddr ∧
      allowed w write = true ∧ machine_inv s' own d ∧ marked s' d u write
    | None => allowed w write = false end) as Hwalk.
  { pose proof (page_walk_ok s own d vaddr write Hvm Ha Hv) as Hw. cbv zeta in Hw. fold u in Hw. fold w in Hw.
    revert Hw. destruct (allowed w write) eqn:Hal; intros Hw; [|by rewrite Hw]. destruct Hw as (s' & -> & Hok & HU & Hi' & Hes & Hto).
    assert (has_flag w PTE_P = true) as HP by (unfold allowed in Hal; by apply andb_true_iff in Hal as [? _]).
    destruct (cached_touched w write Hok HP) as [Htok _ _ _ _ _ _]. destruct (entry_set w (if write then Z.lor PTE_A PTE_D else PTE_A) Hok ltac:(by destruct write)) as [_ Hf].
    destruct (Hres _ HP Htok Hf) as [Ho ->]. exists (frame w). split_and!; try done.
    - split; [by apply vm_inv_mmu|by split|done|done|]. cbn [tlb]. intros u' e [[<- <-]|[Hne Hu']]%lookup_insert_Some Hr.
      + rewrite entry_mmu, Hes by done. rewrite bool_decide_eq_true_2 by done. by apply cached_touched.
      + rewrite entry_mmu, Hes by done. rewrite bool_decide_eq_false_2 by (intros [= ->]; done). by apply Ht.
    - unfold marked. rewrite entry_mmu, Hes by done. rewrite bool_decide_eq_true_2 by done. unfold touched. rewrite !flag_lor. destruct write; by rewrite !orb_true_r. }
  destruct (tlb s !! u) as [e|] eqn:He; [|exact Hwalk]. destruct (Ht u e He Hu) as [Hok Hf HP HU HW HA HD]. fold w in Hf, HP, HU, HW.
  destruct (has_flag e PTE_U && (negb write || has_flag e PTE_W && has_flag e PTE_D)) eqn:Hhit; [|exact Hwalk].
  destruct (Hres e HP Hok Hf) as [Ho ->]. exists (frame w). apply andb_true_iff in Hhit as [_ Hhit]. split_and!; try done.
  - unfold allowed. rewrite HP, <-HW. simpl. destruct write; [|done]. simpl in *. by apply andb_true_iff in Hhit as [-> _].
  - split; [done|]. intros ->. apply HD. by apply andb_true_iff in Hhit as [_ ?].
Qed.

(** *** The steps keep the invariant *)

Lemma page_div g : PGSIZE * g / PGSIZE = g.
Proof. rewrite Z.mul_comm. by apply Z.div_mul. Qed.

(** Pages that come and go without being tables. *)
Lemma machine_held s p own own' d :
  machine_inv s own d → pages_ok p → (∀ x, is_byte (pmem p x)) → (∀ g o, own' !! g = Some o → block_of p g 1) →
  (∀ g o, o ≠ IsHeld → own' !! g = Some o ↔ own !! g = Some o) →
  (∀ x, own !! (x / PGSIZE) = Some IsDir ∨ (∃ d i, own !! (x / PGSIZE) = Some (IsTable d i)) → pmem p x = pmem (phys s) x) →
  machine_inv (set_phys s p) own' d.
Proof.
  intros Hmi Hok Hbyte Hblk Ho Hm. pose proof Hmi as [Hvm [Hd Hc] Hip Hem _].
  destruct (vm_inv_quiet s (set_phys s p) own own' Hvm Hok Hbyte Hblk Ho Hm) as [Hi' Hse].
  apply (machine_quiet s _ own own' d); try done; try (by apply Ho). intros t i. by rewrite Ho.
Qed.

Lemma own_block s own d g o : machine_inv s own d → own !! g = Some o → block_of (phys s) g 1.
Proof. intros [Hvm _ _ _ _]. apply (vi_own _ _ Hvm). Qed.

Lemma good_get s cl flags k p :
  has_flag flags PAL_ASSERT = false → get_pages flags 1 (phys s) = Ok (k, p) → good (s, cl) →
  good (set_phys s p, if k =? NULL then cl else <[k / PGSIZE := IsHeld]> cl).
Proof using PageLaws0.
  intros Hf E (own & d & Hmi & Hv). pose proof Hmi as [Hvm _ _ _ _].
  destruct (get_law flags 1 (phys s) (vi_ok _ _ Hvm) Hf ltac:(done)) as [(g & p' & E' & Hg)|(p' & E' & [Hok _ Hm Hk])];
    rewrite E in E'; injection E' as -> <-.
  - destruct (block_law _ _ _ (gr_ok _ _ _ _ _ Hg) (gr_block _ _ _ _ _ Hg)) as (_ & ? & ? & _).
    rewrite (proj2 (Z.eqb_neq _ _)) by (unfold PGSIZE; lia). rewrite page_div.
    assert (own !! g = None) as Hn.
    { destruct (own !! g) as [o|] eqn:Ho; [|done]. pose proof (own_range _ _ _ _ Hvm Ho) as [_ Ht].
      rewrite (gr_free _ _ _ _ _ Hg) in Ht; [done|]. unfold within. lia. }
    exists (<[g := IsHeld]> own), d. split; [|by apply view_insert]. apply (machine_held s p own); try done.
    + apply Hg.
    + intros x. rewrite (gr_mem _ _ _ _ _ Hg). destruct (_ && _); [done|apply Hvm].
    + intros g' o [[<- _]|[_ Ho]]%lookup_insert_Some; [apply Hg|]. by eapply (gr_keep _ _ _ _ _ Hg), own_block.
    + intros g' o Ho. rewrite lookup_insert_Some. split; [naive_solver|]. intros Hg'. right. split; [|done]. intros <-. congruence.
    + intros x Hx. rewrite (gr_mem _ _ _ _ _ Hg), (bool_decide_eq_false_2 (in_pages g 1 x)); [by rewrite andb_false_r|].
      intros Hin. assert (x / PGSIZE = g) as Exg by (unfold in_pages, within in Hin; lia). rewrite Exg, Hn in Hx. destruct Hx as [?|(? & ? & ?)]; congruence.
  - exists own, d. split; [|done]. apply (machine_held s p own); try done.
    + intros x. rewrite Hm. apply Hvm.
    + intros g o Ho. by eapply Hk, own_block.
Qed.

Lemma good_free s cl k p :
  cl !! k = Some IsHeld → free_pages (PGSIZE * k) 1 (phys s) = Ok p → good (s, cl) → good (set_phys s p, delete k cl).
Proof using PageLaws0.
  intros Hk E (own & d & Hmi & Hv). pose proof Hmi as [Hvm _ _ _ _]. cbn [snd] in Hv. apply (view_other own cl) in Hk; [|done..].
  destruct (free_law k 1 (phys s) (vi_ok _ _ Hvm) (vi_own _ _ Hvm _ _ Hk)) as (p' & E' & Hok & _ & Hm & Hkeep).
  rewrite E in E'. injection E' as <-. exists (delete k own), d. split; [|by apply view_delete]. apply (machine_held s p own); try done.
  - intros x. rewrite Hm. case_bool_decide; [done|apply Hvm].
  - intros g o [Hne Ho]%lookup_delete_Some. apply Hkeep; [by eapply own_block|]. unfold within. lia.
  - intros g o Ho. rewrite lookup_delete_Some. split; [tauto|]. intros Hg. split; [|done]. intros <-. congruence.
  - intros x Hx. rewrite Hm, bool_decide_eq_false_2; [done|]. intros Hin.
    assert (x / PGSIZE = k) as Exg by (unfold in_pages, within in Hin; lia). rewrite Exg, Hk in Hx. destruct Hx as [?|(? & ? & ?)]; congruence.
Qed.

Lemma machine_write s own d x v :
  machine_inv s own d → is_byte v → own !! (x / PGSIZE) ≠ Some IsDir → (∀ d i, own !! (x / PGSIZE) ≠ Some (IsTable d i)) →
  machine_inv (set_byte s x v) own d.
Proof using PageLaws0.
  intros Hmi Hv H1 H2. pose proof Hmi as [Hvm _ _ _ _].
  destruct (set_pmem_law (λ y, if y =? x then v else pmem (phys s) y) (phys s)) as (Hok & _ & Hblk & Hm).
  apply (machine_held s _ own); try done.
  - apply Hok, Hvm.
  - intros y. rewrite Hm. destruct (y =? x); [done|apply Hvm].
  - intros g o Ho. by eapply Hblk, own_block.
  - intros y Hy. rewrite Hm. destruct (Z.eqb_spec y x) as [->|]; [|done]. destruct Hy as [?|(? & ? & ?%H2)]; done.
Qed.

Lemma good_write s cl x v :
  is_byte v → cl !! (x / PGSIZE) = Some IsHeld ∨ (∃ d u, cl !! (x / PGSIZE) = Some (IsPage d u)) → good (s, cl) →
  good (set_byte s x v, cl).
Proof using PageLaws0.
  intros Hb Hx (own & d & Hmi & Hv). exists own, d. split; [|done]. cbn [fst snd] in *.
  assert (∃ o, own !! (x / PGSIZE) = Some o ∧ (o = IsHeld ∨ ∃ d u, o = IsPage d u)) as (o & Ho & Hc).
  { destruct Hx as [Hx|(d' & u & Hx)]; apply (view_other own cl) in Hx; try done; eauto 6. }
  apply machine_write; try done; destruct Hc as [->|(? & ? & ->)]; congruence.
Qed.

Lemma init_empty s own d i : machine_inv s own d → 0 ≤ i < 768 → word s ip i = 0.
Proof.
  intros [Hvm _ Hip Hem _] Hi. destruct (vi_dir _ _ Hvm ip i Hip Hi) as [?|(t & _ & Ht)]; [done|]. by destruct (Hem t i).
Qed.

Lemma good_create s cl pd s' :
  pagedir_create init_page_dir s = Ok (pd, s') → good (s, cl) →
  good (s', if pd =? NULL then cl else <[pd / PGSIZE := IsDir]> cl).
Proof using PageLaws0.
  intros E (own & d & Hmi & Hv). pose proof Hmi as [Hvm [Hd Hc] Hip Hem _].
  destruct (create_ok s own ip Hvm Hip) as (pd' & s1 & E' & Hc1 & Ht1 & Hse & Hpd); [by intros i; apply (init_empty s own d)|].
  rewrite E in E'. injection E' as <- <-. destruct Hpd as [(-> & Hi' & _)|(t & -> & Ht & Hn & Hi' & _)].
  - exists own, d. split; [|done]. by apply (machine_quiet s _ own own d).
  - rewrite (proj2 (Z.eqb_neq _ _)) by (unfold PGSIZE; lia). rewrite page_div. exists (<[t := IsDir]> own), d. split; [|by apply view_insert].
    assert (∀ g o, own !! g = Some o → (<[t := IsDir]> own : gmap Z owner) !! g = Some o) as Hins.
    { intros g o Hg. rewrite lookup_insert_ne; [done|]. intros <-. congruence. }
    apply (machine_quiet s _ own _ d); auto. intros t' i [[_ [=]]|[_ ?]]%lookup_insert_Some. by destruct (Hem t' i).
Qed.

(** Freeing a directory leaves the other ones alone. *)
Lemma without_inv s s' own d :
  vm_inv s own → own !! d = Some IsDir → freed s s' (λ g, ∃ o, own !! g = Some o ∧ belongs d (g, o)) →
  vm_inv s' (without own d) ∧ same_entries s s' (without own d).
Proof.
  intros Hi Hd Hfr. pose proof Hi as []. assert (∀ g o, without own d !! g = Some o →
    own !! g = Some o ∧ ¬ belongs d (g, o) ∧ ∀ j, 0 ≤ j < 1024 → word s' g j = word s g j) as Hw.
  { intros g o Ho. apply without_lookup in Ho as [Ho Hb]. split_and!; try done. intros j Hj. eapply freed_word; [done| |done].
    intros (o' & Ho' & Hb'). congruence. }
  assert (∀ d' g i, own !! d' = Some IsDir → ¬ belongs d (d', IsDir) → own !! g = Some (IsTable d' i) → without own d !! g = Some (IsTable d' i)) as Htab.
  { intros d' g i Hd' Hnb Hg. apply without_lookup. split; [done|]. intros [Hgd|[[? [= -> ->]]|[? [=]]]]; [simpl in Hgd; congruence|].
    apply Hnb. by left. }
  split; [split|].
  - apply Hfr.
  - by apply Hfr.
  - intros g o Ho. destruct (Hw g o Ho) as (Hg & Hb & _). apply (fr_block _ _ _ Hfr); [by apply (vi_own g o)|].
    intros pg Hpg (o' & Ho' & Hb'). assert (pg = g) as -> by (unfold within in Hpg; lia). congruence.
  - intros d' i Hd' Hidx. destruct (Hw d' _ Hd') as (Hdir & Hb & ->); [|lia].
    destruct (vi_dir d' i Hdir Hidx) as [?|(t & ? & ?)]; [by left|right]. exists t. eauto.
  - intros t d' i Ht. destruct (Hw t _ Ht) as (Htb & Hb & _). destruct (vi_table _ _ _ Htb) as (Hr & Hdir & Hp).
    assert (without own d !! d' = Some IsDir) as Hd'.
    { apply without_lookup. split; [done|]. intros [Hdd|[[? [=]]|[? [=]]]]. simpl in Hdd. subst d'. apply Hb. right. left. by exists i. }
    destruct (Hw d' _ Hd') as (_ & _ & ->); [|lia]. done.
  - intros t d' i j Ht Hj. destruct (Hw t _ Ht) as (Htb & Hb & ->); [|done]. destruct (vi_entry _ _ _ _ Htb Hj) as [? He]. split; [done|].
    intros HP. destruct (He HP) as [Ho HU]. split; [|done]. apply without_lookup. split; [done|].
    intros [Hdd|[[? [=]]|[u' [= -> _]]]]; [simpl in Hdd; congruence|]. apply Hb. right. left. by exists i.
  - intros g d' u Hg. destruct (Hw g _ Hg) as (Hgo & Hb & _). destruct (vi_page _ _ _ Hgo) as (t & Ht & HP). exists t.
    assert (without own d !! t = Some (IsTable d' (u / 1024))) as Ht'.
    { destruct (vi_table _ _ _ Ht) as (_ & Hdir & _). apply (Htab d'); try done. intros [Hdd|[[? [=]]|[? [=]]]]. simpl in Hdd. subst d'. apply Hb. right. right. by exists u. }
    destruct (Hw t _ Ht') as (_ & _ & ->); [|apply Z.mod_pos_bound; lia]. done.
  - intros d' u Hd' Hu. destruct (user_index u Hu) as (? & ? & _). destruct (Hw d' _ Hd') as (Hdir & Hb & Hwd). unfold entry. rewrite Hwd by lia.
    destruct (entry_cases s own d' u Hi Hdir Hu) as [[-> _]|(t & Ht & Hp & _)]; [done|].
    rewrite (proj2 (Z.eqb_neq _ 0)) by (by eapply points_to_ne). destruct Hp as (_ & -> & _).
    destruct (Hw t _ (Htab d' t _ Hdir Hb Ht)) as (_ & _ & ->); done.
Qed.

Lemma good_destroy s cl d s' :
  cl !! d = Some IsDir → d ≠ ip → active_pd s ≠ Ok (PGSIZE * d) → pagedir_destroy init_page_dir (PGSIZE * d) s = Ok s' →
  good (s, cl) → good (s', without cl d).
Proof using PageLaws0.
  intros Hd Hne Hna E (own & da & Hmi & Hv). pose proof Hmi as [Hvm Ha Hip Hem Ht]. pose proof Ha as [Hda Hc]. cbn [fst snd] in *.
  apply (view_other own cl) in Hd; [|done..]. destruct (destroy_ok s own ip d Hvm Hd Hne) as (s1 & E1 & Hfr).
  rewrite E in E1. injection E1 as <-. destruct (without_inv s s' own d Hvm Hd Hfr) as [Hi' Hse].
  assert (da ≠ d) as Hdd by (intros ->; apply Hna; by eapply active_pd_ok).
  assert (∀ g, own !! g = Some IsDir → g ≠ d → without own d !! g = Some IsDir) as Hkeep.
  { intros g Hg Hgd. apply without_lookup. split; [done|]. by intros [?|[[? [=]]|[? [=]]]]. }
  destruct (fr_mmu _ _ _ Hfr) as [Hc' Ht']. exists (without own d), da. split; [|by apply view_without]. cbn [fst]. split; [done|split|..]; auto.
  - by rewrite Hc'.
  - intros t i [Hti _]%without_lookup. by destruct (Hem t i).
  - intros u e. rewrite Ht'. intros Hu Hr. rewrite Hse by (done || by apply Hkeep). by apply Ht.
Qed.

Lemma good_set_page s cl d u k writable b s' :
  cl !! d = Some IsDir → d ≠ ip → 0 ≤ u < 786432 → (∀ g, cl !! g ≠ Some (IsPage d u)) →
  cl !! k = Some IsHeld → k - 786432 < init_ram_pages →
  pagedir_set_page init_page_dir init_ram_pages (PGSIZE * d) (PGSIZE * u) (PGSIZE * k) writable s = Ok (b, s') →
  good (s, cl) → good (s', if b then <[k := IsPage d u]> cl else cl).
Proof using PageLaws0.
  intros Hd Hne Hu Hun Hk Hram E (own & da & Hmi & Hv). pose proof Hmi as [Hvm [Hda Hc] Hip Hem Ht]. cbn [fst snd] in *.
  apply (view_other own cl) in Hd, Hk; [|done..]. assert (has_flag (entry s d u) PTE_P = false) as HP.
  { apply (unmapped_entry s own); try done. intros g Hg. apply (Hun g). by apply (view_other own cl). }
  destruct (set_page_ok init_page_dir init_ram_pages s own d k u writable Hvm Hd Hu HP Hk Hram) as
    (b' & s1 & own1 & E1 & Hi1 & Hm & _ & Hc1 & Ht1 & Hto & He); [unfold PGSIZE; lia|].
  rewrite E in E1. injection E1 as <- <-. pose proof (view_tables s own own1 cl d Hv Hm) as Hv1.
  assert (∀ t i, own1 !! t ≠ Some (IsTable ip i)) as Hem1.
  { intros t i. rewrite (more_tables_other s own own1 d) by (done || by intros ? [=]). apply Hem. }
  assert (∀ g, own1 !! g = Some IsDir ↔ own !! g = Some IsDir) as Hdir by (intros g; by apply (more_tables_other s own own1 d)).
  destruct b.
  - assert (own1 !! k = Some IsHeld) as Hk1 by (by apply (more_tables_other s own own1 d)).
    exists (<[k := IsPage d u]> own1), da. split; [|by apply view_insert]. apply (machine_change s s' own _ d da u (user_entry k writable) false); try done.
    + intros g. rewrite lookup_insert_Some, <-(Hdir g). split; [naive_solver|]. intros Hg. right. split; [|done]. intros <-. congruence.
    + intros t i [[_ [=]]|[_ ?]]%lookup_insert_Some. by destruct (Hem1 t i).
    + intros _ e []. congruence.
  - exists own1, da. split; [|done]. apply (machine_quiet s _ own _ da); try done; by apply Hdir.
Qed.

Lemma good_clear_page s cl d u s' cl' :
  cl !! d = Some IsDir → 0 ≤ u < 786432 → pagedir_clear_page init_page_dir (PGSIZE * d) (PGSIZE * u) s = Ok s' →
  (∃ g, cl !! g = Some (IsPage d u) ∧ cl' = <[g := IsHeld]> cl) ∨ ((∀ g, cl !! g ≠ Some (IsPage d u)) ∧ cl' = cl) →
  good (s, cl) → good (s', cl').
Proof using PageLaws0.
  intros Hd Hu E Hcl (own & da & Hmi & Hv). pose proof Hmi as [Hvm Ha Hip Hem Ht]. cbn [fst snd] in *.
  apply (view_other own cl) in Hd; [|done..]. destruct (clear_page_ok init_page_dir s own d da u Hvm Hd Ha Hu) as (s1 & E1 & Hch).
  rewrite E in E1. injection E1 as <-. destruct Hcl as [(g & Hg & ->)|[Hun ->]].
  - apply (view_other own cl) in Hg; [|done..]. destruct (owner_entry s own d u g Hvm Hg) as (_ & _ & HP & Hf). rewrite HP, Hf in Hch.
    exists (<[g := IsHeld]> own), da. split; [|by apply view_insert]. eapply (machine_change s s' own _ d da u); [done..| | |done].
    + intros g'. rewrite lookup_insert_Some. split; [naive_solver|]. intros Hg'. right. split; [|done]. intros <-. congruence.
    + intros t i [[_ [=]]|[_ ?]]%lookup_insert_Some. by destruct (Hem t i).
  - assert (has_flag (entry s d u) PTE_P = false) as HP.
    { apply (unmapped_entry s own); try done. intros g Hg. apply (Hun g). by apply (view_other own cl). }
    rewrite HP in Hch. subst s'. by exists own, da.
Qed.

Lemma machine_flag s own d da u f b s' :
  f = PTE_A ∨ f = PTE_D → machine_inv s own da → own !! d = Some IsDir →
  (if word s d (u / 1024) =? 0 then s' = s else entry_change s s' own own d u (with_flag (entry s d u) f b) (negb b)) →
  machine_inv s' own da.
Proof.
  intros Hf Hmi Hd Hch. destruct (word s d (u / 1024) =? 0); [by subst|]. pose proof Hmi as [_ _ _ Hem _].
  eapply (machine_change s s' own own d da u); [done..|]. intros Hb e. destruct b; [|done]. by apply cached_with_flag.
Qed.

Lemma good_set_dirty s cl d vaddr b s' :
  cl !! d = Some IsDir → 0 ≤ vaddr < PHYS_BASE → pagedir_set_dirty init_page_dir (PGSIZE * d) vaddr b s = Ok s' →
  good (s, cl) → good (s', cl).
Proof using PageLaws0.
  intros Hd Hva E (own & da & Hmi & Hv). pose proof Hmi as [Hvm Ha _ _ _]. cbn [fst snd] in *. apply (view_other own cl) in Hd; [|done..].
  destruct (set_flag_ok init_page_dir s own d da vaddr PTE_D b ltac:(by right) Hvm Hd Ha Hva) as (s1 & E1 & Hch).
  unfold pagedir_set_dirty in E. rewrite E in E1. injection E1 as <-. exists own, da. split; [|done].
  by eapply (machine_flag s own d da _ PTE_D b s'); [right| | |].
Qed.

Lemma good_set_accessed s cl d vaddr b s' :
  cl !! d = Some IsDir → 0 ≤ vaddr < PHYS_BASE → pagedir_set_accessed init_page_dir (PGSIZE * d) vaddr b s = Ok s' →
  good (s, cl) → good (s', cl).
Proof using PageLaws0.
  intros Hd Hva E (own & da & Hmi & Hv). pose proof Hmi as [Hvm Ha _ _ _]. cbn [fst snd] in *. apply (view_other own cl) in Hd; [|done..].
  destruct (set_flag_ok init_page_dir s own d da vaddr PTE_A b ltac:(by left) Hvm Hd Ha Hva) as (s1 & E1 & Hch).
  unfold pagedir_set_accessed in E. rewrite E in E1. injection E1 as <-. exists own, da. split; [|done].
  by eapply (machine_flag s own d da _ PTE_A b s'); [left| | |].
Qed.

Lemma machine_activate s own d da :
  machine_inv s own da → own !! d = Some IsDir → machine_inv (Machine (phys s) (PGSIZE * (d - 786432)) ∅) own d.
Proof. intros [Hvm Ha Hip Hem Ht] Hd. split; [by apply vm_inv_mmu|done..]. Qed.

Lemma good_activate s cl pd s' :
  pd = NULL ∨ (∃ d, pd = PGSIZE * d ∧ cl !! d = Some IsDir) → pagedir_activate init_page_dir pd s = Ok s' →
  good (s, cl) → good (s', cl).
Proof using PageLaws0.
  intros Hpd E (own & da & Hmi & Hv). pose proof Hmi as [Hvm _ Hip _ _]. cbn [fst snd] in *.
  assert (∃ d, own !! d = Some IsDir ∧ pagedir_activate init_page_dir pd s = pagedir_activate init_page_dir (PGSIZE * d) s) as (d & Hd & E').
  { destruct Hpd as [->|(d & -> & Hd)].
    - exists ip. split; [done|]. destruct (own_range _ _ _ _ Hvm Hip) as [? _]. unfold pagedir_activate. rewrite Z.eqb_refl.
      by rewrite (proj2 (Z.eqb_neq (PGSIZE * ip) 0)) by (unfold PGSIZE; lia).
    - exists d. split; [|done]. by apply (view_other own cl). }
  rewrite E', (activate_ok init_page_dir s own) in E by done. injection E as <-. exists own, d. split; [|done]. by eapply machine_activate.
Qed.

Lemma vm_step_good x y : vm_step x y → good x → good y.
Proof using PageLaws0.
  intros Hs. destruct Hs; eauto using good_get, good_free, good_write, good_create, good_destroy, good_set_page, good_clear_page,
    good_set_dirty, good_set_accessed, good_activate.
  - intros (own & d & Hmi & Hv). pose proof (access_ok s own d vaddr false Hmi H) as Hok. rewrite H0 in Hok.
    destruct Hok as (g & _ & _ & _ & Hmi' & _). by exists own, d.
  - intros (own & d & Hmi & Hv). pose proof (access_ok s own d vaddr true Hmi H) as Hok. rewrite H1 in Hok.
    destruct Hok as (g & Hg & -> & _ & Hmi' & _). exists own, d. split; [|done]. destruct Hmi as [Hvm _ _ _ _].
    destruct (own_range _ _ _ _ Hvm Hg) as [Hr _]. pose proof (Z.mod_pos_bound vaddr PGSIZE ltac:(done)) as Hofs. rewrite <-pg_ofs_mod in Hofs.
    assert ((PHYS_BASE + (PGSIZE * (g - 786432) + pg_ofs vaddr)) / PGSIZE = g) as Eg.
    { symmetry. apply (Z.div_unique _ _ _ (pg_ofs vaddr)); unfold PHYS_BASE, PGSIZE in *; lia. }
    apply machine_write; try done; rewrite Eg; congruence.
  - intros (own & d & [Hvm [Hd Hc] Hip Hem Ht] & Hv). exists own, d. split; [|done]. split; [by apply vm_inv_mmu|done..|].
    cbn [tlb fst]. intros u' e [_ Hu]%lookup_delete_Some. by apply Ht.
Qed.

(** *** Reachable states *)

(** The machine when the kernel has set up its page directory. *)
Record initial s : Prop := {
  in_ok : pages_ok (phys s);
  in_byte : ∀ x, is_byte (pmem (phys s) x);
  in_dir : block_of (phys s) ip 1;
  in_empty : ∀ i, 0 ≤ i < 768 → word s ip i = 0;
  in_cr3 : cr3 s = PGSIZE * (ip - 786432);
  in_tlb : tlb s = ∅;
}.

Lemma initial_machine_inv s : initial s → machine_inv s {[ip := IsDir]} ip.
Proof.
  intros []. assert (∀ g o, ({[ip := IsDir]} : gmap Z owner) !! g = Some o → g = ip ∧ o = IsDir) as Hone by (by intros g o [-> ->]%lookup_singleton_Some).
  split; [split|split|..]; try done.
  - intros g o [-> _]%Hone. done.
  - intros d i [-> _]%Hone Hi. left. by apply in_empty0.
  - intros t d i [_ [=]]%Hone.
  - intros t d i j [_ [=]]%Hone.
  - intros g d u [_ [=]]%Hone.
  - apply lookup_singleton_eq.
  - apply lookup_singleton_eq.
  - intros t i [_ [=]]%Hone.
  - rewrite in_tlb0. by intros u e ?%lookup_empty_Some.
Qed.

Lemma initial_good s : initial s → good (s, {[ip := IsDir]}).
Proof.
  intros Hs. exists {[ip := IsDir]}, ip. split; [by apply initial_machine_inv|]. intros g o. cbn [snd]. split; [|tauto]. intros Hg. split; [done|].
  by apply lookup_singleton_Some in Hg as [_ <-].
Qed.

Lemma reachable_good s0 x : initial s0 → rtc vm_step (s0, {[ip := IsDir]}) x → good x.
Proof using PageLaws0.
  intros H0 Hrun. apply (rtc_ind_r (R := vm_step) good (s0, {[ip := IsDir]})); [by apply initial_good| |done].
  intros y z _ Hs Hy. by apply (vm_step_good y).
Qed.

(** *** What the operations return *)

Lemma get_page_lookup s own d vaddr :
  vm_inv s own → own !! d = Some IsDir → 0 ≤ vaddr < PHYS_BASE →
  (∀ g, own !! g = Some (IsPage d (vaddr / PGSIZE)) → pagedir_get_page (PGSIZE * d) vaddr s = Ok (PGSIZE * g + pg_ofs vaddr)) ∧
  ((∀ g, own !! g ≠ Some (IsPage d (vaddr / PGSIZE))) → pagedir_get_page (PGSIZE * d) vaddr s = Ok NULL).
Proof using PageLaws0.
  intros Hi Hd Hv. destruct (get_page_ok s own d vaddr Hi Hd Hv) as [-> _]. destruct (user_fields vaddr Hv) as (_ & _ & _ & _ & Hu). split.
  - intros g Hg. destruct (owner_entry s own d _ g Hi Hg) as (_ & _ & HP & Hf). by rewrite HP, Hf.
  - intros Hn. apply (unmapped_entry s own) in Hn; [|done..]. by rewrite Hn.
Qed.

End histories.

(** A flag that was written to the entry of a mapped page is what is read. *)
Lemma flag_written {P} `{!PageOps P} (s s' : machine P) own d u f b :
  f = PTE_A ∨ f = PTE_D → own !! d = Some IsDir → 0 ≤ u < 786432 → has_flag (entry s d u) PTE_P = true →
  (if word s d (u / 1024) =? 0 then s' = s else entry_change s s' own own d u (with_flag (entry s d u) f b) (negb b)) →
  vm_inv s own → vm_inv s' own ∧ has_flag (entry s' d u) f = b.
Proof.
  intros Hf Hd Hu Hp Hch Hvm. destruct (word s d (u / 1024) =? 0) eqn:E.
  { unfold entry in Hp. by rewrite E in Hp. }
  destruct Hch as [Hvm' _ He _ _]. split; [done|]. rewrite (He d u Hd Hu), bool_decide_eq_true_2 by done. unfold with_flag.
  destruct b; [rewrite flag_lor; destruct Hf as [-> | ->]; apply orb_true_r|apply flag_cleared; by destruct Hf as [-> | ->]].
Qed.

(** ** The processes on the page allocator of palloc.c *)

Section processes.
Context (ip ram : Z) (s0 s : machine palloc_state) (cl : gmap Z owner)
  (H0 : initial ip s0) (Hrun : rtc (vm_step ip ram) (s0, {[ip := IsDir]}) (s, cl)).

Lemma reachable_view : ∃ own d, machine_inv ip s own d ∧ view own cl.
Proof using H0 Hrun. exact (reachable_good ip ram s0 (s, cl) H0 Hrun). Qed.

(** C4. Whatever the kernel and the user programs have done so far, an access of a user
    program, through the tables or through a cached entry, reaches the page that the
    active directory maps at its address, the one pagedir_get_page finds; no page
    directory, page table or page of another directory is ever reached.  The access is
    recorded: pagedir_is_accessed and, after a write, pagedir_is_dirty answer true.
    It faults only where nothing is mapped, or on a write to a read-only page. *)
Theorem access_isolated vaddr write :
  0 ≤ vaddr < PHYS_BASE →
  ∃ d, cl !! d = Some IsDir ∧ active_pd s = Ok (PGSIZE * d) ∧
  match user_access vaddr write s with
  | Some (pa, s') => ∃ g, cl !! g = Some (IsPage d (vaddr / PGSIZE)) ∧ (PHYS_BASE + pa) / PGSIZE = g ∧
      pagedir_get_page (PGSIZE * d) vaddr s = Ok (PHYS_BASE + pa) ∧
      pagedir_is_accessed (PGSIZE * d) vaddr s' = Ok true ∧
      (write = true → pagedir_is_dirty (PGSIZE * d) vaddr s' = Ok true)
  | None => pagedir_get_page (PGSIZE * d) vaddr s = Ok NULL ∨
      (write = true ∧ has_flag (entry s d (vaddr / PGSIZE)) PTE_W = false)
  end.
Proof using H0 Hrun.
  intros Hv. destruct reachable_view as (own & d & Hmi & Hview). pose proof Hmi as [Hvm Ha _ _ _]. exists d.
  split; [apply (view_other own cl); [done..|apply Ha]|]. split; [by eapply active_pd_ok|].
  pose proof (access_ok ip s own d vaddr write Hmi Hv) as Hok. cbv zeta in Hok. destruct Ha as [Hd Hc].
  destruct (get_page_lookup s own d vaddr Hvm Hd Hv) as [Hget _]. destruct (user_access vaddr write s) as [[pa s']|].
  - destruct Hok as (g & Hg & -> & _ & [Hvm' _ _ _ _] & [HA HD]). exists g. split; [by apply (view_other own cl)|].
    pose proof (Z.mod_pos_bound vaddr PGSIZE ltac:(done)) as Hofs. rewrite <-pg_ofs_mod in Hofs.
    split; [symmetry; apply (Z.div_unique _ _ _ (pg_ofs vaddr)); unfold PHYS_BASE, PGSIZE in *; lia|]. split_and!.
    + rewrite (Hget g Hg). f_equal. unfold PHYS_BASE, PGSIZE. lia.
    + unfold pagedir_is_accessed. rewrite (is_flag_ok s' own) by done. by rewrite HA.
    + intros Hw. unfold pagedir_is_dirty. rewrite (is_flag_ok s' own) by done. by rewrite (HD Hw).
  - destruct (get_page_ok s own d vaddr Hvm Hd Hv) as [-> _]. unfold allowed in Hok.
    destruct (has_flag (entry s d (vaddr / PGSIZE)) PTE_P); [right|by left]. by destruct write.
Qed.

(** C26. The page directories implement a map from user pages to pages: pagedir_get_page
    gives the page that the history of the calls has mapped at an address, or a null
    pointer where none is.  Where a page is mapped, pagedir_is_dirty and
    pagedir_is_accessed give the bit that pagedir_set_dirty and pagedir_set_accessed have
    just set.  On the directories of the history, null pointers included where they are
    meaningful, no operation of pagedir.c fails an assertion: each of them returns. *)
Theorem pagedir_refines_map :
  (∀ d vaddr, cl !! d = Some IsDir → 0 ≤ vaddr < PHYS_BASE →
     (∀ g, cl !! g = Some (IsPage d (vaddr / PGSIZE)) → pagedir_get_page (PGSIZE * d) vaddr s = Ok (PGSIZE * g + pg_ofs vaddr)) ∧
     ((∀ g, cl !! g ≠ Some (IsPage d (vaddr / PGSIZE))) → pagedir_get_page (PGSIZE * d) vaddr s = Ok NULL)) ∧
  (∃ pd s', pagedir_create (PGSIZE * ip) s = Ok (pd, s')) ∧
  (∀ d u k writable, cl !! d = Some IsDir → d ≠ ip → 0 ≤ u < 786432 → (∀ g, cl !! g ≠ Some (IsPage d u)) →
     cl !! k = Some IsHeld → k - 786432 < ram →
     ∃ b s', pagedir_set_page (PGSIZE * ip) ram (PGSIZE * d) (PGSIZE * u) (PGSIZE * k) writable s = Ok (b, s')) ∧
  (∀ d u, cl !! d = Some IsDir → 0 ≤ u < 786432 → ∃ s', pagedir_clear_page (PGSIZE * ip) (PGSIZE * d) (PGSIZE * u) s = Ok s') ∧
  (∀ d vaddr b, cl !! d = Some IsDir → 0 ≤ vaddr < PHYS_BASE →
     (∃ s', pagedir_set_dirty (PGSIZE * ip) (PGSIZE * d) vaddr b s = Ok s' ∧
        (pagedir_get_page (PGSIZE * d) vaddr s ≠ Ok NULL → pagedir_is_dirty (PGSIZE * d) vaddr s' = Ok b)) ∧
     (∃ s', pagedir_set_accessed (PGSIZE * ip) (PGSIZE * d) vaddr b s = Ok s' ∧
        (pagedir_get_page (PGSIZE * d) vaddr s ≠ Ok NULL → pagedir_is_accessed (PGSIZE * d) vaddr s' = Ok b))) ∧
  (∀ d vaddr, cl !! d = Some IsDir → 0 ≤ vaddr < PHYS_BASE →
     (∃ b, pagedir_is_dirty (PGSIZE * d) vaddr s = Ok b) ∧ ∃ b, pagedir_is_accessed (PGSIZE * d) vaddr s = Ok b) ∧
  (∀ pd, pd = NULL ∨ (∃ d, pd = PGSIZE * d ∧ cl !! d = Some IsDir) → ∃ s', pagedir_activate (PGSIZE * ip) pd s = Ok s') ∧
  (∀ pd, pd = NULL ∨ (∃ d, pd = PGSIZE * d ∧ cl !! d = Some IsDir ∧ d ≠ ip) → ∃ s', pagedir_destroy (PGSIZE * ip) pd s = Ok s').
Proof using H0 Hrun.
  destruct reachable_view as (own & da & Hmi & Hv). pose proof Hmi as [Hvm Ha Hip _ _].
  assert (∀ g o, is_table o = false → cl !! g = Some o → own !! g = Some o) as Hown by (intros g o Ho; by apply (view_other own cl)).
  split_and!.
  - intros d vaddr Hd Hva. destruct (get_page_lookup s own d vaddr Hvm (Hown d IsDir eq_refl Hd) Hva) as [Hm Hu]. split.
    + intros g Hg. by apply Hm, Hown.
    + intros Hn. apply Hu. intros g Hg. apply (Hn g). by apply (view_other own cl).
  - destruct (create_ok s own ip Hvm Hip) as (pd & s' & E & _); [by intros i; apply (init_empty ip s own da)|]. eauto.
  - intros d u k w Hd Hne Hu Hn Hk Hr. destruct (set_page_ok (PGSIZE * ip) ram s own d k u w Hvm (Hown d IsDir eq_refl Hd) Hu) as (b & s' & _ & E & _);
      [| by apply Hown|done|unfold PGSIZE; lia|by eauto]. apply (unmapped_entry s own); auto. intros g Hg. apply (Hn g). by apply (view_other own cl).
  - intros d u Hd Hu. destruct (clear_page_ok (PGSIZE * ip) s own d da u Hvm (Hown d IsDir eq_refl Hd) Ha Hu) as (s' & E & _). eauto.
  - intros d vaddr b Hd Hva. apply (Hown d IsDir eq_refl) in Hd. destruct (user_fields vaddr Hva) as (_ & _ & _ & _ & Hu).
    destruct (get_page_ok s own d vaddr Hvm Hd Hva) as [Hget _].
    assert (∀ f s1, f = PTE_A ∨ f = PTE_D → pagedir_get_page (PGSIZE * d) vaddr s ≠ Ok NULL →
      (if word s d (vaddr / PGSIZE / 1024) =? 0 then s1 = s else entry_change s s1 own own d (vaddr / PGSIZE) (with_flag (entry s d (vaddr / PGSIZE)) f b) (negb b)) →
      vm_inv s1 own ∧ has_flag (entry s1 d (vaddr / PGSIZE)) f = b) as Hw.
    { intros f s1 Hf Hmap Hch. apply (flag_written s s1 own d _ f b); try done. destruct (has_flag (entry s d (vaddr / PGSIZE)) PTE_P); [done|]. by rewrite Hget in Hmap. }
    pose proof (λ f Hf, set_flag_ok (PGSIZE * ip) s own d da vaddr f b Hf Hvm Hd Ha Hva) as Hf.
    destruct (Hf PTE_D (or_intror eq_refl)) as (s1 & E1 & H1), (Hf PTE_A (or_introl eq_refl)) as (s2 & E2 & H2). split.
    + exists s1. split; [exact E1|]. intros Hm. destruct (Hw PTE_D s1 (or_intror eq_refl) Hm H1) as [Hvm1 <-]. unfold pagedir_is_dirty. by rewrite (is_flag_ok s1 own).
    + exists s2. split; [exact E2|]. intros Hm. destruct (Hw PTE_A s2 (or_introl eq_refl) Hm H2) as [Hvm2 <-]. unfold pagedir_is_accessed. by rewrite (is_flag_ok s2 own).
  - intros d vaddr Hd Hva. apply (Hown d IsDir eq_refl) in Hd. unfold pagedir_is_dirty, pagedir_is_accessed. rewrite !(is_flag_ok s own) by done. eauto.
  - intros pd [->|(d & -> & Hd)]; [|eexists; by apply (activate_ok (PGSIZE * ip) s own), Hown].
    destruct (own_range _ _ _ _ Hvm Hip) as [? _]. pose proof (activate_ok (PGSIZE * ip) s own ip Hvm Hip) as E. unfold pagedir_activate in *.
    rewrite (proj2 (Z.eqb_neq (PGSIZE * ip) 0)) in E by (unfold PGSIZE; lia). eexists. exact E.
  - intros pd [->|(d & -> & Hd & Hne)]; [by exists s|]. destruct (destroy_ok s own ip d Hvm (Hown d IsDir eq_refl Hd) Hne) as (s' & E & _). by exists s'.
Qed.

(** pagedir_destroy of a directory that is not active frees the directory, its
    tables and the pages it maps, and nothing else: every other page stays allocated
    and keeps its contents. *)
Theorem destroy_releases d :
  cl !! d = Some IsDir → d ≠ ip → active_pd s ≠ Ok (PGSIZE * d) →
  ∃ s', pagedir_destroy (PGSIZE * ip) (PGSIZE * d) s = Ok s' ∧
    (∀ g o, cl !! g = Some o → page_used (phys s') g = negb (bool_decide (belongs d (g, o)))) ∧
    (∀ i, 0 ≤ i < 768 → word s d i ≠ 0 → page_used (phys s') (frame (word s d i)) = false) ∧
    (∀ pg, page_used (phys s') pg = true → page_used (phys s) pg = true) ∧
    (∀ x o, cl !! (x / PGSIZE) = Some o → ¬ belongs d (x / PGSIZE, o) → mem (phys s') x = mem (phys s) x).
Proof using H0 Hrun.
  intros Hd Hne Hna. destruct reachable_view as (own & da & Hmi & Hv). pose proof Hmi as [Hvm Ha Hip _ _].
  apply (view_other own cl) in Hd; [|done..]. destruct (destroy_ok s own ip d Hvm Hd Hne) as (s' & E & [_ Htk Hm _ _ _]).
  exists s'. split; [done|]. split_and!.
  - intros g o Hg. apply Hv in Hg as [Hg _]. case_bool_decide as Hb.
    + apply not_true_is_false. intros Hu. apply Htk in Hu as [_ Hn]. apply Hn. eauto.
    + apply Htk. split; [by eapply own_range|]. intros (o' & Ho' & Hb'). congruence.
  - intros i Hi Hw. apply not_true_is_false. intros Hu. apply Htk in Hu as [_ Hn]. apply Hn.
    destruct (vi_dir _ _ Hvm d i Hd Hi) as [?|(t & (_ & -> & _) & Ht)]; [done|]. eexists. split; [done|]. right. left. by exists i.
  - intros pg Hpg. by apply Htk in Hpg as [? _].
  - intros x o Ho Hb. apply Hv in Ho as [Ho _]. apply Hm. intros (o' & Ho' & Hb'). congruence.
Qed.

(** Memory stays well typed: every cell holds a byte; an entry of a directory is 0 or
    the entry of a table in an allocated page, with the rights of a user program; an
    entry of a table is an address below 1 GB with flags, and if it is present it is
    open to the user program and the page it maps is the one recorded for it. *)
Theorem page_tables_typed :
  (∀ x, is_byte (mem (phys s) x)) ∧
  ∀ d, cl !! d = Some IsDir →
    (∀ i, 0 ≤ i < 768 → word s d i = 0 ∨
       (points_to (word s d i) (frame (word s d i)) ∧ page_used (phys s) (frame (word s d i)) = true)) ∧
    ∀ u, 0 ≤ u < 786432 → entry_ok (entry s d u) ∧
      (has_flag (entry s d u) PTE_P = true →
       has_flag (entry s d u) PTE_U = true ∧ cl !! frame (entry s d u) = Some (IsPage d u)).
Proof using H0 Hrun.
  destruct reachable_view as (own & da & [Hvm _ _ _ _] & Hv). split; [apply Hvm|]. intros d Hd. apply (view_other own cl) in Hd; [|done..]. split.
  - intros i Hi. destruct (vi_dir _ _ Hvm d i Hd Hi) as [?|(t & Hp & Ht)]; [by left|right]. destruct (Hp) as (? & -> & ?).
    split; [done|]. exact (proj2 (own_range _ _ _ _ Hvm Ht)).
  - intros u Hu. split.
    + destruct (entry_cases s own d u Hvm Hd Hu) as [[_ ->]|(t & Ht & _ & ->)]; [done|].
      destruct (user_index u Hu) as (_ & Hj & _). by destruct (vi_entry _ _ Hvm _ _ _ _ Ht Hj).
    + intros HP. destruct (entry_owner s own d u Hvm Hd Hu HP) as (Ho & _ & HU). split; [done|]. by apply (view_other own cl).
Qed.

End processes.

(** *** A small machine

    One page for the directory of the kernel, then a page for the client, a directory
    for a process, the page mapped in it at user page 1, and the directory active. *)

Definition demo_phys : palloc_state :=
  match palloc_get_multiple 0 1 small_state with Ok (_, p) => p | _ => small_state end.
Definition demo_ip : Z := 786688.
Definition demo0 : machine palloc_state := Machine demo_phys (PGSIZE * (demo_ip - 786432)) ∅.
Definition demo1 : machine palloc_state :=
  match get_pages PAL_USER 1 (phys demo0) with Ok (_, p) => set_phys demo0 p | _ => demo0 end.
Definition demo2 : machine palloc_state :=
  match pagedir_create (PGSIZE * demo_ip) demo1 with Ok (_, s) => s | _ => demo1 end.
Definition demo3 : machine palloc_state :=
  match pagedir_set_page (PGSIZE * demo_ip) 264 (PGSIZE * 786689) (PGSIZE * 1) (PGSIZE * 786692) true demo2 with
  | Ok (_, s) => s
  | _ => demo2
  end.
Definition demo4 : machine palloc_state := Machine (phys demo3) (PGSIZE * (786689 - 786432)) ∅.
Definition demo_pages : gmap Z owner :=
  <[786692 := IsPage 786689 1]> (<[786689 := IsDir]> (<[786692 := IsHeld]> {[demo_ip := IsDir]})).

Lemma demo_granted : granted 0 1 small_state demo_ip demo_phys.
Proof.
  destruct (palloc_get_law 0 1 small_state small_state_wf eq_refl ltac:(done)) as [(i & p & E & Hg)|(p & E & _)]; [|by vm_compute in E].
  assert (demo_phys = p ∧ i = demo_ip) as [-> <-]; [|done].
  unfold demo_phys. rewrite E. split; [done|]. assert (PGSIZE * i = PGSIZE * demo_ip) as Ei; [|unfold PGSIZE in Ei; lia].
  transitivity (match palloc_get_multiple 0 1 small_state with Ok (a, _) => a | _ => 0 end); [by rewrite E|by vm_compute].
Qed.

Lemma demo_initial : initial demo_ip demo0.
Proof.
  pose proof demo_granted as Hg. assert (∀ x, pmem demo_phys x = 0) as Hm by (intros x; rewrite (gr_mem _ _ _ _ _ Hg); done).
  split; [apply Hg| |apply Hg| |done|done].
  - intros x. change (is_byte (pmem demo_phys x)). by rewrite Hm.
  - intros j _. unfold word, load, get32. change (phys demo0) with demo_phys. by rewrite !Hm.
Qed.

Lemma pair_result {A B} `{EqDecision A} (r : res (A * B)) (v : A) (b : B) :
  match r with Ok (a, _) => bool_decide (a = v) | _ => false end = true →
  r = Ok (v, match r with Ok (_, s) => s | _ => b end).
Proof. destruct r as [[a s]|f|]; [|done..]. by intros ->%bool_decide_eq_true_1. Qed.

Lemma demo_run : rtc (vm_step demo_ip 264) (demo0, {[demo_ip := IsDir]}) (demo4, demo_pages).
Proof.
  eapply rtc_l. { apply (do_get demo_ip 264 PAL_USER (PGSIZE * 786692) demo0 _ (phys demo1)); vm_compute; reflexivity. }
  eapply rtc_l. { apply (do_create demo_ip 264 (PGSIZE * 786689) demo1 _ demo2). apply pair_result. vm_compute. reflexivity. }
  eapply rtc_l. { apply (do_set_page demo_ip 264 786689 1 786692 true true demo2 _ demo3);
      [reflexivity|done|done| |reflexivity|done|apply pair_result; vm_compute; reflexivity].
    intros g. change (({[786689 := IsDir; 786692 := IsHeld; demo_ip := IsDir]} : gmap Z owner) !! g ≠ Some (IsPage 786689 1)).
    rewrite lookup_insert_Some, lookup_insert_Some, lookup_singleton_Some. naive_solver. }
  apply rtc_once. apply (do_activate demo_ip 264 (PGSIZE * 786689) demo3 _ demo4).
  - right. exists 786689. split; [done|]. reflexivity.
  - reflexivity.
Qed.

Lemma access_isolated_witness :
  ∃ d, demo_pages !! d = Some IsDir ∧ active_pd demo4 = Ok (PGSIZE * d) ∧
  match user_access 4100 true demo4 with
  | Some (pa, s') => ∃ g, demo_pages !! g = Some (IsPage d (4100 / PGSIZE)) ∧ (PHYS_BASE + pa) / PGSIZE = g ∧
      pagedir_get_page (PGSIZE * d) 4100 demo4 = Ok (PHYS_BASE + pa) ∧
      pagedir_is_accessed (PGSIZE * d) 4100 s' = Ok true ∧
      (true = true → pagedir_is_dirty (PGSIZE * d) 4100 s' = Ok true)
  | None => pagedir_get_page (PGSIZE * d) 4100 demo4 = Ok NULL ∨
      (true = true ∧ has_flag (entry demo4 d (4100 / PGSIZE)) PTE_W = false)
  end.
Proof. apply (access_isolated demo_ip 264 demo0 demo4 demo_pages demo_initial demo_run 4100 true). done. Defined.

Lemma pagedir_refines_map_witness :
  pagedir_get_page (PGSIZE * 786689) 4100 demo4 = Ok (PGSIZE * 786692 + pg_ofs 4100).
Proof.
  apply (proj1 (proj1 (pagedir_refines_map demo_ip 264 demo0 demo4 demo_pages demo_initial demo_run) 786689 4100 eq_refl ltac:(done))).
  reflexivity.
Defined.

Lemma destroy_releases_witness :
  ∃ s', pagedir_destroy (PGSIZE * demo_ip) (PGSIZE * 786689) (Machine (phys demo3) (PGSIZE * (demo_ip - 786432)) ∅) = Ok s' ∧
    page_used (phys s') 786692 = false.
Proof.
  assert (rtc (vm_step demo_ip 264) (demo0, {[demo_ip := IsDir]}) (Machine (phys demo3) (PGSIZE * (demo_ip - 786432)) ∅, demo_pages)) as Hrun.
  { eapply rtc_r; [exact demo_run|]. apply (do_activate demo_ip 264 NULL); [by left|reflexivity]. }
  destruct (destroy_releases demo_ip 264 demo0 _ demo_pages demo_initial Hrun 786689) as (s' & E & Hu & _); [reflexivity|done|by vm_compute|].
  exists s'. split; [exact E|]. rewrite (Hu 786692 (IsPage 786689 1) eq_refl). reflexivity.
Defined.

Lemma page_tables_typed_witness :
  entry_ok (entry demo4 786689 1) ∧
  (has_flag (entry demo4 786689 1) PTE_P = true →
   has_flag (entry demo4 786689 1) PTE_U = true ∧ demo_pages !! frame (entry demo4 786689 1) = Some (IsPage 786689 1)).
Proof.
  apply (proj2 (proj2 (page_tables_typed demo_ip 264 demo0 demo4 demo_pages demo_initial demo_run) 786689 eq_refl)). done.
Defined.
