(* ===== verification/Bits.v ===== *)
(** Fields packed into machine words, as sums of multiples of powers of two: for the descriptors
    the processor reads. *)

From S2P Require Import Prelude Vaddr.

(** Fields that do not overlap add up. *)
Lemma lor_fields a b k : 0 ≤ k → 0 ≤ a < 2 ^ k → Z.lor a (b * 2 ^ k) = a + b * 2 ^ k.
Proof.
  intros Hk Ha. rewrite <-Z.shiftl_mul_pow2 by done. assert (Z.land a (Z.shiftl b k) = 0) as E.
  { apply Z.bits_inj'. intros n Hn. rewrite Z.land_spec, Z.bits_0, Z.shiftl_spec by done. destruct (Z.lt_ge_cases n k) as [Hlt|Hge].
    - rewrite (Z.testbit_neg_r b) by lia. apply andb_false_r.
    - rewrite <-(Z.mod_small a (2 ^ k)) by done. by rewrite Z.mod_pow2_bits_high. }
  symmetry. rewrite <-Z.lxor_lor by done. by apply Z.add_nocarry_lxor.
Qed.

Lemma lor_fields_high a b k : 0 ≤ k → 0 ≤ b < 2 ^ k → Z.lor (a * 2 ^ k) b = a * 2 ^ k + b.
Proof. intros. rewrite Z.lor_comm, lor_fields by done. lia. Qed.

(** A field of [w] bits from bit [k] on. *)
Definition field (x k w : Z) : Z := Z.land (Z.shiftr x k) (2 ^ w - 1).

Lemma field_eq x k w : 0 ≤ k → 0 ≤ w → field x k w = (x / 2 ^ k) mod 2 ^ w.
Proof. intros. unfold field. by rewrite land_ones_mod, Z.shiftr_div_pow2. Qed.

#[global] Arguments field : simpl never.
