(* ===== verification/Paging.v ===== *)
(** The page tables of the kernel (src/threads/init.c, [paging_init]).

    The state is the machine of [Pagedir] on the page allocator of palloc.c. The theorem gives the
    mapping of kernel addresses that the processor finds in the tables, and that the machine is
    then in the state from which the theorems on the address spaces of processes start. *)

From S2P Require Import Prelude Bitmap BitmapScan Vaddr Palloc Disk Pages Pagedir AddrSpace Bits.

Local Abbreviation st := (machine palloc_state).

Definition get_zero_page (s : st) : res (Z * st) :=
  '(p, ps) ← palloc_get_page (Z.lor PAL_ASSERT PAL_ZERO) (phys s); Ok (p, set_phys s ps).

(** The text of the kernel and the size of memory. *)
Section code.
Context (_start _end_kernel_text init_ram_pages : Z).

(** The [n] pages from [page] on. *)
Fixpoint paging_loop (n : nat) (page pd pt : Z) (s : st) : res st :=
  match n with
  | O => Ok s
  | S n =>
      let paddr := u32 (page * PGSIZE) in
      vaddr ← ptov paddr;
      let pde_idx := pd_no vaddr in
      let pte_idx := pt_no vaddr in
      let in_kernel_text := (_start <=? vaddr) && (vaddr <? _end_kernel_text) in
      '(pt, s) ← (if load s (pd + 4 * pde_idx) =? 0 then
                    '(pt, s) ← get_zero_page s;
                    e ← pde_create pt; Ok (pt, store s (pd + 4 * pde_idx) e)
                  else Ok (pt, s));
      e ← pte_create_kernel vaddr (negb in_kernel_text);
      if pt =? NULL then Fault BadAccess
      else paging_loop n (page + 1) pd pt (store s (pt + 4 * pte_idx) e)
  end.

(** The page directory, and the machine that uses it. *)
Definition paging_init (s : st) : res (Z * st) :=
  '(pd, s) ← get_zero_page s;
  s ← paging_loop (Z.to_nat init_ram_pages) 0 pd NULL s;
  p ← vtop pd; Ok (pd, Machine (phys s) p ∅).

End code.

(** ** Pages of the kernel pool *)

Definition kernel_free (s : palloc_state) : Z :=
  Z.of_nat (length (filter (λ pg, page_used s pg = false) (seqZ (pool_lo (kernel_pool s)) (bit_cnt (used_map (kernel_pool s)))))).

Lemma filter_one_less (f f' : Z → bool) g l :
  NoDup l → g ∈ l → f g = false → (∀ x, f' x = bool_decide (x = g) || f x) →
  length (filter (λ x, f x = false) l) = S (length (filter (λ x, f' x = false) l)).
Proof.
  intros Hnd Hg Hf Hf'. induction l as [|x l IH]; [by apply elem_of_nil in Hg|]. apply NoDup_cons in Hnd as [Hx Hnd]. rewrite !filter_cons.
  apply elem_of_cons in Hg as [->|Hg].
  - rewrite (decide_True _ _ Hf), decide_False by (rewrite Hf', bool_decide_eq_true_2; done). cbn [length]. do 2 f_equal.
    clear IH. induction l as [|y l IH]; [done|]. apply not_elem_of_cons in Hx as [Hne Hx]. apply NoDup_cons in Hnd as [_ Hnd]. rewrite !filter_cons.
    rewrite (IH Hx Hnd). assert (f' y = f y) as E by (rewrite Hf', bool_decide_eq_false_2; [done|congruence]). destruct (decide (f y = false)) as [e|n]; [rewrite decide_True by congruence|rewrite decide_False by congruence]; done.
  - assert (x ≠ g) by (by intros ->). assert (f' x = f x) as E by (by rewrite Hf', bool_decide_eq_false_2).
    destruct (decide (f x = false)) as [e|n]; [rewrite decide_True by congruence|rewrite decide_False by congruence]; cbn [length]; rewrite (IH Hnd Hg); done.
Qed.

Definition ZERO : Z := Z.lor PAL_ASSERT PAL_ZERO.

Lemma get_zero_ok s :
  palloc_wf s →
  if 0 <? kernel_free s
  then ∃ g s', palloc_get_page ZERO s = Ok (PGSIZE * g, s') ∧ granted ZERO 1 s g s' ∧ kernel_free s' = kernel_free s - 1
  else palloc_get_page ZERO s = Fault PanicCall.
Proof.
  intros Hwf. unfold palloc_get_page.
  destruct (palloc_get_multiple_cases ZERO 1 s Hwf ltac:(lia)) as [(p & s' & Hg & Hgot)|[Hno Hr]].
  - destruct (got_granted _ _ _ _ _ Hwf Hgot) as [Hal Hgr]. pose proof Hgot as (_ & _ & _ & _ & Hs & (Hlo & Hhi & Hfree) & Hu & _).
    assert (kernel_free s = kernel_free s' + 1) as E.
    { unfold kernel_free. destruct Hs as (Hb & _ & Hc & _). unfold pool_lo. rewrite Hb, Hc. fold (pool_lo (kernel_pool s)).
      rewrite (filter_one_less (page_used s) (page_used s') (p / PGSIZE)); [lia|apply NoDup_seqZ| |apply Hfree; lia|].
      - apply elem_of_seqZ. unfold pool_hi in Hhi. change (pool_of ZERO s) with (kernel_pool s) in *. lia.
      - intros x. rewrite Hu. do 2 case_bool_decide; done || lia. }
    assert (0 ≤ kernel_free s') by (unfold kernel_free; lia). rewrite (proj2 (Z.ltb_lt _ _)) by lia. exists (p / PGSIZE), s'. rewrite <-Hal. split_and!; [done|done|lia].
  - destruct Hno as [|Hno]; [done|]. assert (kernel_free s = 0) as ->; [|done]. unfold kernel_free.
    destruct (filter _ _) as [|g l] eqn:E; [done|]. exfalso. assert (g ∈ g :: l) as Hg by left. rewrite <-E in Hg. apply list_elem_of_filter in Hg as [Hf Hg%elem_of_seqZ].
    apply (Hno g). change (pool_of ZERO s) with (kernel_pool s). split_and!; [lia|unfold pool_hi; lia|]. intros pg Hpg. by replace pg with g by lia.
Qed.

Lemma granted_mem s g s' x : granted ZERO 1 s g s' → mem s' x = if bool_decide (x / PGSIZE = g) then 0 else mem s x.
Proof.
  intros Hgr. etransitivity; [exact (gr_mem _ _ _ _ _ Hgr x)|]. change (has_flag ZERO PAL_ZERO) with true. cbn [andb]. unfold in_pages, within. do 2 case_bool_decide; done || lia.
Qed.

Lemma zero_words (s : st) g q : (∀ x, x / PGSIZE = g → mem (phys s) x = 0) → 0 ≤ q < 1024 → word s g q = 0.
Proof.
  intros Hz Hq. unfold word, load. etransitivity; [apply (get32_ext (λ _, 0))|done]. intros x Hx. apply Hz. symmetry. unfold PGSIZE in *. apply (Z.div_unique _ _ _ (x - 4096 * g)); lia.
Qed.

(** ** The tables while they grow *)

Section proof.
Context (_start _end_kernel_text : Z).

Definition in_text (page : Z) : bool := (_start <=? PHYS_BASE + PGSIZE * page) && (PHYS_BASE + PGSIZE * page <? _end_kernel_text).
Definition pde_of (t : Z) : Z := Z.lor (PGSIZE * t - PHYS_BASE) 7.
Definition pte_of (page : Z) : Z := Z.lor (PGSIZE * page) (if in_text page then 1 else 3).

Lemma pde_of_eq t : pde_of t = 4096 * (t - 786432) + 7.
Proof. unfold pde_of, PGSIZE, PHYS_BASE. replace (4096 * t - 3221225472) with ((t - 786432) * 2 ^ 12) by lia. rewrite lor_fields_high by lia. lia. Qed.

Lemma pte_of_eq page : pte_of page = 4096 * page + if in_text page then 1 else 3.
Proof. unfold pte_of, PGSIZE. replace (4096 * page) with (page * 2 ^ 12) by lia. rewrite lor_fields_high by (destruct (in_text page); lia). lia. Qed.

(** The first [k] pages are mapped, by the tables [ts] of directory [ip]; of the pages in use at the
    start, none has changed. *)
Record grown (ps0 : palloc_state) (s : st) (ip : Z) (ts : list Z) (k : Z) : Prop := {
  gw_wf : palloc_wf (phys s);
  gw_byte : ∀ x, is_byte (mem (phys s) x);
  gw_ip : used_block (phys s) ip 1;
  gw_nodup : NoDup (ip :: ts);
  gw_range : ∀ t, t ∈ ip :: ts → 786432 ≤ t < 1048576;
  gw_fresh : ∀ t, t ∈ ip :: ts → page_used ps0 t = false;
  gw_used : ∀ pg, page_used (phys s) pg = bool_decide (pg ∈ ip :: ts) || page_used ps0 pg;
  gw_mem : ∀ x, page_used ps0 (x / PGSIZE) = true → mem (phys s) x = mem ps0 x;
  gw_free : kernel_free (phys s) = kernel_free ps0 - Z.of_nat (length (ip :: ts));
  gw_dir : ∀ i, 0 ≤ i < 1024 → word s ip i = if 768 <=? i then from_option pde_of 0 (ts !! Z.to_nat (i - 768)) else 0;
  gw_entry : ∀ j t q, ts !! j = Some t → 0 ≤ q < 1024 → word s t q = if 1024 * Z.of_nat j + q <? k then pte_of (1024 * Z.of_nat j + q) else 0;
}.

Lemma kernel_free_store s a v : kernel_free (phys (store s a v)) = kernel_free (phys s).
Proof. by destruct s as [[] ? ?]. Qed.

(** A store in one of the tables. *)
Lemma grown_store ps0 s ip ts k t q v k' :
  grown ps0 s ip ts k → t ∈ ip :: ts → 0 ≤ q < 1024 → is_u32 v →
  (∀ i, 0 ≤ i < 1024 → (if bool_decide (ip = t ∧ i = q) then v else word s ip i) = if 768 <=? i then from_option pde_of 0 (ts !! Z.to_nat (i - 768)) else 0) →
  (∀ j t' q', ts !! j = Some t' → 0 ≤ q' < 1024 → (if bool_decide (t' = t ∧ q' = q) then v else word s t' q') = if 1024 * Z.of_nat j + q' <? k' then pte_of (1024 * Z.of_nat j + q') else 0) →
  grown ps0 (store s (PGSIZE * t + 4 * q) v) ip ts k'.
Proof.
  intros [] Ht Hq Hv Hdir Hent. destruct (store_allocator s (PGSIZE * t + 4 * q) v) as (H1 & H2 & H3 & H4).
  split; [by apply H1|by apply H4|by apply H3|done|done|done|..].
  - intros pg. etransitivity; [exact (H2 pg)|apply gw_used0].
  - intros x Hx. refine (eq_trans (store_page s t q v x Hq _) (gw_mem0 x Hx)). intros E. rewrite E, gw_fresh0 in Hx; done.
  - by rewrite kernel_free_store.
  - intros i Hi. rewrite word_store by done. by apply Hdir.
  - intros j t' q' Hj Hq'. rewrite word_store by done. by apply Hent.
Qed.


(** A new page, before it is used as a table. *)
Lemma grown_page ps0 s ip ts k g ps' :
  grown ps0 s ip ts k → granted ZERO 1 (phys s) g ps' → kernel_free ps' = kernel_free (phys s) - 1 →
  g ∉ ip :: ts ∧ 786432 ≤ g < 1048576 ∧ page_used ps0 g = false ∧ (∀ q, 0 ≤ q < 1024 → word (set_phys s ps') g q = 0) ∧
  (∀ t q, t ∈ ip :: ts → 0 ≤ q < 1024 → word (set_phys s ps') t q = word s t q) ∧
  palloc_wf ps' ∧ (∀ x, is_byte (mem ps' x)) ∧ used_block ps' ip 1 ∧ (∀ pg, page_used ps' pg = bool_decide (pg ∈ g :: ip :: ts) || page_used ps0 pg) ∧
  (∀ x, page_used ps0 (x / PGSIZE) = true → mem ps' x = mem ps0 x).
Proof.
  intros Hgw Hgr Hfree. pose proof Hgw as []. pose proof (λ x, granted_mem _ _ _ x Hgr) as Hmem. destruct Hgr as [Hok _ Hblk Hf Htk _ Hkeep]. pose proof (Hf g ltac:(unfold within; lia)) as Hg. change (page_used (phys s) g = false) in Hg.
  rewrite gw_used0 in Hg. apply orb_false_iff in Hg as [Hng%bool_decide_eq_false Hg0].
  destruct (block_law g 1 ps' Hok Hblk) as (_ & Hlo & Hhi & _). split_and!; try done; try lia.
  - intros q Hq. apply zero_words; [|done]. intros x Hx. cbn [phys set_phys]. by rewrite Hmem, bool_decide_eq_true_2.
  - intros t q Ht Hq. apply word_ext; [done|]. intros x Hx. change (mem ps' x = mem (phys s) x). rewrite Hmem, bool_decide_eq_false_2; [done|]. intros E. apply Hng. by rewrite <-E, Hx.
  - intros x. rewrite Hmem. by case_bool_decide.
  - by apply Hkeep.
  - intros pg. etransitivity; [exact (Htk pg)|]. change (page_taken (phys s) pg) with (page_used (phys s) pg). rewrite gw_used0, orb_assoc. f_equal.
    unfold within. rewrite <-bool_decide_or. apply bool_decide_ext. rewrite (elem_of_cons (ip :: ts) pg g). split; (intros [?|?]; [left; lia|by right]).
  - intros x Hx. rewrite Hmem, bool_decide_eq_false_2; [by apply gw_mem0|]. intros E. by rewrite E, Hg0 in Hx.
Qed.

(** A page that has become a table. *)
Lemma grown_table ps0 s ip ts k g ps' :
  grown ps0 s ip ts k → granted ZERO 1 (phys s) g ps' → kernel_free ps' = kernel_free (phys s) - 1 → k = 1024 * Z.of_nat (length ts) → k < 262144 →
  grown ps0 (store (set_phys s ps') (PGSIZE * ip + 4 * (768 + k / 1024)) (pde_of g)) ip (ts ++ [g]) k.
Proof.
  intros Hgw Hgr Hfree Hk Hmax. destruct (grown_page _ _ _ _ _ _ _ Hgw Hgr Hfree) as (Hng & Hr & Hg0 & Hz & Hkeep & Hwf & Hb & Hblk & Hused & Hmem). destruct Hgw.
  assert (k / 1024 = Z.of_nat (length ts)) as Ek by (rewrite Hk, Z.mul_comm; by apply Z.div_mul). rewrite Ek. set (q := 768 + Z.of_nat (length ts)). assert (768 ≤ q < 1024) as Hq by lia.
  assert (∀ x, x ∈ ip :: ts ++ [g] ↔ x ∈ g :: ip :: ts) as Hin by set_solver.
  destruct (store_allocator (set_phys s ps') (PGSIZE * ip + 4 * q) (pde_of g)) as (H1 & H2 & H3 & H4). split.
  - by apply H1.
  - by apply H4.
  - by apply H3.
  - rewrite app_comm_cons. apply NoDup_app. split_and!; [done|set_solver|apply NoDup_singleton].
  - intros t Ht%Hin. apply elem_of_cons in Ht as [->|Ht]; [done|by apply gw_range0].
  - intros t Ht%Hin. apply elem_of_cons in Ht as [->|Ht]; [done|by apply gw_fresh0].
  - intros pg. etransitivity; [exact (H2 pg)|]. etransitivity; [exact (Hused pg)|]. f_equal. apply bool_decide_ext. by rewrite Hin.
  - intros x Hx. refine (eq_trans (store_page (set_phys s ps') ip q (pde_of g) x _ _) (Hmem x Hx)); [lia|]. intros E. rewrite E, gw_fresh0 in Hx; [done|left].
  - rewrite kernel_free_store. cbn [phys set_phys]. rewrite Hfree, gw_free0. cbn [length]. rewrite length_app. cbn [length]. lia.
  - intros i Hi. rewrite word_store; [|lia|lia|rewrite pde_of_eq; unfold is_u32; lia]. case_bool_decide as Hc.
    + destruct Hc as [_ ->]. rewrite (proj2 (Z.leb_le _ _)) by lia. replace (Z.to_nat (q - 768)) with (length ts) by lia. by rewrite list_lookup_middle.
    + rewrite Hkeep by (done || left). rewrite gw_dir0 by done. destruct (Z.leb_spec 768 i); [|done]. rewrite lookup_app. destruct (ts !! Z.to_nat (i - 768)) as [t|] eqn:E; [done|].
      apply lookup_ge_None in E. destruct (Z.to_nat (i - 768) - length ts)%nat as [|n'] eqn:E2; [exfalso; apply Hc; split; lia|done].
  - intros j t i Hj Hi. assert (t ≠ ip) as Hne by (intros ->; apply NoDup_cons in gw_nodup0 as [Hni _]; apply list_elem_of_lookup_2 in Hj; set_solver).
    rewrite word_store; [|lia|lia|rewrite pde_of_eq; unfold is_u32; lia]. rewrite bool_decide_eq_false_2 by (by intros [? _]).
    apply lookup_app_Some in Hj as [Hj|[Hlen Hj]].
    + rewrite Hkeep by (done || by right; eapply list_elem_of_lookup_2). by apply gw_entry0.
    + apply list_lookup_singleton_Some in Hj as [Hj ->]. rewrite Hz by done. by rewrite (proj2 (Z.ltb_ge _ _)) by lia.
Qed.


(** One page more: an entry in the last table. *)
Lemma grown_entry ps0 s ip ts k t :
  grown ps0 s ip ts k → last ts = Some t → 1024 * (Z.of_nat (length ts) - 1) ≤ k < 1024 * Z.of_nat (length ts) → k < 262144 →
  grown ps0 (store s (PGSIZE * t + 4 * (k mod 1024)) (pte_of k)) ip ts (k + 1).
Proof.
  intros Hgw Ht Hk Hmax. pose proof Hgw as []. rewrite last_lookup in Ht. assert (∃ n, length ts = S n) as [n Hn] by (destruct ts as [|? ts']; [done|by exists (length ts')]). rewrite Hn in Ht. cbn [pred] in Ht. rewrite Hn in Hk.
  assert (k / 1024 = Z.of_nat n) as Ed by (symmetry; apply (Z.div_unique _ _ _ (k - 1024 * Z.of_nat n)); lia).
  pose proof (Z.div_mod k 1024 ltac:(lia)) as Em. pose proof (Z.mod_pos_bound k 1024 ltac:(lia)) as Hq. set (q := k mod 1024) in *.
  assert (t ∈ ts) as Hin by by eapply list_elem_of_lookup_2. apply NoDup_cons in gw_nodup0 as [Hni Hnd].
  apply (grown_store ps0 s ip ts k); [done|by right|done|rewrite pte_of_eq; unfold is_u32; destruct (in_text k); lia| |].
  - intros i Hi. rewrite bool_decide_eq_false_2 by (intros [-> _]; done). by apply gw_dir0.
  - intros j t' q' Hj Hq'. case_bool_decide as Hc.
    + destruct Hc as [-> ->]. assert (j = n) as -> by by eapply NoDup_lookup. rewrite (proj2 (Z.ltb_lt _ _)) by lia. f_equal. lia.
    + rewrite (gw_entry0 j t' q' Hj Hq'). pose proof (lookup_lt_Some _ _ _ Hj). destruct (Z.ltb_spec (1024 * Z.of_nat j + q') k), (Z.ltb_spec (1024 * Z.of_nat j + q') (k + 1)); try done; [lia|].
      exfalso. apply Hc. assert (1024 * Z.of_nat j + q' = k) as E by lia. assert (j = n) as -> by lia. split; [congruence|lia].
Qed.

Lemma table_entry_ok g : 786432 ≤ g < 1048576 → pde_create (PGSIZE * g) = Ok (pde_of g).
Proof. intros Hg%kpage_of. unfold pde_create. rewrite kpage_ofs, kpage_vtop by done. mstep. unfold pde_of. by rewrite <-!Z.lor_assoc. Qed.

Lemma pte_create_ok k : 0 ≤ k < 262144 → pte_create_kernel (PHYS_BASE + PGSIZE * k) (negb (in_text k)) = Ok (pte_of k).
Proof.
  intros Hk. assert (PHYS_BASE + PGSIZE * k = PGSIZE * (786432 + k)) as E by (unfold PHYS_BASE, PGSIZE; lia). unfold pte_create_kernel. rewrite E, kpage_ofs, kpage_vtop by (apply kpage_of; lia). mstep.
  unfold pte_of. replace (PGSIZE * (786432 + k) - PHYS_BASE) with (PGSIZE * k) by (unfold PHYS_BASE, PGSIZE; lia). rewrite <-Z.lor_assoc. by destruct (in_text k).
Qed.

(** ** The loop *)

Definition last_table (ts : list Z) : Z := from_option (λ t, PGSIZE * t) NULL (last ts).

Lemma paging_loop_ok n k ps0 s ip ts :
  grown ps0 s ip ts k → Z.of_nat (length ts) = (k + 1023) / 1024 → 0 ≤ k → k + Z.of_nat n ≤ 262144 →
  if (k + Z.of_nat n + 1023) / 1024 - (k + 1023) / 1024 <=? kernel_free (phys s)
  then ∃ ts' s', paging_loop _start _end_kernel_text n k (PGSIZE * ip) (last_table ts) s = Ok s' ∧ grown ps0 s' ip ts' (k + Z.of_nat n) ∧ Z.of_nat (length ts') = (k + Z.of_nat n + 1023) / 1024
  else paging_loop _start _end_kernel_text n k (PGSIZE * ip) (last_table ts) s = Fault PanicCall.
Proof.
  revert k s ts. induction n as [|n IH]; intros k s ts Hgw Hlen Hk Hmax.
  { rewrite Z.add_0_r, Z.sub_diag. rewrite (proj2 (Z.leb_le _ _)) by (unfold kernel_free; lia). by exists ts, s. }
  cbn [paging_loop]. set (va := PHYS_BASE + PGSIZE * k). assert (u32 (k * PGSIZE) = PGSIZE * k) as -> by (rewrite u32_small; unfold is_u32, PGSIZE; lia).
  assert (ptov (PGSIZE * k) = Ok va) as ->.
  { unfold ptov. rewrite (proj2 (Z.ltb_lt _ _)) by (unfold PHYS_BASE, PGSIZE; lia). rewrite u32_small by (unfold is_u32, PHYS_BASE, PGSIZE; lia). unfold va. f_equal. lia. }
  mstep.
  assert (pd_no va = 768 + k / 1024 ∧ pt_no va = k mod 1024) as [-> ->].
  { rewrite pd_no_div, pt_no_spec. unfold va, PHYS_BASE, PGSIZE. split.
    - replace (3221225472 + 4096 * k) with (4096 * k + 768 * 4194304) by lia. rewrite Z.div_add by lia. change 4194304 with (4096 * 1024). rewrite Z.div_mul_cancel_l by lia. lia.
    - replace (3221225472 + 4096 * k) with ((786432 + k) * 4096) by lia. rewrite Z.div_mul by lia. rewrite Z.add_comm. exact (Z_mod_plus_full k 768 1024). }
  fold (in_text k). change (load s (PGSIZE * ip + 4 * (768 + k / 1024))) with (word s ip (768 + k / 1024)).
  pose proof (Z.div_mod k 1024 ltac:(lia)) as Em. pose proof (Z.mod_pos_bound k 1024 ltac:(lia)) as Hq. set (d := k / 1024) in *. set (q := k mod 1024) in *. assert (0 ≤ d < 256) as Hd by lia.
  rewrite (gw_dir _ _ _ _ _ Hgw) by lia. rewrite (proj2 (Z.leb_le 768 (768 + d))) by lia. replace (Z.to_nat (768 + d - 768)) with (Z.to_nat d) by lia. replace (k + Z.of_nat (S n)) with (k + 1 + Z.of_nat n) in * by lia.
  destruct (decide (q = 0)) as [Hq0|Hq0].
  - assert ((k + 1023) / 1024 = d) as El by (symmetry; apply (Z.div_unique _ _ _ 1023); lia). assert ((k + 1 + 1023) / 1024 = d + 1) as El1 by (symmetry; apply (Z.div_unique _ _ _ 0); lia).
    rewrite lookup_ge_None_2 by lia. cbn [from_option Z.eqb]. unfold get_zero_page. change (Z.lor PAL_ASSERT PAL_ZERO) with ZERO. pose proof (get_zero_ok (phys s) (gw_wf _ _ _ _ _ Hgw)) as Hget. destruct (Z.ltb_spec 0 (kernel_free (phys s))) as [Hfree|Hfree].
    + destruct Hget as (g & ps' & -> & Hgr & Hfr). mstep. destruct (grown_page _ _ _ _ _ _ _ Hgw Hgr Hfr) as (_ & Hrange & _). rewrite table_entry_ok by done. mstep.
      unfold va. rewrite pte_create_ok by lia. mstep. rewrite (proj2 (Z.eqb_neq _ _)) by (unfold PGSIZE; lia).
      pose proof (grown_table _ _ _ _ _ _ _ Hgw Hgr Hfr ltac:(lia) ltac:(lia)) as Hgt. fold d in Hgt. set (s1 := store (set_phys s ps') _ _) in *.
      assert (grown ps0 (store s1 (PGSIZE * g + 4 * q) (pte_of k)) ip (ts ++ [g]) (k + 1)) as Hge by (apply grown_entry; [done|by apply last_snoc|rewrite length_app; cbn [length]; lia|lia]).
      assert (kernel_free (phys (store s1 (PGSIZE * g + 4 * q) (pte_of k))) = kernel_free (phys s) - 1) as Ef by (unfold s1; by rewrite !kernel_free_store).
      specialize (IH (k + 1) _ _ Hge ltac:(rewrite length_app, El1; cbn [length]; lia) ltac:(lia) ltac:(lia)). unfold last_table in IH. rewrite last_snoc in IH. rewrite Ef, El1 in IH. rewrite El.
      by replace ((k + 1 + Z.of_nat n + 1023) / 1024 - d <=? kernel_free (phys s)) with ((k + 1 + Z.of_nat n + 1023) / 1024 - (d + 1) <=? kernel_free (phys s) - 1) by lia.
    + rewrite Hget. mstep. assert ((k + 1 + 1023) / 1024 ≤ (k + 1 + Z.of_nat n + 1023) / 1024) by (apply Z.div_le_mono; lia). rewrite (proj2 (Z.leb_gt _ _)) by lia. done.
  - assert ((k + 1023) / 1024 = d + 1) as El by (symmetry; apply (Z.div_unique _ _ _ (q - 1)); lia). assert ((k + 1 + 1023) / 1024 = d + 1) as El1 by (symmetry; apply (Z.div_unique _ _ _ q); lia).
    destruct (ts !! Z.to_nat d) as [t|] eqn:Et; [|apply lookup_ge_None in Et; lia]. assert (last ts = Some t) as Hlast by (rewrite last_lookup; by replace (pred (length ts)) with (Z.to_nat d) by lia).
    pose proof (gw_range _ _ _ _ _ Hgw t ltac:(right; by eapply list_elem_of_lookup_2)) as Hrange. cbn [from_option]. rewrite (proj2 (Z.eqb_neq _ _)) by (rewrite pde_of_eq; lia). mstep.
    unfold va. rewrite pte_create_ok by lia. mstep. unfold last_table in *. rewrite Hlast. cbn [from_option]. rewrite (proj2 (Z.eqb_neq _ _)) by (unfold PGSIZE; lia).
    pose proof (grown_entry _ _ _ _ _ t Hgw Hlast ltac:(lia) ltac:(lia)) as Hge. fold q in Hge. specialize (IH (k + 1) _ _ Hge ltac:(lia) ltac:(lia) ltac:(lia)).
    rewrite Hlast, kernel_free_store, El1 in IH. by rewrite El.
Qed.

(** ** What the processor finds *)

(** The physical address of a virtual one, whether it can be written, and whether from user mode. *)
Definition translate (s : st) (va : Z) : option (Z * bool * bool) :=
  let pde := word s (786432 + cr3 s / PGSIZE) (va / 4194304) in
  let pte := word s (frame pde) (va / PGSIZE mod 1024) in
  if has_flag pde PTE_P && has_flag pte PTE_P
  then Some (PGSIZE * (pte / PGSIZE) + va mod PGSIZE, has_flag pde PTE_W && has_flag pte PTE_W, has_flag pde PTE_U && has_flag pte PTE_U)
  else None.

Lemma pde_of_flags t : 786432 ≤ t < 1048576 → frame (pde_of t) = t ∧ has_flag (pde_of t) PTE_P = true ∧ has_flag (pde_of t) PTE_W = true ∧ has_flag (pde_of t) PTE_U = true.
Proof.
  intros Ht. split; [unfold frame; rewrite pde_of_eq; unfold PGSIZE; rewrite <-(Z.div_unique (4096 * (t - 786432) + 7) 4096 (t - 786432) 7) by lia; lia|].
  unfold has_flag, pde_of. rewrite !entry_flag by (done || by apply kpage_of). done.
Qed.

Lemma pte_of_flags k :
  0 ≤ k < 262144 → pte_of k / PGSIZE = k ∧ has_flag (pte_of k) PTE_P = true ∧ has_flag (pte_of k) PTE_W = negb (in_text k) ∧ has_flag (pte_of k) PTE_U = false.
Proof.
  intros Hk. split; [rewrite pte_of_eq; unfold PGSIZE; symmetry; apply (Z.div_unique _ _ _ (if in_text k then 1 else 3)); destruct (in_text k); lia|].
  unfold has_flag, pte_of. replace (PGSIZE * k) with (PGSIZE * (786432 + k) - PHYS_BASE) by (unfold PGSIZE, PHYS_BASE; lia). rewrite !entry_flag by (done || apply kpage_of; lia). by destruct (in_text k).
Qed.

Lemma grown_translate ps0 s ip ts ram va :
  grown ps0 s ip ts ram → Z.of_nat (length ts) = (ram + 1023) / 1024 → 0 ≤ ram ≤ 262144 → cr3 s = PGSIZE * (ip - 786432) → is_u32 va →
  translate s va = if bool_decide (PHYS_BASE ≤ va < PHYS_BASE + PGSIZE * ram) then Some (va - PHYS_BASE, negb (in_text ((va - PHYS_BASE) / PGSIZE)), false) else None.
Proof.
  intros Hgw Hlen Hram Hcr Hva. unfold translate. assert (786432 + cr3 s / PGSIZE = ip) as -> by (rewrite Hcr, Z.mul_comm, Z.div_mul by done; lia).
  pose proof (Z.div_mod va PGSIZE ltac:(done)) as Ev. pose proof (Z.mod_pos_bound va PGSIZE ltac:(done)) as Ho. pose proof (Z.div_mod (va / PGSIZE) 1024 ltac:(done)) as Ep. pose proof (Z.mod_pos_bound (va / PGSIZE) 1024 ltac:(done)) as Hq.
  assert (va / PGSIZE / 1024 = va / 4194304) as Ed by (rewrite Z.div_div by done; done). rewrite Ed in Ep. set (d := va / 4194304) in *. set (q := (va / PGSIZE) mod 1024) in *. set (page := va / PGSIZE) in *. set (o := va mod PGSIZE) in *.
  assert (0 ≤ d < 1024) as Hd by (unfold is_u32, PGSIZE in *; lia). rewrite (gw_dir _ _ _ _ _ Hgw d Hd). destruct (Z.leb_spec 768 d) as [H768|H768].
  2:{ rewrite bool_decide_eq_false_2; [done|]. unfold PHYS_BASE, PGSIZE in *. lia. }
  destruct (ts !! Z.to_nat (d - 768)) as [t|] eqn:Et; cbn [from_option].
  - pose proof (gw_range _ _ _ _ _ Hgw t ltac:(right; by eapply list_elem_of_lookup_2)) as Hrange. destruct (pde_of_flags t Hrange) as (-> & -> & -> & ->). rewrite (gw_entry _ _ _ _ _ Hgw _ _ _ Et Hq).
    replace (1024 * Z.of_nat (Z.to_nat (d - 768)) + q) with (page - 786432) by lia. destruct (Z.ltb_spec (page - 786432) ram) as [Hlt|Hge].
    + destruct (pte_of_flags (page - 786432) ltac:(lia)) as (-> & -> & -> & ->). rewrite bool_decide_eq_true_2 by (unfold PHYS_BASE, PGSIZE in *; lia). cbn [andb].
      assert ((va - PHYS_BASE) / PGSIZE = page - 786432) as -> by (symmetry; apply (Z.div_unique _ _ _ o); unfold PHYS_BASE, PGSIZE in *; lia). do 3 f_equal. unfold PHYS_BASE, PGSIZE in *. lia.
    + rewrite bool_decide_eq_false_2; [done|]. unfold PHYS_BASE, PGSIZE in *. lia.
  - apply lookup_ge_None in Et. rewrite bool_decide_eq_false_2; [done|]. assert (ram ≤ 1024 * ((ram + 1023) / 1024)) by (pose proof (Z.div_mod (ram + 1023) 1024 ltac:(lia)); pose proof (Z.mod_pos_bound (ram + 1023) 1024 ltac:(lia)); lia).
    unfold PHYS_BASE, PGSIZE in *. lia.
Qed.

(** C27. With a free page of the kernel pool for the directory and one for each 4 MB of memory, and
    only then, [paging_init] succeeds; otherwise it panics. The processor then translates the
    kernel addresses of all memory, and no others, to the memory they stand for, writable but
    for the text of the kernel, and never from user mode; the pages in use before have not
    changed; and the machine is in the state from which the theorems on address spaces
    start. *)
Theorem paging_init_maps s ram :
  palloc_wf (phys s) → (∀ x, is_byte (mem (phys s) x)) → 0 ≤ ram ≤ 262144 →
  if 1 + (ram + 1023) / 1024 <=? kernel_free (phys s)
  then ∃ ip s', paging_init _start _end_kernel_text ram s = Ok (PGSIZE * ip, s') ∧ initial ip s' ∧
      (∀ va, is_u32 va → translate s' va =
         if bool_decide (PHYS_BASE ≤ va < PHYS_BASE + PGSIZE * ram) then Some (va - PHYS_BASE, negb (in_text ((va - PHYS_BASE) / PGSIZE)), false) else None) ∧
      page_used (phys s) ip = false ∧ ∀ x, page_used (phys s) (x / PGSIZE) = true → mem (phys s') x = mem (phys s) x
  else paging_init _start _end_kernel_text ram s = Fault PanicCall.
Proof.
  intros Hwf Hb Hram. assert (0 ≤ (ram + 1023) / 1024) as H0 by (apply Z.div_pos; lia). unfold paging_init, get_zero_page. change (Z.lor PAL_ASSERT PAL_ZERO) with ZERO.
  pose proof (get_zero_ok (phys s) Hwf) as Hget. destruct (Z.ltb_spec 0 (kernel_free (phys s))) as [Hfree|Hfree].
  2:{ rewrite (proj2 (Z.leb_gt _ _)) by lia. by rewrite Hget. }
  destruct Hget as (ip & ps' & -> & Hgr & Hfr). mstep. pose proof (λ x, granted_mem _ _ _ x Hgr) as Hmem. destruct Hgr as [Hok _ Hblk Hf Htk _ Hkeep]. destruct (block_law ip 1 ps' Hok Hblk) as (_ & Hlo & Hhi & _).
  pose proof (Hf ip ltac:(unfold within; lia)) as Hip. change (page_used (phys s) ip = false) in Hip.
  assert (grown (phys s) (set_phys s ps') ip [] 0) as Hgw.
  { split; try done.
    - intros x. cbn [phys set_phys]. rewrite Hmem. by case_bool_decide.
    - apply NoDup_singleton.
    - intros t ->%list_elem_of_singleton. lia.
    - by intros t ->%list_elem_of_singleton.
    - intros pg. etransitivity; [exact (Htk pg)|]. f_equal. apply bool_decide_ext. rewrite list_elem_of_singleton. unfold within. lia.
    - intros x Hx. cbn [phys set_phys]. rewrite Hmem, bool_decide_eq_false_2; [done|]. intros E. by rewrite E, Hip in Hx.
    - intros i Hi. rewrite lookup_nil. cbn [from_option]. rewrite zero_words; [by destruct (768 <=? i)| |done]. intros x Hx. cbn [phys set_phys]. by rewrite Hmem, bool_decide_eq_true_2. }
  pose proof (paging_loop_ok (Z.to_nat ram) 0 (phys s) (set_phys s ps') ip [] Hgw eq_refl ltac:(lia) ltac:(lia)) as Hloop. rewrite Z2Nat.id in Hloop by lia. cbn [phys set_phys] in Hloop.
  rewrite Hfr, Z.add_0_l in Hloop. change ((0 + 1023) / 1024) with 0 in Hloop. rewrite Z.sub_0_r in Hloop. change (last_table []) with NULL in Hloop.
  destruct (Z.leb_spec ((ram + 1023) / 1024) (kernel_free (phys s) - 1)) as [Hle|Hgt]; [rewrite (proj2 (Z.leb_le _ _)) by lia|rewrite (proj2 (Z.leb_gt _ _)) by lia; by rewrite Hloop].
  destruct Hloop as (ts & s1 & -> & Hgw1 & Hlen). mstep. rewrite kpage_vtop by (apply kpage_of; lia). mstep. set (p := PGSIZE * ip - PHYS_BASE). set (s' := Machine (phys s1) p ∅).
  assert (p = PGSIZE * (ip - 786432)) as Ep by (unfold p, PGSIZE, PHYS_BASE; lia). assert (grown (phys s) s' ip ts ram) as Hgw2 by (by destruct Hgw1).
  exists ip, s'. split_and!; [done| |intros va Hva; by apply (grown_translate (phys s) s' ip ts)|done|apply Hgw2].
  destruct Hgw2. split; try done. intros i Hi. rewrite gw_dir0 by lia. by rewrite (proj2 (Z.leb_gt _ _)) by lia.
Qed.

End proof.

(** A machine with 128 pages, of which the kernel pool has four. *)
Definition demo_machine : st := Machine small_state 0 ∅.

Lemma paging_init_maps_witness :
  ∃ ip s', paging_init 3221225472 3221229568 128 demo_machine = Ok (PGSIZE * ip, s') ∧ initial ip s' ∧
    translate s' 3221225500 = Some (28, false, false) ∧ translate s' 3221229568 = Some (4096, true, false) ∧ translate s' 134512640 = None.
Proof.
  pose proof (paging_init_maps 3221225472 3221229568 demo_machine 128 small_state_wf) as H.
  destruct H as (ip & s' & E & Hi & Ht & _); [intros x; unfold is_byte; vm_compute; split; [intros X; discriminate X|reflexivity]|lia|].
  exists ip, s'. refine (conj E (conj Hi (conj _ (conj _ _)))); (rewrite Ht; [vm_compute; reflexivity|unfold is_u32; lia]).
Defined.
