(* ===== verification/Intq.v ===== *)
(** Interrupt queues (src/devices/intq.c, intq.h): circular buffers of bytes between
    kernel threads and interrupt handlers.

    Every operation runs with interrupts off, so a thread gives up the CPU only
    where it blocks: in [lock_acquire] when another thread has the lock of the queue,
    and in [wait].  A thread is its position in the code ([pc]); [run_thread] runs it
    up to the next such point.  Interrupt handlers run in between. *)

From S2P Require Import Prelude.

(** ** Data *)

Definition INTQ_BUFSIZE : Z := 64.

(** [not_full] and [not_empty] are the waiting threads, [lock] the thread that has
    the lock. *)
Record intq := Intq {
  lock : option Z;
  not_full : option Z;
  not_empty : option Z;
  buf : list Z;
  head : Z;
  tail : Z;
}.

(** The two members that [waiter] can point to. *)
Inductive waiter := NotFull | NotEmpty.

Definition get_waiter (w : waiter) (q : intq) : option Z :=
  match w with NotFull => not_full q | NotEmpty => not_empty q end.
Definition set_waiter (w : waiter) (t : option Z) (q : intq) : intq :=
  match w with
  | NotFull => Intq (lock q) t (not_empty q) (buf q) (head q) (tail q)
  | NotEmpty => Intq (lock q) (not_full q) t (buf q) (head q) (tail q)
  end.
Definition set_lock (t : option Z) (q : intq) : intq :=
  Intq t (not_full q) (not_empty q) (buf q) (head q) (tail q).

(** ** Operations *)

Definition next (pos : Z) : Z := (pos + 1) mod INTQ_BUFSIZE.

(** [buf] is what the memory of the queue holds. *)
Definition intq_init (buf : list Z) : intq := Intq None None None buf 0 0.

Definition intq_empty (q : intq) : bool := head q =? tail q.

Definition intq_full (q : intq) : bool := next (head q) =? tail q.

(** The condition of a member. *)
Definition holds (w : waiter) (q : intq) : bool :=
  match w with NotEmpty => intq_empty q | NotFull => intq_full q end.

(** [wait] up to [thread_block]. *)
Definition wait (w : waiter) (t : Z) (q : intq) : res intq :=
  ASSERT holds w q ;; Ok (set_waiter w (Some t) q).

(** The thread that [signal] unblocks, if any, and the queue. *)
Definition signal (w : waiter) (q : intq) : res (option Z * intq) :=
  ASSERT negb (holds w q) ;; Ok (get_waiter w q, set_waiter w None q).

(** The part of [intq_getc] after its loop. *)
Definition take_byte (q : intq) : res (Z * option Z * intq) :=
  byte ← deref (buf q !! Z.to_nat (tail q));
  let q := Intq (lock q) (not_full q) (not_empty q) (buf q) (head q) (next (tail q)) in
  '(woken, q) ← signal NotFull q;
  Ok (byte, woken, q).

(** The part of [intq_putc] after its loop. *)
Definition add_byte (byte : Z) (q : intq) : res (option Z * intq) :=
  let q := Intq (lock q) (not_full q) (not_empty q) (<[Z.to_nat (head q) := byte]> (buf q)) (next (head q)) (tail q) in
  signal NotEmpty q.

(** ** Threads *)

(** Where a thread is in [intq_getc] or in [intq_putc] of a byte. *)
Inductive call := Getc | Putc (byte : Z).

Inductive pc :=
| Idle                 (** outside *)
| Loop (c : call)      (** at the test of the loop *)
| Locking (c : call)   (** in [lock_acquire] *)
| Waiting (c : call)   (** blocked in [wait] *)
| Woken (c : call).    (** after [wait], before [lock_release] *)

Definition waits_for (c : call) : waiter := match c with Getc => NotEmpty | Putc _ => NotFull end.

(** The queue, the threads, and the bytes that went in and came out. *)
Record system := System { queue : intq; pcs : gmap Z pc; sent : list Z; got : list Z }.

(** [thread_unblock], which asserts that the thread is blocked, of a thread in [wait]. *)
Definition wake (t : option Z) (ps : gmap Z pc) : res (gmap Z pc) :=
  match t with
  | Some t => match ps !! t with Some (Waiting c) => Ok (<[t := Woken c]> ps) | _ => Fault AssertFail end
  | None => Ok ps
  end.

(** The end of the call, for thread [t], or for an interrupt handler. *)
Definition finish (t : option Z) (c : call) (s : system) : res system :=
  let ps := match t with Some t => <[t := Idle]> (pcs s) | None => pcs s end in
  match c with
  | Getc => '(byte, woken, q) ← take_byte (queue s); ps ← wake woken ps; Ok (System q ps (sent s) (got s ++ [byte]))
  | Putc byte => '(woken, q) ← add_byte byte (queue s); ps ← wake woken ps; Ok (System q ps (sent s ++ [byte]) (got s))
  end.

(** [lock_acquire] when the lock is free, and [wait]. *)
Definition lock_and_wait (t : Z) (c : call) (s : system) : res system :=
  q ← wait (waits_for c) t (set_lock (Some t) (queue s));
  Ok (System q (<[t := Waiting c]> (pcs s)) (sent s) (got s)).

(** The loop of a call, from its test on. *)
Definition loop (t : Z) (c : call) (s : system) : res system :=
  if holds (waits_for c) (queue s) then
    match lock (queue s) with
    | None => lock_and_wait t c s
    | Some _ => Ok (System (queue s) (<[t := Locking c]> (pcs s)) (sent s) (got s))
    end
  else finish (Some t) c s.

(** Thread [t] runs until it blocks or returns; [None] when it is blocked. *)
Definition run_thread (t : Z) (s : system) : option (res system) :=
  match pcs s !! t with
  | Some (Loop c) => Some (loop t c s)
  | Some (Locking c) => match lock (queue s) with None => Some (lock_and_wait t c s) | Some _ => None end
  | Some (Woken c) => Some (loop t c (System (set_lock None (queue s)) (pcs s) (sent s) (got s)))
  | _ => None
  end.

(** A call in an interrupt handler. *)
Definition interrupt (c : call) (s : system) : res system :=
  ASSERT negb (holds (waits_for c) (queue s)) ;; finish None c s.

(** A failed assertion stops the kernel, so there is no step from it. *)
Inductive step : system → system → Prop :=
| step_call t c s :
    pcs s !! t = Some Idle → step s (System (queue s) (<[t := Loop c]> (pcs s)) (sent s) (got s))
| step_run t s s' : run_thread t s = Some (Ok s') → step s s'
| step_interrupt c s s' : interrupt c s = Ok s' → step s s'.

(** ** The contents of a queue *)

(** [n] bytes from position [pos] on. *)
Fixpoint ring (b : list Z) (pos : Z) (n : nat) : list Z :=
  match n with
  | O => []
  | S n => default 0 (b !! Z.to_nat pos) :: ring b (next pos) n
  end.

Definition size (q : intq) : Z := (head q - tail q) mod INTQ_BUFSIZE.

Definition contents (q : intq) : list Z := ring (buf q) (tail q) (Z.to_nat (size q)).

Record intq_wf (q : intq) : Prop := {
  wf_buf : length (buf q) = 64%nat;
  wf_head : 0 ≤ head q < 64;
  wf_tail : 0 ≤ tail q < 64;
}.

Lemma next_range pos : 0 ≤ next pos < 64.
Proof. unfold next, INTQ_BUFSIZE. by apply Z.mod_pos_bound. Qed.

Lemma ring_insert b pos n h v :
  0 ≤ pos < 64 → 0 ≤ h < 64 → (∀ k, 0 ≤ k < Z.of_nat n → (pos + k) mod 64 ≠ h) →
  ring (<[Z.to_nat h := v]> b) pos n = ring b pos n.
Proof.
  revert pos. induction n as [|n IH]; intros pos Hpos Hh Hk; simpl; [done|]. f_equal.
  - rewrite list_lookup_insert_ne; [done|]. intros E. apply (Hk 0); [lia|]. rewrite Z.add_0_r, Z.mod_small by done. lia.
  - apply IH; [apply next_range|done|]. intros k Hk'. specialize (Hk (k + 1) ltac:(lia)). unfold next, INTQ_BUFSIZE.
    rewrite Zplus_mod_idemp_l. by replace (pos + 1 + k) with (pos + (k + 1)) by lia.
Qed.

Lemma ring_snoc b pos n : ring b pos (S n) = ring b pos n ++ [default 0 (b !! Z.to_nat (if n is O then pos else (pos + Z.of_nat n) mod 64))].
Proof.
  revert pos. induction n as [|n IH]; intros pos; [done|].
  change (ring b pos (S (S n))) with (default 0 (b !! Z.to_nat pos) :: ring b (next pos) (S n)). rewrite IH. simpl. f_equal. f_equal.
  do 4 f_equal. unfold next, INTQ_BUFSIZE. destruct n; [by rewrite Z.add_1_r|]. rewrite Zplus_mod_idemp_l. f_equal. lia.
Qed.

Section queue.
Context (q : intq) (Hq : intq_wf q).

Lemma size_range : 0 ≤ size q < 64.
Proof. unfold size, INTQ_BUFSIZE. by apply Z.mod_pos_bound. Qed.

Lemma head_pos : head q = (tail q + size q) mod 64.
Proof using Hq.
  destruct Hq. unfold size, INTQ_BUFSIZE. rewrite Zplus_mod_idemp_r. replace (tail q + (head q - tail q)) with (head q) by lia. by rewrite Z.mod_small.
Qed.

Lemma empty_size : intq_empty q = (size q =? 0).
Proof using Hq.
  destruct Hq. unfold intq_empty, size, INTQ_BUFSIZE. destruct (Z.eqb_spec (head q) (tail q)) as [E|E].
  - by rewrite E, Z.sub_diag.
  - symmetry. apply Z.eqb_neq. intros E'. apply Z.mod_divide in E' as [k Hk]; lia.
Qed.

Lemma full_size : intq_full q = (size q =? 63).
Proof using Hq.
  pose proof head_pos as Hp. pose proof size_range as Hs. destruct Hq. unfold intq_full, next, INTQ_BUFSIZE. rewrite Hp, Zplus_mod_idemp_l.
  destruct (Z.eqb_spec (size q) 63) as [E|E].
  - rewrite E. replace (tail q + 63 + 1) with (tail q + 1 * 64) by lia. rewrite Z.mod_add, Z.mod_small by lia. apply Z.eqb_refl.
  - apply Z.eqb_neq. intros E'. assert ((size q + 1) mod 64 = 0) as E2; [|rewrite Z.mod_small in E2; lia].
    transitivity ((tail q + size q + 1 - tail q) mod 64); [f_equal; lia|]. rewrite Zminus_mod, E', (Z.mod_small (tail q)) by lia. by rewrite Z.sub_diag.
Qed.

Lemma contents_length : length (contents q) = Z.to_nat (size q).
Proof. unfold contents. generalize (tail q). induction (Z.to_nat (size q)) as [|n IH]; intros p; simpl; [done|]. by rewrite IH. Qed.

(** [take_byte] takes the first byte. *)
Lemma take_byte_ok :
  intq_empty q = false →
  ∃ b q', take_byte q = Ok (b, not_full q, q') ∧ contents q = b :: contents q' ∧ intq_wf q' ∧ size q' = size q - 1 ∧
    lock q' = lock q ∧ not_full q' = None ∧ not_empty q' = not_empty q.
Proof using Hq.
  intros He. rewrite empty_size in He. apply Z.eqb_neq in He. pose proof size_range as Hs.
  set (q' := Intq (lock q) None (not_empty q) (buf q) (head q) (next (tail q))).
  assert (size q' = size q - 1) as Hsz.
  { unfold size, q', next, INTQ_BUFSIZE in *. simpl. rewrite Zminus_mod_idemp_r. replace (head q - (tail q + 1)) with (head q - tail q - 1) by lia.
    rewrite Zminus_mod. rewrite (Z.mod_small 1) by lia. rewrite Z.mod_small; lia. }
  destruct Hq as [Hb Hh Ht]. assert (intq_wf q') as Hq' by (split; [done|done|apply next_range]).
  destruct (lookup_lt_is_Some_2 (buf q) (Z.to_nat (tail q))) as [b Hlk]; [lia|]. exists b, q'. unfold take_byte. rewrite Hlk. mstep.
  split_and!; try done.
  - unfold signal. cbn [holds]. change (intq_full _) with (intq_full q'). unfold intq_full. fold (intq_full q').
    assert (intq_full q' = false) as ->; [|done]. unfold intq_full, next, INTQ_BUFSIZE. simpl. apply Z.eqb_neq.
    unfold next, INTQ_BUFSIZE. intros E. apply He. unfold size, INTQ_BUFSIZE.
    assert ((head q + 1 - (tail q + 1)) mod 64 = 0) as E2 by (rewrite Zminus_mod, E, Z.sub_diag; done).
    by replace (head q + 1 - (tail q + 1)) with (head q - tail q) in E2 by lia.
  - unfold contents. rewrite Hsz. replace (Z.to_nat (size q)) with (S (Z.to_nat (size q - 1))) by lia. simpl. by rewrite Hlk.
Qed.

(** [add_byte] puts the byte at the end. *)
Lemma add_byte_ok b :
  intq_full q = false →
  ∃ q', add_byte b q = Ok (not_empty q, q') ∧ contents q' = contents q ++ [b] ∧ intq_wf q' ∧ size q' = size q + 1 ∧
    lock q' = lock q ∧ not_full q' = not_full q ∧ not_empty q' = None.
Proof using Hq.
  intros Hf. rewrite full_size in Hf. apply Z.eqb_neq in Hf. pose proof size_range as Hs. pose proof head_pos as Hp.
  set (q' := Intq (lock q) (not_full q) None (<[Z.to_nat (head q) := b]> (buf q)) (next (head q)) (tail q)).
  assert (size q' = size q + 1) as Hsz.
  { unfold size, q', next, INTQ_BUFSIZE in *. simpl. rewrite Zminus_mod_idemp_l. replace (head q + 1 - tail q) with (head q - tail q + 1) by lia.
    rewrite Zplus_mod. rewrite (Z.mod_small 1) by lia. rewrite Z.mod_small; lia. }
  destruct Hq as [Hb Hh Ht]. assert (intq_wf q') as Hq' by (split; [simpl; by rewrite length_insert|apply next_range|done]).
  exists q'. unfold add_byte, signal. split_and!; try done.
  - cbn [holds]. assert (intq_empty q' = false) as E.
    { unfold intq_empty, q', next, INTQ_BUFSIZE. simpl. apply Z.eqb_neq. intros E. apply Hf. unfold size, INTQ_BUFSIZE.
      replace (head q - tail q) with (head q + 1 - tail q + - 1) by lia. rewrite Zplus_mod, Zminus_mod, E, (Z.mod_small (tail q)), Z.sub_diag by lia. done. }
    unfold intq_empty in *. simpl in *. by rewrite E.
  - unfold contents. rewrite Hsz. replace (Z.to_nat (size q + 1)) with (S (Z.to_nat (size q))) by lia. rewrite ring_snoc. simpl. f_equal.
    + apply ring_insert; [done|done|]. intros k Hk. rewrite Hp. intros E. assert ((size q - k) mod 64 = 0) as E2.
      { replace (size q - k) with (tail q + size q - (tail q + k)) by lia. rewrite Zminus_mod, E, Z.sub_diag. done. }
      rewrite Z.mod_small in E2; lia.
    + f_equal. assert ((if Z.to_nat (size q) is O then tail q else (tail q + Z.of_nat (Z.to_nat (size q))) mod 64) = head q) as ->.
      { rewrite Hp. destruct (Z.to_nat (size q)) eqn:En; [|f_equal; lia]. replace (size q) with 0 by lia. by rewrite Z.add_0_r, Z.mod_small. }
      rewrite list_lookup_insert_eq by lia. done.
Qed.

End queue.

(** ** The invariant *)

Record intq_inv (s : system) : Prop := {
  qi_wf : intq_wf (queue s);
  qi_fifo : sent s = got s ++ contents (queue s);
  qi_waiter : ∀ w t, get_waiter w (queue s) = Some t ↔ ∃ c, pcs s !! t = Some (Waiting c) ∧ waits_for c = w;
  qi_lock : ∀ t, lock (queue s) = Some t ↔ ∃ c, pcs s !! t = Some (Waiting c) ∨ pcs s !! t = Some (Woken c);
  qi_cond : ∀ t c, pcs s !! t = Some (Waiting c) → holds (waits_for c) (queue s) = true;
}.

Lemma waiting_one s t t' c c' :
  intq_inv s → pcs s !! t = Some (Waiting c) → pcs s !! t' = Some (Waiting c') → t = t'.
Proof.
  intros Hi H1 H2. assert (lock (queue s) = Some t) as E1 by (apply (qi_lock _ Hi); eauto).
  assert (lock (queue s) = Some t') as E2 by (apply (qi_lock _ Hi); eauto). congruence.
Qed.

(** A thread that is neither waiting nor woken moves to another such place. *)
Definition outside (p : pc) : Prop := match p with Waiting _ | Woken _ => False | _ => True end.

Lemma move_ok s t p p' :
  intq_inv s → pcs s !! t = Some p → outside p → outside p' →
  intq_inv (System (queue s) (<[t := p']> (pcs s)) (sent s) (got s)).
Proof.
  intros [] Hp Ho Ho'. assert (∀ t' p1, ¬ outside p1 → (<[t := p']> (pcs s) : gmap Z pc) !! t' = Some p1 ↔ pcs s !! t' = Some p1) as E.
  { intros t' p1 Hp1. rewrite lookup_insert_Some. split; [naive_solver|]. intros H1. right. split; [|done]. intros <-. congruence. }
  split; simpl; try done.
  - intros w t'. rewrite qi_waiter0. by setoid_rewrite E; [|tauto].
  - intros t'. rewrite qi_lock0. by setoid_rewrite E; [|tauto..].
  - intros t' c. rewrite E by tauto. apply qi_cond0.
Qed.

(** The thread that a call wakes up. *)
Definition wakes (c : call) : waiter := match c with Getc => NotFull | Putc _ => NotEmpty end.

Lemma finish_shape t c s :
  intq_inv s → holds (waits_for c) (queue s) = false →
  ∃ q sn gt, finish t c s = (ps ← wake (get_waiter (wakes c) (queue s)) (match t with Some t => <[t := Idle]> (pcs s) | None => pcs s end); Ok (System q ps sn gt)) ∧
    intq_wf q ∧ sn = gt ++ contents q ∧ lock q = lock (queue s) ∧ get_waiter (wakes c) q = None ∧
    get_waiter (waits_for c) q = get_waiter (waits_for c) (queue s).
Proof.
  intros [] Hh. destruct c as [|b]; simpl in Hh.
  - destruct (take_byte_ok _ qi_wf0 Hh) as (b & q & E & Hc & Hw & _ & Hl & Hf & He). unfold finish. rewrite E. mstep.
    do 3 eexists. split; [done|]. split_and!; try done. rewrite qi_fifo0, Hc. by rewrite <-app_assoc.
  - destruct (add_byte_ok _ qi_wf0 b Hh) as (q & E & Hc & Hw & _ & Hl & Hf & He). unfold finish. rewrite E. mstep.
    do 3 eexists. split; [done|]. split_and!; try done. rewrite qi_fifo0, Hc. by rewrite app_assoc.
Qed.

Lemma finish_ok t c s :
  intq_inv s → holds (waits_for c) (queue s) = false → (∀ t0, t = Some t0 → ∃ p, pcs s !! t0 = Some p ∧ outside p) →
  ∃ s', finish t c s = Ok s' ∧ intq_inv s'.
Proof.
  intros Hi Hh Ht. destruct (finish_shape t c s Hi Hh) as (q & sn & gt & -> & Hwf & Hf & Hl & Hw1 & Hw2).
  set (ps := match t with Some t => <[t := Idle]> (pcs s) | None => pcs s end).
  assert (∀ t' p, ¬ outside p → ps !! t' = Some p ↔ pcs s !! t' = Some p) as Eps.
  { intros t' p Hp. unfold ps. destruct t as [t0|]; [|done]. destruct (Ht t0 eq_refl) as (p0 & Hp0 & Ho). rewrite lookup_insert_Some.
    split; [naive_solver|]. intros H1. right. split; [|done]. intros <-. congruence. }
  pose proof Hi as [_ _ Hwt Hlk Hcd].
  assert (∀ t' c', pcs s !! t' = Some (Waiting c') → waits_for c' = wakes c) as Honly.
  { intros t' c' Hw. pose proof (Hcd t' c' Hw) as Hc'. destruct c, c'; simpl in *; try done; congruence. }
  destruct (get_waiter (wakes c) (queue s)) as [tw|] eqn:Ew.
  - apply Hwt in Ew as (cw & Hcw & Ewc). unfold wake. rewrite (proj2 (Eps tw (Waiting cw) ltac:(tauto)) Hcw). mstep. eexists. split; [done|].
    assert (∀ t' c', <[tw := Woken cw]> ps !! t' ≠ Some (Waiting c')) as Hno.
    { intros t' c' [[_ [=]]|[Hne Hw]]%lookup_insert_Some. apply Eps in Hw; [|tauto]. apply Hne. by eapply waiting_one. }
    split; simpl; try done.
    + intros w t'. split; [|by intros (c' & ?%Hno & _)]. intros Hg. assert (waits_for c ≠ wakes c) as Hd by (by destruct c).
      assert (w = wakes c ∨ w = waits_for c) as [->| ->] by (destruct w, c; auto); [congruence|]. rewrite Hw2 in Hg.
      apply Hwt in Hg as (c' & Hc' & E'). rewrite (Honly _ _ Hc') in E'. congruence.
    + intros t'. rewrite Hl, Hlk. split; intros [c' Hc'].
      * destruct (decide (t' = tw)) as [->|Hne]; [exists cw; right; apply lookup_insert_eq|].
        exists c'. rewrite lookup_insert_ne by done. by rewrite !Eps by tauto.
      * destruct Hc' as [?%Hno|Hw]; [done|]. apply lookup_insert_Some in Hw as [[<- [= <-]]|[_ Hw]]; [by eauto|]. apply Eps in Hw; [|tauto]. eauto.
    + by intros t' c' ?%Hno.
  - unfold wake. mstep. eexists. split; [done|]. assert (∀ t' c', ps !! t' ≠ Some (Waiting c')) as Hno.
    { intros t' c' Hw. apply Eps in Hw; [|tauto]. pose proof (Honly _ _ Hw) as E. assert (get_waiter (wakes c) (queue s) = Some t') by (apply Hwt; eauto). congruence. }
    split; simpl; try done.
    + intros w t'. split; [|by intros (c' & ?%Hno & _)]. intros Hg.
      assert (w = wakes c ∨ w = waits_for c) as [->| ->] by (destruct w, c; auto); [congruence|]. rewrite Hw2 in Hg.
      apply Hwt in Hg as (c' & Hc' & E'). apply (proj2 (Eps t' (Waiting c') ltac:(tauto))) in Hc'. by apply Hno in Hc'.
    + intros t'. rewrite Hl, Hlk. by setoid_rewrite Eps; [|tauto..].
    + by intros t' c' ?%Hno.
Qed.

Lemma lock_and_wait_ok t c s p :
  intq_inv s → pcs s !! t = Some p → outside p → lock (queue s) = None → holds (waits_for c) (queue s) = true →
  ∃ s', lock_and_wait t c s = Ok s' ∧ intq_inv s'.
Proof.
  intros Hi Hp Ho Hl Hh. pose proof Hi as [Hwf Hf Hwt Hlk Hcd].
  assert (∀ t' c', pcs s !! t' ≠ Some (Waiting c') ∧ pcs s !! t' ≠ Some (Woken c')) as Hno.
  { intros t' c'. split; intros Hw; assert (lock (queue s) = Some t') by (apply Hlk; eauto); congruence. }
  assert (∀ w, get_waiter w (queue s) = None) as Hnw.
  { intros w. destruct (get_waiter w (queue s)) as [t'|] eqn:E; [|done]. apply Hwt in E as (c' & Hw & _). by apply Hno in Hw. }
  assert (holds (waits_for c) (set_lock (Some t) (queue s)) = true) as Hh' by (by destruct c).
  unfold lock_and_wait, wait. rewrite Hh'. mstep. eexists. split; [done|].
  assert (∀ t' c', <[t := Waiting c]> (pcs s) !! t' = Some (Waiting c') ↔ t' = t ∧ c' = c) as Hins.
  { intros t' c'. rewrite lookup_insert_Some. pose proof (proj1 (Hno t' c')). naive_solver. }
  split; simpl.
  - destruct Hwf. by destruct c.
  - rewrite Hf. by destruct c.
  - intros w t'. setoid_rewrite Hins. split.
    + intros E. exists c. pose proof (Hnw NotFull). pose proof (Hnw NotEmpty). destruct c, w; simpl in *; naive_solver.
    + intros (c' & [-> ->] & <-). by destruct c.
  - intros t'. assert (lock (set_waiter (waits_for c) (Some t) (set_lock (Some t) (queue s))) = Some t) as -> by (by destruct c). split.
    + intros [= <-]. exists c. left. apply lookup_insert_eq.
    + intros [c' [[-> _]%Hins|Hw]]; [done|]. apply lookup_insert_Some in Hw as [[_ [=]]|[_ Hw]]. by apply Hno in Hw.
  - intros t' c' [-> ->]%Hins. rewrite <-Hh. by destruct c.
Qed.

Lemma loop_ok t c s p :
  intq_inv s → pcs s !! t = Some p → outside p → ∃ s', loop t c s = Ok s' ∧ intq_inv s'.
Proof.
  intros Hi Hp Ho. unfold loop. destruct (holds (waits_for c) (queue s)) eqn:Hh.
  - destruct (lock (queue s)) eqn:Hl; [|by eapply lock_and_wait_ok]. eexists. split; [done|]. by eapply move_ok.
  - apply finish_ok; try done. intros t0 [= <-]. by exists p.
Qed.

Lemma loop_pcs t c q ps sn gt p : loop t c (System q (<[t := p]> ps) sn gt) = loop t c (System q ps sn gt).
Proof.
  unfold loop, lock_and_wait, finish. cbn [queue pcs sent got]. by rewrite !insert_insert_eq.
Qed.

(** [lock_release] of a thread that was woken. *)
Lemma release_ok s t c :
  intq_inv s → pcs s !! t = Some (Woken c) →
  intq_inv (System (set_lock None (queue s)) (<[t := Loop c]> (pcs s)) (sent s) (got s)).
Proof.
  intros Hi Ht. pose proof Hi as [[] Hf Hwt Hlk Hcd]. assert (lock (queue s) = Some t) as Hl by (apply Hlk; eauto).
  assert (∀ t' c', <[t := Loop c]> (pcs s) !! t' ≠ Some (Waiting c') ∧ <[t := Loop c]> (pcs s) !! t' ≠ Some (Woken c')) as Hno.
  { intros t' c'. split; intros [[_ [=]]|[Hne Hw]]%lookup_insert_Some; apply Hne; assert (lock (queue s) = Some t') by (apply Hlk; eauto); congruence. }
  split; simpl; try done.
  - intros w t'. split; [|intros (c' & Hw & _); by apply Hno in Hw]. intros Hg.
    assert (get_waiter w (queue s) = Some t') as Hg' by (by destruct w). apply Hwt in Hg' as (c' & Hw & E).
    assert (lock (queue s) = Some t') by (apply Hlk; eauto). congruence.
  - intros t'. split; [done|]. intros (c' & [Hw|Hw]); by apply Hno in Hw.
  - intros t' c' Hw. by apply Hno in Hw.
Qed.

Lemma intq_step_inv s s' : step s s' → intq_inv s → intq_inv s'.
Proof.
  intros Hs Hi. destruct Hs as [t c s Ht|t s s' Hr|c s s' Hr].
  - by eapply move_ok.
  - unfold run_thread in Hr. destruct (pcs s !! t) as [[|c|c|c|c]|] eqn:Ht; try done; simpl in Hr.
    + injection Hr as Hr. destruct (loop_ok t c s _ Hi Ht I) as (s1 & E & ?). rewrite Hr in E. by injection E as <-.
    + destruct (lock (queue s)) eqn:Hl; [done|]. injection Hr as Hr. destruct (holds (waits_for c) (queue s)) eqn:Hh.
      * destruct (lock_and_wait_ok t c s _ Hi Ht I Hl Hh) as (s1 & E & ?). rewrite Hr in E. by injection E as <-.
      * unfold lock_and_wait, wait in Hr. assert (holds (waits_for c) (set_lock (Some t) (queue s)) = false) as E by (by destruct c). by rewrite E in Hr.
    + injection Hr as Hr. pose proof (release_ok s t c Hi Ht) as Hi1. destruct (loop_ok t c _ _ Hi1 (lookup_insert_eq _ _ _) I) as (s1 & E & ?).
      rewrite loop_pcs, Hr in E. by injection E as <-.
  - unfold interrupt in Hr. destruct (holds (waits_for c) (queue s)) eqn:Hh; [done|]. simpl in Hr.
    destruct (finish_ok None c s Hi Hh) as (s1 & E & ?); [done|]. rewrite Hr in E. by injection E as <-.
Qed.

(** ** Reachable states *)

Definition initial (b : list Z) (ps : gmap Z pc) : system := System (intq_init b) ps [] [].

Lemma initial_inv b ps :
  length b = 64%nat → (∀ t p, ps !! t = Some p → p = Idle) → intq_inv (initial b ps).
Proof.
  intros Hb Hp. assert (∀ t p, p ≠ Idle → ps !! t ≠ Some p) as Hno by (intros t p Hp' E; by apply Hp in E).
  split; simpl; try done.
  - intros w t. split; [by destruct w|]. intros (c & ?%Hno & _); done.
  - intros t. split; [done|]. intros (c & [?%Hno|?%Hno]); done.
  - intros t c ?%Hno; done.
Qed.

Lemma reachable_inv b ps s :
  length b = 64%nat → (∀ t p, ps !! t = Some p → p = Idle) → rtc step (initial b ps) s → intq_inv s.
Proof.
  intros Hb Hp Hrun. apply (rtc_ind_r (R := step) intq_inv (initial b ps)); [by apply initial_inv| |done].
  intros x y _ Hs Hx. by apply (intq_step_inv x).
Qed.

(** With one thread, nobody ever waits for the lock. *)
Definition alone (t : Z) (s : system) : Prop := ∃ p, pcs s = {[ t := p ]} ∧ ∀ c, p ≠ Locking c.

Lemma wake_alone t w p ps : (∀ c, p ≠ Locking c) → wake w ({[ t := p ]} : gmap Z pc) = Ok ps → ∃ p', ps = {[ t := p' ]} ∧ ∀ c, p' ≠ Locking c.
Proof.
  intros Hp. destruct w as [t'|]; simpl; [|by intros [= <-]; eauto]. destruct (({[ t := p ]} : gmap Z pc) !! t') as [p'|] eqn:E; [|done].
  apply lookup_singleton_Some in E as [<- <-]. destruct p as [|c|c|c|c]; try done. intros [= <-]. exists (Woken c). by rewrite insert_singleton_eq.
Qed.

Lemma finish_alone t o c s s' p :
  pcs s = {[ t := p ]} → (∀ c, p ≠ Locking c) → o = Some t ∨ o = None → finish o c s = Ok s' → alone t s'.
Proof.
  intros Hp Hnl Ho E. unfold finish in E. rewrite Hp in E.
  assert (∃ p1, match o with Some t0 => <[t0 := Idle]> {[ t := p ]} | None => {[ t := p ]} end = ({[ t := p1 ]} : gmap Z pc) ∧ ∀ c, p1 ≠ Locking c) as (p1 & E1 & Hn1).
  { destruct Ho as [-> | ->]; [exists Idle; by rewrite insert_singleton_eq|by exists p]. }
  rewrite E1 in E. destruct c.
  - apply res_bind_Ok in E as ([[b w] q] & _ & (ps & Hw & [= <-])%res_bind_Ok). exact (wake_alone t w p1 ps Hn1 Hw).
  - apply res_bind_Ok in E as ([w q] & _ & (ps & Hw & [= <-])%res_bind_Ok). exact (wake_alone t w p1 ps Hn1 Hw).
Qed.

Lemma loop_alone t c q ps sn gt s' p :
  ps = {[ t := p ]} → (∀ c, p ≠ Locking c) → lock q = None → loop t c (System q ps sn gt) = Ok s' → alone t s'.
Proof.
  intros Hp Hnl Hl E. unfold loop in E. cbn [queue] in E. destruct (holds (waits_for c) q).
  - rewrite Hl in E. unfold lock_and_wait in E. apply res_bind_Ok in E as (q' & _ & [= <-]). exists (Waiting c). cbn [pcs]. by rewrite Hp, insert_singleton_eq.
  - by apply (finish_alone t (Some t) c (System q ps sn gt) s' p Hp Hnl (or_introl eq_refl)).
Qed.

Lemma step_alone t s s' : intq_inv s → alone t s → step s s' → alone t s'.
Proof.
  intros Hi (p & Hp & Hnl) Hs. destruct Hs as [t' c s Ht|t' s s' Hr|c s s' Hr].
  - rewrite Hp in Ht. apply lookup_singleton_Some in Ht as [<- ->]. exists (Loop c). cbn [pcs]. by rewrite Hp, insert_singleton_eq.
  - unfold run_thread in Hr. destruct (pcs s !! t') as [p'|] eqn:Ht; [|done]. pose proof Ht as Ht'. rewrite Hp in Ht'.
    apply lookup_singleton_Some in Ht' as [<- <-]. destruct p as [|c|c|c|c]; try done.
    + injection Hr as Hr. destruct (lock (queue s)) as [t2|] eqn:Hl.
      * apply (qi_lock _ Hi) in Hl as (c2 & Hc2). rewrite Hp in Hc2. destruct Hc2 as [Hc2|Hc2]; by apply lookup_singleton_Some in Hc2 as [_ ?].
      * destruct s as [q ps sn gt]. exact (loop_alone t c q ps sn gt s' _ Hp Hnl Hl Hr).
    + by destruct (Hnl c).
    + injection Hr as Hr. exact (loop_alone t c (set_lock None (queue s)) _ _ _ s' _ Hp Hnl eq_refl Hr).
  - unfold interrupt in Hr. destruct (negb _); [|done]. by apply (finish_alone t None c _ s' p Hp Hnl (or_intror eq_refl)).
Qed.

Lemma one_thread_inv b t s :
  length b = 64%nat → rtc step (initial b {[ t := Idle ]}) s → intq_inv s ∧ alone t s.
Proof.
  intros Hb Hrun. assert (∀ t' p, ({[ t := Idle ]} : gmap Z pc) !! t' = Some p → p = Idle) as Hid by (by intros t' p [_ <-]%lookup_singleton_Some).
  apply (rtc_ind_r (R := step) (λ x, intq_inv x ∧ alone t x) (initial b {[ t := Idle ]})); [split; [by apply initial_inv|by exists Idle]| |done].
  intros x y _ Hs [Hx Ha]. split; [by apply (intq_step_inv x)|by apply (step_alone t x)].
Qed.

(** Thread [t] gets the lock that it has been waiting for when there is nothing to wait for any
    more; the code does not test its condition again. *)
Definition overtaken (t : Z) (s : system) : Prop :=
  ∃ c, pcs s !! t = Some (Locking c) ∧ holds (waits_for c) (queue s) = false.

Lemma run_thread_ok s t r :
  intq_inv s → run_thread t s = Some r → (overtaken t s ∧ r = Fault AssertFail) ∨ (¬ overtaken t s ∧ ∃ s', r = Ok s').
Proof.
  intros Hi. unfold run_thread, overtaken. destruct (pcs s !! t) as [[|c|c|c|c]|] eqn:Ht; try done.
  - intros [= <-]. right. split; [by intros (? & [=] & _)|]. destruct (loop_ok t c s _ Hi Ht I) as (s' & E & _). by exists s'.
  - destruct (lock (queue s)) eqn:Hl; [done|]. intros [= <-]. destruct (holds (waits_for c) (queue s)) eqn:Hh.
    + right. split; [intros (? & [= <-] & ?); congruence|]. destruct (lock_and_wait_ok t c s _ Hi Ht I Hl Hh) as (s1 & E & _). by exists s1.
    + left. split; [by exists c|]. unfold lock_and_wait, wait. assert (holds (waits_for c) (set_lock (Some t) (queue s)) = false) as -> by (by destruct c). done.
  - intros [= <-]. right. split; [by intros (? & [=] & _)|]. pose proof (release_ok s t c Hi Ht) as Hi1.
    destruct (loop_ok t c _ _ Hi1 (lookup_insert_eq _ _ _) I) as (s1 & E & _). rewrite loop_pcs in E. by exists s1.
Qed.

(** C32. Whatever threads and interrupt handlers use an interrupt queue, up to the first failed
    assertion, the bytes come out in the order they went in and none is lost or duplicated: what
    was put in is what was got followed by what the queue holds, at most 63 bytes. A thread blocked
    in [wait] is there only while the queue is empty (for intq_getc) or full (for intq_putc); one
    that is blocked in [lock_acquire] behind it may be so for no reason. A call in an interrupt
    handler that need not wait returns. A thread that can run goes on, except that one that gets
    the lock after its condition has gone fails the assertion in [wait], which stops the kernel;
    with a single thread this does not happen. *)
Theorem intq_fifo b ps s :
  length b = 64%nat → (∀ t p, ps !! t = Some p → p = Idle) → rtc step (initial b ps) s →
  sent s = got s ++ contents (queue s) ∧ (length (contents (queue s)) ≤ 63)%nat ∧
  (∀ t c, pcs s !! t = Some (Waiting c) → holds (waits_for c) (queue s) = true) ∧
  (∀ c, holds (waits_for c) (queue s) = false → ∃ s', interrupt c s = Ok s') ∧
  (∀ t r, run_thread t s = Some r → (overtaken t s ∧ r = Fault AssertFail) ∨ (¬ overtaken t s ∧ ∃ s', r = Ok s')) ∧
  (∀ t, ps = {[ t := Idle ]} → ¬ overtaken t s).
Proof.
  intros Hb Hp Hrun. pose proof (reachable_inv b ps s Hb Hp Hrun) as Hi. pose proof Hi as [Hwf Hf _ _ Hcd].
  split_and!; try done.
  - rewrite contents_length. pose proof (size_range (queue s)). lia.
  - intros c Hh. unfold interrupt. rewrite Hh. destruct (finish_ok None c s Hi Hh) as (s' & E & _); [done|]. by exists s'.
  - intros t r. by apply run_thread_ok.
  - intros t ->. destruct (one_thread_inv b t s Hb Hrun) as (_ & p & Ep & Hnl). intros (c & Hc & _). rewrite Ep, lookup_singleton_eq in Hc.
    injection Hc as ->. by destruct (Hnl c).
Qed.

(** A thread, and bytes from an interrupt handler. *)
Definition demo_queue : system := initial (replicate 64 0) {[ 1 := Idle; 2 := Idle ]}.

Definition get_sys (s : system) (r : option (res system)) : system :=
  match r with Some (Ok s') => s' | _ => s end.

(** Threads 1 and 2 call [intq_getc] on the empty queue: 1 waits with the lock, 2 waits
    for the lock. *)
Definition demo_q1 : system := System (queue demo_queue) (<[1 := Loop Getc]> (pcs demo_queue)) [] [].
Definition demo_q2 : system := get_sys demo_q1 (run_thread 1 demo_q1).
Definition demo_q3 : system := System (queue demo_q2) (<[2 := Loop Getc]> (pcs demo_q2)) (sent demo_q2) (got demo_q2).
Definition demo_q4 : system := get_sys demo_q3 (run_thread 2 demo_q3).
(** An interrupt handler puts two bytes in, and 1 takes the first. *)
Definition demo_q5 : system := get_sys demo_q4 (Some (interrupt (Putc 10) demo_q4)).
Definition demo_q6 : system := get_sys demo_q5 (Some (interrupt (Putc 11) demo_q5)).
Definition demo_q7 : system := get_sys demo_q6 (run_thread 1 demo_q6).

Lemma demo_queue_run : rtc step demo_queue demo_q7.
Proof.
  eapply rtc_l; [apply (step_call 1 Getc demo_queue); reflexivity|].
  eapply rtc_l; [apply (step_run 1 demo_q1 demo_q2); vm_compute; reflexivity|].
  eapply rtc_l; [apply (step_call 2 Getc demo_q2); reflexivity|].
  eapply rtc_l; [apply (step_run 2 demo_q3 demo_q4); vm_compute; reflexivity|].
  eapply rtc_l; [apply (step_interrupt (Putc 10) demo_q4 demo_q5); vm_compute; reflexivity|].
  eapply rtc_l; [apply (step_interrupt (Putc 11) demo_q5 demo_q6); vm_compute; reflexivity|].
  apply rtc_once. apply (step_run 1 demo_q6 demo_q7); vm_compute; reflexivity.
Qed.

Lemma demo_idle t p : ({[ 1 := Idle; 2 := Idle ]} : gmap Z pc) !! t = Some p → p = Idle.
Proof. rewrite lookup_insert_Some, lookup_singleton_Some. naive_solver. Qed.

Lemma demo_overtaken : run_thread 2 demo_q7 = Some (Fault AssertFail).
Proof. vm_compute. reflexivity. Qed.

(** Of two threads in intq_getc the second one has been overtaken. *)
Lemma intq_fifo_witness :
  sent demo_q7 = got demo_q7 ++ contents (queue demo_q7) ∧ contents (queue demo_q7) = [11] ∧ overtaken 2 demo_q7.
Proof.
  destruct (intq_fifo (replicate 64 0) {[ 1 := Idle; 2 := Idle ]} demo_q7 eq_refl demo_idle demo_queue_run) as (Hf & _ & _ & _ & Hr & _).
  split; [exact Hf|]. split; [vm_compute; reflexivity|]. by destruct (Hr 2 _ demo_overtaken) as [[Ho _]|[_ [s' [=]]]].
Defined.
