(* ===== verification/Stdio.v ===== *)
(** Formatted output (src/lib/stdio.c) and [atoi] (src/lib/stdlib.c).

    A string is the list of its bytes without the null byte; a pointer into it is
    what is left of it, and reading at the end gives the null byte.  Arguments are
    values tagged with the type that [va_arg] has to ask for, since asking for
    another one is undefined.  The functions take the output function and its
    auxiliary data as the code does; output can fault. *)

From Stdlib Require Import Ascii String.
From S2P Require Import Prelude.

(** ** Characters *)

Definition ch (a : ascii) : Z := Z.of_N (N_of_ascii a).
Fixpoint bytes (s : string) : list Z :=
  match s with EmptyString => [] | String a s => ch a :: bytes s end.

Definition isdigit (c : Z) : bool := (ch "0" <=? c) && (c <=? ch "9").
Definition isspace (c : Z) : bool :=
  (c =? 32) || (c =? 12) || (c =? 10) || (c =? 13) || (c =? 9) || (c =? 11).
Definition isprint (c : Z) : bool := (32 <=? c) && (c <? 127).

(** [*s], [s++]. *)
Definition cur (s : list Z) : Z := match s with [] => 0 | c :: _ => c end.
Definition advance (s : list Z) : res (list Z) := match s with [] => Fault BadAccess | _ :: s => Ok s end.

(** ** Arguments *)

(** A 32-bit or a 64-bit integer, as an unsigned word, or a string. *)
Inductive arg := AInt (x : Z) | AInt64 (x : Z) | AStr (s : option (list Z)).

Definition va_int (args : list arg) : res (Z * list arg) :=
  match args with AInt x :: args => Ok (x, args) | _ => Fault BadAccess end.
Definition va_int64 (args : list arg) : res (Z * list arg) :=
  match args with AInt64 x :: args => Ok (x, args) | _ => Fault BadAccess end.
Definition va_str (args : list arg) : res (option (list Z) * list arg) :=
  match args with AStr s :: args => Ok (s, args) | _ => Fault BadAccess end.

(** ** Conversions *)

Definition MINUS : Z := 1.
Definition PLUS : Z := 2.
Definition SPACE : Z := 4.
Definition POUND : Z := 8.
Definition ZERO : Z := 16.
Definition GROUP : Z := 32.

Inductive arg_type := CHAR | SHORT | INT | INTMAX | LONG | LONGLONG | PTRDIFFT | SIZET.

Record printf_conversion := Conv { flags : Z; width : Z; precision : Z; type : arg_type }.

Definition flag (fl f : Z) : bool := negb (Z.land fl f =? 0).

Record integer_base := Base { base : Z; digits : list Z; x : Z; group : Z }.

Definition base_d : integer_base := Base 10 (bytes "0123456789") 0 3.
Definition base_o : integer_base := Base 8 (bytes "01234567") 0 3.
Definition base_x : integer_base := Base 16 (bytes "0123456789abcdef") (ch "x") 4.
Definition base_X : integer_base := Base 16 (bytes "0123456789ABCDEF") (ch "X") 4.

(** *** Parsing *)

Fixpoint parse_flags (f : list Z) (fl : Z) : Z * list Z :=
  match f with
  | [] => (fl, f)
  | c :: f' =>
      if c =? ch "-" then parse_flags f' (Z.lor fl MINUS)
      else if c =? ch "+" then parse_flags f' (Z.lor fl PLUS)
      else if c =? ch " " then parse_flags f' (Z.lor fl SPACE)
      else if c =? ch "#" then parse_flags f' (Z.lor fl POUND)
      else if c =? ch "0" then parse_flags f' (Z.lor fl ZERO)
      else if c =? ch "'" then parse_flags f' (Z.lor fl GROUP)
      else (fl, f)
  end.

(** [for (; isdigit ( *format); format++) n = n * 10 + *format - '0';] *)
Fixpoint parse_number (f : list Z) (n : Z) : Z * list Z :=
  match f with
  | [] => (n, f)
  | c :: f' => if isdigit c then parse_number f' (s32 (n * 10 + c - ch "0")) else (n, f)
  end.

Definition parse_width (f : list Z) (args : list arg) : res (Z * list Z * list arg) :=
  if cur f =? ch "*" then
    f ← advance f; '(w, args) ← va_int args; Ok (s32 w, f, args)
  else let '(n, f) := parse_number f 0 in Ok (n, f, args).

Definition parse_precision (f : list Z) (args : list arg) : res (Z * list Z * list arg) :=
  if cur f =? ch "." then
    f ← advance f;
    '(p, f, args) ← (if cur f =? ch "*" then
      f ← advance f; '(p, args) ← va_int args; Ok (s32 p, f, args)
    else let '(n, f) := parse_number f 0 in Ok (n, f, args));
    Ok (if p <? 0 then -1 else p, f, args)
  else Ok (-1, f, args).

Definition parse_type (f : list Z) : res (arg_type * list Z) :=
  if cur f =? ch "h" then
    f ← advance f;
    if cur f =? ch "h" then f ← advance f; Ok (CHAR, f) else Ok (SHORT, f)
  else if cur f =? ch "j" then f ← advance f; Ok (INTMAX, f)
  else if cur f =? ch "l" then
    f ← advance f;
    if cur f =? ch "l" then f ← advance f; Ok (LONGLONG, f) else Ok (LONG, f)
  else if cur f =? ch "t" then f ← advance f; Ok (PTRDIFFT, f)
  else if cur f =? ch "z" then f ← advance f; Ok (SIZET, f)
  else Ok (INT, f).

Definition without_flag (fl f : Z) : Z := Z.ldiff fl f.

Definition parse_conversion (f : list Z) (args : list arg) : res (printf_conversion * list Z * list arg) :=
  let '(fl, f) := parse_flags f 0 in
  let fl := if flag fl MINUS then without_flag fl ZERO else fl in
  let fl := if flag fl PLUS then without_flag fl SPACE else fl in
  '(w, f, args) ← parse_width f args;
  let '(w, fl) := if w <? 0 then (s32 (- w), Z.lor fl MINUS) else (w, fl) in
  '(p, f, args) ← parse_precision f args;
  let fl := if 0 <=? p then without_flag fl ZERO else fl in
  '(ty, f) ← parse_type f;
  Ok (Conv fl w p ty, f, args).

(** *** Integers *)

(** [*cp++ = c] in the buffer of 64 bytes. *)
Definition push (buf : list Z) (c : Z) : res (list Z) :=
  if (length buf <? 64)%nat then Ok (buf ++ [c]) else Fault BadAccess.

(** The digits of [value], the last one first. *)
Fixpoint digits_loop (fuel : nat) (value digit_cnt : Z) (b : integer_base) (fl : Z) (buf : list Z) : res (list Z) :=
  match fuel with
  | O => Timeout
  | S fuel =>
      if 0 <? value then
        buf ← (if flag fl GROUP && (0 <? digit_cnt) && (digit_cnt mod group b =? 0) then push buf (ch ",") else Ok buf);
        d ← deref (digits b !! Z.to_nat (value mod base b));
        buf ← push buf d;
        digits_loop fuel (value / base b) (digit_cnt + 1) b fl buf
      else Ok buf
  end.

(** [while (cp - buf < precision && cp < buf + sizeof buf - 1) *cp++ = '0';] *)
Fixpoint zeros_loop (fuel : nat) (prec : Z) (buf : list Z) : res (list Z) :=
  match fuel with
  | O => Timeout
  | S fuel =>
      if (Z.of_nat (length buf) <? prec) && (Z.of_nat (length buf) <? 63) then
        buf ← push buf (ch "0"); zeros_loop fuel prec buf
      else Ok buf
  end.

Section output.
Context {A : Type} (output : Z → A → res A).

Fixpoint output_dup (c : Z) (cnt : nat) (aux : A) : res A :=
  match cnt with
  | O => Ok aux
  | S cnt => aux ← output c aux; output_dup c cnt aux
  end.

(** [output] of each of these characters. *)
Fixpoint output_all (l : list Z) (aux : A) : res A :=
  match l with
  | [] => Ok aux
  | c :: l => aux ← output c aux; output_all l aux
  end.

Definition sign_char (is_signed negative : bool) (fl : Z) : Z :=
  if is_signed then
    if flag fl PLUS then (if negative then ch "-" else ch "+")
    else if flag fl SPACE then (if negative then ch "-" else ch " ")
    else if negative then ch "-" else 0
  else 0.

Definition format_integer (value : Z) (is_signed negative : bool) (b : integer_base) (c : printf_conversion) (aux : A) : res A :=
  let sign := sign_char is_signed negative (flags c) in
  let x := if flag (flags c) POUND && negb (value =? 0) then x b else 0 in
  buf ← digits_loop 64 value 0 b (flags c) [];
  let prec := if precision c <? 0 then 1 else precision c in
  buf ← zeros_loop 64 prec buf;
  buf ← (if flag (flags c) POUND && (base b =? 8) && (match last buf with None => true | Some d => negb (d =? ch "0") end)
         then push buf (ch "0") else Ok buf);
  let pad_cnt := s32 (width c - Z.of_nat (length buf) - (if x =? 0 then 0 else 2) - (if sign =? 0 then 0 else 1)) in
  let pad_cnt := if pad_cnt <? 0 then 0 else pad_cnt in
  aux ← (if negb (flag (flags c) (Z.lor MINUS ZERO)) then output_dup (ch " ") (Z.to_nat pad_cnt) aux else Ok aux);
  aux ← (if negb (sign =? 0) then output sign aux else Ok aux);
  aux ← (if negb (x =? 0) then aux ← output (ch "0") aux; output x aux else Ok aux);
  aux ← (if flag (flags c) ZERO then output_dup (ch "0") (Z.to_nat pad_cnt) aux else Ok aux);
  aux ← output_all (rev buf) aux;
  if flag (flags c) MINUS then output_dup (ch " ") (Z.to_nat pad_cnt) aux else Ok aux.

Definition format_string (string : list Z) (length : Z) (c : printf_conversion) (aux : A) : res A :=
  aux ← (if (length <? width c) && negb (flag (flags c) MINUS) then output_dup (ch " ") (Z.to_nat (width c - length)) aux else Ok aux);
  aux ← output_all (take (Z.to_nat length) string) aux;
  if (length <? width c) && flag (flags c) MINUS then output_dup (ch " ") (Z.to_nat (width c - length)) aux else Ok aux.

(** *** Conversions of arguments *)

Definition signed_value (ty : arg_type) (args : list arg) : res (Z * list arg) :=
  match ty with
  | CHAR => '(v, args) ← va_int args; Ok ((v + 128) mod 256 - 128, args)
  | SHORT => '(v, args) ← va_int args; Ok ((v + 32768) mod 65536 - 32768, args)
  | INT | LONG | PTRDIFFT => '(v, args) ← va_int args; Ok (s32 v, args)
  | INTMAX | LONGLONG => '(v, args) ← va_int64 args; Ok (s64 v, args)
  | SIZET => '(v, args) ← va_int args; Ok (if SIZE_MAX / 2 <? u32 v then u32 v - SIZE_MAX - 1 else u32 v, args)
  end.

Definition unsigned_value (ty : arg_type) (args : list arg) : res (Z * list arg) :=
  match ty with
  | CHAR => '(v, args) ← va_int args; Ok (v mod 256, args)
  | SHORT => '(v, args) ← va_int args; Ok (v mod 65536, args)
  | INT | LONG | SIZET => '(v, args) ← va_int args; Ok (u32 v, args)
  | INTMAX | LONGLONG => '(v, args) ← va_int64 args; Ok (u64 v, args)
  | PTRDIFFT => '(v, args) ← va_int args; Ok (Z.land (u64 (s32 v)) 4294967295, args)
  end.

(** The switch on the conversion character; [vp] prints the message for one that is
    not supported. *)
Definition convert (vp : list Z → list arg → A → res A) (k : Z) (c : printf_conversion) (args : list arg) (aux : A) : res (A * list arg) :=
  if (k =? ch "d") || (k =? ch "i") then
    '(v, args) ← signed_value (type c) args;
    aux ← format_integer (if v <? 0 then u64 (- v) else v) true (v <? 0) base_d c aux;
    Ok (aux, args)
  else if (k =? ch "o") || (k =? ch "u") || (k =? ch "x") || (k =? ch "X") then
    '(v, args) ← unsigned_value (type c) args;
    let b := if k =? ch "o" then base_o else if k =? ch "u" then base_d
             else if k =? ch "x" then base_x else base_X in
    aux ← format_integer v false false b c aux;
    Ok (aux, args)
  else if k =? ch "c" then
    '(v, args) ← va_int args;
    aux ← format_string [v mod 256] 1 c aux;
    Ok (aux, args)
  else if k =? ch "s" then
    '(s, args) ← va_str args;
    let s := match s with Some s => s | None => bytes "(null)" end in
    aux ← format_string s (Z.min (Z.of_nat (length s)) (u32 (precision c))) c aux;
    Ok (aux, args)
  else if k =? ch "p" then
    '(p, args) ← va_int args;
    aux ← format_integer (u32 p) false false base_x (Conv POUND (width c) (precision c) (type c)) aux;
    Ok (aux, args)
  else if (k =? ch "f") || (k =? ch "e") || (k =? ch "E") || (k =? ch "g") || (k =? ch "G") || (k =? ch "n") then
    aux ← vp (bytes "<<no %%%c in kernel>>") [AInt k] aux; Ok (aux, args)
  else
    aux ← vp (bytes "<<no %%%c conversion>>") [AInt k] aux; Ok (aux, args).

(** Each round takes a character of the format, or more; the two messages take 22 and
    23 rounds. *)
Fixpoint vprintf_loop (fuel : nat) (format : list Z) (args : list arg) (aux : A) : res A :=
  match fuel with
  | O => Timeout
  | S fuel =>
      match format with
      | [] => Ok aux
      | c :: format =>
          if negb (c =? ch "%") then aux ← output c aux; vprintf_loop fuel format args aux
          else if cur format =? ch "%" then
            aux ← output (ch "%") aux; format ← advance format; vprintf_loop fuel format args aux
          else
            '(c, format, args) ← parse_conversion format args;
            '(aux, args) ← convert (vprintf_loop fuel) (cur format) c args aux;
            format ← advance format;
            vprintf_loop fuel format args aux
      end
  end.

Definition vprintf_fuel (format : list Z) : nat := length format + 30.

Definition __vprintf (format : list Z) (args : list arg) (aux : A) : res A :=
  vprintf_loop (vprintf_fuel format) format args aux.

End output.

(** ** Output to a buffer *)

(** [p] is the offset in the buffer. *)
Record vsnprintf_aux := VAux { buffer : list Z; p : Z; vlength : Z; max_length : Z }.

(** [*p = c]. *)
Definition poke (buffer : list Z) (p c : Z) : res (list Z) :=
  if (0 <=? p) && (p <? Z.of_nat (length buffer)) then Ok (<[Z.to_nat p := c]> buffer) else Fault BadAccess.

Definition vsnprintf_helper (c : Z) (aux : vsnprintf_aux) : res vsnprintf_aux :=
  if vlength aux <? max_length aux then
    b ← poke (buffer aux) (p aux) c; Ok (VAux b (p aux + 1) (s32 (vlength aux + 1)) (max_length aux))
  else Ok (VAux (buffer aux) (p aux) (s32 (vlength aux + 1)) (max_length aux)).

(** The buffer and the result. *)
Definition vsnprintf (buf : list Z) (buf_size : Z) (format : list Z) (args : list arg) : res (list Z * Z) :=
  let max := s32 (if 0 <? buf_size then buf_size - 1 else 0) in
  aux ← __vprintf vsnprintf_helper format args (VAux buf 0 0 max);
  b ← (if 0 <? buf_size then poke (buffer aux) (p aux) 0 else Ok (buffer aux));
  Ok (b, vlength aux).

Definition snprintf (buf : list Z) (buf_size : Z) (format : list Z) (args : list arg) : res (list Z * Z) :=
  vsnprintf buf buf_size format args.

(** ** Output to the console *)

(** The console as the list of the characters put on it. *)
Definition putchar (c : Z) (out : list Z) : res (list Z) := Ok (out ++ [c]).

Definition printf (format : list Z) (args : list arg) (out : list Z) : res (list Z) :=
  __vprintf putchar format args out.

(** [n] times [printf] of a string without conversions. *)
Definition repeat_str (n : Z) (s : string) (out : list Z) : res (list Z) :=
  output_dup (λ _ out, printf (bytes s) [] out) 0 (Z.to_nat n) out.

(** The bytes of a line in hexadecimal, the first one in column [i]. *)
Fixpoint dump_bytes (l : list Z) (i : Z) (out : list Z) : res (list Z) :=
  match l with
  | [] => Ok out
  | b :: l =>
      out ← printf (bytes "%02hhx%c") [AInt b; AInt (if i =? 7 then ch "-" else ch " ")] out;
      dump_bytes l (i + 1) out
  end.

(** The bytes of a line as characters. *)
Fixpoint dump_chars (l : list Z) (out : list Z) : res (list Z) :=
  match l with
  | [] => Ok out
  | b :: l => out ← printf (bytes "%c") [AInt (if isprint b then b else ch ".")] out; dump_chars l out
  end.

(** A line of [hex_dump]: [n] bytes of [buf] from column [start] on. *)
Definition dump_line (ofs start : Z) (l : list Z) (ascii : bool) (out : list Z) : res (list Z) :=
  let fin := start + Z.of_nat (length l) in
  out ← printf (bytes "%08jx  ") [AInt64 (ofs - ofs mod 16)] out;
  out ← repeat_str start "   " out;
  out ← dump_bytes l start out;
  out ← (if ascii then
    out ← repeat_str (16 - fin) "   " out;
    out ← printf (bytes "|") [] out;
    out ← repeat_str start " " out;
    out ← dump_chars l out;
    out ← repeat_str (16 - fin) " " out;
    printf (bytes "|") [] out
  else Ok out);
  printf [10] [] out.

Fixpoint hex_dump_loop (fuel : nat) (ofs : Z) (buf : list Z) (size : Z) (ascii : bool) (out : list Z) : res (list Z) :=
  match fuel with
  | O => Timeout
  | S fuel =>
      if 0 <? size then
        let start := ofs mod 16 in
        let fin := if size <? 16 - start then start + size else 16 in
        let n := fin - start in
        out ← dump_line ofs start (take (Z.to_nat n) buf) ascii out;
        hex_dump_loop fuel (u32 (ofs + n)) (drop (Z.to_nat n) buf) (size - n) ascii out
      else Ok out
  end.

Definition hex_dump (ofs : Z) (buf : list Z) (size : Z) (ascii : bool) (out : list Z) : res (list Z) :=
  hex_dump_loop (S (Z.to_nat size)) ofs buf size ascii out.

(** [fp] in [print_human_readable_size]. *)
Fixpoint scale (factors : list (list Z)) (size : Z) : Z * list Z :=
  match factors with
  | [] => (size, [])
  | f :: fs =>
      match fs with
      | [] => (size, f)
      | _ => if 1024 <=? size then scale fs (size / 1024) else (size, f)
      end
  end.

Definition print_human_readable_size (size : Z) (out : list Z) : res (list Z) :=
  if size =? 1 then printf (bytes "1 byte") [] out
  else
    let '(n, f) := scale [bytes "bytes"; bytes "kB"; bytes "MB"; bytes "GB"; bytes "TB"] size in
    printf (bytes "%llu %s") [AInt64 n; AStr (Some f)] out.

(** ** [atoi] *)

Fixpoint atoi_space (s : list Z) : list Z :=
  match s with
  | c :: s' => if isspace c then atoi_space s' else s
  | [] => []
  end.

Fixpoint atoi_digits (s : list Z) (value : Z) : Z :=
  match s with
  | c :: s' => if isdigit c then atoi_digits s' (s32 (value * 10 - (c - ch "0"))) else value
  | [] => value
  end.

Definition atoi (s : list Z) : Z :=
  let s := atoi_space s in
  let '(negative, s) :=
    if cur s =? ch "+" then (false, tail s)
    else if cur s =? ch "-" then (true, tail s) else (false, s) in
  let value := atoi_digits s 0 in
  if negative : bool then value else s32 (- value).

(** ** The text of a conversion *)

Section text.
Context {A : Type} (output : Z → A → res A).

Lemma output_all_app l1 l2 aux :
  output_all output (l1 ++ l2) aux = (aux ← output_all output l1 aux; output_all output l2 aux).
Proof.
  revert aux. induction l1 as [|c l1 IH]; intros aux; simpl; [done|]. destruct (output c aux); simpl; [apply IH|done..].
Qed.

Lemma output_dup_all c n aux : output_dup output c n aux = output_all output (replicate n c) aux.
Proof. revert aux. induction n as [|n IH]; intros aux; simpl; [done|]. destruct (output c aux); simpl; [apply IH|done..]. Qed.

Lemma bind_ret (m : res A) : (aux ← m; Ok aux) = m.
Proof. by destruct m. Qed.

End text.

(** The padding of an integer. *)
Definition pad_of (c : printf_conversion) (buf : list Z) (x sign : Z) : nat :=
  let n := s32 (width c - Z.of_nat (length buf) - (if x =? 0 then 0 else 2) - (if sign =? 0 then 0 else 1)) in
  Z.to_nat (if n <? 0 then 0 else n).

Definition int_buf (value : Z) (b : integer_base) (c : printf_conversion) : res (list Z) :=
  buf ← digits_loop 64 value 0 b (flags c) [];
  buf ← zeros_loop 64 (if precision c <? 0 then 1 else precision c) buf;
  if flag (flags c) POUND && (base b =? 8) && (match last buf with None => true | Some d => negb (d =? ch "0") end)
  then push buf (ch "0") else Ok buf.

(** The characters around the digits in [buf]. *)
Definition int_layout (buf : list Z) (x sign : Z) (c : printf_conversion) : list Z :=
  let n := pad_of c buf x sign in
  (if flag (flags c) (Z.lor MINUS ZERO) then [] else replicate n (ch " ")) ++
  (if sign =? 0 then [] else [sign]) ++ (if x =? 0 then [] else [ch "0"; x]) ++
  (if flag (flags c) ZERO then replicate n (ch "0") else []) ++ rev buf ++
  (if flag (flags c) MINUS then replicate n (ch " ") else []).

Definition int_text (value : Z) (is_signed negative : bool) (b : integer_base) (c : printf_conversion) : res (list Z) :=
  buf ← int_buf value b c;
  Ok (int_layout buf (if flag (flags c) POUND && negb (value =? 0) then x b else 0) (sign_char is_signed negative (flags c)) c).

Definition str_text (s : list Z) (len : Z) (c : printf_conversion) : list Z :=
  let pad := if len <? width c then replicate (Z.to_nat (width c - len)) (ch " ") else [] in
  (if flag (flags c) MINUS then [] else pad) ++ take (Z.to_nat len) s ++ (if flag (flags c) MINUS then pad else []).

Lemma bind_cong {A B} (m1 m2 : res A) (k1 k2 : A → res B) : m1 = m2 → (∀ a, k1 a = k2 a) → (a ← m1; k1 a) = (a ← m2; k2 a).
Proof. intros -> Hk. destruct m2; simpl; [apply Hk|done..]. Qed.

Lemma format_integer_text {A} (output : Z → A → res A) value sg ng b c aux :
  format_integer output value sg ng b c aux = (l ← int_text value sg ng b c; output_all output l aux).
Proof.
  unfold format_integer, int_text, int_buf. destruct (digits_loop 64 value 0 b (flags c) []) as [buf|f|]; [|done..]. mstep.
  destruct (zeros_loop 64 _ buf) as [buf2|f|]; [|done..]. mstep.
  set (m := if _ && _ && _ then _ else _). destruct m as [buf3|f|]; [|done..]. mstep.
  set (sign := sign_char _ _ _). set (xc := if flag _ POUND && _ then _ else _). unfold int_layout. fold (pad_of c buf3 xc sign). clearbody xc sign.
  rewrite output_all_app. apply bind_cong; [destruct (flag (flags c) (Z.lor MINUS ZERO)); simpl; by rewrite ?output_dup_all|intros a1].
  rewrite output_all_app. apply bind_cong; [destruct (sign =? 0); simpl; by rewrite ?bind_ret|intros a2].
  rewrite output_all_app. apply bind_cong; [destruct (xc =? 0); simpl; [done|]; apply bind_cong; [done|intros a]; by rewrite bind_ret|intros a3].
  rewrite output_all_app. apply bind_cong; [destruct (flag (flags c) ZERO); by rewrite ?output_dup_all|intros a4].
  rewrite output_all_app. apply bind_cong; [done|intros a5]. destruct (flag (flags c) MINUS); [by rewrite output_dup_all|done].
Qed.

Lemma format_string_text {A} (output : Z → A → res A) s len c aux :
  format_string output s len c aux = output_all output (str_text s len c) aux.
Proof.
  unfold format_string, str_text. rewrite output_all_app. apply bind_cong; [|intros a1].
  { destruct (len <? width c), (flag (flags c) MINUS); simpl; by rewrite ?output_dup_all. }
  rewrite output_all_app. apply bind_cong; [done|intros a2]. destruct (len <? width c), (flag (flags c) MINUS); simpl; by rewrite ?output_dup_all.
Qed.

Lemma output_all_putchar l out : output_all putchar l out = Ok (out ++ l).
Proof.
  revert out. induction l as [|c l IH]; intros out; simpl; [by rewrite app_nil_r|]. rewrite IH. by rewrite <-app_assoc.
Qed.

(** What a piece of code puts on the console is what it outputs with any output
    function. *)
Definition same_text (k : ∀ A, (Z → A → res A) → A → res A) (out out' : list Z) : Prop :=
  ∃ l, out' = out ++ l ∧ ∀ A (output : Z → A → res A) aux, k A output aux = output_all output l aux.

Lemma int_same value sg ng b c out out' :
  format_integer putchar value sg ng b c out = Ok out' →
  same_text (λ A output aux, format_integer output value sg ng b c aux) out out'.
Proof.
  rewrite format_integer_text. intros (l & El & E)%res_bind_Ok. rewrite output_all_putchar in E. injection E as <-.
  exists l. split; [done|]. intros A output aux. by rewrite format_integer_text, El.
Qed.

Lemma str_same s len c out out' :
  format_string putchar s len c out = Ok out' → same_text (λ A output aux, format_string output s len c aux) out out'.
Proof.
  rewrite format_string_text, output_all_putchar. intros [= <-]. eexists. split; [done|]. intros A output aux. by rewrite format_string_text.
Qed.

Lemma bind_same {B} (k : ∀ A, (Z → A → res A) → A → res A) (args : B) out r args' :
  (out1 ← k _ putchar out; Ok (out1, args)) = Ok (r, args') →
  (∀ out1, k _ putchar out = Ok out1 → same_text k out out1) →
  args' = args ∧ same_text k out r.
Proof. intros (out1 & E & [= <- <-])%res_bind_Ok Hk. split; [done|]. by apply Hk. Qed.

Lemma convert_same fuel k c args out out' args' :
  (∀ f args out out', vprintf_loop putchar fuel f args out = Ok out' →
     same_text (λ A output aux, vprintf_loop output fuel f args aux) out out') →
  convert putchar (vprintf_loop putchar fuel) k c args out = Ok (out', args') →
  ∃ l, out' = out ++ l ∧ ∀ A (output : Z → A → res A) aux,
    convert output (vprintf_loop output fuel) k c args aux = (aux ← output_all output l aux; Ok (aux, args')).
Proof.
  intros IH. unfold convert.
  repeat match goal with |- (if ?b then _ else _) = _ → _ => destruct b end.
  all: try (intros ([v args1] & -> & E)%res_bind_Ok; mstep).
  all: try intros E.
  all: first
    [ apply (bind_same (λ A output aux, format_integer output _ _ _ _ _ aux)) in E as [-> (l & -> & Hl)]; [|by intros; apply int_same]
    | apply (bind_same (λ A output aux, format_string output _ _ _ aux)) in E as [-> (l & -> & Hl)]; [|by intros; apply str_same]
    | apply (bind_same (λ A output aux, vprintf_loop output fuel _ _ aux)) in E as [-> (l & -> & Hl)]; [|by intros; apply IH] ].
  all: exists l; split; [done|]; intros A output aux; by rewrite Hl.
Qed.

Lemma vprintf_same fuel f args out out' :
  vprintf_loop putchar fuel f args out = Ok out' →
  same_text (λ A output aux, vprintf_loop output fuel f args aux) out out'.
Proof.
  revert f args out out'. induction fuel as [|fuel IH]; intros f args out out'; [done|]. destruct f as [|c f]; cbn [vprintf_loop].
  { intros [= <-]. exists []. split; [by rewrite app_nil_r|done]. }
  destruct (negb (c =? ch "%")) eqn:Ec.
  { intros (out1 & [= <-] & E)%res_bind_Ok. apply IH in E as (l & -> & Hl). exists (c :: l). split; [by rewrite <-app_assoc|].
    intros A output aux. cbn [vprintf_loop output_all]. rewrite ?Ec. apply bind_cong; [done|]. intros a. by rewrite Hl. }
  destruct (cur f =? ch "%") eqn:Ef.
  { intros (out1 & [= <-] & E)%res_bind_Ok. apply res_bind_Ok in E as (f1 & Ef1 & E). apply IH in E as (l & -> & Hl). exists (ch "%" :: l).
    split; [by rewrite <-app_assoc|]. intros A output aux. cbn [vprintf_loop output_all]. rewrite ?Ec, ?Ef. apply bind_cong; [done|]. intros a. rewrite Ef1. mstep. by rewrite Hl. }
  intros ([[c1 f1] args1] & Ep & E)%res_bind_Ok. apply res_bind_Ok in E as ([out1 args2] & Ecv & E). apply res_bind_Ok in E as (f2 & Ef2 & E).
  apply convert_same in Ecv as (l1 & -> & Hl1); [|exact IH]. apply IH in E as (l2 & -> & Hl2). exists (l1 ++ l2). split; [by rewrite app_assoc|].
  intros A output aux. cbn [vprintf_loop]. rewrite ?Ec, ?Ef, Ep. mstep. rewrite Hl1, output_all_app.
  destruct (output_all output l1 aux) as [a|fa|]; [|done..]. mstep. rewrite Ef2. mstep. by rewrite Hl2.
Qed.

(** ** [vsnprintf] *)

(** [b'] is [b] with the characters of [l] from position [n] on, as far as [max]. *)
Definition written (b b' l : list Z) (n max : Z) : Prop :=
  length b' = length b ∧ ∀ i : nat, b' !! i = if bool_decide (n ≤ Z.of_nat i < Z.min (n + Z.of_nat (length l)) max) then l !! Z.to_nat (Z.of_nat i - n) else b !! i.

Lemma helper_eq c b q n max :
  vsnprintf_helper c (VAux b q n max) =
  if n <? max then b ← poke b q c; Ok (VAux b (q + 1) (s32 (n + 1)) max) else Ok (VAux b q (s32 (n + 1)) max).
Proof. done. Qed.

Lemma helper_all l b n max :
  0 ≤ n → n + Z.of_nat (length l) < 2147483648 → 0 ≤ max ≤ Z.of_nat (length b) →
  ∃ b', output_all vsnprintf_helper l (VAux b (Z.min n max) n max) =
    Ok (VAux b' (Z.min (n + Z.of_nat (length l)) max) (n + Z.of_nat (length l)) max) ∧ written b b' l n max.
Proof.
  revert b n. induction l as [|c l IH]; intros b n Hn Hl Hm; cbn [output_all length].
  { exists b. rewrite Z.add_0_r. split; [done|]. split; [done|]. intros i. rewrite bool_decide_eq_false_2 by (simpl; lia). done. }
  cbn [length] in Hl. rewrite helper_eq, s32_small by (unfold is_s32; lia).
  assert (n + Z.of_nat (S (length l)) = (n + 1) + Z.of_nat (length l)) as -> by lia.
  destruct (Z.ltb_spec n max) as [Hlt|Hge].
  - unfold poke. rewrite (proj2 (Z.leb_le _ _)), (proj2 (Z.ltb_lt _ _)) by lia. cbn [andb]. mstep.
    replace (Z.min n max + 1) with (Z.min (n + 1) max) by lia. rewrite (Z.min_l n) by lia.
    destruct (IH (<[Z.to_nat n := c]> b) (n + 1)) as (b' & -> & Hlen & Hb); [lia|lia|rewrite length_insert; lia|].
    exists b'. split; [done|]. split; [by rewrite Hlen, length_insert|]. intros i. rewrite Hb. destruct (decide (Z.of_nat i = n)) as [Ei|Hne].
    + rewrite bool_decide_eq_false_2 by lia. rewrite bool_decide_eq_true_2 by (simpl; lia). rewrite Ei, Z.sub_diag. simpl.
      replace (Z.to_nat n) with i by lia. apply list_lookup_insert_eq. lia.
    + rewrite list_lookup_insert_ne by lia. case_bool_decide.
      * rewrite bool_decide_eq_true_2 by (simpl; lia). replace (Z.to_nat (Z.of_nat i - n)) with (S (Z.to_nat (Z.of_nat i - (n + 1)))) by lia. done.
      * rewrite bool_decide_eq_false_2 by (simpl; lia). done.
  - mstep. assert (Z.min n max = Z.min (n + 1) max) as -> by lia.
    destruct (IH b (n + 1)) as (b' & -> & Hlen & Hb); [lia|lia|lia|]. exists b'. split; [done|]. split; [done|]. intros i. rewrite Hb.
    rewrite !bool_decide_eq_false_2 by (simpl; lia). done.
Qed.

Lemma vsnprintf_text buf format args l :
  printf format args [] = Ok l → Z.of_nat (length l) < 2147483648 → Z.of_nat (length buf) ≤ 2147483648 → buf ≠ [] →
  let k := Nat.min (length l) (length buf - 1) in
  vsnprintf buf (Z.of_nat (length buf)) format args = Ok (take k l ++ [0] ++ drop (S k) buf, Z.of_nat (length l)).
Proof.
  intros Hp Hl Hb Hne k. assert (0 < length buf)%nat as Hpos by (destruct buf; [done|simpl; lia]).
  unfold vsnprintf. rewrite (proj2 (Z.ltb_lt _ _)) by lia. rewrite s32_small by (unfold is_s32; lia).
  destruct (vprintf_same _ _ _ _ _ Hp) as (l' & E & Hall). simpl in E. subst l'. unfold __vprintf. rewrite Hall.
  destruct (helper_all l buf 0 (Z.of_nat (length buf) - 1)) as (b' & Eh & Hlen & Hb'); [lia|lia|lia|].
  rewrite Z.min_l in Eh by lia. rewrite Eh. mstep. cbn [buffer p vlength]. unfold poke. rewrite Hlen.
  rewrite (proj2 (Z.leb_le _ _)), (proj2 (Z.ltb_lt _ _)) by lia. cbn [andb]. mstep. do 2 f_equal.
  apply list_eq. intros i. destruct (decide (i = k)) as [->|Hik].
  - replace (Z.to_nat _) with k by lia. rewrite list_lookup_insert_eq by lia. rewrite lookup_app_r by (rewrite length_take; lia).
    rewrite length_take. replace (k - k `min` length l)%nat with 0%nat by lia. done.
  - rewrite list_lookup_insert_ne by lia. rewrite Hb'. destruct (decide (i < k)%nat).
    + rewrite bool_decide_eq_true_2 by lia. rewrite lookup_app_l by (rewrite length_take; lia). rewrite lookup_take_lt by lia. f_equal. lia.
    + rewrite bool_decide_eq_false_2 by lia. rewrite lookup_app_r by (rewrite length_take; lia). rewrite length_take.
      replace (k `min` length l)%nat with k by lia. destruct (i - k)%nat as [|m] eqn:Em; [lia|]. simpl. rewrite lookup_drop. f_equal. lia.
Qed.

(** ** Digits *)

(** The bases have a digit for each remainder. *)
Definition base_ok (b : integer_base) : Prop :=
  8 ≤ base b ∧ 0 < group b ∧ Z.of_nat (length (digits b)) = base b.

Lemma bases_ok : base_ok base_d ∧ base_ok base_o ∧ base_ok base_x ∧ base_ok base_X.
Proof. by vm_compute. Qed.

Lemma push_ok buf c : (length buf < 64)%nat → push buf c = Ok (buf ++ [c]).
Proof. intros Hb. unfold push. by rewrite (proj2 (Nat.ltb_lt _ _)). Qed.

(** The digits of a value below [8 ^ n] take at most [2 * n] characters. *)
Lemma digits_loop_total n fuel v cnt b fl buf :
  base_ok b → 0 ≤ v < 8 ^ Z.of_nat n → (n < fuel)%nat → (length buf + 2 * n ≤ 64)%nat →
  ∃ buf', digits_loop fuel v cnt b fl buf = Ok buf' ∧ (length buf' ≤ length buf + 2 * n)%nat.
Proof.
  intros Hb. revert fuel v cnt buf. induction n as [|n IH]; intros fuel v cnt buf Hv Hf Hl; (destruct fuel as [|fuel]; [lia|]); cbn [digits_loop].
  { rewrite (proj2 (Z.ltb_ge _ _)) by (simpl in Hv; lia). exists buf. split; [done|lia]. }
  destruct (Z.ltb_spec 0 v) as [Hpos|]; [|exists buf; split; [done|lia]].
  destruct (Hb) as (Hbase & _ & Hd). pose proof (Z.mod_pos_bound v (base b) ltac:(lia)).
  destruct (lookup_lt_is_Some_2 (digits b) (Z.to_nat (v mod base b))) as [d Ed]; [lia|].
  assert (0 ≤ v / base b < 8 ^ Z.of_nat n) as Hq.
  { split; [apply Z.div_pos; lia|]. apply Z.div_lt_upper_bound; [lia|]. rewrite Nat2Z.inj_succ, Z.pow_succ_r in Hv by lia.
    pose proof (Z.pow_pos_nonneg 8 (Z.of_nat n) ltac:(lia) ltac:(lia)). nia. }
  set (g := flag fl GROUP && _ && _). assert (∃ b1, (if g then push buf (ch ",") else Ok buf) = Ok b1 ∧ (length b1 ≤ length buf + 1)%nat) as (b1 & -> & Hb1).
  { destruct g; [rewrite push_ok by lia; eexists; split; [done|rewrite length_app; simpl; lia]|exists buf; split; [done|lia]]. }
  mstep. rewrite Ed. mstep. rewrite push_ok by lia. mstep.
  destruct (IH fuel (v / base b) (cnt + 1) (b1 ++ [d])) as (buf' & -> & Hlen); [done|lia|rewrite length_app; simpl; lia|].
  exists buf'. split; [done|]. rewrite length_app in Hlen. simpl in Hlen. lia.
Qed.

Lemma zeros_loop_ok fuel prec buf :
  (64 ≤ fuel + length buf)%nat → (length buf ≤ 63)%nat →
  ∃ k, zeros_loop fuel prec buf = Ok (buf ++ replicate k (ch "0")) ∧ (length buf + k ≤ 63)%nat ∧
    (k = Z.to_nat (Z.min prec 63 - Z.of_nat (length buf)))%nat.
Proof.
  revert buf. induction fuel as [|fuel IH]; intros buf Hf Hl; [lia|]. cbn [zeros_loop].
  destruct (Z.ltb_spec (Z.of_nat (length buf)) prec), (Z.ltb_spec (Z.of_nat (length buf)) 63); cbn [andb];
    try (exists 0%nat; split; [by rewrite app_nil_r|lia]).
  rewrite push_ok by lia. mstep. destruct (IH (buf ++ [ch "0"])) as (k & -> & Hk & Ek); rewrite ?length_app in *; simpl length in *; [lia|lia|].
  exists (S k). split; [by rewrite <-app_assoc|]. lia.
Qed.

(** The buffer of 64 bytes is large enough for every value and precision. *)
Lemma int_buf_total v b c : base_ok b → 0 ≤ v < DWORD → ∃ buf, int_buf v b c = Ok buf ∧ (length buf ≤ 64)%nat.
Proof.
  intros Hb Hv. unfold int_buf.
  destruct (digits_loop_total 22 64 v 0 b (flags c) [] Hb) as (b1 & -> & H1); [|lia|simpl; lia|]; [split; [lia|]; apply Z.lt_le_trans with DWORD; [lia|by vm_compute]|].
  mstep. simpl length in H1. destruct (zeros_loop_ok 64 (if precision c <? 0 then 1 else precision c) b1) as (k & -> & Hk & _); [lia|lia|]. mstep.
  assert (length (b1 ++ replicate k (ch "0")) ≤ 63)%nat as Hlen by (rewrite length_app, length_replicate; lia).
  destruct (_ && _ && _); [|by eexists; split; [done|lia]]. rewrite push_ok by lia. eexists. split; [done|]. rewrite length_app. simpl. lia.
Qed.

(** *** Reading digits back *)

(** The value of digits, the last one first, and the first one first. *)
Fixpoint num_of (bs : Z) (l : list Z) : Z :=
  match l with [] => 0 | d :: l => (d - ch "0") + bs * num_of bs l end.
Definition read_digit (bs n d : Z) : Z := n * bs + (d - ch "0").

Lemma num_of_rev bs l : foldl (read_digit bs) 0 (rev l) = num_of bs l.
Proof.
  induction l as [|d l IH]; [done|]. cbn [rev num_of]. rewrite foldl_app. cbn [foldl]. rewrite IH. unfold read_digit. lia.
Qed.

Lemma num_of_zeros bs l k : num_of bs (l ++ replicate k (ch "0")) = num_of bs l.
Proof.
  induction l as [|d l IH]; cbn [app num_of]; [|by rewrite IH]. induction k as [|k IH]; [done|]. cbn [replicate num_of]. rewrite IH. lia.
Qed.

(** The characters of the digits of base 10 and 8. *)
Definition decimal (b : integer_base) : Prop :=
  base_ok b ∧ base b ≤ 10 ∧ ∀ k d, digits b !! k = Some d → d = ch "0" + Z.of_nat k.

Lemma decimal_bases : decimal base_d ∧ decimal base_o.
Proof.
  destruct bases_ok as (Hd & Ho & _). split; (split; [done|]); (split; [by vm_compute|]); intros k d Hk;
    do 10 (destruct k as [|k]; [first [by injection Hk as <-|discriminate Hk]|]); discriminate Hk.
Qed.

Lemma digits_loop_value n fuel v cnt b fl buf :
  decimal b → flag fl GROUP = false → 0 ≤ v < 8 ^ Z.of_nat n → (n < fuel)%nat → (length buf + n ≤ 64)%nat →
  ∃ ds, digits_loop fuel v cnt b fl buf = Ok (buf ++ ds) ∧ num_of (base b) ds = v ∧ (length ds ≤ n)%nat ∧
    Forall (λ d, ch "0" ≤ d < ch "0" + base b) ds ∧ (∀ m, v < base b ^ Z.of_nat m → (length ds ≤ m)%nat).
Proof.
  intros (Hb & Hten & Hdig) Hg. revert fuel v cnt buf. induction n as [|n IH]; intros fuel v cnt buf Hv Hf Hl; (destruct fuel as [|fuel]; [lia|]); cbn [digits_loop].
  { rewrite (proj2 (Z.ltb_ge _ _)) by (simpl in Hv; lia). exists []. rewrite app_nil_r. split_and!; [done|simpl in *; lia|simpl; lia|done|simpl; lia]. }
  destruct (Z.ltb_spec 0 v) as [Hpos|].
  2: { exists []. rewrite app_nil_r. split_and!; [done|simpl; lia|simpl; lia|done|simpl; lia]. }
  destruct (Hb) as (Hbase & _ & Hd). pose proof (Z.mod_pos_bound v (base b) ltac:(lia)) as Hm. rewrite Hg. cbn [andb]. mstep.
  destruct (lookup_lt_is_Some_2 (digits b) (Z.to_nat (v mod base b))) as [d Ed]; [lia|]. rewrite Ed. mstep. apply Hdig in Ed as ->.
  rewrite push_ok by lia. mstep. rewrite Z2Nat.id by lia.
  assert (0 ≤ v / base b < 8 ^ Z.of_nat n) as Hq.
  { split; [apply Z.div_pos; lia|]. apply Z.div_lt_upper_bound; [lia|]. rewrite Nat2Z.inj_succ, Z.pow_succ_r in Hv by lia.
    pose proof (Z.pow_pos_nonneg 8 (Z.of_nat n) ltac:(lia) ltac:(lia)). nia. }
  destruct (IH fuel (v / base b) (cnt + 1) (buf ++ [ch "0" + v mod base b])) as (ds & -> & Hval & Hlen & Hall & Hshort); [done|lia|rewrite length_app; simpl; lia|].
  exists ((ch "0" + v mod base b) :: ds). split_and!.
  - by rewrite <-app_assoc.
  - cbn [num_of]. rewrite Hval. pose proof (Z.div_mod v (base b) ltac:(lia)). lia.
  - simpl. lia.
  - constructor; [lia|done].
  - intros [|m] Hvm; [simpl in Hvm; lia|]. simpl. apply le_n_S, Hshort. apply Z.div_lt_upper_bound; [lia|].
    rewrite Nat2Z.inj_succ, Z.pow_succ_r in Hvm by lia. lia.
Qed.

(** ** [atoi] of formatted integers *)

Definition all_digits (l : list Z) : Prop := Forall (λ d, ch "0" ≤ d < ch "0" + 10) l.

Lemma isdigit_ok d : ch "0" ≤ d < ch "0" + 10 → isdigit d = true.
Proof. intros Hd. unfold isdigit. change (ch "9") with 57. change (ch "0") with 48 in *. rewrite (proj2 (Z.leb_le _ _)), (proj2 (Z.leb_le _ _)) by lia. done. Qed.

Lemma read_digit_mono l a : 0 ≤ a → all_digits l → a ≤ foldl (read_digit 10) a l.
Proof.
  intros Ha Hl. revert a Ha. induction Hl as [|d l Hd _ IH]; intros a Ha; simpl; [lia|].
  assert (a ≤ read_digit 10 a d) by (unfold read_digit; change (ch "0") with 48 in *; lia). specialize (IH (read_digit 10 a d)). lia.
Qed.

(** Parsing the digits as a negative number does not overflow down to [- 2 ^ 31]. *)
Lemma atoi_digits_ok l rest a :
  0 ≤ a → all_digits l → isdigit (cur rest) = false → foldl (read_digit 10) a l ≤ 2147483648 →
  atoi_digits (l ++ rest) (- a) = - foldl (read_digit 10) a l.
Proof.
  intros Ha Hl Hr. revert a Ha. induction Hl as [|d l Hd Hl IH]; intros a Ha Hmax; cbn [app foldl] in *.
  { destruct rest as [|c rest]; [done|]. simpl in *. by rewrite Hr. }
  cbn [atoi_digits]. rewrite isdigit_ok by done. change (ch "0") with 48 in *.
  assert (0 ≤ read_digit 10 a d) as Hp by (unfold read_digit; change (ch "0") with 48; lia).
  pose proof (read_digit_mono l _ Hp Hl). rewrite s32_small by (unfold is_s32, read_digit in *; change (ch "0") with 48 in *; lia).
  replace (- a * 10 - (d - 48)) with (- read_digit 10 a d) by (unfold read_digit; change (ch "0") with 48; lia). by apply IH.
Qed.

Lemma atoi_space_ok n l : isspace (cur l) = false → atoi_space (replicate n (ch " ") ++ l) = l.
Proof. intros Hl. induction n as [|n IH]; simpl; [|done]. destruct l as [|c l]; [done|]. simpl in *. by rewrite Hl. Qed.

(** Signs that [atoi] reads. *)
Definition sign_ok (negative : bool) (sign : list Z) : Prop :=
  (negative = true ∧ sign = [ch "-"]) ∨ (negative = false ∧ (sign = [] ∨ sign = [ch "+"] ∨ sign = [ch " "])).

Lemma digit_cur l rest :
  all_digits l → isdigit (cur rest) = false → isspace (cur rest) = true ∨ rest = [] →
  (cur (l ++ rest) =? ch "+") = false ∧ (cur (l ++ rest) =? ch "-") = false ∧ (l ≠ [] → isspace (cur (l ++ rest)) = false).
Proof.
  intros Hl Hr Hs. destruct l as [|d l].
  - simpl. split_and!; [| |done]; destruct Hs as [Hs| ->]; try done; apply Z.eqb_neq; intros E; rewrite E in Hs; done.
  - inversion_clear Hl as [|? ? Hd _]. simpl. change (ch "0") with 48 in *. change (ch "+") with 43. change (ch "-") with 45.
    split_and!; [apply Z.eqb_neq; lia|apply Z.eqb_neq; lia|]. intros _. unfold isspace. rewrite !(proj2 (Z.eqb_neq _ _)) by lia. done.
Qed.

(** No digits at all. *)
Lemma atoi_blank n m negative sign : sign_ok negative sign → atoi (replicate n (ch " ") ++ sign ++ replicate m (ch " ")) = 0.
Proof.
  assert (∀ k, atoi_space (replicate k (ch " ")) = []) as Hsp by (intros k; rewrite <-(app_nil_r (replicate k _)); by apply atoi_space_ok).
  assert (atoi_digits (replicate m (ch " ")) 0 = 0) as Hd by (by destruct m).
  intros [[-> ->]|[-> [->|[->| ->]]]]; unfold atoi.
  - rewrite atoi_space_ok by done. simpl. by rewrite Hd.
  - rewrite app_nil_l, <-replicate_add, Hsp. done.
  - rewrite atoi_space_ok by done. simpl. by rewrite Hd.
  - change [ch " "] with (replicate 1 (ch " ")). rewrite <-!replicate_add, Hsp. done.
Qed.

Lemma atoi_ok n negative sign l m :
  sign_ok negative sign → all_digits l →
  foldl (read_digit 10) 0 l ≤ (if negative then 2147483648 else 2147483647) →
  atoi (replicate n (ch " ") ++ sign ++ l ++ replicate m (ch " ")) = if negative then - foldl (read_digit 10) 0 l else foldl (read_digit 10) 0 l.
Proof.
  intros Hsg Hl Hmax. destruct (decide (l = [])) as [->|Hne]; [rewrite app_nil_l, (atoi_blank n m negative) by done; by destruct negative|].
  assert (foldl (read_digit 10) 0 l ≤ 2147483648) as Hmax' by (destruct negative; lia). set (rest := replicate m (ch " ")).
  assert (isdigit (cur rest) = false) as Hr by (by destruct m). assert (isspace (cur rest) = true ∨ rest = []) as Hs by (destruct m; [by right|by left]).
  pose proof (atoi_digits_ok l rest 0 ltac:(lia) Hl Hr Hmax') as Hd. destruct (digit_cur l rest Hl Hr Hs) as (Hp & Hm & Hsp).
  pose proof (read_digit_mono l 0 ltac:(lia) Hl) as Hpos. unfold atoi. change (-0) with 0 in Hd.
  assert (∀ k, atoi_space (replicate k (ch " ") ++ l ++ rest) = l ++ rest) as Hskip by (intros k; apply atoi_space_ok; by apply Hsp).
  destruct Hsg as [[-> ->]|[-> [->|[->| ->]]]].
  - rewrite atoi_space_ok by done. simpl. apply Hd.
  - rewrite app_nil_l, Hskip, Hp, Hm, Hd. rewrite Z.opp_involutive, s32_small; [done|unfold is_s32; lia].
  - rewrite atoi_space_ok by done. simpl. rewrite Hd, Z.opp_involutive, s32_small; [done|unfold is_s32; lia].
  - change ([ch " "] ++ l ++ rest) with (replicate 1 (ch " ") ++ l ++ rest). rewrite app_assoc, <-replicate_add, Hskip, Hp, Hm, Hd.
    rewrite Z.opp_involutive, s32_small; [done|unfold is_s32; lia].
Qed.

(** The text of a decimal integer, as [atoi] reads it. *)
Lemma decimal_text v c :
  is_s32 v → flag (flags c) GROUP = false →
  ∃ l, int_text (if v <? 0 then u64 (- v) else v) true (v <? 0) base_d c = Ok l ∧ atoi l = v.
Proof.
  intros Hv Hg. set (a := if v <? 0 then u64 (- v) else v). assert (a = Z.abs v) as Ha.
  { unfold a, is_s32 in *. destruct (Z.ltb_spec v 0); [rewrite u64_small by (unfold is_u64; lia)|]; lia. }
  unfold is_s32 in Hv. unfold int_text, int_buf.
  destruct (digits_loop_value 22 64 a 0 base_d (flags c) [] (proj1 decimal_bases) Hg) as (ds & -> & Hval & Hlen & Hall & _);
    [split; [lia|]; apply Z.lt_le_trans with 4294967296; [lia|by vm_compute]|lia|simpl; lia|]. mstep.
  destruct (zeros_loop_ok 64 (if precision c <? 0 then 1 else precision c) ([] ++ ds)) as (k & -> & Hk & _); [simpl; lia|simpl; lia|]. mstep.
  rewrite app_nil_l. change (base base_d =? 8) with false. rewrite andb_false_r. cbn [andb]. mstep. eexists. split; [done|].
  unfold int_layout. change (x base_d) with 0. assert ((if flag (flags c) POUND && negb (a =? 0) then 0 else 0) = 0) as -> by (by destruct (_ && _)).
  set (sign := sign_char true (v <? 0) (flags c)). set (buf := ds ++ replicate k (ch "0")). set (n := pad_of c buf 0 sign).
  set (lead := if flag (flags c) (Z.lor MINUS ZERO) then 0%nat else n). set (zs := if flag (flags c) ZERO then n else 0%nat).
  set (trail := if flag (flags c) MINUS then n else 0%nat).
  assert (foldl (read_digit 10) 0 (replicate zs (ch "0") ++ rev buf) = Z.abs v) as Hfold.
  { rewrite foldl_app. assert (foldl (read_digit 10) 0 (replicate zs (ch "0")) = 0) as -> by (generalize zs; intros z; by induction z).
    rewrite num_of_rev. unfold buf. rewrite num_of_zeros. change 10 with (base base_d). by rewrite Hval. }
  transitivity (atoi (replicate lead (ch " ") ++ (if sign =? 0 then [] else [sign]) ++ (replicate zs (ch "0") ++ rev buf) ++ replicate trail (ch " "))).
  { f_equal. unfold lead, zs, trail. rewrite <-!app_assoc, app_nil_l. destruct (flag (flags c) (Z.lor MINUS ZERO)), (flag (flags c) ZERO), (flag (flags c) MINUS); done. }
  rewrite (atoi_ok lead (v <? 0)), Hfold; [destruct (Z.ltb_spec v 0); lia| | |destruct (Z.ltb_spec v 0); lia].
  - unfold sign, sign_char, sign_ok. destruct (v <? 0); [left|right]; (split; [done|]); destruct (flag (flags c) PLUS), (flag (flags c) SPACE); auto.
  - apply Forall_app. split; [apply Forall_replicate; by vm_compute|]. apply Forall_rev, Forall_app. split; [done|]. apply Forall_replicate. by vm_compute.
Qed.

(** ** Formats *)

Section formats.
Context {A : Type} (output : Z → A → res A).

(** Text without a percent sign is copied. *)
Lemma vprintf_plain l rest fuel args aux :
  Forall (λ c, c ≠ ch "%") l →
  vprintf_loop output (length l + fuel) (l ++ rest) args aux = (aux ← output_all output l aux; vprintf_loop output fuel rest args aux).
Proof.
  intros Hl. revert aux. induction Hl as [|c l Hc _ IH]; intros aux; [done|]. cbn [length app Nat.add vprintf_loop output_all].
  rewrite (proj2 (Z.eqb_neq _ _)) by done. cbn [negb]. destruct (output c aux) as [a| |]; [|done..]. mstep. apply IH.
Qed.

Lemma vprintf_text fuel l args aux :
  Forall (λ c, c ≠ ch "%") l → (length l < fuel)%nat → vprintf_loop output fuel l args aux = output_all output l aux.
Proof.
  intros Hl Hf. rewrite <-(app_nil_r l) at 1. replace fuel with (length l + S (fuel - length l - 1))%nat by lia.
  rewrite vprintf_plain by done. cbn [vprintf_loop]. by destruct (output_all output l aux).
Qed.

Context (Hout : ∀ c a, output c a ≠ Timeout).

Lemma bind_nt {B C} (m : res B) (k : B → res C) : m ≠ Timeout → (∀ b, m = Ok b → k b ≠ Timeout) → (b ← m; k b) ≠ Timeout.
Proof. intros Hm Hk. destruct m as [b|f|]; simpl; [by apply Hk|done..]. Qed.

Lemma output_all_nt l aux : output_all output l aux ≠ Timeout.
Proof using Hout. revert aux. induction l as [|c l IH]; intros aux; [done|]. simpl. by apply bind_nt. Qed.

Lemma format_integer_nt v sg ng b c aux : base_ok b → 0 ≤ v < DWORD → format_integer output v sg ng b c aux ≠ Timeout.
Proof using Hout.
  intros Hb Hv. rewrite format_integer_text. unfold int_text. destruct (int_buf_total v b c Hb Hv) as (buf & -> & _). mstep. apply output_all_nt.
Qed.

Lemma signed_value_range ty args v args' :
  signed_value ty args = Ok (v, args') → 0 ≤ (if v <? 0 then u64 (- v) else v) < DWORD.
Proof.
  assert (∀ n v, n ≤ 9223372036854775808 → - n ≤ v < n → 0 ≤ (if v <? 0 then u64 (- v) else v) < DWORD) as Hr.
  { intros n w Hn Hw. destruct (Z.ltb_spec w 0); [rewrite u64_small by (unfold is_u64; lia)|]; lia. }
  unfold signed_value. destruct ty; intros ([w a] & _ & [= <- <-])%res_bind_Ok.
  - pose proof (Z.mod_pos_bound (w + 128) 256 ltac:(lia)). apply (Hr 128); lia.
  - pose proof (Z.mod_pos_bound (w + 32768) 65536 ltac:(lia)). apply (Hr 32768); lia.
  - pose proof (s32_range w). unfold is_s32 in *. apply (Hr 2147483648); lia.
  - unfold s64. pose proof (Z.mod_pos_bound (w + 9223372036854775808) DWORD ltac:(lia)). apply (Hr 9223372036854775808); lia.
  - pose proof (s32_range w). unfold is_s32 in *. apply (Hr 2147483648); lia.
  - unfold s64. pose proof (Z.mod_pos_bound (w + 9223372036854775808) DWORD ltac:(lia)). apply (Hr 9223372036854775808); lia.
  - pose proof (s32_range w). unfold is_s32 in *. apply (Hr 2147483648); lia.
  - pose proof (u32_range w). unfold is_u32, SIZE_MAX in *. apply (Hr 4294967296); [lia|]. destruct (_ <? _); lia.
Qed.

Lemma unsigned_value_range ty args v args' : unsigned_value ty args = Ok (v, args') → 0 ≤ v < DWORD.
Proof.
  unfold unsigned_value. destruct ty; intros ([w a] & _ & [= <- <-])%res_bind_Ok.
  - pose proof (Z.mod_pos_bound w 256 ltac:(lia)). lia.
  - pose proof (Z.mod_pos_bound w 65536 ltac:(lia)). lia.
  - pose proof (u32_range w). unfold is_u32 in *. lia.
  - unfold u64. by apply Z.mod_pos_bound.
  - pose proof (u32_range w). unfold is_u32 in *. lia.
  - unfold u64. by apply Z.mod_pos_bound.
  - change 4294967295 with (2 ^ 32 - 1). rewrite Z.sub_1_r, <-Z.ones_equiv, Z.land_ones by lia. change (2 ^ 32) with 4294967296.
    pose proof (Z.mod_pos_bound (u64 (s32 w)) 4294967296 ltac:(lia)). lia.
  - pose proof (u32_range w). unfold is_u32 in *. lia.
Qed.

(** *** Parsing moves forward *)

Lemma parse_flags_length f fl : (length (parse_flags f fl).2 ≤ length f)%nat.
Proof.
  revert fl. induction f as [|c f IH]; intros fl; cbn [parse_flags length]; [done|].
  repeat match goal with |- context [if ?b then _ else _] => destruct b end; try (etransitivity; [apply IH|lia]). done.
Qed.

Lemma parse_number_length f n : (length (parse_number f n).2 ≤ length f)%nat.
Proof.
  revert n. induction f as [|c f IH]; intros n; cbn [parse_number length]; [done|]. destruct (isdigit c); [|done]. etransitivity; [apply IH|lia].
Qed.

Lemma advance_length f f' : advance f = Ok f' → (length f = S (length f'))%nat.
Proof. destruct f; [done|]. by intros [= <-]. Qed.

Lemma advance_nt f : advance f ≠ Timeout.
Proof. by destruct f. Qed.

Lemma va_int_nt args : va_int args ≠ Timeout.
Proof. by destruct args as [|[]]. Qed.

(** A parser returns, with a suffix of the format. *)
Definition moves {B} (f : list Z) (m : res (B * list Z)) : Prop :=
  m ≠ Timeout ∧ ∀ b f', m = Ok (b, f') → (length f' ≤ length f)%nat.
Definition moves_args {B} (f : list Z) (m : res (B * list Z * list arg)) : Prop :=
  m ≠ Timeout ∧ ∀ b f' args', m = Ok (b, f', args') → (length f' ≤ length f)%nat.

Lemma star_moves f args : moves_args f (f ← advance f; '(p, args) ← va_int args; Ok (s32 p, f, args)).
Proof.
  split.
  - apply bind_nt; [apply advance_nt|]. intros f' _. apply bind_nt; [apply va_int_nt|]. by intros [p a] _.
  - intros b f' args' (f1 & H1 & E)%res_bind_Ok. apply advance_length in H1. apply res_bind_Ok in E as ([w a] & _ & [= <- <- <-]). lia.
Qed.

Lemma number_moves f args : moves_args f (let '(n, f) := parse_number f 0 in Ok (n, f, args)).
Proof.
  pose proof (parse_number_length f 0). destruct (parse_number f 0) as [n f1]. split; [done|]. by intros b f' args' [= <- <- <-].
Qed.

Lemma parse_width_moves f args : moves_args f (parse_width f args).
Proof. unfold parse_width. destruct (_ =? _); [apply star_moves|apply number_moves]. Qed.

Lemma parse_precision_moves f args : moves_args f (parse_precision f args).
Proof.
  unfold parse_precision. destruct (_ =? _); [|split; [done|]; by intros b f' args' [= <- <- <-]].
  assert (∀ f1, moves_args f1 (if cur f1 =? ch "*" then f ← advance f1; '(p, args) ← va_int args; Ok (s32 p, f, args)
    else let '(n, f) := parse_number f1 0 in Ok (n, f, args))) as Hin.
  { intros f1. destruct (_ =? _); [apply star_moves|apply number_moves]. }
  split.
  - apply bind_nt; [apply advance_nt|]. intros f1 _. apply bind_nt; [apply Hin|]. by intros [[w f2] a] _.
  - intros b f' args' (f1 & H1 & E)%res_bind_Ok. apply advance_length in H1. apply res_bind_Ok in E as ([[w f2] a] & E2 & [= <- <- <-]).
    apply Hin in E2. lia.
Qed.

Lemma parse_type_moves f : moves f (parse_type f).
Proof.
  unfold parse_type. split.
  - repeat match goal with |- (if ?b then _ else _) ≠ _ => destruct b end; try done;
      (apply bind_nt; [apply advance_nt|]; intros f1 _); try done; destruct (_ =? _); try done; (apply bind_nt; [apply advance_nt|]; done).
  - intros ty f'. repeat match goal with |- (if ?b then _ else _) = _ → _ => destruct b end;
      try (intros (f1 & ?%advance_length & E)%res_bind_Ok); try (intros [= <- <-]; lia);
      repeat match type of E with (if ?b then _ else _) = _ => destruct b end; try (injection E as <- <-; lia);
      apply res_bind_Ok in E as (f2 & ?%advance_length & [= <- <-]); lia.
Qed.

Lemma parse_conversion_moves f args : moves_args f (parse_conversion f args).
Proof.
  unfold parse_conversion. pose proof (parse_flags_length f 0) as Hf. destruct (parse_flags f 0) as [fl f0]. simpl in Hf. split.
  - apply bind_nt; [apply parse_width_moves|]. intros [[w f1] a1] _. destruct (if w <? 0 then _ else _) as [w' fl'].
    apply bind_nt; [apply parse_precision_moves|]. intros [[pr f2] a2] _. apply bind_nt; [apply parse_type_moves|]. by intros [ty f3] _.
  - intros c f' args' ([[w f1] a1] & E1 & E)%res_bind_Ok. destruct (if w <? 0 then _ else _) as [w' fl'].
    apply res_bind_Ok in E as ([[pr f2] a2] & E2 & E). apply res_bind_Ok in E as ([ty f3] & E3 & [= <- <- <-]).
    apply parse_width_moves in E1. apply parse_precision_moves in E2. apply parse_type_moves in E3. lia.
Qed.

(** *** Termination *)

Lemma message_nt tl k fuel aux :
  Forall (λ c, c ≠ ch "%") tl → (length tl + 8 < fuel)%nat →
  vprintf_loop output fuel (bytes "<<no %%%c" ++ tl) [AInt k] aux ≠ Timeout.
Proof using Hout.
  intros Htl Hf. change (bytes "<<no %%%c" ++ tl) with (bytes "<<no " ++ ch "%" :: ch "%" :: ch "%" :: ch "c" :: tl).
  replace fuel with (length (bytes "<<no ") + S (S (fuel - 7)))%nat by (simpl; lia).
  rewrite vprintf_plain by (repeat constructor; done). apply bind_nt; [apply output_all_nt|]. intros a1 _.
  cbn [vprintf_loop]. change (negb (ch "%" =? ch "%")) with false. cbn [cur]. change (ch "%" =? ch "%") with true. cbn iota.
  apply bind_nt; [apply Hout|]. intros a2 _. cbn [advance]. mstep. change (negb (ch "%" =? ch "%")) with false. change (ch "c" =? ch "%") with false. cbn iota.
  change (parse_conversion (ch "c" :: tl) [AInt k]) with (Ok (Conv 0 0 (-1) INT, ch "c" :: tl, [AInt k])). mstep. cbn [cur].
  apply bind_nt.
  - change (convert output (vprintf_loop output (fuel - 7)) (ch "c") (Conv 0 0 (-1) INT) [AInt k] a2) with
      (a ← format_string output [k mod 256] 1 (Conv 0 0 (-1) INT) a2; Ok (a, [] : list arg)).
    rewrite format_string_text. by apply bind_nt; [apply output_all_nt|].
  - intros [a3 args] _. cbn [advance]. mstep. rewrite vprintf_text by (done || lia). apply output_all_nt.
Qed.

Lemma convert_nt fuel k c args aux : (25 ≤ fuel)%nat → convert output (vprintf_loop output fuel) k c args aux ≠ Timeout.
Proof using Hout.
  intros Hf. assert (∀ (m : res A) args', m ≠ Timeout → (a ← m; Ok (a, args' : list arg)) ≠ Timeout) as Hret by (intros m args' Hm; by apply bind_nt).
  destruct bases_ok as (Hbd & Hbo & Hbx & HbX). unfold convert.
  destruct ((k =? ch "d") || (k =? ch "i")).
  { apply bind_nt; [by destruct (type c); destruct args as [|[]]|]. intros [v a] Hv. apply Hret, format_integer_nt; [done|]. by eapply signed_value_range. }
  destruct (_ || _ || _ || _).
  { apply bind_nt; [by destruct (type c); destruct args as [|[]]|]. intros [v a] Hv. apply unsigned_value_range in Hv. apply Hret, format_integer_nt; [|done].
    by repeat match goal with |- context [if ?b then _ else _] => destruct b end. }
  destruct (k =? ch "c").
  { apply bind_nt; [apply va_int_nt|]. intros [v a] _. apply Hret. rewrite format_string_text. apply output_all_nt. }
  destruct (k =? ch "s").
  { apply bind_nt; [by destruct args as [|[]]|]. intros [v a] _. apply Hret. rewrite format_string_text. apply output_all_nt. }
  destruct (k =? ch "p").
  { apply bind_nt; [apply va_int_nt|]. intros [v a] _. apply Hret, format_integer_nt; [done|]. pose proof (u32_range v). unfold is_u32 in *. lia. }
  destruct (_ || _ || _ || _ || _ || _); apply Hret.
  - apply (message_nt (bytes " in kernel>>")); [repeat constructor; done|simpl; lia].
  - apply (message_nt (bytes " conversion>>")); [repeat constructor; done|simpl; lia].
Qed.

Lemma vprintf_nt fuel f args aux : (length f + 26 ≤ fuel)%nat → vprintf_loop output fuel f args aux ≠ Timeout.
Proof using Hout.
  revert f args aux. induction fuel as [|fuel IH]; intros f args aux Hf; [lia|]. destruct f as [|c f]; [done|]. cbn [vprintf_loop]. cbn [length] in Hf.
  destruct (negb _); [apply bind_nt; [apply Hout|]; intros a _; apply IH; lia|].
  destruct (cur f =? ch "%").
  { apply bind_nt; [apply Hout|]. intros a _. apply bind_nt; [apply advance_nt|]. intros f1 ?%advance_length. apply IH. lia. }
  apply bind_nt; [apply parse_conversion_moves|]. intros [[c1 f1] a1] Hp. apply parse_conversion_moves in Hp.
  apply bind_nt; [apply convert_nt; lia|]. intros [a2 args2] _. apply bind_nt; [apply advance_nt|]. intros f2 ?%advance_length. apply IH. lia.
Qed.

End formats.

(** A format that ends in a percent sign is read past its end. *)
Lemma trailing_percent_overread l args out :
  Forall (λ c, c ≠ ch "%") l → printf (l ++ [ch "%"]) args out = Fault BadAccess.
Proof.
  intros Hl. unfold printf, __vprintf, vprintf_fuel. rewrite length_app, <-Nat.add_assoc, vprintf_plain by done. rewrite output_all_putchar. mstep. by vm_compute.
Qed.

(** C37. What printf writes for an integer, atoi reads back: for every conversion that ends
    in d without the grouping flag, whatever its flags, width and precision, the text of
    a 32-bit integer is turned back into the integer. *)
Theorem printf_decimal_roundtrip f args c v :
  is_s32 v → parse_conversion f args = Ok (c, [ch "d"], [AInt (u32 v)]) → type c = INT → flag (flags c) GROUP = false →
  ∃ text, printf (ch "%" :: f) args [] = Ok text ∧ atoi text = v.
Proof.
  intros Hv Hp Ht Hg. destruct (decimal_text v c Hv Hg) as (l & El & Hl). exists l. split; [|done].
  unfold printf, __vprintf, vprintf_fuel. cbn [length Nat.add]. set (fuel := (length f + 30)%nat). cbn [vprintf_loop].
  change (negb (ch "%" =? ch "%")) with false. assert ((cur f =? ch "%") = false) as ->.
  { destruct f as [|k f]; [done|]. cbn [cur]. apply Z.eqb_neq. intros ->.
    change (parse_conversion (ch "%" :: f) args) with (Ok (Conv 0 0 (-1) INT, ch "%" :: f, args)) in Hp. discriminate Hp. }
  rewrite Hp. mstep. cbn [cur]. unfold convert. change ((ch "d" =? ch "d") || _) with true. cbn iota. rewrite Ht. cbn [signed_value va_int]. mstep.
  rewrite s32_u32 by done. rewrite format_integer_text, El. mstep. rewrite output_all_putchar. mstep. cbn [advance]. mstep.
  unfold fuel. replace (length f + 30)%nat with (S (length f + 29)) by lia. done.
Qed.

Lemma printf_decimal_roundtrip_witness :
  ∃ text, printf (bytes "%+8d") [AInt (u32 (-42))] [] = Ok text ∧ atoi text = -42.
Proof.
  apply (printf_decimal_roundtrip (bytes "+8d") [AInt (u32 (-42))] (Conv PLUS 8 (-1) INT) (-42)); [by vm_compute|by vm_compute|done|done].
Defined.

(** vsnprintf stays in its buffer: it writes as much of the text as fits before the last
    byte, a null byte after it, and nothing else, and returns the length of the whole
    text; with a size of 0 it writes nothing. *)
Theorem vsnprintf_bounded buf format args l :
  printf format args [] = Ok l → Z.of_nat (length l) < 2147483648 → Z.of_nat (length buf) ≤ 2147483648 →
  (buf ≠ [] →
   let k := Nat.min (length l) (length buf - 1) in
   vsnprintf buf (Z.of_nat (length buf)) format args = Ok (take k l ++ [0] ++ drop (S k) buf, Z.of_nat (length l))) ∧
  vsnprintf buf 0 format args = Ok (buf, Z.of_nat (length l)).
Proof.
  intros Hp Hl Hb. split; [by apply vsnprintf_text|]. unfold vsnprintf. cbn [Z.ltb Z.compare].
  destruct (vprintf_same _ _ _ _ _ Hp) as (l' & E & Hall). simpl in E. subst l'. unfold __vprintf. rewrite Hall.
  destruct (helper_all l buf 0 0) as (b' & Eh & Hlen & Hb'); [lia|lia|lia|]. change (s32 0) with 0. change (Z.min 0 0) with 0 in Eh. rewrite Eh. mstep.
  cbn [buffer vlength]. do 2 f_equal. apply list_eq. intros i. rewrite Hb', bool_decide_eq_false_2 by lia. done.
Qed.

Lemma vsnprintf_bounded_witness :
  let buf := replicate 5 170 in
  (buf ≠ [] →
   let k := Nat.min (length (bytes "x = 42")) (length buf - 1) in
   vsnprintf buf (Z.of_nat (length buf)) (bytes "x = %d") [AInt 42] = Ok (take k (bytes "x = 42") ++ [0] ++ drop (S k) buf, 6)) ∧
  vsnprintf buf 0 (bytes "x = %d") [AInt 42] = Ok (buf, 6).
Proof. apply (vsnprintf_bounded (replicate 5 170) (bytes "x = %d") [AInt 42] (bytes "x = 42")); by vm_compute. Defined.

(** Formatted output terminates on every format and every list of arguments, and the
    conversion of an integer never overruns its buffer of 64 characters: it returns for
    every 64-bit value, base, set of flags, width and precision. *)
Theorem printf_terminates :
  (∀ format args out, printf format args out ≠ Timeout) ∧
  (∀ buf size format args, vsnprintf buf size format args ≠ Timeout) ∧
  ∀ v is_signed negative b c out, b ∈ [base_d; base_o; base_x; base_X] → is_u64 v →
    ∃ text, format_integer putchar v is_signed negative b c out = Ok (out ++ text).
Proof.
  split_and!.
  - intros format args out. apply vprintf_nt; [done|unfold vprintf_fuel; lia].
  - intros buf size format args. unfold vsnprintf. assert (∀ b q c, poke b q c ≠ Timeout) as Hpoke by (intros; unfold poke; by destruct (_ && _)).
    apply bind_nt; [apply vprintf_nt; [|unfold vprintf_fuel; lia]|].
    + intros c [b q n m]. rewrite helper_eq. destruct (n <? m); [|done]. by apply bind_nt.
    + intros aux _. apply bind_nt; [|done]. by destruct (0 <? size).
  - intros v sg ng b c out Hb Hv. assert (base_ok b) as Hok by (destruct bases_ok as (? & ? & ? & ?); set_solver).
    rewrite format_integer_text. unfold int_text. destruct (int_buf_total v b c Hok Hv) as (buf & -> & _). mstep.
    rewrite output_all_putchar. by eexists.
Qed.
