(* ===== verification/Ustar.v ===== *)
(** Headers of tar archives in the ustar format (src/lib/ustar.c).

    A header is a record of its fields, as the packed structure in the code;
    [to_bytes] is the structure as 512 bytes and [of_bytes] the cast back.  The octal
    fields are printed by [snprintf]. *)

From Stdlib Require Import Ascii String.
From S2P Require Import Prelude Stdio.

(** ** Data *)

Definition USTAR_HEADER_SIZE : Z := 512.

Inductive ustar_type := USTAR_REGULAR | USTAR_DIRECTORY | USTAR_EOF.

Definition type_code (t : ustar_type) : Z :=
  match t with USTAR_REGULAR => ch "0" | USTAR_DIRECTORY => ch "5" | USTAR_EOF => -1 end.

#[export] Instance ustar_type_eq_dec : EqDecision ustar_type.
Proof. solve_decision. Defined.

Record ustar_header := Header {
  name : list Z;
  mode : list Z;
  uid : list Z;
  gid : list Z;
  size : list Z;
  mtime : list Z;
  chksum : list Z;
  typeflag : list Z;
  linkname : list Z;
  magic : list Z;
  version : list Z;
  uname : list Z;
  gname : list Z;
  devmajor : list Z;
  devminor : list Z;
  prefix : list Z;
  padding : list Z;
}.

Definition to_bytes (h : ustar_header) : list Z :=
  name h ++ mode h ++ uid h ++ gid h ++ size h ++ mtime h ++ chksum h ++ typeflag h ++ linkname h ++
  magic h ++ version h ++ uname h ++ gname h ++ devmajor h ++ devminor h ++ prefix h ++ padding h.

(** The [n] bytes at offset [ofs]. *)
Definition slice (l : list Z) (ofs n : nat) : list Z := take n (drop ofs l).

Definition of_bytes (l : list Z) : ustar_header :=
  Header (slice l 0 100) (slice l 100 8) (slice l 108 8) (slice l 116 8) (slice l 124 12) (slice l 136 12) (slice l 148 8)
    (slice l 156 1) (slice l 157 100) (slice l 257 6) (slice l 263 2) (slice l 265 32) (slice l 297 32) (slice l 329 8)
    (slice l 337 8) (slice l 345 155) (slice l 500 12).

(** ** Checksums *)

Definition in_chksum_field (i : Z) : bool := (148 <=? i) && (i <? 148 + 8).

Fixpoint chksum_loop (l : list Z) (i chksum : Z) : Z :=
  match l with
  | [] => chksum
  | c :: l => chksum_loop l (i + 1) (u32 (chksum + if in_chksum_field i then ch " " else c))
  end.

Definition calculate_chksum (h : ustar_header) : Z := chksum_loop (to_bytes h) 0 0.

(** ** Names *)

(** [strchr (file_name, '/') + 1]. *)
Fixpoint after_slash (s : list Z) : res (list Z) :=
  match s with
  | [] => Fault BadAccess
  | c :: s => if c =? ch "/" then Ok s else after_slash s
  end.

(** [!memcmp (s, pre, size)] for a string [pre] of that size. *)
Definition starts_with (s pre : list Z) : bool := bool_decide (take (length pre) s = pre).

Definition antisocial (s : list Z) : bool :=
  (cur s =? ch "/") || starts_with s (bytes "./") || starts_with s (bytes "../").

Fixpoint strip_loop (fuel : nat) (s : list Z) : res (list Z) :=
  match fuel with
  | O => Timeout
  | S fuel => if antisocial s then s ← after_slash s; strip_loop fuel s else Ok s
  end.

Definition strip_antisocial_prefixes (file_name : list Z) : res (list Z) :=
  s ← strip_loop (S (length file_name)) file_name;
  Ok (if (cur s =? 0) || bool_decide (s = bytes "..") then bytes "." else s).

(** ** Writing *)

(** [strlcpy] into a field. *)
Definition copy_string (field src : list Z) : list Z :=
  let k := Nat.min (length src) (length field - 1) in
  take k src ++ [0] ++ drop (S k) field.

(** [snprintf] of an integer into a field. *)
Definition print_field (field : list Z) (format : string) (v : Z) : res (list Z) :=
  '(field, _) ← snprintf field (Z.of_nat (length field)) (bytes format) [AInt v]; Ok field.

Definition zero_header : ustar_header := of_bytes (replicate 512 0).

(** The header with another field [chksum]. *)
Definition set_chksum (h : ustar_header) (f : list Z) : ustar_header :=
  Header (name h) (mode h) (uid h) (gid h) (size h) (mtime h) f (typeflag h) (linkname h) (magic h) (version h) (uname h) (gname h)
    (devmajor h) (devminor h) (prefix h) (padding h).

(** The failure, with the message on the console, or the header. *)
Inductive made := TooLong (console : list Z) | Made (header : list Z).

Definition ustar_make_header (file_name : list Z) (type : ustar_type) (sz : Z) : res made :=
  ASSERT bool_decide (type = USTAR_REGULAR) || bool_decide (type = USTAR_DIRECTORY) ;;
  file_name ← strip_antisocial_prefixes file_name;
  if 99 <? Z.of_nat (length file_name) then
    console ← printf (bytes "%s: file name too long" ++ [10]) [AStr (Some file_name)] []; Ok (TooLong console)
  else
    let h := zero_header in
    mode ← print_field (mode h) "%07o" (match type with USTAR_REGULAR => 420 | _ => 493 end);
    size ← print_field (size h) "%011o" (u32 sz);
    mtime ← print_field (mtime h) "%011o" 1136102400;
    let h := Header (copy_string (name h) file_name) mode (copy_string (uid h) (bytes "0000000"))
      (copy_string (gid h) (bytes "0000000")) size mtime (chksum h) [type_code type] (linkname h)
      (copy_string (magic h) (bytes "ustar")) [ch "0"; ch "0"] (copy_string (uname h) (bytes "root"))
      (copy_string (gname h) (bytes "root")) (devmajor h) (devminor h) (prefix h) (padding h) in
    sum ← print_field (chksum h) "%07o" (calculate_chksum h);
    Ok (Made (to_bytes (set_chksum h sum))).

(** ** Reading *)

(** [None] is a bad field. *)
Fixpoint octal_loop (s : list Z) (ofs value : Z) : option Z :=
  match s with
  | [] => None
  | c :: s =>
      if (ch "0" <=? c) && (c <=? ch "7") then
        if 4294967295 / 8 <? value then None
        else octal_loop s (ofs + 1) (u32 (c - ch "0" + value * 8))
      else if (c =? ch " ") || (c =? 0) then (if 0 <? ofs then Some value else None)
      else None
  end.

Definition parse_octal_field (s : list Z) : option Z := octal_loop s 0 0.

Definition is_all_zeros (block : list Z) : bool := forallb (λ c, c =? 0) block.

(** The string in a field. *)
Fixpoint c_string (l : list Z) : list Z :=
  match l with
  | [] => []
  | c :: l => if c =? 0 then [] else c :: c_string l
  end.

(** A message, or the name, the type and the size. *)
Inductive parsed := Message (m : string) | Parsed (file_name : option (list Z)) (type : ustar_type) (size : Z).

Definition ustar_parse_header (header : list Z) : res parsed :=
  let h := of_bytes header in
  if is_all_zeros header then Ok (Parsed None USTAR_EOF 0)
  else if negb (bool_decide (magic h = bytes "ustar" ++ [0])) then Ok (Message "not a ustar archive")
  else if negb (bool_decide (version h = [ch "0"; ch "0"])) then Ok (Message "invalid ustar version")
  else
    match parse_octal_field (chksum h) with
    | None => Ok (Message "corrupt chksum field")
    | Some sum =>
        if negb (sum =? calculate_chksum h) then Ok (Message "checksum mismatch")
        else if negb (default 0 (name h !! 99%nat) =? 0) || negb (cur (prefix h) =? 0) then Ok (Message "file name too long")
        else
          let t := cur (typeflag h) in
          if negb (t =? type_code USTAR_REGULAR) && negb (t =? type_code USTAR_DIRECTORY) then Ok (Message "unimplemented file type")
          else
            let regular := t =? type_code USTAR_REGULAR in
            match (if regular then parse_octal_field (size h) else Some 0) with
            | None => Ok (Message "corrupt file size field")
            | Some n =>
                if regular && (2147483647 <? n) then Ok (Message "file too large")
                else
                  s ← strip_antisocial_prefixes (c_string (name h));
                  Ok (Parsed (Some s) (if regular then USTAR_REGULAR else USTAR_DIRECTORY) n)
            end
    end.

(** ** Names without dangerous prefixes *)

(** What the loop stops at. *)
Definition sociable (s : list Z) : Prop := s ≠ [] ∧ s ≠ bytes ".." ∧ antisocial s = false.

Lemma after_slash_ok s : ch "/" ∈ s → ∃ p s', after_slash s = Ok s' ∧ s = p ++ ch "/" :: s'.
Proof.
  induction s as [|c s IH]; [by intros ?%elem_of_nil|]. intros Hin. cbn [after_slash]. destruct (Z.eqb_spec c (ch "/")) as [->|Hc].
  - by exists [], s.
  - destruct IH as (p & s' & -> & ->); [set_solver|]. by exists (c :: p), s'.
Qed.

Lemma antisocial_slash s : antisocial s = true → ch "/" ∈ s.
Proof.
  unfold antisocial, starts_with. intros [[Hc%Z.eqb_eq|Hp%bool_decide_eq_true]%orb_true_iff|Hp%bool_decide_eq_true]%orb_true_iff.
  - destruct s as [|c s]; [done|]. simpl in Hc. subst c. left.
  - rewrite <-(take_drop 2 s). apply elem_of_app. left. change 2%nat with (length (bytes "./")). rewrite Hp. apply list_elem_of_In. simpl. tauto.
  - rewrite <-(take_drop 3 s). apply elem_of_app. left. change 3%nat with (length (bytes "../")). rewrite Hp. apply list_elem_of_In. simpl. tauto.
Qed.

Lemma strip_loop_ok fuel s : (length s < fuel)%nat → ∃ p s', strip_loop fuel s = Ok s' ∧ s = p ++ s' ∧ antisocial s' = false.
Proof.
  revert s. induction fuel as [|fuel IH]; intros s Hf; [lia|]. cbn [strip_loop]. destruct (antisocial s) eqn:Ha; [|by exists [], s].
  destruct (after_slash_ok s (antisocial_slash s Ha)) as (p & s' & -> & ->). mstep. rewrite length_app in Hf. simpl in Hf.
  destruct (IH s') as (q & r & -> & -> & Hr); [lia|]. exists (p ++ ch "/" :: q), r. by rewrite <-app_assoc.
Qed.

Definition no_nul (s : list Z) : Prop := Forall (λ c, 1 ≤ c < 256) s.

Lemma strip_ok s :
  no_nul s → ∃ s', strip_antisocial_prefixes s = Ok s' ∧ sociable s' ∧ no_nul s' ∧ (s' `suffix_of` s ∨ s' = bytes ".").
Proof.
  intros Hn. unfold strip_antisocial_prefixes. destruct (strip_loop_ok (S (length s)) s) as (p & r & -> & -> & Hr); [lia|]. mstep.
  apply Forall_app in Hn as [_ Hn]. destruct (Z.eqb_spec (cur r) 0) as [Hz|Hz]; cbn [orb].
  { exists (bytes "."). split_and!; [done|by vm_compute|repeat constructor; by vm_compute|by right]. }
  case_bool_decide as Hd.
  { exists (bytes "."). split_and!; [done|by vm_compute|repeat constructor; by vm_compute|by right]. }
  exists r. split_and!; [done| |done|left; by exists p]. split_and!; [by intros ->|done|done].
Qed.

Lemma strip_sociable s : no_nul s → sociable s → strip_antisocial_prefixes s = Ok s.
Proof.
  intros Hn (Hne & Hd & Ha). unfold strip_antisocial_prefixes. cbn [strip_loop]. rewrite Ha. mstep. rewrite bool_decide_eq_false_2 by done.
  destruct Hn as [|c s Hc]; [done|]. cbn [cur]. by rewrite (proj2 (Z.eqb_neq c 0)) by lia.
Qed.

(** ** Octal fields *)

Definition octal_digits (l : list Z) : Prop := Forall (λ d, ch "0" ≤ d < ch "0" + 8) l.

Lemma octal_mono l a : 0 ≤ a → octal_digits l → a ≤ foldl (read_digit 8) a l.
Proof.
  intros Ha Hl. revert a Ha. induction Hl as [|d l Hd _ IH]; intros a Ha; [done|]. cbn [foldl].
  assert (a ≤ read_digit 8 a d) as H by (unfold read_digit; lia). etransitivity; [exact H|]. apply IH. lia.
Qed.

Lemma octal_loop_ok l rest ofs a :
  octal_digits l → 0 ≤ a → 0 ≤ ofs → 0 < ofs + Z.of_nat (length l) → foldl (read_digit 8) a l < 4294967296 →
  octal_loop (l ++ 0 :: rest) ofs a = Some (foldl (read_digit 8) a l).
Proof.
  intros Hl. revert ofs a. induction Hl as [|d l Hd Hl IH]; intros ofs a Ha Ho Hlen Hf; cbn [app octal_loop foldl].
  { simpl in Hlen. change ((ch "0" <=? 0) && _) with false. change ((0 =? ch " ") || _) with true. cbn iota. by rewrite (proj2 (Z.ltb_lt 0 ofs)) by lia. }
  cbn [foldl] in Hf. change (ch "7") with 55. change (ch "0") with 48 in Hd |- *. assert (0 ≤ read_digit 8 a d) as Hr by (unfold read_digit; change (ch "0") with 48; lia).
  pose proof (octal_mono l (read_digit 8 a d) Hr Hl) as Hm.
  assert (read_digit 8 a d = d - 48 + a * 8) as E by (unfold read_digit; change (ch "0") with 48; lia).
  rewrite (proj2 (Z.leb_le 48 d)), (proj2 (Z.leb_le d 55)) by lia. cbn [andb]. change (4294967295 / 8) with 536870911.
  rewrite (proj2 (Z.ltb_ge 536870911 a)) by lia. rewrite u32_small by (unfold is_u32; lia). rewrite <-E.
  apply IH; [lia|lia|lia|done].
Qed.

(** The text of an octal conversion with zeros on the left. *)
Lemma octal_text (w : nat) v :
  (1 ≤ w ≤ 11)%nat → 0 ≤ v < 8 ^ Z.of_nat w →
  ∃ l, int_text v false false base_o (Conv ZERO (Z.of_nat w) (-1) INT) = Ok l ∧ length l = w ∧ octal_digits l ∧ foldl (read_digit 8) 0 l = v.
Proof.
  intros Hw Hv. set (c := Conv ZERO (Z.of_nat w) (-1) INT). unfold int_text, int_buf.
  destruct (digits_loop_value w 64 v 0 base_o (flags c) [] (proj2 decimal_bases) eq_refl Hv) as (ds & -> & Hval & Hlen & Hall & _); [lia|simpl; lia|]. mstep.
  destruct (zeros_loop_ok 64 (if precision c <? 0 then 1 else precision c) ([] ++ ds)) as (k & -> & Hk & Hk1); [simpl; lia|simpl; lia|]. mstep.
  rewrite app_nil_l in *. change (flag (flags c) POUND) with false. cbn [andb]. mstep. eexists. split; [done|].
  unfold int_layout. change (sign_char _ _ _) with 0. change (flag (flags c) ZERO) with true. change (flag (flags c) MINUS) with false.
  change (flag (flags c) (Z.lor MINUS ZERO)) with true. cbn [Z.eqb app]. rewrite app_nil_r. set (buf := ds ++ replicate k (ch "0")) in *.
  assert (length buf ≤ w ∧ 1 ≤ length buf)%nat as [Hbuf _].
  { unfold buf. rewrite length_app, length_replicate. cbn [precision c Z.ltb Z.compare] in Hk1. lia. }
  assert (octal_digits buf) as Hoct by (apply Forall_app; split; [exact Hall|apply Forall_replicate; by vm_compute]). split_and!.
  - rewrite length_app, length_replicate, length_rev. unfold pad_of. cbn [width c Z.eqb]. rewrite s32_small by (unfold is_s32; lia).
    rewrite (proj2 (Z.ltb_ge _ _)) by lia. lia.
  - apply Forall_app. split; [apply Forall_replicate; by vm_compute|by apply Forall_rev].
  - rewrite foldl_app. assert (∀ n, foldl (read_digit 8) 0 (replicate n (ch "0")) = 0) as -> by (intros n; by induction n).
    rewrite num_of_rev. unfold buf. by rewrite num_of_zeros.
Qed.

Lemma octal_printf f args (w : nat) v :
  parse_conversion f args = Ok (Conv ZERO (Z.of_nat w) (-1) INT, [ch "o"], [AInt v]) → cur f ≠ ch "%" →
  (1 ≤ w ≤ 11)%nat → 0 ≤ v < 8 ^ Z.of_nat w → is_u32 v →
  ∃ l, printf (ch "%" :: f) args [] = Ok l ∧ length l = w ∧ octal_digits l ∧ foldl (read_digit 8) 0 l = v.
Proof.
  intros Hp Hc Hw Hv Hu. destruct (octal_text w v Hw Hv) as (l & El & Hl). exists l. split; [|done].
  unfold printf, __vprintf, vprintf_fuel. cbn [length Nat.add]. set (fuel := (length f + 30)%nat). cbn [vprintf_loop].
  change (negb (ch "%" =? ch "%")) with false. rewrite (proj2 (Z.eqb_neq (cur f) (ch "%"))) by done. rewrite Hp. mstep. cbn [cur]. unfold convert.
  change ((ch "o" =? ch "d") || _) with false. change ((ch "o" =? ch "o") || _ || _ || _) with true. change (ch "o" =? ch "o") with true. cbn iota.
  cbn [unsigned_value type va_int]. mstep. rewrite u32_small by done. rewrite format_integer_text, El. mstep. rewrite output_all_putchar. mstep.
  cbn [advance]. mstep. unfold fuel. replace (length f + 30)%nat with (S (length f + 29)) by lia. done.
Qed.

(** A field of zeros filled in by one of the two octal formats. *)
Lemma print_field_ok (w : nat) format v :
  (w = 7%nat ∧ format = "%07o"%string) ∨ (w = 11%nat ∧ format = "%011o"%string) → 0 ≤ v < 8 ^ Z.of_nat w → is_u32 v →
  ∃ l, print_field (replicate (S w) 0) format v = Ok (l ++ [0]) ∧ length l = w ∧ octal_digits l ∧ parse_octal_field (l ++ [0]) = Some v.
Proof.
  intros Hf Hv Hu. assert (1 ≤ w ≤ 11)%nat as Hw by lia.
  assert (∃ l, printf (bytes format) [AInt v] [] = Ok l ∧ length l = w ∧ octal_digits l ∧ foldl (read_digit 8) 0 l = v) as (l & Ep & Hlen & Hoct & Hval).
  { destruct Hf as [[-> ->]|[-> ->]]; (eapply octal_printf; [done|done|lia|done|done]). }
  exists l. split_and!; [|done|done|].
  - unfold print_field, snprintf. rewrite (vsnprintf_text _ _ _ l Ep) by (rewrite ?length_replicate; (lia || done)). mstep.
    rewrite length_replicate, Hlen. replace (w `min` (S w - 1))%nat with w by lia. rewrite take_ge by lia. by rewrite drop_replicate, Nat.sub_diag.
  - unfold parse_octal_field. rewrite (octal_loop_ok l []), Hval; [done|done|lia|lia|lia|unfold is_u32 in Hu; lia].
Qed.

(** ** The layout *)

(** The sizes of the fields. *)
Definition sized (h : ustar_header) : Prop :=
  length (name h) = 100%nat ∧ length (mode h) = 8%nat ∧ length (uid h) = 8%nat ∧ length (gid h) = 8%nat ∧ length (size h) = 12%nat ∧
  length (mtime h) = 12%nat ∧ length (chksum h) = 8%nat ∧ length (typeflag h) = 1%nat ∧ length (linkname h) = 100%nat ∧
  length (magic h) = 6%nat ∧ length (version h) = 2%nat ∧ length (uname h) = 32%nat ∧ length (gname h) = 32%nat ∧
  length (devmajor h) = 8%nat ∧ length (devminor h) = 8%nat ∧ length (prefix h) = 155%nat ∧ length (padding h) = 12%nat.

Lemma slice_skip a r ofs n k : length a = k → (k ≤ ofs)%nat → slice (a ++ r) ofs n = slice r (ofs - k) n.
Proof. intros <- H. unfold slice. by rewrite drop_app_ge. Qed.

Lemma slice_here a r n : length a = n → slice (a ++ r) 0 n = a.
Proof. intros <-. unfold slice. by rewrite drop_0, take_app_length. Qed.

Lemma of_to_bytes h : sized h → of_bytes (to_bytes h) = h.
Proof.
  destruct h as [f1 f2 f3 f4 f5 f6 f7 f8 f9 f10 f11 f12 f13 f14 f15 f16 f17]. unfold sized, to_bytes, of_bytes.
  cbn [name mode uid gid size mtime chksum typeflag linkname magic version uname gname devmajor devminor prefix padding].
  intros (H1 & H2 & H3 & H4 & H5 & H6 & H7 & H8 & H9 & H10 & H11 & H12 & H13 & H14 & H15 & H16 & H17).
  repeat match goal with H : length ?f = ?k |- context [slice (?f ++ ?r) ?o ?n] => first
    [rewrite (slice_here f r n H) | rewrite (slice_skip f r o n k H) by (apply Nat.leb_le; reflexivity); cbn [Nat.sub]] end.
  f_equal. unfold slice. rewrite drop_0. apply take_ge. lia.
Qed.

Lemma to_bytes_length h : sized h → length (to_bytes h) = 512%nat.
Proof. unfold sized, to_bytes. intros H. rewrite !length_app. lia. Qed.

(** ** Checksums *)

Lemma chksum_app a b i acc : chksum_loop (a ++ b) i acc = chksum_loop b (i + Z.of_nat (length a)) (chksum_loop a i acc).
Proof.
  revert i acc. induction a as [|c a IH]; intros i acc; cbn [app chksum_loop]; [f_equal; simpl; lia|]. rewrite IH. f_equal. simpl. lia.
Qed.

(** The bytes in the field of the checksum do not count. *)
Lemma chksum_field a b i acc :
  length a = length b → 148 ≤ i → i + Z.of_nat (length a) ≤ 156 → chksum_loop a i acc = chksum_loop b i acc.
Proof.
  revert b i acc. induction a as [|c a IH]; intros [|d b] i acc E Hi Hl; [done|done|done|]. cbn [chksum_loop]. simpl in *. unfold in_chksum_field.
  rewrite (proj2 (Z.leb_le 148 i)), (proj2 (Z.ltb_lt i _)) by lia. cbn [andb]. apply IH; lia.
Qed.

Definition byte_list (l : list Z) : Prop := Forall (λ c, 0 ≤ c < 256) l.

Lemma chksum_bound l i acc :
  byte_list l → 0 ≤ acc → acc + 255 * Z.of_nat (length l) < 4294967296 → 0 ≤ chksum_loop l i acc ≤ acc + 255 * Z.of_nat (length l).
Proof.
  intros Hl. revert i acc. induction Hl as [|c l Hc _ IH]; intros i acc Ha Hb; cbn [chksum_loop]; [simpl; lia|]. simpl length in *.
  set (d := if in_chksum_field i then ch " " else c). assert (0 ≤ d ≤ 255) as Hd by (unfold d; change (ch " ") with 32; destruct (in_chksum_field i); lia).
  rewrite u32_small by (unfold is_u32; lia). specialize (IH (i + 1) (acc + d)). lia.
Qed.

Lemma chksum_set h f : sized h → length f = 8%nat → calculate_chksum (set_chksum h f) = calculate_chksum h.
Proof.
  intros Hs Hf. unfold calculate_chksum, to_bytes, set_chksum.
  cbn [name mode uid gid size mtime chksum typeflag linkname magic version uname gname devmajor devminor prefix padding].
  unfold sized in Hs. rewrite !(chksum_app (name h)), !(chksum_app (mode h)), !(chksum_app (uid h)), !(chksum_app (gid h)), !(chksum_app (size h)), !(chksum_app (mtime h)).
  rewrite !(chksum_app f), !(chksum_app (chksum h)). replace (length (chksum h)) with (length f) by lia. f_equal. apply chksum_field; lia.
Qed.

(** ** Headers *)

Lemma copy_string_ok n src : (length src ≤ n)%nat → copy_string (replicate (S n) 0) src = src ++ [0] ++ replicate (n - length src) 0.
Proof.
  intros H. unfold copy_string. rewrite length_replicate. replace (length src `min` (S n - 1))%nat with (length src) by lia.
  rewrite take_ge by lia. by rewrite drop_replicate.
Qed.

Lemma c_string_ok s r : no_nul s → c_string (s ++ 0 :: r) = s.
Proof. induction 1 as [|c s Hc _ IH]; [done|]. cbn [app c_string]. rewrite (proj2 (Z.eqb_neq c 0)) by lia. by rewrite IH. Qed.

(** The fields that the code fills in. *)
Record good_header (h : ustar_header) (s : list Z) (t : ustar_type) (n : Z) : Prop := {
  good_sized : sized h;
  good_magic : magic h = bytes "ustar" ++ [0];
  good_version : version h = [ch "0"; ch "0"];
  good_chksum : parse_octal_field (chksum h) = Some (calculate_chksum h);
  good_name : name h = s ++ [0] ++ replicate (99 - length s) 0;
  good_short : (length s ≤ 99)%nat;
  good_prefix : cur (prefix h) = 0;
  good_type : typeflag h = [type_code t];
  good_size : parse_octal_field (size h) = Some n;
}.

Lemma parse_good h s t n :
  good_header h s t n → no_nul s → sociable s → t ≠ USTAR_EOF → n < 2147483648 →
  ustar_parse_header (to_bytes h) = Ok (Parsed (Some s) t (if decide (t = USTAR_REGULAR) then n else 0)).
Proof.
  intros [Hs Hm Hv Hc Hn Hl Hp Ht Hz] Hnul Hsoc Hnt Hlim. unfold ustar_parse_header. rewrite (of_to_bytes h Hs).
  assert (is_all_zeros (to_bytes h) = false) as ->.
  { apply not_true_is_false. unfold is_all_zeros. rewrite forallb_forall. intros H. specialize (H 117). discriminate H. 
    apply list_elem_of_In. unfold to_bytes. rewrite Hm, !elem_of_app. do 9 right. left. left. apply list_elem_of_In. simpl. tauto. }
  rewrite bool_decide_eq_true_2 by done. rewrite bool_decide_eq_true_2 by done. cbn [negb]. rewrite Hc, Z.eqb_refl, Hp. cbn [negb Z.eqb orb].
  assert (name h !! 99%nat = Some 0) as ->.
  { rewrite Hn, lookup_app_r by lia. destruct (99 - length s)%nat eqn:E; [done|]. cbn [app]. rewrite lookup_cons_ne_0 by lia. apply lookup_replicate. split; [done|lia]. }
  cbn [default from_option Z.eqb negb orb]. rewrite Ht, Hz, Hn. cbn [cur].
  change (s ++ [0] ++ replicate (99 - length s) 0) with (s ++ 0 :: replicate (99 - length s) 0). rewrite c_string_ok, strip_sociable by done.
  destruct t; [|done|done]. change (type_code USTAR_REGULAR =? type_code USTAR_REGULAR) with true. cbn [negb andb].
  rewrite (proj2 (Z.ltb_ge 2147483647 n)) by lia. done.
Qed.

Lemma byte_listb l : forallb (λ c, (0 <=? c) && (c <? 256)) l = true → byte_list l.
Proof. intros H. apply Forall_forall. intros c Hc. rewrite forallb_forall in H. specialize (H c (proj1 (list_elem_of_In _ _) Hc)). lia. Qed.

Lemma octal_bytes l : octal_digits l → byte_list (l ++ [0]).
Proof. intros Hl. apply Forall_app. split; [|repeat constructor; lia]. apply (Forall_impl _ _ _ Hl). change (ch "0") with 48. intros. lia. Qed.

(** A header without its checksum, with the octal fields given. *)
Definition draft (s fm fs ft : list Z) (t : ustar_type) : ustar_header :=
  let h := zero_header in
  Header (copy_string (name h) s) fm (copy_string (uid h) (bytes "0000000")) (copy_string (gid h) (bytes "0000000")) fs ft (chksum h)
    [type_code t] (linkname h) (copy_string (magic h) (bytes "ustar")) [ch "0"; ch "0"] (copy_string (uname h) (bytes "root"))
    (copy_string (gname h) (bytes "root")) (devmajor h) (devminor h) (prefix h) (padding h).

Lemma draft_name s fm fs ft t : (length s ≤ 99)%nat → name (draft s fm fs ft t) = s ++ [0] ++ replicate (99 - length s) 0.
Proof. apply (copy_string_ok 99). Qed.

Lemma draft_sized s fm fs ft t :
  (length s ≤ 99)%nat → length fm = 8%nat → length fs = 12%nat → length ft = 12%nat → sized (draft s fm fs ft t).
Proof.
  intros Hs Hm Hz Ht. unfold sized. rewrite draft_name by done. rewrite !length_app, length_replicate. split_and!; try done. simpl. lia.
Qed.

Lemma draft_chksum s fm fs ft t :
  no_nul s → (length s ≤ 99)%nat → t ≠ USTAR_EOF → length fm = 8%nat → length fs = 12%nat → length ft = 12%nat →
  byte_list fm → byte_list fs → byte_list ft → 0 ≤ calculate_chksum (draft s fm fs ft t) < 2097152.
Proof.
  intros Hn Hs Ht Lm Ls Lt Hm Hz Htm. pose proof (to_bytes_length _ (draft_sized s fm fs ft t Hs Lm Ls Lt)) as Hlen. unfold calculate_chksum.
  assert (byte_list (to_bytes (draft s fm fs ft t))) as Hb; [|pose proof (chksum_bound _ 0 0 Hb); lia].
  unfold to_bytes. rewrite draft_name by done. unfold byte_list. rewrite !Forall_app. unfold no_nul in Hn.
  split_and!; try done; try (apply (Forall_impl _ _ _ Hn); intros; lia); try (apply Forall_replicate; lia);
    apply byte_listb; by destruct t.
Qed.

(** What is left of the operation when the name is good. *)
Lemma make_unfold s t sz :
  strip_antisocial_prefixes s = Ok s → (length s ≤ 99)%nat → t ≠ USTAR_EOF →
  ustar_make_header s t sz =
    (fm ← print_field (mode zero_header) "%07o" (match t with USTAR_REGULAR => 420 | _ => 493 end);
     fs ← print_field (size zero_header) "%011o" (u32 sz);
     ft ← print_field (mtime zero_header) "%011o" 1136102400;
     sum ← print_field (chksum zero_header) "%07o" (calculate_chksum (draft s fm fs ft t));
     Ok (Made (to_bytes (set_chksum (draft s fm fs ft t) sum)))).
Proof.
  intros Hstrip Hs Ht. unfold ustar_make_header. rewrite Hstrip.
  assert (bool_decide (t = USTAR_REGULAR) || bool_decide (t = USTAR_DIRECTORY) = true) as -> by (by destruct t). mstep.
  rewrite (proj2 (Z.ltb_ge 99 _)) by lia. reflexivity.
Qed.

Lemma bind_value {A B} (a : A) (k : A → res B) : (a ← Ok a; k a) = k a.
Proof. done. Qed.

Lemma zero_fields :
  mode zero_header = replicate 8 0 ∧ size zero_header = replicate 12 0 ∧ mtime zero_header = replicate 12 0 ∧ chksum zero_header = replicate 8 0.
Proof. done. Qed.

Lemma set_chksum_sized h f : sized h → length f = 8%nat → sized (set_chksum h f).
Proof.
  unfold sized, set_chksum. cbn [name mode uid gid size mtime chksum typeflag linkname magic version uname gname devmajor devminor prefix padding]. tauto.
Qed.

Lemma draft_good s fm fs ft f t n :
  (length s ≤ 99)%nat → sized (draft s fm fs ft t) → length f = 8%nat → parse_octal_field fs = Some n →
  parse_octal_field f = Some (calculate_chksum (draft s fm fs ft t)) → good_header (set_chksum (draft s fm fs ft t) f) s t n.
Proof.
  intros Hs Hd Hf Hn Hc. split; [by apply set_chksum_sized|reflexivity|reflexivity|by rewrite chksum_set|by apply (draft_name s fm fs ft t)|done|reflexivity|reflexivity|exact Hn].
Qed.

Lemma make_good s t sz :
  no_nul s → sociable s → (length s ≤ 99)%nat → t ≠ USTAR_EOF → 0 ≤ sz < 2147483648 →
  ∃ h, ustar_make_header s t sz = Ok (Made (to_bytes h)) ∧ good_header h s t sz.
Proof.
  intros Hn Hsoc Hs Ht Hsz. rewrite make_unfold by auto using strip_sociable. destruct zero_fields as (-> & -> & -> & ->).
  set (m := match t with USTAR_REGULAR => 420 | _ => 493 end). assert (0 ≤ m < 494) as Hm by (unfold m; destruct t; lia). clearbody m.
  assert (8 ^ Z.of_nat 7 = 2097152 ∧ 8 ^ Z.of_nat 11 = 8589934592) as [E7 E11] by done.
  destruct (print_field_ok 7 "%07o" m) as (lm & -> & Llm & Hlm & _); [by left|lia|unfold is_u32; lia|]. rewrite bind_value.
  rewrite (u32_small sz) by (unfold is_u32; lia).
  destruct (print_field_ok 11 "%011o" sz) as (ls & -> & Lls & Hls & Ps); [by right|lia|unfold is_u32; lia|]. rewrite bind_value.
  destruct (print_field_ok 11 "%011o" 1136102400) as (lt & -> & Llt & Hlt & _); [by right|lia|unfold is_u32; lia|]. rewrite bind_value.
  set (h := draft s (lm ++ [0]) (ls ++ [0]) (lt ++ [0]) t).
  assert (length (lm ++ [0]) = 8%nat ∧ length (ls ++ [0]) = 12%nat ∧ length (lt ++ [0]) = 12%nat) as (L1 & L2 & L3) by (rewrite !length_app; simpl; lia).
  pose proof (draft_sized s _ _ _ t Hs L1 L2 L3) as Hd.
  assert (0 ≤ calculate_chksum h < 2097152) as Hc by (apply draft_chksum; auto using octal_bytes).
  destruct (print_field_ok 7 "%07o" (calculate_chksum h)) as (lc & -> & Llc & _ & Pc); [by left|lia|unfold is_u32; lia|]. rewrite bind_value.
  assert (length (lc ++ [0]) = 8%nat) as L4 by (rewrite length_app; simpl; lia).
  exists (set_chksum h (lc ++ [0])). split; [reflexivity|]. by apply draft_good.
Qed.

Lemma make_strip s s' t sz :
  strip_antisocial_prefixes s = Ok s' → strip_antisocial_prefixes s' = Ok s' → ustar_make_header s t sz = ustar_make_header s' t sz.
Proof. intros H1 H2. unfold ustar_make_header. by rewrite H1, H2. Qed.

(** The message for a name that is too long. *)
Definition too_long_text (s : list Z) : list Z := s ++ bytes ": file name too long" ++ [10].

Lemma too_long_loop s rest fuel :
  Z.of_nat (length s) < 4294967296 → Forall (λ c, c ≠ ch "%") rest → (length rest < fuel)%nat →
  vprintf_loop putchar (S fuel) (ch "%" :: ch "s" :: rest) [AStr (Some s)] [] = Ok (s ++ rest).
Proof.
  intros Hs Hr Hf. cbn [vprintf_loop]. change (negb (ch "%" =? ch "%")) with false. change (cur _ =? ch "%") with false. cbn iota.
  change (parse_conversion _ _) with (Ok (Conv 0 0 (-1) INT, ch "s" :: rest, [AStr (Some s)])). rewrite bind_value.
  unfold convert. cbn [cur]. change (ch "s" =? ch "s") with true.
  change ((ch "s" =? ch "d") || _) with false. change ((ch "s" =? ch "o") || _ || _ || _) with false. change (ch "s" =? ch "c") with false.
  cbn [va_str]. rewrite bind_value. change (u32 (precision _)) with 4294967295. rewrite Z.min_l by lia.
  rewrite format_string_text, output_all_putchar, !bind_value. cbn [advance]. rewrite bind_value, vprintf_text, output_all_putchar by done.
  f_equal. f_equal. unfold str_text. cbn [width flags]. rewrite (proj2 (Z.ltb_ge _ _)) by lia.
  change (flag 0 MINUS) with false. rewrite app_nil_r. cbn [app]. rewrite take_ge; [done|lia].
Qed.

Lemma too_long_printf s :
  Z.of_nat (length s) < 4294967296 → printf (bytes "%s: file name too long" ++ [10]) [AStr (Some s)] [] = Ok (too_long_text s).
Proof.
  intros Hs. unfold printf, __vprintf. change (vprintf_fuel _) with 53%nat. apply (too_long_loop s (bytes ": file name too long" ++ [10]) 52);
    [done| |simpl; lia]. repeat constructor; done.
Qed.

Lemma octal_loop_range l ofs a v : 0 ≤ a → octal_loop l ofs a = Some v → 0 ≤ v.
Proof.
  revert ofs a. induction l as [|c l IH]; intros ofs a Ha; cbn [octal_loop]; [done|].
  destruct ((ch "0" <=? c) && (c <=? ch "7")); [destruct (_ <? a); [done|apply IH, Z.mod_pos_bound; lia]|].
  destruct (_ || _); [destruct (0 <? ofs); [|done]|done]. by intros [= <-].
Qed.

Lemma c_string_no_nul l : byte_list l → no_nul (c_string l).
Proof.
  induction 1 as [|c l Hc _ IH]; [constructor|]. cbn [c_string]. destruct (Z.eqb_spec c 0); [constructor|]. constructor; [lia|done].
Qed.

Lemma slice_bytes l o n : byte_list l → byte_list (slice l o n).
Proof. intros H. by apply Forall_take, Forall_drop. Qed.

(** What is known of a header that is accepted: it is not empty, and its checksum is right. *)
Lemma parse_inv l s t n :
  ustar_parse_header l = Ok (Parsed (Some s) t n) →
  magic (of_bytes l) = bytes "ustar" ++ [0] ∧ parse_octal_field (chksum (of_bytes l)) = Some (calculate_chksum (of_bytes l)).
Proof.
  unfold ustar_parse_header. destruct (is_all_zeros l); [done|]. case_bool_decide as Hm; [|done]. cbn [negb].
  case_bool_decide; [|done]. cbn [negb]. destruct (parse_octal_field _) as [sum|] eqn:E; [|done]. destruct (Z.eqb_spec sum (calculate_chksum (of_bytes l))) as [->|]; [|done]. done.
Qed.

Lemma parse_returns l : byte_list l → ∃ r, ustar_parse_header l = Ok r.
Proof.
  intros Hb. unfold ustar_parse_header. destruct (strip_ok (c_string (name (of_bytes l)))) as (s & -> & _); [by apply c_string_no_nul, slice_bytes|].
  repeat match goal with |- ∃ _, (if ?b then _ else _) = _ => destruct b; [by eexists|] | |- ∃ _, match ?o with _ => _ end = _ => destruct o; [|by eexists] end.
  by eexists.
Qed.

Lemma parse_none l t n : ustar_parse_header l = Ok (Parsed None t n) → is_all_zeros l = true.
Proof.
  unfold ustar_parse_header. destruct (is_all_zeros l); [done|].
  repeat match goal with |- (if ?b then _ else _) = _ → _ => destruct b; [done|] | |- match ?o with _ => _ end = _ → _ => destruct o; [|done] end.
  intros (s & _ & H)%res_bind_Ok. done.
Qed.

Lemma slice_join l o n m k : (o + n)%nat = k → slice l o n ++ slice l k m = slice l o (n + m).
Proof. intros <-. unfold slice. by rewrite <-drop_drop, take_take_drop. Qed.

Lemma to_of_bytes l : length l = 512%nat → to_bytes (of_bytes l) = l.
Proof.
  intros Hl. unfold to_bytes, of_bytes. cbn [name mode uid gid size mtime chksum typeflag linkname magic version uname gname devmajor devminor prefix padding].
  rewrite !slice_join by reflexivity. unfold slice. rewrite drop_0. apply take_ge. simpl. lia.
Qed.

Lemma chksum_shift l i acc :
  byte_list l → 0 ≤ acc → acc + 255 * Z.of_nat (length l) < 4294967296 → chksum_loop l i acc = acc + chksum_loop l i 0.
Proof.
  intros Hl. revert i acc. induction Hl as [|c l Hc _ IH]; intros i acc Ha Hb; cbn [chksum_loop]; [lia|]. simpl length in Hb.
  set (d := if in_chksum_field i then ch " " else c). assert (0 ≤ d ≤ 255) as Hd by (unfold d; change (ch " ") with 32; destruct (in_chksum_field i); lia).
  rewrite !u32_small by (unfold is_u32; lia). rewrite IH by lia. rewrite (IH (i + 1) (0 + d)) by lia. lia.
Qed.

(** A byte outside the field of the checksum counts. *)
Lemma chksum_changes a d c b :
  byte_list (a ++ d :: b) → 0 ≤ c < 256 → in_chksum_field (Z.of_nat (length a)) = false → Z.of_nat (length (a ++ d :: b)) < 65536 →
  chksum_loop (a ++ c :: b) 0 0 = chksum_loop (a ++ d :: b) 0 0 → c = d.
Proof.
  intros [Ha [Hd Hb]%Forall_cons]%Forall_app Hc Hi Hl. rewrite length_app in Hl. simpl in Hl. rewrite !chksum_app. cbn [chksum_loop].
  rewrite Z.add_0_l, Hi. pose proof (chksum_bound a 0 0 Ha). rewrite !u32_small by (unfold is_u32; lia).
  rewrite (chksum_shift b _ (chksum_loop a 0 0 + c)), (chksum_shift b _ (chksum_loop a 0 0 + d)) by (done || lia). lia.
Qed.

(** ** Properties *)

(** C38. What ustar_make_header writes, ustar_parse_header reads back: for a name, a type and a
    size from 0 to the largest int, the header has 512 bytes and the parser finds the
    name without its dangerous prefixes, the type, and the size of a regular file or 0 for a
    directory; if more than 99 characters are left of the name, the header is refused with a message. *)
Theorem ustar_roundtrip file_name t sz :
  no_nul file_name → Z.of_nat (length file_name) < 4294967296 → t ≠ USTAR_EOF → 0 ≤ sz < 2147483648 →
  ∃ s, strip_antisocial_prefixes file_name = Ok s ∧
    if decide (length s ≤ 99)%nat then
      ∃ h, ustar_make_header file_name t sz = Ok (Made h) ∧ length h = 512%nat ∧
        ustar_parse_header h = Ok (Parsed (Some s) t (if decide (t = USTAR_REGULAR) then sz else 0))
    else ustar_make_header file_name t sz = Ok (TooLong (too_long_text s)).
Proof.
  intros Hn Hlen Ht Hsz. destruct (strip_ok file_name Hn) as (s & Es & Hsoc & Hns & Hsuf). exists s. split; [done|].
  rewrite (make_strip _ s) by auto using strip_sociable. destruct (decide _) as [Hs|Hs].
  - destruct (make_good s t sz Hns Hsoc Hs Ht Hsz) as (h & -> & Hg). exists (to_bytes h). split; [done|].
    split; [by apply to_bytes_length, (good_sized _ _ _ _ Hg)|]. apply parse_good; auto. lia.
  - unfold ustar_make_header. rewrite strip_sociable by done.
    assert (bool_decide (t = USTAR_REGULAR) || bool_decide (t = USTAR_DIRECTORY) = true) as -> by (by destruct t). cbn iota.
    rewrite bind_value, (proj2 (Z.ltb_lt 99 _)) by lia. rewrite too_long_printf; [done|].
    destruct Hsuf as [[p ->]| ->]; [rewrite length_app in Hlen; lia|simpl; lia].
Qed.

Lemma ustar_roundtrip_witness :
  ∃ s, strip_antisocial_prefixes (bytes "../bin/echo") = Ok s ∧
    if decide (length s ≤ 99)%nat then
      ∃ h, ustar_make_header (bytes "../bin/echo") USTAR_REGULAR 8192 = Ok (Made h) ∧ length h = 512%nat ∧
        ustar_parse_header h = Ok (Parsed (Some s) USTAR_REGULAR (if decide (USTAR_REGULAR = USTAR_REGULAR) then 8192 else 0))
    else ustar_make_header (bytes "../bin/echo") USTAR_REGULAR 8192 = Ok (TooLong (too_long_text s)).
Proof.
  apply (ustar_roundtrip (bytes "../bin/echo") USTAR_REGULAR 8192); [|done|done|lia].
  repeat constructor; by vm_compute.
Defined.

(** C39. The parser is safe on every block of 512 bytes, whatever it holds: it returns, and a
    name that it accepts is not empty, does not start with "/", "./" or "../" and is not
    "..", its type is a file or a directory, and its size is that of a nonnegative int. *)
Theorem ustar_parse_safe l :
  byte_list l → length l = 512%nat →
  ∃ r, ustar_parse_header l = Ok r ∧
    match r with
    | Message _ => True
    | Parsed None t n => is_all_zeros l = true ∧ t = USTAR_EOF ∧ n = 0
    | Parsed (Some s) t n => sociable s ∧ (s `suffix_of` c_string (take 100 l) ∨ s = bytes ".") ∧ t ≠ USTAR_EOF ∧ 0 ≤ n ≤ 2147483647
    end.
Proof.
  intros Hb Hl. unfold ustar_parse_header. destruct (is_all_zeros l); [by eexists|]. case_bool_decide; [|by eexists]. cbn [negb].
  case_bool_decide; [|by eexists]. cbn [negb]. destruct (parse_octal_field (chksum _)) as [sum|]; [|by eexists].
  destruct (sum =? _); [|by eexists]. cbn [negb]. destruct (_ || _); [by eexists|]. destruct (_ && _); [by eexists|].
  destruct (strip_ok (c_string (name (of_bytes l)))) as (s & -> & Hsoc & _ & Hsuf); [by apply c_string_no_nul, slice_bytes|].
  destruct (cur _ =? type_code USTAR_REGULAR).
  - destruct (parse_octal_field _) as [n|] eqn:E; [|by eexists]. cbn [andb]. destruct (Z.ltb_spec 2147483647 n); [by eexists|].
    rewrite bind_value. eexists. split; [done|]. split; [exact Hsoc|]. split; [exact Hsuf|]. split; [done|].
    unfold parse_octal_field in E. apply octal_loop_range in E; lia.
  - cbn [andb]. rewrite bind_value. eexists. split; [done|]. split; [exact Hsoc|]. split; [exact Hsuf|]. split; [done|lia].
Qed.

Lemma slice_insert l k c o n : (k < o ∨ o + n ≤ k)%nat → slice (<[k := c]> l) o n = slice l o n.
Proof.
  intros H. unfold slice. apply list_eq. intros j. destruct (decide (j < n)%nat); [|by rewrite !lookup_take_ge by lia].
  rewrite !lookup_take_lt, !lookup_drop by lia. by rewrite list_lookup_insert_ne by lia.
Qed.

(** The checksum catches every damaged byte: when one byte of an accepted header outside
    the checksum field is replaced with another, the parser reports an error. *)
Theorem ustar_detects_corruption l s t n i c d :
  byte_list l → length l = 512%nat → ustar_parse_header l = Ok (Parsed (Some s) t n) →
  l !! i = Some d → 0 ≤ c < 256 → c ≠ d → (i < 148 ∨ 156 ≤ i)%nat →
  ∃ m, ustar_parse_header (<[i := c]> l) = Ok (Message m).
Proof.
  intros Hb Hl Hp Hi Hc Hcd Hout. assert (byte_list (<[i := c]> l)) as Hb' by (by apply Forall_insert).
  destruct (parse_returns _ Hb') as [[m|[s'|] t' n'] Hr]; [by exists m| |]; exfalso; destruct (parse_inv _ _ _ _ Hp) as [Hm Hs].
  - destruct (parse_inv _ _ _ _ Hr) as [_ Hs']. apply Hcd. revert Hs Hs'. unfold calculate_chksum. rewrite !to_of_bytes by (by rewrite ?length_insert).
    change (chksum (of_bytes ?x)) with (slice x 148 8). rewrite (slice_insert _ _ _ 148 8) by lia. intros -> [= E].
    pose proof (lookup_lt_Some _ _ _ Hi) as Hlt. rewrite (insert_take_drop l i c Hlt) in E. pose proof (take_drop_middle l i d Hi) as El.
    assert (length (take i l) = i) as Hti by (rewrite length_take; lia).
    apply (chksum_changes (take i l) d c (drop (S i) l)); [by rewrite El|done| |rewrite El; lia|rewrite El; congruence].
    rewrite Hti. unfold in_chksum_field. destruct (Z.leb_spec 148 (Z.of_nat i)), (Z.ltb_spec (Z.of_nat i) (148 + 8)); (done || lia).
  - apply parse_none in Hr. unfold is_all_zeros in Hr. rewrite forallb_forall in Hr.
    assert (∀ k b, (k < 6)%nat → (bytes "ustar" ++ [0]) !! k = Some b → l !! (257 + k)%nat = Some b) as Hk.
    { intros k b Hk6 Hk. rewrite <-Hm in Hk. change (magic (of_bytes l)) with (take 6 (drop 257 l)) in Hk. by rewrite lookup_take_lt, lookup_drop in Hk by lia. }
    assert (∀ k b, i ≠ (257 + k)%nat → (k < 6)%nat → (bytes "ustar" ++ [0]) !! k = Some b → b = 0) as Hz.
    { intros k b Hne Hk6 Hkb. apply Z.eqb_eq, Hr, list_elem_of_In. apply (list_elem_of_lookup_2 _ (257 + k)). rewrite list_lookup_insert_ne by done. by apply Hk. }
    destruct (decide (i = 257%nat)) as [->|Hne].
    + discriminate (Hz 1%nat 115 ltac:(lia) ltac:(lia) eq_refl).
    + discriminate (Hz 0%nat 117 ltac:(lia) ltac:(lia) eq_refl).
Qed.

(** A header to try the parser on. *)
Definition demo_header : list Z :=
  match ustar_make_header (bytes "echo") USTAR_REGULAR 8192 with Ok (Made h) => h | _ => [] end.

Lemma ustar_parse_safe_witness :
  ∃ r, ustar_parse_header demo_header = Ok r ∧
    match r with
    | Message _ => True
    | Parsed None t n => is_all_zeros demo_header = true ∧ t = USTAR_EOF ∧ n = 0
    | Parsed (Some s) t n => sociable s ∧ (s `suffix_of` c_string (take 100 demo_header) ∨ s = bytes ".") ∧ t ≠ USTAR_EOF ∧ 0 ≤ n ≤ 2147483647
    end.
Proof. apply (ustar_parse_safe demo_header); [apply byte_listb; vm_compute; reflexivity|vm_compute; reflexivity]. Defined.

Lemma ustar_detects_corruption_witness :
  ∃ m, ustar_parse_header (<[0%nat := ch "x"]> demo_header) = Ok (Message m).
Proof.
  apply (ustar_detects_corruption demo_header (bytes "echo") USTAR_REGULAR 8192 0 (ch "x") (ch "e"));
    [apply byte_listb; vm_compute; reflexivity|vm_compute; reflexivity|vm_compute; reflexivity|vm_compute; reflexivity|by vm_compute|by vm_compute|lia].
Defined.
