(* ===== verification/UserMem.v ===== *)
(** The memory of the running user process, as the kernel reads and writes it.

    [UserMem] is what the parts of the kernel that work on user addresses rely on: the
    byte at each address, where writing is allowed, and a load and a store of one byte.
    The machine of page tables keeps the promise. *)

From S2P Require Import Prelude Vaddr Palloc Pages Disk Pagedir AddrSpace.

Class UserMem (M : Type) := {
  user_byte : M → Z → option Z;
  user_writable : M → Z → bool;
  get_user : Z → M → res (Z * M);
  put_user : Z → Z → M → res M;
}.

(** What holds of the memory between two accesses. *)
Class UserInv (M : Type) := user_ok : M → Prop.

(** Nothing that the process sees has changed. *)
Record same_user {M} `{!UserMem M} `{!UserInv M} (m m' : M) : Prop := {
  su_ok : user_ok m';
  su_byte : ∀ a, user_byte m' a = user_byte m a;
  su_writable : ∀ a, user_writable m' a = user_writable m a;
}.

(** One byte has changed. *)
Record put_byte {M} `{!UserMem M} `{!UserInv M} (m m' : M) (a v : Z) : Prop := {
  pb_ok : user_ok m';
  pb_byte : ∀ b, user_byte m' b = if bool_decide (b = a) then Some v else user_byte m b;
  pb_writable : ∀ b, user_writable m' b = user_writable m b;
}.

Class UserLaws (M : Type) `{!UserMem M} `{!UserInv M} : Prop := {
  get_user_law a (m : M) :
    user_ok m → 0 ≤ a < PHYS_BASE →
    match user_byte m a with
    | Some v => ∃ m', get_user a m = Ok (v, m') ∧ same_user m m'
    | None => get_user a m = Fault BadAccess
    end;
  put_user_law a v (m : M) :
    user_ok m → 0 ≤ a < PHYS_BASE → is_byte v →
    if user_writable m a then ∃ m', put_user a v m = Ok m' ∧ put_byte m m' a v
    else put_user a v m = Fault BadAccess;
  user_range_law a v (m : M) : user_ok m → user_byte m a = Some v → 0 ≤ a < PHYS_BASE ∧ is_byte v;
  user_writable_law a (m : M) : user_ok m → user_writable m a = true → is_Some (user_byte m a);
}.

(** ** Page tables *)

Section machine.
Context {P : Type} `{!PageOps P} `{!PageLaws P} (ip : Z) (own : gmap Z owner) (d : Z) (taken : Z → bool) (limit : Z).
Implicit Types s : machine P.

(** The entry of the active directory for an address. *)
Definition active_entry s (a : Z) : Z := entry s (786432 + cr3 s / PGSIZE) (a / PGSIZE).

Definition in_user (a : Z) : bool := (0 <=? a) && (a <? PHYS_BASE).

#[export] Instance machine_user : UserMem (machine P) := {
  user_byte s a :=
    let e := active_entry s a in
    if in_user a && has_flag e PTE_P then Some (pmem (phys s) (PGSIZE * frame e + a mod PGSIZE)) else None;
  user_writable s a := in_user a && allowed (active_entry s a) true;
  get_user a s :=
    match user_access a false s with
    | Some (pa, s) => Ok (pmem (phys s) (PHYS_BASE + pa), s)
    | None => Fault BadAccess
    end;
  put_user a v s :=
    match user_access a true s with
    | Some (pa, s) => Ok (set_byte s (PHYS_BASE + pa) v)
    | None => Fault BadAccess
    end;
}.

(** The invariant, with the pages that the allocator has given out. *)
Definition machine_ok : UserInv (machine P) :=
  λ s, machine_inv ip s own d ∧ (∀ pg, page_taken (phys s) pg = taken pg) ∧ page_limit (phys s) = limit.

#[local] Existing Instance machine_ok.

Lemma active_entry_eq s a : machine_inv ip s own d → active_entry s a = entry s d (a / PGSIZE).
Proof.
  intros [_ [_ Hc] _ _ _]. unfold active_entry. rewrite Hc. rewrite (Z.mul_comm PGSIZE), Z.div_mul by done. f_equal. lia.
Qed.

(** An access changes nothing but accessed and dirty bits. *)
Record same_tables s s' : Prop := {
  st_cr3 : cr3 s' = cr3 s;
  st_entry : ∀ u, 0 ≤ u < 786432 → frame (entry s' d u) = frame (entry s d u) ∧
    has_flag (entry s' d u) PTE_P = has_flag (entry s d u) PTE_P ∧ has_flag (entry s' d u) PTE_W = has_flag (entry s d u) PTE_W;
  st_only : tables_only s s' own;
}.

Lemma touched_same w write :
  entry_ok w → frame (touched w write) = frame w ∧ has_flag (touched w write) PTE_P = has_flag w PTE_P ∧ has_flag (touched w write) PTE_W = has_flag w PTE_W.
Proof.
  intros Hw. unfold touched. split; [by apply entry_set; [|destruct write]|]. rewrite !flag_lor. destruct write; by rewrite !orb_false_r.
Qed.

Lemma access_same s a write :
  machine_inv ip s own d → 0 ≤ a < PHYS_BASE →
  match user_access a write s with
  | Some (pa, s') => allowed (entry s d (a / PGSIZE)) write = true ∧ machine_inv ip s' own d ∧ same_tables s s' ∧
      own !! frame (entry s d (a / PGSIZE)) = Some (IsPage d (a / PGSIZE)) ∧
      PHYS_BASE + pa = PGSIZE * frame (entry s d (a / PGSIZE)) + a mod PGSIZE
  | None => allowed (entry s d (a / PGSIZE)) write = false
  end.
Proof using PageLaws0.
  intros Hmi Ha. pose proof (access_ok ip s own d a write Hmi Ha) as Hok. cbv zeta in Hok. pose proof Hmi as [Hvm Hact _ _ _].
  destruct (user_access a write s) as [[pa s']|] eqn:E; [|done]. destruct Hok as (g & Hg & -> & Hal & Hmi' & _).
  destruct (owner_entry s own d _ g Hvm Hg) as (Hu & _ & _ & Hf). rewrite Hf. split_and!; try done; [|rewrite pg_ofs_mod; unfold PHYS_BASE, PGSIZE; lia].
  unfold user_access, translate in E. destruct (user_fields a Ha) as (_ & _ & Epg & _ & _). rewrite Epg in E.
  assert (∀ e s1, page_walk a write s = Some (e, s1) → same_tables s s1) as Hwalk.
  { intros e s1 Ew. pose proof (page_walk_ok s own d a write Hvm Hact Ha) as Hw. cbv zeta in Hw. rewrite Hal in Hw.
    destruct Hw as (s2 & E2 & Hok & HU & Hi' & Hes & Hto). rewrite Ew in E2. injection E2 as -> ->. split; [done| |by destruct Hto].
    intros u Hu'. rewrite entry_mmu, Hes by (done || apply Hact). case_bool_decide as Hc; [|done]. injection Hc as ->. by apply touched_same. }
  destruct (tlb s !! (a / PGSIZE)) as [e|]; [destruct (_ && _)|]; [by injection E as _ <-|..];
    (destruct (page_walk a write s) as [[e' s1]|] eqn:Ew; [|done]); injection E as _ <-; by eapply Hwalk.
Qed.

(** The allocator is not touched. *)
Definition same_pages s s' : Prop :=
  (∀ pg, page_taken (phys s') pg = page_taken (phys s) pg) ∧ page_limit (phys s') = page_limit (phys s).

Lemma set_pmem_pages s m : same_pages s (set_phys s (set_pmem m (phys s))).
Proof using PageLaws0. destruct (set_pmem_law m (phys s)) as (_ & Ht & _). split; [done|]. apply limit_set_law. Qed.

Lemma same_pages_trans s1 s2 s3 : same_pages s1 s2 → same_pages s2 s3 → same_pages s1 s3.
Proof. intros [T1 L1] [T2 L2]. split; [by intros pg; rewrite T2|by rewrite L2]. Qed.

Lemma access_pages s a write pa s' : user_access a write s = Some (pa, s') → same_pages s s'.
Proof using PageLaws0.
  intros E. unfold user_access in E. destruct (translate a write s) as [[e s1]|] eqn:Et; [|done]. injection E as _ <-.
  assert (∀ e' s2, page_walk a write s = Some (e', s2) → same_pages s s2) as Hw.
  { intros e' s2 Ew. unfold page_walk in Ew. destruct (negb _); [done|]. destruct (negb _); [done|]. injection Ew as _ <-.
    eapply same_pages_trans; [apply set_pmem_pages|]. apply (set_pmem_pages (store s _ _)). }
  unfold translate in Et. destruct (tlb s !! pg_no a) as [w|]; [destruct (_ && _)|]; [by injection Et as _ <-|by eapply Hw..].
Qed.

Lemma same_pages_ok s s' : same_pages s s' → machine_ok s → machine_inv ip s' own d → machine_ok s'.
Proof. intros [T L] (_ & T0 & L0) Hmi. split_and!; [done|by intros pg; rewrite T|by rewrite L]. Qed.

Lemma page_mem s s' a :
  machine_inv ip s own d → same_tables s s' → 0 ≤ a < PHYS_BASE → has_flag (entry s d (a / PGSIZE)) PTE_P = true →
  pmem (phys s') (PGSIZE * frame (entry s d (a / PGSIZE)) + a mod PGSIZE) = pmem (phys s) (PGSIZE * frame (entry s d (a / PGSIZE)) + a mod PGSIZE).
Proof using PageLaws0.
  intros [Hvm [Hd _] _ _ _] [_ _ [Hto _ _]] Ha HP. destruct (user_fields a Ha) as (_ & _ & _ & _ & Hu).
  destruct (entry_owner s own d _ Hvm Hd Hu HP) as (Ho & _). set (g := frame _) in *.
  assert ((PGSIZE * g + a mod PGSIZE) / PGSIZE = g) as Eg.
  { symmetry. apply (Z.div_unique _ _ _ (a mod PGSIZE)); [left; by apply Z.mod_pos_bound|done]. }
  apply Hto; rewrite Eg; [|congruence..]. by apply (own_range _ _ _ _ Hvm Ho).
Qed.

Lemma in_user_iff a : in_user a = true ↔ 0 ≤ a < PHYS_BASE.
Proof. unfold in_user. lia. Qed.

Lemma same_tables_user s s' :
  machine_ok s → machine_inv ip s' own d → same_tables s s' → same_pages s s' → same_user s s'.
Proof using PageLaws0.
  intros Hok Hmi' Hst Hsp. pose proof (proj1 Hok) as Hmi. pose proof (same_pages_ok s s' Hsp Hok Hmi') as Hok'. assert (∀ a, in_user a = true → 0 ≤ a < PHYS_BASE ∧ 0 ≤ a / PGSIZE < 786432) as Hr.
  { intros a Ha%in_user_iff. by destruct (user_fields a Ha) as (_ & _ & _ & _ & ?). }
  split; [done| |]; intros a; cbn [user_byte user_writable machine_user]; rewrite !active_entry_eq by done;
    (destruct (in_user a) eqn:Ha; [|done]); destruct (Hr a Ha) as [Har Hu]; destruct (st_entry _ _ Hst _ Hu) as (Ef & EP & EW); cbn [andb].
  - rewrite EP. destruct (has_flag (entry s d (a / PGSIZE)) PTE_P) eqn:HP; [|done]. rewrite Ef. f_equal. by apply page_mem.
  - unfold allowed. by rewrite EP, EW.
Qed.

(** A store in a page of the process, by the address of the page in the kernel. *)
Lemma set_page_byte s a v :
  machine_ok s → 0 ≤ a < PHYS_BASE → is_byte v → has_flag (entry s d (a / PGSIZE)) PTE_P = true →
  put_byte s (set_byte s (PGSIZE * frame (entry s d (a / PGSIZE)) + a mod PGSIZE) v) a v.
Proof using PageLaws0.
  intros Hmok Ha Hv HP. pose proof (proj1 Hmok) as Hmi. pose proof Hmi as [Hvm [Hd Hc] _ _ _]. destruct (user_fields a Ha) as (_ & _ & _ & _ & Hu).
  destruct (entry_owner s own d _ Hvm Hd Hu HP) as (Ho & _). set (g := frame _) in *.
  assert (∀ k b, (PGSIZE * k + b mod PGSIZE) / PGSIZE = k ∧ (PGSIZE * k + b mod PGSIZE) mod PGSIZE = b mod PGSIZE) as Hdiv.
  { intros k b. pose proof (Z.mod_pos_bound b PGSIZE ltac:(done)). split; symmetry; [apply (Z.div_unique _ _ _ (b mod PGSIZE))|apply (Z.mod_unique _ _ k)]; lia. }
  set (x := PGSIZE * g + a mod PGSIZE). destruct (Hdiv g a) as [Ex Exm]. fold x in Ex, Exm.
  assert (machine_inv ip (set_byte s x v) own d) as Hmi' by (apply machine_write; rewrite ?Ex; (done || congruence)).
  destruct (set_pmem_law (λ y, if y =? x then v else pmem (phys s) y) (phys s)) as (Hok & Htk & Hblk & Hm).
  assert (same_entries s (set_byte s x v) own) as Hse.
  { apply (vm_inv_quiet s (set_byte s x v) own own Hvm); try done.
    - apply Hok, Hvm.
    - apply Hmi'.
    - intros g' o Ho'. by eapply Hblk, (vi_own _ _ Hvm).
    - intros y Hy. unfold set_byte. cbn [phys set_phys]. rewrite Hm. destruct (Z.eqb_spec y x) as [->|]; [|done]. rewrite Ex, Ho in Hy. destruct Hy as [?|(? & ? & ?)]; done. }
  split; [eapply same_pages_ok; [apply set_pmem_pages|done..]| |]; intros b; cbn [user_byte user_writable machine_user]; rewrite !active_entry_eq by done;
    (destruct (in_user b) eqn:Hb; [apply in_user_iff in Hb; destruct (user_fields b Hb) as (_ & _ & _ & _ & Hub); rewrite (Hse d) by done|]); cbn [andb]; try done.
  - case_bool_decide as Hba; [subst b; rewrite HP|destruct (has_flag (entry s d (b / PGSIZE)) PTE_P) eqn:HPb; [|done]]; f_equal;
      unfold set_byte; cbn [phys set_phys]; rewrite Hm; [fold g; fold x; by rewrite Z.eqb_refl|].
    rewrite (proj2 (Z.eqb_neq _ _)); [done|]. intros Exb. apply Hba. destruct (Hdiv (frame (entry s d (b / PGSIZE))) b) as [E1 E2]. rewrite Exb, Ex in E1. rewrite Exb, Exm in E2.
    destruct (entry_owner s own d _ Hvm Hd Hub HPb) as (Hob & _). rewrite <-E1 in Hob. rewrite Ho in Hob. injection Hob as Eab.
    rewrite (Z.div_mod a PGSIZE), (Z.div_mod b PGSIZE) by done. congruence.
  - case_bool_decide; [|done]. subst b. by rewrite (proj2 (in_user_iff a) Ha) in Hb.
Qed.

Lemma machine_user_laws : UserLaws (machine P).
Proof using PageLaws0.
  split.
  - intros a s Hok Ha. pose proof (proj1 Hok) as Hmi. cbn [user_byte get_user machine_user]. rewrite active_entry_eq by done. rewrite (proj2 (in_user_iff a) Ha). cbn [andb].
    pose proof (access_same s a false Hmi Ha) as Hac. destruct (user_access a false s) as [[pa s']|] eqn:Eacc.
    + destruct Hac as (Hal & Hmi' & Hst & _ & ->). unfold allowed in Hal. cbn [negb orb] in Hal. rewrite andb_true_r in Hal. rewrite Hal.
      eexists. split; [|by eapply same_tables_user, access_pages]. do 2 f_equal. by apply page_mem.
    + unfold allowed in Hac. cbn [negb orb] in Hac. rewrite andb_true_r in Hac. by rewrite Hac.
  - intros a v s Hok Ha Hv. pose proof (proj1 Hok) as Hmi. cbn [user_writable put_user machine_user]. rewrite active_entry_eq by done. rewrite (proj2 (in_user_iff a) Ha). cbn [andb].
    pose proof (access_same s a true Hmi Ha) as Hac. destruct (user_access a true s) as [[pa s']|] eqn:Eacc; [|by rewrite Hac].
    destruct Hac as (Hal & Hmi' & Hst & Ho & ->). rewrite Hal. eexists. split; [done|]. pose proof (access_pages _ _ _ _ _ Eacc) as Hsp.
    destruct (user_fields a Ha) as (_ & _ & _ & _ & Hu). destruct (st_entry _ _ Hst _ Hu) as (Ef & EP & _). rewrite <-Ef.
    unfold allowed in Hal. apply andb_true_iff in Hal as [HP _].
    destruct (set_page_byte s' a v (same_pages_ok s s' Hsp Hok Hmi') Ha Hv) as [Hok' Hby Hwr]; [congruence|].
    destruct (same_tables_user s s' Hok Hmi' Hst Hsp) as [_ Hby' Hwr'].
    split; [done| |]; intros b; [rewrite Hby; case_bool_decide; [done|apply Hby']|rewrite Hwr; apply Hwr'].
  - intros a v s [[Hvm _ _ _ _] _]. cbn [user_byte machine_user]. destruct (in_user a) eqn:Ha; [|done]. cbn [andb].
    destruct (has_flag _ PTE_P); [|done]. intros [= <-]. split; [by apply in_user_iff|apply Hvm].
  - intros a s _. cbn [user_byte user_writable machine_user]. destruct (in_user a); [|done]. cbn [andb]. unfold allowed.
    intros [-> _]%andb_true_iff. by eexists.
Qed.

End machine.

(** ** Words and strings *)

Section access.
Context {M : Type} `{!UserMem M} `{!UserInv M} `{!UserLaws M}.
Implicit Types m : M.

(** A word, which need not be aligned. *)
Definition put_user32 (a v : Z) (m : M) : res M :=
  m ← put_user a (v mod 256) m;
  m ← put_user (a + 1) (v / 256 mod 256) m;
  m ← put_user (a + 2) (v / 65536 mod 256) m;
  put_user (a + 3) (v / 16777216 mod 256) m.

Definition get_user32 (a : Z) (m : M) : res (Z * M) :=
  '(b0, m) ← get_user a m;
  '(b1, m) ← get_user (a + 1) m;
  '(b2, m) ← get_user (a + 2) m;
  '(b3, m) ← get_user (a + 3) m;
  Ok (of_le32 [b0; b1; b2; b3], m).

(** The process sees [l] at [a]. *)
Definition user_bytes m (a : Z) (l : list Z) : Prop := ∀ i v, l !! i = Some v → user_byte m (a + Z.of_nat i) = Some v.

Definition user_word m (a v : Z) : Prop := user_bytes m a (le32 v).

(** The [n] bytes from [a] on can be written. *)
Definition user_room m (a n : Z) : Prop := ∀ b, a ≤ b < a + n → user_writable m b = true.

(** [l] has been written at [a]. *)
Record put_bytes m m' (a : Z) (l : list Z) : Prop := {
  ps_ok : user_ok m';
  ps_byte : ∀ b, user_byte m' b = if bool_decide (a ≤ b < a + Z.of_nat (length l)) then l !! Z.to_nat (b - a) else user_byte m b;
  ps_writable : ∀ b, user_writable m' b = user_writable m b;
}.

Lemma put_bytes_nil m a : user_ok m → put_bytes m m a [].
Proof. intros H. split; [done| |done]. intros b. rewrite bool_decide_eq_false_2; [done|]. simpl. lia. Qed.

Lemma put_bytes_snoc m m1 m2 a l v :
  put_bytes m m1 a l → put_byte m1 m2 (a + Z.of_nat (length l)) v → put_bytes m m2 a (l ++ [v]).
Proof.
  intros [_ H1 W1] [Hok H2 W2]. split; [done| |by intros b; rewrite W2, W1]. intros b. rewrite H2, H1, length_app. simpl.
  destruct (decide (b = a + Z.of_nat (length l))) as [->|Hb].
  - rewrite bool_decide_eq_true_2 by done. rewrite bool_decide_eq_true_2 by lia. replace (Z.to_nat _) with (length l) by lia. by rewrite list_lookup_middle.
  - rewrite bool_decide_eq_false_2 by done. destruct (decide (a ≤ b < a + Z.of_nat (length l))).
    + rewrite !bool_decide_eq_true_2 by lia. by rewrite lookup_app_l by lia.
    + rewrite !bool_decide_eq_false_2 by lia. done.
Qed.

Lemma put_bytes_trans m m1 m2 a l l' :
  put_bytes m m1 a l → put_bytes m1 m2 (a + Z.of_nat (length l)) l' → put_bytes m m2 a (l ++ l').
Proof.
  intros [_ H1 W1] [Hok H2 W2]. split; [done| |by intros b; rewrite W2, W1]. intros b. rewrite H2, H1, length_app.
  destruct (decide (a + Z.of_nat (length l) ≤ b < a + Z.of_nat (length l) + Z.of_nat (length l'))).
  - rewrite !bool_decide_eq_true_2 by lia. rewrite lookup_app_r by lia. f_equal. lia.
  - rewrite bool_decide_eq_false_2 by done. destruct (decide (a ≤ b < a + Z.of_nat (length l))).
    + rewrite !bool_decide_eq_true_2 by lia. by rewrite lookup_app_l by lia.
    + rewrite !bool_decide_eq_false_2 by lia. done.
Qed.

(** The bytes before those already written. *)
Lemma put_bytes_before m m1 m2 a b l l' :
  put_bytes m m1 b l' → put_bytes m1 m2 a l → b = a + Z.of_nat (length l) → put_bytes m m2 a (l ++ l').
Proof.
  intros [_ H1 W1] [Hok H2 W2] ->. split; [done| |by intros c; rewrite W2, W1]. intros c. rewrite H2, H1, length_app.
  destruct (decide (a ≤ c < a + Z.of_nat (length l))).
  - rewrite !bool_decide_eq_true_2 by lia. by rewrite lookup_app_l by lia.
  - rewrite bool_decide_eq_false_2 by done. destruct (decide (a + Z.of_nat (length l) ≤ c < a + Z.of_nat (length l) + Z.of_nat (length l'))).
    + rewrite !bool_decide_eq_true_2 by lia. rewrite lookup_app_r by lia. f_equal. lia.
    + rewrite !bool_decide_eq_false_2 by lia. done.
Qed.

Lemma same_put_bytes m m1 m2 a l : same_user m m1 → put_bytes m1 m2 a l → put_bytes m m2 a l.
Proof. intros [_ B W] [Hok B2 W2]. split; [done|by intros b; rewrite B2, B|by intros b; rewrite W2, W]. Qed.

(** What can be read back. *)
Lemma put_bytes_inside m m' a l1 l2 l3 : put_bytes m m' a (l1 ++ l2 ++ l3) → user_bytes m' (a + Z.of_nat (length l1)) l2.
Proof.
  intros [_ B _] i v Hv. pose proof (lookup_lt_Some _ _ _ Hv). rewrite B, bool_decide_eq_true_2 by (rewrite !length_app; lia).
  rewrite lookup_app_r by lia. rewrite lookup_app_l by lia. rewrite <-Hv. f_equal. lia.
Qed.

Lemma put_bytes_outside m m' a l b : put_bytes m m' a l → ¬ (a ≤ b < a + Z.of_nat (length l)) → user_byte m' b = user_byte m b.
Proof. intros [_ B _] Hb. by rewrite B, bool_decide_eq_false_2. Qed.

Lemma put_bytes_room m m' a l b n : put_bytes m m' a l → user_room m b n → user_room m' b n.
Proof. intros [_ _ W] H c Hc. rewrite W. by apply H. Qed.

Lemma room_range m a n b : user_ok m → user_room m a n → a ≤ b < a + n → 0 ≤ b < PHYS_BASE.
Proof using UserLaws0.
  intros Hok Hr Hb. destruct (user_writable_law b m Hok (Hr b Hb)) as [v Hv]. by apply (user_range_law b v m).
Qed.

Lemma put_user_ok a v m :
  user_ok m → user_room m a 1 → is_byte v → ∃ m', put_user a v m = Ok m' ∧ put_byte m m' a v.
Proof using UserLaws0.
  intros Hok Hr Hv. assert (a ≤ a < a + 1) as Ha by lia. pose proof (put_user_law a v m Hok (room_range m a 1 a Hok Hr Ha) Hv) as H.
  by rewrite (Hr a Ha) in H.
Qed.

Lemma put_user32_ok a v m :
  user_ok m → user_room m a 4 → ∃ m', put_user32 a v m = Ok m' ∧ put_bytes m m' a (le32 v).
Proof using UserLaws0.
  intros Hok Hr. assert (∀ l m1 b, put_bytes m m1 a l → (length l < 4)%nat → is_byte b →
    ∃ m2, put_user (a + Z.of_nat (length l)) b m1 = Ok m2 ∧ put_bytes m m2 a (l ++ [b])) as Hstep.
  { intros l m1 b Hp Hl Hb. destruct (put_user_ok (a + Z.of_nat (length l)) b m1) as (m2 & E & Hp2); [apply Hp| |done|].
    - intros c Hc. rewrite (ps_writable _ _ _ _ Hp). apply Hr. lia.
    - exists m2. split; [done|]. by eapply put_bytes_snoc. }
  assert (∀ x, is_byte (x mod 256)) as Hmod by (intros x; by apply Z.mod_pos_bound).
  unfold put_user32.
  destruct (Hstep [] m _ (put_bytes_nil m a Hok) ltac:(simpl; lia) (Hmod v)) as (m1 & E1 & H1). simpl length in E1. rewrite Z.add_0_r in E1. rewrite E1. mstep.
  destruct (Hstep _ m1 _ H1 ltac:(simpl; lia) (Hmod (v / 256))) as (m2 & E2 & H2). simpl length in E2. change (Z.of_nat 1) with 1 in E2. rewrite E2. mstep.
  destruct (Hstep _ m2 _ H2 ltac:(simpl; lia) (Hmod (v / 65536))) as (m3 & E3 & H3). simpl length in E3. change (Z.of_nat 2) with 2 in E3. rewrite E3. mstep.
  destruct (Hstep _ m3 _ H3 ltac:(simpl; lia) (Hmod (v / 16777216))) as (m4 & E4 & H4). simpl length in E4. change (Z.of_nat 3) with 3 in E4. rewrite E4.
  by exists m4.
Qed.

Lemma get_user_ok a v m : user_ok m → user_byte m a = Some v → ∃ m', get_user a m = Ok (v, m') ∧ same_user m m'.
Proof using UserLaws0.
  intros Hok Hv. destruct (user_range_law a v m Hok Hv) as [Ha _]. pose proof (get_user_law a m Hok Ha) as H. by rewrite Hv in H.
Qed.

Lemma same_user_refl m : user_ok m → same_user m m.
Proof. by split. Qed.

Lemma same_user_trans m1 m2 m3 : same_user m1 m2 → same_user m2 m3 → same_user m1 m3.
Proof. intros [_ B1 W1] [Hok B2 W2]. split; [done|by intros a; rewrite B2, B1|by intros a; rewrite W2, W1]. Qed.

End access.
