(* ===== verification/Space.v ===== *)
(** Building the address space of a process: what each step of the kernel that adds a page
    (allocating it, filling it, mapping it) does to the memory the process sees. *)

From S2P Require Import Prelude Vaddr Palloc Pages Disk Pagedir AddrSpace UserMem.

Section space.
Context {P : Type} `{!PageOps P} `{!PageLaws P} (ip ram : Z) (others : Z → Prop) (own0 : gmap Z owner).
Implicit Types (s : machine P) (own : gmap Z owner).

(** The process sees the same. *)
Record same_view s s' : Prop := {
  sv_byte : ∀ a, user_byte s' a = user_byte s a;
  sv_writable : ∀ a, user_writable s' a = user_writable s a;
}.

#[global] Instance same_view_preorder : PreOrder same_view.
Proof.
  split; [by intros s|]. intros s1 s2 s3 [B1 W1] [B2 W2]. split; intros a; [by rewrite B2|by rewrite W2].
Qed.

(** A machine with directory [d] active and all of its pages in the memory that
    [init_ram_pages] describes. The pages that have been given out are the [others], for
    other uses, and the ones with an owner. *)
Record base s own (d : Z) : Prop := {
  ba_inv : machine_inv ip s own d;
  ba_limit : page_limit (phys s) - 786432 ≤ ram;
  ba_taken : ∀ pg, page_taken (phys s) pg = true ↔ others pg ∨ is_Some (own !! pg);
  ba_apart : ∀ pg, others pg → own !! pg = None;
}.

(** The address space of a process while it is being built: on top of the pages [own0] that
    had an owner before, there are only its own ones and the page [held] that is being
    filled. *)
Record space s own (d : Z) (held : option Z) : Prop := {
  sp_base : base s own d;
  sp_user : d ≠ ip;
  sp_old : own0 ⊆ own;
  sp_new : ∀ pg o, own !! pg = Some o → own0 !! pg = Some o ∨ belongs d (pg, o) ∨ (o = IsHeld ∧ held = Some pg);
}.

Lemma sp_inv s own d h : space s own d h → machine_inv ip s own d.
Proof. intros [[] _ _ _]. done. Qed.

Lemma view_of s own d a :
  machine_inv ip s own d →
  user_byte s a = (if in_user a && has_flag (entry s d (a / PGSIZE)) PTE_P
    then Some (pmem (phys s) (PGSIZE * frame (entry s d (a / PGSIZE)) + a mod PGSIZE)) else None) ∧
  user_writable s a = in_user a && allowed (entry s d (a / PGSIZE)) true.
Proof. intros Hmi. cbn [user_byte user_writable machine_user]. by rewrite (active_entry_eq ip own d). Qed.

Lemma in_page_div g b : (PGSIZE * g + b mod PGSIZE) / PGSIZE = g.
Proof. symmetry. apply (Z.div_unique _ _ _ (b mod PGSIZE)); [left; by apply Z.mod_pos_bound|done]. Qed.

Lemma quiet_view s s' own own' d :
  machine_inv ip s own d → machine_inv ip s' own' d → same_entries s s' own →
  (∀ x u, own !! (x / PGSIZE) = Some (IsPage d u) → pmem (phys s') x = pmem (phys s) x) → same_view s s'.
Proof using PageLaws0.
  intros Hmi Hmi' Hse Hm. pose proof Hmi as [Hvm [Hd _] _ _ _].
  split; intros a; destruct (view_of s own d a Hmi) as [B W], (view_of s' own' d a Hmi') as [B' W']; rewrite ?B, ?B', ?W, ?W';
    (destruct (in_user a) eqn:Ha; [|done]); apply in_user_iff in Ha; destruct (user_fields a Ha) as (_ & _ & _ & _ & Hu); rewrite (Hse d) by done; [|done].
  cbn [andb]. destruct (has_flag (entry s d (a / PGSIZE)) PTE_P) eqn:HP; [|done]. f_equal.
  destruct (entry_owner s own d _ Hvm Hd Hu HP) as (Ho & _). eapply Hm. by rewrite in_page_div.
Qed.

(** *** Pages that are not mapped *)

Lemma held_entries s p own own' d :
  machine_inv ip s own d → pages_ok p → (∀ x, is_byte (pmem p x)) → (∀ g o, own' !! g = Some o → block_of p g 1) →
  (∀ g o, o ≠ IsHeld → own' !! g = Some o ↔ own !! g = Some o) →
  (∀ x o, own !! (x / PGSIZE) = Some o → o ≠ IsHeld → pmem p x = pmem (phys s) x) →
  machine_inv ip (set_phys s p) own' d ∧ same_view s (set_phys s p).
Proof using PageLaws0.
  intros Hmi Hok Hb Hblk Ho Hm. assert (∀ x, own !! (x / PGSIZE) = Some IsDir ∨ (∃ d i, own !! (x / PGSIZE) = Some (IsTable d i)) →
    pmem p x = pmem (phys s) x) as Hm' by (intros x [H|(? & ? & H)]; by apply (Hm x _ H)).
  assert (machine_inv ip (set_phys s p) own' d) as Hmi' by (by apply (machine_held ip s p own)). split; [done|].
  apply (quiet_view s _ own own' d); try done.
  - by apply (vm_inv_quiet s (set_phys s p) own own' (mi_vm _ _ _ _ Hmi)).
  - intros x u Hx. by apply (Hm x _ Hx).
Qed.

Lemma space_get s own d flags :
  space s own d None → has_flag flags PAL_ASSERT = false →
  ∃ p, (∃ g, get_pages flags 1 (phys s) = Ok (PGSIZE * g, p) ∧ PGSIZE * g ≠ NULL ∧ own0 !! g = None ∧
      space (set_phys s p) (<[g := IsHeld]> own) d (Some g) ∧ same_view s (set_phys s p) ∧
      (has_flag flags PAL_ZERO = true → ∀ x, x / PGSIZE = g → pmem p x = 0)) ∨
    (get_pages flags 1 (phys s) = Ok (NULL, p) ∧ space (set_phys s p) own d None ∧ same_view s (set_phys s p)).
Proof using PageLaws0.
  intros [[Hmi Hl Htk Hap] Hd Hold Hnew] Hf. pose proof Hmi as [Hvm _ _ _ _].
  destruct (get_law flags 1 (phys s) (vi_ok _ _ Hvm) Hf ltac:(done)) as [(g & p & E & Hg)|(p & E & [Hok Ht Hm Hk])];
    pose proof (limit_get_law _ 1 _ _ _ (vi_ok _ _ Hvm) ltac:(done) E) as El; exists p; [left; exists g|right].
  - destruct (block_law _ _ _ (gr_ok _ _ _ _ _ Hg) (gr_block _ _ _ _ _ Hg)) as (_ & ? & ? & _).
    assert (own !! g = None) as Hn.
    { destruct (own !! g) as [o|] eqn:Ho; [|done]. pose proof (own_range _ _ _ _ Hvm Ho) as [_ Ht].
      rewrite (gr_free _ _ _ _ _ Hg) in Ht; [done|]. unfold within. lia. }
    destruct (held_entries s p own (<[g := IsHeld]> own) d) as [Hmi' Hv']; try done.
    + apply Hg.
    + intros x. rewrite (gr_mem _ _ _ _ _ Hg). destruct (_ && _); [done|apply Hvm].
    + intros g' o [[<- _]|[_ Ho]]%lookup_insert_Some; [apply Hg|]. by eapply (gr_keep _ _ _ _ _ Hg), own_block.
    + intros g' o Ho. rewrite lookup_insert_Some. split; [naive_solver|]. intros Hg'. right. split; [|done]. intros <-. congruence.
    + intros x o Hx _. rewrite (gr_mem _ _ _ _ _ Hg), (bool_decide_eq_false_2 (in_pages g 1 x)); [by rewrite andb_false_r|].
      intros Hin. assert (x / PGSIZE = g) as Exg by (unfold in_pages, within in Hin; lia). congruence.
    + split_and!; try done; [unfold PGSIZE; lia|by eapply lookup_weaken_None| |].
      * split; [|done|by apply insert_subseteq_r; [eapply lookup_weaken_None|]|intros pg o [[<- <-]|[_ Ho]]%lookup_insert_Some; [by right; right|destruct (Hnew pg o Ho) as [?|[?|[_ [=]]]]; auto]].
        split; [done|cbn [phys set_phys]; by rewrite El|..].
        -- intros pg. cbn [phys set_phys]. rewrite (gr_taken _ _ _ _ _ Hg), orb_true_iff, Htk, bool_decide_eq_true, lookup_insert_is_Some.
           unfold within. destruct (decide (g = pg)); [|naive_solver lia]. intuition lia.
        -- intros pg Hpg. rewrite lookup_insert_ne; [by apply Hap|]. intros <-. pose proof (gr_free _ _ _ _ _ Hg g) as Hfree.
           rewrite (proj2 (Htk g)) in Hfree by (by left). unfold within in Hfree. naive_solver lia.
      *      intros Hz x Hx. rewrite (gr_mem _ _ _ _ _ Hg), Hz, bool_decide_eq_true_2; [done|]. unfold in_pages, within. lia.
  - destruct (held_entries s p own own d) as [Hmi' Hv']; try done.
    + intros x. rewrite Hm. apply Hvm.
    + intros g o Ho. by eapply Hk, own_block.
    + split_and!; try done. split; [|done..]. split; [done|cbn [phys set_phys]; by rewrite El| |done]. intros pg. cbn [phys set_phys]. by rewrite Ht.
Qed.

Lemma space_free s own d g :
  space s own d (Some g) → own !! g = Some IsHeld → own0 !! g = None →
  ∃ p, free_pages (PGSIZE * g) 1 (phys s) = Ok p ∧ space (set_phys s p) (delete g own) d None ∧ same_view s (set_phys s p).
Proof using PageLaws0.
  intros [[Hmi Hl Htk Hap] Hd Hold Hnew] Hk H0. pose proof Hmi as [Hvm _ _ _ _]. pose proof (vi_own _ _ Hvm _ _ Hk) as Hb.
  destruct (free_law g 1 (phys s) (vi_ok _ _ Hvm) Hb) as (p & E & Hok & Ht & Hm & Hkeep).
  pose proof (limit_free_law _ _ _ _ (vi_ok _ _ Hvm) Hb E) as El. exists p. split; [done|].
  destruct (held_entries s p own (delete g own) d) as [Hmi' Hv']; try done.
  - intros x. rewrite Hm. case_bool_decide; [done|apply Hvm].
  - intros g' o [Hne Ho]%lookup_delete_Some. apply Hkeep; [by eapply own_block|]. unfold within. lia.
  - intros g' o Ho. rewrite lookup_delete_Some. split; [tauto|]. intros Hg. split; [|done]. intros <-. congruence.
  - intros x o Hx Hne. rewrite Hm, bool_decide_eq_false_2; [done|]. intros Hin.
    assert (x / PGSIZE = g) as Exg by (unfold in_pages, within in Hin; lia). congruence.
  - split; [|done]. split; [|done|rewrite <-(delete_id own0 g) by done; by apply delete_mono|].
    2:{ intros pg o [Hne Ho]%lookup_delete_Some. destruct (Hnew pg o Ho) as [?|[?|[_ [= ->]]]]; [by left|by right; left|done]. }
    split; [done|cbn [phys set_phys]; by rewrite El|..].
    + intros pg. cbn [phys set_phys]. rewrite Ht, andb_true_iff, Htk, negb_true_iff, bool_decide_eq_false, lookup_delete_is_Some.
      pose proof (Hap pg) as Hpg. unfold within. destruct (decide (pg = g)) as [->|]; [|naive_solver lia].
      rewrite Hk in Hpg. naive_solver lia.
    + intros pg Hpg. apply lookup_delete_None. right. by apply Hap.
Qed.

(** Filling a page. *)
Lemma space_fill s own d g h m :
  space s own d h → own !! g = Some IsHeld → (∀ x, is_byte (m x)) → (∀ x, x / PGSIZE ≠ g → m x = pmem (phys s) x) →
  let s' := set_phys s (set_pmem m (phys s)) in
  space s' own d h ∧ same_view s s' ∧ ∀ x, pmem (phys s') x = m x.
Proof using PageLaws0.
  intros [[Hmi Hl Htk Hap] Hd Hold Hnew] Hg Hb Hm s'. pose proof Hmi as [Hvm _ _ _ _]. destruct (set_pmem_law m (phys s)) as (Hok & Ht & Hblk & Hp).
  destruct (held_entries s (set_pmem m (phys s)) own own d) as [Hmi' Hv']; try done.
  - apply Hok, Hvm.
  - intros x. by rewrite Hp.
  - intros g' o Ho. by eapply Hblk, own_block.
  - intros x o Hx Hne. rewrite Hp, Hm; [done|]. intros E. congruence.
  - split_and!; try done. split; [|done..]. split; [done| | |done].
    + change (page_limit (set_pmem m (phys s)) - 786432 ≤ ram). by rewrite limit_set_law.
    + intros pg. change (page_taken (set_pmem m (phys s)) pg = true ↔ others pg ∨ is_Some (own !! pg)). by rewrite Ht.
Qed.

(** *** Mapping a page *)

Lemma lookup_limit s own pd vaddr b a s' :
  vm_inv s own → lookup_page pd vaddr b s = Ok (a, s') → page_limit (phys s') = page_limit (phys s).
Proof using PageLaws0.
  intros Hi E. unfold lookup_page in E. res_inv. destruct x as [found s1]. assert (page_limit (phys s1) = page_limit (phys s)) as <-.
  { destruct (load s _ =? 0); [|by res_inv]. destruct b; [|by res_inv]. res_inv. destruct x as [pt p].
    match goal with H : get_pages _ _ _ = _ |- _ => pose proof (limit_get_law _ 1 _ _ _ (vi_ok _ _ Hi) ltac:(done) H) as <- end.
    destruct (pt =? NULL); res_inv; [done|]. cbn [phys set_phys store]. by rewrite limit_set_law. }
  destruct (negb found); by res_inv.
Qed.

Lemma set_page_limit s own pd upage kpage w b s' :
  vm_inv s own → pagedir_set_page (PGSIZE * ip) ram pd upage kpage w s = Ok (b, s') → page_limit (phys s') = page_limit (phys s).
Proof using PageLaws0.
  intros Hi E. unfold pagedir_set_page in E. res_inv. destruct x0 as [pte s1].
  match goal with H : lookup_page _ _ _ _ = _ |- _ => pose proof (lookup_limit s own _ _ _ _ _ Hi H) as <- end.
  destruct (negb (pte =? NULL)); res_inv; [|done]. cbn [phys set_phys store]. by rewrite limit_set_law.
Qed.

(** Page [u] of the process is now page [k] of the kernel. *)
Record page_mapped s s' (u k : Z) (w : bool) : Prop := {
  pm_byte : ∀ a, 0 ≤ u < 786432 → user_byte s' a = if a / PGSIZE =? u then Some (pmem (phys s) (PGSIZE * k + a mod PGSIZE)) else user_byte s a;
  pm_writable : ∀ a, 0 ≤ u < 786432 → user_writable s' a = if a / PGSIZE =? u then w else user_writable s a;
}.

Lemma user_page_in a u : 0 ≤ u < 786432 → a / PGSIZE = u → 0 ≤ a < PHYS_BASE.
Proof. intros Hu Ea. pose proof (Z.div_mod a PGSIZE ltac:(done)). pose proof (Z.mod_pos_bound a PGSIZE ltac:(done)). unfold PGSIZE, PHYS_BASE in *. lia. Qed.

Lemma map_view s s' own own' d u k w :
  machine_inv ip s own d → machine_inv ip s' own' d → 0 ≤ u < 786432 → own !! k = Some IsHeld →
  entry_set_to s s' own d u (user_entry k w) → tables_only s s' own → page_mapped s s' u k w.
Proof using PageLaws0.
  intros Hmi Hmi' Hu Hk He [Hto _ _]. pose proof Hmi as [Hvm [Hd _] _ _ _]. destruct (own_range _ _ _ _ Hvm Hk) as [Hkr Hkt].
  destruct (user_entry_ok k w ltac:(lia)) as (_ & Ef & EP & _ & EW).
  split; intros a _; destruct (view_of s own d a Hmi) as [B W], (view_of s' own' d a Hmi') as [B' W']; rewrite ?B, ?B', ?W, ?W'.
  - destruct (Z.eqb_spec (a / PGSIZE) u) as [Ea|Ea].
    + rewrite (proj2 (in_user_iff a)) by (by eapply user_page_in). rewrite He by (rewrite ?Ea; done). rewrite bool_decide_eq_true_2 by congruence.
      rewrite EP, Ef. cbn [andb]. f_equal. apply Hto; rewrite in_page_div; congruence.
    + destruct (in_user a) eqn:Ha; [|done]. apply in_user_iff in Ha. destruct (user_fields a Ha) as (_ & _ & _ & _ & Hua).
      rewrite He by done. rewrite bool_decide_eq_false_2 by congruence. destruct (has_flag (entry s d (a / PGSIZE)) PTE_P) eqn:HP; [|done]. cbn [andb]. f_equal.
      destruct (entry_owner s own d _ Hvm Hd Hua HP) as (Ho & _). destruct (own_range _ _ _ _ Hvm Ho) as [_ Ht].
      apply Hto; rewrite in_page_div; congruence.
  - destruct (Z.eqb_spec (a / PGSIZE) u) as [Ea|Ea].
    + rewrite (proj2 (in_user_iff a)) by (by eapply user_page_in). rewrite He by (rewrite ?Ea; done). rewrite bool_decide_eq_true_2 by congruence.
      unfold allowed. by rewrite EP, EW.
    + destruct (in_user a) eqn:Ha; [|done]. apply in_user_iff in Ha. destruct (user_fields a Ha) as (_ & _ & _ & _ & Hua).
      rewrite He by done. by rewrite bool_decide_eq_false_2 by congruence.
Qed.

(** The pages in use after a table has been added. *)
Lemma taken_tables s s' own own1 own' d :
  base s own d → more_tables s own own1 d → new_taken s s' own1 → tables_only s s' own → vm_inv s' own' →
  (∀ pg, is_Some (own' !! pg) ↔ is_Some (own1 !! pg)) →
  (∀ pg, page_taken (phys s') pg = true ↔ others pg ∨ is_Some (own' !! pg)) ∧ (∀ pg, others pg → own' !! pg = None).
Proof using PageLaws0.
  intros [_ _ Htk Hap] Hm Hnt [_ Hto _] Hi' Hdom.
  assert (∀ pg, is_Some (own !! pg) → is_Some (own1 !! pg)) as Hmono.
  { intros pg Hpg. destruct Hm as [->|(t & i & _ & _ & ->)]; [done|]. apply lookup_insert_is_Some. destruct (decide (t = pg)); eauto. }
  split; intros pg.
  - rewrite Hdom. split.
    + intros [[Ho|Ho]%Htk|Ho]%Hnt; auto.
    + intros [Ho|Ho]; [apply Hto, Htk; by left|]. apply Hdom in Ho as [o Ho]. by apply (own_range _ _ _ _ Hi' Ho).
  - intros Ho. apply eq_None_not_Some. rewrite Hdom. intros Hs. destruct Hm as [->|(t & i & _ & Hf & ->)]; [rewrite (Hap pg Ho) in Hs; by destruct Hs|].
    apply lookup_insert_is_Some in Hs as [->|[_ Hs]]; [|rewrite (Hap pg Ho) in Hs; by destruct Hs]. rewrite (proj2 (Htk pg)) in Hf by (by left). done.
Qed.

Lemma space_map s own d u k w :
  space s own d (Some k) → 0 ≤ u < 786432 → own !! k = Some IsHeld → own0 !! k = None → has_flag (entry s d u) PTE_P = false →
  ∃ b s' own', pagedir_set_page (PGSIZE * ip) ram (PGSIZE * d) (PGSIZE * u) (PGSIZE * k) w s = Ok (b, s') ∧ space s' own' d (if b then None else Some k) ∧
    if b then page_mapped s s' u k w else own' !! k = Some IsHeld ∧ same_view s s'.
Proof using PageLaws0.
  intros [Hba Hdne Hold Hnew] Hu Hk H0 HP. pose proof Hba as [Hmi Hl _ _]. pose proof Hmi as [Hvm [Hd Hc] Hip Hem Ht].
  pose proof (limit_block_law k 1 _ (vi_ok _ _ Hvm) (vi_own _ _ Hvm _ _ Hk)) as Hlim.
  destruct (set_page_ok (PGSIZE * ip) ram s own d k u w Hvm Hd Hu HP Hk) as (b & s' & own1 & E & Hi1 & Hm & Hnt & Hc1 & Ht1 & Hto & He);
    [lia|unfold PGSIZE; lia|]. pose proof (set_page_limit s own _ _ _ _ _ _ Hvm E) as El.
  assert (∀ t i, own1 !! t ≠ Some (IsTable ip i)) as Hem1.
  { intros t i. rewrite (more_tables_other s own own1 d) by (done || by intros ? [=]). apply Hem. }
  assert (∀ g, own1 !! g = Some IsDir ↔ own !! g = Some IsDir) as Hdir by (intros g; by apply (more_tables_other s own own1 d)).
  assert (own1 !! k = Some IsHeld) as Hk1 by (by apply (more_tables_other s own own1 d)).
  assert (own0 ⊆ own1) as Hold1 by (etransitivity; [exact Hold|]; destruct Hm as [->|(t & i & Hn & _ & ->)]; [done|by apply insert_subseteq]).
  assert (∀ pg o, own1 !! pg = Some o → own0 !! pg = Some o ∨ belongs d (pg, o) ∨ (o = IsHeld ∧ Some k = Some pg)) as Hnew1.
  { intros pg o Ho. destruct Hm as [->|(t & i & Hn & _ & ->)]; [by apply Hnew|]. apply lookup_insert_Some in Ho as [[<- <-]|[_ Ho]]; [|by apply Hnew].
    right. left. right. left. by exists i. }
  exists b, s'. destruct b.
  - exists (<[k := IsPage d u]> own1). assert (machine_inv ip s' (<[k := IsPage d u]> own1) d) as Hmi'.
    { apply (machine_change ip s s' own _ d d u (user_entry k w) false); try done.
      + intros g. rewrite lookup_insert_Some, <-(Hdir g). split; [naive_solver|]. intros Hg. right. split; [|done]. intros <-. congruence.
      + intros t i [[_ [=]]|[_ ?]]%lookup_insert_Some. by destruct (Hem1 t i).
      + intros _ e []. congruence. }
    destruct (taken_tables s s' own own1 (<[k := IsPage d u]> own1) d Hba Hm Hnt Hto (mi_vm _ _ _ _ Hmi')) as [Htk' Hap'].
    { intros pg. rewrite lookup_insert_is_Some. destruct (decide (k = pg)) as [<-|]; [rewrite Hk1; naive_solver|naive_solver]. }
    split_and!; [done|split; [by split; [|rewrite El|..]|done|by apply insert_subseteq_r|]|].
    { intros pg o [[<- <-]|[Hne Ho]]%lookup_insert_Some; [right; left; right; right; by exists u|]. destruct (Hnew1 pg o Ho) as [?|[?|[_ [= ->]]]]; [by left|by right; left|done]. }
    by apply (map_view s s' own (<[k := IsPage d u]> own1) d).
  - exists own1. assert (machine_inv ip s' own1 d) as Hmi' by (apply (machine_quiet ip s _ own _ d); try done; by apply Hdir).
    destruct (taken_tables s s' own own1 own1 d Hba Hm Hnt Hto (mi_vm _ _ _ _ Hmi') ltac:(done)) as [Htk' Hap'].
    split_and!; try done; [by split; [split; [|rewrite El|..]|..]|]. apply (quiet_view s s' own own1 d); try done.
    intros x u' Hx. destruct (own_range _ _ _ _ Hvm Hx) as [_ Htk]. apply Hto; congruence.
Qed.

(** *** A new directory *)

Lemma create_limit s own pd s' :
  vm_inv s own → pagedir_create (PGSIZE * ip) s = Ok (pd, s') → page_limit (phys s') = page_limit (phys s).
Proof using PageLaws0.
  intros Hi E. unfold pagedir_create in E. res_inv. destruct x as [pd' p].
  match goal with H : get_pages _ _ _ = _ |- _ => pose proof (limit_get_law _ 1 _ _ _ (vi_ok _ _ Hi) ltac:(done) H) as <- end.
  res_inv. cbn [phys set_phys]. destruct (negb _); [apply limit_set_law|done].
Qed.

(** [pagedir_create] and [pagedir_activate]: an empty address space. *)
Lemma space_create s own da :
  own = own0 → base s own da →
  (∃ s', pagedir_create (PGSIZE * ip) s = Ok (NULL, s') ∧ base s' own da) ∨
  (∃ d s' s'' own', pagedir_create (PGSIZE * ip) s = Ok (PGSIZE * d, s') ∧ PGSIZE * d ≠ NULL ∧
     pagedir_activate (PGSIZE * ip) (PGSIZE * d) s' = Ok s'' ∧ space s'' own' d None ∧ own0 !! d = None ∧ ∀ a, user_byte s'' a = None).
Proof using PageLaws0.
  intros E0 [Hmi Hl Htk Hap]. pose proof Hmi as [Hvm [Hd Hc] Hip Hem _].
  destruct (create_ok s own ip Hvm Hip) as (pd & s1 & E & Hc1 & Ht1 & Hse & Hpd); [by intros i; apply (init_empty ip s own da)|].
  pose proof (create_limit s own pd s1 Hvm E) as El. destruct Hpd as [(-> & Hi' & Hnt)|(t & -> & Ht & Hn & Hi' & Hnt & Hto & Hfr)]; [left|right].
  - exists s1. split; [done|]. split; [by apply (machine_quiet ip s _ own own da)|by rewrite El| |done]. intros pg. by rewrite Hnt.
  - set (own' := <[t := IsDir]> own). assert (∀ g o, own !! g = Some o → own' !! g = Some o) as Hins.
    { intros g o Hg. unfold own'. rewrite lookup_insert_ne; [done|]. intros <-. congruence. }
    assert (own' !! t = Some IsDir) as Ht' by apply lookup_insert_eq.
    assert (machine_inv ip s1 own' da) as Hmi1.
    { apply (machine_quiet ip s _ own _ da); auto. intros t' i [[_ [=]]|[_ ?]]%lookup_insert_Some. by destruct (Hem t' i). }
    pose proof (machine_activate ip s1 own' t da Hmi1 Ht') as Hmi2.
    assert (t ≠ ip) as Hne by congruence. assert (PGSIZE * t ≠ NULL) as Hnz by (unfold PGSIZE; lia).
    exists t, s1. eexists. exists own'. split; [done|]. split; [done|]. split; [by apply (activate_ok (PGSIZE * ip) s1 own')|].
    split; [|split; [by rewrite <-E0|]].
    { split; [|done|subst own0; by apply insert_subseteq|intros pg o [[<- <-]|[_ Ho]]%lookup_insert_Some; [by right; left; left|left; by rewrite <-E0]].
      split; [done|by rewrite <-El in Hl|..]; cbn [phys].
      - intros pg. split.
        + intros [[Ho|Ho]%Htk|Ho]%Hnt; auto. right. destruct Ho as [o Ho]. rewrite (Hins _ _ Ho). by eexists.
        + intros [Ho|[o Ho]]; [apply Hto, Htk; by left|]. by apply (own_range _ _ _ _ Hi' Ho).
      - intros pg Ho. unfold own'. rewrite lookup_insert_ne; [by apply Hap|]. intros <-. rewrite (proj2 (Htk t)) in Hfr by (by left). done. }
    intros a. destruct (view_of _ own' t a Hmi2) as [-> _]. destruct (in_user a) eqn:Ha; [|done]. apply in_user_iff in Ha.
    destruct (user_fields a Ha) as (_ & _ & _ & _ & Hu). cbn [andb].
    destruct (has_flag _ PTE_P) eqn:HP; [|done]. destruct (entry_owner _ own' t _ (mi_vm _ _ _ _ Hmi2) Ht' Hu HP) as (Ho & _).
    apply lookup_insert_Some in Ho as [[_ [=]]|[_ Ho]]. destruct (owner_entry s own t _ _ Hvm Ho) as (_ & Hdt & _). congruence.
Qed.

End space.
