(* ===== verification/ArgPass.v ===== *)
(** The arguments of a new process (src/userprog/process.c): the command line that
    [process_execute] prepares and the initial stack that [setup_stack] builds from it in
    the memory of the process. *)

From S2P Require Import CString.
From S2P Require Import Prelude Vaddr Disk UserMem.

(** ** Parameters *)

Record uprg_params := Params { len : Z; cmdline : list Z }.

(** [PGSIZE - sizeof (struct uprg_params)]. *)
Definition CMDLINE_SIZE : Z := PGSIZE - 516.

(** The loop that ends the arguments with null bytes. *)
Fixpoint end_args (l : list Z) : list Z :=
  match l with
  | [] => []
  | c :: l => (if c =? 32 then 0 else c) :: end_args l
  end.

(** The page of zeros that [process_execute] fills in for a string. *)
Definition make_params (line : list Z) : uprg_params :=
  let line := take (Z.to_nat (CMDLINE_SIZE - 1)) line in
  Params (Z.of_nat (length line)) (end_args line ++ replicate (Z.to_nat (PGSIZE - 4) - length line) 0).

(** ** The stack *)

Section stack.
Context {M : Type} `{!UserMem M}.

(** [for (i = 0; i < n; i++) ((char * ) esp)[i] = l[i];] *)
Fixpoint push_data (n : nat) (i esp : Z) (l : list Z) (m : M) : res M :=
  match n with
  | O => Ok m
  | S n => c ← deref (l !! Z.to_nat i); m ← put_user (u32 (esp + i)) c m; push_data n (i + 1) esp l m
  end.

Fixpoint zero_fill (n : nat) (i esp : Z) (m : M) : res M :=
  match n with
  | O => Ok m
  | S n => m ← put_user (u32 (esp + i)) 0 m; zero_fill n (i + 1) esp m
  end.

(** [*esp -= 4; *(uint32_t * ) *esp = v] *)
Definition push32 (esp v : Z) (m : M) : res (Z * M) :=
  let esp := u32 (esp - 4) in m ← put_user32 esp v m; Ok (esp, m).

(** The loop over the characters, from the last one to the first. *)
Fixpoint push_argv (n : nat) (i len t argc esp : Z) (m : M) : res (Z * Z * M) :=
  match n with
  | O => Ok (argc, esp, m)
  | S n =>
      let addr := u32 (PHYS_BASE - 1 - i) in
      '(c, m) ← get_user addr m;
      '(argc, esp, m) ← (if negb (t =? 0) && (c =? 0) then
          '(esp, m) ← push32 esp (u32 (addr + 1)) m; Ok (s32 (argc + 1), esp, m)
        else Ok (argc, esp, m));
      '(argc, esp, m) ← (if i =? len then
          '(esp, m) ← push32 esp addr m; Ok (s32 (argc + 1), esp, m)
        else Ok (argc, esp, m));
      push_argv n (i + 1) len c argc esp m
  end.

(** The part of [setup_stack] after the page of the stack is in place; the result is the
    stack pointer. *)
Definition push_args (params : uprg_params) (m : M) : res (Z * M) :=
  let n := len params + 1 in
  let esp := PHYS_BASE in
  let esp := u32 (esp - n) in
  m ← push_data (Z.to_nat n) 0 esp (cmdline params) m;
  let esp := u32 (esp - n mod 4) in
  m ← zero_fill (Z.to_nat (n mod 4)) 0 esp m;
  '(esp, m) ← push32 esp 0 m;
  '(argc, esp, m) ← push_argv (Z.to_nat n) 0 (len params) 0 0 esp m;
  '(esp, m) ← push32 esp esp m;
  '(esp, m) ← push32 esp argc m;
  push32 esp 0 m.

End stack.

(** ** What the stack should hold *)

(** The arguments of a command line: its words, after an empty first argument when
    the line is empty or starts with a blank. *)
Definition arguments (line : list Z) : list (list Z) :=
  match line with
  | c :: _ => if c =? 32 then [] :: CString.words [32] line else CString.words [32] line
  | [] => [[]]
  end.

(** Where the words start, in characters that end at null bytes. *)
Fixpoint later_starts (prev : Z) (l : list Z) (a : Z) : list Z :=
  match l with
  | [] => []
  | c :: l => (if (prev =? 0) && negb (c =? 0) then [a] else []) ++ later_starts c l (a + 1)
  end.

Definition starts (l : list Z) (a : Z) : list Z :=
  match l with [] => [] | c :: l => a :: later_starts c l (a + 1) end.

(** The string at the front. *)
Fixpoint front (l : list Z) : list Z :=
  match l with
  | [] => []
  | c :: l => if c =? 0 then [] else c :: front l
  end.

(** The pointers that the loop pushes, for the characters in reverse. *)
Fixpoint scan (r : list Z) (i n t : Z) : list Z :=
  match r with
  | [] => []
  | c :: r =>
      (if negb (t =? 0) && (c =? 0) then [PHYS_BASE - 1 - i + 1] else []) ++
      (if i =? n then [PHYS_BASE - 1 - i] else []) ++ scan r (i + 1) n c
  end.

Lemma later_starts_snoc p l x a :
  later_starts p (l ++ [x]) a =
  later_starts p l a ++ (if (default p (last l) =? 0) && negb (x =? 0) then [a + Z.of_nat (length l)] else []).
Proof.
  revert p a. induction l as [|c l IH]; intros p a; cbn [app later_starts].
  - simpl. rewrite Z.add_0_r, app_nil_r. done.
  - rewrite IH, <-app_assoc. do 2 f_equal. rewrite last_cons. replace (a + 1 + Z.of_nat (length l)) with (a + Z.of_nat (length (c :: l))) by (simpl; lia).
    by destruct (last l).
Qed.

Lemma starts_snoc l x a :
  l ≠ [] → starts (l ++ [x]) a = starts l a ++ (if (default 1 (last l) =? 0) && negb (x =? 0) then [a + Z.of_nat (length l)] else []).
Proof.
  destruct l as [|c l]; [done|]. intros _. cbn [app starts]. rewrite later_starts_snoc. cbn [app]. do 2 f_equal.
  rewrite last_cons. replace (a + 1 + Z.of_nat (length l)) with (a + Z.of_nat (length (c :: l))) by (simpl; lia). by destruct (last l).
Qed.

(** Going backwards, the loop finds the starts in reverse. *)
Lemma scan_starts l i n t :
  l ≠ [] → i + Z.of_nat (length l) = n + 1 →
  scan (reverse l) i n t =
  reverse (starts l (PHYS_BASE - n - 1) ++ (if (default 1 (last l) =? 0) && negb (t =? 0) then [PHYS_BASE - i] else [])).
Proof.
  revert i t. induction l as [|x l IH] using rev_ind; [done|]. intros i t _ Hn. rewrite length_app in Hn. simpl in Hn.
  rewrite reverse_snoc, last_snoc. cbn [scan default from_option].
  replace (PHYS_BASE - 1 - i + 1) with (PHYS_BASE - i) by lia. rewrite (andb_comm (x =? 0)). rewrite reverse_app.
  assert (∀ b : bool, reverse (if b then [PHYS_BASE - i] else []) = if b then [PHYS_BASE - i] else []) as -> by (by intros []). f_equal.
  destruct l as [|c l]; [simpl in Hn; rewrite (proj2 (Z.eqb_eq i n)) by lia; cbn; f_equal; lia|].
  rewrite (proj2 (Z.eqb_neq i n)) by (simpl in Hn; lia). rewrite app_nil_l, IH, starts_snoc by (done || lia). do 2 f_equal.
  destruct (_ && _); [|done]. f_equal. lia.
Qed.

(** *** The strings at the starts *)

(** The characters [e] at [a] hold the string [w] at [p]. *)
Definition string_at (e : list Z) (a p : Z) (w : list Z) : Prop :=
  a ≤ p < a + Z.of_nat (length e) ∧ front (drop (Z.to_nat (p - a)) e) = w.

Lemma string_at_cons c e a p w : string_at e (a + 1) p w → string_at (c :: e) a p w.
Proof.
  intros [Hp Hf]. split; [simpl; lia|]. replace (Z.to_nat (p - a)) with (S (Z.to_nat (p - (a + 1)))) by lia. done.
Qed.

Lemma strings_cons c e a ps ws : Forall2 (string_at e (a + 1)) ps ws → Forall2 (string_at (c :: e) a) ps ws.
Proof. intros H. apply (Forall2_impl _ _ _ _ H). intros p w. apply string_at_cons. Qed.

Lemma split_cons l : ∃ h t, CString.split_on [32] l = h :: t.
Proof. destruct l as [|c l]; simpl; [by eauto|]. case_decide; [by eauto|]. destruct (CString.split_on [32] l); by eauto. Qed.

(** Characters of a command line: none is null. *)
Definition no_nul (l : list Z) : Prop := Forall (λ c, 1 ≤ c < 256) l.

(** The characters as they are put on the stack. *)
Definition ended (l : list Z) : list Z := end_args l ++ [0].

Lemma ended_cons c l : ended (c :: l) = (if c =? 32 then 0 else c) :: ended l.
Proof. done. Qed.

Lemma ended_length l : length (ended l) = S (length l).
Proof. unfold ended. rewrite length_app. simpl. assert (length (end_args l) = length l) as -> by (induction l; simpl; congruence). lia. Qed.

Lemma front_ended l h t : no_nul l → CString.split_on [32] l = h :: t → front (ended l) = h.
Proof.
  intros Hl. revert h t. induction Hl as [|c l Hc _ IH]; intros h t; [by intros [= <- _]|]. rewrite ended_cons. simpl.
  destruct (Z.eqb_spec c 32) as [->|Hb]; [rewrite decide_True by set_solver; by intros [= <- _]|].
  rewrite decide_False by set_solver. destruct (split_cons l) as (h' & t' & E). rewrite E. intros [= <- _].
  cbn [front]. rewrite (proj2 (Z.eqb_neq c 0)) by lia. f_equal. by eapply IH.
Qed.

Lemma later_strings l p a h t :
  no_nul l → CString.split_on [32] l = h :: t →
  Forall2 (string_at (ended l) a) (later_starts p (ended l) a) (filter (λ w, w ≠ []) (if p =? 0 then h :: t else t)).
Proof.
  intros Hl. revert p a h t. induction Hl as [|c l Hc Hl IH]; intros p a h t E.
  { injection E as <- <-. cbn. rewrite andb_false_r. cbn. destruct (p =? 0); constructor. }
  destruct (split_cons l) as (h' & t' & E'). pose proof (front_ended l h' t' Hl E') as Hf. rewrite ended_cons in *. cbn [later_starts].
  simpl in E. rewrite E' in E. destruct (Z.eqb_spec c 32) as [->|Hb].
  - rewrite decide_True in E by set_solver. injection E as <- <-. rewrite andb_false_r, app_nil_l. apply strings_cons.
    specialize (IH 0 (a + 1) h' t' E'). cbn [Z.eqb] in IH. destruct (p =? 0); [|done]. by rewrite filter_cons_False by auto.
  - rewrite decide_False in E by set_solver. injection E as <- <-. rewrite (proj2 (Z.eqb_neq c 0)) by lia. cbn [negb]. rewrite andb_true_r.
    specialize (IH c (a + 1) h' t' E'). rewrite (proj2 (Z.eqb_neq c 0)) in IH by lia.
    destruct (p =? 0); [|by apply strings_cons]. rewrite filter_cons_True by done. constructor; [|by apply strings_cons].
    split; [simpl; lia|]. rewrite Z.sub_diag. change (Z.to_nat 0) with 0%nat. rewrite drop_0. cbn [front]. rewrite (proj2 (Z.eqb_neq c 0)) by lia. by rewrite Hf.
Qed.

(** The starts are where the arguments are. *)
Lemma starts_arguments l a : no_nul l → Forall2 (string_at (ended l) a) (starts (ended l) a) (arguments l).
Proof.
  intros Hl. destruct Hl as [|c l Hc Hl].
  { constructor; [|constructor]. split; [simpl; lia|]. by rewrite Z.sub_diag. }
  destruct (split_cons l) as (h & t & E). pose proof (front_ended l h t Hl E) as Hf.
  pose proof (later_strings l (if c =? 32 then 0 else c) (a + 1) h t Hl E) as Hls. rewrite ended_cons. cbn [starts arguments].
  unfold CString.words. cbn [CString.split_on]. rewrite E. destruct (Z.eqb_spec c 32) as [->|Hb].
  - rewrite decide_True by set_solver. rewrite filter_cons_False by auto. constructor; [|by apply strings_cons].
    split; [simpl; lia|]. by rewrite Z.sub_diag.
  - rewrite decide_False by set_solver. rewrite filter_cons_True by done. rewrite (proj2 (Z.eqb_neq c 0)) in Hls by lia.
    constructor; [|by apply strings_cons]. split; [simpl; lia|]. rewrite Z.sub_diag. change (Z.to_nat 0) with 0%nat. rewrite drop_0. cbn [front].
    rewrite (proj2 (Z.eqb_neq c 0)) by lia. by rewrite Hf.
Qed.

(** The first argument is at the front. *)
Lemma first_argument l : no_nul l → arguments l !! 0%nat = Some (front (ended l)).
Proof.
  intros Hl. pose proof (starts_arguments l 0 Hl) as Hs. pose proof (ended_length l). destruct (ended l) as [|c e]; [done|]. cbn [starts] in Hs.
  inversion Hs as [|p w ps ws [_ Hw] _ Ep Ew]. simpl. f_equal. by rewrite <-Hw, Z.sub_diag.
Qed.

(** A string ends inside the characters. *)
Lemma front_split l : 0 ∈ l → ∃ r, l = front l ++ 0 :: r.
Proof.
  induction l as [|c l IH]; [by intros ?%elem_of_nil|]. cbn [front]. destruct (Z.eqb_spec c 0) as [->|Hc]; [by eexists|].
  intros Hin. destruct IH as [r Hr]; [set_solver|]. exists r. cbn [app]. by rewrite <-Hr.
Qed.

(** ** Building the stack *)

Section proof.
Context {M : Type} `{!UserMem M} `{!UserInv M} `{!UserLaws M}.
Implicit Types m : M.

Lemma push_data_ok n i esp l m :
  user_ok m → user_room m (esp + i) (Z.of_nat n) → 0 ≤ i → (Z.to_nat i + n ≤ length l)%nat → Forall is_byte l →
  ∃ m', push_data n i esp l m = Ok m' ∧ put_bytes m m' (esp + i) (take n (drop (Z.to_nat i) l)).
Proof using UserLaws0.
  revert i m. induction n as [|n IH]; intros i m Hok Hr Hi Hl Hb; cbn [push_data].
  { exists m. split; [done|]. rewrite take_0. by apply put_bytes_nil. }
  destruct (lookup_lt_is_Some_2 l (Z.to_nat i)) as [c Ec]; [lia|]. rewrite Ec. mstep.
  assert (user_room m (esp + i) 1) as Hr1 by (intros b Hb'; apply Hr; lia).
  pose proof (room_range m (esp + i) _ (esp + i) Hok Hr ltac:(lia)) as Hrange.
  rewrite u32_small by (unfold is_u32, PHYS_BASE in *; lia).
  destruct (put_user_ok (esp + i) c m Hok Hr1) as (m1 & E1 & Hp1); [by eapply Forall_lookup_1|]. rewrite E1. mstep.
  destruct (IH (i + 1) m1) as (m2 & E2 & Hp2); [apply Hp1| |lia|lia|done|].
  { intros b Hb'. rewrite (pb_writable _ _ _ _ Hp1). apply Hr. lia. }
  exists m2. split; [done|]. rewrite (drop_S l c) by done. cbn [take].
  apply (put_bytes_trans m m1 m2 (esp + i) [c]).
  - apply (put_bytes_snoc m m m1 (esp + i) [] c); [by apply put_bytes_nil|]. simpl. by rewrite Z.add_0_r.
  - simpl. replace (Z.to_nat (i + 1)) with (S (Z.to_nat i)) in Hp2 by lia. by replace (esp + i + Z.of_nat 1) with (esp + (i + 1)) by lia.
Qed.

Lemma zero_fill_ok n i esp m :
  user_ok m → user_room m (esp + i) (Z.of_nat n) →
  ∃ m', zero_fill n i esp m = Ok m' ∧ put_bytes m m' (esp + i) (replicate n 0).
Proof using UserLaws0.
  revert i m. induction n as [|n IH]; intros i m Hok Hr; cbn [zero_fill].
  { exists m. split; [done|]. by apply put_bytes_nil. }
  assert (user_room m (esp + i) 1) as Hr1 by (intros b Hb'; apply Hr; lia).
  pose proof (room_range m (esp + i) _ (esp + i) Hok Hr ltac:(lia)) as Hrange.
  rewrite u32_small by (unfold is_u32, PHYS_BASE in *; lia).
  destruct (put_user_ok (esp + i) 0 m Hok Hr1) as (m1 & E1 & Hp1); [done|]. rewrite E1. mstep.
  destruct (IH (i + 1) m1) as (m2 & E2 & Hp2); [apply Hp1| |].
  { intros b Hb'. rewrite (pb_writable _ _ _ _ Hp1). apply Hr. lia. }
  exists m2. split; [done|]. apply (put_bytes_trans m m1 m2 (esp + i) [0]).
  - apply (put_bytes_snoc m m m1 (esp + i) [] 0); [by apply put_bytes_nil|]. simpl. by rewrite Z.add_0_r.
  - simpl. by replace (esp + i + Z.of_nat 1) with (esp + (i + 1)) by lia.
Qed.

Lemma push32_ok esp v m :
  user_ok m → user_room m (esp - 4) 4 →
  ∃ m', push32 esp v m = Ok (esp - 4, m') ∧ put_bytes m m' (esp - 4) (le32 v).
Proof using UserLaws0.
  intros Hok Hr. pose proof (room_range m (esp - 4) 4 (esp - 4) Hok Hr ltac:(lia)) as Hrange. unfold push32.
  rewrite u32_small by (unfold is_u32, PHYS_BASE in *; lia). destruct (put_user32_ok (esp - 4) v m Hok Hr) as (m' & -> & Hp). mstep. by exists m'.
Qed.

(** Words one after the other. *)
Definition word_bytes (ws : list Z) : list Z := ws ≫= le32.

Lemma word_bytes_length ws : length (word_bytes ws) = (4 * length ws)%nat.
Proof. induction ws as [|w ws IH]; [done|]. unfold word_bytes in *. rewrite bind_cons, length_app, IH. simpl. lia. Qed.

Lemma word_bytes_app ws ws' : word_bytes (ws ++ ws') = word_bytes ws ++ word_bytes ws'.
Proof. apply bind_app. Qed.

(** Pushing the pointers of a list, in order. *)
Definition pushed m m' (esp : Z) (ps : list Z) : Prop := put_bytes m m' (esp - 4 * Z.of_nat (length ps)) (word_bytes (reverse ps)).

Lemma pushed_app m m1 m2 esp ps qs :
  pushed m m1 esp ps → pushed m1 m2 (esp - 4 * Z.of_nat (length ps)) qs → pushed m m2 esp (ps ++ qs).
Proof.
  unfold pushed. intros H1 H2. rewrite reverse_app, word_bytes_app, length_app.
  replace (esp - 4 * Z.of_nat (length ps + length qs)) with (esp - 4 * Z.of_nat (length ps) - 4 * Z.of_nat (length qs)) by lia.
  eapply put_bytes_before; [exact H1|exact H2|]. rewrite word_bytes_length, length_reverse. lia.
Qed.

Lemma pushed_nil m esp : user_ok m → pushed m m esp [].
Proof. intros H. unfold pushed. simpl. by apply put_bytes_nil. Qed.

Lemma pushed_above m m' esp ps b : pushed m m' esp ps → esp ≤ b → user_byte m' b = user_byte m b.
Proof.
  intros H Hb. eapply put_bytes_outside; [exact H|]. rewrite word_bytes_length, length_reverse. lia.
Qed.

Lemma pushed_room m m' esp ps a n : pushed m m' esp ps → user_room m a n → user_room m' a n.
Proof. apply put_bytes_room. Qed.

(** A pointer that is pushed under a condition. *)
Lemma push_if_ok (b : bool) p argc esp m :
  let ps := if b then [p] else [] in
  user_ok m → user_room m (esp - 4 * Z.of_nat (length ps)) (4 * Z.of_nat (length ps)) → 0 ≤ argc → argc + 1 < 2147483648 →
  ∃ m', (if b then '(esp, m) ← push32 esp p m; Ok (s32 (argc + 1), esp, m) else Ok (argc, esp, m)) =
      Ok (argc + Z.of_nat (length ps), esp - 4 * Z.of_nat (length ps), m') ∧ pushed m m' esp ps.
Proof using UserLaws0.
  intros ps Hok Hr H0 Hmax. destruct b; subst ps; simpl length in *.
  - destruct (push32_ok esp p m Hok) as (m' & -> & Hp); [by replace (esp - 4) with (esp - 4 * Z.of_nat 1) by lia|]. mstep.
    rewrite s32_small by (unfold is_s32; lia). exists m'. split; [repeat f_equal; lia|]. unfold pushed. simpl. by replace (esp - 4 * 1) with (esp - 4) by lia.
  - exists m. split; [do 2 f_equal; f_equal; lia|]. by apply pushed_nil.
Qed.

Lemma room_weaken m a n b k : user_room m a n → a ≤ b → b + k ≤ a + n → user_room m b k.
Proof. intros H Ha Hb c Hc. apply H. lia. Qed.

Lemma push_argv_ok r i n t argc esp m :
  let ps := scan r i n t in
  user_ok m → 0 ≤ i → i + Z.of_nat (length r) ≤ n + 1 → n < PHYS_BASE - 1 →
  (∀ j c, r !! j = Some c → user_byte m (PHYS_BASE - 1 - i - Z.of_nat j) = Some c) → esp ≤ PHYS_BASE - 1 - n →
  user_room m (esp - 4 * Z.of_nat (length ps)) (4 * Z.of_nat (length ps)) → 0 ≤ argc → argc + Z.of_nat (length ps) < 2147483647 →
  ∃ m', push_argv (length r) i n t argc esp m = Ok (argc + Z.of_nat (length ps), esp - 4 * Z.of_nat (length ps), m') ∧ pushed m m' esp ps.
Proof using UserLaws0.
  revert i t argc esp m. induction r as [|c r IH]; intros i t argc esp m ps Hok Hi Hn Hnb Hc Hesp Hr H0 Hmax; subst ps; cbn [length push_argv scan] in *.
  { exists m. split; [do 2 f_equal; f_equal; lia|]. by apply pushed_nil. }
  rewrite !length_app in Hr, Hmax |- *. unfold PHYS_BASE in *. rewrite u32_small by (unfold is_u32; lia).
  destruct (get_user_ok _ c m Hok (Hc 0%nat c eq_refl)) as (m0 & E0 & Hs0). replace (3221225472 - 1 - i - Z.of_nat 0) with (3221225472 - 1 - i) in E0 by lia.
  rewrite E0. mstep. rewrite u32_small by (unfold is_u32; lia). set (p1 := 3221225472 - 1 - i + 1) in *. set (p2 := 3221225472 - 1 - i) in *.
  set (b1 := negb (t =? 0) && (c =? 0)) in *. set (ps1 := if b1 then [p1] else []) in *. set (ps2 := if i =? n then [p2] else []) in *.
  set (ps3 := scan r (i + 1) n c) in *. assert (length ps1 ≤ 1 ∧ length ps2 ≤ 1)%nat as [L1 L2] by (unfold ps1, ps2; destruct b1, (i =? n); simpl; lia).
  assert (∀ m' a k, user_room m a k → user_room m0 a k) as Hr0 by (intros m' a k H b Hb; rewrite (su_writable _ _ Hs0); by apply H).
  destruct (push_if_ok b1 p1 argc esp m0) as (m1 & E1 & Hp1); fold ps1; [apply Hs0|apply (Hr0 m); eapply room_weaken; [exact Hr|lia..]|lia|lia|].
  fold ps1 in E1, Hp1. rewrite E1. mstep.
  destruct (push_if_ok (i =? n) p2 (argc + Z.of_nat (length ps1)) (esp - 4 * Z.of_nat (length ps1)) m1) as (m2 & E2 & Hp2); fold ps2;
    [apply Hp1|eapply pushed_room; [exact Hp1|]; apply (Hr0 m); eapply room_weaken; [exact Hr|lia..]|lia|lia|].
  fold ps2 in E2, Hp2. rewrite E2. mstep.
  destruct (IH (i + 1) c (argc + Z.of_nat (length ps1) + Z.of_nat (length ps2)) (esp - 4 * Z.of_nat (length ps1) - 4 * Z.of_nat (length ps2)) m2) as (m3 & E3 & Hp3);
    fold ps3; [apply Hp2|lia|lia|lia| |lia| |lia|lia|].
  - intros j c' Hj. pose proof (lookup_lt_Some _ _ _ Hj). rewrite (pushed_above _ _ _ _ _ Hp2) by lia. rewrite (pushed_above _ _ _ _ _ Hp1) by lia.
    rewrite (su_byte _ _ Hs0). rewrite <-(Hc (S j) c') by done. f_equal. lia.
  - eapply pushed_room; [exact Hp2|]. eapply pushed_room; [exact Hp1|]. apply (Hr0 m). eapply room_weaken; [exact Hr|lia..].
  - fold ps3 in E3, Hp3. exists m3. split; [rewrite E3; do 3 f_equal; lia|].
    eapply same_put_bytes; [exact Hs0|]. eapply pushed_app; [exact Hp1|]. by eapply pushed_app.
Qed.

(** ** The image of the stack *)

Definition bytes_of (line : list Z) : Z := Z.of_nat (length line) + 1.

Definition argc_of (line : list Z) : Z := Z.of_nat (length (arguments line)).

(** The stack pointer of the new process. *)
Definition stack_top (line : list Z) : Z :=
  PHYS_BASE - bytes_of line - bytes_of line mod 4 - 4 * (argc_of line + 4).

Definition argv_of (line : list Z) : list Z := starts (ended line) (PHYS_BASE - bytes_of line).

Definition stack_image (line : list Z) : list Z :=
  le32 0 ++ le32 (argc_of line) ++ le32 (stack_top line + 12) ++ word_bytes (argv_of line) ++ le32 0 ++
  replicate (Z.to_nat (bytes_of line mod 4)) 0 ++ ended line.

Lemma argv_length line : no_nul line → Z.of_nat (length (argv_of line)) = argc_of line.
Proof. intros Hl. unfold argv_of, argc_of. f_equal. eapply Forall2_length, (starts_arguments line _ Hl). Qed.

Lemma later_starts_length p l a : (length (later_starts p l a) ≤ length l)%nat.
Proof. revert p a. induction l as [|c l IH]; intros p a; [done|]. cbn [later_starts length]. rewrite length_app. specialize (IH c (a + 1)). destruct (_ && _); simpl; lia. Qed.

Lemma argc_bound line : no_nul line → 0 ≤ argc_of line ≤ bytes_of line.
Proof.
  intros Hl. rewrite <-argv_length by done. unfold argv_of, bytes_of. pose proof (ended_length line). destruct (ended line) as [|c e]; [simpl in *; lia|].
  cbn [starts length] in *. pose proof (later_starts_length c e (PHYS_BASE - (Z.of_nat (length line) + 1) + 1)). lia.
Qed.

Lemma make_params_short line :
  Z.of_nat (length line) < CMDLINE_SIZE →
  len (make_params line) = Z.of_nat (length line) ∧ take (S (length line)) (cmdline (make_params line)) = ended line ∧
  (S (length line) ≤ length (cmdline (make_params line)))%nat.
Proof.
  unfold CMDLINE_SIZE, PGSIZE. intros Hl. unfold make_params. rewrite take_ge by (unfold CMDLINE_SIZE, PGSIZE; lia). cbn [len cmdline].
  split; [done|]. assert (length (end_args line) = length line) as El by (clear; induction line; simpl; congruence).
  destruct (Z.to_nat (PGSIZE - 4) - length line)%nat as [|k] eqn:Ek; [unfold PGSIZE in *; lia|].
  rewrite replicate_S. split; [|rewrite length_app, El; simpl; lia]. rewrite <-El, cons_middle, app_assoc. unfold ended.
  rewrite take_app_length'; [done|]. rewrite length_app. simpl. lia.
Qed.

Lemma make_params_bytes line : no_nul line → Forall is_byte (cmdline (make_params line)).
Proof.
  intros Hl. unfold make_params. cbn [cmdline]. apply Forall_app. split; [|apply Forall_replicate; by unfold is_byte].
  pose proof (Forall_take _ (Z.to_nat (CMDLINE_SIZE - 1)) _ Hl) as Ht. revert Ht. generalize (take (Z.to_nat (CMDLINE_SIZE - 1)) line).
  induction 1 as [|c l Hc _ IH]; simpl; constructor; [|done]. unfold is_byte in *. destruct (c =? 32); lia.
Qed.

Lemma last_ended line : last (ended line) = Some 0.
Proof. unfold ended. by rewrite last_snoc. Qed.

Lemma scan_argv line :
  scan (reverse (ended line)) 0 (Z.of_nat (length line)) 0 = reverse (argv_of line).
Proof.
  rewrite scan_starts; [|unfold ended; by destruct (end_args line)|rewrite ended_length; lia]. rewrite last_ended. simpl. rewrite app_nil_r.
  unfold argv_of, bytes_of. do 2 f_equal. lia.
Qed.

(** The last three words: the array, the count and the return address. *)
Lemma push_call_ok esp argc m0 m l :
  put_bytes m0 m esp l → user_room m0 (esp - 12) 12 →
  ∃ m', ('(esp, m) ← push32 esp esp m; '(esp, m) ← push32 esp argc m; push32 esp 0 m) = Ok (esp - 12, m') ∧
    put_bytes m0 m' (esp - 12) (le32 0 ++ le32 argc ++ le32 esp ++ l).
Proof using UserLaws0.
  intros P Hr. assert (∀ m' a k b, put_bytes m0 m' a k → esp - 12 ≤ b → b + 4 ≤ esp → user_room m' b 4) as Hroom.
  { intros m' a k b Hp H1 H2. eapply put_bytes_room; [exact Hp|]. eapply room_weaken; [exact Hr|lia..]. }
  destruct (push32_ok esp esp m) as (m5 & E5 & P5); [apply P|eapply Hroom; [exact P|lia..]|]. rewrite E5. mstep.
  pose proof (put_bytes_before _ _ _ _ _ _ _ P P5 ltac:(simpl; lia)) as P5'.
  destruct (push32_ok (esp - 4) argc m5) as (m6 & E6 & P6); [apply P5|eapply Hroom; [exact P5'|lia..]|]. rewrite E6. mstep.
  pose proof (put_bytes_before _ _ _ _ _ _ _ P5' P6 ltac:(simpl; lia)) as P6'.
  destruct (push32_ok (esp - 4 - 4) 0 m6) as (m7 & E7 & P7); [apply P6|eapply Hroom; [exact P6'|lia..]|].
  pose proof (put_bytes_before _ _ _ _ _ _ _ P6' P7 ltac:(simpl; lia)) as P7'.
  exists m7. rewrite E7. by replace (esp - 4 - 4 - 4) with (esp - 12) in * by lia.
Qed.

Lemma push_args_image line m :
  no_nul line → Z.of_nat (length line) < CMDLINE_SIZE → user_ok m → user_room m (stack_top line) (PHYS_BASE - stack_top line) →
  ∃ m', push_args (make_params line) m = Ok (stack_top line, m') ∧ put_bytes m m' (stack_top line) (stack_image line).
Proof using UserLaws0.
  intros Hl Hlen Hok Hr. destruct (make_params_short line Hlen) as (En & Ed & Hd). pose proof (make_params_bytes line Hl) as Hb.
  pose proof (argc_bound line Hl) as Ha. pose proof (Z.mod_pos_bound (bytes_of line) 4 ltac:(lia)) as Hm.
  unfold push_args. rewrite En. change (Z.of_nat (length line) + 1) with (bytes_of line). set (n := bytes_of line) in *.
  assert (n = Z.of_nat (S (length line))) as Hn by (unfold n, bytes_of; lia). set (p := n mod 4) in *.
  assert (stack_top line = PHYS_BASE - n - p - 4 * (argc_of line + 4)) as Et by done. set (argc := argc_of line) in *.
  unfold CMDLINE_SIZE, PGSIZE, PHYS_BASE in *.
  assert (∀ m' a l b k, put_bytes m m' a l → stack_top line ≤ b → b + k ≤ 3221225472 → user_room m' b k) as Hroom.
  { intros m' a l b k Hp H1 H2. eapply put_bytes_room; [exact Hp|]. eapply room_weaken; [exact Hr|lia..]. }
  rewrite (u32_small (3221225472 - n)) by (unfold is_u32; lia).
  destruct (push_data_ok (Z.to_nat n) 0 (3221225472 - n) (cmdline (make_params line)) m) as (m1 & E1 & P1);
    [done|eapply room_weaken; [exact Hr|lia..]|lia|lia|done|].
  rewrite E1. mstep. rewrite u32_small by (unfold is_u32; lia). change (Z.to_nat 0) with 0%nat in P1. rewrite drop_0, Z.add_0_r, Hn, Nat2Z.id, Ed, <-Hn in P1.
  destruct (zero_fill_ok (Z.to_nat p) 0 (3221225472 - n - p) m1) as (m2 & E2 & P2); [apply P1|eapply Hroom; [exact P1|lia..]|].
  rewrite E2. mstep. rewrite Z.add_0_r in P2. pose proof (put_bytes_before _ _ _ _ _ _ _ P1 P2 ltac:(rewrite length_replicate; lia)) as P2'.
  destruct (push32_ok (3221225472 - n - p) 0 m2) as (m3 & E3 & P3); [apply P2|eapply Hroom; [exact P2'|lia..]|].
  rewrite E3. mstep. pose proof (put_bytes_before _ _ _ _ _ _ _ P2' P3 ltac:(simpl; lia)) as P3'.
  set (esp := 3221225472 - n - p - 4) in *. pose proof (scan_argv line) as Es. pose proof (argv_length line Hl) as Ea. fold argc in Ea.
  destruct (push_argv_ok (reverse (ended line)) 0 (Z.of_nat (length line)) 0 0 esp m3) as (m4 & E4 & P4).
  all: try rewrite Es, length_reverse, Ea. all: unfold PHYS_BASE.
  - apply P3.
  - lia.
  - rewrite length_reverse, ended_length. lia.
  - lia.
  - intros j c Hj. rewrite reverse_lookup_Some, ended_length in Hj. destruct Hj as [Hj Hj'].
    rewrite app_assoc in P3'. pose proof (put_bytes_inside _ _ _ _ (ended line) [] ltac:(rewrite app_nil_r; exact P3')) as Hin.
    rewrite <-(Hin _ _ Hj). f_equal. rewrite length_app, length_replicate. simpl. lia.
  - lia.
  - eapply Hroom; [exact P3'|lia..].
  - lia.
  - lia.
  - rewrite length_reverse, ended_length, Es, length_reverse, Ea in E4.
    replace (Z.to_nat n) with (S (length line)) by lia. rewrite E4. mstep.
    rewrite Es in P4. unfold pushed in P4. rewrite reverse_involutive, length_reverse, Ea in P4.
    pose proof (put_bytes_before _ _ _ _ _ _ _ P3' P4 ltac:(rewrite word_bytes_length; lia)) as P4'.
    destruct (push_call_ok (esp - 4 * argc) argc m m4 _ P4') as (m7 & E7 & P7); [eapply room_weaken; [exact Hr|lia..]|].
    exists m7. unfold stack_image. fold argc n p. replace (stack_top line + 12) with (esp - 4 * argc) by lia.
    rewrite Z.add_0_l, E7. replace (esp - 4 * argc - 12) with (stack_top line) in * by lia. done.
Qed.

(** An argument is where its pointer says. *)
Lemma argv_strings line m m' k w :
  no_nul line → put_bytes m m' (stack_top line) (stack_image line) → arguments line !! k = Some w →
  ∃ p, user_word m' (stack_top line + 12 + 4 * Z.of_nat k) p ∧ user_bytes m' p (w ++ [0]).
Proof.
  intros Hl P Hk. pose proof (starts_arguments line (PHYS_BASE - bytes_of line) Hl) as Hs. fold (argv_of line) in Hs.
  destruct (Forall2_lookup_r _ _ _ _ _ Hs Hk) as (p & Hp & Hin & Hf). exists p. unfold stack_image in P. split.
  - apply take_drop_middle in Hp as Ep. pose proof (lookup_lt_Some _ _ _ Hp). rewrite <-Ep in P. rewrite word_bytes_app in P.
    change (word_bytes (p :: ?l)) with (le32 p ++ word_bytes l) in P. rewrite <-!app_assoc in P. rewrite 3!app_assoc in P. unfold user_word. apply put_bytes_inside in P. revert P. rewrite !length_app, word_bytes_length, length_take_le by lia. simpl.
    intros P i v Hi. rewrite <-(P i v Hi). f_equal. lia.
  - set (i := Z.to_nat (p - (PHYS_BASE - bytes_of line))) in *. rewrite ended_length in Hin. unfold bytes_of in *.
    destruct (front_split (drop i (ended line))) as [r Hr].
    { unfold ended. rewrite drop_app_le by (pose proof (ended_length line) as El; unfold ended in El; rewrite length_app in El; simpl in El; lia). set_solver. }
    rewrite Hf in Hr. rewrite <-(take_drop i (ended line)), Hr, cons_middle in P. rewrite 6!app_assoc, (app_assoc w) in P. apply put_bytes_inside in P. revert P.
    pose proof (argv_length line Hl). rewrite !length_app, word_bytes_length, length_replicate, length_take_le by (rewrite ended_length; lia).
    pose proof (Z.mod_pos_bound (bytes_of line) 4 ltac:(lia)). intros P j v Hj. rewrite <-(P j v Hj). f_equal. simpl. unfold stack_top, bytes_of in *. lia.
Qed.

(** The process finds its arguments: a null return address, the number of arguments, and
    a pointer to an array of as many pointers, ended by a null one; the k-th points to
    the k-th argument as a string. *)
Definition arguments_at m (esp : Z) (args : list (list Z)) : Prop :=
  let argc := Z.of_nat (length args) in
  user_word m esp 0 ∧ user_word m (esp + 4) argc ∧ user_word m (esp + 8) (esp + 12) ∧
  (∀ k w, args !! k = Some w → ∃ p, user_word m (esp + 12 + 4 * Z.of_nat k) p ∧ user_bytes m p (w ++ [0])) ∧
  user_word m (esp + 12 + 4 * argc) 0.

Lemma stack_image_arguments line m m' :
  no_nul line → put_bytes m m' (stack_top line) (stack_image line) → arguments_at m' (stack_top line) (arguments line).
Proof.
  intros Hl P. pose proof P as P'. unfold stack_image in P'. unfold arguments_at. split_and!.
  - pose proof (put_bytes_inside _ _ _ [] _ _ P') as H. by rewrite Z.add_0_r in H.
  - apply (put_bytes_inside _ _ _ _ _ _ P').
  - rewrite app_assoc in P'. apply (put_bytes_inside _ _ _ _ _ _ P').
  - intros k w. by apply (argv_strings line m).
  - rewrite 3!app_assoc in P'. apply put_bytes_inside in P'. rewrite !length_app, word_bytes_length in P'. pose proof (argv_length line Hl).
    unfold user_word. unfold argc_of in *. intros i v Hi. rewrite <-(P' i v Hi). f_equal. simpl. lia.
Qed.

Lemma stack_image_length line : no_nul line → stack_top line + Z.of_nat (length (stack_image line)) = PHYS_BASE.
Proof.
  intros Hl. unfold stack_image, stack_top. rewrite !length_app, word_bytes_length, length_replicate, ended_length. pose proof (argv_length line Hl).
  pose proof (Z.mod_pos_bound (bytes_of line) 4 ltac:(lia)). simpl. unfold bytes_of in *. lia.
Qed.

(** The alignment of the stack pointer: the padding that [setup_stack] adds aligns it only for
    command lines of odd length. *)
Lemma stack_top_aligned line : stack_top line mod 4 = 0 ↔ Z.of_nat (length line) mod 2 = 1.
Proof.
  unfold stack_top. set (n := bytes_of line). assert (Z.of_nat (length line) = n - 1) as -> by (unfold n, bytes_of; lia).
  replace (PHYS_BASE - n - n mod 4 - 4 * (argc_of line + 4)) with (- (2 * n) + (PHYS_BASE / 4 + n / 4 - argc_of line - 4) * 4).
  - rewrite Z.mod_add by lia. Z.div_mod_to_equations. lia.
  - pose proof (Z.div_mod n 4). unfold PHYS_BASE. change (3221225472 / 4) with 805306368. lia.
Qed.

(** A command line that is accepted may need more than the page of the stack. *)
Lemma stack_overflow : ∃ line, no_nul line ∧ Z.of_nat (length line) < CMDLINE_SIZE ∧ stack_top line < PHYS_BASE - PGSIZE.
Proof.
  exists (mjoin (replicate 900 [97; 32])). split; [|by split; vm_compute]. unfold no_nul. apply Forall_join, Forall_replicate. repeat constructor; lia.
Qed.

End proof.
