(* ===== verification/Files.v ===== *)
(** What the file system promises to the rest of the kernel.

    [FileSys] are the operations that the loader of executables and the system calls use.
    A [world] is what the files look like from outside: the names, the contents, and for each
    open file which file it is and where it is positioned. [WorldLaws] says what each
    operation does to the world. [FileLaws] is the part of it that the loader relies on, for
    one file at a time; it follows from [WorldLaws]. *)

From S2P Require Import Prelude Disk Inode.

Class FileSys (F : Type) := {
  fsys_create : list Z → Z → ST F bool;
  fsys_remove : list Z → ST F bool;
  fsys_open : list Z → ST F (option file);
  fsys_length : file → ST F Z;
  fsys_seek : file → Z → ST F file;
  fsys_read : file → list Z → Z → ST F (Z * list Z * file);
  fsys_write : file → list Z → Z → ST F (Z * file);
  fsys_close : file → ST F unit;
}.

Definition at_pos (f : file) (p : Z) : file := File (finode f) p (deny_write f).

(** ** Worlds *)

(** Files have numbers; an open file is one of them, at a position. *)
Record world := World {
  w_names : gmap (list Z) Z;
  w_contents : gmap Z (list Z);
  w_fds : gmap Z (Z * Z);
}.

(** A file lives as long as it has a name or is open. *)
Definition w_live (w : world) (sec : Z) : Prop :=
  map_Exists (λ _ x, x = sec) (w_names w) ∨ map_Exists (λ _ p, p.1 = sec) (w_fds w).

#[global] Instance w_live_dec w sec : Decision (w_live w sec).
Proof. unfold w_live. apply _. Defined.

Definition w_collect (w : world) : world :=
  World (w_names w) (filter (λ p, w_live w p.1) (w_contents w)) (w_fds w).

Definition w_tidy (w : world) : Prop := ∀ sec, is_Some (w_contents w !! sec) → w_live w sec.

Definition w_open (w : world) (h sec pos : Z) : world := World (w_names w) (w_contents w) (<[h := (sec, pos)]> (w_fds w)).

Definition w_close (w : world) (h : Z) : world := w_collect (World (w_names w) (w_contents w) (delete h (w_fds w))).

Definition w_create (w : world) (name : list Z) (sec size : Z) : world :=
  World (<[name := sec]> (w_names w)) (<[sec := replicate (Z.to_nat size) 0]> (w_contents w)) (w_fds w).

Definition w_remove (w : world) (name : list Z) : world := w_collect (World (delete name (w_names w)) (w_contents w) (w_fds w)).

Definition w_write (w : world) (sec : Z) (l : list Z) : world := World (w_names w) (<[sec := l]> (w_contents w)) (w_fds w).

Lemma w_collect_id w : w_tidy w → w_collect w = w.
Proof. intros Ht. destruct w. unfold w_collect. f_equal. apply map_filter_id. intros sec l Hl. apply Ht. by eexists. Qed.

Lemma w_live_open w sec : w_live w sec ↔ (∃ name, w_names w !! name = Some sec) ∨ ∃ h pos, w_fds w !! h = Some (sec, pos).
Proof.
  unfold w_live, map_Exists. split; (intros [H|H]; [left|right]).
  - naive_solver.
  - destruct H as (h & [x p] & Hh & <-). eauto.
  - naive_solver.
  - destruct H as (h & p & Hh). eauto.
Qed.

(** The files in [T] are open; each has the entry of the world under its handle. *)
Class FileWorld (F : Type) := fsys_world : F → gmap Z file → world → Prop.

Class WorldLaws (F : Type) `{!FileSys F} `{!FileWorld F} : Prop := {
  world_tidy (s : F) T w : fsys_world s T w → w_tidy w;
  world_file (s : F) T w h f : fsys_world s T w → T !! h = Some f → ∃ sec, w_fds w !! h = Some (sec, fpos f) ∧ 0 ≤ fpos f ≤ INT_MAX;
  world_fd (s : F) T w h : fsys_world s T w → T !! h = None → w_fds w !! h = None;
  world_contents (s : F) T w h sec pos :
    fsys_world s T w → w_fds w !! h = Some (sec, pos) →
    ∃ l, w_contents w !! sec = Some l ∧ Z.of_nat (length l) ≤ INT_MAX ∧ Forall is_byte l;
  world_create (s : F) T w name size :
    fsys_world s T w → 0 ∉ name → 0 ≤ size ≤ INT_MAX →
    ∃ r s', fsys_create name size s = Ok (r, s') ∧
      if r : bool then w_names w !! name = None ∧ ∃ sec, w_contents w !! sec = None ∧ fsys_world s' T (w_create w name sec size)
      else fsys_world s' T w;
  world_remove (s : F) T w name :
    fsys_world s T w → 0 ∉ name → Z.of_nat (size T) < INT_MAX →
    ∃ r s', fsys_remove name s = Ok (r, s') ∧ (r = true ↔ is_Some (w_names w !! name)) ∧ fsys_world s' T (w_remove w name);
  world_open (s : F) T w name :
    fsys_world s T w → 0 ∉ name → Z.of_nat (size T) < INT_MAX →
    match w_names w !! name with
    | None => ∃ s', fsys_open name s = Ok (None, s') ∧ fsys_world s' T w
    | Some sec => ∃ f s', fsys_open name s = Ok (Some f, s') ∧ fpos f = 0 ∧
        ∀ h, T !! h = None → fsys_world s' (<[h := f]> T) (w_open w h sec 0)
    end;
  world_seek (s : F) f p : fsys_seek f p s = if 0 <=? p then Ok (at_pos f p, s) else Fault AssertFail;
  world_pos (s : F) T w h f sec p :
    fsys_world s T w → T !! h = Some f → w_fds w !! h = Some (sec, fpos f) → 0 ≤ p ≤ INT_MAX →
    fsys_world s (<[h := at_pos f p]> T) (w_open w h sec p);
  world_length (s : F) T w h f sec l :
    fsys_world s T w → T !! h = Some f → w_fds w !! h = Some (sec, fpos f) → w_contents w !! sec = Some l →
    fsys_length f s = Ok (Z.of_nat (length l), s);
  world_read (s : F) T w h f sec l buf n :
    fsys_world s T w → T !! h = Some f → w_fds w !! h = Some (sec, fpos f) → w_contents w !! sec = Some l →
    n ≤ INT_MAX → n ≤ Z.of_nat (length buf) →
    let part := take (Z.to_nat n) (drop (Z.to_nat (fpos f)) l) in
    fsys_read f buf n s = Ok ((Z.of_nat (length part), overwrite buf 0 part, at_pos f (fpos f + Z.of_nat (length part))), s);
  world_write (s : F) T w h f sec l buf n :
    fsys_world s T w → T !! h = Some f → w_fds w !! h = Some (sec, fpos f) → w_contents w !! sec = Some l →
    n ≤ INT_MAX → n ≤ Z.of_nat (length buf) → Forall is_byte buf →
    let k := Z.max 0 (Z.min n (Z.of_nat (length l) - fpos f)) in
    ∃ s', fsys_write f buf n s = Ok ((k, at_pos f (fpos f + k)), s') ∧
      fsys_world s' T (w_write w sec (overwrite l (Z.to_nat (fpos f)) (take (Z.to_nat k) buf)));
  world_close (s : F) T w h f :
    fsys_world s T w → T !! h = Some f → ∃ s', fsys_close f s = Ok (tt, s') ∧ fsys_world s' (delete h T) (w_close w h);
}.

(** ** One file at a time *)

Class FileInv (F : Type) := {
  files_ok : F → Prop;
  file_is : F → file → list Z → Prop;
  file_named : list Z → list Z → Prop;
}.

Class FileLaws (F : Type) `{!FileSys F} `{!FileInv F} : Prop := {
  open_law name (s : F) :
    files_ok s → 0 ∉ name →
    ∃ o s', fsys_open name s = Ok (o, s') ∧
      match o with
      | Some f => fpos f = 0 ∧ ∃ l, file_named name l ∧ file_is s' f l
      | None => files_ok s'
      end;
  file_law (s : F) f l : file_is s f l → Z.of_nat (length l) ≤ INT_MAX ∧ Forall is_byte l;
  pos_law (s : F) f l p : file_is s f l → 0 ≤ p ≤ INT_MAX → file_is s (at_pos f p) l;
  length_law (s : F) f l : file_is s f l → fsys_length f s = Ok (Z.of_nat (length l), s);
  seek_law (s : F) f p : fsys_seek f p s = if 0 <=? p then Ok (at_pos f p, s) else Fault AssertFail;
  read_law (s : F) f l buf n :
    file_is s f l → 0 ≤ fpos f ≤ INT_MAX → 0 ≤ n ≤ INT_MAX → n ≤ Z.of_nat (length buf) →
    let part := take (Z.to_nat n) (drop (Z.to_nat (fpos f)) l) in
    fsys_read f buf n s =
      Ok ((Z.of_nat (length part), overwrite buf 0 part, at_pos f (fpos f + Z.of_nat (length part))), s);
  close_law (s : F) f l : file_is s f l → ∃ s', fsys_close f s = Ok (tt, s') ∧ files_ok s';
}.

(** A world in which one more file is opened and closed. *)
Section guest.
Context {F : Type} `{!FileSys F} `{!FileWorld F} `{!WorldLaws F} (T : gmap Z file) (w : world) (Hsmall : Z.of_nat (size T) < INT_MAX).

Definition guest_inv : FileInv F := {|
  files_ok s := fsys_world s T w;
  file_is s f l := ∃ h sec, T !! h = None ∧ w_fds w !! h = None ∧ w_contents w !! sec = Some l ∧ fsys_world s (<[h := f]> T) (w_open w h sec (fpos f));
  file_named name l := ∃ sec, w_names w !! name = Some sec ∧ w_contents w !! sec = Some l;
|}.
#[local] Existing Instance guest_inv.

Lemma guest_laws (Htidy : w_tidy w) : FileLaws F.
Proof using WorldLaws0 Hsmall.
  split.
  - intros name s Hs H0. pose proof (world_open s T w name Hs H0 Hsmall) as Ho. destruct (w_names w !! name) as [sec|] eqn:En.
    2:{ destruct Ho as (s' & E & Hs'). by exists None, s'. }
    destruct Ho as (f & s' & E & Hp & Ho). exists (Some f), s'. split; [done|]. split; [done|].
    set (h := fresh (dom T)). assert (T !! h = None) as Hh by apply not_elem_of_dom, is_fresh. specialize (Ho h Hh).
    destruct (world_contents _ _ _ h sec 0 Ho) as (l & Hl & _); [apply lookup_insert_eq|]. exists l. split; [by exists sec|].
    exists h, sec. rewrite Hp. split_and!; try done. exact (world_fd s T w h Hs Hh).
  - intros s f l (h & sec & Hh & Hw & Hl & Hs). destruct (world_contents _ _ _ h sec (fpos f) Hs) as (l' & Hl' & ?); [apply lookup_insert_eq|].
    change (w_contents w !! sec = Some l') in Hl'. rewrite Hl in Hl'. by injection Hl' as <-.
  - intros s f l p (h & sec & Hh & Hw & Hl & Hs) Hp. exists h, sec. split_and!; try done.
    pose proof (world_pos _ _ _ h f sec p Hs) as Hq. rewrite insert_insert_eq in Hq. unfold w_open in Hq. cbn [w_names w_contents w_fds] in Hq. rewrite insert_insert_eq in Hq.
    apply Hq; try done; apply lookup_insert_eq.
  - intros s f l (h & sec & Hh & Hw & Hl & Hs). eapply (world_length _ _ _ h f sec); try done; apply lookup_insert_eq.
  - intros s f p. apply world_seek.
  - intros s f l buf n (h & sec & Hh & Hw & Hl & Hs) Hp Hn Hb. eapply (world_read _ _ _ h f sec); try done; [apply lookup_insert_eq..|lia].
  - intros s f l (h & sec & Hh & Hw & Hl & Hs). destruct (world_close _ _ _ h f Hs) as (s' & E & Hs'); [apply lookup_insert_eq|]. exists s'. split; [done|].
    rewrite delete_insert_id in Hs' by done. unfold w_close, w_open in Hs'. cbn [w_names w_contents w_fds] in Hs'.
    rewrite delete_insert_id in Hs' by done. replace (World (w_names w) (w_contents w) (w_fds w)) with w in Hs' by by destruct w.
    by rewrite w_collect_id in Hs'.
Qed.

End guest.
