(* ===== verification/Volume.v ===== *)
(** The file system as a whole: what src/filesys promises to the rest of the kernel.

    A [volume] is the abstract state of the file system: which names there are, what
    every file holds, and who has it open. [volume_ok] relates it to the state of the
    model, in which files are runs of sectors, names are entries of the root directory,
    and the free map says which sectors are in use. Every operation of the file system
    keeps the relation and does to the volume what it should; nothing else changes. *)

From S2P Require Import Prelude Bitmap BitmapScan Disk Inode FreeMap CString Directory Filesys Files.

(** ** Volumes *)

(** [contents] by the number of the file, which is the sector of its inode; [openers] by the
    address of the inode in memory: the file, and how often it is open. *)
Record volume := Volume {
  names : gmap (list Z) Z;
  contents : gmap Z (list Z);
  openers : gmap Z (Z * Z);
}.

Definition named (v : volume) (sec : Z) : Prop := map_Exists (λ _ x, x = sec) (names v).

Definition is_open (v : volume) (sec : Z) : Prop := map_Exists (λ _ p, p.1 = sec) (openers v).

#[global] Instance named_dec v sec : Decision (named v sec).
Proof. unfold named. apply _. Defined.

#[global] Instance is_open_dec v sec : Decision (is_open v sec).
Proof. unfold is_open. apply _. Defined.

Definition nameless (v : volume) (sec : Z) : bool := negb (bool_decide (named v sec)).

(** A file lives as long as it has a name or someone has it open. *)
Definition live (v : volume) (sec : Z) : Prop := named v sec ∨ is_open v sec.

Definition collect (v : volume) : volume :=
  Volume (names v) (filter (λ p, live v p.1) (contents v)) (openers v).

Definition open_count (v : volume) (a : Z) : Z := from_option snd 0 (openers v !! a).

Definition add_opener (v : volume) (a sec : Z) : volume :=
  Volume (names v) (contents v) (<[a := (sec, open_count v a + 1)]> (openers v)).

Definition drop_opener (v : volume) (a : Z) : volume :=
  collect (Volume (names v) (contents v)
    (partial_alter (λ o, match o with Some (sec, n) => if n =? 1 then None else Some (sec, n - 1) | None => None end) a (openers v))).

Definition add_file (v : volume) (name : list Z) (sec size : Z) : volume :=
  Volume (<[name := sec]> (names v)) (<[sec := replicate (Z.to_nat size) 0]> (contents v)) (openers v).

Definition remove_name (v : volume) (name : list Z) : volume :=
  collect (Volume (delete name (names v)) (contents v) (openers v)).

Definition set_contents (v : volume) (sec : Z) (l : list Z) : volume :=
  Volume (names v) (<[sec := l]> (contents v)) (openers v).

Lemma named_iff v sec : named v sec ↔ ∃ name, names v !! name = Some sec.
Proof. unfold named, map_Exists. naive_solver. Qed.

Lemma named_ext v v' sec : names v' = names v → named v' sec ↔ named v sec.
Proof. intros E. by rewrite !named_iff, E. Qed.

Lemma nameless_ext v v' sec : (named v' sec ↔ named v sec) → nameless v' sec = nameless v sec.
Proof. intros E. unfold nameless. f_equal. by apply bool_decide_ext. Qed.

Lemma is_open_iff v sec : is_open v sec ↔ ∃ a n, openers v !! a = Some (sec, n).
Proof. unfold is_open, map_Exists. split; [intros (a & [x n] & Ha & <-)|intros (a & n & Ha)]; eauto. Qed.

(** ** The volume of a state *)

(** The sectors of the file whose inode [d] is in sector [sec]. *)
Definition owns (sec : Z) (d : inode_disk) (k : nat) : Prop := k = Z.to_nat sec ∨ in_file d k.

Record file_ok (s : fs) (i : inode) (rd : inode_disk) (sec : Z) (d : inode_disk) (l : list Z) : Prop := {
  fk_sec : 0 ≤ sec;
  fk_inode : ∃ c, sectors (dev s) !! Z.to_nat sec = Some c ∧ decode_inode c = d;
  fk_io : inode_ok (dev s) d;
  fk_len : ilength d ≤ INT_MAX - 511;
  fk_bytes : l = file_bytes (dev s) (start d) 0 (ilength d) ∧ Forall is_byte l;
  fk_used : ∀ k, owns sec d k → bit_at (free_map s) (Z.of_nat k) = true ∧ ¬ fixed_use i rd k;
  fk_apart : ¬ in_file d (Z.to_nat sec);
}.

(** What is on the device: [D] has the inodes of the files. *)
Record disk_ok (s : fs) (f : file) (i : inode) (rd : inode_disk) (v : volume) (D : gmap Z inode_disk) : Prop := {
  dk_core : core_ok s f i rd;
  dk_small : bsize (dev s) ≤ 2 ^ 28;
  dk_zero : ∃ c, sectors (dev s) !! 0%nat = Some c ∧ decode_inode c = data i;
  dk_apart : ¬ in_file rd 0 ∧ ¬ in_file (data i) 0;
  dk_names : dir_map (entries (dev s) rd) = names v;
  dk_inj : ∀ n n' sec, names v !! n = Some sec → names v !! n' = Some sec → n = n';
  dk_live : ∀ sec, live v sec → is_Some (D !! sec);
  dk_dom : ∀ sec, contents v !! sec = None ↔ D !! sec = None;
  dk_file : ∀ sec d l, D !! sec = Some d → contents v !! sec = Some l → file_ok s i rd sec d l;
  dk_disj : ∀ sec sec' d d' k, D !! sec = Some d → D !! sec' = Some d' → owns sec d k → owns sec' d' k → sec = sec';
}.

(** What is in memory: the inodes of the open files, next to the one of the free map. *)
Record mem_ok (s : fs) (f : file) (i : inode) (v : volume) (D : gmap Z inode_disk) : Prop := {
  me_free : isector i = FREE_MAP_SECTOR;
  me_addr : 0 < next_addr s ∧ ∀ a, next_addr s ≤ a → inodes s !! a = None;
  me_in : ∀ a, a ∈ open_inodes s → a = finode f ∨ is_Some (openers v !! a);
  me_at : ∀ a sec n, openers v !! a = Some (sec, n) →
    a ∈ open_inodes s ∧ a ≠ NULL ∧ a ≠ finode f ∧ 1 ≤ n ≤ INT_MAX ∧
    ∃ d, D !! sec = Some d ∧ inodes s !! a = Some (Inode sec n (nameless v sec) 0 d);
  me_inj : ∀ a a' sec n n', openers v !! a = Some (sec, n) → openers v !! a' = Some (sec, n') → a = a';
}.

(** There are no files without names and openers. *)
Definition tidy (v : volume) : Prop := ∀ sec, is_Some (contents v !! sec) → live v sec.

(** Together, with the free map's file, the root directory and the inodes of the files. *)
Record state_ok (s : fs) (f : file) (i : inode) (rd : inode_disk) (v : volume) (D : gmap Z inode_disk) : Prop := {
  so_disk : disk_ok s f i rd v D;
  so_mem : mem_ok s f i v D;
  so_tidy : tidy v;
}.

Definition volume_ok (s : fs) (v : volume) : Prop := ∃ f i rd D, state_ok s f i rd v D.

Section keep.
Implicit Types (s : fs) (f : file) (i : inode) (rd d : inode_disk) (v : volume) (D : gmap Z inode_disk).

Lemma disk_file s f i rd v D sec d :
  disk_ok s f i rd v D → D !! sec = Some d → ∃ l, contents v !! sec = Some l ∧ file_ok s i rd sec d l.
Proof.
  intros Hdk Hd. destruct (contents v !! sec) as [l|] eqn:El; [|apply (dk_dom _ _ _ _ _ _ Hdk) in El; congruence].
  exists l. split; [done|]. by apply (dk_file _ _ _ _ _ _ Hdk).
Qed.

Lemma contents_inode s f i rd v D sec l :
  disk_ok s f i rd v D → contents v !! sec = Some l → ∃ d, D !! sec = Some d ∧ file_ok s i rd sec d l.
Proof.
  intros Hdk Hl. destruct (D !! sec) as [d|] eqn:Ed; [|apply (dk_dom _ _ _ _ _ _ Hdk) in Ed; congruence].
  exists d. split; [done|]. by apply (dk_file _ _ _ _ _ _ Hdk).
Qed.

(** The sector of an inode is in use, and for no other purpose. *)
Lemma file_sector s i rd sec d l :
  file_ok s i rd sec d l → bit_at (free_map s) sec = true ∧ sec ≠ FREE_MAP_SECTOR ∧ sec ≠ ROOT_DIR_SECTOR.
Proof.
  intros [H0 _ _ _ _ Hu _]. destruct (Hu (Z.to_nat sec)) as [Hb Hn]; [by left|]. rewrite Z2Nat.id in Hb by done.
  split_and!; [done| |]; intros ->; apply Hn; [by left|by right; left].
Qed.

Lemma state_fsys s f i rd v D : state_ok s f i rd v D → fsys_ok s f i rd.
Proof.
  intros [Hdk [Hfree Haddr Hin Hat _] _]. split; [apply Hdk|done|]. intros a Ha. destruct (Hin a Ha) as [->|[[sec n] Hop]].
  - exists i. split; [apply (fm_inode _ _ _ (co_fm _ _ _ _ (dk_core _ _ _ _ _ _ Hdk)))|]. rewrite Hfree. split_and!; try done.
    apply (co_used _ _ _ _ (dk_core _ _ _ _ _ _ Hdk) 0%nat). by left.
  - destruct (Hat _ _ _ Hop) as (_ & _ & _ & _ & d & Hd & Hj). eexists. split; [exact Hj|]. cbn [isector].
    destruct (disk_file _ _ _ _ _ _ _ _ Hdk Hd) as (l & _ & Hf). destruct (file_sector _ _ _ _ _ _ Hf) as (? & ? & ?). split_and!; try done. apply Hf.
Qed.

(** *** Changes elsewhere on the device *)

Lemma file_ok_frame s s' i rd sec d l :
  file_ok s i rd sec d l → bsize (dev s') = bsize (dev s) →
  (∀ k, owns sec d k → sectors (dev s') !! k = sectors (dev s) !! k ∧ bit_at (free_map s') (Z.of_nat k) = true) →
  file_ok s' i rd sec d l.
Proof.
  intros [H0 (c & Hc & Hdc) Hio Hlen [-> Hb] Hu Ha] Hs Hk. split; [exact H0| | |exact Hlen| | |exact Ha].
  - exists c. split; [|done]. destruct (Hk (Z.to_nat sec)) as [-> _]; [by left|done].
  - by eapply inode_ok_size.
  - split; [|done]. symmetry. apply same_file_bytes; [|apply Hio|lia|lia]. intros k Hin. apply Hk. by right.
  - intros k Ho. split; [by apply Hk|by apply Hu].
Qed.

(** A change that keeps the files and the names. *)
Lemma disk_frame s s' f i rd v D :
  disk_ok s f i rd v D → core_ok s' f i rd → bsize (dev s') = bsize (dev s) →
  dir_map (entries (dev s') rd) = dir_map (entries (dev s) rd) → sectors (dev s') !! 0%nat = sectors (dev s) !! 0%nat →
  (∀ sec d k, D !! sec = Some d → owns sec d k → sectors (dev s') !! k = sectors (dev s) !! k ∧ bit_at (free_map s') (Z.of_nat k) = true) →
  disk_ok s' f i rd v D.
Proof.
  intros [] Hc Hs He Hz Hk. split; try done; [by rewrite Hs|by rewrite Hz|congruence|]. intros sec d l Hd Hl.
  apply (file_ok_frame s); [auto|done|]. intros k. by apply Hk.
Qed.

(** Changes of the inodes in memory do not matter to the device. *)
Lemma disk_memory s s' f i rd v D :
  disk_ok s f i rd v D → dev s' = dev s → mallocs s' = mallocs s → policy s' = policy s → free_map s' = free_map s →
  free_map_file s' = free_map_file s → inodes s' !! finode f = Some i → disk_ok s' f i rd v D.
Proof.
  intros Hdk Ed Em Ep Ef Eff Hi. apply (disk_frame s); try done; rewrite ?Ed; try done.
  - apply (core_ok_memory s); try done. apply Hdk.
  - intros sec d k Hd Ho. split; [done|]. rewrite Ef. destruct (disk_file _ _ _ _ _ _ _ _ Hdk Hd) as (l & _ & Hf). by apply Hf.
Qed.

(** Who has the files open does not matter either, as long as the same ones live. *)
Lemma disk_openers s f i rd v v' D :
  disk_ok s f i rd v D → names v' = names v → contents v' = contents v → (∀ sec, live v' sec → live v sec) → disk_ok s f i rd v' D.
Proof.
  intros [] En Ec El. split; rewrite ?En, ?Ec; auto.
Qed.

Lemma mem_frame s s' f i v v' D :
  mem_ok s f i v D → inodes s' = inodes s → open_inodes s' = open_inodes s → next_addr s' = next_addr s →
  names v' = names v → openers v' = openers v → mem_ok s' f i v' D.
Proof.
  intros [] Ei Eo Ea En Ep. split; rewrite ?Ei, ?Eo, ?Ea, ?Ep; try done. intros a sec n Hop. rewrite (nameless_ext v) by by apply named_ext. by apply me_at0.
Qed.

(** *** Reading and writing *)

Lemma opened_file s f i rd v D a sec n l :
  state_ok s f i rd v D → openers v !! a = Some (sec, n) → contents v !! sec = Some l →
  ∃ d, D !! sec = Some d ∧ inodes s !! a = Some (Inode sec n (nameless v sec) 0 d) ∧
    file_ok s i rd sec d l ∧ dev_ok (dev s) ∧ mallocs s = [].
Proof.
  intros [Hdk Hme _] Hop Hl. destruct (me_at _ _ _ _ _ Hme _ _ _ Hop) as (_ & _ & _ & _ & d & Hd & Hj). exists d.
  pose proof (co_fm _ _ _ _ (dk_core _ _ _ _ _ _ Hdk)) as Hfm. split_and!; try done; [by apply (dk_file _ _ _ _ _ _ Hdk)|apply Hfm|apply Hfm].
Qed.

Lemma file_ok_length s i rd sec d l : file_ok s i rd sec d l → Z.of_nat (length l) = ilength d ∧ ilength d ≤ INT_MAX.
Proof. intros [_ _ Hio _ [-> _] _ _]. pose proof (io_length _ _ Hio). rewrite file_bytes_length. lia. Qed.

Lemma file_write_bytes b b' d ofs bytes :
  inode_ok b d → 0 ≤ ofs → ofs + Z.of_nat (length bytes) ≤ ilength d → wrote b b' d ofs bytes →
  file_bytes b' (start d) 0 (ilength d) = overwrite (file_bytes b (start d) 0 (ilength d)) (Z.to_nat ofs) bytes.
Proof.
  intros Hio Ho Hle Hw. pose proof (io_length _ _ Hio) as Hlen. apply list_eq. intros k.
  rewrite overwrite_lookup by (rewrite file_bytes_length; lia).
  destruct (decide (k < Z.to_nat (ilength d))%nat) as [Hk|Hk].
  - rewrite file_bytes_lookup by done. rewrite (wr_in _ _ _ _ _ Hw) by lia. case_decide as H1; case_decide as H2; try lia.
    + destruct (lookup_lt_is_Some_2 bytes (k - Z.to_nat ofs)%nat) as [x Hx]; [lia|]. rewrite Hx.
      replace (Z.to_nat (0 + Z.of_nat k - ofs)) with (k - Z.to_nat ofs)%nat by lia. by rewrite Hx.
    + by rewrite file_bytes_lookup.
  - rewrite decide_False by lia. rewrite !(proj2 (lookup_ge_None _ _)); [done|rewrite file_bytes_length; lia..].
Qed.

(** A write to one file. *)
Lemma disk_write s f i rd v D sec d l ofs bytes b' :
  disk_ok s f i rd v D → D !! sec = Some d → contents v !! sec = Some l → 0 ≤ ofs → ofs + Z.of_nat (length bytes) ≤ ilength d →
  Forall is_byte bytes → wrote (dev s) b' d ofs bytes →
  disk_ok (set_dev s b') f i rd (set_contents v sec (overwrite l (Z.to_nat ofs) bytes)) D.
Proof.
  intros Hdk Hd Hl Ho Hle Hb Hw. pose proof Hdk as [Hc Hsm Hz Hzf Hnm Hinj Hlv Hdom Hfile Hdj]. pose proof (Hfile _ _ _ Hd Hl) as Hf.
  pose proof Hw as [Hdv Hsz _ Hout]. pose proof Hc as [Hfm Hroot Hio [Hl1 Hl2] Hwf Hused Hsep Hone].
  assert (∀ k, fixed_use i rd k → sectors b' !! k = sectors (dev s) !! k) as Hfix.
  { intros k Hk. apply Hout. intros Hin. by destruct (fk_used _ _ _ _ _ _ Hf k (or_intror Hin)). }
  assert (entries b' rd = entries (dev s) rd) as He.
  { apply entries_same; try done. intros k Hk. apply Hfix. by do 2 right; left. }
  split; simpl; try done.
  - apply (core_step s); try done; [|by apply Hfix; right; left|by simpl; rewrite He].
    apply fm_ok_frame; try done. intros k Hk. apply Hfix. by do 3 right.
  - by rewrite Hsz.
  - rewrite Hfix; [done|by left].
  - by rewrite He.
  - intros x. rewrite lookup_insert_None, Hdom. split; [tauto|]. intros Hx. split; [done|]. intros <-. congruence.
  - intros x dx lx Hx Hlx. apply lookup_insert_Some in Hlx as [[<- <-]|[Hne Hlx]].
    + rewrite Hd in Hx. injection Hx as <-. destruct Hf as [H0 (c & Hc1 & Hc2) Hio' Hlen' [-> Hby] Hu Hap].
      split; [exact H0| | |exact Hlen'| |exact Hu|exact Hap]; cbn [set_dev dev].
      * exists c. split; [|done]. by rewrite Hout.
      * by eapply inode_ok_size.
      * split; [symmetry; by apply file_write_bytes|]. unfold overwrite. repeat apply Forall_app_2; auto using Forall_take, Forall_drop.
    + apply (file_ok_frame s); [by apply Hfile|done|]. intros k Hk. split; [|by apply (Hfile _ _ _ Hx Hlx)].
      apply Hout. intros Hin. apply Hne. eapply Hdj; [exact Hd|exact Hx|by right|done].
Qed.

End keep.

(** ** Reading and writing open files *)

Section io.
Implicit Types (s : fs) (f : file) (v : volume).

Lemma file_bytes_part b st len ofs n :
  0 ≤ ofs → 0 ≤ len → take (Z.to_nat n) (drop (Z.to_nat ofs) (file_bytes b st 0 len)) = file_bytes b st ofs (Z.max 0 (Z.min n (len - ofs))).
Proof.
  intros Ho Hl. apply list_eq. intros k. destruct (decide (k < Z.to_nat (Z.max 0 (Z.min n (len - ofs))))%nat) as [Hk|Hk].
  - rewrite lookup_take_lt, lookup_drop, !file_bytes_lookup by lia. do 2 f_equal. lia.
  - rewrite !(proj2 (lookup_ge_None _ _)); [done|rewrite file_bytes_length; lia|rewrite length_take, length_drop, file_bytes_length; lia].
Qed.

(** A negative size is taken as 0. *)
Lemma read_negative s a j buffer size offset :
  inodes s !! a = Some j → size ≤ 0 → inode_read_at a buffer size offset s = Ok ((0, buffer), s).
Proof.
  intros Hj Hs. unfold inode_read_at, io_fuel. rewrite (bindS_Ok _ _ _ _ _ (get_inode_ok _ _ _ Hj)). cbn [read_loop].
  by rewrite (proj2 (Z.leb_le _ _)).
Qed.

Lemma write_negative s a j buffer size offset :
  inodes s !! a = Some j → deny_write_cnt j = 0 → size ≤ 0 → inode_write_at a buffer size offset s = Ok (0, s).
Proof.
  intros Hj Hw Hs. unfold inode_write_at, io_fuel. rewrite (bindS_Ok _ _ _ _ _ (get_inode_ok _ _ _ Hj)), Hw. cbn [write_loop Z.eqb negb].
  by rewrite (proj2 (Z.leb_le _ _)).
Qed.

Lemma vol_length s v a sec n l p w :
  volume_ok s v → openers v !! a = Some (sec, n) → contents v !! sec = Some l → file_length (File a p w) s = Ok (Z.of_nat (length l), s).
Proof.
  intros (f & i & rd & D & Hst) Hop Hl. destruct (opened_file _ _ _ _ _ _ _ _ _ _ Hst Hop Hl) as (d & _ & Hj & Hf & _).
  unfold file_length. cbn [finode]. rewrite (bindS_Ok _ _ _ _ _ (get_inode_ok _ _ _ Hj)). by rewrite (proj1 (file_ok_length _ _ _ _ _ _ Hf)).
Qed.

Lemma vol_read s v a sec n l p w buf size :
  volume_ok s v → openers v !! a = Some (sec, n) → contents v !! sec = Some l →
  0 ≤ p ≤ INT_MAX → size ≤ INT_MAX → size ≤ Z.of_nat (length buf) →
  let part := take (Z.to_nat size) (drop (Z.to_nat p) l) in
  file_read (File a p w) buf size s = Ok ((Z.of_nat (length part), overwrite buf 0 part, File a (p + Z.of_nat (length part)) w), s).
Proof.
  intros (f & i & rd & D & Hst) Hop Hl Hp Hsz Hbuf part. destruct (opened_file _ _ _ _ _ _ _ _ _ _ Hst Hop Hl) as (d & _ & Hj & Hf & Hdv & Hm).
  destruct (file_ok_length _ _ _ _ _ _ Hf) as [Hlen Hmax]. unfold file_read. cbn [finode fpos deny_write]. subst part.
  destruct (decide (size ≤ 0)) as [Hz|Hpos].
  { rewrite (bindS_Ok _ _ _ _ _ (read_negative _ _ _ _ _ _ Hj Hz)). replace (Z.to_nat size) with 0%nat by lia. cbn [take length].
    rewrite s32_small by (unfold is_s32, INT_MAX in *; lia). unfold overwrite. rewrite take_0. cbn [app plus length]. by rewrite drop_0. }
  rewrite (bindS_Ok _ _ _ _ _ (inode_read_at_ok s a _ buf size p Hj Hdv (fk_io _ _ _ _ _ _ Hf) Hm Hp ltac:(lia) Hbuf)). cbn [data].
  destruct (fk_bytes _ _ _ _ _ _ Hf) as [-> _]. rewrite file_bytes_part by lia. rewrite file_bytes_length, Z2Nat.id by lia.
  rewrite s32_small by (unfold is_s32, INT_MAX in *; lia). done.
Qed.

Lemma overwrite_nil l n : overwrite l n [] = l.
Proof. unfold overwrite. cbn [app length]. by rewrite Nat.add_0_r, take_drop. Qed.

Lemma wrote_nothing b b' d ofs : wrote b b' d ofs [] → wrote b b' d 0 [].
Proof. intros [? ? Hi ?]. split; try done. intros pos Hp. rewrite Hi by done. cbn [length]. by rewrite !decide_False by lia. Qed.

Lemma set_contents_id v sec l : contents v !! sec = Some l → set_contents v sec l = v.
Proof. intros Hl. destruct v. unfold set_contents. cbn [names contents openers] in *. by rewrite insert_id. Qed.

Lemma state_write s f i rd v D sec d l ofs bytes b' :
  state_ok s f i rd v D → D !! sec = Some d → contents v !! sec = Some l → 0 ≤ ofs → ofs + Z.of_nat (length bytes) ≤ ilength d →
  Forall is_byte bytes → wrote (dev s) b' d ofs bytes →
  state_ok (set_dev s b') f i rd (set_contents v sec (overwrite l (Z.to_nat ofs) bytes)) D.
Proof.
  intros [Hdk Hme Hti] Hd Hl Ho Hle Hb Hw. split; [by apply (disk_write s f i rd v D sec d)|by apply (mem_frame s _ _ _ v)|].
  intros x [y Hy]. apply (Hti x). simpl in Hy. apply lookup_insert_Some in Hy as [[<- _]|[_ Hy]]; eauto.
Qed.

Lemma vol_write s v a sec n l p w buf size :
  volume_ok s v → openers v !! a = Some (sec, n) → contents v !! sec = Some l →
  0 ≤ p ≤ INT_MAX → size ≤ INT_MAX → size ≤ Z.of_nat (length buf) → Forall is_byte buf →
  let k := Z.max 0 (Z.min size (Z.of_nat (length l) - p)) in
  ∃ s', file_write (File a p w) buf size s = Ok ((k, File a (p + k) w), s') ∧
    volume_ok s' (set_contents v sec (overwrite l (Z.to_nat p) (take (Z.to_nat k) buf))).
Proof.
  intros (f & i & rd & D & Hst) Hop Hl Hp Hsz Hbuf Hby k. destruct (opened_file _ _ _ _ _ _ _ _ _ _ Hst Hop Hl) as (d & Hd & Hj & Hf & Hdv & Hm).
  destruct (file_ok_length _ _ _ _ _ _ Hf) as [Hlen Hmax]. unfold file_write. cbn [finode fpos deny_write].
  destruct (decide (size ≤ 0)) as [Hz|Hpos].
  { exists s. rewrite (bindS_Ok _ _ _ _ _ (write_negative _ _ _ _ _ _ Hj eq_refl Hz)). replace k with 0 by (unfold k; lia). cbn [Z.to_nat take].
    rewrite s32_small, overwrite_nil, set_contents_id by (try done; unfold is_s32, INT_MAX in *; lia). split; [done|]. by exists f, i, rd, D. }
  destruct (inode_write_at_ok s a _ buf size p Hj eq_refl Hdv (fk_io _ _ _ _ _ _ Hf) Hm Hp ltac:(lia) Hbuf) as (b' & E & Hw).
  cbn [data] in E, Hw. rewrite <-Hlen in E, Hw. fold k in E, Hw. exists (set_dev s b'). rewrite (bindS_Ok _ _ _ _ _ E).
  rewrite s32_small by (unfold is_s32, INT_MAX, k in *; lia). split; [done|]. exists f, i, rd, D.
  destruct (decide (k = 0)) as [->|Hk].
  - cbn [Z.to_nat take] in *. rewrite overwrite_nil. rewrite <-(overwrite_nil l 0) at 1.
    apply (state_write s f i rd v D sec d l 0 [] b'); try done; [simpl; lia|]. by eapply wrote_nothing.
  - apply (state_write s f i rd v D sec d l p _ b'); try done; [lia| |by apply Forall_take]. rewrite length_take. unfold k in *. lia.
Qed.

End io.

(** ** Files that no one uses any more *)

Section drop.
Implicit Types (s t : fs) (f : file) (i : inode) (rd d : inode_disk) (v : volume) (D : gmap Z inode_disk).

Lemma release_run_ok t f i rd sec n :
  core_ok t f i rd → 0 ≤ sec → 0 ≤ n → sec + n ≤ bsize (dev t) →
  (∀ k, sec ≤ Z.of_nat k < sec + n → bit_at (free_map t) (Z.of_nat k) = true ∧ ¬ fixed_use i rd k) →
  ∃ t', free_map_release sec n t = Ok (tt, t') ∧ core_ok t' f i rd ∧ same_memory t t' ∧
    (∀ j, 0 ≤ j → bit_at (free_map t') j = true ↔ bit_at (free_map t) j = true ∧ ¬ (sec ≤ j < sec + n)) ∧
    entries (dev t') rd = entries (dev t) rd ∧ ∀ k, ¬ in_file (data i) k → sectors (dev t') !! k = sectors (dev t) !! k.
Proof.
  intros Hc H0 Hn Hle Hrun. pose proof Hc as [Hfm _ Hio [Hl _] Hwf Hused Hsep Hone].
  destruct (free_map_release_ok t f i sec n) as (t' & Hrel & Hfm' & [E1 E2 E3 E4 E5] & Hb); try done.
  { intros x Hx. destruct (Hrun (Z.to_nat x)) as [Hx' _]; [lia|]. by rewrite Z2Nat.id in Hx' by lia. }
  assert (entries (dev t') rd = entries (dev t) rd) as He.
  { apply entries_same; try done. intros k Hk. by apply E5, Hsep. }
  assert (∀ j, 0 ≤ j → bit_at (free_map t') j = true ↔ bit_at (free_map t) j = true ∧ ¬ (sec ≤ j < sec + n)) as Hb'.
  { intros j Hj. rewrite Hb by done. case_bool_decide; intuition (lia || done). }
  exists t'. split_and!; try done. apply (core_step t); try done; [by apply E5, Hone|by rewrite He|].
  intros k Hk. apply Hb'; [lia|]. split; [auto|]. intros Hr. by destruct (Hrun k Hr).
Qed.

(** The sectors of a file are given back. *)
Lemma release_file_ok t f i rd sec d l :
  core_ok t f i rd → file_ok t i rd sec d l →
  ∃ t', (free_map_release sec 1 ;;; free_map_release (start d) (bytes_to_sectors (ilength d))) t = Ok (tt, t') ∧
    core_ok t' f i rd ∧ same_memory t t' ∧
    (∀ k, bit_at (free_map t') (Z.of_nat k) = true ↔ bit_at (free_map t) (Z.of_nat k) = true ∧ ¬ owns sec d k) ∧
    entries (dev t') rd = entries (dev t) rd ∧ ∀ k, ¬ in_file (data i) k → sectors (dev t') !! k = sectors (dev t) !! k.
Proof.
  intros Hc [H0 (c & Hsec & _) [Hs0 Hl0 Hend] Hmax _ Hu Hap]. pose proof (fm_dev _ _ _ (co_fm _ _ _ _ Hc)) as Hdv.
  pose proof (lookup_lt_Some _ _ _ Hsec) as Hlt. pose proof (dev_len _ Hdv).
  destruct (release_run_ok t f i rd sec 1) as (t1 & E1 & Hc1 & (M1 & M2 & M3 & M4) & Hb1 & He1 & Hk1); try (done || lia).
  { intros k Hk. apply Hu. left. lia. }
  destruct (bytes_to_sectors_ok (ilength d)) as [Hbs Hn]; [lia|].
  destruct (release_run_ok t1 f i rd (start d) ((ilength d + 511) / 512)) as (t2 & E2 & Hc2 & (N1 & N2 & N3 & N4) & Hb2 & He2 & Hk2); try (done || lia).
  { intros k Hk. destruct (Hu k (or_intror Hk)) as [Hb Hnf]. split; [|done]. apply Hb1; [lia|]. split; [done|]. intros Hr.
    apply Hap. by replace (Z.to_nat sec) with k by lia. }
  exists t2. rewrite (bindS_Ok _ _ _ _ _ E1), Hbs. split_and!; try done; [unfold same_memory; split_and!; congruence| |congruence|].
  - intros k. rewrite Hb2, Hb1 by lia. unfold owns, in_file. split; [|intuition lia]. intros [[Hb Hn1] Hn2]. split; [done|]. intros [->|?]; [lia|done].
  - intros k Hk. by rewrite Hk2, Hk1.
Qed.

Lemma live_collect v sec : live (collect v) sec ↔ live v sec.
Proof. done. Qed.

Lemma tidy_collect v : tidy (collect v).
Proof. intros sec [l Hl]. apply live_collect. by apply map_lookup_filter_Some in Hl as [_ ?]. Qed.

Lemma collect_id v : tidy v → collect v = v.
Proof.
  intros Ht. destruct v as [nm ct op]. unfold collect. f_equal. apply map_filter_id. intros sec l Hl. apply Ht. by eexists.
Qed.

(** All the files but one live. *)
Lemma disk_drop t t' f i rd v D sec d :
  disk_ok t f i rd v D → D !! sec = Some d → ¬ live v sec → (∀ x, x ≠ sec → is_Some (contents v !! x) → live v x) →
  core_ok t' f i rd → bsize (dev t') = bsize (dev t) →
  (∀ k, bit_at (free_map t') (Z.of_nat k) = true ↔ bit_at (free_map t) (Z.of_nat k) = true ∧ ¬ owns sec d k) →
  entries (dev t') rd = entries (dev t) rd → (∀ k, ¬ in_file (data i) k → sectors (dev t') !! k = sectors (dev t) !! k) →
  disk_ok t' f i rd (collect v) (delete sec D).
Proof.
  intros [Hc Hsm Hz Hzf Hnm Hinj Hlv Hdom Hfile Hdj] Hd Hdead Hothers Hc' Hsz Hb He Hk. split; try done.
  - by rewrite Hsz.
  - rewrite Hk; [done|apply Hzf].
  - by rewrite He.
  - intros x Hx%live_collect. rewrite lookup_delete_ne by (intros ->; done). auto.
  - intros x. unfold collect. cbn [contents]. rewrite map_lookup_filter_None, lookup_delete_None. cbn [fst]. destruct (decide (sec = x)) as [->|Hne].
    + split; [tauto|]. intros _. by right.
    + rewrite <-Hdom. split; [|tauto]. intros [Hx|Hx]; [by right|]. right. destruct (contents v !! x) as [l|] eqn:El; [|done].
      destruct (Hx l); [done|]. apply Hothers; [done|by rewrite El].
  - intros x dx lx [Hne Hx]%lookup_delete_Some [Hlx _]%map_lookup_filter_Some. pose proof (Hfile _ _ _ Hx Hlx) as Hf.
    apply (file_ok_frame t); try done. intros k Hok. destruct (fk_used _ _ _ _ _ _ Hf k Hok) as [Hu Hnf]. split.
    + apply Hk. intros Hin. apply Hnf. by do 3 right.
    + apply Hb. split; [done|]. intros Hsec. apply Hne. by apply (Hdj sec x d dx k).
  - intros x y dx dy k [_ Hx]%lookup_delete_Some [_ Hy]%lookup_delete_Some. by apply Hdj.
Qed.

(** *** Closing *)

Definition with_openers v (m : gmap Z (Z * Z)) : volume := Volume (names v) (contents v) m.

Lemma drop_last v a sec : openers v !! a = Some (sec, 1) → drop_opener v a = collect (with_openers v (delete a (openers v))).
Proof. intros Ha. unfold drop_opener, with_openers. do 2 f_equal. apply partial_alter_ext. intros o <-. by rewrite Ha. Qed.

Lemma drop_more v a sec n :
  openers v !! a = Some (sec, n) → n ≠ 1 → drop_opener v a = collect (with_openers v (<[a := (sec, n - 1)]> (openers v))).
Proof.
  intros Ha Hn. unfold drop_opener, with_openers. do 2 f_equal. apply partial_alter_ext. intros o <-. by rewrite Ha, (proj2 (Z.eqb_neq _ _)).
Qed.

Lemma inode_close_more t a j :
  a ≠ NULL → inodes t !! a = Some j → 2 ≤ open_cnt j ≤ INT_MAX →
  inode_close a t = Ok (tt, set_inodes t (<[a := Inode (isector j) (open_cnt j - 1) (removed j) (deny_write_cnt j) (data j)]> (inodes t))).
Proof.
  intros Hnz Hj Hc. unfold inode_close. rewrite (proj2 (Z.eqb_neq _ _)) by done. rewrite (bindS_Ok _ _ _ _ _ (get_inode_ok _ _ _ Hj)).
  rewrite s32_small by (unfold is_s32, INT_MAX in *; lia). unfold put_inode. unfold bindS at 1. by rewrite (proj2 (Z.eqb_neq _ _)) by lia.
Qed.

(** The last close of a file without a name. *)
Record closed_dead t t' a sec d i rd : Prop := {
  cd_mem : inodes t' = delete a (inodes t) ∧ open_inodes t' = filter (λ x, x ≠ a) (open_inodes t) ∧ next_addr t' = next_addr t ∧ bsize (dev t') = bsize (dev t);
  cd_bits : ∀ k, bit_at (free_map t') (Z.of_nat k) = true ↔ bit_at (free_map t) (Z.of_nat k) = true ∧ ¬ owns sec d k;
  cd_entries : entries (dev t') rd = entries (dev t) rd;
  cd_sectors : ∀ k, ¬ in_file (data i) k → sectors (dev t') !! k = sectors (dev t) !! k;
}.

Lemma inode_close_dead t f i rd a sec d l :
  core_ok t f i rd → file_ok t i rd sec d l → a ≠ NULL → a ≠ finode f → inodes t !! a = Some (Inode sec 1 true 0 d) →
  ∃ t', inode_close a t = Ok (tt, t') ∧ core_ok t' f i rd ∧ closed_dead t t' a sec d i rd.
Proof.
  intros Hc Hf Hnz Hne Hj. set (t0 := set_open (set_inodes t (<[a := Inode sec 0 true 0 d]> (inodes t))) (filter (λ x, x ≠ a) (open_inodes t))).
  assert (inode_close a t = ((free_map_release sec 1 ;;; free_map_release (start d) (bytes_to_sectors (ilength d))) ;;;
    s <-- getS ;; putS (set_inodes s (delete a (inodes s)))) t0) as ->.
  { unfold inode_close. rewrite (proj2 (Z.eqb_neq _ _)) by done. by rewrite (bindS_Ok _ _ _ _ _ (get_inode_ok _ _ _ Hj)). }
  assert (inodes t0 !! finode f = Some i) as Hi0.
  { unfold t0. cbn [inodes set_open set_inodes]. rewrite lookup_insert_ne by done. apply (fm_inode _ _ _ (co_fm _ _ _ _ Hc)). }
  assert (core_ok t0 f i rd) as Hc0 by by apply (core_ok_memory t).
  assert (file_ok t0 i rd sec d l) as Hf0.
  { apply (file_ok_frame t); try done. intros k Hk. split; [done|]. by apply Hf. }
  destruct (release_file_ok t0 f i rd sec d l Hc0 Hf0) as (t1 & E1 & Hc1 & (M1 & M2 & M3 & M4) & Hb1 & He1 & Hk1).
  rewrite (bindS_Ok _ _ _ _ _ E1). eexists. split; [done|]. split.
  - apply (core_ok_memory t1); try done. cbn [inodes set_inodes]. rewrite lookup_delete_ne, M1 by done. done.
  - split; cbn [inodes set_inodes open_inodes next_addr dev free_map]; try done. rewrite M1, M2, M3. unfold t0. cbn [inodes set_inodes set_open open_inodes next_addr dev].
    split_and!; try done. by rewrite delete_insert_eq.
Qed.

Lemma mem_drop s s' f i v D D' a sec :
  mem_ok s f i v D → openers v !! a = Some (sec, 1) → inodes s' = delete a (inodes s) →
  open_inodes s' = filter (λ x, x ≠ a) (open_inodes s) → next_addr s' = next_addr s → (∀ x, x ≠ sec → D' !! x = D !! x) →
  mem_ok s' f i (collect (with_openers v (delete a (openers v)))) D'.
Proof.
  intros [Hfr [Ha0 Ha] Hin Hat Hinj] Hop Ei Eo En HD. split; try done; cbn [names openers collect with_openers].
  - rewrite En, Ei. split; [done|]. intros b Hb. rewrite lookup_delete_None. auto.
  - rewrite Eo. intros b [Hne Hb]%list_elem_of_filter. rewrite lookup_delete_ne by done. auto.
  - intros b sb n [Hne Hb]%lookup_delete_Some. destruct (Hat _ _ _ Hb) as (H1 & H2 & H3 & [H4 H5] & d & Hd & Hj). split_and!; try done.
    + rewrite Eo. apply list_elem_of_filter. split; [congruence|done].
    + exists d. assert (sb ≠ sec) as Hs by (intros ->; by destruct (Hinj _ _ _ _ _ Hop Hb)). rewrite HD, Ei, lookup_delete_ne by done. done.
  - intros b b' sb n n' [_ Hb]%lookup_delete_Some [_ Hb']%lookup_delete_Some. by eapply Hinj.
Qed.

Lemma mem_fewer s f i v D a sec n d :
  mem_ok s f i v D → openers v !! a = Some (sec, n) → D !! sec = Some d → 2 ≤ n →
  mem_ok (set_inodes s (<[a := Inode sec (n - 1) (nameless v sec) 0 d]> (inodes s))) f i (with_openers v (<[a := (sec, n - 1)]> (openers v))) D.
Proof.
  intros [Hfr [Ha0 Ha] Hin Hat Hinj] Hop Hd Hn. destruct (Hat _ _ _ Hop) as (A1 & A2 & A3 & A4 & _). split; try done; cbn [names openers with_openers inodes set_inodes open_inodes next_addr].
  - split; [done|]. intros b Hb. rewrite lookup_insert_None. split; [auto|]. intros <-.
    destruct (Hat _ _ _ Hop) as (_ & _ & _ & _ & d' & _ & Hj). by rewrite Ha in Hj.
  - intros b Hb. destruct (Hin b Hb) as [->|Hb']; [by left|right]. apply lookup_insert_is_Some. destruct (decide (a = b)); auto.
  - intros b sb m Hb. apply lookup_insert_Some in Hb as [[<- [= <- <-]]|[Hne Hb]].
    + split_and!; try done; [lia|lia|]. exists d. split; [done|]. by rewrite lookup_insert_eq.
    + destruct (Hat _ _ _ Hb) as (H1 & H2 & H3 & H4 & d' & Hd' & Hj). split_and!; try done; [lia|lia|]. exists d'. by rewrite lookup_insert_ne.
  - intros b b' sb m m' Hb Hb'. apply lookup_insert_Some in Hb as [[<- Eb]|[Hne Hb]]; apply lookup_insert_Some in Hb' as [[<- Eb']|[Hne' Hb']]; simplify_eq; try done; by eapply Hinj.
Qed.

Lemma live_without v a sec m x :
  openers v !! a = Some (sec, m) → live v x → live (with_openers v (delete a (openers v))) x ∨ (x = sec ∧ ¬ named v sec).
Proof.
  intros Ha [Hn|(b & n & Hb)%is_open_iff]; [by left; left|]. destruct (decide (b = a)) as [->|Hne].
  - rewrite Ha in Hb. injection Hb as -> ->. destruct (decide (named v x)); [by left; left|by right].
  - left. right. apply is_open_iff. exists b, n. cbn [openers with_openers]. by rewrite lookup_delete_ne.
Qed.

Lemma vol_close s v a sec n p :
  volume_ok s v → openers v !! a = Some (sec, n) → ∃ s', file_close (File a p false) s = Ok (tt, s') ∧ volume_ok s' (drop_opener v a).
Proof.
  intros (f & i & rd & D & Hst) Hop. pose proof Hst as [Hdk Hme Hti]. destruct (me_at _ _ _ _ _ Hme _ _ _ Hop) as (Hin & Hnz & Hne & Hn & d & Hd & Hj).
  change (file_close (File a p false) s) with (inode_close a s). pose proof (fm_inode _ _ _ (co_fm _ _ _ _ (dk_core _ _ _ _ _ _ Hdk))) as Hi.
  set (v1 := with_openers v (delete a (openers v))). assert (∀ x, live v1 x → live v x) as Hl1.
  { intros x [Hx|(b & m & Hb)%is_open_iff]; [by left|right]. apply is_open_iff. apply (lookup_delete_Some (openers v)) in Hb as [_ Hb]. eauto. }
  destruct (decide (n = 1)) as [->|Hn1].
  - rewrite (drop_last v a sec Hop). fold v1. unfold nameless in Hj. destruct (decide (named v sec)) as [Hnm|Hnm].
    + rewrite bool_decide_eq_true_2 in Hj by done. eexists. split; [by eapply inode_close_last|]. exists f, i, rd, D. split.
      * rewrite collect_id; [apply (disk_openers _ _ _ _ v); try done; apply (disk_memory s); try done; simpl; by rewrite lookup_delete_ne|].
        intros x [l Hx]. destruct (live_without v a sec 1 x) as [?|[_ ?]]; eauto. done.
      * by eapply mem_drop.
      * apply tidy_collect.
    + rewrite bool_decide_eq_false_2 in Hj by done. destruct (disk_file _ _ _ _ _ _ _ _ Hdk Hd) as (l & Hl & Hf).
      destruct (inode_close_dead s f i rd a sec d l (dk_core _ _ _ _ _ _ Hdk) Hf Hnz Hne Hj) as (s' & E & Hc' & [(E1 & E2 & E3 & E4) Hb He Hk]).
      exists s'. split; [done|]. exists f, i, rd, (delete sec D). split; [|eapply mem_drop; try done; intros x Hx; by apply lookup_delete_ne|apply tidy_collect].
      apply (disk_drop s _ _ _ _ v1 D sec d); try done; [by apply (disk_openers _ _ _ _ v)| |].
      * intros [?|(b & m & Hb2)%is_open_iff]; [done|]. apply (lookup_delete_Some (openers v)) in Hb2 as [Hb1 Hb2]. apply Hb1. by eapply me_inj.
      * intros x Hx Hx'. by destruct (live_without v a sec 1 x) as [?|[? _]]; eauto.
  - rewrite (drop_more v a sec n) by done. set (v2 := with_openers v (<[a := (sec, n - 1)]> (openers v))).
    assert (∀ x, live v2 x ↔ live v x) as Hl2.
    { intros x. unfold live. rewrite !is_open_iff. unfold v2. cbn [openers with_openers]. apply or_iff_compat_l. split; intros (b & m & Hb).
      - apply lookup_insert_Some in Hb as [[<- [= <- <-]]|[_ Hb]]; eauto.
      - destruct (decide (a = b)) as [<-|Hab]; [|exists b, m; by rewrite lookup_insert_ne]. rewrite Hop in Hb. injection Hb as <- <-.
        exists a, (n - 1). apply lookup_insert_eq. }
    assert (tidy v2) as Hti2 by (intros x Hx; by apply Hl2, Hti). rewrite collect_id by done.
    eexists. split; [eapply inode_close_more; try done; simpl; lia|]. cbn [isector open_cnt removed deny_write_cnt data]. exists f, i, rd, D. split; [|by apply mem_fewer; [..|lia]|done].
    apply (disk_openers _ _ _ _ v); try done; [|by intros x ?%Hl2]. apply (disk_memory s); try done. simpl. by rewrite lookup_insert_ne.
Qed.

End drop.

(** ** Opening *)

Section opening.
Implicit Types (s t : fs) (f : file) (i j : inode) (rd d : inode_disk) (v : volume) (D : gmap Z inode_disk).

Lemma find_open_cases l s sector :
  (∀ a, a ∈ l → is_Some (inodes s !! a)) →
  (find_open l sector s = Ok (None, s) ∧ ∀ a j, a ∈ l → inodes s !! a = Some j → isector j ≠ sector) ∨
  (∃ a j, find_open l sector s = Ok (Some a, s) ∧ a ∈ l ∧ inodes s !! a = Some j ∧ isector j = sector).
Proof.
  induction l as [|a l IH]; intros Hl; [left; split; [done|set_solver]|]. destruct (Hl a) as [j Hj]; [set_solver|]. cbn [find_open].
  rewrite (bindS_Ok _ _ _ _ _ (get_inode_ok _ _ _ Hj)). destruct (Z.eqb_spec (isector j) sector) as [E|E].
  - right. exists a, j. split_and!; [done|set_solver|done|done].
  - destruct IH as [[E1 H1]|(b & jb & E1 & Hb & ?)]; [set_solver|left|right].
    + split; [done|]. intros b jb [->|Hb]%elem_of_cons Hjb; [congruence|by eapply H1].
    + exists b, jb. split_and!; set_solver.
Qed.

(** The rest of [filesys_open], after the lookup. *)
Lemma open_rest s t r a :
  a ≠ next_addr s → inodes t !! next_addr s = Some r → open_cnt r = 1 → removed r = false → next_addr s ≠ NULL → mallocs t = [] →
  (dir_close (Some (Dir (next_addr s) 0)) ;;; file_open a) t =
    Ok (if a =? NULL then None else Some (File a 0 false),
        set_inodes (set_open t (filter (λ x, x ≠ next_addr s) (open_inodes t))) (delete (next_addr s) (inodes t))).
Proof.
  intros Hne Hr Hc Hrm Hnz Hm. rewrite (bindS_Ok _ _ _ _ _ (inode_close_last t (next_addr s) r Hnz Hr Hc Hrm)).
  unfold file_open. erewrite bindS_Ok by (apply malloc_ok; exact Hm). rewrite andb_true_r. by destruct (Z.eqb_spec a 0) as [->|].
Qed.

(** The state with one more inode, or one in place of another. *)
Definition with_inode s (a : Z) (j : inode) (l : list Z) (n : Z) : fs :=
  set_inodes (set_open (set_addr s n) l) (<[a := j]> (inodes s)).

Definition reopened (j : inode) : inode :=
  Inode (isector j) (s32 (open_cnt j + 1)) (removed j) (deny_write_cnt j) (data j).

Lemma inode_reopen_ok t a j :
  a ≠ NULL → inodes t !! a = Some j → inode_reopen a t = Ok (a, set_inodes t (<[a := reopened j]> (inodes t))).
Proof. intros Hnz Hj. unfold inode_reopen. rewrite (proj2 (Z.eqb_neq _ _)) by done. by rewrite (bindS_Ok _ _ _ _ _ (get_inode_ok _ _ _ Hj)). Qed.

(** The root directory closed again. *)
Definition without_root s t : fs :=
  set_inodes (set_open t (filter (λ x, x ≠ next_addr s) (open_inodes t))) (delete (next_addr s) (inodes t)).

Lemma without_root_same s f i rd : fsys_ok s f i rd → without_root s (with_root s rd) = set_addr s (next_addr s + 1).
Proof.
  intros Hok. pose proof Hok as [_ [_ Ha] _]. unfold without_root, with_root, opened, set_addr, set_open, set_inodes. cbn [dev inodes open_inodes next_addr mallocs free_map free_map_file policy statics].
  rewrite filter_cons_False, (next_addr_not_open _ _ _ _ Hok) by tauto. rewrite delete_insert_id by (apply Ha; lia). done.
Qed.

Lemma without_root_reopened s f i rd a j :
  fsys_ok s f i rd → a ≠ next_addr s →
  without_root s (set_inodes (with_root s rd) (<[a := j]> (inodes (with_root s rd)))) = with_inode s a j (open_inodes s) (next_addr s + 1).
Proof.
  intros Hok Hne. pose proof Hok as [_ [_ Ha] _]. unfold without_root, with_inode, with_root, opened, set_addr, set_open, set_inodes. cbn [dev inodes open_inodes next_addr mallocs free_map free_map_file policy statics].
  rewrite filter_cons_False, (next_addr_not_open _ _ _ _ Hok) by tauto. rewrite delete_insert_ne by done. rewrite delete_insert_id by (apply Ha; lia). done.
Qed.

Lemma filter_new (x : Z) l : filter (λ y, y ≠ x) l = l → filter (λ y, y ≠ x) (x + 1 :: x :: l) = x + 1 :: l.
Proof. intros Hl. rewrite filter_cons_True by lia. rewrite filter_cons_False by tauto. by rewrite Hl. Qed.

Lemma delete_new (m : gmap Z inode) x j r : m !! x = None → delete x (<[x + 1 := j]> (<[x := r]> m)) = <[x + 1 := j]> m.
Proof. intros Hx. rewrite delete_insert_ne by lia. by rewrite delete_insert_id. Qed.

Lemma opened_inodes t sec d : inodes (opened t sec d) = <[next_addr t := Inode sec 1 false 0 d]> (inodes t).
Proof. done. Qed.

Lemma opened_open t sec d : open_inodes (opened t sec d) = next_addr t :: open_inodes t.
Proof. done. Qed.

Lemma opened_next t sec d : next_addr (opened t sec d) = next_addr t + 1.
Proof. done. Qed.

Lemma without_root_new s f i rd sec d :
  fsys_ok s f i rd →
  without_root s (opened (with_root s rd) sec d) =
    with_inode s (next_addr s + 1) (Inode sec 1 false 0 d) (next_addr s + 1 :: open_inodes s) (next_addr s + 1 + 1).
Proof.
  intros Hok. pose proof Hok as [_ [_ Ha] _]. unfold without_root, with_inode, with_root.
  rewrite !opened_inodes, !opened_open, !opened_next.
  rewrite filter_new by exact (next_addr_not_open _ _ _ _ Hok). by rewrite delete_new by (apply Ha; lia).
Qed.

Lemma root_lookup junk s f i rd name :
  length junk = 20%nat → fsys_ok s f i rd → 0 ∉ name →
  lookup junk (Dir (next_addr s) 0) name (with_root s rd) = Ok (find_name name (entries (dev s) rd) 0, with_root s rd).
Proof.
  intros Hjunk Hok H0. pose proof (core_with_root _ _ _ _ Hok) as Hc. set (root := Inode ROOT_DIR_SECTOR 1 false 0 rd).
  assert (inodes (with_root s rd) !! next_addr s = Some root) as Hroot by apply lookup_insert_eq.
  pose proof (core_dir_file _ _ _ _ _ _ Hc Hroot eq_refl) as Hdf. destruct (n_entries_len _ _ _ Hdf) as (Hlen & _ & _).
  change (dev s) with (dev (with_root s rd)). apply (lookup_ok _ (next_addr s) root); try done; [apply Hc|]. pose proof (co_len _ _ _ _ Hc). simpl in *. lia.
Qed.

Lemma lookup_root junk s f i rd name :
  length junk = 20%nat → fsys_ok s f i rd → 0 ∉ name →
  dir_lookup junk (Dir (next_addr s) 0) name (with_root s rd) =
    match find_name name (entries (dev s) rd) 0 with
    | Some (e, _) => inode_open (inode_sector e) (with_root s rd)
    | None => Ok (NULL, with_root s rd)
    end.
Proof.
  intros Hjunk Hok H0. unfold dir_lookup. rewrite (bindS_Ok _ _ _ _ _ (root_lookup _ _ _ _ _ _ Hjunk Hok H0)). by destruct (find_name name _ 0) as [[e ofs]|].
Qed.

Lemma filesys_open_rest junk s f i rd name a t r :
  fsys_ok s f i rd → dir_lookup junk (Dir (next_addr s) 0) name (with_root s rd) = Ok (a, t) →
  a ≠ next_addr s → inodes t !! next_addr s = Some r → open_cnt r = 1 → removed r = false → mallocs t = [] →
  filesys_open junk name s = Ok (if a =? NULL then None else Some (File a 0 false), without_root s t).
Proof.
  intros Hok Hdl Hne Hr Hc Hrm Hm. pose proof Hok as [_ [Hp _] _]. unfold filesys_open.
  rewrite (bindS_Ok _ _ _ _ _ (dir_open_root_ok _ _ _ _ Hok)), (bindS_Ok _ _ _ _ _ Hdl). by rewrite (open_rest s t r) by (done || lia).
Qed.

(** The address [a] stands for the file [sec], and only for it. *)
Definition opens v (a sec : Z) : Prop := ∀ b p, openers v !! b = Some p → b = a ↔ p.1 = sec.

Lemma mem_open s f i v D a sec d l n :
  mem_ok s f i v D → opens v a sec → D !! sec = Some d → a ≠ NULL → a ≠ finode f → open_count v a < INT_MAX →
  (∀ x, x ∈ l ↔ x = a ∨ x ∈ open_inodes s) → next_addr s ≤ n → a < n →
  mem_ok (with_inode s a (Inode sec (open_count v a + 1) (nameless v sec) 0 d) l n) f i (add_opener v a sec) D.
Proof.
  intros [Hfr [Ha0 Ha] Hin Hat Hinj] Ho Hd Hnz Hne Hc Hl Hn Han. assert (0 ≤ open_count v a) as Hc0.
  { unfold open_count. destruct (openers v !! a) as [[x m]|] eqn:E; [|done]. destruct (Hat _ _ _ E) as (_ & _ & _ & ? & _). simpl. lia. }
  split; try done; cbn [with_inode set_inodes set_open set_addr inodes open_inodes next_addr openers add_opener].
  - split; [lia|]. intros b Hb. rewrite lookup_insert_ne by lia. apply Ha. lia.
  - intros x [->|Hx]%Hl; [right; rewrite lookup_insert_eq; by eexists|]. destruct (Hin x Hx) as [->|?]; [by left|right]. apply lookup_insert_is_Some'. auto.
  - intros x y m Hx. apply lookup_insert_Some in Hx as [[<- [= <- <-]]|[Hax Hx]].
    + split_and!; try done; [apply Hl; by left|lia|lia|]. exists d. split; [done|]. by rewrite lookup_insert_eq.
    + destruct (Hat _ _ _ Hx) as (H1 & H2 & H3 & [H4 H5] & d' & Hd' & Hj). split_and!; try done; [apply Hl; by right|]. exists d'. by rewrite lookup_insert_ne.
  - intros x x' y m m' Hx Hx'. apply lookup_insert_Some in Hx as [[<- Ex]|[Hax Hx]]; apply lookup_insert_Some in Hx' as [[<- Ex']|[Hax' Hx']]; simplify_eq; try done.
    + symmetry. by apply (Ho _ _ Hx').
    + by apply (Ho _ _ Hx).
    + by eapply Hinj.
Qed.

Lemma live_add v a sec x : opens v a sec → live (add_opener v a sec) x ↔ live v x ∨ x = sec.
Proof.
  intros Ho. unfold live. rewrite !is_open_iff. cbn [openers add_opener]. split.
  - intros [Hn|(b & n & Hb)]; [by left; left|]. apply lookup_insert_Some in Hb as [[<- [= <- _]]|[_ Hb]]; [by right|]. left. right. eauto.
  - intros [[Hn|(b & n & Hb)] | ->]; [by left|right|right; exists a, (open_count v a + 1); apply lookup_insert_eq].
    destruct (decide (a = b)) as [<-|Hne]; [|exists b, n; by rewrite lookup_insert_ne]. destruct (Ho _ _ Hb) as [Hs _].
    exists a, (open_count v a + 1). rewrite lookup_insert_eq. do 2 f_equal. symmetry. by apply Hs.
Qed.

(** The state after opening. *)
Lemma state_open s f i rd v D a sec d l n :
  state_ok s f i rd v D → opens v a sec → named v sec → D !! sec = Some d → a ≠ NULL → a ≠ finode f → open_count v a < INT_MAX →
  (∀ x, x ∈ l ↔ x = a ∨ x ∈ open_inodes s) → next_addr s ≤ n → a < n →
  state_ok (with_inode s a (Inode sec (open_count v a + 1) false 0 d) l n) f i rd (add_opener v a sec) D.
Proof.
  intros [Hdk Hme Hti] Ho Hnm Hd Hnz Hne Hc Hl Hn Han.
  assert (∀ x, live (add_opener v a sec) x ↔ live v x) as Hlv.
  { intros x. rewrite live_add by done. split; [|auto]. intros [?| ->]; [done|by left]. }
  split.
  - apply (disk_openers _ _ _ _ v); try done; [|by intros x ?%Hlv]. apply (disk_memory s); try done. cbn [inodes with_inode set_inodes].
    rewrite lookup_insert_ne by done. apply (fm_inode _ _ _ (co_fm _ _ _ _ (dk_core _ _ _ _ _ _ Hdk))).
  - assert (nameless v sec = false) as <- by (unfold nameless; by rewrite bool_decide_eq_true_2). by apply mem_open.
  - intros x Hx. by apply Hlv, Hti.
Qed.

(** The inode of a file is open at one address, or can be opened at a new one. *)
Lemma open_sector s f i rd v D sec d :
  state_ok s f i rd v D → D !! sec = Some d →
  (∃ a n, openers v !! a = Some (sec, n) ∧ opens v a sec ∧ a ≠ next_addr s ∧
     inode_open sec (with_root s rd) = Ok (a, set_inodes (with_root s rd) (<[a := Inode sec (s32 (n + 1)) (nameless v sec) 0 d]> (inodes (with_root s rd))))) ∨
  (openers v !! (next_addr s + 1) = None ∧ opens v (next_addr s + 1) sec ∧ ¬ is_open v sec ∧
     inode_open sec (with_root s rd) = Ok (next_addr s + 1, opened (with_root s rd) sec d)).
Proof.
  intros Hst Hd. pose proof Hst as [Hdk Hme _]. pose proof (state_fsys _ _ _ _ _ _ Hst) as Hok. destruct (disk_file _ _ _ _ _ _ _ _ Hdk Hd) as (l & Hl & Hf).
  destruct (file_sector _ _ _ _ _ _ Hf) as (_ & Hs0 & Hs1). pose proof Hme as [Hfr [Ha0 Ha] Hin Hat Hinj].
  pose proof (fm_inode _ _ _ (co_fm _ _ _ _ (dk_core _ _ _ _ _ _ Hdk))) as Hi. destruct (fk_inode _ _ _ _ _ _ Hf) as (c & Hc & <-).
  set (t := with_root s rd). set (root := Inode ROOT_DIR_SECTOR 1 false 0 rd).
  assert (inodes t = <[next_addr s := root]> (inodes s)) as Et by done. assert (open_inodes t = next_addr s :: open_inodes s) as Eo by done.
  assert (∀ a, a ∈ open_inodes s → a ≠ next_addr s ∧ is_Some (inodes s !! a)) as Hold.
  { intros a (j & Hj & _)%(fo_open _ _ _ _ Hok). split; [intros ->; rewrite Ha in Hj; [done|lia]|by eexists]. }
  assert (∀ a sa n, openers v !! a = Some (sa, n) → ∃ d, D !! sa = Some d ∧ inodes t !! a = Some (Inode sa n (nameless v sa) 0 d)) as Hopen.
  { intros a sa n Hop. destruct (Hat _ _ _ Hop) as (Hain & _ & _ & _ & d & Hd' & Hj). exists d. split; [done|]. rewrite Et, lookup_insert_ne; [done|]. by destruct (Hold a Hain) as [? _]. }
  destruct (find_open_cases (open_inodes t) t sec) as [[E Hno]|(a & j & E & Hain & Hj & Ej)].
  - intros a. rewrite Eo, Et. intros [->|Hain]%elem_of_cons; [rewrite lookup_insert_eq; by eexists|]. destruct (Hold a Hain) as [Hne ?]. by rewrite lookup_insert_ne.
  - right. assert (¬ is_open v sec) as Hnot.
    { intros (a & n & Hop)%is_open_iff. destruct (Hopen _ _ _ Hop) as (d & _ & Hj). destruct (Hat _ _ _ Hop) as (Hain & _). eapply (Hno a); [rewrite Eo; by right|exact Hj|done]. }
    assert (openers v !! (next_addr s + 1) = None) as Hnew.
    { destruct (openers v !! (next_addr s + 1)) as [[y n]|] eqn:Hy; [|done]. destruct (Hat _ _ _ Hy) as (_ & _ & _ & _ & d & _ & Hj). rewrite Ha in Hj; [done|lia]. }
    split_and!; try done.
    + intros b [y m] Hb. split; [intros ->; congruence|]. cbn [fst]. intros ->. destruct Hnot. apply is_open_iff. eauto.
    + change (next_addr s + 1) with (next_addr t). pose proof (co_fm _ _ _ _ (dk_core _ _ _ _ _ _ Hdk)) as Hfm. apply inode_open_new; try done; [|apply Hfm|apply Hfm|apply Hf].
      intros a Hain. assert (is_Some (inodes t !! a)) as [j Hj]; [|exists j; eauto].
      rewrite Eo in Hain. rewrite Et. apply lookup_insert_is_Some'. apply elem_of_cons in Hain as [->|Hain]; [by left|right]. by apply Hold.
  - left. rewrite Eo in Hain. apply elem_of_cons in Hain as [->|Hain]; [rewrite Et, lookup_insert_eq in Hj; injection Hj as <-; by rewrite <-Ej in Hs1|].
    destruct (Hin a Hain) as [->|[[y n] Hop]]; [destruct (Hold _ Hain) as [Hne _]; rewrite Et, lookup_insert_ne in Hj by done; congruence|].
    destruct (Hopen _ _ _ Hop) as (d & Hd' & Hj'). rewrite Hj in Hj'. injection Hj' as ->. cbn [isector] in Ej. subst y. rewrite Hd in Hd'. injection Hd' as <-.
    destruct (Hat _ _ _ Hop) as (_ & Hnz & _). exists a, n. split_and!; try done; [|by apply Hold|].
    + intros b [y m] Hb. split; [intros ->; by rewrite Hop in Hb; injection Hb as <- <-|]. cbn [fst]. intros ->. by eapply Hinj.
    + unfold inode_open, getS. unfold bindS at 1. rewrite (bindS_Ok _ _ _ _ _ E). by rewrite (inode_reopen_ok _ _ _ Hnz Hj).
Qed.

(** Only the next free address has changed. *)
Lemma state_addr s f i rd v D n : state_ok s f i rd v D → next_addr s ≤ n → state_ok (set_addr s n) f i rd v D.
Proof.
  intros [Hdk Hme Hti] Hle. split; [|destruct Hme as [? [H0 Ha] ? ? ?]; split; try done|done].
  - apply (disk_memory s); try done. apply (fm_inode _ _ _ (co_fm _ _ _ _ (dk_core _ _ _ _ _ _ Hdk))).
  - simpl. split; [lia|]. intros a Ha'. apply Ha. lia.
Qed.

Lemma vol_open junk s v name :
  length junk = 20%nat → volume_ok s v → 0 ∉ name → (∀ a, open_count v a < INT_MAX) →
  match names v !! name with
  | None => ∃ s', filesys_open junk name s = Ok (None, s') ∧ volume_ok s' v
  | Some sec => ∃ a s', filesys_open junk name s = Ok (Some (File a 0 false), s') ∧ opens v a sec ∧ volume_ok s' (add_opener v a sec)
  end.
Proof.
  intros Hjunk (f & i & rd & D & Hst) H0 Hcnt. pose proof Hst as [Hdk Hme Hti]. pose proof (state_fsys _ _ _ _ _ _ Hst) as Hok.
  pose proof (lookup_root junk s f i rd name Hjunk Hok H0) as Hdl. pose proof (fm_mem _ _ _ (co_fm _ _ _ _ (dk_core _ _ _ _ _ _ Hdk))) as Hm.
  set (root := Inode ROOT_DIR_SECTOR 1 false 0 rd). assert (inodes (with_root s rd) !! next_addr s = Some root) as Hr by apply lookup_insert_eq.
  pose proof (me_addr _ _ _ _ _ Hme) as [Hp Ha]. pose proof (find_name_map name (entries (dev s) rd) 0) as Hmap. rewrite (dk_names _ _ _ _ _ _ Hdk) in Hmap. rewrite <-Hmap.
  destruct (find_name name (entries (dev s) rd) 0) as [[e ofs]|] eqn:Ef; cbn [fmap option_fmap option_map compose fst] in Hmap |- *.
  2:{ eexists. split; [by rewrite (filesys_open_rest junk s f i rd name _ _ root Hok Hdl); [..|done|done|done]; (done || lia)|]. rewrite (without_root_same _ f i rd) by done.
      exists f, i, rd, D. apply state_addr; [done|lia]. }
  symmetry in Hmap. set (sec := inode_sector e) in *. assert (named v sec) as Hnm by (apply named_iff; eauto).
  destruct (dk_live _ _ _ _ _ _ Hdk sec) as [d Hd]; [by left|].
  destruct (open_sector s f i rd v D sec d Hst Hd) as [(a & n & Hop & Ho & Hne & E)|(Hnew & Ho & _ & E)]; rewrite E in Hdl.
  - destruct (me_at _ _ _ _ _ Hme _ _ _ Hop) as (Hain & Hnz & Hnf & Hn & _). assert (open_count v a = n) as Ec by (unfold open_count; by rewrite Hop).
    exists a. eexists. split; [rewrite (filesys_open_rest junk s f i rd name _ _ root Hok Hdl); [by rewrite (proj2 (Z.eqb_neq _ _))|done|simpl; by rewrite lookup_insert_ne|done..]|].
    rewrite (without_root_reopened _ f i rd) by done. split; [done|]. exists f, i, rd, D.
    assert (nameless v sec = false) as -> by (unfold nameless; by rewrite bool_decide_eq_true_2).
    pose proof (Hcnt a) as Hca. rewrite Ec in Hca. rewrite s32_small by (unfold is_s32, INT_MAX in *; lia). rewrite <-Ec.
    apply state_open; try done; [|lia|].
    + intros x. split; [auto|]. by intros [->|?].
    + destruct (me_at _ _ _ _ _ Hme _ _ _ Hop) as (_ & _ & _ & _ & d' & _ & Hj). destruct (Z.lt_ge_cases a (next_addr s)) as [?|Hge]; [lia|]. by rewrite (Ha _ Hge) in Hj.
  - exists (next_addr s + 1). eexists. split; [rewrite (filesys_open_rest junk s f i rd name _ _ root Hok Hdl); [by rewrite (proj2 (Z.eqb_neq _ _)) by lia|lia|simpl; by rewrite lookup_insert_ne by lia|done..]|].
    rewrite (without_root_new _ f i rd) by done. split; [done|]. exists f, i, rd, D.
    assert (open_count v (next_addr s + 1) = 0) as Ec by (unfold open_count; by rewrite Hnew).
    pose proof (state_open s f i rd v D (next_addr s + 1) sec d (next_addr s + 1 :: open_inodes s) (next_addr s + 1 + 1) Hst Ho Hnm Hd) as Hs. rewrite Ec in Hs.
    apply Hs; try lia; [|done|set_solver]. intros Heq. pose proof (fm_inode _ _ _ (co_fm _ _ _ _ (dk_core _ _ _ _ _ _ Hdk))) as Hi. rewrite <-Heq, Ha in Hi; [done|lia].
Qed.

End opening.

(** ** Creating *)

Section creating.
Implicit Types (s t : fs) (f : file) (i : inode) (rd d : inode_disk) (v : volume) (D : gmap Z inode_disk).

(** The number of sectors overflows for the largest sizes, and no device has that many. *)
Lemma too_many_sectors size : INT_MAX - 511 < size ≤ INT_MAX → 2 ^ 31 ≤ bytes_to_sectors size.
Proof.
  unfold INT_MAX, bytes_to_sectors, BLOCK_SECTOR_SIZE. intros Hs.
  assert (s32 (size + 512 - 1) = size + 511 - 2 ^ 32) as ->.
  { unfold s32. rewrite <-(Z.mod_unique (size + 512 - 1 + 2147483648) WORD 1 (size + 511 + 2147483648 - 2 ^ 32)); lia. }
  assert (Z.quot (size + 511 - 2 ^ 32) 512 = - (Z.quot (2 ^ 32 - 511 - size) 512)) as ->.
  { rewrite <-Z.quot_opp_l by lia. f_equal. lia. }
  rewrite Z.quot_div_nonneg by lia. assert (1 ≤ (2 ^ 32 - 511 - size) / 512 < 2 ^ 31) by (split; [apply Z.div_le_lower_bound; lia|apply Z.div_lt_upper_bound; lia]).
  unfold u32. rewrite <-(Z.mod_unique (- ((2 ^ 32 - 511 - size) / 512)) WORD (-1) (2 ^ 32 - (2 ^ 32 - 511 - size) / 512)); lia.
Qed.

Lemma create_too_big t f i rd a junk name size :
  core_ok t f i rd → bsize (dev t) ≤ 2 ^ 28 → INT_MAX - 511 < size ≤ INT_MAX →
  ∃ sec t1 t2,
    (o <-- free_map_allocate 1 ;;
     match o with
     | None => retS (false, 0)
     | Some sector =>
         ok <-- inode_create sector size ;;
         if negb ok then retS (false, sector)
         else ok <-- dir_add junk (Dir a 0) name sector ;; retS (ok, sector)
     end) t = Ok ((false, sec), t1) ∧
    (if negb (sec =? 0) then free_map_release sec 1 else retS tt) t1 = Ok (tt, t2) ∧
    core_ok t2 f i rd ∧ same_memory t t2 ∧ kept t t2 i rd ∧ entries (dev t2) rd = entries (dev t) rd ∧
    ∀ j, 0 ≤ j → bit_at (free_map t) j = true → bit_at (free_map t2) j = true.
Proof.
  intros Hc Hsm Hsz. destruct (alloc_sector_ok t f i rd Hc) as (o & t1 & Hal & Hc1 & Hm1 & Hsz1 & Hk1 & He1 & Ho).
  rewrite (bindS_Ok _ _ _ _ _ Hal). destruct o as [sec|].
  2: { exists 0, t1, t1. destruct Ho as [Hm _]. split_and!; try done; [intros k _ Hk _; auto|]. intros j Hj Hb. apply Hm; auto. }
  destruct Ho as [Hfit Hmark]. destruct (free_not_fixed _ _ _ _ _ Hc Hfit) as (Hsec & Hnf & Hsf).
  pose proof (too_many_sectors size Hsz) as Hbig. pose proof (co_fm _ _ _ _ Hc1) as Hfm1.
  destruct (free_map_allocate_ok t1 f i (bytes_to_sectors size) Hfm1 ltac:(lia)) as (o & t2 & Ha2 & Hfm2 & [E1 E2 E3 E4 E5] & Ho).
  destruct o as [st|]; [destruct Ho as ((H0 & Hle & _) & _); rewrite (fm_cnt _ _ _ Hfm1) in Hle; lia|]. destruct Ho as [Efm _].
  assert (inode_create sec size t1 = Ok (false, t2)) as Hcr.
  { unfold inode_create, INT_MAX in *. rewrite (proj2 (Z.leb_le _ _)) by lia. rewrite (bindS_Ok _ _ _ _ _ (eq_refl : assertS true t1 = _)).
    rewrite (bindS_Ok _ _ _ _ _ (malloc_ok t1 (fm_mem _ _ _ Hfm1))). cbn [negb]. by rewrite (bindS_Ok _ _ _ _ _ Ha2). }
  rewrite (bindS_Ok _ _ _ _ _ Hcr). cbn [negb]. destruct Hm1 as (M1 & M2 & M3 & M4).
  destruct (core_grow t t2 f i rd) as (Hc2 & He2 & Hkept); try done; [congruence|intros k Hb Hk; rewrite E5, Hk1; done|rewrite Efm; intros j Hj Hb; apply Hmark; auto|].
  destruct (cleanup_ok t t2 f i rd sec) as (t3 & Hr & Hc3 & Hm3 & Hk3 & He3 & Hb3); try done; [split_and!; congruence|rewrite Efm; apply Hmark; auto with lia|].
  exists sec, t2, t3. rewrite (proj2 (Z.eqb_neq sec 0)) by lia. split_and!; try done; [congruence|].
  intros j Hj Hb. apply Hb3; [done|]. rewrite Efm. split; [apply Hmark; auto|]. intros ->. congruence.
Qed.

(** Everything but the free map and the root directory stays in place, and the memory is as before. *)
Lemma state_kept s s' f i rd v D :
  state_ok s f i rd v D → fsys_ok s' f i rd → inodes s' = inodes s → open_inodes s' = open_inodes s → bsize (dev s') = bsize (dev s) →
  kept s s' i rd → entries (dev s') rd = entries (dev s) rd → (∀ j, 0 ≤ j → bit_at (free_map s) j = true → bit_at (free_map s') j = true) →
  state_ok s' f i rd v D.
Proof.
  intros [Hdk Hme Hti] Hok Ei Eo Es Hk He Hb. split; [|destruct Hme as [H1 _ H3 H4 H5]; split; rewrite ?Ei, ?Eo; try done; rewrite <-Ei; apply Hok|done].
  pose proof (dk_apart _ _ _ _ _ _ Hdk) as [Hz1 Hz2]. apply (disk_frame s); try done; [apply Hok|by rewrite He| |].
  { apply Hk; try done. apply (co_used _ _ _ _ (dk_core _ _ _ _ _ _ Hdk) 0%nat). by left. }
  intros sec d k Hd Ho. destruct (disk_file _ _ _ _ _ _ _ _ Hdk Hd) as (l & _ & Hf).
  destruct (fk_used _ _ _ _ _ _ Hf k Ho) as [Hu Hn]. split; [|apply Hb; [lia|done]]. apply Hk; [done|intros Hin; apply Hn; by do 3 right|intros Hin; apply Hn; by do 2 right; left].
Qed.

(** A sector that was free belongs to no file. *)
Lemma free_not_owned s f i rd v D sec d k :
  disk_ok s f i rd v D → D !! sec = Some d → owns sec d k → bit_at (free_map s) (Z.of_nat k) = false → False.
Proof.
  intros Hdk Hd Ho Hb. destruct (disk_file _ _ _ _ _ _ _ _ Hdk Hd) as (l & _ & Hf). destruct (fk_used _ _ _ _ _ _ Hf k Ho). congruence.
Qed.

Lemma named_add v name sec size x : names v !! name = None → named (add_file v name sec size) x ↔ named v x ∨ x = sec.
Proof.
  intros Hn. rewrite !named_iff. cbn [names add_file]. split.
  - intros [n Hx]. apply lookup_insert_Some in Hx as [[_ <-]|[_ Hx]]; eauto.
  - intros [[n Hx]| ->]; [|exists name; apply lookup_insert_eq]. exists n. rewrite lookup_insert_ne; [done|]. congruence.
Qed.

(** The file that has been made. *)
Lemma new_file_ok s s' f i rd sec st size :
  core_ok s f i rd → bsize (dev s') = bsize (dev s) → room (free_map s) sec st ((size + 511) / 512) → 0 ≤ size ≤ INT_MAX - 511 →
  marks (free_map s) (free_map s') (λ j, j = sec ∨ st ≤ j < st + (size + 511) / 512) → file_made s' sec st size →
  file_ok s' i rd sec (InodeDisk st size INODE_MAGIC) (replicate (Z.to_nat size) 0).
Proof.
  intros Hc Hsz (Hsec & Hst & Hap) Hsize Hm [Hino Hzero]. destruct (free_not_fixed _ _ _ _ _ Hc Hsec) as (Hs0 & Hnf & _).
  pose proof Hst as (Hst0 & Hstn & Hfree). pose proof (co_fm _ _ _ _ Hc) as Hfm. rewrite (fm_cnt _ _ _ Hfm) in Hstn. pose proof (dev_size _ (fm_dev _ _ _ Hfm)).
  assert (0 ≤ (size + 511) / 512) by (apply Z.div_pos; lia). split; cbn [start ilength]; try lia.
  - eexists. split; [exact Hino|]. apply decode_encode_inode; cbn [start ilength imagic]; unfold is_u32, is_s32, INT_MAX, INODE_MAGIC in *; lia.
  - split; cbn [start ilength]; unfold INT_MAX in *; lia.
  - split; [symmetry; by apply zero_file_bytes with (len := size); [|lia|]|]. by apply Forall_replicate.
  - intros k [->|Hk].
    + split; [|done]. rewrite Z2Nat.id by lia. apply Hm; [lia|by right; left].
    + change (st ≤ Z.of_nat k < st + (size + 511) / 512) in Hk. split; [apply Hm; [lia|by right; right]|]. intros Hu. apply (co_used _ _ _ _ Hc) in Hu. by rewrite Hfree in Hu.
  - unfold in_file. cbn [start ilength]. rewrite Z2Nat.id by lia. done.
Qed.

Lemma state_add s s' f i rd v D name sec st size :
  state_ok s f i rd v D → fsys_ok s' f i rd → inodes s' = inodes s → open_inodes s' = open_inodes s → bsize (dev s') = bsize (dev s) →
  kept s s' i rd → names v !! name = None → room (free_map s) sec st ((size + 511) / 512) → 0 ≤ size ≤ INT_MAX - 511 →
  marks (free_map s) (free_map s') (λ j, j = sec ∨ st ≤ j < st + (size + 511) / 512) → file_made s' sec st size →
  dir_map (entries (dev s') rd) = <[name := sec]> (names v) →
  D !! sec = None ∧ state_ok s' f i rd (add_file v name sec size) (<[sec := InodeDisk st size INODE_MAGIC]> D).
Proof.
  intros [Hdk Hme Hti] Hok Ei Eo Es Hk Hnew Hroom Hsize Hm Hmade Hnames. pose proof Hdk as [Hc Hsm Hz [Hz1 Hz2] Hnm Hinj Hlv Hdom Hfile Hdj].
  pose proof (new_file_ok s s' f i rd sec st size Hc Es Hroom Hsize Hm Hmade) as Hf'. set (d := InodeDisk st size INODE_MAGIC) in *.
  assert (0 ≤ sec) as Hsec0 by apply Hf'.
  assert (∀ k, owns sec d k → bit_at (free_map s) (Z.of_nat k) = false) as Hfree.
  { destruct Hroom as ((_ & _ & H1) & (_ & _ & H2) & _). intros k [->|Hin]; [rewrite Z2Nat.id by done; apply H1; lia|by apply H2]. }
  assert (D !! sec = None) as HD.
  { destruct (D !! sec) as [dx|] eqn:E; [|done]. destruct (free_not_owned _ _ _ _ _ _ _ _ (Z.to_nat sec) Hdk E); [by left|]. apply Hfree. by left. }
  assert (¬ named v sec) as Hnn by (intros Hn; destruct (Hlv sec) as [? ?]; [by left|congruence]). split; [done|]. split.
  - split; try done; [apply Hok|by rewrite Es|rewrite Hk; try done; apply (co_used _ _ _ _ Hc 0%nat); by left| | | | |].
    + intros n n' x Hx Hx'. cbn [names add_file] in Hx, Hx'. apply lookup_insert_Some in Hx as [[<- Ex]|[? Hx]]; apply lookup_insert_Some in Hx' as [[<- Ex']|[? Hx']]; simplify_eq; try done; [..|by eapply Hinj];
        destruct Hnn; apply named_iff; eauto.
    + intros x [Hx|Hx]; apply lookup_insert_is_Some'; [|right; apply Hlv; by right]. apply named_add in Hx as [Hx| ->]; [|by left|done]. right. apply Hlv. by left.
    + intros x. cbn [contents add_file]. by rewrite !lookup_insert_None, Hdom.
    + intros x dx lx Hx Hlx. cbn [contents add_file] in Hlx. apply lookup_insert_Some in Hx as [[<- <-]|[Hne Hx]].
      { rewrite lookup_insert_eq in Hlx. by injection Hlx as <-. }
      rewrite lookup_insert_ne in Hlx by done. pose proof (Hfile _ _ _ Hx Hlx) as Hf. apply (file_ok_frame s); try done. intros k Ho. destruct (fk_used _ _ _ _ _ _ Hf k Ho) as [Hu Hn]. split.
      * apply Hk; [done|intros Hin; apply Hn; by do 3 right|intros Hin; apply Hn; by do 2 right; left].
      * apply Hm; [lia|by left].
    + intros x y dx dy k Hx Hy Hox Hoy. apply lookup_insert_Some in Hx as [[<- <-]|[Hne Hx]]; apply lookup_insert_Some in Hy as [[<- <-]|[Hne' Hy]]; try done; [..|by eapply Hdj];
        (exfalso; eapply (free_not_owned s); [exact Hdk| | |by apply Hfree]; done).
  - destruct Hme as [H1 _ H3 H4 H5]. split; rewrite ?Ei, ?Eo; try done; [rewrite <-Ei; apply Hok|].
    intros a x n Hop. destruct (H4 _ _ _ Hop) as (A1 & A2 & A3 & A4 & dx & Hdx & Hj). split_and!; try done; try apply A4. assert (x ≠ sec) as Hxs by congruence.
    exists dx. rewrite lookup_insert_ne by done. split; [done|]. rewrite (nameless_ext v); [done|]. rewrite named_add by done. split; [|auto]. by intros [?| ->].
  - intros x [lx Hx]. cbn [contents add_file] in Hx. apply lookup_insert_Some in Hx as [[<- _]|[_ Hx]]; [left; apply named_add; auto|].
    destruct (Hti x) as [Hn|Hn]; [by eexists|left; apply named_add; auto|by right].
Qed.

Lemma vol_create junk s v name size :
  length junk = 20%nat → volume_ok s v → 0 ∉ name → 0 ≤ size ≤ INT_MAX →
  ∃ r s', filesys_create junk name size s = Ok (r, s') ∧
    if r : bool then names v !! name = None ∧ ∃ sec, contents v !! sec = None ∧ volume_ok s' (add_file v name sec size)
    else volume_ok s' v.
Proof.
  intros Hjunk (f & i & rd & D & Hst) H0 Hsize. pose proof (state_fsys _ _ _ _ _ _ Hst) as Hok. pose proof (so_disk _ _ _ _ _ _ Hst) as Hdk.
  destruct (decide (size ≤ INT_MAX - 511)) as [Hle|Hgt].
  - destruct (filesys_create_ok s f i rd junk name size Hok H0 Hjunk (conj (proj1 Hsize) Hle)) as (r & s' & E & Hok' & Ei & Eo & Es & Hk & Hout).
    exists r, s'. split; [done|]. assert (∀ j, 0 ≤ j → bit_at (free_map s) j = true → bit_at (free_map s') j = true) as Hb by (intros j; by eapply outcome_monotone).
    destruct r.
    + destruct Hout as (Hnew & sec & st & Hroom & Hm & Hmade & Hnm). rewrite (dk_names _ _ _ _ _ _ Hdk) in Hnew, Hnm.
      destruct (state_add s s' f i rd v D name sec st size Hst Hok' Ei Eo Es Hk Hnew Hroom (conj (proj1 Hsize) Hle) Hm Hmade Hnm) as [HD Hst']. split; [done|]. exists sec. split; [by apply (dk_dom _ _ _ _ _ _ Hdk)|]. by do 4 eexists.
    + destruct Hout as [He _]. exists f, i, rd, D. exact (state_kept s s' f i rd v D Hst Hok' Ei Eo Es Hk He Hb).
  - exists false. destruct (create_too_big (with_root s rd) f i rd (next_addr s) junk name size) as (sec & t1 & t2 & E1 & E2 & Hc2 & (M1 & M2 & M3 & M4) & Hk & He & Hb);
      [by apply core_with_root|apply Hdk|lia|].
    unfold filesys_create. rewrite (bindS_Ok _ _ _ _ _ (dir_open_root_ok _ _ _ _ Hok)). rewrite (bindS_Ok _ _ _ _ _ E1). cbn [negb andb].
    rewrite (bindS_Ok _ _ _ _ _ E2). rewrite (bindS_Ok _ _ _ _ _ (dir_close_root_ok s t2 f i rd Hok M1 M2)).
    eexists. split; [done|]. exists f, i, rd, D. apply (state_kept s); try done. destruct Hok as [Hc0 [Ha0 Ha] Ho]. split.
    + apply (core_ok_memory t2); try done. apply (co_fm _ _ _ _ Hc0).
    + simpl. rewrite M3. simpl. split; [lia|]. intros a Hle. apply Ha. lia.
    + simpl. intros a (j & Hj' & Hne & Hs0 & Hbj)%Ho. exists j. split_and!; try done. by apply Hb.
Qed.

End creating.

(** ** Removing *)

Section removing.
Implicit Types (s t : fs) (f : file) (i : inode) (rd d : inode_disk) (v : volume) (D : gmap Z inode_disk).

Definition without_name v (name : list Z) : volume := Volume (delete name (names v)) (contents v) (openers v).

Lemma named_without v name sec x :
  (∀ n n' y, names v !! n = Some y → names v !! n' = Some y → n = n') → names v !! name = Some sec →
  named (without_name v name) x ↔ named v x ∧ x ≠ sec.
Proof.
  intros Hinj Hn. rewrite !named_iff. cbn [names without_name]. split.
  - intros [n [Hne Hx]%lookup_delete_Some]. split; [eauto|]. intros ->. apply Hne. by eapply Hinj.
  - intros [[n Hx] Hne]. exists n. rewrite lookup_delete_ne; [done|]. intros ->. congruence.
Qed.

Lemma mem_again s s' f i v v' D D' :
  mem_ok s f i v D → openers v' = openers v → open_inodes s' = open_inodes s → 0 < next_addr s' →
  (∀ a, next_addr s' ≤ a → inodes s' !! a = None) →
  (∀ a x n, openers v !! a = Some (x, n) → ∃ d, D' !! x = Some d ∧ inodes s' !! a = Some (Inode x n (nameless v' x) 0 d)) →
  mem_ok s' f i v' D'.
Proof.
  intros [H1 _ H3 H4 H5] Eop Eo Hp Ha Hat. split; rewrite ?Eop, ?Eo; try done. intros a x n Hop. destruct (H4 _ _ _ Hop) as (A1 & A2 & A3 & [A4 A5] & _). split_and!; auto.
Qed.

(** The entry of a name is cleared. *)
Lemma disk_clear s s' f i rd v D name :
  disk_ok s f i rd v D → core_ok s' f i rd → free_map s' = free_map s → bsize (dev s') = bsize (dev s) →
  (∀ k, ¬ in_file rd k → sectors (dev s') !! k = sectors (dev s) !! k) →
  dir_map (entries (dev s') rd) = delete name (dir_map (entries (dev s) rd)) → disk_ok s' f i rd (without_name v name) D.
Proof.
  intros Hdk Hc Ef Es Hk He. pose proof Hdk as [_ Hsm Hz Hzf Hnm Hinj Hlv Hdom Hfile Hdj]. split; try done.
  - by rewrite Es.
  - rewrite Hk; [done|apply Hzf].
  - rewrite He, Hnm. done.
  - intros n n' x [_ Hx]%(lookup_delete_Some (names v)) [_ Hx']%(lookup_delete_Some (names v)). by eapply Hinj.
  - intros x [(n & [_ Hx]%(lookup_delete_Some (names v)))%named_iff|Hx]; apply Hlv; [left; apply named_iff; eauto|by right].
  - intros x dx lx Hx Hlx. pose proof (Hfile _ _ _ Hx Hlx) as Hf. apply (file_ok_frame s); try done. intros k Ho. destruct (fk_used _ _ _ _ _ _ Hf k Ho) as [Hu Hn].
    rewrite Ef. split; [|done]. apply Hk. intros Hin. apply Hn. by do 2 right; left.
Qed.

(** [filesys_remove] once the name has been found and the inode opened. *)
Lemma remove_steps junk s f i rd name e ofs a t1 :
  length junk = 20%nat → fsys_ok s f i rd → 0 ∉ name → find_name name (entries (dev s) rd) 0 = Some (e, ofs) → a ≠ NULL → a ≠ next_addr s →
  inode_open (inode_sector e) (with_root s rd) = Ok (a, t1) → core_ok t1 f i rd → dev t1 = dev s →
  inodes t1 !! next_addr s = Some (Inode ROOT_DIR_SECTOR 1 false 0 rd) →
  ∃ b', core_ok (set_dev t1 b') f i rd ∧ bsize b' = bsize (dev s) ∧ (∀ k, ¬ in_file rd k → sectors b' !! k = sectors (dev s) !! k) ∧
    dir_map (entries b' rd) = delete name (dir_map (entries (dev s) rd)) ∧
    ∀ t3, (inode_remove a ;;; inode_close a ;;; retS true) (set_dev t1 b') = Ok (true, t3) →
     inodes t3 !! next_addr s = Some (Inode ROOT_DIR_SECTOR 1 false 0 rd) →
     filesys_remove junk name s = Ok (true, without_root s t3).
Proof.
  intros Hjunk Hok H0 Ef Hnz Hne Hio Hc1 Ed Hr. pose proof Hok as [_ [Hp _] _]. set (root := Inode ROOT_DIR_SECTOR 1 false 0 rd) in *.
  pose proof (core_dir_file _ _ _ _ _ _ Hc1 Hr eq_refl) as Hdf. rewrite <-Ed in Ef |- *. pose proof Hc1 as [Hfm Hroot Hio1 [Hl1 Hl2] Hwf Hused Hsep Hone].
  destruct (clear_entry_ok t1 (next_addr s) root name e ofs Hdf eq_refl Hwf Ef) as (b' & Ew & Hd' & Hs' & Hk' & Hm' & Hwf'). cbn [data root] in Hk', Hm', Hwf'.
  exists b'. split_and!; try done.
  - apply (core_step t1); try done; [|by apply Hk', Hone]. apply fm_ok_frame; try done. intros k Hk. apply Hk'. intros Hin. by apply (Hsep k).
  - intros t3 E3 Hr3. unfold filesys_remove. rewrite (bindS_Ok _ _ _ _ _ (dir_open_root_ok _ _ _ _ Hok)).
    assert (dir_remove junk (Dir (next_addr s) 0) name (with_root s rd) = Ok (true, t3)) as E.
    { unfold dir_remove. rewrite (bindS_Ok _ _ _ _ _ (root_lookup junk s f i rd name Hjunk Hok H0)). rewrite <-Ed, Ef.
      rewrite (bindS_Ok _ _ _ _ _ Hio). rewrite (proj2 (Z.eqb_neq _ _)) by done. by rewrite (bindS_Ok _ _ _ _ _ Ew). }
    rewrite (bindS_Ok _ _ _ _ _ E). by rewrite (bindS_Ok _ _ _ _ _ (inode_close_last t3 (next_addr s) root ltac:(lia) Hr3 eq_refl eq_refl)).
Qed.

(** Someone has the file open. *)
Lemma remove_open junk s f i rd v D name e ofs a n d :
  length junk = 20%nat → state_ok s f i rd v D → 0 ∉ name → find_name name (entries (dev s) rd) 0 = Some (e, ofs) →
  names v !! name = Some (inode_sector e) → D !! inode_sector e = Some d → openers v !! a = Some (inode_sector e, n) → n < INT_MAX →
  inode_open (inode_sector e) (with_root s rd) = Ok (a, set_inodes (with_root s rd) (<[a := Inode (inode_sector e) (s32 (n + 1)) (nameless v (inode_sector e)) 0 d]> (inodes (with_root s rd)))) →
  ∃ s', filesys_remove junk name s = Ok (true, s') ∧ volume_ok s' (remove_name v name).
Proof.
  intros Hjunk Hst H0 Ef Hname Hd Hop Hmax Hio. pose proof Hst as [Hdk Hme Hti]. pose proof (state_fsys _ _ _ _ _ _ Hst) as Hok. set (sec := inode_sector e) in *.
  destruct (me_at _ _ _ _ _ Hme _ _ _ Hop) as (Hain & Hnz & Hnf & Hn & d' & Hd' & Hj). rewrite Hd in Hd'. injection Hd' as <-. pose proof (me_addr _ _ _ _ _ Hme) as [Hp Ha].
  assert (a ≠ next_addr s) as Hne by (intros ->; rewrite Ha in Hj; [done|lia]). pose proof (core_with_root _ _ _ _ Hok) as Hcr.
  rewrite s32_small in Hio by (unfold is_s32, INT_MAX in *; lia). set (t1 := set_inodes _ _) in Hio.
  assert (inodes t1 = <[a := Inode sec (n + 1) (nameless v sec) 0 d]> (<[next_addr s := Inode ROOT_DIR_SECTOR 1 false 0 rd]> (inodes s))) as Et1 by done.
  destruct (remove_steps junk s f i rd name e ofs a t1) as (b' & Hc2 & Hs2 & Hk2 & Hm2 & Hrest); try done.
  { apply (core_ok_memory (with_root s rd)); try done. rewrite Et1, lookup_insert_ne by done. apply (fm_inode _ _ _ (co_fm _ _ _ _ Hcr)). }
  { rewrite Et1, lookup_insert_ne, lookup_insert_eq by done. done. }
  pose proof (remove_close_ok (set_dev t1 b') a (Inode sec (n + 1) (nameless v sec) 0 d) Hnz) as Hrc. cbn [open_cnt isector removed deny_write_cnt data inodes set_dev] in Hrc.
  specialize (Hrc ltac:(rewrite Et1; apply lookup_insert_eq) ltac:(lia) ltac:(unfold is_s32, INT_MAX in *; lia)). rewrite s32_small in Hrc by (unfold is_s32, INT_MAX in *; lia).
  replace (n + 1 - 1) with n in Hrc by lia. set (t3 := set_inodes _ _) in Hrc. assert (inodes t3 = <[a := Inode sec n true 0 d]> (inodes t1)) as Et3 by done.
  specialize (Hrest t3 Hrc). rewrite Et3, Et1, insert_insert_eq, lookup_insert_ne, lookup_insert_eq in Hrest by done. eexists. split; [by apply Hrest|]. clear Hrest Hrc.
  exists f, i, rd, D. set (s' := without_root s t3). assert (inodes s' = <[a := Inode sec n true 0 d]> (inodes s)) as Es'.
  { unfold s', without_root. cbn [inodes set_inodes]. rewrite Et3, Et1, insert_insert_eq, delete_insert_ne, delete_insert_id; [done|apply Ha; lia|done]. }
  assert (disk_ok s' f i rd (without_name v name) D) as Hdk'.
  { apply (disk_clear s); try done. apply (core_ok_memory (set_dev t1 b')); try done. rewrite Es', lookup_insert_ne by done. apply (fm_inode _ _ _ (co_fm _ _ _ _ (dk_core _ _ _ _ _ _ Hdk))). }
  pose proof (named_without v name sec) as Hnw. assert (tidy (without_name v name)) as Hti'.
  { intros x [lx Hx]. destruct (decide (x = sec)) as [->|Hxs]; [right; apply is_open_iff; exists a, n; done|]. destruct (Hti x) as [Hx'|Hx']; [by eexists| |by right].
    left. apply Hnw; try done. apply Hdk. }
  unfold remove_name. fold (without_name v name). rewrite collect_id by done. split; try done.
  apply (mem_again s _ _ _ v _ D); try done.
  - unfold s', without_root. cbn [open_inodes set_inodes set_open]. change (open_inodes t3) with (next_addr s :: open_inodes s). rewrite filter_cons_False by tauto. by apply (next_addr_not_open s f i rd).
  - change (0 < next_addr s + 1). lia.
  - change (next_addr s') with (next_addr s + 1). intros b Hb. rewrite Es', lookup_insert_ne; [apply Ha; lia|]. intros <-. rewrite Ha in Hj; [done|lia].
  - intros b x m Hb. destruct (me_at _ _ _ _ _ Hme _ _ _ Hb) as (_ & _ & _ & _ & dx & Hdx & Hjx). exists dx. split; [done|]. rewrite Es'. destruct (decide (a = b)) as [<-|Hab].
    + rewrite lookup_insert_eq. rewrite Hop in Hb. injection Hb as <- <-. rewrite Hd in Hdx. injection Hdx as <-. do 2 f_equal. symmetry. apply negb_true_iff, bool_decide_eq_false.
      intros Hx%Hnw; [tauto|apply Hdk|done].
    + rewrite lookup_insert_ne by done. rewrite (nameless_ext v); [done|]. rewrite Hnw by (done || apply Hdk). split; [tauto|]. intros ?. split; [done|]. intros ->. apply Hab. by eapply me_inj.
Qed.

(** No one has it open: its sectors are given back. *)
Lemma remove_last junk s f i rd v D name e ofs d :
  length junk = 20%nat → state_ok s f i rd v D → 0 ∉ name → find_name name (entries (dev s) rd) 0 = Some (e, ofs) →
  names v !! name = Some (inode_sector e) → D !! inode_sector e = Some d → ¬ is_open v (inode_sector e) →
  inode_open (inode_sector e) (with_root s rd) = Ok (next_addr s + 1, opened (with_root s rd) (inode_sector e) d) →
  ∃ s', filesys_remove junk name s = Ok (true, s') ∧ volume_ok s' (remove_name v name).
Proof.
  intros Hjunk Hst H0 Ef Hname Hd Hno Hio. pose proof Hst as [Hdk Hme Hti]. pose proof (state_fsys _ _ _ _ _ _ Hst) as Hok. set (sec := inode_sector e) in *.
  pose proof (me_addr _ _ _ _ _ Hme) as [Hp Ha]. set (a := next_addr s + 1) in *. set (root := Inode ROOT_DIR_SECTOR 1 false 0 rd). set (t1 := opened _ _ _) in Hio.
  assert (inodes t1 = <[a := Inode sec 1 false 0 d]> (<[next_addr s := root]> (inodes s))) as Et1 by done. pose proof (core_with_root _ _ _ _ Hok) as Hcr.
  assert (∀ j, <[next_addr s := root]> (inodes s) !! finode f = Some i → <[a := j]> (<[next_addr s := root]> (inodes s)) !! finode f = Some i ∧ a ≠ finode f) as Hfi.
  { intros j Hi. rewrite lookup_insert_ne; [split; [done|]|]; intros E; rewrite <-E, lookup_insert_ne, Ha in Hi; try done; unfold a; lia. }
  specialize (Hfi (Inode sec 1 true 0 d) (fm_inode _ _ _ (co_fm _ _ _ _ Hcr))) as [Hfi Hnf].
  destruct (remove_steps junk s f i rd name e ofs a t1) as (b' & Hc2 & Hs2 & Hk2 & Hm2 & Hrest); try done; try (unfold a; lia).
  { apply (core_ok_memory (with_root s rd)); try done. rewrite Et1, lookup_insert_ne by done. apply (fm_inode _ _ _ (co_fm _ _ _ _ Hcr)). }
  { rewrite Et1, lookup_insert_ne, lookup_insert_eq by (unfold a; lia). done. }
  set (t2 := set_inodes (set_dev t1 b') (<[a := Inode sec 1 true 0 d]> (inodes t1))).
  assert (inodes t2 = <[a := Inode sec 1 true 0 d]> (<[next_addr s := root]> (inodes s))) as Et2.
  { unfold t2. cbn [inodes set_inodes]. by rewrite Et1, insert_insert_eq. }
  assert (inodes t2 !! finode f = Some i) as Hi2 by by rewrite Et2.
  assert (core_ok t2 f i rd) as Hct2 by by apply (core_ok_memory (set_dev t1 b')).
  assert (disk_ok t2 f i rd (without_name v name) D) as Hdk2 by by apply (disk_clear s).
  destruct (disk_file _ _ _ _ _ _ _ _ Hdk2 Hd) as (l & Hl & Hf).
  destruct (inode_close_dead t2 f i rd a sec d l Hct2 Hf ltac:(unfold a; lia) Hnf) as (t3 & E3 & Hc3 & [(I1 & I2 & I3 & I4) Hb3 He3 Hk3]); [rewrite Et2; apply lookup_insert_eq|].
  assert (inodes t3 = <[next_addr s := root]> (inodes s)) as Et3.
  { rewrite I1, Et2, delete_insert_id; [done|]. rewrite lookup_insert_ne by (unfold a; lia). apply Ha. unfold a. lia. }
  specialize (Hrest t3). rewrite Et3, lookup_insert_eq in Hrest. eexists. split; [apply Hrest; [|done]|].
  { assert (inode_remove a (set_dev t1 b') = Ok (tt, t2)) as Erm; [|by rewrite (bindS_Ok _ _ _ _ _ Erm), (bindS_Ok _ _ _ _ _ E3)].
    assert (get_inode a (set_dev t1 b') = Ok (Inode sec 1 false 0 d, set_dev t1 b')) as Eg by (apply get_inode_ok; cbn [inodes set_dev]; rewrite Et1; apply lookup_insert_eq).
    unfold inode_remove. rewrite (proj2 (Z.eqb_neq a 0)) by (unfold a; lia). rewrite (bindS_Ok _ _ _ _ _ (eq_refl : assertS true (set_dev t1 b') = _)). by rewrite (bindS_Ok _ _ _ _ _ Eg). }
  clear Hrest. exists f, i, rd, (delete sec D). set (s' := without_root s t3). assert (inodes s' = inodes s) as Es'.
  { unfold s', without_root. cbn [inodes set_inodes]. rewrite Et3, delete_insert_id; [done|]. apply Ha. lia. }
  pose proof (named_without v name sec) as Hnw. split; [| |apply tidy_collect].
  - apply (disk_memory t3); try done; [|rewrite Es'; apply (fm_inode _ _ _ (co_fm _ _ _ _ (dk_core _ _ _ _ _ _ Hdk)))].
    apply (disk_drop t2 _ _ _ _ (without_name v name) D sec d); try done.
    + intros [Hx%Hnw|Hx]; [tauto|apply Hdk|done|done].
    + intros x Hx Hx'. destruct (Hti x Hx') as [?|?]; [|by right]. left. apply Hnw; try done. apply Hdk.
  - apply (mem_again s _ _ _ v _ D); try done.
    + unfold s', without_root. cbn [open_inodes set_inodes set_open]. rewrite I2. change (open_inodes t2) with (a :: next_addr s :: open_inodes s).
      pose proof (next_addr_not_open s f i rd Hok) as Hfo. rewrite filter_cons_False, filter_cons_True by (unfold a; first [lia|tauto]). rewrite filter_cons_False by tauto.
      rewrite (filter_all _ (open_inodes s)); [done|]. apply Forall_forall. intros b Hb ->. destruct (fo_open _ _ _ _ Hok _ Hb) as (j & Hj & _). rewrite Ha in Hj; [done|unfold a; lia].
    + change (next_addr s') with (next_addr t3). rewrite I3. change (next_addr t2) with (next_addr s + 1 + 1). lia.
    + change (next_addr s') with (next_addr t3). rewrite I3. change (next_addr t2) with (next_addr s + 1 + 1). intros b Hb. rewrite Es'. apply Ha. lia.
    + intros b x m Hb. assert (x ≠ sec) as Hxs by (intros ->; apply Hno, is_open_iff; eauto). destruct (me_at _ _ _ _ _ Hme _ _ _ Hb) as (_ & _ & _ & _ & dx & Hdx & Hjx).
      exists dx. rewrite lookup_delete_ne, Es' by done. split; [done|]. rewrite (nameless_ext v); [done|]. change (named (without_name v name) x ↔ named v x). rewrite Hnw by (done || apply Hdk). tauto.
Qed.

Lemma vol_remove junk s v name :
  length junk = 20%nat → volume_ok s v → 0 ∉ name → (∀ a, open_count v a < INT_MAX) →
  match names v !! name with
  | None => ∃ s', filesys_remove junk name s = Ok (false, s') ∧ volume_ok s' v
  | Some _ => ∃ s', filesys_remove junk name s = Ok (true, s') ∧ volume_ok s' (remove_name v name)
  end.
Proof.
  intros Hjunk (f & i & rd & D & Hst) H0 Hcnt. pose proof Hst as [Hdk Hme Hti]. pose proof (state_fsys _ _ _ _ _ _ Hst) as Hok.
  pose proof (find_name_map name (entries (dev s) rd) 0) as Hmap. rewrite (dk_names _ _ _ _ _ _ Hdk) in Hmap. rewrite <-Hmap.
  destruct (find_name name (entries (dev s) rd) 0) as [[e ofs]|] eqn:Ef; cbn [fmap option_fmap option_map compose fst] in Hmap |- *; symmetry in Hmap.
  - destruct (dk_live _ _ _ _ _ _ Hdk (inode_sector e)) as [d Hd]; [left; apply named_iff; eauto|].
    destruct (open_sector s f i rd v D (inode_sector e) d Hst Hd) as [(a & n & Hop & _ & _ & E)|(_ & _ & Hno & E)].
    + eapply remove_open; try done. specialize (Hcnt a). unfold open_count in Hcnt. by rewrite Hop in Hcnt.
    + by eapply remove_last.
  - unfold filesys_remove. rewrite (bindS_Ok _ _ _ _ _ (dir_open_root_ok _ _ _ _ Hok)).
    assert (dir_remove junk (Dir (next_addr s) 0) name (with_root s rd) = Ok (false, with_root s rd)) as E.
    { unfold dir_remove. by rewrite (bindS_Ok _ _ _ _ _ (root_lookup junk s f i rd name Hjunk Hok H0)), Ef. }
    rewrite (bindS_Ok _ _ _ _ _ E). pose proof (dir_close_root_ok s (with_root s rd) f i rd Hok eq_refl eq_refl) as Ec. rewrite (bindS_Ok _ _ _ _ _ Ec).
    eexists. split; [done|]. exists f, i, rd, D. exact (state_addr s f i rd v D (next_addr s + 1) Hst ltac:(lia)).
Qed.

End removing.

(** ** Open files *)

(** How many of the files in a table have their inode at [a]. *)
Definition count (T : gmap Z file) (a : Z) : Z := Z.of_nat (size (filter (λ p, finode p.2 = a) T)).

Definition sector_of (v : volume) (a : Z) : Z := from_option fst 0 (openers v !! a).

Record table_ok (v : volume) (T : gmap Z file) (fds : gmap Z (Z * Z)) : Prop := {
  tk_count : ∀ a, open_count v a = count T a;
  tk_fds : ∀ h, fds !! h = (λ f, (sector_of v (finode f), fpos f)) <$> T !! h;
  tk_file : ∀ h f, T !! h = Some f → deny_write f = false ∧ 0 ≤ fpos f ≤ INT_MAX;
}.

#[export] Instance fs_world : FileWorld fs := λ s T w, ∃ ops, let v := Volume (w_names w) (w_contents w) ops in
  volume_ok s v ∧ table_ok v T (w_fds w).

Section table.
Implicit Types (s : fs) (v : volume) (T : gmap Z file) (f : file) (w : world).

Lemma count_insert T h f a : T !! h = None → count (<[h := f]> T) a = count T a + if decide (finode f = a) then 1 else 0.
Proof.
  intros Hh. unfold count. rewrite map_filter_insert. cbn [snd]. case_decide.
  - rewrite map_size_insert_None by (apply map_lookup_filter_None; by left). lia.
  - rewrite delete_id by done. lia.
Qed.

Lemma count_delete T h f a : T !! h = Some f → count (delete h T) a = count T a - if decide (finode f = a) then 1 else 0.
Proof.
  intros Hh. pose proof (count_insert (delete h T) h f a (lookup_delete_eq T h)) as Hc. rewrite insert_delete_eq, insert_id in Hc by done. lia.
Qed.

Lemma count_update T h f f' a : T !! h = Some f → finode f' = finode f → count (<[h := f']> T) a = count T a.
Proof.
  intros Hh Hf. rewrite <-insert_delete_eq, count_insert by apply lookup_delete_eq. rewrite (count_delete _ _ f) by done. rewrite Hf. lia.
Qed.

Lemma count_bound T a : 0 ≤ count T a ≤ Z.of_nat (size T).
Proof. unfold count. pose proof (map_size_filter (λ p, finode p.2 = a) T). lia. Qed.

Lemma count_pos T a : 0 < count T a ↔ ∃ h f, T !! h = Some f ∧ finode f = a.
Proof.
  unfold count. split.
  - intros Hc. destruct (map_choose (filter (λ p, finode p.2 = a) T)) as (h & f & [Hh Ha]%map_lookup_filter_Some); [|eauto].
    intros E. rewrite E, map_size_empty in Hc. lia.
  - intros (h & f & Hh & Ha). destruct (size (filter (λ p : Z * file, finode p.2 = a) T)) eqn:E; [|lia]. apply map_size_empty_inv in E.
    assert (filter (λ p : Z * file, finode p.2 = a) T !! h = Some f) as Hf by by apply map_lookup_filter_Some. by rewrite E in Hf.
Qed.

Lemma open_contents s v a sec n :
  volume_ok s v → openers v !! a = Some (sec, n) → 1 ≤ n ∧ ∃ l, contents v !! sec = Some l ∧ Z.of_nat (length l) ≤ INT_MAX ∧ Forall is_byte l.
Proof.
  intros (f & i & rd & D & Hst) Hop. destruct (me_at _ _ _ _ _ (so_mem _ _ _ _ _ _ Hst) _ _ _ Hop) as (_ & _ & _ & Hn & d & Hd & _). split; [lia|].
  destruct (disk_file _ _ _ _ _ _ _ _ (so_disk _ _ _ _ _ _ Hst) Hd) as (l & Hl & Hf). exists l. pose proof (file_ok_length _ _ _ _ _ _ Hf). split_and!; [done|lia|].
  by destruct (fk_bytes _ _ _ _ _ _ Hf).
Qed.

Lemma table_opener s v T fds h f :
  volume_ok s v → table_ok v T fds → T !! h = Some f → ∃ sec n, openers v !! finode f = Some (sec, n) ∧ fds !! h = Some (sec, fpos f).
Proof.
  intros Hv [Hc Hf _] Hh. assert (0 < open_count v (finode f)) as Hp by (rewrite Hc; apply count_pos; eauto).
  unfold open_count in Hp. destruct (openers v !! finode f) as [[sec n]|] eqn:E; [|simpl in Hp; lia]. exists sec, n. split; [done|].
  rewrite Hf, Hh. simpl. unfold sector_of. by rewrite E.
Qed.

Lemma open_table s v T fds sec : volume_ok s v → table_ok v T fds → is_open v sec ↔ ∃ h pos, fds !! h = Some (sec, pos).
Proof.
  intros Hv Hk. rewrite is_open_iff. split.
  - intros (a & n & Hop). destruct (open_contents _ _ _ _ _ Hv Hop) as [Hn _]. pose proof (tk_count _ _ _ Hk a) as Hc. unfold open_count in Hc. rewrite Hop in Hc. simpl in Hc.
    destruct (proj1 (count_pos T a)) as (h & f & Hh & <-); [lia|]. exists h, (fpos f). rewrite (tk_fds _ _ _ Hk), Hh. simpl. unfold sector_of. by rewrite Hop.
  - intros (h & pos & Hh). pose proof (tk_fds _ _ _ Hk h) as E. rewrite Hh in E. destruct (T !! h) as [f|] eqn:Hf; [|done].
    destruct (table_opener _ _ _ _ _ _ Hv Hk Hf) as (x & n & Hop & Hx). rewrite Hh in Hx. injection Hx as -> ->. eauto.
Qed.

Lemma live_world s v T fds sec : volume_ok s v → table_ok v T fds → live v sec ↔ w_live (World (names v) (contents v) fds) sec.
Proof.
  intros Hv Hk. rewrite w_live_open. unfold live. rewrite named_iff, (open_table s v T fds) by done. done.
Qed.

Lemma fs_world_intro s v T w : volume_ok s v → names v = w_names w → contents v = w_contents w → table_ok v T (w_fds w) → fsys_world s T w.
Proof. intros Hv En Ec Hk. destruct v as [nm ct op]. simpl in En, Ec. subst. exists op. by split. Qed.

Lemma table_same v v' T fds : openers v' = openers v → table_ok v T fds → table_ok v' T fds.
Proof. intros E [Hc Hf Hp]. split; try done; unfold open_count, sector_of in *; by rewrite E. Qed.

Lemma table_pos v T fds h f sec n p :
  table_ok v T fds → T !! h = Some f → openers v !! finode f = Some (sec, n) → 0 ≤ p ≤ INT_MAX → table_ok v (<[h := at_pos f p]> T) (<[h := (sec, p)]> fds).
Proof.
  intros [Hc Hf Hp] Hh Hop Hpos. split.
  - intros a. by rewrite (count_update _ _ f).
  - intros h'. destruct (decide (h = h')) as [<-|Hne]; [|by rewrite !lookup_insert_ne]. rewrite !lookup_insert_eq. simpl. unfold sector_of. by rewrite Hop.
  - intros h' f' Hf'. apply lookup_insert_Some in Hf' as [[<- <-]|[_ Hf']]; [|by eapply Hp]. split; [|done]. by destruct (Hp _ _ Hh).
Qed.

Lemma table_open v T fds h a sec :
  table_ok v T fds → T !! h = None → opens v a sec → table_ok (add_opener v a sec) (<[h := File a 0 false]> T) (<[h := (sec, 0)]> fds).
Proof.
  intros [Hc Hf Hp] Hh Ho. split.
  - intros b. rewrite count_insert, <-Hc by done. unfold open_count. cbn [openers add_opener finode]. case_decide as Hb.
    + subst b. by rewrite lookup_insert_eq.
    + rewrite lookup_insert_ne by done. lia.
  - intros h'. destruct (decide (h = h')) as [<-|Hne].
    + rewrite !lookup_insert_eq. simpl. unfold sector_of. cbn [openers add_opener]. by rewrite lookup_insert_eq.
    + rewrite !lookup_insert_ne, Hf by done. destruct (T !! h') as [f|] eqn:Hf'; [|done]. simpl. do 2 f_equal. unfold sector_of. cbn [openers add_opener].
      destruct (decide (a = finode f)) as [->|Ha]; [|by rewrite lookup_insert_ne]. rewrite lookup_insert_eq. simpl.
      assert (0 < open_count v (finode f)) as Hpos by (rewrite Hc; apply count_pos; eauto). unfold open_count in Hpos.
      destruct (openers v !! finode f) as [[x n]|] eqn:E; [|simpl in Hpos; lia]. simpl. by apply (Ho _ _ E).
  - intros h' f' Hf'. apply lookup_insert_Some in Hf' as [[<- <-]|[_ Hf']]; [|by eapply Hp]. split; [done|]. simpl. unfold INT_MAX. lia.
Qed.

Lemma open_count_drop v a b : open_count (drop_opener v a) b = open_count v b - if decide (b = a) then if decide (is_Some (openers v !! a)) then 1 else 0 else 0.
Proof.
  unfold open_count, drop_opener. cbn [openers collect]. case_decide as Hb.
  - subst b. rewrite lookup_partial_alter_eq. destruct (openers v !! a) as [[sec n]|] eqn:E.
    + rewrite decide_True by eauto. destruct (Z.eqb_spec n 1); simpl; lia.
    + rewrite decide_False by (by intros [? ?]). done.
  - rewrite lookup_partial_alter_ne by done. lia.
Qed.

Lemma table_close s v T fds h f :
  volume_ok s v → table_ok v T fds → T !! h = Some f → table_ok (drop_opener v (finode f)) (delete h T) (delete h fds).
Proof.
  intros Hv Hk Hh. destruct (table_opener _ _ _ _ _ _ Hv Hk Hh) as (sec & n & Hop & _). pose proof Hk as [Hc Hf Hp]. split.
  - intros a. rewrite open_count_drop, (count_delete _ _ f), Hc by done. rewrite Hop. repeat case_decide; subst; try done; try lia.
    all: exfalso; eauto.
  - intros h'. destruct (decide (h = h')) as [<-|Hne]; [by rewrite !lookup_delete_eq|]. rewrite !lookup_delete_ne, Hf by done.
    destruct (T !! h') as [f'|] eqn:Hf'; [|done]. simpl. do 2 f_equal. unfold sector_of, drop_opener. cbn [openers collect].
    destruct (decide (finode f' = finode f)) as [E|E]; [|by rewrite lookup_partial_alter_ne]. rewrite E, lookup_partial_alter_eq, Hop.
    destruct (Z.eqb_spec n 1) as [->|]; [|done]. exfalso. pose proof (Hc (finode f)) as Hc1. unfold open_count in Hc1. rewrite Hop in Hc1. simpl in Hc1.
    pose proof (count_delete T h f (finode f) Hh) as Hd. rewrite decide_True in Hd by done.
    assert (0 < count (delete h T) (finode f)); [|lia]. apply count_pos. exists h', f'. by rewrite lookup_delete_ne.
  - intros h' f' [_ Hf']%lookup_delete_Some. by eapply Hp.
Qed.

End table.

(** ** The interface of the file system *)

Section instance.
Context (junk : list Z) (Hjunk : length junk = 20%nat).
Implicit Types (s : fs) (v : volume) (T : gmap Z file) (f : file) (w : world).

#[export] Instance fs_sys : FileSys fs := {
  fsys_create := filesys_create junk;
  fsys_remove := filesys_remove junk;
  fsys_open := filesys_open junk;
  fsys_length := file_length;
  fsys_seek := file_seek;
  fsys_read := file_read;
  fsys_write := file_write;
  fsys_close := file_close;
}.

(** Collecting in the volume and in the world is the same. *)
Lemma fs_world_collect s v nm T fds :
  names v = nm → volume_ok s (collect v) → table_ok (collect v) T fds → fsys_world s T (w_collect (World nm (contents v) fds)).
Proof.
  intros <- Hv Hk. apply (fs_world_intro s (collect v)); try done. cbn [contents collect w_contents w_collect].
  apply map_filter_ext. intros sec l _. cbn [fst]. rewrite <-live_collect. apply (live_world s (collect v) T fds); done.
Qed.

Lemma fs_tidy s T w : fsys_world s T w → w_tidy w.
Proof.
  intros (ops & Hv & Hk) sec Hs. pose proof Hv as (f & i & rd & D & Hst). apply (live_world s _ T (w_fds w) sec Hv Hk). by apply (so_tidy _ _ _ _ _ _ Hst).
Qed.

Lemma fs_open_bound s v T fds a : volume_ok s v → table_ok v T fds → Z.of_nat (size T) < INT_MAX → open_count v a < INT_MAX.
Proof. intros _ Hk Hs. rewrite (tk_count _ _ _ Hk). pose proof (count_bound T a). lia. Qed.

Lemma fs_create_law s T w name n :
  fsys_world s T w → 0 ∉ name → 0 ≤ n ≤ INT_MAX →
  ∃ r s', filesys_create junk name n s = Ok (r, s') ∧
    if r : bool then w_names w !! name = None ∧ ∃ sec, w_contents w !! sec = None ∧ fsys_world s' T (w_create w name sec n) else fsys_world s' T w.
Proof using Hjunk.
  intros (ops & Hv & Hk) H0 Hn. destruct (vol_create junk s _ name n Hjunk Hv H0 Hn) as (r & s' & E & Hr). exists r, s'. split; [done|]. destruct r; [|by exists ops].
  destruct Hr as (Hnew & sec & Hsec & Hv'). split; [done|]. exists sec. split; [done|]. exists ops. split; [done|]. by eapply table_same; [|exact Hk].
Qed.

Lemma fs_remove_law s T w name :
  fsys_world s T w → 0 ∉ name → Z.of_nat (size T) < INT_MAX →
  ∃ r s', filesys_remove junk name s = Ok (r, s') ∧ (r = true ↔ is_Some (w_names w !! name)) ∧ fsys_world s' T (w_remove w name).
Proof using Hjunk.
  intros Hw H0 Hs. pose proof (fs_tidy _ _ _ Hw) as Ht. pose proof Hw as (ops & Hv & Hk). set (v := Volume _ _ ops) in *. pose proof (vol_remove junk s v name Hjunk Hv H0) as Hr.
  specialize (Hr (λ a, fs_open_bound s v T _ a Hv Hk Hs)). change (names v) with (w_names w) in Hr. destruct (w_names w !! name) as [sec|] eqn:En.
  - destruct Hr as (s' & E & Hv'). exists true, s'. split; [done|]. split; [by split; [eauto|]|].
    apply (fs_world_collect s' (without_name v name)); try done. by eapply table_same; [|exact Hk].
  - destruct Hr as (s' & E & Hv'). exists false, s'. split; [done|]. split; [split; [done|by intros [? ?]]|].
    unfold w_remove. rewrite delete_id by done. replace (World _ _ _) with w by by destruct w. rewrite w_collect_id by done. by exists ops.
Qed.

Lemma fs_open_law s T w name :
  fsys_world s T w → 0 ∉ name → Z.of_nat (size T) < INT_MAX →
  match w_names w !! name with
  | None => ∃ s', filesys_open junk name s = Ok (None, s') ∧ fsys_world s' T w
  | Some sec => ∃ f s', filesys_open junk name s = Ok (Some f, s') ∧ fpos f = 0 ∧ ∀ h, T !! h = None → fsys_world s' (<[h := f]> T) (w_open w h sec 0)
  end.
Proof using Hjunk.
  intros (ops & Hv & Hk) H0 Hs. set (v := Volume _ _ ops) in *. pose proof (vol_open junk s v name Hjunk Hv H0 (λ a, fs_open_bound s v T _ a Hv Hk Hs)) as Ho.
  change (names v) with (w_names w) in Ho. destruct (w_names w !! name) as [sec|].
  - destruct Ho as (a & s' & E & Hop & Hv'). eexists _, s'. split; [exact E|]. split; [done|]. intros h Hh. eexists. split; [exact Hv'|]. exact (table_open v T (w_fds w) h a sec Hk Hh Hop).
  - destruct Ho as (s' & E & Hv'). exists s'. split; [done|]. by exists ops.
Qed.

Lemma fs_close_law s T w h f : fsys_world s T w → T !! h = Some f → ∃ s', file_close f s = Ok (tt, s') ∧ fsys_world s' (delete h T) (w_close w h).
Proof.
  intros (ops & Hv & Hk) Hh. set (v := Volume _ _ ops) in *. destruct (table_opener _ _ _ _ _ _ Hv Hk Hh) as (sec & n & Hop & _). destruct (tk_file _ _ _ Hk _ _ Hh) as [Hd _].
  destruct f as [a p dn]. cbn [finode deny_write] in *. subst dn. destruct (vol_close s v a sec n p Hv Hop) as (s' & E & Hv'). exists s'. split; [done|].
  pose proof (table_close s v T (w_fds w) h _ Hv Hk Hh) as Hk'. cbn [finode] in Hk'. unfold drop_opener in Hv', Hk'. unfold w_close. by eapply fs_world_collect in Hv'.
Qed.

Lemma fs_laws : WorldLaws fs.
Proof using Hjunk.
  split.
  - apply fs_tidy.
  - intros s T w h f (ops & Hv & Hk) Hh. destruct (table_opener _ _ _ _ _ _ Hv Hk Hh) as (sec & n & _ & Hx). exists sec. split; [done|]. by eapply tk_file.
  - intros s T w h (ops & _ & Hk) Hh. by rewrite (tk_fds _ _ _ Hk), Hh.
  - intros s T w h sec pos (ops & Hv & Hk) Hh. destruct (proj2 (open_table _ _ _ _ sec Hv Hk)) as (a & [x n] & Hop & [= ->]); [eauto|]. by eapply open_contents in Hop as [_ ?].
  - apply fs_create_law.
  - apply fs_remove_law.
  - apply fs_open_law.
  - intros s f p. cbn [fsys_seek fs_sys]. unfold file_seek, assertS, bindS. by destruct (0 <=? p).
  - intros s T w h f sec p (ops & Hv & Hk) Hh Hfd Hp. exists ops. split; [done|]. destruct (table_opener _ _ _ _ _ _ Hv Hk Hh) as (x & n & Hop & Hx).
    rewrite Hfd in Hx. injection Hx as <-. by eapply table_pos.
  - intros s T w h f sec l (ops & Hv & Hk) Hh Hfd Hl. destruct (table_opener _ _ _ _ _ _ Hv Hk Hh) as (x & n & Hop & Hx). rewrite Hfd in Hx. injection Hx as <-.
    destruct f. by eapply vol_length.
  - intros s T w h f sec l buf n (ops & Hv & Hk) Hh Hfd Hl Hn Hb. destruct (table_opener _ _ _ _ _ _ Hv Hk Hh) as (x & m & Hop & Hx). rewrite Hfd in Hx. injection Hx as <-.
    destruct (tk_file _ _ _ Hk _ _ Hh) as [_ Hp]. destruct f as [a p dn]. by eapply vol_read.
  - intros s T w h f sec l buf n (ops & Hv & Hk) Hh Hfd Hl Hn Hb Hby. destruct (table_opener _ _ _ _ _ _ Hv Hk Hh) as (x & m & Hop & Hx). rewrite Hfd in Hx. injection Hx as <-.
    destruct (tk_file _ _ _ Hk _ _ Hh) as [_ Hp]. destruct f as [a p dn]. destruct (vol_write s _ a sec m l p dn buf n Hv Hop Hl Hp Hn Hb Hby) as (s' & E & Hv').
    exists s'. split; [exact E|]. exists ops. split; [exact Hv'|]. by eapply table_same; [|exact Hk].
  - apply fs_close_law.
Qed.

End instance.
