(* ===== verification/FileCalls.v ===== *)
(** Sequences of calls to the file system.

    A client makes calls and keeps the files it opens under handles of its choice. The
    specification is a relation on worlds; the theorem says that the file system of
    src/filesys answers every sequence of calls as the specification does, and never fails, as long as
    no allocation of memory does. *)

From S2P Require Import Prelude Bitmap BitmapScan Disk Inode FreeMap CString Directory Filesys Files Volume.

Inductive call :=
  | Create (name : list Z) (size : Z)
  | Remove (name : list Z)
  | Open (h : Z) (name : list Z)
  | Length (h : Z)
  | Seek (h pos : Z)
  | Read (h n : Z)
  | Write (h : Z) (bytes : list Z)
  | Close (h : Z).

Inductive reply := Answer (b : bool) | Number (n : Z) | Bytes (l : list Z) | BadHandle.

(** ** The specification *)

(** The number, the position and the contents of an open file. *)
Definition file_of (w : world) (h : Z) : option (Z * Z * list Z) :=
  match w_fds w !! h with
  | Some (sec, pos) => (λ l, (sec, pos, l)) <$> w_contents w !! sec
  | None => None
  end.

(** What a call answers, and the world after it. Only [Create] is not determined: it may find
    no room, and it chooses the number of the new file. *)
Definition spec (w : world) (c : call) (r : reply) (w' : world) : Prop :=
  match c with
  | Create name size =>
      (r = Answer true ∧ w_names w !! name = None ∧ ∃ sec, w_contents w !! sec = None ∧ w' = w_create w name sec size) ∨
      (r = Answer false ∧ w' = w)
  | Remove name => r = Answer (bool_decide (is_Some (w_names w !! name))) ∧ w' = w_remove w name
  | Open h name =>
      match w_fds w !! h, w_names w !! name with
      | None, Some sec => r = Answer true ∧ w' = w_open w h sec 0
      | None, None => r = Answer false ∧ w' = w
      | Some _, _ => r = BadHandle ∧ w' = w
      end
  | Length h => match file_of w h with Some (_, _, l) => r = Number (Z.of_nat (length l)) | None => r = BadHandle end ∧ w' = w
  | Seek h p => match file_of w h with Some (sec, _, _) => r = Number p ∧ w' = w_open w h sec p | None => r = BadHandle ∧ w' = w end
  | Read h n =>
      match file_of w h with
      | Some (sec, pos, l) =>
          let part := take (Z.to_nat n) (drop (Z.to_nat pos) l) in r = Bytes part ∧ w' = w_open w h sec (pos + Z.of_nat (length part))
      | None => r = BadHandle ∧ w' = w
      end
  | Write h bytes =>
      match file_of w h with
      | Some (sec, pos, l) =>
          let k := Z.max 0 (Z.min (Z.of_nat (length bytes)) (Z.of_nat (length l) - pos)) in
          r = Number k ∧ w' = w_open (w_write w sec (overwrite l (Z.to_nat pos) (take (Z.to_nat k) bytes))) h sec (pos + k)
      | None => r = BadHandle ∧ w' = w
      end
  | Close h => match file_of w h with Some _ => r = Answer true ∧ w' = w_close w h | None => r = BadHandle ∧ w' = w end
  end.

Fixpoint spec_calls (w : world) (cs : list call) (rs : list reply) (w' : world) : Prop :=
  match cs, rs with
  | [], [] => w' = w
  | c :: cs, r :: rs => ∃ w1, spec w c r w1 ∧ spec_calls w1 cs rs w'
  | _, _ => False
  end.

(** The arguments that make sense: names are strings of C, sizes and positions are those of
    type [off_t]. *)
Definition good_call (c : call) : Prop :=
  match c with
  | Create name size => 0 ∉ name ∧ 0 ≤ size ≤ INT_MAX
  | Remove name | Open _ name => 0 ∉ name
  | Length _ | Close _ => True
  | Seek _ p => 0 ≤ p ≤ INT_MAX
  | Read _ n => 0 ≤ n ≤ INT_MAX
  | Write _ bytes => Z.of_nat (length bytes) ≤ INT_MAX ∧ Forall is_byte bytes
  end.

(** ** The client *)

Section client.
Context {F : Type} `{!FileSys F}.

Definition on_file (h : Z) (k : file → ST F (reply * option file)) : ST (F * gmap Z file) reply := λ '(s, T),
  match T !! h with
  | None => Ok (BadHandle, (s, T))
  | Some f =>
      '((r, o), s) ← k f s;
      Ok (r, (s, match o with Some f => <[h := f]> T | None => delete h T end))
  end.

Definition run_call (c : call) : ST (F * gmap Z file) reply :=
  match c with
  | Create name size => λ '(s, T), '(b, s) ← fsys_create name size s; Ok (Answer b, (s, T))
  | Remove name => λ '(s, T), '(b, s) ← fsys_remove name s; Ok (Answer b, (s, T))
  | Open h name => λ '(s, T),
      match T !! h with
      | Some _ => Ok (BadHandle, (s, T))
      | None =>
          '(o, s) ← fsys_open name s;
          match o with
          | Some f => Ok (Answer true, (s, <[h := f]> T))
          | None => Ok (Answer false, (s, T))
          end
      end
  | Length h => on_file h (λ f, n <-- fsys_length f ;; retS (Number n, Some f))
  | Seek h p => on_file h (λ f, f <-- fsys_seek f p ;; retS (Number p, Some f))
  | Read h n => on_file h (λ f, '(k, buf, f) <-- fsys_read f (replicate (Z.to_nat n) 0) n ;; retS (Bytes (take (Z.to_nat k) buf), Some f))
  | Write h bytes => on_file h (λ f, '(k, f) <-- fsys_write f bytes (Z.of_nat (length bytes)) ;; retS (Number k, Some f))
  | Close h => on_file h (λ f, fsys_close f ;;; retS (Answer true, None))
  end.

Fixpoint run_calls (cs : list call) : ST (F * gmap Z file) (list reply) :=
  match cs with
  | [] => retS []
  | c :: cs => r <-- run_call c ;; rs <-- run_calls cs ;; retS (r :: rs)
  end.

Context `{!FileWorld F} `{!WorldLaws F}.
Implicit Types (s : F) (T : gmap Z file) (w : world).

Lemma file_of_table s T w h :
  fsys_world s T w →
  match T !! h with
  | Some f => ∃ sec l, file_of w h = Some (sec, fpos f, l) ∧ w_fds w !! h = Some (sec, fpos f) ∧ w_contents w !! sec = Some l ∧ 0 ≤ fpos f ≤ INT_MAX ∧ Z.of_nat (length l) ≤ INT_MAX
  | None => file_of w h = None
  end.
Proof using WorldLaws0.
  intros Hw. unfold file_of. destruct (T !! h) as [f|] eqn:Hh.
  - destruct (world_file s T w h f Hw Hh) as (sec & Hs & Hp). destruct (world_contents s T w h sec (fpos f) Hw Hs) as (l & Hl & Hlen & _).
    exists sec, l. by rewrite Hs, Hl.
  - by rewrite (world_fd s T w h Hw Hh).
Qed.

Lemma overwrite_all (buf part : list Z) : (length part ≤ length buf)%nat → take (length part) (overwrite buf 0 part) = part.
Proof. intros Hl. unfold overwrite. rewrite take_0. cbn [app]. by rewrite take_app_length. Qed.

Lemma call_refines s T w c :
  fsys_world s T w → good_call c → Z.of_nat (size T) < INT_MAX →
  ∃ r s' T' w', run_call c (s, T) = Ok (r, (s', T')) ∧ spec w c r w' ∧ fsys_world s' T' w' ∧ (size T' ≤ S (size T))%nat.
Proof using WorldLaws0.
  intros Hw Hg Hs. pose proof (file_of_table s T w) as Hof. destruct c as [name sz|name|h name|h|h p|h n|h bytes|h]; cbn [good_call run_call spec] in *; unfold on_file;
    try (specialize (Hof h Hw); destruct (T !! h) as [f|] eqn:Hh; [destruct Hof as (sec & l & Hof & Hfd & Hl & Hp & Hlen)|]); rewrite ?Hof.
  - destruct Hg as [H0 Hsz]. destruct (world_create s T w name sz Hw H0 Hsz) as (r & s' & E & Hr). rewrite E. mstep. destruct r.
    + destruct Hr as (Hn & sec & Hsec & Hw'). eexists _, s', T, _. split_and!; [done|left; split_and!; try done; by exists sec|done|lia].
    + eexists _, s', T, w. split_and!; [done|by right|done|lia].
  - destruct (world_remove s T w name Hw Hg Hs) as (r & s' & E & Hr & Hw'). rewrite E. mstep. eexists _, s', T, _. split_and!; [done| |done|done|lia].
    f_equal. apply eq_true_iff_eq. by rewrite bool_decide_eq_true.
  - eexists _, s, T, w. rewrite Hfd. split_and!; done || lia.
  - rewrite (world_fd s T w h Hw Hh). pose proof (world_open s T w name Hw Hg Hs) as Ho. destruct (w_names w !! name) as [sec|].
    + destruct Ho as (f & s' & E & _ & Hw'). rewrite E. mstep. eexists _, s', _, _. split_and!; try done; [by apply Hw'|]. by rewrite map_size_insert_None.
    + destruct Ho as (s' & E & Hw'). rewrite E. mstep. eexists _, s', T, w. split_and!; done || lia.
  - unfold bindS, retS. rewrite (world_length s T w h f sec l Hw Hh Hfd Hl). mstep. rewrite insert_id by done. eexists _, s, T, w. split_and!; done || lia.
  - eexists _, s, T, w. split_and!; done || lia.
  - unfold bindS, retS. rewrite (world_seek s f p), (proj2 (Z.leb_le _ _)) by lia. mstep. eexists _, s, _, _. split_and!; try done; [by apply world_pos|].
    rewrite map_size_insert, Hh. simpl. lia.
  - eexists _, s, T, w. split_and!; done || lia.
  - unfold bindS, retS. rewrite (world_read s T w h f sec l (replicate (Z.to_nat n) 0) n Hw Hh Hfd Hl) by (rewrite ?length_replicate; lia). mstep.
    set (part := take (Z.to_nat n) (drop _ l)). assert ((length part ≤ Z.to_nat n)%nat ∧ fpos f + Z.of_nat (length part) ≤ INT_MAX) as [Hpl Hpm].
    { unfold part. rewrite length_take, length_drop. unfold INT_MAX in *. lia. }
    rewrite Nat2Z.id, overwrite_all by by rewrite length_replicate. eexists _, s, _, _. split_and!; try done; [by apply world_pos; try done; lia|].
    rewrite map_size_insert, Hh. simpl. lia.
  - eexists _, s, T, w. split_and!; done || lia.
  - destruct Hg as [Hbl Hby]. unfold bindS, retS. destruct (world_write s T w h f sec l bytes (Z.of_nat (length bytes)) Hw Hh Hfd Hl Hbl ltac:(lia) Hby) as (s' & E & Hw'). rewrite E. mstep.
    eexists _, s', _, _. split_and!; try done; [apply world_pos; try done; lia|]. rewrite map_size_insert, Hh. simpl. lia.
  - eexists _, s, T, w. split_and!; done || lia.
  - unfold bindS, retS. destruct (world_close s T w h f Hw Hh) as (s' & E & Hw'). rewrite E. mstep. eexists _, s', _, _. split_and!; try done. rewrite map_size_delete, Hh. simpl. lia.
  - eexists _, s, T, w. split_and!; done || lia.
Qed.

Lemma calls_refine cs s T w :
  fsys_world s T w → Forall good_call cs → Z.of_nat (size T + length cs) ≤ INT_MAX →
  ∃ rs s' T' w', run_calls cs (s, T) = Ok (rs, (s', T')) ∧ spec_calls w cs rs w' ∧ fsys_world s' T' w'.
Proof using WorldLaws0.
  revert s T w. induction cs as [|c cs IH]; intros s T w Hw Hg Hs; [by exists [], s, T, w|]. apply Forall_cons in Hg as [Hg Hgs]. cbn [length] in Hs.
  destruct (call_refines s T w c Hw Hg) as (r & s1 & T1 & w1 & E & Hsp & Hw1 & Hs1); [lia|].
  destruct (IH s1 T1 w1 Hw1 Hgs) as (rs & s2 & T2 & w2 & E2 & Hsp2 & Hw2); [lia|]. exists (r :: rs), s2, T2, w2. cbn [run_calls].
  rewrite (bindS_Ok _ _ _ _ _ E), (bindS_Ok _ _ _ _ _ E2). split_and!; [done| |done]. by exists w1.
Qed.

End client.
