(* ===== verification/Mount.v ===== *)
(** Formatting and mounting (src/filesys/filesys.c, free-map.c).

    [filesys_init] formats any device that is large enough into a file system without files,
    and on a device that has been in use it finds again all the files that have names,
    whenever it was left, as long as no allocation of memory fails. *)

From S2P Require Import Prelude Bitmap BitmapScan Disk Inode FreeMap CString Directory Filesys Files Volume FileCalls.

(** The kernel's data right after it has started. An empty list [mallocs] says that memory is
    enough for all the allocations to come. Without that the file system does not keep its
    promises: an allocation that fails in a read of the root directory is taken for the end of
    the directory, and [filesys_create] adds a second entry of the same name (lemma
    [dir_add_duplicates]). *)
Record booted (t : fs) : Prop := {
  bt_mem : mallocs t = [];
  bt_policy : policy t = FIRST_FIT;
  bt_addr : 0 < next_addr t ∧ ∀ a, next_addr t ≤ a → inodes t !! a = None;
}.

Section mount.
Implicit Types (s t : fs) (b : block) (m : bitmap) (d : inode_disk).

Lemma free_map_init_ok t mem :
  dev_ok (dev t) → mallocs t = [] → 2 ≤ bsize (dev t) ≤ 2 ^ 28 → length mem = Z.to_nat (elem_cnt (bsize (dev t))) → Forall is_u32 mem →
  ∃ m, free_map_init mem t = Ok (tt, set_free_map t m (statics t)) ∧ wf m ∧ bit_cnt m = bsize (dev t) ∧
    ∀ j, 0 ≤ j < bsize (dev t) → bit_at m j = (j =? 0) || (j =? 1).
Proof.
  intros Hd Hm Hs Hl Hw. destruct (bitmap_create_spec (bsize (dev t)) mem) as (m0 & E0 & Hwf0 & Hc0 & Hall); [lia|done|done|].
  destruct (bitmap_mark_spec m0 FREE_MAP_SECTOR) as (m1 & E1 & Hwf1 & Hc1 & Hb1); [done|unfold FREE_MAP_SECTOR; lia|].
  destruct (bitmap_mark_spec m1 ROOT_DIR_SECTOR) as (m2 & E2 & Hwf2 & Hc2 & Hb2); [done|unfold ROOT_DIR_SECTOR; lia|].
  exists m2. split_and!; [|done|lia|].
  - unfold free_map_init, getS. unfold bindS at 1. rewrite (bindS_Ok _ _ _ _ _ (malloc_ok t Hm)), (bindS_Ok _ _ _ _ _ (malloc_ok t Hm)).
    unfold block_size. rewrite (bindS_Ok _ _ _ _ _ (liftS_Ok _ _ _ E0)), (bindS_Ok _ _ _ _ _ (liftS_Ok _ _ _ E1)), (bindS_Ok _ _ _ _ _ (liftS_Ok _ _ _ E2)). done.
  - intros j Hj. rewrite Hb2, Hb1, Hall by lia. unfold FREE_MAP_SECTOR, ROOT_DIR_SECTOR. by destruct (j =? 0), (j =? 1).
Qed.

(** The device [b] holds the map [m] in a file with inode [d]. *)
Record map_on (b : block) (d : inode_disk) (m : bitmap) : Prop := {
  mo_inode : ∃ c, sectors b !! 0%nat = Some c ∧ decode_inode c = d;
  mo_io : inode_ok b d;
  mo_cnt : bit_cnt m = bsize b;
  mo_len : ilength d = byte_cnt (bsize b);
  mo_map : holds_map (file_bytes b (start d) 0 (ilength d)) m;
}.

Lemma free_map_open_ok t d m :
  booted t → dev_ok (dev t) → open_inodes t = [] → wf (free_map t) → bit_cnt (free_map t) = bsize (dev t) → map_on (dev t) d m →
  let f := File (next_addr t) 0 false in let i := Inode FREE_MAP_SECTOR 1 false 0 d in
  ∃ t', free_map_open t = Ok (tt, t') ∧ fm_ok t' f i ∧ dev t' = dev t ∧ inodes t' = <[next_addr t := i]> (inodes t) ∧
    open_inodes t' = [next_addr t] ∧ next_addr t' = next_addr t + 1 ∧ ∀ j, 0 ≤ j < bsize (dev t) → bit_at (free_map t') j = bit_at m j.
Proof.
  intros [Hm Hp [Ha0 Ha]] Hd Ho Hwf Hcnt [(c & Hc & Hdc) Hio Hmc Hml Hmap] f i.
  pose proof (inode_open_new t FREE_MAP_SECTOR c) as E. rewrite Hdc in E. specialize (E ltac:(rewrite Ho; by intros ? ?%elem_of_nil) Hm Hd ltac:(done) Hc).
  set (t1 := opened t FREE_MAP_SECTOR d) in E. set (t2 := set_free_map_file t1 (Some f)).
  assert (inodes t2 = <[next_addr t := i]> (inodes t)) as Ei by done.
  destruct (bitmap_read_map t2 f i (free_map t) m) as (m' & Er & Hwf' & Hc' & Hb'); [done|done|apply lookup_insert_eq|done|by rewrite Hmc|done|done|congruence|].
  exists (set_free_map t2 m' (statics t2)). split_and!; try done.
  - unfold free_map_open. rewrite (bindS_Ok _ _ _ _ _ E). assert (file_open (next_addr t) t1 = Ok (Some f, t1)) as Eo.
    { unfold file_open. rewrite (bindS_Ok _ _ _ _ _ (malloc_ok t1 Hm)), (proj2 (Z.eqb_neq _ _)) by lia. done. }
    rewrite (bindS_Ok _ _ _ _ _ Eo). unfold getS, putS. unfold bindS at 1 2 3. fold t2. change (free_map t2) with (free_map t). by rewrite (bindS_Ok _ _ _ _ _ Er).
  - split; try done; [change (bit_cnt m' = bsize (dev t)); congruence|apply lookup_insert_eq|change (ilength d = byte_cnt (bit_cnt m')); congruence|].
    change (holds_map (file_bytes (dev t) (start d) 0 (ilength d)) m').
    destruct Hmap as (ws & -> & Hws & Hsame). exists ws. rewrite Hc'. split_and!; try done. intros j Hj. rewrite Hsame by done. symmetry. apply Hb'. lia.
  - cbn [set_free_map t2 set_free_map_file open_inodes t1 opened set_inodes set_open set_addr]. by rewrite Ho.
  - intros j Hj. apply Hb'. lia.
Qed.

(** The sectors with a fixed use lie on the device. *)
Lemma fixed_on_device s f i rd k : core_ok s f i rd → fixed_use i rd k → Z.of_nat k < bsize (dev s).
Proof.
  intros [Hfm (c & Hc & _) Hio _ _ _ _ _] Hu. pose proof (dev_len _ (fm_dev _ _ _ Hfm)) as Hl. pose proof (lookup_lt_Some _ _ _ Hc) as H1. pose proof (fm_io _ _ _ Hfm) as Hio'.
  destruct Hu as [->|[->|[Hk|Hk]]]; [lia|lia| |]; unfold in_file in Hk; [destruct Hio|destruct Hio']; lia.
Qed.

Lemma owned_on_device s i rd sec d l k : dev_ok (dev s) → file_ok s i rd sec d l → owns sec d k → Z.of_nat k < bsize (dev s).
Proof.
  intros Hd [H0 (c & Hc & _) Hio _ _ _ _] Ho. pose proof (dev_len _ Hd) as Hl. pose proof (lookup_lt_Some _ _ _ Hc) as H1.
  destruct Ho as [->|Hk]; [lia|]. unfold in_file in Hk. destruct Hio. lia.
Qed.

(** What has a name on a device is there after the device has been mounted. *)
Lemma mount_disk s f i rd v D t :
  disk_ok s f i rd v D → booted t → dev t = dev s → open_inodes t = [] → wf (free_map t) → bit_cnt (free_map t) = bsize (dev t) →
  ∃ t', free_map_open t = Ok (tt, t') ∧ volume_ok t' (collect (with_openers v ∅)).
Proof.
  intros Hdk Hbt Ed Ho Hwf Hcnt. pose proof Hdk as [Hc Hsm Hz Hzf Hnm Hinj Hlv Hdom Hfile Hdj]. pose proof Hc as [Hfm Hroot Hrio Hrlen Hrwf Hused Hsep Hone].
  destruct (free_map_open_ok t (data i) (free_map s)) as (t' & E & Hfm' & Ed' & Ei & Eo & En & Hb); try done; [rewrite Ed; apply Hfm|rewrite Ed; split; try done; try apply Hfm|].
  { rewrite (fm_len _ _ _ Hfm). by rewrite (fm_cnt _ _ _ Hfm). }
  set (f' := File (next_addr t) 0 false) in *. set (i' := Inode FREE_MAP_SECTOR 1 false 0 (data i)) in *. rewrite Ed in *. exists t'. split; [done|].
  set (v0 := with_openers v ∅). assert (∀ k, Z.of_nat k < bsize (dev s) → bit_at (free_map s) (Z.of_nat k) = true → bit_at (free_map t') (Z.of_nat k) = true) as Hb' by (intros k Hk; rewrite Hb by lia; done).
  assert (∀ sec, live v0 sec ↔ named v sec) as Hl0.
  { intros sec. split; [|by left]. intros [?|(a & n & Ha)%is_open_iff]; [done|]. change ((∅ : gmap Z (Z * Z)) !! a = Some (sec, n)) in Ha. by rewrite lookup_empty in Ha. }
  exists f', i', rd, (filter (λ p, live v0 p.1) D). split; [|split|apply tidy_collect].
  - split; cbn [names contents collect with_openers v0]; rewrite ?Ed'; try done.
    + split; rewrite ?Ed'; try done. intros k Hu. change (fixed_use i rd k) in Hu. apply Hb'; [by eapply fixed_on_device|auto].
    + intros sec Hs. change (live v0 sec) in Hs. destruct (Hlv sec) as [d Hd]; [left; by apply Hl0|]. exists d. by apply map_lookup_filter_Some.
    + intros sec. rewrite !map_lookup_filter_None. cbn [fst]. split; (intros [Hn|Hn]; [left; by apply Hdom|]).
      * right. intros d Hd. destruct (disk_file _ _ _ _ _ _ _ _ Hdk Hd) as (l & Hl & _). by apply (Hn l).
      * right. intros l Hl. destruct (contents_inode _ _ _ _ _ _ _ _ Hdk Hl) as (d & Hd & _). by apply (Hn d).
    + intros sec d l [Hd _]%map_lookup_filter_Some [Hl _]%map_lookup_filter_Some. pose proof (Hfile _ _ _ Hd Hl) as Hf. pose proof Hf as [F1 F2 F3 F4 F5 F6 F7].
      split; rewrite ?Ed'; try done. intros k Hk. destruct (F6 k Hk) as [Hu Hn]. split; [|done]. apply Hb'; [|done]. by eapply owned_on_device; [apply Hfm|..].
    + intros x y dx dy k [Hx _]%map_lookup_filter_Some [Hy _]%map_lookup_filter_Some. by eapply Hdj.
  - done.
  - destruct (bt_addr _ Hbt) as [H0 Ha]. rewrite En, Ei. split; [lia|]. intros a Hle. rewrite lookup_insert_ne by lia. apply Ha. lia.
  - rewrite Eo. intros a ->%list_elem_of_singleton. by left.
  - intros a sec n Ha. change ((∅ : gmap Z (Z * Z)) !! a = Some (sec, n)) in Ha. by rewrite lookup_empty in Ha.
  - intros a a' sec n n' Ha. change ((∅ : gmap Z (Z * Z)) !! a = Some (sec, n)) in Ha. by rewrite lookup_empty in Ha.
Qed.

End mount.

(** ** Mounting again *)

Section remount.
Implicit Types (s t : fs) (T : gmap Z file) (w : world).

Lemma world_without_fds s v : volume_ok s (collect (with_openers v ∅)) → fsys_world s ∅ (w_collect (World (names v) (contents v) ∅)).
Proof.
  intros Hv. by apply (fs_world_collect s (with_openers v ∅)).
Qed.

Lemma booted_device t b : booted t → booted (set_open (set_dev t b) []).
Proof. intros []. by split. Qed.

Lemma mount_ok s f i rd v D t mem :
  disk_ok s f i rd v D → booted t → length mem = Z.to_nat (elem_cnt (bsize (dev s))) → Forall is_u32 mem →
  ∃ t', filesys_init (Some (dev s)) mem false t = Ok (tt, t') ∧ fsys_world t' ∅ (w_collect (World (names v) (contents v) ∅)).
Proof.
  intros Hdk Hbt Hl Hw. set (t0 := set_open (set_dev t (dev s)) []). pose proof (booted_device t (dev s) Hbt) as Hbt0. fold t0 in Hbt0.
  pose proof (dk_core _ _ _ _ _ _ Hdk) as Hc. pose proof (fixed_on_device _ _ _ _ 1 Hc (or_intror (or_introl eq_refl))) as H1. pose proof (dk_small _ _ _ _ _ _ Hdk) as Hs.
  destruct (free_map_init_ok t0 mem) as (m & E & Hwf & Hcnt & _); try done; [apply (co_fm _ _ _ _ Hc)|apply Hbt0|change (dev t0) with (dev s); lia|].
  set (t1 := set_free_map t0 m (statics t0)) in E. destruct (mount_disk s f i rd v D t1 Hdk) as (t' & E' & Hv); try done; [by destruct Hbt0; split|].
  exists t'. split; [|by apply world_without_fds]. unfold filesys_init, getS, putS. unfold bindS at 1 2. fold t0. by rewrite (bindS_Ok _ _ _ _ _ E).
Qed.

End remount.

(** ** Formatting *)

Section format.
Implicit Types (s t : fs) (m : bitmap).

Lemma words_bytes_zero n : words_bytes (replicate n 0) = replicate (4 * n) 0.
Proof.
  induction n as [|n IH]; [done|]. unfold words_bytes in *. replace (4 * S n)%nat with (4 + 4 * n)%nat by lia.
  cbn [replicate]. rewrite bind_cons, IH, replicate_add. done.
Qed.

(** The map as it is before it has been written. *)
Lemma zero_map_ok n : 0 ≤ n ≤ WORD - 32 → wf (Bitmap n (replicate (Z.to_nat (elem_cnt n)) 0)) ∧ words_bytes (replicate (Z.to_nat (elem_cnt n)) 0) = replicate (Z.to_nat (byte_cnt n)) 0.
Proof.
  intros Hn. assert (wf (Bitmap n (replicate (Z.to_nat (elem_cnt n)) 0))) as Hwf.
  { split; cbn [bit_cnt bits]; [done|by rewrite length_replicate|by apply Forall_replicate]. }
  split; [done|]. rewrite words_bytes_zero. f_equal. pose proof (proj1 (byte_cnt_ok _ Hwf)) as Hl. cbn [bits bit_cnt] in Hl. rewrite words_bytes_length, length_replicate in Hl. lia.
Qed.

(** Allocation while the free map has no file yet. *)
Lemma allocate_unmounted t cnt :
  policy t = FIRST_FIT → free_map_file t = None → wf (free_map t) → 0 ≤ cnt → fits (free_map t) 2 cnt false → (∀ k, 0 ≤ k < 2 → ¬ fits (free_map t) k cnt false) →
  ∃ m st, free_map_allocate cnt t = Ok (Some 2, set_free_map t m st) ∧ wf m ∧ bit_cnt m = bit_cnt (free_map t) ∧
    ∀ j, 0 ≤ j → bit_at m j = if bool_decide (2 ≤ j < 2 + cnt) then true else bit_at (free_map t) j.
Proof.
  intros Hp Hf Hwf Hc Hfit Hno. pose proof (wf_cnt _ Hwf) as Hcnt.
  destruct (first_fit_flip (statics t) (free_map t) 0 cnt false) as (r & st & m & E & Hwf' & Hcnt' & Hr); [done|lia|done|].
  unfold free_map_allocate, getS. unfold bindS at 1. rewrite Hp, (bindS_Ok _ _ _ _ _ (liftS_Ok _ _ _ E)). unfold putS. unfold bindS at 1.
  destruct Hr as [(Hne & H0 & Hfr & Hleast & Hbits)|(_ & _ & Hnone)]; [|by destruct (Hnone 2)].
  assert (r = 2) as ->.
  { destruct (Z.lt_trichotomy r 2) as [?|[?|?]]; [by destruct (Hno r)|done|]. destruct (Hleast 2); [lia|done]. }
  cbn [Z.eqb negb]. change (2 =? BITMAP_ERROR) with false. cbn [negb]. rewrite Hf. unfold retS at 1. unfold bindS at 1. exists m, st. by split_and!.
Qed.

Lemma map_room n : 4 ≤ n ≤ 2 ^ 28 → 0 < byte_cnt n ≤ 2 ^ 27 ∧ 3 + (byte_cnt n + 511) / 512 ≤ n ∧ 1 ≤ (byte_cnt n + 511) / 512.
Proof.
  intros Hn. unfold byte_cnt, elem_cnt, ELEM_BITS. pose proof (DIV_ROUND_UP_spec n 32 ltac:(lia) ltac:(lia) ltac:(lia)) as Hd.
  rewrite u32_small by (unfold is_u32; lia). set (e := DIV_ROUND_UP n 32) in *.
  pose proof (Z.div_mod (4 * e + 511) 512 ltac:(lia)). pose proof (Z.mod_pos_bound (4 * e + 511) 512 ltac:(lia)). lia.
Qed.

(** What a new file system starts from: no sector is in use but the first two. *)
Record blank t : Prop := {
  bl_boot : booted t;
  bl_dev : dev_ok (dev t);
  bl_size : 4 ≤ bsize (dev t) ≤ 2 ^ 28;
  bl_open : open_inodes t = [];
  bl_file : free_map_file t = None;
  bl_wf : wf (free_map t);
  bl_cnt : bit_cnt (free_map t) = bsize (dev t);
  bl_bits : ∀ j, 0 ≤ j < bsize (dev t) → bit_at (free_map t) j = (j =? 0) || (j =? 1);
}.

(** The inode of the free map. *)
Definition map_disk t : inode_disk := InodeDisk 2 (byte_cnt (bsize (dev t))) INODE_MAGIC.
Definition map_inode t : inode := Inode FREE_MAP_SECTOR 1 false 0 (map_disk t).
Definition map_file t : file := File (next_addr t) 0 false.

Lemma map_disk_ok t : blank t → inode_ok (dev t) (map_disk t) ∧ decode_inode (encode_inode (map_disk t)) = map_disk t ∧ ∀ k, in_file (map_disk t) k → (2 ≤ k)%nat.
Proof.
  intros Hb. pose proof (bl_size _ Hb) as Hs. destruct (map_room _ Hs) as (Hn & Hr & _). unfold map_disk. split_and!.
  - split; cbn [start ilength]; unfold INT_MAX; lia.
  - apply decode_encode_inode; cbn [start ilength imagic]; unfold is_u32, is_s32, INODE_MAGIC; lia.
  - intros k. unfold in_file. cbn [start ilength]. lia.
Qed.

(** The inode and the zeroed sectors of the free map. *)
Lemma map_create_ok t :
  blank t → let n := (byte_cnt (bsize (dev t)) + 511) / 512 in
  ∃ b m st, inode_create FREE_MAP_SECTOR (byte_cnt (bsize (dev t))) t = Ok (true, set_dev (set_free_map t m st) b) ∧
    dev_ok b ∧ bsize b = bsize (dev t) ∧ sectors b !! 0%nat = Some (encode_inode (map_disk t)) ∧
    (∀ k : nat, 2 ≤ Z.of_nat k < 2 + n → sectors b !! k = Some (replicate 512 0)) ∧ wf m ∧ bit_cnt m = bsize (dev t) ∧
    ∀ j, 0 ≤ j < bsize (dev t) → bit_at m j = bool_decide (j < 2 + n).
Proof.
  intros Hb n. pose proof Hb as [[Hm Hp _] Hd Hs Ho Hf Hwf Hc Hbits]. destruct (map_room _ Hs) as (Hn & Hr & Hn1). fold n in Hr, Hn1.
  unfold inode_create. rewrite (proj2 (Z.leb_le _ _)) by lia. rewrite (bindS_Ok _ _ _ _ _ (eq_refl : assertS true t = _)), (bindS_Ok _ _ _ _ _ (malloc_ok t Hm)). cbn [negb].
  destruct (bytes_to_sectors_ok (byte_cnt (bsize (dev t)))) as [-> _]; [unfold INT_MAX; lia|]. fold n.
  destruct (allocate_unmounted t n) as (m & st & Ea & Hwfm & Hcm & Hbm); try done; [lia| | |].
  { split_and!; [lia|lia|]. intros j Hj. rewrite Hbits by lia. rewrite (proj2 (Z.eqb_neq j 0)), (proj2 (Z.eqb_neq j 1)) by lia. done. }
  { intros k Hk (_ & _ & Hall). specialize (Hall k ltac:(lia)). rewrite Hbits in Hall by lia. destruct (Z.eqb_spec k 0), (Z.eqb_spec k 1); try done. lia. }
  rewrite (bindS_Ok _ _ _ _ _ Ea). set (t1 := set_free_map t m st) in *. destruct (block_write_ok (dev t1) FREE_MAP_SECTOR (encode_inode (map_disk t))) as (b2 & Hw & Hd2 & Hs2 & Hk2); [done|unfold FREE_MAP_SECTOR; simpl; lia|done|].
  assert (fs_write FREE_MAP_SECTOR (encode_inode (map_disk t)) t1 = Ok (tt, set_dev t1 b2)) as Hfw by (unfold fs_write; by rewrite Hw).
  rewrite (bindS_Ok _ _ _ _ _ Hfw). change (dev t1) with (dev t) in *.
  destruct (zero_sectors_ok (Z.to_nat n) 2 (set_dev t1 b2)) as (b3 & Hz & Hd3 & Hs3 & Hk3); [done|lia|simpl; lia|]. rewrite (bindS_Ok _ _ _ _ _ Hz). rewrite Z2Nat.id in Hk3 by lia. cbn [dev set_dev] in Hs3, Hk3.
  exists b3, m, st. split_and!; try done; try congruence.
  - rewrite Hk3, decide_False by lia. rewrite Hk2. apply list_lookup_insert_eq. rewrite (dev_len _ Hd). unfold FREE_MAP_SECTOR. lia.
  - intros k Hk. by rewrite Hk3, decide_True by lia.
  - intros j Hj. rewrite Hbm, Hbits by lia. clear -Hj Hn1. do 2 case_bool_decide; destruct (Z.eqb_spec j 0), (Z.eqb_spec j 1); done || (exfalso; lia).
Qed.

(** The free map has been written to its file. *)
Lemma free_map_create_ok t :
  blank t → let n := (byte_cnt (bsize (dev t)) + 511) / 512 in
  ∃ t', free_map_create t = Ok (tt, t') ∧ fm_ok t' (map_file t) (map_inode t) ∧ inodes t' = <[next_addr t := map_inode t]> (inodes t) ∧
    open_inodes t' = [next_addr t] ∧ next_addr t' = next_addr t + 1 ∧ bsize (dev t') = bsize (dev t) ∧
    sectors (dev t') !! 0%nat = Some (encode_inode (map_disk t)) ∧
    ∀ j, 0 ≤ j < bsize (dev t) → bit_at (free_map t') j = bool_decide (j < 2 + n).
Proof.
  intros Hb n. pose proof Hb as [[Hm Hp [Ha0 Ha]] Hd Hs Ho Hf Hwf Hc Hbits]. destruct (map_room _ Hs) as (Hn & Hr & Hn1). destruct (map_disk_ok t Hb) as (Hio & Hdec & Hin).
  destruct (map_create_ok t Hb) as (b & m & st & Ec & Hd1 & Hs1 & Hk0 & Hkz & Hwfm & Hcm & Hbm). fold n in Hkz, Hbm, Hr, Hn1. set (t1 := set_dev (set_free_map t m st) b) in *.
  pose proof (inode_open_new t1 FREE_MAP_SECTOR (encode_inode (map_disk t))) as Eo. rewrite Hdec in Eo.
  specialize (Eo ltac:(change (open_inodes t1) with (open_inodes t); rewrite Ho; by intros ? ?%elem_of_nil) Hm Hd1 ltac:(done) Hk0). change (next_addr t1) with (next_addr t) in Eo.
  set (t2 := opened t1 FREE_MAP_SECTOR (map_disk t)) in Eo. set (t3 := set_free_map_file t2 (Some (map_file t))).
  destruct (zero_map_ok (bsize (dev t))) as [Hwz Hbz]; [lia|]. set (z := Bitmap (bsize (dev t)) _) in Hwz.
  assert (fm_ok (set_free_map t3 z st) (map_file t) (map_inode t)) as Hz.
  { split; [exact Hd1|exact Hm|exact Hp|exact Hwz|symmetry; exact Hs1|done|apply lookup_insert_eq|by eapply inode_ok_size|done|done|].
    apply holds_map_refl; [|done]. change (file_bytes b 2 0 (byte_cnt (bsize (dev t))) = words_bytes (bits z)). cbn [z bits]. rewrite Hbz.
    apply (zero_file_bytes b 2 (byte_cnt (bsize (dev t)))); [lia|lia|done]. }
  destruct (bitmap_write_ok (set_free_map t3 z st) (map_file t) (map_inode t) m st Hz Hwfm) as (t4 & Ew & Hfm & [E1 E2 E3 E4 E5] & Eb & _); [by rewrite Hcm|].
  change (set_free_map (set_free_map t3 z st) m st) with t3 in Ew. exists t4. split_and!; try done.
  - unfold free_map_create, getS. unfold bindS at 1. unfold bitmap_file_size. rewrite Hc, s32_small by (unfold is_s32; lia). rewrite (bindS_Ok _ _ _ _ _ Ec). cbn [negb].
    rewrite (bindS_Ok _ _ _ _ _ Eo). assert (file_open (next_addr t) t2 = Ok (Some (map_file t), t2)) as Ef.
    { unfold file_open. rewrite (bindS_Ok _ _ _ _ _ (malloc_ok t2 Hm)), (proj2 (Z.eqb_neq _ _)) by lia. done. }
    rewrite (bindS_Ok _ _ _ _ _ Ef). unfold putS. unfold bindS at 1 2 3. fold t3. change (free_map t3) with m. by rewrite (bindS_Ok _ _ _ _ _ Ew).
  - rewrite E2. change (next_addr t :: open_inodes t = [next_addr t]). by rewrite Ho.
  - rewrite E4. done.
  - rewrite E5; [done|]. intros H%Hin. lia.
  - by rewrite Eb.
Qed.

(** A directory of zeros has no entries. *)
Lemma zero_entries b d : 0 ≤ start d → 0 ≤ ilength d → ilength d mod ENTRY_SIZE = 0 →
  (∀ k : nat, in_file d k → sectors b !! k = Some (replicate 512 0)) → ∀ e, e ∈ entries b d → in_use e = false.
Proof.
  intros Hs Hl Hm Hz e He. apply list_elem_of_fmap in He as (k & -> & Hk). apply elem_of_seqZ in Hk. unfold entry_at.
  assert (file_bytes b (start d) (20 * k) 20 = replicate 20 0) as ->; [|done].
  pose proof (zero_file_bytes b (start d) (ilength d) (ilength d) Hs ltac:(lia) Hz) as Hall. pose proof (Z.div_mod (ilength d) 20 ltac:(lia)).
  pose proof (file_bytes_part b (start d) (ilength d) (20 * k) 20 ltac:(lia) Hl) as Hp. replace (Z.max 0 _) with 20 in Hp by lia. rewrite <-Hp, Hall.
  rewrite drop_replicate, take_replicate. f_equal. lia.
Qed.

Lemma unused_entries es : (∀ e, e ∈ es → in_use e = false) → dir_wf es ∧ dir_map es = ∅.
Proof.
  intros Hes. assert (∀ e, e ∈ es → entry_name e = None) as Hn by (intros e He; unfold entry_name; by rewrite Hes).
  assert (omap entry_name es = []) as E1.
  { induction es as [|e es IH]; [done|]. cbn [omap list_omap]. rewrite Hn by set_solver. apply IH; set_solver. }
  assert (omap entry_pair es = []) as E2.
  { clear E1. induction es as [|e es IH]; [done|]. cbn [omap list_omap]. unfold entry_pair at 1. rewrite Hn by set_solver. apply IH; set_solver. }
  split; [split|].
  - intros e He Hu. by rewrite Hes in Hu.
  - rewrite E1. constructor.
  - unfold dir_map. by rewrite E2.
Qed.

(** The file system after the root directory has been made. *)
Lemma root_create_ok t f i n :
  fm_ok t f i → start (data i) = 2 → (ilength (data i) + 511) / 512 = n → 1 ≤ n → 3 + n ≤ bsize (dev t) ≤ 2 ^ 28 →
  (∃ c, sectors (dev t) !! 0%nat = Some c ∧ decode_inode c = data i) → (∀ j, 0 ≤ j < bsize (dev t) → bit_at (free_map t) j = bool_decide (j < 2 + n)) →
  ∃ t' rd, dir_create ROOT_DIR_SECTOR 16 t = Ok (true, t') ∧ disk_ok t' f i rd (Volume ∅ ∅ ∅) ∅ ∧
    inodes t' = inodes t ∧ open_inodes t' = open_inodes t ∧ next_addr t' = next_addr t ∧ bsize (dev t') = bsize (dev t).
Proof.
  intros Hfm Hst Hn Hn1 Hs (c & Hc & Hdc) Hbits. assert (∀ k, in_file (data i) k ↔ 2 ≤ Z.of_nat k < 2 + n) as Hin by (intros k; unfold in_file; by rewrite Hst, Hn).
  assert (∀ j, 0 ≤ j < 2 + n → bit_at (free_map t) j = true) as Hused by (intros j Hj; rewrite Hbits, bool_decide_eq_true_2 by lia; done).
  destruct (inode_create_ok t f i ROOT_DIR_SECTOR 320) as (o & t' & E & Hfm' & Ei & Eo & En & Es & Ho); [done|unfold INT_MAX; lia|unfold ROOT_DIR_SECTOR; lia|rewrite Hin; unfold ROOT_DIR_SECTOR; lia|apply Hused; unfold ROOT_DIR_SECTOR; lia|intros k Hk; apply Hused; apply Hin in Hk; lia|].
  change ((320 + 511) / 512) with 1 in Ho. destruct o as [st|].
  2:{ destruct Ho as (_ & Hno & _). destruct (Hno (2 + n)); [lia|]. split_and!; [lia|rewrite (fm_cnt _ _ _ Hfm); lia|]. intros j Hj. rewrite Hbits, bool_decide_eq_false_2 by lia. done. }
  destruct Ho as ((Hst0 & Hstn & Hfree) & Hb & Hino & Hzero & Hk). change ((320 + 511) / 512) with 1 in *. rewrite (fm_cnt _ _ _ Hfm) in Hstn.
  assert (2 + n ≤ st) as Hst2 by (destruct (Z.lt_ge_cases st (2 + n)); [specialize (Hfree st ltac:(lia)); rewrite Hused in Hfree by lia; done|done]).
  set (rd := InodeDisk st 320 INODE_MAGIC) in *. assert (∀ k, in_file rd k ↔ Z.of_nat k = st) as Hrd by (intros k; unfold in_file, rd; cbn [start ilength]; change ((320 + 511) / 512) with 1; lia).
  destruct (unused_entries (entries (dev t') rd)) as [Hdw Hdm].
  { by apply zero_entries. }
  exists t', rd. split_and!; try done. split; cbn [names contents openers]; try done; try (intros; by rewrite ?lookup_empty in *).
  - split; try done.
    + exists (encode_inode rd). split; [done|]. apply decode_encode_inode; cbn [rd start ilength imagic]; unfold is_u32, is_s32, INODE_MAGIC; lia.
    + split; cbn [rd start ilength]; change ((320 + 511) / 512) with 1; unfold INT_MAX; lia.
    + intros k Hu. rewrite Hb by lia. clear E. case_bool_decide as Hk1; [done|]. destruct Hu as [->|[->|[Hu%Hrd|Hu%Hin]]]; [..|lia|]; apply Hused; lia.
    + intros k Hk1%Hrd Hk2%Hin. lia.
    + rewrite Hrd, Hin. lia.
  - lia.
  - exists c. split; [|done]. rewrite Hk; [done|rewrite Hin; lia|done|lia].
  - rewrite Hrd, Hin. lia.
  - intros sec [(nm & Hx)%named_iff|(a & m & Hx)%is_open_iff]; cbn [names openers] in Hx; by rewrite lookup_empty in Hx.
Qed.

Lemma do_format_ok t :
  blank t → ∃ s f i rd t', disk_ok s f i rd (Volume ∅ ∅ ∅) ∅ ∧ do_format t = Ok (tt, t') ∧
    booted t' ∧ dev t' = dev s ∧ open_inodes t' = [] ∧ wf (free_map t') ∧ bit_cnt (free_map t') = bsize (dev t').
Proof.
  intros Hb. pose proof (bl_size _ Hb) as Hs. destruct (map_room _ Hs) as (Hn & Hr & Hn1). destruct (bt_addr _ (bl_boot _ Hb)) as [Ha0 Ha].
  destruct (free_map_create_ok t Hb) as (t2 & E2 & Hfm2 & I2 & O2 & N2 & S2 & Hk2 & Hb2). destruct (map_disk_ok t Hb) as (_ & Hdec & _).
  destruct (root_create_ok t2 (map_file t) (map_inode t) ((byte_cnt (bsize (dev t)) + 511) / 512)) as (t3 & rd & E3 & Hdk & I3 & O3 & N3 & S3); try done; [lia|eauto|by rewrite S2|].
  pose proof (co_fm _ _ _ _ (dk_core _ _ _ _ _ _ Hdk)) as Hfm3. assert (inodes t3 !! next_addr t = Some (map_inode t)) as Hi by apply (fm_inode _ _ _ Hfm3).
  eexists t3, (map_file t), (map_inode t), rd, _. split; [done|]. split.
  - unfold do_format. rewrite (bindS_Ok _ _ _ _ _ E2), (bindS_Ok _ _ _ _ _ E3). cbn [negb]. unfold free_map_close, getS. unfold bindS at 1. rewrite (fm_file _ _ _ Hfm3).
    apply (inode_close_last t3 (next_addr t) (map_inode t)); [lia|done..].
  - split_and!; try done; [|cbn [open_inodes set_inodes set_open]|apply Hfm3|apply Hfm3].
    + split; [apply Hfm3|apply Hfm3|]. cbn [next_addr inodes set_inodes set_open]. rewrite N3, N2, I3, I2. split; [lia|]. intros a Hle.
      rewrite delete_insert_id by (apply Ha; lia). apply Ha. lia.
    + rewrite O3, O2. rewrite filter_cons_False by tauto. done.
Qed.

Lemma init_format_ok t b mem :
  booted t → free_map_file t = None → dev_ok b → 4 ≤ bsize b ≤ 2 ^ 28 → length mem = Z.to_nat (elem_cnt (bsize b)) → Forall is_u32 mem →
  ∃ t', filesys_init (Some b) mem true t = Ok (tt, t') ∧ fsys_world t' ∅ (World ∅ ∅ ∅).
Proof.
  intros Hbt Hf Hd Hs Hl Hw. set (t0 := set_open (set_dev t b) []). pose proof (booted_device t b Hbt) as Hbt0. fold t0 in Hbt0.
  destruct (free_map_init_ok t0 mem) as (m & E & Hwf & Hcnt & Hb); try done; [apply Hbt0|change (dev t0) with b; lia|]. set (t1 := set_free_map t0 m (statics t0)) in E.
  assert (blank t1) as Hbl by (split; try done; by destruct Hbt0).
  destruct (do_format_ok t1 Hbl) as (s & f & i & rd & t2 & Hdk & E2 & Hbt2 & Ed & Eo & Hwf2 & Hc2).
  destruct (mount_disk s f i rd _ ∅ t2 Hdk Hbt2 Ed Eo Hwf2 Hc2) as (t' & E3 & Hv). exists t'. split.
  - unfold filesys_init, getS, putS. unfold bindS at 1 2. fold t0. rewrite (bindS_Ok _ _ _ _ _ E). by rewrite (bindS_Ok _ _ _ _ _ E2).
  - apply world_without_fds in Hv. exact Hv.
Qed.

End format.

(** ** The file system, from formatting on *)

(** C5. The file system does what it should, on every device of 4 to 2^28 sectors and in
    every sequence of up to 2^31 - 1 calls, as long as no allocation of memory fails, which is
    part of [booted]. Formatting succeeds, whatever the device held before; after that
    creating, removing, opening, reading, writing, positioning and closing files never fails
    a check of the kernel, and answers as the specification on names and contents of files
    does: reads give the bytes that the last writes have put there, in this file and no
    other, and a file that is removed while it is open goes on until it is closed. *)
Theorem file_system_refines_spec t b mem junk cs :
  booted t → free_map_file t = None → dev_ok b → 4 ≤ bsize b ≤ 2 ^ 28 → length mem = Z.to_nat (elem_cnt (bsize b)) → Forall is_u32 mem →
  length junk = 20%nat → Forall good_call cs → Z.of_nat (length cs) ≤ INT_MAX →
  ∃ s, filesys_init (Some b) mem true t = Ok (tt, s) ∧
  ∃ rs s' T w, run_calls (FileSys0 := fs_sys junk) cs (s, ∅) = Ok (rs, (s', T)) ∧ spec_calls (World ∅ ∅ ∅) cs rs w ∧ fsys_world s' T w.
Proof.
  intros Hbt Hf Hd Hs Hl Hw Hj Hg Hn. destruct (init_format_ok t b mem Hbt Hf Hd Hs Hl Hw) as (s & E & Hworld). exists s. split; [done|].
  apply (@calls_refine _ (fs_sys junk) _ (fs_laws junk Hj)); [done|done|]. by rewrite map_size_empty.
Qed.

(** C6. Nothing is lost when the machine stops. At any point between two calls, and without
    [filesys_done], the device holds the file system: mounting it in another kernel, whose
    allocations of memory do not fail either, finds every file that has a name, under this name
    and with its contents, and no others, and up to 2^31 - 1 calls after that are answered from
    those files. *)
Theorem remount_keeps_files s T w t mem junk cs :
  fsys_world s T w → booted t → length mem = Z.to_nat (elem_cnt (bsize (dev s))) → Forall is_u32 mem →
  length junk = 20%nat → Forall good_call cs → Z.of_nat (length cs) ≤ INT_MAX →
  let w0 := w_collect (World (w_names w) (w_contents w) ∅) in
  ∃ t', filesys_init (Some (dev s)) mem false t = Ok (tt, t') ∧ fsys_world t' ∅ w0 ∧
  ∃ rs t'' T' w', run_calls (FileSys0 := fs_sys junk) cs (t', ∅) = Ok (rs, (t'', T')) ∧ spec_calls w0 cs rs w' ∧ fsys_world t'' T' w'.
Proof.
  intros (ops & (f & i & rd & D & [Hdk _ _]) & _) Hbt Hl Hw Hj Hg Hn w0. destruct (mount_ok s f i rd _ D t mem Hdk Hbt Hl Hw) as (t' & E & Hworld).
  exists t'. split; [done|]. split; [exact Hworld|]. apply (@calls_refine _ (fs_sys junk) _ (fs_laws junk Hj)); [exact Hworld|done|]. by rewrite map_size_empty.
Qed.

(** A file that is removed while it is open, on a device of 40 sectors. *)
Definition demo_calls : list call :=
  [Create [97] 5; Open 1 [97]; Write 1 [104; 105]; Seek 1 1; Read 1 9; Remove [97]; Open 2 [97]; Seek 1 0; Read 1 2; Close 1; Length 1; Create [98] 3].

Definition demo_run : res (list reply * (fs * gmap Z file)) := run_calls (FileSys0 := fs_sys (replicate 20 9)) demo_calls (demo_formatted, ∅).

Lemma demo_calls_good : Forall good_call demo_calls.
Proof.
  unfold demo_calls. repeat constructor; unfold INT_MAX; try lia; try (cbn [length]; lia); try (apply (bool_decide_eq_true_1 _); by vm_compute).
Qed.

Lemma demo_calls_few : Z.of_nat (length demo_calls) ≤ INT_MAX.
Proof. done. Qed.

Lemma demo_blank_boots : booted demo_blank.
Proof. split; [done|done|]. split; [done|]. intros a _. apply lookup_empty. Qed.

Lemma demo_blank_dev : dev_ok (dev demo_blank).
Proof. apply dev_okb_ok. by vm_compute. Qed.

Definition demo_replies : list reply :=
  [Answer true; Answer true; Number 2; Number 1; Bytes [105; 0; 0; 0]; Answer true; Answer false; Number 0; Bytes [104; 105]; Answer true; BadHandle; Answer true].

Lemma demo_init s : filesys_init (Some (dev demo_blank)) (replicate 2 7) true demo_blank = Ok (tt, s) → s = demo_formatted.
Proof. intros E. unfold demo_formatted. by rewrite E. Qed.

Lemma demo_run_replies : match demo_run with Ok (rs, _) => rs | _ => [] end = demo_replies.
Proof. by vm_compute. Qed.

Lemma demo_run_ok rs s T : demo_run = Ok (rs, (s, T)) → rs = demo_replies.
Proof. intros E. rewrite <-demo_run_replies. by rewrite E. Qed.

Lemma demo_run_sectors : match demo_run with Ok (_, (s, _)) => bsize (dev s) | _ => 0 end = 40.
Proof. by vm_compute. Qed.

Lemma demo_run_size rs s T : demo_run = Ok (rs, (s, T)) → bsize (dev s) = 40.
Proof. intros E. rewrite <-demo_run_sectors. by rewrite E. Qed.

Lemma demo_mem_ok : Forall is_u32 (replicate 2 7).
Proof. by apply Forall_replicate. Qed.

Lemma demo_size_ok : 4 ≤ bsize (dev demo_blank) ≤ 2 ^ 28.
Proof. simpl. lia. Qed.

Lemma file_system_refines_spec_witness :
  ∃ s s' T w, filesys_init (Some (dev demo_blank)) (replicate 2 7) true demo_blank = Ok (tt, s) ∧
    run_calls (FileSys0 := fs_sys (replicate 20 9)) demo_calls (s, ∅) = Ok (demo_replies, (s', T)) ∧ fsys_world s' T w.
Proof.
  destruct (file_system_refines_spec demo_blank (dev demo_blank) (replicate 2 7) (replicate 20 9) demo_calls demo_blank_boots eq_refl demo_blank_dev demo_size_ok eq_refl
    demo_mem_ok eq_refl demo_calls_good demo_calls_few) as (s & E & rs & s' & T & w & E1 & _ & Hw).
  pose proof (demo_init s E) as Es. rewrite Es in E, E1. rewrite (demo_run_ok _ _ _ E1) in E1.
  exact (ex_intro _ demo_formatted (ex_intro _ s' (ex_intro _ T (ex_intro _ w (conj E (conj E1 Hw)))))).
Defined.

Lemma demo_after : ∃ rs s T w, demo_run = Ok (rs, (s, T)) ∧ fsys_world s T w ∧ bsize (dev s) = 40.
Proof.
  destruct (init_format_ok demo_blank (dev demo_blank) (replicate 2 7) demo_blank_boots eq_refl demo_blank_dev demo_size_ok eq_refl demo_mem_ok) as (s0 & E & Hw0).
  pose proof (demo_init s0 E) as Es.
  destruct (@calls_refine _ (fs_sys (replicate 20 9)) _ (fs_laws (replicate 20 9) eq_refl) demo_calls s0 ∅ _ Hw0 demo_calls_good ltac:(by rewrite map_size_empty)) as (rs & s & T & w & E1 & _ & Hw).
  rewrite Es in E1. exists rs, s, T, w. split_and!; [done|done|].
  exact (demo_run_size _ _ _ E1).
Qed.

Lemma remount_keeps_files_witness :
  ∃ rs s T w t' rs' t'' T', demo_run = Ok (rs, (s, T)) ∧ filesys_init (Some (dev s)) (replicate 2 7) false demo_blank = Ok (tt, t') ∧
    fsys_world t' ∅ (w_collect (World (w_names w) (w_contents w) ∅)) ∧ run_calls (FileSys0 := fs_sys (replicate 20 9)) demo_calls (t', ∅) = Ok (rs', (t'', T')).
Proof.
  destruct demo_after as (rs & s & T & w & E & Hw & H40).
  destruct (remount_keeps_files s T w demo_blank (replicate 2 7) (replicate 20 9) demo_calls Hw demo_blank_boots) as (t' & E' & Hw' & rs' & t'' & T' & _ & E'' & _);
    [by rewrite H40|exact demo_mem_ok|done|exact demo_calls_good|exact demo_calls_few|].
  exact (ex_intro _ rs (ex_intro _ s (ex_intro _ T (ex_intro _ w (ex_intro _ t' (ex_intro _ rs' (ex_intro _ t'' (ex_intro _ T' (conj E (conj E' (conj Hw' E''))))))))))).
Defined.
