(* ===== verification/Loader.v ===== *)
(** Loading an executable (src/userprog/process.c): [load] with [install_page],
    [validate_segment], [load_segment] and [setup_stack], which build the address space
    of a new process from a file. This is the build without the option VM, where pages
    come from the page allocator directly.

    The state is the machine with its page tables, the file system, and the page
    directory of the running thread. The theorems show that whatever the file holds,
    if the arguments fit in the page of the stack, [load] returns and leaves the kernel in order, and that a process that is started sees
    the segments of its file and its arguments. *)

From S2P Require Import CString Directory.
From S2P Require Import Prelude Vaddr Palloc Pages Disk Inode Files Pagedir AddrSpace UserMem Space ArgPass.

(** ** The format of executables *)

Definition of_le16 (l : list Z) : Z :=
  match l with [a; b] => a + 256 * b | _ => 0 end.

Definition half (l : list Z) (ofs : nat) : Z := of_le16 (take 2 (drop ofs l)).
Definition word32 (l : list Z) (ofs : nat) : Z := of_le32 (take 4 (drop ofs l)).

Record Elf32_Ehdr := Ehdr {
  e_ident : list Z;
  e_type : Z;
  e_machine : Z;
  e_version : Z;
  e_entry : Z;
  e_phoff : Z;
  e_shoff : Z;
  e_flags : Z;
  e_ehsize : Z;
  e_phentsize : Z;
  e_phnum : Z;
  e_shentsize : Z;
  e_shnum : Z;
  e_shstrndx : Z;
}.

Definition decode_ehdr (l : list Z) : Elf32_Ehdr :=
  Ehdr (take 16 l) (half l 16) (half l 18) (word32 l 20) (word32 l 24) (word32 l 28) (word32 l 32) (word32 l 36)
    (half l 40) (half l 42) (half l 44) (half l 46) (half l 48) (half l 50).

Record Elf32_Phdr := Phdr {
  p_type : Z;
  p_offset : Z;
  p_vaddr : Z;
  p_paddr : Z;
  p_filesz : Z;
  p_memsz : Z;
  p_flags : Z;
  p_align : Z;
}.

Definition decode_phdr (l : list Z) : Elf32_Phdr :=
  Phdr (word32 l 0) (word32 l 4) (word32 l 8) (word32 l 12) (word32 l 16) (word32 l 20) (word32 l 24) (word32 l 28).

Definition PT_LOAD : Z := 1.
Definition PT_DYNAMIC : Z := 2.
Definition PT_INTERP : Z := 3.
Definition PT_SHLIB : Z := 5.
Definition PF_W : Z := 2.

Definition ROUND_UP (x step : Z) : Z := u32 (u32 (x + step - 1) / step * step).

(** ** The loader *)

Section code.
Context {P : Type} `{!PageOps P} {F : Type} `{!FileSys F} (init_page_dir init_ram_pages : Z).

Record kstate := KState { mach : machine P; fsys : F; t_pagedir : Z }.

Definition onMach {A} (m : machine P → res (A * machine P)) : ST kstate A :=
  λ k, '(a, s) ← m (mach k); Ok (a, KState s (fsys k) (t_pagedir k)).

Definition onMach_ (m : machine P → res (machine P)) : ST kstate unit := onMach (λ s, s ← m s; Ok (tt, s)).

Definition onFiles {A} (m : ST F A) : ST kstate A :=
  λ k, '(a, f) ← m (fsys k); Ok (a, KState (mach k) f (t_pagedir k)).

Definition get_page (flags : Z) (s : machine P) : res (Z * machine P) :=
  '(a, p) ← get_pages flags 1 (phys s); Ok (a, set_phys s p).

Definition free_page (page : Z) (s : machine P) : res (machine P) :=
  p ← free_pages page 1 (phys s); Ok (set_phys s p).

(** The [n] bytes of the kernel's memory from [a] on. *)
Definition mem_bytes (s : machine P) (a n : Z) : list Z := (λ i, pmem (phys s) (a + i)) <$> seqZ 0 n.

Definition put_mem (s : machine P) (a : Z) (l : list Z) : machine P :=
  set_phys s (set_pmem (λ x, if (a <=? x) && (x <? a + Z.of_nat (length l))
    then default 0 (l !! Z.to_nat (x - a)) else pmem (phys s) x) (phys s)).

(** [file_read] into a page of the kernel. *)
Definition read_into (f : file) (a n : Z) : ST kstate (Z * file) :=
  k <-- getS ;;
  '(r, buf, f) <-- onFiles (fsys_read f (mem_bytes (mach k) a n) n) ;;
  onMach_ (λ s, Ok (put_mem s a buf)) ;;;
  retS (r, f).

Definition install_page (upage kpage : Z) (writable : bool) : ST kstate bool :=
  k <-- getS ;;
  p <-- liftS (pagedir_get_page (t_pagedir k) upage (mach k)) ;;
  if p =? NULL then onMach (pagedir_set_page init_page_dir init_ram_pages (t_pagedir k) upage kpage writable)
  else retS false.

Definition validate_segment (phdr : Elf32_Phdr) (f : file) : ST kstate bool :=
  if negb (Z.land (p_offset phdr) PGMASK =? Z.land (p_vaddr phdr) PGMASK) then retS false
  else
    len <-- onFiles (fsys_length f) ;;
    if u32 len <? p_offset phdr then retS false
    else if p_memsz phdr <? p_filesz phdr then retS false
    else if p_memsz phdr =? 0 then retS false
    else if negb (is_user_vaddr (p_vaddr phdr)) then retS false
    else if negb (is_user_vaddr (u32 (p_vaddr phdr + p_memsz phdr))) then retS false
    else if u32 (p_vaddr phdr + p_memsz phdr) <? p_vaddr phdr then retS false
    else if p_vaddr phdr <? PGSIZE then retS false
    else retS true.

(** One page of a segment, in the body of the loop of [load_segment]. *)
Definition load_page (f : file) (upage page_read_bytes page_zero_bytes : Z) (writable : bool) : ST kstate (bool * file) :=
  kpage <-- onMach (get_page PAL_USER) ;;
  if kpage =? NULL then retS (false, f)
  else
    '(n, f) <-- read_into f kpage page_read_bytes ;;
    if negb (n =? page_read_bytes) then onMach_ (free_page kpage) ;;; retS (false, f)
    else
      onMach_ (λ s, Ok (put_mem s (kpage + page_read_bytes) (replicate (Z.to_nat page_zero_bytes) 0))) ;;;
      ok <-- install_page upage kpage writable ;;
      if negb ok then onMach_ (free_page kpage) ;;; retS (false, f)
      else retS (true, f).

Fixpoint load_pages (fuel : nat) (f : file) (upage read_bytes zero_bytes : Z) (writable : bool) : ST kstate (bool * file) :=
  match fuel with
  | O => λ _, Timeout
  | S fuel =>
      if (0 <? read_bytes) || (0 <? zero_bytes) then
        let page_read_bytes := if read_bytes <? PGSIZE then read_bytes else PGSIZE in
        let page_zero_bytes := PGSIZE - page_read_bytes in
        '(ok, f) <-- load_page f upage page_read_bytes page_zero_bytes writable ;;
        if negb ok then retS (false, f)
        else load_pages fuel f (u32 (upage + PGSIZE)) (u32 (read_bytes - page_read_bytes)) (u32 (zero_bytes - page_zero_bytes)) writable
      else retS (true, f)
  end.

(** Every iteration takes [PGSIZE] bytes off the total. *)
Definition pages_fuel (read_bytes zero_bytes : Z) : nat := S (Z.to_nat (u32 (read_bytes + zero_bytes) / PGSIZE)).

Definition load_segment (f : file) (ofs upage read_bytes zero_bytes : Z) (writable : bool) : ST kstate (bool * file) :=
  assertS (u32 (read_bytes + zero_bytes) mod PGSIZE =? 0) ;;;
  assertS (pg_ofs upage =? 0) ;;;
  assertS (Z.rem ofs PGSIZE =? 0) ;;;
  f <-- onFiles (fsys_seek f ofs) ;;
  load_pages (pages_fuel read_bytes zero_bytes) f upage read_bytes zero_bytes writable.

(** The case [PT_LOAD] of [load]. *)
Definition load_phdr (phdr : Elf32_Phdr) (f : file) : ST kstate (bool * file) :=
  let writable := negb (Z.land (p_flags phdr) PF_W =? 0) in
  let file_page := Z.land (p_offset phdr) (u32 (Z.lnot PGMASK)) in
  let mem_page := Z.land (p_vaddr phdr) (u32 (Z.lnot PGMASK)) in
  let page_offset := Z.land (p_vaddr phdr) PGMASK in
  let '(read_bytes, zero_bytes) :=
    if 0 <? p_filesz phdr then
      let read_bytes := u32 (page_offset + p_filesz phdr) in
      (read_bytes, u32 (ROUND_UP (u32 (page_offset + p_memsz phdr)) PGSIZE - read_bytes))
    else (0, ROUND_UP (u32 (page_offset + p_memsz phdr)) PGSIZE) in
  load_segment f (s32 file_page) mem_page read_bytes zero_bytes writable.

(** The loop over the program headers; [phdr0] is what the variable holds before. *)
Fixpoint load_phdrs (n : nat) (phdr0 : list Z) (file_ofs : Z) (f : file) : ST kstate (bool * file) :=
  match n with
  | O => retS (true, f)
  | S n =>
      if file_ofs <? 0 then retS (false, f)
      else
        len <-- onFiles (fsys_length f) ;;
        if len <? file_ofs then retS (false, f)
        else
          f <-- onFiles (fsys_seek f file_ofs) ;;
          '(r, buf, f) <-- onFiles (fsys_read f phdr0 32) ;;
          if negb (r =? 32) then retS (false, f)
          else
            let file_ofs := s32 (file_ofs + 32) in
            let phdr := decode_phdr buf in
            if (p_type phdr =? PT_DYNAMIC) || (p_type phdr =? PT_INTERP) || (p_type phdr =? PT_SHLIB) then retS (false, f)
            else if p_type phdr =? PT_LOAD then
              v <-- validate_segment phdr f ;;
              if v : bool then
                '(ok, f) <-- load_phdr phdr f ;;
                if ok : bool then load_phdrs n phdr0 file_ofs f else retS (false, f)
              else retS (false, f)
            else load_phdrs n phdr0 file_ofs f
  end.

(** The new stack pointer, or nothing. *)
Definition setup_stack (params : uprg_params) : ST kstate (option Z) :=
  kpage <-- onMach (get_page (Z.lor PAL_USER PAL_ZERO)) ;;
  if kpage =? NULL then retS None
  else
    success <-- install_page (PHYS_BASE - PGSIZE) kpage true ;;
    if success : bool then esp <-- onMach (push_args params) ;; retS (Some esp)
    else onMach_ (free_page kpage) ;;; retS None.

Definition bad_ehdr (h : Elf32_Ehdr) : bool :=
  negb (bool_decide (take 7 (e_ident h) = [127; 69; 76; 70; 1; 1; 1])) || negb (e_type h =? 2) || negb (e_machine h =? 3) ||
  negb (e_version h =? 1) || negb (e_phentsize h =? 32) || (1024 <? e_phnum h).

(** [load] once the file is open: the entry point and the stack pointer, or nothing. *)
Definition load_file (params : uprg_params) (ehdr0 phdr0 : list Z) (f : file) : ST kstate (option (Z * Z) * file) :=
  '(r, buf, f) <-- onFiles (fsys_read f ehdr0 52) ;;
  let ehdr := decode_ehdr buf in
  if negb (r =? 52) || bad_ehdr ehdr then retS (None, f)
  else
    '(ok, f) <-- load_phdrs (Z.to_nat (e_phnum ehdr)) phdr0 (s32 (e_phoff ehdr)) f ;;
    if negb ok then retS (None, f)
    else
      o <-- setup_stack params ;;
      match o with
      | Some esp => retS (Some (e_entry ehdr, esp), f)
      | None => retS (None, f)
      end.

Definition load (params : uprg_params) (ehdr0 phdr0 : list Z) : ST kstate (option (Z * Z)) :=
  pd <-- onMach (pagedir_create init_page_dir) ;;
  k <-- getS ;;
  putS (KState (mach k) (fsys k) pd) ;;;
  if pd =? NULL then retS None
  else
    onMach_ (pagedir_activate init_page_dir pd) ;;;
    file_name <-- liftS (c_string (cmdline params)) ;;
    o <-- onFiles (fsys_open file_name) ;;
    match o with
    | None => retS None
    | Some f =>
        '(r, f) <-- load_file params ehdr0 phdr0 f ;;
        onFiles (fsys_close f) ;;;
        retS r
    end.

(** [process_exit]: the directory of the process is destroyed after switching to the one of
    the kernel. *)
Definition process_exit : ST kstate unit :=
  k <-- getS ;;
  let pd := t_pagedir k in
  if negb (pd =? NULL) then
    putS (KState (mach k) (fsys k) NULL) ;;;
    onMach_ (pagedir_activate init_page_dir NULL) ;;;
    onMach_ (pagedir_destroy init_page_dir pd)
  else retS tt.

End code.
Arguments kstate : clear implicits.

(** ** Pages of a segment *)

Section proof.
Context {P : Type} `{!PageOps P} `{!PageLaws P} {F : Type} `{!FileSys F} `{!FileInv F} `{!FileLaws F} (ip ram : Z) (others : Z → Prop) (own0 : gmap Z owner).
Implicit Types (s : machine P) (own : gmap Z owner) (fs : F) (f : file).
Local Abbreviation kst := (kstate P F).

Lemma onMach_Ok {A} (m : machine P → res (A * machine P)) (k : kst) a s' :
  m (mach k) = Ok (a, s') → onMach m k = Ok (a, KState s' (fsys k) (t_pagedir k)).
Proof. unfold onMach. by intros ->. Qed.

Lemma onMach_unit (m : machine P → res (machine P)) (k : kst) s' :
  m (mach k) = Ok s' → onMach_ m k = Ok (tt, KState s' (fsys k) (t_pagedir k)).
Proof. unfold onMach_, onMach. by intros ->. Qed.

Lemma onFiles_Ok {A} (m : ST F A) (k : kst) a fs' :
  m (fsys k) = Ok (a, fs') → onFiles m k = Ok (a, KState (mach k) fs' (t_pagedir k)).
Proof. unfold onFiles. by intros ->. Qed.

Lemma put_mem_ok s own d h g a l :
  space ip ram others own0 s own d h → own !! g = Some IsHeld → PGSIZE * g ≤ a → a + Z.of_nat (length l) ≤ PGSIZE * g + PGSIZE → Forall is_byte l →
  space ip ram others own0 (put_mem s a l) own d h ∧ same_view s (put_mem s a l) ∧
  ∀ x, pmem (phys (put_mem s a l)) x = if (a <=? x) && (x <? a + Z.of_nat (length l)) then default 0 (l !! Z.to_nat (x - a)) else pmem (phys s) x.
Proof using PageLaws0.
  intros Hsp Hg H1 H2 Hl. apply (space_fill ip ram others own0 s own d g h); try done.
  - intros x. destruct (_ && _); [|apply (mi_vm _ _ _ _ (sp_inv _ _ _ _ _ _ _ _ Hsp))].
    destruct (l !! Z.to_nat (x - a)) as [v|] eqn:Ev; [|done]. by eapply Forall_lookup_1 in Ev.
  - intros x Hx. destruct (Z.leb_spec a x), (Z.ltb_spec x (a + Z.of_nat (length l))); try done. exfalso. apply Hx. simpl.
    symmetry. apply (Z.div_unique _ _ _ (x - PGSIZE * g)); lia.
Qed.

Lemma overwrite_whole (buf part : list Z) i :
  (length part ≤ length buf)%nat → overwrite buf 0 part !! i = if decide (i < length part)%nat then part !! i else buf !! i.
Proof. intros H. rewrite overwrite_lookup by lia. rewrite Nat.sub_0_r. destruct (decide (i < length part)%nat); [rewrite decide_True by lia|rewrite decide_False by lia]; done. Qed.

Lemma mem_bytes_lookup s a n i : (i < Z.to_nat n)%nat → mem_bytes s a n !! i = Some (pmem (phys s) (a + Z.of_nat i)).
Proof. intros Hi. unfold mem_bytes. rewrite list_lookup_fmap, lookup_seqZ_lt by lia. done. Qed.

Lemma mem_bytes_length s a n : length (mem_bytes s a n) = Z.to_nat n.
Proof. unfold mem_bytes. by rewrite length_fmap, length_seqZ. Qed.

(** The bytes of a file that a read gives. *)
Definition part_of (l : list Z) (pos n : Z) : list Z := take (Z.to_nat n) (drop (Z.to_nat pos) l).

Lemma read_into_ok s own d h g f l n fs pd :
  space ip ram others own0 s own d h → own !! g = Some IsHeld → file_is fs f l → 0 ≤ fpos f ≤ INT_MAX → 0 ≤ n ≤ PGSIZE →
  let part := part_of l (fpos f) n in
  ∃ s', read_into f (PGSIZE * g) n (KState s fs pd) =
      Ok ((Z.of_nat (length part), at_pos f (fpos f + Z.of_nat (length part))), KState s' fs pd) ∧
    space ip ram others own0 s' own d h ∧ same_view s s' ∧
    ∀ i, pmem (phys s') (PGSIZE * g + i) = if (0 <=? i) && (i <? Z.of_nat (length part)) then default 0 (part !! Z.to_nat i) else pmem (phys s) (PGSIZE * g + i).
Proof using PageLaws0 FileLaws0.
  intros Hsp Hg Hf Hp Hn part. assert (length part ≤ Z.to_nat n)%nat as Hlp by (unfold part, part_of; rewrite length_take; lia).
  pose proof (proj2 (file_law fs f l Hf)) as Hby. unfold read_into. unfold getS. unfold bindS at 1. cbn [mach].
  pose proof (read_law fs f l (mem_bytes s (PGSIZE * g) n) n Hf Hp ltac:(unfold PGSIZE, INT_MAX in *; lia) ltac:(rewrite mem_bytes_length; lia)) as Hrd.
  cbv zeta in Hrd. fold (part_of l (fpos f) n) in Hrd. fold part in Hrd.
  rewrite (bindS_Ok _ _ _ _ _ (onFiles_Ok _ (KState s fs pd) _ _ Hrd)). set (buf := overwrite _ 0 part).
  assert (length buf = Z.to_nat n) as Hlb by (unfold buf; rewrite overwrite_length; rewrite mem_bytes_length; lia).
  assert (∀ i, (i < Z.to_nat n)%nat → buf !! i = if decide (i < length part)%nat then part !! i else Some (pmem (phys s) (PGSIZE * g + Z.of_nat i))) as Hbuf.
  { intros i Hi. unfold buf. rewrite overwrite_whole by (rewrite mem_bytes_length; lia). case_decide; [done|]. by apply mem_bytes_lookup. }
  assert (Forall is_byte part) as Hpb by (by apply Forall_take, Forall_drop).
  destruct (put_mem_ok s own d h g (PGSIZE * g) buf) as (Hsp' & Hv & Hm); try done; [lia..| |].
  { apply Forall_lookup. intros i v Hv. pose proof (lookup_lt_Some _ _ _ Hv). rewrite Hbuf in Hv by lia. case_decide; [by eapply Forall_lookup_1|].
    injection Hv as <-. apply (mi_vm _ _ _ _ (sp_inv _ _ _ _ _ _ _ _ Hsp)). }
  exists (put_mem s (PGSIZE * g) buf). split; [by rewrite (bindS_Ok _ _ _ _ _ (onMach_unit (λ s, Ok (put_mem s (PGSIZE * g) buf)) (KState s fs pd) _ eq_refl))|]. split_and!; try done.
  intros i. rewrite Hm, Hlb. replace (PGSIZE * g + i - PGSIZE * g) with i by lia.
  destruct (Z.leb_spec 0 i), (Z.ltb_spec i (Z.of_nat (length part))); cbn [andb].
  - rewrite (proj2 (Z.leb_le _ _)), (proj2 (Z.ltb_lt _ _)) by lia. cbn [andb]. rewrite Hbuf, decide_True by lia. done.
  - destruct (Z.leb_spec (PGSIZE * g) (PGSIZE * g + i)), (Z.ltb_spec (PGSIZE * g + i) (PGSIZE * g + Z.of_nat (Z.to_nat n))); try done. cbn [andb].
    rewrite Hbuf, decide_False by lia. cbn [default from_option id]. do 2 f_equal. lia.
  - rewrite (proj2 (Z.leb_gt _ _)) by lia. done.
  - rewrite (proj2 (Z.leb_gt _ _)) by lia. done.
Qed.

(** What is mapped at page [u] of a process. *)
Lemma page_view s own d h u :
  space ip ram others own0 s own d h → 0 ≤ u < 786432 →
  if has_flag (entry s d u) PTE_P then ∀ a, a / PGSIZE = u → is_Some (user_byte s a) else ∀ a, a / PGSIZE = u → user_byte s a = None.
Proof using PageLaws0.
  intros Hsp Hu. destruct (has_flag (entry s d u) PTE_P) eqn:HP; intros a Ha; destruct (view_of ip s own d a (sp_inv _ _ _ _ _ _ _ _ Hsp)) as [-> _];
    rewrite Ha, HP, ?andb_false_r; [|done]. rewrite (proj2 (in_user_iff a)) by (by eapply user_page_in). by eexists.
Qed.

Lemma install_ok s own d u g w fs :
  space ip ram others own0 s own d (Some g) → 0 ≤ u < 786432 → own !! g = Some IsHeld → own0 !! g = None →
  ∃ b s' own', install_page (PGSIZE * ip) ram (PGSIZE * u) (PGSIZE * g) w (KState s fs (PGSIZE * d)) = Ok (b, KState s' fs (PGSIZE * d)) ∧
    space ip ram others own0 s' own' d (if b then None else Some g) ∧
    if b then page_mapped s s' u g w ∧ ∀ a, a / PGSIZE = u → user_byte s a = None else own' !! g = Some IsHeld ∧ same_view s s'.
Proof using PageLaws0.
  intros Hsp Hu Hg H0. pose proof (sp_inv _ _ _ _ _ _ _ _ Hsp) as Hmi. pose proof Hmi as [Hvm [Hd _] _ _ _]. pose proof (page_view s own d _ u Hsp Hu) as Hview.
  assert (0 ≤ PGSIZE * u < PHYS_BASE) as Hv by (unfold PGSIZE, PHYS_BASE; lia).
  assert (PGSIZE * u / PGSIZE = u) as Eu by (rewrite Z.mul_comm; by apply Z.div_mul).
  unfold install_page, getS. unfold bindS at 1. cbn [t_pagedir mach].
  destruct (get_page_ok s own d (PGSIZE * u) Hvm Hd Hv) as [Egp Hok]. cbv zeta in Egp, Hok. rewrite Eu in Egp, Hok.
  unfold bindS at 1, liftS at 1. rewrite Egp. destruct (has_flag (entry s d u) PTE_P) eqn:HP.
  - pose proof (frame_range _ (Hok eq_refl)). pose proof (Z.mod_pos_bound (PGSIZE * u) PGSIZE ltac:(done)) as Hofs. rewrite <-pg_ofs_mod in Hofs.
    rewrite (proj2 (Z.eqb_neq _ _)) by (unfold PGSIZE in *; lia). exists false, s, own. split_and!; done.
  - cbn [Z.eqb]. destruct (space_map ip ram others own0 s own d u g w Hsp Hu Hg H0 HP) as (b & s' & own' & E & Hsp' & Hb).
    exists b, s', own'. split_and!; [by rewrite (onMach_Ok _ (KState s fs (PGSIZE * d)) _ _ E)|done|]. by destruct b.
Qed.

(** [n] pages from [u] on have been added, with contents [g] and rights [w]. *)
Record loaded s s' (u n : Z) (g : Z → option Z) (w : bool) : Prop := {
  ld_byte : ∀ a, user_byte s' a = if (u <=? a / PGSIZE) && (a / PGSIZE <? u + n) then g (a - PGSIZE * u) else user_byte s a;
  ld_writable : ∀ a, user_writable s' a = if (u <=? a / PGSIZE) && (a / PGSIZE <? u + n) then w else user_writable s a;
  ld_new : ∀ a, u ≤ a / PGSIZE < u + n → user_byte s a = None;
}.

(** The contents of a segment: bytes of the file from [pos] on, then zeros. *)
Definition segment (l : list Z) (pos rb i : Z) : option Z := if i <? rb then l !! Z.to_nat (pos + i) else Some 0.

Lemma loaded_none s s' u g w : same_view s s' → loaded s s' u 0 g w.
Proof.
  intros [B W]. assert (∀ a, (u <=? a / PGSIZE) && (a / PGSIZE <? u + 0) = false) as E by lia.
  split; intros a; rewrite ?E; [apply B|apply W|]. lia.
Qed.

Lemma loaded_cons s s1 s2 u n g g' w :
  loaded s s1 u 1 g w → loaded s1 s2 (u + 1) n g' w → 0 ≤ n → (∀ i, PGSIZE ≤ i → g' (i - PGSIZE) = g i) → loaded s s2 u (n + 1) g w.
Proof.
  intros [B1 W1 N1] [B2 W2 N2] Hn Hg. split; intros a.
  - rewrite B2, B1. pose proof (Z.div_mod a PGSIZE ltac:(done)). pose proof (Z.mod_pos_bound a PGSIZE ltac:(done)). repeat zcase; cbn [andb]; try lia; try done.
    rewrite <-Hg by (unfold PGSIZE in *; lia). f_equal. unfold PGSIZE. lia.
  - rewrite W2, W1. repeat zcase; cbn [andb]; try lia; done.
  - intros Ha. destruct (decide (a / PGSIZE = u)); [apply N1; lia|]. specialize (N2 a ltac:(lia)). rewrite B1 in N2.
    rewrite (proj2 (Z.ltb_ge _ _)), andb_false_r in N2 by lia. done.
Qed.

(** A file handle after some reads and seeks. *)
Definition moved f f' : Prop := f' = at_pos f (fpos f') ∧ 0 ≤ fpos f' ≤ INT_MAX.

Lemma moved_is fs f f' l : moved f f' → file_is fs f l → file_is fs f' l.
Proof using FileLaws0. intros [-> ?] Hf. by apply pos_law. Qed.

Lemma moved_trans f1 f2 f3 : moved f1 f2 → moved f2 f3 → moved f1 f3.
Proof. intros [E1 _] [E2 H]. split; [|done]. rewrite E2, E1. done. Qed.

Lemma part_length l pos n : 0 ≤ pos → 0 ≤ n → Z.of_nat (length (part_of l pos n)) = Z.max 0 (Z.min n (Z.of_nat (length l) - pos)).
Proof. intros Hp Hn. unfold part_of. rewrite length_take, length_drop. lia. Qed.

Lemma free_kpage_ok s own d g fs pd :
  space ip ram others own0 s own d (Some g) → own !! g = Some IsHeld → own0 !! g = None →
  ∃ s' own', onMach_ (free_page (PGSIZE * g)) (KState s fs pd) = Ok (tt, KState s' fs pd) ∧ space ip ram others own0 s' own' d None ∧ same_view s s'.
Proof using PageLaws0.
  intros Hsp Hg H0. destruct (space_free ip ram others own0 s own d g Hsp Hg H0) as (p & E & Hsp' & Hv). exists (set_phys s p), (delete g own).
  split; [|done]. apply (onMach_unit _ (KState s fs pd)). unfold free_page. cbn [mach]. by rewrite E.
Qed.

Lemma mapped_loaded s s3 s4 u g w c :
  page_mapped s3 s4 u g w → same_view s s3 → 0 ≤ u < 786432 → (∀ a, a / PGSIZE = u → user_byte s3 a = None) →
  (∀ i, 0 ≤ i < PGSIZE → Some (pmem (phys s3) (PGSIZE * g + i)) = c i) → loaded s s4 u 1 c w.
Proof.
  intros [Hby Hwr] [Bv Wv] Hu Hnew Hc. assert (∀ a, (u <=? a / PGSIZE) && (a / PGSIZE <? u + 1) = (a / PGSIZE =? u)) as Eu by lia.
  split; intros a.
  - rewrite Eu, Hby, Bv by done. destruct (Z.eqb_spec (a / PGSIZE) u) as [Ea|]; [|done]. pose proof (Z.mod_pos_bound a PGSIZE ltac:(done)).
    rewrite Hc by done. f_equal. rewrite <-Ea. pose proof (Z.div_mod a PGSIZE ltac:(done)). lia.
  - rewrite Eu, Hwr, Wv by done. done.
  - intros Ha. rewrite <-Bv. apply Hnew. lia.
Qed.

Lemma load_page_ok s own d u pr w f l fs :
  space ip ram others own0 s own d None → 0 ≤ u < 786432 → 0 ≤ pr ≤ PGSIZE → file_is fs f l → 0 ≤ fpos f ≤ INT_MAX →
  ∃ b f' s' own', load_page (PGSIZE * ip) ram f (PGSIZE * u) pr (PGSIZE - pr) w (KState s fs (PGSIZE * d)) = Ok ((b, f'), KState s' fs (PGSIZE * d)) ∧
    moved f f' ∧ space ip ram others own0 s' own' d None ∧
    if b then loaded s s' u 1 (segment l (fpos f) pr) w ∧ fpos f' = fpos f + pr ∧ (0 < pr → fpos f + pr ≤ Z.of_nat (length l)) else True.
Proof using PageLaws0 FileLaws0.
  intros Hsp Hu Hpr Hf Hp. unfold load_page. assert (moved f f) as Hmv by (by split; [destruct f|]). pose proof (proj1 (file_law fs f l Hf)) as Hlen.
  destruct (space_get ip ram others own0 s own d PAL_USER Hsp ltac:(done)) as (p & [(g & E & Hnz & Hfr & Hsp1 & Hv1 & _)|(E & Hsp1 & Hv1)]).
  all: assert (∀ a, get_pages PAL_USER 1 (phys s) = Ok (a, p) → onMach (get_page PAL_USER) (KState s fs (PGSIZE * d)) = Ok (a, KState (set_phys s p) fs (PGSIZE * d))) as Hget
    by (intros a Ea; apply (onMach_Ok _ (KState s fs (PGSIZE * d))); unfold get_page; cbn [mach]; by rewrite Ea).
  all: rewrite (bindS_Ok _ _ _ _ _ (Hget _ E)).
  2:{ rewrite Z.eqb_refl. eexists false, f, _, own. split_and!; done. }
  rewrite (proj2 (Z.eqb_neq _ _)) by done. assert ((<[g := IsHeld]> own) !! g = Some IsHeld) as Hg by apply lookup_insert_eq.
  destruct (read_into_ok _ _ d _ g f l pr fs (PGSIZE * d) Hsp1 Hg Hf Hp Hpr) as (s2 & E2 & Hsp2 & Hv2 & Hm2).
  rewrite (bindS_Ok _ _ _ _ _ E2). pose proof (part_length l (fpos f) pr ltac:(lia) ltac:(lia)) as Hpl. set (part := part_of l (fpos f) pr) in *.
  assert (moved f (at_pos f (fpos f + Z.of_nat (length part)))) as Hmv' by (split; [done|]; simpl; lia).
  destruct (Z.eqb_spec (Z.of_nat (length part)) pr) as [Epr|Epr]; cbn [negb].
  2:{ destruct (free_kpage_ok s2 _ d g fs (PGSIZE * d) Hsp2 Hg Hfr) as (s3 & own3 & E3 & Hsp3 & _). rewrite (bindS_Ok _ _ _ _ _ E3).
    eexists false, _, s3, own3. split_and!; done. }
  destruct (put_mem_ok s2 _ d _ g (PGSIZE * g + pr) (replicate (Z.to_nat (PGSIZE - pr)) 0) Hsp2 Hg) as (Hsp3 & Hv3 & Hm3);
    [lia|rewrite length_replicate; lia|by apply Forall_replicate|].
  set (s3 := put_mem s2 _ _) in *. rewrite length_replicate in Hm3.
  rewrite (bindS_Ok _ _ _ _ _ (onMach_unit (λ s, Ok (put_mem s (PGSIZE * g + pr) (replicate (Z.to_nat (PGSIZE - pr)) 0))) (KState s2 fs (PGSIZE * d)) s3 eq_refl)).
  cbn [fsys t_pagedir]. destruct (install_ok s3 _ d u g w fs Hsp3 Hu Hg Hfr) as (b & s4 & own4 & E4 & Hsp4 & Hb). rewrite (bindS_Ok _ _ _ _ _ E4). destruct b; cbn [negb].
  2:{ destruct Hb as [Hg4 _]. destruct (free_kpage_ok s4 own4 d g fs (PGSIZE * d) Hsp4 Hg4 Hfr) as (s5 & own5 & E5 & Hsp5 & _). rewrite (bindS_Ok _ _ _ _ _ E5).
    eexists false, _, s5, own5. split_and!; done. }
  destruct Hb as [Hmap Hnew]. assert (same_view s s3) as Hv by (by transitivity s2; [transitivity (set_phys s p)|]).
  eexists true, _, s4, own4. split_and!; try done; [|simpl; lia|lia]. apply (mapped_loaded s s3 s4 u g w); try done.
  intros i Hi. rewrite Hm3, Hm2. unfold segment. destruct (Z.ltb_spec i pr).
  - rewrite (proj2 (Z.leb_gt _ _)) by lia. cbn [andb]. rewrite (proj2 (Z.leb_le _ _)), (proj2 (Z.ltb_lt _ _)) by lia. cbn [andb].
    unfold part, part_of. rewrite lookup_take_lt, lookup_drop by lia. destruct (lookup_lt_is_Some_2 l (Z.to_nat (fpos f) + Z.to_nat i)) as [v Ev]; [lia|].
    rewrite Ev. cbn [default from_option id]. rewrite <-Ev. f_equal. lia.
  - rewrite (proj2 (Z.leb_le _ _)), (proj2 (Z.ltb_lt _ _)) by lia. cbn [andb]. rewrite lookup_replicate_2 by lia. done.
Qed.

Lemma load_pages_ok n fuel s own d u rb zb w f l fs :
  (n < fuel)%nat → space ip ram others own0 s own d None → rb + zb = PGSIZE * Z.of_nat n → 0 ≤ rb → 0 ≤ zb → 0 ≤ u → u + Z.of_nat n ≤ 786432 →
  file_is fs f l → 0 ≤ fpos f ≤ INT_MAX →
  ∃ b f' s' own', load_pages (PGSIZE * ip) ram fuel f (PGSIZE * u) rb zb w (KState s fs (PGSIZE * d)) = Ok ((b, f'), KState s' fs (PGSIZE * d)) ∧
    moved f f' ∧ space ip ram others own0 s' own' d None ∧
    if b then loaded s s' u (Z.of_nat n) (segment l (fpos f) rb) w ∧ (0 < rb → fpos f + rb ≤ Z.of_nat (length l)) else True.
Proof using PageLaws0 FileLaws0.
  revert fuel s own u rb zb f. induction n as [|n IH]; intros fuel s own u rb zb f Hfuel Hsp Hsum Hr Hz Hu Hun Hf Hp; (destruct fuel as [|fuel]; [lia|]); cbn [load_pages].
  { unfold PGSIZE in *. replace rb with 0 by lia. replace zb with 0 by lia. cbn [Z.ltb orb Z.compare]. exists true, f, s, own.
    split; [done|]. split; [by split; [destruct f|]|]. split; [done|]. split; [by apply loaded_none|lia]. }
  set (pr := if rb <? PGSIZE then rb else PGSIZE). assert (0 ≤ pr ≤ PGSIZE ∧ pr ≤ rb ∧ PGSIZE - pr ≤ zb ∧ (pr = rb ∨ pr = PGSIZE)) as (Hpr & Hprb & Hpz & Hcase).
  { unfold pr. destruct (Z.ltb_spec rb PGSIZE); unfold PGSIZE in *; lia. }
  assert ((0 <? rb) || (0 <? zb) = true) as -> by (unfold PGSIZE in *; lia).
  destruct (load_page_ok s own d u pr w f l fs Hsp ltac:(lia) Hpr Hf Hp) as (b & f1 & s1 & own1 & E1 & Hmv & Hsp1 & Hb). rewrite (bindS_Ok _ _ _ _ _ E1).
  destruct b; cbn [negb]; [|by exists false, f1, s1, own1]. destruct Hb as (Hld & Epos & Hlen).
  unfold PGSIZE in Hpr, Hpz, Hcase, Hsum. rewrite !u32_small by (unfold is_u32, PGSIZE; lia).
  replace (PGSIZE * u + PGSIZE) with (PGSIZE * (u + 1)) by lia.
  destruct (IH fuel s1 own1 (u + 1) (rb - pr) (zb - (PGSIZE - pr)) f1) as (b & f2 & s2 & own2 & E2 & Hmv2 & Hsp2 & Hb2); try done; try (unfold PGSIZE; lia).
  { by eapply moved_is. } { apply Hmv. }
  exists b, f2, s2, own2. split_and!; [done|by eapply moved_trans|done|]. destruct b; [|done]. destruct Hb2 as [Hld2 Hlen2]. split; [|lia].
  rewrite Nat2Z.inj_succ. unfold Z.succ. eapply loaded_cons; [|exact Hld2|lia|].
  - destruct Hld as [B W N]. split; [|done..]. intros a. rewrite B. pose proof (Z.div_mod a PGSIZE ltac:(done)). pose proof (Z.mod_pos_bound a PGSIZE ltac:(done)).
    repeat zcase; cbn [andb]; try done. unfold segment. unfold PGSIZE in *. destruct Hcase as [-> | ->]; [done|]. rewrite (proj2 (Z.ltb_lt _ _)) by lia.
    rewrite (proj2 (Z.ltb_lt _ _)) by lia. done.
  - intros i Hi. unfold segment, PGSIZE in *. rewrite Epos. destruct Hcase as [-> | ->].
    + rewrite (proj2 (Z.ltb_ge _ _)) by lia. rewrite (proj2 (Z.ltb_ge _ _)) by lia. done.
    + destruct (Z.ltb_spec (i - 4096) (rb - 4096)), (Z.ltb_spec i rb); try lia; [|done]. f_equal. lia.
Qed.

(** ** Segments *)

Definition phdr_words (ph : Elf32_Phdr) : Prop :=
  is_u32 (p_type ph) ∧ is_u32 (p_offset ph) ∧ is_u32 (p_vaddr ph) ∧ is_u32 (p_filesz ph) ∧ is_u32 (p_memsz ph).

(** A segment that can be loaded: it lies above page 0 and below the kernel. *)
Record valid_phdr (l : list Z) (ph : Elf32_Phdr) : Prop := {
  vp_align : p_offset ph mod PGSIZE = p_vaddr ph mod PGSIZE;
  vp_offset : p_offset ph ≤ Z.of_nat (length l);
  vp_size : p_filesz ph ≤ p_memsz ph;
  vp_nonempty : 0 < p_memsz ph;
  vp_low : PGSIZE ≤ p_vaddr ph;
  vp_high : p_vaddr ph + p_memsz ph < PHYS_BASE;
}.

Lemma validate_ok ph f l s fs pd :
  phdr_words ph → file_is fs f l →
  ∃ b, validate_segment ph f (KState s fs pd) = Ok (b, KState s fs pd) ∧ (b = true ↔ valid_phdr l ph).
Proof using FileLaws0.
  intros (_ & Ho & Hv & Hfz & Hmz) Hf. unfold validate_segment. fold (pg_ofs (p_offset ph)) (pg_ofs (p_vaddr ph)). rewrite !pg_ofs_mod.
  destruct (Z.eqb_spec (p_offset ph mod PGSIZE) (p_vaddr ph mod PGSIZE)) as [Ha|Ha]; cbn [negb]; [|exists false; split; [done|]; split; [done|]; by intros []].
  rewrite (bindS_Ok _ _ _ _ _ (onFiles_Ok _ (KState s fs pd) _ _ (length_law fs f l Hf))). cbn [mach t_pagedir].
  destruct (file_law fs f l Hf) as [Hlen _]. unfold is_u32, is_user_vaddr in *. rewrite (u32_small (Z.of_nat _)) by (unfold is_u32, INT_MAX in *; lia).
  assert (∀ b : bool, (b = true ↔ valid_phdr l ph) → ∃ b' : bool, @retS (kstate P F) _ b (KState s fs pd) = Ok (b', KState s fs pd) ∧ (b' = true ↔ valid_phdr l ph)) as Hret by eauto.
  assert (p_vaddr ph < PHYS_BASE → u32 (p_vaddr ph + p_memsz ph) < PHYS_BASE → p_vaddr ph ≤ u32 (p_vaddr ph + p_memsz ph) → p_vaddr ph + p_memsz ph < PHYS_BASE) as Hwrap.
  { unfold u32, PHYS_BASE. intros H1 H2 H3. pose proof (Z.div_mod (p_vaddr ph + p_memsz ph) 4294967296 ltac:(lia)). lia. }
  assert (valid_phdr l ph → u32 (p_vaddr ph + p_memsz ph) = p_vaddr ph + p_memsz ph) as Hsmall.
  { intros []. apply u32_small. unfold is_u32, PHYS_BASE in *. lia. }
  repeat first [apply Hret; split; [discriminate|intros Hvp; pose proof (Hsmall Hvp); destruct Hvp; lia] | zcase; cbn [negb]].
  apply Hret. split; [|done]. intros _. split; try done; [lia|]. by apply Hwrap.
Qed.

(** The contents of memory that a segment asks for. *)
Definition segment_byte (l : list Z) (ph : Elf32_Phdr) (k : Z) : option Z :=
  if k <? p_filesz ph then l !! Z.to_nat (p_offset ph + k) else Some 0.

Definition segment_writable (ph : Elf32_Phdr) : bool := negb (Z.land (p_flags ph) PF_W =? 0).

(** The process sees the segment. *)
Definition segment_loaded s (l : list Z) (ph : Elf32_Phdr) : Prop :=
  ∀ k, 0 ≤ k < p_memsz ph →
    is_Some (segment_byte l ph k) ∧ user_byte s (p_vaddr ph + k) = segment_byte l ph k ∧ user_writable s (p_vaddr ph + k) = segment_writable ph.

(** What the process saw before it still sees, and page 0 is as it was. *)
Record keeps s s' : Prop := {
  kp_old : ∀ a, is_Some (user_byte s a) → user_byte s' a = user_byte s a ∧ user_writable s' a = user_writable s a;
  kp_null : ∀ a, a / PGSIZE = 0 → user_byte s' a = user_byte s a;
}.

#[local] Instance keeps_preorder : PreOrder keeps.
Proof.
  split; [by intros s|]. intros s1 s2 s3 [K1 N1] [K2 N2]. split; [|by intros a Ha; rewrite N2, N1].
  intros a Ha. destruct (K1 a Ha) as [B1 W1]. rewrite <-B1 in Ha. destruct (K2 a Ha) as [B2 W2]. by rewrite B2, W2.
Qed.

Lemma loaded_keeps s s' u n g w : 1 ≤ u → loaded s s' u n g w → keeps s s'.
Proof.
  intros Hu [B W N]. split; intros a.
  - intros [v Hv]. rewrite B, W. destruct ((u <=? a / PGSIZE) && (a / PGSIZE <? u + n)) eqn:E; [|done]. rewrite N in Hv; [done|lia].
  - intros Ha. rewrite B, Ha, (proj2 (Z.leb_gt _ _)) by lia. done.
Qed.

Lemma segment_keeps s s' l ph : keeps s s' → segment_loaded s l ph → segment_loaded s' l ph.
Proof.
  intros [K _] Hs k Hk. destruct (Hs k Hk) as (Hsome & B & W). rewrite <-B in Hsome. destruct (K _ Hsome) as [B' W']. rewrite B', W'. by rewrite <-B.
Qed.

Lemma ROUND_UP_page x :
  0 ≤ x → x + PGSIZE < WORD → ROUND_UP x PGSIZE = PGSIZE * ((x + PGSIZE - 1) / PGSIZE) ∧ x ≤ ROUND_UP x PGSIZE < x + PGSIZE.
Proof.
  intros H0 Hx. unfold ROUND_UP. rewrite (u32_small (x + PGSIZE - 1)) by (unfold is_u32, PGSIZE in *; lia).
  pose proof (Z.div_mod (x + PGSIZE - 1) PGSIZE ltac:(done)). pose proof (Z.mod_pos_bound (x + PGSIZE - 1) PGSIZE ltac:(done)).
  rewrite u32_small by (unfold is_u32, PGSIZE in *; lia). lia.
Qed.

(** How a valid segment is split into pages. *)
Lemma segment_split l ph :
  phdr_words ph → Z.of_nat (length l) ≤ INT_MAX → valid_phdr l ph →
  let po := p_vaddr ph mod PGSIZE in let u := p_vaddr ph / PGSIZE in let n := (po + p_memsz ph + PGSIZE - 1) / PGSIZE in
  Z.land (p_vaddr ph) (u32 (Z.lnot PGMASK)) = PGSIZE * u ∧ Z.land (p_vaddr ph) PGMASK = po ∧
  Z.land (p_offset ph) (u32 (Z.lnot PGMASK)) = p_offset ph - po ∧ ROUND_UP (u32 (po + p_memsz ph)) PGSIZE = PGSIZE * n ∧
  0 ≤ po < PGSIZE ∧ p_vaddr ph = PGSIZE * u + po ∧ (p_offset ph - po) mod PGSIZE = 0 ∧ 0 ≤ p_offset ph - po ∧
  1 ≤ u ∧ 0 ≤ n ∧ u + n ≤ 786432 ∧ po + p_memsz ph ≤ PGSIZE * n.
Proof.
  intros (_ & Ho & Hv & Hfz & Hmz) Hlen [Hal Hoff Hsz Hne Hlow Hhigh] po u n. unfold is_u32 in *.
  pose proof (Z.div_mod (p_vaddr ph) PGSIZE ltac:(done)) as Ev. pose proof (Z.mod_pos_bound (p_vaddr ph) PGSIZE ltac:(done)) as Hpo. fold po u in Ev, Hpo.
  pose proof (Z.div_mod (p_offset ph) PGSIZE ltac:(done)) as Eo. pose proof (Z.mod_pos_bound (p_offset ph) PGSIZE ltac:(done)) as Hpo'.
  fold (pg_round_down (p_vaddr ph)) (pg_round_down (p_offset ph)) (pg_ofs (p_vaddr ph)). rewrite !pg_round_down_spec, pg_ofs_mod by done. fold po.
  rewrite Hal in *. fold po in Eo, Hpo' |- *. rewrite (u32_small (po + p_memsz ph)) by (unfold is_u32, PGSIZE, PHYS_BASE in *; lia).
  destruct (ROUND_UP_page (po + p_memsz ph)) as [Er Hr]; [lia|unfold PGSIZE, PHYS_BASE in *; lia|]. fold n in Er.
  assert ((p_offset ph - po) mod PGSIZE = 0) as Emod by (rewrite Eo; replace (_ - po) with (p_offset ph / PGSIZE * PGSIZE) by lia; by apply Z.mod_mul).
  assert (0 ≤ p_offset ph / PGSIZE) by (apply Z.div_pos; [lia|done]).
  split_and!; try done; unfold PGSIZE, PHYS_BASE in *; lia.
Qed.

Lemma load_segment_ok s own d u n rb w f l fs ofs :
  space ip ram others own0 s own d None → 0 ≤ u → 0 ≤ n → u + n ≤ 786432 → 0 ≤ rb ≤ PGSIZE * n → ofs mod PGSIZE = 0 → 0 ≤ ofs ≤ INT_MAX → file_is fs f l →
  ∃ b f' s' own', load_segment (PGSIZE * ip) ram f ofs (PGSIZE * u) rb (PGSIZE * n - rb) w (KState s fs (PGSIZE * d)) = Ok ((b, f'), KState s' fs (PGSIZE * d)) ∧
    moved f f' ∧ space ip ram others own0 s' own' d None ∧
    if b then loaded s s' u n (segment l ofs rb) w ∧ (0 < rb → ofs + rb ≤ Z.of_nat (length l)) else True.
Proof using PageLaws0 FileLaws0.
  intros Hsp Hu Hn Hun Hrb Emod Hofs Hf. unfold load_segment, assertS, pages_fuel. unfold bindS at 1 2 3. replace (rb + (PGSIZE * n - rb)) with (n * PGSIZE) by lia.
  rewrite !(u32_small (n * PGSIZE)) by (unfold is_u32, PGSIZE; lia). rewrite Z.mod_mul, Z.div_mul by done.
  rewrite pg_ofs_mod, (Z.mul_comm PGSIZE u), Z.mod_mul, (Z.mul_comm u) by done. rewrite Z.rem_mod_nonneg, Emod by (done || lia). cbn [Z.eqb].
  assert (fsys_seek f ofs fs = Ok (at_pos f ofs, fs)) as Eseek by (rewrite seek_law; by rewrite (proj2 (Z.leb_le _ _)) by lia).
  rewrite (bindS_Ok _ _ _ _ _ (onFiles_Ok _ (KState s fs (PGSIZE * d)) _ _ Eseek)). cbn [mach t_pagedir].
  destruct (load_pages_ok (Z.to_nat n) (S (Z.to_nat n)) s own d u rb (PGSIZE * n - rb) w (at_pos f ofs) l fs) as (b & f' & s' & own' & E & Hmv & Hsp' & Hb);
    rewrite ?Z2Nat.id by lia; try done; try lia; [by apply pos_law|].
  rewrite Z2Nat.id in Hb by lia. exists b, f', s', own'. split_and!; [done|by eapply (moved_trans _ (at_pos f ofs))|done|]. by destruct b.
Qed.

Lemma loaded_segment s s' l ph rb :
  phdr_words ph → Z.of_nat (length l) ≤ INT_MAX → valid_phdr l ph →
  let po := p_vaddr ph mod PGSIZE in let u := p_vaddr ph / PGSIZE in let n := (po + p_memsz ph + PGSIZE - 1) / PGSIZE in
  rb = (if 0 <? p_filesz ph then po + p_filesz ph else 0) → (0 < rb → p_offset ph - po + rb ≤ Z.of_nat (length l)) →
  loaded s s' u n (segment l (p_offset ph - po) rb) (segment_writable ph) → segment_loaded s' l ph.
Proof.
  intros Hw Hlen Hvp po u n Erb Hrd [B W _] k Hk. pose proof (segment_split l ph Hw Hlen Hvp) as Hs. cbv zeta in Hs. fold po u n in Hs.
  destruct Hs as (_ & _ & _ & _ & Hpo & Ev & _ & Hoff & _ & _ & _ & Hcov). destruct Hw as (_ & Ho & _ & Hfz & _). unfold is_u32 in *.
  assert (u ≤ (p_vaddr ph + k) / PGSIZE < u + n) as Hin.
  { split; [apply Z.div_le_lower_bound; [done|lia]|apply Z.div_lt_upper_bound; [done|lia]]. }
  rewrite B, W. rewrite (proj2 (Z.leb_le _ _)), (proj2 (Z.ltb_lt _ _)) by lia. cbn [andb].
  replace (p_vaddr ph + k - PGSIZE * u) with (po + k) by lia. unfold segment, segment_byte. subst rb.
  destruct (Z.ltb_spec 0 (p_filesz ph)); [|rewrite (proj2 (Z.ltb_ge (po + k) 0)), (proj2 (Z.ltb_ge k _)) by lia; split_and!; [by eexists|done..]].
  destruct (Z.ltb_spec (po + k) (po + p_filesz ph)), (Z.ltb_spec k (p_filesz ph)); try lia; [|split_and!; [by eexists|done..]].
  replace (p_offset ph - po + (po + k)) with (p_offset ph + k) by lia. split_and!; [|done..]. apply lookup_lt_is_Some_2. lia.
Qed.

Lemma load_phdr_ok ph f l s own d fs :
  space ip ram others own0 s own d None → phdr_words ph → file_is fs f l → valid_phdr l ph →
  ∃ b f' s' own', load_phdr (PGSIZE * ip) ram ph f (KState s fs (PGSIZE * d)) = Ok ((b, f'), KState s' fs (PGSIZE * d)) ∧
    moved f f' ∧ space ip ram others own0 s' own' d None ∧ if b then keeps s s' ∧ segment_loaded s' l ph else True.
Proof using PageLaws0 FileLaws0.
  intros Hsp Hw Hf Hvp. pose proof (proj1 (file_law fs f l Hf)) as Hlen. pose proof (segment_split l ph Hw Hlen Hvp) as Hs. cbv zeta in Hs.
  set (po := p_vaddr ph mod PGSIZE) in *. set (u := p_vaddr ph / PGSIZE) in *. set (n := (po + p_memsz ph + PGSIZE - 1) / PGSIZE) in *.
  destruct Hs as (Eu & Epo & Eoff & Er & Hpo & Ev & Emod & Hoff & Hu1 & Hn & Hun & Hcov). pose proof Hw as (_ & Ho & Hv & Hfz & Hmz).
  pose proof Hvp as [_ Hofl Hsz Hne _ Hhigh]. unfold is_u32 in *. unfold load_phdr. rewrite Eu, Epo, Eoff, Er. fold (segment_writable ph).
  set (rb := if 0 <? p_filesz ph then po + p_filesz ph else 0).
  assert (0 ≤ rb ≤ PGSIZE * n) as Hrb by (unfold rb; destruct (Z.ltb_spec 0 (p_filesz ph)); lia).
  assert ((if 0 <? p_filesz ph then (u32 (po + p_filesz ph), u32 (PGSIZE * n - u32 (po + p_filesz ph))) else (0, PGSIZE * n)) = (rb, PGSIZE * n - rb)) as ->.
  { unfold rb in *. destruct (0 <? p_filesz ph); [|f_equal; lia]. rewrite !u32_small by (rewrite ?u32_small; unfold is_u32, PGSIZE, PHYS_BASE in *; lia). done. }
  rewrite s32_small by (unfold is_s32, INT_MAX in *; lia).
  destruct (load_segment_ok s own d u n rb (segment_writable ph) f l fs (p_offset ph - po)) as (b & f' & s' & own' & E & Hmv & Hsp' & Hb);
    try done; try (unfold INT_MAX in *; lia).
  exists b, f', s', own'. split_and!; try done. destruct b; [|done]. destruct Hb as [Hld Hrd]. split; [by eapply (loaded_keeps _ _ u)|].
  by apply (loaded_segment s s' l ph rb).
Qed.

(** ** Program headers *)

Lemma of_le32_range l : Forall is_byte l → is_u32 (of_le32 l).
Proof.
  intros Hl. unfold of_le32. destruct l as [|a [|b [|c [|e [|]]]]]; try by unfold is_u32.
  rewrite !Forall_cons in Hl. unfold is_byte, is_u32 in *. lia.
Qed.

Lemma word32_range l ofs : Forall is_byte l → is_u32 (word32 l ofs).
Proof. intros Hl. by apply of_le32_range, Forall_take, Forall_drop. Qed.

Lemma decode_phdr_words l : Forall is_byte l → phdr_words (decode_phdr l).
Proof. intros Hl. by repeat split; apply word32_range. Qed.

Lemma overwrite_full (buf part : list Z) : length part = length buf → overwrite buf 0 part = part.
Proof. intros H. unfold overwrite. simpl. rewrite drop_ge by lia. by rewrite app_nil_r. Qed.

Definition phdr_at (l : list Z) (ofs : Z) : Elf32_Phdr := decode_phdr (part_of l ofs 32).

(** A header that has been dealt with. *)
Definition header_done s (l : list Z) (ph : Elf32_Phdr) : Prop :=
  p_type ph ≠ PT_DYNAMIC ∧ p_type ph ≠ PT_INTERP ∧ p_type ph ≠ PT_SHLIB ∧
  (p_type ph = PT_LOAD → valid_phdr l ph ∧ segment_loaded s l ph).

Lemma header_keeps s s' l ph : keeps s s' → header_done s l ph → header_done s' l ph.
Proof. intros K (H1 & H2 & H3 & H4). split_and!; try done. intros Ht. destruct (H4 Ht). split; [done|]. by eapply segment_keeps. Qed.

(** One read of a whole structure. *)
Lemma read_struct fs f l buf ofs n s pd :
  file_is fs f l → 0 ≤ ofs ≤ INT_MAX → n = Z.of_nat (length buf) → n ≤ INT_MAX → fpos f = ofs →
  ∃ r b f', onFiles (fsys_read f buf n) (KState s fs pd) = Ok ((r, b, f'), KState s fs pd) ∧ moved f f' ∧
    (r = n → b = part_of l ofs n ∧ ofs + n ≤ Z.of_nat (length l) ∨ n = 0).
Proof using FileLaws0.
  intros Hf Ho En Hn Epos. pose proof (proj1 (file_law fs f l Hf)) as Hlen.
  pose proof (read_law fs f l buf n Hf ltac:(lia) ltac:(lia) ltac:(lia)) as Hrd. cbv zeta in Hrd. fold (part_of l (fpos f) n) in Hrd. rewrite Epos in Hrd.
  pose proof (part_length l ofs n ltac:(lia) ltac:(lia)) as Hpl.
  do 3 eexists. split; [by rewrite (onFiles_Ok _ (KState s fs pd) _ _ Hrd)|]. split; [split; [done|]; simpl; lia|].
  intros Er. destruct (decide (n = 0)); [by right|left]. split; [|lia]. apply overwrite_full. lia.
Qed.

(** The outcome of the loop over [n] headers from [ofs] on. *)
Definition headers_loaded (n : nat) (ofs : Z) f l s d fs (r : res ((bool * file) * kst)) : Prop :=
  ∃ b f' s' own', r = Ok ((b, f'), KState s' fs (PGSIZE * d)) ∧ moved f f' ∧ space ip ram others own0 s' own' d None ∧
    if b then keeps s s' ∧
      ∀ i, 0 ≤ i < Z.of_nat n → 0 ≤ ofs + 32 * i ∧ ofs + 32 * i + 32 ≤ Z.of_nat (length l) ∧ header_done s' l (phdr_at l (ofs + 32 * i))
    else True.

Lemma headers_fail n ofs f f' l s own d fs :
  moved f f' → space ip ram others own0 s own d None → headers_loaded n ofs f l s d fs (retS (false, f') (KState s fs (PGSIZE * d))).
Proof. intros Hmv Hsp. by exists false, f', s, own. Qed.

Lemma headers_cons n ofs f f1 l s s1 d fs r :
  moved f f1 → keeps s s1 → 0 ≤ ofs → ofs + 32 ≤ Z.of_nat (length l) → header_done s1 l (phdr_at l ofs) →
  headers_loaded n (ofs + 32) f1 l s1 d fs r → headers_loaded (S n) ofs f l s d fs r.
Proof.
  intros Hmv Hk H0 Hl Hh (b & f' & s' & own' & -> & Hmv' & Hsp & Hb). exists b, f', s', own'. split_and!; [done|by eapply moved_trans|done|].
  destruct b; [|done]. destruct Hb as [Hk' Hi]. split; [by transitivity s1|]. intros i Hi'. destruct (decide (i = 0)) as [->|].
  - rewrite Z.mul_0_r, Z.add_0_r. split_and!; [done|done|]. by eapply header_keeps.
  - replace (ofs + 32 * i) with (ofs + 32 + 32 * (i - 1)) by lia. apply Hi. lia.
Qed.

Lemma load_phdrs_ok n phdr0 ofs f l s own d fs :
  length phdr0 = 32%nat → space ip ram others own0 s own d None → file_is fs f l → 0 ≤ fpos f ≤ INT_MAX →
  headers_loaded n ofs f l s d fs (load_phdrs (PGSIZE * ip) ram n phdr0 ofs f (KState s fs (PGSIZE * d))).
Proof using PageLaws0 FileLaws0.
  intros H0. revert ofs f s own. induction n as [|n IH]; intros ofs f s own Hsp Hf Hp; cbn [load_phdrs]; assert (moved f f) as Hmv by (by split; [destruct f|]).
  { exists true, f, s, own. split_and!; try done. lia. }
  pose proof (file_law fs f l Hf) as [Hlen Hby].
  destruct (Z.ltb_spec ofs 0); [by eapply headers_fail|]. rewrite (bindS_Ok _ _ _ _ _ (onFiles_Ok _ (KState s fs (PGSIZE * d)) _ _ (length_law fs f l Hf))). cbn [mach t_pagedir].
  destruct (Z.ltb_spec (Z.of_nat (length l)) ofs); [by eapply headers_fail|].
  assert (fsys_seek f ofs fs = Ok (at_pos f ofs, fs)) as Eseek by (rewrite seek_law; by rewrite (proj2 (Z.leb_le _ _)) by lia).
  rewrite (bindS_Ok _ _ _ _ _ (onFiles_Ok _ (KState s fs (PGSIZE * d)) _ _ Eseek)). cbn [mach t_pagedir].
  assert (moved f (at_pos f ofs)) as Hmv1 by (split; [done|]; simpl; lia).
  destruct (read_struct fs (at_pos f ofs) l phdr0 ofs 32 s (PGSIZE * d)) as (r & buf & f2 & E2 & Hmv2 & Hbuf); [apply pos_law; [done|lia]|lia|by rewrite H0|done|done|].
  rewrite (bindS_Ok _ _ _ _ _ E2). pose proof (moved_trans _ _ _ Hmv1 Hmv2) as Hmv02. destruct (Z.eqb_spec r 32) as [Er|]; cbn [negb]; [|by eapply headers_fail].
  destruct (Hbuf Er) as [[-> Hin]|]; [|done]. fold (phdr_at l ofs). set (ph := phdr_at l ofs). pose proof (moved_is fs f f2 l Hmv02 Hf) as Hf2.
  assert (phdr_words ph) as Hw by (by apply decode_phdr_words, Forall_take, Forall_drop). rewrite s32_small by (unfold is_s32, INT_MAX in *; lia).
  destruct (Z.eqb_spec (p_type ph) PT_DYNAMIC) as [|T1]; [by eapply headers_fail|]. destruct (Z.eqb_spec (p_type ph) PT_INTERP) as [|T2]; [by eapply headers_fail|].
  destruct (Z.eqb_spec (p_type ph) PT_SHLIB) as [|T3]; [by eapply headers_fail|]. cbn [orb]. destruct (Z.eqb_spec (p_type ph) PT_LOAD) as [T|T].
  2:{ eapply headers_cons; [exact Hmv02|reflexivity|done|done|by split_and!|]. eapply IH; [done|done|apply Hmv02]. }
  destruct (validate_ok ph f2 l s fs (PGSIZE * d) Hw Hf2) as (v & Ev & Hv). rewrite (bindS_Ok _ _ _ _ _ Ev). destruct v; [|by eapply headers_fail].
  destruct (load_phdr_ok ph f2 l s own d fs Hsp Hw Hf2 (proj1 Hv eq_refl)) as (b & f3 & s3 & own3 & E3 & Hmv3 & Hsp3 & Hb). rewrite (bindS_Ok _ _ _ _ _ E3).
  pose proof (moved_trans _ _ _ Hmv02 Hmv3) as Hmv03. destruct b.
  - destruct Hb as [Hk Hs]. eapply headers_cons; [exact Hmv03|exact Hk|done|done|split_and!; try done; by split; [apply Hv|]|].
    eapply IH; [done|by eapply moved_is|apply Hmv03].
  - by exists false, f3, s3, own3.
Qed.

(** ** The stack *)

Lemma stack_view s s2 a :
  loaded s s2 786431 1 (λ _, Some 0) true → PHYS_BASE - PGSIZE ≤ a < PHYS_BASE →
  user_byte s2 a = Some 0 ∧ user_writable s2 a = true ∧ user_byte s a = None.
Proof.
  intros [B W N] Ha. assert (a / PGSIZE = 786431) as Ea by (symmetry; apply (Z.div_unique _ _ _ (a - PGSIZE * 786431)); unfold PGSIZE, PHYS_BASE in *; lia).
  rewrite B, W, Ea. split_and!; [done..|]. apply N. lia.
Qed.

(** What the process sees once its stack has been filled. *)
Definition stack_ready s s' (line : list Z) : Prop :=
  keeps s s' ∧ arguments_at s' (stack_top line) (arguments line) ∧
  ∀ a, PHYS_BASE - PGSIZE ≤ a < PHYS_BASE → user_writable s' a = true ∧ (a < stack_top line → user_byte s' a = Some 0).

Lemma stack_pushed line s s2 s3 own d taken limit :
  no_nul line → PHYS_BASE - PGSIZE ≤ stack_top line → loaded s s2 786431 1 (λ _, Some 0) true →
  @put_bytes _ _ (machine_ok ip own d taken limit) s2 s3 (stack_top line) (stack_image line) → stack_ready s s3 line.
Proof using PageLaws0.
  intros Hl Hfit Hld Hput. pose proof (stack_image_length line Hl) as Hlen. pose proof Hput as [_ B3 W3]. split_and!.
  - pose proof (loaded_keeps _ _ 786431 _ _ _ ltac:(lia) Hld) as [K N0]. split; intros a.
    2:{ intros Ha. rewrite B3, bool_decide_eq_false_2; [by apply N0|]. pose proof (Z.div_mod a PGSIZE ltac:(done)). pose proof (Z.mod_pos_bound a PGSIZE ltac:(done)). unfold PGSIZE, PHYS_BASE in *. lia. }
    intros [v Hv]. destruct (K a ltac:(by eexists)) as [B W]. rewrite W3, W, B3, bool_decide_eq_false_2; [done|].
    intros Hin. destruct (stack_view s s2 a Hld ltac:(lia)) as (_ & _ & N). congruence.
  - by apply (@stack_image_arguments _ _ (machine_ok ip own d taken limit) (machine_user_laws ip own d taken limit) line s2).
  - intros a Ha. destruct (stack_view s s2 a Hld Ha) as (B & W & _). rewrite W3. split; [done|]. intros Hlt. rewrite B3, bool_decide_eq_false_2 by lia. done.
Qed.

Lemma setup_stack_ok line s own d fs :
  space ip ram others own0 s own d None → no_nul line → Z.of_nat (length line) < CMDLINE_SIZE → PHYS_BASE - PGSIZE ≤ stack_top line →
  ∃ o s' own', setup_stack (PGSIZE * ip) ram (make_params line) (KState s fs (PGSIZE * d)) = Ok (o, KState s' fs (PGSIZE * d)) ∧
    space ip ram others own0 s' own' d None ∧
    match o with
    | Some esp => esp = stack_top line ∧ stack_ready s s' line
    | None => True
    end.
Proof using PageLaws0.
  intros Hsp Hl Hlen Hfit. unfold setup_stack. set (fl := Z.lor PAL_USER PAL_ZERO).
  destruct (space_get ip ram others own0 s own d fl Hsp ltac:(done)) as (p & [(g & E & Hnz & Hfr & Hsp1 & Hv1 & Hzero)|(E & Hsp1 & Hv1)]).
  all: assert (∀ a, get_pages fl 1 (phys s) = Ok (a, p) → onMach (get_page fl) (KState s fs (PGSIZE * d)) = Ok (a, KState (set_phys s p) fs (PGSIZE * d))) as Hget
    by (intros a Ea; apply (onMach_Ok _ (KState s fs (PGSIZE * d))); unfold get_page; cbn [mach]; by rewrite Ea).
  all: rewrite (bindS_Ok _ _ _ _ _ (Hget _ E)).
  2:{ rewrite Z.eqb_refl. exists None. eexists _, own. split_and!; [done|apply Hsp1|done]. }
  rewrite (proj2 (Z.eqb_neq _ _)) by done. assert ((<[g := IsHeld]> own) !! g = Some IsHeld) as Hg by apply lookup_insert_eq.
  change (PHYS_BASE - PGSIZE) with (PGSIZE * 786431).
  destruct (install_ok _ _ d 786431 g true fs Hsp1 ltac:(lia) Hg Hfr) as (b & s2 & own2 & E2 & Hsp2 & Hb). rewrite (bindS_Ok _ _ _ _ _ E2). destruct b.
  2:{ destruct Hb as [Hg2 _]. destruct (free_kpage_ok s2 own2 d g fs (PGSIZE * d) Hsp2 Hg2 Hfr) as (s3 & own3 & E3 & Hsp3 & _). rewrite (bindS_Ok _ _ _ _ _ E3).
    exists None, s3, own3. split_and!; [done|apply Hsp3|done]. }
  destruct Hb as [Hmap Hnew]. pose proof (mapped_loaded s _ s2 786431 g true (λ _, Some 0) Hmap Hv1 ltac:(lia) Hnew) as Hld.
  assert (loaded s s2 786431 1 (λ _, Some 0) true) as Hld'.
  { apply Hld. intros i Hi. f_equal. apply (Hzero eq_refl). symmetry. apply (Z.div_unique _ _ _ i); lia. }
  destruct (@push_args_image _ _ (machine_ok ip own2 d (page_taken (phys s2)) (page_limit (phys s2))) (machine_user_laws ip own2 d _ _) line s2) as (s3 & E3 & Hput); [done|done|split_and!; [by eapply sp_inv|done..]| |].
  { intros a Ha. apply (stack_view s s2 a Hld'). lia. }
  rewrite (bindS_Ok _ _ _ _ _ (onMach_Ok (push_args (make_params line)) (KState s2 fs (PGSIZE * d)) _ _ E3)).
  exists (Some (stack_top line)), s3, own2. split_and!; [done| |done|by eapply stack_pushed].
  destruct Hput as [(Hmi3 & Ht3 & Hl3) _ _]. destruct Hsp2 as [[Hmi2 Hl2 Htk2 Hap2] Hdne Hold Hnew']. split; [|done..].
  split; [done|by rewrite Hl3| |done]. intros pg. by rewrite Ht3.
Qed.

(** ** The whole of [load] *)

(** The name of the executable. *)
Lemma program_name line :
  no_nul line → Z.of_nat (length line) < CMDLINE_SIZE →
  ∃ name, arguments line !! 0%nat = Some name ∧ c_string (cmdline (make_params line)) = Ok name ∧ 0 ∉ name.
Proof.
  intros Hl Hlen. exists (front (ended line)). split; [by apply first_argument|]. destruct (make_params_short line Hlen) as (_ & Ed & Hd).
  destruct (front_split (ended line)) as [r Hr]; [unfold ended; set_solver|].
  assert (0 ∉ front (ended line)) as H0 by (clear; induction (ended line) as [|c e IH]; cbn [front]; [set_solver|]; destruct (Z.eqb_spec c 0); set_solver).
  split; [|done]. revert Hr H0. generalize (front (ended line)). intros w Hr H0.
  rewrite <-(take_drop (S (length line)) (cmdline _)), Ed, Hr, <-app_assoc. cbn [app]. by apply c_string_app.
Qed.

(** The process that is started: its memory holds the segments of the file [l] and the
    arguments of the command line, and page 0 is not mapped. *)
Record started s (l line : list Z) (eip esp : Z) : Prop := {
  ex_size : 52 ≤ Z.of_nat (length l);
  ex_header : bad_ehdr (decode_ehdr (part_of l 0 52)) = false;
  ex_entry : eip = e_entry (decode_ehdr (part_of l 0 52));
  ex_segments : ∀ i, 0 ≤ i < e_phnum (decode_ehdr (part_of l 0 52)) →
    let ofs := s32 (e_phoff (decode_ehdr (part_of l 0 52))) + 32 * i in
    0 ≤ ofs ∧ ofs + 32 ≤ Z.of_nat (length l) ∧ header_done s l (phdr_at l ofs);
  ex_stack : esp = stack_top line;
  ex_arguments : arguments_at s esp (arguments line);
  ex_room : ∀ a, PHYS_BASE - PGSIZE ≤ a < PHYS_BASE → user_writable s a = true;
  ex_null : ∀ a, 0 ≤ a < PGSIZE → user_byte s a = None;
}.

Lemma half_range l ofs : Forall is_byte l → 0 ≤ half l ofs < 65536.
Proof.
  intros Hl. unfold half. assert (Forall is_byte (take 2 (drop ofs l))) as H by (by apply Forall_take, Forall_drop).
  unfold of_le16. destruct (take 2 (drop ofs l)) as [|a [|b [|]]]; try lia. rewrite !Forall_cons in H. unfold is_byte in H. lia.
Qed.

Lemma load_file_ok line ehdr0 phdr0 f l s own d fs :
  no_nul line → Z.of_nat (length line) < CMDLINE_SIZE → PHYS_BASE - PGSIZE ≤ stack_top line →
  length ehdr0 = 52%nat → length phdr0 = 32%nat → space ip ram others own0 s own d None → (∀ a, user_byte s a = None) → file_is fs f l → fpos f = 0 →
  ∃ r f' s' own', load_file (PGSIZE * ip) ram (make_params line) ehdr0 phdr0 f (KState s fs (PGSIZE * d)) = Ok ((r, f'), KState s' fs (PGSIZE * d)) ∧
    moved f f' ∧ space ip ram others own0 s' own' d None ∧ match r with Some (eip, esp) => started s' l line eip esp | None => True end.
Proof using PageLaws0 FileLaws0.
  intros Hl Hlen Hfit Hh0 Hp0 Hsp Hempty Hf Hpos. pose proof (file_law fs f l Hf) as [Hflen Hby]. unfold load_file.
  destruct (read_struct fs f l ehdr0 0 52 s (PGSIZE * d)) as (r & buf & f1 & E1 & Hmv1 & Hbuf); [done|unfold INT_MAX; lia|by rewrite Hh0|done|done|].
  rewrite (bindS_Ok _ _ _ _ _ E1). pose proof (moved_is fs f f1 l Hmv1 Hf) as Hf1.
  destruct (Z.eqb_spec r 52) as [Er|]; cbn [negb orb]; [|exists None, f1, s, own; split_and!; try done; apply Hsp].
  destruct (Hbuf Er) as [[-> Hin]|]; [|done]. set (h := decode_ehdr (part_of l 0 52)).
  destruct (bad_ehdr h) eqn:Hbad; [exists None, f1, s, own; split_and!; try done; apply Hsp|].
  assert (0 ≤ e_phnum h) as Hnum by (apply half_range; by apply Forall_take, Forall_drop).
  destruct (load_phdrs_ok (Z.to_nat (e_phnum h)) phdr0 (s32 (e_phoff h)) f1 l s own d fs Hp0 Hsp Hf1 (proj2 Hmv1)) as (b & f2 & s2 & own2 & E2 & Hmv2 & Hsp2 & Hb).
  rewrite (bindS_Ok _ _ _ _ _ E2). pose proof (moved_trans _ _ _ Hmv1 Hmv2) as Hmv. destruct b; cbn [negb]; [|exists None, f2, s2, own2; split_and!; try done; apply Hsp2].
  destruct Hb as [Hk Hseg]. rewrite Z2Nat.id in Hseg by done.
  destruct (setup_stack_ok line s2 own2 d fs Hsp2 Hl Hlen Hfit) as (o & s3 & own3 & E3 & Hmi3 & Ho). rewrite (bindS_Ok _ _ _ _ _ E3).
  destruct o as [esp|]; [|by exists None, f2, s3, own3]. destruct Ho as (-> & Hk3 & Harg & Hroom).
  exists (Some (e_entry h, stack_top line)), f2, s3, own3. split_and!; try done. split; try done.
  - intros i Hi. destruct (Hseg i Hi) as (? & ? & ?). split_and!; try done. by eapply header_keeps.
  - intros a Ha. by apply Hroom.
  - intros a Ha. rewrite (kp_null _ _ Hk3), (kp_null _ _ Hk) by (by apply Z.div_small). apply Hempty.
Qed.

(** Nothing belongs to a directory that has just been created. *)
Lemma fresh_dir s own d : vm_inv s own → own !! d = None → ∀ pg o, own !! pg = Some o → ¬ belongs d (pg, o).
Proof.
  intros Hi Hd pg o Ho [Hpg|[[i Hpg]|[u Hpg]]]; simpl in Hpg; subst; [congruence| |].
  - destruct (vi_table _ _ Hi _ _ _ Ho) as (_ & ? & _). congruence.
  - destruct (vi_page _ _ Hi _ _ _ Ho) as (t & Ht & _). destruct (vi_table _ _ Hi _ _ _ Ht) as (_ & ? & _). congruence.
Qed.

(** The state that [load] leaves: without a page directory, or with the one of the new
    process, which owns every page that was not owned before. *)
Definition load_left s' (pd' da : Z) : Prop :=
  (pd' = NULL ∧ base ip ram others s' own0 da) ∨
  (∃ d own', pd' = PGSIZE * d ∧ (∀ pg o, own0 !! pg = Some o → ¬ belongs d (pg, o)) ∧ space ip ram others own0 s' own' d None).

Lemma load_ok line ehdr0 phdr0 s da fs pd :
  no_nul line → Z.of_nat (length line) < CMDLINE_SIZE → PHYS_BASE - PGSIZE ≤ stack_top line →
  length ehdr0 = 52%nat → length phdr0 = 32%nat → base ip ram others s own0 da → files_ok fs →
  ∃ r s' fs' pd', load (PGSIZE * ip) ram (make_params line) ehdr0 phdr0 (KState s fs pd) = Ok (r, KState s' fs' pd') ∧
    files_ok fs' ∧ load_left s' pd' da ∧
    match r with
    | Some (eip, esp) => ∃ name l, arguments line !! 0%nat = Some name ∧ file_named name l ∧
        started s' l line eip esp
    | None => True
    end.
Proof using PageLaws0 FileLaws0.
  intros Hl Hlen Hfit Hh0 Hp0 Hba Hfs. unfold load, load_left.
  destruct (space_create ip ram others own0 s own0 da eq_refl Hba) as [(s1 & E & Hba1)|(d & s1 & s2 & own2 & E & Hnz & Ea & Hsp & Hd0 & Hempty)];
    rewrite (bindS_Ok _ _ _ _ _ (onMach_Ok _ (KState s fs pd) _ _ E)); unfold getS, putS; unfold bindS at 1 2; cbn [mach fsys t_pagedir].
  { rewrite Z.eqb_refl. exists None, s1, fs, NULL. split_and!; try done. by left. }
  rewrite (proj2 (Z.eqb_neq _ _)) by done. rewrite (bindS_Ok _ _ _ _ _ (onMach_unit _ (KState s1 fs (PGSIZE * d)) _ Ea)). cbn [fsys t_pagedir].
  assert (∀ pg o, own0 !! pg = Some o → ¬ belongs d (pg, o)) as Hd1 by (by eapply fresh_dir; [apply Hba|]).
  destruct (program_name line Hl Hlen) as (name & Hname & Ec & H0). unfold bindS at 1, liftS at 1. rewrite Ec.
  destruct (open_law name fs Hfs H0) as (o & fs1 & Eo & Ho). rewrite (bindS_Ok _ _ _ _ _ (onFiles_Ok _ (KState s2 fs (PGSIZE * d)) _ _ Eo)). cbn [mach t_pagedir].
  destruct o as [f|]; [|exists None, s2, fs1, (PGSIZE * d); split_and!; try done; right; by exists d, own2]. destruct Ho as [Hpos (l & Hnl & Hf)].
  destruct (load_file_ok line ehdr0 phdr0 f l s2 own2 d fs1) as (r & f' & s3 & own3 & E3 & Hmv & Hsp3 & Hr); try done.
  rewrite (bindS_Ok _ _ _ _ _ E3). destruct (close_law fs1 f' l) as (fs2 & Ecl & Hfs2); [by eapply moved_is|].
  rewrite (bindS_Ok _ _ _ _ _ (onFiles_Ok _ (KState s3 fs1 (PGSIZE * d)) _ _ Ecl)). cbn [mach t_pagedir].
  exists r, s3, fs2, (PGSIZE * d). split_and!; try done; [right; by exists d, own3|]. destruct r as [[eip esp]|]; [|done]. by exists name, l.
Qed.

(** *** The end of the process *)

Lemma activate_kernel s own d :
  machine_inv ip s own d → pagedir_activate (PGSIZE * ip) NULL s = Ok (Machine (phys s) (PGSIZE * (ip - 786432)) ∅).
Proof using PageLaws0.
  intros [Hvm _ Hip _ _]. rewrite <-(activate_ok (PGSIZE * ip) s own ip) by done. destruct (own_range _ _ _ _ Hvm Hip) as [? _].
  unfold pagedir_activate. rewrite Z.eqb_refl. by rewrite (proj2 (Z.eqb_neq (PGSIZE * ip) 0)) by (unfold PGSIZE; lia).
Qed.

Lemma exit_ok s fs pd da :
  load_left s pd da →
  ∃ s', process_exit (PGSIZE * ip) (KState s fs pd) = Ok (tt, KState s' fs NULL) ∧
    ∀ pg, page_taken (phys s') pg = true ↔ others pg ∨ is_Some (own0 !! pg).
Proof using PageLaws0.
  intros [[-> [_ _ Htk _]]|(d & own & -> & Hd0 & Hsp)]; unfold process_exit, getS, putS; unfold bindS at 1; cbn [t_pagedir mach fsys].
  { exists s. by rewrite Z.eqb_refl. }
  pose proof Hsp as [[Hmi _ Htk Hap] Hdne Hold Hnew]. pose proof Hmi as [Hvm [Hd _] Hip _ _]. destruct (own_range _ _ _ _ Hvm Hd) as [Hr _].
  rewrite (proj2 (Z.eqb_neq (PGSIZE * d) 0)) by (unfold PGSIZE; lia). cbn [negb]. unfold bindS at 1.
  rewrite (bindS_Ok _ _ _ _ _ (onMach_unit _ (KState s fs NULL) _ (activate_kernel s own d Hmi))). cbn [fsys t_pagedir].
  set (s1 := Machine _ _ _). assert (vm_inv s1 own) as Hvm1 by (by apply vm_inv_mmu).
  destruct (destroy_ok s1 own ip d Hvm1 Hd Hdne) as (s2 & E & Hfr). exists s2.
  split; [by rewrite (onMach_unit _ (KState s1 fs NULL) _ E)|]. intros pg. rewrite (fr_taken _ _ _ Hfr). change (phys s1) with (phys s). rewrite Htk. split.
  - intros [[Ho|[o Ho]] Hn]; [by left|]. destruct (Hnew pg o Ho) as [?|[?|[_ [=]]]]; [right; by eexists|]. exfalso. apply Hn. by exists o.
  - intros [Ho|[o Ho]].
    + split; [by left|]. intros (o & Ho' & _). by rewrite (Hap pg Ho) in Ho'.
    + pose proof (lookup_weaken _ _ _ _ Ho Hold) as Ho'. split; [right; by eexists|]. intros (o' & Eo & Hb). rewrite Ho' in Eo. injection Eo as <-.
      by eapply Hd0.
Qed.

End proof.
