(* ===== verification/Exec.v ===== *)
(** The life of a process from [load] to [process_exit] (src/userprog/process.c), on the page
    allocator, the page tables and the file system together. *)

From S2P Require Import CString Directory.
From S2P Require Import Prelude Vaddr Palloc Pages Disk Bitmap BitmapScan Inode FreeMap Filesys Files Volume FileCalls Mount Pagedir AddrSpace UserMem Space ArgPass Loader.

(** The command line that [process_execute] keeps: the first 3579 characters. *)
Definition kept (line : list Z) : list Z := take (Z.to_nat (CMDLINE_SIZE - 1)) line.

Lemma kept_short line : Z.of_nat (length (kept line)) < CMDLINE_SIZE.
Proof. unfold kept. rewrite length_take. unfold CMDLINE_SIZE, PGSIZE. lia. Qed.

Lemma kept_params line : make_params (kept line) = make_params line.
Proof. unfold make_params, kept. by rewrite take_take, Nat.min_id. Qed.

Lemma kept_no_nul line : no_nul line → no_nul (kept line).
Proof. apply Forall_take. Qed.

(** The characters of the line, the padding, and the pointers to the arguments with the four words
    around them take no more than the page of the stack. The code does not check it (lemma
    [stack_overflow]); where it fails, [setup_stack] writes below the page. *)
Definition stack_page_suffices (line : list Z) : Prop := bytes_of line + bytes_of line mod 4 + 4 * (argc_of line + 4) ≤ PGSIZE.

Lemma page_suffices line : stack_page_suffices line → PHYS_BASE - PGSIZE ≤ stack_top line.
Proof. unfold stack_page_suffices, stack_top. lia. Qed.

(** The machine and the page tables are in order, and so is the file system, in which no
    allocation of memory fails; pages may run out. *)
Section process.
Context {P : Type} `{!PageOps P} `{!PageLaws P} {F : Type} `{!FileSys F} `{!FileWorld F} `{!WorldLaws F}.
Context (ip ram da : Z) (others : Z → Prop) (own : gmap Z owner) (s : machine P) (fs : F) (T : gmap Z file) (w : world) (line ehdr0 phdr0 : list Z).
Context (Hbase : base ip ram others s own da) (Hfiles : fsys_world fs T w) (Hfew : Z.of_nat (size T) < INT_MAX)
  (Hline : no_nul line) (Hfits : stack_page_suffices (kept line)) (Hehdr : length ehdr0 = 52%nat) (Hphdr : length phdr0 = 32%nat).

Lemma process_loads pd :
  ∃ r s' fs' pd', load (PGSIZE * ip) ram (make_params line) ehdr0 phdr0 (KState s fs pd) = Ok (r, KState s' fs' pd') ∧ fsys_world fs' T w ∧ load_left ip ram others own s' pd' da ∧
    match r with
    | Some (eip, esp) => ∃ name sec l, arguments (kept line) !! 0%nat = Some name ∧ w_names w !! name = Some sec ∧ w_contents w !! sec = Some l ∧ started s' l (kept line) eip esp
    | None => True
    end.
Proof using All.
  destruct (load_ok (FileInv0 := guest_inv T w) (FileLaws0 := guest_laws T w Hfew (world_tidy _ _ _ Hfiles)) ip ram others own (kept line) ehdr0 phdr0 s da fs pd)
    as (r & s' & fs' & pd' & E & Hfs & Hleft & Hr); try done; [by apply kept_no_nul|apply kept_short|by apply page_suffices|].
  rewrite kept_params in E. exists r, s', fs', pd'. split_and!; [done|done|done|]. destruct r as [[eip esp]|]; [|done].
  destruct Hr as (name & l & Hn & (sec & Hs & Hl) & Hst). by exists name, sec, l.
Qed.

(** C10. What a process that has been loaded sees, when the arguments fit in the page of the stack
    and no allocation inside the file system fails. If [load] succeeds, the file named by the
    first argument of the command line, of which the first 3579 characters are kept, is an
    executable; the process starts at its entry point; every segment that it asks for lies above
    page 0 and below the kernel, holds the bytes of the file and then zeros, and is writable if
    the file says so; no header asks for dynamic linking; the stack holds the arguments of the
    command line; and page 0 is not mapped. *)
Theorem load_image pd eip esp k :
  load (PGSIZE * ip) ram (make_params line) ehdr0 phdr0 (KState s fs pd) = Ok (Some (eip, esp), k) →
  ∃ name sec l, arguments (kept line) !! 0%nat = Some name ∧ w_names w !! name = Some sec ∧ w_contents w !! sec = Some l ∧
    started (mach k) l (kept line) eip esp.
Proof using All. intros E. destruct (process_loads pd) as (r & s' & fs' & pd' & E' & _ & _ & Hr). rewrite E in E'. injection E' as <- ->. done. Qed.

(** C11. Loading is safe for every file, and nothing is lost, when the arguments fit in the page of
    the stack and no allocation inside the file system fails: whatever the executable holds, and
    whether pages run out or not, [load] returns, with success or failure, and leaves the files as
    they are, also the open ones; if the process then ends, [process_exit] returns too, and the
    pages in use are exactly the ones from before. *)
Theorem load_exit_conserves pd :
  ∃ r k, load (PGSIZE * ip) ram (make_params line) ehdr0 phdr0 (KState s fs pd) = Ok (r, k) ∧ fsys_world (fsys k) T w ∧
  ∃ k', process_exit (PGSIZE * ip) k = Ok (tt, k') ∧ t_pagedir k' = NULL ∧
    ∀ pg, page_taken (phys (mach k')) pg = page_taken (phys s) pg.
Proof using All.
  destruct (process_loads pd) as (r & s' & fs' & pd' & E' & Hfs & Hleft & _). exists r, (KState s' fs' pd'). split_and!; [done|done|].
  destruct (exit_ok ip ram others own s' fs' pd' da Hleft) as (s2 & E2 & Htk). exists (KState s2 fs' NULL). split_and!; [done|done|].
  intros pg. apply eq_true_iff_eq. rewrite Htk. symmetry. apply (ba_taken _ _ _ _ _ _ Hbase).
Qed.

End process.

(** ** A process on a small machine

    The machine of [demo0] with a directory for the kernel, and the file system of
    [demo_formatted] with one executable in it. *)

Definition le16 (x : Z) : list Z := [x mod 256; x / 256 mod 256].

(** One segment of 88 bytes at 0x8048000, followed by 12 zeros. *)
Definition demo_elf : list Z :=
  [127; 69; 76; 70; 1; 1; 1] ++ replicate 9 0 ++ le16 2 ++ le16 3 ++ le32 1 ++ le32 134512724 ++ le32 52 ++ le32 0 ++ le32 0 ++
  le16 52 ++ le16 32 ++ le16 1 ++ le16 0 ++ le16 0 ++ le16 0 ++
  le32 1 ++ le32 0 ++ le32 134512640 ++ le32 134512640 ++ le32 88 ++ le32 100 ++ le32 5 ++ le32 4096 ++ [235; 254; 144; 144].

Definition demo_junk : list Z := replicate 20 0.

Definition exec_calls : list call := [Create [97] 88; Open 1 [97]; Write 1 demo_elf; Close 1].

Definition exec_run : res (list reply * (fs * gmap Z file)) := run_calls (FileSys0 := fs_sys demo_junk) exec_calls (demo_formatted, ∅).

Definition exec_fs : fs := match exec_run with Ok (_, (s, _)) => s | _ => demo_formatted end.

Lemma exec_calls_good : Forall good_call exec_calls.
Proof.
  unfold exec_calls. repeat constructor; unfold INT_MAX; try lia; try done; try (apply (bool_decide_eq_true_1 _); by vm_compute).
Qed.

Lemma exec_closed : match exec_run with Ok (_, (_, T)) => bool_decide (T = ∅) | _ => false end = true.
Proof. by vm_compute. Qed.

Lemma exec_run_ok rs s T : exec_run = Ok (rs, (s, T)) → s = exec_fs ∧ T = ∅.
Proof.
  intros E. unfold exec_fs. pose proof exec_closed as Hc. rewrite E in Hc |- *. apply bool_decide_eq_true in Hc. split; [reflexivity|exact Hc].
Qed.

Lemma exec_world : ∃ w, fsys_world exec_fs ∅ w.
Proof.
  destruct (init_format_ok demo_blank (dev demo_blank) (replicate 2 7) demo_blank_boots eq_refl demo_blank_dev demo_size_ok eq_refl demo_mem_ok) as (s0 & E & Hw0).
  rewrite (demo_init s0 E) in Hw0.
  destruct (@calls_refine _ (fs_sys demo_junk) _ (fs_laws demo_junk eq_refl) exec_calls demo_formatted ∅ _ Hw0 exec_calls_good ltac:(by rewrite map_size_empty)) as (rs & s & T & w & E1 & _ & Hw).
  destruct (exec_run_ok _ _ _ E1) as [-> ->]. by exists w.
Qed.

Lemma exec_base : base demo_ip 264 (λ _, False) demo0 {[demo_ip := IsDir]} demo_ip.
Proof.
  split; [apply initial_machine_inv, demo_initial|by vm_compute| |done]. intros pg. change (phys demo0) with demo_phys.
  rewrite (gr_taken _ _ _ _ _ demo_granted). change (page_taken small_state pg) with (page_used small_state pg). rewrite small_state_free, orb_false_r, bool_decide_eq_true.
  unfold within. destruct (decide (pg = demo_ip)) as [->|Hne].
  - rewrite lookup_singleton_eq. split; [|lia]. intros _. right. by eexists.
  - rewrite lookup_singleton_ne by done. split; [lia|]. intros [[]|[? [=]]].
Qed.

(** The command line [a b]. *)
Definition exec_line : list Z := [97; 32; 98].

Lemma exec_line_ok : no_nul exec_line.
Proof. by repeat constructor. Qed.

Lemma exec_line_kept : kept exec_line = exec_line.
Proof. by vm_compute. Qed.

Lemma exec_line_fits : stack_page_suffices (kept exec_line).
Proof. by vm_compute. Qed.

Lemma exec_loads :
  ∃ k, load (FileSys0 := fs_sys demo_junk) (PGSIZE * demo_ip) 264 (make_params exec_line) (replicate 52 0) (replicate 32 0) (KState demo0 exec_fs 0) =
    Ok (Some (134512724, 3221225444), k).
Proof. eexists. apply (pair_result _ _ (KState demo0 exec_fs 0)). vm_compute. reflexivity. Qed.

Lemma no_files_few : Z.of_nat (size (∅ : gmap Z file)) < INT_MAX.
Proof. done. Qed.

Lemma load_image_witness :
  ∃ w k name sec l, fsys_world exec_fs ∅ w ∧
    load (FileSys0 := fs_sys demo_junk) (PGSIZE * demo_ip) 264 (make_params exec_line) (replicate 52 0) (replicate 32 0) (KState demo0 exec_fs 0) =
      Ok (Some (134512724, 3221225444), k) ∧
    arguments exec_line !! 0%nat = Some name ∧ w_names w !! name = Some sec ∧ w_contents w !! sec = Some l ∧ started (mach k) l exec_line 134512724 3221225444.
Proof.
  destruct exec_loads as [k E]. destruct exec_world as [w Hw].
  destruct (@load_image _ _ _ _ (fs_sys demo_junk) _ (fs_laws demo_junk eq_refl) demo_ip 264 demo_ip (λ _, False) {[demo_ip := IsDir]} demo0 exec_fs ∅ w
    exec_line (replicate 52 0) (replicate 32 0) exec_base Hw no_files_few exec_line_ok exec_line_fits eq_refl eq_refl 0 134512724 3221225444 k E)
    as (name & sec & l & H1 & H2 & H3 & H4). rewrite exec_line_kept in H1, H4.
  exact (ex_intro _ w (ex_intro _ k (ex_intro _ name (ex_intro _ sec (ex_intro _ l (conj Hw (conj E (conj H1 (conj H2 (conj H3 H4)))))))))).
Defined.

Lemma load_exit_conserves_witness :
  ∃ r k k', load (FileSys0 := fs_sys demo_junk) (PGSIZE * demo_ip) 264 (make_params exec_line) (replicate 52 0) (replicate 32 0) (KState demo0 exec_fs 0) = Ok (r, k) ∧
    process_exit (PGSIZE * demo_ip) k = Ok (tt, k') ∧ ∀ pg, page_used (phys (mach k')) pg = page_used (phys demo0) pg.
Proof.
  destruct exec_world as [w Hw].
  destruct (@load_exit_conserves _ _ _ _ (fs_sys demo_junk) _ (fs_laws demo_junk eq_refl) demo_ip 264 demo_ip (λ _, False) {[demo_ip := IsDir]} demo0 exec_fs ∅ w
    exec_line (replicate 52 0) (replicate 32 0) exec_base Hw no_files_few exec_line_ok exec_line_fits eq_refl eq_refl 0)
    as (r & k & E & _ & k' & E' & _ & Htk).
  exact (ex_intro _ r (ex_intro _ k (ex_intro _ k' (conj E (conj E' Htk))))).
Defined.
