(* ===== verification/KernelHeap.v ===== *)
(** What the kernel heap promises to its clients.

    [HeapOps] are the two calls, [heap_holds] says which blocks the clients have, with their
    sizes, and [HeapLaws] what the calls do to them. The heap of src/threads/malloc.c keeps
    the promise on any allocator of pages. *)

From S2P Require Import Prelude Vaddr Pages Malloc.

Class HeapOps (H : Type) := {
  kmalloc : Z → H → res (Z * H);
  kfree : Z → H → res H;
}.

Class HeapInv (H : Type) := heap_holds : H → gmap Z Z → Prop.

Class HeapLaws (H : Type) `{!HeapOps H} `{!HeapInv H} : Prop := {
  kmalloc_law n (h : H) live :
    heap_holds h live → 0 ≤ n ≤ MALLOC_MAX →
    ∃ p h', kmalloc n h = Ok (p, h') ∧
      if p =? NULL then heap_holds h' live else 0 < n ∧ live !! p = None ∧ heap_holds h' (<[p := n]> live);
  kfree_law p n (h : H) live :
    heap_holds h live → live !! p = Some n → ∃ h', kfree p h = Ok h' ∧ heap_holds h' (delete p live);
  kfree_null (h : H) : kfree NULL h = Ok h;
}.

Section malloc.
Context {P : Type} `{!PageOps P} `{!PageLaws P}.

#[export] Instance malloc_ops : HeapOps (heap P) := { kmalloc := malloc; kfree := free }.
#[export] Instance malloc_inv : HeapInv (heap P) := heap_inv.

#[export] Instance malloc_laws : HeapLaws (heap P).
Proof using PageLaws0.
  split.
  - intros n h live Hi Hn. destruct (malloc_call_ok n h live Hi Hn) as (p & h' & E & _ & Hi' & Hf). exists p, h'. split; [done|].
    destruct (Z.eqb_spec p NULL) as [|Hp]; [done|]. destruct (Hf Hp) as [? ?]. by split_and!.
  - intros p n h live Hi Hp. destruct (free_ok h live p n Hi Hp) as (h' & E & Hi' & _). by exists h'.
  - done.
Qed.

End malloc.
