(* ===== verification/Format.v ===== *)
(** Formats that match their arguments (src/lib/stdio.c).

    A format is typed by a list of arguments if each conversion finds an argument of the kind
    it takes. With such arguments [printf] returns, and what it prints does not depend on what
    is already on the console. *)

From Stdlib Require Import Ascii String.
From S2P Require Import Prelude Stdio.

(** The arguments that are left after a conversion, if it finds the one it takes. *)
Definition takes (k : Z) (ty : arg_type) (args : list arg) : option (list arg) :=
  if (k =? ch "d") || (k =? ch "i") then match signed_value ty args with Ok (_, args) => Some args | _ => None end
  else if (k =? ch "o") || (k =? ch "u") || (k =? ch "x") || (k =? ch "X") then
    match unsigned_value ty args with Ok (_, args) => Some args | _ => None end
  else if k =? ch "s" then match va_str args with Ok (_, args) => Some args | _ => None end
  else if k =? ch "p" then match va_int args with Ok (_, args) => Some args | _ => None end
  else None.

Inductive typed : list Z → list arg → Prop :=
  | typed_nil args : typed [] args
  | typed_char c f args : c ≠ ch "%" → typed f args → typed (c :: f) args
  | typed_conv f args c k f' args1 args2 :
      parse_conversion f args = Ok (c, k :: f', args1) → 0 ≤ width c ≤ 1000 → takes k (type c) args1 = Some args2 → typed f' args2 → typed (ch "%" :: f) args.

(** The length of the strings to print. *)
Definition strings_length (args : list arg) : nat := sum_list_with (λ a, match a with AStr (Some s) => length s | _ => 0%nat end) args.

Lemma int_strings args v a : va_int args = Ok (v, a) ∨ va_int64 args = Ok (v, a) → strings_length a = strings_length args.
Proof. by destruct args as [|[] args]; intros [E|E]; simpl in E; try done; injection E as _ <-. Qed.

Lemma signed_strings ty args v a : signed_value ty args = Ok (v, a) → strings_length a = strings_length args.
Proof. unfold signed_value. destruct ty; intros ([w a'] & E & [= _ <-])%res_bind_Ok; apply (int_strings args w); auto. Qed.

Lemma unsigned_strings ty args v a : unsigned_value ty args = Ok (v, a) → strings_length a = strings_length args.
Proof. unfold unsigned_value. destruct ty; intros ([w a'] & E & [= _ <-])%res_bind_Ok; apply (int_strings args w); auto. Qed.

Lemma int_text_total v sg ng b c :
  base_ok b → 0 ≤ v < DWORD → 0 ≤ width c ≤ 1000 → ∃ l, int_text v sg ng b c = Ok l ∧ Z.of_nat (length l) ≤ 4000.
Proof.
  intros Hb Hv Hw. unfold int_text. destruct (int_buf_total v b c Hb Hv) as (buf & -> & Hl). mstep. eexists. split; [done|].
  unfold int_layout. set (xc := if _ && _ then _ else _). set (sign := sign_char _ _ _). assert (Z.of_nat (pad_of c buf xc sign) ≤ 1000) as Hn.
  { unfold pad_of. rewrite s32_small by (unfold is_s32; destruct (xc =? 0), (sign =? 0); lia). destruct (_ <? 0); [lia|]. destruct (xc =? 0), (sign =? 0); lia. }
  rewrite !length_app, length_rev. destruct (flag _ (Z.lor _ _)), (sign =? 0), (xc =? 0), (flag _ ZERO), (flag _ MINUS); rewrite ?length_replicate; simpl length; lia.
Qed.

(** A conversion appends some text. *)
Lemma convert_text k c vp args args2 :
  takes k (type c) args = Some args2 → 0 ≤ width c ≤ 1000 →
  ∃ l, (∀ out, convert putchar vp k c args out = Ok (out ++ l, args2)) ∧ Z.of_nat (length l) + Z.of_nat (strings_length args2) ≤ 4000 + Z.of_nat (strings_length args).
Proof.
  destruct bases_ok as (Hd & Ho & Hx & HX). unfold takes, convert. intros Ht Hw. destruct (_ || _).
  { destruct (signed_value (type c) args) as [[v a]|e|] eqn:E; [|done..]. injection Ht as <-. pose proof (signed_value_range _ _ _ _ E) as Hr.
    destruct (int_text_total _ true (v <? 0) base_d c Hd Hr Hw) as (l & El & Hl). exists l. split; [intros out; mstep; rewrite format_integer_text, El; mstep; by rewrite output_all_putchar|].
    apply signed_strings in E. lia. }
  destruct (_ || _ || _ || _).
  { destruct (unsigned_value (type c) args) as [[v a]|e|] eqn:E; [|done..]. injection Ht as <-. pose proof (unsigned_value_range _ _ _ _ E) as Hr.
    set (b := if k =? ch "o" then _ else _). assert (base_ok b) as Hb by (unfold b; by repeat case_match).
    destruct (int_text_total v false false b c Hb Hr Hw) as (l & El & Hl). exists l. split; [intros out; mstep; rewrite format_integer_text, El; mstep; by rewrite output_all_putchar|].
    apply unsigned_strings in E. lia. }
  destruct (Z.eqb_spec k (ch "s")) as [->|].
  2:{ destruct (Z.eqb_spec k (ch "p")) as [->|]; [|done]. change (ch "p" =? ch "c") with false. cbn iota. destruct args as [|[v| |] args]; [done| |done..]. injection Ht as <-.
      destruct (int_text_total (u32 v) false false base_x (Conv POUND (width c) (precision c) (type c)) Hx) as (l & El & Hl); [pose proof (u32_range v); unfold is_u32 in *; lia|done|].
      exists l. split; [intros out; cbn [va_int]; mstep; rewrite format_integer_text, El; mstep; by rewrite output_all_putchar|]. cbn [strings_length sum_list_with]. fold (strings_length args). lia. }
  change (ch "s" =? ch "c") with false. cbn iota.
  destruct args as [|[| |s] args]; [done..|]. injection Ht as <-. eexists. split; [intros out; cbn [va_str]; mstep; by rewrite format_string_text, output_all_putchar|].
  unfold str_text. set (s' := match s with Some s => s | None => bytes "(null)" end). set (n := Z.min _ _). rewrite !length_app, length_take. cbn [strings_length sum_list_with].
  assert (length s' ≤ 6 + match s with Some s => length s | None => 0 end)%nat as Hs by (unfold s'; destruct s; simpl; lia). fold (strings_length args).
  assert (0 ≤ n) by (unfold n; pose proof (u32_range (precision c)) as [? _]; lia).
  destruct (n <? width c), (flag _ MINUS); simpl length; rewrite ?length_replicate; lia.
Qed.

Lemma takes_percent ty args : takes (ch "%") ty args = None.
Proof. done. Qed.

(** Parsing may take the width and the precision from the arguments. *)
Lemma parse_strings f args c f' args' : parse_conversion f args = Ok (c, f', args') → (strings_length args' ≤ strings_length args)%nat.
Proof.
  unfold parse_conversion. destruct (parse_flags f 0) as [fl f0]. intros ([[w f1] a1] & E1 & E)%res_bind_Ok. destruct (if w <? 0 then _ else _) as [w' fl'].
  apply res_bind_Ok in E as ([[pr f2] a2] & E2 & E). apply res_bind_Ok in E as ([ty f3] & E3 & [= <- <- <-]).
  assert (∀ g b (x : Z) f4 (a : list arg), (f ← advance g; '(p, args) ← va_int b; Ok (s32 p, f, args)) = Ok (x, f4, a) → (strings_length a ≤ strings_length b)%nat) as Hstar.
  { intros g b x0 f4 a (g1 & _ & E)%res_bind_Ok. apply res_bind_Ok in E as ([p0 a0] & Ev & [= <- <- <-]). by rewrite (int_strings b p0 a0) by auto. }
  assert (strings_length a1 ≤ strings_length args)%nat.
  { unfold parse_width in E1. destruct (_ =? _); [by eapply Hstar|]. destruct (parse_number f0 0). by injection E1 as <- <- <-. }
  assert (strings_length a2 ≤ strings_length a1)%nat; [|lia].
  unfold parse_precision in E2. destruct (_ =? _); [|by injection E2 as <- <- <-]. apply res_bind_Ok in E2 as (g1 & _ & E2). apply res_bind_Ok in E2 as ([[p0 g2] a3] & E2 & [= <- <- <-]).
  destruct (_ =? _); [by eapply Hstar|]. destruct (parse_number g1 0). by injection E2 as <- <- <-.
Qed.

Lemma typed_text f args fuel :
  typed f args → (length f < fuel)%nat →
  ∃ l, (∀ out, vprintf_loop putchar fuel f args out = Ok (out ++ l)) ∧ Z.of_nat (length l) ≤ 4000 * Z.of_nat (length f) + Z.of_nat (strings_length args).
Proof.
  intros Ht. revert fuel. induction Ht as [args|c f args Hc Ht IH|f args c k f' args1 args2 Hp Hw Hk Ht IH]; intros [|fuel] Hl; cbn [length] in Hl; try lia.
  - exists []. split; [intros out; by rewrite app_nil_r|simpl; lia].
  - destruct (IH fuel) as (l & Hl' & Hlen); [lia|]. exists (c :: l). split; [|simpl; lia]. intros out. cbn [vprintf_loop]. rewrite (proj2 (Z.eqb_neq _ _)) by done. cbn [negb].
    change (putchar c out) with (Ok (out ++ [c])). mstep. by rewrite Hl', <-app_assoc.
  - pose proof (proj2 (parse_conversion_moves f args) _ _ _ Hp) as Hlen. cbn [length] in Hlen. pose proof (parse_strings f args c (k :: f') args1 Hp) as Hstr.
    destruct (convert_text k c (vprintf_loop putchar fuel) args1 args2 Hk Hw) as (l1 & H1 & Hl1). destruct (IH fuel) as (l2 & H2 & Hl2); [lia|].
    exists (l1 ++ l2). split; [|rewrite length_app; cbn [length]; lia]. intros out. cbn [vprintf_loop]. change (negb (ch "%" =? ch "%")) with false. cbn iota.
    assert ((cur f =? ch "%") = false) as ->.
    { destruct f as [|x f]; [done|]. cbn [cur]. apply Z.eqb_neq. intros ->.
      change (parse_conversion (ch "%" :: f) args) with (Ok (Conv 0 0 (-1) INT, ch "%" :: f, args)) in Hp. by injection Hp as <- <- <- <-. }
    rewrite Hp. mstep. cbn [cur]. rewrite H1. mstep. cbn [advance]. mstep. by rewrite H2, app_assoc.
Qed.

(** What is printed with a typed format. *)
Lemma printf_typed f args :
  typed f args → ∃ l, (∀ out, printf f args out = Ok (out ++ l)) ∧ Z.of_nat (length l) ≤ 4000 * Z.of_nat (length f) + Z.of_nat (strings_length args).
Proof. intros Ht. apply (typed_text f args (vprintf_fuel f) Ht). unfold vprintf_fuel. lia. Qed.

(** For formats that are given as text. *)
Ltac typed_format :=
  repeat first [apply typed_nil | apply typed_char; [discriminate|] | eapply typed_conv; [reflexivity|vm_compute; split; discriminate|reflexivity|]].

Lemma human_size_typed size : ∃ l, ∀ out, print_human_readable_size size out = Ok (out ++ l).
Proof.
  unfold print_human_readable_size. destruct (size =? 1); [|destruct (scale _ size) as [n s]]; cbn [bytes].
  - edestruct printf_typed as (l & Hl & _); [|by exists l]. typed_format.
  - edestruct printf_typed as (l & Hl & _); [|by exists l]. typed_format.
Qed.

(** ** Strings in arrays *)

(** The string at the start of an array. *)
Fixpoint cstring (l : list Z) : list Z :=
  match l with [] => [] | c :: l => if c =? 0 then [] else c :: cstring l end.

Lemma cstring_ok l rest : 0 ∉ l → cstring (l ++ 0 :: rest) = l.
Proof.
  induction l as [|c l IH]; [done|]. intros [Hc Hl]%not_elem_of_cons. cbn [app cstring]. rewrite (proj2 (Z.eqb_neq c 0)) by done. by rewrite IH.
Qed.
