(* ===== verification/Blockdev.v ===== *)
(** The registered block devices (src/devices/block.c), down to the disks.

    A device is known by the address of its descriptor. Its driver is a disk of the IDE
    controller, whose sectors are part of the state, or a partition of another device. The
    messages go to the console. *)

From Stdlib Require Import Ascii String.
From S2P Require Import Prelude Vaddr Disk Malloc KernelHeap Stdio Format.

(** The operations of a driver with the data they work on. *)
Inductive driver := Ide (disk : Z) | Partition (parent start : Z).

Record device := Device {
  dname : list Z;
  dtype : block_type;
  dsize : Z;
  ddriver : driver;
  read_cnt : Z;
  write_cnt : Z;
}.

Record bdevs (K : Type) := BDevs {
  disks : gmap Z (list (list Z));
  devices : gmap Z device;
  all_blocks : list Z;
  block_by_role : gmap Z Z;
  bconsole : list Z;
  bheap : K;
}.
Arguments BDevs {K}.
Arguments disks {K}. Arguments devices {K}. Arguments all_blocks {K}. Arguments block_by_role {K}. Arguments bconsole {K}. Arguments bheap {K}.

(** The numbers of the types; the first four are roles. *)
Definition type_no (t : block_type) : Z :=
  match t with
  | BLOCK_KERNEL => 0 | BLOCK_FILESYS => 1 | BLOCK_SCRATCH => 2 | BLOCK_SWAP => 3 | BLOCK_RAW => 4 | BLOCK_FOREIGN => 5
  end.

Definition BLOCK_ROLE_CNT : Z := 4.

Definition block_type_name (type : block_type) : list Z :=
  match type with
  | BLOCK_KERNEL => bytes "kernel"
  | BLOCK_FILESYS => bytes "filesys"
  | BLOCK_SCRATCH => bytes "scratch"
  | BLOCK_SWAP => bytes "swap"
  | BLOCK_RAW => bytes "raw"
  | BLOCK_FOREIGN => bytes "foreign"
  end.

Section code.
Context {K : Type} `{!HeapOps K}.
Local Abbreviation st := (bdevs K).
Implicit Types s : st.

Definition set_disks s x : st := BDevs x (devices s) (all_blocks s) (block_by_role s) (bconsole s) (bheap s).
Definition set_devices s x : st := BDevs (disks s) x (all_blocks s) (block_by_role s) (bconsole s) (bheap s).
Definition set_blocks s x l : st := BDevs (disks s) x l (block_by_role s) (bconsole s) (bheap s).
Definition set_roles s x : st := BDevs (disks s) (devices s) (all_blocks s) x (bconsole s) (bheap s).
Definition set_bconsole s x : st := BDevs (disks s) (devices s) (all_blocks s) (block_by_role s) x (bheap s).
Definition set_bheap s x : st := BDevs (disks s) (devices s) (all_blocks s) (block_by_role s) (bconsole s) x.

Definition print (format : string) (args : list arg) : ST st unit := λ s,
  out ← printf (bytes format) args (bconsole s); Ok (tt, set_bconsole s out).

Definition newline : ST st unit := λ s, Ok (tt, set_bconsole s (bconsole s ++ [10])).

Definition panic {A} : ST st A := λ _, Fault PanicCall.

(** [malloc] for a structure without which the kernel cannot go on. *)
Definition alloc (size : Z) : ST st Z := λ s,
  '(p, h) ← kmalloc size (bheap s);
  if p =? NULL then Fault PanicCall else Ok (p, set_bheap s h).

Definition release (p : Z) : ST st unit := λ s, h ← kfree p (bheap s); Ok (tt, set_bheap s h).

Definition get_block (b : Z) : ST st device := λ s, liftS (deref (devices s !! b)) s.
Definition put_block (b : Z) (d : device) : ST st unit := λ s, Ok (tt, set_devices s (<[b := d]> (devices s))).

(** ** Roles and names *)

Definition block_get_role (role : block_type) : ST st (option Z) :=
  assertS (type_no role <? BLOCK_ROLE_CNT) ;;; λ s, Ok (block_by_role s !! type_no role, s).

Definition block_set_role (role : block_type) (b : Z) : ST st unit :=
  assertS (type_no role <? BLOCK_ROLE_CNT) ;;; λ s, Ok (tt, set_roles s (<[type_no role := b]> (block_by_role s))).

Definition block_first : ST st (option Z) := λ s, Ok (head (all_blocks s), s).

(** The element after [b] in the list. *)
Fixpoint after (b : Z) (l : list Z) : option Z :=
  match l with [] => None | x :: l => if x =? b then head l else after b l end.

Definition block_next (b : Z) : ST st (option Z) := λ s, Ok (after b (all_blocks s), s).

Fixpoint find_name (name : list Z) (l : list Z) : ST st (option Z) :=
  match l with
  | [] => retS None
  | b :: l => d <-- get_block b ;; if bool_decide (name = dname d) then retS (Some b) else find_name name l
  end.

Definition block_get_by_name (name : list Z) : ST st (option Z) := s <-- getS ;; find_name name (all_blocks s).

Definition block_size (b : Z) : ST st Z := d <-- get_block b ;; retS (dsize d).
Definition block_name (b : Z) : ST st (list Z) := d <-- get_block b ;; retS (dname d).
Definition block_type (b : Z) : ST st block_type := d <-- get_block b ;; retS (dtype d).

(** ** Sectors *)

Definition check_sector (d : device) (sector : Z) : ST st unit := if dsize d <=? sector then panic else retS tt.

Definition ide_read (disk sector : Z) : ST st (list Z) := λ s, liftS (deref (disks s !! disk ≫= (.!! Z.to_nat sector))) s.

Definition ide_write (disk sector : Z) (buffer : list Z) : ST st unit := λ s,
  l ← deref (disks s !! disk);
  if sector <? Z.of_nat (length l) then Ok (tt, set_disks s (<[disk := <[Z.to_nat sector := buffer]> l]> (disks s))) else Fault BadAccess.

(** A partition passes the call on to its device, so that the calls are nested as deep as the
    partitions are. *)
Fixpoint block_read (fuel : nat) (b sector : Z) : ST st (list Z) :=
  match fuel with
  | O => λ _, Timeout
  | S fuel =>
      d <-- get_block b ;;
      check_sector d sector ;;;
      data <-- match ddriver d with
               | Ide disk => ide_read disk sector
               | Partition parent start => block_read fuel parent (u32 (start + sector))
               end ;;
      d <-- get_block b ;;
      put_block b (Device (dname d) (dtype d) (dsize d) (ddriver d) (u64 (read_cnt d + 1)) (write_cnt d)) ;;;
      retS data
  end.

Fixpoint block_write (fuel : nat) (b sector : Z) (buffer : list Z) : ST st unit :=
  match fuel with
  | O => λ _, Timeout
  | S fuel =>
      d <-- get_block b ;;
      check_sector d sector ;;;
      assertS (bool_decide (dtype d ≠ BLOCK_FOREIGN)) ;;;
      match ddriver d with
      | Ide disk => ide_write disk sector buffer
      | Partition parent start => block_write fuel parent (u32 (start + sector)) buffer
      end ;;;
      d <-- get_block b ;;
      put_block b (Device (dname d) (dtype d) (dsize d) (ddriver d) (read_cnt d) (u64 (write_cnt d + 1)))
  end.

(** Enough for every chain of partitions. *)
Definition depth s : nat := length (all_blocks s).

Definition read_block (b sector : Z) : ST st (list Z) := λ s, block_read (depth s) b sector s.
Definition write_block (b sector : Z) (buffer : list Z) : ST st unit := λ s, block_write (depth s) b sector buffer s.

(** ** Registration and statistics *)

Definition block_register (name : list Z) (type : Disk.block_type) (extra_info : option (list Z)) (size : Z) (ops : driver) : ST st Z :=
  block <-- alloc 56 ;;
  let name := take 15 name in
  s <-- getS ;;
  putS (set_blocks s (<[block := Device name type size ops 0 0]> (devices s)) (all_blocks s ++ [block])) ;;;
  print "%s: %'u sectors (" [AStr (Some name); AInt size] ;;;
  (λ s, out ← print_human_readable_size (u64 (size * 512)) (bconsole s); Ok (tt, set_bconsole s out)) ;;;
  print ")" [] ;;;
  match extra_info with Some i => print ", %s" [AStr (Some i)] | None => retS tt end ;;;
  newline ;;;
  retS block.

Definition print_stat (role : Disk.block_type) : ST st unit :=
  b <-- block_get_role role ;;
  match b with
  | None => retS tt
  | Some b =>
      d <-- get_block b ;;
      print "%s (%s): %llu reads, %llu writes" [AStr (Some (dname d)); AStr (Some (block_type_name (dtype d))); AInt64 (read_cnt d); AInt64 (write_cnt d)] ;;;
      newline
  end.

Definition block_print_stats : ST st unit :=
  print_stat BLOCK_KERNEL ;;; print_stat BLOCK_FILESYS ;;; print_stat BLOCK_SCRATCH ;;; print_stat BLOCK_SWAP.

End code.

(** ** The invariant *)

Section proof.
Context {K : Type} `{!HeapOps K}.
Local Abbreviation st := (bdevs K).
Implicit Types (s : st) (d : device).

(** The device of a driver has room for [size] sectors; devices of partitions come before
    them in the list. *)
Definition driver_ok s (i : nat) (size : Z) (v : driver) : Prop :=
  match v with
  | Ide disk => ∃ l, disks s !! disk = Some l ∧ Z.of_nat (length l) = size ∧ Forall (λ x, length x = 512%nat) l
  | Partition parent start =>
      0 ≤ start ∧ ∃ j pd, (j < i)%nat ∧ all_blocks s !! j = Some parent ∧ devices s !! parent = Some pd ∧
        start + size ≤ dsize pd ∧ dtype pd ≠ BLOCK_FOREIGN
  end.

Record bdevs_ok s : Prop := {
  bd_dom : ∀ b, is_Some (devices s !! b) ↔ b ∈ all_blocks s;
  bd_nodup : NoDup (all_blocks s);
  bd_size : ∀ b d, devices s !! b = Some d → 0 ≤ dsize d < WORD;
  bd_driver : ∀ i b d, all_blocks s !! i = Some b → devices s !! b = Some d → driver_ok s i (dsize d) (ddriver d);
}.

(** The sectors of a device, from [off] on, are on [disk]. *)
Inductive located s : Z → Z → Z → Prop :=
  | located_disk b d disk : devices s !! b = Some d → ddriver d = Ide disk → located s b disk 0
  | located_part b d parent start disk off :
      devices s !! b = Some d → ddriver d = Partition parent start → located s parent disk off → located s b disk (off + start).

(** Only counters differ. *)
Definition same_device d d' : Prop := dname d' = dname d ∧ dtype d' = dtype d ∧ dsize d' = dsize d ∧ ddriver d' = ddriver d.

Record same_devices s s' : Prop := {
  sd_blocks : all_blocks s' = all_blocks s;
  sd_roles : block_by_role s' = block_by_role s;
  sd_console : bconsole s' = bconsole s;
  sd_heap : bheap s' = bheap s;
  sd_devices : ∀ b, option_Forall2 same_device (devices s !! b) (devices s' !! b);
}.

Lemma same_device_refl d : same_device d d.
Proof. done. Qed.

Lemma same_devices_refl s : same_devices s s.
Proof. split; try done. intros b. destruct (devices s !! b); constructor. apply same_device_refl. Qed.

Lemma same_devices_trans s1 s2 s3 : same_devices s1 s2 → same_devices s2 s3 → same_devices s1 s3.
Proof.
  intros [? ? ? ? H1] [? ? ? ? H2]. split; try congruence. intros b. specialize (H1 b). specialize (H2 b).
  destruct (devices s1 !! b) as [d1|], (devices s2 !! b) as [d2|], (devices s3 !! b) as [d3|]; inversion H1; inversion H2; subst; try constructor.
  unfold same_device in *. intuition congruence.
Qed.

Lemma same_devices_some s s' b d : same_devices s s' → devices s !! b = Some d → ∃ d', devices s' !! b = Some d' ∧ same_device d d'.
Proof. intros [_ _ _ _ H] Hb. specialize (H b). rewrite Hb in H. inversion_clear H as [? d' Hd|]. by exists d'. Qed.

Lemma same_devices_back s s' b d' : same_devices s s' → devices s' !! b = Some d' → ∃ d, devices s !! b = Some d ∧ same_device d d'.
Proof. intros [_ _ _ _ H] Hb. specialize (H b). rewrite Hb in H. inversion_clear H as [d ? Hd|]. by exists d. Qed.

Lemma same_devices_put s b d d' : devices s !! b = Some d → same_device d d' → same_devices s (set_devices s (<[b := d']> (devices s))).
Proof.
  intros Hb Hd. split; try done. intros c. simpl. destruct (decide (c = b)) as [->|]; [rewrite lookup_insert_eq, Hb; by constructor|].
  rewrite lookup_insert_ne by done. destruct (devices s !! c); constructor. apply same_device_refl.
Qed.

(** The invariant is about what counters do not change, and the sizes of the disks. *)
Definition same_shape (l l' : list (list Z)) : Prop := length l' = length l ∧ Forall (λ x, length x = 512%nat) l'.

Lemma same_devices_ok s s' :
  bdevs_ok s → same_devices s s' →
  (∀ k l, disks s !! k = Some l → Forall (λ x, length x = 512%nat) l → ∃ l', disks s' !! k = Some l' ∧ same_shape l l') → bdevs_ok s'.
Proof.
  intros [Hdom Hnd Hsz Hdrv] Hs Hdisks. split.
  - intros b. rewrite (sd_blocks _ _ Hs), <-Hdom. pose proof (sd_devices _ _ Hs b) as H. inversion H as [? ? ? E1 E2|E1 E2]; split; intros [? ?]; try done; by eexists.
  - by rewrite (sd_blocks _ _ Hs).
  - intros b d' Hd'. destruct (same_devices_back s s' b d' Hs Hd') as (d & Hd & _ & _ & -> & _). by apply (Hsz b).
  - intros i b d' Hi Hd'. rewrite (sd_blocks _ _ Hs) in Hi. destruct (same_devices_back s s' b d' Hs Hd') as (d & Hd & _ & _ & -> & ->).
    specialize (Hdrv i b d Hi Hd). destruct (ddriver d) as [k|parent start]; simpl in *.
    + destruct Hdrv as (l & Hl & Hlen & Hall). destruct (Hdisks k l Hl Hall) as (l' & Hl' & Hlen' & Hall'). exists l'. split_and!; [done|lia|done].
    + destruct Hdrv as (H0 & j & pd & Hj & Hjp & Hpd & Hle & Hty). split; [done|].
      destruct (same_devices_some s s' parent pd Hs Hpd) as (pd' & Hpd' & _ & Et & Es & _). exists j, pd'. rewrite (sd_blocks _ _ Hs), Et, Es. by split_and!.
Qed.

Lemma same_devices_located s s' b k off : same_devices s s' → located s b k off → located s' b k off.
Proof.
  intros Hs. induction 1 as [b d k Hb Hd|b d parent start k off Hb Hd _ IH]; destruct (same_devices_some s s' b d Hs Hb) as (d' & Hb' & _ & _ & _ & E).
  - apply (located_disk _ b d'); [done|congruence].
  - apply (located_part _ b d' parent); [done|congruence|done].
Qed.

Lemma bdevs_ok_frame s s' : disks s' = disks s → devices s' = devices s → all_blocks s' = all_blocks s → bdevs_ok s → bdevs_ok s'.
Proof.
  intros E1 E2 E3 [Hdom Hnd Hsz Hdrv]. split; rewrite ?E2, ?E3; try done. intros i b d Hi Hd. specialize (Hdrv i b d Hi Hd).
  destruct (ddriver d); simpl in *; by rewrite ?E1, ?E2, ?E3.
Qed.

Lemma located_frame s s' b k off : devices s' = devices s → located s b k off → located s' b k off.
Proof.
  intros E. induction 1 as [b d k Hb Hd|b d parent start k off Hb Hd _ IH]; rewrite <-E in Hb; [by eapply located_disk|by eapply located_part].
Qed.

(** Where a device is. *)
Lemma device_located s i b d :
  bdevs_ok s → all_blocks s !! i = Some b → devices s !! b = Some d →
  ∃ k off l, located s b k off ∧ disks s !! k = Some l ∧ 0 ≤ off ∧ off + dsize d ≤ Z.of_nat (length l) ∧ Forall (λ x, length x = 512%nat) l.
Proof.
  intros Hok. revert b d. induction (lt_wf i) as [i _ IH]. intros b d Hi Hd. pose proof (bd_driver s Hok i b d Hi Hd) as Hdrv.
  destruct (ddriver d) as [k|parent start] eqn:Ed; simpl in Hdrv.
  - destruct Hdrv as (l & Hl & Hlen & Hall). exists k, 0, l. split_and!; [by eapply located_disk|done|lia|lia|done].
  - destruct Hdrv as (H0 & j & pd & Hj & Hjp & Hpd & Hle & _). destruct (IH j Hj parent pd Hjp Hpd) as (k & off & l & Hloc & Hl & Hoff & Hlen & Hall).
    exists k, (off + start), l. split_and!; [by eapply located_part|done|lia|lia|done].
Qed.

Lemma located_fun s b k off k' off' : located s b k off → located s b k' off' → k = k' ∧ off = off'.
Proof.
  intros H1. revert k' off'. induction H1 as [b d k Hb Hd|b d parent start k off Hb Hd _ IH]; intros k' off' H2;
    inversion H2 as [? d' ? Hb' Hd'|? d' ? ? ? ? Hb' Hd' Hl]; subst; rewrite Hb in Hb'; injection Hb' as <-; rewrite Hd in Hd'; try done; injection Hd'.
  - by intros <-.
  - intros <- <-. by destruct (IH _ _ Hl) as [<- <-].
Qed.

Lemma get_block_ok s b d : devices s !! b = Some d → get_block b s = Ok (d, s).
Proof. intros H. unfold get_block, liftS. by rewrite H. Qed.

Lemma check_sector_ok s d sec : sec < dsize d → check_sector d sec s = Ok (tt, s).
Proof. intros H. unfold check_sector. by rewrite (proj2 (Z.leb_gt _ _)). Qed.

(** ** Reading and writing *)

Lemma device_read_ok fuel s i b d sec k off l :
  bdevs_ok s → all_blocks s !! i = Some b → devices s !! b = Some d → (i < fuel)%nat → located s b k off → disks s !! k = Some l → 0 ≤ sec < dsize d →
  ∃ data s', block_read fuel b sec s = Ok (data, s') ∧ l !! Z.to_nat (off + sec) = Some data ∧ same_devices s s' ∧ disks s' = disks s.
Proof.
  intros Hok. revert i b d sec off. induction fuel as [|fuel IH]; intros i b d sec off Hi Hd Hlt Hloc Hl Hsec; [lia|]. cbn [block_read].
  rewrite (bindS_Ok _ _ _ _ _ (get_block_ok s b d Hd)), (bindS_Ok _ _ _ _ _ (check_sector_ok s d sec ltac:(lia))).
  assert (∃ data s', (match ddriver d with Ide disk => ide_read disk sec | Partition parent start => block_read fuel parent (u32 (start + sec)) end) s = Ok (data, s') ∧
    l !! Z.to_nat (off + sec) = Some data ∧ same_devices s s' ∧ disks s' = disks s) as (data & s1 & E & Hdata & Hs & Hdisks).
  { pose proof (bd_driver s Hok i b d Hi Hd) as Hdrv. destruct (ddriver d) as [disk|parent start] eqn:Ed; simpl in Hdrv.
    - destruct (located_fun _ _ _ _ _ _ Hloc (located_disk _ _ _ _ Hd Ed)) as [-> ->]. destruct Hdrv as (l' & Hl' & Hlen & _). rewrite Hl in Hl'. injection Hl' as <-.
      destruct (lookup_lt_is_Some_2 l (Z.to_nat sec)) as [data Hdata]; [lia|]. exists data, s. unfold ide_read, liftS. rewrite Hl. simpl. rewrite Hdata.
      split_and!; [done|done|apply same_devices_refl|done].
    - destruct Hdrv as (H0 & j & pd & Hj & Hjp & Hpd & Hle & _). pose proof (bd_size s Hok parent pd Hpd) as Hsz.
      inversion Hloc as [? d' ? Hb' Hd'|? d' ? ? ? off' Hb' Hd' Hl']; subst; rewrite Hd in Hb'; injection Hb' as <-; rewrite Ed in Hd'; [done|]. injection Hd' as <- <-.
      rewrite u32_small by (unfold is_u32; lia). destruct (IH j parent pd (start + sec) off' Hjp Hpd ltac:(lia) Hl' Hl ltac:(lia)) as (data & s1 & E & Hdata & Hs & Hdisks).
      exists data, s1. split_and!; [done| |done|done]. rewrite <-Hdata. f_equal. lia. }
  rewrite (bindS_Ok _ _ _ _ _ E). destruct (same_devices_some s s1 b d Hs Hd) as (d1 & Hd1 & Hsame). rewrite (bindS_Ok _ _ _ _ _ (get_block_ok s1 b d1 Hd1)).
  unfold put_block, bindS, retS. eexists data, _. split_and!; [done|done| |done]. eapply same_devices_trans; [done|]. by apply (same_devices_put s1 b d1).
Qed.

Lemma device_write_ok fuel s i b d sec k off l buf :
  bdevs_ok s → all_blocks s !! i = Some b → devices s !! b = Some d → (i < fuel)%nat → located s b k off → disks s !! k = Some l → 0 ≤ sec < dsize d →
  dtype d ≠ BLOCK_FOREIGN →
  ∃ s', block_write fuel b sec buf s = Ok (tt, s') ∧ same_devices s s' ∧ disks s' = <[k := <[Z.to_nat (off + sec) := buf]> l]> (disks s).
Proof.
  intros Hok. revert i b d sec off. induction fuel as [|fuel IH]; intros i b d sec off Hi Hd Hlt Hloc Hl Hsec Hty; [lia|]. cbn [block_write].
  rewrite (bindS_Ok _ _ _ _ _ (get_block_ok s b d Hd)), (bindS_Ok _ _ _ _ _ (check_sector_ok s d sec ltac:(lia))).
  rewrite (bindS_Ok _ _ s tt s) by by rewrite bool_decide_eq_true_2.
  assert (∃ s', (match ddriver d with Ide disk => ide_write disk sec buf | Partition parent start => block_write fuel parent (u32 (start + sec)) buf end) s = Ok (tt, s') ∧
    same_devices s s' ∧ disks s' = <[k := <[Z.to_nat (off + sec) := buf]> l]> (disks s)) as (s1 & E & Hs & Hdisks).
  { pose proof (bd_driver s Hok i b d Hi Hd) as Hdrv. destruct (ddriver d) as [disk|parent start] eqn:Ed; simpl in Hdrv.
    - destruct (located_fun _ _ _ _ _ _ Hloc (located_disk _ _ _ _ Hd Ed)) as [-> ->]. destruct Hdrv as (l' & Hl' & Hlen & _). rewrite Hl in Hl'. injection Hl' as <-.
      unfold ide_write. rewrite Hl. mstep. rewrite (proj2 (Z.ltb_lt _ _)) by lia. eexists. split_and!; [done| |done]. split; try done. intros c. simpl.
      destruct (devices s !! c); constructor. apply same_device_refl.
    - destruct Hdrv as (H0 & j & pd & Hj & Hjp & Hpd & Hle & Hpty). pose proof (bd_size s Hok parent pd Hpd) as Hsz.
      inversion Hloc as [? d' ? Hb' Hd'|? d' ? ? ? off' Hb' Hd' Hl']; subst; rewrite Hd in Hb'; injection Hb' as <-; rewrite Ed in Hd'; [done|]. injection Hd' as <- <-.
      rewrite u32_small by (unfold is_u32; lia). destruct (IH j parent pd (start + sec) off' Hjp Hpd ltac:(lia) Hl' Hl ltac:(lia) Hpty) as (s1 & E & Hs & Hdisks).
      exists s1. split_and!; [done|done|]. by replace (off' + start + sec) with (off' + (start + sec)) by lia. }
  rewrite (bindS_Ok _ _ _ _ _ E). destruct (same_devices_some s s1 b d Hs Hd) as (d1 & Hd1 & Hsame). rewrite (bindS_Ok _ _ _ _ _ (get_block_ok s1 b d1 Hd1)).
  unfold put_block. eexists. split_and!; [done| |done]. eapply same_devices_trans; [done|]. by apply (same_devices_put s1 b d1).
Qed.

(** A device as the file system sees it. *)
Definition slice (l : list (list Z)) (off n : Z) : list (list Z) := take (Z.to_nat n) (drop (Z.to_nat off) l).

Definition as_block d (l : list (list Z)) (off : Z) : block := Block (dtype d) (dsize d) (slice l off (dsize d)).

Lemma slice_lookup l off n i : 0 ≤ off → 0 ≤ i < n → slice l off n !! Z.to_nat i = l !! Z.to_nat (off + i).
Proof. intros Ho Hi. unfold slice. rewrite lookup_take_lt by lia. rewrite lookup_drop. f_equal. lia. Qed.

Lemma sectors_slice_insert l off n i x : 0 ≤ off → 0 ≤ i < n → slice (<[Z.to_nat (off + i) := x]> l) off n = <[Z.to_nat i := x]> (slice l off n).
Proof. intros Ho Hi. unfold slice. rewrite Z2Nat.inj_add by lia. rewrite drop_insert_ge by lia. rewrite take_insert_lt by lia. do 2 f_equal. lia. Qed.

Lemma fault_past_end fuel s b d sec buf :
  devices s !! b = Some d → dsize d ≤ sec → block_read (S fuel) b sec s = Fault PanicCall ∧ block_write (S fuel) b sec buf s = Fault PanicCall.
Proof.
  intros Hd Hs. cbn [block_read block_write]. rewrite !(bindS_Ok _ _ _ _ _ (get_block_ok s b d Hd)).
  unfold check_sector. rewrite (proj2 (Z.leb_le _ _)) by lia. split; by apply bindS_Fault.
Qed.

Lemma disks_written s s' k off sec l buf :
  bdevs_ok s → same_devices s s' → disks s' = <[k := <[Z.to_nat (off + sec) := buf]> l]> (disks s) → disks s !! k = Some l → length buf = 512%nat → bdevs_ok s'.
Proof.
  intros Hok Hs Hdisks Hl Hb. apply (same_devices_ok s); [done|done|]. intros k' l' Hl' Hall. rewrite Hdisks. destruct (decide (k' = k)) as [->|].
  - rewrite lookup_insert_eq. rewrite Hl in Hl'. injection Hl' as <-. eexists. split; [done|]. split; [by rewrite length_insert|]. by apply Forall_insert.
  - rewrite lookup_insert_ne by done. by exists l'.
Qed.

(** C12. A registered device, be it a disk or a partition of one, is a block device of its own,
    as the file system uses it: its sectors are a part of a disk, a read or write of any
    sector gives the result of the same call on a device with just these sectors, panics
    past its end, and touches no sector of the disk outside of it; only counters of other
    devices change. *)
Theorem device_refines_block s b d :
  bdevs_ok s → devices s !! b = Some d →
  ∃ k off l, located s b k off ∧ disks s !! k = Some l ∧ 0 ≤ off ∧ off + dsize d ≤ Z.of_nat (length l) ∧
    ∀ sec, 0 ≤ sec →
    (match Disk.block_read (as_block d l off) sec with
     | Ok data => ∃ s', read_block b sec s = Ok (data, s') ∧ bdevs_ok s' ∧ same_devices s s' ∧ disks s' = disks s
     | r => read_block b sec s = (_ ← r; Timeout)
     end) ∧
    ∀ buf, length buf = 512%nat →
    match Disk.block_write (as_block d l off) sec buf with
    | Ok v => ∃ s' l', write_block b sec buf s = Ok (tt, s') ∧ bdevs_ok s' ∧ same_devices s s' ∧
        disks s' = <[k := l']> (disks s) ∧ v = as_block d l' off ∧ ∀ i : nat, ¬ (off ≤ Z.of_nat i < off + dsize d) → l' !! i = l !! i
    | r => write_block b sec buf s = (_ ← r; Timeout)
    end.
Proof.
  intros Hok Hd. assert (b ∈ all_blocks s) as [i Hi]%list_elem_of_lookup by (apply (bd_dom s Hok); by eexists).
  destruct (device_located s i b d Hok Hi Hd) as (k & off & l & Hloc & Hl & Hoff & Hlen & Hall). exists k, off, l. split_and!; [done..|]. intros sec Hsec0.
  assert (i < depth s)%nat as Hdepth by by eapply lookup_lt_Some. unfold read_block, write_block, Disk.block_read, Disk.block_write, Disk.check_sector. cbn [bsize btype sectors as_block].
  destruct (Z.leb_spec (dsize d) sec) as [Hge|Hlt].
  { mstep. destruct (depth s) as [|fuel]; [lia|]. split; [|intros buf _]; apply (fault_past_end fuel s b d sec []) || (by destruct (fault_past_end fuel s b d sec buf Hd Hge)); done. }
  mstep. rewrite slice_lookup by lia. split.
  - destruct (device_read_ok (depth s) s i b d sec k off l Hok Hi Hd Hdepth Hloc Hl ltac:(lia)) as (data & s' & E & Hdata & Hs & Hdisks). rewrite Hdata. mstep.
    exists s'. split_and!; [done| |done|done]. apply (same_devices_ok s); [done|done|]. rewrite Hdisks. intros k' l' Hl' Hall'. by exists l'.
  - intros buf Hbuf. case_bool_decide as Hty.
    + destruct (device_write_ok (depth s) s i b d sec k off l buf Hok Hi Hd Hdepth Hloc Hl ltac:(lia) Hty) as (s' & E & Hs & Hdisks). mstep.
      exists s', (<[Z.to_nat (off + sec) := buf]> l). split_and!; [done|by eapply disks_written|done|done| |].
      * unfold as_block. by rewrite sectors_slice_insert by lia.
      * intros j Hj. rewrite list_lookup_insert_ne; [done|lia].
    + mstep. destruct (depth s) as [|fuel]; [lia|]. cbn [block_write]. rewrite (bindS_Ok _ _ _ _ _ (get_block_ok s b d Hd)), (bindS_Ok _ _ _ _ _ (check_sector_ok s d sec Hlt)).
      apply bindS_Fault. unfold assertS. by case_bool_decide.
Qed.

End proof.

(** ** A disk with a partition *)

Definition demo_disk (table : list Z) : list (list Z) := table :: replicate 7 (replicate 512 5).

Definition demo_devices {K} (table : list Z) (ps : list device) (h : K) : bdevs K :=
  BDevs {[0 := demo_disk table]} (<[100 := Device (bytes "hda") BLOCK_RAW 8 (Ide 0) 0 0]> (list_to_map (zip (seqZ 101 (Z.of_nat (length ps))) ps)))
    (seqZ 100 (Z.of_nat (S (length ps)))) ∅ [] h.

Definition demo_part : device := Device (bytes "hda1") BLOCK_FILESYS 4 (Partition 100 2) 0 0.

Lemma demo_devices_ok {K} table (h : K) : length table = 512%nat → bdevs_ok (demo_devices table [demo_part] h).
Proof.
  intros Ht. assert (∀ b d, devices (demo_devices table [demo_part] h) !! b = Some d → (b = 100 ∧ d = Device (bytes "hda") BLOCK_RAW 8 (Ide 0) 0 0) ∨ (b = 101 ∧ d = demo_part)) as Hdev.
  { intros b d. unfold demo_devices. cbn [devices]. intros [[<- <-]|[_ Hb]]%lookup_insert_Some; [by left|right]. change (list_to_map _) with ({[101 := demo_part]} : gmap Z device) in Hb.
    by apply lookup_singleton_Some in Hb as [<- <-]. }
  split.
  - intros b. unfold demo_devices. cbn [all_blocks devices length]. change (seqZ 100 (Z.of_nat 2)) with [100; 101]. rewrite !elem_of_cons, elem_of_nil. split.
    + intros [d Hd]. destruct (Hdev b d Hd) as [[-> _]|[-> _]]; auto.
    + intros [->|[->|[]]]; by eexists.
  - unfold demo_devices. cbn [all_blocks]. apply NoDup_seqZ.
  - intros b d Hd. by destruct (Hdev b d Hd) as [[_ ->]|[_ ->]].
  - intros i b d Hi Hd. destruct (Hdev b d Hd) as [[-> ->]|[-> ->]]; cbn [driver_ok ddriver demo_part].
    + exists (demo_disk table). split_and!; [done|done|]. constructor; [done|]. apply Forall_replicate. by rewrite length_replicate.
    + split; [done|]. exists 0%nat, (Device (bytes "hda") BLOCK_RAW 8 (Ide 0) 0 0). destruct i as [|i]; [done|]. split_and!; try done. lia.
Qed.

Lemma device_refines_block_witness :
  ∃ k off l, located (demo_devices (replicate 512 0) [demo_part] tt) 101 k off ∧ disks (demo_devices (replicate 512 0) [demo_part] tt) !! k = Some l ∧ 0 ≤ off ∧ off + 4 ≤ Z.of_nat (length l).
Proof.
  destruct (device_refines_block (demo_devices (replicate 512 0) [demo_part] tt) 101 demo_part (demo_devices_ok (replicate 512 0) tt eq_refl) eq_refl)
    as (k & off & l & H1 & H2 & H3 & H4 & _).
  exact (ex_intro _ k (ex_intro _ off (ex_intro _ l (conj H1 (conj H2 (conj H3 H4)))))).
Defined.
