(* ===== verification/Partition.v ===== *)
(** Partitions of disks (src/devices/partition.c).

    The table in the first sector of a disk names the partitions, each of which becomes a block
    device of its own. [read_partition_table] runs on fuel: with an extended partition in the
    table it need not return. *)

From Stdlib Require Import Ascii String.
From S2P Require Import Prelude Vaddr Disk Malloc KernelHeap Stdio Format Blockdev Palloc Pages.

Record partition_table_entry := Entry { etype : Z; eoffset : Z; esize : Z }.

(** The entry in 16 bytes; the fields that are not used are left out. *)
Definition decode_entry (l : list Z) : partition_table_entry :=
  Entry (default 0 (l !! 4%nat)) (of_le32 (take 4 (drop 8 l))) (of_le32 (take 4 (drop 12 l))).

Definition entry_at (pt : list Z) (i : nat) : partition_table_entry := decode_entry (take 16 (drop (446 + 16 * i) pt)).

Definition entries (pt : list Z) : list partition_table_entry := entry_at pt <$> seq 0 4.

Definition signature (pt : list Z) : Z := default 0 (pt !! 510%nat) + 256 * default 0 (pt !! 511%nat).

Definition empty_entry (e : partition_table_entry) : bool := (esize e =? 0) || (etype e =? 0).

Definition extended_entry (e : partition_table_entry) : bool :=
  (etype e =? 5) || (etype e =? 15) || (etype e =? 133) || (etype e =? 197).

Definition partition_type_name (type : Z) : list Z :=
  match type with
  | 0 => bytes "Empty"
  | 1 => bytes "FAT12"
  | 2 => bytes "XENIX root"
  | 3 => bytes "XENIX usr"
  | 4 => bytes "FAT16 <32M"
  | 5 => bytes "Extended"
  | 6 => bytes "FAT16"
  | 7 => bytes "HPFS/NTFS"
  | 8 => bytes "AIX"
  | 9 => bytes "AIX bootable"
  | 10 => bytes "OS/2 Boot Manager"
  | 11 => bytes "W95 FAT32"
  | 12 => bytes "W95 FAT32 (LBA)"
  | 14 => bytes "W95 FAT16 (LBA)"
  | 15 => bytes "W95 Ext'd (LBA)"
  | 16 => bytes "OPUS"
  | 17 => bytes "Hidden FAT12"
  | 18 => bytes "Compaq diagnostics"
  | 20 => bytes "Hidden FAT16 <32M"
  | 22 => bytes "Hidden FAT16"
  | 23 => bytes "Hidden HPFS/NTFS"
  | 24 => bytes "AST SmartSleep"
  | 27 => bytes "Hidden W95 FAT32"
  | 28 => bytes "Hidden W95 FAT32 (LBA)"
  | 30 => bytes "Hidden W95 FAT16 (LBA)"
  | 32 => bytes "Pintos OS kernel"
  | 33 => bytes "Pintos file system"
  | 34 => bytes "Pintos scratch"
  | 35 => bytes "Pintos swap"
  | 36 => bytes "NEC DOS"
  | 57 => bytes "Plan 9"
  | 60 => bytes "PartitionMagic recovery"
  | 64 => bytes "Venix 80286"
  | 65 => bytes "PPC PReP Boot"
  | 66 => bytes "SFS"
  | 77 => bytes "QNX4.x"
  | 78 => bytes "QNX4.x 2nd part"
  | 79 => bytes "QNX4.x 3rd part"
  | 80 => bytes "OnTrack DM"
  | 81 => bytes "OnTrack DM6 Aux1"
  | 82 => bytes "CP/M"
  | 83 => bytes "OnTrack DM6 Aux3"
  | 84 => bytes "OnTrackDM6"
  | 85 => bytes "EZ-Drive"
  | 86 => bytes "Golden Bow"
  | 92 => bytes "Priam Edisk"
  | 97 => bytes "SpeedStor"
  | 99 => bytes "GNU HURD or SysV"
  | 100 => bytes "Novell Netware 286"
  | 101 => bytes "Novell Netware 386"
  | 112 => bytes "DiskSecure Multi-Boot"
  | 117 => bytes "PC/IX"
  | 128 => bytes "Old Minix"
  | 129 => bytes "Minix / old Linux"
  | 130 => bytes "Linux swap / Solaris"
  | 131 => bytes "Linux"
  | 132 => bytes "OS/2 hidden C: drive"
  | 133 => bytes "Linux extended"
  | 134 => bytes "NTFS volume set"
  | 135 => bytes "NTFS volume set"
  | 136 => bytes "Linux plaintext"
  | 142 => bytes "Linux LVM"
  | 147 => bytes "Amoeba"
  | 148 => bytes "Amoeba BBT"
  | 159 => bytes "BSD/OS"
  | 160 => bytes "IBM Thinkpad hibernation"
  | 165 => bytes "FreeBSD"
  | 166 => bytes "OpenBSD"
  | 167 => bytes "NeXTSTEP"
  | 168 => bytes "Darwin UFS"
  | 169 => bytes "NetBSD"
  | 171 => bytes "Darwin boot"
  | 183 => bytes "BSDI fs"
  | 184 => bytes "BSDI swap"
  | 187 => bytes "Boot Wizard hidden"
  | 190 => bytes "Solaris boot"
  | 191 => bytes "Solaris"
  | 193 => bytes "DRDOS/sec (FAT-12)"
  | 196 => bytes "DRDOS/sec (FAT-16 < 32M)"
  | 198 => bytes "DRDOS/sec (FAT-16)"
  | 199 => bytes "Syrinx"
  | 218 => bytes "Non-FS data"
  | 219 => bytes "CP/M / CTOS / ..."
  | 222 => bytes "Dell Utility"
  | 223 => bytes "BootIt"
  | 225 => bytes "DOS access"
  | 227 => bytes "DOS R/O"
  | 228 => bytes "SpeedStor"
  | 235 => bytes "BeOS fs"
  | 238 => bytes "EFI GPT"
  | 239 => bytes "EFI (FAT-12/16/32)"
  | 240 => bytes "Linux/PA-RISC boot"
  | 241 => bytes "SpeedStor"
  | 242 => bytes "DOS secondary"
  | 244 => bytes "SpeedStor"
  | 253 => bytes "Linux raid autodetect"
  | 254 => bytes "LANstep"
  | 255 => bytes "BBT"
  | _ => bytes "Unknown"
  end.

Definition partition_block_type (part_type : Z) : Disk.block_type :=
  if part_type =? 32 then BLOCK_KERNEL
  else if part_type =? 33 then BLOCK_FILESYS
  else if part_type =? 34 then BLOCK_SCRATCH
  else if part_type =? 35 then BLOCK_SWAP
  else BLOCK_FOREIGN.

Section code.
Context {K : Type} `{!HeapOps K}.
Local Abbreviation st := (bdevs K).

(** [snprintf] in a new array of [size] bytes, as a string. *)
Definition format_in (size : nat) (format : string) (args : list arg) : ST st (list Z) :=
  ' (buf, _) <-- liftS (snprintf (replicate size 0) (Z.of_nat size) (bytes format) args) ;;
  retS (cstring buf).

Definition found_partition (block part_type start size part_nr : Z) : ST st unit :=
  name <-- block_name block ;;
  bsize <-- block_size block ;;
  if bsize <=? start then
    print "%s%d: Partition starts past end of device (sector %u)" [AStr (Some name); AInt (u32 part_nr); AInt start] ;;; newline
  else if (u32 (start + size) <? start) || (bsize <? u32 (start + size)) then
    print "%s%d: Partition end (%u) past end of device (%u)" [AStr (Some name); AInt (u32 part_nr); AInt (u32 (start + size)); AInt bsize] ;;; newline
  else
    p <-- alloc 8 ;;
    pname <-- format_in 16 "%s%d" [AStr (Some name); AInt (u32 part_nr)] ;;
    extra_info <-- format_in 128 "%s (%02x)" [AStr (Some (partition_type_name part_type)); AInt part_type] ;;
    block_register pname (partition_block_type part_type) (Some extra_info) size (Partition block start) ;;;
    retS tt.

Fixpoint foldS {S A B : Type} (f : A → B → ST S A) (a : A) (l : list B) : ST S A :=
  match l with [] => retS a | b :: l => a <-- f a b ;; foldS f a l end.

(** One entry of a table in [sector]; [rec] reads another table. *)
Definition read_entry (rec : Z → Z → Z → ST st Z) (block sector primary_extended_sector : Z) (name : list Z) (part_nr : Z) (e : partition_table_entry) : ST st Z :=
  if empty_entry e then retS part_nr
  else if extended_entry e then
    print "%s: Extended partition in sector %u" [AStr (Some name); AInt sector] ;;; newline ;;;
    if sector =? 0 then rec (eoffset e) (eoffset e) part_nr
    else rec (u32 (eoffset e + primary_extended_sector)) primary_extended_sector part_nr
  else
    let part_nr := s32 (part_nr + 1) in
    found_partition block (etype e) (u32 (eoffset e + sector)) (esize e) part_nr ;;;
    retS part_nr.

Fixpoint read_partition_table (fuel : nat) (block sector primary_extended_sector part_nr : Z) : ST st Z :=
  match fuel with
  | O => λ _, Timeout
  | S fuel =>
      bsize <-- block_size block ;;
      name <-- block_name block ;;
      if bsize <=? sector then
        print "%s: Partition table at sector %u past end of device." [AStr (Some name); AInt sector] ;;; newline ;;; retS part_nr
      else
        p <-- alloc 512 ;;
        pt <-- read_block block 0 ;;
        if negb (signature pt =? 43605) then
          (if primary_extended_sector =? 0 then print "%s: Invalid partition table signature" [AStr (Some name)]
           else print "%s: Invalid extended partition table in sector %u" [AStr (Some name); AInt sector]) ;;;
          newline ;;;
          release p ;;;
          retS part_nr
        else
          part_nr <-- foldS (read_entry (read_partition_table fuel block) block sector primary_extended_sector name) part_nr (entries pt) ;;
          release p ;;;
          retS part_nr
  end.

Definition partition_scan (fuel : nat) (block : Z) : ST st unit :=
  part_nr <-- read_partition_table fuel block 0 0 0 ;;
  if part_nr =? 0 then
    name <-- block_name block ;; print "%s: Device contains no partitions" [AStr (Some name)] ;;; newline
  else retS tt.

End code.

(** ** What a scan finds *)

(** The device for an entry of the table of [b], if it is in bounds; [n] is its number. *)
Definition part_name (name : list Z) (n : Z) : list Z :=
  match printf (bytes "%s%d") [AStr (Some name); AInt (u32 n)] [] with Ok l => cstring (take 15 l) | _ => [] end.

Definition in_bounds (d : device) (e : partition_table_entry) : bool := (eoffset e <? dsize d) && (eoffset e + esize e <=? dsize d).

(** The devices of a table, numbered from [n] on. *)
Fixpoint found (b : Z) (d : device) (n : Z) (es : list partition_table_entry) : list device :=
  match es with
  | [] => []
  | e :: es =>
      if empty_entry e then found b d n es
      else if in_bounds d e then
        Device (part_name (dname d) (n + 1)) (partition_block_type (etype e)) (esize e) (Partition b (eoffset e)) 0 0 :: found b d (n + 1) es
      else found b d (n + 1) es
  end.

Section proof.
Context {K : Type} `{!HeapOps K} `{!HeapInv K} `{!HeapLaws K}.
Local Abbreviation st := (bdevs K).
Implicit Types (s : st) (live : gmap Z Z).

(** The heap has blocks of these sizes, one after the other. *)
Fixpoint gives (h : K) (sizes : list Z) : Prop :=
  match sizes with
  | [] => True
  | n :: sizes => match kmalloc n h with Ok (p, h) => p ≠ NULL ∧ gives h sizes | _ => False end
  end.

Record heap_ok s live : Prop := {
  ho_heap : heap_holds (bheap s) live;
  ho_blocks : ∀ b, b ∈ all_blocks s → is_Some (live !! b);
}.

(** The devices [ds] have been registered. *)
Record grown s live s' live' (ds : list device) : Prop := {
  gr_new : ∃ ps, all_blocks s' = all_blocks s ++ ps ∧ Forall2 (λ p d, devices s' !! p = Some d) ps ds ∧ Forall (λ p, live !! p = None) ps;
  gr_sub : live ⊆ live';
  gr_old : ∀ b, b ∈ all_blocks s → devices s' !! b = devices s !! b;
  gr_disks : disks s' = disks s;
  gr_roles : block_by_role s' = block_by_role s;
  gr_live : size live' = (size live + 2 * length ds)%nat;
  gr_ok : bdevs_ok s';
  gr_heap : heap_ok s' live';
}.

Lemma alloc_ok n l s live :
  heap_ok s live → gives (bheap s) (n :: l) → 0 ≤ n ≤ MALLOC_MAX →
  ∃ p h, alloc n s = Ok (p, set_bheap s h) ∧ live !! p = None ∧ heap_ok (set_bheap s h) (<[p := n]> live) ∧ gives h l.
Proof using HeapLaws0.
  intros [Hh Hb] Hg Hn. destruct (kmalloc_law n (bheap s) live Hh Hn) as (p & h & E & Hp). cbn [gives] in Hg. rewrite E in Hg. destruct Hg as [Hp0 Hg].
  rewrite (proj2 (Z.eqb_neq _ _)) in Hp by done. destruct Hp as (_ & Hlive & Hh'). exists p, h. unfold alloc. rewrite E. mstep. rewrite (proj2 (Z.eqb_neq _ _)) by done.
  split_and!; [done|done| |done]. split; [done|]. intros b Hin. simpl in Hin. apply lookup_insert_is_Some'. right. by apply Hb.
Qed.

Lemma print_ok format args s : typed (bytes format) args → ∃ l, print format args s = Ok (tt, set_bconsole s (bconsole s ++ l)).
Proof. intros Ht. destruct (printf_typed _ _ Ht) as (l & Hl & _). exists l. unfold print. by rewrite Hl. Qed.

(** Only messages. *)
Definition quiet s s' : Prop := ∃ l, s' = set_bconsole s (bconsole s ++ l).

Lemma messages_trans s1 s2 s3 : quiet s1 s2 → quiet s2 s3 → quiet s1 s3.
Proof. intros [l1 ->] [l2 ->]. exists (l1 ++ l2). simpl. by rewrite app_assoc. Qed.

Lemma print_quiet format args s : typed (bytes format) args → ∃ s', (print format args ;;; newline) s = Ok (tt, s') ∧ quiet s s'.
Proof.
  intros Ht. destruct (print_ok format args s Ht) as [l E]. rewrite (bindS_Ok _ _ _ _ _ E). eexists. split; [done|]. exists (l ++ [10]). simpl. by rewrite app_assoc.
Qed.

Lemma register_ok name type i size ops l s live :
  heap_ok s live → gives (bheap s) (56 :: l) →
  ∃ p s' h, block_register name type (Some i) size ops s = Ok (p, s') ∧ live !! p = None ∧
    quiet (set_bheap (set_blocks s (<[p := Device (take 15 name) type size ops 0 0]> (devices s)) (all_blocks s ++ [p])) h) s' ∧
    heap_holds h (<[p := 56]> live) ∧ gives h l.
Proof using HeapLaws0.
  intros Hh Hg. destruct (alloc_ok 56 l s live Hh Hg) as (p & h & E & Hlive & Hh' & Hg'); [done|]. unfold block_register. rewrite (bindS_Ok _ _ _ _ _ E).
  cbv zeta. rewrite (bindS_Ok _ _ _ _ _ (eq_refl (getS (set_bheap s h)))). rewrite (bindS_Ok _ _ _ tt _ (eq_refl _)).
  set (s1 := set_blocks _ _ _). destruct (print_ok "%s: %'u sectors (" [AStr (Some (take 15 name)); AInt size] s1) as [l1 E1]; [cbn [bytes]; typed_format|].
  rewrite (bindS_Ok _ _ _ _ _ E1). destruct (human_size_typed (u64 (size * 512))) as [l2 E2].
  erewrite bindS_Ok by (rewrite E2; mstep; reflexivity). edestruct (print_ok ")" []) as [l3 E3]; [cbn [bytes]; typed_format|]. rewrite (bindS_Ok _ _ _ _ _ E3).
  edestruct (print_ok ", %s" [AStr (Some i)]) as [l4 E4]; [cbn [bytes]; typed_format|]. rewrite (bindS_Ok _ _ _ _ _ E4). erewrite bindS_Ok by reflexivity.
  eexists p, _, h. split_and!; [done|done| |apply Hh'|done]. exists (l1 ++ l2 ++ l3 ++ l4 ++ [10]). simpl. unfold set_bconsole. simpl. by rewrite !app_assoc.
Qed.

Lemma cstring_take l rest : cstring (l ++ [0] ++ rest) = cstring l.
Proof. induction l as [|c l IH]; [done|]. simpl in *. destruct (c =? 0); [done|]. by rewrite IH. Qed.

Lemma cstring_length l : (length (cstring l) ≤ length l)%nat.
Proof. induction l as [|c l IH]; simpl; [done|]. destruct (c =? 0); simpl; lia. Qed.

Lemma format_ok size format args s :
  typed (bytes format) args → (0 < size)%nat → Z.of_nat size < 2147483648 → 4000 * Z.of_nat (length (bytes format)) + Z.of_nat (strings_length args) < 2147483648 →
  ∃ l, (∀ out, printf (bytes format) args out = Ok (out ++ l)) ∧ format_in size format args s = Ok (cstring (take (size - 1) l), s).
Proof.
  intros Ht Hpos Hs Hlen. destruct (printf_typed _ _ Ht) as (l & Hl & Hb). exists l. split; [done|]. unfold format_in, snprintf.
  assert (replicate size 0 ≠ []) as Hne by (destruct size; [lia|done]).
  pose proof (vsnprintf_text (replicate size 0) (bytes format) args l (Hl []) ltac:(lia) ltac:(rewrite length_replicate; lia) Hne) as E. cbv zeta in E. rewrite length_replicate in E.
  erewrite bindS_Ok by (unfold liftS; rewrite E; reflexivity). cbn iota. unfold retS. rewrite cstring_take. do 3 f_equal.
  destruct (decide (length l ≤ size - 1)%nat); [rewrite Nat.min_l by lia; by rewrite firstn_all, take_ge by lia|by rewrite Nat.min_r by lia].
Qed.

Lemma grown_quiet s live s' : bdevs_ok s → heap_ok s live → quiet s s' → grown s live s' live [].
Proof.
  intros Hok Hh [l ->]. split; try done.
  - exists []. split_and!; [by rewrite app_nil_r|constructor..].
  - by apply (bdevs_ok_frame s).
  - by destruct Hh.
Qed.

Lemma grown_trans s1 live1 s2 live2 s3 live3 ds1 ds2 :
  grown s1 live1 s2 live2 ds1 → grown s2 live2 s3 live3 ds2 → grown s1 live1 s3 live3 (ds1 ++ ds2).
Proof.
  intros [(ps1 & Hb1 & Hf1 & Hn1) Hs1 Ho1 Hd1 Hr1 Hl1 _ _] [(ps2 & Hb2 & Hf2 & Hn2) Hs2 Ho2 Hd2 Hr2 Hl2 Hok Hh]. split; try done; try congruence.
  - exists (ps1 ++ ps2). split_and!; [by rewrite Hb2, Hb1, app_assoc| |].
    2:{ apply Forall_app. split; [done|]. eapply Forall_impl; [exact Hn2|]. intros q Hq. exact (lookup_weaken_None _ _ _ Hq Hs1). }
    apply Forall2_app; [|done].
    assert (∀ p, p ∈ ps1 → devices s3 !! p = devices s2 !! p) as Hp by (intros p Hp; apply Ho2; rewrite Hb1; set_solver). clear -Hf1 Hp.
    induction Hf1 as [|p d ps ds Hd _ IH]; constructor; [rewrite Hp by set_solver; done|apply IH; set_solver].
  - by transitivity live2.
  - intros b Hb. rewrite Ho2; [by apply Ho1|]. rewrite Hb1. set_solver.
  - rewrite length_app. lia.
Qed.

(** The device for a partition in bounds. *)
Lemma new_device_ok s live p h d d' b ops :
  bdevs_ok s → heap_ok s live → devices s !! b = Some d → dtype d ≠ BLOCK_FOREIGN → 0 ≤ dsize d' < WORD →
  ddriver d' = Partition b ops → 0 ≤ ops → ops + dsize d' ≤ dsize d → (∀ x, x ∈ all_blocks s → x ≠ p) → 
  bdevs_ok (set_bheap (set_blocks s (<[p := d']> (devices s)) (all_blocks s ++ [p])) h).
Proof.
  intros [Hdom Hnd Hsz Hdrv] Hh Hd Hty Hd' Hops Ho Hle Hfresh. assert (p ∉ all_blocks s) as Hp by (intros Hin; by apply (Hfresh p Hin)).
  assert (∀ x, x ∈ all_blocks s → <[p := d']> (devices s) !! x = devices s !! x) as Hlk by (intros x Hx; apply lookup_insert_ne; by apply not_eq_sym, Hfresh).
  split; simpl.
  - intros x. rewrite elem_of_app, list_elem_of_singleton. destruct (decide (x = p)) as [->|]; [rewrite lookup_insert_eq; split; [by right|by eexists]|].
    rewrite lookup_insert_ne by done. rewrite Hdom. naive_solver.
  - apply NoDup_app. split_and!; [done| |apply NoDup_singleton]. intros x Hx ->%list_elem_of_singleton. done.
  - intros x dx. destruct (decide (x = p)) as [->|]; [rewrite lookup_insert_eq; by intros [= <-]|]. rewrite lookup_insert_ne by done. apply Hsz.
  - intros i x dx Hi Hx. apply lookup_app_Some in Hi as [Hi|[Hge Hi]].
    + assert (x ∈ all_blocks s) as Hin by by eapply list_elem_of_lookup_2. rewrite Hlk in Hx by done. specialize (Hdrv i x dx Hi Hx).
      destruct (ddriver dx) as [k|par st0]; simpl in *; [done|]. destruct Hdrv as (? & j & pd & Hj & Hjp & Hpd & ? & ?). split; [done|]. exists j, pd.
      split_and!; try done; [by apply lookup_app_l_Some|]. rewrite Hlk; [done|]. by eapply list_elem_of_lookup_2.
    + apply list_lookup_singleton_Some in Hi as [Hi0 <-]. rewrite lookup_insert_eq in Hx. injection Hx as <-. rewrite Hops. simpl. split; [done|].
      assert (b ∈ all_blocks s) as Hin by (apply Hdom; by eexists). pose proof Hin as [j Hj]%list_elem_of_lookup. exists j, d. pose proof (lookup_lt_Some _ _ _ Hj).
      split_and!; try done; [lia|by apply lookup_app_l_Some|by rewrite Hlk].
Qed.

Definition entry_ok (e : partition_table_entry) : Prop := is_u32 (eoffset e) ∧ is_u32 (esize e).

Definition new_device (b : Z) (d : device) (n : Z) (e : partition_table_entry) : device :=
  Device (part_name (dname d) n) (partition_block_type (etype e)) (esize e) (Partition b (eoffset e)) 0 0.

Lemma in_bounds_spec d e :
  entry_ok e → 0 ≤ dsize d < WORD →
  (dsize d <=? eoffset e) || (u32 (eoffset e + esize e) <? eoffset e) || (dsize d <? u32 (eoffset e + esize e)) = negb (in_bounds d e).
Proof.
  intros [[Ho1 Ho2] [Hs1 Hs2]] Hd. unfold in_bounds. destruct (Z.leb_spec (dsize d) (eoffset e)) as [H1|H1].
  { by rewrite (proj2 (Z.ltb_ge (eoffset e) (dsize d))) by lia. }
  rewrite (proj2 (Z.ltb_lt (eoffset e) _)) by lia. cbn [orb andb]. destruct (decide (eoffset e + esize e < WORD)) as [Hlt|Hge].
  - rewrite u32_small by (unfold is_u32; lia). rewrite (proj2 (Z.ltb_ge (eoffset e + esize e) (eoffset e))) by lia. cbn [orb]. destruct (Z.ltb_spec (dsize d) (eoffset e + esize e)), (Z.leb_spec (eoffset e + esize e) (dsize d)); done || lia.
  - rewrite (proj2 (Z.leb_gt _ _)) by lia. assert (u32 (eoffset e + esize e) = eoffset e + esize e - WORD) as ->.
    { unfold u32. rewrite <-(Z.mod_small (eoffset e + esize e - 4294967296) 4294967296) by lia. rewrite <-(Z_mod_plus_full (eoffset e + esize e - 4294967296) 1 4294967296). f_equal. lia. }
    by rewrite (proj2 (Z.ltb_lt (eoffset e + esize e - 4294967296) (eoffset e))) by lia.
Qed.

Lemma type_name_short type : Z.of_nat (length (partition_type_name type)) ≤ 1000.
Proof. unfold partition_type_name. repeat case_match; simpl; lia. Qed.

Lemma found_partition_ok b d e n l s live :
  bdevs_ok s → heap_ok s live → devices s !! b = Some d → dtype d ≠ BLOCK_FOREIGN → entry_ok e → Z.of_nat (length (dname d)) ≤ 1000 →
  gives (bheap s) ((if in_bounds d e then [8; 56] else []) ++ l) →
  ∃ s' live', found_partition b (etype e) (eoffset e) (esize e) n s = Ok (tt, s') ∧
    grown s live s' live' (if in_bounds d e then [new_device b d n e] else []) ∧ gives (bheap s') l.
Proof using HeapLaws0.
  intros Hok Hh Hd Hty He Hname Hg. pose proof (bd_size s Hok b d Hd) as Hsz. pose proof (in_bounds_spec d e He Hsz) as Hb.
  unfold found_partition, block_name, block_size. pose proof (get_block_ok s b d Hd) as Eg.
  rewrite (bindS_Ok _ _ s (dname d) s) by by rewrite (bindS_Ok _ _ _ _ _ Eg). rewrite (bindS_Ok _ _ s (dsize d) s) by by rewrite (bindS_Ok _ _ _ _ _ Eg).
  destruct (dsize d <=? eoffset e).
  { destruct (in_bounds d e); [done|]. edestruct (print_quiet "%s%d: Partition starts past end of device (sector %u)") as (s' & E & Hq); [|rewrite E]; [cbn [bytes]; typed_format|].
    exists s', live. split_and!; [done|by apply grown_quiet|]. by destruct Hq as [? ->]. }
  cbn [orb] in Hb. rewrite Hb. destruct (in_bounds d e) eqn:Ein; cbn [negb].
  2:{ edestruct (print_quiet "%s%d: Partition end (%u) past end of device (%u)") as (s' & E & Hq); [|rewrite E]; [cbn [bytes]; typed_format|].
      exists s', live. split_and!; [done|by apply grown_quiet|]. by destruct Hq as [? ->]. }
  destruct (alloc_ok 8 (56 :: l) s live Hh Hg) as (p & h & E & Hp & Hh1 & Hg1); [done|]. rewrite (bindS_Ok _ _ _ _ _ E).
  edestruct (format_ok 16 "%s%d" [AStr (Some (dname d)); AInt (u32 n)]) as (lname & Hl & Ef); [| | | |rewrite (bindS_Ok _ _ _ _ _ Ef)]; [cbn [bytes]; typed_format|lia|lia|cbn; lia|].
  pose proof (type_name_short (etype e)) as Htn.
  edestruct (format_ok 128 "%s (%02x)" [AStr (Some (partition_type_name (etype e))); AInt (etype e)]) as (linfo & _ & Ei); [| | | |rewrite (bindS_Ok _ _ _ _ _ Ei)];
    [cbn [bytes]; typed_format|lia|lia|cbn [bytes length strings_length sum_list_with]; lia|].
  destruct (register_ok (cstring (take (16 - 1) lname)) (partition_block_type (etype e)) (cstring (take (128 - 1) linfo)) (esize e) (Partition b (eoffset e)) l _ _ Hh1 Hg1)
    as (q & s' & h' & E' & Hq & Hquiet & Hh2 & Hg2). rewrite (bindS_Ok _ _ _ _ _ E'). exists s', (<[q := 56]> (<[p := 8]> live)).
  assert (take 15 (cstring (take (16 - 1) lname)) = part_name (dname d) n) as En.
  { unfold part_name. rewrite Hl. cbn [app]. apply take_ge. etransitivity; [apply cstring_length|]. rewrite length_take. lia. }
  rewrite En in Hquiet. destruct Hquiet as [txt ->]. fold (new_device b d n e). apply lookup_insert_None in Hq as [Hq Hpq]. split_and!; [done| |done].
  assert (∀ x, x ∈ all_blocks s → x ≠ q) as Hfresh by (intros x Hx ->; destruct (ho_blocks _ _ Hh q Hx); congruence).
  destruct He as [[? ?] ?]. apply andb_true_iff in Ein as [Hin1%Z.ltb_lt Hin2%Z.leb_le].
  split; simpl; try done.
  - exists [q]. split_and!; [done| |by constructor]. constructor; [apply lookup_insert_eq|constructor].
  - transitivity (<[p := 8]> live); apply insert_subseteq; [done|by rewrite lookup_insert_ne].
  - intros x Hx. apply lookup_insert_ne. by apply not_eq_sym, Hfresh.
  - rewrite !map_size_insert_None; [lia|done|]. by rewrite lookup_insert_ne.
  - eapply (bdevs_ok_frame (set_bheap (set_blocks s (<[q := new_device b d n e]> (devices s)) (all_blocks s ++ [q])) h')); [done..|].
    by apply (new_device_ok s live q h' d (new_device b d n e) b (eoffset e)).
  - split; [done|]. simpl. intros x [Hx| ->%list_elem_of_singleton]%elem_of_app; [|apply lookup_insert_is_Some'; by left].
    apply lookup_insert_is_Some'. right. apply lookup_insert_is_Some'. right. by apply (ho_blocks _ _ Hh).
Qed.

(** ** The loop over the entries *)

Definition sizes (ds : list device) : list Z := ds ≫= λ _, [8; 56].

Definition primary_entry (e : partition_table_entry) : Prop := entry_ok e ∧ (empty_entry e = true ∨ extended_entry e = false).

Lemma entries_ok es rec b d n l s live primary name :
  bdevs_ok s → heap_ok s live → devices s !! b = Some d → dtype d ≠ BLOCK_FOREIGN → Z.of_nat (length (dname d)) ≤ 1000 →
  Forall primary_entry es → 0 ≤ n → n + Z.of_nat (length es) ≤ 1000 → gives (bheap s) (sizes (found b d n es) ++ l) →
  ∃ m s' live', foldS (read_entry rec b 0 primary name) n es s = Ok (m, s') ∧ grown s live s' live' (found b d n es) ∧ gives (bheap s') l.
Proof using HeapLaws0.
  revert n s live. induction es as [|e es IH]; intros n s live Hok Hh Hd Hty Hname Hes Hn Hlen Hg.
  { exists n, s, live. split_and!; [done|apply grown_quiet; try done; exists []|done]. rewrite app_nil_r. by destruct s. }
  apply Forall_cons in Hes as [[He Hext] Hes]. cbn [foldS length found] in *. unfold read_entry at 1. destruct (empty_entry e).
  { rewrite (bindS_Ok _ _ s n s) by done. apply IH; try done. lia. }
  destruct Hext as [?| ->]; [done|]. rewrite s32_small by (unfold is_s32; lia). rewrite Z.add_0_r, (u32_small (eoffset e)) by apply He. cbv zeta.
  destruct (found_partition_ok b d e (n + 1) (sizes (found b d (n + 1) es) ++ l) s live Hok Hh Hd Hty He Hname) as (s1 & live1 & E1 & Hg1 & Hgv1).
  { destruct (in_bounds d e); done. }
  erewrite bindS_Ok by (rewrite (bindS_Ok _ _ _ _ _ E1); reflexivity).
  assert (devices s1 !! b = Some d) as Hd1 by (rewrite (gr_old _ _ _ _ _ Hg1); [done|apply (bd_dom s Hok); by eexists]).
  destruct (IH (n + 1) s1 live1 (gr_ok _ _ _ _ _ Hg1) (gr_heap _ _ _ _ _ Hg1) Hd1 Hty Hname Hes ltac:(lia) ltac:(lia) Hgv1) as (m & s2 & live2 & E2 & Hg2 & Hgv2).
  exists m, s2, live2. split_and!; [done| |done]. pose proof (grown_trans _ _ _ _ _ _ _ _ Hg1 Hg2) as Hg12. by destruct (in_bounds d e).
Qed.

Lemma found_same b d d' n es : same_device d d' → found b d' n es = found b d n es.
Proof.
  intros (En & _ & Es & _). revert n. induction es as [|e es IH]; intros n; [done|]. cbn [found]. unfold in_bounds. rewrite En, Es, !IH. done.
Qed.

(** The first sector of a device. *)
Definition table_of s b (pt : list Z) : Prop := ∃ k off l, located s b k off ∧ disks s !! k = Some l ∧ l !! Z.to_nat off = Some pt.

Lemma read_table_ok s b d pt :
  bdevs_ok s → devices s !! b = Some d → 0 < dsize d → table_of s b pt →
  ∃ s', read_block b 0 s = Ok (pt, s') ∧ bdevs_ok s' ∧ same_devices s s' ∧ disks s' = disks s.
Proof.
  intros Hok Hd Hsz (k & off & l & Hloc & Hl & Hpt). assert (b ∈ all_blocks s) as [i Hi]%list_elem_of_lookup by (apply (bd_dom s Hok); by eexists).
  assert (i < depth s)%nat as Hdepth by by eapply lookup_lt_Some.
  destruct (device_read_ok (depth s) s i b d 0 k off l Hok Hi Hd Hdepth Hloc Hl ltac:(lia)) as (data & s' & E & Hdata & Hs & Hdisks).
  rewrite Z.add_0_r, Hpt in Hdata. injection Hdata as <-. exists s'. split_and!; [done| |done|done].
  apply (same_devices_ok s); [done|done|]. rewrite Hdisks. intros k' l' Hl' Hall'. by exists l'.
Qed.

Lemma release_block_ok p n s live : heap_ok s (<[p := n]> live) → live !! p = None → p ∉ all_blocks s → ∃ h, release p s = Ok (tt, set_bheap s h) ∧ heap_ok (set_bheap s h) live.
Proof using HeapLaws0.
  intros [Hh Hb] Hp Hin. destruct (kfree_law p n (bheap s) _ Hh (lookup_insert_eq _ _ _)) as (h & E & Hh'). rewrite delete_insert_id in Hh' by done.
  exists h. unfold release. rewrite E. split; [done|]. split; [done|]. intros b Hx. simpl in Hx. destruct (Hb b Hx) as [v Hv].
  rewrite lookup_insert_ne in Hv by (intros ->; done). by eexists.
Qed.

(** What a scan has done. *)
Record scanned s live s' live' (ds : list device) : Prop := {
  sc_new : ∃ ps, all_blocks s' = all_blocks s ++ ps ∧ Forall2 (λ p d, devices s' !! p = Some d) ps ds;
  sc_old : ∀ b, b ∈ all_blocks s → option_Forall2 same_device (devices s !! b) (devices s' !! b);
  sc_disks : disks s' = disks s;
  sc_roles : block_by_role s' = block_by_role s;
  sc_live : size live' = (size live + 2 * length ds)%nat;
  sc_ok : bdevs_ok s';
  sc_heap : heap_ok s' live';
}.

Definition partitions (b : Z) (d : device) (pt : list Z) : list device :=
  if signature pt =? 43605 then found b d 0 (entries pt) else [].

Lemma entries_length pt : length (entries pt) = 4%nat.
Proof. done. Qed.

(** The table in the first sector. *)
Lemma read_table_scans s live b d pt fuel :
  bdevs_ok s → heap_ok s live → devices s !! b = Some d → dtype d ≠ BLOCK_FOREIGN → Z.of_nat (length (dname d)) ≤ 1000 → 0 < dsize d →
  table_of s b pt → Forall primary_entry (entries pt) → gives (bheap s) (512 :: sizes (partitions b d pt)) →
  ∃ m s' live', read_partition_table (S fuel) b 0 0 0 s = Ok (m, s') ∧ scanned s live s' live' (partitions b d pt).
Proof using HeapLaws0.
  intros Hok Hh Hd Hty Hname Hsz Hpt Hes Hg. cbn [read_partition_table]. unfold block_size, block_name. pose proof (get_block_ok s b d Hd) as Eg.
  rewrite (bindS_Ok _ _ s (dsize d) s) by by rewrite (bindS_Ok _ _ _ _ _ Eg). rewrite (bindS_Ok _ _ s (dname d) s) by by rewrite (bindS_Ok _ _ _ _ _ Eg).
  rewrite (proj2 (Z.leb_gt _ _)) by lia. destruct (alloc_ok 512 _ s live Hh Hg) as (p & h & E & Hp & Hh1 & Hg1); [done|]. rewrite (bindS_Ok _ _ _ _ _ E).
  assert (bdevs_ok (set_bheap s h)) as Hok1 by by apply (bdevs_ok_frame s). assert (table_of (set_bheap s h) b pt) as Hpt1.
  { destruct Hpt as (k & off & l & Hloc & ? & ?). exists k, off, l. split_and!; try done. by apply (located_frame s). }
  destruct (read_table_ok (set_bheap s h) b d pt Hok1 Hd Hsz Hpt1) as (s2 & E2 & Hok2 & Hsd & Hdisks). rewrite (bindS_Ok _ _ _ _ _ E2).
  assert (heap_ok s2 (<[p := 512]> live)) as Hh2 by (destruct Hh1; split; [by rewrite (sd_heap _ _ Hsd)|by rewrite (sd_blocks _ _ Hsd)]).
  assert (p ∉ all_blocks s) as Hfresh by (intros Hin; destruct (ho_blocks _ _ Hh p Hin); congruence).
  destruct (same_devices_some (set_bheap s h) s2 b d Hsd Hd) as (d2 & Hd2 & Hsame). unfold partitions in *. destruct (signature pt =? 43605); cbn [negb].
  - assert (gives (bheap s2) (sizes (found b d2 0 (entries pt)) ++ [])) as Hg2 by (rewrite app_nil_r, (sd_heap _ _ Hsd), (found_same b d d2) by done; done).
    pose proof Hsame as (En & Et & _ & _).
    destruct (entries_ok (entries pt) (read_partition_table fuel b) b d2 0 [] s2 (<[p := 512]> live) 0 (dname d) Hok2 Hh2 Hd2) as (m & s3 & live3 & E3 & Hgr & _);
      [by rewrite Et|by rewrite En|done|done|rewrite entries_length; lia|done|]. rewrite (bindS_Ok _ _ _ _ _ E3). rewrite (found_same b d d2) in Hgr by done.
    set (ds := found b d 0 (entries pt)) in *. clearbody ds. destruct Hgr as [(ps & Hps & Hfor & Hnew) Hsub Hold Hdk Hrl Hlv Hok3 Hh3].
    assert (live3 !! p = Some 512) as Hp3 by (eapply lookup_weaken; [apply lookup_insert_eq|done]).
    assert (p ∉ ps) as Hpps. { intros Hin. rewrite Forall_forall in Hnew. specialize (Hnew p Hin). by rewrite lookup_insert_eq in Hnew. }
    destruct (release_block_ok p 512 s3 (delete p live3)) as (h4 & E4 & Hh4); [by rewrite insert_delete_id|apply lookup_delete_eq|rewrite Hps, (sd_blocks _ _ Hsd); intros [Hx|Hx]%elem_of_app; [exact (Hfresh Hx)|exact (Hpps Hx)]|].
    rewrite (bindS_Ok _ _ _ _ _ E4). eexists m, _, (delete p live3). split; [done|]. split; simpl.
    + exists ps. split; [by rewrite Hps, (sd_blocks _ _ Hsd)|done].
    + intros x Hx. rewrite Hold by by rewrite (sd_blocks _ _ Hsd). apply (sd_devices _ _ Hsd x).
    + by rewrite Hdk, Hdisks.
    + by rewrite Hrl, (sd_roles _ _ Hsd).
    + rewrite map_size_delete, Hp3. rewrite map_size_insert_None in Hlv by done. cbn. lia.
    + by apply (bdevs_ok_frame s3).
    + done.
  - edestruct (print_ok "%s: Invalid partition table signature" [AStr (Some (dname d))] s2) as [l E3]; [cbn [bytes]; typed_format|].
    set (s3 := set_bconsole s2 ((bconsole s2 ++ l) ++ [10])).
    destruct (release_block_ok p 512 s3 live) as (h4 & E4 & Hh4); [by destruct Hh2|done|change (p ∉ all_blocks s2); by rewrite (sd_blocks _ _ Hsd)|].
    change (0 =? 0) with true. cbn iota. rewrite (bindS_Ok _ _ _ _ _ E3). rewrite (bindS_Ok newline _ _ tt s3) by done. rewrite (bindS_Ok _ _ _ _ _ E4).
    eexists 0, _, live. split; [done|].
    split; simpl; try done.
    + exists []. split; [by rewrite app_nil_r, (sd_blocks _ _ Hsd)|constructor].
    + intros x Hx. apply (sd_devices _ _ Hsd x).
    + by rewrite (sd_roles _ _ Hsd).
    + by apply (bdevs_ok_frame s2).
Qed.

(** ** A table that refers to itself *)

(** The sector that is read is always the first one of the device, so that an extended
    partition is found again in what should be its own table. *)
Definition loops (d : device) (pt : list Z) (sector primary : Z) : Prop :=
  ∃ e es, entries pt = e :: es ∧ empty_entry e = false ∧ extended_entry e = true ∧ signature pt = 43605 ∧
    0 < eoffset e ∧ 2 * eoffset e < dsize d ∧ (sector = 0 ∨ (primary = eoffset e ∧ 0 < sector < dsize d)).

Lemma alloc_inv n s p s1 : alloc n s = Ok (p, s1) → ∃ h, s1 = set_bheap s h.
Proof. unfold alloc. intros ([p' h] & _ & E)%res_bind_Ok. destruct (p' =? 0); [done|]. injection E as _ <-. by exists h. Qed.

Lemma message_inv format args s u s1 v s2 : print format args s = Ok (u, s1) → newline s1 = Ok (v, s2) → ∃ c, s2 = set_bconsole s c.
Proof. unfold print. intros (o & _ & [= _ <-])%res_bind_Ok [= _ <-]. by eexists. Qed.

Lemma extended_loops fuel s b d pt sector primary n r :
  bdevs_ok s → devices s !! b = Some d → 0 < dsize d → table_of s b pt → loops d pt sector primary → read_partition_table fuel b sector primary n s ≠ Ok r.
Proof.
  revert s d sector primary n r. induction fuel as [|fuel IH]; intros s d sector primary n [m0 s0] Hok Hd Hsz Hpt Hl; [done|].
  cbn [read_partition_table]. unfold block_size, block_name. pose proof (get_block_ok s b d Hd) as Eg. pose proof (bd_size s Hok b d Hd) as Hw.
  rewrite (bindS_Ok _ _ s (dsize d) s) by by rewrite (bindS_Ok _ _ _ _ _ Eg). rewrite (bindS_Ok _ _ s (dname d) s) by by rewrite (bindS_Ok _ _ _ _ _ Eg).
  pose proof Hl as (e & es & Ees & Hne & Hext & Hsig & Ho & Ho2 & Hsec). rewrite (proj2 (Z.leb_gt _ _)) by lia.
  intros Hr. apply bindS_inv in Hr as (p & s1 & E1 & Hr). apply bindS_inv in Hr as (pt' & s2 & E2 & Hr).
  assert (∃ h, s1 = set_bheap s h) as [h ->].
  { by eapply alloc_inv. }
  assert (bdevs_ok (set_bheap s h)) as Hok1 by by apply (bdevs_ok_frame s). assert (table_of (set_bheap s h) b pt) as Hpt1.
  { destruct Hpt as (k & off & l & Hloc & ? & ?). exists k, off, l. split_and!; try done. by apply (located_frame s). }
  destruct (read_table_ok (set_bheap s h) b d pt Hok1 Hd Hsz Hpt1) as (s2' & E2' & Hok2 & Hsd & Hdisks). rewrite E2' in E2. injection E2 as <- <-.
  rewrite (proj2 (Z.eqb_eq _ _) Hsig) in Hr. cbn [negb] in Hr. apply bindS_inv in Hr as (m & s3 & E3 & _). rewrite Ees in E3. cbn [foldS] in E3. apply bindS_inv in E3 as (m1 & s4 & E4 & _).
  unfold read_entry in E4. rewrite Hne, Hext in E4. apply bindS_inv in E4 as (? & s5 & E5 & E4). apply bindS_inv in E4 as (? & s6 & E6 & E4).
  assert (∃ c, s6 = set_bconsole s2' c) as [c ->].
  { by eapply message_inv. }
  destruct (same_devices_some _ _ b d Hsd Hd) as (d2 & Hd2 & _ & _ & Es & _).
  assert (bdevs_ok (set_bconsole s2' c)) as Hok3 by by apply (bdevs_ok_frame s2'). assert (table_of (set_bconsole s2' c) b pt) as Hpt3.
  { destruct Hpt1 as (k & off & l & Hloc & ? & ?). exists k, off, l. split_and!; [|change (disks s2' !! k = Some l); by rewrite Hdisks|done]. apply (located_frame s2'); [done|]. by eapply same_devices_located. }
  assert (∀ sec, 0 < sec < dsize d → loops d2 pt sec (eoffset e)) as Hnext by (intros sec Hs; exists e, es; rewrite Es; split_and!; try done; by right).
  destruct (Z.eqb_spec sector 0) as [->|Hs0].
  - revert E4. eapply (IH _ d2); try done; [by rewrite Es|]. apply Hnext. lia.
  - destruct Hsec as [?|[-> _]]; [done|]. revert E4. eapply (IH _ d2); try done; [by rewrite Es|]. rewrite u32_small by (unfold is_u32; lia). apply Hnext. lia.
Qed.

(** C13. A scan of a disk returns, whatever its first sector holds, if it names no extended
    partition and the heap has room: it registers exactly the entries of the table that are
    not empty and lie on the disk, in their order, with their type, size, start and number,
    and nothing without the signature; disks, roles and the older devices stay as they were,
    the kernel keeps two blocks for each new device, and the invariant of the devices holds. *)
Theorem partition_scan_finds s live b d pt fuel :
  bdevs_ok s → heap_ok s live → devices s !! b = Some d → dtype d ≠ BLOCK_FOREIGN → Z.of_nat (length (dname d)) ≤ 1000 → 0 < dsize d →
  table_of s b pt → Forall primary_entry (entries pt) → gives (bheap s) (512 :: sizes (partitions b d pt)) →
  ∃ s' live', partition_scan (S fuel) b s = Ok (tt, s') ∧ scanned s live s' live' (partitions b d pt).
Proof using HeapLaws0.
  intros Hok Hh Hd Hty Hname Hsz Hpt Hes Hg. destruct (read_table_scans s live b d pt fuel Hok Hh Hd Hty Hname Hsz Hpt Hes Hg) as (m & s1 & live1 & E & Hs).
  unfold partition_scan. rewrite (bindS_Ok _ _ _ _ _ E). destruct (m =? 0); [|by exists s1, live1].
  destruct Hs as [Hnew Hold Hdk Hrl Hlv Hok1 Hh1]. assert (b ∈ all_blocks s) as Hin by (apply (bd_dom s Hok); by eexists). specialize (Hold b Hin) as Hb. rewrite Hd in Hb.
  inversion Hb as [? d1 Hsame Ea Eb|]; subst. symmetry in Eb. unfold block_name. rewrite (bindS_Ok _ _ s1 (dname d1) s1) by by rewrite (bindS_Ok _ _ _ _ _ (get_block_ok s1 b d1 Eb)).
  edestruct (print_quiet "%s: Device contains no partitions" [AStr (Some (dname d1))] s1) as (s2 & E2 & l & ->); [cbn [bytes]; typed_format|].
  eexists _, live1. split; [exact E2|]. split; try done; [by apply (bdevs_ok_frame s1)|by destruct Hh1].
Qed.

End proof.

(** ** A disk with a file system *)

Definition demo_table : list Z :=
  replicate 446 0 ++ [0; 0; 0; 0; 33; 0; 0; 0] ++ le32 2 ++ le32 4 ++ [0; 0; 0; 0; 35; 0; 0; 0] ++ le32 6 ++ le32 9 ++ replicate 32 0 ++ [85; 170].

(** The descriptor of the disk is a block of the heap. *)
Definition demo_hda : Z := 3222274060.
Definition demo_dev : device := Device (bytes "hda") BLOCK_RAW 8 (Ide 0) 0 0.

Definition demo_boot : bdevs (heap palloc_state) := BDevs {[0 := demo_disk demo_table]} {[demo_hda := demo_dev]} [demo_hda] ∅ [] demo_heap1.

Lemma demo_boot_ok : bdevs_ok demo_boot.
Proof.
  split; cbn [demo_boot devices all_blocks].
  - intros b. rewrite list_elem_of_singleton, lookup_singleton_is_Some. done.
  - apply NoDup_singleton.
  - intros b d [<- <-]%lookup_singleton_Some. done.
  - intros i b d Hi [<- <-]%lookup_singleton_Some. cbn [driver_ok ddriver demo_dev]. exists (demo_disk demo_table). split_and!; [done|done|].
    constructor; [done|]. apply Forall_replicate. by rewrite length_replicate.
Qed.

Lemma demo_boot_heap : heap_ok demo_boot {[demo_hda := 20]}.
Proof.
  split.
  - assert (rtc malloc_step (demo_heap0, ∅) (demo_heap1, {[demo_hda := 20]})) as Hstep.
    { apply rtc_once, (step_malloc 20 demo_heap0 ∅ demo_hda demo_heap1); [by vm_compute|vm_compute; reflexivity]. }
    exact (malloc_history small_state demo_heap0 demo_heap1 {[demo_hda := 20]} small_state_wf (proj1 demo_history) Hstep).
  - intros b ->%list_elem_of_singleton. by eexists.
Qed.

Lemma demo_boot_table : table_of demo_boot demo_hda demo_table.
Proof. exists 0, 0, (demo_disk demo_table). split_and!; [by eapply located_disk|done|done]. Qed.

Lemma demo_boot_entries : Forall primary_entry (entries demo_table).
Proof. repeat constructor; by vm_compute || (left; by vm_compute) || (right; by vm_compute). Qed.

Lemma demo_boot_room : gives (bheap demo_boot) (512 :: sizes (partitions demo_hda demo_dev demo_table)).
Proof. vm_compute. repeat split; discriminate. Qed.

Lemma demo_partitions : partitions demo_hda demo_dev demo_table = [Device (bytes "hda1") BLOCK_FILESYS 4 (Partition demo_hda 2) 0 0].
Proof. by vm_compute. Qed.

Lemma partition_scan_finds_witness :
  ∃ s' live', partition_scan 1 demo_hda demo_boot = Ok (tt, s') ∧ scanned demo_boot {[demo_hda := 20]} s' live' [Device (bytes "hda1") BLOCK_FILESYS 4 (Partition demo_hda 2) 0 0].
Proof.
  rewrite <-demo_partitions.
  exact (partition_scan_finds demo_boot {[demo_hda := 20]} demo_hda demo_dev demo_table 0 demo_boot_ok demo_boot_heap eq_refl ltac:(discriminate) ltac:(vm_compute; discriminate)
    ltac:(reflexivity) demo_boot_table demo_boot_entries demo_boot_room).
Defined.
