(* ===== verification/Interrupt.v ===== *)
(** Interrupts (src/threads/interrupt.c): the interrupt descriptor table, the registration of
    handlers, the controller, and the dispatch of an interrupt to its handler.

    The machine is the state of the scheduler, whose interrupt flag is that of the processor,
    the static variables of interrupt.c, the bytes written to ports, the console, and the state
    [D] of the drivers. A handler is known by its name in [H]; [code] is what the names stand
    for. *)

From Stdlib Require Import Ascii String.
From S2P Require Import Prelude Vaddr Thread SynchSafe Stdio Format Bits.

(** The registers of the interrupted code, as the stubs push them. *)
Record intr_frame := Frame {
  edi : Z; esi : Z; ebp : Z; esp_dummy : Z; ebx : Z; edx : Z; ecx : Z; eax : Z;
  gs : Z; fs : Z; es : Z; ds : Z;
  vec_no : Z; error_code : Z; frame_pointer : Z;
  eip : Z; cs : Z; eflags : Z; esp : Z; ss : Z;
}.

Definition FLAG_MBS : Z := 2.
Definition FLAG_IF : Z := 512.

Definition SEL_NULL : Z := 0.
Definition SEL_KCSEG : Z := 8.
Definition SEL_KDSEG : Z := 16.

(** The selectors of user programs (src/userprog/gdt.h). *)
Definition SEL_UCSEG : Z := 27.
Definition SEL_UDSEG : Z := 35.

Definition PIC0_CTRL : Z := 32.
Definition PIC0_DATA : Z := 33.
Definition PIC1_CTRL : Z := 160.
Definition PIC1_DATA : Z := 161.

Definition INTR_CNT : nat := 256.

Record machine (H D : Type) := Machine {
  ks : kstate;
  idt : list Z;
  idtr : Z;
  intr_handlers : list (option H);
  intr_names : list (list Z);
  unexpected_cnt : list Z;
  in_external_intr : bool;
  yield_on_return : bool;
  ports : list (Z * Z);
  mconsole : list Z;
  dev : D;
}.
Arguments Machine {H D}.
Arguments ks {H D}. Arguments idt {H D}. Arguments idtr {H D}. Arguments intr_handlers {H D}. Arguments intr_names {H D}.
Arguments unexpected_cnt {H D}. Arguments in_external_intr {H D}. Arguments yield_on_return {H D}. Arguments ports {H D}.
Arguments mconsole {H D}. Arguments dev {H D}.

(** ** Gates *)

Definition make_gate (function dpl type : Z) : res Z :=
  ASSERT negb (function =? NULL) ;;
  ASSERT (0 <=? dpl) && (dpl <=? 3) ;;
  ASSERT (0 <=? type) && (type <=? 15) ;;
  let e0 := Z.lor (Z.land function 0xffff) (Z.shiftl SEL_KCSEG 16) in
  let e1 := Z.lor (Z.lor (Z.lor (Z.lor (Z.land function 0xffff0000) (Z.shiftl 1 15)) (Z.shiftl dpl 13)) (Z.shiftl 0 12)) (Z.shiftl type 8) in
  Ok (Z.lor e0 (Z.shiftl e1 32)).

Definition make_intr_gate (function dpl : Z) : res Z := make_gate function dpl 14.
Definition make_trap_gate (function dpl : Z) : res Z := make_gate function dpl 15.

Definition make_idtr_operand (limit base : Z) : Z := Z.lor limit (Z.shiftl base 16).

(** How the processor reads a gate. *)
Definition gate_offset (g : Z) : Z := field g 0 16 + 65536 * field g 48 16.
Definition gate_segment (g : Z) : Z := field g 16 16.
Definition gate_type (g : Z) : Z := field g 40 5.
Definition gate_dpl (g : Z) : Z := field g 45 2.
Definition gate_present (g : Z) : bool := field g 47 1 =? 1.

(** The names the processor's manual has. *)
Definition exception_names : list string := [
  "#DE Divide Error"; "#DB Debug Exception"; "NMI Interrupt"; "#BP Breakpoint Exception"; "#OF Overflow Exception";
  "#BR BOUND Range Exceeded Exception"; "#UD Invalid Opcode Exception"; "#NM Device Not Available Exception"; "#DF Double Fault Exception";
  "Coprocessor Segment Overrun"; "#TS Invalid TSS Exception"; "#NP Segment Not Present"; "#SS Stack Fault Exception";
  "#GP General Protection Exception"; "#PF Page-Fault Exception"; "unknown"; "#MF x87 FPU Floating-Point Error";
  "#AC Alignment Check Exception"; "#MC Machine-Check Exception"; "#XF SIMD Floating-Point Exception"]%string.

Section code.
Context {H D : Type} (intr_stubs : Z → Z) (idt_address : Z).
Local Abbreviation st := (machine H D).
Implicit Types m : st.

Definition set_ks m x : st := Machine x (idt m) (idtr m) (intr_handlers m) (intr_names m) (unexpected_cnt m) (in_external_intr m) (yield_on_return m) (ports m) (mconsole m) (dev m).
Definition set_idt m x : st := Machine (ks m) x (idtr m) (intr_handlers m) (intr_names m) (unexpected_cnt m) (in_external_intr m) (yield_on_return m) (ports m) (mconsole m) (dev m).
Definition set_idtr m x : st := Machine (ks m) (idt m) x (intr_handlers m) (intr_names m) (unexpected_cnt m) (in_external_intr m) (yield_on_return m) (ports m) (mconsole m) (dev m).
Definition set_handlers m x y : st := Machine (ks m) (idt m) (idtr m) x y (unexpected_cnt m) (in_external_intr m) (yield_on_return m) (ports m) (mconsole m) (dev m).
Definition set_unexpected m x : st := Machine (ks m) (idt m) (idtr m) (intr_handlers m) (intr_names m) x (in_external_intr m) (yield_on_return m) (ports m) (mconsole m) (dev m).
Definition set_context m x y : st := Machine (ks m) (idt m) (idtr m) (intr_handlers m) (intr_names m) (unexpected_cnt m) x y (ports m) (mconsole m) (dev m).
Definition set_ports m x : st := Machine (ks m) (idt m) (idtr m) (intr_handlers m) (intr_names m) (unexpected_cnt m) (in_external_intr m) (yield_on_return m) x (mconsole m) (dev m).
Definition set_mconsole m x : st := Machine (ks m) (idt m) (idtr m) (intr_handlers m) (intr_names m) (unexpected_cnt m) (in_external_intr m) (yield_on_return m) (ports m) x (dev m).
Definition set_dev m x : st := Machine (ks m) (idt m) (idtr m) (intr_handlers m) (intr_names m) (unexpected_cnt m) (in_external_intr m) (yield_on_return m) (ports m) (mconsole m) x.

Definition outb (port data : Z) : ST st unit := λ m, Ok (tt, set_ports m (ports m ++ [(port, data)])).

Definition print (format : string) (args : list arg) : ST st unit := λ m,
  out ← printf (bytes format) args (mconsole m); Ok (tt, set_mconsole m out).

Definition newline : ST st unit := λ m, Ok (tt, set_mconsole m (mconsole m ++ [10])).

(** ** The interrupt flag *)

Definition intr_get_level : ST st bool := λ m, Ok (intr (ks m), m).

Definition intr_context : ST st bool := λ m, Ok (in_external_intr m, m).

Definition intr_enable : ST st bool :=
  old_level <-- intr_get_level ;;
  c <-- intr_context ;;
  assertS (negb c) ;;;
  m <-- getS ;;
  putS (set_ks m (set_intr (ks m) true)) ;;;
  retS old_level.

Definition intr_disable : ST st bool :=
  old_level <-- intr_get_level ;;
  m <-- getS ;;
  putS (set_ks m (set_intr (ks m) false)) ;;;
  retS old_level.

Definition intr_set_level (level : bool) : ST st bool := if level then intr_enable else intr_disable.

Definition intr_yield_on_return : ST st unit :=
  c <-- intr_context ;;
  assertS c ;;;
  m <-- getS ;;
  putS (set_context m (in_external_intr m) true).

(** ** The controller *)

Definition pic_init : ST st unit :=
  outb PIC0_DATA 0xff ;;;
  outb PIC1_DATA 0xff ;;;
  outb PIC0_CTRL 0x11 ;;;
  outb PIC0_DATA 0x20 ;;;
  outb PIC0_DATA 0x04 ;;;
  outb PIC0_DATA 0x01 ;;;
  outb PIC1_CTRL 0x11 ;;;
  outb PIC1_DATA 0x28 ;;;
  outb PIC1_DATA 0x02 ;;;
  outb PIC1_DATA 0x01 ;;;
  outb PIC0_DATA 0x00 ;;;
  outb PIC1_DATA 0x00.

Definition pic_end_of_interrupt (irq : Z) : ST st unit :=
  assertS ((0x20 <=? irq) && (irq <? 0x30)) ;;;
  outb 0x20 0x20 ;;;
  if 0x28 <=? irq then outb 0xa0 0x20 else retS tt.

(** ** Registration *)

Fixpoint gates (n : nat) (i : Z) : res (list Z) :=
  match n with
  | O => Ok []
  | S n => g ← make_intr_gate (intr_stubs i) 0; l ← gates n (i + 1); Ok (g :: l)
  end.

Definition intr_init : ST st unit :=
  pic_init ;;;
  l <-- liftS (gates INTR_CNT 0) ;;
  m <-- getS ;;
  putS (set_idt m l) ;;;
  m <-- getS ;;
  putS (set_idtr m (make_idtr_operand (8 * Z.of_nat INTR_CNT - 1) idt_address)) ;;;
  m <-- getS ;;
  putS (set_handlers m (intr_handlers m) ((bytes <$> exception_names) ++ replicate (INTR_CNT - 20) (bytes "unknown"))).

Definition register_handler (vec_no dpl : Z) (level : bool) (handler : H) (name : list Z) : ST st unit :=
  m <-- getS ;;
  h <-- liftS (deref (intr_handlers m !! Z.to_nat vec_no)) ;;
  assertS (if h is None then true else false) ;;;
  g <-- liftS (if level then make_trap_gate (intr_stubs vec_no) dpl else make_intr_gate (intr_stubs vec_no) dpl) ;;
  putS (set_idt m (<[Z.to_nat vec_no := g]> (idt m))) ;;;
  m <-- getS ;;
  putS (set_handlers m (<[Z.to_nat vec_no := Some handler]> (intr_handlers m)) (<[Z.to_nat vec_no := name]> (intr_names m))).

Definition intr_register_ext (vec_no : Z) (handler : H) (name : list Z) : ST st unit :=
  assertS ((0x20 <=? vec_no) && (vec_no <=? 0x2f)) ;;;
  register_handler vec_no 0 false handler name.

Definition intr_register_int (vec_no dpl : Z) (level : bool) (handler : H) (name : list Z) : ST st unit :=
  assertS ((vec_no <? 0x20) || (0x2f <? vec_no)) ;;;
  register_handler vec_no dpl level handler name.

Definition intr_name (vec : Z) : ST st (list Z) := λ m, liftS (deref (intr_names m !! Z.to_nat vec)) m.

(** ** Dispatch *)

Definition unexpected_interrupt (f : intr_frame) : ST st unit :=
  m <-- getS ;;
  n <-- liftS (deref (unexpected_cnt m !! Z.to_nat (vec_no f))) ;;
  let n := u32 (n + 1) in
  putS (set_unexpected m (<[Z.to_nat (vec_no f) := n]> (unexpected_cnt m))) ;;;
  if Z.land n (u32 (n - 1)) =? 0 then
    name <-- intr_name (vec_no f) ;;
    print "Unexpected interrupt %#04x (%s)" [AInt (vec_no f); AStr (Some name)] ;;;
    newline
  else retS tt.

(** [cr2] is what the register holds. *)
Definition intr_dump_frame (cr2 : Z) (f : intr_frame) : ST st unit :=
  name <-- intr_name (vec_no f) ;;
  print "Interrupt %#04x (%s) at eip=%p" [AInt (vec_no f); AStr (Some name); AInt (eip f)] ;;; newline ;;;
  print " cr2=%08x error=%08x" [AInt cr2; AInt (error_code f)] ;;; newline ;;;
  print " eax=%08x ebx=%08x ecx=%08x edx=%08x" [AInt (eax f); AInt (ebx f); AInt (ecx f); AInt (edx f)] ;;; newline ;;;
  print " esi=%08x edi=%08x esp=%08x ebp=%08x" [AInt (esi f); AInt (edi f); AInt (esp f); AInt (ebp f)] ;;; newline ;;;
  print " cs=%04hx ds=%04hx es=%04hx ss=%04hx" [AInt (cs f); AInt (ds f); AInt (es f); AInt (ss f)] ;;; newline.

(** How a call of [intr_handler] goes on: the interrupt returns to the frame; another thread
    runs, and the interrupt returns when this one runs again; or the thread has exited. *)
Inductive resumption := Resume (f : intr_frame) | ResumeLater (f : intr_frame) | Exited.

Definition yield : ST st unit :=
  c <-- intr_context ;;
  assertS (negb c) ;;;
  m <-- getS ;;
  s <-- liftS (thread_yield (ks m)) ;;
  putS (set_ks m s).

(** A handler gives the frame back, or its thread exits. *)
Context (code : H → intr_frame → ST st (option intr_frame)).

Definition is_external (vec : Z) : bool := (0x20 <=? vec) && (vec <? 0x30).

Definition begin_external : ST st unit :=
  level <-- intr_get_level ;;
  assertS (negb level) ;;;
  c <-- intr_context ;;
  assertS (negb c) ;;;
  m <-- getS ;;
  putS (set_context m true false).

Definition end_external (vec : Z) : ST st bool :=
  level <-- intr_get_level ;;
  assertS (negb level) ;;;
  c <-- intr_context ;;
  assertS c ;;;
  m <-- getS ;;
  putS (set_context m false (yield_on_return m)) ;;;
  pic_end_of_interrupt vec ;;;
  m <-- getS ;;
  if yield_on_return m then yield ;;; retS true else retS false.

Definition run_handler (f : intr_frame) : ST st (option intr_frame) :=
  m <-- getS ;;
  h <-- liftS (deref (intr_handlers m !! Z.to_nat (vec_no f))) ;;
  match h with
  | Some h => code h f
  | None =>
      if (vec_no f =? 0x27) || (vec_no f =? 0x2f) then retS (Some f)
      else unexpected_interrupt f ;;; retS (Some f)
  end.

Definition intr_handler (f : intr_frame) : ST st resumption :=
  let external := is_external (vec_no f) in
  (if external then begin_external else retS tt) ;;;
  r <-- run_handler f ;;
  match r with
  | None => retS Exited
  | Some f =>
      if external then
        y <-- end_external (vec_no f) ;;
        retS (if y : bool then ResumeLater f else Resume f)
      else retS (Resume f)
  end.

End code.

(** ** What the tables hold *)

Section proof.
Context {H D : Type} (intr_stubs : Z → Z) (idt_address : Z) (stubs_ok : ∀ v, 0 < intr_stubs v < WORD).
Local Abbreviation st := (machine H D).
Implicit Types m : st.

Lemma shiftl_word a k : 0 ≤ k → Z.shiftl a k = a * 2 ^ k.
Proof. apply Z.shiftl_mul_pow2. Qed.

(** The processor finds in a gate what went into it. *)
Lemma make_gate_fields fn dpl type :
  0 < fn < WORD → 0 ≤ dpl ≤ 3 → 0 ≤ type ≤ 15 →
  ∃ g, make_gate fn dpl type = Ok g ∧ gate_offset g = fn ∧ gate_segment g = SEL_KCSEG ∧ gate_type g = type ∧ gate_dpl g = dpl ∧ gate_present g = true.
Proof.
  intros Hf Hd Ht. unfold make_gate. rewrite (proj2 (Z.eqb_neq fn 0)) by lia. rewrite !(proj2 (Z.leb_le _ _)) by lia. mstep. eexists. split; [reflexivity|].
  change 0xffff with (2 ^ 16 - 1). rewrite land_ones_mod by done. change 0xffff0000 with (WORD - 2 ^ 16). rewrite land_high_bits by (unfold is_u32; lia).
  pose proof (Z.div_mod fn 65536 ltac:(lia)) as E. pose proof (Z.mod_pos_bound fn 65536 ltac:(lia)) as Hm. change (2 ^ 16) with 65536 in *.
  set (lo := fn mod 65536) in *. set (hi := fn / 65536) in *. replace (fn - lo) with (hi * 2 ^ 16) by lia.
  rewrite !shiftl_word by done. change (0 * 2 ^ 12) with 0. rewrite Z.lor_0_r. rewrite (lor_fields lo SEL_KCSEG 16) by lia.
  rewrite (lor_fields_high hi (1 * 2 ^ 15) 16) by lia. replace (hi * 2 ^ 16 + 1 * 2 ^ 15) with ((hi * 2 + 1) * 2 ^ 15) by lia.
  rewrite (lor_fields_high (hi * 2 + 1) (dpl * 2 ^ 13) 15) by lia. replace ((hi * 2 + 1) * 2 ^ 15 + dpl * 2 ^ 13) with (((hi * 2 + 1) * 4 + dpl) * 2 ^ 13) by lia.
  rewrite (lor_fields_high ((hi * 2 + 1) * 4 + dpl) (type * 2 ^ 8) 13) by lia. rewrite lor_fields by (unfold SEL_KCSEG; lia).
  unfold gate_offset, gate_segment, gate_type, gate_dpl, gate_present, SEL_KCSEG. rewrite !field_eq by done. rewrite Z.eqb_eq.
  assert (0 ≤ hi < 65536) as Hh by lia. clearbody lo hi. cbn [Z.pow Z.pow_pos Pos.iter Z.mul Pos.mul].
  split_and!; Z.to_euclidean_division_equations; lia.
Qed.

(** The gate of a vector leads to its stub in the kernel's segment. *)
Record entry m (v dpl type : Z) (h : option H) : Prop := {
  en_gate : ∃ g, idt m !! Z.to_nat v = Some g ∧ gate_present g = true ∧ gate_offset g = intr_stubs v ∧ gate_segment g = SEL_KCSEG ∧
    gate_type g = type ∧ gate_dpl g = dpl;
  en_handler : intr_handlers m !! Z.to_nat v = Some h;
}.

(** The tables have room for every vector; those of the controller cannot be reached from user
    programs and turn interrupts off. *)
Record idt_ok m : Prop := {
  io_idt : length (idt m) = INTR_CNT;
  io_handlers : length (intr_handlers m) = INTR_CNT;
  io_names : length (intr_names m) = INTR_CNT;
  io_counts : length (unexpected_cnt m) = INTR_CNT;
  io_external : ∀ v, 0x20 ≤ v < 0x30 → ∃ h, entry m v 0 14 h;
}.

Definition same_tables m m' : Prop :=
  idt m' = idt m ∧ intr_handlers m' = intr_handlers m ∧ intr_names m' = intr_names m ∧ length (unexpected_cnt m') = length (unexpected_cnt m).

Lemma same_tables_ok m m' : same_tables m m' → idt_ok m → idt_ok m'.
Proof using.
  intros (E1 & E2 & E3 & E4) [H1 H2 H3 H4 H5]. split; rewrite ?E1, ?E2, ?E3, ?E4; try done.
  intros v Hv. destruct (H5 v Hv) as (h & [He Hh]). exists h. split; by rewrite ?E1, ?E2.
Qed.

(** ** Registration *)

Inductive request := Ext (vec : Z) (h : H) (name : list Z) | Int (vec dpl : Z) (level : bool) (h : H) (name : list Z).

Definition request_vec (r : request) : Z := match r with Ext v _ _ => v | Int v _ _ _ _ => v end.
Definition request_dpl (r : request) : Z := match r with Ext _ _ _ => 0 | Int _ dpl _ _ _ => dpl end.
Definition request_level (r : request) : bool := match r with Ext _ _ _ => false | Int _ _ l _ _ => l end.
Definition request_handler (r : request) : H := match r with Ext _ h _ => h | Int _ _ _ h _ => h end.
Definition request_name (r : request) : list Z := match r with Ext _ _ n => n | Int _ _ _ _ n => n end.

Definition request_ok (r : request) : Prop :=
  match r with
  | Ext v _ _ => 0x20 ≤ v ≤ 0x2f
  | Int v dpl _ _ _ => 0 ≤ v < 256 ∧ (v < 0x20 ∨ 0x2f < v) ∧ 0 ≤ dpl ≤ 3
  end.

Definition register (r : request) : ST st unit :=
  match r with
  | Ext v h name => intr_register_ext intr_stubs v h name
  | Int v dpl level h name => intr_register_int intr_stubs v dpl level h name
  end.

Fixpoint register_all (rs : list request) : ST st unit :=
  match rs with [] => retS tt | r :: rs => register r ;;; register_all rs end.

Lemma entry_insert m v g h name w dpl type h' :
  0 ≤ v → 0 ≤ w → v ≠ w →
  entry m w dpl type h' → entry (set_handlers (set_idt m (<[Z.to_nat v := g]> (idt m))) (<[Z.to_nat v := h]> (intr_handlers m)) name) w dpl type h'.
Proof using.
  intros Hv Hw Hne [(g' & Hg & He) Hh]. assert (Z.to_nat v ≠ Z.to_nat w) by lia.
  split; [exists g'; split; [|done]|]; cbn [idt intr_handlers set_idt set_handlers]; by rewrite list_lookup_insert_ne.
Qed.

Record registered m m' (r : request) : Prop := {
  rg_entry : entry m' (request_vec r) (request_dpl r) (if request_level r then 15 else 14) (Some (request_handler r));
  rg_name : intr_names m' !! Z.to_nat (request_vec r) = Some (request_name r);
  rg_other : ∀ v dpl type h, 0 ≤ v → v ≠ request_vec r → entry m v dpl type h → entry m' v dpl type h;
  rg_names : ∀ v, 0 ≤ v → v ≠ request_vec r → intr_names m' !! Z.to_nat v = intr_names m !! Z.to_nat v;
  rg_ok : idt_ok m';
  rg_rest : ks m' = ks m ∧ in_external_intr m' = in_external_intr m ∧ ports m' = ports m ∧ dev m' = dev m ∧ mconsole m' = mconsole m;
}.

Lemma register_vector_ok m r :
  idt_ok m → request_ok r → intr_handlers m !! Z.to_nat (request_vec r) = Some None → ∃ m', register r m = Ok (tt, m') ∧ registered m m' r.
Proof using stubs_ok.
  intros Hok Hr Hfree. assert (0 ≤ request_vec r < 256 ∧ 0 ≤ request_dpl r ≤ 3) as [Hv Hd] by (destruct r; simpl in *; lia).
  assert (register r m = register_handler intr_stubs (request_vec r) (request_dpl r) (request_level r) (request_handler r) (request_name r) m) as ->.
  { destruct r as [v h n|v dpl l h n]; cbn [register request_vec request_dpl request_level request_handler request_name request_ok] in *.
    - unfold intr_register_ext. rewrite (bindS_Ok _ _ m tt m); [done|]. unfold assertS. by rewrite !(proj2 (Z.leb_le _ _)) by lia.
    - unfold intr_register_int. rewrite (bindS_Ok _ _ m tt m); [done|]. unfold assertS. destruct Hr as (_ & Hv' & _).
      destruct (Z.ltb_spec v 0x20), (Z.ltb_spec 0x2f v); done || lia. }
  unfold register_handler. rewrite (bindS_Ok _ _ m m m eq_refl). rewrite (bindS_Ok _ _ m None m) by (unfold liftS; by rewrite Hfree).
  rewrite (bindS_Ok _ _ m tt m eq_refl). set (type := if request_level r then 15 else 14).
  destruct (make_gate_fields (intr_stubs (request_vec r)) (request_dpl r) type) as (g & Eg & Eo & Es & Et & Ed & Ep); [apply stubs_ok|done|unfold type; destruct (request_level r); lia|].
  rewrite (bindS_Ok _ _ m g m).
  2:{ unfold liftS, make_trap_gate, make_intr_gate, type in *. destruct (request_level r); by rewrite Eg. }
  eexists. split; [reflexivity|]. destruct Hok as [H1 H2 H3 H4 H5]. assert (Z.to_nat (request_vec r) < INTR_CNT)%nat as Hlt by (unfold INTR_CNT; lia).
  assert (∀ v dpl t h, 0 ≤ v → v ≠ request_vec r → entry m v dpl t h → entry (set_handlers (set_idt m (<[Z.to_nat (request_vec r) := g]> (idt m)))
    (<[Z.to_nat (request_vec r) := Some (request_handler r)]> (intr_handlers m)) (<[Z.to_nat (request_vec r) := request_name r]> (intr_names m))) v dpl t h) as Hoth.
  { intros v dpl t h Hv0 Hne He. apply entry_insert; [lia|done|done|done]. }
  assert (∀ h0, entry (set_handlers (set_idt m (<[Z.to_nat (request_vec r) := g]> (idt m)))
    (<[Z.to_nat (request_vec r) := Some h0]> (intr_handlers m)) (<[Z.to_nat (request_vec r) := request_name r]> (intr_names m))) (request_vec r) (request_dpl r) type (Some h0)) as Hnew.
  { intros h0. split; [exists g; split; [|done]|]; cbn [idt intr_handlers set_idt set_handlers]; rewrite list_lookup_insert_eq; try done; congruence. }
  split; [apply Hnew| |apply Hoth| | |done].
  - cbn. rewrite list_lookup_insert_eq; [done|]. congruence.
  - intros v Hv0 Hne. cbn. rewrite list_lookup_insert_ne by lia. done.
  - split; cbn; rewrite ?length_insert; try done. intros v Hv'. destruct (decide (v = request_vec r)) as [->|Hne].
    + destruct r as [v h n|v dpl l h n]; [eexists; apply Hnew|simpl in Hr, Hv'; lia].
    + destruct (H5 v Hv') as (h & He). exists h. apply Hoth; [lia|done|done].
Qed.

Lemma gates_ok n i :
  ∃ l, gates intr_stubs n i = Ok l ∧ length l = n ∧
    ∀ k, (k < n)%nat → ∃ g, l !! k = Some g ∧ gate_present g = true ∧ gate_offset g = intr_stubs (i + Z.of_nat k) ∧ gate_segment g = SEL_KCSEG ∧ gate_type g = 14 ∧ gate_dpl g = 0.
Proof using stubs_ok.
  revert i. induction n as [|n IH]; intros i; [exists []; split_and!; [done|done|lia]|]. cbn [gates].
  destruct (make_gate_fields (intr_stubs i) 0 14) as (g & Eg & Eo & Es & Et & Ed & Ep); [apply stubs_ok|lia..|]. unfold make_intr_gate. rewrite Eg. mstep.
  destruct (IH (i + 1)) as (l & -> & Hlen & Hl). mstep. exists (g :: l). split_and!; [done|simpl; by rewrite Hlen|]. intros [|k] Hk.
  - exists g. rewrite Z.add_0_r. by split_and!.
  - destruct (Hl k ltac:(lia)) as (g' & Hg' & Hr). exists g'. split; [done|]. replace (i + Z.of_nat (S k)) with (i + 1 + Z.of_nat k) by lia. done.
Qed.

(** The static variables at boot, which are zero, and the machine. *)
Record at_boot m : Prop := {
  ab_handlers : intr_handlers m = replicate INTR_CNT None;
  ab_counts : unexpected_cnt m = replicate INTR_CNT 0;
  ab_context : in_external_intr m = false;
}.

Definition same_system m m' : Prop :=
  ks m' = ks m ∧ in_external_intr m' = in_external_intr m ∧ dev m' = dev m ∧ mconsole m' = mconsole m.

Lemma intr_init_ok m :
  at_boot m → ∃ m', intr_init intr_stubs idt_address m = Ok (tt, m') ∧ idt_ok m' ∧ same_system m m' ∧ ∀ v, 0 ≤ v < 256 → entry m' v 0 14 None.
Proof using stubs_ok.
  intros [Hh Hc Hx]. destruct (gates_ok INTR_CNT 0) as (l & El & Hlen & Hl). unfold intr_init. unfold bindS at 1. cbn [pic_init].
  unfold pic_init, outb. unfold bindS at 1 2 3 4 5 6 7 8 9 10 11. cbn -[gates INTR_CNT bytes exception_names]. unfold bindS at 1. unfold liftS at 1. rewrite El. eexists. split; [reflexivity|].
  assert (∀ v, 0 ≤ v < 256 → entry (set_handlers (set_idtr (set_idt (set_ports m (((((((((((((ports m ++ [(PIC0_DATA, 0xff)]) ++ [(PIC1_DATA, 0xff)])) ++ [(PIC0_CTRL, 0x11)])
    ++ [(PIC0_DATA, 0x20)]) ++ [(PIC0_DATA, 0x04)]) ++ [(PIC0_DATA, 0x01)]) ++ [(PIC1_CTRL, 0x11)]) ++ [(PIC1_DATA, 0x28)]) ++ [(PIC1_DATA, 0x02)]) ++ [(PIC1_DATA, 0x01)])
    ++ [(PIC0_DATA, 0x00)]) ++ [(PIC1_DATA, 0x00)])) l) (make_idtr_operand (8 * Z.of_nat INTR_CNT - 1) idt_address)) (intr_handlers m)
    ((bytes <$> exception_names) ++ replicate (INTR_CNT - 20) (bytes "unknown"))) v 0 14 None) as He.
  { intros v Hv. destruct (Hl (Z.to_nat v)) as (g & Hg & Hr); [unfold INTR_CNT; lia|]. split; [exists g; split; [done|]|].
    - replace v with (0 + Z.of_nat (Z.to_nat v)) by lia. by destruct Hr as (? & ? & ? & ? & ?).
    - cbn. rewrite Hh. apply lookup_replicate_2. unfold INTR_CNT. lia. }
  split_and!; [|done|exact He]. split; [exact Hlen|cbn; by rewrite Hh, length_replicate| |cbn; by rewrite Hc, length_replicate|].
  - reflexivity.
  - intros v Hv. exists None. apply He. lia.
Qed.

Lemma register_all_ok rs m :
  Forall request_ok rs → NoDup (request_vec <$> rs) → idt_ok m → (∀ v, v ∈ request_vec <$> rs → entry m v 0 14 None) →
  ∃ m', register_all rs m = Ok (tt, m') ∧ idt_ok m' ∧ same_system m m' ∧
    (∀ r, r ∈ rs → entry m' (request_vec r) (request_dpl r) (if request_level r then 15 else 14) (Some (request_handler r)) ∧
       intr_names m' !! Z.to_nat (request_vec r) = Some (request_name r)) ∧
    (∀ v, 0 ≤ v → v ∉ request_vec <$> rs →
       (∀ dpl type h, entry m v dpl type h → entry m' v dpl type h) ∧ intr_names m' !! Z.to_nat v = intr_names m !! Z.to_nat v).
Proof using stubs_ok.
  intros Hrs. assert (∀ r, request_ok r → 0 ≤ request_vec r) as Hpos by (intros []; simpl; lia).
  revert m. induction Hrs as [|r rs Hr Hrs IH]; intros m Hnd Hok Hfree; cbn [register_all].
  { exists m. split_and!; try done. intros r Hr. by apply not_elem_of_nil in Hr. }
  apply NoDup_cons in Hnd as [Hni Hnd]. destruct (register_vector_ok m r Hok Hr) as (m1 & E1 & [He Hn Ho Hns Hok1 Hrest]); [eapply en_handler, Hfree; left|].
  rewrite (bindS_Ok _ _ _ _ _ E1). assert (∀ v, v ∈ request_vec <$> rs → 0 ≤ v) as Hpos'.
  { intros v (r' & -> & Hr')%list_elem_of_fmap. apply Hpos. rewrite Forall_forall in Hrs. by apply Hrs. }
  destruct (IH m1 Hnd Hok1) as (m' & E & Hok' & Hs & Hin & Hout).
  { intros v Hv. apply Ho; [by apply Hpos'|by intros ->|]. apply Hfree. by right. }
  exists m'. split_and!; [done|done|unfold same_system in *; intuition congruence| |].
  - intros r' [->|Hr']%elem_of_cons; [|by apply Hin]. destruct (Hout (request_vec r) (Hpos r Hr) Hni) as [Hout1 Hout2]. rewrite Hout2. split; [by apply Hout1|done].
  - intros v Hv [Hne Hni']%not_elem_of_cons. destruct (Hout v Hv Hni') as [Hout1 Hout2]. split; [intros dpl type h He'; by apply Hout1, Ho|]. rewrite Hout2. by apply Hns.
Qed.

(** After [intr_init] and any registrations of different vectors that the two interfaces
    allow, none of which fails, the gate of every vector leads to its own stub in the kernel's
    segment: with the privilege and the kind its registration asks for, and the registered
    handler and name, or, without a registration, closed to user programs, with interrupts off
    and without a handler. Those of the controller are always closed to user programs and turn
    interrupts off. *)
Lemma idt_as_registered m rs :
  at_boot m → Forall request_ok rs → NoDup (request_vec <$> rs) →
  ∃ m', (intr_init intr_stubs idt_address ;;; register_all rs) m = Ok (tt, m') ∧ idt_ok m' ∧ same_system m m' ∧
    (∀ r, r ∈ rs → entry m' (request_vec r) (request_dpl r) (if request_level r then 15 else 14) (Some (request_handler r)) ∧
       intr_names m' !! Z.to_nat (request_vec r) = Some (request_name r)) ∧
    (∀ v, 0 ≤ v < 256 → v ∉ request_vec <$> rs → entry m' v 0 14 None).
Proof using stubs_ok.
  intros Hb Hrs Hnd. destruct (intr_init_ok m Hb) as (m0 & E0 & Hok0 & Hs0 & Hent0). rewrite (bindS_Ok _ _ _ _ _ E0).
  destruct (register_all_ok rs m0 Hrs Hnd Hok0) as (m' & E & Hok & Hs & Hin & Hout).
  { intros v (r & -> & Hr)%list_elem_of_fmap. apply Hent0. rewrite Forall_forall in Hrs. specialize (Hrs r Hr). destruct r; simpl in *; lia. }
  exists m'. split_and!; [done|done|unfold same_system in *; intuition congruence|done|].
  intros v Hv Hni. destruct (Hout v ltac:(lia) Hni) as [Hout1 _]. by apply Hout1, Hent0.
Qed.

(** ** External interrupts *)

Context (code : H → intr_frame → ST st (option intr_frame)).

(** The invariant of the drivers, which may speak of the threads that wait for a device; it does
    not depend on what the thread that runs does with the processor. *)
Context (devices_ok : kstate → D → Prop) (devices_intr : ∀ s b d, devices_ok s d → devices_ok (set_intr s b) d)
  (devices_yield : ∀ s s' d, sched_inv s → thread_yield s = Ok s' → devices_ok s d → devices_ok s' d).

Record machine_ok m : Prop := {
  mo_idt : idt_ok m;
  mo_sched : sched_inv (ks m);
  mo_dev : devices_ok (ks m) (dev m);
}.

(** What is asked of the handler of a device: if it returns, interrupts are still off. *)
Definition serves_device (h : H) : Prop := ∀ f m,
  machine_ok m → intr (ks m) = false → in_external_intr m = true →
  ∃ r m', code h f m = Ok (r, m') ∧ machine_ok m' ∧ intr (ks m') = false ∧ in_external_intr m' = true ∧ ∀ f', r = Some f' → vec_no f' = vec_no f.

(** The processor goes through a gate. *)
Definition through_gate (g : Z) m : st :=
  set_ks m (set_intr (ks m) (if gate_type g =? 14 then false else intr (ks m))).

(** The end of interrupt commands for a vector. *)
Definition acknowledge (vec : Z) : list (Z * Z) := (0x20, 0x20) :: if 0x28 <=? vec then [(0xa0, 0x20)] else [].

Lemma unexpected_ok f m :
  machine_ok m → 0 ≤ vec_no f < 256 →
  ∃ m', unexpected_interrupt f m = Ok (tt, m') ∧ machine_ok m' ∧ ks m' = ks m ∧ in_external_intr m' = in_external_intr m ∧
    yield_on_return m' = yield_on_return m ∧ ports m' = ports m.
Proof using.
  intros [Hok Hsched Hdev] Hv. unfold unexpected_interrupt. rewrite (bindS_Ok _ _ m m m eq_refl).
  destruct (lookup_lt_is_Some_2 (unexpected_cnt m) (Z.to_nat (vec_no f))) as [n Hn]; [rewrite (io_counts _ Hok); unfold INTR_CNT; lia|].
  rewrite (bindS_Ok _ _ m n m) by (unfold liftS; by rewrite Hn). set (m1 := set_unexpected m _). rewrite (bindS_Ok _ _ m tt m1 eq_refl).
  assert (machine_ok m1) as Hok1. { split; [|done|done]. apply (same_tables_ok m); [|done]. split_and!; try done. cbn. by rewrite length_insert. }
  destruct (_ =? 0); [|by exists m1]. unfold intr_name. destruct (lookup_lt_is_Some_2 (intr_names m1) (Z.to_nat (vec_no f))) as [nm Hnm].
  { change (intr_names m1) with (intr_names m). rewrite (io_names _ Hok). unfold INTR_CNT. lia. }
  rewrite (bindS_Ok _ _ m1 nm m1) by (unfold liftS; by rewrite Hnm).
  destruct (printf_typed (bytes "Unexpected interrupt %#04x (%s)") [AInt (vec_no f); AStr (Some nm)]) as (l & Hl & _); [cbn [bytes]; typed_format|].
  rewrite (bindS_Ok _ _ m1 tt (set_mconsole m1 (mconsole m1 ++ l))) by (unfold print; by rewrite Hl).
  eexists. split; [reflexivity|]. split_and!; try done. destruct Hok1 as [H1 H2 H3]. split; [|done|done]. by apply (same_tables_ok m1).
Qed.

Lemma machine_ok_frame m m' : same_tables m m' → sched_inv (ks m') → devices_ok (ks m') (dev m') → machine_ok m → machine_ok m'.
Proof using. intros Ht Hs Hd [H1 H2 H3]. by split; [apply (same_tables_ok m)| |]. Qed.

Lemma sched_inv_set_intr s b : sched_inv s → sched_inv (set_intr s b).
Proof using. intros [[] ? ? ?]. split; [split|..]; done. Qed.

Lemma run_handler_ok f m :
  machine_ok m → intr (ks m) = false → in_external_intr m = true → 0x20 ≤ vec_no f < 0x30 →
  (∀ h, intr_handlers m !! Z.to_nat (vec_no f) = Some (Some h) → serves_device h) →
  ∃ r m', run_handler code f m = Ok (r, m') ∧ machine_ok m' ∧ intr (ks m') = false ∧ in_external_intr m' = true ∧ ∀ f', r = Some f' → vec_no f' = vec_no f.
Proof using.
  intros Hok Hi Hc Hv Hh. unfold run_handler. rewrite (bindS_Ok _ _ m m m eq_refl).
  destruct (lookup_lt_is_Some_2 (intr_handlers m) (Z.to_nat (vec_no f))) as [h Eh]; [rewrite (io_handlers _ (mo_idt _ Hok)); unfold INTR_CNT; lia|].
  rewrite (bindS_Ok _ _ m h m) by (unfold liftS; by rewrite Eh). destruct h as [h|]; [by apply Hh|].
  destruct (_ || _); [exists (Some f), m; split_and!; try done; by intros ? [= <-]|].
  destruct (unexpected_ok f m Hok ltac:(lia)) as (m' & E & Hok' & Hk & Hx & _). exists (Some f), m'.
  rewrite (bindS_Ok _ _ _ _ _ E). split_and!; try (congruence || done).
Qed.

Lemma end_external_ok m vec :
  machine_ok m → intr (ks m) = false → in_external_intr m = true → 0x20 ≤ vec < 0x30 →
  ∃ m', end_external vec m = Ok (yield_on_return m, m') ∧ machine_ok m' ∧ in_external_intr m' = false ∧ ports m' = ports m ++ acknowledge vec ∧
    dev m' = dev m ∧ if yield_on_return m then thread_yield (ks m) = Ok (ks m') else ks m' = ks m.
Proof using devices_yield.
  intros Hok Hi Hc Hv. unfold end_external, pic_end_of_interrupt.
  rewrite (bindS_Ok _ _ m false m) by (unfold intr_get_level; by rewrite Hi). rewrite (bindS_Ok _ _ m tt m eq_refl).
  rewrite (bindS_Ok _ _ m true m) by (unfold intr_context; by rewrite Hc). rewrite (bindS_Ok _ _ m tt m eq_refl), (bindS_Ok _ _ m m m eq_refl).
  set (m1 := set_context m false (yield_on_return m)). rewrite (bindS_Ok _ _ m tt m1 eq_refl). set (m2 := set_ports m1 (ports m1 ++ acknowledge vec)).
  rewrite (bindS_Ok _ _ m1 tt m2).
  2:{ rewrite (bindS_Ok _ _ m1 tt m1) by (unfold assertS; by rewrite (proj2 (Z.leb_le _ _)), (proj2 (Z.ltb_lt _ _)) by lia).
      unfold m2, acknowledge, outb, bindS, retS. destruct (_ <=? vec); cbn; [|done]. by rewrite <-app_assoc. }
  rewrite (bindS_Ok _ _ m2 m2 m2 eq_refl). cbn [yield_on_return m2 m1 set_ports set_context]. destruct (yield_on_return m) eqn:Ey.
  - destruct (thread_yield_ok (ks m) (mo_sched _ Hok)) as (s' & Es & Hg). exists (set_ks m2 s'). split.
    { unfold yield. unfold bindS at 1. rewrite (bindS_Ok _ _ m2 false m2 eq_refl), (bindS_Ok _ _ m2 tt m2 eq_refl), (bindS_Ok _ _ m2 m2 m2 eq_refl).
      by rewrite (bindS_Ok _ _ m2 s' m2) by (unfold liftS; change (ks m2) with (ks m); by rewrite Es). }
    split_and!; try done. apply (machine_ok_frame m); [by split_and!|apply Hg| |done]. by apply (devices_yield (ks m)); [apply Hok| |apply Hok].
  - exists m2. split_and!; try done. apply (machine_ok_frame m); [by split_and!|apply Hok|apply Hok|done].
Qed.

Lemma external_interrupt_ok m f :
  machine_ok m → intr (ks m) = true → in_external_intr m = false → 0x20 ≤ vec_no f < 0x30 →
  (∀ h, intr_handlers m !! Z.to_nat (vec_no f) = Some (Some h) → serves_device h) →
  ∃ g r m1, idt m !! Z.to_nat (vec_no f) = Some g ∧ gate_present g = true ∧ gate_offset g = intr_stubs (vec_no f) ∧
    run_handler code f (set_context (through_gate g m) true false) = Ok (r, m1) ∧
    match r with
    | None => intr_handler code f (through_gate g m) = Ok (Exited, m1)
    | Some f' => ∃ m2, intr_handler code f (through_gate g m) = Ok (if yield_on_return m1 then ResumeLater f' else Resume f', m2) ∧
        machine_ok m2 ∧ in_external_intr m2 = false ∧ ports m2 = ports m1 ++ acknowledge (vec_no f) ∧ dev m2 = dev m1 ∧
        if yield_on_return m1 then thread_yield (ks m1) = Ok (ks m2) else ks m2 = ks m1
    end.
Proof using devices_intr devices_yield.
  intros Hok Hi Hc Hv Hh. destruct (io_external _ (mo_idt _ Hok) _ Hv) as (h0 & [(g & Hg & Hp & Ho & _ & Ht & _) _]).
  set (m0 := set_context (through_gate g m) true false). assert (machine_ok m0 ∧ intr (ks m0) = false) as [Hok0 Hi0].
  { split; [|cbn; by rewrite Ht]. apply (machine_ok_frame m); [by split_and!|apply sched_inv_set_intr, Hok|apply devices_intr, Hok|done]. }
  destruct (run_handler_ok f m0 Hok0 Hi0 eq_refl Hv Hh) as (r & m1 & E1 & Hok1 & Hi1 & Hc1 & Hv1).
  exists g, r, m1. split_and!; try done.
  assert (intr_handler code f (through_gate g m) = match r with None => Ok (Exited, m1)
    | Some f' => (y <-- end_external (vec_no f') ;; retS (if y : bool then ResumeLater f' else Resume f')) m1 end) as Er.
  { unfold intr_handler, is_external. rewrite (proj2 (Z.leb_le _ _)), (proj2 (Z.ltb_lt _ _)) by lia. cbn [andb]. rewrite (bindS_Ok _ _ (through_gate g m) tt m0).
    2:{ unfold begin_external, intr_get_level, intr_context, assertS, bindS, getS, putS. cbn. rewrite Ht. cbn. by rewrite Hc. }
    rewrite (bindS_Ok _ _ _ _ _ E1). by destruct r. }
  destruct r as [f'|]; [|done]. destruct (end_external_ok m1 (vec_no f) Hok1 Hi1 Hc1 Hv) as (m2 & E2 & Hok2 & Hc2 & Hp2 & Hd2 & Hy2).
  exists m2. split_and!; try done. by rewrite Er, (Hv1 f' eq_refl), (bindS_Ok _ _ _ _ _ E2).
Qed.

(** An interrupt request of a device, in a machine with interrupts on and none being
    served, goes through a gate to the stub of its vector with interrupts off. Given handlers
    of devices that do not return with interrupts on, its service fails no assertion. When the
    handler has returned, the request is acknowledged at the controller, and at the second one
    only if it came from there, its service is over, and the processor goes to another thread
    just if the handler has asked for it. *)
Theorem external_interrupt_served m f :
  machine_ok m → intr (ks m) = true → in_external_intr m = false → 0x20 ≤ vec_no f < 0x30 →
  (∀ h, intr_handlers m !! Z.to_nat (vec_no f) = Some (Some h) → serves_device h) →
  ∃ g r m1, idt m !! Z.to_nat (vec_no f) = Some g ∧ gate_present g = true ∧ gate_offset g = intr_stubs (vec_no f) ∧
    run_handler code f (set_context (through_gate g m) true false) = Ok (r, m1) ∧
    match r with
    | None => intr_handler code f (through_gate g m) = Ok (Exited, m1)
    | Some f' => ∃ m2, intr_handler code f (through_gate g m) = Ok (if yield_on_return m1 then ResumeLater f' else Resume f', m2) ∧
        machine_ok m2 ∧ in_external_intr m2 = false ∧ ports m2 = ports m1 ++ acknowledge (vec_no f) ∧ dev m2 = dev m1 ∧
        if yield_on_return m1 then thread_yield (ks m1) = Ok (ks m2) else ks m2 = ks m1
    end.
Proof using devices_intr devices_yield. apply external_interrupt_ok. Qed.

End proof.

(** ** A machine with a timer *)

Definition demo_stubs (v : Z) : Z := 3221356544 + 16 * (v mod 256).

Lemma demo_stubs_ok v : 0 < demo_stubs v < WORD.
Proof. unfold demo_stubs. pose proof (Z.mod_pos_bound v 256 eq_refl). lia. Qed.

Definition boot_machine {H D} (d : D) : machine H D :=
  Machine (started 4096 8192) [] 0 (replicate INTR_CNT None) [] (replicate INTR_CNT 0) false false [] [] d.

Lemma boot_machine_ok {H D} (d : D) : at_boot (boot_machine (H := H) d).
Proof. by split. Qed.

(** A handler that asks for another thread, and the one of the system calls. *)
Definition demo_requests : list (request (H := bool)) := [Ext 0x20 true (bytes "8254 Timer"); Int 0x30 3 true false (bytes "syscall")].

Lemma demo_requests_ok : Forall request_ok demo_requests ∧ NoDup (request_vec <$> demo_requests).
Proof.
  split; [|apply NoDup_cons; split; [by intros ?%list_elem_of_singleton|apply NoDup_singleton]].
  apply Forall_cons. split; [cbn; lia|]. apply Forall_cons. split; [cbn; lia|apply Forall_nil_2].
Qed.

Definition demo_code (h : bool) (f : intr_frame) : ST (machine bool unit) (option intr_frame) := intr_yield_on_return ;;; retS (Some f).

Lemma demo_code_serves h : serves_device demo_stubs demo_code (λ _ _, True) h.
Proof.
  intros f m Hok Hi Hc. exists (Some f), (set_context m true true). split_and!; try done.
  - unfold demo_code, intr_yield_on_return, intr_context, assertS, bindS, getS, putS. cbn. rewrite Hc. unfold retS. by rewrite Hc.
  - by apply (machine_ok_frame _ _ m); [|apply Hok| |].
  - by intros ? [= <-].
Qed.

Definition demo_frame (v : Z) : intr_frame := Frame 0 0 0 0 0 0 0 0 35 35 35 35 v 0 0 134512640 27 514 3221225472 35.

Lemma demo_machine_ok :
  ∃ m, machine_ok demo_stubs (λ _ (_ : unit), True) m ∧ intr (ks m) = true ∧ in_external_intr m = false ∧ intr_handlers m !! Z.to_nat 0x20 = Some (Some true).
Proof.
  destruct (intr_init_ok demo_stubs 4096 demo_stubs_ok (boot_machine (H := bool) tt) (boot_machine_ok tt)) as (m0 & _ & Hok0 & Hs0 & He0).
  destruct (register_all_ok demo_stubs demo_stubs_ok demo_requests m0 (proj1 demo_requests_ok) (proj2 demo_requests_ok) Hok0) as (m & _ & Hok & Hs & Hin & _).
  { intros v Hv. apply He0. apply elem_of_cons in Hv as [->|[->|?%not_elem_of_nil]%elem_of_cons]; done. }
  exists m. unfold same_system in *. assert (ks m = started 4096 8192) as Ek by (by rewrite (proj1 Hs), (proj1 Hs0)). split_and!.
  - split; [done| |done]. rewrite Ek. by apply started_sched.
  - by rewrite Ek.
  - destruct Hs as (_ & -> & _), Hs0 as (_ & -> & _). done.
  - exact (en_handler _ _ _ _ _ _ (proj1 (Hin (Ext 0x20 true (bytes "8254 Timer")) ltac:(left)))).
Qed.

Lemma external_interrupt_served_witness :
  ∃ m g m2, machine_ok demo_stubs (λ _ (_ : unit), True) m ∧ idt m !! Z.to_nat 0x20 = Some g ∧ gate_offset g = demo_stubs 0x20 ∧
    (intr_handler demo_code (demo_frame 0x20) (through_gate g m) = Ok (Resume (demo_frame 0x20), m2) ∨
     intr_handler demo_code (demo_frame 0x20) (through_gate g m) = Ok (ResumeLater (demo_frame 0x20), m2)).
Proof.
  destruct demo_machine_ok as (m & Hok & Hi & Hc & Hh).
  destruct (external_interrupt_served demo_stubs demo_code (λ _ _, True) ltac:(done) ltac:(done) m (demo_frame 0x20) Hok Hi Hc ltac:(done) (λ h _, demo_code_serves h))
    as (g & r & m1 & Hg & _ & Ho & E1 & E2).
  assert (r = Some (demo_frame 0x20)) as Ef.
  { unfold run_handler, bindS, getS, liftS in E1. cbn in E1. rewrite Hh in E1. by injection E1. }
  rewrite Ef in E2. destruct E2 as (m2 & E2 & _). exists m, g, m2. split_and!; [exact Hok|exact Hg|exact Ho|].
  rewrite E2. destruct (yield_on_return m1); [by right|by left].
Defined.
