(* ===== verification/Entry.v ===== *)
(** The assembly of the kernel: the interrupt stubs, the entry to and the exit from an interrupt
    (src/threads/intr-stubs.S), the switch of threads (src/threads/switch.S), and the frames that
    thread.c and process.c prepare for them.

    An instruction changes the registers and the memory, which is a map from addresses to words;
    an access that is not aligned, or outside of the map, is a fault. A jump or call that leaves
    the code is the end of a definition. *)

From S2P Require Import Prelude Vaddr Interrupt.

(** ** The processor *)

Inductive reg := EAX | ECX | EDX | EBX | ESP | EBP | ESI | EDI | DS | ES | FS | GS | SS | CS | EIP | EFLAGS.

Record regs := Regs {
  r_eax : Z; r_ecx : Z; r_edx : Z; r_ebx : Z; r_esp : Z; r_ebp : Z; r_esi : Z; r_edi : Z;
  r_ds : Z; r_es : Z; r_fs : Z; r_gs : Z; r_ss : Z; r_cs : Z; r_eip : Z; r_eflags : Z;
}.

Definition get (r : reg) (x : regs) : Z :=
  match r with
  | EAX => r_eax x | ECX => r_ecx x | EDX => r_edx x | EBX => r_ebx x | ESP => r_esp x | EBP => r_ebp x | ESI => r_esi x | EDI => r_edi x
  | DS => r_ds x | ES => r_es x | FS => r_fs x | GS => r_gs x | SS => r_ss x | CS => r_cs x | EIP => r_eip x | EFLAGS => r_eflags x
  end.

Definition set (r : reg) (v : Z) '(Regs a c d b sp bp si di ds es fs gs ss cs ip fl) : regs :=
  match r with
  | EAX => Regs v c d b sp bp si di ds es fs gs ss cs ip fl
  | ECX => Regs a v d b sp bp si di ds es fs gs ss cs ip fl
  | EDX => Regs a c v b sp bp si di ds es fs gs ss cs ip fl
  | EBX => Regs a c d v sp bp si di ds es fs gs ss cs ip fl
  | ESP => Regs a c d b v bp si di ds es fs gs ss cs ip fl
  | EBP => Regs a c d b sp v si di ds es fs gs ss cs ip fl
  | ESI => Regs a c d b sp bp v di ds es fs gs ss cs ip fl
  | EDI => Regs a c d b sp bp si v ds es fs gs ss cs ip fl
  | DS => Regs a c d b sp bp si di v es fs gs ss cs ip fl
  | ES => Regs a c d b sp bp si di ds v fs gs ss cs ip fl
  | FS => Regs a c d b sp bp si di ds es v gs ss cs ip fl
  | GS => Regs a c d b sp bp si di ds es fs v ss cs ip fl
  | SS => Regs a c d b sp bp si di ds es fs gs v cs ip fl
  | CS => Regs a c d b sp bp si di ds es fs gs ss v ip fl
  | EIP => Regs a c d b sp bp si di ds es fs gs ss cs v fl
  | EFLAGS => Regs a c d b sp bp si di ds es fs gs ss cs ip v
  end.

Record cpu := Cpu { rs : regs; mem : gmap Z Z }.

Definition rget (r : reg) : ST cpu Z := λ c, Ok (get r (rs c), c).
Definition rset (r : reg) (v : Z) : ST cpu unit := λ c, Ok (tt, Cpu (set r v (rs c)) (mem c)).

Definition load (a : Z) : ST cpu Z := λ c,
  if a mod 4 =? 0 then liftS (deref (mem c !! a)) c else Fault BadAccess.

Definition store (a v : Z) : ST cpu unit := λ c,
  if (a mod 4 =? 0) && bool_decide (is_Some (mem c !! a)) then Ok (tt, Cpu (rs c) (<[a := v]> (mem c))) else Fault BadAccess.

Definition push (v : Z) : ST cpu unit :=
  sp <-- rget ESP ;; store (u32 (sp - 4)) v ;;; rset ESP (u32 (sp - 4)).

Definition pop : ST cpu Z :=
  sp <-- rget ESP ;; v <-- load sp ;; rset ESP (u32 (sp + 4)) ;;; retS v.

Definition pushl (r : reg) : ST cpu unit := v <-- rget r ;; push v.
Definition popl (r : reg) : ST cpu unit := v <-- pop ;; rset r v.

(** Selectors have 16 bits. *)
Definition popl_seg (r : reg) : ST cpu unit := v <-- pop ;; rset r (v mod 65536).

Definition addl_esp (n : Z) : ST cpu unit := sp <-- rget ESP ;; rset ESP (u32 (sp + n)).

Fixpoint push_list (l : list Z) : ST cpu unit :=
  match l with [] => retS tt | v :: l => push v ;;; push_list l end.

Definition pushal : ST cpu unit := λ c,
  push_list [get EAX (rs c); get ECX (rs c); get EDX (rs c); get EBX (rs c); get ESP (rs c); get EBP (rs c); get ESI (rs c); get EDI (rs c)] c.

(** The saved stack pointer is skipped. *)
Definition popal : ST cpu unit :=
  popl EDI ;;; popl ESI ;;; popl EBP ;;; addl_esp 4 ;;; popl EBX ;;; popl EDX ;;; popl ECX ;;; popl EAX.

(** String instructions go upward. *)
Definition FLAG_DF : Z := 0x400.
Definition cld : ST cpu unit := fl <-- rget EFLAGS ;; rset EFLAGS (Z.ldiff fl FLAG_DF).

(** The two low bits of a code selector are the privilege level. *)
Definition user_mode (cs : Z) : bool := Z.land cs 3 =? 3.

(** The processor takes an interrupt through a gate to [stub]: from user mode, on the stack
    that the task state segment has for the kernel. *)
Definition take_interrupt (esp0 stub : Z) (intr_gate : bool) (error : option Z) : ST cpu unit := λ c,
  let r := rs c in
  ((if user_mode (r_cs r) then rset SS SEL_KDSEG ;;; rset ESP esp0 ;;; push (r_ss r) ;;; push (r_esp r) else retS tt) ;;;
   push (r_eflags r) ;;; push (r_cs r) ;;; push (r_eip r) ;;;
   match error with Some e => push e | None => retS tt end ;;;
   rset EFLAGS (if intr_gate then Z.ldiff (r_eflags r) FLAG_IF else r_eflags r) ;;; rset CS SEL_KCSEG ;;; rset EIP stub) c.

Definition iret : ST cpu unit :=
  popl EIP ;;; popl_seg CS ;;; popl EFLAGS ;;;
  cs <-- rget CS ;;
  if user_mode cs then sp <-- pop ;; s <-- pop ;; rset ESP sp ;;; rset SS (s mod 65536) else retS tt.

(** ** intr-stubs.S *)

Inductive stub_type := zero | REAL.

Definition push_error (t : stub_type) : ST cpu unit :=
  match t with
  | zero => pushl EBP ;;; push 0
  | REAL =>
      sp <-- rget ESP ;; v <-- load sp ;; push v ;;;
      sp <-- rget ESP ;; bp <-- rget EBP ;; store (u32 (sp + 4)) bp
  end.

(** The second argument of the table of stubs. *)
Definition stub_types (vec : Z) : stub_type :=
  if bool_decide (vec ∈ [0x08; 0x0a; 0x0b; 0x0d; 0x0e; 0x11; 0x18; 0x1a; 0x1b; 0x1d; 0x1e]) then REAL else zero.

(** Up to the call of [intr_handler], with its argument. *)
Definition intr_entry : ST cpu Z :=
  pushl DS ;;; pushl ES ;;; pushl FS ;;; pushl GS ;;; pushal ;;;
  cld ;;;
  rset EAX SEL_KDSEG ;;; rset DS SEL_KDSEG ;;; rset ES SEL_KDSEG ;;;
  sp <-- rget ESP ;; rset EBP (u32 (sp + 56)) ;;;
  pushl ESP ;;;
  retS sp.

Definition stub (vec : Z) : ST cpu Z := push_error (stub_types vec) ;;; push vec ;;; intr_entry.

Definition intr_exit : ST cpu unit :=
  popal ;;; popl_seg GS ;;; popl_seg FS ;;; popl_seg ES ;;; popl_seg DS ;;; addl_esp 12 ;;; iret.

(** After the return from [intr_handler]. *)
Definition intr_return : ST cpu unit := addl_esp 4 ;;; intr_exit.

(** ** switch.S *)

Definition SWITCH_CUR : Z := 20.
Definition SWITCH_NEXT : Z := 24.

Definition ret : ST cpu unit := popl EIP.

Definition switch_threads (thread_stack_ofs : Z) : ST cpu unit :=
  pushl EBX ;;; pushl EBP ;;; pushl ESI ;;; pushl EDI ;;;
  rset EDX thread_stack_ofs ;;;
  sp <-- rget ESP ;; v <-- load (u32 (sp + SWITCH_CUR)) ;; rset EAX v ;;;
  sp <-- rget ESP ;; a <-- rget EAX ;; store (u32 (a + thread_stack_ofs)) sp ;;;
  sp <-- rget ESP ;; v <-- load (u32 (sp + SWITCH_NEXT)) ;; rset ECX v ;;;
  a <-- rget ECX ;; v <-- load (u32 (a + thread_stack_ofs)) ;; rset ESP v ;;;
  popl EDI ;;; popl ESI ;;; popl EBP ;;; popl EBX ;;; ret.

(** Up to the call of [thread_schedule_tail], with its argument. *)
Definition switch_entry_call : ST cpu Z := addl_esp 8 ;;; pushl EAX ;;; rget EAX.

(** After the return from it. *)
Definition switch_entry_start : ST cpu unit := addl_esp 4 ;;; ret.

(** ** The frames that C code prepares *)

(** [alloc_frame] (thread.c): the stack pointer of the thread is a word of its page. *)
Definition alloc_frame (thread_stack_ofs t size : Z) : ST cpu Z :=
  assertS (size mod 4 =? 0) ;;;
  p <-- load (u32 (t + thread_stack_ofs)) ;;
  store (u32 (t + thread_stack_ofs)) (u32 (p - size)) ;;;
  retS (u32 (p - size)).

(** The frames of [thread_create] for [kernel_thread], [switch_entry] and [switch_threads]. *)
Definition create_frames (thread_stack_ofs t kernel_thread switch_entry function aux : Z) : ST cpu unit :=
  kf <-- alloc_frame thread_stack_ofs t 12 ;;
  store kf NULL ;;; store (kf + 4) function ;;; store (kf + 8) aux ;;;
  ef <-- alloc_frame thread_stack_ofs t 4 ;;
  store ef kernel_thread ;;;
  sf <-- alloc_frame thread_stack_ofs t 28 ;;
  store (sf + 16) switch_entry ;;; store (sf + 8) 0.

(** The frame of [start_process] after [load]. *)
Definition initial_frame (entry stack : Z) : intr_frame :=
  Frame 0 0 0 0 0 0 0 0 SEL_UDSEG SEL_UDSEG SEL_UDSEG SEL_UDSEG 0 0 0 entry SEL_UCSEG (Z.lor FLAG_IF FLAG_MBS) stack SEL_UDSEG.

Definition enter_user (if_ : Z) : ST cpu unit := rset ESP if_ ;;; intr_exit.

(** ** Words on a stack *)

Definition words (m : gmap Z Z) (a : Z) (l : list Z) : Prop := ∀ i w, l !! i = Some w → m !! (a + 4 * Z.of_nat i) = Some w.

Lemma words_at_cons m a v l : words m a (v :: l) ↔ m !! a = Some v ∧ words m (a + 4) l.
Proof.
  split.
  - intros H. split; [specialize (H 0%nat v eq_refl); by rewrite Z.mul_0_r, Z.add_0_r in H|]. intros i w Hi. specialize (H (S i) w Hi). by replace (a + 4 + 4 * Z.of_nat i) with (a + 4 * Z.of_nat (S i)) by lia.
  - intros [Ha Hl] [|i] w Hi; [injection Hi as <-; by rewrite Z.mul_0_r, Z.add_0_r|]. specialize (Hl i w Hi). by replace (a + 4 * Z.of_nat (S i)) with (a + 4 + 4 * Z.of_nat i) by lia.
Qed.

Lemma words_app m a l1 l2 : words m a (l1 ++ l2) ↔ words m a l1 ∧ words m (a + 4 * Z.of_nat (length l1)) l2.
Proof.
  revert a. induction l1 as [|v l1 IH]; intros a; cbn [app length].
  - rewrite Z.mul_0_r, Z.add_0_r. split; [intros H; by split|by intros [_ H]].
  - rewrite !words_at_cons, IH. replace (a + 4 * Z.of_nat (S (length l1))) with (a + 4 + 4 * Z.of_nat (length l1)) by lia. tauto.
Qed.

Lemma words_frame m m' a l : (∀ x, a ≤ x < a + 4 * Z.of_nat (length l) → m' !! x = m !! x) → words m a l → words m' a l.
Proof. intros E H i w Hi. rewrite E; [by apply H|]. apply lookup_lt_Some in Hi. lia. Qed.

(** A stack that grows down from [top] has room for [n] words, and holds [l]; nothing else of the
    memory [M] has changed. *)
Record stack (top : Z) (n : nat) (M : gmap Z Z) (l : list Z) (c : cpu) : Prop := {
  sk_esp : get ESP (rs c) = top - 4 * Z.of_nat (length l);
  sk_words : words (mem c) (get ESP (rs c)) l;
  sk_fits : (length l ≤ n)%nat;
  sk_range : 0 ≤ top - 4 * Z.of_nat n ∧ top < WORD;
  sk_aligned : top mod 4 = 0;
  sk_mapped : ∀ k, (k < n)%nat → is_Some (mem c !! (top - 4 * Z.of_nat (S k)));
  sk_rest : ∀ a, ¬ (top - 4 * Z.of_nat n ≤ a < top) → mem c !! a = M !! a;
}.

Lemma get_set_ESP r v x : r ≠ ESP → get r (set ESP v x) = get r x.
Proof. by destruct x, r. Qed.

Lemma get_ESP_set r v x : r ≠ ESP → get ESP (set r v x) = get ESP x.
Proof. by destruct x, r. Qed.

Section stack.
Context (top : Z) (n : nat) (M : gmap Z Z).

Lemma stack_regs l c x : stack top n M l c → get ESP x = get ESP (rs c) → stack top n M l (Cpu x (mem c)).
Proof using. intros [] E. split; cbn [rs mem]; rewrite ?E; done. Qed.

Lemma rset_ok l c r v : r ≠ ESP → stack top n M l c → rset r v c = Ok (tt, Cpu (set r v (rs c)) (mem c)) ∧ stack top n M l (Cpu (set r v (rs c)) (mem c)).
Proof using. intros Hr Hs. split; [done|]. apply stack_regs; [done|]. by apply get_ESP_set. Qed.

Lemma aligned_below k : top mod 4 = 0 → (top - 4 * k) mod 4 = 0.
Proof using. intros H. rewrite Zminus_mod, H, Z.mul_comm, Z.mod_mul by done. done. Qed.

Lemma push_word_ok l c v :
  stack top n M l c → (length l < n)%nat →
  ∃ c', push v c = Ok (tt, c') ∧ stack top n M (v :: l) c' ∧ rs c' = set ESP (top - 4 * Z.of_nat (S (length l))) (rs c).
Proof using.
  intros [He Hw Hf Hr Ha Hm Hrest] Hlt. set (a := top - 4 * Z.of_nat (S (length l))).
  assert (u32 (get ESP (rs c) - 4) = a) as Ea by (rewrite He, u32_small by (unfold is_u32; lia); lia).
  exists (Cpu (set ESP a (rs c)) (<[a := v]> (mem c))). split_and!.
  - unfold push, rget, store, bindS. rewrite Ea. unfold a at 1. rewrite aligned_below, bool_decide_eq_true_2 by (done || by apply Hm). done.
  - assert (get ESP (set ESP a (rs c)) = a) as Eg by (by destruct (rs c)). split; cbn [rs mem length]; rewrite ?Eg; try done.
    + apply words_at_cons. rewrite lookup_insert_eq. split; [done|]. replace (a + 4) with (get ESP (rs c)) by lia. apply (words_frame (mem c)); [|done].
      intros x Hx. rewrite lookup_insert_ne by lia. done.
    + intros k Hk. destruct (decide (a = top - 4 * Z.of_nat (S k))) as [->|]; [rewrite lookup_insert_eq; by eexists|]. rewrite lookup_insert_ne by done. by apply Hm.
    + intros x Hx. rewrite lookup_insert_ne by lia. by apply Hrest.
  - done.
Qed.

Lemma push_list_ok vs l c :
  stack top n M l c → (length vs + length l ≤ n)%nat →
  ∃ c', push_list vs c = Ok (tt, c') ∧ stack top n M (rev vs ++ l) c' ∧ rs c' = set ESP (top - 4 * Z.of_nat (length vs + length l)) (rs c).
Proof using.
  revert l c. induction vs as [|v vs IH]; intros l c Hs Hn; cbn [push_list rev length Nat.add] in *.
  - exists c. split_and!; [done|done|]. rewrite <-(sk_esp _ _ _ _ _ Hs). by destruct (rs c).
  - destruct (push_word_ok l c v Hs ltac:(lia)) as (c1 & E1 & Hs1 & Hr1). rewrite (bindS_Ok _ _ _ _ _ E1). destruct (IH (v :: l) c1 Hs1) as (c2 & E2 & Hs2 & Hr2); [simpl; lia|].
    exists c2. split_and!; [done|by rewrite <-app_assoc|]. rewrite Hr2, Hr1. cbn [length]. rewrite Nat.add_succ_r. by destruct (rs c).
Qed.

Lemma store_second l c v w x :
  stack top n M (w :: x :: l) c → ∃ c', store (u32 (get ESP (rs c) + 4)) v c = Ok (tt, c') ∧ stack top n M (w :: v :: l) c' ∧ rs c' = rs c.
Proof using.
  intros [He Hw Hf Hr Ha Hm Hrest]. cbn [length] in *. set (a := top - 4 * Z.of_nat (S (length l))).
  assert (u32 (get ESP (rs c) + 4) = a) as Ea by (rewrite He, u32_small by (unfold is_u32; lia); lia).
  exists (Cpu (rs c) (<[a := v]> (mem c))). split_and!; [| |done].
  - unfold store. rewrite Ea. unfold a at 1. rewrite aligned_below, bool_decide_eq_true_2 by (done || apply Hm; lia). done.
  - split; cbn [rs mem length]; try done.
    + apply words_at_cons in Hw as [Hw1 Hw2]. apply words_at_cons in Hw2 as [_ Hw2]. apply words_at_cons. rewrite lookup_insert_ne by lia. split; [done|]. apply words_at_cons.
      replace (get ESP (rs c) + 4) with a by lia. rewrite lookup_insert_eq. split; [done|]. replace (a + 4) with (get ESP (rs c) + 4 + 4) by lia.
      apply (words_frame (mem c)); [|done]. intros y Hy. rewrite lookup_insert_ne by lia. done.
    + intros k Hk. destruct (decide (a = top - 4 * Z.of_nat (S k))) as [->|]; [rewrite lookup_insert_eq; by eexists|]. rewrite lookup_insert_ne by done. by apply Hm.
    + intros y Hy. rewrite lookup_insert_ne by lia. by apply Hrest.
Qed.

End stack.

(** ** Leaving an interrupt *)

(** The words of a frame in memory, without and with those that are only there for an interrupt
    of user code. *)
Definition kernel_words (f : intr_frame) : list Z :=
  [edi f; esi f; ebp f; esp_dummy f; ebx f; edx f; ecx f; eax f; gs f; fs f; es f; ds f; vec_no f; error_code f; frame_pointer f; eip f; cs f; eflags f].
Definition frame_words (f : intr_frame) : list Z := kernel_words f ++ [esp f; ss f].

Definition is_selector (x : Z) : Prop := 0 ≤ x < 65536.

Record selectors (f : intr_frame) : Prop := {
  se_gs : is_selector (gs f); se_fs : is_selector (fs f); se_es : is_selector (es f); se_ds : is_selector (ds f);
  se_cs : is_selector (cs f); se_ss : user_mode (cs f) = true → is_selector (ss f);
}.

(** The registers after a return to the frame at [a]. *)
Definition resumed (a ss0 : Z) (f : intr_frame) : regs :=
  Regs (eax f) (ecx f) (edx f) (ebx f) (if user_mode (cs f) then esp f else a + 72) (ebp f) (esi f) (edi f)
    (ds f) (es f) (fs f) (gs f) (if user_mode (cs f) then ss f else ss0) (cs f) (eip f) (eflags f).

(** Runs the next instruction, which [L] is about. *)
Ltac step L := eapply eq_trans; [eapply bindS_Ok; eapply L; solve [reflexivity | eassumption | lia | eauto | cbn [get rs r_esp]; lia]|cbn [set rs mem]].

Section exit.
Context (m : gmap Z Z) (a : Z) (l : list Z) (Hw : words m a l) (Ha : a mod 4 = 0) (H0 : 0 ≤ a) (Hl : a + 4 * Z.of_nat (length l) < WORD).

Lemma pop_at k v c :
  mem c = m → get ESP (rs c) = a + 4 * Z.of_nat k → l !! k = Some v → pop c = Ok (v, Cpu (set ESP (a + 4 * Z.of_nat (S k)) (rs c)) m).
Proof using All.
  intros Hm He Hk. pose proof (lookup_lt_Some _ _ _ Hk) as Hlt. unfold pop, rget, load, bindS, liftS. rewrite He, Hm.
  assert ((a + 4 * Z.of_nat k) mod 4 = 0) as -> by (rewrite Z.mul_comm, Z.mod_add by done; done). rewrite (Hw k v Hk). cbn -[Z.mul Z.of_nat].
  rewrite u32_small by (unfold is_u32; lia). unfold rset, retS. do 3 f_equal; [f_equal; lia|done].
Qed.

Lemma popl_at r k v c :
  mem c = m → get ESP (rs c) = a + 4 * Z.of_nat k → l !! k = Some v → popl r c = Ok (tt, Cpu (set r v (set ESP (a + 4 * Z.of_nat (S k)) (rs c))) m).
Proof using All. intros Hm He Hk. unfold popl. by rewrite (bindS_Ok _ _ _ _ _ (pop_at k v c Hm He Hk)). Qed.

Lemma popl_seg_at r k v c :
  is_selector v → mem c = m → get ESP (rs c) = a + 4 * Z.of_nat k → l !! k = Some v → popl_seg r c = Ok (tt, Cpu (set r v (set ESP (a + 4 * Z.of_nat (S k)) (rs c))) m).
Proof using All. intros Hv Hm He Hk. unfold popl_seg. rewrite (bindS_Ok _ _ _ _ _ (pop_at k v c Hm He Hk)). rewrite Z.mod_small by done. done. Qed.

Lemma addl_esp_at i k c :
  mem c = m → get ESP (rs c) = a + 4 * Z.of_nat k → (k + i ≤ length l)%nat → addl_esp (4 * Z.of_nat i) c = Ok (tt, Cpu (set ESP (a + 4 * Z.of_nat (k + i)) (rs c)) m).
Proof using All.
  intros Hm He Hk. unfold addl_esp, rget, rset, bindS. rewrite He, Hm, u32_small by (unfold is_u32; lia). do 4 f_equal. lia.
Qed.

Context (f : intr_frame) (Hk : ∀ k v, kernel_words f !! k = Some v → l !! k = Some v).

Lemma frame_length : (18 ≤ length l)%nat.
Proof using Hk. apply (lookup_lt_Some l 17 (eflags f)). by apply Hk. Qed.

Lemma popal_at ax cx dx bx bp si di ds es fs gs ss cs ip fl :
  popal (Cpu (Regs ax cx dx bx a bp si di ds es fs gs ss cs ip fl) m) =
  Ok (tt, Cpu (Regs (eax f) (ecx f) (edx f) (ebx f) (a + 4 * Z.of_nat 8) (ebp f) (esi f) (edi f) ds es fs gs ss cs ip fl) m).
Proof using All.
  pose proof frame_length as Hn. unfold popal.
  assert (a = a + 4 * Z.of_nat 0) as E0 by lia.
  step (popl_at EDI 0 (edi f)).
  step (popl_at ESI 1 (esi f)).
  step (popl_at EBP 2 (ebp f)).
  step (addl_esp_at 1 3).
  step (popl_at EBX 4 (ebx f)).
  step (popl_at EDX 5 (edx f)).
  step (popl_at ECX 6 (ecx f)).
  apply (popl_at EAX 7 (eax f)); [done|done|by apply Hk].
Qed.

Lemma pop_segments_at ax cx dx bx bp si di ds0 es0 fs0 gs0 ss cs ip fl :
  selectors f →
  (popl_seg GS ;;; popl_seg FS ;;; popl_seg ES ;;; popl_seg DS ;;; addl_esp 12 ;;; iret) (Cpu (Regs ax cx dx bx (a + 4 * Z.of_nat 8) bp si di ds0 es0 fs0 gs0 ss cs ip fl) m) =
  iret (Cpu (Regs ax cx dx bx (a + 4 * Z.of_nat 15) bp si di (ds f) (es f) (fs f) (gs f) ss cs ip fl) m).
Proof using All.
  intros [Hgs Hfs Hes Hds _ _]. pose proof frame_length as Hn.
  step (popl_seg_at GS 8 (gs f)).
  step (popl_seg_at FS 9 (fs f)).
  step (popl_seg_at ES 10 (es f)).
  step (popl_seg_at DS 11 (ds f)).
  step (addl_esp_at 3 12). done.
Qed.

Lemma iret_at ax cx dx bx bp si di ds es fs gs ss0 cs0 ip fl :
  is_selector (cs f) → (user_mode (cs f) = true → is_selector (ss f) ∧ l !! 18%nat = Some (esp f) ∧ l !! 19%nat = Some (ss f)) →
  iret (Cpu (Regs ax cx dx bx (a + 4 * Z.of_nat 15) bp si di ds es fs gs ss0 cs0 ip fl) m) =
  Ok (tt, Cpu (Regs ax cx dx bx (if user_mode (cs f) then esp f else a + 72) bp si di ds es fs gs (if user_mode (cs f) then ss f else ss0) (cs f) (eip f) (eflags f)) m).
Proof using All.
  intros Hcs Huser. pose proof frame_length as Hn. unfold iret.
  step (popl_at EIP 15 (eip f)).
  step (popl_seg_at CS 16 (cs f)).
  step (popl_at EFLAGS 17 (eflags f)).
  unfold rget. unfold bindS at 1. cbn [get rs r_cs]. destruct (user_mode (cs f)); [|done]. destruct (Huser eq_refl) as (Hss & H18 & H19).
  step (pop_at 18 (esp f)).
  step (pop_at 19 (ss f)).
  unfold rset, bindS. cbn [set rs mem]. by rewrite Z.mod_small.
Qed.

End exit.

Lemma intr_exit_ok c a f :
  get ESP (rs c) = a → a mod 4 = 0 → 0 ≤ a → a + (if user_mode (cs f) then 80 else 72) < WORD → selectors f →
  words (mem c) a (if user_mode (cs f) then frame_words f else kernel_words f) →
  intr_exit c = Ok (tt, Cpu (resumed a (get SS (rs c)) f) (mem c)).
Proof.
  intros He Ha H0 Hb Hsel Hw. destruct c as [[] m]. cbn in He. subst a. set (l := if user_mode (cs f) then _ else _) in Hw. cbn [rs mem] in *.
  assert (r_esp0 + 4 * Z.of_nat (length l) < WORD) as Hl by (unfold l; destruct (user_mode (cs f)); cbn -[Z.mul] in *; lia).
  assert (∀ k v, kernel_words f !! k = Some v → l !! k = Some v) as Hk.
  { intros k v Hv. unfold l, frame_words. destruct (user_mode (cs f)); [by apply lookup_app_l_Some|done]. }
  unfold intr_exit. refine (eq_trans (bindS_Ok _ _ _ _ _ (popal_at m r_esp0 l Hw Ha H0 Hl f Hk _ _ _ _ _ _ _ _ _ _ _ _ _ _ _)) _).
  rewrite (pop_segments_at m r_esp0 l Hw Ha H0 Hl f Hk) by done. apply (iret_at m r_esp0 l Hw Ha H0 Hl f Hk); [apply Hsel|].
  intros Hu. split; [by apply Hsel|]. unfold l. by rewrite Hu.
Qed.

(** ** Entering an interrupt *)

(** The stack from [top] down has room for [n] words. *)
Record room (top : Z) (n : nat) (m : gmap Z Z) : Prop := {
  rm_range : 0 ≤ top - 4 * Z.of_nat n ∧ top < WORD;
  rm_aligned : top mod 4 = 0;
  rm_mapped : ∀ k, (k < n)%nat → is_Some (m !! (top - 4 * Z.of_nat (S k)));
}.

Lemma room_stack top n c : room top n (mem c) → get ESP (rs c) = top → stack top n (mem c) [] c.
Proof. intros [] E. split; try done; [rewrite E; cbn; lia|cbn; lia]. Qed.

Definition same_regs (x y : regs) : Prop := ∀ r, r ≠ ESP → get r y = get r x.

Section entry.
Context (top : Z) (n : nat) (M : gmap Z Z).

Lemma pushed l c v :
  stack top n M l c → (length l < n)%nat → ∃ c', push v c = Ok (tt, c') ∧ stack top n M (v :: l) c' ∧ same_regs (rs c) (rs c').
Proof using. intros Hs Hn. destruct (push_word_ok top n M l c v Hs Hn) as (c' & E & Hs' & Hr). exists c'. split_and!; [done|done|]. intros r Hne. rewrite Hr. by apply get_set_ESP. Qed.

Lemma pushl_ok l c r :
  r ≠ ESP → stack top n M l c → (length l < n)%nat → ∃ c', pushl r c = Ok (tt, c') ∧ stack top n M (get r (rs c) :: l) c' ∧ same_regs (rs c) (rs c').
Proof using. intros Hr Hs Hn. by apply pushed. Qed.

(** What the two kinds of stubs find on the stack. *)
Lemma push_error_ok t e l c :
  stack top n M (match t with REAL => e :: l | zero => l end) c → (length l + 2 ≤ n)%nat →
  ∃ c', push_error t c = Ok (tt, c') ∧ stack top n M (match t with REAL => e | zero => 0 end :: get EBP (rs c) :: l) c' ∧ same_regs (rs c) (rs c').
Proof using.
  intros Hs Hn. destruct t; cbn [push_error].
  - destruct (pushl_ok l c EBP ltac:(done) Hs ltac:(lia)) as (c1 & E1 & Hs1 & Hr1). rewrite (bindS_Ok _ _ _ _ _ E1).
    destruct (pushed (get EBP (rs c) :: l) c1 0 Hs1 ltac:(cbn; lia)) as (c2 & E2 & Hs2 & Hr2). exists c2. split_and!; [done|done|]. intros r Hr. by rewrite Hr2, Hr1.
  - rewrite (bindS_Ok _ _ c (get ESP (rs c)) c eq_refl). assert (load (get ESP (rs c)) c = Ok (e, c)) as El.
    { unfold load. destruct Hs as [He Hw _ _ Ha _ _]. apply words_at_cons in Hw as [Hw _]. rewrite He at 1. rewrite aligned_below by done. unfold liftS. by rewrite Hw. }
    rewrite (bindS_Ok _ _ _ _ _ El). destruct (pushed (e :: l) c e Hs ltac:(cbn; lia)) as (c1 & E1 & Hs1 & Hr1). rewrite (bindS_Ok _ _ _ _ _ E1).
    rewrite (bindS_Ok _ _ c1 (get ESP (rs c1)) c1 eq_refl), (bindS_Ok _ _ c1 (get EBP (rs c1)) c1 eq_refl).
    destruct (store_second top n M l c1 (get EBP (rs c1)) e e Hs1) as (c2 & E2 & Hs2 & Hr2). exists c2. split_and!; [done| |by rewrite Hr2]. by rewrite <-(Hr1 EBP).
Qed.

Lemma push_segments l c :
  stack top n M l c → (length l + 4 ≤ n)%nat →
  ∃ c', (∀ A (k : ST cpu A), (pushl DS ;;; pushl ES ;;; pushl FS ;;; pushl GS ;;; k) c = k c') ∧
    stack top n M (get GS (rs c) :: get FS (rs c) :: get ES (rs c) :: get DS (rs c) :: l) c' ∧ same_regs (rs c) (rs c').
Proof using.
  intros Hs Hn. destruct (pushl_ok l c DS ltac:(done) Hs ltac:(lia)) as (c1 & E1 & Hs1 & Hr1).
  destruct (pushl_ok _ c1 ES ltac:(done) Hs1 ltac:(cbn; lia)) as (c2 & E2 & Hs2 & Hr2).
  destruct (pushl_ok _ c2 FS ltac:(done) Hs2 ltac:(cbn; lia)) as (c3 & E3 & Hs3 & Hr3).
  destruct (pushl_ok _ c3 GS ltac:(done) Hs3 ltac:(cbn; lia)) as (c4 & E4 & Hs4 & Hr4). exists c4.
  split; [intros A k; by rewrite (bindS_Ok _ _ _ _ _ E1), (bindS_Ok _ _ _ _ _ E2), (bindS_Ok _ _ _ _ _ E3), (bindS_Ok _ _ _ _ _ E4)|].
  assert (same_regs (rs c) (rs c2)) as Hr12 by (intros r Hr; by rewrite Hr2, Hr1). assert (same_regs (rs c) (rs c3)) as Hr13 by (intros r Hr; by rewrite Hr3, Hr12).
  split; [|intros r Hr; by rewrite Hr4, Hr13]. by rewrite (Hr13 GS), (Hr12 FS), (Hr1 ES) in Hs4.
Qed.

Lemma pushal_ok l c :
  stack top n M l c → (length l + 8 ≤ n)%nat →
  ∃ c', pushal c = Ok (tt, c') ∧ stack top n M (get EDI (rs c) :: get ESI (rs c) :: get EBP (rs c) :: get ESP (rs c) :: get EBX (rs c) :: get EDX (rs c) :: get ECX (rs c) :: get EAX (rs c) :: l) c' ∧
    same_regs (rs c) (rs c').
Proof using.
  intros Hs Hn. unfold pushal. set (vs := [get EAX (rs c); _; _; _; _; _; _; _]). destruct (push_list_ok top n M vs l c Hs) as (c' & E & Hs' & Hr); [cbn; lia|].
  exists c'. split_and!; [done|done|]. intros r Hne. rewrite Hr. by apply get_set_ESP.
Qed.

(** The registers that [intr_entry] saves above [l]. *)
Definition saved_regs (r : regs) (l : list Z) : list Z :=
  get EDI r :: get ESI r :: get EBP r :: top - 4 * Z.of_nat (length l + 4) :: get EBX r :: get EDX r :: get ECX r :: get EAX r ::
  get GS r :: get FS r :: get ES r :: get DS r :: l.

Lemma intr_entry_ok l c :
  stack top n M l c → (length l + 13 ≤ n)%nat →
  ∃ c', intr_entry c = Ok (top - 4 * Z.of_nat (length l + 12), c') ∧ stack top n M (top - 4 * Z.of_nat (length l + 12) :: saved_regs (rs c) l) c' ∧
    get DS (rs c') = SEL_KDSEG ∧ get ES (rs c') = SEL_KDSEG ∧ get EFLAGS (rs c') = Z.ldiff (get EFLAGS (rs c)) FLAG_DF ∧ ∀ r, r ∈ [SS; CS] → get r (rs c') = get r (rs c).
Proof using.
  intros Hs Hn. unfold intr_entry. destruct (push_segments l c Hs ltac:(lia)) as (c1 & -> & Hs1 & Hr1).
  destruct (pushal_ok _ c1 Hs1 ltac:(cbn; lia)) as (c2 & E2 & Hs2 & Hr2). rewrite (bindS_Ok _ _ _ _ _ E2).
  rewrite (sk_esp _ _ _ _ _ Hs1), (Hr1 EDI), (Hr1 ESI), (Hr1 EBP), (Hr1 EBX), (Hr1 EDX), (Hr1 ECX), (Hr1 EAX) in Hs2 by done. set (l2 := _ :: _ :: _ :: _ :: _ :: _ :: _ :: _ :: _) in Hs2.
  assert (l2 = saved_regs (rs c) l) as El by (unfold l2, saved_regs; cbn [length]; do 4 f_equal; lia). rewrite El in Hs2. clearbody l2. clear El l2.
  assert (get ESP (rs c2) = top - 4 * Z.of_nat (length l + 12)) as Ea by (rewrite (sk_esp _ _ _ _ _ Hs2); unfold saved_regs; cbn [length]; lia).
  set (a := top - 4 * Z.of_nat (length l + 12)) in *. rewrite (bindS_Ok cld _ c2 tt (Cpu (set EFLAGS (Z.ldiff (get EFLAGS (rs c2)) FLAG_DF) (rs c2)) (mem c2)) eq_refl).
  unfold rset, bindS at 1 2 3. cbn [rs mem].
  set (x := set ES SEL_KDSEG (set DS SEL_KDSEG (set EAX SEL_KDSEG (set EFLAGS (Z.ldiff (get EFLAGS (rs c2)) FLAG_DF) (rs c2))))). assert (get ESP x = a) as Ex by (unfold x; by rewrite !get_ESP_set).
  rewrite (bindS_Ok (rget ESP) _ (Cpu x (mem c2)) a (Cpu x (mem c2))) by (unfold rget; cbn [rs]; by rewrite Ex).
  set (y := set EBP (u32 (a + 56)) x). assert (get ESP y = a) as Ey by (unfold y; by rewrite get_ESP_set). unfold bindS at 1. cbn [rs mem]. fold y.
  assert (stack top n M (saved_regs (rs c) l) (Cpu y (mem c2))) as Hs3 by (apply (stack_regs _ _ _ _ c2); [done|]; cbn [rs]; congruence).
  destruct (pushed _ (Cpu y (mem c2)) a Hs3) as (c4 & E4 & Hs4 & Hr4); [unfold saved_regs; cbn [length]; lia|].
  rewrite (bindS_Ok (pushl ESP) _ (Cpu y (mem c2)) tt c4) by (unfold pushl; rewrite (bindS_Ok (rget ESP) _ (Cpu y (mem c2)) a (Cpu y (mem c2))) by (unfold rget; cbn [rs]; by rewrite Ey); done).
  exists c4. split_and!; [done|done| | | |].
  - rewrite Hr4 by done. unfold y, x. by destruct (rs c2).
  - rewrite Hr4 by done. unfold y, x. by destruct (rs c2).
  - rewrite Hr4 by done. rewrite <-(Hr1 EFLAGS), <-(Hr2 EFLAGS) by done. unfold y, x. by destruct (rs c2).
  - intros r Hr. assert (r ≠ ESP) as Hne by (intros ->; by repeat (apply elem_of_cons in Hr as [?|Hr]; [done|]); apply not_elem_of_nil in Hr).
    rewrite Hr4 by done. rewrite <-(Hr1 r), <-(Hr2 r) by done. cbn [rs]. unfold y, x.
    repeat (apply elem_of_cons in Hr as [->|Hr]; [by destruct (rs c2)|]). by apply not_elem_of_nil in Hr.
Qed.

End entry.

(** What the processor pushes. *)
Definition pushed_by_cpu (r : regs) (error : option Z) : list Z :=
  (match error with Some e => [e] | None => [] end) ++ [r_eip r; r_cs r; r_eflags r] ++ if user_mode (r_cs r) then [r_esp r; r_ss r] else [].

(** The stack that the interrupt is served on. *)
Definition interrupt_stack (esp0 : Z) (r : regs) : Z := if user_mode (r_cs r) then esp0 else r_esp r.

Lemma take_interrupt_ok c n esp0 addr gate error :
  room (interrupt_stack esp0 (rs c)) n (mem c) → (6 ≤ n)%nat →
  ∃ c', take_interrupt esp0 addr gate error c = Ok (tt, c') ∧ stack (interrupt_stack esp0 (rs c)) n (mem c) (pushed_by_cpu (rs c) error) c' ∧
    get CS (rs c') = SEL_KCSEG ∧ get EIP (rs c') = addr ∧ get EFLAGS (rs c') = (if gate then Z.ldiff (r_eflags (rs c)) FLAG_IF else r_eflags (rs c)) ∧
    get SS (rs c') = (if user_mode (r_cs (rs c)) then SEL_KDSEG else r_ss (rs c)) ∧
    ∀ r, r ∈ [EAX; ECX; EDX; EBX; EBP; ESI; EDI; DS; ES; FS; GS] → get r (rs c') = get r (rs c).
Proof.
  intros Hroom Hn. unfold take_interrupt. set (top := interrupt_stack esp0 (rs c)) in *. set (base := if user_mode (r_cs (rs c)) then [r_esp (rs c); r_ss (rs c)] else []).
  assert (∃ c1, (if user_mode (r_cs (rs c)) then rset SS SEL_KDSEG ;;; rset ESP esp0 ;;; push (r_ss (rs c)) ;;; push (r_esp (rs c)) else retS tt) c = Ok (tt, c1) ∧
    stack top n (mem c) base c1 ∧ same_regs (set SS (if user_mode (r_cs (rs c)) then SEL_KDSEG else r_ss (rs c)) (rs c)) (rs c1)) as (c1 & E1 & Hs1 & Hr1).
  { unfold base, top, interrupt_stack in *. destruct (user_mode (r_cs (rs c))).
    - unfold rset, bindS at 1 2. cbn [rs mem]. set (c0 := Cpu (set ESP esp0 (set SS SEL_KDSEG (rs c))) (mem c)).
      assert (stack esp0 n (mem c0) [] c0) as Hs0 by (apply room_stack; [done|]; unfold c0; cbn [rs]; by destruct (rs c)).
      destruct (pushed _ _ _ [] _ (r_ss (rs c)) Hs0 ltac:(cbn; lia)) as (c1 & E1 & Hs1 & Hr1). rewrite (bindS_Ok _ _ _ _ _ E1).
      destruct (pushed _ _ _ [r_ss (rs c)] _ (r_esp (rs c)) Hs1 ltac:(cbn; lia)) as (c2 & E2 & Hs2 & Hr2). exists c2. split_and!; [done|done|].
      intros r Hr. rewrite Hr2, Hr1 by done. unfold c0. cbn [rs]. by rewrite get_set_ESP.
    - exists c. split_and!; [done|by apply room_stack|]. intros r Hr. destruct (rs c). by destruct r. }
  rewrite (bindS_Ok _ _ _ _ _ E1). assert (length base ≤ 2)%nat as Hb by (unfold base; destruct (user_mode _); cbn; lia).
  destruct (pushed _ _ _ base _ (r_eflags (rs c)) Hs1 ltac:(lia)) as (c2 & E2 & Hs2 & Hr2). rewrite (bindS_Ok _ _ _ _ _ E2).
  destruct (pushed _ _ _ (r_eflags (rs c) :: base) _ (r_cs (rs c)) Hs2 ltac:(cbn; lia)) as (c3 & E3 & Hs3 & Hr3). rewrite (bindS_Ok _ _ _ _ _ E3).
  destruct (pushed _ _ _ (r_cs (rs c) :: r_eflags (rs c) :: base) _ (r_eip (rs c)) Hs3 ltac:(cbn; lia)) as (c4 & E4 & Hs4 & Hr4). rewrite (bindS_Ok _ _ _ _ _ E4).
  assert (∃ c5, match error with Some e => push e | None => retS tt end c4 = Ok (tt, c5) ∧ stack top n (mem c) (pushed_by_cpu (rs c) error) c5 ∧ same_regs (rs c4) (rs c5)) as (c5 & E5 & Hs5 & Hr5).
  { destruct error as [e|]; [|by exists c4]. apply (pushed top n (mem c) (r_eip (rs c) :: r_cs (rs c) :: r_eflags (rs c) :: base)); [done|cbn [length]; lia]. }
  rewrite (bindS_Ok _ _ _ _ _ E5). unfold rset, bindS. cbn [rs mem]. eexists. split; [reflexivity|]. split.
  { apply (stack_regs _ _ _ _ c5); [done|]. by destruct (rs c5). }
  cbn [rs]. assert (same_regs (set SS (if user_mode (r_cs (rs c)) then SEL_KDSEG else r_ss (rs c)) (rs c)) (rs c5)) as Hr.
  { intros r Hne. by rewrite Hr5, Hr4, Hr3, Hr2, Hr1. }
  split_and!; [by destruct (rs c5)..| |].
  - transitivity (get SS (rs c5)); [by destruct (rs c5)|]. rewrite Hr by done. by destruct (rs c).
  - intros r Hin. transitivity (get r (rs c5)); [|rewrite Hr].
    + repeat (apply elem_of_cons in Hin as [->|Hin]; [by destruct (rs c5)|]). by apply not_elem_of_nil in Hin.
    + repeat (apply elem_of_cons in Hin as [->|Hin]; [by destruct (rs c)|]). by apply not_elem_of_nil in Hin.
    + intros ->. repeat (apply elem_of_cons in Hin as [?|Hin]; [done|]). by apply not_elem_of_nil in Hin.
Qed.

(** The frame of an interrupt. *)
Definition saved (r : regs) (vec : Z) (error : option Z) (dummy : Z) : intr_frame :=
  Frame (r_edi r) (r_esi r) (r_ebp r) dummy (r_ebx r) (r_edx r) (r_ecx r) (r_eax r) (r_gs r) (r_fs r) (r_es r) (r_ds r)
    vec (default 0 error) (r_ebp r) (r_eip r) (r_cs r) (r_eflags r) (r_esp r) (r_ss r).

Definition frame_in_memory (m : gmap Z Z) (a : Z) (f : intr_frame) : Prop :=
  words m a (if user_mode (cs f) then frame_words f else kernel_words f).

Definition regs_ok (r : regs) : Prop :=
  is_selector (r_gs r) ∧ is_selector (r_fs r) ∧ is_selector (r_es r) ∧ is_selector (r_ds r) ∧ is_selector (r_cs r) ∧ is_selector (r_ss r).

(** The stub of a vector after the processor has taken the interrupt. *)
Lemma stub_ok c n esp0 addr gate vec error :
  room (interrupt_stack esp0 (rs c)) n (mem c) → (21 ≤ n)%nat → (stub_types vec = REAL ↔ is_Some error) →
  let f := saved (rs c) vec error (interrupt_stack esp0 (rs c) - (if user_mode (r_cs (rs c)) then 48 else 40)) in
  let a := interrupt_stack esp0 (rs c) - (if user_mode (r_cs (rs c)) then 80 else 72) in
  ∃ c', (take_interrupt esp0 addr gate error ;;; stub vec) c = Ok (a, c') ∧
    stack (interrupt_stack esp0 (rs c)) n (mem c) (a :: if user_mode (cs f) then frame_words f else kernel_words f) c' ∧
    get CS (rs c') = SEL_KCSEG ∧ get DS (rs c') = SEL_KDSEG ∧ get ES (rs c') = SEL_KDSEG ∧
    get SS (rs c') = (if user_mode (r_cs (rs c)) then SEL_KDSEG else r_ss (rs c)) ∧
    get EFLAGS (rs c') = Z.ldiff (if gate then Z.ldiff (r_eflags (rs c)) FLAG_IF else r_eflags (rs c)) FLAG_DF.
Proof.
  intros Hroom Hn Herr f a. destruct (take_interrupt_ok c n esp0 addr gate error Hroom ltac:(lia)) as (c1 & E1 & Hs1 & Hcs & _ & Hfl & Hss & Hr1).
  rewrite (bindS_Ok _ _ _ _ _ E1). set (top := interrupt_stack esp0 (rs c)) in *. unfold stub.
  set (l := [r_eip (rs c); r_cs (rs c); r_eflags (rs c)] ++ if user_mode (r_cs (rs c)) then [r_esp (rs c); r_ss (rs c)] else []).
  assert (length l = if user_mode (r_cs (rs c)) then 5 else 3)%nat as Hlen by (unfold l; by destruct (user_mode _)).
  assert (length l ≤ 5)%nat as Hlen5 by (rewrite Hlen; destruct (user_mode _); lia).
  assert (pushed_by_cpu (rs c) error = match stub_types vec with REAL => default 0 error :: l | zero => l end) as El.
  { unfold pushed_by_cpu. fold l. destruct error as [e|], (stub_types vec) eqn:Et; try done; exfalso; naive_solver. }
  rewrite El in Hs1. destruct (push_error_ok top n (mem c) (stub_types vec) (default 0 error) l c1 Hs1 ltac:(lia)) as (c2 & E2 & Hs2 & Hr2). rewrite (bindS_Ok _ _ _ _ _ E2).
  assert (match stub_types vec with REAL => default 0 error | zero => 0 end = default 0 error) as Ee.
  { destruct error as [e|], (stub_types vec) eqn:Et; try done; exfalso; naive_solver. }
  rewrite Ee, (Hr1 EBP) in Hs2 by (apply list_elem_of_lookup; by exists 4%nat).
  destruct (pushed top n (mem c) (default 0 error :: get EBP (rs c) :: l) c2 vec Hs2 ltac:(cbn [length]; lia)) as (c3 & E3 & Hs3 & Hr3). rewrite (bindS_Ok _ _ _ _ _ E3).
  destruct (intr_entry_ok top n (mem c) (vec :: default 0 error :: get EBP (rs c) :: l) c3 Hs3 ltac:(cbn [length]; lia)) as (c4 & E4 & Hs4 & Hds & Hes & Hfl4 & Hr4). cbn [length] in E4, Hs4.
  assert (top - 4 * Z.of_nat (S (S (S (length l))) + 12) = a) as Ea by (unfold a; rewrite Hlen; destruct (user_mode _); lia). rewrite Ea in E4, Hs4.
  assert (saved_regs top (rs c3) (vec :: default 0 error :: get EBP (rs c) :: l) = if user_mode (cs f) then frame_words f else kernel_words f) as Ew.
  { assert (∀ r, r ∈ [EAX; ECX; EDX; EBX; EBP; ESI; EDI; DS; ES; FS; GS] → get r (rs c3) = get r (rs c)) as Hr.
    { intros r Hr. assert (r ≠ ESP) by (intros ->; by repeat (apply elem_of_cons in Hr as [?|Hr]; [done|]); apply not_elem_of_nil in Hr). by rewrite Hr3, Hr2, Hr1. }
    unfold saved_regs. rewrite (Hr EDI), (Hr ESI), (Hr EBP), (Hr EBX), (Hr EDX), (Hr ECX), (Hr EAX), (Hr GS), (Hr FS), (Hr ES), (Hr DS) by set_solver.
    cbn [length]. unfold f, l, frame_words, kernel_words, saved. cbn [cs]. rewrite Hlen in *. clear. destruct (user_mode (r_cs (rs c))); cbn; repeat f_equal; lia. }
  rewrite Ew in Hs4. exists c4. assert (∀ r, r ∈ [SS; CS] → get r (rs c4) = get r (rs c1)) as Hr.
  { intros r Hr. rewrite Hr4 by done. assert (r ≠ ESP) by (intros ->; by repeat (apply elem_of_cons in Hr as [?|Hr]; [done|]); apply not_elem_of_nil in Hr). by rewrite Hr3, Hr2. }
  split_and!; [exact E4|exact Hs4|by rewrite Hr by set_solver|done|done|by rewrite Hr by set_solver|]. by rewrite Hfl4, Hr3, Hr2, Hfl.
Qed.

(** What holds when [intr_handler] is called: the frame is that of the interrupted code, and the code
    goes on with the frame that is left. *)
Definition saves_and_resumes c n esp0 gate vec error a dummy c' : Prop :=
  frame_in_memory (mem c') a (saved (rs c) vec error dummy) ∧
  get CS (rs c') = SEL_KCSEG ∧ get DS (rs c') = SEL_KDSEG ∧ get ES (rs c') = SEL_KDSEG ∧
  get EFLAGS (rs c') = Z.ldiff (if gate : bool then Z.ldiff (r_eflags (rs c)) FLAG_IF else r_eflags (rs c)) FLAG_DF ∧
  mem c' !! get ESP (rs c') = Some a ∧
  (∀ x, ¬ (interrupt_stack esp0 (rs c) - 4 * Z.of_nat n ≤ x < interrupt_stack esp0 (rs c)) → mem c' !! x = mem c !! x) ∧
  ∀ c2 f, get ESP (rs c2) = get ESP (rs c') → get SS (rs c2) = get SS (rs c') → selectors f → user_mode (cs f) = user_mode (r_cs (rs c)) → frame_in_memory (mem c2) a f →
    intr_return c2 = Ok (tt, Cpu (resumed a (get SS (rs c2)) f) (mem c2)) ∧
    (f = saved (rs c) vec error dummy → resumed a (get SS (rs c2)) f = rs c).

Lemma stub_resumes c n esp0 addr gate vec error :
  room (interrupt_stack esp0 (rs c)) n (mem c) → (21 ≤ n)%nat → regs_ok (rs c) → (stub_types vec = REAL ↔ is_Some error) →
  ∃ a dummy c', (take_interrupt esp0 addr gate error ;;; stub vec) c = Ok (a, c') ∧ saves_and_resumes c n esp0 gate vec error a dummy c'.
Proof.
  intros Hroom Hn Hregs Herr. destruct (stub_ok c n esp0 addr gate vec error Hroom Hn Herr) as (c' & E & Hs & Hcs & Hds & Hes & Hss & Hfl).
  set (top := interrupt_stack esp0 (rs c)) in *. set (f0 := saved _ _ _ _) in Hs. set (a := top - (if user_mode (r_cs (rs c)) then 80 else 72)) in *.
  destruct Hs as [He Hw _ Hr Ha _ Hrest]. assert (get ESP (rs c') = a - 4) as Ee.
  { rewrite He. cbn [length]. unfold f0, saved, frame_words, a. cbn [cs]. destruct (user_mode (r_cs (rs c))); cbn -[Z.mul Z.sub]; lia. }
  apply words_at_cons in Hw as [Hw0 Hw]. rewrite Ee in Hw. replace (a - 4 + 4) with a in Hw by lia.
  exists a, (top - (if user_mode (r_cs (rs c)) then 48 else 40)), c'. split; [done|]. unfold saves_and_resumes. split_and!; [exact Hw|done|done|done|done|done|done|].
  intros c2 f He2 Hs2 Hsel Hum Hf. assert (0 ≤ a ∧ a < WORD ∧ a + (if user_mode (cs f) then 80 else 72) < WORD ∧ a mod 4 = 0) as (Ha0 & Hlt & Ha1 & Ha2).
  { rewrite Hum. unfold a in *. destruct (user_mode (r_cs (rs c))); split_and!; try lia; [exact (aligned_below top 20 Ha)|exact (aligned_below top 18 Ha)]. }
  split.
  - unfold intr_return. rewrite (bindS_Ok (addl_esp 4) _ c2 tt (Cpu (set ESP a (rs c2)) (mem c2))).
    2:{ unfold addl_esp, rget, rset, bindS. rewrite He2, Ee, u32_small by (unfold is_u32; lia). by replace (a - 4 + 4) with a by lia. }
    rewrite (intr_exit_ok _ a f); cbn [rs mem]; [by rewrite get_set_ESP|by destruct (rs c2)|done..].
  - intros ->. rewrite Hs2, Hss. unfold resumed, a, top, interrupt_stack, saved in *. cbn -[Z.sub]. destruct (user_mode (r_cs (rs c))); destruct (rs c); cbn -[Z.sub]; [done|f_equal; lia].
Qed.

(** The exception of the stack segment, vector 12, has an error code, but its stub is of the kind
    for those without: the frame has the error code as the address of the faulting instruction,
    and the address as the selector of its segment. *)
Lemma stack_fault_misread c n esp0 addr gate e :
  room (interrupt_stack esp0 (rs c)) n (mem c) → (24 ≤ n)%nat → user_mode (r_cs (rs c)) = true →
  ∃ a f c', (take_interrupt esp0 addr gate (Some e) ;;; stub 12) c = Ok (a, c') ∧ words (mem c') a (kernel_words f) ∧
    error_code f = 0 ∧ eip f = e ∧ cs f = r_eip (rs c) ∧ eflags f = r_cs (rs c).
Proof.
  intros Hroom Hn Hu. destruct (take_interrupt_ok c n esp0 addr gate (Some e) Hroom ltac:(lia)) as (c1 & E1 & Hs1 & _ & _ & _ & _ & Hr1).
  rewrite (bindS_Ok _ _ _ _ _ E1). set (top := interrupt_stack esp0 (rs c)) in *. unfold stub. change (stub_types 12) with zero.
  assert (length (pushed_by_cpu (rs c) (Some e)) = 6%nat) as Hlen by (unfold pushed_by_cpu; by rewrite Hu).
  set (l := pushed_by_cpu (rs c) (Some e)) in *. set (l3 := 12 :: 0 :: get EBP (rs c1) :: l).
  destruct (push_error_ok top n (mem c) zero 0 l c1 Hs1 ltac:(lia)) as (c2 & E2 & Hs2 & Hr2). rewrite (bindS_Ok _ _ _ _ _ E2).
  destruct (pushed top n (mem c) (0 :: get EBP (rs c1) :: l) c2 12 Hs2 ltac:(cbn [length]; lia)) as (c3 & E3 & Hs3 & Hr3). rewrite (bindS_Ok _ _ _ _ _ E3).
  destruct (intr_entry_ok top n (mem c) l3 c3 Hs3 ltac:(unfold l3; cbn [length]; lia)) as (c4 & E4 & Hs4 & _). rewrite E4.
  pose proof (sk_words _ _ _ _ _ Hs4) as Hw. apply words_at_cons in Hw as [_ Hw]. rewrite (sk_esp _ _ _ _ _ Hs4) in Hw.
  set (r := rs c3) in *. set (a := top - 4 * Z.of_nat (length l3 + 12)) in *.
  exists a, (Frame (get EDI r) (get ESI r) (get EBP r) (top - 4 * Z.of_nat (length l3 + 4)) (get EBX r) (get EDX r) (get ECX r) (get EAX r)
    (get GS r) (get FS r) (get ES r) (get DS r) 12 0 (get EBP (rs c1)) e (r_eip (rs c)) (r_cs (rs c)) 0 0), c4. split_and!; try done.
  replace (top - 4 * Z.of_nat (length (a :: saved_regs top r l3)) + 4) with a in Hw by (unfold a, saved_regs; cbn [length]; lia).
  assert (l = [e; r_eip (rs c); r_cs (rs c); r_eflags (rs c); r_esp (rs c); r_ss (rs c)]) as El by (unfold l, pushed_by_cpu; by rewrite Hu).
  unfold saved_regs, l3 in Hw. rewrite El in Hw. apply (words_app _ _ (kernel_words _) [r_eflags (rs c); r_esp (rs c); r_ss (rs c)]). unfold l3. rewrite El. exact Hw.
Qed.

(** The exceptions for which the processor pushes an error code, and the vectors that it raises: the
    exceptions up to 19, and the interrupts of the devices and of INT from 32 on. *)
Definition has_error_code (vec : Z) : bool := bool_decide (vec ∈ [8; 10; 11; 12; 13; 14; 17]).
Definition raised (vec : Z) : Prop := 0 ≤ vec < 20 ∨ 32 ≤ vec < 256.
Definition processor_error (vec e : Z) : option Z := if has_error_code vec then Some e else None.

(** The table of stubs agrees with the processor, but for one vector. *)
Lemma stub_types_agree vec e : raised vec → vec ≠ 12 → stub_types vec = REAL ↔ is_Some (processor_error vec e).
Proof.
  intros Hr Hne. assert (forallb (λ v, bool_decide (v = 12) || Bool.eqb (bool_decide (v ∈ [0x08; 0x0a; 0x0b; 0x0d; 0x0e; 0x11; 0x18; 0x1a; 0x1b; 0x1d; 0x1e])) (has_error_code v))
    (seqZ 0 20 ++ seqZ 32 224) = true) as Hall by (vm_compute; reflexivity). rewrite forallb_forall in Hall.
  specialize (Hall vec). rewrite orb_true_iff, bool_decide_eq_true in Hall. destruct Hall as [?|E]; [|done|].
  { apply list_elem_of_In, elem_of_app. rewrite !elem_of_seqZ. unfold raised in Hr. lia. }
  apply Bool.eqb_prop in E. unfold stub_types, processor_error. rewrite E. destruct (has_error_code vec); split; try done; by intros [].
Qed.

(** C14. Whatever code an interrupt stops, of a user program or of the kernel, and for every vector
    that the processor raises but 12, the stub of the vector leaves on the kernel's stack a [struct
    intr_frame] with the registers of that code, the vector and the error code of the processor, or 0
    where it has none, calls [intr_handler] with its address on the kernel's segments, with string
    instructions going upward, and changes no other memory. When [intr_handler] returns, the code goes
    on with the registers that the frame then has: with exactly its own if the frame is as it was. The
    stub of vector 12, the stack fault, is of the wrong kind: from a user program it leaves a frame in
    which the error code is the address of the instruction and that address is the code segment. *)
Theorem interrupt_saves_and_resumes c n esp0 addr gate vec e :
  room (interrupt_stack esp0 (rs c)) n (mem c) → (21 ≤ n)%nat → regs_ok (rs c) → raised vec →
  (vec ≠ 12 → ∃ a dummy c', (take_interrupt esp0 addr gate (processor_error vec e) ;;; stub vec) c = Ok (a, c') ∧
     saves_and_resumes c n esp0 gate vec (processor_error vec e) a dummy c') ∧
  (vec = 12 → user_mode (r_cs (rs c)) = true → (24 ≤ n)%nat →
     ∃ a f c', (take_interrupt esp0 addr gate (processor_error vec e) ;;; stub vec) c = Ok (a, c') ∧ words (mem c') a (kernel_words f) ∧
       error_code f = 0 ∧ eip f = e ∧ cs f = r_eip (rs c) ∧ eflags f = r_cs (rs c)).
Proof.
  intros Hroom Hn Hregs Hr. split.
  - intros Hne. apply stub_resumes; [done..|]. by apply stub_types_agree.
  - intros -> Hu Hn'. by eapply stack_fault_misread.
Qed.

(** ** Switching threads *)

(** What a function call has to preserve, and where it returns to. *)
Record callee := Callee { k_edi : Z; k_esi : Z; k_ebp : Z; k_ebx : Z; k_eip : Z; k_esp : Z }.

Definition running (r : regs) : callee := Callee (r_edi r) (r_esi r) (r_ebp r) (r_ebx r) (r_eip r) (r_esp r).

(** The thread at [t] is in [switch_threads]. *)
Record context (ofs : Z) (m : gmap Z Z) (t : Z) (k : callee) : Prop := {
  cx_range : 0 ≤ t + ofs < WORD;
  cx_aligned : (t + ofs) mod 4 = 0;
  cx_stack : m !! (t + ofs) = Some (k_esp k - 20);
  cx_words : words m (k_esp k - 20) [k_edi k; k_esi k; k_ebp k; k_ebx k; k_eip k];
  cx_esp : 20 ≤ k_esp k < WORD ∧ k_esp k mod 4 = 0;
}.

(** The registers after the return of [switch_threads]. *)
Definition switched_regs (ofs cur next : Z) (k : callee) (r : regs) : regs :=
  Regs cur next ofs (k_ebx k) (k_esp k) (k_ebp k) (k_esi k) (k_edi k) (r_ds r) (r_es r) (r_fs r) (r_gs r) (r_ss r) (r_cs r) (k_eip k) (r_eflags r).

Lemma load_word_ok c a v : a mod 4 = 0 → mem c !! a = Some v → load a c = Ok (v, c).
Proof. intros Ha Hv. unfold load, liftS. by rewrite Ha, Hv. Qed.

Lemma store_word_ok c a v : a mod 4 = 0 → is_Some (mem c !! a) → store a v c = Ok (tt, Cpu (rs c) (<[a := v]> (mem c))).
Proof. intros Ha Hv. unfold store. by rewrite Ha, bool_decide_eq_true_2. Qed.

(** The first half of [switch_threads] saves the registers. *)
Lemma switch_save c p cur next ip :
  get ESP (rs c) = p → room p 4 (mem c) → words (mem c) p [ip; cur; next] →
  ∃ m1, (∀ A (k : ST cpu A), (pushl EBX ;;; pushl EBP ;;; pushl ESI ;;; pushl EDI ;;; k) c = k (Cpu (set ESP (p - 16) (rs c)) m1)) ∧
    words m1 (p - 16) [r_edi (rs c); r_esi (rs c); r_ebp (rs c); r_ebx (rs c); ip; cur; next] ∧ (∀ x, ¬ (p - 16 ≤ x < p) → m1 !! x = mem c !! x).
Proof.
  intros He Hroom Hw. destruct (push_word_ok p 4 (mem c) [] c (get EBX (rs c)) (room_stack p 4 c Hroom He) ltac:(cbn; lia)) as (c1 & E1 & Hs1 & Hr1).
  destruct (push_word_ok p 4 (mem c) _ c1 (get EBP (rs c1)) Hs1 ltac:(cbn; lia)) as (c2 & E2 & Hs2 & Hr2).
  destruct (push_word_ok p 4 (mem c) _ c2 (get ESI (rs c2)) Hs2 ltac:(cbn; lia)) as (c3 & E3 & Hs3 & Hr3).
  destruct (push_word_ok p 4 (mem c) _ c3 (get EDI (rs c3)) Hs3 ltac:(cbn; lia)) as (c4 & E4 & Hs4 & Hr4).
  assert (rs c4 = set ESP (p - 16) (rs c)) as Er by (rewrite Hr4, Hr3, Hr2, Hr1; by destruct (rs c)).
  exists (mem c4). split_and!.
  - intros A k. change (pushl EBX c = Ok (tt, c1)) in E1. change (pushl EBP c1 = Ok (tt, c2)) in E2. change (pushl ESI c2 = Ok (tt, c3)) in E3. change (pushl EDI c3 = Ok (tt, c4)) in E4.
    rewrite (bindS_Ok _ _ _ _ _ E1), (bindS_Ok _ _ _ _ _ E2), (bindS_Ok _ _ _ _ _ E3), (bindS_Ok _ _ _ _ _ E4). f_equal. destruct c4. cbn in *. by rewrite Er.
  - pose proof (sk_words _ _ _ _ _ Hs4) as Hw4. rewrite (sk_esp _ _ _ _ _ Hs4) in Hw4. cbn [length] in Hw4. replace (p - 4 * Z.of_nat 4) with (p - 16) in Hw4 by lia.
    rewrite Hr3, Hr2, Hr1 in Hw4. apply (words_app _ _ [_; _; _; _] [ip; cur; next]). split; [by destruct (rs c)|]. cbn [length].
    replace (p - 16 + 4 * Z.of_nat 4) with p by lia. apply (words_frame (mem c)); [|done]. intros x Hx. cbn [length] in Hx. apply (sk_rest _ _ _ _ _ Hs4). lia.
  - intros x Hx. apply (sk_rest _ _ _ _ _ Hs4). lia.
Qed.

(** What the two threads of a switch do not share. *)
Record apart (ofs p cur next : Z) (k : callee) : Prop := {
  ap_threads : cur ≠ next;
  ap_cur : ¬ (p - 16 ≤ cur + ofs < p + 12);
  ap_next : ¬ (p - 16 ≤ next + ofs < p);
  ap_stack : k_esp k ≤ p - 16 ∨ p ≤ k_esp k - 20;
  ap_field : ¬ (k_esp k - 20 ≤ cur + ofs < k_esp k);
}.

Lemma u32_id x : 0 ≤ x < WORD → u32 x = x.
Proof. apply u32_small. Qed.

(** Runs an instruction that only uses registers. *)
Ltac go := eapply eq_trans; [eapply bindS_Ok; reflexivity|cbn [set rs mem get r_esp r_eax r_ecx]].

(** C17. [switch_threads], called with [cur] and [next], when [next] has left the processor in a
    call of it: the code of [next] goes on after its call, with its stack and the registers that
    a call preserves, and gets [cur] as the result; the context of [cur] is where a later switch
    to it finds it, to go on after this call; nothing else is changed. *)
Theorem switch_threads_switches ofs c p cur next ip k :
  get ESP (rs c) = p → room p 4 (mem c) → p + 12 < WORD → words (mem c) p [ip; cur; next] →
  0 ≤ cur + ofs < WORD → (cur + ofs) mod 4 = 0 → is_Some (mem c !! (cur + ofs)) → context ofs (mem c) next k → apart ofs p cur next k →
  ∃ m', switch_threads ofs c = Ok (tt, Cpu (switched_regs ofs cur next k (rs c)) m') ∧
    running (switched_regs ofs cur next k (rs c)) = k ∧ get EAX (switched_regs ofs cur next k (rs c)) = cur ∧
    context ofs m' cur (Callee (r_edi (rs c)) (r_esi (rs c)) (r_ebp (rs c)) (r_ebx (rs c)) ip (p + 4)) ∧
    ∀ x, ¬ (p - 16 ≤ x < p) → x ≠ cur + ofs → m' !! x = mem c !! x.
Proof.
  intros He Hroom Hp Hw Hcr Hca Hcm [Hnr Hna Hns Hnw [Hsp Hspa]] [Hne Hac Han Has Haf]. destruct (switch_save c p cur next ip He Hroom Hw) as (m1 & E1 & Hw1 & Hm1).
  destruct Hroom as [Hr Ha _]. unfold switch_threads. rewrite E1. clear E1. set (m2 := <[cur + ofs := p - 16]> m1). exists m2.
  assert (∀ i v, [r_edi (rs c); r_esi (rs c); r_ebp (rs c); r_ebx (rs c); ip; cur; next] !! i = Some v → load (u32 (p - 16 + 4 * Z.of_nat i)) = load (p - 16 + 4 * Z.of_nat i) ∧
    (p - 16 + 4 * Z.of_nat i) mod 4 = 0) as Hal.
  { intros i v Hi%lookup_lt_Some. cbn [length] in Hi. split; [f_equal; apply u32_id; lia|]. replace (p - 16 + 4 * Z.of_nat i) with (p - 4 * (4 - Z.of_nat i)) by lia. by apply aligned_below. }
  assert (words m2 (p - 16) [r_edi (rs c); r_esi (rs c); r_ebp (rs c); r_ebx (rs c); ip; cur; next]) as Hw2.
  { apply (words_frame m1); [|done]. intros x Hx. cbn [length] in Hx. unfold m2. rewrite lookup_insert_ne by lia. done. }
  assert (∀ x, ¬ (p - 16 ≤ x < p) → x ≠ cur + ofs → m2 !! x = mem c !! x) as Hm2.
  { intros x Hx Hx'. unfold m2. rewrite lookup_insert_ne by done. by apply Hm1. }
  split_and!; [|by destruct k|done| |done].
  2:{ split; cbn; [done|done|unfold m2; rewrite lookup_insert_eq; f_equal; lia| |].
      - replace (p + 4 - 20) with (p - 16) by lia. by apply (words_app _ _ [_; _; _; _; _] [cur; next]) in Hw2 as [Hw2 _].
      - split; [lia|]. rewrite Zplus_mod, Ha. done. }
  destruct c as [[ax cx dx bx sp bp si di ds es fs gs ss cs ip0 fl] m]. cbn [rs mem set get r_edi r_esi r_ebp r_ebx r_esp] in *. subst sp.
  go. go.
  assert (load (u32 (p - 16 + SWITCH_CUR)) = load (p - 16 + 4 * Z.of_nat 5) ∧ load (u32 (p - 16 + SWITCH_NEXT)) = load (p - 16 + 4 * Z.of_nat 6)) as [-> E6].
  { split; [by apply (Hal 5%nat cur)|by apply (Hal 6%nat next)]. }
  rewrite (bindS_Ok _ _ _ _ _ (load_word_ok (Cpu _ m1) _ cur (proj2 (Hal 5%nat cur eq_refl)) (Hw1 5%nat cur eq_refl))). go. go. go. rewrite u32_id by done.
  rewrite (bindS_Ok _ _ _ _ _ (store_word_ok (Cpu _ m1) (cur + ofs) (p - 16) Hca ltac:(cbn [mem]; rewrite Hm1 by lia; done))). cbn [rs mem]. fold m2. go. rewrite E6.
  rewrite (bindS_Ok _ _ _ _ _ (load_word_ok (Cpu _ m2) _ next (proj2 (Hal 6%nat next eq_refl)) (Hw2 6%nat next eq_refl))). go. go. rewrite u32_id by done.
  rewrite (bindS_Ok _ _ _ _ _ (load_word_ok (Cpu _ m2) (next + ofs) (k_esp k - 20) Hna ltac:(cbn [mem]; rewrite Hm2 by lia; done))). go.
  assert (words m2 (k_esp k - 20) [k_edi k; k_esi k; k_ebp k; k_ebx k; k_eip k]) as Hk.
  { apply (words_frame m); [|done]. intros x Hx. cbn [length] in Hx. apply Hm2; lia. }
  assert ((k_esp k - 20) mod 4 = 0) as Hka by exact (aligned_below (k_esp k) 5 Hspa). assert (0 ≤ k_esp k - 20) as Hk0 by lia.
  assert (k_esp k - 20 + 4 * Z.of_nat (length [k_edi k; k_esi k; k_ebp k; k_ebx k; k_eip k]) < WORD) as Hkl by (cbn [length]; lia).
  pose proof (λ r i v c, popl_at m2 (k_esp k - 20) _ Hk Hka Hk0 Hkl r i v c) as Hpop.
  step (Hpop EDI 0%nat (k_edi k)). step (Hpop ESI 1%nat (k_esi k)). step (Hpop EBP 2%nat (k_ebp k)). step (Hpop EBX 3%nat (k_ebx k)).
  unfold ret. rewrite (Hpop EIP 4%nat (k_eip k)) by done. cbn [set rs mem]. unfold switched_regs. cbn. do 4 f_equal. lia.
Qed.

(** The first frames of a thread. *)
Record fresh_page (ofs t : Z) (m : gmap Z Z) : Prop := {
  fp_aligned : t mod 4096 = 0;
  fp_range : 0 < t ∧ t + 4096 < WORD;
  fp_ofs : 0 ≤ ofs ∧ ofs + 4 ≤ 4096 - 44 ∧ ofs mod 4 = 0;
  fp_stack : m !! (t + ofs) = Some (t + 4096);
  fp_zero : ∀ i, (i < 11)%nat → m !! (t + 4096 - 44 + 4 * Z.of_nat i) = Some 0;
}.

Lemma words_insert m a l i v : words m a l → (i < length l)%nat → words (<[a + 4 * Z.of_nat i := v]> m) a (<[i := v]> l).
Proof.
  intros Hw Hi j w Hj. destruct (decide (i = j)) as [->|Hne].
  - rewrite list_lookup_insert_eq in Hj by done. injection Hj as <-. by rewrite lookup_insert_eq.
  - rewrite list_lookup_insert_ne in Hj by done. rewrite lookup_insert_ne by lia. by apply Hw.
Qed.

(** The state while the frames of thread [t] are written: its stack pointer and the last words of
    its page. *)
Record framing (ofs t : Z) (c0 : cpu) (sp : Z) (l : list Z) (c : cpu) : Prop := {
  fr_rs : rs c = rs c0;
  fr_stack : mem c !! (t + ofs) = Some sp;
  fr_len : length l = 11%nat;
  fr_words : words (mem c) (t + 4096 - 44) l;
  fr_rest : ∀ x, ¬ (t + 4096 - 44 ≤ x < t + 4096) → x ≠ t + ofs → mem c !! x = mem c0 !! x;
}.

Section frames.
Context (ofs t : Z) (c0 : cpu) (Ht : t mod 4096 = 0) (Hr : 0 < t ∧ t + 4096 < WORD) (Ho : 0 ≤ ofs ∧ ofs + 4 ≤ 4096 - 44 ∧ ofs mod 4 = 0).

Lemma page_aligned k : (t + 4 * k) mod 4 = 0.
Proof using Ht. apply Z.mod_divide in Ht as [q Hq]; [|done]. apply Z.mod_divide; [done|]. exists (q * 1024 + k). lia. Qed.

Lemma field_aligned : (t + ofs) mod 4 = 0.
Proof using Ht Ho. destruct Ho as (_ & _ & H). apply Z.mod_divide in H as [q Hq]; [|done]. rewrite Hq, (Z.mul_comm q). apply page_aligned. Qed.

Lemma alloc_frame_ok sp l c size :
  framing ofs t c0 sp l c → size mod 4 = 0 → 0 ≤ sp - size < WORD →
  ∃ c', alloc_frame ofs t size c = Ok (sp - size, c') ∧ framing ofs t c0 (sp - size) l c'.
Proof using Ht Hr Ho.
  intros [H1 H2 H3 H4 H5] Hs Hsz. unfold alloc_frame. rewrite (bindS_Ok _ _ c tt c) by (unfold assertS; by rewrite Hs).
  rewrite (u32_id (t + ofs)) by lia. rewrite (bindS_Ok _ _ _ _ _ (load_word_ok c _ _ field_aligned H2)).
  rewrite (u32_id (sp - size)) by lia. rewrite (bindS_Ok _ _ _ _ _ (store_word_ok c (t + ofs) (sp - size) field_aligned ltac:(by eexists))).
  eexists. split; [reflexivity|]. split; cbn [rs mem]; try done; [by rewrite lookup_insert_eq| |].
  - apply (words_frame (mem c)); [|done]. intros x Hx. rewrite lookup_insert_ne by lia. done.
  - intros x Hx Hx'. rewrite lookup_insert_ne by done. by apply H5.
Qed.

Lemma store_frame_ok sp l c i a v :
  framing ofs t c0 sp l c → a = t + 4096 - 44 + 4 * Z.of_nat i → (i < 11)%nat → ∃ c', store a v c = Ok (tt, c') ∧ framing ofs t c0 sp (<[i := v]> l) c'.
Proof using Ht Hr Ho.
  intros [H1 H2 H3 H4 H5] -> Hi. destruct (lookup_lt_is_Some_2 l i ltac:(lia)) as [w Hw].
  rewrite (store_word_ok c).
  - eexists. split; [reflexivity|]. split; cbn [rs mem]; try done.
    + rewrite lookup_insert_ne by lia. done.
    + by rewrite length_insert.
    + by apply words_insert; [|lia].
    + intros x Hx Hx'. rewrite lookup_insert_ne by lia. by apply H5.
  - replace (t + 4096 - 44 + 4 * Z.of_nat i) with (t + 4 * (1013 + Z.of_nat i)) by lia. apply page_aligned.
  - rewrite (H4 i w Hw). by eexists.
Qed.

Lemma create_frames_ok kernel_thread switch_entry function aux :
  mem c0 !! (t + ofs) = Some (t + 4096) → words (mem c0) (t + 4096 - 44) (replicate 11 0) →
  ∃ c', create_frames ofs t kernel_thread switch_entry function aux c0 = Ok (tt, c') ∧
    framing ofs t c0 (t + 4096 - 44) [0; 0; 0; 0; switch_entry; 0; 0; kernel_thread; NULL; function; aux] c'.
Proof using Ht Hr Ho.
  intros Hs Hz. assert (framing ofs t c0 (t + 4096) (replicate 11 0) c0) as F0 by by split. unfold create_frames.
  destruct (alloc_frame_ok _ _ _ 12 F0 eq_refl ltac:(lia)) as (c1 & E1 & F1). rewrite (bindS_Ok _ _ _ _ _ E1).
  destruct (store_frame_ok _ _ _ 8 (t + 4096 - 12) NULL F1 ltac:(lia) ltac:(lia)) as (c2 & E2 & F2). rewrite (bindS_Ok _ _ _ _ _ E2).
  destruct (store_frame_ok _ _ _ 9 (t + 4096 - 12 + 4) function F2 ltac:(lia) ltac:(lia)) as (c3 & E3 & F3). rewrite (bindS_Ok _ _ _ _ _ E3).
  destruct (store_frame_ok _ _ _ 10 (t + 4096 - 12 + 8) aux F3 ltac:(lia) ltac:(lia)) as (c4 & E4 & F4). rewrite (bindS_Ok _ _ _ _ _ E4).
  destruct (alloc_frame_ok _ _ _ 4 F4 eq_refl ltac:(lia)) as (c5 & E5 & F5). rewrite (bindS_Ok _ _ _ _ _ E5).
  destruct (store_frame_ok _ _ _ 7 (t + 4096 - 12 - 4) kernel_thread F5 ltac:(lia) ltac:(lia)) as (c6 & E6 & F6). rewrite (bindS_Ok _ _ _ _ _ E6).
  destruct (alloc_frame_ok _ _ _ 28 F6 eq_refl ltac:(lia)) as (c7 & E7 & F7). rewrite (bindS_Ok _ _ _ _ _ E7).
  destruct (store_frame_ok _ _ _ 4 (t + 4096 - 12 - 4 - 28 + 16) switch_entry F7 ltac:(lia) ltac:(lia)) as (c8 & E8 & F8). rewrite (bindS_Ok _ _ _ _ _ E8).
  destruct (store_frame_ok _ _ _ 2 (t + 4096 - 12 - 4 - 28 + 8) 0 F8 ltac:(lia) ltac:(lia)) as (c9 & E9 & F9). exists c9. split; [exact E9|].
  by replace (t + 4096 - 12 - 4 - 28) with (t + 4096 - 44) in F9 by lia.
Qed.

End frames.

(** C18. The frames that [thread_create] writes in the page of a new thread are a context that
    [switch_threads] can switch to. When it has, [switch_entry] calls [thread_schedule_tail] with
    the thread that ran before, and after it starts [kernel_thread] with the function and its
    argument, no return address, and the end of the chain of stack frames in EBP. *)
Theorem new_thread_starts ofs t c kernel_thread switch_entry function aux :
  fresh_page ofs t (mem c) →
  ∃ c1, create_frames ofs t kernel_thread switch_entry function aux c = Ok (tt, c1) ∧ rs c1 = rs c ∧
    (∀ x, ¬ (t + 4096 - 44 ≤ x < t + 4096) → x ≠ t + ofs → mem c1 !! x = mem c !! x) ∧
    context ofs (mem c1) t (Callee 0 0 0 0 switch_entry (t + 4096 - 24)) ∧
    ∀ c2, get ESP (rs c2) = t + 4096 - 24 → get EBP (rs c2) = 0 → (∀ x, t + 4096 - 24 ≤ x < t + 4096 → mem c2 !! x = mem c1 !! x) →
    ∃ c3, switch_entry_call c2 = Ok (get EAX (rs c2), c3) ∧ mem c3 !! get ESP (rs c3) = Some (get EAX (rs c2)) ∧
    ∀ c4, get ESP (rs c4) = get ESP (rs c3) → get EBP (rs c4) = get EBP (rs c3) → (∀ x, t + 4096 - 16 ≤ x < t + 4096 → mem c4 !! x = mem c3 !! x) →
    ∃ c5, switch_entry_start c4 = Ok (tt, c5) ∧ get EIP (rs c5) = kernel_thread ∧ get EBP (rs c5) = 0 ∧ words (mem c5) (get ESP (rs c5)) [NULL; function; aux].
Proof.
  intros [Ht Hr Ho Hs Hz]. assert (words (mem c) (t + 4096 - 44) (replicate 11 0)) as Hz'.
  { intros i w [-> Hi]%lookup_replicate. by apply Hz. }
  destruct (create_frames_ok ofs t c Ht Hr Ho kernel_thread switch_entry function aux Hs Hz') as (c1 & E1 & [H1 H2 _ H4 H5]). exists c1. split_and!; [done|done|done| |].
  - split; cbn; [lia|by apply field_aligned|rewrite H2; f_equal; lia| |].
    + replace (t + 4096 - 24 - 20) with (t + 4096 - 44) by lia. by apply (words_app _ _ [0; 0; 0; 0; switch_entry]) in H4 as [H4 _].
    + split; [lia|]. replace (t + 4096 - 24) with (t + 4 * 1018) by lia. by apply page_aligned.
  - apply (words_app _ _ [0; 0; 0; 0; switch_entry] [0; 0; kernel_thread; NULL; function; aux]) in H4 as [_ H4]. cbn [length] in H4.
    replace (t + 4096 - 44 + 4 * Z.of_nat 5) with (t + 4096 - 24) in H4 by lia. intros c2 He Hb Hm. set (v := get EAX (rs c2)).
    assert ((t + 4096 - 20) mod 4 = 0) as Ha by (replace (t + 4096 - 20) with (t + 4 * 1019) by lia; by apply page_aligned).
    assert (mem c2 !! (t + 4096 - 20) = Some 0) as Hslot.
    { rewrite Hm by lia. specialize (H4 1%nat 0 eq_refl). by replace (t + 4096 - 24 + 4 * Z.of_nat 1) with (t + 4096 - 20) in H4 by lia. }
    exists (Cpu (set ESP (t + 4096 - 20) (rs c2)) (<[t + 4096 - 20 := v]> (mem c2))). split_and!.
    + unfold switch_entry_call, addl_esp, pushl, push, rget, rset. unfold bindS at 1 2. rewrite He, u32_id by lia. replace (t + 4096 - 24 + 8) with (t + 4096 - 16) by lia.
      unfold bindS at 1 2 3. cbn [rs mem]. rewrite (get_set_ESP EAX) by done. fold v. assert (get ESP (set ESP (t + 4096 - 16) (rs c2)) = t + 4096 - 16) as -> by (by destruct (rs c2)).
      rewrite u32_id by lia. replace (t + 4096 - 16 - 4) with (t + 4096 - 20) by lia. rewrite (bindS_Ok _ _ _ _ _ (store_word_ok (Cpu _ (mem c2)) (t + 4096 - 20) v Ha ltac:(cbn [mem]; rewrite Hslot; by eexists))).
      cbn [rs mem]. unfold bindS. cbn [rs mem]. unfold v. by destruct (rs c2).
    + cbn [rs mem]. assert (get ESP (set ESP (t + 4096 - 20) (rs c2)) = t + 4096 - 20) as -> by (by destruct (rs c2)). by rewrite lookup_insert_eq.
    + intros c4 He4 Hb4 Hm4. assert (get ESP (rs c4) = t + 4096 - 20) as He4' by (rewrite He4; cbn [rs]; by destruct (rs c2)).
      assert (words (mem c4) (t + 4096 - 16) [kernel_thread; NULL; function; aux]) as Hw4.
      { apply (words_app _ _ [0; 0]) in H4 as [_ H4]. cbn [length] in H4. replace (t + 4096 - 24 + 4 * Z.of_nat 2) with (t + 4096 - 16) in H4 by lia.
        apply (words_frame (mem c1)); [|done]. intros x Hx. cbn [length] in Hx. rewrite Hm4 by lia. cbn [mem]. rewrite lookup_insert_ne by lia. apply Hm. lia. }
      assert ((t + 4096 - 16) mod 4 = 0) as Ha4 by (replace (t + 4096 - 16) with (t + 4 * 1020) by lia; by apply page_aligned).
      unfold switch_entry_start. rewrite (bindS_Ok (addl_esp 4) _ c4 tt (Cpu (set ESP (t + 4096 - 16) (rs c4)) (mem c4))).
      2:{ unfold addl_esp, rget, rset, bindS. rewrite He4', u32_id by lia. by replace (t + 4096 - 20 + 4) with (t + 4096 - 16) by lia. }
      unfold ret. rewrite (popl_at (mem c4) (t + 4096 - 16) _ Hw4 Ha4 ltac:(lia) ltac:(cbn [length]; lia) EIP 0%nat kernel_thread); [|done|cbn [rs]; destruct (rs c4); cbn; lia|done].
      cbn [rs mem]. eexists. split; [reflexivity|]. cbn [rs mem]. apply words_at_cons in Hw4 as [_ Hw4]. split_and!; [by destruct (rs c4)| |].
      * transitivity (get EBP (rs c4)); [by destruct (rs c4)|]. rewrite Hb4, <-Hb. cbn [rs]. by destruct (rs c2).
      * assert (∀ y, get ESP (set EIP kernel_thread (set ESP y (set ESP (t + 4096 - 16) (rs c4)))) = y) as -> by (intros; by destruct (rs c4)).
        by replace (t + 4096 - 16 + 4 * Z.of_nat 1) with (t + 4096 - 16 + 4) by lia.
Qed.

(** The first return to user mode: with the entry point and the stack of the program, on its
    segments, with interrupts on, and nothing of the kernel in the other registers. *)
Lemma process_enters_user_mode c a entry stack :
  a mod 4 = 0 → 0 ≤ a → a + 80 < WORD → words (mem c) a (frame_words (initial_frame entry stack)) →
  enter_user a c = Ok (tt, Cpu (Regs 0 0 0 0 stack 0 0 0 SEL_UDSEG SEL_UDSEG SEL_UDSEG SEL_UDSEG SEL_UDSEG SEL_UCSEG entry (FLAG_IF + FLAG_MBS)) (mem c)).
Proof.
  intros Ha H0 Hl Hw. unfold enter_user. rewrite (bindS_Ok (rset ESP a) _ c tt (Cpu (set ESP a (rs c)) (mem c)) eq_refl).
  rewrite (intr_exit_ok _ a (initial_frame entry stack)); [done| |done|done|done| |done]; [cbn [rs]; by destruct (rs c)|]. by split.
Qed.

(** ** A small machine *)

(** [l] in memory from [a] on. *)
Fixpoint words_at (a : Z) (l : list Z) (m : gmap Z Z) : gmap Z Z :=
  match l with [] => m | v :: l => <[a := v]> (words_at (a + 4) l m) end.

Lemma words_at_words a l m : words (words_at a l m) a l.
Proof.
  revert a. induction l as [|v l IH]; intros a; [by intros i w ?|]. apply words_at_cons. cbn [words_at]. rewrite lookup_insert_eq. split; [done|].
  apply (words_frame (words_at (a + 4) l m)); [|apply IH]. intros x Hx. rewrite lookup_insert_ne by lia. done.
Qed.

Definition demo_cpu : cpu :=
  Cpu (Regs 1 2 3 4 3221225440 5 6 7 35 35 35 35 35 27 134512640 514) (words_at (8192 - 4 * 21) (replicate 21 0) ∅).

Lemma demo_room : room (interrupt_stack 8192 (rs demo_cpu)) 21 (mem demo_cpu).
Proof.
  split; [done|done|]. intros k Hk. assert (replicate 21 0 !! (20 - k)%nat = Some 0) as Hl by (apply lookup_replicate_2; lia).
  apply (words_at_words (8192 - 4 * 21) _ ∅) in Hl. exists 0. rewrite <-Hl. change (mem demo_cpu) with (words_at (8192 - 4 * 21) (replicate 21 0) ∅). change (interrupt_stack 8192 (rs demo_cpu)) with 8192.
  f_equal. lia.
Qed.

Lemma interrupt_saves_and_resumes_witness :
  ∃ a dummy c', (take_interrupt 8192 4096 true (Some 6) ;;; stub 14) demo_cpu = Ok (a, c') ∧ frame_in_memory (mem c') a (saved (rs demo_cpu) 14 (Some 6) dummy).
Proof.
  destruct (interrupt_saves_and_resumes demo_cpu 21 8192 4096 true 14 6 demo_room (le_n 21)) as [H _].
  - unfold regs_ok, is_selector. cbn. lia.
  - left. lia.
  - destruct (H ltac:(discriminate)) as (a & dummy & c' & E & Hf & _). exact (ex_intro _ a (ex_intro _ dummy (ex_intro _ c' (conj E Hf)))).
Defined.

(** Thread 4096 calls [switch_threads] to thread 8192, which waits in it. *)
Definition demo_switch : cpu :=
  Cpu (Regs 1 2 3 4 8000 5 6 7 16 16 16 16 16 8 0 2)
    (words_at (4096 + 24) [0] (words_at (8192 + 24) [12000] (words_at 7984 [0; 0; 0; 0; 77; 4096; 8192] (words_at 12000 [10; 11; 12; 13; 99] ∅)))).

Lemma switch_threads_switches_witness :
  ∃ m', switch_threads 24 demo_switch = Ok (tt, Cpu (switched_regs 24 4096 8192 (Callee 10 11 12 13 99 12020) (rs demo_switch)) m') ∧
    context 24 m' 4096 (Callee 7 6 5 4 77 8004).
Proof.
  assert (∀ a l, words (mem demo_switch) a l ↔ Forall2 (λ i w, mem demo_switch !! (a + 4 * Z.of_nat i) = Some w) (seq 0 (length l)) l) as Hwords.
  { intros a l. rewrite Forall2_lookup. split.
    - intros Hw i. destruct (l !! i) as [w|] eqn:Ei; [rewrite lookup_seq_lt by (by eapply lookup_lt_Some); constructor; by apply Hw|].
      rewrite (proj2 (lookup_ge_None _ _)) by (rewrite length_seq; by apply lookup_ge_None). constructor.
    - intros Hf i w Hi. specialize (Hf i). rewrite Hi, lookup_seq_lt in Hf by (by eapply lookup_lt_Some). by inversion Hf. }
  destruct (switch_threads_switches 24 demo_switch 8000 4096 8192 77 (Callee 10 11 12 13 99 12020) eq_refl) as (m' & E & _ & _ & Hc & _).
  - split; [done|done|]. intros k Hk. do 4 (destruct k as [|k]; [by eexists|]). lia.
  - reflexivity.
  - apply Hwords. repeat constructor.
  - done.
  - reflexivity.
  - by eexists.
  - split; [done|done|reflexivity|apply Hwords; repeat constructor|done].
  - split; cbn; lia.
  - exact (ex_intro _ m' (conj E Hc)).
Defined.

(** The page of a new thread. *)
Definition demo_page : cpu := Cpu (rs demo_switch) (words_at (4096 + 24) [8192] (words_at (8192 - 44) (replicate 11 0) ∅)).

Lemma new_thread_starts_witness :
  ∃ c1, create_frames 24 4096 111 222 333 444 demo_page = Ok (tt, c1) ∧ context 24 (mem c1) 4096 (Callee 0 0 0 0 222 8168).
Proof.
  destruct (new_thread_starts 24 4096 demo_page 111 222 333 444) as (c1 & E & _ & _ & Hc & _).
  - split; [done|done|done|done|]. intros i Hi. do 11 (destruct i as [|i]; [reflexivity|]). lia.
  - exact (ex_intro _ c1 (conj E Hc)).
Defined.
