(* ===== verification/Segment.v ===== *)
(** Segments (src/userprog/gdt.c) and the task-state segment (src/userprog/tss.c): the descriptors
    the processor checks when a program loads a segment register, and the stack it takes for an
    interrupt of a user program.

    The state is the page allocator, in whose memory the task-state segment lies, the table of
    descriptors, the two registers of the processor that gdt.c loads, and the thread that
    [thread_current] gives. What the processor reads in them follows the architecture manual
    that the comments cite. *)

From S2P Require Import Prelude Bitmap BitmapScan Vaddr Palloc Disk Pages Pagedir Thread Interrupt Bits.

Definition SEL_TSS : Z := 40.
Definition SEL_CNT : nat := 6.

Definition CLS_SYSTEM : Z := 0.
Definition CLS_CODE_DATA : Z := 1.
Definition GRAN_BYTE : Z := 0.
Definition GRAN_PAGE : Z := 1.

Record segments := Segments {
  pages : palloc_state;
  thread_current : Z;
  tss : Z;
  gdt : list Z;
  gdtr : Z;
  tr : Z;
}.

Definition set_mem (s : palloc_state) (m : Z → Z) : palloc_state := PState (kernel_pool s) (user_pool s) (statics s) m.
Definition set_pages (s : segments) (p : palloc_state) : segments := Segments p (thread_current s) (tss s) (gdt s) (gdtr s) (tr s).
Definition set_tss (s : segments) (t : Z) : segments := Segments (pages s) (thread_current s) t (gdt s) (gdtr s) (tr s).
Definition set_current (s : segments) (t : Z) : segments := Segments (pages s) t (tss s) (gdt s) (gdtr s) (tr s).
Definition set_gdt (s : segments) (l : list Z) (r t : Z) : segments := Segments (pages s) (thread_current s) (tss s) l r t.

(** ** tss.c *)

Definition get16 (m : Z → Z) (a : Z) : Z := m a + 256 * m (a + 1).
Definition put16 (m : Z → Z) (a v : Z) : Z → Z :=
  λ x, if x =? a then v mod 256 else if x =? a + 1 then v / 256 mod 256 else m x.

(** Offsets in [struct tss]. *)
Definition TSS_ESP0 : Z := 4.
Definition TSS_SS0 : Z := 8.
Definition TSS_BITMAP : Z := 102.

Definition poke32 (a v : Z) (s : segments) : segments := set_pages s (set_mem (pages s) (put32 (mem (pages s)) a v)).
Definition poke16 (a v : Z) (s : segments) : segments := set_pages s (set_mem (pages s) (put16 (mem (pages s)) a v)).

Definition tss_update (s : segments) : res segments :=
  ASSERT negb (tss s =? NULL) ;;
  Ok (poke32 (tss s + TSS_ESP0) (u32 (thread_current s + PGSIZE)) s).

Definition tss_init (s : segments) : res segments :=
  '(p, pg) ← palloc_get_page (Z.lor PAL_ASSERT PAL_ZERO) (pages s);
  let s := set_tss (set_pages s pg) p in
  let s := poke16 (tss s + TSS_SS0) SEL_KDSEG s in
  let s := poke16 (tss s + TSS_BITMAP) 0xdfff s in
  tss_update s.

Definition tss_get (s : segments) : res Z := ASSERT negb (tss s =? NULL) ;; Ok (tss s).

(** ** gdt.c *)

Definition make_seg_desc (base limit class type dpl granularity : Z) : res Z :=
  ASSERT limit <=? 0xfffff ;;
  ASSERT (class =? CLS_SYSTEM) || (class =? CLS_CODE_DATA) ;;
  ASSERT (0 <=? type) && (type <=? 15) ;;
  ASSERT (0 <=? dpl) && (dpl <=? 3) ;;
  ASSERT (granularity =? GRAN_BYTE) || (granularity =? GRAN_PAGE) ;;
  let e0 := Z.lor (Z.land limit 0xffff) (u32 (Z.shiftl base 16)) in
  let e1 := Z.lor (Z.lor (Z.lor (Z.lor (Z.lor (Z.lor (Z.lor (Z.lor (Z.land (Z.shiftr base 16) 0xff)
    (Z.shiftl type 8)) (Z.shiftl class 12)) (Z.shiftl dpl 13)) (Z.shiftl 1 15)) (Z.land limit 0xf0000)) (Z.shiftl 1 22)) (Z.shiftl granularity 23))
    (Z.land base 0xff000000) in
  Ok (Z.lor e0 (Z.shiftl e1 32)).

Definition make_code_desc (dpl : Z) : res Z := make_seg_desc 0 0xfffff CLS_CODE_DATA 10 dpl GRAN_PAGE.
Definition make_data_desc (dpl : Z) : res Z := make_seg_desc 0 0xfffff CLS_CODE_DATA 2 dpl GRAN_PAGE.
Definition make_tss_desc (laddr : Z) : res Z := make_seg_desc laddr 0x67 CLS_SYSTEM 9 0 GRAN_BYTE.

Definition make_gdtr_operand (limit base : Z) : Z := Z.lor limit (Z.shiftl base 16).

(** An assignment to an element of the table. *)
Definition gdt_set (l : list Z) (sel d : Z) : res (list Z) :=
  let i := Z.to_nat (sel / 8) in
  if (i <? length l)%nat then Ok (<[i := d]> l) else Fault BadAccess.

(** [gdt_address] is the address of the table. *)
Definition gdt_init (gdt_address : Z) (s : segments) : res segments :=
  l ← gdt_set (gdt s) SEL_NULL 0;
  d ← make_code_desc 0; l ← gdt_set l SEL_KCSEG d;
  d ← make_data_desc 0; l ← gdt_set l SEL_KDSEG d;
  d ← make_code_desc 3; l ← gdt_set l SEL_UCSEG d;
  d ← make_data_desc 3; l ← gdt_set l SEL_UDSEG d;
  t ← tss_get s; d ← make_tss_desc t; l ← gdt_set l SEL_TSS d;
  Ok (set_gdt s l (make_gdtr_operand (8 * Z.of_nat SEL_CNT - 1) gdt_address) SEL_TSS).

(** ** What the processor reads *)

Definition seg_base (d : Z) : Z := field d 16 24 + 2 ^ 24 * field d 56 8.
Definition seg_limit (d : Z) : Z :=
  let l := field d 0 16 + 2 ^ 16 * field d 48 4 in
  if field d 55 1 =? 1 then 4096 * l + 4095 else l.
Definition seg_type (d : Z) : Z := field d 40 4.
Definition seg_class (d : Z) : Z := field d 44 1.
Definition seg_dpl (d : Z) : Z := field d 45 2.
Definition seg_present (d : Z) : bool := field d 47 1 =? 1.
Definition seg_32 (d : Z) : bool := field d 54 1 =? 1.

(** The descriptor of a selector, of the part of the table that GDTR admits; none of the null
    selector, and none of a local table, which there is not. *)
Definition descriptor (s : segments) (sel : Z) : option Z :=
  if (sel / 8 =? 0) || (field sel 2 1 =? 1) || (field (gdtr s) 0 16 <? 8 * (sel / 8) + 7) then None
  else gdt s !! Z.to_nat (sel / 8).

(** At privilege level [cpl], a segment register for data takes a selector of a readable segment
    whose level is not below that of the code and of the selector. *)
Definition readable (type : Z) : bool := (field type 3 1 =? 0) || (field type 1 1 =? 1).
Definition loads (s : segments) (cpl sel : Z) : bool :=
  match descriptor s sel with
  | Some d => seg_present d && (seg_class d =? 1) && readable (seg_type d) && (Z.max cpl (sel mod 4) <=? seg_dpl d)
  | None => false
  end.

(** The stack for an interrupt of a user program: SS0 and ESP0 of the segment in TR. *)
Definition interrupt_stack0 (s : segments) : option (Z * Z) :=
  d ← descriptor s (tr s);
  if seg_present d && (seg_class d =? 0) && (seg_type d =? 9) && (TSS_SS0 + 1 <=? seg_limit d)
  then Some (get16 (mem (pages s)) (seg_base d + TSS_SS0), get32 (mem (pages s)) (seg_base d + TSS_ESP0))
  else None.

(** A segment of all memory. *)
Record flat (d dpl type : Z) : Prop := {
  fl_base : seg_base d = 0;
  fl_limit : seg_limit d = WORD - 1;
  fl_type : seg_type d = type;
  fl_class : seg_class d = CLS_CODE_DATA;
  fl_dpl : seg_dpl d = dpl;
  fl_present : seg_present d = true;
  fl_32 : seg_32 d = true;
}.

(** ** Descriptors *)

Lemma land_limit l : 0 ≤ l ≤ 0xfffff → Z.land l 0xf0000 = l / 2 ^ 16 * 2 ^ 16.
Proof.
  intros Hl. change 0xf0000 with (Z.land (2 ^ 20 - 1) (WORD - 2 ^ 16)). rewrite Z.land_assoc, land_ones_mod by done.
  rewrite Z.mod_small, land_high_bits by (unfold is_u32; lia). pose proof (Z.div_mod l (2 ^ 16) ltac:(done)). lia.
Qed.

Lemma field_at x k w hi v lo : 0 ≤ k → 0 ≤ w → x = hi * 2 ^ (k + w) + v * 2 ^ k + lo → 0 ≤ lo < 2 ^ k → 0 ≤ v < 2 ^ w → (x / 2 ^ k) mod 2 ^ w = v.
Proof.
  intros Hk Hw -> Hlo Hv. rewrite Z.pow_add_r by done. replace (hi * (2 ^ k * 2 ^ w) + v * 2 ^ k + lo) with (lo + (hi * 2 ^ w + v) * 2 ^ k) by lia.
  rewrite Z.div_add by lia. rewrite Z.div_small, Z.add_0_l, Z.add_comm, Z_mod_plus_full by done. by apply Z.mod_small.
Qed.

(** The processor finds in a descriptor what went into it. *)
Lemma make_seg_desc_fields base limit class type dpl granularity :
  is_u32 base → 0 ≤ limit ≤ 0xfffff → class ∈ [CLS_SYSTEM; CLS_CODE_DATA] → 0 ≤ type ≤ 15 → 0 ≤ dpl ≤ 3 → granularity ∈ [GRAN_BYTE; GRAN_PAGE] →
  ∃ d, make_seg_desc base limit class type dpl granularity = Ok d ∧ seg_base d = base ∧ seg_limit d = (if granularity =? GRAN_PAGE then 4096 * limit + 4095 else limit) ∧
    seg_class d = class ∧ seg_type d = type ∧ seg_dpl d = dpl ∧ seg_present d = true ∧ seg_32 d = true.
Proof.
  intros Hb Hl Hc Ht Hd Hg. assert (0 ≤ class ≤ 1) as Hc' by (set_unfold in Hc; unfold CLS_SYSTEM, CLS_CODE_DATA in Hc; lia).
  assert (0 ≤ granularity ≤ 1) as Hg' by (set_unfold in Hg; unfold GRAN_BYTE, GRAN_PAGE in Hg; lia). unfold make_seg_desc. rewrite !(proj2 (Z.leb_le _ _)) by lia.
  assert ((class =? CLS_SYSTEM) || (class =? CLS_CODE_DATA) = true) as -> by (unfold CLS_SYSTEM, CLS_CODE_DATA; rewrite orb_true_iff, !Z.eqb_eq; lia).
  assert ((granularity =? GRAN_BYTE) || (granularity =? GRAN_PAGE) = true) as -> by (unfold GRAN_BYTE, GRAN_PAGE; rewrite orb_true_iff, !Z.eqb_eq; lia).
  mstep. eexists. split; [reflexivity|]. unfold is_u32 in Hb. change 0xff000000 with (WORD - 2 ^ 24). rewrite (land_high_bits base) by (unfold is_u32; lia). rewrite land_limit by done.
  change 0xffff with (2 ^ 16 - 1). change 0xff with (2 ^ 8 - 1). rewrite !land_ones_mod by done. rewrite Z.shiftr_div_pow2 by done. rewrite !shiftl_word by done. unfold u32.
  assert (base * 2 ^ 16 mod WORD = base mod 2 ^ 16 * 2 ^ 16) as -> by (change WORD with (2 ^ 16 * 2 ^ 16); by rewrite Z.mul_mod_distr_r).
  pose proof (Z.div_mod base (2 ^ 16) ltac:(done)) as Eb. pose proof (Z.mod_pos_bound base (2 ^ 16) ltac:(done)). set (b0 := base mod 2 ^ 16) in *. set (b := base / 2 ^ 16) in *.
  assert (base - base mod 2 ^ 24 = b / 2 ^ 8 * 2 ^ 24) as ->.
  { unfold b. rewrite Z.div_div by done. change (2 ^ 16 * 2 ^ 8) with (2 ^ 24). pose proof (Z.div_mod base (2 ^ 24) ltac:(done)). lia. }
  pose proof (Z.div_mod b (2 ^ 8) ltac:(done)) as Eb1. pose proof (Z.mod_pos_bound b (2 ^ 8) ltac:(done)). set (b1 := b mod 2 ^ 8) in *. set (b2 := b / 2 ^ 8) in *.
  pose proof (Z.div_mod limit (2 ^ 16) ltac:(done)) as El. pose proof (Z.mod_pos_bound limit (2 ^ 16) ltac:(done)). set (l0 := limit mod 2 ^ 16) in *. set (l1 := limit / 2 ^ 16) in *.
  assert (0 ≤ b2 < 256 ∧ 0 ≤ l1 < 16) as [Hb2 Hl1] by lia. clearbody b0 b b1 b2 l0 l1.
  rewrite (lor_fields l0 b0 16), (lor_fields b1 type 8) by lia. rewrite (lor_fields _ class 12) by lia. rewrite (lor_fields _ dpl 13) by lia. rewrite (lor_fields _ 1 15) by lia.
  rewrite (lor_fields _ l1 16) by lia. rewrite (lor_fields _ 1 22) by lia. rewrite (lor_fields _ granularity 23) by lia. rewrite (lor_fields _ b2 24) by lia. rewrite (lor_fields _ _ 32) by lia.
  unfold seg_base, seg_limit, seg_type, seg_class, seg_dpl, seg_present, seg_32. rewrite !field_eq by done. rewrite !Z.eqb_eq. unfold GRAN_PAGE.
  set (d := _ + _ * 2 ^ 32).
  assert ((d / 2 ^ 55) mod 2 ^ 1 = granularity) as ->
    by (apply (field_at d 55 1 b2 granularity (l0 + b0 * 2 ^ 16 + (b1 + type * 2 ^ 8 + class * 2 ^ 12 + dpl * 2 ^ 13 + 1 * 2 ^ 15 + l1 * 2 ^ 16 + 1 * 2 ^ 22) * 2 ^ 32)); unfold d; lia).
  assert ((d / 2 ^ 0) mod 2 ^ 16 + 2 ^ 16 * ((d / 2 ^ 48) mod 2 ^ 4) = limit) as ->.
  { unfold d. cbn [Z.pow Z.pow_pos Pos.iter Z.mul Pos.mul]. Z.to_euclidean_division_equations; lia. }
  split_and!; try done; unfold d; cbn [Z.pow Z.pow_pos Pos.iter Z.mul Pos.mul]; clear d; Z.to_euclidean_division_equations; lia.
Qed.

(** ** Memory of the task-state segment *)

Lemma put16_outside m a v x : ¬ (a ≤ x < a + 2) → put16 m a v x = m x.
Proof. intros Hx. unfold put16. rewrite !(proj2 (Z.eqb_neq _ _)) by lia. done. Qed.

Lemma get16_put16 m a v : 0 ≤ v < 65536 → get16 (put16 m a v) a = v.
Proof.
  intros Hv. unfold get16, put16. rewrite Z.eqb_refl, (proj2 (Z.eqb_neq (a + 1) a)), Z.eqb_refl by lia.
  rewrite (Z.mod_small (v / 256)) by (split; [apply Z.div_pos|apply Z.div_lt_upper_bound]; lia). pose proof (Z.div_mod v 256 ltac:(lia)). lia.
Qed.

Lemma get16_ext m m' a : (∀ x, a ≤ x < a + 2 → m' x = m x) → get16 m' a = get16 m a.
Proof. intros Hx. unfold get16. by rewrite !Hx by lia. Qed.

(** ** The tables in place *)

(** Writing to the memory of a page changes nothing for the allocator. *)
Definition same_allocator (p p' : palloc_state) : Prop := kernel_pool p' = kernel_pool p ∧ user_pool p' = user_pool p ∧ statics p' = statics p.

Lemma same_allocator_used p p' pg : same_allocator p p' → page_used p' pg = page_used p pg.
Proof. destruct p, p'. intros (H1 & H2 & _). cbn in *. subst. done. Qed.

Lemma same_allocator_wf p p' : same_allocator p p' → palloc_wf p → palloc_wf p'.
Proof. destruct p, p'. intros (H1 & H2 & H3) []. cbn in *. subst. by split. Qed.

(** The state in which programs run: the four segments are flat, TR has a task-state segment with
    the kernel's stack segment, and GDTR admits just the entries of the table. *)
Record protected (s : segments) : Prop := {
  pr_kernel_code : ∃ d, descriptor s SEL_KCSEG = Some d ∧ flat d 0 10;
  pr_kernel_data : ∃ d, descriptor s SEL_KDSEG = Some d ∧ flat d 0 2;
  pr_user_code : ∃ d, descriptor s SEL_UCSEG = Some d ∧ flat d 3 10;
  pr_user_data : ∃ d, descriptor s SEL_UDSEG = Some d ∧ flat d 3 2;
  pr_user : ∀ sel, 0 ≤ sel < 65536 → loads s 3 sel = true ↔ sel / 8 ∈ [SEL_UCSEG / 8; SEL_UDSEG / 8] ∧ field sel 2 1 = 0;
  pr_tss : tss s ≠ NULL ∧ tss s = PGSIZE * (tss s / PGSIZE) ∧ is_u32 (tss s);
  pr_tr : ∃ d, descriptor s (tr s) = Some d ∧ seg_present d = true ∧ seg_class d = CLS_SYSTEM ∧ seg_type d = 9 ∧ seg_dpl d = 0 ∧ seg_base d = tss s ∧ seg_limit d = 103;
  pr_ss0 : get16 (mem (pages s)) (tss s + TSS_SS0) = SEL_KDSEG;
}.

(** Nothing of it is outside the tables and the page of the segment. *)
Lemma protected_frame s s' :
  protected s → gdt s' = gdt s → gdtr s' = gdtr s → tr s' = tr s → tss s' = tss s →
  (∀ x, tss s ≤ x < tss s + PGSIZE → x < tss s + TSS_ESP0 ∨ tss s + TSS_SS0 ≤ x → mem (pages s') x = mem (pages s) x) → protected s'.
Proof.
  intros Hp Eg Er Et Es Hm. destruct s as [pg cu ts g gr t], s' as [pg' cu' ts' g' gr' t']. cbn in *. subst. destruct Hp. cbn in *. split; try done. cbn.
  rewrite <-pr_ss1. apply get16_ext. intros x Hx. unfold TSS_SS0, TSS_ESP0, PGSIZE in *. apply Hm; lia.
Qed.

Lemma protected_stack s : protected s → interrupt_stack0 s = Some (SEL_KDSEG, get32 (mem (pages s)) (tss s + TSS_ESP0)).
Proof.
  intros Hp. destruct (pr_tr _ Hp) as (d & Hd & H1 & H2 & H3 & _ & H4 & H5). unfold interrupt_stack0. rewrite Hd. cbn. by rewrite H1, H2, H3, H4, H5, (pr_ss0 _ Hp).
Qed.

Lemma tss_update_ok s :
  protected s → is_u32 (thread_current s + PGSIZE) →
  ∃ s', tss_update s = Ok s' ∧ protected s' ∧ interrupt_stack0 s' = Some (SEL_KDSEG, thread_current s + PGSIZE) ∧ same_allocator (pages s) (pages s') ∧
    ∀ x, ¬ (tss s ≤ x < tss s + PGSIZE) → mem (pages s') x = mem (pages s) x.
Proof.
  intros Hp Ht. destruct (pr_tss _ Hp) as (Hn & _ & _). unfold tss_update. rewrite (proj2 (Z.eqb_neq _ _)) by done. mstep. eexists. split; [reflexivity|].
  assert (protected (poke32 (tss s + TSS_ESP0) (u32 (thread_current s + PGSIZE)) s)) as Hp'.
  { apply (protected_frame s); try done. intros x _ Hx. cbn. apply put32_outside. unfold TSS_ESP0, TSS_SS0 in *. lia. }
  split_and!; [done| |done|].
  - rewrite (protected_stack _ Hp'). unfold poke32. cbn [pages set_pages mem set_mem tss]. rewrite get32_put32_eq by (unfold u32; by apply Z.mod_pos_bound). by rewrite u32_small.
  - intros x Hx. cbn. apply put32_outside. unfold TSS_ESP0, PGSIZE in *. lia.
Qed.

(** ** Initialisation *)

Definition tables (tss_desc : Z) : list Z := [0; 0xcf9a000000ffff; 0xcf92000000ffff; 0xcffa000000ffff; 0xcff2000000ffff; tss_desc].

Lemma gdt_init_ok gdt_address s :
  tss s ≠ NULL → is_u32 (tss s) → length (gdt s) = SEL_CNT →
  ∃ d, make_tss_desc (tss s) = Ok d ∧ gdt_init gdt_address s = Ok (set_gdt s (tables d) (make_gdtr_operand 47 gdt_address) SEL_TSS).
Proof.
  intros Hn Ht Hl. destruct (make_seg_desc_fields (tss s) 0x67 CLS_SYSTEM 9 0 GRAN_BYTE) as (d & E & _); try done; [set_solver..|]. exists d. split; [done|].
  change (make_tss_desc (tss s) = Ok d) in E. destruct s as [pg cu ts g gr t]. cbn [tss gdt] in *. destruct g as [|? [|? [|? [|? [|? [|? [|? ?]]]]]]]; try done.
  unfold gdt_init, tss_get. cbn -[make_tss_desc Z.eqb]. rewrite (proj2 (Z.eqb_neq _ _)) by done. cbn -[make_tss_desc]. rewrite E. done.
Qed.

Lemma gdtr_limit gdt_address : field (make_gdtr_operand 47 gdt_address) 0 16 = 47.
Proof.
  unfold make_gdtr_operand. rewrite field_eq, shiftl_word, lor_fields by lia. rewrite Z.div_1_r, Z_mod_plus_full. done.
Qed.

Lemma init_protected s d gdt_address :
  tss s ≠ NULL → tss s = PGSIZE * (tss s / PGSIZE) → is_u32 (tss s) → make_tss_desc (tss s) = Ok d → get16 (mem (pages s)) (tss s + TSS_SS0) = SEL_KDSEG →
  protected (set_gdt s (tables d) (make_gdtr_operand 47 gdt_address) SEL_TSS).
Proof.
  intros Hn Hal Hu Hd Hs. assert (∀ sel, descriptor (set_gdt s (tables d) (make_gdtr_operand 47 gdt_address) SEL_TSS) sel =
    if (sel / 8 =? 0) || (field sel 2 1 =? 1) || (47 <? 8 * (sel / 8) + 7) then None else tables d !! Z.to_nat (sel / 8)) as Hdesc.
  { intros sel. unfold descriptor. cbn [gdtr set_gdt gdt]. by rewrite gdtr_limit. }
  destruct (make_seg_desc_fields (tss s) 0x67 CLS_SYSTEM 9 0 GRAN_BYTE) as (d' & E & F1 & F2 & F3 & F4 & F5 & F6 & _); try done; [set_solver..|].
  change (make_tss_desc (tss s) = Ok d') in E. rewrite E in Hd. simplify_eq. split; try done; rewrite ?Hdesc.
  1-4: eexists; split; [reflexivity|by split].
  - intros sel Hsel. unfold loads. rewrite Hdesc. pose proof (Z.mod_pos_bound sel 4 ltac:(lia)) as Hrpl.
    assert (field sel 2 1 = 0 ∨ field sel 2 1 = 1) as Hti by (rewrite field_eq by done; pose proof (Z.mod_pos_bound (sel / 2 ^ 2) (2 ^ 1) ltac:(done)); lia).
    assert (0 ≤ sel / 8) as Hi by (by apply Z.div_pos; lia). set (i := sel / 8) in *. clearbody i. change (SEL_UCSEG / 8) with 3. change (SEL_UDSEG / 8) with 4.
    destruct (Z.ltb_spec 47 (8 * i + 7)); [rewrite orb_true_r; split; [done|set_unfold; lia]|]. rewrite orb_false_r.
    destruct Hti as [-> | ->]; [|rewrite orb_true_r; split; [done|lia]]. rewrite orb_false_r.
    assert (i ∈ [0; 1; 2; 3; 4; 5]) as Hin by (set_unfold; lia). clear -Hin Hrpl F1 F3.
    repeat (apply elem_of_cons in Hin as [->|Hin]); [..|by apply elem_of_nil in Hin]; cbn [Z.eqb].
    + split; [done|set_unfold; lia].
    + change (tables d !! Z.to_nat 1) with (Some 0xcf9a000000ffff). split; [|set_unfold; lia]. intros [_ H]%andb_true_iff. change (seg_dpl 0xcf9a000000ffff) with 0 in H. lia.
    + change (tables d !! Z.to_nat 2) with (Some 0xcf92000000ffff). split; [|set_unfold; lia]. intros [_ H]%andb_true_iff. change (seg_dpl 0xcf92000000ffff) with 0 in H. lia.
    + change (tables d !! Z.to_nat 3) with (Some 0xcffa000000ffff). split; [set_solver|]. intros _. apply andb_true_iff. split; [done|]. change (seg_dpl 0xcffa000000ffff) with 3. lia.
    + change (tables d !! Z.to_nat 4) with (Some 0xcff2000000ffff). split; [set_solver|]. intros _. apply andb_true_iff. split; [done|]. change (seg_dpl 0xcff2000000ffff) with 3. lia.
    + change (tables d !! Z.to_nat 5) with (Some d). clear Hrpl. split; [intros [[[_ H]%andb_true_iff _]%andb_true_iff _]%andb_true_iff; rewrite F3 in H; discriminate H|].
      intros [H _]. exfalso. revert H. apply (bool_decide_unpack (5 ∉ [3; 4])). exact I.
  - exists d. split; [reflexivity|]. by split_and!.
Qed.

(** C20. The start of the kernel either finds no free page and panics, or sets up segments so that
    user code can load no segment register with a descriptor of the kernel, not even that of the
    task-state segment, and all code and data segments cover all of memory; the page of the
    task-state segment is newly allocated and no other memory changes. An interrupt of a user
    program then switches to the end of the page of the running thread, on the kernel's stack
    segment, and this stays so when the scheduler goes to another thread and calls
    [tss_update]. *)
Theorem segments_protect s gdt_address :
  palloc_wf (pages s) → length (gdt s) = SEL_CNT → is_u32 (thread_current s + PGSIZE) →
  match (s ← tss_init s; gdt_init gdt_address s) with
  | Ok s' =>
      protected s' ∧ interrupt_stack0 s' = Some (SEL_KDSEG, thread_current s + PGSIZE) ∧
      palloc_wf (pages s') ∧ page_used (pages s) (tss s' / PGSIZE) = false ∧ (∀ pg, page_used (pages s') pg = bool_decide (pg = tss s' / PGSIZE) || page_used (pages s) pg) ∧
      (∀ x, ¬ (tss s' ≤ x < tss s' + PGSIZE) → mem (pages s') x = mem (pages s) x) ∧
      ∀ t, is_u32 (t + PGSIZE) → ∃ s'', tss_update (set_current s' t) = Ok s'' ∧ protected s'' ∧ interrupt_stack0 s'' = Some (SEL_KDSEG, t + PGSIZE)
  | Fault f => f = PanicCall ∧ ∀ i, ¬ free_pages_at (pages s) (kernel_pool (pages s)) i 1
  | Timeout => False
  end.
Proof.
  intros Hwf Hg Ht. unfold tss_init, palloc_get_page. destruct (palloc_get_multiple_cases (Z.lor PAL_ASSERT PAL_ZERO) 1 (pages s) Hwf ltac:(lia)) as [(p & pg & -> & Hgot)|[Hno ->]].
  2: { cbn. split; [done|]. by destruct Hno. }
  destruct Hgot as (Hp & _ & Hal & Hwf' & _ & (Hlo & Hhi & Hfree) & Hused & Hmem). cbn [mbind res_bind].
  assert (is_u32 p) as Hu.
  { change (pool_of _ _) with (kernel_pool (pages s)) in *. destruct (kernel_wf _ Hwf) as [[] Hba Hk He]. unfold pool_hi, pool_lo, is_u32, PGSIZE, PHYS_BASE in *.
    pose proof (Z.div_mod (base (kernel_pool (pages s))) 4096 ltac:(lia)). lia. }
  set (s1 := poke16 (p + TSS_BITMAP) 0xdfff (poke16 (p + TSS_SS0) SEL_KDSEG (set_tss (set_pages s pg) p))).
  set (s2 := poke32 (p + TSS_ESP0) (u32 (thread_current s + PGSIZE)) s1).
  assert (tss_update s1 = Ok s2) as Eu by (unfold tss_update; change (tss s1) with p; by rewrite (proj2 (Z.eqb_neq p NULL)) by done). change (tss_update (poke16 _ _ _)) with (tss_update s1). rewrite Eu. cbn [mbind res_bind].
  destruct (gdt_init_ok gdt_address s2 Hp Hu Hg) as (d & Hd & ->). set (s3 := set_gdt s2 _ _ _).
  assert (protected s3) as Hprot.
  { apply init_protected; try done. unfold s2, s1, poke32, poke16. cbn [pages set_pages mem set_mem tss set_tss].
    transitivity (get16 (put16 (mem pg) (p + TSS_SS0) SEL_KDSEG) (p + TSS_SS0)); [|by apply get16_put16]. apply get16_ext. intros x Hx. unfold TSS_SS0, TSS_ESP0, TSS_BITMAP in *. by rewrite put32_outside, put16_outside by lia. }
  assert (same_allocator pg (pages s3)) as Hsame by done. split_and!; [done| | | | | |].
  - rewrite (protected_stack _ Hprot). unfold s3, s2, poke32. cbn [pages set_pages mem set_mem tss set_tss set_gdt].
    rewrite get32_put32_eq by (by apply Z.mod_pos_bound). by rewrite u32_small.
  - by eapply same_allocator_wf.
  - change (tss s3) with p. apply Hfree. lia.
  - intros x. rewrite (same_allocator_used _ _ _ Hsame), Hused. change (tss s3) with p. do 2 case_bool_decide; done || lia.
  - intros x Hx. change (tss s3) with p in Hx. unfold s3, s2, s1, poke32, poke16. cbn [pages set_pages mem set_mem tss set_tss set_gdt]. unfold TSS_SS0, TSS_ESP0, TSS_BITMAP, PGSIZE in *.
    rewrite put32_outside, !put16_outside by lia. rewrite Hmem. change (has_flag _ _) with true. cbn iota. unfold memset. rewrite Hal in Hx. destruct (Z.leb_spec p x), (Z.ltb_spec x (p + 4096 * 1)); done || lia.
  - intros t Ht'. destruct (tss_update_ok (set_current s3 t)) as (s4 & E4 & Hp4 & Hi4 & _); [by apply (protected_frame s3)|done|]. by exists s4.
Qed.

Definition demo_boot : segments := Segments small_state 3221282816 NULL (replicate 6 0) 0 0.
Definition demo_run : res segments := s ← tss_init demo_boot; gdt_init 3221348352 s.
Definition demo_segments : segments := match demo_run with Ok s => s | _ => demo_boot end.

Lemma segments_protect_witness :
  demo_run = Ok demo_segments ∧ protected demo_segments ∧ interrupt_stack0 demo_segments = Some (SEL_KDSEG, 3221286912).
Proof.
  assert (demo_run = Ok demo_segments) as E.
  { assert (match demo_run with Ok _ => true | _ => false end = true) as X by (vm_compute; reflexivity). unfold demo_segments. destruct demo_run; [reflexivity|discriminate X..]. }
  pose proof (segments_protect demo_boot 3221348352 small_state_wf eq_refl ltac:(unfold is_u32; vm_compute; split; [intros X; discriminate X|reflexivity])) as H.
  change (s ← tss_init demo_boot; gdt_init 3221348352 s) with demo_run in H. rewrite E in H. destruct H as (H1 & H2 & _). exact (conj E (conj H1 H2)).
Defined.
