(* ===== verification/Drivers.v ===== *)
(** The timer, the keyboard, the serial port and the input buffer (src/devices/timer.c, pit.c,
    kbd.c, serial.c, input.c), and their interrupt handlers.

    The hardware is part of the state: the bytes that wait in the keyboard controller and in the
    serial port, and the answers of the serial port to the coming questions whether it can take
    another byte. A queue of bytes that has to wait is the subject of [Intq]; here a call that
    would make its thread wait ends there. *)

From S2P Require Import Intq.
From Stdlib Require Import Ascii String.
From S2P Require Import Prelude Vaddr Thread Stdio Format Interrupt.

(** ** Data *)

(** The handlers of the kernel. *)
Inductive handler := timer_interrupt | keyboard_interrupt | serial_interrupt | disk_interrupt | kill | page_fault | syscall_handler.

Record keyboard := Keyboard {
  left_shift : bool; right_shift : bool; left_alt : bool; right_alt : bool; left_ctrl : bool; right_ctrl : bool;
  caps_lock : bool; key_cnt : Z;
  scancodes : list Z;   (* in the controller *)
}.

Inductive serial_mode := UNINIT | POLL | QUEUE.

(** [rx] are the bytes that have arrived, [thre] the coming answers; [pending] is the interrupt
    that the port has raised and that has not been inquired about. *)
Record uart := Uart { rx : list Z; thre : list bool; pending : bool }.

Record drivers := Drivers {
  ticks : Z;
  loops_per_tick : Z;
  kbd : keyboard;
  mode : serial_mode;
  txq : intq;
  buffer : intq;        (* of input.c *)
  port : uart;
  page_fault_cnt : Z;   (* of exception.c *)
}.

Local Abbreviation st := (machine handler drivers).

Definition get_dev : ST st drivers := λ m, Ok (dev m, m).
Definition put_dev (d : drivers) : ST st unit := λ m, Ok (tt, set_dev m d).

Definition set_time (d : drivers) (t l : Z) : drivers := Drivers t l (kbd d) (mode d) (txq d) (buffer d) (port d) (page_fault_cnt d).
Definition set_kbd (d : drivers) (k : keyboard) : drivers := Drivers (ticks d) (loops_per_tick d) k (mode d) (txq d) (buffer d) (port d) (page_fault_cnt d).
Definition set_mode (d : drivers) (x : serial_mode) : drivers := Drivers (ticks d) (loops_per_tick d) (kbd d) x (txq d) (buffer d) (port d) (page_fault_cnt d).
Definition set_port (d : drivers) (u : uart) : drivers := Drivers (ticks d) (loops_per_tick d) (kbd d) (mode d) (txq d) (buffer d) u (page_fault_cnt d).

Definition set_faults (d : drivers) (n : Z) : drivers := Drivers (ticks d) (loops_per_tick d) (kbd d) (mode d) (txq d) (buffer d) (port d) n.

(** The two queues. *)
Inductive queue_id := Txq | Input.

#[export] Instance queue_id_eq_dec : EqDecision queue_id.
Proof. solve_decision. Defined.

Definition get_queue (i : queue_id) (d : drivers) : intq := match i with Txq => txq d | Input => buffer d end.
Definition set_queue (i : queue_id) (q : intq) (d : drivers) : drivers :=
  match i with
  | Txq => Drivers (ticks d) (loops_per_tick d) (kbd d) (mode d) q (buffer d) (port d) (page_fault_cnt d)
  | Input => Drivers (ticks d) (loops_per_tick d) (kbd d) (mode d) (txq d) q (port d) (page_fault_cnt d)
  end.

Definition assert_off : ST st unit := level <-- intr_get_level ;; assertS (negb level).

(** ** Queues of bytes (intq.c), where they do not wait *)

Definition queue_is_empty (i : queue_id) : ST st bool := assert_off ;;; d <-- get_dev ;; retS (intq_empty (get_queue i d)).
Definition queue_is_full (i : queue_id) : ST st bool := assert_off ;;; d <-- get_dev ;; retS (intq_full (get_queue i d)).

Definition unblock (t : option Z) : ST st unit :=
  match t with
  | Some t => m <-- getS ;; s <-- liftS (thread_unblock (ks m) t) ;; putS (set_ks m s)
  | None => retS tt
  end.

(** [None] if the thread has to wait, which a handler may not. *)
Definition queue_getc (i : queue_id) : ST st (option Z) :=
  e <-- queue_is_empty i ;;
  if e : bool then c <-- intr_context ;; assertS (negb c) ;;; retS None
  else
    d <-- get_dev ;;
    '(byte, woken, q) <-- liftS (take_byte (get_queue i d)) ;;
    put_dev (set_queue i q d) ;;; unblock woken ;;; retS (Some byte).

Definition queue_putc (i : queue_id) (byte : Z) : ST st (option unit) :=
  f <-- queue_is_full i ;;
  if f : bool then c <-- intr_context ;; assertS (negb c) ;;; retS None
  else
    d <-- get_dev ;;
    '(woken, q) <-- liftS (add_byte byte (get_queue i d)) ;;
    put_dev (set_queue i q d) ;;; unblock woken ;;; retS (Some tt).

(** ** The serial port *)

Definition THR_REG : Z := 0x3f8.
Definition IER_REG : Z := 0x3f9.
Definition LS_REG : Z := 0x3f8.
Definition MS_REG : Z := 0x3f9.
Definition FCR_REG : Z := 0x3fa.
Definition LCR_REG : Z := 0x3fb.
Definition MCR_REG : Z := 0x3fc.
Definition IER_RECV : Z := 1.
Definition IER_XMIT : Z := 2.
Definition LCR_N81 : Z := 3.
Definition LCR_DLAB : Z := 0x80.
Definition MCR_OUT2 : Z := 8.
Definition LSR_DR : Z := 1.
Definition LSR_THRE : Z := 0x20.

(** The line status register; after the answers that are known the port is ready. *)
Definition inb_LSR : ST st Z :=
  d <-- get_dev ;;
  let u := port d in
  let ready := match thre u with b :: _ => b | [] => true end in
  put_dev (set_port d (Uart (rx u) (tail (thre u)) (pending u))) ;;;
  retS (Z.lor (match rx u with [] => 0 | _ => LSR_DR end) (if ready then LSR_THRE else 0)).

(** Reading the identification of the interrupt takes it back. *)
Definition inb_IIR : ST st unit := d <-- get_dev ;; put_dev (set_port d (Uart (rx (port d)) (thre (port d)) false)).

Definition inb_RBR : ST st Z :=
  d <-- get_dev ;;
  let u := port d in
  put_dev (set_port d (Uart (tail (rx u)) (thre u) (pending u))) ;;;
  retS (match rx u with b :: _ => b | [] => 0 end).

Definition set_serial (bps : Z) : ST st unit :=
  let base_rate := 1843200 / 16 in
  let divisor := (base_rate / bps) mod 65536 in
  assertS ((300 <=? bps) && (bps <=? 115200)) ;;;
  outb LCR_REG (Z.lor LCR_N81 LCR_DLAB) ;;;
  outb LS_REG (Z.land divisor 0xff) ;;;
  outb MS_REG (Z.shiftr divisor 8) ;;;
  outb LCR_REG LCR_N81.

(** The memory of the queue is what it was. *)
Definition init_poll : ST st unit :=
  d <-- get_dev ;;
  assertS (match mode d with UNINIT => true | _ => false end) ;;;
  outb IER_REG 0 ;;;
  outb FCR_REG 0 ;;;
  set_serial 9600 ;;;
  outb MCR_REG MCR_OUT2 ;;;
  d <-- get_dev ;;
  put_dev (set_queue Txq (intq_init (buf (txq d))) d) ;;;
  d <-- get_dev ;;
  put_dev (set_mode d POLL).

(** Asks the port until it is ready. *)
Fixpoint poll (n : nat) : ST st unit :=
  match n with
  | O => λ _, Timeout
  | S n => v <-- inb_LSR ;; if Z.land v LSR_THRE =? 0 then poll n else retS tt
  end.

Definition putc_poll (byte : Z) : ST st unit :=
  assert_off ;;;
  d <-- get_dev ;;
  poll (S (length (thre (port d)))) ;;;
  outb THR_REG byte.

(** ** The input buffer *)

Definition input_init : ST st unit := d <-- get_dev ;; put_dev (set_queue Input (intq_init (buf (buffer d))) d).

Definition input_full : ST st bool := assert_off ;;; queue_is_full Input.

Definition write_ier : ST st unit :=
  assert_off ;;;
  e <-- queue_is_empty Txq ;;
  f <-- input_full ;;
  outb IER_REG (Z.lor (if e : bool then 0 else IER_XMIT) (if f : bool then 0 else IER_RECV)).

Definition serial_notify : ST st unit :=
  assert_off ;;;
  d <-- get_dev ;;
  match mode d with QUEUE => write_ier | _ => retS tt end.

Definition input_putc (key : Z) : ST st (option unit) :=
  assert_off ;;;
  f <-- queue_is_full Input ;;
  assertS (negb f) ;;;
  r <-- queue_putc Input key ;;
  serial_notify ;;;
  retS r.

Definition input_getc : ST st (option Z) :=
  old_level <-- intr_disable ;;
  key <-- queue_getc Input ;;
  match key with
  | None => retS None
  | Some key => serial_notify ;;; intr_set_level old_level ;;; retS (Some key)
  end.

Section serial.
Context (intr_stubs : Z → Z).

Definition serial_init_queue : ST st unit :=
  d <-- get_dev ;;
  match mode d with UNINIT => init_poll | _ => retS tt end ;;;
  d <-- get_dev ;;
  assertS (match mode d with POLL => true | _ => false end) ;;;
  intr_register_ext intr_stubs (0x20 + 4) serial_interrupt (bytes "serial") ;;;
  d <-- get_dev ;;
  put_dev (set_mode d QUEUE) ;;;
  old_level <-- intr_disable ;;
  write_ier ;;;
  intr_set_level old_level ;;;
  retS tt.

End serial.

(** [None] if the thread has to wait. *)
Definition serial_putc (byte : Z) : ST st (option unit) :=
  old_level <-- intr_disable ;;
  d <-- get_dev ;;
  r <-- match mode d with
        | QUEUE =>
            (f <-- (if negb old_level then queue_is_full Txq else retS false) ;;
             if f : bool then b <-- queue_getc Txq ;; (match b with Some b => putc_poll b | None => retS tt end) else retS tt) ;;;
            r <-- queue_putc Txq byte ;;
            match r with Some _ => write_ier ;;; retS r | None => retS r end
        | mode => (match mode with UNINIT => init_poll | _ => retS tt end) ;;; putc_poll byte ;;; retS (Some tt)
        end ;;
  match r with Some _ => intr_set_level old_level ;;; retS r | None => retS r end.

Fixpoint flush_loop (n : nat) : ST st unit :=
  match n with
  | O => λ _, Timeout
  | S n =>
      e <-- queue_is_empty Txq ;;
      if e : bool then retS tt
      else b <-- queue_getc Txq ;; (match b with Some b => putc_poll b | None => retS tt end) ;;; flush_loop n
  end.

(** A queue holds at most 63 bytes. *)
Definition serial_flush : ST st unit :=
  old_level <-- intr_disable ;;
  flush_loop 64 ;;;
  intr_set_level old_level ;;; retS tt.

(** The loops of [serial_interrupt]: each round takes a byte from the port or from the queue. *)
Fixpoint receive_loop (n : nat) : ST st unit :=
  match n with
  | O => λ _, Timeout
  | S n =>
      f <-- input_full ;;
      if f : bool then retS tt
      else
        v <-- inb_LSR ;;
        if Z.land v LSR_DR =? 0 then retS tt
        else b <-- inb_RBR ;; input_putc b ;;; receive_loop n
  end.

Fixpoint transmit_loop (n : nat) : ST st unit :=
  match n with
  | O => λ _, Timeout
  | S n =>
      e <-- queue_is_empty Txq ;;
      if e : bool then retS tt
      else
        v <-- inb_LSR ;;
        if Z.land v LSR_THRE =? 0 then retS tt
        else b <-- queue_getc Txq ;; (match b with Some b => outb THR_REG b | None => retS tt end) ;;; transmit_loop n
  end.

Definition serial_interrupt_handler : ST st unit :=
  inb_IIR ;;;
  d <-- get_dev ;;
  receive_loop (S (length (rx (port d)))) ;;;
  transmit_loop 64 ;;;
  write_ier.

(** ** The keyboard *)

Definition isupper (c : Z) : bool := (ch "A" <=? c) && (c <=? ch "Z").
Definition tolower (c : Z) : Z := if isupper c then c - ch "A" + ch "a" else c.

Definition keymap : Type := list (Z * list Z).

Definition invariant_keymap : keymap :=
  [(0x01, [27]); (0x0e, [8]); (0x0f, 9 :: bytes "QWERTYUIOP"); (0x1c, [13]); (0x1e, bytes "ASDFGHJKL"); (0x2c, bytes "ZXCVBNM");
   (0x37, bytes "*"); (0x39, bytes " "); (0x53, [127])].

Definition unshifted_keymap : keymap :=
  [(0x02, bytes "1234567890-="); (0x1a, bytes "[]"); (0x27, bytes ";'`"); (0x2b, [92]); (0x33, bytes ",./")].

Definition shifted_keymap : keymap :=
  [(0x02, bytes "!@#$%^&*()_+"); (0x1a, bytes "{}"); (0x27, [58; 34; 126]); (0x2b, bytes "|"); (0x33, bytes "<>?")].

Fixpoint map_key (k : keymap) (scancode : Z) : option Z :=
  match k with
  | [] => None
  | (first_scancode, chars) :: k =>
      if (first_scancode <=? scancode) && (scancode <? first_scancode + Z.of_nat (length chars))
      then chars !! Z.to_nat (scancode - first_scancode) else map_key k scancode
  end.

(** The data port. *)
Definition inb_DATA : ST st Z :=
  d <-- get_dev ;;
  let k := kbd d in
  put_dev (set_kbd d (Keyboard (left_shift k) (right_shift k) (left_alt k) (right_alt k) (left_ctrl k) (right_ctrl k) (caps_lock k) (key_cnt k) (tail (scancodes k)))) ;;;
  retS (match scancodes k with b :: _ => b | [] => 0 end).

(** The table [shift_keys]: the variables that follow a key. *)
Definition shift_key (code : Z) (down : bool) (k : keyboard) : keyboard :=
  let '(Keyboard ls rs la ra lc rc caps cnt q) := k in
  if code =? 0x2a then Keyboard down rs la ra lc rc caps cnt q
  else if code =? 0x36 then Keyboard ls down la ra lc rc caps cnt q
  else if code =? 0x38 then Keyboard ls rs down ra lc rc caps cnt q
  else if code =? 0xe038 then Keyboard ls rs la down lc rc caps cnt q
  else if code =? 0x1d then Keyboard ls rs la ra down rc caps cnt q
  else if code =? 0xe01d then Keyboard ls rs la ra lc down caps cnt q
  else k.

Definition set_caps (k : keyboard) (b : bool) : keyboard :=
  Keyboard (left_shift k) (right_shift k) (left_alt k) (right_alt k) (left_ctrl k) (right_ctrl k) b (key_cnt k) (scancodes k).
Definition set_key_cnt (k : keyboard) (n : Z) : keyboard :=
  Keyboard (left_shift k) (right_shift k) (left_alt k) (right_alt k) (left_ctrl k) (right_ctrl k) (caps_lock k) n (scancodes k).

(** The character of a key that is pressed, with Ctrl, Shift, Caps Lock and Alt. *)
Definition key_char (c : Z) (shift ctrl alt caps : bool) : Z :=
  let c := if ctrl && (0x40 <=? c) && (c <? 0x60) then (c - 0x40) mod 256
           else if Bool.eqb shift caps then tolower c else c in
  if alt then (c + 0x80) mod 256 else c.

(** [false] if the machine is reset. *)
Definition keyboard_interrupt_handler : ST st bool :=
  d <-- get_dev ;;
  let shift := left_shift (kbd d) || right_shift (kbd d) in
  let alt := left_alt (kbd d) || right_alt (kbd d) in
  let ctrl := left_ctrl (kbd d) || right_ctrl (kbd d) in
  code <-- inb_DATA ;;
  code <-- (if code =? 0xe0 then b <-- inb_DATA ;; retS (Z.lor (Z.shiftl code 8) b) else retS code) ;;
  let release := negb (Z.land code 0x80 =? 0) in
  let code := Z.land code (Z.lnot 0x80) in
  d <-- get_dev ;;
  if code =? 0x3a then
    (if negb release then put_dev (set_kbd d (set_caps (kbd d) (negb (caps_lock (kbd d))))) else retS tt) ;;; retS true
  else
    match (match map_key invariant_keymap code with Some c => Some c | None => if shift then map_key shifted_keymap code else map_key unshifted_keymap code end) with
    | Some c =>
        if release then retS true
        else if (c =? 127) && ctrl && alt then retS false
        else
          f <-- input_full ;;
          if f : bool then retS true
          else
            d <-- get_dev ;;
            put_dev (set_kbd d (set_key_cnt (kbd d) (s64 (key_cnt (kbd d) + 1)))) ;;;
            input_putc (key_char c shift ctrl alt (caps_lock (kbd d))) ;;;
            retS true
    | None => put_dev (set_kbd d (shift_key code (negb release) (kbd d))) ;;; retS true
    end.

(** ** The timer *)

Definition TIMER_FREQ : Z := 100.
Definition PIT_PORT_CONTROL : Z := 0x43.
Definition PIT_PORT_COUNTER (channel : Z) : Z := 0x40 + channel.
Definition PIT_HZ : Z := 1193180.

Definition pit_count (frequency : Z) : Z :=
  if frequency <? 19 then 0
  else if PIT_HZ <? frequency then 2
  else ((PIT_HZ + frequency / 2) / frequency) mod 65536.

Definition pit_configure_channel (channel mode frequency : Z) : ST st unit :=
  assertS ((channel =? 0) || (channel =? 2)) ;;;
  assertS ((mode =? 2) || (mode =? 3)) ;;;
  let count := pit_count frequency in
  old_level <-- intr_disable ;;
  outb PIT_PORT_CONTROL (Z.lor (Z.lor (Z.shiftl channel 6) 0x30) (Z.shiftl mode 1)) ;;;
  outb (PIT_PORT_COUNTER channel) (count mod 256) ;;;
  outb (PIT_PORT_COUNTER channel) (Z.shiftr count 8 mod 256) ;;;
  intr_set_level old_level ;;; retS tt.

Definition timer_init (intr_stubs : Z → Z) : ST st unit :=
  pit_configure_channel 0 2 TIMER_FREQ ;;;
  intr_register_ext intr_stubs 0x20 timer_interrupt (bytes "8254 Timer").

Definition kbd_init (intr_stubs : Z → Z) : ST st unit := intr_register_ext intr_stubs 0x21 keyboard_interrupt (bytes "8042 Keyboard").

Definition timer_ticks : ST st Z :=
  old_level <-- intr_disable ;;
  d <-- get_dev ;;
  let t := ticks d in
  intr_set_level old_level ;;; retS t.

Definition timer_elapsed (then_ : Z) : ST st Z := t <-- timer_ticks ;; retS (s64 (t - then_)).

Definition timer_interrupt_handler : ST st unit :=
  d <-- get_dev ;;
  put_dev (set_time d (s64 (ticks d + 1)) (loops_per_tick d)) ;;;
  m <-- getS ;;
  '(s, y) <-- liftS (thread_tick (ks m)) ;;
  putS (set_ks m s) ;;;
  if y : bool then intr_yield_on_return else retS tt.

(** ** The handlers of the devices *)

Definition device_code (others : handler → intr_frame → ST st (option intr_frame)) (h : handler) (f : intr_frame) : ST st (option intr_frame) :=
  match h with
  | timer_interrupt => timer_interrupt_handler ;;; retS (Some f)
  | keyboard_interrupt => b <-- keyboard_interrupt_handler ;; retS (if b : bool then Some f else None)
  | serial_interrupt => serial_interrupt_handler ;;; retS (Some f)
  | h => others h f
  end.
