(* ===== verification/DriversSafe.v ===== *)
(** The interrupt handlers of the devices: they keep the machine in order, lose no byte, and turn
    keys into characters; the timer's is the step of the scheduler. *)

From S2P Require Import Intq Synch SynchSafe.
From Stdlib Require Import Ascii String.
From S2P Require Import Prelude Vaddr Thread Stdio Format Interrupt Drivers.

Local Abbreviation st := (machine handler drivers).

(** Who waits for a queue is blocked, and waits for nothing else. *)
Record devices_ok (s : kstate) (d : drivers) : Prop := {
  do_queue : ∀ i, intq_wf (get_queue i d);
  do_blocked : ∀ i w t, get_waiter w (get_queue i d) = Some t → stat s t = Some THREAD_BLOCKED ∧ t ≠ idle_thread s;
  do_once : ∀ i w i' w' t, get_waiter w (get_queue i d) = Some t → get_waiter w' (get_queue i' d) = Some t → i = i' ∧ w = w';
}.

Lemma devices_intr s b d : devices_ok s d → devices_ok (set_intr s b) d.
Proof. intros [H1 H2 H3]. by split. Qed.

Lemma devices_yield s s' d : sched_inv s → thread_yield s = Ok s' → devices_ok s d → devices_ok s' d.
Proof.
  intros Hs E [H1 H2 H3]. destruct (thread_yield_ok s Hs) as (s'' & E' & Hg). rewrite E in E'. injection E' as <-. split; [done| |done].
  intros i w t Hw. destruct (H2 i w t Hw) as [Hst Hid]. rewrite (gu_idle _ _ _ _ Hg). split; [|done].
  assert (t ≠ Thread.cur s) as Hc. { intros ->. destruct (si_cur _ Hs) as (th & Ht & Hr). unfold stat in Hst. rewrite Ht in Hst. cbn in Hst. congruence. }
  rewrite (gu_other _ _ _ _ Hg); [done|done|]. rewrite (gu_cur _ _ _ _ Hg). intros E'.
  assert (t ∈ ready_list s → False) as Hnr. { intros Hin. destruct (lo_ready _ (si_lists _ Hs) t Hin) as (_ & th & Ht & Hr). unfold stat in Hst. rewrite Ht in Hst. cbn in Hst. congruence. }
  case_decide as Hd.
  - destruct (ready_list s) as [|x l]; cbn in E'; [done|]. subst x. apply Hnr. left.
  - destruct (ready_list s) as [|x l]; cbn in E'; [done|]. subst x. apply Hnr. left.
Qed.

Section safe.
Context (intr_stubs : Z → Z).
Implicit Types m : st.

(** While the handler of a device runs. *)
Record in_service m : Prop := {
  is_ok : machine_ok intr_stubs devices_ok m;
  is_off : intr (ks m) = false;
  is_context : in_external_intr m = true;
}.

Lemma in_service_dev m d : in_service m → devices_ok (ks m) d → in_service (set_dev m d).
Proof using. intros [Hok Hi Hc] Hd. split; [|done|done]. by apply (machine_ok_frame _ _ m); [|apply Hok| |]. Qed.

Lemma in_service_ports m l : in_service m → in_service (set_ports m l).
Proof using. intros [Hok Hi Hc]. split; [|done|done]. by apply (machine_ok_frame _ _ m); [|apply Hok|apply Hok|]. Qed.

Lemma in_service_devices m : in_service m → devices_ok (ks m) (dev m).
Proof using. intros [[] _ _]. done. Qed.

Lemma assert_off_ok m : in_service m → assert_off m = Ok (tt, m).
Proof using. intros [_ Hi _]. unfold assert_off, intr_get_level, assertS, bindS. by rewrite Hi. Qed.

Lemma queue_is_empty_ok i m : in_service m → queue_is_empty i m = Ok (intq_empty (get_queue i (dev m)), m).
Proof using. intros Hs. unfold queue_is_empty. by rewrite (bindS_Ok _ _ _ _ _ (assert_off_ok m Hs)). Qed.

Lemma queue_is_full_ok i m : in_service m → queue_is_full i m = Ok (intq_full (get_queue i (dev m)), m).
Proof using. intros Hs. unfold queue_is_full. by rewrite (bindS_Ok _ _ _ _ _ (assert_off_ok m Hs)). Qed.

Lemma input_full_ok m : in_service m → input_full m = Ok (intq_full (buffer (dev m)), m).
Proof using. intros Hs. unfold input_full. by rewrite (bindS_Ok _ _ _ _ _ (assert_off_ok m Hs)), (queue_is_full_ok Input m Hs). Qed.

Lemma get_set_queue i q d : get_queue i (set_queue i q d) = q.
Proof using. by destruct i. Qed.

Lemma get_set_queue_ne i j q d : i ≠ j → get_queue j (set_queue i q d) = get_queue j d.
Proof using. by destruct i, j. Qed.

(** A queue changes, and the thread that waited for the change is woken up. *)
Lemma queue_changed i w q' m :
  in_service m → intq_wf q' → get_waiter w q' = None → (∀ w', w' ≠ w → get_waiter w' q' = get_waiter w' (get_queue i (dev m))) →
  ∃ s, unblock (get_waiter w (get_queue i (dev m))) (set_dev m (set_queue i q' (dev m))) = Ok (tt, set_ks (set_dev m (set_queue i q' (dev m))) s) ∧
    in_service (set_ks (set_dev m (set_queue i q' (dev m))) s).
Proof using.
  intros Hs Hwf Hnone Hother. pose proof Hs as [Hok Hi Hc]. pose proof (in_service_devices m Hs) as [H1 H2 H3].
  assert (∀ i1 w1 t, get_waiter w1 (get_queue i1 (set_queue i q' (dev m))) = Some t → get_waiter w1 (get_queue i1 (dev m)) = Some t ∧ (i1, w1) ≠ (i, w)) as Hsub.
  { intros i1 w1 t Ht. destruct (decide (i1 = i)) as [->|Hne].
    - rewrite get_set_queue in Ht. assert (w1 ≠ w) by (intros ->; congruence). rewrite <-Hother by done. split; [done|]. by intros [= ->].
    - rewrite get_set_queue_ne in Ht by done. split; [done|]. by intros [= -> _]. }
  assert (∀ i1, intq_wf (get_queue i1 (set_queue i q' (dev m)))) as Hwf'.
  { intros i1. destruct (decide (i1 = i)) as [->|]; [by rewrite get_set_queue|by rewrite get_set_queue_ne]. }
  assert (devices_ok (ks m) (set_queue i q' (dev m))) as Hd.
  { split; [done| |]. - intros i1 w1 t [Ht _]%Hsub. by apply (H2 i1 w1). - intros i1 w1 i2 w2 t [Ht1 _]%Hsub [Ht2 _]%Hsub. by apply (H3 i1 w1 i2 w2 t). }
  destruct (get_waiter w (get_queue i (dev m))) as [t|] eqn:Ew; cbn [unblock].
  - destruct (H2 i w t Ew) as [Hst Hid]. destruct (thread_unblock_ok (ks m) t (mo_sched _ _ _ Hok) Hst Hid) as (s & E & Hs' & Hcur & Hi' & Hidle & _ & _ & _ & Hoth).
    exists s. unfold bindS, getS, liftS, putS. cbn [ks set_dev]. rewrite E. split; [done|]. split; [|cbn; congruence|done].
    apply (machine_ok_frame _ _ m); [done|done| |done]. cbn [ks dev set_ks set_dev]. split; [done| |].
    + intros i1 w1 t1 [Ht1 Hne]%Hsub. destruct (H2 i1 w1 t1 Ht1) as [Hst1 Hid1]. rewrite Hidle. split; [|done]. rewrite Hoth; [done|].
      intros ->. destruct (H3 i1 w1 i w t Ht1 Ew) as [-> ->]. done.
    + intros i1 w1 i2 w2 t1 [Ht1 _]%Hsub [Ht2 _]%Hsub. by apply (H3 i1 w1 i2 w2 t1).
  - exists (ks m). split; [by destruct m|]. destruct (in_service_dev m _ Hs Hd) as [H4 H5 H6]. by split; [apply (machine_ok_frame _ _ (set_dev m (set_queue i q' (dev m)))); [|apply H4|apply H4|]| |].
Qed.

(** What the operations on a queue leave alone. *)
Record moved (i : queue_id) (q' : intq) m m' : Prop := {
  mv_service : in_service m';
  mv_dev : dev m' = set_queue i q' (dev m);
  mv_ports : ports m' = ports m;
  mv_yield : yield_on_return m' = yield_on_return m;
}.

Lemma queue_getc_ok i m :
  in_service m → intq_empty (get_queue i (dev m)) = false →
  ∃ b q' m', queue_getc i m = Ok (Some b, m') ∧ contents (get_queue i (dev m)) = b :: contents q' ∧ Intq.size q' = Intq.size (get_queue i (dev m)) - 1 ∧ moved i q' m m'.
Proof using.
  intros Hs He. pose proof (in_service_devices m Hs) as Hd. destruct (take_byte_ok _ (do_queue _ _ Hd i) He) as (b & q' & E & Hc & Hwf & Hsz & _ & Hf & Hne).
  unfold queue_getc. rewrite (bindS_Ok _ _ _ _ _ (queue_is_empty_ok i m Hs)), He. rewrite (bindS_Ok _ _ m (dev m) m eq_refl).
  rewrite (bindS_Ok _ _ m (b, not_full (get_queue i (dev m)), q') m) by (unfold liftS; by rewrite E). rewrite (bindS_Ok _ _ m tt (set_dev m (set_queue i q' (dev m))) eq_refl).
  destruct (queue_changed i NotFull q' m Hs Hwf Hf) as (s & Eu & Hs'); [by intros []|]. change (not_full (get_queue i (dev m))) with (get_waiter NotFull (get_queue i (dev m))).
  rewrite (bindS_Ok _ _ _ _ _ Eu). exists b, q', (set_ks (set_dev m (set_queue i q' (dev m))) s). split_and!; [done|done|done|]. by split.
Qed.

Lemma queue_putc_ok i b m :
  in_service m → intq_full (get_queue i (dev m)) = false →
  ∃ q' m', queue_putc i b m = Ok (Some tt, m') ∧ contents q' = contents (get_queue i (dev m)) ++ [b] ∧ Intq.size q' = Intq.size (get_queue i (dev m)) + 1 ∧ moved i q' m m'.
Proof using.
  intros Hs He. pose proof (in_service_devices m Hs) as Hd. destruct (add_byte_ok _ (do_queue _ _ Hd i) b He) as (q' & E & Hc & Hwf & Hsz & _ & Hf & Hne).
  unfold queue_putc. rewrite (bindS_Ok _ _ _ _ _ (queue_is_full_ok i m Hs)), He. rewrite (bindS_Ok _ _ m (dev m) m eq_refl).
  rewrite (bindS_Ok _ _ m (not_empty (get_queue i (dev m)), q') m) by (unfold liftS; by rewrite E). rewrite (bindS_Ok _ _ m tt (set_dev m (set_queue i q' (dev m))) eq_refl).
  destruct (queue_changed i NotEmpty q' m Hs Hwf Hne) as (s & Eu & Hs'); [by intros []|]. change (not_empty (get_queue i (dev m))) with (get_waiter NotEmpty (get_queue i (dev m))).
  rewrite (bindS_Ok _ _ _ _ _ Eu). exists q', (set_ks (set_dev m (set_queue i q' (dev m))) s). split_and!; [done|done|done|]. by split.
Qed.

(** The interrupts that the port may raise: for space in its register while there is something to
    send, and for a byte that has arrived while there is room for it. *)
Definition ier (d : drivers) : Z := Z.lor (if intq_empty (txq d) then 0 else IER_XMIT) (if intq_full (buffer d) then 0 else IER_RECV).

Lemma write_ier_ok m : in_service m → write_ier m = Ok (tt, set_ports m (ports m ++ [(IER_REG, ier (dev m))])).
Proof using.
  intros Hs. unfold write_ier. rewrite (bindS_Ok _ _ _ _ _ (assert_off_ok m Hs)), (bindS_Ok _ _ _ _ _ (queue_is_empty_ok Txq m Hs)).
  by rewrite (bindS_Ok _ _ _ _ _ (input_full_ok m Hs)).
Qed.

(** The bytes that went out of the port. *)
Definition sent (l : list (Z * Z)) : list Z := omap (λ '(p, b), if p =? THR_REG then Some b else None) l.

Lemma sent_app l l' : sent (l ++ l') = sent l ++ sent l'.
Proof using. apply omap_app. Qed.

Lemma serial_notify_ok m : in_service m → ∃ m', serial_notify m = Ok (tt, m') ∧ in_service m' ∧ dev m' = dev m ∧ sent (ports m') = sent (ports m) ∧ yield_on_return m' = yield_on_return m.
Proof using.
  intros Hs. unfold serial_notify. rewrite (bindS_Ok _ _ _ _ _ (assert_off_ok m Hs)), (bindS_Ok _ _ m (dev m) m eq_refl).
  destruct (mode (dev m)); [by exists m..|]. rewrite (write_ier_ok m Hs). eexists. split; [reflexivity|]. split_and!; [by apply in_service_ports|done| |done].
  cbn [ports set_ports]. rewrite sent_app. apply app_nil_r.
Qed.

Lemma input_putc_ok b m :
  in_service m → intq_full (buffer (dev m)) = false →
  ∃ q' m', input_putc b m = Ok (Some tt, m') ∧ in_service m' ∧ dev m' = set_queue Input q' (dev m) ∧ contents q' = contents (buffer (dev m)) ++ [b] ∧
    sent (ports m') = sent (ports m) ∧ yield_on_return m' = yield_on_return m.
Proof using.
  intros Hs Hf. unfold input_putc. rewrite (bindS_Ok _ _ _ _ _ (assert_off_ok m Hs)), (bindS_Ok _ _ _ _ _ (queue_is_full_ok Input m Hs)).
  change (get_queue Input (dev m)) with (buffer (dev m)). rewrite Hf. rewrite (bindS_Ok _ _ m tt m eq_refl).
  destruct (queue_putc_ok Input b m Hs Hf) as (q' & m1 & E1 & Hc & _ & [Hs1 Hd1 Hp1 Hy1]). rewrite (bindS_Ok _ _ _ _ _ E1).
  destruct (serial_notify_ok m1 Hs1) as (m2 & E2 & Hs2 & Hd2 & Hp2 & Hy2). rewrite (bindS_Ok _ _ _ _ _ E2). exists q', m2. split_and!; try done; congruence.
Qed.

(** Only the queues matter to the invariant. *)
Lemma in_service_queues m d : in_service m → (∀ i, get_queue i d = get_queue i (dev m)) → in_service (set_dev m d).
Proof using.
  intros Hs E. apply in_service_dev; [done|]. destruct (in_service_devices m Hs) as [H1 H2 H3].
  split; [intros i; by rewrite E|intros i w t; rewrite E; apply H2|intros i w i' w' t; rewrite !E; apply H3].
Qed.

Lemma LSR_bits (r : list Z) (b : bool) :
  let v := Z.lor (match r with [] => 0 | _ => LSR_DR end) (if b then LSR_THRE else 0) in
  (Z.land v LSR_DR =? 0) = match r with [] => true | _ => false end ∧ (Z.land v LSR_THRE =? 0) = negb b.
Proof using. by destruct r, b. Qed.

(** The machine after the line status has been read. *)
Definition status_read m : st := set_dev m (set_port (dev m) (Uart (rx (port (dev m))) (tail (thre (port (dev m)))) (pending (port (dev m))))).

Lemma inb_LSR_ok m :
  in_service m → ∃ v, inb_LSR m = Ok (v, status_read m) ∧ in_service (status_read m) ∧
    (Z.land v LSR_DR =? 0) = (match rx (port (dev m)) with [] => true | _ => false end) ∧
    (Z.land v LSR_THRE =? 0) = negb (match thre (port (dev m)) with b :: _ => b | [] => true end).
Proof using.
  intros Hs. set (ready := match thre (port (dev m)) with b :: _ => b | [] => true end).
  exists (Z.lor (match rx (port (dev m)) with [] => 0 | _ => LSR_DR end) (if ready then LSR_THRE else 0)).
  split_and!; [done|apply in_service_queues; [done|by intros []]|apply LSR_bits|apply LSR_bits].
Qed.

(** How many of [n] bytes a port takes that answers [l] to the coming questions: it is asked before
    each byte, until it is not ready. *)
Fixpoint accepted (n : nat) (l : list bool) : nat :=
  match n, l with
  | O, _ | _, false :: _ => 0
  | S n, _ => S (accepted n (tail l))
  end.

Lemma receive_loop_ok n m :
  in_service m → (length (rx (port (dev m))) < n)%nat →
  ∃ k m', receive_loop n m = Ok (tt, m') ∧ in_service m' ∧ contents (buffer (dev m')) = contents (buffer (dev m)) ++ take k (rx (port (dev m))) ∧
    rx (port (dev m')) = drop k (rx (port (dev m))) ∧ (intq_full (buffer (dev m')) = true ∨ rx (port (dev m')) = []) ∧
    txq (dev m') = txq (dev m) ∧ sent (ports m') = sent (ports m) ∧ pending (port (dev m')) = pending (port (dev m)) ∧
    thre (port (dev m')) = drop (if intq_full (buffer (dev m')) then k else S k) (thre (port (dev m))).
Proof using.
  revert m. induction n as [|n IH]; intros m Hs Hn; [lia|]. cbn [receive_loop]. rewrite (bindS_Ok _ _ _ _ _ (input_full_ok m Hs)).
  destruct (intq_full (buffer (dev m))) eqn:Ef.
  { exists 0%nat, m. rewrite Ef. split_and!; try done; by rewrite ?app_nil_r; try left. }
  destruct (inb_LSR_ok m Hs) as (v & E1 & Hs1 & Hdr & _). rewrite (bindS_Ok _ _ _ _ _ E1), Hdr. set (m1 := status_read m) in *.
  destruct (rx (port (dev m))) as [|b l] eqn:Erx.
  { exists 0%nat, m1. change (buffer (dev m1)) with (buffer (dev m)). rewrite Ef. split_and!; try done; [by rewrite app_nil_r|by right]. }
  set (m2 := set_dev m1 (set_port (dev m1) (Uart l (thre (port (dev m1))) (pending (port (dev m1)))))). rewrite (bindS_Ok inb_RBR _ m1 b m2) by (unfold inb_RBR, bindS, get_dev, put_dev, retS, m2; cbn; by rewrite Erx).
  assert (in_service m2) as Hs2 by (apply in_service_queues; [done|by intros []]).
  destruct (input_putc_ok b m2 Hs2 Ef) as (q' & m3 & E3 & Hs3 & Hd3 & Hc3 & Hp3 & Hy3). rewrite (bindS_Ok _ _ _ _ _ E3).
  assert (port (dev m3) = Uart l (tail (thre (port (dev m)))) (pending (port (dev m)))) as Hport by by rewrite Hd3.
  destruct (IH m3 Hs3) as (k & m' & E & Hs' & Hc & Hr & Hend & Htx & Hp & Hpe & Hth); [rewrite Hport; cbn in *; lia|].
  exists (S k), m'. rewrite Hport in Hr, Hc, Hth, Hpe. cbn [rx thre pending] in *. split_and!; try done.
  - rewrite Hc, Hd3. cbn [buffer set_queue]. rewrite Hc3. cbn. by rewrite <-app_assoc.
  - by rewrite Htx, Hd3.
  - by rewrite Hp, Hp3.
  - rewrite Hth. destruct (thre (port (dev m))); cbn [tail]; [by rewrite !drop_nil|]. by destruct (intq_full (buffer (dev m'))).
Qed.

Lemma transmit_loop_ok n m :
  in_service m → Intq.size (txq (dev m)) < Z.of_nat n →
  let j := accepted (length (contents (txq (dev m)))) (thre (port (dev m))) in
  ∃ m', transmit_loop n m = Ok (tt, m') ∧ in_service m' ∧ contents (txq (dev m')) = drop j (contents (txq (dev m))) ∧
    sent (ports m') = sent (ports m) ++ take j (contents (txq (dev m))) ∧ buffer (dev m') = buffer (dev m) ∧ rx (port (dev m')) = rx (port (dev m)) ∧
    pending (port (dev m')) = pending (port (dev m)).
Proof using.
  revert m. induction n as [|n IH]; intros m Hs Hn; [pose proof (size_range (txq (dev m))); lia|]. cbn [transmit_loop]. cbv zeta.
  rewrite (bindS_Ok _ _ _ _ _ (queue_is_empty_ok Txq m Hs)). change (get_queue Txq (dev m)) with (txq (dev m)).
  pose proof (do_queue _ _ (in_service_devices m Hs) Txq) as Hwf. cbn [get_queue] in Hwf. destruct (intq_empty (txq (dev m))) eqn:Ee.
  { assert (contents (txq (dev m)) = []) as ->. { rewrite empty_size in Ee by done. apply Z.eqb_eq in Ee. apply length_zero_iff_nil. rewrite contents_length. lia. }
    exists m. rewrite drop_nil, take_nil, app_nil_r. split_and!; try done. rewrite empty_size in Ee by done. apply Z.eqb_eq in Ee. apply length_zero_iff_nil. rewrite contents_length. lia. }
  destruct (inb_LSR_ok m Hs) as (v & E1 & Hs1 & _ & Hth). rewrite (bindS_Ok _ _ _ _ _ E1), Hth. set (m1 := status_read m) in *.
  destruct (queue_getc_ok Txq m1 Hs1 Ee) as (b & q' & m2 & E2 & Hc & Hsz & [Hs2 Hd2 Hp2 Hy2]).
  change (dev m1) with (dev (status_read m)) in *. unfold status_read in Hd2, Hc, Hsz. cbn [dev set_dev get_queue txq set_port] in Hd2, Hc, Hsz. rewrite Hc.
  destruct (match thre (port (dev m)) with b :: _ => b | [] => true end) eqn:Eb; cbn [negb].
  2:{ assert (accepted (length (b :: contents q')) (thre (port (dev m))) = 0%nat) as -> by (by destruct (thre (port (dev m))) as [|[] ?]).
      exists m1. split_and!; try done. by rewrite app_nil_r. }
  assert (accepted (length (b :: contents q')) (thre (port (dev m))) = S (accepted (length (contents q')) (tail (thre (port (dev m)))))) as -> by (by destruct (thre (port (dev m))) as [|[] ?]).
  rewrite (bindS_Ok _ _ _ _ _ E2).
  set (m3 := set_ports m2 (ports m2 ++ [(THR_REG, b)])). rewrite (bindS_Ok (outb THR_REG b) _ m2 tt m3 eq_refl). assert (in_service m3) as Hs3 by by apply in_service_ports.
  assert (dev m3 = dev m2) as Hd3 by done. rewrite Hd2 in Hd3. destruct (IH m3 Hs3) as (m' & E & Hs' & Hc' & Hp' & Hb' & Hr' & Hpe'); [rewrite Hd3; cbn; lia|].
  exists m'. rewrite Hd3 in Hc', Hp', Hb', Hr', Hpe'. cbn [txq set_queue buffer port set_port rx thre pending] in *. split_and!; try done.
  rewrite Hp'. cbn [ports m3 set_ports]. rewrite sent_app, Hp2. cbn. by rewrite <-app_assoc.
Qed.

(** The handler as a whole. *)
Lemma serial_handler_ok m :
  in_service m →
  ∃ k m', serial_interrupt_handler m = Ok (tt, m') ∧ in_service m' ∧
    contents (buffer (dev m')) = contents (buffer (dev m)) ++ take k (rx (port (dev m))) ∧ rx (port (dev m')) = drop k (rx (port (dev m))) ∧
    (intq_full (buffer (dev m')) = true ∨ rx (port (dev m')) = []) ∧
    (let j := accepted (length (contents (txq (dev m)))) (drop (if intq_full (buffer (dev m')) then k else S k) (thre (port (dev m)))) in
     sent (ports m') = sent (ports m) ++ take j (contents (txq (dev m))) ∧ contents (txq (dev m')) = drop j (contents (txq (dev m)))) ∧
    last (ports m') = Some (IER_REG, ier (dev m')) ∧ pending (port (dev m')) = false.
Proof using.
  intros Hs. unfold serial_interrupt_handler. set (m0 := set_dev m (set_port (dev m) (Uart (rx (port (dev m))) (thre (port (dev m))) false))).
  rewrite (bindS_Ok inb_IIR _ m tt m0 eq_refl), (bindS_Ok _ _ m0 (dev m0) m0 eq_refl).
  assert (in_service m0) as Hs0 by (apply in_service_queues; [done|by intros []]).
  destruct (receive_loop_ok (S (length (rx (port (dev m0))))) m0 Hs0 ltac:(lia)) as (k & m1 & E1 & Hs1 & Hc1 & Hr1 & Hend1 & Htx1 & Hp1 & Hpe1 & Hth1). rewrite (bindS_Ok _ _ _ _ _ E1).
  pose proof (size_range (txq (dev m1))) as Hsz. destruct (transmit_loop_ok 64 m1 Hs1 ltac:(lia)) as (m2 & E2 & Hs2 & Hc2 & Hp2 & Hb2 & Hr2 & Hpe2). rewrite (bindS_Ok _ _ _ _ _ E2).
  rewrite Htx1, Hth1 in Hc2, Hp2. rewrite <-Hb2 in Hc1, Hend1, Hc2, Hp2. rewrite <-Hr2 in Hr1, Hend1.
  rewrite (write_ier_ok m2 Hs2). exists k. eexists. split; [reflexivity|]. cbn [dev set_ports ports]. split_and!; try done.
  - by apply in_service_ports.
  - rewrite sent_app, Hp2, Hp1. cbn [sent]. by rewrite app_nil_r.
  - apply last_snoc.
  - by rewrite Hpe2, Hpe1.
Qed.

(** C22. The interrupt of the serial port loses no byte and keeps their order: the bytes that have
    arrived go to the input buffer, until it is full or there are no more, and the others stay where
    they are. Of the bytes that are to be sent, exactly those leave, in their order, for which the
    port says that it is ready when it is asked before each of them; the first for which it is not
    ready and all after it stay in the queue. In the end the interrupt has been inquired about, and
    the port may raise just the interrupts that there is work for. *)
Theorem serial_interrupt_moves m :
  in_service m →
  ∃ k m', serial_interrupt_handler m = Ok (tt, m') ∧ in_service m' ∧
    contents (buffer (dev m')) = contents (buffer (dev m)) ++ take k (rx (port (dev m))) ∧ rx (port (dev m')) = drop k (rx (port (dev m))) ∧
    (intq_full (buffer (dev m')) = true ∨ rx (port (dev m')) = []) ∧
    (let j := accepted (length (contents (txq (dev m)))) (drop (if intq_full (buffer (dev m')) then k else S k) (thre (port (dev m)))) in
     sent (ports m') = sent (ports m) ++ take j (contents (txq (dev m))) ∧ contents (txq (dev m')) = drop j (contents (txq (dev m)))) ∧
    last (ports m') = Some (IER_REG, ier (dev m')) ∧ pending (port (dev m')) = false.
Proof using. apply serial_handler_ok. Qed.

(** ** The timer *)

Lemma tick_ok s : sched_inv s → ∃ s' y, thread_tick s = Ok (s', y) ∧ sched_inv s' ∧ intr s' = intr s ∧ idle_thread s' = idle_thread s ∧ threads s' = threads s.
Proof using.
  intros Hs. unfold thread_tick. rewrite thread_current_ok by done. mstep. destruct (si_cur _ Hs) as (th & Ht & _). unfold get_thread. rewrite Ht. mstep.
  destruct (if Thread.cur s =? idle_thread s then _ else _) as [[i k] u]. eexists _, _. split; [reflexivity|]. split_and!; try done. destruct Hs as [[] ? ? ?]. split; [split|..]; done.
Qed.

Lemma timer_interrupt_ok m :
  in_service m → ∃ m' s y, timer_interrupt_handler m = Ok (tt, m') ∧ in_service m' ∧ thread_tick (ks m) = Ok (s, y) ∧ ks m' = s ∧
    ticks (dev m') = s64 (ticks (dev m) + 1) ∧ yield_on_return m' = (y || yield_on_return m) ∧ ports m' = ports m ∧ ∀ i, get_queue i (dev m') = get_queue i (dev m).
Proof using.
  intros Hs. unfold timer_interrupt_handler. rewrite (bindS_Ok _ _ m (dev m) m eq_refl). set (d1 := set_time (dev m) _ _). set (m1 := set_dev m d1). rewrite (bindS_Ok (put_dev d1) _ m tt m1 eq_refl).
  rewrite (bindS_Ok _ _ m1 m1 m1 eq_refl). destruct (tick_ok (ks m) (mo_sched _ _ _ (is_ok _ Hs))) as (s & y & E & Hs' & Hi & Hid & Hth).
  rewrite (bindS_Ok _ _ m1 (s, y) m1) by (unfold liftS; change (ks m1) with (ks m); by rewrite E). cbn iota beta. set (m2 := set_ks m1 s). rewrite (bindS_Ok (putS m2) _ m1 tt m2 eq_refl).
  assert (in_service m2) as Hs2.
  { pose proof Hs as [Hok Hi0 Hc]. split; [|cbn; congruence|done]. apply (machine_ok_frame _ _ m); [done|done| |done]. cbn [ks dev set_ks set_dev m2 m1].
    destruct (in_service_devices m Hs) as [H1 H2 H3]. split; [intros []; [apply (H1 Txq)|apply (H1 Input)]| |].
    - intros i w t Hw. unfold stat. rewrite Hth, Hid. apply (H2 i w). by destruct i.
    - intros i w i' w' t Hw Hw'. apply (H3 i w i' w' t); [by destruct i|by destruct i']. }
  destruct y.
  - exists (set_context m2 true true), s, true. pose proof Hs2 as [Hok2 Hi2 Hc2]. split_and!; try done.
    + unfold intr_yield_on_return. rewrite (bindS_Ok intr_context _ m2 true m2) by (unfold intr_context; by rewrite Hc2).
      rewrite (bindS_Ok (assertS true) _ m2 tt m2 eq_refl), (bindS_Ok getS _ m2 m2 m2 eq_refl). unfold putS. by rewrite Hc2.
    + split; [|done|done]. by apply (machine_ok_frame _ _ m2); [|apply Hok2|apply Hok2|].
  - by exists m2, s, false.
Qed.

(** ** The keyboard *)

(** A key, by its scancode without and with the prefix 0xe0, goes down or up. *)
Record event := Event { key : Z; down : bool }.

Definition event_ok (e : event) : bool :=
  ((0 <? key e) && (key e <? 0x80) && negb (key e =? 0x60)) || ((0xe000 <? key e) && (key e <? 0xe080)).

(** The bytes that the controller sends for it. *)
Definition scan_byte (e : event) : Z := key e mod 256 + if down e then 0 else 0x80.
Definition encode (e : event) : list Z := if key e <? 0x80 then [scan_byte e] else [0xe0; scan_byte e].

(** What has happened since the keyboard was attached says which keys are down, and whether
    Caps Lock is on. *)
Definition held (code : Z) (hist : list event) : bool :=
  match last (filter (λ e, key e = code) hist) with Some e => down e | None => false end.
Definition shift_held (hist : list event) : bool := held 0x2a hist || held 0x36 hist.
Definition alt_held (hist : list event) : bool := held 0x38 hist || held 0xe038 hist.
Definition ctrl_held (hist : list event) : bool := held 0x1d hist || held 0xe01d hist.
Definition caps_on (hist : list event) : bool := Nat.odd (length (filter (λ e, key e = 0x3a ∧ down e = true) hist)).

(** The US keyboard: runs of keys, with what is on them, without and with Shift; letters are upper
    case. *)
Definition layout : list (Z * list Z * list Z) :=
  [(1, [27], [27]); (2, bytes "1234567890-=", bytes "!@#$%^&*()_+"); (14, [8; 9], [8; 9]); (16, bytes "QWERTYUIOP[]", bytes "QWERTYUIOP{}"); (28, [13], [13]);
   (30, bytes "ASDFGHJKL;'`", bytes "ASDFGHJKL:" ++ [34; 126]); (43, [92] ++ bytes "ZXCVBNM,./", bytes "|ZXCVBNM<>?"); (55, bytes "*", bytes "*"); (57, [32], [32]); (83, [127], [127])].

Definition legend (code : Z) (shift : bool) : option Z :=
  '(first, plain, shifted) ← list_find (λ r, r.1.1 ≤ code < r.1.1 + Z.of_nat (length r.1.2)) layout ≫= λ x, Some x.2;
  (if shift then shifted else plain) !! Z.to_nat (code - first).

(** Shift and Caps Lock undo each other for letters; Ctrl keeps five bits of what is between @ and
    the underscore; Alt sets the highest bit. *)
Definition typed_char (c : Z) (shift ctrl alt caps : bool) : Z :=
  let letter := bool_decide (ch "A" ≤ c ≤ ch "Z") in
  let c := if ctrl && bool_decide (ch "@" ≤ c ≤ ch "_") then Z.land c 31 else if letter && negb (xorb shift caps) then Z.lor c 32 else c in
  if alt then Z.lor c 128 else c.

Definition typed_by (hist : list event) (e : event) : option Z :=
  if down e then (λ c, typed_char c (shift_held hist) (ctrl_held hist) (alt_held hist) (caps_on hist)) <$> legend (key e) (shift_held hist) else None.

Definition resets (hist : list event) (e : event) : bool :=
  down e && bool_decide (legend (key e) (shift_held hist) = Some 127) && ctrl_held hist && alt_held hist.

Record tracks (k : keyboard) (hist : list event) : Prop := {
  tr_ls : left_shift k = held 0x2a hist; tr_rs : right_shift k = held 0x36 hist;
  tr_la : left_alt k = held 0x38 hist; tr_ra : right_alt k = held 0xe038 hist;
  tr_lc : left_ctrl k = held 0x1d hist; tr_rc : right_ctrl k = held 0xe01d hist;
  tr_caps : caps_lock k = caps_on hist;
}.

Lemma held_snoc code hist e : held code (hist ++ [e]) = if decide (key e = code) then down e else held code hist.
Proof using.
  unfold held. rewrite filter_app. case_decide as Hd; [rewrite filter_cons_True, filter_nil, last_snoc by done; done|].
  rewrite filter_cons_False, filter_nil by done. by rewrite app_nil_r.
Qed.

Lemma caps_snoc hist e : caps_on (hist ++ [e]) = if decide (key e = 0x3a ∧ down e = true) then negb (caps_on hist) else caps_on hist.
Proof using.
  unfold caps_on. rewrite filter_app, length_app. case_decide as Hd; [rewrite filter_cons_True by done|rewrite filter_cons_False by done]; cbn [filter list_filter length].
  - rewrite Nat.add_1_r, Nat.odd_succ. by rewrite Nat.negb_odd.
  - by rewrite Nat.add_0_r.
Qed.

(** What the handler makes of the bytes. *)
Definition raw (e : event) : Z := if key e <? 0x80 then scan_byte e else Z.lor (Z.shiftl 0xe0 8) (scan_byte e).

Lemma event_cases (P : event → bool) :
  forallb (λ k, P (Event k true) && P (Event k false)) (filter (λ k, k ≠ 0x60) (seqZ 1 0x7f) ++ seqZ 0xe001 0x7f) = true → ∀ e, event_ok e = true → P e = true.
Proof using.
  rewrite forallb_forall. intros H e He. assert (In (key e) (filter (λ k, k ≠ 0x60) (seqZ 1 0x7f) ++ seqZ 0xe001 0x7f)) as Hin.
  { apply list_elem_of_In, elem_of_app. unfold event_ok in He. apply orb_true_iff in He as [He|He]; bool_inv; [left|right; apply elem_of_seqZ; lia].
    apply list_elem_of_filter. split; [done|]. apply elem_of_seqZ. lia. }
  specialize (H _ Hin). apply andb_true_iff in H as [H1 H2]. by destruct e as [k []].
Qed.

Lemma raw_ok e :
  event_ok e = true → ((Z.land (raw e) 0x80 =? 0) = down e ∧ Z.land (raw e) (Z.lnot 0x80) = key e) ∧ ((key e <? 0x80) = true → scan_byte e ≠ 0xe0).
Proof using.
  intros He. pose (P := λ e, Bool.eqb (Z.land (raw e) 0x80 =? 0) (down e) && (Z.land (raw e) (Z.lnot 0x80) =? key e) && (negb (key e <? 0x80) || negb (scan_byte e =? 0xe0))).
  assert (P e = true) as H by (apply event_cases; [vm_compute; reflexivity|done]). unfold P in H. apply andb_true_iff in H as [[H1 H2]%andb_true_iff H3].
  apply eqb_prop in H1. apply Z.eqb_eq in H2. split; [done|]. intros Hk. rewrite Hk in H3. cbn in H3. apply negb_true_iff, Z.eqb_neq in H3. done.
Qed.

Definition set_scan (k : keyboard) (l : list Z) : keyboard :=
  Keyboard (left_shift k) (right_shift k) (left_alt k) (right_alt k) (left_ctrl k) (right_ctrl k) (caps_lock k) (key_cnt k) l.

(** The machine after the bytes of an event have been read. *)
Definition scanned (rest : list Z) m : st := set_dev m (set_kbd (dev m) (set_scan (kbd (dev m)) rest)).

Lemma inb_DATA_ok m b l : scancodes (kbd (dev m)) = b :: l → inb_DATA m = Ok (b, scanned l m).
Proof using. intros E. unfold inb_DATA, scanned, set_scan, bindS, get_dev, put_dev, retS. by rewrite E. Qed.

Lemma read_code {A} (k : Z → ST st A) m e rest :
  event_ok e = true → scancodes (kbd (dev m)) = encode e ++ rest →
  (code <-- inb_DATA ;; code <-- (if code =? 0xe0 then b <-- inb_DATA ;; retS (Z.lor (Z.shiftl code 8) b) else retS code) ;; k code) m = k (raw e) (scanned rest m).
Proof using.
  intros He Hs. destruct (raw_ok e He) as [_ Hne]. unfold encode, raw in *. destruct (key e <? 0x80) eqn:Ek.
  - rewrite (bindS_Ok _ _ _ _ _ (inb_DATA_ok m _ _ Hs)). rewrite (proj2 (Z.eqb_neq _ _)) by (by apply Hne). done.
  - rewrite (bindS_Ok _ _ _ _ _ (inb_DATA_ok m _ _ Hs)). cbn [Z.eqb Pos.eqb]. unfold bindS at 1. rewrite (bindS_Ok _ _ _ _ _ (inb_DATA_ok (scanned (scan_byte e :: rest) m) _ _ eq_refl)). done.
Qed.

(** Keys that produce a character are no shift keys. *)
(** The tables of the driver are this layout. *)
Definition mapped (code : Z) (shift : bool) : option Z :=
  match map_key invariant_keymap code with Some c => Some c | None => if shift then map_key shifted_keymap code else map_key unshifted_keymap code end.

Lemma mapped_low code shift : 0 ≤ code < 128 → mapped code shift = legend code shift ∧ ∀ c, legend code shift = Some c → 0 ≤ c < 128.
Proof using.
  intros Hc. assert (Forall (λ x, mapped x true = legend x true ∧ mapped x false = legend x false ∧ 0 ≤ default 0 (legend x true) < 128 ∧ 0 ≤ default 0 (legend x false) < 128) (seqZ 0 128)) as Hall
    by (apply (bool_decide_unpack _); by vm_compute).
  rewrite Forall_forall in Hall. destruct (Hall code) as (H1 & H2 & H3 & H4); [apply elem_of_seqZ; lia|]. destruct shift; (split; [done|]); intros c Hl; [rewrite Hl in H3|rewrite Hl in H4]; done.
Qed.

Lemma mapped_high code shift : 128 ≤ code → mapped code shift = None ∧ legend code shift = None.
Proof using.
  intros Hc. assert (∀ k, Forall (λ r, r.1 + Z.of_nat (length r.2) ≤ 128) k → map_key k code = None) as Hk.
  { induction 1 as [|[f l] k Hr _ IH]; [done|]. cbn [map_key]. rewrite (proj2 (Z.ltb_ge _ _)) by (cbn in Hr; lia). by rewrite andb_false_r. }
  split.
  - unfold mapped. rewrite !Hk by (apply (bool_decide_unpack _); by vm_compute). by destruct shift.
  - unfold legend. destruct (list_find _ layout) as [[i r]|] eqn:E; [|done]. apply list_find_Some in E as (Hi & Hr & _). exfalso.
    assert (Forall (λ r, r.1.1 + Z.of_nat (length r.1.2) ≤ 128) layout) as Hall by (apply (bool_decide_unpack _); by vm_compute). rewrite Forall_lookup in Hall. specialize (Hall i r Hi). lia.
Qed.

Lemma mapped_legend code shift : 0 ≤ code → mapped code shift = legend code shift.
Proof using. intros Hc. destruct (Z.lt_ge_cases code 128); [by apply mapped_low|]. by destruct (mapped_high code shift ltac:(done)) as [-> ->]. Qed.

Lemma legend_range code shift c : 0 ≤ code → legend code shift = Some c → 0 ≤ c < 128.
Proof using. intros Hc Hl. destruct (Z.lt_ge_cases code 128); [by apply (mapped_low code shift)|]. destruct (mapped_high code shift ltac:(done)) as [_ E]. by rewrite E in Hl. Qed.

Lemma key_char_typed c shift ctrl alt caps : 0 ≤ c < 128 → key_char c shift ctrl alt caps = typed_char c shift ctrl alt caps.
Proof using.
  intros Hc. assert (Forall (λ x, Forall (λ b, let '(b1, b2, b3, b4) := b in key_char x b1 b2 b3 b4 = typed_char x b1 b2 b3 b4)
    ((λ b, (Z.testbit b 0, Z.testbit b 1, Z.testbit b 2, Z.testbit b 3)) <$> seqZ 0 16)) (seqZ 0 128)) as Hall by (apply (bool_decide_unpack _); by vm_compute).
  rewrite Forall_forall in Hall. specialize (Hall c). rewrite Forall_forall in Hall.
  apply (Hall ltac:(apply elem_of_seqZ; lia) (shift, ctrl, alt, caps)). destruct shift, ctrl, alt, caps; apply (bool_decide_unpack _); by vm_compute.
Qed.

Lemma legend_plain e shift :
  event_ok e = true → legend (key e) shift ≠ None → key e ≠ 0x2a ∧ key e ≠ 0x36 ∧ key e ≠ 0x38 ∧ key e ≠ 0xe038 ∧ key e ≠ 0x1d ∧ key e ≠ 0xe01d ∧ key e ≠ 0x3a.
Proof using. intros _ H. split_and!; intros E; rewrite E in H; by destruct shift. Qed.

Lemma tracks_other k k' hist e :
  tracks k hist → (∀ c, c ∈ [0x2a; 0x36; 0x38; 0xe038; 0x1d; 0xe01d; 0x3a] → key e ≠ c) → set_key_cnt (set_scan k' []) 0 = set_key_cnt (set_scan k []) 0 → tracks k' (hist ++ [e]).
Proof using.
  intros [] Hne Ek. unfold set_key_cnt, set_scan in Ek. injection Ek as E1 E2 E3 E4 E5 E6 E7.
  split; rewrite ?held_snoc, ?caps_snoc, ?decide_False; try congruence; try (apply Hne; set_solver). intros [E _]. revert E. apply Hne. set_solver.
Qed.

Lemma tracks_caps k hist e : tracks k hist → key e = 0x3a → tracks (if down e then set_caps k (negb (caps_lock k)) else k) (hist ++ [e]).
Proof using.
  intros [] Ek. split; rewrite ?held_snoc, ?caps_snoc, ?Ek; cbn [decide decide_rel]; destruct (down e) eqn:Ed; cbn; try done; rewrite ?decide_True, ?decide_False by naive_solver; congruence.
Qed.

Lemma tracks_shift k hist e : tracks k hist → key e ≠ 0x3a → tracks (shift_key (key e) (down e) k) (hist ++ [e]).
Proof using.
  intros [] Hne. destruct k; cbn in *. unfold shift_key.
  assert (caps_on (hist ++ [e]) = caps_on hist) as Hc by (rewrite caps_snoc, decide_False; [done|by intros [? _]]).
  repeat zcase; split; cbn; rewrite ?Hc, ?held_snoc; try done; case_decide; congruence || lia.
Qed.

(** C23. A key that goes down or up, in a keyboard whose variables agree with what has happened so
    far: the handler takes the bytes of the key, the variables agree again, and a key that goes
    down and has a character on the US layout puts it into the input buffer, unless that is
    full, with the case, control code and high bit that the keys held at that time ask for;
    nothing else enters the buffer. The machine is reset just by Delete with Ctrl and Alt. *)
Theorem key_types m hist e rest :
  in_service m → event_ok e = true → scancodes (kbd (dev m)) = encode e ++ rest → tracks (kbd (dev m)) hist →
  ∃ m', keyboard_interrupt_handler m = Ok (negb (resets hist e), m') ∧ in_service m' ∧ scancodes (kbd (dev m')) = rest ∧
    (resets hist e = false → tracks (kbd (dev m')) (hist ++ [e]) ∧
      contents (buffer (dev m')) = contents (buffer (dev m)) ++ (if intq_full (buffer (dev m)) then [] else match typed_by hist e with Some c => [c] | None => [] end)) ∧
    txq (dev m') = txq (dev m) ∧ sent (ports m') = sent (ports m).
Proof using.
  intros Hs He Hsc Ht. destruct (raw_ok e He) as [[Hdown Hkey] _]. unfold keyboard_interrupt_handler. rewrite (bindS_Ok _ _ m (dev m) m eq_refl). rewrite (read_code _ m e rest He Hsc). cbn beta.
  rewrite Hdown, Hkey, negb_involutive. set (m1 := scanned rest m). rewrite (bindS_Ok get_dev _ m1 (dev m1) m1 eq_refl).
  assert (in_service m1) as Hs1 by (apply in_service_queues; [done|by intros []]). assert (tracks (kbd (dev m1)) hist) as Ht1 by (destruct Ht; by split).
  pose proof Ht as [-> -> -> -> -> -> Hcaps]. fold (shift_held hist) (alt_held hist) (ctrl_held hist).
  unfold typed_by, resets. change (match map_key invariant_keymap (key e) with Some c => Some c | None => if shift_held hist then map_key shifted_keymap (key e) else map_key unshifted_keymap (key e) end) with (mapped (key e) (shift_held hist)). assert (0 ≤ key e) as Hk0 by (unfold event_ok in He; lia).
  rewrite mapped_legend by done.
  destruct (Z.eqb_spec (key e) 0x3a) as [E3a|N3a].
  { assert (legend (key e) (shift_held hist) = None) as -> by (rewrite E3a; by destruct (shift_held hist)). rewrite (bool_decide_eq_false_2 (None = Some 127)) by done. rewrite andb_false_r. cbn [negb andb].
    exists (set_dev m1 (set_kbd (dev m1) (if down e then set_caps (kbd (dev m1)) (negb (caps_lock (kbd (dev m1)))) else kbd (dev m1)))).
    pose proof (tracks_caps _ _ _ Ht1 E3a) as Ht2. split_and!.
    - destruct (down e); [done|]. unfold bindS, retS. by destruct m.
    - apply in_service_queues; [done|by intros []].
    - by destruct (down e).
    - intros _. split; [done|]. destruct (intq_full _), (down e); cbn; by rewrite app_nil_r.
    - done.
    - done. }
  destruct (legend (key e) (shift_held hist)) as [c|] eqn:El.
  - assert (∀ x, x ∈ [0x2a; 0x36; 0x38; 0xe038; 0x1d; 0xe01d; 0x3a] → key e ≠ x) as Hplain.
    { destruct (legend_plain e (shift_held hist) He ltac:(by rewrite El)) as (? & ? & ? & ? & ? & ? & ?). intros x Hx Ex. rewrite <-Ex in Hx. set_solver. }
    assert (tracks (kbd (dev m1)) (hist ++ [e])) as Ht2 by by apply (tracks_other (kbd (dev m))).
    destruct (down e) eqn:Ed; cbn [negb andb].
    2:{ exists m1. split_and!; try done. intros _. split; [done|]. destruct (intq_full _); cbn; by rewrite app_nil_r. }
    assert (bool_decide (Some c = Some 127) = (c =? 127)) as -> by (destruct (Z.eqb_spec c 127) as [->|]; [by apply bool_decide_eq_true_2|apply bool_decide_eq_false_2; congruence]).
    destruct ((c =? 127) && ctrl_held hist && alt_held hist) eqn:Er; [by exists m1|].
    rewrite (bindS_Ok _ _ _ _ _ (input_full_ok m1 Hs1)). change (buffer (dev m1)) with (buffer (dev m)). destruct (intq_full (buffer (dev m))) eqn:Ef.
    { exists m1. split_and!; try done. intros _. split; [done|]. by rewrite app_nil_r. }
    rewrite (bindS_Ok get_dev _ m1 (dev m1) m1 eq_refl). set (d2 := set_kbd _ _). set (m2 := set_dev m1 d2). rewrite (bindS_Ok (put_dev d2) _ m1 tt m2 eq_refl).
    assert (in_service m2) as Hs2 by (apply in_service_queues; [done|by intros []]). set (ch := key_char _ _ _ _ _).
    destruct (input_putc_ok ch m2 Hs2 Ef) as (q' & m3 & E3 & Hs3 & Hd3 & Hc3 & Hp3 & _). rewrite (bindS_Ok _ _ _ _ _ E3). exists m3.
    rewrite Hd3, Hp3. split_and!; try done. intros _. split; [by apply (tracks_other (kbd (dev m)))|]. cbn [buffer set_queue fmap option_fmap option_map]. rewrite Hc3. unfold ch.
    change (caps_lock (kbd (dev m1))) with (caps_lock (kbd (dev m))). by rewrite Hcaps, key_char_typed by by eapply legend_range.
  - rewrite (bool_decide_eq_false_2 (None = Some 127)) by done. rewrite andb_false_r. cbn [negb andb].
    eexists. split_and!; [reflexivity|apply in_service_queues; [done|by intros []]| | |done|done].
    + cbn. unfold shift_key. destruct (kbd (dev m)). cbn. by repeat case_match.
    + intros _. split; [by apply (tracks_shift (kbd (dev m1)))|]. destruct (intq_full _), (down e); cbn; by rewrite app_nil_r.
Qed.

(** ** The handlers in the machine *)

(** Whatever bytes the controller sends. *)
Lemma keyboard_safe m : in_service m → ∃ b m', keyboard_interrupt_handler m = Ok (b, m') ∧ in_service m'.
Proof using.
  intros Hs. unfold keyboard_interrupt_handler. rewrite (bindS_Ok _ _ m (dev m) m eq_refl).
  set (shift := left_shift _ || _). set (alt := left_alt _ || _). set (ctrl := left_ctrl _ || _). clearbody shift alt ctrl.
  assert (∀ m0, in_service m0 → ∃ b m1, inb_DATA m0 = Ok (b, m1) ∧ in_service m1) as Hread.
  { intros m0 Hs0. exists (match scancodes (kbd (dev m0)) with b :: _ => b | [] => 0 end), (scanned (tail (scancodes (kbd (dev m0)))) m0). split; [done|]. apply in_service_queues; [done|by intros []]. }
  destruct (Hread m Hs) as (b & m1 & E1 & Hs1). rewrite (bindS_Ok _ _ _ _ _ E1).
  assert (∃ code m2, (if b =? 0xe0 then b2 <-- inb_DATA ;; retS (Z.lor (Z.shiftl b 8) b2) else retS b) m1 = Ok (code, m2) ∧ in_service m2) as (code & m2 & E2 & Hs2).
  { destruct (b =? 0xe0); [|by exists b, m1]. destruct (Hread m1 Hs1) as (b2 & m2 & E2 & Hs2). rewrite (bindS_Ok _ _ _ _ _ E2). by eexists _, m2. }
  rewrite (bindS_Ok _ _ _ _ _ E2). cbn beta zeta. rewrite (bindS_Ok get_dev _ m2 (dev m2) m2 eq_refl).
  assert (∀ k, in_service (set_dev m2 (set_kbd (dev m2) k))) as Hput by (intros k; apply in_service_queues; [done|by intros []]).
  destruct (_ =? 0x3a).
  { destruct (negb (negb _)); [eexists _, _; split; [reflexivity|apply Hput]|by eexists _, m2]. }
  destruct (match map_key invariant_keymap _ with Some c => Some c | None => _ end) as [c|]; [|eexists _, _; split; [reflexivity|apply Hput]].
  destruct (negb _); [by eexists _, m2|]. destruct (_ && _ && _); [by eexists _, m2|]. rewrite (bindS_Ok _ _ _ _ _ (input_full_ok m2 Hs2)).
  destruct (intq_full (buffer (dev m2))) eqn:Ef; [by eexists _, m2|]. rewrite (bindS_Ok get_dev _ m2 (dev m2) m2 eq_refl).
  set (d3 := set_kbd _ _). rewrite (bindS_Ok (put_dev d3) _ m2 tt (set_dev m2 d3) eq_refl). set (ch := key_char _ _ _ _ _).
  destruct (input_putc_ok ch (set_dev m2 d3) (Hput _) Ef) as (q' & m4 & E4 & Hs4 & _). rewrite (bindS_Ok _ _ _ _ _ E4). by eexists _, m4.
Qed.

Context (others : handler → intr_frame → ST st (option intr_frame)).

Definition is_device (h : handler) : Prop := h ∈ [timer_interrupt; keyboard_interrupt; serial_interrupt].

Lemma device_serves h : is_device h → serves_device intr_stubs (device_code others) devices_ok h.
Proof using.
  intros Hh f m Hok Hi Hc. assert (in_service m) as Hs by by split. unfold is_device in Hh.
  apply elem_of_cons in Hh as [->|[->|[->|?%not_elem_of_nil]%elem_of_cons]%elem_of_cons]; [| | |done]; cbn [device_code].
  - destruct (timer_interrupt_ok m Hs) as (m' & s & y & E & [Hok' Hi' Hc'] & _). rewrite (bindS_Ok _ _ _ _ _ E). exists (Some f), m'. split_and!; try done. by intros ? [= <-].
  - destruct (keyboard_safe m Hs) as (b & m' & E & [Hok' Hi' Hc']). rewrite (bindS_Ok _ _ _ _ _ E). exists (if b then Some f else None), m'. split_and!; try done. intros f'. by destruct b; [intros [= <-]|].
  - destruct (serial_handler_ok m Hs) as (k & m' & E & [Hok' Hi' Hc'] & _). rewrite (bindS_Ok _ _ _ _ _ E). exists (Some f), m'. split_and!; try done. by intros ? [= <-].
Qed.

(** C16. The interrupts of the timer, the keyboard, the serial port, and of devices without a
    handler, are safe in every state of the machine, whatever the devices send: they fail no
    assertion, here or in the scheduler, whose invariant they keep with that of the queues, and
    their service ends. *)
Theorem device_interrupts_safe m f :
  machine_ok intr_stubs devices_ok m → intr (ks m) = true → in_external_intr m = false → 0x20 ≤ vec_no f < 0x30 →
  (∀ h, intr_handlers m !! Z.to_nat (vec_no f) = Some (Some h) → is_device h) →
  ∃ g r m', idt m !! Z.to_nat (vec_no f) = Some g ∧ gate_offset g = intr_stubs (vec_no f) ∧
    intr_handler (device_code others) f (through_gate g m) = Ok (r, m') ∧
    (r ≠ Exited → machine_ok intr_stubs devices_ok m' ∧ in_external_intr m' = false).
Proof using.
  intros Hok Hi Hc Hv Hh.
  destruct (external_interrupt_ok intr_stubs (device_code others) devices_ok devices_intr devices_yield m f Hok Hi Hc Hv (λ h E, device_serves h (Hh h E)))
    as (g & r & m1 & Hg & _ & Ho & _ & Hr). exists g. destruct r as [f'|].
  - destruct Hr as (m2 & E & Hok2 & Hc2 & _). by eexists _, m2.
  - by exists Exited, m1.
Qed.

(** C15. The interrupt of the timer, from the gate through the dispatcher, the handler, the tick of
    the scheduler and the switch that it may ask for, is the step of the scheduler's own account
    of it ([Synch.timer_interrupt]): the interrupted thread goes on at once, when its return turns
    interrupts on again, or another one runs, and it goes on when it gets the processor back. The
    count of ticks goes up by one. *)
Theorem timer_interrupt_is_step m f σ :
  machine_ok intr_stubs devices_ok m → intr (ks m) = true → in_external_intr m = false → vec_no f = 0x20 →
  intr_handlers m !! Z.to_nat 0x20 = Some (Some timer_interrupt) → Synch.ks σ = ks m →
  ∃ g σ' y m', idt m !! Z.to_nat 0x20 = Some g ∧ Synch.timer_interrupt σ = Ok (σ', y) ∧
    intr_handler (device_code others) f (through_gate g m) = Ok (if y then ResumeLater f else Resume f, m') ∧
    Synch.ks σ' = (if y then ks m' else set_intr (ks m') true) ∧ ticks (dev m') = s64 (ticks (dev m) + 1) ∧ ports m' = ports m ++ [(0x20, 0x20)].
Proof using.
  intros Hok Hi Hc Hv Hh Hσ. pose proof (io_external _ _ (mo_idt _ _ _ Hok) 0x20 ltac:(lia)) as (h0 & [(g & Hg & Hp & Ho & _ & Ht & _) _]).
  set (m0 := set_context (through_gate g m) true false). assert (in_service m0) as Hs0.
  { split; [|cbn; by rewrite Ht|done]. apply (machine_ok_frame _ _ m); [by split_and!|apply sched_inv_set_intr, Hok|apply devices_intr, Hok|done]. }
  destruct (timer_interrupt_ok m0 Hs0) as (m1 & s & y & E1 & [Hok1 Hi1 Hc1] & Etick & Hks & Htk & Hy & Hpt & _). cbn in Hy. rewrite orb_false_r in Hy.
  destruct (end_external_ok intr_stubs devices_ok devices_yield m1 0x20 Hok1 Hi1 Hc1 ltac:(lia)) as (m2 & E2 & _ & _ & Hp2 & Hd2 & Hyield).
  assert (ks m0 = set_intr (ks m) false) as Hk0 by (cbn; by rewrite Ht). rewrite Hk0 in Etick. rewrite Hy in E2, Hyield.
  assert (intr_handler (device_code others) f (through_gate g m) = Ok (if y then ResumeLater f else Resume f, m2)) as E.
  { unfold intr_handler, is_external. rewrite Hv. cbn [Z.leb Z.ltb Z.compare Pos.compare Pos.compare_cont andb]. rewrite (bindS_Ok _ _ (through_gate g m) tt m0).
    2:{ unfold begin_external, intr_get_level, intr_context, assertS, bindS, getS, putS. cbn. rewrite Ht. cbn. by rewrite Hc. }
    rewrite (bindS_Ok _ _ m0 (Some f) m1).
    2:{ unfold run_handler. rewrite (bindS_Ok _ _ m0 m0 m0 eq_refl). rewrite (bindS_Ok _ _ m0 (Some timer_interrupt) m0) by (unfold liftS; rewrite Hv; cbn [intr_handlers m0 set_context through_gate set_ks]; by rewrite Hh).
        cbn [device_code]. by rewrite (bindS_Ok _ _ _ _ _ E1). }
    by rewrite Hv, (bindS_Ok _ _ _ _ _ E2). }
  unfold Synch.timer_interrupt. rewrite Hσ, Etick. mstep. rewrite <-Hks. destruct y.
  - rewrite Hyield. mstep. exists g, (Synch.set_ks σ (ks m2)), true, m2. split_and!; try done; [by rewrite Hd2|by rewrite Hp2, Hpt].
  - exists g, (Synch.set_ks σ (set_intr (ks m1) true)), false, m2. split_and!; try done; [by rewrite Hyield|by rewrite Hd2|by rewrite Hp2, Hpt].
Qed.

End safe.

(** ** A machine with its devices *)

Definition empty_queue : intq := intq_init (replicate 64 0).

Definition demo_drivers (codes received : list Z) : drivers :=
  Drivers 0 1024 (Keyboard false false false false false false false 0 codes) QUEUE empty_queue empty_queue (Uart received [] true) 0.

Definition device_requests : list (request (H := handler)) :=
  [Ext 0x20 timer_interrupt (bytes "8254 Timer"); Ext 0x21 keyboard_interrupt (bytes "8042 Keyboard"); Ext 0x24 serial_interrupt (bytes "serial")].

Lemma device_requests_ok : Forall request_ok device_requests ∧ NoDup (request_vec <$> device_requests).
Proof. split; [repeat (apply Forall_cons; split; [cbn; lia|]); apply Forall_nil_2|]. cbn. apply (bool_decide_unpack (NoDup _)). vm_compute. exact I. Qed.

Lemma demo_drivers_ok s codes received : devices_ok s (demo_drivers codes received).
Proof. split; [by intros []|by intros [] []|by intros [] []]. Qed.

Lemma device_machine codes received :
  ∃ m, machine_ok demo_stubs devices_ok m ∧ intr (ks m) = true ∧ in_external_intr m = false ∧ dev m = demo_drivers codes received ∧
    intr_handlers m !! Z.to_nat 0x20 = Some (Some timer_interrupt) ∧ intr_handlers m !! Z.to_nat 0x21 = Some (Some keyboard_interrupt).
Proof.
  destruct (intr_init_ok demo_stubs 4096 demo_stubs_ok (boot_machine (H := handler) (demo_drivers codes received)) (boot_machine_ok _)) as (m0 & _ & Hok0 & Hs0 & He0).
  destruct (register_all_ok demo_stubs demo_stubs_ok device_requests m0 (proj1 device_requests_ok) (proj2 device_requests_ok) Hok0) as (m & _ & Hok & Hs & Hin & _).
  { intros v (r & -> & Hr)%list_elem_of_fmap. apply He0. pose proof (proj1 device_requests_ok) as Hf. rewrite Forall_forall in Hf. specialize (Hf r Hr). destruct r; simpl in *; lia. }
  assert (ks m = SynchSafe.started 4096 8192) as Ek by (by rewrite (proj1 Hs), (proj1 Hs0)). destruct Hs as (_ & Hc & Hd & _), Hs0 as (_ & Hc0 & Hd0 & _). exists m. split_and!.
  - split; [done|rewrite Ek; by apply SynchSafe.started_sched|]. rewrite Hd, Hd0. apply demo_drivers_ok.
  - by rewrite Ek.
  - by rewrite Hc, Hc0.
  - by rewrite Hd, Hd0.
  - exact (en_handler _ _ _ _ _ _ (proj1 (Hin (Ext 0x20 timer_interrupt (bytes "8254 Timer")) ltac:(left)))).
  - exact (en_handler _ _ _ _ _ _ (proj1 (Hin (Ext 0x21 keyboard_interrupt (bytes "8042 Keyboard")) ltac:(right; left)))).
Qed.

Lemma demo_in_service codes received : ∃ m, in_service demo_stubs m ∧ dev m = demo_drivers codes received.
Proof.
  destruct (device_machine codes received) as (m & Hok & _ & _ & Hd & _). exists (set_context (set_ks m (set_intr (ks m) false)) true false). split; [|done].
  split; [|done|done]. by apply (machine_ok_frame _ _ m); [|apply sched_inv_set_intr, Hok|apply devices_intr, Hok|].
Qed.

Lemma serial_interrupt_moves_witness :
  ∃ m m', in_service demo_stubs m ∧ serial_interrupt_handler m = Ok (tt, m') ∧ in_service demo_stubs m' ∧ pending (port (dev m')) = false.
Proof.
  destruct (demo_in_service [] [104; 105]) as (m & Hs & _). destruct (serial_interrupt_moves demo_stubs m Hs) as (k & m' & E & Hs' & _ & _ & _ & _ & _ & Hp).
  exact (ex_intro _ m (ex_intro _ m' (conj Hs (conj E (conj Hs' Hp))))).
Defined.

(** The key A with the left Shift held. *)
Definition demo_history : list event := [Event 0x2a true].

Lemma key_types_witness :
  ∃ m m', in_service demo_stubs m ∧ keyboard_interrupt_handler m = Ok (true, m') ∧ contents (buffer (dev m')) = [65].
Proof.
  destruct (demo_in_service [0x1e] []) as (m0 & Hs0 & Hd0). pose (d := set_kbd (dev m0) (Keyboard true false false false false false false 0 [0x1e])).
  assert (in_service demo_stubs (set_dev m0 d)) as Hs by (apply in_service_queues; [exact Hs0|by intros []]).
  destruct (key_types demo_stubs (set_dev m0 d) demo_history (Event 0x1e true) [] Hs eq_refl eq_refl ltac:(by split)) as (m' & E & _ & _ & Hc & _).
  exists (set_dev m0 d), m'. split_and!; [exact Hs|exact E|]. destruct (Hc eq_refl) as [_ Hc2]. rewrite Hc2. unfold d. cbn [dev set_dev buffer set_kbd]. rewrite Hd0. reflexivity.
Defined.

Definition no_others (h : handler) (f : intr_frame) : ST (machine handler drivers) (option intr_frame) := retS (Some f).

Lemma device_interrupts_safe_witness :
  ∃ m g r m', machine_ok demo_stubs devices_ok m ∧ intr_handler (device_code no_others) (demo_frame 0x21) (through_gate g m) = Ok (r, m').
Proof.
  destruct (device_machine [0x1e] []) as (m & Hok & Hi & Hc & _ & _ & Hk).
  destruct (device_interrupts_safe demo_stubs no_others m (demo_frame 0x21) Hok Hi Hc ltac:(done)) as (g & r & m' & _ & _ & E & _).
  - intros h Hh. change (vec_no (demo_frame 0x21)) with 0x21 in Hh. rewrite Hk in Hh. injection Hh as <-. right. left.
  - exact (ex_intro _ m (ex_intro _ g (ex_intro _ r (ex_intro _ m' (conj Hok E))))).
Defined.

Lemma timer_interrupt_is_step_witness :
  ∃ m g σ' y m', machine_ok demo_stubs devices_ok m ∧ Synch.timer_interrupt (SState (ks m) ∅ ∅ ∅) = Ok (σ', y) ∧
    intr_handler (device_code no_others) (demo_frame 0x20) (through_gate g m) = Ok (if y then ResumeLater (demo_frame 0x20) else Resume (demo_frame 0x20), m').
Proof.
  destruct (device_machine [] []) as (m & Hok & Hi & Hc & _ & Ht & _).
  destruct (timer_interrupt_is_step demo_stubs no_others m (demo_frame 0x20) (SState (ks m) ∅ ∅ ∅) Hok Hi Hc eq_refl Ht eq_refl) as (g & σ' & y & m' & _ & E1 & E2 & _).
  exact (ex_intro _ m (ex_intro _ g (ex_intro _ σ' (ex_intro _ y (ex_intro _ m' (conj Hok (conj E1 E2))))))).
Defined.
