(* ===== verification/Timer.v ===== *)
(** Delays (src/devices/timer.c): the calibration of the loop that waits, the number of its rounds
    for an interval, and sleeping; and the rates of the timer chip (src/devices/pit.c).

    How long the loop takes is a property of the machine: [too_many n] says whether [n] rounds
    take more than a tick, which is what [too_many_loops] measures. *)

From Stdlib Require Import Ascii String.
From S2P Require Import Prelude Thread Stdio Format Bits Interrupt Drivers.

Local Abbreviation st := (machine handler drivers).

Section code.
Context (too_many : Z → bool).

(** The largest power of two that takes less than a tick. *)
Fixpoint double_loop (fuel : nat) (loops : Z) : res Z :=
  match fuel with
  | O => Timeout
  | S fuel =>
      if too_many (u32 (Z.shiftl loops 1)) then Ok loops
      else
        let loops := u32 (Z.shiftl loops 1) in
        ASSERT negb (loops =? 0) ;;
        double_loop fuel loops
  end.

(** The bits below it. *)
Fixpoint refine_loop (fuel : nat) (test_bit high_bit loops : Z) : res Z :=
  match fuel with
  | O => Timeout
  | S fuel =>
      if test_bit =? Z.shiftr high_bit 10 then Ok loops
      else refine_loop fuel (Z.shiftr test_bit 1) high_bit (if too_many (Z.lor loops test_bit) then loops else Z.lor loops test_bit)
  end.

Definition calibrate : res Z :=
  loops ← double_loop 32 (Z.shiftl 1 10);
  refine_loop 32 (Z.shiftr loops 1) loops loops.

Definition timer_calibrate : ST st unit :=
  level <-- intr_get_level ;;
  assertS level ;;;
  print "Calibrating timer...  " [] ;;;
  loops <-- liftS calibrate ;;
  d <-- get_dev ;;
  put_dev (set_time d (ticks d) loops) ;;;
  print "%'llu loops/s." [AInt64 (u64 (loops * TIMER_FREQ))] ;;;
  newline.

End code.

(** The rounds of the loop for [num]/[denom] seconds; division is that of C. *)
Definition delay_loops (loops_per_tick num denom : Z) : res Z :=
  ASSERT Z.rem denom 1000 =? 0 ;;
  Ok (Z.quot (s64 (Z.quot (s64 (loops_per_tick * num)) 1000 * TIMER_FREQ)) (Z.quot denom 1000)).

(** What [real_time_sleep] does: sleep for some ticks, or run the loop. *)
Inductive sleep_plan := SleepTicks (n : Z) | DelayLoops (n : Z).

Definition real_time_sleep (level : bool) (loops_per_tick num denom : Z) : res sleep_plan :=
  let ticks := Z.quot (s64 (num * TIMER_FREQ)) denom in
  ASSERT level ;;
  if 0 <? ticks then Ok (SleepTicks ticks)
  else n ← delay_loops loops_per_tick num denom; Ok (DelayLoops n).

Definition timer_msleep (level : bool) (lpt ms : Z) : res sleep_plan := real_time_sleep level lpt ms 1000.
Definition timer_usleep (level : bool) (lpt us : Z) : res sleep_plan := real_time_sleep level lpt us (1000 * 1000).
Definition timer_nsleep (level : bool) (lpt ns : Z) : res sleep_plan := real_time_sleep level lpt ns (1000 * 1000 * 1000).
Definition timer_mdelay (lpt ms : Z) : res Z := delay_loops lpt ms 1000.
Definition timer_udelay (lpt us : Z) : res Z := delay_loops lpt us (1000 * 1000).
Definition timer_ndelay (lpt ns : Z) : res Z := delay_loops lpt ns (1000 * 1000 * 1000).

(** The loop of [timer_sleep]; [now i] is the count of ticks at its [i]-th reading, and the
    result the reading that ends it. *)
Fixpoint sleep_loop (now : nat → Z) (fuel i : nat) (start ticks : Z) : res nat :=
  match fuel with
  | O => Timeout
  | S fuel => if s64 (now i - start) <? ticks then sleep_loop now fuel (S i) start ticks else Ok i
  end.

Definition timer_sleep (now : nat → Z) (level : bool) (fuel : nat) (ticks : Z) : res nat :=
  let start := now 0%nat in
  ASSERT level ;;
  sleep_loop now fuel 1 start ticks.

(** ** Calibration *)

Section calibration.
Context (too_many : Z → bool) (T : Z) (HT : 2 ^ 10 ≤ T) (Htm : ∀ n, 0 ≤ n < WORD → too_many n = (T <? n)).

Lemma shiftl_pow k : 0 ≤ k < 31 → u32 (Z.shiftl (2 ^ k) 1) = 2 ^ (k + 1).
Proof using.
  intros Hk. rewrite Z.shiftl_mul_pow2 by done. replace (2 ^ k * 2 ^ 1) with (2 ^ (k + 1)) by (rewrite Z.pow_add_r; lia). apply u32_small. split; [lia|].
  change WORD with (2 ^ 32). apply Z.pow_lt_mono_r; lia.
Qed.

Lemma pow_word k : 0 ≤ k < 32 → 0 < 2 ^ k < WORD.
Proof using. intros Hk. split; [lia|]. change WORD with (2 ^ 32). apply Z.pow_lt_mono_r; lia. Qed.

Lemma double_loop_ok n k :
  10 ≤ k → k + Z.of_nat n = 42 → 2 ^ k ≤ T →
  double_loop too_many n (2 ^ k) = if T <? 2 ^ 31 then Ok (2 ^ Z.log2 T) else if 32 <=? k then double_loop too_many n (2 ^ k) else Fault AssertFail.
Proof using HT Htm.
  revert k. induction n as [|n IH]; intros k Hk Hn HkT.
  - destruct (Z.ltb_spec T (2 ^ 31)) as [Hlt|]; [|destruct (Z.leb_spec 32 k); [done|lia]]. assert (2 ^ 31 ≤ 2 ^ k) by (apply Z.pow_le_mono_r; lia). lia.
  - destruct (Z.leb_spec 32 k) as [Hge|Hlt].
    { destruct (Z.ltb_spec T (2 ^ 31)) as [Hlt|]; [|done]. assert (2 ^ 31 ≤ 2 ^ k) by (apply Z.pow_le_mono_r; lia). lia. }
    cbn [double_loop]. destruct (decide (k = 31)) as [->|Hne].
    { change (u32 (Z.shiftl (2 ^ 31) 1)) with 0. rewrite Htm by done. rewrite (proj2 (Z.ltb_ge T 0)) by lia. by rewrite (proj2 (Z.ltb_ge T (2 ^ 31))) by lia. }
    rewrite shiftl_pow by lia. pose proof (pow_word (k + 1) ltac:(lia)) as Hw. rewrite Htm by lia. destruct (Z.ltb_spec T (2 ^ (k + 1))) as [Hsmall|Hbig].
    + assert (2 ^ (k + 1) ≤ 2 ^ 31) by (apply Z.pow_le_mono_r; lia). rewrite (proj2 (Z.ltb_lt T (2 ^ 31))) by lia. rewrite (Z.log2_unique T k) by lia. done.
    + rewrite (proj2 (Z.eqb_neq _ 0)) by lia. cbn [negb]. rewrite (IH (k + 1)) by lia. destruct (T <? 2 ^ 31); [done|]. destruct (Z.leb_spec 32 (k + 1)); [lia|done].
Qed.

Lemma refine_loop_ok n j k a :
  0 ≤ j < k → k ≤ 30 → k - 10 ≤ j → j - (k - 10) < Z.of_nat n → 10 ≤ k → 0 ≤ a → a * 2 ^ (j + 1) ≤ T < a * 2 ^ (j + 1) + 2 ^ (j + 1) → T < 2 ^ 31 →
  ∃ l, refine_loop too_many n (2 ^ j) (2 ^ k) (a * 2 ^ (j + 1)) = Ok l ∧ l ≤ T < l + 2 ^ (k - 9) ∧ a * 2 ^ (j + 1) ≤ l.
Proof using HT Htm.
  revert j a. induction n as [|n IH]; intros j a Hj Hk Hjk Hn Hk10 Ha Hl HT31; [lia|]. cbn [refine_loop].
  assert (Z.shiftr (2 ^ k) 10 = 2 ^ (k - 10)) as -> by (rewrite Z.shiftr_div_pow2 by done; rewrite <-Z.pow_sub_r by lia; done).
  destruct (Z.eqb_spec (2 ^ j) (2 ^ (k - 10))) as [E|E].
  { apply Z.pow_inj_r in E; [|lia..]. subst j. exists (a * 2 ^ (k - 10 + 1)). replace (k - 10 + 1) with (k - 9) in * by lia. split_and!; [done|lia|lia|lia]. }
  assert (k - 10 < j) as Hlt by (assert (j ≠ k - 10) by congruence; lia).
  assert (Z.shiftr (2 ^ j) 1 = 2 ^ (j - 1)) as -> by (rewrite Z.shiftr_div_pow2 by done; rewrite <-Z.pow_sub_r by lia; done).
  assert (2 ^ (j + 1) = 2 * 2 ^ j) as Ep by (rewrite Z.pow_add_r by lia; lia). assert (0 < 2 ^ j) as Hp by lia.
  rewrite lor_fields_high by lia. pose proof (Z.pow_le_mono_r 2 j 30 ltac:(lia) ltac:(lia)) as Hp30.
  assert (a * 2 ^ (j + 1) + 2 ^ j < WORD) as Hw by (change (2 ^ 31) with 2147483648 in *; change (2 ^ 30) with 1073741824 in *; lia). rewrite Htm by lia.
  destruct (Z.ltb_spec T (a * 2 ^ (j + 1) + 2 ^ j)) as [Hhi|Hlo].
  - destruct (IH (j - 1) (2 * a)) as (l & E1 & H1 & H2); try lia; replace (j - 1 + 1) with j in * by lia; [lia|]. replace (2 * a * 2 ^ j) with (a * 2 ^ (j + 1)) in * by lia. by exists l.
  - destruct (IH (j - 1) (2 * a + 1)) as (l & E1 & H1 & H2); try lia; replace (j - 1 + 1) with j in * by lia; [lia|].
    replace ((2 * a + 1) * 2 ^ j) with (a * 2 ^ (j + 1) + 2 ^ j) in * by lia. exists l. split_and!; [done|lia|lia|lia].
Qed.

Lemma calibrated_big :
  if T <? 2 ^ 31 then ∃ l, calibrate too_many = Ok l ∧ l ≤ T ∧ 512 * (T - l) < T else calibrate too_many = Fault AssertFail.
Proof using HT Htm.
  unfold calibrate. change (Z.shiftl 1 10) with (2 ^ 10). rewrite (double_loop_ok 32 10) by (done || lia). cbn [Z.leb Z.compare Pos.compare Pos.compare_cont].
  destruct (Z.ltb_spec T (2 ^ 31)) as [Hlt|]; [|done]. mstep. set (k := Z.log2 T). pose proof (Z.log2_spec T ltac:(lia)) as Hlog. fold k in Hlog.
  assert (10 ≤ k ≤ 30) as Hk. { split; [apply Z.log2_le_pow2; lia|]. assert (k < 31); [|lia]. apply Z.log2_lt_pow2; lia. }
  assert (Z.shiftr (2 ^ k) 1 = 2 ^ (k - 1)) as -> by (rewrite Z.shiftr_div_pow2 by done; rewrite <-Z.pow_sub_r by lia; done). replace (Z.succ k) with (k + 1) in Hlog by lia.
  destruct (refine_loop_ok 32 (k - 1) k 1) as (l & E & H1 & H2); try lia; replace (k - 1 + 1) with k in * by lia; [rewrite Z.pow_add_r in Hlog by lia; lia|].
  rewrite Z.mul_1_l in *. exists l. split_and!; [done|lia|]. assert (2 ^ k = 512 * 2 ^ (k - 9)) as Ek by (change 512 with (2 ^ 9); rewrite <-Z.pow_add_r by lia; f_equal; lia). lia.
Qed.

End calibration.

(** A tick with no room for 1024 rounds. *)
Lemma calibrated_small (too_many : Z → bool) T :
  (∀ n, 0 ≤ n < WORD → too_many n = (T <? n)) → T < 2 ^ 10 → calibrate too_many = Ok 1024.
Proof.
  intros Htm HT. assert (∀ n, 1024 ≤ n < WORD → too_many n = true) as H by (intros n Hn; rewrite Htm by lia; apply Z.ltb_lt; lia).
  unfold calibrate. change (Z.shiftl 1 10) with 1024. cbn [double_loop]. change (u32 (Z.shiftl 1024 1)) with 2048. rewrite H by lia. mstep.
  assert (∀ n j, (j ≤ 9)%nat → (j < n)%nat → refine_loop too_many n (2 ^ Z.of_nat j) 1024 1024 = Ok 1024) as Hr; [|exact (Hr 32%nat 9%nat ltac:(lia) ltac:(lia))].
  induction n as [|n IH]; intros j Hj Hn; [lia|]. cbn [refine_loop]. destruct j as [|j]; [done|].
  assert (2 ^ Z.of_nat (S j) =? Z.shiftr 1024 10 = false) as -> by (do 9 (destruct j as [|j]; [done|]); lia).
  assert (Z.shiftr (2 ^ Z.of_nat (S j)) 1 = 2 ^ Z.of_nat j) as -> by (do 9 (destruct j as [|j]; [done|]); lia).
  rewrite H; [apply IH; lia|]. do 9 (destruct j as [|j]; [vm_compute; split; congruence|]). lia.
Qed.

(** C24. The calibration finds the number of rounds of the loop that a tick has room for, [T], to one
    part in 512, from below, if that is at least 2^10, with which the search starts; if it is less the
    result is 2^10, and if it is 2^31 or more the kernel stops with a failed assertion. *)
Theorem timer_calibrated (too_many : Z → bool) T :
  (∀ n, 0 ≤ n < WORD → too_many n = (T <? n)) →
  if T <? 2 ^ 10 then calibrate too_many = Ok (2 ^ 10)
  else if T <? 2 ^ 31 then ∃ l, calibrate too_many = Ok l ∧ l ≤ T ∧ 512 * (T - l) < T
  else calibrate too_many = Fault AssertFail.
Proof.
  intros Htm. destruct (Z.ltb_spec T (2 ^ 10)); [by eapply calibrated_small|by apply calibrated_big].
Qed.

Lemma timer_calibrated_witness :
  (∃ l, calibrate (λ n, 5000 <? n) = Ok l ∧ l ≤ 5000 ∧ 512 * (5000 - l) < 5000) ∧ calibrate (λ n, 100 <? n) = Ok 1024.
Proof. split; [exact (timer_calibrated (λ n, 5000 <? n) 5000 ltac:(done))|exact (timer_calibrated (λ n, 100 <? n) 100 ltac:(done))]. Defined.

(** ** Intervals *)

(** A sleep of less than a tick runs the loop for its share of a tick, without overflow. *)
Lemma short_sleep_ok lpt num k :
  0 ≤ lpt < WORD → 0 ≤ num → 0 < k ≤ 1000000 → num * TIMER_FREQ < 1000 * k →
  ∃ n, real_time_sleep true lpt num (1000 * k) = Ok (DelayLoops n) ∧ 0 ≤ n ∧ n * (1000 * k) ≤ lpt * num * TIMER_FREQ.
Proof.
  unfold TIMER_FREQ. intros Hl Hn Hk Hlt. unfold real_time_sleep, delay_loops, TIMER_FREQ. assert (0 ≤ lpt * num ≤ 4294967296 * 10000000) as Hm by nia.
  rewrite (s64_small (num * 100)) by (unfold is_s64; nia). rewrite (Z.quot_small (num * 100)) by lia. cbn [Z.ltb Z.compare].
  rewrite Z.mul_comm, Z.rem_mul by done. cbn [Z.eqb]. rewrite Z.quot_mul by done. rewrite (s64_small (lpt * num)) by (unfold is_s64; lia).
  rewrite (Z.quot_div_nonneg (lpt * num)) by lia. pose proof (Z.div_mod (lpt * num) 1000 ltac:(lia)) as E. pose proof (Z.mod_pos_bound (lpt * num) 1000 ltac:(lia)) as Hr.
  set (q := lpt * num / 1000) in *. rewrite s64_small by (unfold is_s64; lia). rewrite Z.quot_div_nonneg by lia. mstep. eexists. split; [reflexivity|].
  split; [apply Z.div_pos; lia|]. pose proof (Z.mul_div_le (q * 100) k ltac:(lia)). nia.
Qed.

(** Sleeping ends at the first reading with enough ticks. *)
Lemma sleep_loop_ok now fuel i start n k :
  (∀ j, 0 ≤ now j - start < 2 ^ 62) → (i ≤ k < i + fuel)%nat → n ≤ now k - start → (∀ j, (i ≤ j < k)%nat → now j - start < n) →
  sleep_loop now fuel i start n = Ok k.
Proof.
  intros Hnow. revert i. induction fuel as [|fuel IH]; intros i Hk Hn Hbefore; [lia|]. cbn [sleep_loop]. rewrite s64_small by (pose proof (Hnow i); unfold is_s64; lia).
  destruct (decide (i = k)) as [->|Hne]; [by rewrite (proj2 (Z.ltb_ge _ _)) by lia|]. rewrite (proj2 (Z.ltb_lt _ _)) by (apply Hbefore; lia). apply IH; [lia|done|]. intros j Hj. apply Hbefore. lia.
Qed.

(** The divisor of the timer chip is the nearest one for the frequency. *)
Lemma pit_count_nearest f : 19 ≤ f ≤ PIT_HZ → 1 ≤ pit_count f < 65536 ∧ 2 * Z.abs (pit_count f * f - PIT_HZ) ≤ f.
Proof.
  intros Hf. unfold pit_count. rewrite (proj2 (Z.ltb_ge f 19)), (proj2 (Z.ltb_ge PIT_HZ f)) by lia. set (q := (PIT_HZ + f / 2) / f).
  pose proof (Z.div_mod (PIT_HZ + f / 2) f ltac:(lia)) as E. pose proof (Z.mod_pos_bound (PIT_HZ + f / 2) f ltac:(lia)) as Hr. fold q in E.
  pose proof (Z.div_mod f 2 ltac:(lia)) as E2. pose proof (Z.mod_pos_bound f 2 ltac:(lia)) as Hr2. unfold PIT_HZ in *.
  assert (1 ≤ q < 65536) as Hq by nia. rewrite Z.mod_small by lia. split; [done|]. lia.
Qed.
