(* ===== verification/Exception.v ===== *)
(** Exceptions (src/userprog/exception.c) and the interrupts of the kernel after its start
    (src/threads/init.c, [main]): which vectors have handlers, which of them user programs can
    reach, and what becomes of a program that faults. The build is the one without VM. *)

From S2P Require Import Intq.
From Stdlib Require Import Ascii String.
From S2P Require Import Prelude Vaddr Thread Stdio Format Interrupt Drivers.

Local Abbreviation st := (machine handler drivers).

Definition PF_P : Z := 1.
Definition PF_W : Z := 2.
Definition PF_U : Z := 4.

(** ** Registration *)

Section init.
Context (intr_stubs : Z → Z) (idt_address : Z).

Definition exception_init : ST st unit :=
  intr_register_int intr_stubs 3 3 true kill (bytes "#BP Breakpoint Exception") ;;;
  intr_register_int intr_stubs 4 3 true kill (bytes "#OF Overflow Exception") ;;;
  intr_register_int intr_stubs 5 3 true kill (bytes "#BR BOUND Range Exceeded Exception") ;;;
  intr_register_int intr_stubs 0 0 true kill (bytes "#DE Divide Error") ;;;
  intr_register_int intr_stubs 1 0 true kill (bytes "#DB Debug Exception") ;;;
  intr_register_int intr_stubs 6 0 true kill (bytes "#UD Invalid Opcode Exception") ;;;
  intr_register_int intr_stubs 7 0 true kill (bytes "#NM Device Not Available Exception") ;;;
  intr_register_int intr_stubs 11 0 true kill (bytes "#NP Segment Not Present") ;;;
  intr_register_int intr_stubs 12 0 true kill (bytes "#SS Stack Fault Exception") ;;;
  intr_register_int intr_stubs 13 0 true kill (bytes "#GP General Protection Exception") ;;;
  intr_register_int intr_stubs 16 0 true kill (bytes "#MF x87 FPU Floating-Point Error") ;;;
  intr_register_int intr_stubs 19 0 true kill (bytes "#XF SIMD Floating-Point Exception") ;;;
  intr_register_int intr_stubs 14 0 false page_fault (bytes "#PF Page-Fault Exception").

(** The lock that [syscall_init] initialises is in the model of the file system's calls. *)
Definition syscall_init : ST st unit := intr_register_int intr_stubs 0x30 3 true syscall_handler (bytes "syscall").

(** The part of [main] that sets up interrupts. *)
Definition init_interrupts : ST st unit :=
  intr_init intr_stubs idt_address ;;;
  timer_init intr_stubs ;;;
  kbd_init intr_stubs ;;;
  input_init ;;;
  exception_init ;;;
  syscall_init.

End init.

(** ** Handlers *)

(** [name] is the name of the running thread and [cr2] the register; [None] when the thread
    exits. *)
Definition kill_handler (name : list Z) (cr2 : Z) (f : intr_frame) : ST st (option intr_frame) :=
  if cs f =? SEL_UCSEG then
    n <-- intr_name (vec_no f mod 256) ;;
    print "%s: dying due to interrupt %#04x (%s)." [AStr (Some name); AInt (vec_no f); AStr (Some n)] ;;; newline ;;;
    intr_dump_frame cr2 f ;;;
    retS None
  else if cs f =? SEL_KCSEG then
    intr_dump_frame cr2 f ;;;
    λ _, Fault PanicCall
  else
    n <-- intr_name (vec_no f mod 256) ;;
    print "Interrupt %#04x (%s) in unknown segment %04x" [AInt (vec_no f); AStr (Some n); AInt (cs f)] ;;; newline ;;;
    retS None.

(** The label [PAGE_FAULT_VIOLATED_ACCESS] and what follows it. *)
Definition page_fault_violated_access (name : list Z) (cr2 : Z) (not_present write user : bool) (f : intr_frame) : ST st (option intr_frame) :=
  if negb user then
    retS (Some (Frame (edi f) (esi f) (ebp f) (esp_dummy f) (ebx f) (edx f) (ecx f) 0xffffffff (gs f) (fs f) (es f) (ds f)
      (vec_no f) (error_code f) (frame_pointer f) (eax f) (cs f) (eflags f) (esp f) (ss f)))
  else
    print "Page fault at %p: %s error %s page in %s context"
      [AInt cr2; AStr (Some (bytes (if not_present then "not present" else "rights violation"))); AStr (Some (bytes (if write then "writing" else "reading")));
       AStr (Some (bytes (if user then "user" else "kernel")))] ;;; newline ;;;
    kill_handler name cr2 f.

Definition page_fault_handler (name : list Z) (cr2 : Z) (f : intr_frame) : ST st (option intr_frame) :=
  intr_enable ;;;
  d <-- get_dev ;;
  put_dev (set_faults d (s64 (page_fault_cnt d + 1))) ;;;
  d <-- get_dev ;;
  print "page fault cnt = %d" [AInt (u32 (page_fault_cnt d))] ;;; newline ;;;
  let not_present := Z.land (error_code f) PF_P =? 0 in
  let write := negb (Z.land (error_code f) PF_W =? 0) in
  let user := negb (Z.land (error_code f) PF_U =? 0) in
  page_fault_violated_access name cr2 not_present write user f.

Definition exception_print_stats : ST st unit :=
  d <-- get_dev ;; print "Exception: %lld page faults" [AInt64 (page_fault_cnt d)] ;;; newline.

(** ** What user programs can reach *)

Section proof.
Context (intr_stubs : Z → Z) (idt_address : Z) (stubs_ok : ∀ v, 0 < intr_stubs v < WORD).
Implicit Types m : st.

Definition timer_requests : list (request (H := handler)) := [Ext 0x20 timer_interrupt (bytes "8254 Timer"); Ext 0x21 keyboard_interrupt (bytes "8042 Keyboard")].

Definition exception_requests : list (request (H := handler)) :=
  [Int 3 3 true kill (bytes "#BP Breakpoint Exception"); Int 4 3 true kill (bytes "#OF Overflow Exception"); Int 5 3 true kill (bytes "#BR BOUND Range Exceeded Exception");
   Int 0 0 true kill (bytes "#DE Divide Error"); Int 1 0 true kill (bytes "#DB Debug Exception"); Int 6 0 true kill (bytes "#UD Invalid Opcode Exception");
   Int 7 0 true kill (bytes "#NM Device Not Available Exception"); Int 11 0 true kill (bytes "#NP Segment Not Present"); Int 12 0 true kill (bytes "#SS Stack Fault Exception");
   Int 13 0 true kill (bytes "#GP General Protection Exception"); Int 16 0 true kill (bytes "#MF x87 FPU Floating-Point Error"); Int 19 0 true kill (bytes "#XF SIMD Floating-Point Exception");
   Int 14 0 false page_fault (bytes "#PF Page-Fault Exception"); Int 0x30 3 true syscall_handler (bytes "syscall")].

Lemma bindS_ext {S A B} (m : ST S A) (k1 k2 : A → ST S B) s : (∀ a s', k1 a s' = k2 a s') → bindS m k1 s = bindS m k2 s.
Proof. intros H. unfold bindS. destruct (m s) as [[a s']| |]; [apply H|done|done]. Qed.

Lemma bindS_assoc {S A B C} (m : ST S A) (k : A → ST S B) (l : B → ST S C) s : bindS (bindS m k) l s = bindS m (λ a, bindS (k a) l) s.
Proof. unfold bindS. by destruct (m s) as [[a s']| |]. Qed.

Lemma bindS_unit {S} (m : ST S unit) s : bindS m (λ _, retS tt) s = m s.
Proof. unfold bindS, retS. by destruct (m s) as [[[] s']| |]. Qed.

Lemma exceptions_registered m : (exception_init intr_stubs ;;; syscall_init intr_stubs) m = register_all intr_stubs exception_requests m.
Proof using.
  unfold exception_init, exception_requests. cbn [register_all register]. rewrite !bindS_assoc.
  do 13 (apply bindS_ext; intros _ ?; rewrite ?bindS_assoc). symmetry. apply bindS_unit.
Qed.

Lemma entry_frame m m' v dpl type h : idt m' = idt m → intr_handlers m' = intr_handlers m → entry intr_stubs m v dpl type h → entry intr_stubs m' v dpl type h.
Proof using. intros E1 E2 [H1 H2]. split; by rewrite ?E1, ?E2. Qed.

(** Programming the timer chip only writes to ports. *)
Lemma pit_ok m channel mode frequency :
  channel = 0 ∨ channel = 2 → mode = 2 ∨ mode = 3 → in_external_intr m = false → ∃ l, pit_configure_channel channel mode frequency m = Ok (tt, set_ports m (ports m ++ l)).
Proof using.
  intros Hch Hmo Hc. unfold pit_configure_channel.
  rewrite (bindS_Ok _ _ m tt m) by (by destruct Hch as [->| ->]). rewrite (bindS_Ok _ _ m tt m) by (by destruct Hmo as [->| ->]).
  exists [(PIT_PORT_CONTROL, Z.lor (Z.lor (Z.shiftl channel 6) 0x30) (Z.shiftl mode 1)); (PIT_PORT_COUNTER channel, pit_count frequency mod 256);
    (PIT_PORT_COUNTER channel, Z.shiftr (pit_count frequency) 8 mod 256)].
  destruct m as [[? ? ? ? ? ? i ? ? ? ? ?] ? ? ? ? ? x ? ? ? ?]. cbn in Hc. subst x.
  unfold intr_disable, intr_get_level, outb, intr_set_level, intr_enable, intr_context, bindS, getS, putS, assertS, retS.
  destruct i; cbn -[Z.lor Z.shiftl pit_count Z.modulo Z.shiftr]; by rewrite <-!app_assoc.
Qed.

Lemma requests_ok : Forall request_ok (timer_requests ++ exception_requests) ∧ NoDup (request_vec <$> (timer_requests ++ exception_requests)).
Proof using.
  split; [repeat (apply Forall_cons; split; [cbn; lia|]); apply Forall_nil_2|]. apply (bool_decide_unpack (NoDup _)). vm_compute. exact I.
Qed.

(** The handler of each vector, whether user programs may call it, and whether it starts with
    interrupts as they were. *)
Definition handler_of (v : Z) : option handler :=
  if v =? 0x20 then Some timer_interrupt else if v =? 0x21 then Some keyboard_interrupt else if v =? 0x30 then Some syscall_handler else if v =? 14 then Some page_fault
  else if bool_decide (v ∈ [0; 1; 3; 4; 5; 6; 7; 11; 12; 13; 16; 19]) then Some kill else None.
Definition user_callable (v : Z) : bool := bool_decide (v ∈ [3; 4; 5; 0x30]).
Definition keeps_interrupts (v : Z) : bool := bool_decide (v ∈ [0; 1; 3; 4; 5; 6; 7; 11; 12; 13; 16; 19; 0x30]).

Lemma table_ok r :
  r ∈ timer_requests ++ exception_requests →
  request_dpl r = (if user_callable (request_vec r) then 3 else 0) ∧ (if request_level r then 15 else 14) = (if keeps_interrupts (request_vec r) then 15 else 14) ∧
    Some (request_handler r) = handler_of (request_vec r).
Proof using. revert r. apply Forall_forall. repeat (apply Forall_cons; split; [vm_compute; auto|]). apply Forall_nil_2. Qed.

Lemma table_rest v : v ∉ request_vec <$> (timer_requests ++ exception_requests) → user_callable v = false ∧ keeps_interrupts v = false ∧ handler_of v = None.
Proof using.
  clear stubs_ok intr_stubs. intros Hv. change (request_vec <$> (timer_requests ++ exception_requests)) with [0x20; 0x21; 3; 4; 5; 0; 1; 6; 7; 11; 12; 13; 16; 19; 14; 0x30] in Hv.
  unfold user_callable, keeps_interrupts, handler_of. rewrite !bool_decide_eq_false_2 by set_solver. rewrite !(proj2 (Z.eqb_neq v _)) by set_solver. done.
Qed.

Lemma input_init_ok m : ∃ d, input_init m = Ok (tt, set_dev m d).
Proof using. by eexists. Qed.

Lemma init_interrupts_ok m :
  at_boot m →
  ∃ m', init_interrupts intr_stubs idt_address m = Ok (tt, m') ∧ idt_ok intr_stubs m' ∧ ks m' = ks m ∧ in_external_intr m' = false ∧
    ∀ v, 0 ≤ v < 256 → entry intr_stubs m' v (if user_callable v then 3 else 0) (if keeps_interrupts v then 15 else 14) (handler_of v).
Proof using stubs_ok.
  intros Hb. destruct (intr_init_ok intr_stubs idt_address stubs_ok m Hb) as (m0 & E0 & Hok0 & (Hk0 & Hc0 & _) & He0). unfold init_interrupts. rewrite (bindS_Ok _ _ _ _ _ E0).
  unfold timer_init. rewrite bindS_assoc. destruct (pit_ok m0 0 2 TIMER_FREQ) as (l & El); [auto..|by rewrite Hc0, (ab_context _ Hb)|]. rewrite (bindS_Ok _ _ _ _ _ El).
  set (m1 := set_ports m0 (ports m0 ++ l)). destruct requests_ok as [Hreq Hnd]. pose proof Hnd as Hnd'. apply Forall_app in Hreq as [Hreq1 Hreq2]. rewrite fmap_app in Hnd'. apply NoDup_app in Hnd' as (Hnd1 & Hdis & Hnd2).
  assert (∀ (rs : list (request (H := handler))) v, Forall request_ok rs → v ∈ request_vec <$> rs → 0 ≤ v < 256) as Hrange.
  { intros rs v Hrs (r & -> & Hr)%list_elem_of_fmap. rewrite Forall_forall in Hrs. specialize (Hrs r Hr). destruct r; simpl in *; lia. }
  destruct (register_all_ok intr_stubs stubs_ok timer_requests m1 Hreq1 Hnd1) as (m2 & E2 & Hok2 & (Hk2 & Hc2 & _) & Hin2 & Hout2).
  { by apply (same_tables_ok _ m0). }
  { intros v Hv. apply (entry_frame m0); [done|done|]. apply He0. by apply (Hrange timer_requests). }
  cbn [register_all timer_requests register] in E2. destruct (bindS_inv _ _ _ _ _ E2) as ([] & m1' & E2a & E2b). rewrite bindS_unit in E2b.
  rewrite (bindS_Ok _ _ _ _ _ E2a). unfold kbd_init. rewrite (bindS_Ok _ _ _ _ _ E2b). destruct (input_init_ok m2) as (d & Ed). rewrite (bindS_Ok _ _ _ _ _ Ed), exceptions_registered.
  destruct (register_all_ok intr_stubs stubs_ok exception_requests (set_dev m2 d) Hreq2 Hnd2) as (m3 & E3 & Hok3 & (Hk3 & Hc3 & _) & Hin3 & Hout3).
  { by apply (same_tables_ok _ m2). }
  { intros v Hv. apply (entry_frame m2); [done|done|]. pose proof (Hrange _ _ Hreq2 Hv) as Hv'. apply (Hout2 v); [lia|intros Hv2; by apply (Hdis v)|].
    apply (entry_frame m0); [done|done|]. by apply He0. }
  exists m3. split_and!; [done|done|rewrite Hk3; cbn; rewrite Hk2; exact Hk0|rewrite Hc3; cbn; rewrite Hc2; cbn; by rewrite Hc0, (ab_context _ Hb)|]. intros v Hv.
  destruct (decide (v ∈ request_vec <$> exception_requests)) as [(r & -> & Hr)%list_elem_of_fmap|Hni3].
  { destruct (table_ok r) as (<- & <- & <-); [apply elem_of_app; by right|]. apply Hin3, Hr. }
  apply (Hout3 v); [lia|done|]. apply (entry_frame m2); [done|done|]. destruct (decide (v ∈ request_vec <$> timer_requests)) as [(r & -> & Hr)%list_elem_of_fmap|Hni2].
  { destruct (table_ok r) as (<- & <- & <-); [apply elem_of_app; by left|]. apply Hin2, Hr. }
  apply (Hout2 v); [lia|done|]. apply (entry_frame m0); [done|done|]. destruct (table_rest v) as (-> & -> & ->); [rewrite fmap_app, not_elem_of_app; done|]. by apply He0.
Qed.

(** C19. After the part of [main] that sets up interrupts, which fails no assertion, a user program
    can enter the kernel by an INT instruction through exactly four vectors, the system call and
    three exceptions; all exceptions of the processor that a program can raise have a handler, a
    page fault turns interrupts off to keep its address, and all gates lead to the stubs. *)
Theorem kernel_vectors m :
  at_boot m →
  ∃ m', init_interrupts intr_stubs idt_address m = Ok (tt, m') ∧ idt_ok intr_stubs m' ∧ ks m' = ks m ∧ in_external_intr m' = false ∧
    ∀ v, 0 ≤ v < 256 → entry intr_stubs m' v (if user_callable v then 3 else 0) (if keeps_interrupts v then 15 else 14) (handler_of v).
Proof using stubs_ok. apply init_interrupts_ok. Qed.

(** ** What becomes of a program that faults *)

(** Only the console changes. *)
Definition printed m m' : Prop := ∃ l, m' = set_mconsole m (mconsole m ++ l).

Lemma printed_refl m : printed m m.
Proof using. exists []. rewrite app_nil_r. by destruct m. Qed.

Lemma printed_trans m1 m2 m3 : printed m1 m2 → printed m2 m3 → printed m1 m3.
Proof using. intros [l ->] [l' ->]. exists (l ++ l'). cbn. by rewrite app_assoc. Qed.

Lemma print_line_ok format args m k :
  typed (bytes format) args → ∃ m', printed m m' ∧ (print format args ;;; newline ;;; k) m = (k : ST st (option intr_frame)) m'.
Proof using.
  intros Ht. destruct (printf_typed _ _ Ht) as (l & Hl & _). exists (set_mconsole m (mconsole m ++ l ++ [10])). split; [by eexists|].
  rewrite (bindS_Ok (print format args) _ m tt (set_mconsole m (mconsole m ++ l))) by (unfold print; by rewrite Hl). unfold newline, bindS. cbn. by rewrite <-app_assoc.
Qed.

Lemma intr_name_ok m v : idt_ok intr_stubs m → 0 ≤ v < 256 → ∃ n, intr_name v m = Ok (n, m).
Proof using.
  intros Hok Hv. destruct (lookup_lt_is_Some_2 (intr_names m) (Z.to_nat v)) as [n Hn]; [rewrite (io_names _ _ Hok); unfold INTR_CNT; lia|]. exists n. unfold intr_name, liftS. by rewrite Hn.
Qed.

Lemma dump_ok cr2 f m (k : ST st (option intr_frame)) :
  idt_ok intr_stubs m → 0 ≤ vec_no f < 256 → ∃ m', printed m m' ∧ (intr_dump_frame cr2 f ;;; k) m = k m'.
Proof using.
  intros Hok Hv. destruct (intr_name_ok m _ Hok Hv) as (n & En). unfold intr_dump_frame.
  assert (∀ (format : string) args (k1 : ST st unit) m1, typed (bytes format) args →
    ∃ m2, printed m1 m2 ∧ ((print format args ;;; newline ;;; k1) ;;; k) m1 = (k1 ;;; k) m2) as Hline.
  { intros format args k1 m1 Ht. destruct (printf_typed _ _ Ht) as (l & Hl & _). exists (set_mconsole m1 (mconsole m1 ++ l ++ [10])). split; [by eexists|].
    rewrite !bindS_assoc. rewrite (bindS_Ok (print format args) _ m1 tt (set_mconsole m1 (mconsole m1 ++ l))) by (unfold print; by rewrite Hl).
    rewrite bindS_assoc. unfold newline. unfold bindS at 1. cbn. by rewrite <-app_assoc. }
  rewrite bindS_assoc, (bindS_Ok _ _ _ _ _ En).
  edestruct (Hline "Interrupt %#04x (%s) at eip=%p"%string) as (m1 & P1 & ->); [cbn [bytes]; typed_format|].
  edestruct (Hline " cr2=%08x error=%08x"%string) as (m2 & P2 & ->); [cbn [bytes]; typed_format|].
  edestruct (Hline " eax=%08x ebx=%08x ecx=%08x edx=%08x"%string) as (m3 & P3 & ->); [cbn [bytes]; typed_format|].
  edestruct (Hline " esi=%08x edi=%08x esp=%08x ebp=%08x"%string) as (m4 & P4 & ->); [cbn [bytes]; typed_format|].
  rewrite bindS_assoc. destruct (printf_typed (bytes " cs=%04hx ds=%04hx es=%04hx ss=%04hx") [AInt (cs f); AInt (ds f); AInt (es f); AInt (ss f)]) as (l & Hl & _); [cbn [bytes]; typed_format|].
  rewrite (bindS_Ok (print _ _) _ m4 tt (set_mconsole m4 (mconsole m4 ++ l))) by (unfold print; by rewrite Hl). unfold newline. unfold bindS at 1. cbn [mconsole set_mconsole].
  eexists. split; [|reflexivity]. eapply printed_trans; [exact P1|]. eapply printed_trans; [exact P2|]. eapply printed_trans; [exact P3|]. eapply printed_trans; [exact P4|].
  exists (l ++ [10]). cbn. by rewrite app_assoc.
Qed.

Lemma printed_ok m m' : printed m m' → idt_ok intr_stubs m → idt_ok intr_stubs m'.
Proof using. intros [l ->]. by apply same_tables_ok. Qed.

(** An exception of code in the segment of user programs. *)
Lemma kill_user name cr2 f m :
  idt_ok intr_stubs m → 0 ≤ vec_no f < 256 → cs f = SEL_UCSEG → ∃ m', kill_handler name cr2 f m = Ok (None, m') ∧ printed m m'.
Proof using.
  intros Hok Hv Hcs. unfold kill_handler. rewrite Hcs. cbn [Z.eqb Pos.eqb SEL_UCSEG]. change (SEL_UCSEG =? SEL_UCSEG) with true. cbn iota.
  destruct (intr_name_ok m (vec_no f mod 256) Hok) as (n & En); [by apply Z.mod_pos_bound|]. rewrite (bindS_Ok _ _ _ _ _ En).
  edestruct (print_line_ok "%s: dying due to interrupt %#04x (%s).") as (m1 & P1 & ->); [cbn [bytes]; typed_format|].
  destruct (dump_ok cr2 f m1 (retS None) (printed_ok _ _ P1 Hok) Hv) as (m2 & P2 & ->). exists m2. split; [done|]. by eapply printed_trans.
Qed.

(** An exception of the kernel's own code. *)
Lemma kill_kernel name cr2 f m : idt_ok intr_stubs m → 0 ≤ vec_no f < 256 → cs f = SEL_KCSEG → kill_handler name cr2 f m = Fault PanicCall.
Proof using.
  intros Hok Hv Hcs. unfold kill_handler. rewrite Hcs. change (SEL_KCSEG =? SEL_UCSEG) with false. change (SEL_KCSEG =? SEL_KCSEG) with true. cbn iota.
  by destruct (dump_ok cr2 f m (λ _, Fault PanicCall) Hok Hv) as (m2 & P2 & ->).
Qed.

(** A page fault turns interrupts on and is counted. *)
Definition counted m : st := set_dev (set_ks m (set_intr (ks m) true)) (set_faults (dev m) (s64 (page_fault_cnt (dev m) + 1))).

Definition to_fixup (f : intr_frame) : intr_frame :=
  Frame (edi f) (esi f) (ebp f) (esp_dummy f) (ebx f) (edx f) (ecx f) 0xffffffff (gs f) (fs f) (es f) (ds f)
    (vec_no f) (error_code f) (frame_pointer f) (eax f) (cs f) (eflags f) (esp f) (ss f).

Lemma page_fault_ok name cr2 f m :
  idt_ok intr_stubs m → 0 ≤ vec_no f < 256 → in_external_intr m = false →
  ∃ m', printed (counted m) m' ∧
    page_fault_handler name cr2 f m = if Z.land (error_code f) PF_U =? 0 then Ok (Some (to_fixup f), m') else kill_handler name cr2 f m'.
Proof using.
  intros Hok Hv Hc. unfold page_fault_handler, page_fault_violated_access. rewrite (bindS_Ok intr_enable _ m (intr (ks m)) (set_ks m (set_intr (ks m) true))).
  2:{ unfold intr_enable, intr_get_level, intr_context, assertS, bindS, getS, putS, retS. by rewrite Hc. }
  set (m0 := set_ks m _). rewrite (bindS_Ok get_dev _ m0 (dev m0) m0 eq_refl). rewrite (bindS_Ok (put_dev _) _ m0 tt (counted m) eq_refl), (bindS_Ok get_dev _ (counted m) _ (counted m) eq_refl).
  edestruct (print_line_ok "page fault cnt = %d") as (m1 & P1 & ->); [cbn [bytes]; typed_format|]. cbn zeta. rewrite negb_involutive.
  destruct (Z.land (error_code f) PF_U =? 0); [by exists m1|]. cbn [negb].
  destruct (Z.land (error_code f) PF_P =? 0), (negb (Z.land (error_code f) PF_W =? 0));
    (edestruct (print_line_ok "Page fault at %p: %s error %s page in %s context") as (m2 & P2 & ->); [cbn [bytes]; typed_format|]; exists m2; split; [by eapply printed_trans|done]).
Qed.

Context (others : handler → intr_frame → ST st (option intr_frame)).

Definition kernel_code (name : list Z) (cr2 : Z) : handler → intr_frame → ST st (option intr_frame) :=
  device_code (λ h f, match h with kill => kill_handler name cr2 f | page_fault => page_fault_handler name cr2 f | _ => others h f end).

(** Nothing but the interrupt flag, the console and the count of page faults differs. *)
Definition undisturbed m m' : Prop :=
  (ks m' = ks m ∨ ks m' = set_intr (ks m) true) ∧ (∃ n, dev m' = set_faults (dev m) n) ∧ in_external_intr m' = in_external_intr m ∧ same_tables m m' ∧ ports m' = ports m.

Lemma printed_undisturbed m m1 m' : printed m1 m' → m1 = m ∨ m1 = counted m → undisturbed m m'.
Proof using.
  intros [l ->] [->| ->]; unfold undisturbed, counted; cbn; split_and!; try done; auto; [exists (page_fault_cnt (dev m)); by destruct (dev m)|by eexists].
Qed.

(** An exception of code in a segment that is neither the programs' nor the kernel's. *)
Lemma kill_unknown name cr2 f m :
  idt_ok intr_stubs m → cs f ≠ SEL_UCSEG → cs f ≠ SEL_KCSEG → ∃ m', kill_handler name cr2 f m = Ok (None, m') ∧ printed m m'.
Proof using.
  intros Hok Hu Hk. unfold kill_handler. rewrite !(proj2 (Z.eqb_neq _ _)) by done.
  destruct (intr_name_ok m (vec_no f mod 256) Hok) as (n & En); [by apply Z.mod_pos_bound|]. rewrite (bindS_Ok _ _ _ _ _ En).
  edestruct (print_line_ok "Interrupt %#04x (%s) in unknown segment %04x") as (m1 & P1 & ->); [cbn [bytes]; typed_format|]. by exists m1.
Qed.

Lemma kill_exits name cr2 f m :
  idt_ok intr_stubs m → 0 ≤ vec_no f < 256 → cs f ≠ SEL_KCSEG → ∃ m', kill_handler name cr2 f m = Ok (None, m') ∧ printed m m'.
Proof using. intros Hok Hv Hk. destruct (decide (cs f = SEL_UCSEG)); [by apply kill_user|by apply kill_unknown]. Qed.

Lemma alter_as_insert (g : Z → Z) (i : nat) (l : list Z) x : l !! i = Some x → alter g i l = <[i := g x]> l.
Proof using. revert i. induction l as [|y l IH]; intros [|i] H; simplify_eq/=; [done|]. by rewrite <-IH. Qed.

(** The interrupt is counted, and the console may have a message. *)
Lemma unexpected_counted f m :
  idt_ok intr_stubs m → 0 ≤ vec_no f < 256 →
  ∃ m', unexpected_interrupt f m = Ok (tt, m') ∧ printed (set_unexpected m (alter (λ n, u32 (n + 1)) (Z.to_nat (vec_no f)) (unexpected_cnt m))) m'.
Proof using.
  intros Hok Hv. unfold unexpected_interrupt. rewrite (bindS_Ok _ _ m m m eq_refl).
  destruct (lookup_lt_is_Some_2 (unexpected_cnt m) (Z.to_nat (vec_no f))) as [n Hn]; [rewrite (io_counts _ _ Hok); unfold INTR_CNT; lia|].
  rewrite (bindS_Ok _ _ m n m) by (unfold liftS; by rewrite Hn). rewrite (alter_as_insert _ _ _ _ Hn). set (m1 := set_unexpected m _).
  rewrite (bindS_Ok _ _ m tt m1 eq_refl). destruct (_ =? 0); [|by exists m1; split; [|apply printed_refl]].
  destruct (intr_name_ok m (vec_no f) Hok Hv) as (nm & Enm). rewrite (bindS_Ok _ _ m1 nm m1) by (revert Enm; unfold intr_name, liftS; cbn; by destruct (deref _); intros [= ->]).
  destruct (printf_typed (bytes "Unexpected interrupt %#04x (%s)") [AInt (vec_no f); AStr (Some nm)]) as (l & Hl & _); [cbn [bytes]; typed_format|].
  rewrite (bindS_Ok _ _ m1 tt (set_mconsole m1 (mconsole m1 ++ l))) by (unfold print; by rewrite Hl). eexists. split; [reflexivity|]. exists (l ++ [10]). cbn. by rewrite app_assoc.
Qed.

Lemma exception_dispatched f m name cr2 :
  0 ≤ vec_no f < 0x20 → intr_handlers m !! Z.to_nat (vec_no f) = Some (handler_of (vec_no f)) →
  intr_handler (kernel_code name cr2) f m =
    (r <-- (match handler_of (vec_no f) with Some h => kernel_code name cr2 h f | None => unexpected_interrupt f ;;; retS (Some f) end) ;;
     retS (match r with None => Exited | Some f => Resume f end)) m.
Proof using.
  intros Hv Hh. unfold intr_handler, is_external. rewrite (proj2 (Z.leb_gt 0x20 (vec_no f))) by lia. cbn [andb]. rewrite (bindS_Ok (retS tt) _ m tt m eq_refl). unfold run_handler.
  rewrite bindS_assoc, (bindS_Ok getS _ m m m eq_refl), bindS_assoc.
  rewrite (bindS_Ok (liftS _) _ m (handler_of (vec_no f)) m) by (unfold liftS; by rewrite Hh). rewrite !(proj2 (Z.eqb_neq (vec_no f) _)) by lia. apply bindS_ext. by intros [f'|] s'.
Qed.

(** The exceptions below the vectors of devices that have the handler [kill]. *)
Definition killing (v : Z) : Prop := v ∈ [0; 1; 3; 4; 5; 6; 7; 11; 12; 13; 16; 19].

Lemma handler_below v :
  0 ≤ v < 0x20 → (killing v → handler_of v = Some kill) ∧ (¬ killing v → v ≠ 14 → handler_of v = None).
Proof using.
  clear stubs_ok intr_stubs. intros Hv. unfold handler_of. rewrite !(proj2 (Z.eqb_neq v 32)), (proj2 (Z.eqb_neq v 33)), (proj2 (Z.eqb_neq v 48)) by lia.
  split; [intros Hk|intros Hk Hn].
  - rewrite (bool_decide_eq_true_2 _ Hk), (proj2 (Z.eqb_neq v 14)); [done|]. intros ->. unfold killing in Hk. set_solver.
  - rewrite (proj2 (Z.eqb_neq v 14)) by done. by rewrite (bool_decide_eq_false_2 _ Hk).
Qed.

(** C21. What the kernel makes of each of the processor's exceptions, once its handlers are
    registered, whatever the frame holds. The exceptions that have the handler [kill], and a page
    fault whose error code says that a program made it, end the running thread after a message,
    unless the frame's code segment is the kernel's, which is a panic; that includes a segment
    that is neither the programs' nor the kernel's, such as the one in a misread frame. A page
    fault that the error code gives to the kernel goes on where EAX points, with the value -1 in
    it; the comments of exception.c expect a panic there and in the unknown segment. An exception
    without a handler is counted and returned from. In all cases but the panic the rest of the
    kernel's state is as before. *)
Theorem exceptions_contained m f name cr2 :
  idt_ok intr_stubs m → in_external_intr m = false → 0 ≤ vec_no f < 0x20 → intr_handlers m !! Z.to_nat (vec_no f) = Some (handler_of (vec_no f)) →
  let user_fault := vec_no f = 14 ∧ Z.land (error_code f) PF_U ≠ 0 in
  (killing (vec_no f) ∨ user_fault → cs f ≠ SEL_KCSEG → ∃ m', intr_handler (kernel_code name cr2) f m = Ok (Exited, m') ∧ undisturbed m m') ∧
  (killing (vec_no f) ∨ user_fault → cs f = SEL_KCSEG → intr_handler (kernel_code name cr2) f m = Fault PanicCall) ∧
  (vec_no f = 14 → Z.land (error_code f) PF_U = 0 → ∃ m', intr_handler (kernel_code name cr2) f m = Ok (Resume (to_fixup f), m') ∧ undisturbed m m') ∧
  (¬ killing (vec_no f) → vec_no f ≠ 14 →
    ∃ m', intr_handler (kernel_code name cr2) f m = Ok (Resume f, m') ∧ undisturbed m m' ∧
      unexpected_cnt m' = alter (λ n, u32 (n + 1)) (Z.to_nat (vec_no f)) (unexpected_cnt m)).
Proof using.
  intros Hok Hc Hv Hh uf. rewrite (exception_dispatched f m name cr2 Hv Hh). destruct (handler_below (vec_no f) Hv) as [Hkill Hnone].
  assert (handler_of 14 = Some page_fault) as H14 by done.
  destruct (page_fault_ok name cr2 f m Hok ltac:(lia) Hc) as (m1 & P1 & E1).
  assert (idt_ok intr_stubs m1) as Hok1 by (apply (printed_ok (counted m)); [done|by apply (same_tables_ok _ m)]). split_and!.
  - intros [Hk|[Hf Hu]] Hcs.
    + rewrite (Hkill Hk). cbn [kernel_code device_code]. destruct (kill_exits name cr2 f m Hok ltac:(lia) Hcs) as (m' & E & P).
      rewrite (bindS_Ok _ _ _ _ _ E). exists m'. split; [done|]. apply (printed_undisturbed m m); auto.
    + rewrite Hf, H14. cbn [kernel_code device_code]. rewrite (proj2 (Z.eqb_neq _ _)) in E1 by done. destruct (kill_exits name cr2 f m1 Hok1 ltac:(lia) Hcs) as (m2 & E2 & P2).
      rewrite E2 in E1. rewrite (bindS_Ok _ _ _ _ _ E1). exists m2. split; [done|]. apply (printed_undisturbed m (counted m)); [by eapply printed_trans|auto].
  - intros [Hk|[Hf Hu]] Hcs; apply bindS_Fault.
    + rewrite (Hkill Hk). by apply kill_kernel; [|lia|].
    + rewrite Hf, H14. cbn [kernel_code device_code]. rewrite E1, (proj2 (Z.eqb_neq _ _)) by done. by apply kill_kernel; [|lia|].
  - intros Hf Hu. rewrite Hf, H14. cbn [kernel_code device_code]. rewrite (proj2 (Z.eqb_eq _ _)) in E1 by done.
    rewrite (bindS_Ok _ _ _ _ _ E1). exists m1. split; [done|]. apply (printed_undisturbed m (counted m)); auto.
  - intros Hk Hf. rewrite (Hnone Hk Hf). destruct (unexpected_counted f m Hok ltac:(lia)) as (m' & E & l & ->).
    rewrite bindS_assoc, (bindS_Ok _ _ _ _ _ E). eexists. split; [reflexivity|]. split; [|done].
    unfold undisturbed. cbn. split_and!; try done; auto; [exists (page_fault_cnt (dev m)); by destruct (dev m)|split_and!; try done; apply length_alter].
Qed.

End proof.

(** ** The kernel's vectors on a machine *)

Definition boot_drivers : drivers :=
  Drivers 0 0 (Keyboard false false false false false false false 0 []) UNINIT (intq_init (replicate 64 0)) (intq_init (replicate 64 0)) (Uart [] [] false) 0.

Lemma kernel_vectors_witness :
  ∃ m', init_interrupts demo_stubs 4096 (boot_machine boot_drivers) = Ok (tt, m') ∧ entry demo_stubs m' 0x30 3 15 (Some syscall_handler) ∧ entry demo_stubs m' 14 0 14 (Some page_fault).
Proof.
  destruct (kernel_vectors demo_stubs 4096 demo_stubs_ok (boot_machine boot_drivers) (boot_machine_ok boot_drivers)) as (m' & E & _ & _ & _ & He).
  assert (0 ≤ 0x30 < 256 ∧ 0 ≤ 14 < 256) as [Hr1 Hr2] by lia. pose proof (He 0x30 Hr1) as H1. pose proof (He 14 Hr2) as H2. clear He.
  assert (user_callable 0x30 = true ∧ keeps_interrupts 0x30 = true ∧ handler_of 0x30 = Some syscall_handler) as (E1 & E2 & E3) by (vm_compute; auto). rewrite E1, E2, E3 in H1.
  assert (user_callable 14 = false ∧ keeps_interrupts 14 = false ∧ handler_of 14 = Some page_fault) as (E4 & E5 & E6) by (vm_compute; auto). rewrite E4, E5, E6 in H2.
  exact (ex_intro _ m' (conj E (conj H1 H2))).
Defined.

Definition no_syscalls (h : handler) (f : intr_frame) : ST (machine handler drivers) (option intr_frame) := retS (Some f).

Lemma exceptions_contained_witness :
  ∃ m m' m'', idt_ok demo_stubs m ∧ intr_handler (kernel_code no_syscalls (bytes "prog") 0) (demo_frame 0) m = Ok (Exited, m') ∧ undisturbed m m' ∧
    intr_handler (kernel_code no_syscalls (bytes "prog") 0) (demo_frame 17) m = Ok (Resume (demo_frame 17), m'').
Proof.
  destruct (init_interrupts_ok demo_stubs 4096 demo_stubs_ok (boot_machine boot_drivers) (boot_machine_ok boot_drivers)) as (m & _ & Hok & _ & Hc & He).
  assert (0 ≤ 0 < 256 ∧ 0 ≤ 17 < 256) as [Hr1 Hr2] by lia.
  destruct (exceptions_contained demo_stubs no_syscalls m (demo_frame 0) (bytes "prog") 0 Hok Hc ltac:(done) (en_handler _ _ _ _ _ _ (He 0 Hr1))) as (H1 & _).
  destruct (exceptions_contained demo_stubs no_syscalls m (demo_frame 17) (bytes "prog") 0 Hok Hc ltac:(done) (en_handler _ _ _ _ _ _ (He 17 Hr2))) as (_ & _ & _ & H2).
  destruct H1 as (m' & E & Hu); [left; by apply (bool_decide_unpack (0 ∈ _))|done|].
  destruct H2 as (m'' & E2 & _); [by apply (bool_decide_unpack (¬ 17 ∈ _))|done|].
  exact (ex_intro _ m (ex_intro _ m' (ex_intro _ m'' (conj Hok (conj E (conj Hu E2)))))).
Defined.
