(* ===== verification/Syscall.v ===== *)
(** System calls (src/userprog/syscall.c, and the file descriptors of process.c).

    The state is what a process shares with the kernel: its memory, the files, its table of
    file descriptors, the console and the keyboard, and the kernel's heap. The number, the
    arguments and the strings of a call are read from the memory of the process through the
    interface of user memory; the files are those of the interface of the file system.
    [syscall_handler] is the whole handler; where it starts or waits for another process it
    says so instead, since that is the business of the scheduler. *)

From Stdlib Require Import Ascii String.
From S2P Require Import Prelude Vaddr Disk Inode Files UserMem KernelHeap Stdio Format.

(** ** Loops with a bound *)

(** At most [p] steps, fewer if one of them ends the loop. *)
Fixpoint iterate {A B : Type} (p : positive) (f : A → A + B) (a : A) : A + B :=
  match p with
  | xH => f a
  | xO p => match iterate p f a with inl a => iterate p f a | inr b => inr b end
  | xI p =>
      match f a with
      | inl a => match iterate p f a with inl a => iterate p f a | inr b => inr b end
      | inr b => inr b
      end
  end.

Definition iterateZ {A B : Type} (n : Z) (f : A → A + B) (a : A) : A + B :=
  match n with Zpos p => iterate p f a | _ => inl a end.

(** ** State *)

Record sys (M F H : Type) := Sys {
  umem : M;
  sfiles : F;
  fd_table : gmap Z file;
  next_fd : Z;
  file_lock : bool;
  console : list Z;
  keys : list Z;
  kheap : H;
}.
Arguments Sys {M F H}.
Arguments umem {M F H}. Arguments sfiles {M F H}. Arguments fd_table {M F H}. Arguments next_fd {M F H}. Arguments file_lock {M F H}.
Arguments console {M F H}. Arguments keys {M F H}. Arguments kheap {M F H}.

(** How a call ends: it returns to the process, it ends the process or the machine, or it
    waits for a key. *)
Inductive outcome (A : Type) := Return (a : A) | Exits (status : Z) | PowersOff | Waits.
Arguments Return {A}. Arguments Exits {A}. Arguments PowersOff {A}. Arguments Waits {A}.

(** An argument is a word, or a string that has been copied to a block. *)
Inductive karg := Word (v : Z) | Str (p : Z) (l : list Z).

(** What a call leaves in EAX, or the process that it starts or waits for, with the arguments
    to free after it. *)
Inductive answer := Eax (v : Z) | NoEax | Execs (cmd_line : list Z) (args : list karg) | WaitsFor (tid : Z).

Section code.
Context {M F H : Type} `{!UserMem M} `{!FileSys F} `{!HeapOps H} (thread_name : list Z).
Local Abbreviation st := (sys M F H).

Definition SY (A : Type) : Type := st → res (outcome A * st).

Definition retY {A} (a : A) : SY A := λ s, Ok (Return a, s).

Definition bindY {A B} (m : SY A) (k : A → SY B) : SY B := λ s,
  '(o, s) ← m s;
  match o with
  | Return a => k a s
  | Exits status => Ok (Exits status, s)
  | PowersOff => Ok (PowersOff, s)
  | Waits => Ok (Waits, s)
  end.

Local Notation "x <~ m ;; k" := (bindY m (λ x, k)) (at level 20, m at level 99, k at level 200).
Local Notation "' p <~ m ;; k" := (bindY m (λ x, match x with p => k end)) (at level 20, p pattern, m at level 99, k at level 200).
Local Notation "m ;~ k" := (bindY m (λ _, k)) (at level 100, k at level 200, right associativity).

Definition getY : SY st := λ s, Ok (Return s, s).

Definition assertY (b : bool) : SY unit := λ s, if b then Ok (Return tt, s) else Fault AssertFail.

Definition set_umem (s : st) (m : M) : st := Sys m (sfiles s) (fd_table s) (next_fd s) (file_lock s) (console s) (keys s) (kheap s).
Definition set_files (s : st) (f : F) : st := Sys (umem s) f (fd_table s) (next_fd s) (file_lock s) (console s) (keys s) (kheap s).
Definition set_fds (s : st) (t : gmap Z file) (n : Z) : st := Sys (umem s) (sfiles s) t n (file_lock s) (console s) (keys s) (kheap s).
Definition set_lock (s : st) (b : bool) : st := Sys (umem s) (sfiles s) (fd_table s) (next_fd s) b (console s) (keys s) (kheap s).
Definition set_console (s : st) (l : list Z) : st := Sys (umem s) (sfiles s) (fd_table s) (next_fd s) (file_lock s) l (keys s) (kheap s).
Definition set_keys (s : st) (l : list Z) : st := Sys (umem s) (sfiles s) (fd_table s) (next_fd s) (file_lock s) (console s) l (kheap s).
Definition set_heap (s : st) (h : H) : st := Sys (umem s) (sfiles s) (fd_table s) (next_fd s) (file_lock s) (console s) (keys s) h.

Definition onUser {A} (m : M → res (A * M)) : SY A := λ s, '(a, u) ← m (umem s); Ok (Return a, set_umem s u).
Definition onFiles {A} (m : ST F A) : SY A := λ s, '(a, f) ← m (sfiles s); Ok (Return a, set_files s f).

(** ** The kernel's heap

    What is in a block is kept with its address. *)
Definition malloc (size : Z) : SY Z := λ s, '(p, h) ← kmalloc size (kheap s); Ok (Return p, set_heap s h).
Definition free (p : Z) : SY unit := λ s, h ← kfree p (kheap s); Ok (Return tt, set_heap s h).

(** ** The lock of the file system

    The other processes give it back sooner or later; a thread must not take it twice. *)
Definition lock_acquire : SY unit := λ s, if file_lock s then Fault AssertFail else Ok (Return tt, set_lock s true).
Definition lock_release : SY unit := λ s, if file_lock s then Ok (Return tt, set_lock s false) else Fault AssertFail.

(** ** Checks *)

(** The range of the addresses that a pointer of a process may have. *)
Definition user_address (addr : Z) : bool := is_user_vaddr addr && (134512640 <=? addr).

Definition exit {A} (status : Z) : SY A := λ s,
  out ← printf (bytes "process %s: exited with %d" ++ [10]) [AStr (Some thread_name); AInt (u32 status)] (console s);
  Ok (Exits status, set_console s out).

Definition check_address (addr : Z) : SY unit := if user_address addr then retY tt else exit (-1).

Definition check_address4 (addr : Z) : SY unit := check_address addr ;~ check_address (u32 (addr + 3)).

Fixpoint get_args (count : nat) (esp : Z) : SY (list Z) :=
  match count with
  | O => retY []
  | S count =>
      let esp := u32 (esp + 4) in
      check_address4 esp ;~
      v <~ onUser (get_user32 esp) ;;
      l <~ get_args count esp ;;
      retY (s32 v :: l)
  end.

Definition get_arguments (esp count : Z) : SY (list Z) :=
  assertY ((1 <=? count) && (count <=? 4)) ;~ get_args (Z.to_nat count) esp.

Definition check_user_string_l (str size : Z) : SY unit :=
  match iterateZ size (λ a, if user_address a then inl (u32 (a + 1)) else inr tt) str with
  | inl _ => retY tt
  | inr _ => exit (-1)
  end.

(** The loop over the characters of a string: it ends at a null byte, with the length, or at
    an address that does not pass the check. *)
Definition scan_step (checked : bool) : Z * Z * M → (Z * Z * M) + res (option Z * M) := λ '(a, n, m),
  if checked && negb (user_address a) then inr (Ok (None, m))
  else
    match get_user a m with
    | Ok (c, m) => if c =? 0 then inr (Ok (Some n, m)) else inl (u32 (a + 1), n + 1, m)
    | Fault e => inr (Fault e)
    | Timeout => inr Timeout
    end.

Definition scan (checked : bool) (str : Z) (m : M) : res (option Z * M) :=
  match iterate 4294967296 (scan_step checked) (str, 0, m) with inl _ => Timeout | inr r => r end.

Definition check_user_string (str : Z) : SY unit :=
  o <~ onUser (scan true str) ;;
  match o with Some _ => retY tt | None => exit (-1) end.

Definition strlen (str : Z) : SY Z := o <~ onUser (scan false str) ;; retY (default 0 o).

(** ** Copies in the kernel *)

Definition copy_step : Z * list Z * M → (Z * list Z * M) + res (list Z * M) := λ '(a, l, m),
  match get_user a m with
  | Ok (c, m) => inl (u32 (a + 1), c :: l, m)
  | Fault e => inr (Fault e)
  | Timeout => inr Timeout
  end.

Definition copy_in (str size : Z) (m : M) : res (list Z * M) :=
  match iterateZ size copy_step (str, [], m) with inl (_, l, m) => Ok (rev l, m) | inr r => r end.

(** A block and what has been copied to it, or a null pointer. *)
Definition get_user_string_l (str size : Z) : SY (Z * list Z) :=
  buffer <~ malloc size ;;
  if buffer =? NULL then retY (NULL, [])
  else l <~ onUser (copy_in str size) ;; retY (buffer, l).

Definition get_user_string (str : Z) : SY (Z * list Z) :=
  n <~ strlen str ;; get_user_string_l str (u32 (n + 1)).

Definition flagged (flag index : Z) : bool := negb (Z.land flag (Z.shiftr 8 index) =? 0).

Definition free_single_user_string (args : list karg) (flag index : Z) : SY (list karg) :=
  if flagged flag index then
    match args !! Z.to_nat index with
    | Some (Str p _) => free p ;~ retY (<[Z.to_nat index := Word 0]> args)
    | Some (Word v) => free (u32 v) ;~ retY (<[Z.to_nat index := Word 0]> args)
    | None => λ _, Fault BadAccess
    end
  else retY args.

Definition free_user_strings (args : list karg) (flag : Z) : SY (list karg) :=
  assertY ((0 <=? flag) && (flag <=? 15)) ;~
  args <~ free_single_user_string args flag 0 ;;
  args <~ free_single_user_string args flag 1 ;;
  args <~ free_single_user_string args flag 2 ;;
  free_single_user_string args flag 3.

Definition get_single_user_string (args : list karg) (flag index : Z) : SY (list karg) :=
  if flagged flag index then
    match args !! Z.to_nat index with
    | Some (Word v) =>
        ' (p, l) <~ get_user_string (u32 v) ;;
        if p =? NULL then
          free_user_strings (<[Z.to_nat index := Word 0]> args) (Z.land flag (Z.shiftr 240 index)) ;~
          exit (-1)
        else retY (<[Z.to_nat index := Str p l]> args)
    | _ => λ _, Fault BadAccess
    end
  else retY args.

Definition check_single_user_string (args : list karg) (flag index : Z) : SY unit :=
  if flagged flag index then
    match args !! Z.to_nat index with
    | Some (Word v) => check_user_string (u32 v)
    | _ => λ _, Fault BadAccess
    end
  else retY tt.

Definition get_user_strings (args : list karg) (flag : Z) : SY (list karg) :=
  assertY ((0 <=? flag) && (flag <=? 15)) ;~
  check_single_user_string args flag 0 ;~
  check_single_user_string args flag 1 ;~
  check_single_user_string args flag 2 ;~
  check_single_user_string args flag 3 ;~
  args <~ get_single_user_string args flag 0 ;;
  args <~ get_single_user_string args flag 1 ;;
  args <~ get_single_user_string args flag 2 ;;
  get_single_user_string args flag 3.

(** ** File descriptors *)

(** The table has the two pages that [thread_create] gives it; the first descriptor is 2. *)
Definition FD_END : Z := 2 + 2 * 4096 / 4.

Definition process_add_file (f : option file) : SY Z := λ s,
  match f with
  | None => Ok (Return (-1), s)
  | Some f =>
      let fd := next_fd s in
      if (2 <=? fd) && (fd <? FD_END) then Ok (Return fd, set_fds s (<[fd := f]> (fd_table s)) (s32 (fd + 1)))
      else Fault BadAccess
  end.

Definition process_get_file (fd : Z) : SY (option file) := λ s,
  if (fd <=? 1) || (next_fd s <=? fd) then Ok (Return None, s) else Ok (Return (fd_table s !! fd), s).

Definition process_close_file (fd : Z) : SY unit :=
  s <~ getY ;;
  if (fd <=? 1) || (next_fd s <=? fd) then retY tt
  else
    match fd_table s !! fd with Some f => onFiles (fsys_close f) | None => retY tt end ;~
    λ s, Ok (Return tt, set_fds s (delete fd (fd_table s)) (next_fd s)).

(** The structure that a descriptor stands for has changed. *)
Definition set_file (fd : Z) (f : file) : SY unit := λ s, Ok (Return tt, set_fds s (<[fd := f]> (fd_table s)) (next_fd s)).

(** ** The calls *)

Definition halt {A} : SY A := λ s, Ok (PowersOff, s).

Definition create (file : list Z) (initial_size : Z) : SY Z :=
  b <~ onFiles (fsys_create (cstring file) (s32 initial_size)) ;; retY (Z.b2z b).

Definition remove (file : list Z) : SY Z := b <~ onFiles (fsys_remove (cstring file)) ;; retY (Z.b2z b).

Definition open (file : list Z) : SY Z :=
  lock_acquire ;~
  f <~ onFiles (fsys_open (cstring file)) ;;
  result <~ process_add_file f ;;
  lock_release ;~
  retY result.

Definition filesize (fd : Z) : SY Z :=
  f <~ process_get_file fd ;;
  match f with None => retY (-1) | Some f => onFiles (fsys_length f) end.

Definition put_step : list Z * Z * M → (list Z * Z * M) + res M := λ '(l, a, m),
  match l with
  | [] => inr (Ok m)
  | c :: l =>
      match put_user a c m with Ok m => inl (l, u32 (a + 1), m) | Fault e => inr (Fault e) | Timeout => inr Timeout end
  end.

Definition copy_out (a : Z) (l : list Z) (m : M) : res (unit * M) :=
  match iterateZ (Z.of_nat (length l)) put_step (l, a, m) with
  | inl (_, _, m) => Ok (tt, m)
  | inr r => m ← r; Ok (tt, m)
  end.

(** A key of the keyboard for each byte of the buffer. *)
Definition key_step : Z * st → (Z * st) + res (outcome unit * st) := λ '(a, s),
  match keys s with
  | [] => inr (Ok (Waits, s))
  | c :: l =>
      match put_user a c (umem s) with
      | Ok m => inl (u32 (a + 1), set_keys (set_umem s m) l)
      | Fault e => inr (Fault e)
      | Timeout => inr Timeout
      end
  end.

Definition read_keys (buffer size : Z) : SY unit := λ s,
  match iterateZ size key_step (buffer, s) with inl (_, s) => Ok (Return tt, s) | inr r => r end.

Definition read (fd buffer size : Z) : SY Z :=
  lock_acquire ;~
  if fd =? 0 then read_keys buffer size ;~ lock_release ;~ retY (s32 size)
  else
    f <~ process_get_file fd ;;
    match f with
    | None => lock_release ;~ retY (-1)
    | Some f =>
        ' (n, data, f) <~ onFiles (fsys_read f (replicate (Z.to_nat (s32 size)) 0) (s32 size)) ;;
        onUser (copy_out buffer (take (Z.to_nat n) data)) ;~
        set_file fd f ;~
        lock_release ;~
        retY (s32 (u32 n))
    end.

Definition putbuf (buffer : list Z) (n : Z) : SY unit := λ s,
  if n <=? Z.of_nat (length buffer) then Ok (Return tt, set_console s (console s ++ take (Z.to_nat n) buffer))
  else Fault BadAccess.

Definition write (fd : Z) (buffer : list Z) (size : Z) : SY Z :=
  lock_acquire ;~
  if fd =? 1 then putbuf buffer size ;~ lock_release ;~ retY (s32 size)
  else
    f <~ process_get_file fd ;;
    match f with
    | None => lock_release ;~ retY 0
    | Some f =>
        ' (n, f) <~ onFiles (fsys_write f buffer (s32 size)) ;;
        set_file fd f ;~
        lock_release ;~
        retY (s32 (u32 n))
    end.

Definition seek (fd position : Z) : SY unit :=
  f <~ process_get_file fd ;;
  match f with
  | None => retY tt
  | Some f => f <~ onFiles (fsys_seek f (s32 position)) ;; set_file fd f
  end.

Definition tell (fd : Z) : SY Z :=
  f <~ process_get_file fd ;;
  match f with None => exit (-1) | Some f => retY (u32 (fpos f)) end.

Definition close (fd : Z) : SY unit := process_close_file fd.

(** ** The handler *)

Definition get_words (esp count : Z) : SY (list karg) := l <~ get_arguments esp count ;; retY (Word <$> l).

(** The arguments as the calls take them: a word, or the block that a pointer has become. *)
Definition word (args : list karg) (i : nat) : SY Z :=
  match args !! i with Some (Word v) => retY v | _ => λ _, Fault BadAccess end.
Definition block (args : list karg) (i : nat) : SY (list Z) :=
  match args !! i with Some (Str _ l) => retY l | _ => λ _, Fault BadAccess end.

(** A call whose first argument is a string, in a copy that is freed after it. *)
Definition with_string {A} (esp count : Z) (k : list karg → list Z → SY A) (ret : A → answer) : SY answer :=
  args <~ get_words esp count ;;
  args <~ get_user_strings args 8 ;;
  file <~ block args 0 ;;
  r <~ k args file ;;
  free_user_strings args 8 ;~
  retY (ret r).

Definition eax (v : Z) : answer := Eax (u32 v).

Definition sys_write (esp : Z) : SY answer :=
  args <~ get_words esp 3 ;;
  fd <~ word args 0 ;;
  buffer <~ word args 1 ;;
  size <~ word args 2 ;;
  check_user_string_l (u32 buffer) (u32 size) ;~
  ' (p, data) <~ get_user_string_l (u32 buffer) (u32 size) ;;
  n <~ write fd data (u32 size) ;;
  free p ;~
  retY (eax n).

Definition sys_read (esp : Z) : SY answer :=
  args <~ get_words esp 3 ;;
  fd <~ word args 0 ;;
  buffer <~ word args 1 ;;
  size <~ word args 2 ;;
  check_user_string_l (u32 buffer) (u32 size) ;~
  n <~ read fd (u32 buffer) (u32 size) ;;
  retY (eax n).

(** A call with one word. *)
Definition with_word {A} (esp : Z) (k : Z → SY A) (ret : A → answer) : SY answer :=
  args <~ get_words esp 1 ;; v <~ word args 0 ;; r <~ k v ;; retY (ret r).

(** The call of [exec], up to the start of the new process and after it. *)
Definition sys_exec (esp : Z) : SY answer :=
  args <~ get_words esp 1 ;;
  args <~ get_user_strings args 8 ;;
  file <~ block args 0 ;;
  retY (Execs (cstring file) args).

Definition sys_exec_end (args : list karg) (tid : Z) : SY answer :=
  free_user_strings args 8 ;~ retY (eax tid).

(** The switch of the handler. *)
Definition dispatch (esp n : Z) : SY answer :=
  match n with
  | 0 => halt
  | 1 => with_word esp (exit (A := unit)) (λ _, NoEax)
  | 2 => sys_exec esp
  | 3 => with_word esp retY WaitsFor
  | 4 => with_string esp 2 (λ args file, size <~ word args 1 ;; create file (u32 size)) eax
  | 5 => with_string esp 1 (λ _, remove) eax
  | 6 => with_string esp 1 (λ _, open) eax
  | 7 => with_word esp filesize eax
  | 8 => sys_read esp
  | 9 => sys_write esp
  | 10 =>
      args <~ get_words esp 2 ;;
      fd <~ word args 0 ;;
      position <~ word args 1 ;;
      seek fd (u32 position) ;~
      retY NoEax
  | 11 => with_word esp tell eax
  | 12 => with_word esp close (λ _, NoEax)
  | _ => exit (-1)
  end.

Definition syscall_handler (esp : Z) : SY answer :=
  check_address4 esp ;~
  n <~ onUser (get_user32 esp) ;;
  dispatch esp (s32 n).

End code.
