(* ===== verification/SyscallSpec.v ===== *)
(** What the system calls do (src/userprog/syscall.c).

    A process asks for something with the words on its stack and with the strings and buffers
    that they point to ([asks]). The theorems say what it gets ([serves]), in terms of the
    world of the file system, and that a pointer outside the memory of user processes ends the
    process and changes nothing else. *)

From Stdlib Require Import Ascii String.
From S2P Require Import Prelude Vaddr Palloc Pages Malloc Disk Inode Filesys Files Volume FileCalls Mount UserMem KernelHeap Stdio Format Syscall.

(** ** Loops *)

Fixpoint iter {A B : Type} (n : nat) (f : A → A + B) (a : A) : A + B :=
  match n with
  | O => inl a
  | S n => match f a with inl a => iter n f a | inr b => inr b end
  end.

Lemma iter_add {A B} n m (f : A → A + B) a :
  iter (n + m) f a = match iter n f a with inl a => iter m f a | inr b => inr b end.
Proof. revert a. induction n as [|n IH]; intros a; [done|]. simpl. destruct (f a); [apply IH|done]. Qed.

Lemma iterate_iter {A B} p (f : A → A + B) a : iterate p f a = iter (Pos.to_nat p) f a.
Proof.
  revert a. induction p as [p IH|p IH|]; intros a; cbn [iterate].
  - rewrite Pos2Nat.inj_xI. cbn [iter]. destruct (f a) as [a1|b]; [|done]. replace (2 * Pos.to_nat p)%nat with (Pos.to_nat p + Pos.to_nat p)%nat by lia.
    rewrite iter_add, IH. destruct (iter _ f a1); [apply IH|done].
  - rewrite Pos2Nat.inj_xO. replace (2 * Pos.to_nat p)%nat with (Pos.to_nat p + Pos.to_nat p)%nat by lia.
    rewrite iter_add, IH. destruct (iter _ f a); [apply IH|done].
  - change (Pos.to_nat 1) with 1%nat. cbn [iter]. by destruct (f a).
Qed.

Lemma iterateZ_iter {A B} n (f : A → A + B) a : iterateZ n f a = iter (Z.to_nat n) f a.
Proof. destruct n; [done|apply iterate_iter|done]. Qed.

(** A loop that ends after [n] steps. *)
Lemma iter_ends {A B} n m (f : A → A + B) a a' b : iter n f a = inl a' → f a' = inr b → (n < m)%nat → iter m f a = inr b.
Proof. intros Hn Hf Hm. replace m with (n + S (m - n - 1))%nat by lia. rewrite iter_add, Hn. cbn [iter]. by rewrite Hf. Qed.

Lemma iterate_ends {A B} n p (f : A → A + B) a a' b :
  iter n f a = inl a' → f a' = inr b → Z.of_nat n < Zpos p → iterate p f a = inr b.
Proof. intros Hn Hf Hp. rewrite iterate_iter. eapply iter_ends; [done..|]. rewrite <-(positive_nat_Z p) in Hp. lia. Qed.

(** ** The message of a process that ends *)

(** The text that the code prints; the tests (src/tests/userprog) expect the name and
    [exit(status)] instead. *)
Definition exit_text (name : list Z) (status : Z) (text : list Z) : Prop :=
  ∃ digits, text = bytes "process " ++ name ++ bytes ": exited with " ++ digits ++ [10] ∧ atoi digits = status.

Lemma vprintf_s fuel f args name out :
  Z.of_nat (length name) < 4294967295 →
  vprintf_loop putchar (S fuel) (ch "%" :: ch "s" :: f) (AStr (Some name) :: args) out = vprintf_loop putchar fuel f args (out ++ name).
Proof.
  intros Hn. cbn [vprintf_loop]. change (negb (ch "%" =? ch "%")) with false. change (cur (ch "s" :: f) =? ch "%") with false. cbn iota.
  change (parse_conversion (ch "s" :: f) _) with (Ok (Conv 0 0 (-1) INT, ch "s" :: f, AStr (Some name) :: args)). mstep.
  change (cur (ch "s" :: f)) with (ch "s"). unfold convert. change ((ch "s" =? ch "d") || _) with false. change ((ch "s" =? ch "o") || _ || _ || _) with false.
  change (ch "s" =? ch "c") with false. change (ch "s" =? ch "s") with true. cbn iota. cbn [va_str]. mstep. rewrite format_string_text, output_all_putchar. mstep.
  cbn [advance]. mstep. do 2 f_equal. unfold str_text. cbn [precision width flags]. change (u32 (-1)) with 4294967295. rewrite Z.min_l by lia.
  rewrite (proj2 (Z.ltb_ge _ _)) by lia. change (flag 0 MINUS) with false. cbn iota. by rewrite app_nil_r, Nat2Z.id, firstn_all.
Qed.

Lemma vprintf_d fuel f args v out :
  is_s32 v → ∃ d, vprintf_loop putchar (S fuel) (ch "%" :: ch "d" :: f) (AInt (u32 v) :: args) out = vprintf_loop putchar fuel f args (out ++ d) ∧ atoi d = v.
Proof.
  intros Hv. destruct (decimal_text v (Conv 0 0 (-1) INT) Hv) as (d & Ed & Hd); [done|]. exists d. split; [|done].
  cbn [vprintf_loop]. change (negb (ch "%" =? ch "%")) with false. change (cur (ch "d" :: f) =? ch "%") with false. cbn iota.
  change (parse_conversion (ch "d" :: f) _) with (Ok (Conv 0 0 (-1) INT, ch "d" :: f, AInt (u32 v) :: args)). mstep.
  change (cur (ch "d" :: f)) with (ch "d"). unfold convert. change ((ch "d" =? ch "d") || _) with true. cbn iota. cbn [type signed_value va_int]. mstep.
  rewrite s32_u32 by done. rewrite format_integer_text, Ed. mstep. rewrite output_all_putchar. mstep. cbn [advance]. by mstep.
Qed.

Definition name_fits (name : list Z) : Prop := Z.of_nat (length name) < 4294967295.

Lemma exit_message name status out :
  is_s32 status → name_fits name →
  ∃ text, printf (bytes "process %s: exited with %d" ++ [10]) [AStr (Some name); AInt (u32 status)] out = Ok (out ++ text) ∧ exit_text name status text.
Proof.
  intros Hs Hn. unfold printf, __vprintf. change (vprintf_fuel _) with (length (bytes "process ") + S (length (bytes ": exited with ") + S (1 + S 31)))%nat.
  change (bytes "process %s: exited with %d" ++ [10]) with (bytes "process " ++ ch "%" :: ch "s" :: bytes ": exited with " ++ ch "%" :: ch "d" :: [10]).
  rewrite vprintf_plain by (by apply (bool_decide_unpack _); vm_compute). rewrite output_all_putchar. mstep. rewrite vprintf_s by done.
  rewrite vprintf_plain by (by apply (bool_decide_unpack _); vm_compute). rewrite output_all_putchar. mstep.
  destruct (vprintf_d (1 + S 31) [10] [] status (((out ++ bytes "process ") ++ name) ++ bytes ": exited with ") Hs) as (d & -> & Hd).
  rewrite vprintf_text by (apply (bool_decide_unpack _); by vm_compute || simpl; lia). rewrite output_all_putchar.
  eexists. rewrite <-!app_assoc. split; [done|]. by exists d.
Qed.

(** ** What a process asks for *)

(** The addresses that a pointer may have. *)
Definition in_range (a n : Z) : Prop := 134512640 ≤ a ∧ a + n ≤ PHYS_BASE.

Lemma user_address_iff a : user_address a = true ↔ 134512640 ≤ a < PHYS_BASE.
Proof. unfold user_address, is_user_vaddr. lia. Qed.

Lemma u32_s32 x : is_u32 x → u32 (s32 x) = x.
Proof.
  unfold u32, s32, is_u32. intros Hx. rewrite Zminus_mod, Zmod_mod, <-Zminus_mod. rewrite <-(Z.mod_small x WORD) at 2 by done. f_equal. lia.
Qed.

Lemma range_u32 a n : in_range a n → 0 < n → is_u32 a.
Proof. unfold in_range, is_u32, PHYS_BASE. lia. Qed.

(** ** Requests *)

Inductive request :=
  | RHalt
  | RExit (status : Z)
  | RExec (cmd_line : list Z)
  | RWait (tid : Z)
  | RCreate (name : list Z) (size : Z)
  | RRemove (name : list Z)
  | ROpen (name : list Z)
  | RFilesize (fd : Z)
  | RRead (fd buffer size : Z)
  | RWrite (fd : Z) (data : list Z)
  | RSeek (fd position : Z)
  | RTell (fd : Z)
  | RClose (fd : Z).

(** What a process has: its files and descriptors, what it has printed, the keys to come. *)
Record proc := Proc { pfiles : world; pnext : Z; poutput : list Z; pinput : list Z }.

Definition set_world (p : proc) (w : world) : proc := Proc w (pnext p) (poutput p) (pinput p).

Definition dies (name : list Z) (p : proc) (status : Z) (o : outcome answer) (p' : proc) : Prop :=
  ∃ text, exit_text name status text ∧ o = Exits status ∧ p' = Proc (pfiles p) (pnext p) (poutput p ++ text) (pinput p).

(** How a request is answered; [l] is what goes to the buffer of the process. *)
Definition serves (name : list Z) (p : proc) (r : request) (o : outcome answer) (l : list Z) (p' : proc) : Prop :=
  match r with
  | RHalt => o = PowersOff ∧ l = [] ∧ p' = p
  | RExit status => dies name p status o p' ∧ l = []
  | RExec cmd_line => (∃ q, o = Return (Execs cmd_line [Str q (cmd_line ++ [0])])) ∧ l = [] ∧ p' = p
  | RWait tid => o = Return (WaitsFor tid) ∧ l = [] ∧ p' = p
  | RCreate file size =>
      ∃ b w, spec (pfiles p) (Create file size) (Answer b) w ∧ o = Return (Eax (Z.b2z b)) ∧ l = [] ∧ p' = set_world p w
  | RRemove file => ∃ b w, spec (pfiles p) (Remove file) (Answer b) w ∧ o = Return (Eax (Z.b2z b)) ∧ l = [] ∧ p' = set_world p w
  | ROpen file =>
      ∃ b w, spec (pfiles p) (Open (pnext p) file) (Answer b) w ∧ l = [] ∧
        if b : bool then o = Return (Eax (pnext p)) ∧ p' = Proc w (pnext p + 1) (poutput p) (pinput p)
        else o = Return (Eax 4294967295) ∧ p' = set_world p w
  | RFilesize fd =>
      ∃ a w, spec (pfiles p) (Length fd) a w ∧ o = Return (Eax (match a with Number n => n | _ => 4294967295 end)) ∧ l = [] ∧ p' = set_world p w
  | RRead fd _ size =>
      if fd =? 0 then
        l = take (Z.to_nat size) (pinput p) ∧ o = Return (Eax size) ∧ p' = Proc (pfiles p) (pnext p) (poutput p) (drop (Z.to_nat size) (pinput p))
      else
        ∃ a w, spec (pfiles p) (Read fd (s32 size)) a w ∧ p' = set_world p w ∧
          match a with Bytes b => l = b ∧ o = Return (Eax (Z.of_nat (length b))) | _ => l = [] ∧ o = Return (Eax 4294967295) end
  | RWrite fd data =>
      if fd =? 1 then l = [] ∧ o = Return (Eax (Z.of_nat (length data))) ∧ p' = Proc (pfiles p) (pnext p) (poutput p ++ data) (pinput p)
      else ∃ a w, spec (pfiles p) (Write fd data) a w ∧ o = Return (Eax (match a with Number n => n | _ => 0 end)) ∧ l = [] ∧ p' = set_world p w
  | RSeek fd position => ∃ a w, spec (pfiles p) (Seek fd position) a w ∧ o = Return NoEax ∧ l = [] ∧ p' = set_world p w
  | RTell fd =>
      l = [] ∧
      match file_of (pfiles p) fd with
      | Some (_, pos, _) => o = Return (Eax pos) ∧ p' = p
      | None => dies name p (-1) o p'
      end
  | RClose fd => ∃ a w, spec (pfiles p) (Close fd) a w ∧ o = Return NoEax ∧ l = [] ∧ p' = set_world p w
  end.

(** The kernel keeps no block, but for the arguments of [exec] until it is done. *)
Definition blocks_after (o : outcome answer) (live live' : gmap Z Z) : Prop :=
  match o with
  | Return (Execs _ [Str q l]) => live !! q = None ∧ live' = <[q := Z.of_nat (length l)]> live
  | _ => live' = live
  end.

Section proof.
Context {M F K : Type} `{!UserMem M} `{!UserInv M} `{!UserLaws M} `{!HeapOps K} `{!HeapInv K} `{!HeapLaws K}.
Local Abbreviation st := (sys M F K).
Implicit Types (s : st) (m : M).

(** Words on the stack of the process. *)
Definition words m (a : Z) (l : list Z) : Prop :=
  ∀ i v, l !! i = Some v → is_u32 v ∧ user_word m (a + 4 * Z.of_nat i) v ∧ in_range (a + 4 * Z.of_nat i) 4.

Definition string_at m (a : Z) (l : list Z) : Prop :=
  user_bytes m a (l ++ [0]) ∧ 0 ∉ l ∧ in_range a (Z.of_nat (length l) + 1).

Lemma words_cons m a v l : words m a (v :: l) ↔ (is_u32 v ∧ user_word m a v ∧ in_range a 4) ∧ words m (a + 4) l.
Proof.
  unfold words. split.
  - intros H. split; [specialize (H 0%nat v eq_refl); by rewrite Z.mul_0_r, Z.add_0_r in H|]. intros i x Hi. specialize (H (S i) x Hi).
    by replace (a + 4 + 4 * Z.of_nat i) with (a + 4 * Z.of_nat (S i)) by lia.
  - intros [H0 H] [|i] x Hi; [injection Hi as <-; by rewrite Z.mul_0_r, Z.add_0_r|]. specialize (H i x Hi).
    by replace (a + 4 * Z.of_nat (S i)) with (a + 4 + 4 * Z.of_nat i) by lia.
Qed.

(** ** Accesses *)

Lemma same_bytes m m' a l : same_user m m' → user_bytes m a l → user_bytes m' a l.
Proof. intros [_ B _] H i v Hi. rewrite B. by apply H. Qed.

Lemma same_words m m' a l : same_user m m' → words m a l → words m' a l.
Proof. intros Hs H i v Hi. destruct (H i v Hi) as (? & ? & ?). split_and!; try done. by eapply same_bytes. Qed.

Lemma same_room m m' a n : same_user m m' → user_room m a n → user_room m' a n.
Proof. intros [_ _ W] H b Hb. rewrite W. by apply H. Qed.

Lemma get_user32_ok m a v : user_ok m → user_word m a v → is_u32 v → ∃ m', get_user32 a m = Ok (v, m') ∧ same_user m m'.
Proof using UserLaws0.
  intros Hok Hw Hv. unfold get_user32, user_word in *.
  assert (∀ i c m1, same_user m m1 → le32 v !! i = Some c → ∃ m2, get_user (a + Z.of_nat i) m1 = Ok (c, m2) ∧ same_user m m2) as Hget.
  { intros i c m1 Hs Hc. destruct (get_user_ok (a + Z.of_nat i) c m1) as (m2 & E & Hs2); [apply Hs|by rewrite (su_byte _ _ Hs); apply Hw|].
    exists m2. split; [done|]. by eapply same_user_trans. }
  destruct (Hget 0%nat _ m (same_user_refl m Hok) eq_refl) as (m1 & E1 & H1). change (Z.of_nat 0) with 0 in E1. rewrite Z.add_0_r in E1. rewrite E1. mstep.
  destruct (Hget 1%nat _ m1 H1 eq_refl) as (m2 & E2 & H2). change (Z.of_nat 1) with 1 in E2. rewrite E2. mstep.
  destruct (Hget 2%nat _ m2 H2 eq_refl) as (m3 & E3 & H3). change (Z.of_nat 2) with 2 in E3. rewrite E3. mstep.
  destruct (Hget 3%nat _ m3 H3 eq_refl) as (m4 & E4 & H4). change (Z.of_nat 3) with 3 in E4. rewrite E4. mstep.
  exists m4. split; [|done]. do 2 f_equal. by apply of_le32_le32.
Qed.

(** ** The monad *)

Lemma bindY_Return {A B} (c : SY A) (k : A → SY B) s a s1 : c s = Ok (Return a, s1) → bindY c k s = k a s1.
Proof. intros E. unfold bindY. by rewrite E. Qed.

Lemma bindY_Exits {A B} (c : SY A) (k : A → SY B) s n s1 : c s = Ok (Exits n, s1) → bindY c k s = Ok (Exits n, s1).
Proof. intros E. unfold bindY. by rewrite E. Qed.

Lemma onUser_ok {A} (c : M → res (A * M)) s a m' : c (umem s) = Ok (a, m') → onUser c s = Ok (Return a, set_umem s m').
Proof. intros E. unfold onUser. by rewrite E. Qed.

Lemma onFiles_ok {A} (c : ST F A) s a f' : c (sfiles s) = Ok (a, f') → onFiles c s = Ok (Return a, set_files s f').
Proof. intros E. unfold onFiles. by rewrite E. Qed.

Lemma set_umem_id s : set_umem s (umem s) = s.
Proof. by destruct s. Qed.

(** ** Strings *)

Lemma user_bytes_cons m a c l : user_bytes m a (c :: l) ↔ user_byte m a = Some c ∧ user_bytes m (a + 1) l.
Proof.
  unfold user_bytes. split.
  - intros H. split; [specialize (H 0%nat c eq_refl); by rewrite Z.add_0_r in H|]. intros i x Hi. specialize (H (S i) x Hi).
    by replace (a + 1 + Z.of_nat i) with (a + Z.of_nat (S i)) by lia.
  - intros [H0 H] [|i] x Hi; [injection Hi as <-; by rewrite Z.add_0_r|]. specialize (H i x Hi).
    by replace (a + Z.of_nat (S i)) with (a + 1 + Z.of_nat i) by lia.
Qed.

(** The characters before the end of a string. *)
Lemma scan_run checked l a n m :
  user_ok m → user_bytes m a l → 0 ∉ l → in_range a (Z.of_nat (length l)) →
  ∃ m', iter (length l) (scan_step checked) (a, n, m) = inl (a + Z.of_nat (length l), n + Z.of_nat (length l), m') ∧ same_user m m'.
Proof using UserLaws0.
  revert a n m. induction l as [|c l IH]; intros a n m Hok Hb H0 Hr.
  { exists m. simpl. rewrite !Z.add_0_r. split; [done|by apply same_user_refl]. }
  apply user_bytes_cons in Hb as [Hc Hb]. apply not_elem_of_cons in H0 as [Hc0 H0]. cbn [length] in *. destruct Hr as [Hr1 Hr2].
  cbn [iter]. unfold scan_step at 1. rewrite (proj2 (user_address_iff a)) by lia. rewrite andb_false_r. destruct (get_user_ok a c m Hok Hc) as (m1 & E & H1). rewrite E.
  rewrite (proj2 (Z.eqb_neq c 0)) by done. rewrite u32_small by (unfold is_u32, PHYS_BASE in *; lia).
  destruct (IH (a + 1) (n + 1) m1) as (m2 & E2 & H2); [apply H1|by eapply same_bytes|done|split; lia|]. exists m2. rewrite E2. split; [|by eapply same_user_trans]. do 3 f_equal; lia.
Qed.

Lemma user_bytes_app m a l1 l2 : user_bytes m a (l1 ++ l2) ↔ user_bytes m a l1 ∧ user_bytes m (a + Z.of_nat (length l1)) l2.
Proof.
  revert a. induction l1 as [|c l1 IH]; intros a; cbn [app length].
  - rewrite Z.add_0_r. split; [intros H; split; [|done]; intros i v; by destruct i|tauto].
  - rewrite !user_bytes_cons, IH. replace (a + 1 + Z.of_nat (length l1)) with (a + Z.of_nat (S (length l1))) by lia. tauto.
Qed.

Lemma scan_ok checked a l m : user_ok m → string_at m a l → ∃ m', scan checked a m = Ok (Some (Z.of_nat (length l)), m') ∧ same_user m m'.
Proof using UserLaws0.
  intros Hok (Hb & H0 & Hr1 & Hr2). apply user_bytes_app in Hb as [Hb Hz]. apply user_bytes_cons in Hz as [Hz _].
  destruct (scan_run checked l a 0 m Hok Hb H0) as (m1 & E & H1); [split; lia|].
  destruct (get_user_ok (a + Z.of_nat (length l)) 0 m1) as (m2 & E2 & H2); [apply H1|by rewrite (su_byte _ _ H1)|].
  exists m2. split; [|by eapply same_user_trans]. unfold scan. rewrite (iterate_ends _ _ _ _ _ (Ok (Some (Z.of_nat (length l)), m2)) E); [done| |unfold PHYS_BASE in *; lia].
  unfold scan_step. rewrite (proj2 (user_address_iff _)) by lia. by rewrite andb_false_r, E2.
Qed.

(** A string that leaves the memory of the process. *)
Lemma scan_bad a l m :
  user_ok m → user_bytes m a l → 0 ∉ l → in_range a (Z.of_nat (length l)) ∨ l = [] → user_address (a + Z.of_nat (length l)) = false →
  ∃ m', scan true a m = Ok (None, m') ∧ same_user m m'.
Proof using UserLaws0.
  intros Hok Hb H0 Hr Hbad. assert (∃ m', iter (length l) (scan_step true) (a, 0, m) = inl (a + Z.of_nat (length l), Z.of_nat (length l), m') ∧ same_user m m' ∧ Z.of_nat (length l) < 4294967296) as (m1 & E & H1 & Hl).
  { destruct Hr as [Hr| ->]; [|exists m; simpl; rewrite Z.add_0_r; split_and!; [done|by apply same_user_refl|lia]].
    destruct (scan_run true l a 0 m Hok Hb H0 Hr) as (m1 & E & H1). exists m1. split_and!; [done|done|unfold in_range, PHYS_BASE in *; lia]. }
  exists m1. split; [|done]. unfold scan. rewrite (iterate_ends _ _ _ _ _ (Ok (None, m1)) E); [done| |done]. unfold scan_step. by rewrite Hbad.
Qed.

Lemma copy_run l a acc m :
  user_ok m → user_bytes m a l → in_range a (Z.of_nat (length l)) →
  ∃ m', iter (length l) copy_step (a, acc, m) = inl (a + Z.of_nat (length l), rev l ++ acc, m') ∧ same_user m m'.
Proof using UserLaws0.
  revert a acc m. induction l as [|c l IH]; intros a acc m Hok Hb Hr.
  { exists m. simpl. rewrite Z.add_0_r. split; [done|by apply same_user_refl]. }
  apply user_bytes_cons in Hb as [Hc Hb]. cbn [length] in *. destruct Hr as [Hr1 Hr2].
  cbn [iter]. unfold copy_step at 1. destruct (get_user_ok a c m Hok Hc) as (m1 & E & H1). rewrite E. rewrite u32_small by (unfold is_u32, PHYS_BASE in *; lia).
  destruct (IH (a + 1) (c :: acc) m1) as (m2 & E2 & H2); [apply H1|by eapply same_bytes|split; lia|]. exists m2. rewrite E2. split; [|by eapply same_user_trans].
  cbn [rev]. rewrite <-app_assoc. do 3 f_equal. lia.
Qed.

Lemma copy_in_ok l a m :
  user_ok m → user_bytes m a l → in_range a (Z.of_nat (length l)) ∨ l = [] →
  ∃ m', copy_in a (Z.of_nat (length l)) m = Ok (l, m') ∧ same_user m m'.
Proof using UserLaws0.
  intros Hok Hb [Hr| ->]; [|exists m; split; [done|by apply same_user_refl]]. unfold copy_in. rewrite iterateZ_iter, Nat2Z.id.
  destruct (copy_run l a [] m Hok Hb Hr) as (m' & -> & Hs). exists m'. by rewrite app_nil_r, rev_involutive.
Qed.

(** ** Checks *)

Context (tname : list Z) (Hname : name_fits tname).

(** The process has been ended; only the console has changed. *)
Definition ended s (status : Z) s' : Prop :=
  ∃ m' h' text, same_user (umem s) m' ∧ (∀ live, heap_holds (kheap s) live → heap_holds h' live) ∧ exit_text tname status text ∧
    s' = set_console (set_heap (set_umem s m') h') (console s ++ text).

Lemma exit_call_ok {A} status s : user_ok (umem s) → is_s32 status → ∃ s', exit (A := A) tname status s = Ok (Exits status, s') ∧ ended s status s'.
Proof using Hname.
  intros Hok Hs. unfold exit. destruct (exit_message tname status (console s) Hs Hname) as (text & -> & Ht). mstep. eexists. split; [done|].
  exists (umem s), (kheap s), text. split_and!; [by apply same_user_refl|done|done|]. by destruct s.
Qed.

Lemma ended_after s m1 status s' : same_user (umem s) m1 → ended (set_umem s m1) status s' → ended s status s'.
Proof. intros H1 (m' & h' & text & H2 & Hh & Ht & ->). exists m', h', text. split_and!; [by eapply same_user_trans|done|done|done]. Qed.

Lemma check_address4_ok s a : in_range a 4 → check_address4 tname a s = Ok (Return tt, s).
Proof.
  intros [H1 H2]. unfold check_address4, check_address. rewrite u32_small by (unfold is_u32, PHYS_BASE in *; lia).
  rewrite !(proj2 (user_address_iff _)) by lia. done.
Qed.

Lemma check_address4_bad s a :
  user_ok (umem s) → is_u32 a → ¬ in_range a 4 → ∃ s', check_address4 tname a s = Ok (Exits (-1), s') ∧ ended s (-1) s'.
Proof using Hname.
  intros Hok Ha Hr. destruct (exit_call_ok (A := unit) (-1) s Hok) as (s' & E & He); [done|]. exists s'. split; [|done]. unfold check_address4, check_address.
  destruct (user_address a) eqn:H1; [|by apply bindY_Exits]. cbn [bindY retY]. rewrite (bindY_Return (retY tt) _ s tt s eq_refl). apply user_address_iff in H1.
  unfold in_range, is_u32 in *. rewrite u32_small by (unfold is_u32, PHYS_BASE in *; lia).
  destruct (user_address (a + 3)) eqn:H2; [apply user_address_iff in H2; lia|done].
Qed.

Lemma get_args_ok vs esp s :
  user_ok (umem s) → words (umem s) (esp + 4) vs →
  ∃ m', get_args tname (length vs) esp s = Ok (Return (s32 <$> vs), set_umem s m') ∧ same_user (umem s) m'.
Proof using UserLaws0.
  revert esp s. induction vs as [|v vs IH]; intros esp s Hok Hw.
  { exists (umem s). rewrite set_umem_id. split; [done|by apply same_user_refl]. }
  apply words_cons in Hw as [(Hv & Hvw & Hr) Hw]. cbn [length get_args fmap list_fmap]. rewrite u32_small by by eapply (range_u32 _ 4).
  rewrite (bindY_Return _ _ _ _ _ (check_address4_ok s _ Hr)). destruct (get_user32_ok _ _ _ Hok Hvw Hv) as (m1 & E1 & H1).
  rewrite (bindY_Return _ _ _ _ _ (onUser_ok _ s _ _ E1)). destruct (IH (esp + 4) (set_umem s m1)) as (m2 & E2 & H2); [apply H1|by eapply same_words|].
  rewrite (bindY_Return _ _ _ _ _ E2). exists m2. split; [done|]. by eapply same_user_trans.
Qed.

Lemma get_args_bad vs n esp s :
  user_ok (umem s) → words (umem s) (esp + 4) vs → (length vs < n)%nat →
  ¬ in_range (u32 (esp + 4 * (Z.of_nat (length vs) + 1))) 4 →
  ∃ s', get_args tname n esp s = Ok (Exits (-1), s') ∧ ended s (-1) s'.
Proof using UserLaws0 Hname.
  revert n esp s. induction vs as [|v vs IH]; intros [|n] esp s Hok Hw Hn Hr; cbn [length] in *; try lia; cbn [get_args].
  - replace (esp + 4 * (Z.of_nat 0 + 1)) with (esp + 4) in Hr by lia.
    destruct (check_address4_bad s _ Hok (u32_range _) Hr) as (s' & E & He). exists s'. by rewrite (bindY_Exits _ _ _ _ _ E).
  - apply words_cons in Hw as [(Hv & Hvw & Hr0) Hw]. rewrite (u32_small (esp + 4)) by by eapply (range_u32 _ 4).
    rewrite (bindY_Return _ _ _ _ _ (check_address4_ok s _ Hr0)). destruct (get_user32_ok _ _ _ Hok Hvw Hv) as (m1 & E1 & H1).
    rewrite (bindY_Return _ _ _ _ _ (onUser_ok _ s _ _ E1)).
    destruct (IH n (esp + 4) (set_umem s m1)) as (s' & E2 & H2); [apply H1|by eapply same_words|lia| |].
    { by replace (esp + 4 + 4 * (Z.of_nat (length vs) + 1)) with (esp + 4 * (Z.of_nat (S (length vs)) + 1)) by lia. }
    rewrite (bindY_Exits _ _ _ _ _ E2). exists s'. split; [done|]. by eapply ended_after.
Qed.

Lemma get_words_ok vs esp s :
  user_ok (umem s) → words (umem s) (esp + 4) vs → (1 ≤ length vs ≤ 4)%nat →
  ∃ m', get_words tname esp (Z.of_nat (length vs)) s = Ok (Return ((λ v, Word (s32 v)) <$> vs), set_umem s m') ∧ same_user (umem s) m'.
Proof using UserLaws0.
  intros Hok Hw Hl. destruct (get_args_ok vs esp s Hok Hw) as (m' & E & Hs). exists m'. split; [|done]. unfold get_words, get_arguments.
  assert ((1 <=? Z.of_nat (length vs)) && (Z.of_nat (length vs) <=? 4) = true) as -> by lia.
  erewrite bindY_Return; [|erewrite bindY_Return by done; rewrite Nat2Z.id; exact E]. unfold retY. by rewrite <-list_fmap_compose.
Qed.

Lemma get_words_bad vs n esp s :
  user_ok (umem s) → words (umem s) (esp + 4) vs → Z.of_nat (length vs) < n ≤ 4 →
  ¬ in_range (u32 (esp + 4 * (Z.of_nat (length vs) + 1))) 4 →
  ∃ s', get_words tname esp n s = Ok (Exits (-1), s') ∧ ended s (-1) s'.
Proof using UserLaws0 Hname.
  intros Hok Hw Hn Hr. destruct (get_args_bad vs (Z.to_nat n) esp s Hok Hw ltac:(lia) Hr) as (s' & E & He). exists s'. split; [|done].
  unfold get_words, get_arguments. assert ((1 <=? n) && (n <=? 4) = true) as -> by lia.
  apply bindY_Exits. by erewrite bindY_Return by done.
Qed.

(** The buffer is outside the memory of the process. *)
Lemma check_buffer_run n a : in_range a (Z.of_nat n) → iter n (λ a, if user_address a then inl (u32 (a + 1)) else inr tt) a = inl (a + Z.of_nat n).
Proof.
  revert a. induction n as [|n IH]; intros a Hr; [by rewrite Z.add_0_r|]. destruct Hr as [H1 H2]. cbn [iter].
  rewrite (proj2 (user_address_iff a)) by lia. rewrite u32_small by (unfold is_u32, PHYS_BASE in *; lia). rewrite IH by (split; lia). f_equal. lia.
Qed.

Lemma check_buffer_ok s a n : 0 ≤ n → in_range a n ∨ n = 0 → check_user_string_l tname a n s = Ok (Return tt, s).
Proof.
  intros Hn Hr. unfold check_user_string_l. rewrite iterateZ_iter. destruct Hr as [Hr| ->]; [|done].
  by rewrite check_buffer_run by (rewrite Z2Nat.id by lia; done).
Qed.

Lemma check_buffer_bad s a n :
  user_ok (umem s) → is_u32 a → 0 < n → ¬ in_range a n → ∃ s', check_user_string_l tname a n s = Ok (Exits (-1), s') ∧ ended s (-1) s'.
Proof using Hname.
  intros Hok Ha Hn Hr. destruct (exit_call_ok (A := unit) (-1) s Hok) as (s' & E & He); [done|]. exists s'. split; [|done]. unfold check_user_string_l. rewrite iterateZ_iter.
  destruct (decide (in_range a 0 ∧ 134512640 ≤ a < PHYS_BASE)) as [[_ H1]|H1].
  - unfold in_range in Hr. rewrite (iter_ends (Z.to_nat (PHYS_BASE - a)) (Z.to_nat n) _ a PHYS_BASE tt); [done| | |lia].
    + rewrite check_buffer_run by (unfold in_range; lia). f_equal. lia.
    + done.
  - rewrite (iter_ends 0 (Z.to_nat n) _ a a tt); [done|done| |lia]. destruct (user_address a) eqn:Ea; [|done].
    apply user_address_iff in Ea. exfalso. apply H1. unfold in_range. lia.
Qed.

(** *** Copies *)

Lemma ended_heap s m h status s' :
  same_user (umem s) m → (∀ live, heap_holds (kheap s) live → heap_holds h live) → ended (set_heap (set_umem s m) h) status s' → ended s status s'.
Proof. intros H1 Hh1 (m' & h' & text & H2 & Hh & Ht & ->). exists m', h', text. split_and!; [by eapply same_user_trans|by eauto|done|done]. Qed.

Lemma malloc_block_ok n s live :
  heap_holds (kheap s) live → 0 ≤ n ≤ MALLOC_MAX →
  ∃ q h', malloc n s = Ok (Return q, set_heap s h') ∧ kmalloc n (kheap s) = Ok (q, h') ∧
    if q =? NULL then heap_holds h' live else 0 < n ∧ live !! q = None ∧ heap_holds h' (<[q := n]> live).
Proof using HeapLaws0.
  intros Hh Hn. destruct (kmalloc_law n (kheap s) live Hh Hn) as (q & h' & E & Hq). exists q, h'. unfold malloc. by rewrite E.
Qed.

Lemma free_block_ok q n s live :
  heap_holds (kheap s) (<[q := n]> live) → live !! q = None → ∃ h', free q s = Ok (Return tt, set_heap s h') ∧ heap_holds h' live.
Proof using HeapLaws0.
  intros Hh Hq. destruct (kfree_law q n (kheap s) _ Hh (lookup_insert_eq _ _ _)) as (h' & E & Hh'). rewrite delete_insert_id in Hh' by done.
  exists h'. unfold free. by rewrite E.
Qed.

Lemma string_size m a l : string_at m a l → 0 ≤ Z.of_nat (length l) + 1 ≤ MALLOC_MAX.
Proof. intros (_ & _ & ? & ?). unfold MALLOC_MAX, PHYS_BASE, PGSIZE in *. lia. Qed.

(** The copy of a string: there may be no block for it. *)
Definition string_copied s live (rest : list karg) (l : list Z) (r : res (outcome (list karg) * st)) : Prop :=
  (∃ s' h, r = Ok (Exits (-1), s') ∧ ended s (-1) s' ∧ kmalloc (Z.of_nat (length l) + 1) (kheap s) = Ok (NULL, h)) ∨
  ∃ q m' h', r = Ok (Return (Str q (l ++ [0]) :: rest), set_heap (set_umem s m') h') ∧ same_user (umem s) m' ∧
    q ≠ NULL ∧ live !! q = None ∧ heap_holds h' (<[q := Z.of_nat (length l) + 1]> live).

Lemma user_string_ok s live a l :
  user_ok (umem s) → string_at (umem s) a l → heap_holds (kheap s) live →
  ∃ q d m' h', get_user_string a s = Ok (Return (q, d), set_heap (set_umem s m') h') ∧ same_user (umem s) m' ∧
    kmalloc (Z.of_nat (length l) + 1) (kheap s) = Ok (q, h') ∧
    if q =? NULL then heap_holds h' live else d = l ++ [0] ∧ live !! q = None ∧ heap_holds h' (<[q := Z.of_nat (length l) + 1]> live).
Proof using UserLaws0 HeapLaws0.
  intros Hok Hstr Hh. pose proof Hstr as (Hb & H0 & Hr1 & Hr2). unfold get_user_string, strlen. destruct (scan_ok false a l _ Hok Hstr) as (m1 & E1 & H1).
  erewrite bindY_Return; [|erewrite bindY_Return by (by apply onUser_ok); done]. cbn [default from_option id]. rewrite u32_small by (unfold is_u32, PHYS_BASE in *; lia).
  unfold get_user_string_l. destruct (malloc_block_ok (Z.of_nat (length l) + 1) (set_umem s m1) live Hh) as (q & h' & E & Ek & Hq);
    [by eapply string_size|]. rewrite (bindY_Return _ _ _ _ _ E). destruct (q =? NULL) eqn:Eq.
  - apply Z.eqb_eq in Eq as ->. exists NULL, [], m1, h'. by rewrite Z.eqb_refl.
  - destruct (copy_in_ok (l ++ [0]) a m1) as (m2 & E2 & H2); [apply H1|by eapply same_bytes|left; split; [done|rewrite length_app; simpl; lia]|].
    rewrite length_app in E2. simpl in E2. replace (Z.of_nat (length l + 1)) with (Z.of_nat (length l) + 1) in E2 by lia.
    erewrite bindY_Return by by apply onUser_ok. exists q, (l ++ [0]), m2, h'. rewrite Eq. destruct Hq as (_ & Hq & Hh'). split_and!; try done. by eapply same_user_trans.
Qed.

Lemma get_strings_ok s live a l rest :
  user_ok (umem s) → is_u32 a → string_at (umem s) a l → heap_holds (kheap s) live →
  string_copied s live rest l (get_user_strings tname (Word (s32 a) :: rest) 8 s).
Proof using UserLaws0 HeapLaws0 Hname.
  intros Hok Ha Hstr Hh. unfold get_user_strings. rewrite (bindY_Return _ _ s tt s) by done.
  destruct (scan_ok true a l _ Hok Hstr) as (m1 & E1 & H1).
  rewrite (bindY_Return _ _ s tt (set_umem s m1)).
  2:{ unfold check_single_user_string. change (flagged 8 0) with true. change ((Word (s32 a) :: rest) !! Z.to_nat 0) with (Some (Word (s32 a))). cbn iota. rewrite u32_s32 by done.
      unfold check_user_string. erewrite bindY_Return by by apply onUser_ok. done. }
  do 3 rewrite (bindY_Return _ _ _ tt (set_umem s m1)) by done.
  assert (∀ args i s0, i ∈ [1; 2; 3] → get_single_user_string tname args 8 i s0 = Ok (Return args, s0)) as Hskip.
  { intros args i s0 Hi. unfold get_single_user_string. replace (flagged 8 i) with false; [done|]. rewrite !elem_of_cons, elem_of_nil in Hi. by destruct Hi as [->|[->|[->|[]]]]. }
  assert (string_at m1 a l) as Hstr1 by (destruct Hstr as (? & ? & ?); split_and!; try done; by eapply same_bytes).
  destruct (user_string_ok (set_umem s m1) live a l (su_ok _ _ H1) Hstr1 Hh) as (q & d & m2 & h' & E & H2 & Ek & Hq).
  unfold get_single_user_string at 1. change (flagged 8 0) with true. change ((Word (s32 a) :: rest) !! Z.to_nat 0) with (Some (Word (s32 a))). cbn iota. rewrite u32_s32 by done.
  unfold string_copied. destruct (q =? NULL) eqn:Eq.
  - left. apply Z.eqb_eq in Eq as ->. destruct (exit_call_ok (A := list karg) (-1) (set_heap (set_umem s m2) h')) as (s' & Ex & He); [apply H2|done|].
    exists s', h'. split_and!; [|eapply ended_heap; [by eapply same_user_trans| |exact He]|done].
    + apply bindY_Exits. erewrite bindY_Return by exact E. cbn iota. change (NULL =? NULL) with true. cbn iota. erewrite bindY_Return; [exact Ex|done].
    + intros live' Hl'. destruct (kmalloc_law (Z.of_nat (length l) + 1) (kheap s) live' Hl') as (q' & h2 & E' & Hq').
      * by eapply string_size.
      * simpl in Ek. rewrite Ek in E'. by injection E' as <- <-.
  - right. destruct Hq as (-> & Hq & Hh'). exists q, m2, h'. split_and!; [|by eapply same_user_trans|by apply Z.eqb_neq|done|done].
    rewrite (bindY_Return _ _ _ (Str q (l ++ [0]) :: rest) (set_heap (set_umem s m2) h')).
    2:{ erewrite bindY_Return by exact E. cbn iota. by rewrite Eq. }
    do 2 erewrite bindY_Return by (apply Hskip; repeat constructor). apply Hskip. repeat constructor.
Qed.

Lemma get_strings_bad s a l rest :
  user_ok (umem s) → is_u32 a → user_bytes (umem s) a l → 0 ∉ l → in_range a (Z.of_nat (length l)) ∨ l = [] →
  user_address (a + Z.of_nat (length l)) = false →
  ∃ s', get_user_strings tname (Word (s32 a) :: rest) 8 s = Ok (Exits (-1), s') ∧ ended s (-1) s'.
Proof using UserLaws0 Hname.
  intros Hok Ha Hb H0 Hr Hbad. destruct (scan_bad a l _ Hok Hb H0 Hr Hbad) as (m1 & E1 & H1).
  destruct (exit_call_ok (A := unit) (-1) (set_umem s m1)) as (s' & Ex & He); [apply H1|done|]. exists s'. split; [|by eapply ended_after].
  unfold get_user_strings. rewrite (bindY_Return _ _ s tt s) by done. apply bindY_Exits. unfold check_single_user_string. change (flagged 8 0) with true.
  change ((Word (s32 a) :: rest) !! Z.to_nat 0) with (Some (Word (s32 a))). cbn iota. rewrite u32_s32 by done.
  unfold check_user_string. erewrite bindY_Return by by apply onUser_ok. exact Ex.
Qed.

Lemma block_head q l rest s : block (Str q l :: rest) 0 s = Ok (Return l, s).
Proof. done. Qed.

Lemma free_strings_head q l rest s : free_user_strings (Str q l :: rest) 8 s = bindY (free q) (λ _, retY (Word 0 :: rest)) s.
Proof.
  unfold free_user_strings. rewrite (bindY_Return _ _ s tt s) by done. unfold bindY, free_single_user_string.
  change (flagged 8 0) with true. change (flagged 8 1) with false. change (flagged 8 2) with false. change (flagged 8 3) with false. cbn iota.
  change ((Str q l :: rest) !! Z.to_nat 0) with (Some (Str q l)). cbn iota. unfold bindY, retY. by destruct (free q s) as [[[?|?| |] s3]|f|]; mstep.
Qed.

(** A call with a string, up to the operation itself. *)
Lemma with_string_ok {A} esp a vs l (k : list karg → list Z → SY A) ret s live :
  user_ok (umem s) → words (umem s) (esp + 4) (a :: vs) → (length vs ≤ 3)%nat → string_at (umem s) a l → heap_holds (kheap s) live →
  (∃ s' h, with_string tname esp (Z.of_nat (S (length vs))) k ret s = Ok (Exits (-1), s') ∧ ended s (-1) s' ∧
     kmalloc (Z.of_nat (length l) + 1) (kheap s) = Ok (NULL, h)) ∨
  ∃ q m' h', same_user (umem s) m' ∧ live !! q = None ∧ heap_holds h' (<[q := Z.of_nat (length l) + 1]> live) ∧
    with_string tname esp (Z.of_nat (S (length vs))) k ret s =
      bindY (k (Str q (l ++ [0]) :: ((λ v, Word (s32 v)) <$> vs)) (l ++ [0])) (λ r, bindY (free q) (λ _, retY (ret r))) (set_heap (set_umem s m') h').
Proof using UserLaws0 HeapLaws0 Hname.
  intros Hok Hw Hl Hstr Hh. destruct (get_words_ok (a :: vs) esp s Hok Hw) as (m1 & E1 & H1); [simpl; lia|].
  assert (is_u32 a) as Ha by by apply words_cons in Hw as [(? & _) _]. assert (string_at m1 a l) as Hstr1 by (destruct Hstr as (? & ? & ?); split_and!; try done; by eapply same_bytes).
  unfold with_string. rewrite (bindY_Return _ _ _ _ _ E1). cbn [fmap list_fmap].
  destruct (get_strings_ok (set_umem s m1) live a l ((λ v, Word (s32 v)) <$> vs) (su_ok _ _ H1) Ha Hstr1 Hh) as [(s' & h & E & He & Ek)|(q & m2 & h' & E & H2 & Hq & Hlive & Hh')].
  - left. exists s', h. split_and!; [by apply bindY_Exits|by eapply ended_after|done].
  - right. exists q, m2, h'. split_and!; [by eapply same_user_trans|done|done|]. rewrite (bindY_Return _ _ _ _ _ E).
    erewrite bindY_Return by apply block_head.
    change (set_heap (set_umem (set_umem s m1) m2) h') with (set_heap (set_umem s m2) h').
    unfold bindY at 1 3. destruct (k _ _ _) as [[[r|?| |] s2]|f|]; mstep; try done. unfold bindY at 1. rewrite free_strings_head. unfold bindY, retY.
    by destruct (free q s2) as [[[?|?| |] s3]|f|]; mstep.
Qed.

(** *** The other direction *)

Lemma put_run l a m m0 l0 :
  put_bytes m m0 a l0 → user_room m a (Z.of_nat (length l0 + length l)) → Forall is_byte l → in_range a (Z.of_nat (length l0 + length l)) →
  ∃ m', iter (length l) put_step (l, a + Z.of_nat (length l0), m0) = inl ([], a + Z.of_nat (length l0 + length l), m') ∧ put_bytes m m' a (l0 ++ l).
Proof using UserLaws0.
  revert m0 l0. induction l as [|c l IH]; intros m0 l0 Hp Hroom Hb Hr.
  { exists m0. rewrite app_nil_r, Nat.add_0_r. done. }
  apply Forall_cons in Hb as [Hc Hb]. cbn [length] in *. cbn [iter]. unfold put_step at 1.
  destruct (put_user_ok (a + Z.of_nat (length l0)) c m0) as (m1 & E & H1); [apply Hp| |done|].
  { intros b Hb'. rewrite (ps_writable _ _ _ _ Hp). apply Hroom. lia. }
  rewrite E. destruct Hr as [Hr1 Hr2]. rewrite u32_small by (unfold is_u32, PHYS_BASE in *; lia).
  pose proof (put_bytes_snoc _ _ _ _ _ _ Hp H1) as Hp1. assert (length (l0 ++ [c]) = S (length l0)) as El by (rewrite length_app; simpl; lia).
  destruct (IH m1 (l0 ++ [c]) Hp1) as (m2 & E2 & H2); [by rewrite El, Nat.add_succ_comm|done|rewrite El, Nat.add_succ_comm; by split|].
  rewrite El in E2. replace (a + Z.of_nat (length l0) + 1) with (a + Z.of_nat (S (length l0))) by lia. exists m2. rewrite E2, Nat.add_succ_comm. rewrite <-app_assoc in H2. done.
Qed.

Lemma copy_out_ok l a m :
  user_ok m → user_room m a (Z.of_nat (length l)) → Forall is_byte l → in_range a (Z.of_nat (length l)) ∨ l = [] →
  ∃ m', copy_out a l m = Ok (tt, m') ∧ put_bytes m m' a l.
Proof using UserLaws0.
  intros Hok Hroom Hb Hr. unfold copy_out. rewrite iterateZ_iter, Nat2Z.id. destruct Hr as [Hr| ->]; [|exists m; split; [done|by apply put_bytes_nil]].
  destruct (put_run l a m m [] (put_bytes_nil m a Hok) Hroom Hb Hr) as (m' & E & Hp). simpl in E. rewrite Z.add_0_r in E. rewrite E. by exists m'.
Qed.

(** ** Files and descriptors *)

(** The keyboard. *)
Lemma read_keys_run ks s a m l0 :
  (∀ l, keys s = ks ++ l → put_bytes m (umem s) a l0 → user_room m a (Z.of_nat (length l0 + length ks)) → Forall is_byte ks →
   in_range a (Z.of_nat (length l0 + length ks)) →
   ∃ m', iter (length ks) key_step (a + Z.of_nat (length l0), s) = inl (a + Z.of_nat (length l0 + length ks), set_keys (set_umem s m') l) ∧ put_bytes m m' a (l0 ++ ks)).
Proof using UserLaws0.
  revert s l0. induction ks as [|c ks IH]; intros s l0 l Hk Hp Hroom Hb Hr.
  { exists (umem s). rewrite app_nil_r, Nat.add_0_r. split; [|done]. simpl in Hk. rewrite <-Hk. by destruct s. }
  apply Forall_cons in Hb as [Hc Hb]. cbn [length] in *. cbn [iter]. unfold key_step at 1. rewrite Hk. cbn [app].
  destruct (put_user_ok (a + Z.of_nat (length l0)) c (umem s)) as (m1 & E & H1); [apply Hp| |done|].
  { intros b Hb'. rewrite (ps_writable _ _ _ _ Hp). apply Hroom. lia. }
  rewrite E. destruct Hr as [Hr1 Hr2]. rewrite u32_small by (unfold is_u32, PHYS_BASE in *; lia).
  pose proof (put_bytes_snoc _ _ _ _ _ _ Hp H1) as Hp1. assert (length (l0 ++ [c]) = S (length l0)) as El by (rewrite length_app; simpl; lia).
  destruct (IH (set_keys (set_umem s m1) (ks ++ l)) (l0 ++ [c]) l) as (m2 & E2 & H2);
    [done|done|by rewrite El, Nat.add_succ_comm|done|rewrite El, Nat.add_succ_comm; by split|].
  rewrite El in E2. replace (a + Z.of_nat (length l0) + 1) with (a + Z.of_nat (S (length l0))) by lia. exists m2. rewrite E2, Nat.add_succ_comm. rewrite <-app_assoc in H2. done.
Qed.

Lemma read_keys_ok s a n :
  user_ok (umem s) → 0 ≤ n ≤ Z.of_nat (length (keys s)) → user_room (umem s) a n → Forall is_byte (keys s) → in_range a n ∨ n = 0 →
  ∃ m', read_keys a n s = Ok (Return tt, set_keys (set_umem s m') (drop (Z.to_nat n) (keys s))) ∧ put_bytes (umem s) m' a (take (Z.to_nat n) (keys s)).
Proof using UserLaws0.
  intros Hok Hn Hroom Hb Hr. unfold read_keys. rewrite iterateZ_iter. destruct Hr as [Hr| ->].
  2:{ exists (umem s). split; [|by apply put_bytes_nil]. simpl. unfold drop. by destruct s. }
  assert (length (take (Z.to_nat n) (keys s)) = Z.to_nat n) as El by (rewrite length_take; lia).
  destruct (read_keys_run (take (Z.to_nat n) (keys s)) s a (umem s) [] (drop (Z.to_nat n) (keys s))) as (m' & E & Hp); cbn [length Nat.add]; rewrite ?El, ?Z2Nat.id by lia; try done.
  - by rewrite take_drop.
  - by apply put_bytes_nil.
  - by apply Forall_take.
  - cbn [length Nat.add] in E. rewrite El in E. change (Z.of_nat 0) with 0 in E. rewrite Z.add_0_r in E. rewrite E. by exists m'.
Qed.

Context `{!FileSys F} `{!FileWorld F} `{!WorldLaws F}.

Lemma FD_END_val : FD_END = 2050.
Proof. done. Qed.

(** The descriptors in use are below the next one. *)
Definition fds_ok s : Prop := 2 ≤ next_fd s ≤ FD_END ∧ ∀ fd, is_Some (fd_table s !! fd) → 2 ≤ fd < next_fd s.

Lemma get_file_ok s fd : fds_ok s → process_get_file fd s = Ok (Return (fd_table s !! fd), s).
Proof.
  intros [_ H]. unfold process_get_file. destruct (Z.leb_spec fd 1), (Z.leb_spec (next_fd s) fd); simpl; try done;
    (destruct (fd_table s !! fd) as [f|] eqn:E; [specialize (H fd ltac:(by eexists)); lia|done]).
Qed.

(** The state after a call to the file system by the process. *)
Definition with_files s (x : F * gmap Z file) : st := set_fds (set_files s x.1) x.2 (next_fd s).

Lemma with_files_id s : with_files s (sfiles s, fd_table s) = s.
Proof. by destruct s. Qed.

Definition calls s (c : call) (r : reply) (x : F * gmap Z file) : Prop := run_call c (sfiles s, fd_table s) = Ok (r, x).

(** What a call of the handler does is what a client of the file system would do. *)
Lemma filesize_calls s fd r x :
  fds_ok s → calls s (Length fd) r x → filesize fd s = Ok (Return (match r with Number n => n | _ => -1 end), with_files s x).
Proof.
  intros Hf Hc. unfold filesize. rewrite (bindY_Return _ _ _ _ _ (get_file_ok s fd Hf)). unfold calls in Hc. cbn [run_call] in Hc. unfold on_file in Hc.
  destruct (fd_table s !! fd) as [f|] eqn:E.
  - unfold bindS, retS, onFiles in *. destruct (fsys_length f (sfiles s)) as [[n f']|e|]; simpl in Hc; [|done..]. injection Hc as <- <-. mstep.
    unfold with_files. simpl. by rewrite insert_id.
  - injection Hc as <- <-. by rewrite with_files_id.
Qed.

Lemma seek_calls s fd p r x :
  fds_ok s → calls s (Seek fd (s32 p)) r x → seek fd p s = Ok (Return tt, with_files s x).
Proof.
  intros Hf Hc. unfold seek. rewrite (bindY_Return _ _ _ _ _ (get_file_ok s fd Hf)). unfold calls in Hc. cbn [run_call] in Hc. unfold on_file in Hc.
  destruct (fd_table s !! fd) as [f|] eqn:E.
  - unfold bindS, retS, bindY, onFiles in *. destruct (fsys_seek f (s32 p) (sfiles s)) as [[f1 f']|e|]; simpl in Hc; [|done..]. by injection Hc as <- <-.
  - injection Hc as <- <-. by rewrite with_files_id.
Qed.

Lemma close_calls s fd r x :
  fds_ok s → calls s (Close fd) r x → close fd s = Ok (Return tt, with_files s x).
Proof.
  intros [Hn Hf] Hc. unfold close, process_close_file. rewrite (bindY_Return _ _ _ _ _ (eq_refl (getY s))). unfold calls in Hc. cbn [run_call] in Hc. unfold on_file in Hc.
  destruct (fd_table s !! fd) as [f|] eqn:E.
  - specialize (Hf fd ltac:(by eexists)). rewrite (proj2 (Z.leb_gt fd 1)), (proj2 (Z.leb_gt (next_fd s) fd)) by lia. cbn [orb].
    unfold bindS, retS, bindY, onFiles in *. destruct (fsys_close f (sfiles s)) as [[[] f']|e|]; simpl in Hc; [|done..]. by injection Hc as <- <-.
  - injection Hc as <- <-. rewrite with_files_id. destruct (_ || _); [done|]. unfold bindY, retY. mstep. rewrite delete_id by done. by destruct s.
Qed.

Lemma create_calls s name size r x :
  0 ∉ name → calls s (Create name (s32 size)) r x → ∃ b, r = Answer b ∧ create (name ++ [0]) size s = Ok (Return (Z.b2z b), with_files s x).
Proof.
  intros H0 Hc. unfold create, calls in *. cbn [run_call] in Hc. rewrite cstring_ok by done. unfold bindY, onFiles.
  destruct (fsys_create name (s32 size) (sfiles s)) as [[b f']|e|]; simpl in Hc; [|done..]. injection Hc as <- <-. exists b. split; [done|]. by destruct s.
Qed.

Lemma remove_calls s name r x :
  0 ∉ name → calls s (Remove name) r x → ∃ b, r = Answer b ∧ remove (name ++ [0]) s = Ok (Return (Z.b2z b), with_files s x).
Proof.
  intros H0 Hc. unfold remove, calls in *. cbn [run_call] in Hc. rewrite cstring_ok by done. unfold bindY, onFiles.
  destruct (fsys_remove name (sfiles s)) as [[b f']|e|]; simpl in Hc; [|done..]. injection Hc as <- <-. exists b. split; [done|]. by destruct s.
Qed.

Lemma next_free s : fds_ok s → fd_table s !! next_fd s = None.
Proof. intros [_ H]. destruct (fd_table s !! next_fd s) eqn:E; [|done]. specialize (H (next_fd s) ltac:(by eexists)). lia. Qed.

Lemma open_calls s name r x :
  0 ∉ name → fds_ok s → next_fd s < FD_END → file_lock s = false → calls s (Open (next_fd s) name) r x →
  ∃ b, r = Answer b ∧
    open (name ++ [0]) s = if b : bool then Ok (Return (next_fd s), set_fds (with_files s x) x.2 (next_fd s + 1)) else Ok (Return (-1), with_files s x).
Proof.
  intros H0 Hf Hn Hlock Hc. unfold open, calls in *. cbn [run_call] in Hc. rewrite cstring_ok by done. rewrite (next_free s Hf) in Hc.
  unfold lock_acquire. rewrite (bindY_Return _ _ s tt (set_lock s true)) by by rewrite Hlock. unfold bindY at 1. unfold onFiles. cbn [set_lock sfiles].
  destruct (fsys_open name (sfiles s)) as [[[f|] f']|e|]; simpl in Hc; [| |done..]; injection Hc as <- <-; mstep.
  - exists true. split; [done|]. destruct Hf as [Hf _]. unfold process_add_file, bindY. cbn [next_fd set_files set_lock fd_table].
    rewrite (proj2 (Z.leb_le 2 _)), (proj2 (Z.ltb_lt _ FD_END)) by lia. cbn [andb]. rewrite s32_small by (pose proof FD_END_val; unfold is_s32; lia). mstep.
    unfold with_files. destruct s; simpl in *; by subst.
  - exists false. split; [done|]. unfold with_files. destruct s; simpl in *; by subst.
Qed.

Lemma write_calls s fd data r x :
  fds_ok s → fd ≠ 1 → file_lock s = false → Z.of_nat (length data) ≤ INT_MAX → calls s (Write fd data) r x →
  write fd data (Z.of_nat (length data)) s = Ok (Return (match r with Number n => s32 (u32 n) | _ => 0 end), with_files s x).
Proof.
  intros Hf Hfd Hlock Hlen Hc. unfold write, calls in *. cbn [run_call] in Hc. unfold on_file in Hc. rewrite (proj2 (Z.eqb_neq fd 1)) by done.
  unfold lock_acquire. rewrite (bindY_Return _ _ s tt (set_lock s true)) by by rewrite Hlock.
  rewrite (bindY_Return _ _ _ _ _ (get_file_ok (set_lock s true) fd Hf)). cbn [set_lock fd_table]. rewrite s32_small by (unfold is_s32, INT_MAX in *; lia).
  destruct (fd_table s !! fd) as [f|] eqn:E.
  - unfold bindS, retS, bindY, onFiles in *. cbn [set_lock sfiles]. destruct (fsys_write f data (Z.of_nat (length data)) (sfiles s)) as [[[n f1] f']|e|]; simpl in Hc; [|done..].
    injection Hc as <- <-. mstep. unfold with_files. destruct s; simpl in *; by subst.
  - injection Hc as <- <-. rewrite with_files_id. unfold bindY, lock_release. mstep. destruct s; simpl in *; by subst.
Qed.

(** The bytes of the file go to the buffer of the process. *)
Lemma read_file_ok s w fd a n :
  fds_ok s → fd ≠ 0 → file_lock s = false → user_ok (umem s) → fsys_world (sfiles s) (fd_table s) w →
  0 ≤ n → user_room (umem s) a n → in_range a n ∨ n = 0 →
  ∃ r l m' x w', read fd a n s = Ok (Return (match r with Bytes l => Z.of_nat (length l) | _ => -1 end), set_umem (with_files s x) m') ∧
    l = match r with Bytes l => l | _ => [] end ∧ put_bytes (umem s) m' a l ∧ spec w (Read fd (s32 n)) r w' ∧ fsys_world x.1 x.2 w' ∧
    (∀ h, is_Some (x.2 !! h) ↔ is_Some (fd_table s !! h)) ∧ Z.of_nat (length l) ≤ INT_MAX.
Proof using UserLaws0 WorldLaws0.
  intros Hf Hfd Hlock Hok Hw Hn Hroom Hr. unfold read. rewrite (proj2 (Z.eqb_neq fd 0)) by done. unfold lock_acquire.
  rewrite (bindY_Return _ _ s tt (set_lock s true)) by by rewrite Hlock. rewrite (bindY_Return _ _ _ _ _ (get_file_ok (set_lock s true) fd Hf)). cbn [set_lock fd_table].
  pose proof (file_of_table (sfiles s) (fd_table s) w fd Hw) as Hof. destruct (fd_table s !! fd) as [f|] eqn:E.
  2:{ exists BadHandle, [], (umem s), (sfiles s, fd_table s), w. rewrite with_files_id, set_umem_id. split_and!; try done.
      - unfold bindY, lock_release. mstep. destruct s; simpl in *; by subst.
      - by apply put_bytes_nil.
      - simpl. by rewrite Hof. }
  destruct Hof as (sec & l & Hof & Hs & Hl & Hp & Hlen). destruct (world_contents _ _ _ fd sec _ Hw Hs) as (l2 & Hl2 & _ & Hb). rewrite Hl in Hl2. injection Hl2 as <-.
  assert (s32 n ≤ INT_MAX ∧ s32 n ≤ Z.max 0 n) as [Hs1 Hs2].
  { unfold INT_MAX. destruct (decide (n < 2147483648)) as [Hlt|]; [rewrite s32_small by (unfold is_s32; lia); lia|]. pose proof (s32_range n) as [??]. unfold is_s32 in *. lia. }
  pose proof (world_read _ _ _ fd f sec l (replicate (Z.to_nat (s32 n)) 0) (s32 n) Hw E Hs Hl Hs1 ltac:(rewrite length_replicate; lia)) as Hrd. cbv zeta in Hrd.
  set (part := take (Z.to_nat (s32 n)) (drop (Z.to_nat (fpos f)) l)) in *.
  assert ((length part ≤ Z.to_nat (s32 n))%nat ∧ fpos f + Z.of_nat (length part) ≤ INT_MAX) as [Hpl Hpm].
  { unfold part. rewrite length_take, length_drop. unfold INT_MAX in *. lia. }
  destruct (copy_out_ok part a (umem s)) as (m' & Ec & Hput); [done|intros b Hb'; apply Hroom; lia|by apply Forall_take, Forall_drop| |].
  { destruct Hr as [[Hr1 Hr2]| ->]; [left; split; lia|right]. apply nil_length_inv. change (Z.to_nat (s32 0)) with 0%nat in Hpl. lia. }
  exists (Bytes part), part, m', (sfiles s, <[fd := at_pos f (fpos f + Z.of_nat (length part))]> (fd_table s)), (w_open w fd sec (fpos f + Z.of_nat (length part))).
  split_and!; try done.
  - unfold bindY, onFiles. cbn [set_lock sfiles]. rewrite Hrd. mstep. rewrite Nat2Z.id, overwrite_all by by rewrite length_replicate. unfold onUser. cbn [umem set_files set_lock]. rewrite Ec. mstep.
    rewrite u32_small, s32_small by (unfold is_u32, is_s32, INT_MAX in *; lia). unfold with_files. destruct s; simpl in *; by subst.
  - simpl. by rewrite Hof.
  - by apply world_pos; try done; lia.
  - intros h. simpl. destruct (decide (h = fd)) as [->|]; [by rewrite lookup_insert_eq, E|by rewrite lookup_insert_ne].
  - lia.
Qed.

(** ** Requests in memory *)

Definition asks m (esp : Z) (r : request) : Prop :=
  match r with
  | RHalt => words m esp [0]
  | RExit status => ∃ v, words m esp [1; v] ∧ status = s32 v
  | RExec cmd_line => ∃ a, words m esp [2; a] ∧ string_at m a cmd_line
  | RWait tid => ∃ v, words m esp [3; v] ∧ tid = s32 v
  | RCreate name size => ∃ a, words m esp [4; a; size] ∧ string_at m a name
  | RRemove name => ∃ a, words m esp [5; a] ∧ string_at m a name
  | ROpen name => ∃ a, words m esp [6; a] ∧ string_at m a name
  | RFilesize fd => ∃ v, words m esp [7; v] ∧ fd = s32 v
  | RRead fd buffer size => ∃ v, words m esp [8; v; buffer; size] ∧ fd = s32 v ∧ user_room m buffer size ∧ (in_range buffer size ∨ size = 0)
  | RWrite fd data =>
      ∃ v a, words m esp [9; v; a; Z.of_nat (length data)] ∧ fd = s32 v ∧ user_bytes m a data ∧ (in_range a (Z.of_nat (length data)) ∨ data = [])
  | RSeek fd position => ∃ v, words m esp [10; v; position] ∧ fd = s32 v
  | RTell fd => ∃ v, words m esp [11; v] ∧ fd = s32 v
  | RClose fd => ∃ v, words m esp [12; v] ∧ fd = s32 v
  end.

(** What the code relies on without a check; where one of these fails the kernel stops or
    writes where it should not. The size of a new file, a position and the length of a write
    fit the type of offsets; the table of descriptors has room for one more; there is a block
    for the data of a write; and, for a call that does not wait, the keys that a read asks for
    have been typed. *)
Definition fits s (p : proc) (r : request) : Prop :=
  match r with
  | RCreate _ size => size ≤ INT_MAX
  | ROpen _ => pnext p < FD_END
  | RRead fd _ size => fd = 0 → size ≤ Z.of_nat (length (pinput p))
  | RWrite fd data =>
      (data = [] ∨ ∃ q h, kmalloc (Z.of_nat (length data)) (kheap s) = Ok (q, h) ∧ q ≠ NULL) ∧ Z.of_nat (length data) ≤ INT_MAX
  | RSeek _ position => position ≤ INT_MAX
  | _ => True
  end.

Definition number_of (r : request) : Z :=
  match r with
  | RHalt => 0 | RExit _ => 1 | RExec _ => 2 | RWait _ => 3 | RCreate _ _ => 4 | RRemove _ => 5 | ROpen _ => 6
  | RFilesize _ => 7 | RRead _ _ _ => 8 | RWrite _ _ => 9 | RSeek _ _ => 10 | RTell _ => 11 | RClose _ => 12
  end.

Definition buffer_of (r : request) : Z := match r with RRead _ buffer _ => buffer | _ => 0 end.
Definition text_of (r : request) : option (list Z) :=
  match r with RExec l | RCreate l _ | RRemove l | ROpen l => Some l | _ => None end.

(** The process between two calls, with a file system in order in which the open files are those
    of this process, and in which allocations of memory do not fail ([fsys_world] of a file
    system is with an empty list [mallocs]); the kernel's heap, from which strings and data are
    copied, may be exhausted. *)
Record proc_ok s (p : proc) (live : gmap Z Z) : Prop := {
  po_mem : user_ok (umem s);
  po_files : fsys_world (sfiles s) (fd_table s) (pfiles p);
  po_fds : fds_ok s;
  po_lock : file_lock s = false;
  po_next : next_fd s = pnext p;
  po_output : console s = poutput p;
  po_input : keys s = pinput p;
  po_keys : Forall is_byte (pinput p);
  po_heap : heap_holds (kheap s) live;
}.

Lemma table_size s : fds_ok s → Z.of_nat (size (fd_table s)) < INT_MAX.
Proof.
  intros [Hn Hf]. assert (size (fd_table s) ≤ length (seqZ 2 2048))%nat as Hs.
  { rewrite <-size_dom. transitivity (size (list_to_set (C := gset Z) (seqZ 2 2048))).
    - apply subseteq_size. intros fd Hfd. apply elem_of_dom in Hfd. apply elem_of_list_to_set, elem_of_seqZ. specialize (Hf fd Hfd). rewrite FD_END_val in Hn. lia.
    - rewrite size_list_to_set; [done|apply NoDup_seqZ]. }
  rewrite length_seqZ in Hs. unfold INT_MAX. lia.
Qed.

Lemma run_call_table c (f f' : F) T T' r :
  run_call c (f, T) = Ok (r, (f', T')) → (∀ h name, c ≠ Open h name) → ∀ h, is_Some (T' !! h) → is_Some (T !! h).
Proof.
  intros Hc Hno h. destruct c as [name sz|name|h' name|h'|h' p|h' n|h' bs|h']; cbn [run_call] in Hc; [| |by destruct (Hno h' name)|..]; unfold on_file in Hc;
    try (destruct (T !! h') as [g|] eqn:E); res_inv; repeat match goal with x : _ * _ |- _ => destruct x; simplify_eq/= end; try done;
    (destruct (decide (h = h')) as [->|]; [by rewrite E; eauto|]); (destruct o; [by rewrite lookup_insert_ne|by rewrite lookup_delete_ne]).
Qed.

Lemma with_files_ok s p live x w :
  proc_ok s p live → fsys_world x.1 x.2 w → (∀ h, is_Some (x.2 !! h) → is_Some (fd_table s !! h)) → proc_ok (with_files s x) (set_world p w) live.
Proof. intros [? ? [Hn Hf] ? ? ? ? ? ?] Hw Hx. split; try done. split; [done|]. intros fd Hfd. by apply Hf, Hx. Qed.

(** A call to the file system by the process, other than [open]. *)
Lemma proc_call s p live c :
  proc_ok s p live → good_call c → (∀ h name, c ≠ Open h name) →
  ∃ r x w, calls s c r x ∧ spec (pfiles p) c r w ∧ proc_ok (with_files s x) (set_world p w) live.
Proof using WorldLaws0.
  intros Hp Hg Hno. destruct (call_refines _ _ _ c (po_files _ _ _ Hp) Hg (table_size s (po_fds _ _ _ Hp))) as (r & f' & T' & w & E & Hs & Hw & _).
  exists r, (f', T'), w. split_and!; [done|done|]. apply with_files_ok; [done|done|]. by apply (run_call_table c (sfiles s) f' _ T' r).
Qed.

Lemma proc_open s p live name :
  proc_ok s p live → 0 ∉ name → pnext p < FD_END →
  ∃ b x w, calls s (Open (next_fd s) name) (Answer b) x ∧ spec (pfiles p) (Open (pnext p) name) (Answer b) w ∧
    if b : bool then proc_ok (set_fds (with_files s x) x.2 (next_fd s + 1)) (Proc w (pnext p + 1) (poutput p) (pinput p)) live
    else proc_ok (with_files s x) (set_world p w) live.
Proof using WorldLaws0.
  intros Hp H0 Hn. pose proof (next_free s (po_fds _ _ _ Hp)) as Hfree.
  destruct (call_refines _ _ _ (Open (next_fd s) name) (po_files _ _ _ Hp) H0 (table_size s (po_fds _ _ _ Hp))) as (r & f' & T' & w & E & Hs & Hw & _).
  pose proof E as E2. cbn [run_call] in E2. rewrite Hfree in E2. rewrite (po_next _ _ _ Hp) in Hs. destruct (fsys_open name (sfiles s)) as [[[g|] f1]|e|]; simpl in E2; [| |done..]; injection E2 as <- <- <-.
  - exists true, (f1, <[next_fd s := g]> (fd_table s)), w. split_and!; [done|done|]. destruct Hp as [? ? [Hf1 Hf2] ? Hnx ? ? ? ?]. rewrite Hnx in *. split; try done; [].
    split; [simpl; lia|]. simpl. intros fd Hfd. destruct (decide (fd = pnext p)) as [->|]; [lia|]. rewrite lookup_insert_ne in Hfd by done. specialize (Hf2 fd Hfd). lia.
  - exists false, (f1, fd_table s), w. split_and!; [done|done|]. by apply with_files_ok.
Qed.

(** The memory and the heap have been used. *)
Lemma proc_quiet s p live live' m h : proc_ok s p live → user_ok m → heap_holds h live' → proc_ok (set_heap (set_umem s m) h) p live'.
Proof. intros [] ? ?. by split. Qed.

(** ** How requests are answered *)

Definition answered s (p : proc) (live : gmap Z Z) (r : request) (x : res (outcome answer * st)) : Prop :=
  ∃ o s' p' live', x = Ok (o, s') ∧ proc_ok s' p' live' ∧
    ((∃ l, serves tname p r o l p' ∧ put_bytes (umem s) (umem s') (buffer_of r) l ∧ blocks_after o live live') ∨
     (∃ l h, text_of r = Some l ∧ kmalloc (Z.of_nat (length l) + 1) (kheap s) = Ok (NULL, h) ∧ dies tname p (-1) o p' ∧
        same_user (umem s) (umem s') ∧ live' = live)).

Lemma same_put_nil m m' a : same_user m m' → put_bytes m m' a [].
Proof. intros Hs. by eapply same_put_bytes; [|apply put_bytes_nil; apply Hs]. Qed.

Lemma answered_after s m1 p live r x : same_user (umem s) m1 → answered (set_umem s m1) p live r x → answered s p live r x.
Proof.
  intros H1 (o & s' & p' & live' & E & Hp & Hr). exists o, s', p', live'. split_and!; [done|done|].
  destruct Hr as [(l & Hs & Hput & Hb)|(l & h & Ht & Hk & Hd & Hsame & Hl)]; [left|right].
  - exists l. split_and!; try done. by eapply same_put_bytes.
  - exists l, h. split_and!; try done. by eapply same_user_trans.
Qed.

Lemma ended_dies s p live status s' :
  proc_ok s p live → ended s status s' →
  ∃ p', proc_ok s' p' live ∧ dies tname p status (Exits status) p' ∧ same_user (umem s) (umem s').
Proof.
  intros [Hm Hw Hf Hl Hn Ho Hi Hk Hh] (m' & h' & text & Hs & Hh' & Ht & ->). exists (Proc (pfiles p) (pnext p) (poutput p ++ text) (pinput p)).
  split_and!; [split; try done; simpl; [apply Hs|by rewrite Ho|by apply Hh']|by exists text|done].
Qed.

Lemma string_request {A} esp a vs l (k : list karg → list Z → SY A) ret s p live r :
  proc_ok s p live → words (umem s) (esp + 4) (a :: vs) → (length vs ≤ 3)%nat → string_at (umem s) a l → text_of r = Some l →
  (∀ v live, blocks_after (Return (ret v)) live live) →
  (∀ s1 live1 q, proc_ok s1 p live1 →
     ∃ v s2 p', k (Str q (l ++ [0]) :: ((λ v, Word (s32 v)) <$> vs)) (l ++ [0]) s1 = Ok (Return v, s2) ∧ umem s2 = umem s1 ∧
       proc_ok s2 p' live1 ∧ serves tname p r (Return (ret v)) [] p') →
  answered s p live r (with_string tname esp (Z.of_nat (S (length vs))) k ret s).
Proof using UserLaws0 HeapLaws0 Hname.
  intros Hp Hw Hl Hstr Htext Hret Hop.
  destruct (with_string_ok esp a vs l k ret s live (po_mem _ _ _ Hp) Hw Hl Hstr (po_heap _ _ _ Hp)) as [(s' & h & E & He & Ek)|(q & m' & h' & Hs & Hq & Hh' & E)].
  - destruct (ended_dies s p live (-1) s' Hp He) as (p' & Hp' & Hd & Hs). exists (Exits (-1)), s', p', live. split_and!; [done|done|]. right. by exists l, h.
  - pose proof (proc_quiet s p live _ m' h' Hp (su_ok _ _ Hs) Hh') as Hp1. destruct (Hop _ _ q Hp1) as (v & s2 & p' & Ek & Hm & Hp2 & Hsv).
    destruct (free_block_ok q _ s2 live (po_heap _ _ _ Hp2) Hq) as (h2 & Ef & Hh2).
    exists (Return (ret v)), (set_heap s2 h2), p', live. split_and!.
    + rewrite E, (bindY_Return _ _ _ _ _ Ek), (bindY_Return _ _ _ _ _ Ef). done.
    + destruct Hp2. by split.
    + left. exists []. split_and!; [done| |done]. simpl. rewrite Hm. by apply same_put_nil.
Qed.

Lemma words_text (v : Z) s : word [Word v] 0 s = Ok (Return v, s).
Proof. done. Qed.

Lemma word_request {A} esp a (k : Z → SY A) ret s p live r :
  proc_ok s p live → words (umem s) (esp + 4) [a] →
  (∀ s1, proc_ok s1 p live → answered s1 p live r (bindY (k (s32 a)) (λ v, retY (ret v)) s1)) →
  answered s p live r (with_word tname esp k ret s).
Proof using UserLaws0.
  intros Hp Hw Hk. destruct (get_words_ok [a] esp s (po_mem _ _ _ Hp) Hw) as (m1 & E & H1); [simpl; lia|].
  apply (answered_after s m1); [done|]. unfold with_word. rewrite (bindY_Return _ _ _ _ _ E). erewrite bindY_Return by apply words_text. apply Hk.
  destruct Hp. split; try done. apply H1.
Qed.

(** A call that returns, and uses no memory of the process. *)
Lemma answered_return s p live r o s' p' :
  user_ok (umem s) → umem s' = umem s → proc_ok s' p' live → serves tname p r (Return o) [] p' → (∀ l, blocks_after (Return o) l l) →
  answered s p live r (Ok (Return o, s')).
Proof.
  intros Hok Hm Hp Hs Hb. exists (Return o), s', p', live. split_and!; [done|done|]. left. exists []. split_and!; [done| |done]. rewrite Hm. by apply put_bytes_nil.
Qed.

Lemma file_of_bounds (f : F) T w fd sec pos l : fsys_world f T w → file_of w fd = Some (sec, pos, l) → 0 ≤ pos ≤ INT_MAX ∧ Z.of_nat (length l) ≤ INT_MAX.
Proof using WorldLaws0.
  intros Hw Hof. pose proof (file_of_table f T w fd Hw) as H. destruct (T !! fd) as [g|]; [|congruence].
  destruct H as (sec' & l' & E & _ & _ & Hp & Hl). rewrite Hof in E. by injection E as -> -> ->.
Qed.

Lemma u32_off n : 0 ≤ n ≤ INT_MAX → u32 n = n.
Proof. unfold INT_MAX. intros H. apply u32_small. unfold is_u32. lia. Qed.

(** The requests with a name. *)
Lemma create_request esp a name size s p live :
  proc_ok s p live → words (umem s) (esp + 4) [a; size] → string_at (umem s) a name → size ≤ INT_MAX →
  answered s p live (RCreate name size)
    (with_string tname esp 2 (λ args file, bindY (word args 1) (λ size, create file (u32 size))) eax s).
Proof using UserLaws0 HeapLaws0 Hname WorldLaws0.
  intros Hp Hw Hstr Hfit. apply (string_request esp a [size] name); try done; [simpl; lia|]. pose proof Hstr as (_ & H0 & _).
  assert (is_u32 size) as Hsz by by destruct (Hw 1%nat size eq_refl). assert (is_s32 size) by (unfold is_u32, is_s32, INT_MAX in *; lia). assert (0 ≤ size) by by destruct Hsz.
  intros s1 live1 q Hp1. destruct (proc_call s1 p live1 (Create name size) Hp1) as (r & x & w & Hc & Hs & Hp2); [done|done|].
  destruct (create_calls s1 name size r x H0) as (b & -> & E); [by rewrite s32_small|].
  exists (Z.b2z b), (with_files s1 x), (set_world p w). split_and!; [|done|done|].
  - change ((λ v, Word (s32 v)) <$> [size]) with [Word (s32 size)]. erewrite bindY_Return by done. by rewrite u32_s32.
  - exists b, w. split_and!; try done. unfold eax. by destruct b.
Qed.

Lemma remove_request esp a name s p live :
  proc_ok s p live → words (umem s) (esp + 4) [a] → string_at (umem s) a name → answered s p live (RRemove name) (with_string tname esp 1 (λ _, remove) eax s).
Proof using UserLaws0 HeapLaws0 Hname WorldLaws0.
  intros Hp Hw Hstr. apply (string_request esp a [] name); try done; [simpl; lia|]. pose proof Hstr as (_ & H0 & _).
  intros s1 live1 q Hp1. destruct (proc_call s1 p live1 (Remove name) Hp1) as (r & x & w & Hc & Hs & Hp2); [done|done|].
  destruct (remove_calls s1 name r x H0 Hc) as (b & -> & E).
  exists (Z.b2z b), (with_files s1 x), (set_world p w). split_and!; [done|done|done|]. exists b, w. split_and!; try done. unfold eax. by destruct b.
Qed.

Lemma open_request esp a name s p live :
  proc_ok s p live → words (umem s) (esp + 4) [a] → string_at (umem s) a name → pnext p < FD_END →
  answered s p live (ROpen name) (with_string tname esp 1 (λ _, open) eax s).
Proof using UserLaws0 HeapLaws0 Hname WorldLaws0.
  intros Hp Hw Hstr Hfit. apply (string_request esp a [] name); try done; [simpl; lia|]. pose proof Hstr as (_ & H0 & _).
  intros s1 live1 q Hp1. destruct (proc_open s1 p live1 name Hp1 H0 Hfit) as (b & x & w & Hc & Hs & Hp2). pose proof (po_next _ _ _ Hp1) as Hn. pose proof (po_fds _ _ _ Hp1) as Hf.
  destruct (open_calls s1 name _ x H0 Hf ltac:(lia) (po_lock _ _ _ Hp1) Hc) as (b' & [= <-] & E). destruct b.
  - do 3 eexists. split_and!; [exact E|done|exact Hp2|]. exists true, w. split_and!; try done. unfold eax. rewrite u32_small; [by rewrite Hn|].
    destruct Hf as [Hf _]. rewrite FD_END_val in Hf. unfold is_u32. lia.
  - do 3 eexists. split_and!; [exact E|done|exact Hp2|]. by exists false, w.
Qed.

Lemma exec_request esp a cmd_line s p live :
  proc_ok s p live → words (umem s) (esp + 4) [a] → string_at (umem s) a cmd_line → answered s p live (RExec cmd_line) (sys_exec tname esp s).
Proof using UserLaws0 HeapLaws0 Hname.
  intros Hp Hw Hstr. destruct (get_words_ok [a] esp s (po_mem _ _ _ Hp) Hw) as (m1 & E & H1); [simpl; lia|].
  apply (answered_after s m1); [done|]. unfold sys_exec. rewrite (bindY_Return _ _ _ _ _ E). assert (is_u32 a) as Ha by by apply words_cons in Hw as [(? & _) _].
  assert (string_at m1 a cmd_line) as Hstr1 by (destruct Hstr as (? & ? & ?); split_and!; try done; by eapply same_bytes).
  assert (proc_ok (set_umem s m1) p live) as Hp1 by (destruct Hp; split; try done; apply H1).
  destruct (get_strings_ok (set_umem s m1) live a cmd_line [] (su_ok _ _ H1) Ha Hstr1 (po_heap _ _ _ Hp1)) as [(s' & h & E2 & He & Ek)|(q & m2 & h' & E2 & H2 & Hq & Hlive & Hh')].
  - destruct (ended_dies _ p live (-1) s' Hp1 He) as (p' & Hp' & Hd & Hs). exists (Exits (-1)), s', p', live. split_and!; [by apply bindY_Exits|done|]. right. by exists cmd_line, h.
  - cbn [fmap list_fmap]. rewrite (bindY_Return _ _ _ _ _ E2). erewrite bindY_Return by apply block_head. rewrite cstring_ok by by destruct Hstr as (_ & ? & _).
    exists (Return (Execs cmd_line [Str q (cmd_line ++ [0])])), (set_heap (set_umem s m2) h'), p, (<[q := Z.of_nat (length cmd_line) + 1]> live).
    split_and!; [done|apply (proc_quiet s p live); [done|apply H2|done]|]. left. exists []. split_and!; [by split_and!; [exists q|..]|by apply same_put_nil|].
    simpl. split; [done|]. rewrite length_app. simpl. by rewrite Nat2Z.inj_add.
Qed.

(** The requests with one word. *)
Lemma filesize_request fd s p live :
  proc_ok s p live → answered s p live (RFilesize fd) (bindY (filesize fd) (λ v, retY (eax v)) s).
Proof using WorldLaws0.
  intros Hp. destruct (proc_call s p live (Length fd) Hp) as (r & x & w & Hc & Hs & Hp2); [done|done|].
  rewrite (bindY_Return _ _ _ _ _ (filesize_calls s fd r x (po_fds _ _ _ Hp) Hc)). apply (answered_return s p live _ _ _ (set_world p w)); [apply Hp|done|done| |done].
  exists r, w. split_and!; try done. unfold eax. cbn [spec] in Hs. destruct (file_of (pfiles p) fd) as [[[sec pos] l]|] eqn:E; destruct Hs as [-> _]; [|done].
  destruct (file_of_bounds _ _ _ _ _ _ _ (po_files _ _ _ Hp) E) as [_ Hl]. by rewrite u32_off by lia.
Qed.

Lemma close_request fd s p live : proc_ok s p live → answered s p live (RClose fd) (bindY (close fd) (λ _, retY NoEax) s).
Proof using WorldLaws0.
  intros Hp. destruct (proc_call s p live (Close fd) Hp) as (r & x & w & Hc & Hs & Hp2); [done|done|].
  rewrite (bindY_Return _ _ _ _ _ (close_calls s fd r x (po_fds _ _ _ Hp) Hc)). apply (answered_return s p live _ _ _ (set_world p w)); [apply Hp|done|done| |done].
  by exists r, w.
Qed.

Lemma exit_request status s p live :
  proc_ok s p live → is_s32 status → answered s p live (RExit status) (bindY (exit (A := unit) tname status) (λ _, retY NoEax) s).
Proof using Hname.
  intros Hp Hst. destruct (exit_call_ok (A := unit) status s (po_mem _ _ _ Hp) Hst) as (s' & E & He). rewrite (bindY_Exits _ _ _ _ _ E).
  destruct (ended_dies s p live status s' Hp He) as (p' & Hp' & Hd & Hs). exists (Exits status), s', p', live. split_and!; [done|done|]. left.
  exists []. split_and!; [done|by apply same_put_nil|done].
Qed.

Lemma tell_request fd s p live : proc_ok s p live → answered s p live (RTell fd) (bindY (tell tname fd) (λ v, retY (eax v)) s).
Proof using Hname WorldLaws0.
  intros Hp. unfold tell. pose proof (get_file_ok s fd (po_fds _ _ _ Hp)) as Eg. pose proof (file_of_table _ _ _ fd (po_files _ _ _ Hp)) as Hof.
  destruct (fd_table s !! fd) as [f|] eqn:E.
  - destruct Hof as (sec & l & Hof & _ & _ & Hpos & _). rewrite (bindY_Return _ _ _ (u32 (fpos f)) s) by by erewrite bindY_Return by exact Eg.
    apply (answered_return s p live _ _ _ p); [apply Hp|done|done| |done]. split; [done|]. rewrite Hof. split; [|done]. unfold eax. by rewrite !u32_off by (rewrite ?u32_off; lia).
  - destruct (exit_call_ok (A := Z) (-1) s (po_mem _ _ _ Hp)) as (s' & Ex & He); [done|]. rewrite (bindY_Exits _ _ _ (-1) s') by by erewrite bindY_Return by exact Eg.
    destruct (ended_dies s p live (-1) s' Hp He) as (p' & Hp' & Hd & Hs). exists (Exits (-1)), s', p', live. split_and!; [done|done|]. left.
    exists []. split_and!; [split; [done|by rewrite Hof]|by apply same_put_nil|done].
Qed.

(** The requests with more words. *)
Lemma words3_ok esp v1 v2 v3 s :
  user_ok (umem s) → words (umem s) (esp + 4) [v1; v2; v3] →
  ∃ m', get_words tname esp 3 s = Ok (Return [Word (s32 v1); Word (s32 v2); Word (s32 v3)], set_umem s m') ∧ same_user (umem s) m' ∧ is_u32 v2 ∧ is_u32 v3.
Proof using UserLaws0.
  intros Hok Hw. destruct (get_words_ok [v1; v2; v3] esp s Hok Hw) as (m1 & E & H1); [simpl; lia|]. exists m1. split_and!; [done|done|..].
  - by destruct (Hw 1%nat v2 eq_refl).
  - by destruct (Hw 2%nat v3 eq_refl).
Qed.

Lemma proc_mem s p live m : proc_ok s p live → user_ok m → proc_ok (set_umem s m) p live.
Proof. intros [] ?. by split. Qed.

Lemma read_stdin_ok s a n :
  user_ok (umem s) → file_lock s = false → 0 ≤ n ≤ Z.of_nat (length (keys s)) → user_room (umem s) a n → Forall is_byte (keys s) → in_range a n ∨ n = 0 →
  ∃ m', read 0 a n s = Ok (Return (s32 n), set_keys (set_umem s m') (drop (Z.to_nat n) (keys s))) ∧ put_bytes (umem s) m' a (take (Z.to_nat n) (keys s)).
Proof using UserLaws0.
  intros Hok Hlock Hn Hroom Hb Hr. destruct (read_keys_ok (set_lock s true) a n Hok Hn Hroom Hb Hr) as (m' & E & Hput). exists m'. split; [|done].
  unfold read. rewrite (bindY_Return _ _ s tt (set_lock s true)) by (unfold lock_acquire; by rewrite Hlock). cbn [Z.eqb].
  rewrite (bindY_Return _ _ _ _ _ E). unfold lock_release, bindY. mstep. destruct s; simpl in *; by subst.
Qed.

Lemma read_request esp v a n s p live :
  proc_ok s p live → words (umem s) (esp + 4) [v; a; n] → user_room (umem s) a n → in_range a n ∨ n = 0 →
  (s32 v = 0 → n ≤ Z.of_nat (length (pinput p))) → answered s p live (RRead (s32 v) a n) (sys_read tname esp s).
Proof using UserLaws0 WorldLaws0.
  intros Hp Hw Hroom Hr Hkeys. destruct (words3_ok esp v a n s (po_mem _ _ _ Hp) Hw) as (m1 & E & H1 & Ha & Hn). apply (answered_after s m1); [done|].
  unfold sys_read. rewrite (bindY_Return _ _ _ _ _ E). do 3 erewrite bindY_Return by done. rewrite !u32_s32 by done. pose proof Hn as [Hn0 _].
  assert (proc_ok (set_umem s m1) p live) as Hp1 by (apply proc_mem; [done|apply H1]). assert (user_room m1 a n) as Hroom1 by by eapply same_room.
  set (s1 := set_umem s m1) in *. rewrite (bindY_Return _ _ _ _ _ (check_buffer_ok s1 a n Hn0 Hr)). pose proof Hp1 as [Hm Hfw Hf Hlock Hnx Ho Hi Hk Hh].
  destruct (Z.eqb_spec (s32 v) 0) as [Hz|Hz].
  - destruct (read_stdin_ok s1 a n Hm Hlock) as (m2 & E2 & Hput); try done; [rewrite Hi; split; [lia|by apply Hkeys]|by rewrite Hi|]. rewrite Hz. rewrite (bindY_Return _ _ _ _ _ E2).
    exists (Return (Eax n)), (set_keys (set_umem s1 m2) (drop (Z.to_nat n) (keys s1))), (Proc (pfiles p) (pnext p) (poutput p) (drop (Z.to_nat n) (pinput p))), live. split_and!.
    + unfold eax, retY. by rewrite u32_s32.
    + split; try done; [apply Hput|by rewrite <-Hi|by apply Forall_drop].
    + left. exists (take (Z.to_nat n) (pinput p)). split_and!; [done|by rewrite <-Hi|done].
  - destruct (read_file_ok s1 (pfiles p) (s32 v) a n Hf Hz Hlock Hm Hfw Hn0 Hroom1 Hr) as (r & l & m2 & x & w & E2 & El & Hput & Hs & Hw2 & Hx & Hlen).
    rewrite (bindY_Return _ _ _ _ _ E2). pose proof (with_files_ok s1 p live x w Hp1 Hw2 (λ h, proj1 (Hx h))) as Hp2.
    eexists _, _, (set_world p w), live. split_and!; [done|by apply proc_mem; [|apply Hput]|]. left. exists l. split_and!; [|done|done]. cbn [serves].
    rewrite (proj2 (Z.eqb_neq _ 0)) by done. exists r, w. split_and!; try done. unfold eax. destruct r; try done. subst l. by rewrite u32_off by lia.
Qed.

(** The data of a write, in a block of the kernel. *)
Lemma write_copy_ok s live a data :
  user_ok (umem s) → user_bytes (umem s) a data → in_range a (Z.of_nat (length data)) ∨ data = [] → heap_holds (kheap s) live →
  (data = [] ∨ ∃ q h, kmalloc (Z.of_nat (length data)) (kheap s) = Ok (q, h) ∧ q ≠ NULL) →
  ∃ q m' h', get_user_string_l a (Z.of_nat (length data)) s = Ok (Return (q, data), set_heap (set_umem s m') h') ∧ same_user (umem s) m' ∧
    (if q =? NULL then heap_holds h' live else live !! q = None ∧ heap_holds h' (<[q := Z.of_nat (length data)]> live)).
Proof using UserLaws0 HeapLaws0.
  intros Hok Hb Hr Hh Hfit. unfold get_user_string_l. destruct (malloc_block_ok (Z.of_nat (length data)) s live Hh) as (q & h' & E & Ek & Hq).
  { destruct Hr as [[??]| ->]; unfold MALLOC_MAX, PHYS_BASE, PGSIZE in *; simpl; lia. }
  rewrite (bindY_Return _ _ _ _ _ E). destruct (q =? NULL) eqn:Eq.
  - apply Z.eqb_eq in Eq as ->. destruct Hfit as [->|(q' & h & E' & Hq')]; [|rewrite Ek in E'; by injection E' as <- _].
    exists NULL, (umem s), h'. split_and!; [by destruct s|by apply same_user_refl|done].
  - destruct (copy_in_ok data a (umem s) Hok Hb Hr) as (m1 & E1 & H1). erewrite bindY_Return by by apply onUser_ok.
    exists q, m1, h'. rewrite Eq. split_and!; [by destruct s|done|by destruct Hq as (_ & ? & _)|by destruct Hq as (_ & _ & ?)].
Qed.

Lemma free_copy_ok q n s live :
  (if q =? NULL then heap_holds (kheap s) live else live !! q = None ∧ heap_holds (kheap s) (<[q := n]> live)) →
  ∃ h', free q s = Ok (Return tt, set_heap s h') ∧ heap_holds h' live.
Proof using HeapLaws0.
  destruct (Z.eqb_spec q NULL) as [->|]; [|intros [Hq Hh]; by eapply free_block_ok]. intros Hh. exists (kheap s). unfold free. by rewrite kfree_null.
Qed.

Lemma user_bytes_range m a l : user_ok m → user_bytes m a l → Forall is_byte l.
Proof using UserLaws0. intros Hok Hb. apply Forall_lookup_2. intros i c Hc. by apply (user_range_law (a + Z.of_nat i) c m Hok), Hb. Qed.

(** The write itself. *)
Lemma write_ok s p live fd data :
  proc_ok s p live → Forall is_byte data → Z.of_nat (length data) ≤ INT_MAX →
  ∃ n s' p', write fd data (Z.of_nat (length data)) s = Ok (Return n, s') ∧ proc_ok s' p' live ∧ umem s' = umem s ∧ kheap s' = kheap s ∧
    serves tname p (RWrite fd data) (Return (eax n)) [] p'.
Proof using WorldLaws0.
  intros Hp Hb Hlen. pose proof Hp as [Hm Hfw Hf Hlock Hnx Ho Hi Hk Hh]. destruct (Z.eqb_spec fd 1) as [->|Hfd].
  - exists (Z.of_nat (length data)), (set_console s (console s ++ data)), (Proc (pfiles p) (pnext p) (poutput p ++ data) (pinput p)). split_and!; try done.
    + unfold write. rewrite (bindY_Return _ _ s tt (set_lock s true)) by (unfold lock_acquire; by rewrite Hlock). cbn [Z.eqb Pos.eqb]. unfold putbuf, bindY.
      rewrite (proj2 (Z.leb_le _ _)) by lia. mstep. rewrite Nat2Z.id, firstn_all. rewrite s32_small by (unfold is_s32, INT_MAX in *; lia). destruct s; simpl in *; by subst.
    + split; try done. simpl. by rewrite Ho.
    + split_and!; try done. unfold eax. by rewrite u32_off by lia.
  - destruct (proc_call s p live (Write fd data) Hp) as (r & x & w & Hc & Hs & Hp2); [done|done|].
    eexists _, _, _. split_and!; [exact (write_calls s fd data r x Hf Hfd Hlock Hlen Hc)|exact Hp2|done|done|]. cbn [serves]. rewrite (proj2 (Z.eqb_neq _ 1)) by done.
    exists r, w. split_and!; try done. unfold eax. cbn [spec] in Hs. destruct (file_of (pfiles p) fd) as [[[sec pos] l]|] eqn:E; [|by destruct Hs as [-> _]].
    destruct (file_of_bounds _ _ _ _ _ _ _ Hfw E) as [Hpos Hl]. destruct Hs as [-> _].
    set (k := Z.max 0 _). assert (0 ≤ k ≤ INT_MAX) as Hkk by lia. clearbody k. rewrite (u32_off k), s32_small, (u32_off k) by (unfold is_s32, INT_MAX in *; lia). done.
Qed.

Lemma write_request esp v a data s p live :
  proc_ok s p live → words (umem s) (esp + 4) [v; a; Z.of_nat (length data)] → user_bytes (umem s) a data → in_range a (Z.of_nat (length data)) ∨ data = [] →
  fits s p (RWrite (s32 v) data) → answered s p live (RWrite (s32 v) data) (sys_write tname esp s).
Proof using UserLaws0 HeapLaws0 WorldLaws0.
  intros Hp Hw Hb Hr [Hfit Hlen]. destruct (words3_ok esp v a _ s (po_mem _ _ _ Hp) Hw) as (m1 & E & H1 & Ha & Hn). apply (answered_after s m1); [done|].
  unfold sys_write. rewrite (bindY_Return _ _ _ _ _ E). do 3 erewrite bindY_Return by done. rewrite !u32_s32 by done.
  assert (proc_ok (set_umem s m1) p live) as Hp1 by (apply proc_mem; [done|apply H1]). assert (user_bytes m1 a data) as Hb1 by by eapply same_bytes.
  set (s1 := set_umem s m1) in *. assert (in_range a (Z.of_nat (length data)) ∨ Z.of_nat (length data) = 0) as Hr1 by (destruct Hr as [?| ->]; [by left|by right]).
  rewrite (bindY_Return _ _ _ _ _ (check_buffer_ok s1 a (Z.of_nat (length data)) (Nat2Z.is_nonneg _) Hr1)).
  destruct (write_copy_ok s1 live a data (po_mem _ _ _ Hp1) Hb1 Hr (po_heap _ _ _ Hp1) Hfit) as (q & m2 & h2 & E2 & H2 & Hq). rewrite (bindY_Return _ _ _ _ _ E2). cbn iota.
  set (live2 := if q =? NULL then live else <[q := Z.of_nat (length data)]> live). assert (heap_holds h2 live2) as Hh2 by (unfold live2; destruct (q =? NULL); tauto).
  pose proof (proc_quiet s1 p live live2 m2 h2 Hp1 (su_ok _ _ H2) Hh2) as Hp2.
  destruct (write_ok _ p live2 (s32 v) data Hp2 (user_bytes_range m1 a data (po_mem _ _ _ Hp1) Hb1) Hlen) as (n & s3 & p' & E3 & Hp3 & Hm3 & Hk3 & Hs). rewrite (bindY_Return _ _ _ _ _ E3).
  destruct (free_copy_ok q (Z.of_nat (length data)) s3 live) as (h4 & E4 & Hh4); [by rewrite Hk3|]. rewrite (bindY_Return _ _ _ _ _ E4).
  exists (Return (eax n)), (set_heap s3 h4), p', live. split_and!; [done|destruct Hp3; by split|]. left. exists []. split_and!; [done| |done]. simpl. rewrite Hm3. by apply same_put_nil.
Qed.

Lemma seek_request esp v pos s p live :
  proc_ok s p live → words (umem s) (esp + 4) [v; pos] → pos ≤ INT_MAX →
  answered s p live (RSeek (s32 v) pos)
    (bindY (get_words tname esp 2) (λ args, bindY (word args 0) (λ fd, bindY (word args 1) (λ position, bindY (seek fd (u32 position)) (λ _, retY NoEax)))) s).
Proof using UserLaws0 WorldLaws0.
  intros Hp Hw Hfit. destruct (get_words_ok [v; pos] esp s (po_mem _ _ _ Hp) Hw) as (m1 & E & H1); [simpl; lia|]. apply (answered_after s m1); [done|].
  assert (is_u32 pos) as Hpos by by destruct (Hw 1%nat pos eq_refl). rewrite (bindY_Return _ _ _ _ _ E). do 2 erewrite bindY_Return by done. rewrite u32_s32 by done.
  assert (proc_ok (set_umem s m1) p live) as Hp1 by (apply proc_mem; [done|apply H1]). assert (s32 pos = pos) as Es by (apply s32_small; unfold is_u32, is_s32, INT_MAX in *; lia).
  destruct (proc_call _ p live (Seek (s32 v) pos) Hp1) as (r & x & w & Hc & Hs & Hp2); [by destruct Hpos|done|].
  erewrite bindY_Return by (apply (seek_calls _ (s32 v) pos r x (po_fds _ _ _ Hp1)); by rewrite Es).
  apply (answered_return _ p live _ _ _ (set_world p w)); [apply H1|done|done| |done]. by exists r, w.
Qed.

(** The number of the call. *)
Lemma handler_dispatch esp n vs s :
  user_ok (umem s) → words (umem s) esp (n :: vs) →
  ∃ m', same_user (umem s) m' ∧ words m' (esp + 4) vs ∧ syscall_handler tname esp s = dispatch tname esp (s32 n) (set_umem s m').
Proof using UserLaws0.
  intros Hok Hw. apply words_cons in Hw as [(Hu & Hword & Hr) Hw]. destruct (get_user32_ok _ _ _ Hok Hword Hu) as (m1 & E & H1).
  exists m1. split_and!; [done|by eapply same_words|]. unfold syscall_handler. rewrite (bindY_Return _ _ _ _ _ (check_address4_ok s esp Hr)).
  by erewrite bindY_Return by (by apply onUser_ok).
Qed.

Lemma same_asks m m' esp r : same_user m m' → asks m esp r → asks m' esp r.
Proof.
  intros Hs. assert (∀ a l, words m a l → words m' a l) as Hw by (intros; by eapply same_words). assert (∀ a l, user_bytes m a l → user_bytes m' a l) as Hb by (intros; by eapply same_bytes).
  assert (∀ a n, user_room m a n → user_room m' a n) as Hr by (intros; by eapply same_room). assert (∀ a l, string_at m a l → string_at m' a l) as Hst by (intros a l (? & ? & ?); by split_and!; [apply Hb|..]).
  destruct r; simpl; naive_solver.
Qed.

Lemma asks_number m esp r : asks m esp r → ∃ vs, words m esp (number_of r :: vs).
Proof. destruct r; simpl; intros; destruct_and?; naive_solver. Qed.

(** A request after its number has been read. *)
Lemma dispatch_ok s p live esp r :
  proc_ok s p live → asks (umem s) esp r → fits s p r → answered s p live r (dispatch tname esp (number_of r) s).
Proof using UserLaws0 HeapLaws0 Hname WorldLaws0.
  intros Hp Ha Hf. assert (∀ n vs, words (umem s) esp (n :: vs) → words (umem s) (esp + 4) vs) as Htl by (intros n vs [_ ?]%words_cons; done).
  destruct r; cbn [asks fits number_of] in *.
  - exists PowersOff, s, p, live. split_and!; [done|done|]. left. exists []. split_and!; [done|apply put_bytes_nil, Hp|done].
  - destruct Ha as (v & Hw%Htl & ->). apply (word_request esp v); [done..|]. intros s1 Hp1. apply exit_request; [done|apply s32_range].
  - destruct Ha as (a & Hw%Htl & Hst). by apply (exec_request esp a).
  - destruct Ha as (v & Hw%Htl & ->). apply (word_request esp v); [done..|]. intros s1 Hp1. apply (answered_return _ _ _ _ _ _ p); try done. apply Hp1.
  - destruct Ha as (a & Hw%Htl & Hst). by apply (create_request esp a).
  - destruct Ha as (a & Hw%Htl & Hst). by apply (remove_request esp a).
  - destruct Ha as (a & Hw%Htl & Hst). by apply (open_request esp a).
  - destruct Ha as (v & Hw%Htl & ->). apply (word_request esp v); [done..|]. intros s1 Hp1. by apply filesize_request.
  - destruct Ha as (v & Hw%Htl & -> & Hroom & Hr). by apply read_request.
  - destruct Ha as (v & a & Hw%Htl & -> & Hb & Hr). by apply (write_request esp v a).
  - destruct Ha as (v & Hw%Htl & ->). by apply seek_request.
  - destruct Ha as (v & Hw%Htl & ->). apply (word_request esp v); [done..|]. intros s1 Hp1. by apply tell_request.
  - destruct Ha as (v & Hw%Htl & ->). apply (word_request esp v); [done..|]. intros s1 Hp1. by apply close_request.
Qed.

(** ** Bad pointers *)

(** The number of arguments of each call. *)
Definition arity (n : Z) : Z :=
  match n with 1 | 2 | 3 | 5 | 6 | 7 | 11 | 12 => 1 | 4 | 10 => 2 | 8 | 9 => 3 | _ => 0 end.

(** A call that uses an address outside the memory of user processes: for its number, for one
    of its arguments, in a string or in a buffer; or that has no such number. *)
Inductive bad_call m (esp : Z) : Prop :=
  | bad_stack : is_u32 esp → ¬ in_range esp 4 → bad_call m esp
  | bad_number n : words m esp [n] → ¬ 0 ≤ s32 n ≤ 12 → bad_call m esp
  | bad_argument n vs :
      words m esp (n :: vs) → 0 ≤ n ≤ 12 → Z.of_nat (length vs) < arity n →
      ¬ in_range (u32 (esp + 4 * (Z.of_nat (length vs) + 1))) 4 → bad_call m esp
  | bad_string n a vs l :
      words m esp (n :: a :: vs) → n ∈ [2; 4; 5; 6] → Z.of_nat (S (length vs)) = arity n →
      user_bytes m a l → 0 ∉ l → in_range a (Z.of_nat (length l)) ∨ l = [] → user_address (a + Z.of_nat (length l)) = false → bad_call m esp
  | bad_buffer n fd a size :
      words m esp [n; fd; a; size] → n ∈ [8; 9] → 0 < size → ¬ in_range a size → bad_call m esp.

Ltac case_number Hin := repeat (apply elem_of_cons in Hin as [->|Hin]; [|]); [..|by apply elem_of_nil in Hin].

Lemma arity_bounds n : 0 ≤ n ≤ 12 → 0 < arity n → 1 ≤ n ≤ 12 ∧ arity n ≤ 3.
Proof.
  intros Hn. assert (n ∈ seqZ 0 13) as Hin by (apply elem_of_seqZ; lia). change (seqZ 0 13) with [0; 1; 2; 3; 4; 5; 6; 7; 8; 9; 10; 11; 12] in Hin.
  case_number Hin; done.
Qed.

Lemma dispatch_words esp n s s' :
  1 ≤ n ≤ 12 → get_words tname esp (arity n) s = Ok (Exits (-1), s') → dispatch tname esp n s = Ok (Exits (-1), s').
Proof.
  intros Hn E. assert (n ∈ seqZ 1 12) as Hin by (apply elem_of_seqZ; lia). change (seqZ 1 12) with [1; 2; 3; 4; 5; 6; 7; 8; 9; 10; 11; 12] in Hin.
  case_number Hin; apply bindY_Exits; exact E.
Qed.

Lemma dispatch_strings esp n args s s1 s' :
  n ∈ [2; 4; 5; 6] → get_words tname esp (arity n) s = Ok (Return args, s1) → get_user_strings tname args 8 s1 = Ok (Exits (-1), s') →
  dispatch tname esp n s = Ok (Exits (-1), s').
Proof.
  intros Hin E1 E2. case_number Hin; refine (eq_trans (bindY_Return _ _ _ _ _ E1) _); apply bindY_Exits; exact E2.
Qed.

Lemma dispatch_buffer esp n fd a size s s1 s' :
  n ∈ [8; 9] → get_words tname esp 3 s = Ok (Return [Word fd; Word a; Word size], s1) →
  check_user_string_l tname (u32 a) (u32 size) s1 = Ok (Exits (-1), s') → dispatch tname esp n s = Ok (Exits (-1), s').
Proof.
  intros Hin E1 E2. case_number Hin; refine (eq_trans (bindY_Return _ _ _ _ _ E1) _); do 3 erewrite bindY_Return by done; apply bindY_Exits; exact E2.
Qed.

Lemma dispatch_unknown esp n s : ¬ 0 ≤ n ≤ 12 → dispatch tname esp n s = exit (A := answer) tname (-1) s.
Proof.
  intros Hn. destruct n as [|n|n]; [lia| |done].
  do 4 (destruct n as [n|n|]; [| |lia || done]); simpl; lia || done.
Qed.

Lemma words_small m esp n vs : words m esp (n :: vs) → 0 ≤ n ≤ 12 → s32 n = n.
Proof. intros _ Hn. apply s32_small. unfold is_s32. lia. Qed.

Lemma syscall_answered s p live esp r :
  proc_ok s p live → asks (umem s) esp r → fits s p r → answered s p live r (syscall_handler tname esp s).
Proof using UserLaws0 HeapLaws0 Hname WorldLaws0.
  intros Hp Ha Hf. destruct (asks_number _ _ _ Ha) as [vs Hw]. destruct (handler_dispatch esp _ vs s (po_mem _ _ _ Hp) Hw) as (m1 & H1 & _ & ->).
  rewrite s32_small by (destruct r; done). apply (answered_after s m1); [done|]. apply dispatch_ok; [by apply proc_mem; [|apply H1]|by eapply same_asks|by destruct r].
Qed.

(** C7. A system call that a process makes with words, strings and buffers in its memory returns
    as specified, under the conditions of [proc_ok] and [fits]: no other process has files open,
    no allocation inside the file system fails, the size of a new file, a position and the length
    of a write are below 2^31, the table of descriptors has room, there is a block for the data
    of a write, and the keys of a read have been typed. The file calls do to the files of the
    process what an abstract volume says, with the descriptor of a new file the next one, reads
    fill the buffer and change no other byte of the process, a halt stops the machine, an exit and
    a tell without a file end the process with the message that the code prints, which is not the
    one of the tests, standard input and output are the keyboard and the console. If there is no
    block for a string the process ends. After the call the lock is free, the kernel keeps no
    block, and the invariant of the process holds again. *)
Theorem syscall_refines_spec s p live esp r :
  proc_ok s p live → asks (umem s) esp r → fits s p r → answered s p live r (syscall_handler tname esp s).
Proof using UserLaws0 HeapLaws0 Hname WorldLaws0. apply syscall_answered. Qed.

Lemma bad_call_exits s esp :
  user_ok (umem s) → bad_call (umem s) esp → ∃ s', syscall_handler tname esp s = Ok (Exits (-1), s') ∧ ended s (-1) s'.
Proof using UserLaws0 Hname.
  intros Hok Hbad. destruct Hbad as [Hu Hr|n Hw Hn|n vs Hw Hn Hl Hr|n a vs l Hw Hn Hl Hb H0 Hr Hx|n fd a size Hw Hn Hs Hr].
  - destruct (check_address4_bad s esp Hok Hu Hr) as (s' & E & He). exists s'. split; [by apply bindY_Exits|done].
  - destruct (handler_dispatch esp n [] s Hok Hw) as (m1 & H1 & _ & ->). rewrite dispatch_unknown by done.
    destruct (exit_call_ok (A := answer) (-1) (set_umem s m1) (su_ok _ _ H1)) as (s' & E & He); [done|]. exists s'. split; [done|by eapply ended_after].
  - destruct (handler_dispatch esp n vs s Hok Hw) as (m1 & H1 & Hw1 & ->). rewrite (words_small _ _ _ _ Hw Hn).
    assert (1 ≤ n ≤ 12 ∧ arity n ≤ 3) as [Hn1 Ha] by (apply arity_bounds; lia).
    destruct (get_words_bad vs (arity n) esp (set_umem s m1) (su_ok _ _ H1) Hw1) as (s' & E & He); [lia|done|]. exists s'. split; [by apply dispatch_words|by eapply ended_after].
  - destruct (handler_dispatch esp n (a :: vs) s Hok Hw) as (m1 & H1 & Hw1 & ->). assert (0 ≤ n ≤ 12 ∧ arity n ≤ 2) as [Hn1 Ha] by (case_number Hn; done).
    rewrite (words_small _ _ _ _ Hw Hn1). destruct (get_words_ok (a :: vs) esp (set_umem s m1) (su_ok _ _ H1) Hw1) as (m2 & E & H2); [simpl; lia|].
    pose proof (same_user_trans _ _ _ H1 H2) as H12. assert (is_u32 a) as Ha32 by by apply words_cons in Hw1 as [(? & _) _].
    destruct (get_strings_bad (set_umem s m2) a l ((λ v, Word (s32 v)) <$> vs) (su_ok _ _ H12) Ha32) as (s' & E2 & He); try done; [by eapply same_bytes|].
    exists s'. split; [|by eapply (ended_after s m2)]. eapply dispatch_strings; [done| |exact E2]. rewrite <-Hl. exact E.
  - destruct (handler_dispatch esp n [fd; a; size] s Hok Hw) as (m1 & H1 & Hw1 & ->). assert (0 ≤ n ≤ 12) as Hn1 by (case_number Hn; done).
    rewrite (words_small _ _ _ _ Hw Hn1). destruct (words3_ok esp fd a size (set_umem s m1) (su_ok _ _ H1) Hw1) as (m2 & E & H2 & Ha & Hsz). pose proof (same_user_trans _ _ _ H1 H2) as H12.
    destruct (check_buffer_bad (set_umem s m2) a size (su_ok _ _ H12) Ha Hs Hr) as (s' & E2 & He). exists s'. split; [|by eapply (ended_after s m2)].
    eapply dispatch_buffer; [done|exact E|]. by rewrite !u32_s32.
Qed.

(** C8. A system call whose number, arguments, string or buffer reaches an address outside the
    memory of user processes, or whose number is unknown, ends the process with status -1: up to
    [thread_exit] the message of the code is printed, which reads [process NAME: exited with -1]
    and not [NAME: exit(-1)] as the tests have it, and no file, no descriptor, no lock and no byte
    of memory has changed. *)
Theorem syscall_kills_bad_pointers s esp :
  user_ok (umem s) → bad_call (umem s) esp → ∃ s', syscall_handler tname esp s = Ok (Exits (-1), s') ∧ ended s (-1) s'.
Proof using UserLaws0 Hname. apply bad_call_exits. Qed.

End proof.

(** ** A process that creates a file *)

(** A memory in which what is mapped can be written. *)
#[local] Instance flat_mem : UserMem (gmap Z Z) := {
  user_byte m a := m !! a;
  user_writable m a := bool_decide (is_Some (m !! a));
  get_user a m := match m !! a with Some v => Ok (v, m) | None => Fault BadAccess end;
  put_user a v m := if bool_decide (is_Some (m !! a)) then Ok (<[a := v]> m) else Fault BadAccess;
}.

#[local] Instance flat_inv : UserInv (gmap Z Z) := map_Forall (λ a v, 0 ≤ a < PHYS_BASE ∧ 0 ≤ v < 256).

Lemma flat_laws : UserLaws (gmap Z Z).
Proof.
  split.
  - intros a m Hok Ha. cbn [user_byte get_user flat_mem]. destruct (m !! a) as [v|]; [|done]. exists m. split; [done|]. by apply same_user_refl.
  - intros a v m Hok Ha Hv. cbn [user_writable put_user flat_mem]. case_bool_decide as Hs; [|done]. eexists. split; [done|].
    split; [by apply map_Forall_insert_2| |]; intros b; cbn [user_byte user_writable flat_mem].
    + case_bool_decide as Hb; [subst b; apply lookup_insert_eq|by rewrite lookup_insert_ne].
    + apply bool_decide_ext. destruct (decide (b = a)) as [->|]; [by rewrite lookup_insert_eq|by rewrite lookup_insert_ne].
  - intros a v m Hok Hv. exact (Hok a v Hv).
  - intros a m Hok Hw. by apply bool_decide_eq_true in Hw.
Qed.

Definition demo_image (l : list Z) : gmap Z Z := list_to_map (zip (seqZ 134512640 (Z.of_nat (length l))) l).

Definition demo_name : list Z := bytes "init".
Definition demo_create : gmap Z Z := demo_image (le32 4 ++ le32 134512652 ++ le32 3 ++ [97; 0]).
Definition demo_bad : gmap Z Z := demo_image (le32 6 ++ le32 3221225472).

Definition demo_process (m : gmap Z Z) : sys (gmap Z Z) fs (heap palloc_state) := Sys m demo_formatted ∅ 2 false [] [] demo_heap0.

Lemma demo_words (m : gmap Z Z) a l :
  Forall (λ p, is_u32 p.2 ∧ in_range (a + 4 * Z.of_nat p.1) 4 ∧ Forall (λ q, m !! (a + 4 * Z.of_nat p.1 + Z.of_nat q.1) = Some q.2) (imap pair (le32 p.2))) (imap pair l) →
  words m a l.
Proof.
  intros Hall i v Hi. rewrite Forall_lookup in Hall. destruct (Hall i (i, v)) as (H1 & H2 & H3); [by rewrite list_lookup_imap, Hi|]. split_and!; [done| |done].
  intros j c Hj. cbn [fst snd] in H3. rewrite Forall_lookup in H3. apply (H3 j (j, c)). rewrite list_lookup_imap. by rewrite (Hj : le32 v !! j = Some c).
Qed.

Lemma demo_process_ok m : user_ok m → proc_ok (FileWorld0 := fs_world) (demo_process m) (Proc (World ∅ ∅ ∅) 2 [] []) ∅.
Proof.
  intros Hm. destruct (init_format_ok demo_blank (dev demo_blank) (replicate 2 7) demo_blank_boots eq_refl demo_blank_dev demo_size_ok eq_refl demo_mem_ok) as (s0 & E & Hw).
  rewrite (demo_init s0 E) in Hw. pose proof (malloc_history small_state demo_heap0 demo_heap0 ∅ small_state_wf (proj1 demo_history) (rtc_refl _ _)) as Hh.
  assert (fds_ok (demo_process m)) as Hf.
  { split; [rewrite FD_END_val; cbn [demo_process next_fd]; lia|]. cbn [demo_process fd_table]. intros fd [f Hfd]. by rewrite lookup_empty in Hfd. }
  exact (Build_proc_ok (demo_process m) (Proc (World ∅ ∅ ∅) 2 [] []) ∅ Hm Hw Hf eq_refl eq_refl eq_refl eq_refl (Forall_nil_2 _) Hh).
Qed.

Lemma demo_create_ok : user_ok demo_create.
Proof. unfold user_ok, flat_inv. apply (bool_decide_unpack _). by vm_compute. Qed.

Lemma demo_create_asks : asks demo_create 134512640 (RCreate [97] 3).
Proof.
  exists 134512652. split; [apply demo_words; repeat constructor; by vm_compute|]. split_and!; [|set_solver|by vm_compute].
  intros i v Hi. do 2 (destruct i as [|i]; [injection Hi as <-; by vm_compute|]). done.
Qed.

Lemma syscall_refines_spec_witness :
  answered (FileWorld0 := fs_world) demo_name (demo_process demo_create) (Proc (World ∅ ∅ ∅) 2 [] []) ∅ (RCreate [97] 3)
    (syscall_handler (FileSys0 := fs_sys (replicate 20 9)) demo_name 134512640 (demo_process demo_create)).
Proof.
  apply (@syscall_refines_spec _ _ _ _ _ flat_laws _ _ malloc_laws demo_name eq_refl (fs_sys (replicate 20 9)) _ (fs_laws (replicate 20 9) eq_refl)
    (demo_process demo_create) (Proc (World ∅ ∅ ∅) 2 [] []) ∅ 134512640 (RCreate [97] 3) (demo_process_ok demo_create demo_create_ok) demo_create_asks).
  by vm_compute.
Defined.

Lemma demo_bad_ok : user_ok demo_bad.
Proof. unfold user_ok, flat_inv. apply (bool_decide_unpack _). by vm_compute. Qed.

Lemma demo_bad_call : bad_call demo_bad 134512640.
Proof.
  assert (words demo_bad 134512640 [6; 3221225472]) as Hw by (apply demo_words; repeat constructor; by vm_compute).
  apply (bad_string demo_bad 134512640 6 3221225472 [] [] Hw); [repeat constructor|done|intros i v Hi; by destruct i|apply not_elem_of_nil|by right|by vm_compute].
Qed.

Lemma syscall_kills_bad_pointers_witness :
  ∃ s', syscall_handler (FileSys0 := fs_sys (replicate 20 9)) demo_name 134512640 (demo_process demo_bad) = Ok (Exits (-1), s') ∧ ended demo_name (demo_process demo_bad) (-1) s'.
Proof.
  exact (@syscall_kills_bad_pointers _ _ _ _ _ flat_laws _ _ demo_name eq_refl (fs_sys (replicate 20 9)) (demo_process demo_bad) 134512640 demo_bad_ok demo_bad_call).
Defined.
