(* ===== verification/UserCalls.v ===== *)
(** The library of user programs that makes system calls (src/lib/user/syscall.c), together with
    the kernel that answers them.

    A program is at a call of the library, with its memory and the kernel behind it. A macro of
    syscall.c pushes the arguments and the number, enters the kernel by [int $0x30], and takes
    them off the stack again; the result is what the kernel leaves in EAX. What the interrupt
    does to the registers is the subject of [Entry]. *)

From S2P Require Import Prelude Vaddr Palloc Pages Malloc Disk Inode Filesys Files Volume FileCalls Mount UserMem ArgPass KernelHeap Stdio Format Syscall SyscallSpec.

Section lib.
Context {M F K : Type} `{!UserMem M} `{!FileSys F} `{!HeapOps K} (tname : list Z).

Record user := User { eax : Z; esp : Z; kernel : sys M F K }.

Definition pushl (v : Z) (u : user) : res user :=
  '(sp, m) ← push32 (esp u) (u32 v) (umem (kernel u));
  Ok (User (eax u) sp (set_umem (kernel u) m)).

Definition int_0x30 (u : user) : res (outcome answer * user) :=
  '(o, s) ← syscall_handler tname (esp u) (kernel u);
  Ok (o, User (match o with Return (Eax v) => v | _ => eax u end) (esp u) s).

Definition addl_esp (n : Z) (u : user) : user := User (eax u) (u32 (esp u + n)) (kernel u).

(** The value of a macro, an [int], if the call returns. A call that starts a process or waits
    for one goes on in the kernel. *)
Definition retval (n : Z) (x : outcome answer * user) : outcome answer * user :=
  match x with
  | (Return (Eax _), u) | (Return NoEax, u) => (Return (Eax (s32 (eax u))), addl_esp n u)
  | _ => x
  end.

Definition syscall0 (NUMBER : Z) (u : user) : res (outcome answer * user) :=
  u ← pushl NUMBER u; x ← int_0x30 u; Ok (retval 4 x).

Definition syscall1 (NUMBER ARG0 : Z) (u : user) : res (outcome answer * user) :=
  u ← pushl ARG0 u; u ← pushl NUMBER u; x ← int_0x30 u; Ok (retval 8 x).

Definition syscall2 (NUMBER ARG0 ARG1 : Z) (u : user) : res (outcome answer * user) :=
  u ← pushl ARG1 u; u ← pushl ARG0 u; u ← pushl NUMBER u; x ← int_0x30 u; Ok (retval 12 x).

Definition syscall3 (NUMBER ARG0 ARG1 ARG2 : Z) (u : user) : res (outcome answer * user) :=
  u ← pushl ARG2 u; u ← pushl ARG1 u; u ← pushl ARG0 u; u ← pushl NUMBER u; x ← int_0x30 u; Ok (retval 16 x).

Definition SYS_HALT : Z := 0.
Definition SYS_EXIT : Z := 1.
Definition SYS_EXEC : Z := 2.
Definition SYS_WAIT : Z := 3.
Definition SYS_CREATE : Z := 4.
Definition SYS_REMOVE : Z := 5.
Definition SYS_OPEN : Z := 6.
Definition SYS_FILESIZE : Z := 7.
Definition SYS_READ : Z := 8.
Definition SYS_WRITE : Z := 9.
Definition SYS_SEEK : Z := 10.
Definition SYS_TELL : Z := 11.
Definition SYS_CLOSE : Z := 12.
Definition SYS_MMAP : Z := 13.
Definition SYS_MUNMAP : Z := 14.
Definition SYS_CHDIR : Z := 15.
Definition SYS_MKDIR : Z := 16.
Definition SYS_READDIR : Z := 17.
Definition SYS_ISDIR : Z := 18.
Definition SYS_INUMBER : Z := 19.

(** Conversions of the value to the type of the function; none, and a panic of the program, if it
    should not return. *)
Definition on_value (f : Z → answer) (x : outcome answer * user) : outcome answer * user :=
  match x with (Return (Eax v), u) => (Return (f v), u) | _ => x end.
Definition as_int : outcome answer * user → outcome answer * user := on_value Eax.
Definition as_bool : outcome answer * user → outcome answer * user := on_value (λ v, Eax (Z.b2z (negb (v =? 0)))).
Definition as_unsigned : outcome answer * user → outcome answer * user := on_value (λ v, Eax (u32 v)).
Definition as_void : outcome answer * user → outcome answer * user := on_value (λ _, NoEax).
Definition not_reached (x : outcome answer * user) : res (outcome answer * user) :=
  match x with (Return _, _) => Fault PanicCall | _ => Ok x end.

Definition lib_halt (u : user) : res (outcome answer * user) := x ← syscall0 SYS_HALT u; not_reached x.
Definition lib_exit (status : Z) (u : user) : res (outcome answer * user) := x ← syscall1 SYS_EXIT status u; not_reached x.
Definition lib_exec (file : Z) (u : user) : res (outcome answer * user) := x ← syscall1 SYS_EXEC file u; Ok (as_int x).
Definition lib_wait (pid : Z) (u : user) : res (outcome answer * user) := x ← syscall1 SYS_WAIT pid u; Ok (as_int x).
Definition lib_create (file initial_size : Z) (u : user) : res (outcome answer * user) := x ← syscall2 SYS_CREATE file initial_size u; Ok (as_bool x).
Definition lib_remove (file : Z) (u : user) : res (outcome answer * user) := x ← syscall1 SYS_REMOVE file u; Ok (as_bool x).
Definition lib_open (file : Z) (u : user) : res (outcome answer * user) := x ← syscall1 SYS_OPEN file u; Ok (as_int x).
Definition lib_filesize (fd : Z) (u : user) : res (outcome answer * user) := x ← syscall1 SYS_FILESIZE fd u; Ok (as_int x).
Definition lib_read (fd buffer size : Z) (u : user) : res (outcome answer * user) := x ← syscall3 SYS_READ fd buffer size u; Ok (as_int x).
Definition lib_write (fd buffer size : Z) (u : user) : res (outcome answer * user) := x ← syscall3 SYS_WRITE fd buffer size u; Ok (as_int x).
Definition lib_seek (fd position : Z) (u : user) : res (outcome answer * user) := x ← syscall2 SYS_SEEK fd position u; Ok (as_void x).
Definition lib_tell (fd : Z) (u : user) : res (outcome answer * user) := x ← syscall1 SYS_TELL fd u; Ok (as_unsigned x).
Definition lib_close (fd : Z) (u : user) : res (outcome answer * user) := x ← syscall1 SYS_CLOSE fd u; Ok (as_void x).
Definition lib_mmap (fd addr : Z) (u : user) : res (outcome answer * user) := x ← syscall2 SYS_MMAP fd addr u; Ok (as_int x).
Definition lib_munmap (mapid : Z) (u : user) : res (outcome answer * user) := x ← syscall1 SYS_MUNMAP mapid u; Ok (as_void x).
Definition lib_chdir (dir : Z) (u : user) : res (outcome answer * user) := x ← syscall1 SYS_CHDIR dir u; Ok (as_bool x).
Definition lib_mkdir (dir : Z) (u : user) : res (outcome answer * user) := x ← syscall1 SYS_MKDIR dir u; Ok (as_bool x).
Definition lib_readdir (fd name : Z) (u : user) : res (outcome answer * user) := x ← syscall2 SYS_READDIR fd name u; Ok (as_bool x).
Definition lib_isdir (fd : Z) (u : user) : res (outcome answer * user) := x ← syscall1 SYS_ISDIR fd u; Ok (as_bool x).
Definition lib_inumber (fd : Z) (u : user) : res (outcome answer * user) := x ← syscall1 SYS_INUMBER fd u; Ok (as_int x).

(** ** A call of any function of the library *)

Inductive lib_call :=
  | CHalt | CExit (status : Z) | CExec (file : Z) | CWait (pid : Z) | CCreate (file initial_size : Z) | CRemove (file : Z) | COpen (file : Z)
  | CFilesize (fd : Z) | CRead (fd buffer size : Z) | CWrite (fd buffer size : Z) | CSeek (fd position : Z) | CTell (fd : Z) | CClose (fd : Z)
  | CMmap (fd addr : Z) | CMunmap (mapid : Z) | CChdir (dir : Z) | CMkdir (dir : Z) | CReaddir (fd name : Z) | CIsdir (fd : Z) | CInumber (fd : Z).

Definition run (c : lib_call) : user → res (outcome answer * user) :=
  match c with
  | CHalt => lib_halt | CExit status => lib_exit status | CExec file => lib_exec file | CWait pid => lib_wait pid
  | CCreate file initial_size => lib_create file initial_size | CRemove file => lib_remove file | COpen file => lib_open file
  | CFilesize fd => lib_filesize fd | CRead fd buffer size => lib_read fd buffer size | CWrite fd buffer size => lib_write fd buffer size
  | CSeek fd position => lib_seek fd position | CTell fd => lib_tell fd | CClose fd => lib_close fd | CMmap fd addr => lib_mmap fd addr
  | CMunmap mapid => lib_munmap mapid | CChdir dir => lib_chdir dir | CMkdir dir => lib_mkdir dir | CReaddir fd name => lib_readdir fd name
  | CIsdir fd => lib_isdir fd | CInumber fd => lib_inumber fd
  end.

End lib.

Arguments user : clear implicits.
Arguments User {M F K}. Arguments eax {M F K}. Arguments esp {M F K}. Arguments kernel {M F K}.

(** ** What a call asks for *)

Definition call_number (c : lib_call) : Z :=
  match c with
  | CHalt => 0 | CExit _ => 1 | CExec _ => 2 | CWait _ => 3 | CCreate _ _ => 4 | CRemove _ => 5 | COpen _ => 6 | CFilesize _ => 7 | CRead _ _ _ => 8
  | CWrite _ _ _ => 9 | CSeek _ _ => 10 | CTell _ => 11 | CClose _ => 12 | CMmap _ _ => 13 | CMunmap _ => 14 | CChdir _ => 15 | CMkdir _ => 16
  | CReaddir _ _ => 17 | CIsdir _ => 18 | CInumber _ => 19
  end.

Definition call_args (c : lib_call) : list Z :=
  match c with
  | CHalt => [] | CExit a | CExec a | CWait a | CRemove a | COpen a | CFilesize a | CTell a | CClose a | CMunmap a | CChdir a | CMkdir a | CIsdir a | CInumber a => [a]
  | CCreate a b | CSeek a b | CMmap a b | CReaddir a b => [a; b] | CRead a b d | CWrite a b d => [a; b; d]
  end.

(** The words that it needs on the stack. *)
Definition frame (c : lib_call) : list Z := call_number c :: (u32 <$> call_args c).

(** What the function makes of the value in EAX, if it returns one. *)
Definition value_of (c : lib_call) (v : Z) : answer :=
  match c with
  | CCreate _ _ | CRemove _ | CChdir _ | CMkdir _ | CReaddir _ _ | CIsdir _ => Eax (Z.b2z (negb (s32 v =? 0)))
  | CTell _ => Eax (u32 v)
  | CSeek _ _ | CClose _ | CMunmap _ => NoEax
  | _ => Eax (s32 v)
  end.

Section served.
Context {M F K : Type} `{!UserMem M} `{!UserInv M} `{!UserLaws M} `{!HeapOps K} `{!HeapInv K} `{!HeapLaws K}.
Context (tname : list Z) (Hname : name_fits tname) `{!FileSys F} `{!FileWorld F} `{!WorldLaws F}.
Implicit Types (u : user M F K) (m : M).

(** The request that a call of one of the thirteen functions that the kernel serves makes, and the
    part of memory that it refers to, which has to be clear of the words of the call. The other
    seven functions make no request that the kernel knows: their numbers are 13 to 19. *)
Definition means m (lo hi : Z) (c : lib_call) (r : request) : Prop :=
  let clear a n := a + n ≤ lo ∨ hi ≤ a in
  match c, r with
  | CHalt, RHalt => True
  | CExit status, RExit status' => status' = status ∧ is_s32 status
  | CExec file, RExec l | CRemove file, RRemove l | COpen file, ROpen l => string_at m file l ∧ clear file (Z.of_nat (length l) + 1)
  | CCreate file size, RCreate l size' => string_at m file l ∧ clear file (Z.of_nat (length l) + 1) ∧ size' = size ∧ is_u32 size
  | CWait pid, RWait tid => tid = pid ∧ is_s32 pid
  | CFilesize fd, RFilesize fd' | CTell fd, RTell fd' | CClose fd, RClose fd' => fd' = fd ∧ is_s32 fd
  | CRead fd buffer size, RRead fd' buffer' size' =>
      fd' = fd ∧ buffer' = buffer ∧ size' = size ∧ is_s32 fd ∧ is_u32 buffer ∧ is_u32 size ∧ user_room m buffer size ∧ (in_range buffer size ∨ size = 0)
  | CWrite fd buffer size, RWrite fd' data =>
      fd' = fd ∧ size = Z.of_nat (length data) ∧ is_s32 fd ∧ is_u32 buffer ∧ is_u32 size ∧ user_bytes m buffer data ∧ (in_range buffer size ∨ data = []) ∧ clear buffer size
  | CSeek fd position, RSeek fd' position' => fd' = fd ∧ position' = position ∧ is_s32 fd ∧ is_u32 position
  | _, _ => False
  end.

(** ** Pushing the words *)

Fixpoint push_all (l : list Z) (u : user M F K) : res (user M F K) :=
  match l with [] => Ok u | v :: l => u ← pushl v u; push_all l u end.

Lemma push_all_ok l u :
  user_ok (umem (kernel u)) → user_room (umem (kernel u)) (esp u - 4 * Z.of_nat (length l)) (4 * Z.of_nat (length l)) →
  ∃ m', push_all l u = Ok (User (eax u) (esp u - 4 * Z.of_nat (length l)) (set_umem (kernel u) m')) ∧ pushed (umem (kernel u)) m' (esp u) (u32 <$> l).
Proof using UserLaws0.
  revert u. induction l as [|v l IH]; intros u Hok Hr; cbn [length] in *.
  { exists (umem (kernel u)). split; [|by apply pushed_nil]. cbn. rewrite set_umem_id, Z.sub_0_r. by destruct u. }
  cbn [push_all]. unfold pushl. destruct (push32_ok (esp u) (u32 v) (umem (kernel u)) Hok) as (m1 & E1 & H1).
  { eapply room_weaken; [exact Hr|lia..]. }
  rewrite E1. mstep. set (u1 := User _ _ _). assert (pushed (umem (kernel u)) m1 (esp u) [u32 v]) as Hp1 by (unfold pushed; simpl; by replace (esp u - 4 * 1) with (esp u - 4) by lia).
  destruct (IH u1) as (m2 & E2 & H2); [apply H1|eapply pushed_room; [exact Hp1|]; eapply room_weaken; [exact Hr|cbn [u1 esp]; lia..]|].
  exists m2. rewrite E2. split; [cbn; do 2 f_equal; lia|]. exact (pushed_app _ _ _ _ [u32 v] _ Hp1 ltac:(by replace (esp u - 4 * Z.of_nat (length [u32 v])) with (esp u1) by (cbn; lia))).
Qed.

Lemma put_words m m' a l :
  put_bytes m m' a (word_bytes l) → Forall is_u32 l → in_range a (4 * Z.of_nat (length l)) → words m' a l.
Proof.
  intros Hp Hu [Hlo Hhi] i v Hi. pose proof (lookup_lt_Some _ _ _ Hi) as Hlt. split_and!; [by eapply Forall_lookup_1| |unfold in_range; lia].
  rewrite <-(take_drop_middle l i v Hi) in Hp. rewrite word_bytes_app in Hp. change (word_bytes (v :: ?x)) with (le32 v ++ word_bytes x) in Hp.
  apply put_bytes_inside in Hp. rewrite word_bytes_length, length_take_le in Hp by lia. by replace (a + 4 * Z.of_nat i) with (a + Z.of_nat (4 * i)) by lia.
Qed.

Lemma put_keeps_bytes m m' a l b l' : put_bytes m m' a l → b + Z.of_nat (length l') ≤ a ∨ a + Z.of_nat (length l) ≤ b → user_bytes m b l' → user_bytes m' b l'.
Proof. intros Hp Hd Hb i v Hi. pose proof (lookup_lt_Some _ _ _ Hi). erewrite put_bytes_outside by (exact Hp || lia). by apply Hb. Qed.

Lemma put_keeps_string m m' a l b l' : put_bytes m m' a l → b + (Z.of_nat (length l') + 1) ≤ a ∨ a + Z.of_nat (length l) ≤ b → string_at m b l' → string_at m' b l'.
Proof. intros Hp Hd (Hb & H0 & Hr). split_and!; [|done|done]. eapply put_keeps_bytes; [exact Hp| |done]. rewrite length_app. cbn [length]. lia. Qed.

Lemma string_u32 m a l : string_at m a l → u32 a = a.
Proof. intros (_ & _ & Hr). apply u32_small. eapply range_u32; [exact Hr|lia]. Qed.

(** With its words on the stack, a call makes its request. *)
Lemma means_asks m m' a c r :
  put_bytes m m' a (word_bytes (frame c)) → in_range a (4 * Z.of_nat (length (frame c))) → means m a (a + 4 * Z.of_nat (length (frame c))) c r → asks m' a r.
Proof.
  intros Hp Hr Hm. assert (words m' a (frame c)) as Hw.
  { eapply put_words; [done| |done]. constructor; [by destruct c|]. apply Forall_fmap, Forall_true. intros x. by apply Z.mod_pos_bound. }
  assert (4 * Z.of_nat (length (frame c)) = Z.of_nat (length (word_bytes (frame c)))) as El by (rewrite word_bytes_length; lia). rewrite El in Hm. clear El Hr.
  destruct c, r; try done; unfold means in Hm; cbn [asks]; unfold frame in Hw; cbn [call_number call_args fmap list_fmap] in Hw.
  all: try (destruct Hm as [-> Hs]; eexists; split; [exact Hw|by rewrite s32_u32]).
  all: try (destruct Hm as [Hst Hc]; rewrite (string_u32 _ _ _ Hst) in Hw; eexists; split; [exact Hw|by eapply put_keeps_string]).
  - destruct Hm as (Hst & Hc & -> & Hu). rewrite (string_u32 _ _ _ Hst), (u32_small initial_size) in Hw by done. eexists. split; [exact Hw|by eapply put_keeps_string].
  - destruct Hm as (-> & -> & -> & Hs & Hb & Hz & Hroom & Hr). rewrite (u32_small buffer), (u32_small size) in Hw by done. eexists. split_and!; [exact Hw|by rewrite s32_u32|by eapply put_bytes_room|done].
  - destruct Hm as (-> & -> & Hs & Hb & Hz & Hd & Hr & Hc). rewrite (u32_small buffer), (u32_small (Z.of_nat _)) in Hw by done. eexists _, _.
    split_and!; [exact Hw|by rewrite s32_u32|by eapply put_keeps_bytes|done].
  - destruct Hm as (-> & -> & Hs & Hu). rewrite (u32_small position) in Hw by done. eexists. split; [exact Hw|by rewrite s32_u32].
Qed.

(** ** The way in and out *)

Definition finish (c : lib_call) (x : outcome answer * user M F K) : res (outcome answer * user M F K) :=
  match c with
  | CHalt | CExit _ => not_reached x
  | CCreate _ _ | CRemove _ | CChdir _ | CMkdir _ | CReaddir _ _ | CIsdir _ => Ok (as_bool x)
  | CTell _ => Ok (as_unsigned x)
  | CSeek _ _ | CClose _ | CMunmap _ => Ok (as_void x)
  | _ => Ok (as_int x)
  end.

Lemma run_frame c u :
  run tname c u = (u ← push_all (reverse (call_args c) ++ [call_number c]) u; x ← int_0x30 tname u; finish c (retval (4 * Z.of_nat (length (frame c))) x)).
Proof.
  destruct c; cbn -[pushl int_0x30 retval as_int as_bool as_void as_unsigned not_reached]; unfold lib_halt, lib_exit, lib_exec, lib_wait, lib_create, lib_remove, lib_open, lib_filesize,
    lib_read, lib_write, lib_seek, lib_tell, lib_close, lib_mmap, lib_munmap, lib_chdir, lib_mkdir, lib_readdir, lib_isdir, lib_inumber, syscall0, syscall1, syscall2, syscall3, SYS_HALT, SYS_EXIT, SYS_EXEC,
    SYS_WAIT, SYS_CREATE, SYS_REMOVE, SYS_OPEN, SYS_FILESIZE, SYS_READ, SYS_WRITE, SYS_SEEK, SYS_TELL, SYS_CLOSE, SYS_MMAP, SYS_MUNMAP, SYS_CHDIR, SYS_MKDIR, SYS_READDIR, SYS_ISDIR, SYS_INUMBER;
    cbn -[pushl int_0x30 retval as_int as_bool as_void as_unsigned not_reached];
    repeat match goal with |- context [pushl ?a ?b] => destruct (pushl a b); [|reflexivity..]; cbn -[pushl int_0x30 retval as_int as_bool as_void as_unsigned not_reached] end;
    match goal with |- context [int_0x30 ?a ?b] => by destruct (int_0x30 a b) as [[]| |] end.
Qed.

(** What a program gets from a call that the kernel has answered. *)
Definition returned (c : lib_call) (u : user M F K) (o : outcome answer) (s' : sys M F K) : outcome answer * user M F K :=
  match o with
  | Return (Eax v) => (Return (value_of c v), User v (esp u) s')
  | Return NoEax => (Return (value_of c (eax u)), User (eax u) (esp u) s')
  | _ => (o, User (eax u) (esp u - 4 * Z.of_nat (length (frame c))) s')
  end.


Lemma u32_s32_any v : u32 (s32 v) = u32 v.
Proof. unfold u32, s32. rewrite Zminus_mod, Zmod_mod, <-Zminus_mod. f_equal. lia. Qed.

(** A call, from the push of its words to the value of the function. *)
Lemma call_ok c u :
  user_ok (umem (kernel u)) → user_room (umem (kernel u)) (esp u - 4 * Z.of_nat (length (frame c))) (4 * Z.of_nat (length (frame c))) → in_range (esp u - 4 * Z.of_nat (length (frame c))) (4 * Z.of_nat (length (frame c))) →
  ∃ m1, put_bytes (umem (kernel u)) m1 (esp u - 4 * Z.of_nat (length (frame c))) (word_bytes (frame c)) ∧
    ∀ o s', syscall_handler tname (esp u - 4 * Z.of_nat (length (frame c))) (set_umem (kernel u) m1) = Ok (o, s') →
      (call_number c ≤ 1 → ∀ a, o ≠ Return a) → run tname c u = Ok (returned c u o s').
Proof using UserLaws0.
  intros Hok Hroom Hr. set (l := reverse (call_args c) ++ [call_number c]).
  assert (length l = length (frame c)) as El by (unfold l, frame; rewrite length_app, length_reverse; cbn [length]; rewrite length_fmap; lia). rewrite <-El in *.
  assert (reverse (u32 <$> l) = frame c) as Erev.
  { unfold l. by destruct c. }
  destruct (push_all_ok l u Hok Hroom) as (m1 & E1 & Hp). exists m1. split; [by unfold pushed in Hp; rewrite Erev, length_fmap in Hp|].
  intros o s' E Hnr. rewrite run_frame. fold l. rewrite E1. mstep. unfold int_0x30. cbn [esp kernel]. rewrite E. mstep. rewrite <-El.
  assert (u32 (esp u - 4 * Z.of_nat (length l) + 4 * Z.of_nat (length l)) = esp u) as Eesp by (rewrite u32_small; unfold in_range, is_u32, PHYS_BASE in *; lia).
  unfold returned. rewrite <-El. destruct o as [[v| | |]|status| |]; cbn [retval]; unfold addl_esp; cbn [eax esp kernel]; rewrite ?Eesp.
  all: destruct c; cbn [finish not_reached as_int as_bool as_void as_unsigned on_value value_of]; rewrite ?u32_s32_any; try done; by destruct (Hnr ltac:(cbn; lia) _ eq_refl).
Qed.

Lemma known_call_served c r u p live :
  let n := 4 * Z.of_nat (length (frame c)) in
  proc_ok (kernel u) p live → user_room (umem (kernel u)) (esp u - n) n → in_range (esp u - n) n → means (umem (kernel u)) (esp u - n) (esp u) c r → fits (kernel u) p r →
  ∃ m1 o s', put_bytes (umem (kernel u)) m1 (esp u - n) (word_bytes (frame c)) ∧ answered tname (set_umem (kernel u) m1) p live r (Ok (o, s')) ∧ run tname c u = Ok (returned c u o s').
Proof using UserLaws0 HeapLaws0 Hname WorldLaws0.
  intros n Hp Hroom Hr Hm Hf. destruct (call_ok c u (po_mem _ _ _ Hp) Hroom Hr) as (m1 & Hput & Hrun). fold n in Hput, Hrun.
  assert (asks m1 (esp u - n) r) as Hasks by (eapply means_asks; [exact Hput|done|]; fold n; by replace (esp u - n + n) with (esp u) by lia).
  assert (proc_ok (set_umem (kernel u) m1) p live) as Hp1 by (apply proc_mem; [done|apply Hput]).
  pose proof (syscall_answered tname Hname (set_umem (kernel u) m1) p live (esp u - n) r Hp1 Hasks ltac:(by destruct r)) as Hans.
  pose proof Hans as (o & s' & p' & live' & E & _ & Hcase). rewrite E in Hans. exists m1, o, s'. split_and!; [done|done|]. apply Hrun; [done|]. intros Hnum a ->.
  destruct c; cbn in Hnum; try lia; destruct r; try done; destruct Hcase as [(l & Hs & _)|(l & h & Ht & _)]; try done; cbn [serves] in Hs; by destruct Hs as [(? & ? & ? & ?) ?] || destruct Hs as [? ?].
Qed.

(** A call whose words make a bad call of the kernel ends the program. *)
Lemma bad_call_ends c u :
  let n := 4 * Z.of_nat (length (frame c)) in
  user_ok (umem (kernel u)) → user_room (umem (kernel u)) (esp u - n) n → in_range (esp u - n) n →
  (∀ m1, put_bytes (umem (kernel u)) m1 (esp u - n) (word_bytes (frame c)) → bad_call m1 (esp u - n)) →
  ∃ m1 s', put_bytes (umem (kernel u)) m1 (esp u - n) (word_bytes (frame c)) ∧ ended tname (set_umem (kernel u) m1) (-1) s' ∧ run tname c u = Ok (Exits (-1), User (eax u) (esp u - n) s').
Proof using UserLaws0 Hname.
  intros n Hok Hroom Hr Hbad. destruct (call_ok c u Hok Hroom Hr) as (m1 & Hput & Hrun). fold n in Hput, Hrun.
  destruct (bad_call_exits tname Hname (set_umem (kernel u) m1) (esp u - n) (ps_ok _ _ _ _ Hput) (Hbad m1 Hput)) as (s' & E & He).
  exists m1, s'. split_and!; [done|done|]. exact (Hrun (Exits (-1)) s' E ltac:(done)).
Qed.

Lemma frame_words m m1 c a : put_bytes m m1 a (word_bytes (frame c)) → in_range a (4 * Z.of_nat (length (frame c))) → words m1 a (frame c).
Proof. intros Hp Hr. eapply put_words; [exact Hp| |done]. constructor; [by destruct c|]. apply Forall_fmap, Forall_true. intros x. by apply Z.mod_pos_bound. Qed.

(** The functions that the kernel has no call for. *)
Lemma missing_call_bad m m1 c a : 13 ≤ call_number c → put_bytes m m1 a (word_bytes (frame c)) → in_range a (4 * Z.of_nat (length (frame c))) → bad_call m1 a.
Proof.
  intros Hc Hp Hr. pose proof (frame_words _ _ _ _ Hp Hr) as Hw. unfold frame in Hw. apply words_cons in Hw as [Hw _].
  apply (bad_number m1 a (call_number c)); [apply words_cons; split; [done|intros i v Hi; by destruct i]|]. assert (s32 (call_number c) = call_number c) as -> by (by destruct c). lia.
Qed.

(** A call with a pointer, to a string or to a buffer that is not empty, which starts outside the
    memory of user programs. *)
Definition wild (c : lib_call) : Prop :=
  match c with
  | CExec file | CRemove file | COpen file | CCreate file _ => user_address (u32 file) = false
  | CRead _ buffer size | CWrite _ buffer size => user_address (u32 buffer) = false ∧ 0 < u32 size
  | _ => False
  end.

Lemma wild_call_bad m m1 c a : wild c → put_bytes m m1 a (word_bytes (frame c)) → in_range a (4 * Z.of_nat (length (frame c))) → bad_call m1 a.
Proof.
  intros Hc Hp Hr. pose proof (frame_words _ _ _ _ Hp Hr) as Hw. unfold frame in Hw. destruct c; try done; cbn [wild call_number call_args fmap list_fmap] in *.
  5,6: destruct Hc as [Hu Hs]; apply (bad_buffer _ _ _ _ _ _ Hw); [set_solver|done|]; intros [Hlo Hhi];
    apply not_true_iff_false in Hu; apply Hu, user_address_iff; lia.
  all: eapply (bad_string _ _ _ _ _ []); [exact Hw|set_solver|done|by intros i v Hi|apply not_elem_of_nil|by right|by rewrite Z.add_0_r].
Qed.


End served.

(** ** A program that creates a file *)

#[local] Existing Instances flat_mem flat_inv.

Definition demo_stack : gmap Z Z := demo_image (replicate 12 0 ++ [97; 0]).
Definition demo_user : user (gmap Z Z) fs (heap palloc_state) := User 0 134512652 (demo_process demo_stack).

Lemma demo_stack_ok : user_ok demo_stack.
Proof. unfold user_ok, flat_inv. apply (bool_decide_unpack _). by vm_compute. Qed.

Lemma demo_means : means demo_stack 134512640 134512652 (CCreate 134512652 3) (RCreate [97] 3).
Proof.
  split_and!; [|by right|done|done]. split_and!; [|set_solver|by vm_compute].
  intros i v Hi. do 2 (destruct i as [|i]; [injection Hi as <-; by vm_compute|]). done.
Qed.

Lemma demo_stack_room : user_room demo_stack 134512640 12.
Proof.
  intros b Hb. assert (Forall (λ b, user_writable demo_stack b = true) (seqZ 134512640 12)) as Hall by (apply (bool_decide_unpack _); by vm_compute).
  rewrite Forall_forall in Hall. apply Hall, elem_of_seqZ. lia.
Qed.

Lemma demo_stack_range : in_range 134512640 12.
Proof. by vm_compute. Qed.

Lemma demo_missing : 13 ≤ call_number (CMmap 3 0).
Proof. done. Qed.

