(* ===== verification/Swap.v ===== *)
(** The swap area (src/vm/swap.c): pages of memory kept in slots of eight sectors of a block
    device, with a bitmap of the slots that are free.

    The state is the device in the swap role, as the array of sectors that every registered
    device is, the static variables of swap.c, those of the scan of the bitmap, and the bytes of
    memory. The specification is a finite map from slots to the contents of pages. *)

From S2P Require Import Prelude Bitmap BitmapScan Vaddr Palloc Disk.

Definition SECTORS_PER_PAGE : Z := PGSIZE / BLOCK_SECTOR_SIZE.

Record swap := Swap {
  swap_block : block;
  swap_available : bitmap;
  swap_size : Z;
  scans : scan_statics;
  smem : Z → Z;
}.

Definition set_block (s : swap) (b : block) : swap := Swap b (swap_available s) (swap_size s) (scans s) (smem s).
Definition set_available (s : swap) (b : bitmap) : swap := Swap (swap_block s) b (swap_size s) (scans s) (smem s).
Definition set_scans (s : swap) (st : scan_statics) : swap := Swap (swap_block s) (swap_available s) (swap_size s) st (smem s).
Definition set_smem (s : swap) (m : Z → Z) : swap := Swap (swap_block s) (swap_available s) (swap_size s) (scans s) m.

(** The bytes from [a] on, and memory with bytes written there. *)
Definition bytes_at (m : Z → Z) (a n : Z) : list Z := m <$> seqZ a n.
Definition write_at (m : Z → Z) (a : Z) (l : list Z) : Z → Z :=
  λ x, if (a <=? x) && (x <? a + Z.of_nat (length l)) then default 0 (l !! Z.to_nat (x - a)) else m x.

(** ** swap.c *)

(** [role] is the device that [block_get_role] gives; [b_ok] and [bits_mem] are the outcomes of the
    allocations of [bitmap_create]. *)
Definition virtualmemory_swap_init (role : option block) (b_ok : bool) (bits_mem : option (list Z)) (st : scan_statics) (m : Z → Z) : res swap :=
  ASSERT 0 <? SECTORS_PER_PAGE ;;
  match role with
  | None => Fault PanicCall
  | Some b =>
      let size := block_size b / SECTORS_PER_PAGE in
      available ← bitmap_create size b_ok bits_mem;
      available ← deref available;
      available ← bitmap_set_all available true;
      Ok (Swap b available size st m)
  end.

Fixpoint out_loop (n : nat) (i swap_index page : Z) (s : swap) : res swap :=
  match n with
  | O => Ok s
  | S n =>
      b ← block_write (swap_block s) (u32 (swap_index * SECTORS_PER_PAGE + i)) (bytes_at (smem s) (u32 (page + BLOCK_SECTOR_SIZE * i)) BLOCK_SECTOR_SIZE);
      out_loop n (i + 1) swap_index page (set_block s b)
  end.

Definition virtualmemory_swap_out (page : Z) (s : swap) : res (Z * swap) :=
  ASSERT PHYS_BASE <=? page ;;
  '(swap_index, st) ← bitmap_scan Select (scans s) (swap_available s) 0 1 true;
  s ← out_loop (Z.to_nat SECTORS_PER_PAGE) 0 swap_index page (set_scans s st);
  available ← bitmap_set (swap_available s) swap_index false;
  Ok (swap_index, set_available s available).

Fixpoint in_loop (n : nat) (i swap_index page : Z) (s : swap) : res swap :=
  match n with
  | O => Ok s
  | S n =>
      l ← block_read (swap_block s) (u32 (swap_index * SECTORS_PER_PAGE + i));
      in_loop n (i + 1) swap_index page (set_smem s (write_at (smem s) (u32 (page + BLOCK_SECTOR_SIZE * i)) l))
  end.

Definition virtualmemory_swap_in (swap_index page : Z) (s : swap) : res swap :=
  ASSERT PHYS_BASE <=? page ;;
  ASSERT swap_index <? swap_size s ;;
  free ← bitmap_test (swap_available s) swap_index;
  if free : bool then Fault PanicCall
  else
    s ← in_loop (Z.to_nat SECTORS_PER_PAGE) 0 swap_index page s;
    available ← bitmap_set (swap_available s) swap_index true;
    Ok (set_available s available).

Definition virtualmemory_swap_free (swap_index : Z) (s : swap) : res swap :=
  ASSERT swap_index <? swap_size s ;;
  free ← bitmap_test (swap_available s) swap_index;
  if free : bool then Fault PanicCall
  else
    available ← bitmap_set (swap_available s) swap_index true;
    Ok (set_available s available).

(** ** Bytes *)

Lemma bytes_at_lookup m a n i : 0 ≤ i < n → bytes_at m a n !! Z.to_nat i = Some (m (a + i)).
Proof. intros Hi. unfold bytes_at. rewrite list_lookup_fmap, lookup_seqZ_lt by lia. cbn. do 2 f_equal. lia. Qed.

Lemma bytes_at_length m a n : length (bytes_at m a n) = Z.to_nat n.
Proof. unfold bytes_at. by rewrite length_fmap, length_seqZ. Qed.

(** Sector [i] of a page. *)
Definition chunk (i : Z) (l : list Z) : list Z := take 512 (drop (Z.to_nat (512 * i)) l).

Lemma chunk_bytes m page i : 0 ≤ i < 8 → chunk i (bytes_at m page PGSIZE) = bytes_at m (page + BLOCK_SECTOR_SIZE * i) BLOCK_SECTOR_SIZE.
Proof.
  intros Hi. apply list_eq. intros j. unfold chunk, BLOCK_SECTOR_SIZE. destruct (decide (j < 512)%nat) as [Hj|Hj].
  - rewrite lookup_take_lt, lookup_drop by done. replace (Z.to_nat (512 * i) + j)%nat with (Z.to_nat (512 * i + Z.of_nat j)) by lia. replace j with (Z.to_nat (Z.of_nat j)) at 2 by lia.
    rewrite !bytes_at_lookup by (unfold PGSIZE; lia). do 2 f_equal. lia.
  - rewrite lookup_take_ge by lia. symmetry. apply lookup_ge_None. rewrite bytes_at_length. lia.
Qed.

Lemma chunk_lookup l i j : 0 ≤ i → 0 ≤ j < 512 → chunk i l !! Z.to_nat j = l !! Z.to_nat (512 * i + j).
Proof. intros Hi Hj. unfold chunk. rewrite lookup_take_lt, lookup_drop by lia. f_equal. lia. Qed.

(** ** The loops *)

Lemma sector_number i j : 0 ≤ i → 8 * i + 8 < WORD → 0 ≤ j < 8 → u32 (i * SECTORS_PER_PAGE + j) = 8 * i + j.
Proof. intros. change SECTORS_PER_PAGE with 8. rewrite u32_small by (unfold is_u32; lia). lia. Qed.

Lemma sector_address page j : is_u32 page → page + PGSIZE ≤ WORD → 0 ≤ j < 8 → u32 (page + BLOCK_SECTOR_SIZE * j) = page + 512 * j.
Proof. intros. unfold BLOCK_SECTOR_SIZE, PGSIZE, is_u32 in *. rewrite u32_small by (unfold is_u32; lia). lia. Qed.

Lemma out_loop_ok n j i page s :
  dev_ok (swap_block s) → 0 ≤ i → 8 * i + 8 ≤ bsize (swap_block s) → is_u32 page → page + PGSIZE ≤ WORD → 0 ≤ j → j + Z.of_nat n = 8 →
  ∃ b, out_loop n j i page s = Ok (set_block s b) ∧ dev_ok b ∧ bsize b = bsize (swap_block s) ∧
    ∀ k, 0 ≤ k → sectors b !! Z.to_nat k = if bool_decide (8 * i + j ≤ k < 8 * i + 8) then Some (chunk (k - 8 * i) (bytes_at (smem s) page PGSIZE)) else sectors (swap_block s) !! Z.to_nat k.
Proof.
  revert j s. induction n as [|n IH]; intros j s Hd Hi Hsz Hp Hpe Hj Hn; cbn [out_loop].
  { exists (swap_block s). split_and!; [by destruct s|done|done|]. intros k _. rewrite bool_decide_eq_false_2 by lia. done. }
  pose proof (dev_size _ Hd) as Hw. rewrite sector_number, sector_address by lia || done. change (512 * j) with (BLOCK_SECTOR_SIZE * j). rewrite <-chunk_bytes by lia.
  destruct (block_write_ok (swap_block s) (8 * i + j) (chunk j (bytes_at (smem s) page PGSIZE)) Hd) as (b & -> & Hd' & Hb & Hs); [lia|rewrite chunk_bytes by lia; by rewrite bytes_at_length|].
  mstep. destruct (IH (j + 1) (set_block s b)) as (b2 & -> & Hd2 & Hb2 & Hs2); try (done || lia); [cbn; lia|]. exists b2. split_and!; [done|done|cbn in *; congruence|].
  intros k Hk. rewrite Hs2 by done. cbn [swap_block set_block smem]. rewrite Hs. destruct (decide (k = 8 * i + j)) as [->|Hne].
  - rewrite bool_decide_eq_false_2 by lia. rewrite bool_decide_eq_true_2 by lia. rewrite list_lookup_insert_eq by (rewrite (dev_len _ Hd); lia). do 2 f_equal. lia.
  - rewrite list_lookup_insert_ne by lia. do 2 case_bool_decide; done || lia.
Qed.

Lemma in_loop_ok n j i page s l :
  dev_ok (swap_block s) → 0 ≤ i → 8 * i + 8 ≤ bsize (swap_block s) → is_u32 page → page + PGSIZE ≤ WORD → 0 ≤ j → j + Z.of_nat n = 8 →
  (∀ k, 0 ≤ k < 8 → sectors (swap_block s) !! Z.to_nat (8 * i + k) = Some (chunk k l)) → length l = Z.to_nat PGSIZE →
  ∃ m, in_loop n j i page s = Ok (set_smem s m) ∧
    ∀ x, m x = if bool_decide (page + 512 * j ≤ x < page + PGSIZE) then default 0 (l !! Z.to_nat (x - page)) else smem s x.
Proof.
  revert j s. induction n as [|n IH]; intros j s Hd Hi Hsz Hp Hpe Hj Hn Hs Hl; cbn [in_loop].
  { exists (smem s). split; [by destruct s|]. intros x. rewrite bool_decide_eq_false_2 by (unfold PGSIZE; lia). done. }
  pose proof (dev_size _ Hd) as Hw. rewrite sector_number, sector_address by lia || done. destruct (block_read_ok (swap_block s) (8 * i + j) Hd ltac:(lia)) as (l0 & Hl0 & -> & Hlen). mstep.
  rewrite Hs in Hl0 by lia. injection Hl0 as <-. set (m1 := write_at _ _ _). destruct (IH (j + 1) (set_smem s m1)) as (m & -> & Hm); try (done || lia). exists m. split; [done|].
  intros x. rewrite Hm. cbn [smem set_smem]. unfold m1, write_at. rewrite Hlen. unfold PGSIZE in *.
  destruct (Z.leb_spec (page + 512 * j) x), (Z.ltb_spec x (page + 512 * j + Z.of_nat 512)); cbn [andb]; do 2 case_bool_decide; try (done || lia).
  rewrite chunk_lookup by lia. do 2 f_equal. lia.
Qed.

(** ** The slots *)

Record swap_ok (s : swap) (M : gmap Z (list Z)) : Prop := {
  so_dev : dev_ok (swap_block s);
  so_map : wf (swap_available s);
  so_size : bit_cnt (swap_available s) = swap_size s;
  so_fits : 8 * swap_size s ≤ bsize (swap_block s) ≤ WORD - 8;
  so_free : ∀ i, 0 ≤ i < swap_size s → bit_at (swap_available s) i = bool_decide (M !! i = None);
  so_slot : ∀ i l, M !! i = Some l → 0 ≤ i < swap_size s ∧ length l = Z.to_nat PGSIZE ∧ ∀ k, 0 ≤ k < 8 → sectors (swap_block s) !! Z.to_nat (8 * i + k) = Some (chunk k l);
}.

(** A page of the kernel's address space. *)
Definition is_page (page : Z) : Prop := is_u32 page ∧ page mod PGSIZE = 0.

Lemma page_end page : is_page page → is_u32 page ∧ page + PGSIZE ≤ WORD.
Proof. intros [Hu Hm]. split; [done|]. unfold is_u32, PGSIZE in *. pose proof (Z.div_mod page 4096 ltac:(lia)). lia. Qed.

Lemma swap_out_ok s M page :
  swap_ok s M → is_page page → PHYS_BASE ≤ page →
  (∃ i s', virtualmemory_swap_out page s = Ok (i, s') ∧ 0 ≤ i < swap_size s ∧ M !! i = None ∧ smem s' = smem s ∧ swap_size s' = swap_size s ∧
     swap_ok s' (<[i := bytes_at (smem s) page PGSIZE]> M)) ∨
  (virtualmemory_swap_out page s = Fault PanicCall ∧ ∀ i, 0 ≤ i < swap_size s → M !! i ≠ None).
Proof.
  intros [] Hpage Hp. destruct (page_end page Hpage) as [Hu Hpe]. unfold virtualmemory_swap_out. rewrite (proj2 (Z.leb_le _ _)) by done. mstep.
  pose proof (wf_cnt _ so_map0) as Hcnt. destruct (first_fit_scan (scans s) (swap_available s) 0 1 true so_map0) as (r & st & E & Hr); [lia|lia|]. change Select with FIRST_FIT. rewrite E. mstep. change (Z.to_nat SECTORS_PER_PAGE) with 8%nat.
  destruct Hr as [(_ & Hr0 & (_ & Hr1 & Hbit) & _)|[-> Hno]].
  - left. rewrite so_size0 in Hr1. assert (bit_at (swap_available s) r = true) as Hfree by (apply Hbit; lia). rewrite so_free0 in Hfree by lia. apply bool_decide_eq_true in Hfree.
    destruct (out_loop_ok 8 0 r page (set_scans s st)) as (b & -> & Hd & Hb & Hs); try (done || cbn; lia). mstep. cbn [swap_block set_block set_scans smem swap_available] in *.
    destruct (bitmap_set_spec (swap_available s) r false so_map0) as (a & -> & Hwf & Hc & Hbits); [lia|]. mstep. eexists r, _. split_and!; try done; try lia.
    split; cbn [swap_block set_block set_scans set_available smem swap_available swap_size]; try done.
    + lia.
    + lia.
    + intros i Hi. rewrite Hbits by lia. destruct (Z.eqb_spec i r) as [->|Hne]; [rewrite lookup_insert_eq; by rewrite bool_decide_eq_false_2|]. rewrite lookup_insert_ne by done. by apply so_free0.
    + intros i l Hl. apply lookup_insert_Some in Hl as [[<- <-]|[Hne Hl]].
      * split_and!; [lia|lia|by rewrite bytes_at_length|]. intros k Hk. rewrite Hs by lia. rewrite bool_decide_eq_true_2 by lia. do 2 f_equal. lia.
      * destruct (so_slot0 i l Hl) as (Hi & Hlen & Hsec). split_and!; try done; try lia. intros k Hk. rewrite Hs by lia. rewrite bool_decide_eq_false_2 by lia. by apply Hsec.
  - right. split.
    + cbn [out_loop swap_block set_scans]. change (u32 (BITMAP_ERROR * SECTORS_PER_PAGE + 0)) with (WORD - 8). unfold block_write, check_sector.
      rewrite (proj2 (Z.leb_le _ _)) by lia. done.
    + intros i Hi HM. apply (Hno i); [lia|]. split_and!; [lia|lia|]. intros k Hk. replace k with i by lia. rewrite so_free0 by lia. by apply bool_decide_eq_true_2.
Qed.

(** A slot is given back, whatever has become of memory. *)
Lemma slot_released s M i l m :
  swap_ok s M → M !! i = Some l →
  bitmap_test (swap_available s) i = Ok false ∧
  ∃ a, bitmap_set (swap_available s) i true = Ok a ∧ swap_ok (set_available (set_smem s m) a) (delete i M).
Proof.
  intros [] Hl. destruct (so_slot0 i l Hl) as (Hi & _). split.
  - rewrite bitmap_test_spec, so_free0 by (done || lia). by rewrite bool_decide_eq_false_2 by (by rewrite Hl).
  - destruct (bitmap_set_spec (swap_available s) i true so_map0) as (a & -> & Hwf & Hc & Hbits); [lia|]. exists a. split; [done|].
    split; cbn [swap_block set_available set_smem swap_available swap_size]; try done; [lia| |].
    + intros j Hj. rewrite Hbits by lia. destruct (Z.eqb_spec j i) as [->|Hne]; [rewrite lookup_delete_eq; by rewrite bool_decide_eq_true_2|]. rewrite lookup_delete_ne by done. by apply so_free0.
    + intros j l' [_ Hj]%lookup_delete_Some. by apply so_slot0.
Qed.

(** A slot that holds nothing. *)
Lemma slot_refused s M i : swap_ok s M → 0 ≤ i < swap_size s → M !! i = None → bitmap_test (swap_available s) i = Ok true.
Proof. intros [] Hi HM. rewrite bitmap_test_spec, so_free0 by (done || lia). by rewrite bool_decide_eq_true_2. Qed.

Lemma swap_in_ok s M i l page :
  swap_ok s M → M !! i = Some l → is_page page → PHYS_BASE ≤ page →
  ∃ s', virtualmemory_swap_in i page s = Ok s' ∧ (∀ x, smem s' x = write_at (smem s) page l x) ∧ swap_size s' = swap_size s ∧ swap_ok s' (delete i M).
Proof.
  intros Hok Hl Hpage Hp. pose proof Hok as []. destruct (so_slot0 i l Hl) as (Hi & Hlen & Hsec). destruct (page_end page Hpage) as [Hu Hpe].
  unfold virtualmemory_swap_in. rewrite (proj2 (Z.leb_le _ _)) by done. mstep. rewrite (proj2 (Z.ltb_lt _ _)) by lia. mstep.
  destruct (in_loop_ok 8 0 i page s l) as (m & E & Hm); try (done || lia). destruct (slot_released s M i l m Hok Hl) as [-> (a & Ea & Hok')]. mstep.
  change (Z.to_nat SECTORS_PER_PAGE) with 8%nat. rewrite E. mstep. cbn [swap_available set_smem]. rewrite Ea. mstep. eexists. split_and!; [done| |done|done].
  intros x. cbn. rewrite Hm. unfold write_at. rewrite Hlen, Z.mul_0_r, Z.add_0_r, Z2Nat.id by done. destruct (Z.leb_spec page x), (Z.ltb_spec x (page + PGSIZE)); case_bool_decide; done || lia.
Qed.

Lemma swap_free_ok s M i l :
  swap_ok s M → M !! i = Some l → ∃ s', virtualmemory_swap_free i s = Ok s' ∧ smem s' = smem s ∧ swap_size s' = swap_size s ∧ swap_ok s' (delete i M).
Proof.
  intros Hok Hl. destruct (so_slot _ _ Hok i l Hl) as (Hi & _). unfold virtualmemory_swap_free. rewrite (proj2 (Z.ltb_lt _ _)) by lia. mstep.
  destruct (slot_released s M i l (smem s) Hok Hl) as [-> (a & -> & Hok')]. mstep. by eexists.
Qed.

(** ** Histories *)

(** The calls of swap.c, and a store of a byte by any code in between. *)
Inductive swap_op := Out (page : Z) | In (i page : Z) | Free (i : Z) | Store (a v : Z).

Definition run_op (op : swap_op) (s : swap) : res (option Z * swap) :=
  match op with
  | Out page => '(i, s) ← virtualmemory_swap_out page s; Ok (Some i, s)
  | In i page => s ← virtualmemory_swap_in i page s; Ok (None, s)
  | Free i => s ← virtualmemory_swap_free i s; Ok (None, s)
  | Store a v => Ok (None, set_smem s (λ x, if x =? a then v else smem s x))
  end.

Fixpoint run_ops (ops : list swap_op) (s : swap) : res (list (option Z) * swap) :=
  match ops with
  | [] => Ok ([], s)
  | op :: ops => '(r, s) ← run_op op s; '(rs, s) ← run_ops ops s; Ok (r :: rs, s)
  end.

Definition op_ok (op : swap_op) : Prop :=
  match op with Out page => is_page page | In i page => 0 ≤ i ∧ is_page page | Free i => 0 ≤ i | Store _ _ => True end.

(** What the swap area promises: a slot keeps the page that was put there. *)
Inductive promised (size : Z) (M : gmap Z (list Z)) (m : Z → Z) : swap_op → option Z → gmap Z (list Z) → (Z → Z) → Prop :=
  | promised_out page i : PHYS_BASE ≤ page → 0 ≤ i < size → M !! i = None → promised size M m (Out page) (Some i) (<[i := bytes_at m page PGSIZE]> M) m
  | promised_in i page l m' : PHYS_BASE ≤ page → M !! i = Some l → (∀ x, m' x = write_at m page l x) → promised size M m (In i page) None (delete i M) m'
  | promised_free i l : M !! i = Some l → promised size M m (Free i) None (delete i M) m
  | promised_store a v m' : (∀ x, m' x = if x =? a then v else m x) → promised size M m (Store a v) None M m'.

(** A call that cannot be promised stops the kernel. *)
Inductive promised_run (size : Z) : gmap Z (list Z) → (Z → Z) → list swap_op → res (list (option Z) * (Z → Z)) → Prop :=
  | run_end M m : promised_run size M m [] (Ok ([], m))
  | run_step M m op r M' m' ops x : promised size M m op r M' m' → promised_run size M' m' ops x →
      promised_run size M m (op :: ops) ('(rs, m) ← x; Ok (r :: rs, m))
  | run_stop M m op ops f : (∀ r M' m', ¬ promised size M m op r M' m') → promised_run size M m (op :: ops) (Fault f).

Lemma swap_op_runs op s M :
  swap_ok s M → op_ok op →
  (∃ r s' M', run_op op s = Ok (r, s') ∧ promised (swap_size s) M (smem s) op r M' (smem s') ∧ swap_size s' = swap_size s ∧ swap_ok s' M') ∨
  (∃ f, run_op op s = Fault f ∧ ∀ r M' m', ¬ promised (swap_size s) M (smem s) op r M' m').
Proof.
  intros Hok Hop. destruct op as [page|i page|i|a v]; cbn [run_op op_ok] in *.
  - destruct (Z.lt_ge_cases page PHYS_BASE) as [Hlt|Hge].
    { right. exists AssertFail. split; [unfold virtualmemory_swap_out; by rewrite (proj2 (Z.leb_gt _ _))|]. intros r M' m' H. inversion H. lia. }
    destruct (swap_out_ok s M page Hok Hop Hge) as [(i & s' & -> & Hi & HM & Hm & Hsz & Hok')|[-> Hfull]].
    + left. eexists _, s', _. split_and!; [done| |done|exact Hok']. rewrite Hm. by constructor.
    + right. eexists. split; [done|]. intros r M' m' H. inversion H. by apply (Hfull i).
  - destruct Hop as [Hi Hpage]. destruct (Z.lt_ge_cases page PHYS_BASE) as [Hlt|Hge].
    { right. exists AssertFail. split; [unfold virtualmemory_swap_in; by rewrite (proj2 (Z.leb_gt _ _))|]. intros r M' m' H. inversion H. lia. }
    destruct (M !! i) as [l|] eqn:HM.
    + destruct (swap_in_ok s M i l page Hok HM Hpage Hge) as (s' & -> & Hm & Hsz & Hok'). left. eexists _, s', _. split_and!; [done|by econstructor|done|exact Hok'].
    + right. assert (∀ r M' m', ¬ promised (swap_size s) M (smem s) (In i page) r M' m') as Hno by (intros r M' m' H; inversion H; congruence).
      unfold virtualmemory_swap_in. rewrite (proj2 (Z.leb_le _ _)) by done. mstep. destruct (Z.ltb_spec i (swap_size s)); [|by exists AssertFail]. mstep. rewrite (slot_refused s M i Hok) by done. mstep. by exists PanicCall.
  - destruct (M !! i) as [l|] eqn:HM.
    + destruct (swap_free_ok s M i l Hok HM) as (s' & -> & Hm & Hsz & Hok'). left. eexists _, s', _. split_and!; [done|rewrite Hm; by econstructor|done|exact Hok'].
    + right. assert (∀ r M' m', ¬ promised (swap_size s) M (smem s) (Free i) r M' m') as Hno by (intros r M' m' H; inversion H; congruence).
      unfold virtualmemory_swap_free. destruct (Z.ltb_spec i (swap_size s)); [|by exists AssertFail]. mstep. rewrite (slot_refused s M i Hok) by done. mstep. by exists PanicCall.
  - left. eexists _, _, M. split_and!; [done|by constructor|done|]. by destruct Hok.
Qed.

Lemma run_ops_ok ops s M : swap_ok s M → Forall op_ok ops → promised_run (swap_size s) M (smem s) ops ('(rs, s) ← run_ops ops s; Ok (rs, smem s)).
Proof.
  intros Hok Hops. revert s M Hok. induction Hops as [|op ops Hop _ IH]; intros s M Hok; cbn [run_ops]; [constructor|].
  destruct (swap_op_runs op s M Hok Hop) as [(r & s' & M' & -> & Hp & Hsz & Hok')|(f & -> & Hno)]; mstep; [|by constructor].
  specialize (IH s' M' Hok'). rewrite Hsz in IH. pose proof (run_step _ _ _ _ _ _ _ _ _ Hp IH) as Hrun. by destruct (run_ops ops s') as [[]| |].
Qed.

Lemma swap_init_ok b mem st m :
  dev_ok b → bsize b ≤ WORD - 8 → length mem = Z.to_nat (elem_cnt (bsize b / 8)) → Forall is_u32 mem →
  ∃ s, virtualmemory_swap_init (Some b) true (Some mem) st m = Ok s ∧ swap_ok s ∅ ∧ smem s = m ∧ swap_size s = bsize b / 8.
Proof.
  intros Hd Hb Hl Hu. pose proof (dev_size _ Hd) as Hsz. pose proof (Z.div_mod (bsize b) 8 ltac:(lia)) as Ed. pose proof (Z.mod_pos_bound (bsize b) 8 ltac:(lia)).
  unfold virtualmemory_swap_init. change SECTORS_PER_PAGE with 8. cbn [Z.ltb Z.compare]. mstep. unfold block_size.
  destruct (bitmap_create_spec (bsize b / 8) mem) as (a & -> & Hwf & Hc & _); [lia|done|done|]. mstep. cbn [deref]. mstep.
  destruct (bitmap_set_all_spec a true Hwf) as (a' & -> & Hwf' & Hc' & Hall). mstep. eexists. split_and!; [done| |done|done].
  split; cbn [swap_block swap_available swap_size]; try done; [lia|lia|]. intros i Hi. rewrite lookup_empty, bool_decide_eq_true_2 by done. apply Hall. lia.
Qed.

(** C28. The swap area on a device is a map from slots to pages: in every history of pages swapped
    out and in, slots freed, and stores to memory in between, a page that is swapped out goes to a
    slot that is free, a slot gives back exactly the page that was put there, and a call for a slot
    that holds nothing, or for a page when no slot is free, stops the kernel. *)
Theorem swap_keeps_pages b mem st m ops :
  dev_ok b → bsize b ≤ WORD - 8 → length mem = Z.to_nat (elem_cnt (bsize b / 8)) → Forall is_u32 mem → Forall op_ok ops →
  promised_run (bsize b / 8) ∅ m ops (s ← virtualmemory_swap_init (Some b) true (Some mem) st m; '(rs, s) ← run_ops ops s; Ok (rs, smem s)).
Proof.
  intros Hd Hb Hl Hu Hops. destruct (swap_init_ok b mem st m Hd Hb Hl Hu) as (s & -> & Hok & Hm & Hsz). mstep. rewrite <-Hm, <-Hsz. by apply run_ops_ok.
Qed.

Definition demo_swap : block := Block BLOCK_SWAP 16 (replicate 16 (replicate 512 0)).
Definition demo_ops : list swap_op := [Store 3221225472 7; Out 3221225472; Store 3221225472 9; In 0 3221229568].

Lemma swap_keeps_pages_witness :
  promised_run 2 ∅ (λ _, 1) demo_ops (s ← virtualmemory_swap_init (Some demo_swap) true (Some [0]) statics0 (λ _, 1); '(rs, s) ← run_ops demo_ops s; Ok (rs, smem s)).
Proof.
  apply (swap_keeps_pages demo_swap [0] statics0 (λ _, 1) demo_ops).
  - apply dev_okb_ok. vm_compute. reflexivity.
  - vm_compute. intros X. discriminate X.
  - vm_compute. reflexivity.
  - repeat constructor; vm_compute; congruence.
  - unfold demo_ops. repeat constructor; vm_compute; congruence.
Defined.
