(* ===== verification/Frame.v ===== *)
(** The frame table (src/vm/frame.c): which pages of memory hold pages of processes, and which of
    them is to be swapped out.

    An entry is known by its address; its members are in [entries], and the table is in the order
    of [frame_list] and by page in [frame_map], which is what the hash table of [Hash] is to its
    clients. The accessed bits of the running process are behind the interface [AccessedBits],
    which the page directories of pagedir.c implement. A pointer to an element that has been
    removed, and the entry that would contain the end of the list, cannot be followed. *)

From S2P Require Import Prelude Vaddr Palloc Pages Pagedir AddrSpace.

(** ** Accessed bits *)

Class AccessedBits (V : Type) := {
  is_accessed : Z → V → res bool;
  clear_accessed : Z → V → res V;
  accessed_bit : V → Z → bool;
  bits_ok : V → Prop;
}.

Class AccessedLaws (V : Type) `{!AccessedBits V} : Prop := {
  is_accessed_law upage (v : V) : bits_ok v → 0 ≤ upage < PHYS_BASE → is_accessed upage v = Ok (accessed_bit v upage);
  clear_accessed_law upage (v : V) : bits_ok v → 0 ≤ upage < PHYS_BASE →
    ∃ v', clear_accessed upage v = Ok v' ∧ bits_ok v' ∧
      ∀ a, 0 ≤ a < PHYS_BASE → accessed_bit v' a = if a / PGSIZE =? upage / PGSIZE then false else accessed_bit v a;
  accessed_page_law (v : V) a b : a / PGSIZE = b / PGSIZE → accessed_bit v a = accessed_bit v b;
}.

Section code.
Context {V : Type} `{!AccessedBits V}.

(** ** State *)

Inductive SwapPolicy := CLOCK | SECOND_CHANCE | LRU.

Definition Policy : SwapPolicy := SECOND_CHANCE.

Record frame_table_entry := Entry { upage : Z; kpage : Z; owner : Z; pinned : bool; history : Z }.

(** A pointer to a list element: null, the element of an entry, or the end of the list. *)
Inductive elem_ptr := Null | Elem (f : Z) | End.

Definition entry_page (e : frame_table_entry) : Z := kpage e.

Record frames := Frames {
  entries : gmap Z frame_table_entry;
  frame_list : list Z;
  frame_map : gmap Z Z;
  clock_ptr : elem_ptr;
  frame_lock : bool;
  vm : V;
}.

Definition set_entries (s : frames) e : frames := Frames e (frame_list s) (frame_map s) (clock_ptr s) (frame_lock s) (vm s).
Definition set_clock (s : frames) p : frames := Frames (entries s) (frame_list s) (frame_map s) p (frame_lock s) (vm s).
Definition set_vm (s : frames) v : frames := Frames (entries s) (frame_list s) (frame_map s) (clock_ptr s) (frame_lock s) v.
Definition set_lock (s : frames) b : frames := Frames (entries s) (frame_list s) (frame_map s) (clock_ptr s) b (vm s).

Definition frame_entry (f : Z) (s : frames) : res frame_table_entry := deref (entries s !! f).

Definition virtualmemory_frame_init (v : V) : frames := Frames ∅ [] ∅ Null false v.

(** ** Lists *)

Definition list_begin (s : frames) : elem_ptr := match frame_list s with [] => End | f :: _ => Elem f end.

(** The element after [f]. *)
Fixpoint after (f : Z) (l : list Z) : option elem_ptr :=
  match l with
  | [] => None
  | x :: l => if x =? f then Some (match l with [] => End | y :: _ => Elem y end) else after f l
  end.

Definition list_next (p : elem_ptr) (s : frames) : res elem_ptr :=
  match p with Elem f => deref (after f (frame_list s)) | _ => Fault BadAccess end.

Definition list_entry (p : elem_ptr) : res Z := match p with Elem f => Ok f | _ => Fault BadAccess end.

(** ** Choosing a frame *)

Definition clock_frame_next (s : frames) : res (Z * frames) :=
  if bool_decide (frame_list s = []) then Fault PanicCall
  else
    p ← (match clock_ptr s with Null | End => Ok (list_begin s) | p => list_next p s end);
    e ← list_entry p;
    Ok (e, set_clock s p).

(** The loop of the policy CLOCK, at most [n] times. *)
Fixpoint clock_loop (n : nat) (s : frames) : res (Z * frames) :=
  match n with
  | O => Fault PanicCall
  | S n =>
      '(f, s) ← clock_frame_next s;
      e ← frame_entry f s;
      if pinned e then clock_loop n s
      else
        a ← is_accessed (upage e) (vm s);
        if a : bool then v ← clear_accessed (upage e) (vm s); clock_loop n (set_vm s v)
        else Ok (f, s)
  end.

(** The loop of the policy SECOND_CHANCE. *)
Fixpoint second_chance_loop (n : nat) (s : frames) : res (Z * frames) :=
  match n with
  | O => Fault PanicCall
  | S n =>
      '(f, s) ← clock_frame_next (set_clock s Null);
      e ← frame_entry f s;
      if pinned e then second_chance_loop n s
      else
        a ← is_accessed (upage e) (vm s);
        if a : bool then v ← clear_accessed (upage e) (vm s); second_chance_loop n (set_vm s v)
        else Ok (f, s)
  end.

(** The loop of [lru_entry], over the elements [l]; [e] is not assigned at first. *)
Fixpoint lru_loop (l : list Z) (oldest : Z) (e : option Z) (s : frames) : res (option Z) :=
  match l with
  | [] => Ok e
  | f :: l =>
      x ← frame_entry f s;
      if (history x <? oldest) && negb (pinned x) then lru_loop l (history x) (Some f) s else lru_loop l oldest e s
  end.

Definition lru_entry (s : frames) : res (Z * frames) :=
  e ← lru_loop (frame_list s) 999999999 None s;
  f ← deref e;
  x ← frame_entry f s;
  Ok (f, set_clock (set_entries s (<[f := Entry (upage x) (kpage x) (owner x) (pinned x) 99999999]> (entries s))) End).

Definition pick_frame_to_evict (policy : SwapPolicy) (s : frames) : res (Z * frames) :=
  let n := size (frame_map s) in
  if bool_decide (n = 0%nat) then Fault PanicCall
  else
    match policy with
    | CLOCK => clock_loop (n + n + 1) s
    | SECOND_CHANCE => second_chance_loop (n + 1) s
    | LRU => lru_entry s
    end.

(** ** Changing the table *)

(** [free_frame] is [palloc_free_page]. *)
Definition virtualmemory_frame_do_free (free_frame : Z → V → res V) (kpage : Z) (free_page : bool) (s : frames) : res frames :=
  ASSERT frame_lock s ;;
  ASSERT is_kernel_vaddr kpage ;;
  ASSERT pg_ofs kpage =? 0 ;;
  match frame_map s !! kpage with
  | None => Fault PanicCall
  | Some f =>
      v ← (if free_page then free_frame kpage (vm s) else Ok (vm s));
      Ok (Frames (delete f (entries s)) (filter (λ x, x ≠ f) (frame_list s)) (delete kpage (frame_map s)) (clock_ptr s) (frame_lock s) v)
  end.

(** [lock_acquire] and [lock_release], for one thread at a time. *)
Definition with_lock (c : frames → res frames) (s : frames) : res frames :=
  ASSERT negb (frame_lock s) ;; s ← c (set_lock s true); Ok (set_lock s false).

Definition virtualmemory_frame_free (free_frame : Z → V → res V) (kpage : Z) : frames → res frames := with_lock (virtualmemory_frame_do_free free_frame kpage true).
Definition virtualmemory_frame_remove_entry (free_frame : Z → V → res V) (kpage : Z) : frames → res frames := with_lock (virtualmemory_frame_do_free free_frame kpage false).

Definition virtualmemory_frame_set_pinned (kpage : Z) (new_value : bool) : frames → res frames := with_lock (λ s,
  match frame_map s !! kpage with
  | None => Fault PanicCall
  | Some f => x ← frame_entry f s; Ok (set_entries s (<[f := Entry (upage x) (entry_page x) (owner x) new_value (history x)]> (entries s)))
  end).

Definition virtualmemory_frame_unpin (kpage : Z) : frames → res frames := virtualmemory_frame_set_pinned kpage false.
Definition virtualmemory_frame_pin (kpage : Z) : frames → res frames := virtualmemory_frame_set_pinned kpage true.

End code.

Arguments frames V : clear implicits.

(** ** The accessed bits of a page directory *)

Section pagedir.
Context {P : Type} `{!PageOps P} `{!PageLaws P}.
Context (ip d : Z).

Definition pagedir_bits : AccessedBits (machine P) := {|
  is_accessed a s := pagedir_is_accessed (PGSIZE * d) a s;
  clear_accessed a s := pagedir_set_accessed (PGSIZE * ip) (PGSIZE * d) a false s;
  accessed_bit s a := has_flag (entry s d (a / PGSIZE)) PTE_A;
  bits_ok s := ∃ own da, machine_inv ip s own da ∧ own !! d = Some IsDir;
|}.

Lemma no_flag_left w : has_flag (with_flag w PTE_A false) PTE_A = false.
Proof.
  unfold has_flag, with_flag. rewrite <-Z.land_assoc. change (Z.land (u32 (Z.lnot PTE_A)) PTE_A) with 0. by rewrite Z.land_0_r.
Qed.

Lemma pagedir_bits_laws : @AccessedLaws (machine P) pagedir_bits.
Proof using PageLaws0.
  split.
  - intros a s (own & da & [Hvm _ _ _ _] & Hd) Ha. cbn. unfold pagedir_is_accessed. by rewrite (is_flag_ok s own).
  - intros a s (own & da & Hmi & Hd) Ha. pose proof Hmi as [Hvm Hact _ _ _]. cbn [clear_accessed bits_ok accessed_bit pagedir_bits].
    destruct (set_flag_ok (PGSIZE * ip) s own d da a PTE_A false ltac:(by left) Hvm Hd Hact Ha) as (s' & E & Hch).
    exists s'. split; [exact E|]. split.
    { exists own, da. split; [|done]. eapply machine_flag; [by left|done..]. }
    intros b Hb. destruct (word s d (a / PGSIZE / 1024) =? 0) eqn:E0.
    + subst s'. destruct (Z.eqb_spec (b / PGSIZE) (a / PGSIZE)) as [Eb|]; [|done]. rewrite Eb. unfold entry. by rewrite E0.
    + destruct Hch as [_ _ He _ _]. rewrite (He d (b / PGSIZE)).
      * destruct (Z.eqb_spec (b / PGSIZE) (a / PGSIZE)) as [Eb|].
        { rewrite Eb. rewrite bool_decide_eq_true_2 by done. apply no_flag_left. }
        by rewrite bool_decide_eq_false_2 by congruence.
      * done.
      * by destruct (user_fields b Hb) as (_ & _ & _ & _ & ?).
  - intros s a b E. cbn. by rewrite E.
Qed.

End pagedir.

(** ** The chosen frame *)

Section chosen.
Context {V : Type} `{!AccessedBits V} `{!AccessedLaws V}.
Implicit Types (s : frames V).

Record frames_ok s : Prop := {
  fo_nodup : NoDup (frame_list s);
  fo_size : size (frame_map s) = length (frame_list s);
  fo_listed f : f ∈ frame_list s ↔ is_Some (entries s !! f);
  fo_map k f : frame_map s !! k = Some f ↔ ∃ e, entries s !! f = Some e ∧ kpage e = k;
  fo_user f e : entries s !! f = Some e → 0 ≤ upage e < PHYS_BASE;
  fo_bits : bits_ok (vm s);
}.

Lemma frame_entry_ok s f : frames_ok s → f ∈ frame_list s → ∃ e, frame_entry f s = Ok e ∧ entries s !! f = Some e ∧ 0 ≤ upage e < PHYS_BASE.
Proof.
  intros Hs Hf. apply (fo_listed s Hs) in Hf as [e He]. exists e. unfold frame_entry. rewrite He. split; [done|]. split; [done|]. by apply (fo_user s Hs f).
Qed.

(** What a search may change: the clock pointer and the accessed bits. *)
Record searched s s' : Prop := {
  se_entries : entries s' = entries s;
  se_list : frame_list s' = frame_list s;
  se_map : frame_map s' = frame_map s;
  se_lock : frame_lock s' = frame_lock s;
  se_bits : bits_ok (vm s');
}.

Lemma searched_ok s s' : searched s s' → frames_ok s → frames_ok s'.
Proof. intros [He Hl Hm Hk Hb] []. split; rewrite ?He, ?Hl, ?Hm; done. Qed.

Lemma searched_trans s1 s2 s3 : searched s1 s2 → searched s2 s3 → searched s1 s3.
Proof. intros [] []. split; congruence. Qed.

Lemma searched_clock s p : bits_ok (vm s) → searched s (set_clock s p).
Proof. by split. Qed.

Lemma searched_vm s v : bits_ok v → searched s (set_vm s v).
Proof. by split. Qed.

Lemma after_in f l g : after f l = Some (Elem g) → g ∈ l.
Proof.
  induction l as [|x l IH]; [done|]. cbn [after]. case_match; [|intros ?; right; auto].
  destruct l; [done|]. intros [= ->]. right. left.
Qed.

Lemma clock_next_in s f s' : frames_ok s → clock_frame_next s = Ok (f, s') → f ∈ frame_list s ∧ searched s s'.
Proof.
  intros Hs. unfold clock_frame_next. case_bool_decide as Hl; [done|]. intros E.
  apply res_bind_Ok in E as (p & Ep & E). apply res_bind_Ok in E as (e & Ee & [= <- <-]). destruct p as [|g|]; try done. injection Ee as <-.
  split; [|apply searched_clock, Hs].
  unfold list_begin, list_next in Ep. destruct (clock_ptr s) as [|h|]; destruct (frame_list s) as [|y l] eqn:E; try done.
  - injection Ep as ->. left.
  - destruct (after h (y :: l)) as [q|] eqn:Ea; [|done]. injection Ep as ->. by apply after_in in Ea.
  - injection Ep as ->. left.
Qed.

(** One turn of the loops of the policies CLOCK and SECOND_CHANCE. *)
Definition turn (again : frames V → res (Z * frames V)) (s : frames V) : res (Z * frames V) :=
  '(f, s) ← clock_frame_next s;
  e ← frame_entry f s;
  if pinned e then again s
  else
    a ← is_accessed (upage e) (vm s);
    if a : bool then v ← clear_accessed (upage e) (vm s); again (set_vm s v)
    else Ok (f, s).

Definition chosen s f s' : Prop := f ∈ frame_list s ∧ searched s s' ∧ ∃ e, entries s !! f = Some e ∧ pinned e = false.

Lemma chosen_searched s s1 f s' : searched s s1 → chosen s1 f s' → chosen s f s'.
Proof.
  intros Hse (Hf & Hs' & Hp). split_and!; [by rewrite <-(se_list _ _ Hse)|by eapply searched_trans|by rewrite <-(se_entries _ _ Hse)].
Qed.

Lemma turn_chosen again s f s' :
  frames_ok s → (∀ s1, frames_ok s1 → again s1 = Ok (f, s') → chosen s1 f s') → turn again s = Ok (f, s') → chosen s f s'.
Proof using AccessedLaws0.
  intros Hs Hag E. apply res_bind_Ok in E as ([g s1] & E1 & E). apply clock_next_in in E1 as [Hg Hse]; [|done].
  pose proof (searched_ok _ _ Hse Hs) as Hs1. apply (chosen_searched s s1); [done|].
  rewrite <-(se_list _ _ Hse) in Hg. destruct (frame_entry_ok s1 g Hs1 Hg) as (e & Ee & Hl & Hu). rewrite Ee in E. revert E. mstep.
  destruct (pinned e) eqn:Ep; [by apply Hag|]. rewrite is_accessed_law by (done || apply Hs1). mstep.
  destruct (accessed_bit (vm s1) (upage e)).
  - destruct (clear_accessed_law (upage e) (vm s1) (fo_bits _ Hs1) Hu) as (v & -> & Hv & _). mstep. intros E.
    apply (chosen_searched s1 (set_vm s1 v)); [by apply searched_vm|]. apply Hag; [|done]. eapply searched_ok; [|done]. by apply searched_vm.
  - intros [= -> ->]. split; [done|]. split; [by split; try apply Hs1|]. by exists e.
Qed.

Lemma clock_loop_chosen n s f s' : frames_ok s → clock_loop n s = Ok (f, s') → chosen s f s'.
Proof using AccessedLaws0.
  revert s. induction n as [|n IH]; intros s Hs; [done|]. by apply (turn_chosen (clock_loop n)).
Qed.

Lemma second_chance_chosen n s f s' : frames_ok s → second_chance_loop n s = Ok (f, s') → chosen s f s'.
Proof using AccessedLaws0.
  revert s. induction n as [|n IH]; intros s Hs; [done|]. intros E.
  apply (chosen_searched s (set_clock s Null)); [apply searched_clock, Hs|].
  apply (turn_chosen (second_chance_loop n)); [|done|done]. eapply searched_ok; [|done]. apply searched_clock, Hs.
Qed.

(** The head of the list is all that SECOND_CHANCE looks at. *)
Lemma second_chance_head n s f e rest :
  frames_ok s → frame_list s = f :: rest → entries s !! f = Some e →
  if pinned e then second_chance_loop n s = Fault PanicCall
  else ∃ v, second_chance_loop (S (S n)) s = Ok (f, set_vm (set_clock s (Elem f)) v) ∧ bits_ok v ∧
    ∀ a, 0 ≤ a < PHYS_BASE → accessed_bit v a = if a / PGSIZE =? upage e / PGSIZE then false else accessed_bit (vm s) a.
Proof using AccessedLaws0.
  intros Hs Hl He.
  assert (∀ s1, frame_list s1 = f :: rest → clock_frame_next (set_clock s1 Null) = Ok (f, set_clock s1 (Elem f))) as Hnext.
  { intros s1 E1. unfold clock_frame_next, list_begin. cbn [frame_list set_clock clock_ptr]. by rewrite E1, bool_decide_eq_false_2 by done. }
  assert (∀ s1, entries s1 = entries s → frame_entry f s1 = Ok e) as Hent.
  { intros s1 E1. unfold frame_entry. by rewrite E1, He. }
  destruct (pinned e) eqn:Ep.
  - revert s Hs Hl He Hent. induction n as [|n IH]; intros s Hs Hl He Hent; [done|]. cbn [second_chance_loop].
    rewrite Hnext by done. mstep. rewrite Hent by done. mstep. rewrite Ep. apply IH; [|done..].
    eapply searched_ok; [|done]. apply searched_clock, Hs.
  - pose proof (fo_user s Hs f e He) as Hu. pose proof (fo_bits s Hs) as Hb. remember (S n) as k eqn:Ek. cbn [second_chance_loop].
    rewrite Hnext by done. mstep. rewrite Hent by done. mstep. rewrite Ep. cbn [vm set_clock].
    rewrite is_accessed_law by done. mstep. destruct (accessed_bit (vm s) (upage e)) eqn:Ea.
    + destruct (clear_accessed_law (upage e) (vm s) Hb Hu) as (v & -> & Hv & Hbit). mstep. exists v. subst k. cbn [second_chance_loop].
      rewrite Hnext by done. mstep. rewrite Hent by done. mstep. rewrite Ep. cbn [vm set_clock set_vm].
      rewrite is_accessed_law by done. mstep. by rewrite Hbit, Z.eqb_refl by done.
    + exists (vm s). split; [by destruct s|]. split; [done|]. intros a Ha. destruct (Z.eqb_spec (a / PGSIZE) (upage e / PGSIZE)) as [E|]; [|done].
      by rewrite (accessed_page_law _ _ _ E).
Qed.

Definition evictable s (f : Z) (h : Z) : Prop := f ∈ frame_list s ∧ ∃ e, entries s !! f = Some e ∧ pinned e = false ∧ history e = h.

Lemma lru_loop_ok l oldest e s :
  frames_ok s → (∀ f, f ∈ l → f ∈ frame_list s) →
  ∃ e', lru_loop l oldest e s = Ok e' ∧
    (e' = e ∧ (∀ f h, f ∈ l → evictable s f h → oldest ≤ h) ∨
     ∃ f h, e' = Some f ∧ f ∈ l ∧ evictable s f h ∧ h < oldest ∧ ∀ g h', g ∈ l → evictable s g h' → h ≤ h').
Proof.
  intros Hs. revert oldest e. induction l as [|f l IH]; intros oldest e Hl; cbn [lru_loop].
  { exists e. split; [done|]. left. split; [done|]. intros f h Hf. by apply elem_of_nil in Hf. }
  destruct (frame_entry_ok s f Hs (Hl f ltac:(left))) as (x & -> & Hx & _). mstep.
  assert (∀ h, evictable s f h → pinned x = false ∧ history x = h) as Hinv.
  { intros h (_ & y & Hy & Hp & Hh). rewrite Hx in Hy. by injection Hy as ->. }
  assert (∀ g, g ∈ l → g ∈ frame_list s) as Hl' by (intros; apply Hl; by right).
  destruct ((history x <? oldest) && negb (pinned x)) eqn:Et.
  - apply andb_true_iff in Et as [Et Ep]. apply Z.ltb_lt in Et. apply negb_true_iff in Ep.
    assert (evictable s f (history x)) as Hev by (split; [apply Hl; left|by exists x]).
    destruct (IH (history x) (Some f) Hl') as (e' & -> & Hc). exists e'. split; [done|]. right. destruct Hc as [[-> Hmin]|(g & h & -> & Hg & He & Hh & Hmin)].
    + exists f, (history x). split_and!; [done|left|done|done|]. intros g h' Hg Hev'. apply elem_of_cons in Hg as [->|Hg]; [|by eapply Hmin].
      apply Hinv in Hev'. lia.
    + exists g, h. split_and!; [done|by right|done|lia|]. intros g' h' Hg' Hev'. apply elem_of_cons in Hg' as [->|Hg']; [|by eapply Hmin].
      apply Hinv in Hev'. lia.
  - assert (∀ h, evictable s f h → oldest ≤ h) as Hskip.
    { intros h Hev. apply Hinv in Hev as [Hp Hh]. rewrite Hp, andb_true_r in Et. apply Z.ltb_ge in Et. lia. }
    destruct (IH oldest e Hl') as (e' & -> & Hc). exists e'. split; [done|]. destruct Hc as [[-> Hmin]|(g & h & -> & Hg & He & Hh & Hmin)].
    + left. split; [done|]. intros g h Hg Hev. apply elem_of_cons in Hg as [->|Hg]; [auto|by eapply Hmin].
    + right. exists g, h. split_and!; [done|by right|done|lia|]. intros g' h' Hg' Hev'. apply elem_of_cons in Hg' as [->|Hg']; [|by eapply Hmin].
      apply Hskip in Hev'. lia.
Qed.

(** LRU takes an entry that is not pinned with the least number, if there is one with a number below
    999999999; otherwise it follows the pointer it did not assign. *)
Lemma lru_entry_ok s :
  frames_ok s →
  (∃ f h s', lru_entry s = Ok (f, s') ∧ evictable s f h ∧ h < 999999999 ∧ (∀ g h', evictable s g h' → h ≤ h') ∧
     frame_list s' = frame_list s ∧ frame_map s' = frame_map s ∧ vm s' = vm s) ∨
  lru_entry s = Fault BadAccess ∧ ∀ f h, evictable s f h → 999999999 ≤ h.
Proof.
  intros Hs. unfold lru_entry. destruct (lru_loop_ok (frame_list s) 999999999 None s Hs ltac:(done)) as (e & -> & Hc). mstep.
  destruct Hc as [[-> Hmin]|(f & h & -> & Hf & He & Hh & Hmin)].
  - right. split; [done|]. intros f h Hev. apply (Hmin f); [apply Hev|done].
  - left. destruct (frame_entry_ok s f Hs Hf) as (x & Ex & _). mstep. rewrite Ex. mstep. exists f, h. eexists. split; [done|]. split_and!; try done.
    intros g h' Hev. apply (Hmin g); [apply Hev|done].
Qed.

Lemma after_app dn f l : f ∉ dn → after f (dn ++ f :: l) = Some (match l with [] => End | g :: _ => Elem g end).
Proof.
  induction dn as [|x dn IH]; cbn [app after]; [by rewrite Z.eqb_refl|]. intros Hf. apply not_elem_of_cons in Hf as [Hx Hf].
  rewrite (proj2 (Z.eqb_neq x f)) by congruence. by apply IH.
Qed.

(** When all that is left of the list is pinned, CLOCK runs past its end. *)
Lemma clock_runs_out l dn f s n :
  frames_ok s → frame_list s = dn ++ f :: l → clock_ptr s = Elem f → (∀ g e, g ∈ l → entries s !! g = Some e → pinned e = true) →
  (length l < n)%nat → clock_loop n s = Fault BadAccess.
Proof.
  revert dn f s n. induction l as [|g l IH]; intros dn f s n Hs Hl Hc Hp Hn; (destruct n as [|n]; [cbn in Hn; lia|]); cbn [clock_loop];
    unfold clock_frame_next, list_next; rewrite bool_decide_eq_false_2 by (rewrite Hl; by destruct dn); rewrite Hc, Hl;
    pose proof (fo_nodup s Hs) as Hnd; rewrite Hl in Hnd; apply NoDup_app in Hnd as (_ & Hnd & _);
    (rewrite after_app by (intros Hf; apply (Hnd f); [done|left])); mstep; [done|].
  destruct (frame_entry_ok s g Hs) as (e & Ee & He & _).
  { rewrite Hl. apply elem_of_app. right. right. left. }
  cbn [list_entry]. mstep. change (frame_entry g (set_clock s (Elem g))) with (frame_entry g s). rewrite Ee. mstep. rewrite (Hp g e) by (done || left).
  apply (IH (dn ++ [f]) g); [|by cbn; rewrite <-app_assoc|done| |cbn in Hn; lia].
  - eapply searched_ok; [|done]. apply searched_clock, Hs.
  - intros g' e' Hg'. apply Hp. by right.
Qed.

Lemma clock_all_pinned s :
  frames_ok s → frame_list s ≠ [] → clock_ptr s = Null → (∀ f e, entries s !! f = Some e → pinned e = true) →
  pick_frame_to_evict CLOCK s = Fault BadAccess.
Proof.
  intros Hs Hne Hc Hp. unfold pick_frame_to_evict. rewrite (fo_size s Hs). destruct (frame_list s) as [|f l] eqn:Hl; [done|].
  rewrite bool_decide_eq_false_2 by done. cbn [length]. replace (S (length l) + S (length l) + 1)%nat with (S (S (length l + length l + 1))) by lia.
  remember (S (length l + length l + 1)) as n eqn:En. cbn [clock_loop]. unfold clock_frame_next, list_begin. rewrite Hl, Hc. mstep.
  destruct (frame_entry_ok s f Hs) as (e & Ee & He & _); [rewrite Hl; left|].
  rewrite bool_decide_eq_false_2 by done. cbn [list_entry]. mstep. change (frame_entry f (set_clock s (Elem f))) with (frame_entry f s). rewrite Ee. mstep. rewrite (Hp f e He).
  apply (clock_runs_out l [] f); [|done|done|by eauto|lia]. eapply searched_ok; [|done]. apply searched_clock, Hs.
Qed.

Lemma pick_chosen policy s f s' : frames_ok s → pick_frame_to_evict policy s = Ok (f, s') → f ∈ frame_list s ∧ ∃ e, entries s !! f = Some e ∧ pinned e = false.
Proof using AccessedLaws0.
  intros Hs. unfold pick_frame_to_evict. case_bool_decide; [done|]. destruct policy.
  - intros E. apply clock_loop_chosen in E as (? & _ & ?); auto.
  - intros E. apply second_chance_chosen in E as (? & _ & ?); auto.
  - destruct (lru_entry_ok s Hs) as [(g & h & s1 & -> & [Hg (e & He & Hp & _)] & _)|[-> _]]; [|done]. intros [= <- _]. by eauto.
Qed.

(** ** The table *)

Lemma with_lock_ok (c : frames V → res (frames V)) s s' :
  frame_lock s = false → c (set_lock s true) = Ok s' → with_lock c s = Ok (set_lock s' false).
Proof. intros Hk E. unfold with_lock. rewrite Hk. mstep. by rewrite E. Qed.

Lemma set_pinned_ok s k f e b :
  frames_ok s → frame_lock s = false → frame_map s !! k = Some f → entries s !! f = Some e →
  let s' := set_entries s (<[f := Entry (upage e) (kpage e) (owner e) b (history e)]> (entries s)) in
  virtualmemory_frame_set_pinned k b s = Ok s' ∧ frames_ok s'.
Proof.
  intros Hs Hk Hm He s'. split.
  - unfold virtualmemory_frame_set_pinned. erewrite with_lock_ok; [|done|].
    2:{ cbn [frame_map set_lock]. rewrite Hm. unfold frame_entry. cbn [entries set_lock]. rewrite He. mstep. done. }
    unfold s', set_entries, set_lock. cbn. by rewrite Hk.
  - destruct Hs as [Hnd Hsz Hli Hmp Hus Hb]. split; [done|done| | | |done]; cbn [s' entries set_entries frame_list frame_map].
    + intros g. rewrite Hli. destruct (decide (g = f)) as [->|]; [by rewrite lookup_insert_eq, He; split; eauto|by rewrite lookup_insert_ne].
    + intros k' g. rewrite Hmp. destruct (decide (g = f)) as [->|]; [|by rewrite lookup_insert_ne].
      rewrite lookup_insert_eq, He. split; intros (x & [= <-] & ?); by eexists.
    + intros g x. destruct (decide (g = f)) as [->|]; [|rewrite lookup_insert_ne by done; apply Hus].
      rewrite lookup_insert_eq. intros [= <-]. by apply (Hus f e).
Qed.

Lemma do_free_ok free_frame (free_page : bool) s k f v :
  frames_ok s → frame_lock s = true → frame_map s !! k = Some f → is_kernel_vaddr k = true → pg_ofs k = 0 →
  (if free_page then free_frame k (vm s) else Ok (vm s)) = Ok v → bits_ok v →
  ∃ s', virtualmemory_frame_do_free free_frame k free_page s = Ok s' ∧ frames_ok s' ∧ vm s' = v ∧
    entries s' = delete f (entries s) ∧ frame_map s' = delete k (frame_map s) ∧ frame_lock s' = true.
Proof.
  intros Hs Hk Hm Hkv Ho Ev Hv. unfold virtualmemory_frame_do_free. rewrite Hk, Hkv, Ho, Hm. mstep. cbn [Z.eqb]. rewrite Ev. mstep.
  eexists. split; [done|]. split; [|done]. destruct Hs as [Hnd Hsz Hli Hmp Hus Hb].
  assert (f ∈ frame_list s) as Hf by (apply Hli; apply Hmp in Hm as (e & -> & _); eauto).
  split; cbn [entries frame_list frame_map vm]; [by apply NoDup_filter| | | | |done].
  - rewrite map_size_delete_Some by eauto. rewrite Hsz. clear -Hnd Hf.
    induction (frame_list s) as [|x l IH]; [by apply elem_of_nil in Hf|]. apply NoDup_cons in Hnd as [Hx Hnd].
    rewrite filter_cons. destruct (decide (x ≠ f)) as [Hne|He].
    + cbn [length]. apply elem_of_cons in Hf as [->|Hf]; [done|]. rewrite <-IH by done. apply elem_of_Permutation in Hf as [l' ->]. cbn. lia.
    + apply dec_stable in He as ->. rewrite filter_all; [cbn; lia|]. apply Forall_forall. intros y Hy ->. done.
  - intros g. rewrite list_elem_of_filter, Hli. destruct (decide (g = f)) as [->|]; [rewrite lookup_delete_eq|rewrite lookup_delete_ne by done]; [|naive_solver].
    split; [naive_solver|by intros []].
  - intros k' g. split.
    + intros E. apply lookup_delete_Some in E as [Hne E]. apply Hmp in E as (e & He & <-). exists e. split; [|done].
      apply lookup_delete_Some. split; [|done]. intros <-. apply Hmp in Hm as (e' & He' & <-). congruence.
    + intros (e & He & <-). apply lookup_delete_Some in He as [Hne He]. apply lookup_delete_Some. split; [|apply Hmp; by exists e].
      intros E. assert (frame_map s !! kpage e = Some g) as E' by (apply Hmp; by exists e). congruence.
  - intros g e E. apply lookup_delete_Some in E as [_ E]. by apply (Hus g).
Qed.

End chosen.

(** ** Theorems *)

Section theorems.
Context {V : Type} `{!AccessedBits V} `{!AccessedLaws V}.
Context (s : frames V) (Hs : frames_ok s).

Lemma pinned_stays policy k s1 g s2 :
  frame_lock s = false → virtualmemory_frame_pin k s = Ok s1 → pick_frame_to_evict policy s1 = Ok (g, s2) → frame_map s !! k ≠ Some g.
Proof using Hs AccessedLaws0.
  intros Hk E1 E2 Hm. destruct (proj1 (fo_map s Hs k g) Hm) as (e & He & _).
  destruct (set_pinned_ok s k g e true Hs Hk Hm He) as [E Hs1]. unfold virtualmemory_frame_pin in E1. rewrite E in E1. injection E1 as <-.
  apply pick_chosen in E2 as (_ & x & Hx & Hp); [|done]. cbn [entries set_entries] in Hx. rewrite lookup_insert_eq in Hx. by injection Hx as <-.
Qed.

(** C29. The frame chosen to be swapped out. Whichever policy is used, the frame that
    pick_frame_to_evict returns is a frame of the table that is not pinned, and a frame that has just
    been pinned is never the one. The policy in use, SECOND_CHANCE, looks only at the first frame of the
    list: it takes that frame, whose accessed bit it clears and no other, even if that frame was
    accessed; and it panics if that frame is pinned, even if others are not. LRU takes a frame with the
    least number among those not pinned, if there is one below 999999999, and otherwise uses a pointer
    it did not assign. CLOCK reads past the end of the list when every frame is pinned. *)
Theorem frame_evicted :
  (∀ policy f s', pick_frame_to_evict policy s = Ok (f, s') → f ∈ frame_list s ∧ ∃ e, entries s !! f = Some e ∧ pinned e = false) ∧
  (∀ policy k s1 g s2, frame_lock s = false → virtualmemory_frame_pin k s = Ok s1 → pick_frame_to_evict policy s1 = Ok (g, s2) →
     frame_map s !! k ≠ Some g) ∧
  (∀ f e rest, frame_list s = f :: rest → entries s !! f = Some e →
     if pinned e then pick_frame_to_evict Policy s = Fault PanicCall
     else ∃ v, pick_frame_to_evict Policy s = Ok (f, set_vm (set_clock s (Elem f)) v) ∧ bits_ok v ∧
       ∀ a, 0 ≤ a < PHYS_BASE → accessed_bit v a = if a / PGSIZE =? upage e / PGSIZE then false else accessed_bit (vm s) a) ∧
  (frame_list s ≠ [] →
     (∃ f h s', pick_frame_to_evict LRU s = Ok (f, s') ∧ evictable s f h ∧ h < 999999999 ∧ ∀ g h', evictable s g h' → h ≤ h') ∨
     pick_frame_to_evict LRU s = Fault BadAccess ∧ ∀ f h, evictable s f h → 999999999 ≤ h) ∧
  (frame_list s ≠ [] → clock_ptr s = Null → (∀ f e, entries s !! f = Some e → pinned e = true) →
     pick_frame_to_evict CLOCK s = Fault BadAccess).
Proof using Hs AccessedLaws0.
  split_and!.
  - intros. by eapply pick_chosen.
  - apply pinned_stays.
  - intros f e rest Hl He. unfold pick_frame_to_evict, Policy. rewrite (fo_size s Hs), Hl. cbn [length]. rewrite bool_decide_eq_false_2 by done.
    replace (S (length rest) + 1)%nat with (S (S (length rest))) by lia. pose proof (second_chance_head (length rest) s f e rest Hs Hl He) as H1.
    destruct (pinned e) eqn:Ep; [|done]. pose proof (second_chance_head (S (S (length rest))) s f e rest Hs Hl He) as H2. by rewrite Ep in H2.
  - intros Hne. unfold pick_frame_to_evict. rewrite (fo_size s Hs). rewrite bool_decide_eq_false_2 by (by destruct (frame_list s)).
    destruct (lru_entry_ok s Hs) as [(f & h & s' & E & He & Hh & Hmin & _)|Hf]; [|by right]. left. by exists f, h, s'.
  - by apply clock_all_pinned.
Qed.

End theorems.

(** ** An example

    Two frames of the process of [AddrSpace.demo4], the first of which has been accessed. *)

Definition demo_accessed : machine palloc_state :=
  match pagedir_set_accessed (PGSIZE * demo_ip) (PGSIZE * 786689) 4096 true demo4 with Ok s => s | _ => demo4 end.

#[local] Instance demo_bits : AccessedBits (machine palloc_state) := pagedir_bits demo_ip 786689.

#[local] Instance demo_bits_laws : AccessedLaws (machine palloc_state).
Proof. apply pagedir_bits_laws. Qed.

Definition demo_frames : frames (machine palloc_state) :=
  Frames {[1 := Entry 4096 (PGSIZE * 786692) 7 false 0; 2 := Entry 8192 (PGSIZE * 786693) 7 false 1]} [1; 2]
    {[PGSIZE * 786692 := 1; PGSIZE * 786693 := 2]} Null false demo_accessed.

Lemma demo_accessed_ok : bits_ok demo_accessed.
Proof.
  assert (rtc (vm_step demo_ip 264) (demo0, {[demo_ip := IsDir]}) (demo_accessed, demo_pages)) as Hrun.
  { eapply rtc_r; [apply demo_run|]. apply (do_set_accessed _ _ 786689 4096 true); [done..|].
    unfold demo_accessed. destruct (pagedir_set_accessed (PGSIZE * demo_ip) (PGSIZE * 786689) 4096 true demo4) as [x| |] eqn:E; [done| |]; exfalso;
      assert (match pagedir_set_accessed (PGSIZE * demo_ip) (PGSIZE * 786689) 4096 true demo4 with Ok _ => true | _ => false end = true) as Et
      by (vm_compute; reflexivity); by rewrite E in Et. }
  destruct (reachable_view _ _ _ _ _ demo_initial Hrun) as (own & da & Hm & Hv). exists own, da. split; [done|].
  by apply (view_other own demo_pages).
Qed.

Lemma demo_frames_ok : frames_ok demo_frames.
Proof.
  split; cbn [demo_frames entries frame_list frame_map vm].
  - by apply (bool_decide_unpack _).
  - by vm_compute.
  - intros f. rewrite !elem_of_cons, elem_of_nil. split.
    + intros [->|[->|[]]]; eexists; reflexivity.
    + intros [e He]. rewrite lookup_insert_Some, lookup_singleton_Some in He. naive_solver.
  - intros k f. rewrite lookup_insert_Some, lookup_singleton_Some. split.
    + intros [[<- <-]|[_ [<- <-]]]; eexists; split; reflexivity.
    + intros (e & He & <-). rewrite lookup_insert_Some, lookup_singleton_Some in He.
      destruct He as [[<- <-]|[_ [<- <-]]]; [by left|right; by split].
  - intros f e He. rewrite lookup_insert_Some, lookup_singleton_Some in He. destruct He as [[_ <-]|[_ [_ <-]]]; cbn; unfold PHYS_BASE; lia.
  - exact demo_accessed_ok.
Qed.

(** The first frame is taken although it has been accessed and the second one has not. *)
Lemma frame_evicted_witness :
  pagedir_is_accessed (PGSIZE * 786689) 4096 demo_accessed = Ok true ∧ pagedir_is_accessed (PGSIZE * 786689) 8192 demo_accessed = Ok false ∧
  ∃ v, pick_frame_to_evict Policy demo_frames = Ok (1, set_vm (set_clock demo_frames (Elem 1)) v).
Proof.
  split; [vm_compute; reflexivity|]. split; [vm_compute; reflexivity|].
  destruct (frame_evicted demo_frames demo_frames_ok) as (_ & _ & H & _).
  destruct (H 1 (Entry 4096 (PGSIZE * 786692) 7 false 0) [2] eq_refl eq_refl) as (v & E & _). by exists v.
Defined.
